(* ===== verification/_CoqProject ===== *)
-Q . S2P
Prelude.v
EntryList.v
Freelist.v
FreelistInv.v
FreelistSpec.v
FreelistHeap.v
FreelistFrame.v
FreelistProofs.v
FreelistFree.v
FreelistSetup.v
FreelistTheorems.v
FreelistClient.v
Callout.v
CalloutProofs.v
CalloutInterrupt.v
CalloutTheorems.v
Kernel.v
KernelTheorems.v
SchedTheorems.v
SyncTheorems.v
KernelDemo.v
NoSched.v
NoSchedTheorems.v
Uptime.v
Malloc.v
MallocTheorems.v
Startup.v
Device.v
Memory.v
Ringbuf.v
StringCopy.v
StringScan.v
StringCat.v
StringTheorems.v
StringCatTheorems.v
Of.v
OfTheorems.v
Mbuf.v
Cksum.v
CksumTheorems.v
Qdivrem.v
QdivremTheorems.v
Net.v
NetProofs.v
NetArp.v
NetTheorems.v
NetOwner.v
Strto.v
StrtoTheorems.v
Sort.v
SortTheorems.v
Printf.v
PrintfStream.v
PrintfText.v
PrintfTheorems.v
Scanf.v
ScanfTheorems.v
Inet.v
InetTheorems.v
Time.v
TimeCalendar.v
TimeTheorems.v
I2c.v
I2cBus.v
I2cTheorems.v
Uart.v
UartTheorems.v
Font.v
FontTheorems.v
Smp.v
SmpProofs.v
SmpTheorems.v
Md5.v
Md5Theorems.v
Mqtt.v
MqttTheorems.v
MqttWire.v
