(* ===== verification/Prelude.v ===== *)
(** * mdepx: a verification library

    mdepx is a small real-time operating system in C for ARM, RISC-V and MIPS
    microcontrollers.  This library models its own core as executable functions and
    step relations and proves what makes it correct.

    ** The program and its models

    Every file of the library is a component, or the theorems of one.  A name of the
    model is the name in the source where Rocq allows it.

    Kernel data structures.
    - [EntryList]: the intrusive lists of include/sys/list.h, on a memory of next and
      prev fields.  It proves that a ring is the sequence of its entries; the other
      components keep the sequence.
    - [Freelist] (kernel/malloc/mdx_freelist.c, mdx_malloc_fl.c), the allocator, on a
      memory of header fields and boundary tags; [FreelistInv], [FreelistSpec],
      [FreelistHeap], [FreelistProofs], [FreelistFree], [FreelistSetup] hold its
      invariant, an abstract allocator on blocks, and the simulation between the two;
      [FreelistFrame] which headers malloc writes; [FreelistTheorems] and
      [FreelistClient] what follows for those who call it.  Headers and payload are maps
      over the same addresses; that no header is written over a payload is a theorem
      ([malloc_safe]).
    - [Malloc] (kernel/malloc/mdx_malloc_fl.c, kernel/thread/mdx_thread_create.c,
      kernel/timer/mdx_timer.c): malloc() and the dynamic threads and timers on top of
      the allocator and the kernel; [MallocTheorems].
    - [Mbuf] (kernel/systm/mdx_mbuf.c): packet buffers on top of malloc().
    - [Ringbuf] (kernel/systm/mdx_ringbuf.c): the ring that two sides share, one access
      to the shared memory at a time.

    Kernel control.
    - [Callout] (kernel/callout): the delta queue of timeouts and the timer interrupt;
      [CalloutProofs] reads the queue as a list of deadlines, [CalloutInterrupt] is about
      the handler, [CalloutTheorems] has the guarantees and their limits.
    - [Kernel] (include/sys/thread.h, arch/riscv/riscv/machdep.c, trap.c, kernel/sched,
      kernel/thread, kernel/timer): threads, critical sections, the scheduler,
      semaphores, mutexes, fifos, sleeping, periodic timers, exceptions with the frames
      of the threads (64-bit, without SMP and floating point).  A step is the code between entering and leaving a critical section; callouts are
      those of [Callout].  [KernelTheorems], [SchedTheorems], [SyncTheorems] are its
      theorems and [KernelDemo] a concrete system.
    - [NoSched] (kernel/nosched): waiting and sleeping in a kernel with one thread, as
      loops of turns against a list of interrupts; [NoSchedTheorems].  [Uptime]
      (kernel/timer/mdx_uptime.c, kernel/clock): the uptime and the clock.
    - [Smp] (kernel/sched/mdx_smp.c, arch/riscv/riscv/clint_intr.c): the rendezvous of the
      CPUs as a step relation over interleaved accesses; [SmpProofs], [SmpTheorems].
    - [Startup] (kernel/init/mdx_startup.c), [Device] (kernel/init/mdx_device.c), [Of],
      [OfTheorems] (kernel/of): initialisation, drivers and the device tree.

    C library (lib/libc).
    - [Memory], [StringCopy], [StringScan], [StringCat] and their theorems: memory of
      bytes, the copying, scanning, appending and comparing routines of lib/libc/string.
    - [Qdivrem]: division of quads.  [Sort]: qsort and bsearch.  [Strto]: strtol and its
      family, atoi, and ksprintn.  [Printf], [PrintfStream], [PrintfText]: kvprintf and
      the functions of printf.c.  [Scanf]: scanf.c.  [Inet]: inet_addr.c.  [Time],
      [TimeCalendar]: gmtime_r.c, mktime.c, strftime.c.  Their theorems are in the files
      named [...Theorems].

    Network, protocols and devices.
    - [Cksum] (kernel/net/netinet/in_cksum.c) and [Net] (the rest of kernel/net: Ethernet,
      ARP, IPv4, ICMP); [NetProofs], [NetArp], [NetOwner], [NetTheorems].
    - [Mqtt] (lib/mqtt): the MQTT client; [MqttTheorems], [MqttWire].
    - [Md5] (lib/md5).
    - [I2c], [I2cBus] (dev/i2c, dev/mc6470, dev/imx335, dev/bme680): the bit-banged
      master, a bus with a slave, and the register accesses of three sensors.
    - [Uart] (dev/uart/uart.c, uart_16550.c, kernel/systm/mdx_console.c,
      dev/mh_z19b/mh_z19b.c): the UART interface, the driver of the 16550, the console
      and the CO2 sensor; [UartTheorems] with the register map of the chip.
    - [Font] (lib/libfont): UTF-8 and fonts in the PCF format; [FontTheorems].

    Interaction.  [Malloc] runs [Freelist] inside the critical sections of [Kernel];
    [Mbuf] and the threads allocate with it; [Kernel] configures and cancels callouts of
    [Callout], whose callbacks are the timeouts of [Kernel]; [Net] computes checksums
    with [Cksum]; [Of] compares strings with [StringScan]; [Printf] and [Scanf] convert
    numbers with [Strto], and [Inet] reads what [Printf] wrote.  Interfaces are classes:
    [Arch] (word size), [Fdt] and [FdtLaws] (libfdt), [I2cOps] (two wires),
    [I2cDevice] (a slave), the transfer that the sensors are proved against, [UartOps] and
    [UartLaws] (a serial line), [Mmio] and [Ns16550] (the registers of a 16550).

    ** Conventions

    A function of the source that can fail returns [res]: the failures are panic, a
    failed KASSERT, a fault (undefined behaviour, or an access that the memory does not
    cover), waiting for ever, and, in the model only, the end of the fuel.  Integers
    are [Z] and wrap where the C type does ([u32], [s32], [u64], [wrap]).

    ** What the theorems show

    - Allocator: malloc and free implement the abstract allocator ([malloc_refines],
      [free_refines]); blocks are large enough and do not overlap, and no header in a payload changes
      ([malloc_safe]); free undoes malloc ([malloc_free_roundtrip]); [setup_establishes]
      starts the invariant, and [heap_session] carries it through any session of a client.
    - Callouts: the interrupt runs exactly the callbacks that are due, in the order of
      their deadlines, when they do not use callouts themselves ([callout_interrupt]); configuring and cancelling change the one
      deadline ([callout_set_deadline], [callout_cancel_deadline]).
    - Kernel: semaphores hand permits to waiters in order or count them, time out
      exactly once ([sem_post_refines], [sem_timedwait_refines], [sem_timeout_refines]);
      an exception or interrupt resumes the thread or picks the next, and returns the
      frame to restore ([exception_switch]);
      fifos and the shared ring are queues ([fifo_is_a_queue], [ring_is_a_queue]), and
      the linked lists are sequences ([ring_refines_sequence]).  Without a scheduler a
      wait is one with a clock, for every sequence of interrupts ([timedwait_refines],
      [timedwait_returns], [tsleep_wakes]).
    - Rendezvous: every interleaving is one of the specification
      ([rendezvous_refines]), and completion is always reachable while the
      masks name CPUs that run ([rendezvous_completes]).
    - C library: qsort returns a sorted permutation for any comparison
      that is a total preorder; division is division; strtol is the value of the longest
      numeral of the grammar of ISO C, saturated, but for a bare 0x; printf puts one stream
      of characters everywhere and prints what the conversions stand for, within the
      range of its ints; scanf reads back what printf wrote; addresses and dates
      survive a round trip; the word-wide comparison is the comparison of bytes.
    - Network: two hosts resolve an address, a ping is answered with a correct
      checksum (and low memory is overwritten through the NULL route), every packet is
      accounted for once at the end ([arp_exchange], [ping_reply],
      [input_conserves]); [in_cksum] is the sum of RFC 1071.
    - Protocols and devices: streaming MD5 is the digest of RFC 1321; the MQTT client
      never blocks itself and advances one request per packet; what it publishes a
      reader of MQTT 3.1.1 parses back; the master on the I2C bus performs
      the exchanges of bytes it is asked for; printf over the console and the 16550
      transmits its text ([uart_prints]), and a measurement of CO2 arrives or is refused
      ([co2_measured]); a character of a font in memory is drawn as its bitmap,
      one column to the right ([font_draws]), and UTF-8 text is read back ([utf8_text]).
    Lemmas in the modules named [...Bugs], and those that a finding names, show where the
    code does something else than it means to.

    ** Bounds and fuel

    A loop of the source is a fixpoint on its data where it has some.  Otherwise:
    walks of the free list take [walk_fuel], the number of header fields; the bucket of a
    size takes 32 rounds because a size has 32 bits; loops over a string take [scan_fuel],
    the number of mapped cells, since a string that does not end faults first; MD5's
    updates and Internet sums take one round per block or word; the digits of a number take
    64 because a quad has 64 bits; a correction of Algorithm D takes 3 and the shift of its
    divisor 16; qsort takes one round per element and one more; bsearch 65; kvprintf,
    strftime and vsscanf one per character of the format, strftime with a nesting of two; the walk from a
    node to the root of the device tree takes the offset of the node, because an offset
    decreases from child to parent; MQTT polls 11 times and sends in one round per byte;
    the timer interrupt takes one round more than callouts are queued; a poll of the UART
    takes as many rounds as the chip is slow.  The theorems of
    these functions state an [Ok] result, so the fuel is enough.

    Parameters: the machine word ([Arch], or [w], [lw] and whether char is signed), libfdt,
    the probe and attach methods of drivers, the network methods and callbacks of an MQTT
    application, the comparison of qsort, what malloc() and a network driver return to
    [Net], the wires of [I2cOps], the registers of a UART ([Mmio]), the time of the callouts' hardware counter, sizeof of a
    thread, and cells or variables that the source reads before it writes them.

    ** Not modelled

    Memory is sequentially consistent.  Left out: boot and register code in assembly,
    the drivers that only write registers, virtio (third-party code from the
    SLOF firmware), the probe and attach functions of the UART, floating point (MDX_FTOA,
    MDX_GDTOA, lib/ftoa), the CHERI variants, messages that are printed, the SMP-only
    scheduler functions, the compensation formulas of the BME680 vendor
    driver, and vendored libraries (lib/lvgl, lib/mbedtls, the CMSIS headers and the
    others), which are most of the repository. *)

From Stdlib Require Export ZArith Lia.
From stdpp Require Export base tactics numbers option functions sorting list gmap.
Local Open Scope Z_scope.

(** ** Outcomes of kernel code

    A C function of the kernel either returns, calls [panic()], fails a
    [KASSERT], touches memory that was never written (a fault), waits for ever,
    or (in the model only) exhausts the fuel of a loop. *)

Inductive failure :=
| Panic      (** the source calls panic() *)
| Kassert    (** a KASSERT of the source does not hold *)
| Fault      (** undefined behaviour: a read of a cell that holds no value, an
                 access out of bounds or misaligned, a signed overflow *)
| Blocked    (** a wait that nothing is left to end *)
| NoFuel.    (** the loop bound of the model was reached *)

Inductive res (A : Type) :=
| Ok (a : A)
| Err (e : failure).
Arguments Ok {A} a.
Arguments Err {A} e.

#[export] Instance res_ret : MRet res := λ A a, Ok a.
#[export] Instance res_bind : MBind res := λ A B f m,
  match m with Ok a => f a | Err e => Err e end.

Lemma Ok_bind {A B} (a : A) (f : A → res B) : (Ok a ≫= f) = f a.
Proof. done. Qed.

Lemma bind_inv {A B} (m : res A) (f : A → res B) y : (m ≫= f) = Ok y → ∃ x, m = Ok x ∧ f x = Ok y.
Proof. destruct m; [eauto|done]. Qed.

#[export] Instance failure_eq_dec : EqDecision failure.
Proof. solve_decision. Defined.

(** A [KASSERT] of the source. *)
Definition kassert (b : bool) : res unit := if b then Ok () else Err Kassert.

(** A read of a memory cell. *)
Definition load {A} (m : gmap Z A) (a : Z) : res A :=
  match m !! a with Some v => Ok v | None => Err Fault end.

Lemma load_Some {A} (m : gmap Z A) a v : m !! a = Some v → load m a = Ok v.
Proof. intros E. unfold load. by rewrite E. Qed.

Lemma load_inv {A} (ps : gmap Z A) m p : load ps m = Ok p → ps !! m = Some p.
Proof. unfold load. by destruct (ps !! m) as [?|]; intros [= ->]. Qed.

Definition is_ok {A} (r : res A) : bool :=
  match r with Ok _ => true | Err _ => false end.

(** ** Machine integers: a w-bit value is a [Z] in [0, 2^w). *)

Definition wrap (w z : Z) : Z := z mod 2 ^ w.
Abbreviation u8 := (wrap 8).
Abbreviation u16 := (wrap 16).
Abbreviation u32 := (wrap 32).
Abbreviation u64 := (wrap 64).

(** A signed w-bit value. *)
Definition swrap (w z : Z) : Z := (z + 2 ^ (w - 1)) mod 2 ^ w - 2 ^ (w - 1).
Abbreviation s32 := (swrap 32).
Abbreviation s64 := (swrap 64).

Lemma wrap_range w z : 0 ≤ w → 0 ≤ wrap w z < 2 ^ w.
Proof. intros. apply Z.mod_pos_bound. lia. Qed.

Lemma wrap_small w z : 0 ≤ z < 2 ^ w → wrap w z = z.
Proof. apply Z.mod_small. Qed.

Lemma swrap_small w z : 0 < w → - 2 ^ (w - 1) ≤ z < 2 ^ (w - 1) → swrap w z = z.
Proof.
  intros Hw Hz. unfold swrap.
  assert (2 ^ w = 2 * 2 ^ (w - 1)) as E.
  { rewrite <- Z.pow_succ_r by lia. f_equal. lia. }
  rewrite Z.mod_small; lia.
Qed.

(** The result of signed arithmetic of [w] bits; an overflow is undefined behaviour. *)
Definition signed (w z : Z) : res Z :=
  if (- 2 ^ (w - 1) <=? z) && (z <? 2 ^ (w - 1)) then Ok z else Err Fault.
Abbreviation int := (signed 32).

Lemma int_ok w z : - 2 ^ (w - 1) ≤ z < 2 ^ (w - 1) → signed w z = Ok z.
Proof. intros. unfold signed. destruct (Z.leb_spec (- 2 ^ (w - 1)) z), (Z.ltb_spec z (2 ^ (w - 1))); lia || done. Qed.

Lemma int_overflow w z : 2 ^ (w - 1) ≤ z → signed w z = Err Fault.
Proof. intros. unfold signed. destruct (Z.ltb_spec z (2 ^ (w - 1))); [lia|by rewrite andb_false_r]. Qed.

(** Adding a number to a multiple of a larger power of two sets its bits. *)
Lemma lor_add x y k : 0 ≤ k → 0 ≤ x < 2 ^ k → Z.lor x (y * 2 ^ k) = x + y * 2 ^ k.
Proof.
  intros Hk Hx. assert (Z.land x (y * 2 ^ k) = 0) as E.
  { apply Z.bits_inj'. intros n Hn. rewrite Z.land_spec, Z.bits_0.
    destruct (decide (n < k)).
    - by rewrite Z.mul_pow2_bits_low, andb_false_r by lia.
    - rewrite <- (Z.mod_small x (2 ^ k)), Z.mod_pow2_bits_high by lia. done. }
  by rewrite <- Z.lxor_lor, Z.add_nocarry_lxor.
Qed.

(** Testing a bit with a mask. *)
Lemma land_bit v k : 0 ≤ k → (Z.land v (2 ^ k) =? 0) = negb (Z.testbit v k).
Proof.
  intros Hk. destruct (Z.testbit v k) eqn:E; cbn [negb].
  - apply Z.eqb_neq. intros E0. apply (f_equal (λ z, Z.testbit z k)) in E0.
    by rewrite Z.land_spec, E, Z.pow2_bits_true, Z.bits_0 in E0.
  - apply Z.eqb_eq, Z.bits_inj'. intros n Hn. rewrite Z.land_spec, Z.bits_0.
    destruct (decide (n = k)) as [->|]; [by rewrite E|]. rewrite Z.pow2_bits_false by done. apply andb_false_r.
Qed.

(** A list of bytes. *)
Definition byte_list (l : list Z) : Prop := Forall (λ b, 0 ≤ b < 256) l.

Lemma byte_list_take n l : byte_list l → byte_list (take n l).
Proof. apply Forall_take. Qed.

(** ** Automation *)

Create HintDb mdx.
#[export] Hint Extern 1 (_ ≤ _) => lia : mdx.
#[export] Hint Extern 1 (_ < _) => lia : mdx.

(** Case analysis of the boolean comparisons of the code. *)
Ltac zcase :=
  repeat match goal with
  | |- context [Z.eqb ?a ?b] => destruct (Z.eqb_spec a b)
  | |- context [Z.ltb ?a ?b] => destruct (Z.ltb_spec a b)
  | |- context [Z.leb ?a ?b] => destruct (Z.leb_spec a b)
  | H : context [Z.eqb ?a ?b] |- _ => destruct (Z.eqb_spec a b)
  | H : context [Z.ltb ?a ?b] |- _ => destruct (Z.ltb_spec a b)
  | H : context [Z.leb ?a ?b] |- _ => destruct (Z.leb_spec a b)
  end.

(** Turn boolean comparisons in hypotheses into propositions. *)
Ltac bsimp :=
  repeat match goal with
  | H : (_ && _) = true |- _ => apply andb_prop in H as [? ?]
  | H : (_ || _) = false |- _ => apply orb_false_elim in H as [? ?]
  | H : negb _ = true |- _ => apply negb_true_iff in H
  | H : negb _ = false |- _ => apply negb_false_iff in H
  | H : Z.eqb _ _ = true |- _ => apply Z.eqb_eq in H
  | H : Z.eqb _ _ = false |- _ => apply Z.eqb_neq in H
  | H : Z.ltb _ _ = true |- _ => apply Z.ltb_lt in H
  | H : Z.ltb _ _ = false |- _ => apply Z.ltb_ge in H
  | H : Z.leb _ _ = true |- _ => apply Z.leb_le in H
  | H : Z.leb _ _ = false |- _ => apply Z.leb_gt in H
  end.

(** Step through a monadic program whose first action returned [Ok]. *)
Ltac inv_ok H :=
  repeat match type of H with
  | mbind _ ?m = Ok _ => let E := fresh "E" in destruct m eqn:E; simpl in H; [|discriminate H]
  | Err _ = Ok _ => discriminate H
  end.

(** Step over an arithmetic operation of 32 bits that does not overflow. *)
Ltac int_step :=
  match goal with |- context [mbind _ (signed 32 ?z)] =>
    rewrite (int_ok 32 z), Ok_bind by (change (2 ^ (32 - 1)) with 2147483648; lia) end.

(** Membership in a concatenation; cheaper than [set_solver] when the context
    quantifies over members. *)
Ltac mem :=
  rewrite ?elem_of_app, ?elem_of_cons, ?elem_of_app, ?elem_of_cons,
    ?list_elem_of_singleton in *; first [tauto | intuition congruence].

(** Membership in an explicit list. *)
Ltac elem := rewrite ?elem_of_cons; tauto.

(** ** Lists *)

Fixpoint zsum (l : list Z) : Z :=
  match l with [] => 0 | x :: l => x + zsum l end.

Lemma zsum_app l k : zsum (l ++ k) = zsum l + zsum k.
Proof. induction l as [|x l IH]; simpl; [done|]. rewrite IH. lia. Qed.

Lemma zsum_nonneg l : Forall (λ x, 0 ≤ x) l → 0 ≤ zsum l.
Proof. induction 1; simpl; lia. Qed.

#[export] Instance zsum_perm : Proper ((≡ₚ) ==> (=)) zsum.
Proof. induction 1; simpl; lia. Qed.

(** Every element but the last, and every element but the first: the sources
    and the targets of the arrows between neighbours. *)
Lemma removelast_cons_cons {A} (a b : A) l :
  removelast (a :: b :: l) = a :: removelast (b :: l).
Proof. done. Qed.

Lemma elem_of_removelast {A} (a : A) l : a ∈ removelast l → a ∈ l.
Proof.
  induction l as [|b [|c l] IH]; [done| |].
  - simpl. set_solver.
  - rewrite removelast_cons_cons. set_solver.
Qed.

Lemma NoDup_middle {A} (l k : list A) x :
  NoDup (l ++ x :: k) ↔ x ∉ l ++ k ∧ NoDup (l ++ k).
Proof. by rewrite <- Permutation_middle, NoDup_cons. Qed.

Lemma StronglySorted_delete {A} (R : relation A) l x k :
  StronglySorted R (l ++ x :: k) → StronglySorted R (l ++ k).
Proof.
  induction l as [|a l IH]; simpl; intros Hs; apply StronglySorted_inv in Hs as [Hs Hf]; [done|].
  constructor; [by apply IH|].
  rewrite Forall_app, Forall_cons in Hf. rewrite Forall_app. tauto.
Qed.

Lemma StronglySorted_insert {A} (R : relation A) l x k :
  StronglySorted R (l ++ k) → Forall (λ a, R a x) l → Forall (R x) k →
  StronglySorted R (l ++ x :: k).
Proof.
  induction l as [|a l IH]; simpl; intros Hs Hl Hk; [by constructor|].
  apply StronglySorted_inv in Hs as [Hs Hf]. apply Forall_cons in Hl as [Hl1 Hl2].
  constructor; [by apply IH|].
  rewrite Forall_app in Hf. rewrite Forall_app, Forall_cons. tauto.
Qed.

Lemma StronglySorted_app_r {A} (R : relation A) l k :
  StronglySorted R (l ++ k) → StronglySorted R k.
Proof. induction l; simpl; intros Hs; [done|]. apply StronglySorted_inv in Hs. tauto. Qed.

Lemma NoDup_length_size {A} (m : gmap Z A) (l : list Z) :
  NoDup l → Forall (λ a, is_Some (m !! a)) l → (length l ≤ size m)%nat.
Proof.
  intros Hnd Hin. rewrite <- size_dom.
  rewrite <- (size_list_to_set (C := gset Z) l Hnd).
  apply subseteq_size. intros a Ha. apply elem_of_list_to_set in Ha.
  apply elem_of_dom. rewrite Forall_forall in Hin. exact (Hin a Ha).
Qed.

(** ** Doubly linked segments

    The kernel links its objects by [next] and [prev] pointers.  The memory is
    one finite map per field, and [links nx pv l] says that consecutive
    elements of [l] point to each other. *)

Fixpoint links (nx pv : gmap Z Z) (l : list Z) : Prop :=
  match l with
  | a :: (b :: _) as l' => nx !! a = Some b ∧ pv !! b = Some a ∧ links nx pv l'
  | _ => True
  end.

Section links.
Implicit Types (nx pv : gmap Z Z) (l : list Z).

Lemma links_app nx pv l a k :
  links nx pv (l ++ a :: k) ↔ links nx pv (l ++ [a]) ∧ links nx pv (a :: k).
Proof.
  induction l as [|b [|c l] IH].
  - simpl. destruct k; tauto.
  - simpl. destruct k; tauto.
  - change ((b :: c :: l) ++ ?k) with (b :: c :: l ++ k) in *.
    change ((c :: l) ++ ?k) with (c :: l ++ k) in *. simpl in *. tauto.
Qed.

Lemma links_cons2 nx pv a b l :
  links nx pv (a :: b :: l) ↔
  nx !! a = Some b ∧ pv !! b = Some a ∧ links nx pv (b :: l).
Proof. done. Qed.

(** Only the cells of the sources (for [next]) and of the targets (for
    [prev]) matter. *)
Lemma links_ext nx pv nx' pv' l :
  (∀ a, a ∈ removelast l → nx' !! a = nx !! a) →
  (∀ b, b ∈ tail l → pv' !! b = pv !! b) →
  links nx pv l → links nx' pv' l.
Proof.
  induction l as [|a [|b l] IH]; [done|done|].
  intros Hn Hp (H1 & H2 & H3). rewrite removelast_cons_cons in Hn. simpl tail in Hp.
  split_and!.
  - rewrite Hn by set_solver. done.
  - rewrite Hp by set_solver. done.
  - apply IH; [| |done].
    + intros c Hc. apply Hn. set_solver.
    + intros c Hc. apply Hp. simpl in Hc. set_solver.
Qed.

Lemma links_insert_next nx pv l a v :
  a ∉ removelast l → links nx pv l → links (<[a:=v]> nx) pv l.
Proof.
  intros Ha. apply links_ext; [|done]. intros b Hb.
  rewrite lookup_insert_ne; [done|]. set_solver.
Qed.

Lemma links_insert_prev nx pv l a v :
  a ∉ tail l → links nx pv l → links nx (<[a:=v]> pv) l.
Proof.
  intros Ha. apply links_ext; [done|]. intros b Hb.
  rewrite lookup_insert_ne; [done|]. set_solver.
Qed.

Lemma links_next nx pv l a b k :
  links nx pv (l ++ a :: b :: k) → nx !! a = Some b.
Proof. rewrite links_app. simpl. tauto. Qed.

Lemma links_prev nx pv l a b k :
  links nx pv (l ++ a :: b :: k) → pv !! b = Some a.
Proof. rewrite links_app. simpl. tauto. Qed.

(** In a ring the head occurs at both ends, so only the sources and the
    targets of the arrows are free of duplicates. *)
Definition arrows_nodup (l : list Z) : Prop := NoDup (removelast l) ∧ NoDup (tail l).

Lemma NoDup_arrows l : NoDup l → arrows_nodup l.
Proof.
  intros Hl. split; [|destruct l; [done|by apply NoDup_cons in Hl as [_ ?]]].
  destruct (decide (l = [])) as [->|Hne]; [constructor|].
  destruct (exists_last Hne) as (k & a & ->). rewrite removelast_last.
  by apply NoDup_app in Hl as [? _].
Qed.

Lemma arrows_nodup_split l a b k :
  arrows_nodup (l ++ a :: b :: k) →
  a ∉ l ∧ a ∉ removelast (b :: k) ∧ b ∉ tail (l ++ [a]) ∧ b ∉ k.
Proof.
  intros [H1 H2]. rewrite removelast_app in H1 by done.
  rewrite removelast_cons_cons in H1.
  apply NoDup_app in H1 as (_ & Hd1 & H1). apply NoDup_cons in H1 as [Ha _].
  assert (tail (l ++ a :: b :: k) = tail (l ++ [a]) ++ b :: k) as E.
  { destruct l; [done|]. simpl. by rewrite <- app_assoc. }
  rewrite E in H2. apply NoDup_app in H2 as (_ & Hd2 & H2).
  apply NoDup_cons in H2 as [Hb _].
  split_and!; [|done| |done].
  - intros Hin. apply (Hd1 a Hin). set_solver.
  - intros Hin. apply (Hd2 b Hin). set_solver.
Qed.

(** The four pointer writes of an insertion of [e] between [a] and [b]. *)
Lemma links_splice nx pv l a e b k :
  links nx pv (l ++ a :: b :: k) →
  arrows_nodup (l ++ a :: b :: k) →
  e ∉ l ++ a :: b :: k →
  links (<[a:=e]> (<[e:=b]> nx)) (<[b:=e]> (<[e:=a]> pv)) (l ++ a :: e :: b :: k).
Proof.
  intros Hl (Ha & Ha' & Hb & Hb')%arrows_nodup_split He.
  rewrite links_app, !links_cons2 in Hl. destruct Hl as (Hl1 & Hab & Hba & Hbk).
  assert (a ≠ e ∧ b ≠ e) as [Hae Hbe] by set_solver.
  rewrite links_app, !links_cons2. split_and!.
  - eapply links_ext; [| |exact Hl1].
    + intros c Hc. rewrite removelast_last in Hc.
      rewrite !lookup_insert_ne by set_solver. done.
    + intros c Hc. rewrite lookup_insert_ne by set_solver.
      rewrite lookup_insert_ne; [done|].
      intros ->. apply He. assert (c ∈ l ++ [a]) by (destruct l; set_solver). set_solver.
  - by rewrite lookup_insert_eq.
  - rewrite lookup_insert_ne by done. by rewrite lookup_insert_eq.
  - rewrite lookup_insert_ne by done. by rewrite lookup_insert_eq.
  - by rewrite lookup_insert_eq.
  - eapply links_ext; [| |exact Hbk].
    + intros c Hc. rewrite lookup_insert_ne by set_solver.
      rewrite lookup_insert_ne; [done|].
      intros ->. apply He. apply elem_of_removelast in Hc. set_solver.
    + intros c Hc. simpl in Hc. rewrite !lookup_insert_ne by set_solver. done.
Qed.

(** Appending [e] after the last cell. *)
Lemma links_snoc nx pv l a e :
  links nx pv (l ++ [a]) → NoDup (l ++ [a]) → e ∉ l ++ [a] →
  links (<[a:=e]> nx) (<[e:=a]> pv) (l ++ [a; e]).
Proof.
  intros Hl Hnd He. rewrite links_app, links_cons2. split_and!.
  - eapply links_ext; [| |exact Hl].
    + intros c Hc. rewrite removelast_last in Hc.
      apply NoDup_app in Hnd as (_ & Hnd & _).
      rewrite lookup_insert_ne; [done|]. set_solver.
    + intros c Hc. rewrite lookup_insert_ne; [done|].
      intros ->. apply He. destruct l; set_solver.
  - by rewrite lookup_insert_eq.
  - by rewrite lookup_insert_eq.
  - done.
Qed.

Lemma arrows_nodup_delete l a e b k :
  arrows_nodup (l ++ a :: e :: b :: k) → arrows_nodup (l ++ a :: b :: k).
Proof.
  unfold arrows_nodup. rewrite !removelast_app, !removelast_cons_cons by done.
  intros [H1 H2]. split.
  - eapply sublist_NoDup; [exact H1|]. apply sublist_app; [done|].
    apply sublist_skip, sublist_cons. done.
  - eapply sublist_NoDup; [exact H2|]. destruct l as [|c l]; simpl.
    + by apply sublist_cons.
    + apply sublist_app; [done|]. by apply sublist_skip, sublist_cons.
Qed.

(** The two pointer writes that unlink [e]. *)
Lemma links_unlink nx pv l a e b k :
  links nx pv (l ++ a :: e :: b :: k) →
  arrows_nodup (l ++ a :: e :: b :: k) →
  links (<[a:=b]> nx) (<[b:=a]> pv) (l ++ a :: b :: k).
Proof.
  intros Hl (Ha & Ha' & Hb & Hb')%arrows_nodup_delete%arrows_nodup_split.
  rewrite links_app, !links_cons2 in Hl. destruct Hl as (Hl1 & _ & _ & _ & _ & Hbk).
  rewrite links_app, !links_cons2. split_and!.
  - eapply links_ext; [| |exact Hl1].
    + intros c Hc. rewrite removelast_last in Hc.
      rewrite lookup_insert_ne by set_solver. done.
    + intros c Hc. rewrite lookup_insert_ne by set_solver. done.
  - by rewrite lookup_insert_eq.
  - by rewrite lookup_insert_eq.
  - eapply links_ext; [| |exact Hbk].
    + intros c Hc. rewrite lookup_insert_ne by set_solver. done.
    + intros c Hc. simpl in Hc. rewrite lookup_insert_ne by set_solver. done.
Qed.
End links.
