(* ===== verification/EntryList.v ===== *)
(** * The intrusive doubly linked list (include/sys/list.h)

    Every queue of the kernel (run queues, semaphore wait queues, callouts,
    fifos, the device list) is a ring of [struct entry] cells.  The memory is
    one map per field; a read of a cell that was never written is a fault.
    [dll m l xs] is the abstraction: the ring with head [l] holds exactly the
    entries [xs], in order.  The components above use the abstract list; the
    theorems here are what entitles them to it. *)

From S2P Require Import Prelude.
Local Open Scope Z_scope.

(** [struct entry], one map per field. *)
Record emem := { e_next : gmap Z Z; e_prev : gmap Z Z }.

Definition st_next (a v : Z) (m : emem) : emem :=
  {| e_next := <[a:=v]> (e_next m); e_prev := e_prev m |}.
Definition st_prev (a v : Z) (m : emem) : emem :=
  {| e_next := e_next m; e_prev := <[a:=v]> (e_prev m) |}.

Definition list_init (e : Z) (m : emem) : emem := st_prev e e (st_next e e m).

Definition list_prepend (l e : Z) (m : emem) : res emem :=
  n ← load (e_next m) l;
  let m := st_next e n m in
  let m := st_prev e l m in
  n ← load (e_next m) e;
  let m := st_prev n e m in
  p ← load (e_prev m) e;
  Ok (st_next p e m).

Definition list_insert (l e : Z) (m : emem) : res emem :=
  let m := st_next e l m in
  p ← load (e_prev m) l;
  let m := st_prev e p m in
  n ← load (e_next m) e;
  let m := st_prev n e m in
  p ← load (e_prev m) e;
  Ok (st_next p e m).

Definition list_append (l e : Z) (m : emem) : res emem :=
  let m := st_next e l m in
  p ← load (e_prev m) l;
  let m := st_prev e p m in
  n ← load (e_next m) e;
  let m := st_prev n e m in
  p ← load (e_prev m) e;
  Ok (st_next p e m).

Definition list_remove (e : Z) (m : emem) : res emem :=
  p ← load (e_prev m) e;
  n ← load (e_next m) e;
  let m := st_next p n m in
  n ← load (e_next m) e;
  p ← load (e_prev m) e;
  let m := st_prev n p m in
  Ok (list_init e m).

Definition list_empty (l : Z) (m : emem) : res bool :=
  n ← load (e_next m) l;
  Ok (n =? l).

(** ** The abstraction *)

Definition ring (l : Z) (xs : list Z) : list Z := l :: xs ++ [l].

Definition dll (m : emem) (l : Z) (xs : list Z) : Prop :=
  NoDup (l :: xs) ∧ links (e_next m) (e_prev m) (ring l xs).

(** The cells of [S] are the only ones a step changes. *)
Definition only_changes (S : list Z) (m m' : emem) : Prop :=
  ∀ a, a ∉ S → e_next m' !! a = e_next m !! a ∧ e_prev m' !! a = e_prev m !! a.

Section dll.
Implicit Types (m : emem) (l e : Z) (xs ys : list Z).

Lemma ring_arrows l xs : NoDup (l :: xs) → arrows_nodup (ring l xs).
Proof.
  intros Hnd. unfold arrows_nodup, ring.
  change (l :: xs ++ [l]) with ((l :: xs) ++ [l]). rewrite removelast_last.
  split; [done|]. simpl. apply NoDup_cons in Hnd as [? ?].
  apply NoDup_app. split_and!; [done| |apply NoDup_singleton]. set_solver.
Qed.

(** A ring is not affected by a step elsewhere. *)
Lemma dll_frame m m' S l xs :
  only_changes S m m' → (∀ a, a ∈ l :: xs → a ∉ S) → dll m l xs → dll m' l xs.
Proof.
  intros Hch HS [Hnd Hl]. split; [done|].
  eapply links_ext; [| |exact Hl]; intros a Ha; apply Hch, HS.
  - unfold ring in Ha. change (l :: xs ++ [l]) with ((l :: xs) ++ [l]) in Ha.
    by rewrite removelast_last in Ha.
  - simpl in Ha. set_solver.
Qed.

Lemma list_init_dll m e : dll (list_init e m) e [].
Proof.
  split; [apply NoDup_singleton|]. simpl.
  by rewrite !lookup_insert_eq.
Qed.

Lemma list_init_frame m e : only_changes [e] m (list_init e m).
Proof. intros a Ha. simpl. by rewrite !lookup_insert_ne by set_solver. Qed.

Lemma list_empty_spec m l xs :
  dll m l xs → list_empty l m = Ok (bool_decide (xs = [])).
Proof.
  intros [Hnd Hl]. unfold list_empty, ring in *. destruct xs as [|x xs].
  - destruct Hl as (H1 & _). unfold load. rewrite H1. simpl.
    by rewrite Z.eqb_refl.
  - destruct Hl as (H1 & _). unfold load. rewrite H1. simpl.
    apply NoDup_cons in Hnd as [Hx _].
    f_equal. apply Z.eqb_neq. set_solver.
Qed.

(** The writes of an insertion before the cell [b] of a ring. *)
Lemma insert_before_links m l e b xs ys a :
  links (e_next m) (e_prev m) (xs ++ a :: b :: ys) →
  arrows_nodup (xs ++ a :: b :: ys) → e ∉ xs ++ a :: b :: ys →
  l = b →
  ∃ m', list_insert l e m = Ok m' ∧
    links (e_next m') (e_prev m') (xs ++ a :: e :: b :: ys) ∧
    only_changes [a; e; b] m m'.
Proof.
  intros Hl Hnd He ->.
  assert (a ≠ e ∧ b ≠ e) as [Hae Hbe] by set_solver.
  pose proof (links_prev _ _ _ _ _ _ Hl) as Hp.
  unfold list_insert, load. simpl. rewrite Hp. simpl.
  rewrite lookup_insert_eq. simpl.
  rewrite lookup_insert_ne by done. rewrite lookup_insert_eq. simpl.
  eexists. split_and!; [reflexivity|by apply links_splice|].
  intros c Hc. simpl. rewrite !lookup_insert_ne by set_solver. done.
Qed.

Lemma list_insert_spec m l e x xs ys :
  dll m l (xs ++ x :: ys) → e ∉ l :: xs ++ x :: ys →
  ∃ m', list_insert x e m = Ok m' ∧ dll m' l (xs ++ e :: x :: ys) ∧
    only_changes (e :: l :: xs ++ x :: ys) m m'.
Proof.
  intros [Hnd Hl] He.
  assert (∃ ps a, l :: xs = ps ++ [a]) as (ps & a & E).
  { destruct (exists_last (l := l :: xs)) as (ps & a & E); [done|eauto]. }
  assert (ring l (xs ++ x :: ys) = ps ++ a :: x :: ys ++ [l]) as Er.
  { unfold ring. change (l :: ?t ++ ?u) with ((l :: t) ++ u).
    change (l :: xs ++ x :: ys) with ((l :: xs) ++ x :: ys).
    rewrite E, <- !app_assoc. done. }
  pose proof (ring_arrows _ _ Hnd) as Har. rewrite Er in Hl, Har.
  destruct (insert_before_links m x e x ps (ys ++ [l]) a Hl Har) as (m' & H1 & H2 & H3).
  { rewrite <- Er. unfold ring. set_solver. }
  { done. }
  exists m'. split_and!; [done| |].
  - split.
    { rewrite (app_comm_cons xs), NoDup_middle. split; [set_solver|done]. }
    replace (ring l (xs ++ e :: x :: ys)) with (ps ++ a :: e :: x :: ys ++ [l]); [done|].
    unfold ring. change (l :: ?t ++ ?u) with ((l :: t) ++ u).
    change (l :: xs ++ e :: x :: ys) with ((l :: xs) ++ e :: x :: ys).
    rewrite E, <- !app_assoc. done.
  - intros c Hc. apply H3. assert (a ∈ l :: xs) by (rewrite E; set_solver). set_solver.
Qed.

Lemma list_append_spec m l e xs :
  dll m l xs → e ∉ l :: xs →
  ∃ m', list_append l e m = Ok m' ∧ dll m' l (xs ++ [e]) ∧
    only_changes (e :: l :: xs) m m'.
Proof.
  intros [Hnd Hl] He.
  assert (∃ ps a, l :: xs = ps ++ [a]) as (ps & a & E).
  { destruct (exists_last (l := l :: xs)) as (ps & a & E); [done|eauto]. }
  assert (ring l xs = ps ++ a :: l :: []) as Er.
  { unfold ring. change (l :: xs ++ [l]) with ((l :: xs) ++ [l]).
    rewrite E, <- app_assoc. done. }
  pose proof (ring_arrows _ _ Hnd) as Har. rewrite Er in Hl, Har.
  destruct (insert_before_links m l e l ps [] a Hl Har) as (m' & H1 & H2 & H3).
  { rewrite <- Er. unfold ring. set_solver. }
  { done. }
  exists m'. split_and!; [done| |].
  - split.
    { rewrite (app_comm_cons xs), NoDup_middle, app_nil_r. split; [set_solver|done]. }
    replace (ring l (xs ++ [e])) with (ps ++ a :: e :: [l]); [done|].
    unfold ring. change (l :: ?t ++ [l]) with ((l :: t) ++ [l]).
    change (l :: xs ++ [e]) with ((l :: xs) ++ [e]).
    rewrite E, <- !app_assoc. done.
  - intros c Hc. apply H3. assert (a ∈ l :: xs) by (rewrite E; set_solver). set_solver.
Qed.

Lemma list_prepend_spec m l e xs :
  dll m l xs → e ∉ l :: xs →
  ∃ m', list_prepend l e m = Ok m' ∧ dll m' l (e :: xs) ∧
    only_changes (e :: l :: xs) m m'.
Proof.
  intros [Hnd Hl] He.
  assert (∃ b ys, xs ++ [l] = b :: ys) as (b & ys & E) by (destruct xs; eauto).
  pose proof (ring_arrows _ _ Hnd) as Har. unfold ring in Hl, Har. rewrite E in Hl, Har.
  assert (b ≠ e ∧ l ≠ e) as [Hbe Hle].
  { assert (b ∈ xs ++ [l]) by (rewrite E; set_solver). set_solver. }
  pose proof (proj1 (proj1 (links_cons2 _ _ _ _ _) Hl)) as Hn.
  unfold list_prepend, load. rewrite Hn. simpl. rewrite lookup_insert_eq. simpl.
  rewrite lookup_insert_ne, lookup_insert_eq by done. simpl.
  eexists. split; [reflexivity|]. split; [split|].
  - rewrite !NoDup_cons in *. set_solver.
  - unfold ring. simpl app. rewrite E.
    apply (links_splice _ _ [] l e b ys); [done|done|].
    simpl. rewrite <- E. set_solver.
  - intros c Hc. simpl. assert (b ∈ xs ++ [l]) by (rewrite E; set_solver).
    rewrite !lookup_insert_ne by set_solver. done.
Qed.

Lemma list_remove_spec m l e xs ys :
  dll m l (xs ++ e :: ys) →
  ∃ m', list_remove e m = Ok m' ∧ dll m' l (xs ++ ys) ∧ dll m' e [] ∧
    only_changes (l :: xs ++ e :: ys) m m'.
Proof.
  intros [Hnd Hl].
  assert (∃ ps a, l :: xs = ps ++ [a]) as (ps & a & E).
  { destruct (exists_last (l := l :: xs)) as (ps & a & E); [done|eauto]. }
  assert (∃ b qs, ys ++ [l] = b :: qs) as (b & qs & E') by (destruct ys; eauto).
  assert (ring l (xs ++ e :: ys) = ps ++ a :: e :: b :: qs) as Er.
  { unfold ring. change (l :: ?t ++ ?u) with ((l :: t) ++ u).
    change (l :: xs ++ e :: ys) with ((l :: xs) ++ e :: ys).
    rewrite E, <- !app_assoc. simpl. by rewrite E'. }
  pose proof (ring_arrows _ _ Hnd) as Har. rewrite Er in Hl, Har.
  assert (a ≠ e ∧ b ≠ e) as [Hae Hbe].
  { assert (a ∈ l :: xs) by (rewrite E; set_solver).
    assert (b ∈ ys ++ [l]) by (rewrite E'; set_solver).
    rewrite app_comm_cons, NoDup_middle in Hnd. set_solver. }
  pose proof (links_prev _ _ _ _ _ _ Hl) as Hp.
  assert (e_next m !! e = Some b) as Hn.
  { apply (links_next (e_next m) (e_prev m) (ps ++ [a]) e b qs). by rewrite <- app_assoc. }
  unfold list_remove, load. rewrite Hp. simpl. rewrite Hn. simpl.
  rewrite lookup_insert_ne by done. rewrite Hn. simpl. rewrite Hp. simpl.
  eexists. split; [reflexivity|]. split; [|split].
  - split; [by rewrite app_comm_cons, NoDup_middle in Hnd; destruct Hnd|].
    replace (ring l (xs ++ ys)) with (ps ++ a :: b :: qs).
    2:{ unfold ring. change (l :: ?t ++ ?u) with ((l :: t) ++ u).
        change (l :: xs ++ ys) with ((l :: xs) ++ ys).
        rewrite E, <- !app_assoc. simpl. by rewrite E'. }
    assert (e ∉ ps ++ a :: b :: qs).
    { intros He. assert (e ∈ (l :: xs) ++ ys ++ [l]).
      { rewrite E, E', <- app_assoc. done. }
      rewrite app_comm_cons, NoDup_middle in Hnd. set_solver. }
    simpl. eapply links_ext; [| |apply (links_unlink _ _ _ _ _ _ _ Hl Har)].
    + intros c Hc%elem_of_removelast. rewrite lookup_insert_ne by set_solver. done.
    + intros c Hc. rewrite lookup_insert_ne; [done|].
      intros ->. apply H. destruct ps; set_solver.
  - apply list_init_dll.
  - intros c Hc. simpl.
    assert (a ∈ l :: xs) by (rewrite E; set_solver).
    assert (b ∈ ys ++ [l]) by (rewrite E'; set_solver).
    rewrite !lookup_insert_ne by set_solver. done.
Qed.
End dll.

(** ** The ring operations refine operations on sequences *)

(** C17: [list_append], [list_prepend], [list_insert] (before an entry of the
    ring) and [list_remove] never fault on a ring and a fresh entry (an entry
    of the ring for removal); they turn the ring of [xs] into the ring of the
    sequence with the entry added at the end, at the front, before [x], or
    taken out (the removed entry is left a ring of its own), [list_empty]
    decides emptiness, and any disjoint ring [l'] keeps its sequence. *)
Theorem ring_refines_sequence (m : emem) (l e : Z) (xs ys : list Z) (l' : Z) (zs : list Z) :
  dll m l' zs → (∀ a, a ∈ l' :: zs → a ∉ e :: l :: xs ++ ys) →
  (dll m l (xs ++ ys) → e ∉ l :: xs ++ ys →
     list_empty l m = Ok (bool_decide (xs ++ ys = [])) ∧
     (∃ m', list_append l e m = Ok m' ∧ dll m' l ((xs ++ ys) ++ [e]) ∧ dll m' l' zs) ∧
     (∃ m', list_prepend l e m = Ok m' ∧ dll m' l (e :: xs ++ ys) ∧ dll m' l' zs) ∧
     (∀ x ys', ys = x :: ys' →
        ∃ m', list_insert x e m = Ok m' ∧ dll m' l (xs ++ e :: x :: ys') ∧ dll m' l' zs)) ∧
  (dll m l (xs ++ e :: ys) →
     ∃ m', list_remove e m = Ok m' ∧ dll m' l (xs ++ ys) ∧ dll m' e [] ∧ dll m' l' zs).
Proof.
  intros Hf Hd. split.
  - intros Hr He. split_and!; [by apply list_empty_spec| | |].
    + destruct (list_append_spec m l e (xs ++ ys) Hr He) as (m' & ? & ? & Hc).
      eauto using dll_frame.
    + destruct (list_prepend_spec m l e (xs ++ ys) Hr He) as (m' & ? & ? & Hc).
      eauto using dll_frame.
    + intros x ys' ->.
      destruct (list_insert_spec m l e x xs ys' Hr He) as (m' & ? & ? & Hc).
      eauto using dll_frame.
  - intros Hr. destruct (list_remove_spec m l e xs ys Hr) as (m' & ? & ? & ? & Hc).
    exists m'. split_and!; [done|done|done|]. eapply dll_frame; [exact Hc| |exact Hf].
    intros a Ha Hin. apply (Hd a Ha). mem.
Qed.

Definition two_rings : emem := list_init 300 (list_init 100 {| e_next := ∅; e_prev := ∅ |}).

Lemma ring_refines_sequence_witness :
  ∃ m', list_append 100 200 two_rings = Ok m' ∧ dll m' 100 [200] ∧ dll m' 300 [].
Proof.
  assert (dll two_rings 300 []) as H3 by apply list_init_dll.
  assert (dll two_rings 100 []) as H1.
  { eapply dll_frame; [apply list_init_frame| |apply list_init_dll].
    intros a ->%list_elem_of_singleton. by rewrite list_elem_of_singleton. }
  destruct (ring_refines_sequence two_rings 100 200 [] [] 300 []) as [Hr _]; [done| |].
  { intros a ->%list_elem_of_singleton. rewrite !elem_of_cons, elem_of_nil. lia. }
  destruct Hr as (_ & Ha & _); [done| |exact Ha].
  rewrite list_elem_of_singleton. lia.
Defined.
