(* ===== verification/Freelist.v ===== *)
(** * The free list allocator (kernel/malloc/mdx_freelist.c, mdx_malloc_fl.c)

    The allocator keeps a header [struct node_s] in front of every block and
    threads the free blocks on one NULL terminated list in which 32 dummy
    nodes (the array [nodelist] of the zone) separate the size classes.

    The memory is one map per header field plus the payload bytes.  A load of a
    field that was never written faults, and so does a store to a header that
    does not lie in the memory the allocator was given ([owned]: the zone and
    the regions), so a run that ends in [Ok] wrote nothing but its own memory.  All these
    maps are over the same addresses, and a header store does not change [bytes]: that no
    header is written over the payload of a block is therefore proved on the headers,
    in [FreelistTheorems.malloc_safe], and not read off the maps. *)

From S2P Require Import Prelude.
Local Open Scope Z_scope.

(** The ABI: the width of a pointer and of [size_t].  The header is two
    pointers and two 32-bit words. *)
Class Arch := {
  PTR_W : Z;
  arch_ok : PTR_W = 32 ∨ PTR_W = 64
}.

#[export] Instance arch32 : Arch := {| PTR_W := 32; arch_ok := or_introl eq_refl |}.
Definition arch64 : Arch := {| PTR_W := 64; arch_ok := or_intror eq_refl |}.

(** [struct node_s], one map per field, and the payload bytes. *)
Record fmem := {
  n_next : gmap Z Z;
  n_prev : gmap Z Z;
  n_size : gmap Z Z;
  n_flags : gmap Z Z;
  bytes : gmap Z Z;
  owned : list (Z * Z)   (** the intervals [lo, hi) given to the allocator *)
}.

(** The raw stores. *)
Definition w_next (a v : Z) (m : fmem) : fmem :=
  {| n_next := <[a:=v]> (n_next m); n_prev := n_prev m; n_size := n_size m;
     n_flags := n_flags m; bytes := bytes m; owned := owned m |}.
Definition w_prev (a v : Z) (m : fmem) : fmem :=
  {| n_next := n_next m; n_prev := <[a:=v]> (n_prev m); n_size := n_size m;
     n_flags := n_flags m; bytes := bytes m; owned := owned m |}.
Definition w_size (a v : Z) (m : fmem) : fmem :=
  {| n_next := n_next m; n_prev := n_prev m; n_size := <[a:=v]> (n_size m);
     n_flags := n_flags m; bytes := bytes m; owned := owned m |}.
Definition w_flags (a v : Z) (m : fmem) : fmem :=
  {| n_next := n_next m; n_prev := n_prev m; n_size := n_size m;
     n_flags := <[a:=v]> (n_flags m); bytes := bytes m; owned := owned m |}.

Definition FLAG_ALLOCATED : Z := 2 ^ 31.

Section Model.
Context `{Arch}.

Definition NODE_S : Z := 2 * (PTR_W / 8) + 8.

Definition owns (m : fmem) (a : Z) : bool :=
  existsb (λ '(lo, hi), (lo <=? a) && (a + NODE_S <=? hi)) (owned m).

Definition st_next (a v : Z) (m : fmem) : res fmem :=
  if owns m a then Ok (w_next a v m) else Err Fault.
Definition st_prev (a v : Z) (m : fmem) : res fmem :=
  if owns m a then Ok (w_prev a v m) else Err Fault.
Definition st_size (a v : Z) (m : fmem) : res fmem :=
  if owns m a then Ok (w_size a (u32 v) m) else Err Fault.
Definition st_flags (a v : Z) (m : fmem) : res fmem :=
  if owns m a then Ok (w_flags a (u32 v) m) else Err Fault.
Definition st_bytes (f : gmap Z Z → gmap Z Z) (m : fmem) : fmem :=
  {| n_next := n_next m; n_prev := n_prev m; n_size := n_size m;
     n_flags := n_flags m; bytes := f (bytes m); owned := owned m |}.

(** [&fl->nodelist[i]] *)
Definition nodelist (fl i : Z) : Z := fl + i * NODE_S.

(** The loop [while (size > 1) { size >>= 1; i++; }]; a 32-bit value is
    exhausted after 32 rounds. *)
Fixpoint size2i_loop (fuel : nat) (size i : Z) : Z :=
  match fuel with
  | O => i
  | S fuel => if 1 <? size then size2i_loop fuel (Z.shiftr size 1) (i + 1) else i
  end.

Definition size2i (size : Z) : Z := size2i_loop 32 (Z.shiftr size 4) 0.

(** Loop bound for walks along the free list. *)
Definition walk_fuel (m : fmem) : nat := S (size (n_next m)).

Fixpoint add_scan (fuel : nat) (m : fmem) (node prev next : Z) : res (Z * Z) :=
  match fuel with
  | O => Err NoFuel
  | S fuel =>
    if next =? 0 then Ok (prev, next) else
    ns ← load (n_size m) next;
    if ns =? 0 then Ok (prev, next) else
    sz ← load (n_size m) node;
    if ns <? sz then
      nn ← load (n_next m) next;
      add_scan fuel m node next nn
    else Ok (prev, next)
  end.

Definition mdx_fl_add_node (fl node : Z) (m : fmem) : res fmem :=
  sz ← load (n_size m) node;
  let i := size2i sz in
  nx ← load (n_next m) (nodelist fl i);
  '(prev, next) ← add_scan (walk_fuel m) m node (nodelist fl i) nx;
  m ← st_next prev node m;
  m ← st_prev node prev m;
  m ← st_next node next m;
  if next =? 0 then Ok m else st_prev next node m.

Definition mdx_fl_add_region (fl base size : Z) (m : fmem) : res fmem :=
  m ← st_size base NODE_S m;
  m ← st_flags base FLAG_ALLOCATED m;
  let node := base + NODE_S in
  m ← st_size node (size - 2 * NODE_S) m;
  m ← st_flags node NODE_S m;
  m ← mdx_fl_add_node fl node m;
  let node := base + (size - NODE_S) in
  m ← st_size node NODE_S m;
  st_flags node (Z.lor (size - 2 * NODE_S) FLAG_ALLOCATED) m.

(** [memset(&fl->nodelist, 0, NODE_S * 32)] *)
Fixpoint clear_nodes (n : nat) (fl : Z) (m : fmem) : res fmem :=
  match n with
  | O => Ok m
  | S n =>
    m ← clear_nodes n fl m;
    let a := nodelist fl (Z.of_nat n) in
    m ← st_next a 0 m;
    m ← st_prev a 0 m;
    m ← st_size a 0 m;
    st_flags a 0 m
  end.

(** [for (i = 1; i < 32; i++)]: after [n] rounds, i = 1 + n. *)
Fixpoint link_nodes (n : nat) (fl : Z) (m : fmem) : res fmem :=
  match n with
  | O => Ok m
  | S n =>
    m ← link_nodes n fl m;
    let i := 1 + Z.of_nat n in
    m ← st_next (nodelist fl (i - 1)) (nodelist fl i) m;
    st_prev (nodelist fl i) (nodelist fl (i - 1)) m
  end.

Definition mdx_fl_init (fl : Z) (m : fmem) : res fmem :=
  m ← clear_nodes 32 fl m;
  link_nodes 31 fl m.

Fixpoint count_loop (fuel : nat) (m : fmem) (node size : Z) : res Z :=
  match fuel with
  | O => Err NoFuel
  | S fuel =>
    if node =? 0 then Ok size else
    sz ← load (n_size m) node;
    nx ← load (n_next m) node;
    count_loop fuel m nx (u32 (size + sz))
  end.

Definition mdx_fl_count (fl : Z) (m : fmem) : res Z :=
  count_loop (walk_fuel m) m (nodelist fl 0) 0.

(** [while (size & 0xf) size += 1;] on [size_t]. *)
Fixpoint align_loop (fuel : nat) (size : Z) : Z :=
  match fuel with
  | O => size
  | S fuel => if Z.land size 15 =? 0 then size else align_loop fuel (wrap PTR_W (size + 1))
  end.
Definition align16 (size : Z) : Z := align_loop 16 size.

(** [for (node = ...; node && (node->size < size); node = node->next);] *)
Fixpoint find_fit (fuel : nat) (m : fmem) (node size : Z) : res Z :=
  match fuel with
  | O => Err NoFuel
  | S fuel =>
    if node =? 0 then Ok 0 else
    sz ← load (n_size m) node;
    if sz <? size then
      nx ← load (n_next m) node;
      find_fit fuel m nx size
    else Ok node
  end.

(** The "Remove node" statements, which the source repeats in
    mdx_fl_malloc, mdx_fl_free (twice) and mdx_fl_realloc (three times). *)
Definition unlink (node : Z) (m : fmem) : res fmem :=
  p ← load (n_prev m) node;
  n ← load (n_next m) node;
  m ← st_next p n m;
  n ← load (n_next m) node;
  if n =? 0 then Ok m else
  p ← load (n_prev m) node;
  st_prev n p m.

(** [x->flags &= FLAG_ALLOCATED; x->flags |= v;] *)
Definition set_prev_size (x v : Z) (m : fmem) : res fmem :=
  f ← load (n_flags m) x;
  m ← st_flags x (Z.land f FLAG_ALLOCATED) m;
  f ← load (n_flags m) x;
  st_flags x (Z.lor f (u32 v)) m.

Definition mdx_fl_malloc (fl size : Z) (m : fmem) : res (Z * fmem) :=
  if size <=? 0 then Ok (0, m) else
  let size := align16 (wrap PTR_W (size + NODE_S)) in
  let i := size2i (u32 size) in
  node ← load (n_next m) (nodelist fl i);
  node ← find_fit (walk_fuel m) m node size;
  if node =? 0 then Ok (0, m) else
  m ← unlink node m;
  sz ← load (n_size m) node;
  let avail := s32 (wrap PTR_W (sz - size)) in
  m ← (if NODE_S <? wrap PTR_W avail then
         let next := node + sz in
         m ← set_prev_size next avail m;
         m ← st_size node size m;
         let new := node + size in
         m ← st_size new avail m;
         m ← st_flags new size m;
         mdx_fl_add_node fl new m
       else Ok m);
  f ← load (n_flags m) node;
  m ← st_flags node (Z.lor f FLAG_ALLOCATED) m;
  m ← st_next node 0 m;
  m ← st_prev node 0 m;
  Ok (node + NODE_S, m).

Definition mdx_fl_free (fl ptr : Z) (m : fmem) : res fmem :=
  if ptr =? 0 then Ok m else
  let node := ptr - NODE_S in
  f ← load (n_flags m) node;
  m ← st_flags node (Z.ldiff f FLAG_ALLOCATED) m;
  sz ← load (n_size m) node;
  let next := node + sz in
  nf ← load (n_flags m) next;
  '(next, m) ←
    (if Z.land nf FLAG_ALLOCATED =? 0 then
       nsz ← load (n_size m) next;
       let subseq := next + nsz in
       m ← unlink next m;
       sz ← load (n_size m) node;
       nsz ← load (n_size m) next;
       m ← st_size node (sz + nsz) m;
       sz ← load (n_size m) node;
       m ← set_prev_size subseq sz m;
       Ok (subseq, m)
     else Ok (next, m));
  f ← load (n_flags m) node;
  let prev := node - f in
  pf ← load (n_flags m) prev;
  '(node, m) ←
    (if Z.land pf FLAG_ALLOCATED =? 0 then
       m ← unlink prev m;
       psz ← load (n_size m) prev;
       sz ← load (n_size m) node;
       m ← st_size prev (psz + sz) m;
       psz ← load (n_size m) prev;
       m ← set_prev_size next psz m;
       Ok (prev, m)
     else Ok (node, m));
  mdx_fl_add_node fl node m.

(** [bzero(dst, n)] and [memcpy(dst, src, n)] on payload bytes. *)
Definition bzero (dst n : Z) (b : gmap Z Z) : gmap Z Z :=
  foldr (λ k b, <[dst + k := 0]> b) b (seqZ 0 n).
Definition memcpy (dst src n : Z) (b : gmap Z Z) : gmap Z Z :=
  foldr (λ k b', partial_alter (λ _, b !! (src + k)) (dst + k) b') b (seqZ 0 n).

Definition mdx_fl_calloc (fl number size : Z) (m : fmem) : res (Z * fmem) :=
  let sz := wrap PTR_W (number * size) in
  '(r, m) ← mdx_fl_malloc fl sz m;
  if r =? 0 then Ok (r, m) else Ok (r, st_bytes (bzero r sz) m).

(** The two "Merge with next" branches that leave a free remainder. *)
Definition realloc_split (fl node next size : Z) (m : fmem) : res fmem :=
  nsz ← load (n_size m) next;
  let subs := next + nsz in
  m ← unlink next m;
  let new := node + size in
  nsz ← load (n_size m) next;
  sz ← load (n_size m) node;
  m ← st_size new (nsz + sz - size) m;
  m ← st_flags new size m;
  m ← st_size node size m;
  v ← load (n_size m) new;
  m ← set_prev_size subs v m;
  mdx_fl_add_node fl new m.

Definition mdx_fl_realloc (defaultzone fl ptr size : Z) (m : fmem) : res (Z * fmem) :=
  if ptr =? 0 then mdx_fl_malloc fl size m else
  if size =? 0 then m ← mdx_fl_free fl ptr m; Ok (0, m) else
  let size := align16 (wrap PTR_W (size + NODE_S)) in
  let node := ptr - NODE_S in
  sz ← load (n_size m) node;
  let next := node + sz in
  nf ← load (n_flags m) next;
  let next_free := Z.land nf FLAG_ALLOCATED =? 0 in
  if size <=? sz then
    if next_free then
      m ← realloc_split fl node next size m; Ok (ptr, m)
    else if wrap PTR_W (size + NODE_S) <? sz then
      let new := node + size in
      m ← st_size new (sz - size) m;
      m ← st_flags new size m;
      m ← st_size node size m;
      v ← load (n_size m) new;
      m ← set_prev_size next v m;
      m ← mdx_fl_add_node fl new m;
      Ok (ptr, m)
    else Ok (ptr, m)
  else
    nsz ← (if next_free then load (n_size m) next else Ok 0);
    if next_free && (wrap PTR_W (size + NODE_S) <? u32 (sz + nsz)) then
      m ← realloc_split fl node next size m; Ok (ptr, m)
    else if next_free && (u32 (sz + nsz) =? size) then
      let subs := next + nsz in
      m ← unlink next m;
      m ← st_size node size m;
      v ← load (n_size m) node;
      m ← set_prev_size subs v m;
      Ok (ptr, m)
    else
      '(newptr, m) ← mdx_fl_malloc fl size m;
      if newptr =? 0 then Ok (newptr, m) else
      sz ← load (n_size m) node;
      let m := st_bytes (memcpy newptr ptr sz) m in
      m ← mdx_fl_free defaultzone ptr m;
      Ok (newptr, m).
End Model.

(** ** Stores to owned headers *)

Section Stores.
Context `{Arch}.

Lemma st_next_ok a v m : owns m a = true → st_next a v m = Ok (w_next a v m).
Proof. unfold st_next. by intros ->. Qed.

Lemma st_prev_ok a v m : owns m a = true → st_prev a v m = Ok (w_prev a v m).
Proof. unfold st_prev. by intros ->. Qed.

Lemma st_size_ok a v m : owns m a = true → 0 ≤ v < 2 ^ 32 → st_size a v m = Ok (w_size a v m).
Proof. unfold st_size. intros -> ?. by rewrite wrap_small. Qed.

Lemma st_flags_ok a v m : owns m a = true → 0 ≤ v < 2 ^ 32 → st_flags a v m = Ok (w_flags a v m).
Proof. unfold st_flags. intros -> ?. by rewrite wrap_small. Qed.
End Stores.

(** ** Automation *)

(** Perform the next store; its side conditions are in the context. *)
Ltac store :=
  first [rewrite st_next_ok by assumption | rewrite st_prev_ok by assumption
       | rewrite st_size_ok by (assumption || lia) | rewrite st_flags_ok by (assumption || lia)];
  cbn [mbind res_bind].

(** Resolve the ownership test of a store from a hypothesis. *)
Ltac own := match goal with
  | |- context [if owns ?m ?a then _ else _] =>
      replace (owns m a) with true by (symmetry; assumption); cbn [mbind res_bind]
  end.

(** Resolve lookups in a chain of stores. *)
Ltac lk := repeat first [rewrite lookup_insert_eq | rewrite lookup_insert_ne by lia].
