(* ===== verification/FreelistInv.v ===== *)
(** * The free list: its abstraction and the lemmas on single list operations

    [flist fl m bk]: the list that starts at the first dummy node of the zone
    [fl] is, in order, dummy 0, the blocks of bucket 0, dummy 1, ..., each
    bucket sorted by size and holding blocks of its size class only. *)

From S2P Require Import Prelude Freelist.
Local Open Scope Z_scope.

Section FreelistInv.
Context `{Arch}.

Lemma NODE_S_bounds : 16 ≤ NODE_S ≤ 24.
Proof. unfold NODE_S. destruct arch_ok as [-> | ->]; vm_compute; done. Qed.

(** ** Size classes *)

Lemma size2i_loop_log2 fuel s i :
  0 ≤ s < 2 ^ Z.of_nat fuel → size2i_loop fuel s i = i + Z.log2 s.
Proof.
  revert s i. induction fuel as [|fuel IH]; intros s i Hs; simpl.
  - assert (s = 0) as -> by (simpl in Hs; lia). simpl. lia.
  - destruct (Z.ltb_spec 1 s) as [Hlt|Hle].
    + rewrite IH.
      * rewrite Z.log2_shiftr by lia.
        assert (1 ≤ Z.log2 s) by (apply Z.log2_le_pow2; lia). lia.
      * rewrite Z.shiftr_div_pow2 by lia. rewrite Nat2Z.inj_succ, Z.pow_succ_r in Hs by lia.
        split; [apply Z.div_pos; lia|]. apply Z.div_lt_upper_bound; lia.
    + assert (s = 0 ∨ s = 1) as [-> | ->] by lia; simpl; lia.
Qed.

Lemma size2i_log2 s : 0 ≤ s < 2 ^ 32 → size2i s = Z.log2 (s / 16).
Proof.
  intros Hs. unfold size2i. rewrite Z.shiftr_div_pow2 by lia.
  change (2 ^ 4) with 16. rewrite size2i_loop_log2; [lia|].
  split; [apply Z.div_pos; lia|]. apply Z.div_lt_upper_bound; lia.
Qed.

Lemma size2i_mono s t : 0 ≤ s ≤ t → t < 2 ^ 32 → size2i s ≤ size2i t.
Proof.
  intros Hs Ht. rewrite !size2i_log2 by lia. apply Z.log2_le_mono, Z.div_le_mono; lia.
Qed.

Lemma size2i_range s : 0 ≤ s < 2 ^ 32 → 0 ≤ size2i s < 32.
Proof.
  intros Hs. rewrite size2i_log2 by done. split; [apply Z.log2_nonneg|].
  assert (s / 16 < 2 ^ 28) by (apply Z.div_lt_upper_bound; lia).
  assert (Z.log2 (s / 16) ≤ Z.log2 (2 ^ 28)) by (apply Z.log2_le_mono; lia).
  assert (Z.log2 (2 ^ 28) = 28) by done. lia.
Qed.

(** ** Singly linked walks *)

Definition hd0 (l : list Z) : Z := default 0 (head l).

Fixpoint nseq (nx : gmap Z Z) (l : list Z) : Prop :=
  match l with
  | [] => True
  | a :: l' => nx !! a = Some (hd0 l') ∧ nseq nx l'
  end.

Lemma nseq_app nx l k : nseq nx (l ++ k) → nseq nx k.
Proof. induction l as [|a l IH]; simpl; [done|]. intros [_ ?]. auto. Qed.

Lemma links_nseq nx pv l :
  links nx pv l → (∀ a, last l = Some a → nx !! a = Some 0) → nseq nx l.
Proof.
  induction l as [|a [|b l] IH]; [done| |].
  - intros _ Hlast. split; [|done]. by apply Hlast.
  - intros (H1 & H2 & H3) Hlast. split; [done|]. by apply IH.
Qed.

(** The size of a block, 0 when it has none. *)
Definition msize (m : fmem) (a : Z) : Z := default 0 (n_size m !! a).
Definition has_size (m : fmem) (a : Z) : Prop := is_Some (n_size m !! a).

Lemma load_msize m a : has_size m a → load (n_size m) a = Ok (msize m a).
Proof. intros [s Hs]. unfold load, msize. by rewrite Hs. Qed.

(** ** The chain of dummies and buckets *)

Fixpoint chain_from (fl i : Z) (bk : list (list Z)) : list Z :=
  match bk with
  | [] => []
  | b :: bk => nodelist fl i :: b ++ chain_from fl (i + 1) bk
  end.
Definition chain (fl : Z) (bk : list (list Z)) : list Z := chain_from fl 0 bk.

Lemma chain_from_app fl i bk bk' :
  chain_from fl i (bk ++ bk') =
  chain_from fl i bk ++ chain_from fl (i + Z.of_nat (length bk)) bk'.
Proof.
  revert i. induction bk as [|b bk IH]; intros i; simpl.
  - by rewrite Z.add_0_r.
  - rewrite IH, <- app_assoc.
    by replace (i + 1 + Z.of_nat (length bk)) with (i + Z.of_nat (S (length bk))) by lia.
Qed.

Lemma chain_from_elem fl i bk a :
  a ∈ chain_from fl i bk ↔
  (∃ j, i ≤ j < i + Z.of_nat (length bk) ∧ a = nodelist fl j) ∨ a ∈ concat bk.
Proof.
  revert i. induction bk as [|b bk IH]; intros i.
  - simpl. split; [set_solver|]. intros [(j & Hj & _)|Ha]; [lia|set_solver].
  - cbn [chain_from concat]. rewrite elem_of_cons, !elem_of_app, IH, length_cons. split.
    + intros [-> | [Ha | [(j & Hj & ->) | Ha]]]; [left; exists i; lia|tauto| |tauto].
      left. exists j. split; [lia|done].
    + intros [(j & Hj & ->) | [Ha | Ha]]; [|tauto|tauto].
      destruct (decide (j = i)) as [-> | Hne]; [by left|].
      right. right. left. exists j. split; [lia|done].
Qed.

Definition size_le (m : fmem) (a c : Z) : Prop := msize m a ≤ msize m c.

Record flist (fl : Z) (m : fmem) (bk : list (list Z)) : Prop := {
  fl_len : length bk = 32%nat;
  fl_nodup : NoDup (chain fl bk);
  fl_links : links (n_next m) (n_prev m) (chain fl bk);
  fl_end : ∀ a, last (chain fl bk) = Some a → n_next m !! a = Some 0;
  fl_owned : ∀ a, a ∈ chain fl bk → owns m a = true ∧ 0 < a;
  fl_dummy : ∀ i, 0 ≤ i < 32 → n_size m !! nodelist fl i = Some 0;
  fl_class : ∀ i b a, bk !! i = Some b → a ∈ b →
    has_size m a ∧ 0 < msize m a < 2 ^ 32 ∧ size2i (msize m a) = Z.of_nat i;
  fl_sorted : ∀ i b, bk !! i = Some b → StronglySorted (size_le m) b
}.

(** The chain around bucket [i]. *)
Lemma chain_split fl bk i b :
  bk !! i = Some b →
  ∃ C1 C2, chain fl bk = C1 ++ nodelist fl (Z.of_nat i) :: b ++ C2 ∧
    C1 = chain_from fl 0 (take i bk) ∧
    C2 = chain_from fl (Z.of_nat i + 1) (drop (S i) bk) ∧
    (∀ b', chain fl (<[i:=b']> bk) = C1 ++ nodelist fl (Z.of_nat i) :: b' ++ C2).
Proof.
  intros Hi. pose proof (lookup_lt_Some _ _ _ Hi) as Hlt.
  exists (chain_from fl 0 (take i bk)), (chain_from fl (Z.of_nat i + 1) (drop (S i) bk)).
  split_and!; [|done|done|].
  - unfold chain. rewrite <- (take_drop_middle bk i b Hi) at 1.
    rewrite chain_from_app, length_take_le by lia. done.
  - intros b'. unfold chain. rewrite insert_take_drop by done.
    rewrite chain_from_app, length_take_le by lia. done.
Qed.

Lemma concat_insert (bk : list (list Z)) i b b' :
  bk !! i = Some b → concat bk ≡ₚ b ++ concat (delete i bk) ∧
  concat (<[i:=b']> bk) ≡ₚ b' ++ concat (delete i bk).
Proof.
  intros Hi. pose proof (lookup_lt_Some _ _ _ Hi) as Hlt. split.
  - rewrite <- (take_drop_middle bk i b Hi) at 1.
    rewrite delete_take_drop, !concat_app. simpl. solve_Permutation.
  - rewrite insert_take_drop by done.
    rewrite delete_take_drop, !concat_app. simpl. solve_Permutation.
Qed.

(** ** Walks along the list *)

Lemma find_fit_spec m req l fuel :
  nseq (n_next m) l → Forall (has_size m) l → Forall (λ a, 0 < a) l →
  (length l < fuel)%nat →
  ∃ r, find_fit fuel m (hd0 l) req = Ok r ∧
    ((r = 0 ∧ Forall (λ a, msize m a < req) l) ∨
     (∃ l1 l2, l = l1 ++ r :: l2 ∧ Forall (λ a, msize m a < req) l1 ∧ req ≤ msize m r)).
Proof.
  revert fuel. induction l as [|a l IH]; intros [|fuel] Hn Hs Hp Hf; simpl in Hf; try lia.
  - exists 0. auto.
  - destruct Hn as [Hn1 Hn2]. apply Forall_cons in Hs as [Hs1 Hs2].
    apply Forall_cons in Hp as [Hp1 Hp2]. change (hd0 (a :: l)) with a.
    cbn [find_fit]. destruct (Z.eqb_spec a 0); [lia|].
    rewrite (load_msize _ _ Hs1). simpl. destruct (Z.ltb_spec (msize m a) req).
    + unfold load. rewrite Hn1. simpl.
      destruct (IH fuel Hn2 Hs2 Hp2) as (r & E & Hr); [lia|].
      exists r. split; [done|]. destruct Hr as [[-> Hall] | (l1 & l2 & -> & H1 & H2)].
      * left. auto.
      * right. exists (a :: l1), l2. auto.
    + exists a. split; [done|]. right. exists [], l. auto.
Qed.

(** The scan of mdx_fl_add_node stops inside the bucket: at the first block
    that is not smaller, or at the dummy (or NULL) after the bucket. *)
Lemma add_scan_spec m node p b rest fuel :
  nseq (n_next m) (p :: b ++ rest) →
  Forall (λ a, 0 < a ∧ has_size m a ∧ 0 < msize m a) b →
  (∀ d, head rest = Some d → n_size m !! d = Some 0) →
  has_size m node → (length b < fuel)%nat →
  ∃ b1 b2, b = b1 ++ b2 ∧
    add_scan fuel m node p (hd0 (b ++ rest)) = Ok (List.last (p :: b1) 0, hd0 (b2 ++ rest)) ∧
    Forall (λ a, msize m a < msize m node) b1 ∧
    (∀ c, head b2 = Some c → msize m node ≤ msize m c).
Proof.
  revert p fuel. induction b as [|a b IH]; intros p [|fuel] Hn Hb Hr Hs Hf; simpl in Hf; try lia.
  - exists [], []. split_and!; [done| |done|done]. cbn [add_scan app].
    destruct rest as [|d rest]; [done|]. unfold hd0; simpl.
    destruct (Z.eqb_spec d 0); [done|]. unfold load. by rewrite (Hr d).
  - destruct Hn as [Hn1 Hn2]. apply Forall_cons in Hb as [(Ha1 & Ha2 & Ha3) Hb].
    change (hd0 ((a :: b) ++ rest)) with a. cbn [add_scan].
    destruct (Z.eqb_spec a 0); [lia|]. rewrite (load_msize _ _ Ha2). simpl.
    destruct (Z.eqb_spec (msize m a) 0); [lia|]. rewrite (load_msize _ _ Hs). simpl.
    destruct (Z.ltb_spec (msize m a) (msize m node)).
    + unfold load. pose proof Hn2 as Hn2'. destruct Hn2 as [Hn2 _]. rewrite Hn2. simpl.
      destruct (IH a fuel Hn2' Hb Hr Hs) as (b1 & b2 & -> & E & H1 & H2); [lia|].
      exists (a :: b1), b2. split_and!; [done| |by constructor|done].
      rewrite E. done.
    + exists [], (a :: b). split_and!; [done|done|done|]. intros c [= ->]. done.
Qed.

Lemma fl_nseq fl m bk : flist fl m bk → nseq (n_next m) (chain fl bk).
Proof. intros F. eapply links_nseq; [apply F|]. apply (fl_end _ _ _ F). Qed.

Lemma fl_elem_concat fl m bk a :
  flist fl m bk → a ∈ concat bk →
  ∃ i b, bk !! i = Some b ∧ a ∈ b ∧ has_size m a ∧ 0 < msize m a < 2 ^ 32 ∧
    size2i (msize m a) = Z.of_nat i.
Proof.
  intros F Ha. apply list_elem_of_In, in_concat in Ha as (b & Hb & Ha).
  apply list_elem_of_In, list_elem_of_lookup in Hb as (i & Hi).
  apply list_elem_of_In in Ha. exists i, b. split_and!; try done; eapply fl_class; eauto.
Qed.

Lemma fl_has_size fl m bk a : flist fl m bk → a ∈ chain fl bk → has_size m a.
Proof.
  intros F Ha. apply chain_from_elem in Ha as [(j & Hj & ->) | Ha].
  - rewrite (fl_len _ _ _ F) in Hj. eexists. apply (fl_dummy _ _ _ F). lia.
  - by destruct (fl_elem_concat _ _ _ _ F Ha) as (? & ? & ? & ? & ? & ?).
Qed.

Lemma fl_walk_fuel fl m bk : flist fl m bk → (length (chain fl bk) < walk_fuel m)%nat.
Proof.
  intros F. unfold walk_fuel. apply Nat.lt_succ_r.
  apply NoDup_length_size; [apply F|]. apply Forall_forall. intros a Ha.
  apply list_elem_of_split in Ha as (l1 & l2 & E).
  pose proof (fl_nseq _ _ _ F) as Hn. rewrite E in Hn. apply nseq_app in Hn as [Hn _]. eauto.
Qed.

(** ** Pointer surgery *)

Definition same_data (m m' : fmem) : Prop :=
  n_size m' = n_size m ∧ n_flags m' = n_flags m ∧ bytes m' = bytes m ∧ owned m' = owned m.

(** [l] is a NULL terminated list of header cells of the allocator. *)
Record nlist (m : fmem) (l : list Z) : Prop := {
  nl_nodup : NoDup l;
  nl_links : links (n_next m) (n_prev m) l;
  nl_end : ∀ a, last l = Some a → n_next m !! a = Some 0;
  nl_owned : ∀ a, a ∈ l → owns m a = true ∧ 0 < a
}.

Lemma owns_same m m' a : owned m' = owned m → owns m' a = owns m a.
Proof. intros E. unfold owns. by rewrite E. Qed.

Lemma unlink_list m ps a n k :
  nlist m (ps ++ a :: n :: k) →
  ∃ m', unlink n m = Ok m' ∧ same_data m m' ∧ nlist m' (ps ++ a :: k).
Proof.
  intros [Hnd Hl Hend Hown].
  pose proof (links_prev _ _ _ _ _ _ Hl) as Hp.
  destruct (Hown a) as [Ha Ha0]; [mem|].
  assert (a ≠ n) as Han by (apply NoDup_app in Hnd as (_ & _ & Hnd); apply NoDup_cons in Hnd; intros ->; mem).
  assert (NoDup (ps ++ a :: k)) as Hnd'.
  { eapply sublist_NoDup; [exact Hnd|]. apply sublist_app; [done|]. by apply sublist_skip, sublist_cons. }
  assert (Hown' : ∀ c, c ∈ ps ++ a :: k → owns m c = true ∧ 0 < c) by (intros c Hc; apply Hown; mem).
  assert (n_next m !! n = Some (hd0 k)) as Hn.
  { pose proof (links_nseq _ _ _ Hl Hend) as Hs. apply nseq_app in Hs as (_ & Hs & _). done. }
  unfold unlink, load. rewrite Hp. simpl. rewrite Hn. simpl. unfold st_next. own. simpl.
  rewrite lookup_insert_ne by done. rewrite Hn. simpl.
  destruct k as [|b k].
  - simpl. eexists. split_and!; [reflexivity|done|]. constructor; [done| | |done].
    + simpl. apply links_insert_next.
      * rewrite removelast_last. apply NoDup_app in Hnd' as (_ & Hnd' & _). intros Hc. apply (Hnd' a Hc). mem.
      * apply links_app in Hl. tauto.
    + intros c Hc. rewrite last_snoc in Hc. injection Hc as <-. simpl. by rewrite lookup_insert_eq.
  - destruct (Hown b) as [Hb Hb0]; [mem|]. unfold hd0. simpl.
    destruct (Z.eqb_spec b 0); [lia|]. rewrite Hp. simpl. unfold st_prev. own.
    eexists. split_and!; [reflexivity|done|]. constructor; [done| | |done].
    + simpl. apply (links_unlink _ _ _ _ n); [done|]. by apply NoDup_arrows.
    + intros c Hc. simpl. rewrite lookup_insert_ne; [apply Hend; by rewrite last_app_cons in Hc |- *|].
      rewrite last_app_cons, last_cons_cons in Hc. apply last_Some_elem_of in Hc.
      apply NoDup_app in Hnd' as (_ & _ & Hnd'). apply NoDup_cons in Hnd'. intros ->. mem.
Qed.

Lemma link_list m ps a e k :
  nlist m (ps ++ a :: k) → e ∉ ps ++ a :: k → owns m e = true → 0 < e →
  ∃ m', (m ← st_next a e m; m ← st_prev e a m; m ← st_next e (hd0 k) m;
         if hd0 k =? 0 then Ok m else st_prev (hd0 k) e m) = Ok m' ∧
    same_data m m' ∧ nlist m' (ps ++ a :: e :: k).
Proof.
  intros [Hnd Hl Hend Hown] He Hoe Hpe.
  destruct (Hown a) as [Ha Ha0]; [mem|].
  assert (a ≠ e) as Hae by (intros ->; mem).
  assert (NoDup (ps ++ a :: e :: k)) as Hnd'.
  { change (ps ++ a :: e :: k) with (ps ++ [a] ++ e :: k). rewrite app_assoc, NoDup_middle.
    rewrite <- app_assoc. done. }
  assert (Hown' : ∀ c, c ∈ ps ++ a :: e :: k → owns m c = true ∧ 0 < c).
  { intros c Hc. destruct (decide (c = e)) as [->|]; [done|]. apply Hown. mem. }
  unfold st_next, st_prev. own. own. own.
  destruct k as [|b k].
  - simpl. eexists. split_and!; [reflexivity|done|]. constructor; [done| | |done].
    + simpl. eapply (links_ext (<[a:=e]> (n_next m))); [| |by apply links_snoc].
      * intros c Hc. change (ps ++ [a; e]) with (ps ++ [a] ++ [e]) in Hc.
        rewrite app_assoc, removelast_last in Hc. rewrite lookup_insert_ne; [done|]. intros ->. mem.
      * done.
    + intros c Hc. change (ps ++ [a; e]) with (ps ++ [a] ++ [e]) in Hc.
      rewrite app_assoc, last_snoc in Hc. injection Hc as <-. simpl. by rewrite lookup_insert_eq.
  - destruct (Hown b) as [Hb Hb0]; [mem|]. unfold hd0. simpl.
    destruct (Z.eqb_spec b 0); [lia|]. own.
    eexists. split_and!; [reflexivity|done|]. constructor; [done| | |done].
    + simpl. rewrite insert_insert_ne by done. apply links_splice; [done|by apply NoDup_arrows|done].
    + intros c Hc. simpl. rewrite !last_app_cons, !last_cons_cons in Hc.
      apply last_Some_elem_of in Hc as Hc'.
      apply NoDup_app in Hnd as (_ & _ & Hnd). apply NoDup_cons in Hnd as [Hnd _].
      rewrite !lookup_insert_ne by (intros ->; mem).
      apply Hend. by rewrite last_app_cons, last_cons_cons.
Qed.

(** ** The list operations on buckets *)

Lemma flist_nlist fl m bk : flist fl m bk → nlist m (chain fl bk).
Proof. intros []. by constructor. Qed.

(** A bucket is replaced; the blocks stay classified. *)
Lemma flist_update fl m m' bk i b' :
  flist fl m bk → same_data m m' → nlist m' (chain fl (<[i:=b']> bk)) →
  (∀ a, a ∈ b' → has_size m a ∧ 0 < msize m a < 2 ^ 32 ∧ size2i (msize m a) = Z.of_nat i) →
  StronglySorted (size_le m) b' →
  flist fl m' (<[i:=b']> bk).
Proof.
  intros F (Es & Ef & Eb & Eo) [N1 N2 N3 N4] Hcl Hso.
  assert (Hms : ∀ a, msize m' a = msize m a) by (intros; unfold msize; by rewrite Es).
  assert (Hhs : ∀ a, has_size m' a ↔ has_size m a) by (intros; unfold has_size; by rewrite Es).
  constructor; [rewrite length_insert; apply F|done|done|done|done| | |].
  - intros j Hj. rewrite Es. by apply (fl_dummy _ _ _ F).
  - intros j b a Hj Ha. rewrite Hhs, !Hms.
    apply list_lookup_insert_Some in Hj as [(-> & -> & _)|(_ & Hj)]; [by apply Hcl|].
    by apply (fl_class _ _ _ F j b).
  - intros j b Hj.
    assert (StronglySorted (size_le m) b) as Hb.
    { apply list_lookup_insert_Some in Hj as [(-> & -> & _)|(_ & Hj)]; [done|].
      by apply (fl_sorted _ _ _ F j). }
    clear -Hb Hms. induction Hb as [|x l Hl IH Hf]; constructor; [done|].
    eapply Forall_impl; [exact Hf|]. unfold size_le. intros c. by rewrite !Hms.
Qed.

Lemma unlink_spec fl m bk i b1 n b2 :
  flist fl m bk → bk !! i = Some (b1 ++ n :: b2) →
  ∃ m', unlink n m = Ok m' ∧ same_data m m' ∧ flist fl m' (<[i:=b1 ++ b2]> bk).
Proof.
  intros F Hi. destruct (chain_split fl bk i _ Hi) as (C1 & C2 & E & _ & _ & E').
  assert (∃ ps a, C1 ++ nodelist fl (Z.of_nat i) :: b1 = ps ++ [a]) as (ps & a & Ep).
  { destruct (exists_last (l := C1 ++ nodelist fl (Z.of_nat i) :: b1)) as (ps & a & Ep);
      [by destruct C1|eauto]. }
  pose proof (flist_nlist _ _ _ F) as N. rewrite E in N.
  replace (C1 ++ nodelist fl (Z.of_nat i) :: (b1 ++ n :: b2) ++ C2)
    with (ps ++ a :: n :: b2 ++ C2) in N.
  2:{ transitivity ((ps ++ [a]) ++ n :: b2 ++ C2); [by rewrite <- app_assoc|].
      rewrite <- Ep, <- ?app_assoc. simpl. by rewrite <- ?app_assoc. }
  destruct (unlink_list _ _ _ _ _ N) as (m' & H1 & H2 & H3).
  exists m'. split_and!; [done|done|]. eapply flist_update; try done.
  - rewrite E'. replace (C1 ++ nodelist fl (Z.of_nat i) :: (b1 ++ b2) ++ C2)
      with (ps ++ a :: b2 ++ C2); [done|].
    transitivity ((ps ++ [a]) ++ b2 ++ C2); [by rewrite <- app_assoc|].
    rewrite <- Ep, <- ?app_assoc. simpl. by rewrite <- ?app_assoc.
  - intros c Hc. apply (fl_class _ _ _ F _ _ c Hi). mem.
  - eapply StronglySorted_delete, (fl_sorted _ _ _ F), Hi.
Qed.

Lemma add_node_spec fl m bk node s :
  flist fl m bk → n_size m !! node = Some s → 0 < s < 2 ^ 32 →
  node ∉ chain fl bk → owns m node = true → 0 < node →
  ∃ m' i b1 b2, mdx_fl_add_node fl node m = Ok m' ∧ same_data m m' ∧
    bk !! i = Some (b1 ++ b2) ∧ flist fl m' (<[i:=b1 ++ node :: b2]> bk).
Proof.
  intros F Hs Hr Hfresh Hown Hpos.
  pose proof (size2i_range s ltac:(lia)) as Hri.
  set (i := Z.to_nat (size2i s)).
  assert (Z.of_nat i = size2i s) as Ei by (unfold i; lia).
  destruct (lookup_lt_is_Some_2 bk i) as [b Hi]; [rewrite (fl_len _ _ _ F); lia|].
  destruct (chain_split fl bk i b Hi) as (C1 & C2 & E & _ & EC2 & E').
  pose proof (fl_nseq _ _ _ F) as Hn. rewrite E in Hn. apply nseq_app in Hn.
  assert (msize m node = s) as Hms by (unfold msize; by rewrite Hs).
  destruct (add_scan_spec m node (nodelist fl (Z.of_nat i)) b C2 (walk_fuel m))
    as (b1 & b2 & -> & Hscan & Hlt & Hge).
  { exact Hn. }
  { apply Forall_forall. intros a Ha. destruct (fl_class _ _ _ F _ _ a Hi Ha) as (? & ? & _).
    split_and!; [|done|lia]. apply (fl_owned _ _ _ F). rewrite E. mem. }
  { intros d Hd. subst C2. destruct (drop (S i) bk) as [|b' bk'] eqn:Ed; [done|].
    injection Hd as <-. apply (fl_dummy _ _ _ F).
    assert (length (drop (S i) bk) ≠ 0%nat) by (by rewrite Ed).
    rewrite length_drop, (fl_len _ _ _ F) in *. lia. }
  { by exists s. }
  { pose proof (fl_walk_fuel _ _ _ F) as Hw. rewrite E in Hw.
    rewrite length_app, length_cons, length_app in Hw. lia. }
  assert (∃ ps a, C1 ++ nodelist fl (Z.of_nat i) :: b1 = ps ++ [a] ∧
            List.last (nodelist fl (Z.of_nat i) :: b1) 0 = a) as (ps & a & Ep & Ea).
  { destruct (exists_last (l := nodelist fl (Z.of_nat i) :: b1)) as (qs & a & Eq); [done|].
    exists (C1 ++ qs), a. rewrite Eq, <- app_assoc, List.last_last. done. }
  pose proof (flist_nlist _ _ _ F) as N. pose proof Hfresh as Hfr. rewrite E in N, Hfr.
  replace (C1 ++ nodelist fl (Z.of_nat i) :: (b1 ++ b2) ++ C2)
    with (ps ++ a :: b2 ++ C2) in N, Hfr.
  2:{ transitivity ((ps ++ [a]) ++ b2 ++ C2); [by rewrite <- app_assoc|].
      rewrite <- Ep, <- ?app_assoc. simpl. by rewrite <- ?app_assoc. }
  destruct (link_list _ _ _ node _ N Hfr Hown Hpos) as (m' & H1 & H2 & H3).
  exists m', i, b1, b2. split_and!; [|done|done|].
  - unfold mdx_fl_add_node. rewrite (load_Some _ _ _ Hs). cbn [mbind res_bind].
    rewrite <- Ei. destruct Hn as [Hn _]. rewrite (load_Some _ _ _ Hn). cbn [mbind res_bind].
    rewrite Hscan, Ea. cbn [mbind res_bind]. exact H1.
  - eapply flist_update; try done.
    + rewrite E'. replace (C1 ++ nodelist fl (Z.of_nat i) :: (b1 ++ node :: b2) ++ C2)
        with (ps ++ a :: node :: b2 ++ C2); [done|].
      transitivity ((ps ++ [a]) ++ node :: b2 ++ C2); [by rewrite <- app_assoc|].
      rewrite <- Ep, <- ?app_assoc. simpl. by rewrite <- ?app_assoc.
    + intros c Hc. destruct (decide (c = node)) as [->|Hne].
      * rewrite Hms. split_and!; [by exists s|lia|lia|lia].
      * apply (fl_class _ _ _ F _ _ c Hi). mem.
    + pose proof (fl_sorted _ _ _ F _ _ Hi) as Hso.
      apply StronglySorted_insert; [done| |].
      * eapply Forall_impl; [exact Hlt|]. unfold size_le. simpl. lia.
      * apply StronglySorted_app_r in Hso. destruct b2 as [|c b2]; [done|].
        apply StronglySorted_inv in Hso as [_ Hso]. specialize (Hge c eq_refl).
        constructor; [done|]. eapply Forall_impl; [exact Hso|]. unfold size_le. simpl. lia.
Qed.

(** Stores to cells off the list leave it alone. *)
Lemma flist_ext fl m m' bk :
  flist fl m bk → owned m' = owned m →
  (∀ a, a ∈ chain fl bk → n_next m' !! a = n_next m !! a ∧ n_prev m' !! a = n_prev m !! a ∧
    n_size m' !! a = n_size m !! a) →
  flist fl m' bk.
Proof.
  intros F Eo Hch.
  assert (Hms : ∀ a, a ∈ chain fl bk → msize m' a = msize m a).
  { intros a Ha. unfold msize. by destruct (Hch a Ha) as (_ & _ & ->). }
  assert (Hin : ∀ i b a, bk !! i = Some b → a ∈ b → a ∈ chain fl bk).
  { intros i b a Hi Ha. destruct (chain_split fl bk i b Hi) as (? & ? & -> & _). mem. }
  constructor; try apply F.
  - eapply links_ext; [| |apply F].
    + intros a Ha%elem_of_removelast. by apply Hch.
    + intros a Ha. apply Hch. destruct (chain fl bk); [done|]. simpl in Ha. mem.
  - intros a Ha. destruct (Hch a) as (-> & _); [by apply last_Some_elem_of|].
    by apply (fl_end _ _ _ F).
  - intros a Ha. rewrite (owns_same m) by done. by apply (fl_owned _ _ _ F).
  - intros i Hi. destruct (Hch (nodelist fl i)) as (_ & _ & ->); [|by apply (fl_dummy _ _ _ F)].
    apply chain_from_elem. left. exists i. rewrite (fl_len _ _ _ F). split; [lia|done].
  - intros i b a Hi Ha. pose proof (Hin i b a Hi Ha) as Hc. rewrite Hms by done.
    destruct (fl_class _ _ _ F i b a Hi Ha) as (Hs & ?). split; [|done].
    unfold has_size. by destruct (Hch a Hc) as (_ & _ & ->).
  - intros i b Hi. pose proof (fl_sorted _ _ _ F i b Hi) as Hso.
    assert (Forall (λ a, msize m' a = msize m a) b) as Hb.
    { apply Forall_forall. intros a Ha. eapply Hms, Hin; eauto. }
    clear -Hso Hb. induction Hso as [|x l Hl IH Hf]; [constructor|].
    apply Forall_cons in Hb as [Hx Hb]. constructor; [auto|].
    rewrite Forall_forall in *. intros c Hc. unfold size_le.
    rewrite Hx, (Hb c Hc). by apply Hf.
Qed.
End FreelistInv.
