(* ===== verification/FreelistSpec.v ===== *)
(** * The free list: regions, the invariant and the abstract allocator

    A region is a sequence of adjacent blocks between two allocated sentinels.
    [heap_inv] says that the headers in memory describe the regions (each header
    holds the size of its block, the size of the block before it and the
    allocation bit), that no two free blocks are adjacent, and that the free
    list holds exactly the free blocks.  [alloc_step] and [free_step] are the
    abstract operations on the blocks. *)

From S2P Require Import Prelude Freelist FreelistInv.
Local Open Scope Z_scope.

Record blk := { b_size : Z; b_alloc : bool }.
Definition used (s : Z) : blk := {| b_size := s; b_alloc := true |}.
Definition avail (s : Z) : blk := {| b_size := s; b_alloc := false |}.

Record region := { r_base : Z; r_blocks : list blk }.

Fixpoint total (bs : list blk) : Z :=
  match bs with [] => 0 | b :: bs => b_size b + total bs end.

(** The [flags] word: the size of the previous block and the allocation bit. *)
Definition flags_of (p : Z) (b : blk) : Z :=
  if b_alloc b then p + FLAG_ALLOCATED else p.

(** Adjacent free blocks are always merged. *)
Fixpoint adj_ok (bs : list blk) : Prop :=
  match bs with
  | b :: (c :: _) as bs' => (b_alloc b || b_alloc c = true) ∧ adj_ok bs'
  | _ => True
  end.

Fixpoint tiles (m : fmem) (a p : Z) (bs : list blk) : Prop :=
  match bs with
  | [] => True
  | b :: bs =>
    n_size m !! a = Some (b_size b) ∧ n_flags m !! a = Some (flags_of p b) ∧
    tiles m (a + b_size b) (b_size b) bs
  end.

(** The size recorded for the block before the one that follows [bs]. *)
Definition last_size (p : Z) (bs : list blk) : Z :=
  match last bs with Some b => b_size b | None => p end.

Fixpoint free_at (a : Z) (bs : list blk) : list Z :=
  match bs with
  | [] => []
  | b :: bs => (if b_alloc b then [] else [a]) ++ free_at (a + b_size b) bs
  end.
(** The addresses of the headers of the blocks [bs] from [a] on. *)
Fixpoint starts_at (a : Z) (bs : list blk) : list Z :=
  match bs with
  | [] => []
  | b :: bs => a :: starts_at (a + b_size b) bs
  end.
Definition all_starts (rs : list region) : list Z := concat ((λ r, starts_at (r_base r) (r_blocks r)) <$> rs).

Definition region_free (r : region) : list Z := free_at (r_base r) (r_blocks r).
Definition all_free (rs : list region) : list Z := concat (region_free <$> rs).

Fixpoint disjoint_list (l : list (Z * Z)) : Prop :=
  match l with
  | [] => True
  | e :: l => Forall (λ e', e.2 ≤ e'.1 ∨ e'.2 ≤ e.1) l ∧ disjoint_list l
  end.

Section Spec.
Context `{Arch}.

Definition wf_blocks (bs : list blk) : Prop :=
  head bs = Some (used NODE_S) ∧ last bs = Some (used NODE_S) ∧
  Forall (λ b, NODE_S ≤ b_size b) bs ∧ adj_ok bs ∧ total bs < 2 ^ 31.

Definition extent (r : region) : Z * Z := (r_base r, r_base r + total (r_blocks r)).
Definition zone_ext (fl : Z) : Z * Z := (fl, fl + 32 * NODE_S).

Record heap_inv (fl : Z) (m : fmem) (rs : list region) : Prop := {
  hp_wf : Forall (λ r, wf_blocks (r_blocks r)) rs;
  hp_tiles : Forall (λ r, tiles m (r_base r) 0 (r_blocks r)) rs;
  hp_disj : disjoint_list (zone_ext fl :: map extent rs);
  hp_owned : ∀ e, e ∈ zone_ext fl :: map extent rs → e ∈ owned m;
  hp_pos : ∀ e, e ∈ zone_ext fl :: map extent rs → 0 < e.1
}.

(** The addresses of the headers: those of the zone and those of the blocks. *)
Definition header_at (fl : Z) (rs : list region) (x : Z) : Prop :=
  (∃ j, 0 ≤ j < 32 ∧ x = nodelist fl j) ∨ x ∈ all_starts rs.

(** The allocator's invariant. *)
Definition fl_inv (fl : Z) (m : fmem) (rs : list region) : Prop :=
  ∃ bk, flist fl m bk ∧ heap_inv fl m rs ∧ concat bk ≡ₚ all_free rs.

(** ** The abstract allocator *)

(** What becomes of a free block of size [s] that serves a request. *)
Definition carve (need s : Z) : list blk :=
  if NODE_S <? s - need then [used need; avail (s - need)] else [used s].

Definition free_size (rs : list region) (s : Z) : Prop :=
  ∃ r, r ∈ rs ∧ avail s ∈ r_blocks r.

(** Best fit: the block served is a smallest one that is large enough. *)
Definition alloc_step (need : Z) (rs : list region) (ptr : Z) (rs' : list region) : Prop :=
  ∃ R1 base B1 s B2 R2,
    rs = R1 ++ {| r_base := base; r_blocks := B1 ++ avail s :: B2 |} :: R2 ∧
    rs' = R1 ++ {| r_base := base; r_blocks := B1 ++ carve need s ++ B2 |} :: R2 ∧
    ptr = base + total B1 + NODE_S ∧ need ≤ s ∧
    ∀ t, free_size rs t → need ≤ t → s ≤ t.

(** The free neighbours that a freed block absorbs. *)
Definition merge_front (bs : list blk) : Z * list blk :=
  match bs with
  | b :: bs' => if b_alloc b then (0, bs) else (b_size b, bs')
  | [] => (0, [])
  end.
Definition merge_back (bs : list blk) : Z * list blk :=
  let '(s, l) := merge_front (reverse bs) in (s, reverse l).

Definition freed (B1 : list blk) (s : Z) (B2 : list blk) : list blk :=
  let '(s1, B1') := merge_back B1 in
  let '(s2, B2') := merge_front B2 in
  B1' ++ avail (s1 + s + s2) :: B2'.

(** [ptr] is the payload of an allocated block that is not a sentinel. *)
Definition free_step (rs : list region) (ptr : Z) (rs' : list region) : Prop :=
  ∃ R1 base B1 s B2 R2,
    rs = R1 ++ {| r_base := base; r_blocks := B1 ++ used s :: B2 |} :: R2 ∧
    rs' = R1 ++ {| r_base := base; r_blocks := freed B1 s B2 |} :: R2 ∧
    ptr = base + total B1 + NODE_S ∧ B1 ≠ [] ∧ B2 ≠ [].

(** ** Block sequences *)

Lemma total_app l k : total (l ++ k) = total l + total k.
Proof. induction l as [|b l IH]; simpl; [done|]. rewrite IH. lia. Qed.

Lemma total_nonneg l : Forall (λ b, NODE_S ≤ b_size b) l → 0 ≤ total l.
Proof. pose proof NODE_S_bounds. induction 1; simpl; lia. Qed.

Lemma starts_at_app a l k : starts_at a (l ++ k) = starts_at a l ++ starts_at (a + total l) k.
Proof.
  revert a. induction l as [|b l IH]; intros a; simpl; [by rewrite Z.add_0_r|].
  by rewrite IH, Z.add_assoc.
Qed.

Lemma free_at_starts a bs x : x ∈ free_at a bs → x ∈ starts_at a bs.
Proof.
  revert a. induction bs as [|b bs IH]; intros a; simpl; [done|].
  rewrite elem_of_app, elem_of_cons. intros [Hx|Hx]; [|right; auto].
  destruct (b_alloc b); [by apply elem_of_nil in Hx|]. apply list_elem_of_singleton in Hx. by left.
Qed.

Lemma all_starts_elem rs x : x ∈ all_starts rs ↔ ∃ r, r ∈ rs ∧ x ∈ starts_at (r_base r) (r_blocks r).
Proof.
  unfold all_starts. rewrite list_elem_of_In, in_concat. split.
  - intros (l & Hl & Hx). apply list_elem_of_In, list_elem_of_fmap in Hl as (r & -> & Hr).
    exists r. split; [done|by apply list_elem_of_In].
  - intros (r & Hr & Hx). exists (starts_at (r_base r) (r_blocks r)). split; [|by apply list_elem_of_In].
    apply list_elem_of_In, list_elem_of_fmap. by exists r.
Qed.

Lemma all_free_starts rs x : x ∈ all_free rs → x ∈ all_starts rs.
Proof.
  unfold all_free. intros Hx. apply list_elem_of_In, in_concat in Hx as (l & Hl & Hx).
  apply list_elem_of_In, list_elem_of_fmap in Hl as (r & -> & Hr). apply all_starts_elem.
  exists r. split; [done|]. by apply free_at_starts, list_elem_of_In.
Qed.

Lemma adj_ok_cons2 b c l : adj_ok (b :: c :: l) ↔ (b_alloc b || b_alloc c = true) ∧ adj_ok (c :: l).
Proof. done. Qed.

Lemma adj_ok_app l b k : adj_ok (l ++ b :: k) ↔ adj_ok (l ++ [b]) ∧ adj_ok (b :: k).
Proof.
  induction l as [|c [|d l] IH].
  - simpl. destruct k; tauto.
  - simpl. destruct k; tauto.
  - cbn [app] in *. rewrite !adj_ok_cons2. tauto.
Qed.

Lemma adj_ok_tail l k : adj_ok (l ++ k) → adj_ok k.
Proof.
  destruct k as [|b k]; [done|]. rewrite adj_ok_app. tauto.
Qed.

Lemma adj_ok_prefix l k : adj_ok (l ++ k) → adj_ok l.
Proof.
  induction l as [|c [|d l] IH]; [done|done|].
  cbn [app] in *. rewrite !adj_ok_cons2. tauto.
Qed.

Lemma adj_ok_cons b l : b_alloc b = true → adj_ok (b :: l) ↔ adj_ok l.
Proof. destruct l; simpl; [tauto|]. intros ->. tauto. Qed.

Lemma adj_ok_snoc l b : b_alloc b = true → adj_ok (l ++ [b]) ↔ adj_ok l.
Proof.
  intros Hb. induction l as [|c [|d l] IH]; [done| |].
  - simpl. rewrite Hb, orb_true_r. tauto.
  - cbn [app] in *. rewrite !adj_ok_cons2. tauto.
Qed.

(** A used block separates. *)
Lemma adj_ok_used l s k : adj_ok (l ++ used s :: k) ↔ adj_ok l ∧ adj_ok k.
Proof. rewrite adj_ok_app, adj_ok_cons, adj_ok_snoc by done. done. Qed.

Lemma adj_ok_avail l s t k : adj_ok (l ++ avail s :: k) → adj_ok (l ++ avail t :: k).
Proof.
  intros [H1 H2]%adj_ok_app. apply adj_ok_app. split; [|by destruct k].
  clear H2. induction l as [|c [|d l] IH]; [done|done|].
  cbn [app] in *. rewrite adj_ok_cons2 in H1 |- *. tauto.
Qed.

Lemma last_size_nonneg p l :
  0 ≤ p < 2 ^ 31 → Forall (λ b, NODE_S ≤ b_size b) l → total l < 2 ^ 31 →
  0 ≤ last_size p l < 2 ^ 31.
Proof.
  intros Hp Hl Ht. unfold last_size. destruct (last l) as [b|] eqn:E; [|done].
  apply last_Some in E as (l' & ->). apply Forall_app in Hl as [Hl Hb].
  apply Forall_cons in Hb as [Hb _]. pose proof (total_nonneg _ Hl). pose proof NODE_S_bounds.
  rewrite total_app in Ht. cbn [total] in Ht. lia.
Qed.

Lemma tiles_app m a p l k :
  tiles m a p (l ++ k) ↔ tiles m a p l ∧ tiles m (a + total l) (last_size p l) k.
Proof.
  revert a p. induction l as [|b l IH]; intros a p; simpl.
  - rewrite Z.add_0_r. unfold last_size. simpl. tauto.
  - rewrite IH. replace (a + b_size b + total l) with (a + (b_size b + total l)) by lia.
    replace (last_size p (b :: l)) with (last_size (b_size b) l); [tauto|].
    unfold last_size. destruct l as [|c l]; [done|]. rewrite last_cons_cons.
    by destruct (last (c :: l)) eqn:E; [|apply last_None in E].
Qed.

Lemma tiles_ext m m' a p l :
  (∀ y, a ≤ y < a + total l → n_size m' !! y = n_size m !! y ∧ n_flags m' !! y = n_flags m !! y) →
  Forall (λ b, NODE_S ≤ b_size b) l → tiles m a p l → tiles m' a p l.
Proof.
  pose proof NODE_S_bounds.
  revert a p. induction l as [|b l IH]; intros a p Hs Hl; [done|].
  apply Forall_cons in Hl as [Hb Hl]. pose proof (total_nonneg _ Hl).
  intros (? & ? & ?). simpl in Hs. destruct (Hs a) as [E1 E2]; [lia|].
  simpl. rewrite E1, E2. split_and!; [done|done|].
  apply IH; [|done|done]. intros y Hy. apply Hs. lia.
Qed.

Lemma free_at_app a l k : free_at a (l ++ k) = free_at a l ++ free_at (a + total l) k.
Proof.
  revert a. induction l as [|b l IH]; intros a; simpl; [by rewrite Z.add_0_r|].
  rewrite IH, <- app_assoc. by rewrite Z.add_assoc.
Qed.

Lemma free_at_range a l y :
  Forall (λ b, NODE_S ≤ b_size b) l → y ∈ free_at a l → a ≤ y < a + total l.
Proof.
  pose proof NODE_S_bounds.
  revert a. induction l as [|b l IH]; intros a Hl Hy; [by apply elem_of_nil in Hy|].
  apply Forall_cons in Hl as [Hb Hl]. pose proof (total_nonneg _ Hl). simpl in Hy.
  apply elem_of_app in Hy as [Hy|Hy].
  - destruct (b_alloc b); [by apply elem_of_nil in Hy|].
    apply list_elem_of_singleton in Hy as ->. simpl. lia.
  - apply IH in Hy; [|done]. simpl. lia.
Qed.

Lemma free_at_elem a l y :
  y ∈ free_at a l → ∃ B1 s B2, l = B1 ++ avail s :: B2 ∧ y = a + total B1.
Proof.
  revert a. induction l as [|b l IH]; intros a Hy; [by apply elem_of_nil in Hy|].
  simpl in Hy. apply elem_of_app in Hy as [Hy|Hy].
  - destruct b as [s [|]]; simpl in Hy; [by apply elem_of_nil in Hy|].
    apply list_elem_of_singleton in Hy as ->. exists [], s, l. split; [done|simpl; lia].
  - apply IH in Hy as (B1 & s & B2 & -> & ->). exists (b :: B1), s, B2. split; [done|simpl; lia].
Qed.

(** ** Flags words *)

Lemma flags_alloc_bit p b :
  0 ≤ p < 2 ^ 31 →
  Z.land (flags_of p b) FLAG_ALLOCATED = (if b_alloc b then FLAG_ALLOCATED else 0).
Proof.
  intros Hp. unfold flags_of, FLAG_ALLOCATED.
  apply Z.bits_inj'. intros n Hn. rewrite Z.land_spec, Z.pow2_bits_eqb by lia.
  destruct (Z.eqb_spec 31 n) as [<-|Hne].
  - rewrite andb_true_r. destruct (b_alloc b).
    + rewrite Z.pow2_bits_true by lia. apply Z.testbit_true; [lia|].
      replace ((p + 2 ^ 31) / 2 ^ 31) with 1; [done|]. apply (Z.div_unique _ _ _ p); lia.
    + rewrite Z.bits_0. apply Z.testbit_false; [lia|]. rewrite Z.div_small by lia. done.
  - rewrite andb_false_r. destruct (b_alloc b); [|by rewrite Z.bits_0].
    by rewrite Z.pow2_bits_false by lia.
Qed.

Lemma lor_alloc p : 0 ≤ p < 2 ^ 31 → Z.lor FLAG_ALLOCATED p = p + FLAG_ALLOCATED.
Proof.
  intros Hp. unfold FLAG_ALLOCATED. rewrite Z.lor_comm.
  rewrite <- Z.lxor_lor, Z.add_nocarry_lxor; try done.
  all: apply Z.bits_inj'; intros n Hn; rewrite Z.land_spec, Z.pow2_bits_eqb, Z.bits_0 by lia.
  all: destruct (Z.eqb_spec 31 n) as [<-|]; [|by rewrite andb_false_r].
  all: rewrite andb_true_r; apply Z.testbit_false; [lia|]; rewrite Z.div_small by lia; done.
Qed.

Lemma flags_range p b : 0 ≤ p < 2 ^ 31 → 0 ≤ flags_of p b < 2 ^ 32.
Proof. unfold flags_of, FLAG_ALLOCATED. destruct (b_alloc b); lia. Qed.

Lemma flags_set_prev p v b :
  0 ≤ p < 2 ^ 31 → 0 ≤ v < 2 ^ 31 →
  Z.lor (Z.land (flags_of p b) FLAG_ALLOCATED) v = flags_of v b.
Proof.
  intros Hp Hv. rewrite flags_alloc_bit by done. unfold flags_of.
  destruct (b_alloc b); [by apply lor_alloc|]. by rewrite Z.lor_0_l.
Qed.

Lemma flags_set_alloc p s t :
  0 ≤ p < 2 ^ 31 → Z.lor (flags_of p (avail s)) FLAG_ALLOCATED = flags_of p (used t).
Proof. intros Hp. unfold flags_of; simpl. by rewrite Z.lor_comm, lor_alloc. Qed.

Lemma flags_clear_alloc p s t :
  0 ≤ p < 2 ^ 31 → Z.ldiff (flags_of p (used s)) FLAG_ALLOCATED = flags_of p (avail t).
Proof.
  intros Hp. unfold flags_of; cbn [b_alloc used avail]. rewrite <- lor_alloc, Z.lor_comm by done.
  apply Z.bits_inj'. intros n Hn. rewrite Z.ldiff_spec, Z.lor_spec.
  unfold FLAG_ALLOCATED. rewrite Z.pow2_bits_eqb by lia.
  destruct (Z.eqb_spec 31 n) as [<-|]; cbn [negb].
  - rewrite andb_false_r. symmetry. apply Z.testbit_false; [lia|].
    rewrite Z.div_small by lia. done.
  - by rewrite orb_false_r, andb_true_r.
Qed.
End Spec.
