(* ===== verification/FreelistHeap.v ===== *)
(** * The free list: lemmas about regions and the list of free blocks *)

From S2P Require Import Prelude Freelist FreelistInv FreelistSpec.
Local Open Scope Z_scope.

Section Heap.
Context `{Arch}.

Lemma disjoint_list_split E1 e E2 e' :
  disjoint_list (E1 ++ e :: E2) → e' ∈ E1 ++ E2 → e.2 ≤ e'.1 ∨ e'.2 ≤ e.1.
Proof.
  induction E1 as [|f E1 IH]; simpl; intros [Hf Hd] He.
  - rewrite Forall_forall in Hf. by apply Hf.
  - apply elem_of_cons in He as [-> | He]; [|by apply IH].
    rewrite Forall_forall in Hf. destruct (Hf e); [mem|tauto|tauto].
Qed.

Lemma owns_in_extent m lo hi a :
  (lo, hi) ∈ owned m → lo ≤ a → a + NODE_S ≤ hi → owns m a = true.
Proof.
  intros Hin H1 H2. unfold owns. apply existsb_exists. exists (lo, hi).
  split; [by apply list_elem_of_In|]. apply andb_true_intro. split; apply Z.leb_le; lia.
Qed.

Section Region.
Context (fl : Z) (m : fmem) (R1 R2 : list region) (r : region).
Hypothesis HI : heap_inv fl m (R1 ++ r :: R2).

Lemma hr_wf : wf_blocks (r_blocks r).
Proof. pose proof (hp_wf _ _ _ HI) as Hw. rewrite Forall_app, Forall_cons in Hw. tauto. Qed.

Lemma hr_sizes : Forall (λ b, NODE_S ≤ b_size b) (r_blocks r).
Proof. apply hr_wf. Qed.

Lemma hr_tiles : tiles m (r_base r) 0 (r_blocks r).
Proof. pose proof (hp_tiles _ _ _ HI) as Hw. rewrite Forall_app, Forall_cons in Hw. tauto. Qed.

Lemma hr_extent : extent r ∈ zone_ext fl :: map extent (R1 ++ r :: R2).
Proof. rewrite map_app. simpl. mem. Qed.

Lemma hr_base : 0 < r_base r.
Proof. exact (hp_pos _ _ _ HI _ hr_extent). Qed.

Lemma hr_owns a :
  r_base r ≤ a → a + NODE_S ≤ r_base r + total (r_blocks r) → owns m a = true.
Proof. apply owns_in_extent. apply (hp_owned _ _ _ HI), hr_extent. Qed.

Lemma hr_disjoint r' :
  r' ∈ R1 ++ R2 →
  r_base r + total (r_blocks r) ≤ r_base r' ∨
  r_base r' + total (r_blocks r') ≤ r_base r.
Proof.
  intros Hr'. pose proof (hp_disj _ _ _ HI) as Hd. rewrite map_app in Hd. cbn [map] in Hd.
  rewrite app_comm_cons in Hd. apply (disjoint_list_split _ _ _ (extent r')) in Hd; [exact Hd|].
  simpl. apply elem_of_cons. right. rewrite <- map_app. apply list_elem_of_In, in_map.
  by apply list_elem_of_In.
Qed.

Lemma hr_zone a :
  r_base r ≤ a < r_base r + total (r_blocks r) → ¬ (fl ≤ a < fl + 32 * NODE_S).
Proof.
  intros Ha. pose proof (hp_disj _ _ _ HI) as [Hd _].
  rewrite Forall_forall in Hd. specialize (Hd (extent r)). unfold zone_ext, extent in Hd.
  simpl in Hd. destruct Hd; [|lia|lia].
  apply list_elem_of_In, in_map_iff. exists r. split; [done|]. apply list_elem_of_In. mem.
Qed.

(** A block in the middle of the region. *)
Section Block.
Context (B1 B2 : list blk) (b : blk).
Hypothesis EB : r_blocks r = B1 ++ b :: B2.
Let x := r_base r + total B1.

Lemma hb_sizes :
  Forall (λ b, NODE_S ≤ b_size b) B1 ∧ NODE_S ≤ b_size b ∧ Forall (λ b, NODE_S ≤ b_size b) B2.
Proof. pose proof hr_sizes as Hs. rewrite EB, Forall_app, Forall_cons in Hs. done. Qed.

Lemma hb_total :
  0 ≤ total B1 ∧ 0 ≤ total B2 ∧
  total (r_blocks r) = total B1 + b_size b + total B2 ∧ total (r_blocks r) < 2 ^ 31.
Proof.
  destruct hb_sizes as (H1 & H2 & H3). pose proof (total_nonneg _ H1).
  pose proof (total_nonneg _ H3). split_and!; [done|done| |].
  - rewrite EB, total_app. simpl. lia.
  - apply hr_wf.
Qed.

Lemma hb_range : 0 < x ∧ r_base r ≤ x ∧ x + b_size b + total B2 = r_base r + total (r_blocks r).
Proof. pose proof hb_total. pose proof hr_base. unfold x. lia. Qed.

Lemma hb_owns a : x ≤ a → a + NODE_S ≤ x + b_size b → owns m a = true.
Proof. intros. pose proof hb_total. pose proof hb_range. apply hr_owns; lia. Qed.

Lemma hb_owns_start : owns m x = true.
Proof. apply hb_owns; [lia|]. destruct hb_sizes as (_ & ? & _). lia. Qed.

Lemma hb_last_size : 0 ≤ last_size 0 B1 < 2 ^ 31.
Proof.
  destruct hb_sizes as (? & ? & ?). pose proof hb_total. pose proof NODE_S_bounds.
  apply last_size_nonneg; [lia|done|lia].
Qed.

Lemma hb_size : n_size m !! x = Some (b_size b).
Proof. pose proof hr_tiles as Ht. rewrite EB, tiles_app in Ht. apply Ht. Qed.

Lemma hb_flags : n_flags m !! x = Some (flags_of (last_size 0 B1) b).
Proof. pose proof hr_tiles as Ht. rewrite EB, tiles_app in Ht. apply Ht. Qed.

Lemma hb_tiles_l : tiles m (r_base r) 0 B1.
Proof. pose proof hr_tiles as Ht. rewrite EB, tiles_app in Ht. apply Ht. Qed.

Lemma hb_tiles_r : tiles m (x + b_size b) (b_size b) B2.
Proof. pose proof hr_tiles as Ht. rewrite EB, tiles_app in Ht. apply Ht. Qed.
End Block.

(** A step that only changes this region keeps the heap invariant. *)
Lemma heap_replace m' r' :
  extent r' = extent r → wf_blocks (r_blocks r') → tiles m' (r_base r') 0 (r_blocks r') →
  owned m' = owned m →
  (∀ y, ¬ (r_base r ≤ y < r_base r + total (r_blocks r)) →
     n_size m' !! y = n_size m !! y ∧ n_flags m' !! y = n_flags m !! y) →
  heap_inv fl m' (R1 ++ r' :: R2).
Proof.
  intros He Hwf Ht Ho Hs.
  assert (map extent (R1 ++ r' :: R2) = map extent (R1 ++ r :: R2)) as Em.
  { rewrite !map_app. simpl. by rewrite He. }
  constructor; rewrite ?Em, ?Ho; [| |apply HI|apply HI|apply HI].
  - pose proof (hp_wf _ _ _ HI) as Hw. rewrite Forall_app, Forall_cons in Hw.
    rewrite Forall_app, Forall_cons. tauto.
  - pose proof (hp_tiles _ _ _ HI) as Hw. pose proof (hp_wf _ _ _ HI) as Hw'.
    assert (∀ q, q ∈ R1 ++ R2 → tiles m' (r_base q) 0 (r_blocks q)) as Hq.
    { intros q Hq. rewrite Forall_forall in Hw, Hw'.
      assert (q ∈ R1 ++ r :: R2) as Hq' by mem.
      destruct (Hw' q Hq') as (_ & _ & Hsz & _).
      eapply tiles_ext; [|exact Hsz|by apply Hw].
      intros y Hy. apply Hs. destruct (hr_disjoint q Hq); lia. }
    rewrite Forall_app, Forall_cons. split_and!; [|done|].
    all: apply Forall_forall; intros q Hin; apply Hq; mem.
Qed.

Lemma all_free_split : all_free (R1 ++ r :: R2) ≡ₚ region_free r ++ all_free (R1 ++ R2).
Proof.
  unfold all_free. rewrite !fmap_app, !concat_app. cbn [fmap list_fmap concat].
  solve_Permutation.
Qed.

(** Inside the region, only its own free blocks are free. *)
Lemma all_free_inside y :
  r_base r ≤ y < r_base r + total (r_blocks r) →
  y ∈ all_free (R1 ++ r :: R2) → y ∈ region_free r.
Proof.
  intros Hy Hin. rewrite all_free_split, elem_of_app in Hin. destruct Hin as [?|Hin]; [done|].
  exfalso. unfold all_free in Hin. apply list_elem_of_In, in_concat in Hin as (l & Hl & Hin).
  apply list_elem_of_In, list_elem_of_fmap in Hl as (q & -> & Hq).
  pose proof (hp_wf _ _ _ HI) as Hw. rewrite Forall_forall in Hw.
  destruct (Hw q) as (_ & _ & Hsz & _); [mem|].
  apply list_elem_of_In, free_at_range in Hin; [|done].
  destruct (hr_disjoint q Hq); lia.
Qed.

(** No list cell lies inside a block, but for the header of a free one. *)
Lemma not_in_chain bk B1 b B2 y :
  concat bk ≡ₚ all_free (R1 ++ r :: R2) → length bk = 32%nat →
  r_blocks r = B1 ++ b :: B2 →
  r_base r + total B1 ≤ y < r_base r + total B1 + b_size b →
  b_alloc b = true ∨ y ≠ r_base r + total B1 →
  y ∉ chain fl bk.
Proof.
  intros Hp Hlen EB Hy Hb Hin. pose proof (hb_total _ _ _ EB). pose proof NODE_S_bounds.
  apply chain_from_elem in Hin as [(j & Hj & ->) | Hin].
  - apply (hr_zone (nodelist fl j)); [lia|]. unfold nodelist. rewrite Hlen in Hj. nia.
  - rewrite Hp in Hin. apply all_free_inside in Hin; [|lia].
    unfold region_free in Hin. rewrite EB, free_at_app in Hin. cbn [free_at] in Hin.
    destruct (hb_sizes _ _ _ EB) as (? & ? & ?).
    rewrite !elem_of_app in Hin. destruct Hin as [Hin | [Hin | Hin]].
    + apply free_at_range in Hin; [lia|done].
    + destruct (b_alloc b); [by apply elem_of_nil in Hin|].
      apply list_elem_of_singleton in Hin. destruct Hb; [done|lia].
    + apply free_at_range in Hin; [lia|done].
Qed.
End Region.

(** ** Order along the chain *)

Lemma concat_sublist fl i bk : concat bk `sublist_of` chain_from fl i bk.
Proof.
  revert i. induction bk as [|b bk IH]; intros i; simpl; [done|].
  apply sublist_cons, sublist_app; [done|apply IH].
Qed.

Lemma fl_nodup_concat fl m bk : flist fl m bk → NoDup (concat bk).
Proof. intros F. eapply sublist_NoDup; [apply F|apply concat_sublist]. Qed.

(** Dummies count as size 0. *)
Definition chain_le (m : fmem) (a c : Z) : Prop :=
  msize m a = 0 ∨ msize m c = 0 ∨ msize m a ≤ msize m c.

Lemma chain_sorted fl m bk i :
  (∀ j, 0 ≤ j < 32 → msize m (nodelist fl j) = 0) →
  0 ≤ i → i + Z.of_nat (length bk) ≤ 32 →
  (∀ k b a, bk !! k = Some b → a ∈ b →
     0 < msize m a < 2 ^ 32 ∧ size2i (msize m a) = i + Z.of_nat k) →
  (∀ k b, bk !! k = Some b → StronglySorted (size_le m) b) →
  StronglySorted (chain_le m) (chain_from fl i bk).
Proof.
  intros Hd. revert i. induction bk as [|b bk IH]; intros i Hi Hlen Hcl Hso; [constructor|].
  rewrite length_cons in Hlen. cbn [chain_from]. constructor.
  2:{ apply Forall_forall. intros c _. left. apply Hd. lia. }
  assert (Hcl' : ∀ k b' a, bk !! k = Some b' → a ∈ b' →
     0 < msize m a < 2 ^ 32 ∧ size2i (msize m a) = i + 1 + Z.of_nat k).
  { intros k b' a Hk Ha. destruct (Hcl (S k) b' a Hk Ha). split; lia. }
  assert (StronglySorted (chain_le m) (chain_from fl (i + 1) bk)) as Hs.
  { apply IH; [lia|lia|done|]. intros k b' Hk. by apply (Hso (S k)). }
  assert (Forall (λ a, a ∈ b) b) as Hb by (by apply Forall_forall).
  specialize (Hso 0%nat b eq_refl). revert Hb Hso. generalize b at 2 3 4. intros l Hl Hsl.
  induction Hsl as [|a l Hsl IHl Hf]; [done|]. apply Forall_cons in Hl as [Ha Hl].
  destruct (Hcl 0%nat b a eq_refl Ha) as [Hpa Hca].
  simpl. constructor; [by apply IHl|]. apply Forall_app. split.
  - eapply Forall_impl; [exact Hf|]. intros c Hc. right. right. exact Hc.
  - apply Forall_forall. intros c Hc.
    apply chain_from_elem in Hc as [(j & Hj & ->) | Hc]; [right; left; apply Hd; lia|].
    right. right. apply list_elem_of_In, in_concat in Hc as (b' & Hb' & Hc).
    apply list_elem_of_In, list_elem_of_lookup in Hb' as (k & Hk).
    apply list_elem_of_In in Hc. destruct (Hcl' k b' c Hk Hc) as [Hpc Hcc].
    destruct (Z.le_gt_cases (msize m a) (msize m c)); [done|].
    pose proof (size2i_mono (msize m c) (msize m a)). lia.
Qed.

Lemma fl_chain_sorted fl m bk : flist fl m bk → StronglySorted (chain_le m) (chain fl bk).
Proof.
  intros F. apply chain_sorted.
  - intros j Hj. unfold msize. by rewrite (fl_dummy _ _ _ F).
  - lia.
  - rewrite (fl_len _ _ _ F). lia.
  - intros k b a Hk Ha. destruct (fl_class _ _ _ F k b a Hk Ha) as (_ & ? & ?). done.
  - apply F.
Qed.

(** ** Stores and the list *)

Lemma flist_w_size fl m bk a v :
  flist fl m bk → a ∉ chain fl bk → flist fl (w_size a v m) bk.
Proof.
  intros F Ha. apply (flist_ext _ _ _ _ F); [done|]. intros c Hc. simpl.
  rewrite lookup_insert_ne; [done|]. by intros ->.
Qed.

Lemma flist_w_flags fl m bk a v : flist fl m bk → flist fl (w_flags a v m) bk.
Proof. intros F. by apply (flist_ext _ _ _ _ F). Qed.

Lemma flist_w_links fl m bk a v w :
  flist fl m bk → a ∉ chain fl bk → flist fl (w_prev a w (w_next a v m)) bk.
Proof.
  intros F Ha. apply (flist_ext _ _ _ _ F); [done|]. intros c Hc. simpl.
  rewrite !lookup_insert_ne; [done| |]; by intros ->.
Qed.

Lemma flist_st_bytes fl m bk f : flist fl m bk → flist fl (st_bytes f m) bk.
Proof. intros F. by apply (flist_ext _ _ _ _ F). Qed.

Lemma set_prev_size_ok m x p b v :
  n_flags m !! x = Some (flags_of p b) → 0 ≤ p < 2 ^ 31 → 0 ≤ v < 2 ^ 31 → owns m x = true →
  set_prev_size x v m = Ok (w_flags x (flags_of v b) m).
Proof.
  intros Hf Hp Hv Ho. unfold set_prev_size. rewrite (load_Some _ _ _ Hf). simpl.
  assert (0 ≤ Z.land (flags_of p b) FLAG_ALLOCATED < 2 ^ 32).
  { rewrite flags_alloc_bit by done. destruct (b_alloc b); done. }
  unfold st_flags. rewrite Ho. simpl. unfold load. simpl. rewrite lookup_insert_eq. simpl.
  replace (owns _ x) with true by (symmetry; exact Ho).
  rewrite (wrap_small 32 v) by lia. rewrite (wrap_small 32 (Z.land _ _)) by done.
  rewrite flags_set_prev by done.
  rewrite wrap_small by (by apply flags_range). f_equal. unfold w_flags. simpl.
  by rewrite insert_insert_eq.
Qed.

(** ** Replacing blocks of a region *)

Lemma tiles_replace m m' a p B1 Bo Bn c B2 :
  Forall (λ b, NODE_S ≤ b_size b) (B1 ++ Bo ++ c :: B2) →
  tiles m a p (B1 ++ Bo ++ c :: B2) →
  total Bn = total Bo → Bn ≠ [] →
  tiles m' (a + total B1) (last_size p B1) Bn →
  n_size m' !! (a + total B1 + total Bo) = Some (b_size c) →
  n_flags m' !! (a + total B1 + total Bo) = Some (flags_of (last_size 0 Bn) c) →
  (∀ y, a ≤ y < a + total B1 ∨ a + total B1 + total Bo < y →
     n_size m' !! y = n_size m !! y ∧ n_flags m' !! y = n_flags m !! y) →
  tiles m' a p (B1 ++ Bn ++ c :: B2).
Proof.
  intros Hsz Ht Htot Hne Hn Hcs Hcf Hs. pose proof NODE_S_bounds.
  rewrite !Forall_app, Forall_cons in Hsz. destruct Hsz as (S1 & S2 & S3 & S4).
  rewrite !tiles_app in Ht. destruct Ht as (T1 & T2 & T3 & T4 & T5).
  rewrite !tiles_app, Htot. split_and!.
  - eapply tiles_ext; [|done|exact T1]. intros y Hy. apply Hs. lia.
  - done.
  - simpl. split_and!; [done| |].
    + replace (last_size (last_size p B1) Bn) with (last_size 0 Bn); [done|].
      unfold last_size. destruct (last Bn) eqn:E; [done|]. by apply last_None in E.
    + eapply tiles_ext; [|done|exact T5]. intros y Hy. apply Hs. lia.
Qed.

Lemma wf_replace B1 Bo Bn c B2 :
  wf_blocks (B1 ++ Bo ++ c :: B2) → B1 ≠ [] →
  Forall (λ b, NODE_S ≤ b_size b) Bn → adj_ok (B1 ++ Bn ++ c :: B2) → total Bn = total Bo →
  wf_blocks (B1 ++ Bn ++ c :: B2).
Proof.
  intros (W1 & W2 & W3 & W4 & W5) Hne Hs Ha Ht. split_and!.
  - destruct B1; [done|]. done.
  - rewrite app_assoc, last_app_cons in *. done.
  - rewrite !Forall_app in *. tauto.
  - done.
  - rewrite !total_app in *. lia.
Qed.

Lemma wf_avail_middle B1 s B2 :
  wf_blocks (B1 ++ avail s :: B2) → B1 ≠ [] ∧ ∃ c B3, B2 = c :: B3.
Proof.
  intros (W1 & W2 & _). split; [by intros ->|].
  destruct B2 as [|c B3]; [|eauto]. by rewrite last_snoc in W2.
Qed.

(** ** One step inside a region *)

Lemma heap_same fl m m' rs : same_data m m' → heap_inv fl m rs → heap_inv fl m' rs.
Proof.
  intros (Es & Ef & _ & Eo) HI. constructor; [apply HI| |apply HI| |apply HI].
  - eapply Forall_impl; [apply (hp_tiles _ _ _ HI)|]. intros q Hq.
    cbv beta in *. revert Hq. generalize (r_blocks q) as l, (r_base q) as a, 0 as p.
    induction l as [|b l IH]; [done|].
    intros a p (? & ? & ?). simpl. rewrite Es, Ef. auto.
  - intros e He. rewrite Eo. by apply (hp_owned _ _ _ HI).
Qed.

(** The blocks [Bo] of a region become [Bn]; [c] is the block after them. *)
Lemma heap_commit fl m m' R1 R2 base B1 Bo Bn c B2 :
  heap_inv fl m (R1 ++ {| r_base := base; r_blocks := B1 ++ Bo ++ c :: B2 |} :: R2) →
  B1 ≠ [] → Bn ≠ [] → Forall (λ b, NODE_S ≤ b_size b) Bn → adj_ok (B1 ++ Bn ++ c :: B2) →
  total Bn = total Bo → owned m' = owned m →
  tiles m' (base + total B1) (last_size 0 B1) Bn →
  n_size m' !! (base + total B1 + total Bo) = Some (b_size c) →
  n_flags m' !! (base + total B1 + total Bo) = Some (flags_of (last_size 0 Bn) c) →
  (∀ y, y < base + total B1 ∨ base + total B1 + total Bo < y →
     n_size m' !! y = n_size m !! y ∧ n_flags m' !! y = n_flags m !! y) →
  heap_inv fl m' (R1 ++ {| r_base := base; r_blocks := B1 ++ Bn ++ c :: B2 |} :: R2).
Proof.
  intros HI Hne Hne' Hs Ha Ht Ho Hti Hcs Hcf Hout.
  pose proof (hr_wf _ _ _ _ _ HI) as Hwf. pose proof (hr_sizes _ _ _ _ _ HI) as Hsz.
  pose proof (hr_tiles _ _ _ _ _ HI) as Htl. cbn [r_blocks r_base] in *.
  rewrite !Forall_app, Forall_cons in Hsz. destruct Hsz as (S1 & S2 & S3 & S4).
  pose proof (total_nonneg _ S1). pose proof (total_nonneg _ S2). pose proof (total_nonneg _ S4).
  pose proof NODE_S_bounds.
  eapply heap_replace; [exact HI| | | |exact Ho|]; cbn [r_blocks r_base].
  - unfold extent. cbn [r_blocks r_base]. rewrite !total_app. f_equal. lia.
  - by eapply wf_replace.
  - eapply tiles_replace; try done.
    + rewrite !Forall_app, Forall_cons. done.
    + intros y Hy. apply Hout. lia.
  - intros y Hy. apply Hout. rewrite !total_app in Hy. cbn [total] in Hy. lia.
Qed.

(** The free blocks of the heap but for those of the blocks [mid]. *)
Definition gap (base : Z) (B1 : list blk) (s : Z) (B2 : list blk) (Rs : list region) : list Z :=
  free_at base B1 ++ free_at (base + total B1 + s) B2 ++ all_free Rs.

Lemma all_free_gap R1 R2 base B1 mid B2 :
  all_free (R1 ++ {| r_base := base; r_blocks := B1 ++ mid ++ B2 |} :: R2) ≡ₚ
  free_at (base + total B1) mid ++ gap base B1 (total mid) B2 (R1 ++ R2).
Proof.
  rewrite all_free_split. unfold region_free, gap. cbn [r_base r_blocks].
  rewrite !free_at_app. solve_Permutation.
Qed.

Lemma gap_not_in_chain fl m R1 R2 base B1 mid B2 bk y :
  heap_inv fl m (R1 ++ {| r_base := base; r_blocks := B1 ++ mid ++ B2 |} :: R2) →
  length bk = 32%nat → concat bk ≡ₚ gap base B1 (total mid) B2 (R1 ++ R2) →
  base + total B1 ≤ y < base + total B1 + total mid →
  y ∉ chain fl bk.
Proof.
  intros HI Hlen Hp Hy Hin. pose proof NODE_S_bounds.
  pose proof (hr_sizes _ _ _ _ _ HI) as Hsz. cbn [r_blocks] in Hsz.
  rewrite !Forall_app in Hsz. destruct Hsz as (S1 & S2 & S3).
  pose proof (total_nonneg _ S1). pose proof (total_nonneg _ S3).
  pose proof (hr_zone _ _ _ _ _ HI) as Hz. cbn [r_blocks r_base] in Hz.
  rewrite !total_app in Hz.
  apply chain_from_elem in Hin as [(j & Hj & ->) | Hin].
  - apply (Hz (nodelist fl j)); [lia|]. unfold nodelist. rewrite Hlen in Hj. nia.
  - rewrite Hp in Hin. unfold gap in Hin. rewrite !elem_of_app in Hin.
    destruct Hin as [Hin | [Hin | Hin]].
    + apply free_at_range in Hin; [lia|done].
    + apply free_at_range in Hin; [lia|done].
    + unfold all_free in Hin. apply list_elem_of_In, in_concat in Hin as (l & Hl & Hin).
      apply list_elem_of_In, list_elem_of_fmap in Hl as (q & -> & Hq).
      pose proof (hp_wf _ _ _ HI) as Hw. rewrite Forall_forall in Hw.
      destruct (Hw q) as (_ & _ & Hs & _); [mem|].
      apply list_elem_of_In, free_at_range in Hin; [|done].
      pose proof (hr_disjoint _ _ _ _ _ HI q Hq) as Hd. cbn [r_blocks r_base] in Hd.
      rewrite !total_app in Hd. lia.
Qed.

(** Unlinking a free block of the heap. *)
Lemma unlink_in_heap fl m bk a l :
  flist fl m bk → concat bk ≡ₚ a :: l →
  ∃ m' bk', unlink a m = Ok m' ∧ same_data m m' ∧ flist fl m' bk' ∧ concat bk' ≡ₚ l.
Proof.
  intros F Hp. assert (a ∈ concat bk) as Ha by (rewrite Hp; mem).
  apply list_elem_of_In, in_concat in Ha as (b & Hb & Ha).
  apply list_elem_of_In, list_elem_of_lookup in Hb as (i & Hi).
  apply list_elem_of_In, list_elem_of_split in Ha as (b1 & b2 & ->).
  destruct (unlink_spec _ _ _ _ _ _ _ F Hi) as (m' & H1 & H2 & H3).
  exists m', (<[i:=b1 ++ b2]> bk). split_and!; [done|done|done|].
  destruct (concat_insert bk i _ (b1 ++ b2) Hi) as [P1 P2].
  apply (Permutation_cons_inv (a := a)). rewrite <- Hp, P1, P2. solve_Permutation.
Qed.

(** Linking a block that is not on the list. *)
Lemma add_in_heap fl m bk a s :
  flist fl m bk → n_size m !! a = Some s → 0 < s < 2 ^ 32 →
  a ∉ chain fl bk → owns m a = true → 0 < a →
  ∃ m' bk', mdx_fl_add_node fl a m = Ok m' ∧ same_data m m' ∧ flist fl m' bk' ∧
    concat bk' ≡ₚ a :: concat bk.
Proof.
  intros F Hs Hr Ha Ho Hp.
  destruct (add_node_spec _ _ _ _ _ F Hs Hr Ha Ho Hp) as (m' & i & b1 & b2 & E & Hsd & Hi & F').
  exists m', (<[i:=b1 ++ a :: b2]> bk). split_and!; [done|done|done|].
  destruct (concat_insert bk i _ (b1 ++ a :: b2) Hi) as [P1 P2].
  rewrite P1, P2. solve_Permutation.
Qed.

(** ** Rounding *)

Definition round16 (s : Z) : Z := (s + 15) / 16 * 16.

Lemma land15 s : Z.land s 15 = s mod 16.
Proof. change 15 with (Z.ones 4). by rewrite Z.land_ones. Qed.

Lemma align_loop_spec fuel s :
  0 ≤ s → s + 15 < 2 ^ PTR_W → round16 s - s ≤ Z.of_nat fuel →
  align_loop fuel s = round16 s.
Proof.
  unfold round16. revert s. induction fuel as [|fuel IH]; intros s Hs Hw Hf.
  - simpl. Z.div_mod_to_equations. lia.
  - cbn [align_loop]. rewrite land15. destruct (Z.eqb_spec (s mod 16) 0).
    + Z.div_mod_to_equations. lia.
    + assert (round16 (s + 1) = round16 s) as E.
      { unfold round16. Z.div_mod_to_equations. lia. }
      destruct (Z.eq_dec ((s + 1) mod 16) 0) as [E0|N0].
      * destruct fuel; simpl; rewrite wrap_small by (Z.div_mod_to_equations; lia);
          [|rewrite land15, E0; simpl]; Z.div_mod_to_equations; lia.
      * rewrite wrap_small by lia. unfold round16 in E. rewrite IH; [lia|lia| |lia].
        assert (2 ^ PTR_W mod 16 = 0) by (destruct arch_ok as [-> | ->]; done).
        clear IH. Z.div_mod_to_equations. lia.
Qed.

Lemma align16_spec s : 0 ≤ s → s + 15 < 2 ^ PTR_W → align16 s = round16 s.
Proof.
  intros. apply align_loop_spec; [done|done|]. unfold round16. simpl.
  Z.div_mod_to_equations. lia.
Qed.

Lemma round16_bounds s : s ≤ round16 s < s + 16.
Proof. unfold round16. Z.div_mod_to_equations. lia. Qed.
End Heap.
