(* ===== verification/FreelistFrame.v ===== *)
(** * The free list: which headers an operation may change

    [kept P m m']: the header fields at the addresses outside [P] are the same in [m] and
    in [m'].  A list operation changes the headers on the list and the one it is called
    for, and nothing else. *)

From S2P Require Import Prelude Freelist FreelistInv FreelistSpec FreelistHeap.
Local Open Scope Z_scope.

Section Frame.
Context `{Arch}.

Definition kept (P : Z → Prop) (m m' : fmem) : Prop :=
  ∀ a, ¬ P a → n_next m' !! a = n_next m !! a ∧ n_prev m' !! a = n_prev m !! a ∧
    n_size m' !! a = n_size m !! a ∧ n_flags m' !! a = n_flags m !! a.

Lemma kept_refl P m : kept P m m.
Proof. done. Qed.

Lemma kept_trans P m1 m2 m3 : kept P m1 m2 → kept P m2 m3 → kept P m1 m3.
Proof.
  intros K1 K2 a Ha. destruct (K1 a Ha) as (E1 & E2 & E3 & E4), (K2 a Ha) as (-> & -> & -> & ->). done.
Qed.

Lemma kept_mono P Q m m' : (∀ a, P a → Q a) → kept P m m' → kept Q m m'.
Proof. intros HPQ K a Ha. apply K. auto. Qed.

(** One store. *)
Lemma kept_next (P : Z → Prop) a v m m' : P a → st_next a v m = Ok m' → kept P m m'.
Proof.
  intros HP. unfold st_next. destruct (owns m a); [|done]. intros [= <-] b Hb. simpl.
  by rewrite lookup_insert_ne by (intros ->; done).
Qed.

Lemma kept_prev (P : Z → Prop) a v m m' : P a → st_prev a v m = Ok m' → kept P m m'.
Proof.
  intros HP. unfold st_prev. destruct (owns m a); [|done]. intros [= <-] b Hb. simpl.
  by rewrite lookup_insert_ne by (intros ->; done).
Qed.

Lemma kept_size (P : Z → Prop) a v m m' : P a → st_size a v m = Ok m' → kept P m m'.
Proof.
  intros HP. unfold st_size. destruct (owns m a); [|done]. intros [= <-] b Hb. simpl.
  by rewrite lookup_insert_ne by (intros ->; done).
Qed.

Lemma kept_flags (P : Z → Prop) a v m m' : P a → st_flags a v m = Ok m' → kept P m m'.
Proof.
  intros HP. unfold st_flags. destruct (owns m a); [|done]. intros [= <-] b Hb. simpl.
  by rewrite lookup_insert_ne by (intros ->; done).
Qed.

(** [e = Ok m'] for a block of statements: the first one, and the rest. *)
Lemma bind_kept P m (e : res fmem) (f : fmem → res fmem) m' :
  (∀ m1, e = Ok m1 → kept P m m1) → (∀ m1, e = Ok m1 → f m1 = Ok m' → kept P m1 m') →
  (m1 ← e; f m1) = Ok m' → kept P m m'.
Proof. intros H1 H2 (m1 & E1 & E2)%bind_inv. eapply kept_trans; [by apply H1|by eapply H2]. Qed.

Lemma set_prev_size_kept (P : Z → Prop) x v m m' : P x → set_prev_size x v m = Ok m' → kept P m m'.
Proof.
  intros HP. unfold set_prev_size. destruct (load _ x) as [f|]; [|done]. rewrite Ok_bind.
  apply bind_kept; [intros m1; by apply kept_flags|]. intros m1 _.
  destruct (load _ x) as [f1|]; [|done]. rewrite Ok_bind. by apply kept_flags.
Qed.

(** ** The list is closed under its pointers *)

Lemma chain_next fl m bk a x : flist fl m bk → a ∈ chain fl bk → n_next m !! a = Some x → x ≠ 0 → x ∈ chain fl bk.
Proof.
  intros F Ha E Hx. apply list_elem_of_split in Ha as (l & k & Ek).
  pose proof (fl_nseq _ _ _ F) as Hn. rewrite Ek in Hn. apply nseq_app in Hn as [Hn _]. rewrite E in Hn. injection Hn as ->.
  destruct k as [|b k]; [done|]. rewrite Ek. unfold hd0. simpl. mem.
Qed.

Lemma chain_prev fl m bk a x : flist fl m bk → a ∈ concat bk → n_prev m !! a = Some x → x ∈ chain fl bk.
Proof.
  intros F Ha E. assert (a ∈ chain fl bk) as Hc by (apply chain_from_elem; by right).
  apply list_elem_of_split in Hc as (l & k & Ek). destruct l as [|c l _] using rev_ind.
  - exfalso. destruct (fl_elem_concat _ _ _ _ F Ha) as (_ & _ & _ & _ & _ & Hs & _).
    pose proof (fl_dummy _ _ _ F 0 ltac:(lia)) as Hd. pose proof (fl_len _ _ _ F) as HL. destruct bk as [|b bk]; [done|].
    unfold chain in Ek. cbn [chain_from app] in Ek. injection Ek as Ea _. subst a. unfold msize in Hs. rewrite Hd in Hs. simpl in Hs. lia.
  - pose proof (fl_links _ _ _ F) as Hl. rewrite Ek, <- app_assoc in Hl. cbn [app] in Hl.
    pose proof (links_prev _ _ _ _ _ _ Hl) as Hp. rewrite E in Hp. injection Hp as ->. rewrite Ek. mem.
Qed.

Lemma unlink_kept fl m bk a m' : flist fl m bk → a ∈ concat bk → unlink a m = Ok m' → kept (λ x, x ∈ chain fl bk) m m'.
Proof.
  intros F Ha. unfold unlink.
  destruct (load (n_prev m) a) as [p|] eqn:Ep; [|done]. rewrite Ok_bind. apply load_inv in Ep.
  destruct (load (n_next m) a) as [n|] eqn:En; [|done]. rewrite Ok_bind. apply load_inv in En.
  pose proof (chain_prev _ _ _ _ _ F Ha Ep) as Hp. assert (a ∈ chain fl bk) as Hc by (apply chain_from_elem; by right).
  apply bind_kept; [intros m1; by apply kept_next|]. intros m1 E1.
  assert (n_next m1 !! a = Some n ∧ n_prev m1 !! a = Some p) as [En1 Ep1].
  { unfold st_next in E1. destruct (owns m p); [|done]. injection E1 as <-. simpl. split; [|done].
    destruct (decide (p = a)) as [->|]; [by rewrite lookup_insert_eq|by rewrite lookup_insert_ne]. }
  rewrite (load_Some _ _ _ En1), Ok_bind. destruct (Z.eqb_spec n 0); [by intros [= <-]|].
  rewrite (load_Some _ _ _ Ep1), Ok_bind. apply kept_prev. by eapply chain_next.
Qed.

Lemma add_scan_in fl m bk node fuel : flist fl m bk → ∀ prev next p n,
  prev ∈ chain fl bk → (next ≠ 0 → next ∈ chain fl bk) → add_scan fuel m node prev next = Ok (p, n) →
  p ∈ chain fl bk ∧ (n ≠ 0 → n ∈ chain fl bk).
Proof.
  intros F. induction fuel as [|fuel IH]; intros prev next p n Hp Hn; cbn [add_scan]; [done|].
  destruct (Z.eqb_spec next 0) as [->|H0]; [intros [= <- <-]; by split|].
  destruct (load (n_size m) next) as [ns|]; [|done]. rewrite Ok_bind. destruct (ns =? 0); [intros [= <- <-]; by split|].
  destruct (load (n_size m) node) as [sz|]; [|done]. rewrite Ok_bind. destruct (ns <? sz); [|intros [= <- <-]; by split].
  destruct (load (n_next m) next) as [nn|] eqn:En; [|done]. rewrite Ok_bind. apply load_inv in En.
  apply IH; [by apply Hn|]. intros Hnn. eapply chain_next; [done|by apply Hn|done|done].
Qed.

Lemma add_node_kept fl m bk node s m' : flist fl m bk → n_size m !! node = Some s → 0 ≤ s < 2 ^ 32 →
  mdx_fl_add_node fl node m = Ok m' → kept (λ x, x = node ∨ x ∈ chain fl bk) m m'.
Proof.
  intros F Es Hs. unfold mdx_fl_add_node. rewrite (load_Some _ _ _ Es), Ok_bind.
  assert (nodelist fl (size2i s) ∈ chain fl bk) as Hd.
  { apply chain_from_elem. left. exists (size2i s). rewrite (fl_len _ _ _ F). pose proof (size2i_range s Hs). split; [lia|done]. }
  destruct (load (n_next m) (nodelist fl (size2i s))) as [nx|] eqn:En; [|done]. rewrite Ok_bind. apply load_inv in En.
  destruct (add_scan _ _ _ _ _) as [[p n]|] eqn:Esc; [|done]. rewrite Ok_bind. cbv beta iota.
  destruct (add_scan_in fl m bk node _ F _ _ _ _ Hd ltac:(intros; by eapply chain_next) Esc) as [Hp Hn].
  apply bind_kept; [intros m1; apply kept_next; by right|]. intros m1 _.
  apply bind_kept; [intros m2; apply kept_prev; by left|]. intros m2 _.
  apply bind_kept; [intros m3; apply kept_next; by left|]. intros m3 _.
  destruct (Z.eqb_spec n 0); [by intros [= <-]|]. apply kept_prev. right. auto.
Qed.
End Frame.
