(* ===== verification/FreelistProofs.v ===== *)
(** * The free list: mdx_fl_malloc and mdx_fl_free implement the abstract allocator *)

From S2P Require Import Prelude Freelist FreelistInv FreelistSpec FreelistHeap FreelistFrame.
Local Open Scope Z_scope.

Section Proofs.
Context `{Arch}.

Lemma PTR_W_pow : 2 ^ 32 ≤ 2 ^ PTR_W.
Proof. destruct arch_ok as [-> | ->]; lia. Qed.

(** Sizes of free blocks, read from memory or from the regions. *)
Lemma free_msize fl m rs a :
  heap_inv fl m rs → a ∈ all_free rs →
  ∃ R1 base B1 s B2 R2,
    rs = R1 ++ {| r_base := base; r_blocks := B1 ++ avail s :: B2 |} :: R2 ∧
    a = base + total B1 ∧ msize m a = s ∧ NODE_S ≤ s < 2 ^ 31 ∧ free_size rs s.
Proof.
  intros HI Ha. unfold all_free in Ha.
  apply list_elem_of_In, in_concat in Ha as (l & Hl & Ha).
  apply list_elem_of_In, list_elem_of_fmap in Hl as (r & -> & Hr). apply list_elem_of_In in Ha.
  apply list_elem_of_split in Hr as (R1 & R2 & ->).
  unfold region_free in Ha. apply free_at_elem in Ha as (B1 & s & B2 & EB & ->).
  exists R1, (r_base r), B1, s, B2, R2.
  pose proof (hb_sizes _ _ _ _ _ HI _ _ _ EB) as (_ & Hs & _).
  pose proof (hb_total _ _ _ _ _ HI _ _ _ EB) as Ht.
  pose proof (hb_size _ _ _ _ _ HI _ _ _ EB) as Hm.
  split_and!; [by rewrite <- EB; destruct r|done| |done|simpl in *; lia|].
  - unfold msize. by rewrite Hm.
  - exists r. split; [mem|]. rewrite EB. mem.
Qed.

Lemma free_size_msize fl m rs s :
  heap_inv fl m rs → free_size rs s → ∃ a, a ∈ all_free rs ∧ msize m a = s.
Proof.
  intros HI (r & Hr & Hs). apply list_elem_of_split in Hr as (R1 & R2 & ->).
  apply list_elem_of_split in Hs as (B1 & B2 & EB).
  exists (r_base r + total B1). split.
  - rewrite all_free_split, elem_of_app. left. unfold region_free.
    rewrite EB, free_at_app. simpl. mem.
  - unfold msize. by rewrite (hb_size _ _ _ _ _ HI _ _ _ EB).
Qed.

(** ** The search finds a best fit *)

Lemma malloc_find fl m bk need :
  flist fl m bk → 0 < need → (∀ c, c ∈ concat bk → msize m c < 2 ^ 31) →
  ∃ r, (node ← load (n_next m) (nodelist fl (size2i (u32 need)));
        find_fit (walk_fuel m) m node need) = Ok r ∧
    ((r = 0 ∧ ∀ c, c ∈ concat bk → msize m c < need) ∨
     (r ∈ concat bk ∧ need ≤ msize m r ∧
      ∀ c, c ∈ concat bk → need ≤ msize m c → msize m r ≤ msize m c)).
Proof.
  intros F Hneed Hsz.
  pose proof (size2i_range (u32 need) (wrap_range 32 need ltac:(lia))) as Hri.
  set (i := Z.to_nat (size2i (u32 need))).
  assert (Z.of_nat i = size2i (u32 need)) as Ei by (unfold i; lia). rewrite <- Ei.
  destruct (lookup_lt_is_Some_2 bk i) as [b Hi]; [rewrite (fl_len _ _ _ F); lia|].
  destruct (chain_split fl bk i b Hi) as (C1 & C2 & E & EC1 & EC2 & _).
  pose proof (fl_nseq _ _ _ F) as Hn. rewrite E in Hn. apply nseq_app in Hn as [Hn1 Hn2].
  rewrite (load_Some _ _ _ Hn1). cbn [mbind res_bind].
  assert (Hch : ∀ a, a ∈ b ++ C2 → a ∈ chain fl bk) by (intros a Ha; rewrite E; mem).
  destruct (find_fit_spec m need (b ++ C2) (walk_fuel m) Hn2) as (r & Hr & Hcase).
  { apply Forall_forall. intros a Ha. apply (fl_has_size fl m bk a F), Hch, Ha. }
  { apply Forall_forall. intros a Ha. apply (fl_owned _ _ _ F), Hch, Ha. }
  { pose proof (fl_walk_fuel _ _ _ F) as Hw. rewrite E in Hw.
    rewrite length_app, length_cons, length_app in Hw. rewrite length_app. lia. }
  exists r. split; [done|].
  (* a block before the class of the request is too small *)
  assert (Hbefore : ∀ c, c ∈ concat bk → need ≤ msize m c → c ∈ b ++ C2).
  { intros c Hc Hfit. destruct (fl_elem_concat _ _ _ _ F Hc) as (k & b' & Hk & Hcb & _ & Hp & Hcl).
    destruct (decide (c ∈ b ++ C2)) as [?|Hout]; [done|exfalso].
    assert (k < i)%nat as Hki.
    { destruct (decide (k < i)%nat) as [?|Hge]; [done|exfalso]. apply Hout.
      destruct (decide (k = i)) as [->|Hne].
      - assert (b' = b) as -> by congruence. mem.
      - apply elem_of_app. right. subst C2. apply chain_from_elem. right.
        apply list_elem_of_In, in_concat. exists b'. split; [|by apply list_elem_of_In].
        apply list_elem_of_In, list_elem_of_lookup. exists (k - S i)%nat.
        rewrite lookup_drop. rewrite <- Hk. f_equal. lia. }
    assert (msize m c < 2 ^ 31) by auto.
    assert (u32 need = need) as Eu by (apply wrap_small; lia). rewrite Eu in Ei.
    pose proof (size2i_mono need (msize m c) ltac:(lia) ltac:(lia)). lia. }
  destruct Hcase as [[-> Hall] | (l1 & l2 & El & Hlt & Hge)].
  - left. split; [done|]. intros c Hc. destruct (Z.lt_ge_cases (msize m c) need); [done|].
    rewrite Forall_forall in Hall. auto.
  - right. assert (r ∈ concat bk) as Hrc.
    { assert (r ∈ chain fl bk) as Hr' by (apply Hch; rewrite El; mem).
      apply chain_from_elem in Hr' as [(j & Hj & ->)|?]; [|done].
      rewrite (fl_len _ _ _ F) in Hj. unfold msize in Hge.
      rewrite (fl_dummy _ _ _ F) in Hge by lia. simpl in Hge. lia. }
    split_and!; [done|done|]. intros c Hc Hfit. pose proof (Hbefore c Hc Hfit) as Hin.
    rewrite El in Hin. apply elem_of_app in Hin as [Hin|Hin].
    { rewrite Forall_forall in Hlt. specialize (Hlt c Hin). simpl in Hlt. lia. }
    apply elem_of_cons in Hin as [->|Hin]; [lia|].
    pose proof (fl_chain_sorted _ _ _ F) as Hso. rewrite E in Hso.
    apply StronglySorted_app_r in Hso. apply StronglySorted_inv in Hso as [Hso _].
    rewrite El in Hso. apply StronglySorted_app_r in Hso.
    apply StronglySorted_inv in Hso as [_ Hso]. rewrite Forall_forall in Hso.
    destruct (Hso c Hin) as [?|[?|?]]; lia.
Qed.

(** ** Serving a request from an unlinked block *)

Section Carve.
Context (fl : Z) (m : fmem) (bk : list (list Z)) (R1 R2 : list region) (base : Z)
  (B1 : list blk) (s : Z) (c : blk) (B3 : list blk) (need : Z).
Let node := base + total B1.
Hypothesis HI :
  heap_inv fl m (R1 ++ {| r_base := base; r_blocks := B1 ++ [avail s] ++ c :: B3 |} :: R2).
Hypothesis F : flist fl m bk.
Hypothesis P : concat bk ≡ₚ gap base B1 s (c :: B3) (R1 ++ R2).
Hypothesis Hneed : NODE_S ≤ need ≤ s.

(** What the invariant says of a free block. *)
Record free_block : Prop := {
  fb_pos : 0 < node;
  fb_node : base ≤ node;
  fb_s : NODE_S ≤ s < 2 ^ 31;
  fb_c : NODE_S ≤ b_size c < 2 ^ 31;
  fb_last : 0 ≤ last_size 0 B1 < 2 ^ 31;
  fb_size : n_size m !! node = Some s;
  fb_flags : n_flags m !! node = Some (flags_of (last_size 0 B1) (avail s));
  fb_csize : n_size m !! (node + s) = Some (b_size c);
  fb_cflags : n_flags m !! (node + s) = Some (flags_of s c);
  fb_own : ∀ a, node ≤ a → a + NODE_S ≤ node + s + b_size c → owns m a = true;
  fb_ne : B1 ≠ [];
  fb_adj1 : adj_ok B1;
  fb_adj2 : adj_ok (c :: B3);
  fb_calloc : b_alloc c = true;
  fb_gap : ∀ y, node ≤ y < node + s → y ∉ chain fl bk
}.

Lemma free_block_ok : free_block.
Proof.
  pose proof NODE_S_bounds as HN.
  destruct (hb_sizes _ _ _ _ _ HI B1 (c :: B3) (avail s) eq_refl) as (S1 & Ss & S3).
  pose proof S3 as [Sc S4]%Forall_cons. pose proof (total_nonneg _ S4).
  pose proof (hb_total _ _ _ _ _ HI B1 (c :: B3) (avail s) eq_refl) as (T1 & T2 & T3 & T4).
  pose proof (hb_range _ _ _ _ _ HI B1 (c :: B3) (avail s) eq_refl) as (Rg1 & Rg2 & Rg3).
  pose proof (hb_tiles_r _ _ _ _ _ HI B1 (c :: B3) (avail s) eq_refl) as (Hcs & Hcf & _).
  pose proof (hr_owns _ _ _ _ _ HI) as Hown.
  pose proof (hr_wf _ _ _ _ _ HI) as Hwf.
  cbn [r_base r_blocks b_size avail total] in *. fold node in Hcs, Hcf, Rg1, Rg2, Rg3.
  destruct (wf_avail_middle _ _ _ Hwf) as [Hne _].
  destruct Hwf as (_ & _ & _ & Hadj & _). cbn [app] in Hadj.
  assert (adj_ok (avail s :: c :: B3)) as Hadj' by (by apply adj_ok_tail in Hadj).
  constructor; try done; try lia.
  - apply (hb_last_size _ _ _ _ _ HI B1 (c :: B3) (avail s) eq_refl).
  - apply (hb_size _ _ _ _ _ HI B1 (c :: B3) (avail s) eq_refl).
  - apply (hb_flags _ _ _ _ _ HI B1 (c :: B3) (avail s) eq_refl).
  - intros a Ha1 Ha2. apply Hown; lia.
  - by eapply adj_ok_prefix.
  - by apply (adj_ok_tail [avail s] (c :: B3)).
  - by destruct Hadj' as [Hadj' _].
  - intros y Hy. eapply (gap_not_in_chain _ _ _ _ _ _ [avail s]); [exact HI|apply F| |].
    + simpl. by rewrite Z.add_0_r.
    + simpl. fold node. lia.
Qed.

(** The headers on the list, and those of the blocks [bs] from [node] on. *)
Definition carved (bs : list blk) (x : Z) : Prop := x ∈ chain fl bk ∨ x ∈ starts_at node bs.

(** The last statements of mdx_fl_malloc, on any memory [m6] in which the
    block list is [B1 ++ blks] with [node] still marked free. *)
Lemma malloc_finish m6 bk6 t Bs :
  let blks := used t :: Bs in
  flist fl m6 bk6 → owned m6 = owned m → NODE_S ≤ t →
  n_flags m6 !! node = Some (flags_of (last_size 0 B1) (avail t)) →
  concat bk6 ≡ₚ gap base B1 t (Bs ++ c :: B3) (R1 ++ R2) →
  heap_inv fl (w_flags node (flags_of (last_size 0 B1) (used t)) m6)
    (R1 ++ {| r_base := base; r_blocks := B1 ++ blks ++ c :: B3 |} :: R2) →
  ∃ m', (f ← load (n_flags m6) node;
         m ← st_flags node (Z.lor f FLAG_ALLOCATED) m6;
         m ← st_next node 0 m;
         m ← st_prev node 0 m;
         Ok (node + NODE_S, m)) = Ok (node + NODE_S, m') ∧
    bytes m' = bytes m6 ∧ owned m' = owned m6 ∧ kept (λ x, x = node) m6 m' ∧
    fl_inv fl m' (R1 ++ {| r_base := base; r_blocks := B1 ++ blks ++ c :: B3 |} :: R2).
Proof.
  intros blks F6 Eo Ht Hf P6 HI6. destruct free_block_ok. pose proof NODE_S_bounds.
  assert (owns m6 node = true) as Ho by (rewrite (owns_same m) by done; apply fb_own0; lia).
  rewrite (load_Some _ _ _ Hf). cbn [mbind res_bind].
  rewrite (flags_set_alloc _ _ t) by lia.
  pose proof (flags_range (last_size 0 B1) (used t) ltac:(assumption)). do 3 store.
  eexists. split; [reflexivity|]. split_and!; [done|done| |].
  { intros x Hx. simpl. by rewrite !lookup_insert_ne by (intros <-; done). }
  exists bk6. split_and!.
  - apply flist_w_links; [by apply flist_w_flags|].
    eapply (gap_not_in_chain _ _ _ _ base B1 [used t] (Bs ++ c :: B3)); [exact HI6|apply F6| |].
    + simpl. rewrite Z.add_0_r. done.
    + simpl. fold node. lia.
  - eapply heap_same; [|exact HI6]. done.
  - rewrite P6. unfold blks.
    rewrite (all_free_gap R1 R2 base B1 [used t] (Bs ++ c :: B3)).
    simpl. by rewrite Z.add_0_r.
Qed.

(** The remainder becomes a free block. *)
Lemma carve_split :
  NODE_S < s - need →
  ∃ m6 bk6, (m ← set_prev_size (node + s) (s - need) m;
         m ← st_size node need m;
         let new := node + need in
         m ← st_size new (s - need) m;
         m ← st_flags new need m;
         mdx_fl_add_node fl new m) = Ok m6 ∧
    bytes m6 = bytes m ∧ owned m6 = owned m ∧ kept (carved [used need; avail (s - need); c]) m m6 ∧ flist fl m6 bk6 ∧
    n_flags m6 !! node = Some (flags_of (last_size 0 B1) (avail need)) ∧
    concat bk6 ≡ₚ gap base B1 need ([avail (s - need)] ++ c :: B3) (R1 ++ R2) ∧
    heap_inv fl (w_flags node (flags_of (last_size 0 B1) (used need)) m6)
      (R1 ++ {| r_base := base; r_blocks := B1 ++ [used need; avail (s - need)] ++ c :: B3 |} :: R2).
Proof.
  intros Hlt. pose proof NODE_S_bounds. destruct free_block_ok.
  assert (owns m (node + s) = true) as Hoc by (apply fb_own0; lia).
  assert (owns m node = true) as Hon by (apply fb_own0; lia).
  assert (owns m (node + need) = true) as Ho2 by (apply fb_own0; lia).
  rewrite (set_prev_size_ok m (node + s) s c (s - need)) by (done || lia).
  cbn [mbind res_bind]. do 3 store.
  match goal with |- context [mdx_fl_add_node _ _ ?mm] => set (m5 := mm) end.
  assert (flist fl m5 bk) as F5.
  { apply flist_w_flags, flist_w_size, fb_gap0; [|lia].
    apply flist_w_size, fb_gap0; [|lia]. by apply flist_w_flags. }
  assert (n_size m5 !! (node + need) = Some (s - need)) as Hn5 by (simpl; by rewrite lookup_insert_eq).
  destruct (add_in_heap fl m5 bk (node + need) (s - need) F5 Hn5) as (m6 & bk6 & E6 & Hsd & F6 & P6).
  { lia. } { apply fb_gap0. lia. } { exact Ho2. } { lia. }
  assert (kept (carved [used need; avail (s - need); c]) m m6) as HK.
  { unfold carved. cbn [starts_at b_size used avail]. replace (node + need + (s - need)) with (node + s) by lia.
    eapply kept_trans; [|eapply kept_mono; [|by eapply add_node_kept; [exact F5|exact Hn5|lia|]]].
    - intros x Hx. simpl. rewrite !lookup_insert_ne by (intros <-; apply Hx; right; elem). done.
    - intros x [->|Hx]; [right; elem|by left]. }
  destruct Hsd as (Es6 & Ef6 & Eb6 & Eo6).
  exists m6, bk6. split_and!; [done|by rewrite Eb6|by rewrite Eo6|done|done| | |].
  - rewrite Ef6. simpl. lk. exact fb_flags0.
  - rewrite P6, P. unfold gap. cbn [free_at b_alloc avail b_size app]. fold node.
    replace (node + need + (s - need)) with (node + s) by lia. solve_Permutation.
  - eapply heap_commit; [exact HI|done|done| | | | | | | |]; try fold node.
    + repeat constructor; simpl; lia.
    + cbn [app]. by rewrite adj_ok_used.
    + simpl. lia.
    + done.
    + cbn [tiles]. simpl. rewrite Es6, Ef6. simpl. lk. done.
    + simpl. rewrite Es6. simpl. lk. rewrite Z.add_0_r. done.
    + simpl. rewrite Ef6. simpl. rewrite Z.add_0_r. lk. done.
    + intros y Hy. cbn [total] in Hy. simpl in *. rewrite Es6, Ef6. simpl. lk. done.
Qed.

Lemma carve_whole :
  heap_inv fl (w_flags node (flags_of (last_size 0 B1) (used s)) m)
    (R1 ++ {| r_base := base; r_blocks := B1 ++ [used s] ++ c :: B3 |} :: R2).
Proof.
  pose proof NODE_S_bounds. destruct free_block_ok.
  eapply heap_commit; [exact HI|done|done| | | | | | | |]; try fold node.
  - repeat constructor; simpl; lia.
  - cbn [app]. by rewrite adj_ok_used.
  - done.
  - done.
  - cbn [tiles]. simpl. lk. done.
  - simpl. rewrite Z.add_0_r. done.
  - simpl. rewrite Z.add_0_r. lk. done.
  - intros y Hy. cbn [total] in Hy. simpl in *. lk. done.
Qed.

Lemma malloc_carve :
  ∃ m', (sz ← load (n_size m) node;
         let avail := s32 (wrap PTR_W (sz - need)) in
         m ← (if NODE_S <? wrap PTR_W avail then
                let next := node + sz in
                m ← set_prev_size next avail m;
                m ← st_size node need m;
                let new := node + need in
                m ← st_size new avail m;
                m ← st_flags new need m;
                mdx_fl_add_node fl new m
              else Ok m);
         f ← load (n_flags m) node;
         m ← st_flags node (Z.lor f FLAG_ALLOCATED) m;
         m ← st_next node 0 m;
         m ← st_prev node 0 m;
         Ok (node + NODE_S, m)) = Ok (node + NODE_S, m') ∧
    bytes m' = bytes m ∧ owned m' = owned m ∧ kept (carved (carve need s ++ [c])) m m' ∧
    fl_inv fl m' (R1 ++ {| r_base := base; r_blocks := B1 ++ carve need s ++ c :: B3 |} :: R2).
Proof.
  pose proof NODE_S_bounds as HN. pose proof PTR_W_pow as HW. destruct free_block_ok.
  assert (wrap PTR_W (s - need) = s - need) as Ew by (apply wrap_small; lia).
  assert (s32 (s - need) = s - need) as Es by (apply swrap_small; simpl; lia).
  rewrite (load_Some _ _ _ fb_size0). cbn [mbind res_bind]. rewrite Ew, Es, Ew.
  unfold carve. destruct (Z.ltb_spec NODE_S (s - need)) as [Hlt|Hge].
  - destruct (carve_split Hlt) as (m6 & bk6 & E6 & Eb & Eo & K6 & F6 & Hf & P6 & HI6).
    cbv zeta in *. rewrite E6. cbn [mbind res_bind].
    destruct (malloc_finish m6 bk6 need [avail (s - need)] F6 Eo ltac:(lia) Hf P6 HI6)
      as (m' & E & Eb' & Eo' & K' & Hinv).
    exists m'. rewrite E, Eb', Eo'. split_and!; [done|done|done| |done].
    eapply kept_trans; [exact K6|]. eapply kept_mono; [|exact K']. intros x ->. right. apply elem_of_cons. by left.
  - cbn [mbind res_bind]. destruct (malloc_finish m bk s [] F eq_refl ltac:(lia) fb_flags0 P carve_whole)
      as (m' & E & Eb' & Eo' & K' & Hinv).
    exists m'. rewrite E, Eb', Eo'. split_and!; [done|done|done| |done].
    eapply kept_mono; [|exact K']. intros x ->. right. apply elem_of_cons. by left.
Qed.
End Carve.

(** ** mdx_fl_malloc *)

Lemma carved_head a need s c : a ∈ starts_at a (carve need s ++ [c]).
Proof. unfold carve. destruct (_ <? _); cbn [app starts_at]; apply elem_of_cons; by left. Qed.

(** The free blocks and the blocks of a request are blocks of the heap. *)
Lemma carved_starts R1 R2 base B1 B3 c need s x :
  x ∈ gap base B1 s (c :: B3) (R1 ++ R2) ∨ x ∈ starts_at (base + total B1) (carve need s ++ [c]) →
  x ∈ all_starts (R1 ++ {| r_base := base; r_blocks := B1 ++ carve need s ++ c :: B3 |} :: R2).
Proof.
  intros Hx. apply all_starts_elem.
  assert (total (carve need s) = s) as Ht by (unfold carve; destruct (_ <? _); simpl; lia).
  destruct (decide (x ∈ all_free (R1 ++ R2))) as [Hf|Hf].
  - apply all_free_starts, all_starts_elem in Hf as (r & Hr & Hf). exists r. split; [mem|done].
  - exists {| r_base := base; r_blocks := B1 ++ carve need s ++ c :: B3 |}. split; [mem|]. cbn [r_base r_blocks].
    rewrite !starts_at_app, Ht, !elem_of_app. rewrite starts_at_app, Ht, elem_of_app in Hx. unfold gap in Hx. rewrite !elem_of_app in Hx.
    destruct Hx as [[Hx|[Hx|Hx]]|[Hx|Hx]]; [left; by apply free_at_starts|right; right; by apply free_at_starts|done|by right; left|].
    right. right. cbn [starts_at] in *. apply list_elem_of_singleton in Hx. apply elem_of_cons. by left.
Qed.

(** The outcome for the request of [need] bytes, header included. *)
Definition malloc_outcome (fl size need : Z) (m : fmem) (rs : list region) : Prop :=
  (∃ ptr m' rs', mdx_fl_malloc fl size m = Ok (ptr, m') ∧ alloc_step need rs ptr rs' ∧
     fl_inv fl m' rs' ∧ 0 < ptr ∧ bytes m' = bytes m ∧ owned m' = owned m ∧ kept (header_at fl rs') m m') ∨
  (mdx_fl_malloc fl size m = Ok (0, m) ∧ ∀ t, free_size rs t → t < need).

Lemma malloc_need fl m rs size need :
  fl_inv fl m rs → 0 < size → need = align16 (wrap PTR_W (size + NODE_S)) → NODE_S ≤ need →
  malloc_outcome fl size need m rs.
Proof.
  intros (bk & F & HI & P) Hs -> Hneed. pose proof NODE_S_bounds as HN. unfold malloc_outcome.
  set (need := align16 _) in *.
  unfold mdx_fl_malloc. destruct (Z.leb_spec size 0); [lia|]. fold need.
  assert (Hfree : ∀ c, c ∈ concat bk → msize m c < 2 ^ 31).
  { intros c Hc. rewrite P in Hc.
    destruct (free_msize _ _ _ _ HI Hc) as (? & ? & ? & ? & ? & ? & _ & _ & -> & ? & _). lia. }
  destruct (malloc_find fl m bk need F ltac:(lia) Hfree) as (r & Er & Hcase).
  destruct (load (n_next m) _) as [nd|] eqn:El in Er |- *; [|done].
  cbn [mbind res_bind] in Er |- *. rewrite Er. cbn [mbind res_bind].
  destruct Hcase as [[-> Hall] | (Hrc & Hfit & Hbest)].
  - right. split; [done|]. intros t Ht.
    destruct (free_size_msize _ _ _ _ HI Ht) as (a & Ha & <-). apply Hall. by rewrite P.
  - left. rewrite P in Hrc.
    destruct (free_msize _ _ _ _ HI Hrc) as (R1 & base & B1 & s & B2 & R2 & -> & Ea & Es & Hss & _).
    pose proof (hr_wf _ _ _ _ _ HI) as Hwf.
    destruct (wf_avail_middle _ _ _ Hwf) as [Hne (c & B3 & ->)].
    assert (concat bk ≡ₚ r :: gap base B1 s (c :: B3) (R1 ++ R2)) as P'.
    { rewrite P. rewrite (all_free_gap R1 R2 base B1 [avail s] (c :: B3)).
      simpl. by rewrite Z.add_0_r, <- Ea. }
    destruct (unlink_in_heap _ _ _ _ _ F P') as (m1 & bk1 & E1 & Hsd & F1 & P1).
    pose proof (hb_range _ _ _ _ _ HI B1 (c :: B3) (avail s) eq_refl) as (Hpos & _ & _).
    cbn [r_base] in Hpos. rewrite <- Ea in Hpos.
    destruct (Z.eqb_spec r 0); [lia|]. rewrite E1. cbn [mbind res_bind].
    destruct (malloc_carve fl m1 bk1 R1 R2 base B1 s c B3 need) as (m' & E & Eb & Eo & K & Hinv).
    { eapply heap_same; [exact Hsd|exact HI]. } { done. } { done. } { lia. }
    rewrite <- Ea in E. destruct Hsd as (_ & _ & Eb1 & Eo1).
    eexists _, m', _. split; [exact E|]. split_and!; [|exact Hinv|lia|by rewrite Eb|by rewrite Eo|].
    2:{ assert (∀ x, x ∈ gap base B1 s (c :: B3) (R1 ++ R2) ∨ x ∈ starts_at (base + total B1) (carve need s ++ [c]) →
          x ∈ all_starts (R1 ++ {| r_base := base; r_blocks := B1 ++ carve need s ++ c :: B3 |} :: R2)) as HG.
        { apply carved_starts. }
        eapply kept_trans; [eapply kept_mono; [|by eapply unlink_kept; [exact F| |exact E1]; rewrite P'; mem]|eapply kept_mono; [|exact K]].
        - intros x Hx. apply chain_from_elem in Hx as [(j & Hj & ->)|Hx]; [left; exists j; rewrite (fl_len _ _ _ F) in Hj; split; [lia|done]|].
          right. apply HG. rewrite P' in Hx. apply elem_of_cons in Hx as [->|Hx]; [right; rewrite Ea; apply carved_head|by left].
        - intros x [Hx|Hx]; [|right; apply HG; by right].
          apply chain_from_elem in Hx as [(j & Hj & ->)|Hx]; [left; exists j; rewrite (fl_len _ _ _ F1) in Hj; split; [lia|done]|].
          right. apply HG. left. by rewrite <- P1. }
    exists R1, base, B1, s, (c :: B3), R2. split_and!; [done|done|lia|lia|].
    intros t Ht Hnt. destruct (free_size_msize _ _ _ _ HI Ht) as (a & Ha & <-).
    rewrite <- P in Ha. specialize (Hbest a Ha Hnt). lia.
Qed.

Lemma malloc_ok fl m rs size :
  fl_inv fl m rs → 0 < size → size + NODE_S + 15 < 2 ^ PTR_W →
  malloc_outcome fl size (round16 (size + NODE_S)) m rs.
Proof.
  intros Hi Hs Hw. pose proof NODE_S_bounds. pose proof (round16_bounds (size + NODE_S)).
  apply malloc_need; [done|done| |lia]. by rewrite wrap_small, align16_spec by lia.
Qed.
End Proofs.
