(* ===== verification/FreelistFree.v ===== *)
(** * The free list: mdx_fl_free implements the abstract deallocation

    Between the clearing of the allocation bit and the final insertion the
    freed block is on no list.  [hole] describes these intermediate heaps: the
    invariant holds once the bit of the block is set again.  The two merges
    take holes to larger holes, and the insertion closes the hole. *)

From S2P Require Import Prelude Freelist FreelistInv FreelistSpec FreelistHeap FreelistProofs.
Local Open Scope Z_scope.

Section Free.
Context `{Arch}.

Section Hole.
Context (fl : Z) (R1 R2 : list region) (base : Z).

Record hole (m : fmem) (bk : list (list Z)) (B1 : list blk) (s : Z) (B2 : list blk) : Prop := {
  ho_ne : B1 ≠ [];
  ho_flist : flist fl m bk;
  ho_free : concat bk ≡ₚ gap base B1 s B2 (R1 ++ R2);
  ho_flags : n_flags m !! (base + total B1) = Some (flags_of (last_size 0 B1) (avail s));
  ho_heap : heap_inv fl (w_flags (base + total B1) (flags_of (last_size 0 B1) (used s)) m)
    (R1 ++ {| r_base := base; r_blocks := B1 ++ used s :: B2 |} :: R2)
}.

(** What the invariant says of the block and of the block after it. *)
Record hole_block (m : fmem) (bk : list (list Z)) (B1 : list blk) (s : Z) (c : blk)
    (B3 : list blk) : Prop := {
  hb_pos : 0 < base + total B1;
  hb_S1 : Forall (λ b, NODE_S ≤ b_size b) B1;
  hb_s : NODE_S ≤ s;
  hb_c : NODE_S ≤ b_size c;
  hb_B3 : 0 ≤ total B3;
  hb_tot1 : 0 ≤ total B1;
  hb_all : total B1 + s + b_size c + total B3 < 2 ^ 31;
  hb_last : 0 ≤ last_size 0 B1 < 2 ^ 31;
  hb_nsize : n_size m !! (base + total B1) = Some s;
  hb_csize : n_size m !! (base + total B1 + s) = Some (b_size c);
  hb_cflags : n_flags m !! (base + total B1 + s) = Some (flags_of s c);
  hb_own : ∀ a, base ≤ a → a + NODE_S ≤ base + total B1 + s + b_size c + total B3 →
    owns m a = true;
  hb_adj1 : adj_ok B1;
  hb_adj2 : adj_ok (c :: B3);
  hb_gap : ∀ y, base + total B1 ≤ y < base + total B1 + s → y ∉ chain fl bk
}.

Lemma hole_block_ok m bk B1 s c B3 : hole m bk B1 s (c :: B3) → hole_block m bk B1 s c B3.
Proof.
  intros [Hne F P Hfl HI]. pose proof NODE_S_bounds as HN.
  destruct (hb_sizes _ _ _ _ _ HI B1 (c :: B3) (used s) eq_refl) as (S1 & Ss & S3).
  pose proof S3 as [Sc S4]%Forall_cons. pose proof (total_nonneg _ S4).
  pose proof (hb_total _ _ _ _ _ HI B1 (c :: B3) (used s) eq_refl) as (T1 & T2 & T3 & T4).
  pose proof (hb_range _ _ _ _ _ HI B1 (c :: B3) (used s) eq_refl) as (Rg1 & Rg2 & Rg3).
  pose proof (hb_tiles_r _ _ _ _ _ HI B1 (c :: B3) (used s) eq_refl) as (Hcs & Hcf & _).
  pose proof (hr_owns _ _ _ _ _ HI) as Hown.
  pose proof (hr_wf _ _ _ _ _ HI) as (_ & _ & _ & Hadj & _).
  cbn [r_base r_blocks b_size used total] in *. rewrite adj_ok_used in Hadj.
  destruct Hadj as [Hadj1 Hadj2]. simpl in Hcf. rewrite lookup_insert_ne in Hcf by lia.
  constructor; try done; try lia.
  - apply (hb_last_size _ _ _ _ _ HI B1 (c :: B3) (used s) eq_refl).
  - apply (hb_size _ _ _ _ _ HI B1 (c :: B3) (used s) eq_refl).
  - intros a Ha1 Ha2. apply Hown; lia.
  - intros y Hy. eapply (gap_not_in_chain _ _ _ _ _ _ [used s]); [exact HI|apply F| |].
    + simpl. by rewrite Z.add_0_r.
    + simpl. lia.
Qed.

(** The bit is cleared. *)
Lemma hole_open m bk B1 s B2 :
  flist fl m bk →
  heap_inv fl m (R1 ++ {| r_base := base; r_blocks := B1 ++ used s :: B2 |} :: R2) →
  concat bk ≡ₚ all_free (R1 ++ {| r_base := base; r_blocks := B1 ++ used s :: B2 |} :: R2) →
  B1 ≠ [] →
  hole (w_flags (base + total B1) (flags_of (last_size 0 B1) (avail s)) m) bk B1 s B2.
Proof.
  intros F HI P Hne. constructor; [done|by apply flist_w_flags| | |].
  - rewrite P, (all_free_gap R1 R2 base B1 [used s] B2). simpl. by rewrite Z.add_0_r.
  - simpl. by rewrite lookup_insert_eq.
  - eapply heap_replace; [exact HI|done|apply (hr_wf _ _ _ _ _ HI)| |done|].
    + cbn [r_base r_blocks].
      pose proof (hr_tiles _ _ _ _ _ HI) as Ht. cbn [r_base r_blocks] in Ht.
      pose proof (hb_flags _ _ _ _ _ HI B1 B2 (used s) eq_refl) as Hf. cbn [r_base r_blocks] in Hf.
      unfold w_flags. cbn [n_next n_prev n_size n_flags bytes owned].
      rewrite insert_insert_eq, insert_id by exact Hf. by destruct m.
    + cbn [r_base r_blocks]. intros y Hy. unfold w_flags. cbn [n_size n_flags].
      pose proof (hb_range _ _ _ _ _ HI B1 B2 (used s) eq_refl) as (Rg1 & Rg2 & Rg3).
      pose proof (hb_total _ _ _ _ _ HI B1 B2 (used s) eq_refl) as (T1 & T2 & _).
      pose proof (hb_sizes _ _ _ _ _ HI B1 B2 (used s) eq_refl) as (_ & Ss & _).
      pose proof NODE_S_bounds. cbn [r_base r_blocks b_size used] in *.
      rewrite !lookup_insert_ne by lia. done.
Qed.

(** "Merge with next". *)
Lemma hole_merge_next m bk B1 s t d B3 :
  hole m bk B1 s (avail t :: d :: B3) →
  let node := base + total B1 in let next := node + s in
  ∃ m' bk', (nsz ← load (n_size m) next;
      let subseq := next + nsz in
      m ← unlink next m;
      sz ← load (n_size m) node;
      nsz ← load (n_size m) next;
      m ← st_size node (sz + nsz) m;
      sz ← load (n_size m) node;
      m ← set_prev_size subseq sz m;
      Ok (subseq, m)) = Ok (node + (s + t), m') ∧
    bytes m' = bytes m ∧ owned m' = owned m ∧ hole m' bk' B1 (s + t) (d :: B3).
Proof.
  intros Hh node next. pose proof (hole_block_ok _ _ _ _ _ _ Hh) as [].
  destruct Hh as [Hne F P Hfl HI]. pose proof NODE_S_bounds as HN. cbn [b_size avail total] in *.
  pose proof (hb_tiles_r _ _ _ _ _ HI B1 (avail t :: d :: B3) (used s) eq_refl)
    as (_ & _ & Hds & Hdf & _).
  pose proof (hb_sizes _ _ _ _ _ HI B1 (avail t :: d :: B3) (used s) eq_refl) as (_ & _ & S3).
  apply Forall_cons in S3 as [_ S3]. apply Forall_cons in S3 as [Sd S4].
  pose proof (total_nonneg _ S4).
  cbn [r_base r_blocks b_size used avail] in *. fold node in Hfl, hb_nsize0, hb_csize0, Hds, Hdf.
  fold next in hb_csize0, Hds, Hdf. simpl in Hds, Hdf.
  rewrite lookup_insert_ne in Hdf by (subst next node; lia).
  assert (concat bk ≡ₚ next :: gap base B1 (s + t) (d :: B3) (R1 ++ R2)) as P'.
  { rewrite P. unfold gap. cbn [free_at b_alloc avail b_size app]. unfold next, node.
    replace (base + total B1 + s + t) with (base + total B1 + (s + t)) by lia.
    solve_Permutation. }
  destruct (unlink_in_heap _ _ _ _ _ F P') as (m1 & bk1 & E1 & (Es1 & Ef1 & Eb1 & Eo1) & F1 & P1).
  assert (owns m1 node = true) as Ho1 by (rewrite (owns_same m) by done; apply hb_own0; lia).
  assert (owns m1 (node + (s + t)) = true) as Ho2.
  { rewrite (owns_same m) by done. apply hb_own0; lia. }
  rewrite (load_Some _ _ _ hb_csize0). cbn [mbind res_bind]. rewrite E1. cbn [mbind res_bind].
  rewrite Es1, (load_Some _ _ _ hb_nsize0), (load_Some _ _ _ hb_csize0). cbn [mbind res_bind].
  store. unfold load at 1. simpl. rewrite lookup_insert_eq. cbn [mbind res_bind].
  replace (next + t) with (node + (s + t)) in * by (subst next; lia).
  rewrite (set_prev_size_ok _ _ t d (s + t)); [|simpl; by rewrite Ef1|lia|lia|exact Ho2].
  cbn [mbind res_bind]. eexists _, bk1. split; [reflexivity|]. simpl. split_and!; [done|done|].
  constructor; [done| |exact P1| |].
  - apply flist_w_flags, flist_w_size; [done|].
    eapply (gap_not_in_chain _ _ _ _ base B1 [used s; avail t] (d :: B3));
      [exact HI|apply F1| |].
    + rewrite P1. simpl. by rewrite Z.add_0_r.
    + simpl. fold node. lia.
  - fold node. simpl. rewrite lookup_insert_ne by lia. by rewrite Ef1.
  - fold node. eapply (heap_commit _ _ _ _ _ _ B1 [used s; avail t] [used (s + t)] d B3);
      [exact HI|done|done| | | | | | | |]; try fold node.
    + repeat constructor; simpl; lia.
    + cbn [app]. rewrite adj_ok_used. split; [done|]. by apply (adj_ok_tail [avail t]).
    + simpl. lia.
    + exact Eo1.
    + cbn [tiles]. simpl. rewrite Es1. lk. done.
    + simpl. rewrite Es1, Z.add_0_r. lk. done.
    + simpl. rewrite Ef1, Z.add_0_r. lk. done.
    + intros y Hy. cbn [total] in Hy. simpl in *. rewrite Es1, Ef1. fold node. lk. done.
Qed.

(** "Merge with prev". *)
Lemma hole_merge_prev m bk B0 u s d B3 :
  hole m bk (B0 ++ [avail u]) s (d :: B3) →
  let prev := base + total B0 in let node := prev + u in
  ∃ m' bk', (m ← unlink prev m;
      psz ← load (n_size m) prev;
      sz ← load (n_size m) node;
      m ← st_size prev (psz + sz) m;
      psz ← load (n_size m) prev;
      m ← set_prev_size (node + s) psz m;
      Ok (prev, m)) = Ok (prev, m') ∧
    bytes m' = bytes m ∧ owned m' = owned m ∧ hole m' bk' B0 (u + s) (d :: B3).
Proof.
  intros Hh prev node. pose proof (hole_block_ok _ _ _ _ _ _ Hh) as [].
  destruct Hh as [Hne F P Hfl HI]. pose proof NODE_S_bounds as HN.
  rewrite <- app_assoc in HI. cbn [app] in HI.
  pose proof (wf_avail_middle _ _ _ (hr_wf _ _ _ _ _ HI)) as [Hne0 _]. cbn [r_blocks] in Hne0.
  assert (last_size 0 (B0 ++ [avail u]) = u) as EL by (unfold last_size; by rewrite last_snoc).
  assert (total (B0 ++ [avail u]) = total B0 + u) as ET by (rewrite total_app; simpl; lia).
  assert (base + total (B0 ++ [avail u]) = node) as EN by (rewrite ET; unfold node, prev; lia).
  rewrite EL, EN in *. apply Forall_app in hb_S2 as [S0 Su].
  apply Forall_cons in Su as [Su _]. cbn [b_size avail] in Su.
  pose proof (total_nonneg _ S0) as T0.
  pose proof (hb_size _ _ _ _ _ HI B0 (used s :: d :: B3) (avail u) eq_refl) as Hps.
  pose proof (hb_flags _ _ _ _ _ HI B0 (used s :: d :: B3) (avail u) eq_refl) as Hpf.
  pose proof (hb_last_size _ _ _ _ _ HI B0 (used s :: d :: B3) (avail u) eq_refl) as HL0.
  cbn [r_base r_blocks b_size avail] in Hps, Hpf, HL0. fold prev in Hps, Hpf.
  simpl in Hps, Hpf. rewrite lookup_insert_ne in Hpf by (unfold node; lia).
  assert (concat bk ≡ₚ prev :: gap base B0 (u + s) (d :: B3) (R1 ++ R2)) as P'.
  { rewrite P. unfold gap. rewrite free_at_app, EN. fold prev. cbn [free_at b_alloc avail b_size app].
    replace (prev + (u + s)) with (node + s) by (unfold node; lia). solve_Permutation. }
  destruct (unlink_in_heap _ _ _ _ _ F P') as (m1 & bk1 & E1 & (Es1 & Ef1 & Eb1 & Eo1) & F1 & P1).
  assert (owns m1 prev = true) as Ho1.
  { rewrite (owns_same m) by done. apply hb_own0; unfold prev, node in *; lia. }
  assert (owns m1 (node + s) = true) as Ho2.
  { rewrite (owns_same m) by done. apply hb_own0; unfold prev, node in *; lia. }
  rewrite E1. cbn [mbind res_bind].
  rewrite Es1, (load_Some _ _ _ Hps), (load_Some _ _ _ hb_nsize0). cbn [mbind res_bind].
  store. unfold load at 1. simpl. rewrite lookup_insert_eq. cbn [mbind res_bind].
  rewrite (set_prev_size_ok _ _ s d (u + s)); [|simpl; by rewrite Ef1|lia|lia|exact Ho2].
  cbn [mbind res_bind]. eexists _, bk1. split; [reflexivity|]. simpl. split_and!; [done|done|].
  constructor; [done| |exact P1| |].
  - apply flist_w_flags, flist_w_size; [done|].
    eapply (gap_not_in_chain _ _ _ _ base B0 [avail u; used s] (d :: B3));
      [exact HI|apply F1| |].
    + rewrite P1. simpl. by rewrite Z.add_0_r.
    + simpl. fold prev. lia.
  - fold prev. simpl. rewrite lookup_insert_ne by (unfold node; lia). by rewrite Ef1.
  - fold prev. assert (prev + (u + s) = node + s) as Eps by (unfold node; lia).
    eapply (heap_commit _ _ _ _ _ _ B0 [avail u; used s] [used (u + s)] d B3);
      [exact HI|done|done| | | | | | | |]; try fold prev.
    + repeat constructor; simpl; lia.
    + cbn [app]. rewrite adj_ok_used. split; [|done]. by eapply adj_ok_prefix.
    + simpl. lia.
    + exact Eo1.
    + cbn [tiles]. simpl. rewrite Es1. lk. done.
    + simpl. rewrite Es1, Z.add_0_r, Eps. lk. done.
    + simpl. rewrite Ef1, Z.add_0_r, Eps. lk. done.
    + intros y Hy. cbn [total] in Hy. simpl in *. rewrite Es1, Ef1. fold prev.
      assert (y ≠ node) by (unfold node; lia). lk. done.
Qed.
(** A free block between used ones. *)
Lemma adj_ok_between B1 s c B3 :
  adj_ok B1 → adj_ok (c :: B3) → b_alloc c = true →
  (∀ p, last B1 = Some p → b_alloc p = true) → adj_ok (B1 ++ avail s :: c :: B3).
Proof.
  intros H1 H3 Hc Hp. apply adj_ok_app. split; [|by rewrite adj_ok_cons2, Hc].
  induction B1 as [|b [|d l] IH]; [done| |].
  - simpl. by rewrite (Hp b eq_refl).
  - rewrite adj_ok_cons2 in H1. cbn [app]. rewrite adj_ok_cons2. split; [tauto|].
    apply IH; [tauto|]. intros p Hl. apply Hp. done.
Qed.

(** The final insertion. *)
Lemma hole_close m bk B1 s c B3 :
  hole m bk B1 s (c :: B3) → b_alloc c = true →
  (∀ p, last B1 = Some p → b_alloc p = true) →
  ∃ m', mdx_fl_add_node fl (base + total B1) m = Ok m' ∧
    bytes m' = bytes m ∧ owned m' = owned m ∧
    fl_inv fl m' (R1 ++ {| r_base := base; r_blocks := B1 ++ avail s :: c :: B3 |} :: R2).
Proof.
  intros Hh Hc Hp. pose proof (hole_block_ok _ _ _ _ _ _ Hh) as [].
  destruct Hh as [Hne F P Hfl HI]. pose proof NODE_S_bounds as HN.
  destruct (add_in_heap fl m bk (base + total B1) s) as (m' & bk' & E & Hsd & F' & P');
    [done|done|lia|apply hb_gap0; lia|apply hb_own0; lia|lia|].
  destruct Hsd as (Es & Ef & Eb & Eo).
  exists m'. split_and!; [done|done|done|]. exists bk'. split_and!; [done| |].
  - eapply (heap_commit _ _ _ _ _ _ B1 [used s] [avail s] c B3); [exact HI|done|done| | | | | | | |].
    + repeat constructor; simpl; lia.
    + cbn [app]. by apply adj_ok_between.
    + done.
    + done.
    + cbn [tiles]. simpl. by rewrite Es, Ef.
    + simpl. by rewrite Es, Z.add_0_r.
    + simpl. by rewrite Ef, Z.add_0_r.
    + intros y Hy. cbn [total] in Hy. simpl in *. rewrite Es, Ef. lk. done.
  - rewrite P', P, (all_free_gap R1 R2 base B1 [avail s] (c :: B3)). simpl.
    by rewrite Z.add_0_r.
Qed.
End Hole.

(** ** mdx_fl_free *)

Lemma merge_front_alloc c B : b_alloc c = true → merge_front (c :: B) = (0, c :: B).
Proof. simpl. by intros ->. Qed.

Lemma merge_back_snoc B b :
  merge_back (B ++ [b]) = if b_alloc b then (0, B ++ [b]) else (b_size b, B).
Proof.
  unfold merge_back. rewrite reverse_snoc. simpl. destruct (b_alloc b); simpl.
  - by rewrite reverse_cons, reverse_involutive.
  - by rewrite reverse_involutive.
Qed.

Lemma avail_eta b : b_alloc b = false → b = avail (b_size b).
Proof. destruct b as [? []]; done. Qed.

(** The statements of mdx_fl_free after "Merge with next". *)
Lemma free_back fl R1 R2 base m bk B1 s c B3 next :
  hole fl R1 R2 base m bk B1 s (c :: B3) → b_alloc c = true →
  let node := base + total B1 in next = node + s →
  ∃ m', (f ← load (n_flags m) node;
    let prev := node - f in
    pf ← load (n_flags m) prev;
    '(node, m) ←
      (if Z.land pf FLAG_ALLOCATED =? 0 then
         m ← unlink prev m;
         psz ← load (n_size m) prev;
         sz ← load (n_size m) node;
         m ← st_size prev (psz + sz) m;
         psz ← load (n_size m) prev;
         m ← set_prev_size next psz m;
         Ok (prev, m)
       else Ok (node, m));
    mdx_fl_add_node fl node m) = Ok m' ∧
  bytes m' = bytes m ∧ owned m' = owned m ∧
  fl_inv fl m' (R1 ++ {| r_base := base; r_blocks :=
    (merge_back B1).2 ++ avail ((merge_back B1).1 + s) :: c :: B3 |} :: R2).
Proof.
  intros Hh Hc node ->. pose proof (ho_ne _ _ _ _ _ _ _ _ _ Hh) as Hne.
  destruct (exists_last Hne) as (B0 & p & ->).
  pose proof (hole_block_ok _ _ _ _ _ _ _ _ _ _ Hh) as [].
  assert (last_size 0 (B0 ++ [p]) = b_size p) as EL by (unfold last_size; by rewrite last_snoc).
  pose proof (ho_flags _ _ _ _ _ _ _ _ _ Hh) as Hf. rewrite EL in Hf, hb_last0. fold node in Hf.
  rewrite (load_Some _ _ _ Hf). cbn [mbind res_bind].
  unfold flags_of. cbn [b_alloc avail].
  assert (node - b_size p = base + total B0) as Ep.
  { unfold node. rewrite total_app. cbn [total]. lia. }
  rewrite Ep.
  pose proof (ho_heap _ _ _ _ _ _ _ _ _ Hh) as HI. rewrite <- app_assoc in HI. cbn [app] in HI.
  pose proof (hb_flags _ _ _ _ _ HI B0 (used s :: c :: B3) p eq_refl) as Hpf.
  pose proof (hb_last_size _ _ _ _ _ HI B0 (used s :: c :: B3) p eq_refl) as HL0.
  apply Forall_app in hb_S2 as [S0 Sp]. apply Forall_cons in Sp as [Sp _].
  pose proof NODE_S_bounds.
  cbn [r_base r_blocks] in Hpf, HL0. simpl in Hpf. rewrite lookup_insert_ne in Hpf by (subst node; lia).
  rewrite (load_Some _ _ _ Hpf). cbn [mbind res_bind].
  rewrite flags_alloc_bit by done. rewrite merge_back_snoc.
  destruct (b_alloc p) eqn:Ea.
  - change (FLAG_ALLOCATED =? 0) with false. cbn [mbind res_bind fst snd]. rewrite Z.add_0_l.
    destruct (hole_close _ _ _ _ _ _ _ _ _ _ Hh Hc) as (m' & ?); [|by exists m'].
    intros q. rewrite last_snoc. by intros [= <-].
  - rewrite Z.eqb_refl. cbn [fst snd]. rewrite (avail_eta _ Ea) in Hh.
    destruct (hole_merge_prev _ _ _ _ _ _ _ _ _ _ _ Hh) as (m1 & bk1 & E1 & Eb1 & Eo1 & Hh1).
    replace (base + total B0 + b_size p) with node in E1 by lia.
    rewrite E1. cbn [mbind res_bind].
    destruct (hole_close _ _ _ _ _ _ _ _ _ _ Hh1 Hc) as (m' & ? & Eb & Eo & ?).
    { intros q Hq. apply last_Some in Hq as (B & ->).
      pose proof (hr_wf _ _ _ _ _ HI) as (_ & _ & _ & Hadj & _). cbn [r_blocks] in Hadj.
      rewrite <- app_assoc in Hadj. apply adj_ok_tail in Hadj. cbn [app] in Hadj.
      rewrite adj_ok_cons2, Ea, orb_false_r in Hadj. tauto. }
    exists m'. rewrite Eb, Eo. done.
Qed.

Lemma free_ok fl m R1 R2 base B1 s B2 :
  fl_inv fl m (R1 ++ {| r_base := base; r_blocks := B1 ++ used s :: B2 |} :: R2) →
  B1 ≠ [] → B2 ≠ [] →
  ∃ m', mdx_fl_free fl (base + total B1 + NODE_S) m = Ok m' ∧
    bytes m' = bytes m ∧ owned m' = owned m ∧
    fl_inv fl m' (R1 ++ {| r_base := base; r_blocks := freed B1 s B2 |} :: R2).
Proof.
  intros (bk & F & HI & P) Hne1 Hne2.
  pose proof (hole_open _ _ _ _ _ _ _ _ _ F HI P Hne1) as Hh.
  destruct B2 as [|c B3]; [done|].
  pose proof (hole_block_ok _ _ _ _ _ _ _ _ _ _ Hh) as [].
  pose proof (hb_flags _ _ _ _ _ HI B1 (c :: B3) (used s) eq_refl) as Hf.
  cbn [r_base r_blocks] in Hf. pose proof NODE_S_bounds.
  set (node := base + total B1) in *.
  assert (owns m node = true) as Ho by (apply hb_own0; lia).
  unfold mdx_fl_free. destruct (Z.eqb_spec (node + NODE_S) 0); [lia|].
  replace (node + NODE_S - NODE_S) with node by lia.
  rewrite (load_Some _ _ _ Hf). cbn [mbind res_bind].
  rewrite (flags_clear_alloc _ _ s) by done.
  pose proof (flags_range (last_size 0 B1) (avail s) ltac:(assumption)). store.
  set (m1 := w_flags node _ m) in *.
  rewrite (load_Some _ _ _ hb_nsize0). cbn [mbind res_bind].
  rewrite (load_Some _ _ _ hb_cflags0). cbn [mbind res_bind].
  rewrite flags_alloc_bit by (pose proof (total_nonneg _ hb_S2); lia).
  unfold freed. destruct (merge_back B1) as [s1 B1'] eqn:Emb.
  destruct (b_alloc c) eqn:Ec.
  - change (FLAG_ALLOCATED =? 0) with false. cbn [mbind res_bind].
    rewrite merge_front_alloc by done.
    destruct (free_back _ _ _ _ _ _ _ _ _ _ (node + s) Hh Ec eq_refl) as (m' & E & Eb & Eo & Hi).
    exists m'. rewrite Eb, Eo. rewrite Emb in Hi. cbn [fst snd] in Hi. rewrite Z.add_0_r.
    split_and!; [exact E|done|done|exact Hi].
  - rewrite Z.eqb_refl.
    pose proof (ho_heap _ _ _ _ _ _ _ _ _ Hh) as HI1. rewrite (avail_eta _ Ec) in Hh, HI1.
    pose proof (hr_wf _ _ _ _ _ HI1) as Hwf. cbn [r_blocks] in Hwf.
    assert (∃ d B4, B3 = d :: B4 ∧ b_alloc d = true) as (d & B4 & -> & Hd).
    { destruct Hwf as (_ & Hl & _ & Ha & _).
      destruct B3 as [|d B4]; [by rewrite last_app_cons, last_cons_cons in Hl|].
      exists d, B4. split; [done|]. apply adj_ok_tail in Ha. rewrite !adj_ok_cons2 in Ha.
      destruct Ha as (_ & Ha & _). done. }
    destruct (hole_merge_next _ _ _ _ _ _ _ _ _ _ _ Hh) as (m2 & bk2 & E2 & Eb2 & Eo2 & Hh2).
    fold node in E2. cbv zeta in E2 |- *. rewrite E2. cbn [mbind res_bind].
    destruct (free_back _ _ _ _ _ _ _ _ _ _ _ Hh2 Hd eq_refl) as (m' & E & Eb & Eo & Hi).
    fold node in E. exists m'. rewrite Eb, Eo. rewrite Emb in Hi. cbn [fst snd] in Hi.
    cbn [merge_front]. rewrite Ec.
    split_and!; [exact E|done|done|]. by rewrite <- Z.add_assoc.
Qed.
End Free.
