(* ===== verification/FreelistSetup.v ===== *)
(** * The free list: mdx_fl_init, mdx_fl_add_region and mdx_fl_count *)

From S2P Require Import Prelude Freelist FreelistInv FreelistSpec FreelistHeap FreelistProofs.
Local Open Scope Z_scope.

Section Setup.
Context `{Arch}.

(** ** mdx_fl_init *)

Lemma nodelist_inj fl i j : nodelist fl i = nodelist fl j → i = j.
Proof. pose proof NODE_S_bounds. unfold nodelist. nia. Qed.

Lemma zone_owns fl m i : zone_ext fl ∈ owned m → 0 ≤ i < 32 → owns m (nodelist fl i) = true.
Proof.
  intros Hz Hi. pose proof NODE_S_bounds. eapply owns_in_extent; [exact Hz| |]; unfold nodelist; nia.
Qed.

Lemma clear_nodes_spec fl m n :
  (n ≤ 32)%nat → zone_ext fl ∈ owned m →
  ∃ m', clear_nodes n fl m = Ok m' ∧ owned m' = owned m ∧ bytes m' = bytes m ∧
    ∀ i, 0 ≤ i < Z.of_nat n →
      n_next m' !! nodelist fl i = Some 0 ∧ n_size m' !! nodelist fl i = Some 0.
Proof.
  intros Hn Hz. induction n as [|n IH].
  - exists m. split_and!; [done|done|done|]. lia.
  - destruct IH as (m1 & E & Eo & Eb & Hi); [lia|]. cbn [clear_nodes]. rewrite E. cbn [mbind res_bind].
    assert (owns m1 (nodelist fl (Z.of_nat n)) = true) as Ho.
    { rewrite (owns_same m) by done. apply zone_owns; [done|lia]. }
    do 4 store. eexists. split; [reflexivity|]. split_and!; [done|done|].
    intros i Hr. simpl. destruct (Z.eq_dec i (Z.of_nat n)) as [->|Hne].
    + by rewrite !lookup_insert_eq.
    + assert (nodelist fl (Z.of_nat n) ≠ nodelist fl i) by (intros ?%nodelist_inj; lia).
      rewrite !lookup_insert_ne by done. apply Hi. lia.
Qed.

(** The dummies [0 .. n]. *)
Definition dummies (fl : Z) (n : nat) : list Z := (λ k, nodelist fl (Z.of_nat k)) <$> seq 0 (S n).

Lemma dummies_S fl n : dummies fl (S n) = dummies fl n ++ [nodelist fl (Z.of_nat (S n))].
Proof. unfold dummies. rewrite (seq_S (S n)), fmap_app. done. Qed.

Lemma dummies_elem fl n a : a ∈ dummies fl n ↔ ∃ k, (k ≤ n)%nat ∧ a = nodelist fl (Z.of_nat k).
Proof.
  unfold dummies. rewrite list_elem_of_fmap. split; intros (k & H1 & H2); exists k.
  - apply elem_of_seq in H2. split; [lia|done].
  - split; [done|]. apply elem_of_seq. lia.
Qed.

Lemma dummies_nodup fl n : NoDup (dummies fl n).
Proof.
  apply NoDup_fmap_2; [|apply NoDup_seq]. intros i j E%nodelist_inj. lia.
Qed.

Lemma link_nodes_spec fl m n :
  (n < 32)%nat → zone_ext fl ∈ owned m →
  (∀ i, 0 ≤ i < 32 → n_next m !! nodelist fl i = Some 0 ∧ n_size m !! nodelist fl i = Some 0) →
  ∃ m', link_nodes n fl m = Ok m' ∧ owned m' = owned m ∧ bytes m' = bytes m ∧
    n_size m' = n_size m ∧ links (n_next m') (n_prev m') (dummies fl n) ∧
    n_next m' !! nodelist fl (Z.of_nat n) = Some 0.
Proof.
  intros Hn Hz Hm. cut (∃ m', link_nodes n fl m = Ok m' ∧ owned m' = owned m ∧ bytes m' = bytes m ∧
    n_size m' = n_size m ∧ links (n_next m') (n_prev m') (dummies fl n) ∧
    ∀ k, Z.of_nat n ≤ k < 32 → n_next m' !! nodelist fl k = Some 0).
  { intros (m' & ? & ? & ? & ? & ? & Hk). exists m'. split_and!; try done. apply Hk. lia. }
  induction n as [|n IH].
  - exists m. split_and!; try done. intros k Hk. apply Hm. lia.
  - destruct IH as (m1 & E & Eo & Eb & Es & Hl & Hk); [lia|].
    cbn [link_nodes]. rewrite E. cbn [mbind res_bind].
    replace (1 + Z.of_nat n - 1) with (Z.of_nat n) by lia.
    replace (1 + Z.of_nat n) with (Z.of_nat (S n)) by lia.
    assert (owns m1 (nodelist fl (Z.of_nat n)) = true) as Ho1.
    { rewrite (owns_same m) by done. apply zone_owns; [done|lia]. }
    assert (owns m1 (nodelist fl (Z.of_nat (S n))) = true) as Ho2.
    { rewrite (owns_same m) by done. apply zone_owns; [done|lia]. }
    do 2 store. eexists. split; [reflexivity|]. split_and!; [done|done|done| |].
    + assert (∃ l, dummies fl n = l ++ [nodelist fl (Z.of_nat n)]) as (l & El).
      { destruct n as [|n]; [by exists []|]. rewrite dummies_S. eauto. }
      rewrite dummies_S. rewrite El in Hl |- *. rewrite <- app_assoc. simpl.
      apply links_snoc; [done|rewrite <- El; apply dummies_nodup|].
      rewrite <- El. intros (k & Hlt & Ek%nodelist_inj)%dummies_elem. lia.
    + intros k Hr. simpl. rewrite lookup_insert_ne by (intros ?%nodelist_inj; lia).
      apply Hk. lia.
Qed.

Lemma chain_dummies fl n i :
  chain_from fl (Z.of_nat i) (replicate n []) = (λ k, nodelist fl (Z.of_nat k)) <$> seq i n.
Proof.
  revert i. induction n as [|n IH]; intros i; [done|]. simpl.
  replace (Z.of_nat i + 1) with (Z.of_nat (S i)) by lia. by rewrite IH.
Qed.

Lemma init_ok fl m :
  0 < fl → zone_ext fl ∈ owned m →
  ∃ m', mdx_fl_init fl m = Ok m' ∧ owned m' = owned m ∧ bytes m' = bytes m ∧ fl_inv fl m' [].
Proof.
  intros Hfl Hz. pose proof NODE_S_bounds.
  destruct (clear_nodes_spec fl m 32 ltac:(lia) Hz) as (m1 & E1 & Eo1 & Eb1 & Hc).
  rewrite <- Eo1 in Hz.
  destruct (link_nodes_spec fl m1 31 ltac:(lia) Hz Hc) as (m2 & E2 & Eo2 & Eb2 & Es2 & Hl & Hend).
  exists m2. unfold mdx_fl_init. rewrite E1. cbn [mbind res_bind].
  split_and!; [done|by rewrite Eo2|by rewrite Eb2|].
  assert (chain fl (replicate 32 []) = dummies fl 31) as Ech by apply (chain_dummies fl 32 0).
  assert (∀ i (b : list Z), replicate 32 [] !! i = Some b → b = []) as Hempty.
  { intros i b Hi. by apply lookup_replicate in Hi as [-> _]. }
  exists (replicate 32 []). split_and!.
  - constructor; rewrite ?Ech.
    + apply length_replicate.
    + apply dummies_nodup.
    + exact Hl.
    + intros a Ha. rewrite dummies_S, last_snoc in Ha. by injection Ha as <-.
    + intros a (k & Hk & ->)%dummies_elem. split.
      * rewrite (owns_same m1) by done. apply zone_owns; [done|lia].
      * unfold nodelist. nia.
    + intros i Hi. rewrite Es2. by apply Hc.
    + intros i b a Hi Ha. rewrite (Hempty _ _ Hi) in Ha. by apply elem_of_nil in Ha.
    + intros i b Hi. rewrite (Hempty _ _ Hi). constructor.
  - constructor; [constructor|constructor|simpl; done| |].
    + intros e He. simpl in He. apply list_elem_of_singleton in He as ->. by rewrite Eo2.
    + intros e He. simpl in He. by apply list_elem_of_singleton in He as ->.
  - done.
Qed.

(** ** mdx_fl_add_region *)

Definition fresh_region (base size : Z) : region :=
  {| r_base := base; r_blocks := [used NODE_S; avail (size - 2 * NODE_S); used NODE_S] |}.

Lemma wf_fresh base size :
  3 * NODE_S ≤ size < 2 ^ 31 → wf_blocks (r_blocks (fresh_region base size)).
Proof.
  pose proof NODE_S_bounds. intros Hs. split_and!; [done|done| |done|simpl; lia].
  repeat constructor; simpl; lia.
Qed.

Lemma add_region_ok fl m rs base size :
  fl_inv fl m rs → 3 * NODE_S ≤ size < 2 ^ 31 → 0 < base →
  (base, base + size) ∈ owned m →
  Forall (λ e, base + size ≤ e.1 ∨ e.2 ≤ base) (zone_ext fl :: map extent rs) →
  ∃ m', mdx_fl_add_region fl base size m = Ok m' ∧ bytes m' = bytes m ∧ owned m' = owned m ∧
    fl_inv fl m' (fresh_region base size :: rs).
Proof.
  intros (bk & F & HI & P) Hsz Hb Hown Hdis. pose proof NODE_S_bounds as HN.
  set (rg := fresh_region base size) in *.
  assert (extent rg = (base, base + size)) as Eext.
  { unfold extent. simpl. f_equal. lia. }
  apply Forall_cons in Hdis as [Hdz Hdr]. cbn [fst snd zone_ext] in Hdz.
  assert (Hout : ∀ y, base ≤ y < base + size → y ∉ chain fl bk).
  { intros y Hy Hin. apply chain_from_elem in Hin as [(j & Hj & ->) | Hin].
    - rewrite (fl_len _ _ _ F) in Hj. unfold nodelist in Hy. simpl in Hdz. nia.
    - rewrite P in Hin. destruct (free_msize _ _ _ _ HI Hin)
        as (R1 & b & B1 & s & B2 & R2 & -> & -> & _).
      pose proof (hb_range _ _ _ _ _ HI B1 B2 (avail s) eq_refl) as (_ & R3 & R4).
      pose proof (hb_total _ _ _ _ _ HI B1 B2 (avail s) eq_refl) as (R5 & R6 & _).
      pose proof (hb_sizes _ _ _ _ _ HI B1 B2 (avail s) eq_refl) as (_ & R7 & _).
      rewrite map_app, Forall_app in Hdr. destruct Hdr as [_ Hdr]. cbn [map] in Hdr.
      apply Forall_cons in Hdr as [Hdr _]. unfold extent in Hdr.
      cbn [r_base r_blocks fst snd b_size avail] in *. lia. }
  assert (∀ a, base ≤ a → a + NODE_S ≤ base + size → owns m a = true) as Ho.
  { intros a ??. by eapply owns_in_extent. }
  assert (owns m base = true) as Ho1 by (apply Ho; lia).
  assert (owns m (base + NODE_S) = true) as Ho2 by (apply Ho; lia).
  assert (owns m (base + (size - NODE_S)) = true) as Ho3 by (apply Ho; lia).
  unfold mdx_fl_add_region. store.
  assert (0 ≤ FLAG_ALLOCATED < 2 ^ 32) by done. do 3 store.
  match goal with |- context [mdx_fl_add_node _ _ ?mm] => set (m4 := mm) end.
  destruct (add_in_heap fl m4 bk (base + NODE_S) (size - 2 * NODE_S))
    as (m5 & bk5 & E5 & (Es5 & Ef5 & Eb5 & Eo5) & F5 & P5).
  { apply flist_w_flags, flist_w_size; [|apply Hout; lia].
    apply flist_w_flags, flist_w_size; [done|apply Hout; lia]. }
  { simpl. by rewrite lookup_insert_eq. }
  { lia. } { apply Hout. lia. } { exact Ho2. } { lia. }
  rewrite E5. cbn [mbind res_bind].
  assert (owns m5 (base + (size - NODE_S)) = true) as Ho5 by (by rewrite (owns_same m)).
  store. rewrite Z.lor_comm, lor_alloc by lia.
  assert (0 ≤ size - 2 * NODE_S + FLAG_ALLOCATED < 2 ^ 32) by (unfold FLAG_ALLOCATED; lia).
  store. eexists. split; [reflexivity|]. split_and!; [exact Eb5|exact Eo5|].
  exists bk5. split_and!.
  - apply flist_w_flags, flist_w_size; [done|]. intros Hin.
    apply chain_from_elem in Hin as [Hin|Hin].
    + apply (Hout (base + (size - NODE_S))); [lia|]. apply chain_from_elem. left.
      rewrite (fl_len _ _ _ F), <- (fl_len _ _ _ F5). exact Hin.
    + rewrite P5 in Hin. apply elem_of_cons in Hin as [Hin|Hin]; [lia|].
      apply (Hout (base + (size - NODE_S))); [lia|]. apply chain_from_elem. by right.
  - assert (∀ y, ¬ (base ≤ y < base + size) →
      n_size m5 !! y = n_size m !! y ∧ n_flags m5 !! y = n_flags m !! y) as Hframe.
    { intros y Hy. rewrite Es5, Ef5. simpl. lk. done. }
    constructor.
    + constructor; [by apply wf_fresh|apply HI].
    + constructor.
      * cbn [tiles r_base r_blocks fresh_region rg b_size used avail]. simpl. rewrite Es5, Ef5. simpl.
        replace (base + NODE_S + (size - 2 * NODE_S)) with (base + (size - NODE_S)) by lia.
        lk. done.
      * pose proof (hp_tiles _ _ _ HI) as Ht. pose proof (hp_wf _ _ _ HI) as Hw.
        rewrite !Forall_forall in *. intros q Hq.
        destruct (Hw q Hq) as (_ & _ & Hqs & _).
        eapply tiles_ext; [|exact Hqs|by apply Ht]. intros y Hy.
        assert (base + size ≤ r_base q ∨ r_base q + total (r_blocks q) ≤ base) as Hq'.
        { apply (Hdr (extent q)), list_elem_of_In, in_map, list_elem_of_In, Hq. }
        destruct (Hframe y) as [F1 F2]; [lia|]. simpl.
        pose proof (total_nonneg _ Hqs).
        assert (y ≠ base + (size - NODE_S)) by lia.
        rewrite !lookup_insert_ne by done. done.
    + cbn [map disjoint_list]. rewrite Eext. pose proof (hp_disj _ _ _ HI) as [Hd1 Hd2].
      split_and!; [|exact Hdr|exact Hd2]. constructor; [|exact Hd1]. simpl in *. lia.
    + cbn [map]. rewrite Eext. intros e He. unfold w_size, w_flags. cbn [owned]. rewrite Eo5.
      change (owned m4) with (owned m).
      destruct (decide (e = (base, base + size))) as [->|Hne]; [done|].
      apply (hp_owned _ _ _ HI). mem.
    + cbn [map]. rewrite Eext. intros e He.
      destruct (decide (e = (base, base + size))) as [->|Hne]; [done|].
      apply (hp_pos _ _ _ HI). mem.
  - rewrite P5, P. unfold all_free. cbn [fmap list_fmap concat].
    unfold region_free. simpl. done.
Qed.

(** ** mdx_fl_count *)

Lemma count_loop_spec m l fuel acc :
  nseq (n_next m) l → Forall (has_size m) l → Forall (λ a, 0 < a) l →
  (length l < fuel)%nat → 0 ≤ acc < 2 ^ 32 →
  count_loop fuel m (hd0 l) acc = Ok (u32 (acc + zsum (msize m <$> l))).
Proof.
  revert fuel acc. induction l as [|a l IH]; intros [|fuel] acc Hn Hs Hp Hf Ha; simpl in Hf; try lia.
  - simpl. rewrite wrap_small; [|lia]. by rewrite Z.add_0_r.
  - destruct Hn as [Hn1 Hn2]. apply Forall_cons in Hs as [Hs1 Hs2].
    apply Forall_cons in Hp as [Hp1 Hp2]. change (hd0 (a :: l)) with a.
    cbn [count_loop]. destruct (Z.eqb_spec a 0); [lia|].
    rewrite (load_msize _ _ Hs1), (load_Some _ _ _ Hn1). cbn [mbind res_bind].
    rewrite IH; try done; [|lia|apply wrap_range; lia].
    cbn [fmap list_fmap zsum]. f_equal. unfold wrap. rewrite Zplus_mod_idemp_l. f_equal. lia.
Qed.

(** The bytes of the free blocks, headers included. *)
Definition avail_total (rs : list region) : Z :=
  zsum ((λ b, if b_alloc b then 0 else b_size b) <$> concat (r_blocks <$> rs)).

Lemma region_free_sum m a p bs :
  tiles m a p bs →
  zsum (msize m <$> free_at a bs) = zsum ((λ b, if b_alloc b then 0 else b_size b) <$> bs).
Proof.
  revert a p. induction bs as [|b bs IH]; intros a p; [done|]. intros (Hs & _ & Ht).
  cbn [free_at fmap list_fmap zsum]. rewrite fmap_app, zsum_app, (IH _ _ Ht).
  destruct (b_alloc b); [done|]. simpl. unfold msize. rewrite Hs. simpl. lia.
Qed.

Lemma all_free_sum m rs :
  Forall (λ r, tiles m (r_base r) 0 (r_blocks r)) rs →
  zsum (msize m <$> all_free rs) = avail_total rs.
Proof.
  unfold all_free, avail_total. induction 1 as [|r rs Hr Hrs IH]; [done|].
  cbn [fmap list_fmap concat]. rewrite !fmap_app, !zsum_app. f_equal; [|exact IH].
  by eapply region_free_sum.
Qed.

Lemma chain_sum fl m bk i :
  0 ≤ i → i + Z.of_nat (length bk) ≤ 32 →
  (∀ j, 0 ≤ j < 32 → n_size m !! nodelist fl j = Some 0) →
  zsum (msize m <$> chain_from fl i bk) = zsum (msize m <$> concat bk).
Proof.
  intros Hi Hl Hd. revert i Hi Hl. induction bk as [|b bk IH]; intros i Hi Hl; [done|].
  rewrite length_cons in Hl. cbn [chain_from concat fmap list_fmap zsum].
  rewrite !fmap_app, !zsum_app, IH by lia. unfold msize at 1. rewrite Hd by lia. done.
Qed.

Lemma count_ok fl m rs :
  fl_inv fl m rs → mdx_fl_count fl m = Ok (u32 (avail_total rs)).
Proof.
  intros (bk & F & HI & P). unfold mdx_fl_count.
  assert (hd0 (chain fl bk) = nodelist fl 0) as Eh.
  { pose proof (fl_len _ _ _ F). destruct bk; done. }
  rewrite <- Eh, count_loop_spec.
  - unfold chain. rewrite chain_sum; [|lia|by rewrite (fl_len _ _ _ F)|apply F].
    rewrite P, all_free_sum by apply HI. by rewrite Z.add_0_l.
  - by apply fl_nseq.
  - apply Forall_forall. intros a Ha. by eapply fl_has_size.
  - apply Forall_forall. intros a Ha. by apply (fl_owned _ _ _ F).
  - by apply fl_walk_fuel.
  - lia.
Qed.
End Setup.
