(* ===== verification/FreelistTheorems.v ===== *)
(** * The free list: what the allocator guarantees *)

From S2P Require Import Prelude Freelist FreelistInv FreelistSpec FreelistHeap FreelistFrame FreelistProofs.
From S2P Require Import FreelistFree FreelistSetup.
Local Open Scope Z_scope.

Section Allocs.
Context `{Arch}.

(** The allocated blocks (address and size of the block, header included),
    the sentinels among them. *)
Fixpoint alloc_at (a : Z) (bs : list blk) : list (Z * Z) :=
  match bs with
  | [] => []
  | b :: bs => (if b_alloc b then [(a, b_size b)] else []) ++ alloc_at (a + b_size b) bs
  end.
Definition allocs (rs : list region) : list (Z * Z) :=
  concat ((λ r, alloc_at (r_base r) (r_blocks r)) <$> rs).

Definition span (b : Z * Z) : Z * Z := (b.1, b.1 + b.2).

Lemma alloc_at_app a l k : alloc_at a (l ++ k) = alloc_at a l ++ alloc_at (a + total l) k.
Proof.
  revert a. induction l as [|b l IH]; intros a; simpl; [by rewrite Z.add_0_r|].
  rewrite IH, <- app_assoc. by rewrite Z.add_assoc.
Qed.

(** Blocks [mid] become [mid'] of the same extent. *)
Lemma allocs_replace R1 R2 base B1 mid mid' B2 :
  total mid' = total mid →
  ∃ rest, allocs (R1 ++ {| r_base := base; r_blocks := B1 ++ mid ++ B2 |} :: R2) ≡ₚ
            alloc_at (base + total B1) mid ++ rest ∧
          allocs (R1 ++ {| r_base := base; r_blocks := B1 ++ mid' ++ B2 |} :: R2) ≡ₚ
            alloc_at (base + total B1) mid' ++ rest.
Proof.
  intros Ht. exists (allocs R1 ++ alloc_at base B1 ++ alloc_at (base + total B1 + total mid) B2
    ++ allocs R2).
  unfold allocs. rewrite !fmap_app, !concat_app. cbn [fmap list_fmap concat r_base r_blocks].
  rewrite !alloc_at_app, Ht. split; solve_Permutation.
Qed.

Lemma carve_total need s : total (carve need s) = s.
Proof. unfold carve. destruct (NODE_S <? s - need); simpl; lia. Qed.

Lemma alloc_step_allocs need rs ptr rs' :
  alloc_step need rs ptr rs' →
  ∃ s, need ≤ s ≤ need + NODE_S ∧ allocs rs' ≡ₚ (ptr - NODE_S, s) :: allocs rs.
Proof.
  intros (R1 & base & B1 & s & B2 & R2 & -> & -> & -> & Hfit & _).
  destruct (allocs_replace R1 R2 base B1 [avail s] (carve need s) B2) as (rest & P1 & P2).
  { rewrite carve_total. simpl. lia. }
  simpl in P1. pose proof NODE_S_bounds.
  replace (base + total B1 + NODE_S - NODE_S) with (base + total B1) by lia.
  unfold carve in *. destruct (Z.ltb_spec NODE_S (s - need)).
  - exists need. split; [lia|]. rewrite P2, P1. simpl. done.
  - exists s. split; [lia|]. rewrite P2, P1. simpl. done.
Qed.

Lemma total_reverse B : total (reverse B) = total B.
Proof.
  induction B as [|b B IH]; [done|]. rewrite reverse_cons, total_app, IH. simpl. lia.
Qed.

(** [freed] only merges free blocks into the freed one. *)
Lemma freed_split B1 s B2 :
  ∃ B1' mid1 mid2 B2', B1 = B1' ++ mid1 ∧ B2 = mid2 ++ B2' ∧
    freed B1 s B2 = B1' ++ [avail (total mid1 + s + total mid2)] ++ B2' ∧
    Forall (λ b, b_alloc b = false) (mid1 ++ mid2).
Proof.
  assert (∃ mid2 B2', B2 = mid2 ++ B2' ∧ merge_front B2 = (total mid2, B2') ∧
    Forall (λ b, b_alloc b = false) mid2) as (mid2 & B2' & -> & E2 & H2).
  { destruct B2 as [|b B2]; [by exists [], []|]. simpl. destruct (b_alloc b) eqn:E.
    - by exists [], (b :: B2).
    - exists [b], B2. simpl. rewrite Z.add_0_r. auto. }
  assert (∃ B1' mid1, B1 = B1' ++ mid1 ∧ merge_back B1 = (total mid1, B1') ∧
    Forall (λ b, b_alloc b = false) mid1) as (B1' & mid1 & -> & E1 & H1).
  { destruct B1 as [|b B1 _] using rev_ind; [by exists [], []|]. rewrite merge_back_snoc.
    destruct (b_alloc b) eqn:E.
    - exists (B1 ++ [b]), []. by rewrite app_nil_r.
    - exists B1, [b]. simpl. rewrite Z.add_0_r. auto. }
  exists B1', mid1, mid2, B2'. split_and!; [done|done| |by apply Forall_app].
  unfold freed. by rewrite E1, E2.
Qed.

Lemma alloc_at_free a l : Forall (λ b, b_alloc b = false) l → alloc_at a l = [].
Proof.
  intros Hl. revert a. induction Hl as [|b l Hb Hl IH]; intros a; [done|].
  simpl. by rewrite Hb, IH.
Qed.

Lemma free_step_allocs rs ptr rs' :
  free_step rs ptr rs' → ∃ s, allocs rs ≡ₚ (ptr - NODE_S, s) :: allocs rs'.
Proof.
  intros (R1 & base & B1 & s & B2 & R2 & -> & -> & -> & _ & _). exists s.
  destruct (freed_split B1 s B2) as (B1' & mid1 & mid2 & B2' & -> & -> & -> & Hf).
  apply Forall_app in Hf as [Hf1 Hf2].
  destruct (allocs_replace R1 R2 base B1' (mid1 ++ used s :: mid2)
    [avail (total mid1 + s + total mid2)] B2') as (rest & P1 & P2).
  { rewrite total_app. simpl. lia. }
  rewrite P2. simpl.
  replace ((B1' ++ mid1) ++ used s :: mid2 ++ B2') with (B1' ++ (mid1 ++ used s :: mid2) ++ B2')
    by (by rewrite <- !app_assoc).
  rewrite P1, alloc_at_app, (alloc_at_free _ mid1) by done. simpl.
  rewrite (alloc_at_free _ mid2) by done. rewrite total_app. simpl.
  replace (base + (total B1' + total mid1) + NODE_S - NODE_S)
    with (base + total B1' + total mid1) by lia. done.
Qed.

(** ** Allocated blocks do not overlap *)

#[export] Instance disjoint_list_perm : Proper ((≡ₚ) ==> iff) disjoint_list.
Proof.
  assert (∀ l k, l ≡ₚ k → disjoint_list l → disjoint_list k) as Hp.
  { induction 1 as [|x l k P IH|x y l|l k j ? IH1 ? IH2]; simpl.
    - done.
    - intros [Hf Hd]. split; [by rewrite <- P|auto].
    - rewrite !Forall_cons. tauto.
    - auto. }
  intros l k P. split; apply Hp; [done|by symmetry].
Qed.

Lemma disjoint_list_refine (l : list (Z * Z)) (ks : list (list (Z * Z))) :
  Forall2 (λ e k, disjoint_list k ∧ Forall (λ e', e.1 ≤ e'.1 ∧ e'.2 ≤ e.2) k) l ks →
  disjoint_list l → disjoint_list (concat ks).
Proof.
  intros HF. induction HF as [|e k l ks [Hk Hin] HF IH]; [done|].
  intros [He Hl]. cbn [concat].
  assert (Forall (λ e', e.2 ≤ e'.1 ∨ e'.2 ≤ e.1) (concat ks)) as Hout.
  { clear -HF He. induction HF as [|e1 k1 l ks [_ Hin] HF IH]; [constructor|].
    apply Forall_cons in He as [He1 He]. cbn [concat]. apply Forall_app. split; [|auto].
    eapply Forall_impl; [exact Hin|]. cbv beta. lia. }
  specialize (IH Hl). clear HF. induction k as [|x k IHk]; [done|].
  apply Forall_cons in Hin as [Hx Hin]. destruct Hk as [Hxk Hk]. cbn [app disjoint_list].
  split; [|auto]. apply Forall_app. split; [done|].
  eapply Forall_impl; [exact Hout|]. cbv beta. lia.
Qed.

Lemma alloc_at_spans a bs :
  Forall (λ b, NODE_S ≤ b_size b) bs →
  disjoint_list (span <$> alloc_at a bs) ∧
  Forall (λ e, a ≤ e.1 ∧ e.2 ≤ a + total bs) (span <$> alloc_at a bs).
Proof.
  pose proof NODE_S_bounds. intros Hs. revert a.
  induction Hs as [|b bs Hb Hs IH]; intros a; [done|].
  destruct (IH (a + b_size b)) as [Hd Hf]. pose proof (total_nonneg _ Hs).
  cbn [alloc_at total]. rewrite fmap_app. destruct (b_alloc b); cbn [app fmap list_fmap].
  - split.
    + split; [|done]. eapply Forall_impl; [exact Hf|]. simpl. lia.
    + constructor; [simpl; lia|]. eapply Forall_impl; [exact Hf|]. simpl. lia.
  - split; [done|]. eapply Forall_impl; [exact Hf|]. simpl. lia.
Qed.

Lemma allocs_disjoint fl m rs :
  heap_inv fl m rs → disjoint_list (zone_ext fl :: (span <$> allocs rs)).
Proof.
  intros HI.
  replace (zone_ext fl :: (span <$> allocs rs)) with
    (concat ([zone_ext fl] :: ((λ r, span <$> alloc_at (r_base r) (r_blocks r)) <$> rs))).
  2:{ cbn [concat app]. f_equal. unfold allocs. induction rs as [|r rs IH]; [done|].
      cbn [fmap list_fmap concat]. rewrite fmap_app. f_equal. apply IH.
      constructor; try apply HI.
      - pose proof (hp_wf _ _ _ HI) as Hw. by apply Forall_cons in Hw as [_ ?].
      - pose proof (hp_tiles _ _ _ HI) as Hw. by apply Forall_cons in Hw as [_ ?].
      - pose proof (hp_disj _ _ _ HI) as [Hw1 [_ Hw2]]. split; [|done].
        by apply Forall_cons in Hw1 as [_ ?].
      - intros e He. apply (hp_owned _ _ _ HI). cbn [map] in *. mem.
      - intros e He. apply (hp_pos _ _ _ HI). cbn [map] in *. mem. }
  apply (disjoint_list_refine (zone_ext fl :: map extent rs)); [|apply HI].
  constructor; [split; [done|by constructor]|].
  pose proof (hp_wf _ _ _ HI) as Hw. clear HI.
  induction Hw as [|r rs Hr Hw IH]; [constructor|]. constructor; [|exact IH].
  destruct Hr as (_ & _ & Hs & _). by apply alloc_at_spans.
Qed.

(** The other regions aside, freeing what was just allocated restores the blocks. *)
Lemma alloc_free_blocks fl m R1 R2 base B1 s B2 need :
  heap_inv fl m (R1 ++ {| r_base := base; r_blocks := B1 ++ avail s :: B2 |} :: R2) →
  ∃ t B, carve need s ++ B2 = used t :: B ∧ B ≠ [] ∧ B1 ≠ [] ∧ freed B1 t B = B1 ++ avail s :: B2.
Proof.
  intros HI. pose proof (hr_wf _ _ _ _ _ HI) as Hwf. cbn [r_blocks] in Hwf.
  destruct (wf_avail_middle _ _ _ Hwf) as [Hne (c & B3 & ->)].
  destruct Hwf as (_ & _ & _ & Ha & _).
  assert (b_alloc c = true) as Hc.
  { apply adj_ok_tail in Ha. rewrite adj_ok_cons2 in Ha. destruct Ha as [Ha _]. done. }
  assert (merge_back B1 = (0, B1)) as Eb.
  { destruct (exists_last Hne) as (B0 & p & ->). rewrite merge_back_snoc.
    rewrite <- app_assoc in Ha. apply adj_ok_tail in Ha. cbn [app] in Ha.
    rewrite adj_ok_cons2 in Ha. destruct Ha as [Ha _]. rewrite orb_false_r in Ha. by rewrite Ha. }
  unfold carve, freed. destruct (NODE_S <? s - need).
  - exists need, (avail (s - need) :: c :: B3). rewrite Eb. split_and!; try done.
    cbn [merge_front b_alloc avail b_size]. do 3 f_equal. lia.
  - exists s, (c :: B3). rewrite Eb, merge_front_alloc by done. split_and!; try done.
    do 3 f_equal. lia.
Qed.
End Allocs.

(** ** A small heap, for the witnesses *)

Definition demo0 : fmem :=
  {| n_next := ∅; n_prev := ∅; n_size := ∅; n_flags := ∅; bytes := ∅;
     owned := [(4096, 4096 + 32 * NODE_S); (65536, 65536 + 4096)] |}.

Lemma demo_zone : zone_ext 4096 ∈ owned demo0.
Proof. apply list_elem_of_here. Qed.

Lemma demo_reg : (65536, 65536 + 4096) ∈ owned demo0.
Proof. apply list_elem_of_further, list_elem_of_here. Qed.

Lemma demo_inv :
  ∃ m, (m ← mdx_fl_init 4096 demo0; mdx_fl_add_region 4096 65536 4096 m) = Ok m ∧
    fl_inv 4096 m [fresh_region 65536 4096].
Proof.
  destruct (init_ok 4096 demo0) as (m & E & Eo & _ & Hi); [lia|exact demo_zone|].
  destruct (add_region_ok 4096 m [] 65536 4096 Hi) as (m' & E' & _ & _ & Hi').
  - by vm_compute.
  - lia.
  - rewrite Eo. exact demo_reg.
  - constructor; [right; by vm_compute|constructor].
  - exists m'. rewrite E. done.
Qed.

Section Properties.
Context `{Arch}.

(** ** Properties *)

(** A header at [a] would cover a byte of the payload of [b]. *)
Definition overlaps_payload (a : Z) (b : Z * Z) : Prop := b.1 < a ∧ a < b.1 + b.2.

Lemma starts_range bs : ∀ a x, Forall (λ b, NODE_S ≤ b_size b) bs → x ∈ starts_at a bs → a ≤ x < a + total bs.
Proof.
  induction bs as [|d bs IH]; intros a x HF Hx; [by apply elem_of_nil in Hx|].
  apply Forall_cons in HF as [Hd HF]. pose proof (total_nonneg _ HF). pose proof NODE_S_bounds. cbn [starts_at total] in *.
  apply elem_of_cons in Hx as [->|Hx]; [lia|]. specialize (IH _ x HF Hx). lia.
Qed.

Lemma alloc_range bs : ∀ a b, Forall (λ b, NODE_S ≤ b_size b) bs → b ∈ alloc_at a bs → a ≤ b.1 ∧ b.1 + b.2 ≤ a + total bs.
Proof.
  induction bs as [|d bs IH]; intros a b HF Hb; [by apply elem_of_nil in Hb|].
  apply Forall_cons in HF as [Hd HF]. pose proof (total_nonneg _ HF). pose proof NODE_S_bounds. cbn [alloc_at total] in *.
  apply elem_of_app in Hb as [Hb|Hb]; [|specialize (IH _ b HF Hb); lia].
  destruct (b_alloc d); [|by apply elem_of_nil in Hb]. apply list_elem_of_singleton in Hb as ->. simpl. lia.
Qed.

Lemma starts_alloc_apart bs : ∀ a x b, Forall (λ b, NODE_S ≤ b_size b) bs →
  x ∈ starts_at a bs → b ∈ alloc_at a bs → x ≤ b.1 ∨ b.1 + b.2 ≤ x.
Proof.
  induction bs as [|c bs IH]; intros a x b HF Hx Hb; [by apply elem_of_nil in Hx|].
  apply Forall_cons in HF as [Hc HF]. cbn [starts_at alloc_at] in *. apply elem_of_cons in Hx. apply elem_of_app in Hb.
  destruct Hb as [Hb|Hb].
  - destruct (b_alloc c); [|by apply elem_of_nil in Hb]. apply list_elem_of_singleton in Hb as ->. simpl.
    destruct Hx as [->|Hx]; [lia|]. pose proof (starts_range _ _ _ HF Hx). lia.
  - pose proof (alloc_range _ _ _ HF Hb). pose proof NODE_S_bounds. destruct Hx as [->|Hx]; [lia|by eapply IH].
Qed.

(** No header lies in the payload of an allocated block, nor reaches into it. *)
Lemma header_apart fl m rs a b : heap_inv fl m rs → header_at fl rs a → b ∈ allocs rs → ¬ overlaps_payload a b.
Proof.
  intros HI Ha Hb [H1 H2]. pose proof NODE_S_bounds. destruct Ha as [(j & Hj & ->)|Ha].
  - destruct (allocs_disjoint _ _ _ HI) as [Hd _]. rewrite Forall_forall in Hd.
    specialize (Hd (span b)). unfold zone_ext, span in Hd. simpl in Hd. unfold nodelist in *.
    destruct Hd; [|nia|nia]. apply list_elem_of_fmap. by exists b.
  - apply all_starts_elem in Ha as (r & Hr & Ha). unfold allocs in Hb.
    apply list_elem_of_In, in_concat in Hb as (l & Hl & Hb). apply list_elem_of_In, list_elem_of_fmap in Hl as (r' & -> & Hr').
    apply list_elem_of_In in Hb. apply list_elem_of_split in Hr as (R1 & R2 & ->).
    pose proof (hr_sizes _ _ _ _ _ HI) as Hs.
    assert (r' = r ∨ r' ∈ R1 ++ R2) as [->|Hr''] by (rewrite elem_of_app, elem_of_cons in Hr'; rewrite elem_of_app; tauto).
    { pose proof (starts_alloc_apart _ _ _ _ Hs Ha Hb). lia. }
    pose proof (hp_wf _ _ _ HI) as Hw. rewrite Forall_forall in Hw. destruct (Hw r' Hr') as (_ & _ & Hs' & _).
    pose proof (hr_disjoint _ _ _ _ _ HI r' Hr'') as Hd.
    pose proof (starts_range _ _ _ Hs Ha). pose proof (alloc_range _ _ _ Hs' Hb). lia.
Qed.

(** C1: mdx_fl_malloc refines the abstract best-fit allocator.  On a heap that
    satisfies the invariant and for a request that does not overflow [size_t],
    it terminates without touching foreign memory and either returns NULL with
    the heap unchanged, exactly when no free block holds the rounded request,
    or carves the request out of a smallest sufficient free block (splitting it
    when the remainder can hold a header) and re-establishes the invariant:
    headers, boundary tags, size classes, order and links of the free list. *)
Theorem malloc_refines (fl : Z) (m : fmem) (rs : list region) (size : Z) :
  fl_inv fl m rs → 0 < size → size + NODE_S + 15 < 2 ^ PTR_W →
  (∃ ptr m' rs', mdx_fl_malloc fl size m = Ok (ptr, m') ∧ 0 < ptr ∧ bytes m' = bytes m ∧
     alloc_step (round16 (size + NODE_S)) rs ptr rs' ∧ fl_inv fl m' rs') ∨
  (mdx_fl_malloc fl size m = Ok (0, m) ∧
   ∀ t, free_size rs t → t < round16 (size + NODE_S)).
Proof.
  intros Hi Hs Hw. destruct (malloc_ok fl m rs size Hi Hs Hw) as [(p & m' & rs' & ?)|?]; [left|by right].
  exists p, m', rs'. tauto.
Qed.

(** C2: mdx_fl_free refines the abstract deallocation: given the payload pointer
    of any allocated block it terminates, merges the block with the free
    neighbours on either side (all four cases) and re-establishes the
    invariant; freeing NULL does nothing. *)
Theorem free_refines (fl : Z) (m : fmem) (rs rs' : list region) (ptr : Z) :
  fl_inv fl m rs → free_step rs ptr rs' →
  (∃ m', mdx_fl_free fl ptr m = Ok m' ∧ bytes m' = bytes m ∧ fl_inv fl m' rs') ∧
  mdx_fl_free fl 0 m = Ok m.
Proof.
  intros Hi (R1 & base & B1 & s & B2 & R2 & -> & -> & -> & H1 & H2). split; [|done].
  destruct (free_ok _ _ _ _ _ _ _ _ Hi H1 H2) as (m' & ? & ? & ? & ?). by exists m'.
Qed.

(** C3: a pointer returned by mdx_fl_malloc is the payload of a new block of at
    least the requested size that overlaps neither the zone nor any block allocated
    before, no other block is affected, and no store of the allocator reaches a
    payload: a header field at an address from which its header would overlap the
    payload of the new block or of one allocated before is what it was. *)
Theorem malloc_safe (fl : Z) (m m' : fmem) (rs : list region) (size ptr : Z) :
  fl_inv fl m rs → 0 < size → size + NODE_S + 15 < 2 ^ PTR_W →
  mdx_fl_malloc fl size m = Ok (ptr, m') → ptr ≠ 0 →
  ∃ rs' s, fl_inv fl m' rs' ∧ NODE_S + size ≤ s ∧
    allocs rs' ≡ₚ (ptr - NODE_S, s) :: allocs rs ∧
    disjoint_list (zone_ext fl :: (span <$> (ptr - NODE_S, s) :: allocs rs)) ∧
    (∀ a b, b ∈ (ptr - NODE_S, s) :: allocs rs → overlaps_payload a b →
      n_next m' !! a = n_next m !! a ∧ n_prev m' !! a = n_prev m !! a ∧
      n_size m' !! a = n_size m !! a ∧ n_flags m' !! a = n_flags m !! a) ∧
    bytes m' = bytes m.
Proof.
  intros Hi Hs Hw E Hp.
  destruct (malloc_ok fl m rs size Hi Hs Hw)
    as [(p & m1 & rs' & E1 & Ha & Hi' & _ & Eb & _ & K)|[E1 _]]; rewrite E in E1; simplify_eq.
  destruct (alloc_step_allocs _ _ _ _ Ha) as (s & Hn & Hperm).
  pose proof Hi' as (bk & _ & HI & _).
  exists rs', s. split_and!; [done| |done| | |done].
  - pose proof (round16_bounds (size + NODE_S)). lia.
  - rewrite <- Hperm. by eapply allocs_disjoint.
  - intros a b Hb Ho. apply K. intros Hh. rewrite <- Hperm in Hb. by eapply header_apart.
Qed.

(** C4: freeing what was just allocated gives back the heap: every region has
    the blocks it had before the allocation, split remainders merged again. *)
Theorem malloc_free_roundtrip (fl : Z) (m m1 : fmem) (rs : list region) (size ptr : Z) :
  fl_inv fl m rs → 0 < size → size + NODE_S + 15 < 2 ^ PTR_W →
  mdx_fl_malloc fl size m = Ok (ptr, m1) → ptr ≠ 0 →
  ∃ m2, mdx_fl_free fl ptr m1 = Ok m2 ∧ fl_inv fl m2 rs ∧ bytes m2 = bytes m.
Proof.
  intros Hi Hs Hw E Hp.
  destruct (malloc_ok fl m rs size Hi Hs Hw)
    as [(p & m' & rs' & E1 & Ha & Hi' & _ & Eb & _)|[E1 _]]; rewrite E in E1; simplify_eq.
  destruct Ha as (R1 & base & B1 & s & B2 & R2 & -> & -> & -> & _).
  destruct Hi as (bk & _ & HI & _).
  destruct (alloc_free_blocks _ _ _ _ _ _ _ _ (round16 (size + NODE_S)) HI)
    as (t & B & Ec & Hne & Hne1 & Ef).
  rewrite Ec in Hi'. destruct (free_ok _ _ _ _ _ _ _ _ Hi' Hne1 Hne) as (m2 & E2 & Eb2 & _ & Hi2).
  exists m2. rewrite Ef in Hi2. rewrite Eb2. done.
Qed.

(** C6: mdx_fl_init and mdx_fl_add_region establish the invariant: the zone
    becomes an empty heap, a region disjoint from what the allocator already
    holds becomes one free block between two sentinels, and mdx_fl_count then
    returns the bytes of all free blocks. *)
Theorem setup_establishes (fl base size : Z) (m : fmem) (rs : list region) :
  0 < fl → zone_ext fl ∈ owned m →
  (∃ m', mdx_fl_init fl m = Ok m' ∧ fl_inv fl m' []) ∧
  (fl_inv fl m rs → 3 * NODE_S ≤ size < 2 ^ 31 → 0 < base → (base, base + size) ∈ owned m →
   Forall (λ e, base + size ≤ e.1 ∨ e.2 ≤ base) (zone_ext fl :: map extent rs) →
   ∃ m', mdx_fl_add_region fl base size m = Ok m' ∧
     fl_inv fl m' (fresh_region base size :: rs) ∧
     mdx_fl_count fl m' = Ok (u32 (size - 2 * NODE_S + avail_total rs))).
Proof.
  intros Hfl Hz. split.
  - destruct (init_ok fl m Hfl Hz) as (m' & ? & _ & _ & ?). by exists m'.
  - intros Hi Hs Hb Ho Hd.
    destruct (add_region_ok fl m rs base size Hi Hs Hb Ho Hd) as (m' & ? & _ & _ & Hi').
    exists m'. split_and!; [done|done|]. exact (count_ok _ _ _ Hi').
Qed.
End Properties.

(** The size computation of mdx_fl_malloc is not protected against
    overflow.  With a 32-bit [size_t], every request of 2^32 - 15 bytes or more
    succeeds whenever some free block exists, and the block it returns holds
    at most 32 bytes, header included. *)
Theorem malloc_size_overflow (fl : Z) (m : fmem) (rs : list region) (size t : Z) :
  fl_inv fl m rs → 2 ^ 32 - 15 ≤ size < 2 ^ 32 → free_size rs t → NODE_S ≤ t →
  ∃ ptr m' rs' s, mdx_fl_malloc fl size m = Ok (ptr, m') ∧ 0 < ptr ∧ fl_inv fl m' rs' ∧
    allocs rs' ≡ₚ (ptr - NODE_S, s) :: allocs rs ∧ s ≤ 32.
Proof.
  intros Hi Hs Ht Hn.
  assert (align16 (wrap PTR_W (size + NODE_S)) = 16) as E.
  { change NODE_S with 16. change PTR_W with 32.
    replace (wrap 32 (size + 16)) with (size + 16 - 2 ^ 32).
    - rewrite align16_spec by (change PTR_W with 32; lia). unfold round16.
      Z.div_mod_to_equations. lia.
    - unfold wrap. rewrite (Z.mod_unique (size + 16) (2 ^ 32) 1 (size + 16 - 2 ^ 32)); lia. }
  destruct (malloc_need fl m rs size 16 Hi) as [(p & m' & rs' & E1 & Ha & Hi' & Hp & _)|[_ Hno]];
    [lia|by rewrite E|done| |].
  - destruct (alloc_step_allocs _ _ _ _ Ha) as (s & Hsz & Hperm). exists p, m', rs', s.
    split_and!; [done|done|done|done|]. change NODE_S with 16 in Hsz. lia.
  - specialize (Hno t Ht). change NODE_S with 16 in Hn. lia.
Qed.

(** ** Witnesses *)

Lemma demo_free : free_size [fresh_region 65536 4096] 4064.
Proof. exists (fresh_region 65536 4096). split; [apply list_elem_of_here|]. apply list_elem_of_further, list_elem_of_here. Qed.

Lemma malloc_refines_witness :
  ∃ m ptr m' rs', fl_inv 4096 m [fresh_region 65536 4096] ∧
    mdx_fl_malloc 4096 100 m = Ok (ptr, m') ∧ 0 < ptr ∧ fl_inv 4096 m' rs'.
Proof.
  destruct demo_inv as (m & _ & Hi).
  destruct (malloc_refines 4096 m [fresh_region 65536 4096] 100 Hi)
    as [(p & m' & rs' & E & Hp & _ & _ & Hi')|[_ Hno]]; [lia|done| |].
  - by exists m, p, m', rs'.
  - specialize (Hno 4064 demo_free). vm_compute in Hno. discriminate.
Defined.

Lemma demo_alloc :
  ∃ m ptr m', fl_inv 4096 m [fresh_region 65536 4096] ∧
    mdx_fl_malloc 4096 100 m = Ok (ptr, m') ∧ ptr ≠ 0.
Proof.
  destruct demo_inv as (m & _ & Hi). exists m.
  destruct (malloc_ok 4096 m [fresh_region 65536 4096] 100 Hi)
    as [(p & m' & rs' & E & _ & _ & Hp & _)|[_ Hno]]; [lia|done| |].
  - exists p, m'. split_and!; [done|done|lia].
  - specialize (Hno 4064 demo_free). vm_compute in Hno. discriminate.
Qed.

Lemma malloc_safe_witness :
  ∃ m m' ptr rs' s, mdx_fl_malloc 4096 100 m = Ok (ptr, m') ∧
    allocs rs' ≡ₚ (ptr - NODE_S, s) :: allocs [fresh_region 65536 4096] ∧ NODE_S + 100 ≤ s.
Proof.
  destruct demo_alloc as (m & p & m' & Hi & E & Hp).
  destruct (malloc_safe 4096 m m' [fresh_region 65536 4096] 100 p Hi)
    as (rs' & s & _ & Hs & Hperm & _); [lia|done|done|done|].
  by exists m, m', p, rs', s.
Defined.

Lemma malloc_free_roundtrip_witness :
  ∃ m m1 m2 ptr, mdx_fl_malloc 4096 100 m = Ok (ptr, m1) ∧ mdx_fl_free 4096 ptr m1 = Ok m2 ∧
    fl_inv 4096 m2 [fresh_region 65536 4096].
Proof.
  destruct demo_alloc as (m & p & m1 & Hi & E & Hp).
  destruct (malloc_free_roundtrip 4096 m m1 [fresh_region 65536 4096] 100 p Hi)
    as (m2 & E2 & Hi2 & _); [lia|done|done|done|].
  by exists m, m1, m2, p.
Defined.

(** Two used blocks of 32 bytes between the sentinels, the second one freed. *)
Lemma free_refines_witness :
  ∃ m m' rs ptr, mdx_fl_free 4096 ptr m = Ok m' ∧ fl_inv 4096 m' rs ∧ 0 < ptr.
Proof.
  destruct demo_inv as (m & _ & Hi).
  destruct (malloc_ok 4096 m [fresh_region 65536 4096] 100 Hi)
    as [(p & m' & rs' & E & Ha & Hi' & Hp & _)|[_ Hno]]; [lia|done| |].
  2:{ specialize (Hno 4064 demo_free). vm_compute in Hno. discriminate. }
  destruct Ha as (R1 & base & B1 & s & B2 & R2 & Er & -> & -> & _).
  pose proof Hi as (bk & _ & HI & _). rewrite Er in HI.
  destruct (alloc_free_blocks _ _ _ _ _ _ _ _ (round16 (100 + NODE_S)) HI)
    as (t & B & Ec & Hne & Hne1 & Ef).
  rewrite Ec in Hi'.
  destruct (free_refines 4096 m' _ (R1 ++ {| r_base := base; r_blocks := freed B1 t B |} :: R2)
    (base + total B1 + NODE_S) Hi') as [(m2 & E2 & _ & Hi2) _].
  - exists R1, base, B1, t, B, R2. done.
  - by eexists m', m2, _, _.
Defined.

Lemma setup_establishes_witness :
  ∃ m m', mdx_fl_init 4096 demo0 = Ok m ∧ mdx_fl_add_region 4096 65536 4096 m = Ok m' ∧
    mdx_fl_count 4096 m' = Ok 4064.
Proof.
  destruct (setup_establishes 4096 65536 4096 demo0 []) as [(m & E & Hi) _]; [lia|exact demo_zone|].
  exists m. destruct (init_ok 4096 demo0) as (m0 & E0 & Eo & _); [lia|exact demo_zone|].
  rewrite E in E0. injection E0 as <-.
  destruct (setup_establishes 4096 65536 4096 m []) as [_ Hr]; [lia|rewrite Eo; exact demo_zone|].
  destruct Hr as (m' & E' & _ & Hc); [done|by vm_compute|lia|rewrite Eo; exact demo_reg| |].
  - constructor; [right; by vm_compute|constructor].
  - exists m'. split_and!; [done|done|]. rewrite Hc. by vm_compute.
Defined.

Lemma malloc_size_overflow_witness :
  ∃ m ptr m' rs' s, mdx_fl_malloc 4096 (2 ^ 32 - 1) m = Ok (ptr, m') ∧ 0 < ptr ∧
    allocs rs' ≡ₚ (ptr - NODE_S, s) :: allocs [fresh_region 65536 4096] ∧ s ≤ 32.
Proof.
  destruct demo_inv as (m & _ & Hi).
  destruct (malloc_size_overflow 4096 m [fresh_region 65536 4096] (2 ^ 32 - 1) 4064 Hi)
    as (p & m' & rs' & s & ? & ? & ? & ? & ?); [lia|exact demo_free|by vm_compute|].
  by exists m, p, m', rs', s.
Defined.
