(* ===== verification/FreelistClient.v ===== *)
(** * The free list: what a client sees of it

    A session is a sequence of requests of one client: allocate a number of bytes,
    or give back one of the blocks it holds. *)

From S2P Require Import Prelude Freelist FreelistInv FreelistSpec FreelistHeap FreelistProofs.
From S2P Require Import FreelistFree FreelistSetup FreelistTheorems.
Local Open Scope Z_scope.

(** The blocks held are numbered, the latest first. *)
Inductive heap_op := Alloc (size : Z) | Release (k : nat).

Section Client.
Context `{Arch}.

Definition heap_step (fl : Z) (o : heap_op) (st : fmem * list Z) : res (fmem * list Z) :=
  let '(m, live) := st in
  match o with
  | Alloc size => '(p, m) ← mdx_fl_malloc fl size m; Ok (m, if p =? 0 then live else p :: live)
  | Release k =>
    match live !! k with
    | Some p => m ← mdx_fl_free fl p m; Ok (m, delete k live)
    | None => Ok (m, live)
    end
  end.

Fixpoint session (fl : Z) (os : list heap_op) (st : fmem * list Z) : res (fmem * list Z) :=
  match os with [] => Ok st | o :: os => st ← heap_step fl o st; session fl os st end.

(** ** The blocks of the client *)

(** The two sentinels of every region. *)
Definition sentinels (es : list (Z * Z)) : list (Z * Z) :=
  concat ((λ e, [(e.1, NODE_S); (e.2 - NODE_S, NODE_S)]) <$> es).

(** The client holds every allocated block but the sentinels. *)
Definition holds (rs : list region) (live : list Z) : Prop :=
  Forall (λ e, 2 * NODE_S ≤ e.2 - e.1) (map extent rs) ∧
  ∃ blocks, allocs rs ≡ₚ sentinels (map extent rs) ++ blocks ∧ live ≡ₚ (λ b, b.1 + NODE_S) <$> blocks.

Lemma alloc_at_size a bs x : Forall (λ b, NODE_S ≤ b_size b) bs → x ∈ alloc_at a bs → NODE_S ≤ x.2.
Proof.
  intros HF. revert a. induction HF as [|b bs Hb HF IH]; intros a Hx; [by apply elem_of_nil in Hx|].
  cbn [alloc_at] in Hx. apply elem_of_app in Hx as [Hx|Hx]; [|by eapply IH].
  destruct (b_alloc b); [|by apply elem_of_nil in Hx]. by apply list_elem_of_singleton in Hx as ->.
Qed.

Lemma allocs_size fl m rs x : heap_inv fl m rs → x ∈ allocs rs → NODE_S ≤ x.2.
Proof.
  intros HI Hx. unfold allocs in Hx. apply list_elem_of_In, in_concat in Hx as (l & Hl & Hx).
  apply list_elem_of_In, list_elem_of_fmap in Hl as (r & -> & Hr). apply list_elem_of_In in Hx.
  apply (alloc_at_size (r_base r) (r_blocks r)); [|done].
  pose proof (hp_wf _ _ _ HI) as Hw. rewrite Forall_forall in Hw. by apply Hw.
Qed.

(** Two allocated blocks start at different places. *)
Lemma starts_differ l x k : disjoint_list (span <$> x :: l) → Forall (λ b, 0 < b.2) (x :: l) → k ∈ l → k.1 ≠ x.1.
Proof.
  intros [Hd _] Hs Hk E. apply Forall_cons in Hs as [Hx Hs]. rewrite Forall_forall in Hs. specialize (Hs k Hk).
  rewrite Forall_forall in Hd. specialize (Hd (span k) ltac:(by apply list_elem_of_fmap_2)).
  unfold span in Hd. cbn in Hd. lia.
Qed.

Lemma alloc_at_elem a bs x : x ∈ alloc_at a bs → ∃ B1 B2, bs = B1 ++ used x.2 :: B2 ∧ x.1 = a + total B1.
Proof.
  revert a. induction bs as [|b bs IH]; intros a Hx; [by apply elem_of_nil in Hx|].
  cbn [alloc_at] in Hx. apply elem_of_app in Hx as [Hx|Hx].
  - destruct b as [s [|]]; cbn in Hx; [|by apply elem_of_nil in Hx]. apply list_elem_of_singleton in Hx as ->.
    exists [], bs. split; [done|cbn; lia].
  - apply IH in Hx as (B1 & B2 & -> & E). exists (b :: B1), B2. split; [done|cbn; lia].
Qed.

Lemma sentinel_elem es e : e ∈ es → (e.1, NODE_S) ∈ sentinels es ∧ (e.2 - NODE_S, NODE_S) ∈ sentinels es.
Proof.
  intros He. unfold sentinels. split; apply list_elem_of_In, in_concat;
    exists [(e.1, NODE_S); (e.2 - NODE_S, NODE_S)]; (split; [apply list_elem_of_In, list_elem_of_fmap; by exists e|]);
    cbn; auto.
Qed.

(** ** A request *)

Lemma alloc_extents need rs p rs' : alloc_step need rs p rs' → map extent rs' = map extent rs.
Proof.
  intros (R1 & base & B1 & s & B2 & R2 & -> & -> & _). rewrite !map_app. cbn [map]. do 2 f_equal.
  unfold extent. cbn [r_base r_blocks]. rewrite !total_app. cbn [total b_size avail]. by rewrite carve_total.
Qed.

Lemma free_extents rs p rs' : free_step rs p rs' → map extent rs' = map extent rs.
Proof.
  intros (R1 & base & B1 & s & B2 & R2 & -> & -> & _). rewrite !map_app. cbn [map]. do 2 f_equal.
  unfold extent. cbn [r_base r_blocks]. destruct (freed_split B1 s B2) as (B1' & m1 & m2 & B2' & -> & -> & -> & _).
  rewrite !total_app. cbn [total b_size avail used]. rewrite !total_app. cbn [total]. f_equal. lia.
Qed.

Lemma alloc_holds need rs live p rs' : alloc_step need rs p rs' → holds rs live → holds rs' (p :: live).
Proof.
  intros Ha (Hx & blocks & Hp & Hl). pose proof (alloc_extents _ _ _ _ Ha) as E.
  destruct (alloc_step_allocs _ _ _ _ Ha) as (s & _ & Hs). split; [by rewrite E|].
  exists ((p - NODE_S, s) :: blocks). rewrite E. split.
  - rewrite Hs, Hp. by rewrite Permutation_middle.
  - rewrite Hl. cbn. by replace (p - NODE_S + NODE_S) with p by lia.
Qed.

(** A block that is held can be freed. *)
Lemma held_free fl m rs live k p : heap_inv fl m rs → holds rs live → live !! k = Some p →
  ∃ rs', free_step rs p rs' ∧ holds rs' (delete k live).
Proof.
  intros HI (Hx & blocks & Hp & Hl) Hk. pose proof NODE_S_bounds.
  pose proof (delete_Permutation _ _ _ Hk) as Hdel. rewrite Hdel in Hl.
  destruct (Permutation_map_inv _ _ Hl) as (bl & Eb & Hpb). destruct bl as [|[a s] bl]; [done|].
  injection Eb as -> Hdl. rewrite Hpb in Hp. clear Hpb Hl.
  pose proof (allocs_disjoint _ _ _ HI) as [_ Hdis].
  assert (Forall (λ b : Z * Z, 0 < b.2) (allocs rs)) as Hsz.
  { apply Forall_forall. intros x Hx'. pose proof (allocs_size _ _ _ _ HI Hx'). lia. }
  rewrite Hp, <- Permutation_middle in Hdis, Hsz.
  assert (∀ k0, k0 ∈ sentinels (map extent rs) ++ bl → k0.1 ≠ a) as Hdiff.
  { intros k0 Hk0. exact (starts_differ _ _ _ Hdis Hsz Hk0). }
  assert ((a, s) ∈ allocs rs) as Hin by (rewrite Hp; apply elem_of_app; right; apply list_elem_of_here).
  apply list_elem_of_In, in_concat in Hin as (l & Hin & Has). apply list_elem_of_In in Has.
  apply list_elem_of_In, list_elem_of_fmap in Hin as (r & -> & Hr).
  apply alloc_at_elem in Has as (B1 & B2 & Er & Ea). cbn in Er, Ea.
  apply list_elem_of_split in Hr as (R1 & R2 & ->). destruct r as [base bs]. cbn in Er, Ea. subst bs.
  destruct (sentinel_elem (map extent (R1 ++ {| r_base := base; r_blocks := B1 ++ used s :: B2 |} :: R2))
    (extent {| r_base := base; r_blocks := B1 ++ used s :: B2 |})) as [S1 S2].
  { rewrite map_app. apply elem_of_app. right. apply list_elem_of_here. }
  assert (free_step (R1 ++ {| r_base := base; r_blocks := B1 ++ used s :: B2 |} :: R2) (a + NODE_S)
    (R1 ++ {| r_base := base; r_blocks := freed B1 s B2 |} :: R2)) as Hf.
  { exists R1, base, B1, s, B2, R2. split_and!; [done|done|lia| |].
    - intros ->. apply (Hdiff (base, NODE_S)); [apply elem_of_app; by left|cbn in *; lia].
    - intros ->. pose proof (hr_wf _ _ _ _ _ HI) as (_ & Hlast & _). cbn [r_blocks] in Hlast.
      rewrite last_snoc in Hlast. injection Hlast as ->.
      apply (Hdiff _ ltac:(apply elem_of_app; left; exact S2)). unfold extent. cbn [fst snd r_base r_blocks].
      rewrite total_app. cbn. lia. }
  eexists. split; [exact Hf|]. destruct (free_step_allocs _ _ _ Hf) as (s' & Hs').
  replace (a + NODE_S - NODE_S) with a in Hs' by lia. pose proof (free_extents _ _ _ Hf) as E.
  set (rs := R1 ++ _ :: R2) in *. set (rs' := R1 ++ {| r_base := base; r_blocks := freed B1 s B2 |} :: R2) in *.
  rewrite Hp, <- Permutation_middle in Hs'.
  assert (s' = s) as ->.
  { destruct (decide (s' = s)); [done|]. exfalso.
    assert ((a, s') ∈ (a, s) :: sentinels (map extent rs) ++ bl) as Hin by (rewrite Hs'; apply list_elem_of_here).
    apply elem_of_cons in Hin as [[= ->]|Hin]; [done|]. by apply (Hdiff (a, s') Hin). }
  split; [by rewrite E|]. exists bl. rewrite E. split; [|by rewrite Hdl].
  apply Permutation_cons_inv in Hs'. by symmetry.
Qed.

Definition op_ok (o : heap_op) : Prop :=
  match o with Alloc size => 0 < size ∧ size + NODE_S + 15 < 2 ^ PTR_W | Release _ => True end.

Lemma heap_step_ok fl m rs live o : fl_inv fl m rs → holds rs live → op_ok o →
  ∃ m' rs' live', heap_step fl o (m, live) = Ok (m', live') ∧ fl_inv fl m' rs' ∧ holds rs' live' ∧
    map extent rs' = map extent rs ∧ bytes m' = bytes m.
Proof.
  intros Hi Hh Ho. destruct o as [size|k]; cbn [heap_step].
  - destruct Ho as [Ho1 Ho2].
    destruct (malloc_ok fl m rs size Hi Ho1 Ho2) as [(p & m' & rs' & E & Ha & Hi' & Hp & Eb & _)|[E _]]; rewrite E, Ok_bind.
    + destruct (Z.eqb_spec p 0); [lia|]. exists m', rs', (p :: live).
      split_and!; [done|done|by eapply alloc_holds|by eapply alloc_extents|done].
    + rewrite Z.eqb_refl. by exists m, rs, live.
  - destruct (live !! k) as [p|] eqn:Ek; [|by exists m, rs, live].
    destruct Hi as (bk & Hf & HI & Hc). destruct (held_free fl m rs live k p HI Hh Ek) as (rs' & Hs & Hh').
    pose proof (free_extents _ _ _ Hs) as Ee. destruct Hs as (R1 & base & B1 & s & B2 & R2 & -> & -> & -> & H1 & H2).
    destruct (free_ok fl m R1 R2 base B1 s B2) as (m' & E & Eb & _ & Hi'); [by exists bk|done|done|].
    rewrite E, Ok_bind. exists m'. eexists _, _. split_and!; [done|exact Hi'|done|done|done].
Qed.

(** ** Everything given back *)

(** A region of the extent [e] of which nothing is in use. *)
Definition unused (e : Z * Z) : region :=
  {| r_base := e.1;
     r_blocks := used NODE_S :: (if e.2 - e.1 =? 2 * NODE_S then [] else [avail (e.2 - e.1 - 2 * NODE_S)]) ++
                 [used NODE_S] |}.

Lemma mid_free mid a : adj_ok (mid ++ [used NODE_S]) → alloc_at a mid = [] → ∀ N, Forall (λ b, N ≤ b_size b) mid →
  0 < N → mid = if total mid =? 0 then [] else [avail (total mid)].
Proof.
  intros Ha E N HF HN. destruct mid as [|[s al] [|[t bl] mid]]; [done| |]; cbn [alloc_at] in E.
  - apply Forall_cons in HF as [Hs _]. cbn in *. destruct al; [done|]. rewrite Z.add_0_r.
    destruct (Z.eqb_spec s 0); [lia|]. done.
  - exfalso. cbn [b_alloc] in E. destruct al; [done|]. destruct bl; [done|]. by destruct Ha as [Ha _].
Qed.

Lemma region_count r : wf_blocks (r_blocks r) → 2 * NODE_S ≤ total (r_blocks r) →
  (2 ≤ length (alloc_at (r_base r) (r_blocks r)))%nat ∧
  (length (alloc_at (r_base r) (r_blocks r)) = 2%nat → r = unused (extent r)).
Proof.
  destruct r as [base bs]. cbn [r_base r_blocks]. intros (Hh & Hl & Hs & Ha & _) Ht. pose proof NODE_S_bounds.
  destruct bs as [|b bs]; [done|]. injection Hh as ->.
  destruct bs as [|x bs] using rev_ind; [cbn in Ht; lia|]. clear IHbs.
  rewrite app_comm_cons, last_snoc in Hl. injection Hl as ->.
  cbn [alloc_at used b_alloc b_size]. rewrite alloc_at_app. cbn [alloc_at used b_alloc]. rewrite !length_app. cbn [length app].
  split; [lia|]. intros Hc. assert (alloc_at (base + NODE_S) bs = []) as E by (apply length_zero_iff_nil; lia).
  apply Forall_cons in Hs as [_ Hs]. apply Forall_app in Hs as [Hs _]. rewrite adj_ok_cons in Ha by done.
  pose proof (mid_free bs _ Ha E NODE_S Hs ltac:(lia)) as Em. unfold unused, extent. cbn [r_base r_blocks fst snd total].
  rewrite total_app. cbn [total used b_size]. rewrite Em at 1.
  replace (base + (NODE_S + (total bs + (NODE_S + 0))) - base) with (total bs + 2 * NODE_S) by lia.
  replace (total bs + 2 * NODE_S - 2 * NODE_S) with (total bs) by lia.
  destruct (Z.eqb_spec (total bs) 0), (Z.eqb_spec (total bs + 2 * NODE_S) (2 * NODE_S)); done || lia.
Qed.

Lemma all_released fl m rs : heap_inv fl m rs → holds rs [] → rs = unused <$> map extent rs.
Proof.
  intros HI (Hx & blocks & Hp & Hl). apply Permutation_nil_l in Hl. destruct blocks; [|done].
  rewrite app_nil_r in Hp. apply Permutation_length in Hp. pose proof (hp_wf _ _ _ HI) as Hw. clear HI Hl.
  assert (length (sentinels (map extent rs)) = 2 * length rs)%nat as HS.
  { unfold sentinels. clear. induction rs as [|r rs IH]; [done|]. cbn. unfold sentinels in IH. cbn in IH. rewrite IH. lia. }
  rewrite HS in Hp. clear HS.
  assert (∀ rs, Forall (λ e, 2 * NODE_S ≤ e.2 - e.1) (map extent rs) → Forall (λ r, wf_blocks (r_blocks r)) rs →
    (2 * length rs ≤ length (allocs rs))%nat) as HG.
  { clear. induction rs as [|r rs IH]; intros Hx Hw; [done|]. cbn [map] in Hx. apply Forall_cons in Hx as [Hr Hx], Hw as [Hwr Hw].
    specialize (IH Hx Hw). unfold extent in Hr. cbn [fst snd] in Hr. destruct (region_count r Hwr ltac:(lia)) as [Hc _].
    unfold allocs in *. cbn [fmap list_fmap concat length]. rewrite length_app. lia. }
  induction rs as [|r rs IH]; [done|]. cbn [map] in Hx. apply Forall_cons in Hx as [Hr Hx], Hw as [Hwr Hw].
  unfold extent in Hr. cbn [fst snd] in Hr. destruct (region_count r Hwr ltac:(lia)) as [Hc He]. specialize (HG rs Hx Hw).
  unfold allocs in *. cbn [fmap list_fmap concat length map] in *. rewrite length_app in Hp.
  rewrite He at 1 by lia. f_equal. apply IH; [done|lia|done].
Qed.

(** C5: Whatever a client asks for and gives back, no request faults; the heap stays
    well formed and its regions where they are; the client holds exactly the
    allocated blocks, which do not overlap, and no byte of theirs is touched.  When
    it has given everything back, every region is a single free block again: nothing
    leaks and nothing stays fragmented. *)
Theorem heap_session fl m rs live os : fl_inv fl m rs → holds rs live → Forall op_ok os →
  ∃ m' rs' live', session fl os (m, live) = Ok (m', live') ∧ fl_inv fl m' rs' ∧ holds rs' live' ∧
    map extent rs' = map extent rs ∧ disjoint_list (zone_ext fl :: (span <$> allocs rs')) ∧ bytes m' = bytes m ∧
    (live' = [] → rs' = unused <$> map extent rs).
Proof.
  intros Hi Hh HF. revert m rs live Hi Hh. induction HF as [|o os Ho HF IH]; intros m rs live Hi Hh; cbn [session].
  - exists m, rs, live. pose proof Hi as (bk & _ & HI & _).
    split_and!; [done|done|done|done|by eapply allocs_disjoint|done|]. intros ->. by eapply all_released.
  - destruct (heap_step_ok fl m rs live o Hi Hh Ho) as (m1 & rs1 & l1 & -> & Hi1 & Hh1 & E1 & Eb). rewrite Ok_bind.
    destruct (IH m1 rs1 l1 Hi1 Hh1) as (m' & rs' & l' & E & Hi' & Hh' & E' & Hd & Eb' & Hr).
    exists m', rs', l'. rewrite <- E1, <- Eb. by split_and!.
Qed.
End Client.

(** Three requests on a fresh heap, given back in another order. *)
Definition demo_session : list heap_op := [Alloc 100; Alloc 8; Release 1; Alloc 50; Release 0; Release 0].

Lemma demo_session_live :
  match m ← (m ← mdx_fl_init 4096 demo0; mdx_fl_add_region 4096 65536 4096 m); session 4096 demo_session (m, []) with
  | Ok (_, live) => live = []
  | Err _ => False
  end.
Proof. vm_compute. reflexivity. Qed.

Lemma heap_session_witness : ∃ m m', fl_inv 4096 m [fresh_region 65536 4096] ∧
  session 4096 demo_session (m, []) = Ok (m', []) ∧ fl_inv 4096 m' [fresh_region 65536 4096].
Proof.
  destruct demo_inv as (m & E & Hi). exists m.
  destruct (heap_session 4096 m [fresh_region 65536 4096] [] demo_session Hi)
    as (m' & rs' & live' & E' & Hi' & _ & _ & _ & _ & Hr).
  - split; [repeat constructor; vm_compute; discriminate|]. exists []. split; [vm_compute; reflexivity|reflexivity].
  - repeat constructor; vm_compute; reflexivity.
  - pose proof demo_session_live as HL. rewrite E, Ok_bind, E' in HL. rewrite HL in E', Hr. rewrite (Hr eq_refl) in Hi'.
    exists m'. split; [exact Hi|]. split; [exact E'|exact Hi'].
Defined.
