(* ===== verification/Callout.v ===== *)
(** * Callouts (kernel/callout/mdx_callout.c, mdx_cputime*.c, include/sys/callout.h)

    A callout is queued on the CPU that configures it.  The queue is a delta
    list: [ticks] counts from the callout before it, the first one from the
    value of the hardware counter saved in [count_saved].  The intrusive list
    is modelled by the sequence of its entries (EntryList proves that the list
    operations are the sequence operations used here).

    [K] names callouts (their addresses), [F] is a pair of a C function and its
    argument.  The code runs with interrupts off; [crit] is
    [curthread->td_critnest] and [cpuid] is [PCPU_GET(cpuid)].  The hardware
    counter of the timer is a field of the CPU's state that only the
    environment changes. *)

From S2P Require Import Prelude.
Local Open Scope Z_scope.

Definition MDX_OK : Z := 0.
Definition MDX_ERROR : Z := -1.
Definition MDX_EEXIST : Z := -2.

(** c->state *)
Inductive callout_state := CALLOUT_STATE_READY | CALLOUT_STATE_FIRED.
Definition CALLOUT_FLAG_ACTIVE : Z := 1.

Record callout (F : Type) := {
  c_state : callout_state;
  c_ticks : Z;
  c_ticks_orig : Z;
  c_func : option F;   (** func and arg, None for a NULL func *)
  c_flags : Z;
  c_cpuid : Z
}.
Arguments c_state {F} _. Arguments c_ticks {F} _. Arguments c_ticks_orig {F} _.
Arguments c_func {F} _. Arguments c_flags {F} _. Arguments c_cpuid {F} _.
Arguments Build_callout {F} _ _ _ _ _ _.

(** mi_tmr->state[cpuid] *)
Inductive timer_state :=
| MI_TIMER_STATE_READY | MI_TIMER_STATE_RUNNING | MI_TIMER_STATE_EXCEPTION.

(** struct mi_timer, but for its per-CPU arrays. *)
Record mi_timer := {
  mt_id : Z;                (** the address, to compare handles *)
  mt_has_start : bool;
  mt_has_stop : bool;
  mt_has_count : bool;
  mt_maxcnt : Z;
  mt_frequency : Z;
  mt_usec_to_ticks : option (Z → Z → res Z);
  mt_ticks_to_usec : option (Z → Z → res Z)
}.

(** The per-CPU state: [callouts_list], [state], [count_saved], and the
    hardware timer: its counter and what it was last programmed to. *)
Record cpu (K : Type) := {
  q : list K;
  t_state : timer_state;
  t_saved : Z;
  t_count : Z;
  t_prog : option Z
}.
Arguments q {K} _. Arguments t_state {K} _. Arguments t_saved {K} _.
Arguments t_count {K} _. Arguments t_prog {K} _. Arguments Build_cpu {K} _ _ _ _ _.

Record cst (K F : Type) `{Countable K} := {
  mi_tmr : option mi_timer;
  tab : gmap K (callout F);
  cpus : Z → cpu K
}.
Arguments mi_tmr {K F _ _} _. Arguments tab {K F _ _} _. Arguments cpus {K F _ _} _.
Arguments Build_cst {K F _ _} _ _ _.

(** ** Conversions (mdx_cputime.c, mdx_cputime_1mhz.c) *)

Definition mdx_cputime_usec_to_ticks (freq usec : Z) : res Z :=
  let ticks := u64 (Z.shiftl freq 32) in
  let ticks := ticks / 1000000 in
  let maxval := u64 (Z.shiftl 0xffffffff 32) in
  if ticks =? 0 then Err Fault (* division by zero *) else
  if maxval / ticks <? usec then Err Panic else
  let ticks := u64 (ticks * usec) in
  Ok (u32 (Z.shiftr ticks 32)).

Definition mdx_cputime_usec_to_ticks_1mhz (freq usec : Z) : res Z :=
  kassert (freq =? 1000000);; Ok usec.

Definition mdx_cputime_ticks_to_usec_1mhz (freq ticks : Z) : res Z :=
  kassert (freq =? 1000000);; Ok ticks.

Section Callout.
Context {K F : Type} `{Countable K}.
Implicit Types (s : cst K F) (c : K).

(** ** State updates *)

Definition with_ticks (t : Z) (c : callout F) : callout F :=
  {| c_state := c_state c; c_ticks := t; c_ticks_orig := c_ticks_orig c; c_func := c_func c;
     c_flags := c_flags c; c_cpuid := c_cpuid c |}.
Definition with_flags (f : Z) (c : callout F) : callout F :=
  {| c_state := c_state c; c_ticks := c_ticks c; c_ticks_orig := c_ticks_orig c;
     c_func := c_func c; c_flags := f; c_cpuid := c_cpuid c |}.
Definition with_state (st : callout_state) (c : callout F) : callout F :=
  {| c_state := st; c_ticks := c_ticks c; c_ticks_orig := c_ticks_orig c; c_func := c_func c;
     c_flags := c_flags c; c_cpuid := c_cpuid c |}.

Definition set_tab (t : gmap K (callout F)) s : cst K F :=
  {| mi_tmr := mi_tmr s; tab := t; cpus := cpus s |}.
Definition upd (c : K) (x : callout F) s : cst K F := set_tab (<[c:=x]> (tab s)) s.
Definition set_cpu (i : Z) (p : cpu K) s : cst K F :=
  {| mi_tmr := mi_tmr s; tab := tab s; cpus := <[i:=p]> (cpus s) |}.
Definition set_q (i : Z) (l : list K) s : cst K F :=
  let p := cpus s i in
  set_cpu i {| q := l; t_state := t_state p; t_saved := t_saved p; t_count := t_count p;
               t_prog := t_prog p |} s.
Definition set_tstate (i : Z) (st : timer_state) s : cst K F :=
  let p := cpus s i in
  set_cpu i {| q := q p; t_state := st; t_saved := t_saved p; t_count := t_count p;
               t_prog := t_prog p |} s.
Definition set_saved (i : Z) (v : Z) s : cst K F :=
  let p := cpus s i in
  set_cpu i {| q := q p; t_state := t_state p; t_saved := v; t_count := t_count p;
               t_prog := t_prog p |} s.
Definition set_prog (i : Z) (v : option Z) s : cst K F :=
  let p := cpus s i in
  set_cpu i {| q := q p; t_state := t_state p; t_saved := t_saved p; t_count := t_count p;
               t_prog := v |} s.

Definition load_c s c : res (callout F) :=
  match tab s !! c with Some x => Ok x | None => Err Fault end.
Definition get_tmr s : res mi_timer :=
  match mi_tmr s with Some mt => Ok mt | None => Err Fault end.

Definition is_active (x : callout F) : bool := negb (Z.land (c_flags x) CALLOUT_FLAG_ACTIVE =? 0).

(** ** The queue *)

Definition first (cpuid : Z) s : option K := head (q (cpus s cpuid)).

(** The entry after [c]; an entry that was removed is linked to itself. *)
Fixpoint next_in (l : list K) (c : K) : option K :=
  match l with
  | [] => Some c
  | x :: l => if decide (x = c) then head l else next_in l c
  end.
Definition next (cpuid : Z) (c : K) s : option K := next_in (q (cpus s cpuid)) c.

(** [list_remove(&c->node)]; removing a self-linked entry changes nothing. *)
Definition qremove (c : K) (l : list K) : list K := filter (λ x, x ≠ c) l.

(** ** Operations *)

Definition mi_tmr_start (cpuid ticks : Z) s : res (cst K F) :=
  mt ← get_tmr s;
  Ok (set_prog cpuid (Some (if mt_maxcnt mt <? ticks then mt_maxcnt mt else ticks)) s).

Definition mdx_callout_init (c : K) s : cst K F :=
  match tab s !! c with
  | Some x => upd c (with_state CALLOUT_STATE_READY (with_flags 0 x)) s
  | None => upd c {| c_state := CALLOUT_STATE_READY; c_ticks := 0; c_ticks_orig := 0;
                     c_func := None; c_flags := 0; c_cpuid := 0 |} s
  end.

(** The arithmetic of get_elapsed(). *)
Definition elapsed_of (mt : mi_timer) (p : cpu K) : Z :=
  let count := t_count p in
  let saved := t_saved p in
  if count =? saved then 0
  else if saved <? count then count - saved
  else u32 (mt_maxcnt mt - saved + count).

(** [save] tells whether [count_saved] is to be updated. *)
Definition get_elapsed (crit cpuid : Z) (save : bool) s : res (Z * cst K F) :=
  kassert (0 <? crit);;
  mt ← get_tmr s;
  let count := t_count (cpus s cpuid) in
  let elapsed := elapsed_of mt (cpus s cpuid) in
  Ok (elapsed, if save then set_saved cpuid count s else s).

Fixpoint ticks_loop (s : cst K F) (c0 : K) (l : list K) (elapsed val : Z) : res Z :=
  match l with
  | [] => Ok val
  | c :: l =>
    x ← load_c s c;
    if c_ticks x <=? elapsed then
      if decide (c = c0) then Ok val
      else ticks_loop s c0 l (elapsed - c_ticks x) val
    else
      let val := s32 (u32 (val + (c_ticks x - elapsed))) in
      if decide (c = c0) then Ok val else ticks_loop s c0 l 0 val
  end.

Definition mdx_callout_ticks (crit cpuid : Z) (c0 : K) s : res Z :=
  x ← load_c s c0;
  if negb (is_active x) then Ok 0 else
  '(elapsed, _) ← get_elapsed (crit + 1) cpuid false s;
  kassert (cpuid =? c_cpuid x);;
  v ← ticks_loop s c0 (q (cpus s cpuid)) elapsed 0;
  Ok (u32 v).

(** The walk of mdx_callout_set_one: the new queue with [c0] in it and the
    ticks left for [c0]. *)
Fixpoint set_one_loop (l : list K) (c0 : K) (t0 : Z) s : res (list K * Z * cst K F) :=
  match l with
  | [] => Ok ([c0], t0, s)
  | c :: l =>
    x ← load_c s c;
    if t0 <? c_ticks x then
      Ok (c0 :: c :: l, t0, upd c (with_ticks (c_ticks x - t0) x) s)
    else
      '(l', t0, s) ← set_one_loop l c0 (t0 - c_ticks x) s;
      Ok (c :: l', t0, s)
  end.

Definition mdx_callout_set_one (crit cpuid : Z) (c0 : K) s : res (cst K F) :=
  kassert (0 <? crit);;
  x ← load_c s c0;
  '(elapsed, t0) ←
    (match t_state (cpus s cpuid) with
     | MI_TIMER_STATE_RUNNING =>
       '(e, _) ← get_elapsed crit cpuid false s; Ok (e, u32 (c_ticks x + e))
     | _ => Ok (0, c_ticks x)
     end);
  '(l, t0, s) ← set_one_loop (q (cpus s cpuid)) c0 t0 s;
  let s := set_q cpuid l (upd c0 (with_ticks t0 x) s) in
  match t_state (cpus s cpuid) with
  | MI_TIMER_STATE_RUNNING =>
    if decide (first cpuid s = Some c0) then mi_tmr_start cpuid (u32 (t0 - elapsed)) s else Ok s
  | MI_TIMER_STATE_EXCEPTION => Ok s
  | MI_TIMER_STATE_READY =>
    let s := set_tstate cpuid MI_TIMER_STATE_RUNNING s in
    let s := set_saved cpuid (t_count (cpus s cpuid)) s in
    match first cpuid s with
    | Some f => y ← load_c s f; mi_tmr_start cpuid (c_ticks y) s
    | None => Err Fault
    end
  end.

Definition mdx_callout_set_ticks_locked (crit cpuid : Z) (c : K) (ticks : Z) (func : option F) s :
    res (Z * cst K F) :=
  kassert (bool_decide (is_Some (mi_tmr s)));;
  kassert (0 <? crit);;
  x ← load_c s c;
  if is_active x then Ok (MDX_ERROR, s) else
  if ticks =? 0 then Ok (MDX_OK, upd c (with_state CALLOUT_STATE_FIRED x) s) else
  let x := {| c_state := c_state x; c_ticks := ticks; c_ticks_orig := ticks; c_func := func;
              c_flags := c_flags x; c_cpuid := cpuid |} in
  s ← mdx_callout_set_one crit cpuid c (upd c x s);
  x ← load_c s c;
  Ok (MDX_OK, upd c (with_flags (Z.lor (c_flags x) CALLOUT_FLAG_ACTIVE) x) s).

Definition mdx_callout_usec_to_ticks (usec : Z) s : res Z :=
  match mi_tmr s with
  | None => Err Kassert
  | Some mt =>
    match mt_usec_to_ticks mt with
    | None => Err Kassert
    | Some f => f (mt_frequency mt) usec
    end
  end.

Definition mdx_callout_ticks_to_usec (ticks : Z) s : res Z :=
  match mi_tmr s with
  | None => Err Kassert
  | Some mt =>
    match mt_ticks_to_usec mt with
    | None => Err Kassert
    | Some f => f (mt_frequency mt) ticks
    end
  end.

Definition mdx_callout_usec (crit cpuid : Z) (c0 : K) s : res Z :=
  ticks ← mdx_callout_ticks crit cpuid c0 s;
  mdx_callout_ticks_to_usec ticks s.

Definition mdx_callout_set_locked (crit cpuid : Z) (c : K) (usec : Z) (func : option F) s :
    res (Z * cst K F) :=
  ticks ← mdx_callout_usec_to_ticks usec s;
  mdx_callout_set_ticks_locked crit cpuid c ticks func s.

(** Between critical_enter() and critical_exit(). *)
Definition mdx_callout_set_ticks (crit cpuid : Z) (c : K) (ticks : Z) (func : option F) s :
    res (Z * cst K F) :=
  mdx_callout_set_ticks_locked (crit + 1) cpuid c ticks func s.

Definition mdx_callout_set (crit cpuid : Z) (c : K) (usec : Z) (func : option F) s :
    res (Z * cst K F) :=
  ticks ← mdx_callout_usec_to_ticks usec s;
  mdx_callout_set_ticks crit cpuid c ticks func s.

Definition mdx_callout_cancel_locked (c : K) s : res (Z * cst K F) :=
  x ← load_c s c;
  if negb (is_active x) then Ok (1, s) else
  s ← (match next (c_cpuid x) c s with
       | Some n => y ← load_c s n; Ok (upd n (with_ticks (u32 (c_ticks y + c_ticks x)) y) s)
       | None => Ok s
       end);
  let s := set_q (c_cpuid x) (qremove c (q (cpus s (c_cpuid x)))) s in
  x ← load_c s c;
  Ok (MDX_OK, upd c (with_flags (Z.ldiff (c_flags x) CALLOUT_FLAG_ACTIVE) x) s).

Definition mdx_callout_cancel (crit : Z) (c : K) s : res (Z * cst K F) :=
  kassert (bool_decide (is_Some (mi_tmr s)));;
  kassert (0 <? crit);;
  mdx_callout_cancel_locked c s.

(** What is done to a due callout before its function is called. *)
Definition fire (cpuid : Z) (c : K) (x : callout F) s : cst K F :=
  let s := set_q cpuid (qremove c (q (cpus s cpuid))) s in
  upd c {| c_state := CALLOUT_STATE_FIRED; c_ticks := 0; c_ticks_orig := c_ticks_orig x;
           c_func := c_func x; c_flags := Z.ldiff (c_flags x) CALLOUT_FLAG_ACTIVE;
           c_cpuid := c_cpuid x |} s.

(** ** Registration *)

(** The options MDX_CALLOUT_USEC_TO_TICKS_1MHZ and MDX_CALLOUT_USEC_TO_TICKS. *)
Record config := { cfg_1mhz : bool; cfg_generic : bool }.

Definition mdx_callout_setup (cf : config) (mt : mi_timer) : Z * mi_timer :=
  match mt_usec_to_ticks mt with
  | Some _ => (MDX_OK, mt)
  | None =>
    if cfg_1mhz cf && (mt_frequency mt =? 1000000) then
      (MDX_OK, {| mt_id := mt_id mt; mt_has_start := mt_has_start mt; mt_has_stop := mt_has_stop mt;
         mt_has_count := mt_has_count mt; mt_maxcnt := mt_maxcnt mt;
         mt_frequency := mt_frequency mt;
         mt_usec_to_ticks := Some mdx_cputime_usec_to_ticks_1mhz;
         mt_ticks_to_usec := Some mdx_cputime_ticks_to_usec_1mhz |})
    else if cfg_generic cf && negb (mt_frequency mt =? 1000000) then
      (MDX_OK, {| mt_id := mt_id mt; mt_has_start := mt_has_start mt; mt_has_stop := mt_has_stop mt;
         mt_has_count := mt_has_count mt; mt_maxcnt := mt_maxcnt mt;
         mt_frequency := mt_frequency mt;
         mt_usec_to_ticks := Some mdx_cputime_usec_to_ticks;
         mt_ticks_to_usec := None |})
    else (MDX_ERROR, mt)
  end.

(** [for (i = 0; i < MDX_CPU_MAX; i++)], [n] rounds. *)
Fixpoint register_loop (n : nat) s : cst K F :=
  match n with
  | O => s
  | S n =>
    let s := register_loop n s in
    let i := Z.of_nat n in
    set_saved i 0 (set_tstate i MI_TIMER_STATE_READY (set_q i [] s))
  end.

Definition mdx_callout_register (cf : config) (MDX_CPU_MAX : nat) (mt : mi_timer) s :
    Z * cst K F :=
  match mi_tmr s with
  | Some _ => (MDX_EEXIST, s)
  | None =>
    if (mt_maxcnt mt =? 0) || negb (mt_has_start mt) || negb (mt_has_stop mt) ||
       (mt_frequency mt =? 0) || negb (mt_has_count mt)
    then (MDX_ERROR, s)
    else
      let '(e, mt) := mdx_callout_setup cf mt in
      if e =? MDX_OK then
        (MDX_OK, register_loop MDX_CPU_MAX {| mi_tmr := Some mt; tab := tab s; cpus := cpus s |})
      else (MDX_ERROR, s)
  end.
End Callout.

(** ** The timer interrupt

    A callback may call back into the callout code and into the scheduler, so
    the interrupt handler works on the state [W] of the client.  This
    interface is all it needs of it. *)

Class World (K F W : Type) `{Countable K} := {
  get_cst : W → cst K F;
  put_cst : cst K F → W → W;
  w_crit : W → Z;                 (** curthread->td_critnest *)
  w_call : F → W → res W;         (** c->func(c->arg) *)
  get_put s w : get_cst (put_cst s w) = s;
  put_put s s' w : put_cst s (put_cst s' w) = put_cst s w;
  put_get w : put_cst (get_cst w) w = w;
  crit_put s w : w_crit (put_cst s w) = w_crit w
}.

Section Interrupt.
Context {K F W : Type} `{Countable K} `{!World K F W}.

(** The loop of mdx_callout_callback; [c] is the loop variable. *)
Fixpoint callback_loop (fuel : nat) (cpuid : Z) (c : option K) (elapsed : Z) (w : W) : res W :=
  match fuel with
  | O => Err NoFuel
  | S fuel =>
    match c with
    | None => Ok w
    | Some c =>
      let s := get_cst w in
      let tmp := next cpuid c s in
      x ← load_c s c;
      if c_ticks x <=? elapsed then
        let w := put_cst (fire cpuid c x s) w in
        w ← (match c_func x with Some f => w_call f w | None => Ok w end);
        callback_loop fuel cpuid tmp (elapsed - c_ticks x) w
      else Ok (put_cst (upd c (with_ticks (c_ticks x - elapsed) x) s) w)
    end
  end.

Definition mdx_callout_callback (fuel : nat) (cpuid : Z) (mt : Z) (w : W) : res (Z * W) :=
  let s := get_cst w in
  kassert (0 <? w_crit w);;
  match mi_tmr s with
  | None => Err Kassert
  | Some tmr =>
    kassert (mt_id tmr =? mt);;
    match q (cpus s cpuid) with
    | [] => Ok (MDX_OK, w)
    | _ =>
      '(elapsed, s) ← get_elapsed (w_crit w) cpuid true s;
      let s := set_tstate cpuid MI_TIMER_STATE_EXCEPTION s in
      w ← callback_loop fuel cpuid (first cpuid s) elapsed (put_cst s w);
      let s := get_cst w in
      match first cpuid s with
      | Some c =>
        match t_state (cpus s cpuid) with
        | MI_TIMER_STATE_EXCEPTION =>
          x ← load_c s c;
          s ← mi_tmr_start cpuid (c_ticks x) (set_tstate cpuid MI_TIMER_STATE_RUNNING s);
          Ok (MDX_OK, put_cst s w)
        | _ => Ok (MDX_OK, w)
        end
      | None => Ok (MDX_OK, put_cst (set_prog cpuid None (set_tstate cpuid MI_TIMER_STATE_READY s)) w)
      end
    end
  end.
End Interrupt.
