(* ===== verification/CalloutProofs.v ===== *)
(** * Callouts: deadlines

    The deltas of a queue add up to deadlines, counted from the saved value of
    the hardware counter.  Configuring, cancelling and expiring callouts are
    operations on the list of deadlines. *)

From S2P Require Import Prelude Callout.
Local Open Scope Z_scope.

Section Deadlines.
Context {K F : Type} `{Countable K}.
Implicit Types (s : cst K F) (c : K) (l : list K).

Definition ticks_of s c : Z := default 0 (c_ticks <$> tab s !! c).

Fixpoint deadlines s l (acc : Z) : list (K * Z) :=
  match l with
  | [] => []
  | c :: l => (c, acc + ticks_of s c) :: deadlines s l (acc + ticks_of s c)
  end.

(** The deadlines of a CPU. *)
Definition dls s (i : Z) : list (K * Z) := deadlines s (q (cpus s i)) 0.

(** Insertion after the entries that are due no later. *)
Fixpoint dl_insert (p : K * Z) (l : list (K * Z)) : list (K * Z) :=
  match l with
  | [] => [p]
  | p' :: l => if p.2 <? p'.2 then p :: p' :: l else p' :: dl_insert p l
  end.

Definition tsum s l : Z := zsum (ticks_of s <$> l).

Lemma deadlines_ext s s' l acc :
  (∀ c, c ∈ l → ticks_of s' c = ticks_of s c) → deadlines s' l acc = deadlines s l acc.
Proof.
  revert acc. induction l as [|c l IH]; intros acc He; [done|]. simpl.
  rewrite (He c) by mem. rewrite IH; [done|]. intros c' Hc'. apply He. mem.
Qed.

Lemma deadlines_app s l k acc :
  deadlines s (l ++ k) acc = deadlines s l acc ++ deadlines s k (acc + tsum s l).
Proof.
  revert acc. induction l as [|c l IH]; intros acc; simpl.
  - unfold tsum. simpl. by rewrite Z.add_0_r.
  - rewrite IH. unfold tsum. simpl. by rewrite Z.add_assoc.
Qed.

Lemma deadlines_fst s l acc : (deadlines s l acc).*1 = l.
Proof. revert acc. induction l as [|c l IH]; intros acc; simpl; [done|]. by rewrite IH. Qed.

Lemma deadlines_ge s l acc p :
  (∀ c, c ∈ l → 0 ≤ ticks_of s c) → p ∈ deadlines s l acc → acc ≤ p.2.
Proof.
  revert acc. induction l as [|c l IH]; intros acc Ht Hp; [by apply elem_of_nil in Hp|].
  simpl in Hp. apply elem_of_cons in Hp as [->|Hp]; simpl.
  - specialize (Ht c ltac:(mem)). lia.
  - apply IH in Hp; [|intros; apply Ht; mem]. specialize (Ht c ltac:(mem)). lia.
Qed.

Lemma dl_insert_perm p (l : list (K * Z)) : dl_insert p l ≡ₚ p :: l.
Proof.
  induction l as [|p' l IH]; [done|]. simpl. destruct (p.2 <? p'.2); [done|].
  rewrite IH. apply Permutation_swap.
Qed.

(** ** The invariant *)

Definition queued s (i : Z) (c : K) : Prop :=
  ∃ x, tab s !! c = Some x ∧ is_active x = true ∧ c_cpuid x = i ∧ 0 ≤ c_ticks x.

Record cpu_ok s (i : Z) : Prop := {
  ok_nodup : NoDup (q (cpus s i));
  ok_queued : ∀ c, c ∈ q (cpus s i) → queued s i c;
  ok_range : Forall (λ p, p.2 < 2 ^ 32) (dls s i);
  ok_ready : t_state (cpus s i) = MI_TIMER_STATE_READY → q (cpus s i) = []
}.

Record callout_inv s : Prop := {
  inv_cpu : ∀ i, cpu_ok s i;
  inv_active : ∀ c x, tab s !! c = Some x → is_active x = true → c ∈ q (cpus s (c_cpuid x))
}.

Lemma queued_ticks s i c : queued s i c → 0 ≤ ticks_of s c.
Proof. intros (x & E & _ & _ & Hx). unfold ticks_of. by rewrite E. Qed.

Lemma inactive_not_queued s c x i :
  callout_inv s → tab s !! c = Some x → is_active x = false → c ∉ q (cpus s i).
Proof.
  intros I E Ha Hin. destruct (ok_queued _ _ (inv_cpu _ I i) c Hin) as (y & Ey & Hy & _).
  congruence.
Qed.

(** ** Steps that change nothing but ticks *)

Definition same_but_ticks s s' : Prop :=
  mi_tmr s' = mi_tmr s ∧ cpus s' = cpus s ∧
  ∀ c, with_ticks 0 <$> tab s' !! c = with_ticks 0 <$> tab s !! c.

Lemma same_lookup s s' c x :
  same_but_ticks s s' → tab s !! c = Some x → ∃ t, tab s' !! c = Some (with_ticks t x).
Proof.
  intros (_ & _ & Hs) E. specialize (Hs c). rewrite E in Hs.
  destruct (tab s' !! c) as [y|]; [|done]. simpl in Hs. injection Hs as E1 E2 E3 E4 E5.
  exists (c_ticks y). destruct x, y; simpl in *. by subst.
Qed.

Lemma same_refl s : same_but_ticks s s.
Proof. done. Qed.

Lemma same_upd s s' c x t :
  same_but_ticks s s' → tab s' !! c = Some x → same_but_ticks s (upd c (with_ticks t x) s').
Proof.
  intros (E1 & E2 & E3) Ec. split_and!; [done|done|]. intros c'. simpl.
  rewrite <- E3. destruct (decide (c' = c)) as [->|Hne].
  - rewrite lookup_insert_eq, Ec. done.
  - by rewrite lookup_insert_ne.
Qed.

Lemma load_c_Some s c x : tab s !! c = Some x → load_c s c = Ok x.
Proof. unfold load_c. by intros ->. Qed.

(** ** Configuring *)

Lemma ticks_of_upd s c x : ticks_of (upd c x s) c = c_ticks x.
Proof. unfold ticks_of. simpl. by rewrite lookup_insert_eq. Qed.

Lemma ticks_of_upd_ne s c x c' : c' ≠ c → ticks_of (upd c x s) c' = ticks_of s c'.
Proof. intros. unfold ticks_of. simpl. by rewrite lookup_insert_ne. Qed.

Lemma set_one_loop_spec l c0 t0 s acc :
  NoDup (c0 :: l) → (∀ c, c ∈ l → is_Some (tab s !! c) ∧ 0 ≤ ticks_of s c) → 0 ≤ t0 →
  ∃ l' t' s', set_one_loop l c0 t0 s = Ok (l', t', s') ∧ 0 ≤ t' ≤ t0 ∧
    same_but_ticks s s' ∧ (∀ c, c ∉ l → tab s' !! c = tab s !! c) ∧
    (∀ c, c ∈ l → 0 ≤ ticks_of s' c) ∧
    (head l' = Some c0 → t' = t0) ∧ l' ≡ₚ c0 :: l ∧
    ∀ x, deadlines (upd c0 (with_ticks t' x) s') l' acc =
         dl_insert (c0, acc + t0) (deadlines s l acc).
Proof.
  revert t0 acc. induction l as [|c l IH]; intros t0 acc Hnd Hl Ht.
  - exists [c0], t0, s. split_and!; try done; [set_solver|]. intros x. simpl.
    by rewrite ticks_of_upd.
  - cbn [set_one_loop]. destruct (Hl c ltac:(mem)) as [[x Ex] Hx].
    unfold load_c. rewrite Ex. cbn [mbind res_bind].
    assert (ticks_of s c = c_ticks x) as Et by (unfold ticks_of; by rewrite Ex).
    rewrite Et in Hx. apply NoDup_cons in Hnd as [Hc0 Hnd]. apply NoDup_cons in Hnd as [Hc Hnd].
    destruct (Z.ltb_spec t0 (c_ticks x)) as [Hlt|Hge].
    + eexists _, _, _. split; [reflexivity|]. split_and!; [lia|lia| | | |done|done|].
      * by apply same_upd.
      * intros c' Hc'. simpl. rewrite lookup_insert_ne; [done|]. intros ->. mem.
      * intros c' Hc'. destruct (decide (c' = c)) as [->|Hne].
        { rewrite ticks_of_upd. simpl. lia. }
        rewrite ticks_of_upd_ne by done. apply Hl. mem.
      * intros y. cbn [deadlines]. rewrite ticks_of_upd. cbn [c_ticks with_ticks].
        rewrite ticks_of_upd_ne by mem. rewrite ticks_of_upd. cbn [c_ticks with_ticks].
        cbn [dl_insert fst snd]. rewrite Et. destruct (Z.ltb_spec (acc + t0) (acc + c_ticks x)); [|lia].
        replace (acc + t0 + (c_ticks x - t0)) with (acc + c_ticks x) by lia.
        do 2 f_equal. apply deadlines_ext. intros c' Hc'.
        rewrite !ticks_of_upd_ne; [done| |]; intros ->; mem.
    + destruct (IH (t0 - c_ticks x) (acc + c_ticks x)) as
        (l' & t' & s' & E & Ht' & Hsame & Hout & Hpos & _ & Hperm & Hdl).
      { apply NoDup_cons. split; [mem|done]. }
      { intros c' Hc'. apply Hl. mem. }
      { lia. }
      rewrite E. cbn [mbind res_bind]. eexists _, _, _. split; [reflexivity|].
      split_and!; [lia|lia|done| | | | |].
      * intros c' Hc'. apply Hout. mem.
      * intros c' Hc'. destruct (decide (c' = c)) as [->|Hne].
        { unfold ticks_of. rewrite Hout by done. by rewrite Ex. }
        apply Hpos. mem.
      * simpl. intros [= ->]. mem.
      * rewrite Hperm. apply Permutation_swap.
      * intros y. cbn [deadlines dl_insert fst snd]. rewrite Et.
        rewrite ticks_of_upd_ne by (intros ->; mem).
        assert (ticks_of s' c = c_ticks x) as -> by (unfold ticks_of; by rewrite Hout, Ex).
        destruct (Z.ltb_spec (acc + t0) (acc + c_ticks x)); [lia|]. f_equal.
        rewrite Hdl. f_equal. f_equal. lia.
Qed.

(** The time that has passed since [count_saved]; nothing is running in the
    other states. *)
Definition base_elapsed (mt : mi_timer) (p : cpu K) : Z :=
  match t_state p with MI_TIMER_STATE_RUNNING => elapsed_of mt p | _ => 0 end.

(** The timer cannot count further than [maxcnt]. *)
Definition started (mt : mi_timer) (ticks : Z) : option Z := Some (Z.min (mt_maxcnt mt) ticks).

(** What configuring [c] does to the timer. *)
Definition timer_after_set (mt : mi_timer) (c : K) (ticks : Z) (p p' : cpu K) : Prop :=
  t_count p' = t_count p ∧
  match t_state p with
  | MI_TIMER_STATE_RUNNING =>
    t_state p' = MI_TIMER_STATE_RUNNING ∧ t_saved p' = t_saved p ∧
    t_prog p' = (if decide (head (q p') = Some c) then started mt ticks else t_prog p)
  | MI_TIMER_STATE_EXCEPTION =>
    t_state p' = MI_TIMER_STATE_EXCEPTION ∧ t_saved p' = t_saved p ∧ t_prog p' = t_prog p
  | MI_TIMER_STATE_READY =>
    t_state p' = MI_TIMER_STATE_RUNNING ∧ t_saved p' = t_count p ∧ t_prog p' = started mt ticks
  end.

Lemma mi_tmr_start_eq mt i ticks s :
  mi_tmr s = Some mt → mi_tmr_start i ticks s = Ok (set_prog i (started mt ticks) s).
Proof.
  intros E. unfold mi_tmr_start, get_tmr, started. rewrite E. cbn [mbind res_bind].
  do 3 f_equal. destruct (Z.ltb_spec (mt_maxcnt mt) ticks); lia.
Qed.

Lemma base_elapsed_nonneg mt p : 0 ≤ base_elapsed mt p.
Proof.
  unfold base_elapsed, elapsed_of. destruct (t_state p); [lia| |lia].
  zcase; [lia|lia|]. apply wrap_range. lia.
Qed.

Lemma set_one_spec s i c x crit mt :
  mi_tmr s = Some mt → 0 < crit → tab s !! c = Some x → c ∉ q (cpus s i) →
  NoDup (q (cpus s i)) → (∀ c, c ∈ q (cpus s i) → is_Some (tab s !! c) ∧ 0 ≤ ticks_of s c) →
  (t_state (cpus s i) = MI_TIMER_STATE_READY → q (cpus s i) = []) →
  0 ≤ c_ticks x → c_ticks x + base_elapsed mt (cpus s i) < 2 ^ 32 →
  ∃ s3 t' s2, mdx_callout_set_one crit i c s = Ok s3 ∧
    same_but_ticks s s2 ∧ (∀ k, k ∉ q (cpus s i) → tab s2 !! k = tab s !! k) ∧
    (∀ k, k ∈ q (cpus s i) → 0 ≤ ticks_of s2 k) ∧
    tab s3 = <[c := with_ticks t' x]> (tab s2) ∧ mi_tmr s3 = mi_tmr s ∧ 0 ≤ t' ∧
    (∀ j, j ≠ i → cpus s3 j = cpus s j) ∧ q (cpus s3 i) ≡ₚ c :: q (cpus s i) ∧
    (∀ y, deadlines (upd c (with_ticks t' y) s2) (q (cpus s3 i)) 0 =
       dl_insert (c, base_elapsed mt (cpus s i) + c_ticks x) (dls s i)) ∧
    timer_after_set mt c (c_ticks x) (cpus s i) (cpus s3 i).
Proof.
  intros Hm Hcr Hx Hc Hnd Hl Hrd Ht Hov.
  pose proof (base_elapsed_nonneg mt (cpus s i)) as He. set (e := base_elapsed mt (cpus s i)) in *.
  destruct (set_one_loop_spec (q (cpus s i)) c (c_ticks x + e) s 0) as
    (l' & t' & s2 & E & Ht' & (Em & Ecp & Etb) & Hout & Hpos & Hhd & Hperm & Hdl);
    [by constructor|done|lia|].
  assert ((match t_state (cpus s i) with
     | MI_TIMER_STATE_RUNNING =>
       '(e, _) ← get_elapsed crit i false s; Ok (e, u32 (c_ticks x + e))
     | _ => Ok (0, c_ticks x)
     end) = Ok (e, c_ticks x + e)) as Ee.
  { unfold e, base_elapsed in *. destruct (t_state (cpus s i)) eqn:Es; try by rewrite Z.add_0_r.
    unfold get_elapsed, kassert, get_tmr. rewrite Hm. destruct (Z.ltb_spec 0 crit); [|lia].
    cbn [mbind res_bind]. rewrite wrap_small by lia. done. }
  unfold mdx_callout_set_one, kassert. destruct (Z.ltb_spec 0 crit); [|lia].
  rewrite (load_c_Some _ _ _ Hx). cbn [mbind res_bind]. rewrite Ee. cbn [mbind res_bind].
  rewrite E. cbn [mbind res_bind].
  set (s3 := set_q i l' (upd c (with_ticks t' x) s2)).
  assert (cpus s3 i = {| q := l'; t_state := t_state (cpus s i); t_saved := t_saved (cpus s i);
    t_count := t_count (cpus s i); t_prog := t_prog (cpus s i) |}) as E3.
  { unfold s3, set_q, set_cpu. simpl. rewrite fn_lookup_insert. by rewrite Ecp. }
  assert (∀ j, j ≠ i → cpus s3 j = cpus s j) as Ej.
  { intros j Hj. unfold s3, set_q, set_cpu. simpl. rewrite fn_lookup_insert_ne by done. by rewrite Ecp. }
  assert (mi_tmr s3 = Some mt) as Em3 by (unfold s3; simpl; by rewrite Em).
  assert (tab s3 = <[c:=with_ticks t' x]> (tab s2)) as Et3 by done.
  assert (∀ y, deadlines (upd c (with_ticks t' y) s2) l' 0 = dl_insert (c, e + c_ticks x) (dls s i))
    as Hdl'.
  { intros y. rewrite Hdl. unfold dls. do 2 f_equal. lia. }
  rewrite E3. cbn [t_state]. unfold timer_after_set.
  destruct (t_state (cpus s i)) eqn:Es.
  - (* READY *)
    unfold set_tstate, set_saved, set_cpu, first. cbn [cpus q]. rewrite !fn_lookup_insert.
    cbn [q t_count t_state t_saved t_prog]. rewrite E3. cbn [q t_count t_state t_saved t_prog].
    rewrite (Hrd eq_refl) in *. apply Permutation_singleton_r in Hperm as ->. cbn [head].
    assert (e = 0) as Ez by (unfold e, base_elapsed; by rewrite Es).
    assert (t' = c_ticks x) as Etx by (rewrite Hhd by done; lia).
    unfold load_c. cbn [tab]. rewrite Et3, lookup_insert_eq. cbn [mbind res_bind with_ticks c_ticks].
    rewrite (mi_tmr_start_eq mt) by done.
    eexists _, t', s2. split; [reflexivity|].
    unfold set_prog, set_cpu. cbn [cpus]. rewrite !fn_lookup_insert.
    cbn [q t_count t_state t_saved t_prog].
    split_and!; try done; try lia; [|by rewrite Etx].
    intros j Hj. rewrite !fn_lookup_insert_ne by done. by apply Ej.
  - (* RUNNING *)
    unfold first. rewrite E3. cbn [q]. case_decide as Hd.
    + assert (t' = c_ticks x + e) as Etx by (by apply Hhd).
      rewrite wrap_small by lia. rewrite (mi_tmr_start_eq mt) by done.
      eexists _, t', s2. split; [reflexivity|].
      unfold set_prog, set_cpu. cbn [cpus]. rewrite !fn_lookup_insert, E3.
      cbn [q t_count t_state t_saved t_prog]. rewrite decide_True by done.
      replace (t' - e) with (c_ticks x) by lia.
      split_and!; try done; try lia.
      intros j Hj. rewrite !fn_lookup_insert_ne by done. by apply Ej.
    + eexists _, t', s2. split; [reflexivity|]. rewrite E3. cbn [q t_count t_state t_saved t_prog].
      rewrite decide_False by done. split_and!; try done; try lia.
  - (* EXCEPTION *)
    eexists _, t', s2. split; [reflexivity|]. rewrite E3. cbn [q t_count t_state t_saved t_prog].
    split_and!; try done; try lia.
Qed.

(** ** Flags *)

Lemma active_bit (x : callout F) : is_active x = Z.odd (c_flags x).
Proof.
  unfold is_active, CALLOUT_FLAG_ACTIVE. change 1 with (Z.ones 1) at 1.
  rewrite Z.land_ones by lia. change (2 ^ 1) with 2. rewrite Zmod_odd.
  by destruct (Z.odd (c_flags x)).
Qed.

Lemma active_set (x : callout F) :
  is_active (with_flags (Z.lor (c_flags x) CALLOUT_FLAG_ACTIVE) x) = true.
Proof.
  rewrite active_bit. cbn [c_flags with_flags]. rewrite <- Z.bit0_odd, Z.lor_spec.
  apply orb_true_r.
Qed.

Lemma active_clear (x : callout F) f :
  c_flags x = Z.ldiff f CALLOUT_FLAG_ACTIVE → is_active x = false.
Proof.
  intros E. rewrite active_bit, E, <- Z.bit0_odd, Z.ldiff_spec. apply andb_false_r.
Qed.

(** Records that agree but for [ticks] are active together. *)
Lemma same_active s s' c y :
  same_but_ticks s s' → tab s' !! c = Some y →
  ∃ x, tab s !! c = Some x ∧ is_active y = is_active x ∧ c_cpuid y = c_cpuid x.
Proof.
  intros (_ & _ & Hs) E. specialize (Hs c). rewrite E in Hs.
  destruct (tab s !! c) as [x|]; [|done]. simpl in Hs. injection Hs as E1 E2 E3 E4 E5.
  exists x. unfold is_active. by rewrite E4, E5.
Qed.

(** The invariant of a CPU whose entries were not touched. *)
Lemma cpu_ok_ext s s' i :
  cpu_ok s i → cpus s' i = cpus s i → (∀ c, c ∈ q (cpus s i) → tab s' !! c = tab s !! c) →
  cpu_ok s' i ∧ dls s' i = dls s i.
Proof.
  intros [H1 H2 H3 H4] Ec Et.
  assert (dls s' i = dls s i) as Ed.
  { unfold dls. rewrite Ec. apply deadlines_ext. intros c Hc. unfold ticks_of. by rewrite Et. }
  split; [|done]. constructor; rewrite ?Ec, ?Ed; try done.
  intros c Hc. destruct (H2 c Hc) as (x & E & ?). exists x. by rewrite Et.
Qed.

(** [q] of another CPU holds other callouts. *)
Lemma other_cpu s i j c :
  callout_inv s → c ∈ q (cpus s i) → j ≠ i → c ∉ q (cpus s j).
Proof.
  intros I Hi Hne Hj. destruct (ok_queued _ _ (inv_cpu _ I i) c Hi) as (x & E & _ & <- & _).
  destruct (ok_queued _ _ (inv_cpu _ I j) c Hj) as (y & E' & _ & <- & _). congruence.
Qed.

Lemma queue_ticks s i c :
  callout_inv s → c ∈ q (cpus s i) → is_Some (tab s !! c) ∧ 0 ≤ ticks_of s c.
Proof.
  intros I Hc. pose proof (ok_queued _ _ (inv_cpu _ I i) c Hc) as Hq.
  split; [|by eapply queued_ticks]. destruct Hq as (x & -> & _). by eexists.
Qed.

(** The record of a callout that was just configured. *)
Definition configured (i ticks : Z) (func : option F) (x y : callout F) : Prop :=
  is_active y = true ∧ c_func y = func ∧ c_cpuid y = i ∧ c_ticks_orig y = ticks ∧
  c_state y = c_state x.

Lemma set_ticks_spec s i c x crit ticks func mt :
  callout_inv s → mi_tmr s = Some mt → 0 < crit → tab s !! c = Some x → is_active x = false →
  0 < ticks → ticks + base_elapsed mt (cpus s i) < 2 ^ 32 →
  ∃ s', mdx_callout_set_ticks_locked crit i c ticks func s = Ok (MDX_OK, s') ∧
    callout_inv s' ∧ mi_tmr s' = mi_tmr s ∧
    dls s' i = dl_insert (c, base_elapsed mt (cpus s i) + ticks) (dls s i) ∧
    (∀ j, j ≠ i → cpus s' j = cpus s j ∧ dls s' j = dls s j) ∧
    (∃ y, tab s' !! c = Some y ∧ configured i ticks func x y) ∧
    (∀ k, k ≠ c → with_ticks 0 <$> tab s' !! k = with_ticks 0 <$> tab s !! k) ∧
    timer_after_set mt c ticks (cpus s i) (cpus s' i).
Proof.
  intros I Hm Hcr Hx Ha Ht Hov.
  set (x1 := {| c_state := c_state x; c_ticks := ticks; c_ticks_orig := ticks; c_func := func;
                c_flags := c_flags x; c_cpuid := i |}).
  set (s1 := upd c x1 s).
  assert (∀ j, c ∉ q (cpus s j)) as Hc by (intros j; by eapply inactive_not_queued).
  assert (∀ j k, k ∈ q (cpus s j) → tab s1 !! k = tab s !! k) as Hs1.
  { intros j k Hk. unfold s1. simpl. rewrite lookup_insert_ne; [done|]. intros ->. by apply (Hc j). }
  destruct (set_one_spec s1 i c x1 crit mt) as (s3 & t' & s2 & E & Hsame & Hout & Hpos & Et3 & Em3 &
    Ht' & Ej & Hperm & Hdl & Htm); try done.
  { unfold s1. simpl. by rewrite lookup_insert_eq. }
  { apply Hc. }
  { apply (ok_nodup _ _ (inv_cpu _ I i)). }
  { intros k Hk. unfold ticks_of. rewrite (Hs1 i k Hk). by eapply queue_ticks. }
  { apply (ok_ready _ _ (inv_cpu _ I i)). }
  { simpl. lia. }
  cbn [c_ticks x1] in Hdl, Htm.
  change (cpus s1) with (cpus s) in *.
  assert (dls s1 i = dls s i) as Ed1.
  { apply cpu_ok_ext; [apply I|done|apply Hs1]. }
  rewrite Ed1 in Hdl.
  pose proof (Hdl (with_flags (Z.lor (c_flags x) CALLOUT_FLAG_ACTIVE) x1)) as Hdl'.
  set (xf := with_ticks t' (with_flags (Z.lor (c_flags x) CALLOUT_FLAG_ACTIVE) x1)) in *.
  exists (upd c xf s3).
  assert (cpus (upd c xf s3) = cpus s3) as Ecf by done.
  assert (tab (upd c xf s3) = <[c:=xf]> (tab s2)) as Etf.
  { simpl. rewrite Et3. by rewrite insert_insert_eq. }
  assert (∀ k, k ≠ c → with_ticks 0 <$> tab (upd c xf s3) !! k = with_ticks 0 <$> tab s !! k) as Hk0.
  { intros k Hk. rewrite Etf, lookup_insert_ne by done. destruct Hsame as (_ & _ & ->).
    unfold s1. simpl. by rewrite lookup_insert_ne. }
  assert (dls (upd c xf s3) i = dl_insert (c, base_elapsed mt (cpus s i) + ticks) (dls s i)) as Hd.
  { rewrite <- Hdl'. unfold dls. rewrite Ecf. apply deadlines_ext. intros k _.
    unfold ticks_of. rewrite Etf. done. }
  assert (∀ j, j ≠ i → cpus (upd c xf s3) j = cpus s j ∧
    ∀ k, k ∈ q (cpus s j) → tab (upd c xf s3) !! k = tab s !! k) as Hoth.
  { intros j Hj. rewrite Ecf, Ej by done. split; [done|]. intros k Hk.
    rewrite Etf, lookup_insert_ne by (intros ->; by apply (Hc j)).
    rewrite Hout; [by apply (Hs1 j)|]. intros Hki. by eapply (other_cpu s i j). }
  split_and!.
  - unfold mdx_callout_set_ticks_locked, kassert. rewrite Hm, bool_decide_eq_true_2 by eauto.
    destruct (Z.ltb_spec 0 crit); [|lia]. cbn [mbind res_bind].
    rewrite (load_c_Some _ _ _ Hx). cbn [mbind res_bind]. rewrite Ha.
    destruct (Z.eqb_spec ticks 0); [lia|]. fold x1 s1. rewrite E. cbn [mbind res_bind].
    rewrite (load_c_Some s3 c (with_ticks t' x1)) by (by rewrite Et3, lookup_insert_eq). done.
  - constructor.
    + intros j. destruct (decide (j = i)) as [->|Hj].
      2:{ destruct (Hoth j Hj) as [E1 E2]. apply (cpu_ok_ext s); [apply I|done|done]. }
      constructor; rewrite ?Hd, ?Ecf.
      * rewrite Hperm. apply NoDup_cons. split; [apply Hc|apply (ok_nodup _ _ (inv_cpu _ I i))].
      * intros k Hk. rewrite Hperm in Hk. unfold queued. rewrite Etf.
        destruct (decide (k = c)) as [->|Hne].
        { rewrite lookup_insert_eq. exists xf. split_and!; [done|exact (active_set x)|done|simpl; lia]. }
        apply elem_of_cons in Hk as [?|Hk]; [done|]. rewrite lookup_insert_ne by done.
        destruct (ok_queued _ _ (inv_cpu _ I i) k Hk) as (y & Ey & Hy1 & Hy2 & _).
        rewrite <- (Hs1 i) in Ey by done. destruct (same_lookup _ _ _ _ Hsame Ey) as (t & Ek).
        exists (with_ticks t y). rewrite Ek. split_and!; [done|done|done|].
        specialize (Hpos k Hk). unfold ticks_of in Hpos. by rewrite Ek in Hpos.
      * rewrite dl_insert_perm. constructor; [simpl; lia|apply (ok_range _ _ (inv_cpu _ I i))].
      * destruct Htm as [_ Htm]. destruct (t_state (cpus s i)); destruct Htm as [-> _]; done.
    + intros k y Ek Hy. destruct (decide (k = c)) as [->|Hne].
      { rewrite Etf, lookup_insert_eq in Ek. injection Ek as <-. rewrite Ecf. change (c_cpuid xf) with i.
        rewrite Hperm. mem. }
      assert (∃ z, tab s !! k = Some z ∧ is_active y = is_active z ∧ c_cpuid y = c_cpuid z)
        as (z & Ez & Eza & Ezc).
      { rewrite Etf, lookup_insert_ne in Ek by done.
        destruct (same_active _ _ _ _ Hsame Ek) as (z & Ez & ?).
        unfold s1 in Ez. simpl in Ez. rewrite lookup_insert_ne in Ez by done. eauto. }
      rewrite Ezc. rewrite Eza in Hy. pose proof (inv_active _ I k z Ez Hy) as Hin.
      rewrite Ecf. destruct (decide (c_cpuid z = i)) as [Hj|Hj].
      { rewrite Hj in Hin |- *. rewrite Hperm. apply elem_of_cons. by right. }
      by rewrite Ej.
  - done.
  - done.
  - intros j Hj. destruct (Hoth j Hj) as [E1 E2]. split; [done|].
    apply cpu_ok_ext; [apply I|done|done].
  - exists xf. simpl. rewrite lookup_insert_eq. split; [done|]. split_and!; try done. exact (active_set x).
  - done.
  - exact Htm.
Qed.

(** ** Cancelling *)

Lemma next_in_app (l k : list K) c : c ∉ l → next_in (l ++ c :: k) c = head k.
Proof.
  induction l as [|a l IH]; intros Hc; simpl.
  - by rewrite decide_True.
  - rewrite decide_False by (intros ->; mem). apply IH. mem.
Qed.

Lemma qremove_app (l k : list K) c : NoDup (l ++ c :: k) → qremove c (l ++ c :: k) = l ++ k.
Proof.
  rewrite NoDup_middle. intros [Hc _]. unfold qremove. rewrite filter_app, filter_cons_False by auto.
  assert (∀ j : list K, c ∉ j → filter (λ x, x ≠ c) j = j) as Hf.
  { induction j as [|a j IH]; intros Hj; [done|].
    rewrite filter_cons_True by (intros ->; mem). f_equal. apply IH. mem. }
  rewrite elem_of_app in Hc. by rewrite !Hf by tauto.
Qed.

Lemma qremove_cons (l : list K) c : NoDup (c :: l) → qremove c (c :: l) = l.
Proof. apply (qremove_app [] l). Qed.

Lemma deadlines_shift s l acc acc' :
  acc = acc' → deadlines s l acc = deadlines s l acc'.
Proof. by intros ->. Qed.

(** The deadlines behind a removed entry. *)
Definition give_next s (c : K) (k : list K) : cst K F :=
  match k with
  | [] => s
  | n :: _ =>
    match tab s !! n with
    | Some y => upd n (with_ticks (u32 (c_ticks y + ticks_of s c)) y) s
    | None => s
    end
  end.

Lemma give_next_same s c k : same_but_ticks s (give_next s c k).
Proof.
  unfold give_next. destruct k as [|n k]; [done|]. destruct (tab s !! n) as [y|] eqn:E; [|done].
  by apply same_upd.
Qed.

Lemma give_next_pos s c k a : 0 ≤ ticks_of s a → 0 ≤ ticks_of (give_next s c k) a.
Proof.
  intros Ha. unfold give_next. destruct k as [|n k]; [done|].
  destruct (tab s !! n) as [y|] eqn:E; [|done]. destruct (decide (a = n)) as [->|Hne].
  - rewrite ticks_of_upd. apply wrap_range. lia.
  - by rewrite ticks_of_upd_ne.
Qed.

Lemma give_next_ticks s c k n acc :
  NoDup (c :: n :: k) → is_Some (tab s !! n) → 0 ≤ ticks_of s n → 0 ≤ ticks_of s c → 0 ≤ acc →
  acc + ticks_of s c + ticks_of s n < 2 ^ 32 →
  deadlines (give_next s c (n :: k)) (n :: k) acc = deadlines s (n :: k) (acc + ticks_of s c).
Proof.
  intros Hnd [y Ey] Hn Hc Hacc Hr. unfold give_next. rewrite Ey. cbn [deadlines].
  rewrite ticks_of_upd. cbn [c_ticks with_ticks].
  assert (ticks_of s n = c_ticks y) as En by (unfold ticks_of; by rewrite Ey). rewrite En in *.
  rewrite wrap_small by lia.
  replace (acc + (c_ticks y + ticks_of s c)) with (acc + ticks_of s c + c_ticks y) by lia. f_equal.
  apply deadlines_ext. intros k' Hk'. apply ticks_of_upd_ne. intros ->.
  apply NoDup_cons in Hnd as [_ Hnd]. apply NoDup_cons in Hnd as [? _]. done.
Qed.

Definition dl_remove (c : K) (l : list (K * Z)) : list (K * Z) := filter (λ p, p.1 ≠ c) l.

Lemma dl_remove_none s c l acc : c ∉ l → dl_remove c (deadlines s l acc) = deadlines s l acc.
Proof.
  revert acc. induction l as [|a l IH]; intros acc Hc; [done|]. simpl. unfold dl_remove.
  rewrite filter_cons_True by (simpl; intros ->; mem). f_equal. apply IH. mem.
Qed.

Lemma dl_remove_app s c l k acc :
  c ∉ l ++ k →
  dl_remove c (deadlines s (l ++ c :: k) acc) =
  deadlines s l acc ++ deadlines s k (acc + tsum s l + ticks_of s c).
Proof.
  intros Hc. rewrite deadlines_app. unfold dl_remove. rewrite filter_app. cbn [deadlines].
  rewrite filter_cons_False by (simpl; auto). f_equal; apply dl_remove_none; mem.
Qed.

Lemma dl_remove_Forall (P : K * Z → Prop) c (dl : list (K * Z)) :
  Forall P dl → Forall P (dl_remove c dl).
Proof. intros Hf. apply Forall_forall. intros p Hp. unfold dl_remove in Hp.
  apply list_elem_of_filter in Hp as [_ Hp]. rewrite Forall_forall in Hf. auto. Qed.

Lemma tsum_nonneg s l : (∀ c, c ∈ l → 0 ≤ ticks_of s c) → 0 ≤ tsum s l.
Proof.
  intros Hl. apply zsum_nonneg, Forall_fmap, Forall_forall. exact Hl.
Qed.

Lemma cancel_spec s c x :
  callout_inv s → tab s !! c = Some x → is_active x = true →
  let i := c_cpuid x in
  ∃ s', mdx_callout_cancel_locked c s = Ok (MDX_OK, s') ∧
    callout_inv s' ∧ mi_tmr s' = mi_tmr s ∧ dls s' i = dl_remove c (dls s i) ∧
    (∀ j, j ≠ i → cpus s' j = cpus s j ∧ dls s' j = dls s j) ∧
    (∃ y, tab s' !! c = Some y ∧ is_active y = false ∧ c_func y = c_func x ∧ c_ticks y = c_ticks x) ∧
    (∀ k, k ≠ c → with_ticks 0 <$> tab s' !! k = with_ticks 0 <$> tab s !! k) ∧
    t_state (cpus s' i) = t_state (cpus s i) ∧ t_saved (cpus s' i) = t_saved (cpus s i) ∧
    t_count (cpus s' i) = t_count (cpus s i) ∧ t_prog (cpus s' i) = t_prog (cpus s i).
Proof.
  intros I Hx Ha i. pose proof (inv_active _ I c x Hx Ha) as Hin. fold i in Hin.
  apply list_elem_of_split in Hin as (l & k & Eq).
  pose proof (inv_cpu _ I i) as [Hnd Hqu Hrg Hrd]. rewrite Eq in Hnd, Hqu.
  pose proof Hnd as [Hc Hnd']%NoDup_middle.
  set (xf := with_flags (Z.ldiff (c_flags x) CALLOUT_FLAG_ACTIVE) x).
  set (s1 := give_next s c k). pose proof (give_next_same s c k) as Hsame. fold s1 in Hsame.
  pose proof Hsame as (Em & Ecp & _).
  assert (Hs1 : ∀ a, a ∉ k → tab s1 !! a = tab s !! a).
  { intros a Hk. unfold s1, give_next. destruct k as [|n k]; [done|].
    destruct (tab s !! n); [|done]. simpl. rewrite lookup_insert_ne; [done|]. intros ->. mem. }
  set (s' := upd c xf (set_q i (l ++ k) s1)).
  assert (tab s' = <[c:=xf]> (tab s1)) as Et by done.
  assert (∀ j, j ≠ i → cpus s' j = cpus s j) as Ej.
  { intros j Hj. unfold s', set_q, set_cpu. simpl. rewrite fn_lookup_insert_ne by done. by rewrite Ecp. }
  assert (cpus s' i = {| q := l ++ k; t_state := t_state (cpus s i); t_saved := t_saved (cpus s i);
    t_count := t_count (cpus s i); t_prog := t_prog (cpus s i) |}) as Ei.
  { unfold s', set_q, set_cpu. simpl. rewrite fn_lookup_insert. by rewrite Ecp. }
  assert (∀ a, a ∈ l ++ c :: k → 0 ≤ ticks_of s a) as Hpos by (intros; by eapply queued_ticks, Hqu).
  assert (0 ≤ tsum s l) as Hl by (apply tsum_nonneg; intros; apply Hpos; mem).
  assert (dls s' i = dl_remove c (dls s i)) as Hd.
  { unfold dls. rewrite Ei, Eq. cbn [q]. rewrite dl_remove_app, deadlines_app by done.
    assert (∀ a, a ∈ l → ticks_of s' a = ticks_of s a) as Hla.
    { intros a Hal. unfold ticks_of. rewrite Et, lookup_insert_ne by (intros ->; mem).
      rewrite Hs1; [done|]. intros Hk. apply NoDup_app in Hnd' as (_ & Hd & _). by apply (Hd a). }
    assert (tsum s' l = tsum s l) as ->.
    { unfold tsum. f_equal. apply list_fmap_ext. intros ? a Hal. apply Hla.
      by eapply list_elem_of_lookup_2. }
    f_equal; [by apply deadlines_ext|].
    assert (deadlines s' k (0 + tsum s l) = deadlines s1 k (tsum s l)) as ->.
    { rewrite Z.add_0_l. apply deadlines_ext. intros a Hak. unfold ticks_of.
      rewrite Et, lookup_insert_ne; [done|]. intros ->. mem. }
    destruct k as [|n k]; [done|]. unfold s1. rewrite give_next_ticks; [done| | | | |done|].
    - by apply NoDup_app in Hnd as (_ & _ & ?).
    - destruct (Hqu n) as (y & -> & _); [mem|]. by eexists.
    - apply Hpos. mem.
    - apply Hpos. mem.
    - unfold dls in Hrg. rewrite Eq, deadlines_app, Forall_app in Hrg. destruct Hrg as [_ Hrg].
      cbn [deadlines] in Hrg. apply Forall_cons in Hrg as [_ Hrg]. apply Forall_cons in Hrg as [Hrg _].
      simpl in Hrg. lia. }
  exists s'. split_and!.
  - unfold mdx_callout_cancel_locked. rewrite (load_c_Some _ _ _ Hx). cbn [mbind res_bind].
    rewrite Ha. cbn [negb]. fold i. unfold next. rewrite Eq, next_in_app by mem.
    assert ((match head k with
       | Some n => y ← load_c s n; Ok (upd n (with_ticks (u32 (c_ticks y + c_ticks x)) y) s)
       | None => Ok s
       end) = Ok s1) as ->.
    { unfold s1, give_next. destruct k as [|n k]; [done|]. simpl.
      destruct (Hqu n) as (y & Ey & _); [mem|]. rewrite (load_c_Some _ _ _ Ey), Ey.
      unfold ticks_of. by rewrite Hx. }
    cbn [mbind res_bind]. rewrite Ecp, Eq, qremove_app by done.
    rewrite (load_c_Some _ c x); [done|]. simpl. rewrite Hs1; [done|mem].
  - constructor.
    + intros j. destruct (decide (j = i)) as [->|Hj].
      2:{ apply (cpu_ok_ext s); [apply I|by apply Ej|]. intros a Haj.
          rewrite Et, lookup_insert_ne.
          - apply Hs1. intros Hk. eapply (other_cpu s i j); [done| |done|done]. rewrite Eq. mem.
          - intros <-. eapply (other_cpu s i j); [done| |done|done]. rewrite Eq. mem. }
      constructor; rewrite ?Hd, ?Ei; cbn [q t_state].
      * done.
      * intros a Hak. destruct (Hqu a) as (y & Ey & Hy1 & Hy2 & Hy3); [mem|].
        destruct (same_lookup _ _ _ _ Hsame Ey) as (t & Ek). unfold queued.
        rewrite Et, lookup_insert_ne by (intros ->; mem). exists (with_ticks t y).
        split_and!; [done|done|done|]. simpl.
        assert (0 ≤ ticks_of s1 a) as Hsa by (apply give_next_pos, Hpos; mem).
        unfold ticks_of in Hsa. by rewrite Ek in Hsa.
      * by apply dl_remove_Forall.
      * intros Hr. rewrite Eq in Hrd. specialize (Hrd Hr). by destruct l.
    + intros a y Ea Hy. destruct (decide (a = c)) as [->|Hne].
      { rewrite Et, lookup_insert_eq in Ea. injection Ea as <-.
        by rewrite (active_clear _ (c_flags x)) in Hy. }
      rewrite Et, lookup_insert_ne in Ea by done.
      destruct (same_active _ _ _ _ Hsame Ea) as (z & Ez & Eza & ->). rewrite Eza in Hy.
      pose proof (inv_active _ I a z Ez Hy) as Hin.
      destruct (decide (c_cpuid z = i)) as [Hj|Hj]; [|by rewrite Ej].
      rewrite Hj, Eq in Hin. rewrite Hj, Ei. cbn [q]. mem.
  - done.
  - done.
  - intros j Hj. split; [by apply Ej|]. apply cpu_ok_ext; [apply I|by apply Ej|].
    intros a Haj. rewrite Et, lookup_insert_ne.
    + apply Hs1. intros Hk. eapply (other_cpu s i j); [done| |done|done]. rewrite Eq. mem.
    + intros <-. eapply (other_cpu s i j); [done| |done|done]. rewrite Eq. mem.
  - exists xf. rewrite Et, lookup_insert_eq. split_and!; [done| |done|done].
    by apply (active_clear _ (c_flags x)).
  - intros a Hne. rewrite Et, lookup_insert_ne by done. apply Hsame.
  - by rewrite Ei. 
  - by rewrite Ei.
  - by rewrite Ei.
  - by rewrite Ei.
Qed.
End Deadlines.
