(* ===== verification/CalloutInterrupt.v ===== *)
(** * Callouts: the timer interrupt

    For callbacks that do not configure or cancel callouts, the handler runs
    exactly the callbacks that are due, in the order of their deadlines, and
    re-bases the rest.  The theorems at the end show what the code
    guarantees; CalloutBugs shows what happens with other callbacks. *)

From S2P Require Import Prelude Callout CalloutProofs.
Local Open Scope Z_scope.

Section Expire.
Context {K F : Type} `{Countable K}.
Implicit Types (s : cst K F) (c : K).

(** The effect of the handler's loop on the callout state. *)
Fixpoint expire (i : Z) (l : list K) (e : Z) s : list K * cst K F :=
  match l with
  | [] => ([], s)
  | c :: l =>
    match tab s !! c with
    | None => ([], s)
    | Some x =>
      if c_ticks x <=? e then
        let '(fs, s') := expire i l (e - c_ticks x) (fire i c x s) in (c :: fs, s')
      else ([], upd c (with_ticks (c_ticks x - e) x) s)
    end
  end.

Lemma expire_incl i l e s a : a ∈ (expire i l e s).1 → a ∈ l.
Proof.
  revert e s. induction l as [|c l IH]; intros e s Ha; simpl in Ha; [done|].
  destruct (tab s !! c) as [x|]; [|by apply elem_of_nil in Ha].
  destruct (c_ticks x <=? e); [|by apply elem_of_nil in Ha].
  destruct (expire i l _ _) as [fs s'] eqn:E. simpl in Ha. apply elem_of_cons in Ha as [->|Ha]; [mem|].
  apply elem_of_cons. right. eapply IH. by rewrite E.
Qed.

Definition shift (e : Z) (p : K * Z) : K * Z := (p.1, p.2 - e).

Lemma deadlines_sub s l acc e : deadlines s l (acc - e) = shift e <$> deadlines s l acc.
Proof.
  revert acc. induction l as [|c l IH]; intros acc; [done|]. simpl. unfold shift at 1. simpl.
  replace (acc - e + ticks_of s c) with (acc + ticks_of s c - e) by lia. by rewrite IH.
Qed.

Lemma filter_all {A} (P : A → Prop) `{∀ x, Decision (P x)} l : Forall P l → filter P l = l.
Proof. induction 1; [done|]. rewrite filter_cons_True by done. by f_equal. Qed.

Lemma filter_none {A} (P : A → Prop) `{∀ x, Decision (P x)} l :
  Forall (λ x, ¬ P x) l → filter P l = [].
Proof. induction 1; [done|]. by rewrite filter_cons_False. Qed.

Definition fired (x : callout F) : callout F :=
  {| c_state := CALLOUT_STATE_FIRED; c_ticks := 0; c_ticks_orig := c_ticks_orig x;
     c_func := c_func x; c_flags := Z.ldiff (c_flags x) CALLOUT_FLAG_ACTIVE;
     c_cpuid := c_cpuid x |}.

Lemma fire_cpu i c x s l :
  q (cpus s i) = c :: l → NoDup (c :: l) →
  cpus (fire i c x s) = <[i := {| q := l; t_state := t_state (cpus s i);
    t_saved := t_saved (cpus s i); t_count := t_count (cpus s i);
    t_prog := t_prog (cpus s i) |}]> (cpus s).
Proof. intros E Hnd. unfold fire, set_q, set_cpu. simpl. by rewrite E, qremove_cons. Qed.

Lemma fire_tab i c x s : tab (fire i c x s) = <[c := fired x]> (tab s).
Proof. done. Qed.

Lemma fire_inv i c x s l :
  callout_inv s → q (cpus s i) = c :: l → tab s !! c = Some x → t_state (cpus s i) ≠ MI_TIMER_STATE_READY →
  callout_inv (fire i c x s).
Proof.
  intros I Eq Ex Hst. pose proof (ok_nodup _ _ (inv_cpu _ I i)) as Hnd. rewrite Eq in Hnd.
  pose proof (fire_cpu i c x s l Eq Hnd) as Ec. pose proof Hnd as [Hc Hndl]%NoDup_cons.
  assert (is_active (fired x) = false) as Hf by (by apply (active_clear _ (c_flags x))).
  constructor.
  - intros j. destruct (decide (j = i)) as [->|Hj].
    2:{ apply (cpu_ok_ext s); [apply I|by rewrite Ec, fn_lookup_insert_ne|].
        intros a Ha. rewrite fire_tab, lookup_insert_ne; [done|]. intros <-.
        eapply (other_cpu s i j); [done| |done|done]. rewrite Eq. mem. }
    assert (∀ a, a ∈ l → queued s i a) as Hqu.
    { intros a Ha. apply (ok_queued _ _ (inv_cpu _ I i)). rewrite Eq. mem. }
    constructor; unfold dls; rewrite Ec, fn_lookup_insert; cbn [q t_state].
    + done.
    + intros a Ha. destruct (Hqu a Ha) as (y & Ey & Hy). exists y.
      rewrite fire_tab, lookup_insert_ne by (intros ->; done). done.
    + pose proof (ok_range _ _ (inv_cpu _ I i)) as Hr. unfold dls in Hr. rewrite Eq in Hr.
      cbn [deadlines] in Hr. apply Forall_cons in Hr as [_ Hr].
      assert (0 ≤ ticks_of s c) as Hc0.
      { eapply queued_ticks, (ok_queued _ _ (inv_cpu _ I i)). rewrite Eq. mem. }
      replace (deadlines (fire i c x s) l 0) with (shift (ticks_of s c) <$> deadlines s l (0 + ticks_of s c)).
      2:{ rewrite <- deadlines_sub. replace (0 + ticks_of s c - ticks_of s c) with 0 by lia.
          apply deadlines_ext. intros a Ha. unfold ticks_of. rewrite fire_tab, lookup_insert_ne; [done|].
          by intros ->. }
      apply Forall_fmap. eapply Forall_impl; [exact Hr|]. unfold compose. simpl. lia.
    + done.
  - intros a y Ea Hy. rewrite fire_tab in Ea. destruct (decide (a = c)) as [->|Hne].
    { rewrite lookup_insert_eq in Ea. injection Ea as <-. congruence. }
    rewrite lookup_insert_ne in Ea by done. pose proof (inv_active _ I a y Ea Hy) as Hin.
    rewrite Ec. destruct (decide (c_cpuid y = i)) as [Hj|Hj].
    + rewrite Hj, Eq in Hin. rewrite Hj, fn_lookup_insert. cbn [q]. mem.
    + by rewrite fn_lookup_insert_ne.
Qed.

(** Less time left for the first callout. *)
Lemma upd_head_inv i c x s l t :
  callout_inv s → q (cpus s i) = c :: l → tab s !! c = Some x → 0 ≤ t ≤ c_ticks x →
  callout_inv (upd c (with_ticks t x) s) ∧
  deadlines (upd c (with_ticks t x) s) (c :: l) 0 = shift (c_ticks x - t) <$> dls s i.
Proof.
  intros I Eq Ex Ht. pose proof (ok_nodup _ _ (inv_cpu _ I i)) as Hnd. rewrite Eq in Hnd.
  pose proof Hnd as [Hc Hndl]%NoDup_cons.
  assert (ticks_of s c = c_ticks x) as Et by (unfold ticks_of; by rewrite Ex).
  assert (deadlines (upd c (with_ticks t x) s) (c :: l) 0 = shift (c_ticks x - t) <$> dls s i) as Ed.
  { unfold dls. rewrite Eq. cbn [deadlines fmap list_fmap]. unfold shift at 1. cbn [fst snd].
    rewrite ticks_of_upd, Et. cbn [c_ticks with_ticks].
    replace (0 + c_ticks x - (c_ticks x - t)) with (0 + t) by lia. f_equal.
    rewrite <- deadlines_sub. replace (0 + c_ticks x - (c_ticks x - t)) with (0 + t) by lia.
    apply deadlines_ext. intros a Ha. apply ticks_of_upd_ne. by intros ->. }
  split; [|exact Ed].
  constructor.
  - intros j. destruct (decide (j = i)) as [->|Hj].
    2:{ apply (cpu_ok_ext s); [apply I|done|]. intros a Ha. simpl. rewrite lookup_insert_ne; [done|].
        intros <-. eapply (other_cpu s i j); [done| |done|done]. rewrite Eq. mem. }
    pose proof (inv_cpu _ I i) as [_ Hq Hr Hrd]. constructor; change (cpus (upd c _ s)) with (cpus s).
    + by rewrite Eq.
    + intros a Ha. unfold queued. simpl. destruct (decide (a = c)) as [->|Hne].
      * rewrite lookup_insert_eq. destruct (Hq c Ha) as (y & Ey & Hy). assert (y = x) as -> by congruence.
        exists (with_ticks t x). split_and!; try apply Hy; [done|simpl; lia].
      * rewrite lookup_insert_ne by done. by apply Hq.
    + unfold dls. change (cpus (upd c _ s)) with (cpus s). rewrite Eq, Ed.
      apply Forall_fmap. eapply Forall_impl; [exact Hr|]. unfold compose. simpl. lia.
    + done.
  - intros a y Ea Hy. simpl in Ea. destruct (decide (a = c)) as [->|Hne].
    + rewrite lookup_insert_eq in Ea. injection Ea as <-. by apply (inv_active _ I c x).
    + rewrite lookup_insert_ne in Ea by done. by apply (inv_active _ I a y).
Qed.

Definition due (e : Z) (p : K * Z) : Prop := p.2 ≤ e.
#[export] Instance due_dec e p : Decision (due e p).
Proof. unfold due. apply _. Defined.

(** Firing the first callout leaves the deadlines of the others. *)
Lemma fire_dls i c x s l :
  callout_inv s → q (cpus s i) = c :: l → tab s !! c = Some x →
  dls s i = (c, c_ticks x) :: deadlines s l (c_ticks x) ∧
  dls (fire i c x s) i = shift (c_ticks x) <$> deadlines s l (c_ticks x).
Proof.
  intros I Eq Ex. pose proof (ok_nodup _ _ (inv_cpu _ I i)) as Hnd. rewrite Eq in Hnd.
  pose proof Hnd as [Hc Hndl]%NoDup_cons. split.
  - unfold dls. rewrite Eq. cbn [deadlines]. unfold ticks_of at 1 2. rewrite Ex. simpl. done.
  - unfold dls. rewrite (fire_cpu _ _ _ _ _ Eq Hnd), fn_lookup_insert. cbn [q].
    rewrite <- deadlines_sub, Z.sub_diag.
    apply deadlines_ext. intros a Ha. unfold ticks_of. rewrite fire_tab, lookup_insert_ne; [done|].
    by intros ->.
Qed.

Lemma filter_shift (e t : Z) (l : list (K * Z)) :
  filter (due (e - t)) (shift t <$> l) = shift t <$> filter (due e) l ∧
  filter (λ p, ¬ due (e - t) p) (shift t <$> l) = shift t <$> filter (λ p, ¬ due e p) l.
Proof.
  induction l as [|p l [IH1 IH2]]; [done|]. cbn [fmap list_fmap].
  destruct (decide (due e p)) as [Hd|Hd].
  - assert (due (e - t) (shift t p)) as Hd' by (unfold due, shift in *; simpl; lia).
    rewrite !filter_cons_True, !filter_cons_False by auto. simpl. by rewrite IH1, IH2.
  - assert (¬ due (e - t) (shift t p)) as Hd' by (unfold due, shift in *; simpl; lia).
    rewrite filter_cons_False, (filter_cons_True (λ p, ¬ due (e - t) p)) by done.
    rewrite filter_cons_False, (filter_cons_True (λ p, ¬ due e p)) by done.
    simpl. by rewrite IH1, IH2.
Qed.

Lemma expire_spec i l e s :
  callout_inv s → q (cpus s i) = l → 0 ≤ e → t_state (cpus s i) ≠ MI_TIMER_STATE_READY →
  ∃ s', expire i l e s = ((filter (due e) (dls s i)).*1, s') ∧ callout_inv s' ∧
    mi_tmr s' = mi_tmr s ∧ dls s' i = shift e <$> filter (λ p, ¬ due e p) (dls s i) ∧
    (∀ j, j ≠ i → cpus s' j = cpus s j ∧ dls s' j = dls s j) ∧
    (∀ c x, c ∈ (filter (due e) (dls s i)).*1 → tab s !! c = Some x → tab s' !! c = Some (fired x)) ∧
    (∀ c, c ∉ l → tab s' !! c = tab s !! c) ∧
    (∀ c, c ∉ (filter (due e) (dls s i)).*1 → with_ticks 0 <$> tab s' !! c = with_ticks 0 <$> tab s !! c) ∧
    t_state (cpus s' i) = t_state (cpus s i) ∧ t_saved (cpus s' i) = t_saved (cpus s i) ∧
    t_count (cpus s' i) = t_count (cpus s i) ∧ t_prog (cpus s' i) = t_prog (cpus s i).
Proof.
  revert e s. induction l as [|c l IH]; intros e s I Eq He Hst.
  - exists s. unfold dls. rewrite Eq. simpl. split_and!; try done. by intros c x ?%elem_of_nil.
  - assert (∃ x, tab s !! c = Some x ∧ 0 ≤ c_ticks x) as (x & Ex & Hx).
    { destruct (ok_queued _ _ (inv_cpu _ I i) c) as (x & ? & _ & _ & ?); [rewrite Eq; mem|eauto]. }
    pose proof (ok_nodup _ _ (inv_cpu _ I i)) as Hnd. rewrite Eq in Hnd.
    destruct (fire_dls i c x s l I Eq Ex) as [Ed Ef].
    cbn [expire]. rewrite Ex. destruct (Z.leb_spec (c_ticks x) e) as [Hle|Hgt].
    + pose proof (fire_cpu _ _ x _ _ Eq Hnd) as Ec.
      destruct (IH (e - c_ticks x) (fire i c x s)) as
        (s' & E & I' & Em & Ed' & Ej & Hfired & Hfr & Hkept & E1 & E2 & E3 & E4).
      { by eapply fire_inv. }
      { by rewrite Ec, fn_lookup_insert. }
      { lia. }
      { by rewrite Ec, fn_lookup_insert. }
      rewrite Ef in E, Ed', Hfired, Hkept. rewrite !(proj1 (filter_shift _ _ _)) in E, Hfired, Hkept.
      rewrite (proj2 (filter_shift _ _ _)) in Ed'.
      assert (∀ dl : list (K * Z), (shift (c_ticks x) <$> dl).*1 = dl.*1) as Efst.
      { intros dl. rewrite <- list_fmap_compose. done. }
      rewrite Efst in E, Hfired, Hkept.
      exists s'. rewrite E, Ed, filter_cons_True by done.
      rewrite (filter_cons_False (λ p, ¬ due e p)) by auto.
      split_and!; [done|done|done| | | | | | | | |].
      * rewrite Ed', <- list_fmap_compose. apply list_fmap_ext. intros _ p _.
        unfold shift, compose. simpl. f_equal. lia.
      * intros j Hj. destruct (Ej j Hj) as [-> ->].
        rewrite Ec, fn_lookup_insert_ne by done. split; [done|].
        apply cpu_ok_ext; [apply I|by rewrite Ec, fn_lookup_insert_ne|]. intros a Ha.
        rewrite fire_tab, lookup_insert_ne; [done|]. intros <-.
        eapply (other_cpu s i j); [done| |done|done]. rewrite Eq. mem.
      * intros a y Ha Ey. cbn [fmap list_fmap fst] in Ha. destruct (decide (a = c)) as [->|Hne].
        { assert (y = x) as -> by congruence. apply NoDup_cons in Hnd as [Hc _].
          rewrite Hfr, fire_tab, lookup_insert_eq by done. done. }
        apply elem_of_cons in Ha as [?|Ha]; [done|].
        apply (Hfired a y Ha). rewrite fire_tab. by rewrite lookup_insert_ne.
      * intros a Ha. rewrite Hfr by mem. rewrite fire_tab, lookup_insert_ne; [done|].
        intros <-. mem.
      * intros a Ha. cbn [fmap list_fmap fst] in Ha. apply not_elem_of_cons in Ha as [Hne Ha].
        rewrite Hkept by done. by rewrite fire_tab, lookup_insert_ne.
      * rewrite E1, Ec, fn_lookup_insert. done.
      * rewrite E2, Ec, fn_lookup_insert. done.
      * rewrite E3, Ec, fn_lookup_insert. done.
      * rewrite E4, Ec, fn_lookup_insert. done.
    + destruct (upd_head_inv i c x s l (c_ticks x - e) I Eq Ex) as [I' Ed']; [lia|].
      replace (c_ticks x - (c_ticks x - e)) with e in Ed' by lia.
      assert (Forall (λ p, ¬ due e p) (dls s i)) as Hall.
      { apply Forall_forall. intros p Hp. rewrite Ed in Hp. unfold due.
        apply elem_of_cons in Hp as [->|Hp]; [simpl; lia|].
        apply deadlines_ge in Hp; [lia|]. intros a Ha. eapply (queue_ticks s i); [done|].
        rewrite Eq. apply elem_of_cons. by right. }
      eexists. split; [rewrite (filter_none (due e)) by exact Hall; reflexivity|].
      rewrite (filter_none (due e)), (filter_all (λ p, ¬ due e p)) by exact Hall.
      split_and!; try done.
      * unfold dls at 1. change (cpus (upd c _ s)) with (cpus s). by rewrite Eq.
      * intros j Hj. split; [done|]. apply cpu_ok_ext; [apply I|done|]. intros a Ha. simpl.
        rewrite lookup_insert_ne; [done|]. intros <-.
        eapply (other_cpu s i j); [done| |done|done]. rewrite Eq. mem.
      * intros a y Ha. by apply elem_of_nil in Ha.
      * intros a Ha. simpl. rewrite lookup_insert_ne; [done|]. intros <-. mem.
      * intros a _. apply (same_upd s s c x _ (same_refl s) Ex).
Qed.
End Expire.

(** ** The handler *)

Section Handler.
Context {K F W : Type} `{Countable K} `{!World K F W}.

(** A callback that neither looks at the callouts nor changes them. *)
Definition indep (f : F) : Prop :=
  ∀ s w, w_call f (put_cst s w) = (w' ← w_call f w; Ok (put_cst s w')).

(** The callbacks one after the other. *)
Fixpoint run_calls (fs : list F) (w : W) : res W :=
  match fs with
  | [] => Ok w
  | f :: fs => w ← w_call f w; run_calls fs w
  end.

Definition funcs (s : cst K F) (l : list K) : list F := omap (λ c, tab s !! c ≫= c_func) l.

Lemma bind_Ok {A} (m : res A) : (x ← m; Ok x) = m.
Proof. by destruct m. Qed.

Lemma bind_assoc {A B C} (m : res A) (f : A → res B) (g : B → res C) :
  (y ← (x ← m; f x); g y) = (x ← m; y ← f x; g y).
Proof. by destruct m. Qed.

Lemma run_calls_put fs s w :
  Forall indep fs → run_calls fs (put_cst s w) = (w' ← run_calls fs w; Ok (put_cst s w')).
Proof.
  intros Hf. revert w. induction Hf as [|f fs Hf Hfs IH]; intros w; [done|].
  cbn [run_calls]. rewrite Hf, !bind_assoc. destruct (w_call f w); [|done].
  cbn [mbind res_bind]. apply IH.
Qed.

Lemma funcs_ext s s' l :
  (∀ c, c ∈ l → tab s' !! c = tab s !! c) → funcs s' l = funcs s l.
Proof.
  intros He. unfold funcs. induction l as [|c l IH]; [done|]. cbn [omap list_omap].
  rewrite (He c) by mem. rewrite IH; [done|]. intros. apply He. mem.
Qed.

Lemma callback_loop_spec fuel i l e (w : W) :
  (length l < fuel)%nat → q (cpus (get_cst w) i) = l → NoDup l →
  (∀ c, c ∈ l → is_Some (tab (get_cst w) !! c)) →
  Forall indep (funcs (get_cst w) l) →
  callback_loop fuel i (head l) e w =
    (w' ← run_calls (funcs (get_cst w) (expire i l e (get_cst w)).1) w;
     Ok (put_cst (expire i l e (get_cst w)).2 w')).
Proof.
  revert l e w. induction fuel as [|fuel IH]; intros l e w Hf Eq Hnd Hl Hi; [lia|].
  destruct l as [|c l]; cbn [callback_loop head expire].
  - cbn [fst snd funcs omap list_omap run_calls mbind res_bind]. by rewrite put_get.
  - destruct (Hl c) as [x Ex]; [mem|]. unfold load_c. rewrite Ex. cbn [mbind res_bind].
    unfold next. rewrite Eq. cbn [next_in]. rewrite decide_True by done.
    destruct (c_ticks x <=? e).
    2:{ cbn [fst snd funcs omap list_omap run_calls mbind res_bind]. done. }
    set (s1 := fire i c x (get_cst w)).
    assert (∀ w', get_cst w' = s1 → callback_loop fuel i (head l) (e - c_ticks x) w' =
      (w'' ← run_calls (funcs (get_cst w) (expire i l (e - c_ticks x) s1).1) w';
       Ok (put_cst (expire i l (e - c_ticks x) s1).2 w''))) as IH'.
    { intros w' Ew. apply NoDup_cons in Hnd as [Hc Hnd].
      assert (∀ a, a ∈ l → tab s1 !! a = tab (get_cst w) !! a) as Ht.
      { intros a Ha. unfold s1. rewrite fire_tab, lookup_insert_ne; [done|]. by intros ->. }
      rewrite IH; rewrite ?Ew.
      - f_equal. f_equal. apply funcs_ext. intros a Ha. apply Ht.
        by apply expire_incl in Ha.
      - simpl in Hf. lia.
      - unfold s1. erewrite fire_cpu; [|exact Eq|by apply NoDup_cons]. by rewrite fn_lookup_insert.
      - done.
      - intros a Ha. rewrite Ht by done. apply Hl. mem.
      - rewrite (funcs_ext (get_cst w)) by exact Ht. unfold funcs in Hi. cbn [omap list_omap] in Hi.
        destruct (tab (get_cst w) !! c ≫= c_func); [by apply Forall_cons in Hi as [_ ?]|done]. }
    destruct (expire i l (e - c_ticks x) s1) as [fs s'] eqn:E. cbn [fst snd] in *.
    unfold funcs at 1. cbn [omap list_omap]. rewrite Ex. cbn [mbind option_bind].
    fold (funcs (get_cst w) fs).
    assert (∀ w0, (w'' ← run_calls (funcs (get_cst w) fs) (put_cst s1 w0); Ok (put_cst s' w'')) =
                  (w'' ← run_calls (funcs (get_cst w) fs) w0; Ok (put_cst s' w''))) as Hput.
    { intros w0. rewrite run_calls_put.
      - rewrite bind_assoc. destruct (run_calls _ w0); [|done]. cbn [mbind res_bind].
        by rewrite put_put.
      - apply Forall_forall. intros f Hin. unfold funcs in Hin.
        apply list_elem_of_omap in Hin as (a & Ha & Ea). rewrite Forall_forall in Hi. apply Hi.
        unfold funcs. apply list_elem_of_omap. exists a. split; [|done].
        assert (fs = (expire i l (e - c_ticks x) s1).1) as Efs by (by rewrite E).
        rewrite Efs in Ha. apply expire_incl in Ha. apply elem_of_cons. by right. }
    destruct (c_func x) as [f|] eqn:Ef.
    + assert (indep f) as Hfi.
      { unfold funcs in Hi. cbn [omap list_omap] in Hi. rewrite Ex in Hi. cbn [mbind option_bind] in Hi.
        rewrite Ef in Hi. by apply Forall_cons in Hi as [? _]. }
      rewrite Hfi, bind_assoc. cbn [run_calls]. rewrite bind_assoc.
      destruct (w_call f w) as [w1|]; [|done]. cbn [mbind res_bind].
      rewrite IH' by apply get_put. apply Hput.
    + cbn [mbind res_bind]. rewrite IH' by apply get_put. apply Hput.
Qed.
End Handler.

Section Callback.
Context {K F W : Type} `{Countable K} `{!World K F W}.

(** Changing the timer of a CPU leaves its deadlines alone. *)
Lemma timer_upd_inv (s s' : cst K F) i :
  callout_inv s → tab s' = tab s → (∀ j, j ≠ i → cpus s' j = cpus s j) →
  q (cpus s' i) = q (cpus s i) →
  (t_state (cpus s' i) = MI_TIMER_STATE_READY → q (cpus s i) = []) →
  callout_inv s' ∧ ∀ j, dls s' j = dls s j.
Proof.
  intros I Et Ej Eq Hrd.
  assert (∀ j, q (cpus s' j) = q (cpus s j)) as Hq.
  { intros j. destruct (decide (j = i)) as [->|Hj]; [done|by rewrite Ej]. }
  assert (∀ j, dls s' j = dls s j) as Hd.
  { intros j. unfold dls. rewrite Hq. apply deadlines_ext. intros c _. unfold ticks_of. by rewrite Et. }
  split; [|done]. constructor.
  - intros j. pose proof (inv_cpu _ I j) as [H1 H2 H3 H4]. constructor; rewrite ?Hq, ?Hd; try done.
    + intros c Hc. unfold queued. rewrite Et. by apply H2.
    + intros Hst. destruct (decide (j = i)) as [->|Hj]; [auto|]. rewrite Ej in Hst by done. auto.
  - intros c x. rewrite Hq, Et. apply (inv_active _ I).
Qed.

(** The timer when the handler returns. *)
Definition timer_after_irq (mt : mi_timer) (rest : list (K * Z)) (p p' : cpu K) : Prop :=
  t_saved p' = t_count p ∧ t_count p' = t_count p ∧
  match rest with
  | [] => t_state p' = MI_TIMER_STATE_READY ∧ t_prog p' = None
  | (_, d) :: _ => t_state p' = MI_TIMER_STATE_RUNNING ∧ t_prog p' = started mt d
  end.

Lemma elapsed_nonneg (mt : mi_timer) (p : cpu K) : 0 ≤ elapsed_of mt p.
Proof. unfold elapsed_of. zcase; [lia|lia|]. apply wrap_range. lia. Qed.

Lemma dls_head (s : cst K F) i c l :
  q (cpus s i) = c :: l → dls s i = (c, ticks_of s c) :: deadlines s l (ticks_of s c).
Proof. intros E. unfold dls. rewrite E. done. Qed.

(** The restart of the timer at the end of the handler. *)
Definition irq_end (mt : mi_timer) (i : Z) (s : cst K F) : cst K F :=
  match first i s with
  | Some c => set_prog i (started mt (ticks_of s c)) (set_tstate i MI_TIMER_STATE_RUNNING s)
  | None => set_prog i None (set_tstate i MI_TIMER_STATE_READY s)
  end.

Lemma irq_end_eq mt i (s : cst K F) (w : W) :
  callout_inv s → mi_tmr s = Some mt → t_state (cpus s i) = MI_TIMER_STATE_EXCEPTION →
  (match first i s with
   | Some c =>
     match t_state (cpus s i) with
     | MI_TIMER_STATE_EXCEPTION =>
       x ← load_c s c;
       s ← mi_tmr_start i (c_ticks x) (set_tstate i MI_TIMER_STATE_RUNNING s);
       Ok (MDX_OK, put_cst s w)
     | _ => Ok (MDX_OK, w)
     end
   | None => Ok (MDX_OK, put_cst (set_prog i None (set_tstate i MI_TIMER_STATE_READY s)) w)
   end) = Ok (MDX_OK, put_cst (irq_end mt i s) w).
Proof.
  intros I Hm Hst. unfold irq_end. rewrite Hst. destruct (first i s) as [c|] eqn:Ef; [|done].
  assert (is_Some (tab s !! c)) as [x Ex].
  { unfold first in Ef. destruct (ok_queued _ _ (inv_cpu _ I i) c) as (x & -> & _); [|by eexists].
    destruct (q (cpus s i)); [done|]. injection Ef as ->. mem. }
  rewrite (load_c_Some _ _ _ Ex). cbn [mbind res_bind].
  rewrite (mi_tmr_start_eq mt) by done. unfold ticks_of. by rewrite Ex.
Qed.

Lemma irq_end_spec mt i (s : cst K F) :
  callout_inv s → t_state (cpus s i) = MI_TIMER_STATE_EXCEPTION →
  t_saved (cpus s i) = t_count (cpus s i) →
  let s' := irq_end mt i s in
  callout_inv s' ∧ mi_tmr s' = mi_tmr s ∧ tab s' = tab s ∧ (∀ j, dls s' j = dls s j) ∧
  (∀ j, j ≠ i → cpus s' j = cpus s j) ∧ timer_after_irq mt (dls s i) (cpus s i) (cpus s' i).
Proof.
  intros I Hst Hsv s'.
  assert (cpus s' i = {| q := q (cpus s i);
    t_state := if decide (q (cpus s i) = []) then MI_TIMER_STATE_READY else MI_TIMER_STATE_RUNNING;
    t_saved := t_saved (cpus s i); t_count := t_count (cpus s i);
    t_prog := match q (cpus s i) with [] => None | c :: _ => started mt (ticks_of s c) end |}) as Ei.
  { unfold s', irq_end, first. destruct (q (cpus s i)) eqn:Eq; cbn [head];
      unfold set_prog, set_tstate, set_cpu; cbn [cpus]; rewrite !fn_lookup_insert;
      cbn [q t_state t_saved t_count t_prog]; by rewrite Eq. }
  assert (∀ j, j ≠ i → cpus s' j = cpus s j) as Ej.
  { intros j Hj. unfold s', irq_end, set_prog, set_tstate, set_cpu.
    destruct (first i s); cbn [cpus]; by rewrite !fn_lookup_insert_ne. }
  assert (tab s' = tab s ∧ mi_tmr s' = mi_tmr s) as [Et Em].
  { unfold s', irq_end. by destruct (first i s). }
  destruct (timer_upd_inv s s' i) as [I' Hd]; try done; rewrite ?Ei; [done| |].
  { cbn [t_state q]. by case_decide. }
  unfold timer_after_irq. cbn [t_state t_saved t_count t_prog].
  destruct (q (cpus s i)) as [|c l] eqn:Eq.
  - unfold dls. rewrite Eq. by split_and!.
  - rewrite (dls_head s i c l Eq). by split_and!.
Qed.

(** ** The handler on passive callbacks *)

Lemma callback_spec fuel i mt (w : W) :
  let s := get_cst w in let e := elapsed_of mt (cpus s i) in
  let due_now := (filter (due e) (dls s i)).*1 in
  let rest := shift e <$> filter (λ p, ¬ due e p) (dls s i) in
  callout_inv s → mi_tmr s = Some mt → 0 < w_crit w → q (cpus s i) ≠ [] →
  Forall indep (funcs s (q (cpus s i))) → (length (q (cpus s i)) < fuel)%nat →
  ∃ s', mdx_callout_callback fuel i (mt_id mt) w =
      (w' ← run_calls (funcs s due_now) w; Ok (MDX_OK, put_cst s' w')) ∧
    callout_inv s' ∧ mi_tmr s' = mi_tmr s ∧ dls s' i = rest ∧
    (∀ j, j ≠ i → cpus s' j = cpus s j ∧ dls s' j = dls s j) ∧
    (∀ c x, c ∈ due_now → tab s !! c = Some x → tab s' !! c = Some (fired x)) ∧
    (∀ c, c ∉ due_now → with_ticks 0 <$> tab s' !! c = with_ticks 0 <$> tab s !! c) ∧
    timer_after_irq mt rest (cpus s i) (cpus s' i).
Proof.
  intros s e due_now rest I Hm Hcr Hne Hin Hfu.
  destruct (q (cpus s i)) as [|c0 l0] eqn:Eq; [done|].
  set (s1 := set_tstate i MI_TIMER_STATE_EXCEPTION (set_saved i (t_count (cpus s i)) s)).
  assert (cpus s1 i = {| q := q (cpus s i); t_state := MI_TIMER_STATE_EXCEPTION;
    t_saved := t_count (cpus s i); t_count := t_count (cpus s i); t_prog := t_prog (cpus s i) |}) as E1.
  { unfold s1, set_tstate, set_saved, set_cpu. cbn [cpus]. by rewrite !fn_lookup_insert. }
  assert (∀ j, j ≠ i → cpus s1 j = cpus s j) as Ej1.
  { intros j Hj. unfold s1, set_tstate, set_saved, set_cpu. cbn [cpus]. by rewrite !fn_lookup_insert_ne. }
  destruct (timer_upd_inv s s1 i) as [I1 Hd1]; try done; rewrite ?E1; try done.
  destruct (expire_spec i (q (cpus s i)) e s1) as
    (s2 & Ex & I2 & Em2 & Ed2 & Ej2 & Hfd & _ & Hkp & F1 & F2 & F3 & F4).
  { done. } { by rewrite E1. } { apply elapsed_nonneg. } { by rewrite E1. }
  rewrite Hd1 in Ex, Ed2, Hfd, Hkp. fold due_now rest in Ex, Ed2, Hfd, Hkp.
  set (w1 := put_cst s1 w).
  assert (callback_loop fuel i (first i s1) e w1 =
    (w' ← run_calls (funcs s due_now) w; Ok (put_cst s2 w'))) as El.
  { unfold first. rewrite E1. cbn [q]. rewrite (callback_loop_spec fuel i (q (cpus s i)) e w1).
    - unfold w1. rewrite get_put, Ex. cbn [fst snd].
      rewrite (funcs_ext s s1) by done. rewrite run_calls_put.
      + rewrite bind_assoc. destruct (run_calls _ w); [|done]. cbn [mbind res_bind]. by rewrite put_put.
      + apply Forall_forall. intros f Hf. unfold funcs in Hf.
        apply list_elem_of_omap in Hf as (a & Ha & Ea). rewrite Forall_forall in Hin. apply Hin.
        unfold funcs. apply list_elem_of_omap. exists a. split; [|done].
        pose proof (expire_incl i (q (cpus s i)) e s1 a) as Hinc. rewrite Ex in Hinc.
        rewrite <- Eq. by apply Hinc.
    - rewrite Eq. done.
    - unfold w1. rewrite get_put. by rewrite E1.
    - apply (ok_nodup _ _ (inv_cpu _ I i)).
    - intros a Ha. unfold w1. rewrite get_put. exact (proj1 (queue_ticks s i a I Ha)).
    - unfold w1. rewrite get_put, (funcs_ext s s1) by done. by rewrite Eq. }
  assert (t_state (cpus s2 i) = MI_TIMER_STATE_EXCEPTION) as Est by (by rewrite F1, E1).
  destruct (irq_end_spec mt i s2 I2 Est) as (I3 & Em3 & Et3 & Ed3 & Ej3 & Htm).
  { by rewrite F2, F3, E1. }
  exists (irq_end mt i s2). split_and!.
  - unfold mdx_callout_callback, kassert. fold s. destruct (Z.ltb_spec 0 (w_crit w)); [|lia].
    cbn [mbind res_bind]. rewrite Hm, Z.eqb_refl. cbn [mbind res_bind]. rewrite Eq.
    unfold get_elapsed, kassert, get_tmr. destruct (Z.ltb_spec 0 (w_crit w)); [|lia].
    cbn [mbind res_bind]. rewrite Hm. cbn [mbind res_bind].
    change (callback_loop _ _ _ _ _) with (callback_loop fuel i (first i s1) e w1).
    rewrite El, bind_assoc. destruct (run_calls _ w) as [w'|]; [|done]. cbn [mbind res_bind].
    rewrite get_put, (irq_end_eq mt) by (done || by rewrite Em2). by rewrite put_put.
  - done.
  - by rewrite Em3, Em2.
  - by rewrite Ed3.
  - intros j Hj. destruct (Ej2 j Hj) as [E2 E3]. rewrite Ej3, Ed3, E2, E3, Hd1 by done. by rewrite Ej1.
  - intros c x Hc Hx. rewrite Et3. by apply Hfd.
  - intros c Hc. rewrite Et3. by apply Hkp.
  - rewrite Ed2 in Htm. destruct Htm as (T1 & T2 & T3). rewrite F3, E1 in T1, T2.
    split_and!; done.
Qed.
End Callback.
