(* ===== verification/CalloutTheorems.v ===== *)
(** * Callouts: what the component guarantees, and where it fails

    [Test] is a small client whose callbacks do nothing, configure or cancel;
    it is the concrete world of the witnesses. *)

From S2P Require Import Prelude Callout CalloutProofs CalloutInterrupt.
Local Open Scope Z_scope.

(** ** A removed callout in the handler's loop *)

Section Removed.
Context {K F W : Type} `{Countable K} `{!World K F W}.

(** A callback that does not fail. *)
Definition total_call (f : F) : Prop := ∀ w, ∃ w', w_call f w = Ok w'.

Lemma not_in_next (l : list K) c : c ∉ l → next_in l c = Some c.
Proof.
  induction l as [|a l IH]; intros Hc; [done|]. simpl.
  rewrite decide_False by (intros ->; mem). apply IH. mem.
Qed.

Lemma removed_loops fuel i c x e (w : W) :
  c ∉ q (cpus (get_cst w) i) → tab (get_cst w) !! c = Some x → 0 ≤ c_ticks x ≤ e →
  (∀ f, c_func x = Some f → indep f ∧ total_call f) →
  callback_loop fuel i (Some c) e w = Err NoFuel.
Proof.
  revert x e w. induction fuel as [|fuel IH]; intros x e w Hc Hx Ht Hf; [done|].
  cbn [callback_loop]. rewrite (load_c_Some _ _ _ Hx). cbn [mbind res_bind].
  destruct (Z.leb_spec (c_ticks x) e); [|lia].
  unfold next. rewrite not_in_next by done.
  set (s1 := fire i c x (get_cst w)).
  assert (∃ w', (match c_func x with Some f => w_call f (put_cst s1 w) | None => Ok (put_cst s1 w) end)
    = Ok (put_cst s1 w')) as (w' & Ew).
  { destruct (c_func x) as [f|]; [|by exists w]. destruct (Hf f eq_refl) as [Hi Ht'].
    destruct (Ht' w) as (w' & Ew). exists w'. by rewrite Hi, Ew. }
  rewrite Ew. cbn [mbind res_bind]. apply (IH (fired x)); rewrite ?get_put.
  - unfold s1, fire, set_q, set_cpu. simpl. rewrite fn_lookup_insert. cbn [q].
    intros Hin. apply list_elem_of_filter in Hin as [? _]. done.
  - unfold s1. by rewrite fire_tab, lookup_insert_eq.
  - simpl. lia.
  - exact Hf.
Qed.
End Removed.

(** ** The test client *)

Module Test.
Inductive tf := TNop (id : Z) | TSet (c ticks : Z) | TCancel (c : Z).

Definition world : Type := cst Z tf * list tf.

(** Every call is logged. *)
Definition call (f : tf) (w : world) : res world :=
  let log := w.2 ++ [f] in
  match f with
  | TNop _ => Ok (w.1, log)
  | TSet c t => '(_, s) ← mdx_callout_set_ticks_locked 1 0 c t (Some f) w.1; Ok (s, log)
  | TCancel c => '(_, s) ← mdx_callout_cancel 1 c w.1; Ok (s, log)
  end.

#[global] Program Instance test_world : World Z tf world := {|
  get_cst := fst;
  put_cst s w := (s, w.2);
  w_crit _ := 1;
  w_call := call
|}.
Next Obligation. done. Qed.
Next Obligation. done. Qed.
Next Obligation. intros [s l]. done. Qed.
Next Obligation. done. Qed.

Lemma nop_indep i : indep (W := world) (TNop i).
Proof. intros s w. done. Qed.

Lemma nop_total i : total_call (W := world) (TNop i).
Proof. intros w. by eexists. Qed.

Definition mt : mi_timer :=
  {| mt_id := 1; mt_has_start := true; mt_has_stop := true; mt_has_count := true;
     mt_maxcnt := 2 ^ 32 - 1; mt_frequency := 1000000;
     mt_usec_to_ticks := None; mt_ticks_to_usec := None |}.

Definition blank : callout tf :=
  {| c_state := CALLOUT_STATE_READY; c_ticks := 0; c_ticks_orig := 0; c_func := None;
     c_flags := 0; c_cpuid := 0 |}.

Definition idle_cpu : cpu Z :=
  {| q := []; t_state := MI_TIMER_STATE_READY; t_saved := 0; t_count := 100; t_prog := None |}.

(** Callouts 1, 2 and 3 are initialised, none is queued. *)
Definition s0 : cst Z tf :=
  mdx_callout_init 3 (mdx_callout_init 2 (mdx_callout_init 1
    {| mi_tmr := None; tab := ∅; cpus := λ _, idle_cpu |})).

Definition s1 : cst Z tf :=
  (mdx_callout_register {| cfg_1mhz := true; cfg_generic := true |} 1 mt s0).2.

(** The registered timer. *)
Definition mt1 : mi_timer :=
  (mdx_callout_setup {| cfg_1mhz := true; cfg_generic := true |} mt).2.

Lemma s1_inv : callout_inv s1.
Proof.
  assert (∀ j, q (cpus s1 j) = []) as Hq.
  { intros j. unfold s1, s0. vm_compute. by destruct j. }
  constructor.
  - intros j. constructor; unfold dls; rewrite ?Hq; [constructor| |constructor|done].
    intros c Hc. by apply elem_of_nil in Hc.
  - intros c x Hx Ha. exfalso.
    assert (tab s1 = <[3:=blank]> (<[2:=blank]> (<[1:=blank]> ∅))) as E by (by vm_compute).
    rewrite E, !lookup_insert_Some, lookup_empty in Hx.
    destruct Hx as [[_ <-]|[_ [[_ <-]|[_ [[_ <-]|[_ ?]]]]]]; done.
Qed.

(** The hardware counter advances. *)
Definition pass (n : Z) (s : cst Z tf) : cst Z tf :=
  let p := cpus s 0 in
  set_cpu 0 {| q := q p; t_state := t_state p; t_saved := t_saved p; t_count := t_count p + n;
               t_prog := t_prog p |} s.

Lemma s1_mt : mi_tmr s1 = Some mt1.
Proof. reflexivity. Qed.
End Test.

Lemma u32_cong a b : (∃ k, a = b + k * 2 ^ 32) → u32 a = u32 b.
Proof. intros [k ->]. unfold wrap. by rewrite Z.mod_add. Qed.

Lemma s32_u32_cong z : ∃ k, s32 (u32 z) = z + k * 2 ^ 32.
Proof.
  unfold swrap, wrap. change (2 ^ (32 - 1)) with 2147483648. change (2 ^ 32) with 4294967296.
  exists (((z mod 4294967296 + 2147483648) mod 4294967296 - 2147483648 - z) / 4294967296).
  Z.div_mod_to_equations. lia.
Qed.

Section Remaining.
Context {K F : Type} `{Countable K}.

(** The walk of mdx_callout_ticks computes what is left of the deadline. *)
Lemma ticks_loop_spec (s : cst K F) c0 l k e v :
  c0 ∉ l → (∀ c, c ∈ l ++ c0 :: k → is_Some (tab s !! c) ∧ 0 ≤ ticks_of s c) → 0 ≤ e →
  ∃ r, ticks_loop s c0 (l ++ c0 :: k) e v = Ok r ∧
    u32 r = u32 (v + Z.max 0 (tsum s l + ticks_of s c0 - e)).
Proof.
  revert e v. induction l as [|c l IH]; intros e v Hc Hl He; cbn [app ticks_loop].
  - destruct (Hl c0) as [[x Ex] Hx]; [mem|]. rewrite (load_c_Some _ _ _ Ex). cbn [mbind res_bind].
    unfold tsum, ticks_of in *. rewrite Ex in *. simpl in *. rewrite !decide_True by done.
    destruct (Z.leb_spec (c_ticks x) e).
    + exists v. split; [done|]. f_equal. lia.
    + eexists. split; [reflexivity|]. destruct (s32_u32_cong (v + (c_ticks x - e))) as [j ->].
      apply u32_cong. exists j. lia.
  - destruct (Hl c) as [[x Ex] Hx]; [mem|]. rewrite (load_c_Some _ _ _ Ex). cbn [mbind res_bind].
    rewrite !decide_False by (intros ->; mem).
    assert (0 ≤ tsum s l) as Hs by (apply tsum_nonneg; intros a Ha; apply Hl; mem).
    assert (0 ≤ ticks_of s c0) as Hc0 by (apply Hl; mem).
    assert (tsum s (c :: l) = c_ticks x + tsum s l) as ->.
    { unfold tsum. simpl. unfold ticks_of at 1. by rewrite Ex. }
    assert (ticks_of s c = c_ticks x) as Et by (unfold ticks_of; by rewrite Ex). rewrite Et in Hx.
    assert (∀ a, a ∈ l ++ c0 :: k → is_Some (tab s !! a) ∧ 0 ≤ ticks_of s a) as Hl'.
    { intros a Ha. apply Hl. apply elem_of_cons. by right. }
    destruct (Z.leb_spec (c_ticks x) e).
    + destruct (IH (e - c_ticks x) v) as (r & E & Er); [mem|done|lia|].
      exists r. split; [done|]. rewrite Er. f_equal. lia.
    + destruct (IH 0 (s32 (u32 (v + (c_ticks x - e))))) as (r & E & Er); [mem|done|lia|].
      exists r. split; [done|]. rewrite Er.
      destruct (s32_u32_cong (v + (c_ticks x - e))) as [j ->]. apply u32_cong. exists j. lia.
Qed.
End Remaining.

(** ** Properties *)

Section Properties.
Context {K F W : Type} `{Countable K} `{!World K F W}.
Implicit Types (s : cst K F) (c : K).

(** C8: configuring an idle callout inserts its deadline (now plus [ticks]) into
    the CPU's list of deadlines behind the ones that are not later, changes no
    other deadline on any CPU, keeps the invariant (queued callouts are exactly
    the active ones, on the CPU they name), and programs the timer for the new
    callout exactly when it is the first.  A callout that is already active is
    refused and nothing changes. *)
Theorem callout_set_deadline (s : cst K F) (i : Z) (c : K) (x : callout F) (crit ticks : Z)
    (func : option F) (mt : mi_timer) :
  callout_inv s → mi_tmr s = Some mt → 0 < crit → tab s !! c = Some x → 0 < ticks →
  ticks + base_elapsed mt (cpus s i) < 2 ^ 32 →
  if is_active x then mdx_callout_set_ticks_locked crit i c ticks func s = Ok (MDX_ERROR, s) else
  ∃ s', mdx_callout_set_ticks_locked crit i c ticks func s = Ok (MDX_OK, s') ∧
    callout_inv s' ∧ dls s' i = dl_insert (c, base_elapsed mt (cpus s i) + ticks) (dls s i) ∧
    (∀ j, j ≠ i → dls s' j = dls s j) ∧
    (∃ y, tab s' !! c = Some y ∧ configured i ticks func x y) ∧
    timer_after_set mt c ticks (cpus s i) (cpus s' i).
Proof.
  intros I Hm Hcr Hx Ht Ho. destruct (is_active x) eqn:Ha.
  - unfold mdx_callout_set_ticks_locked, kassert. rewrite Hm, bool_decide_eq_true_2 by eauto.
    destruct (Z.ltb_spec 0 crit); [|lia]. cbn [mbind res_bind].
    rewrite (load_c_Some _ _ _ Hx). cbn [mbind res_bind]. by rewrite Ha.
  - destruct (set_ticks_spec s i c x crit ticks func mt I Hm Hcr Hx Ha Ht Ho)
      as (s' & ? & ? & ? & ? & Hj & ? & ? & ?).
    exists s'. split_and!; try done. intros j Hne. by apply Hj.
Qed.

(** C9: cancelling an active callout, from any CPU, removes its deadline from
    the queue of the CPU it was configured on; no other deadline moves, the
    timer is not touched, and the invariant is kept.  An idle callout is
    reported (1) and nothing changes. *)
Theorem callout_cancel_deadline (s : cst K F) (c : K) (x : callout F) (crit : Z) :
  callout_inv s → is_Some (mi_tmr s) → 0 < crit → tab s !! c = Some x →
  if is_active x then
    ∃ s', mdx_callout_cancel crit c s = Ok (MDX_OK, s') ∧ callout_inv s' ∧
      dls s' (c_cpuid x) = dl_remove c (dls s (c_cpuid x)) ∧
      (∀ j, j ≠ c_cpuid x → dls s' j = dls s j) ∧
      (∃ y, tab s' !! c = Some y ∧ is_active y = false) ∧
      (∀ j, t_prog (cpus s' j) = t_prog (cpus s j) ∧ t_state (cpus s' j) = t_state (cpus s j))
  else mdx_callout_cancel crit c s = Ok (1, s).
Proof.
  intros I Hm Hcr Hx.
  assert (mdx_callout_cancel crit c s = mdx_callout_cancel_locked c s) as E.
  { unfold mdx_callout_cancel, kassert. rewrite bool_decide_eq_true_2 by done.
    destruct (Z.ltb_spec 0 crit); [done|lia]. }
  rewrite E. destruct (is_active x) eqn:Ha.
  - destruct (cancel_spec s c x I Hx Ha)
      as (s' & ? & ? & ? & ? & Hj & (y & ? & ? & _) & ? & ? & ? & ? & ?).
    exists s'. split_and!; try done; [intros j Hne; by apply Hj|by exists y|].
    intros j. destruct (decide (j = c_cpuid x)) as [->|Hne]; [done|]. by destruct (Hj j Hne) as [-> _].
  - unfold mdx_callout_cancel_locked. rewrite (load_c_Some _ _ _ Hx). cbn [mbind res_bind].
    by rewrite Ha.
Qed.


(** Mdx_callout_ticks returns the time that is left until the deadline of
    an active callout (0 when it is due already). *)
Theorem callout_ticks_left (s : cst K F) (i : Z) (c : K) (d crit : Z) (mt : mi_timer) :
  callout_inv s → mi_tmr s = Some mt → 0 ≤ crit → (c, d) ∈ dls s i →
  mdx_callout_ticks crit i c s = Ok (Z.max 0 (d - elapsed_of mt (cpus s i))).
Proof.
  intros I Hm Hcr Hd. pose proof (inv_cpu _ I i) as [Hnd Hqu Hrg _].
  assert (c ∈ q (cpus s i)) as Hin.
  { rewrite <- (deadlines_fst s (q (cpus s i)) 0). apply list_elem_of_fmap. by exists (c, d). }
  destruct (Hqu c Hin) as (x & Ex & Ha & Hi & Hx).
  apply list_elem_of_split in Hin as (l & k & Eq).
  rewrite Eq in Hnd. pose proof Hnd as [Hc _]%NoDup_middle.
  assert (d = tsum s l + ticks_of s c) as ->.
  { unfold dls in Hd. rewrite Eq, deadlines_app in Hd. cbn [deadlines] in Hd.
    apply elem_of_app in Hd as [Hd|Hd].
    - apply (list_elem_of_fmap_2 fst) in Hd. rewrite deadlines_fst in Hd. simpl in Hd. mem.
    - apply elem_of_cons in Hd as [[= ->]|Hd]; [lia|].
      apply (list_elem_of_fmap_2 fst) in Hd. rewrite deadlines_fst in Hd. simpl in Hd. mem. }
  unfold mdx_callout_ticks. rewrite (load_c_Some _ _ _ Ex). cbn [mbind res_bind]. rewrite Ha.
  cbn [negb]. unfold get_elapsed, kassert, get_tmr. destruct (Z.ltb_spec 0 (crit + 1)); [|lia].
  cbn [mbind res_bind]. rewrite Hm. cbn [mbind res_bind]. rewrite Hi, Z.eqb_refl. cbn [mbind res_bind].
  pose proof (elapsed_nonneg mt (cpus s i)) as He.
  destruct (ticks_loop_spec s c l k (elapsed_of mt (cpus s i)) 0) as (r & E & Er); [mem| |done|].
  { intros a Ha'. apply (queue_ticks s i); [done|]. by rewrite Eq. }
  rewrite Eq, E. cbn [mbind res_bind]. rewrite Er. f_equal. rewrite Z.add_0_l.
  apply wrap_small. rewrite Forall_forall in Hrg. specialize (Hrg _ Hd). simpl in Hrg. lia.
Qed.

(** A callback that cancels the callout queued behind its own, when that
    one is due in the same interrupt, makes the handler loop for ever: the
    handler has saved the pointer to the cancelled callout, whose link points
    to itself, fires it although it was cancelled, and never gets out of it.
    No loop bound is enough. *)
Theorem cancel_in_callback_diverges (fuel : nat) (i : Z) (mt : mi_timer) (w : W)
    (a b : K) (l : list K) (xa xb : callout F) (fa : F) :
  let s := get_cst w in let e := elapsed_of mt (cpus s i) in
  callout_inv s → mi_tmr s = Some mt → 0 < w_crit w →
  q (cpus s i) = a :: b :: l → tab s !! a = Some xa → tab s !! b = Some xb →
  c_ticks xa + c_ticks xb ≤ e → c_func xa = Some fa →
  (∀ w' : W, mi_tmr (get_cst w') = Some mt →
     ∃ crit w'', 0 < crit ∧
       w_call fa w' = ('(_, s') ← mdx_callout_cancel crit b (get_cst w'); Ok (put_cst s' w''))) →
  (∀ f, c_func xb = Some f → indep f ∧ total_call f) →
  mdx_callout_callback fuel i (mt_id mt) w = Err NoFuel.
Proof.
  intros s e I Hm Hcr Eq Ea Eb He Hfa Hcall Hfb.
  set (s1 := set_tstate i MI_TIMER_STATE_EXCEPTION (set_saved i (t_count (cpus s i)) s)).
  assert (cpus s1 i = {| q := q (cpus s i); t_state := MI_TIMER_STATE_EXCEPTION;
    t_saved := t_count (cpus s i); t_count := t_count (cpus s i); t_prog := t_prog (cpus s i) |}) as E1.
  { unfold s1, set_tstate, set_saved, set_cpu. cbn [cpus]. by rewrite !fn_lookup_insert. }
  destruct (timer_upd_inv s s1 i) as [I1 _]; try done; rewrite ?E1; try done.
  { intros j Hj. unfold s1, set_tstate, set_saved, set_cpu. cbn [cpus]. by rewrite !fn_lookup_insert_ne. }
  assert (q (cpus s1 i) = a :: b :: l) as Eq1 by (by rewrite E1).
  unfold mdx_callout_callback, kassert. fold s. destruct (Z.ltb_spec 0 (w_crit w)); [|lia].
  cbn [mbind res_bind]. rewrite Hm, Z.eqb_refl. cbn [mbind res_bind]. rewrite Eq.
  unfold get_elapsed, kassert, get_tmr. destruct (Z.ltb_spec 0 (w_crit w)); [|lia].
  cbn [mbind res_bind]. rewrite Hm. cbn [mbind res_bind].
  change (callback_loop fuel i _ _ _) with (callback_loop fuel i (first i s1) e (put_cst s1 w)).
  cut (callback_loop fuel i (first i s1) e (put_cst s1 w) = Err NoFuel); [by intros ->|].
  unfold first. rewrite Eq1. cbn [head]. destruct fuel as [|fuel]; [done|].
  cbn [callback_loop]. rewrite get_put. change (load_c s1 a) with (load_c s a).
  rewrite (load_c_Some _ _ _ Ea). cbn [mbind res_bind].
  assert (0 ≤ c_ticks xa ∧ 0 ≤ c_ticks xb) as [Ha0 Hb0].
  { destruct (queue_ticks s i a I) as [_ Ht]; [rewrite Eq; mem|].
    destruct (queue_ticks s i b I) as [_ Ht']; [rewrite Eq; mem|].
    unfold ticks_of in *. by rewrite Ea, Eb in *. }
  destruct (Z.leb_spec (c_ticks xa) e); [|lia]. rewrite Hfa.
  unfold next. rewrite Eq1. cbn [next_in]. rewrite decide_True by done. cbn [head].
  set (s2 := fire i a xa s1).
  pose proof (ok_nodup _ _ (inv_cpu _ I1 i)) as Hnd. rewrite Eq1 in Hnd.
  assert (callout_inv s2) as I2 by (eapply fire_inv; [done|done|done|by rewrite E1]).
  assert (q (cpus s2 i) = b :: l) as Eq2.
  { unfold s2. erewrite fire_cpu by done. by rewrite fn_lookup_insert. }
  assert (tab s2 !! b = Some xb) as Eb2.
  { unfold s2. rewrite fire_tab, lookup_insert_ne; [done|]. intros ->.
    apply NoDup_cons in Hnd as [Hnd _]. mem. }
  destruct (ok_queued _ _ (inv_cpu _ I2 i) b) as (y & Ey & Hact & Hcpu & _); [rewrite Eq2; mem|].
  assert (y = xb) as -> by congruence.
  destruct (cancel_spec s2 b xb I2 Eb2 Hact)
    as (s3 & E3 & _ & _ & Hd3 & _ & (z & Ez & _ & Hzf & Hzt) & _).
  destruct (Hcall (put_cst s2 (put_cst s1 w))) as (cr & w'' & Hcr' & Ew); [by rewrite get_put|].
  rewrite get_put in Ew. unfold mdx_callout_cancel, kassert in Ew.
  rewrite bool_decide_eq_true_2 in Ew by (exists mt; exact Hm).
  destruct (Z.ltb_spec 0 cr); [|lia]. cbn [mbind res_bind] in Ew. rewrite E3 in Ew.
  cbn [mbind res_bind] in Ew. rewrite Ew. cbn [mbind res_bind].
  apply (removed_loops _ _ _ z); rewrite ?get_put; [|done|rewrite Hzt; lia|by rewrite Hzf].
  rewrite <- Hcpu. intros Hin.
  rewrite <- (deadlines_fst s3 (q (cpus s3 (c_cpuid xb))) 0) in Hin.
  fold (dls s3 (c_cpuid xb)) in Hin. rewrite Hd3 in Hin.
  apply list_elem_of_fmap in Hin as (p & Ep & Hp). apply list_elem_of_filter in Hp as [Hp _]. congruence.
Qed.

(** A request for 0 ticks (every period shorter than one tick converts to
    it) reports success but queues nothing: the callout is marked FIRED and its
    function is never called. *)
Theorem zero_ticks_never_called (s : cst K F) (i : Z) (c : K) (x : callout F) (crit : Z)
    (func : option F) :
  is_Some (mi_tmr s) → 0 < crit → tab s !! c = Some x → is_active x = false →
  ∃ s', mdx_callout_set_ticks_locked crit i c 0 func s = Ok (MDX_OK, s') ∧
    cpus s' = cpus s ∧ ∃ y, tab s' !! c = Some y ∧ c_state y = CALLOUT_STATE_FIRED ∧
      is_active y = false ∧ c_func y = c_func x.
Proof.
  intros Hm Hcr Hx Ha. exists (upd c (with_state CALLOUT_STATE_FIRED x) s). split; [|split; [done|]].
  - unfold mdx_callout_set_ticks_locked, kassert. rewrite bool_decide_eq_true_2 by done.
    destruct (Z.ltb_spec 0 crit); [|lia]. cbn [mbind res_bind].
    rewrite (load_c_Some _ _ _ Hx). cbn [mbind res_bind]. rewrite Ha. reflexivity.
  - eexists. simpl. rewrite lookup_insert_eq. split_and!; [done|done|exact Ha|done].
Qed.
End Properties.

(** A callback that configures a callout disturbs the ones that are due
    later.  Callout 1 is due at 10 and its callback asks for 6 more ticks,
    callout 2 is due at 20.  An interrupt at time 15 calls the function of
    callout 2, five ticks before its deadline. *)
Theorem rearm_fires_early :
  ∃ w w' : Test.world, dls (get_cst w) 0 = [(1, 10); (2, 20)] ∧
    elapsed_of Test.mt1 (cpus (get_cst w) 0) = 15 ∧
    mdx_callout_callback 10 0 1 w = Ok (MDX_OK, w') ∧
    w'.2 = [Test.TSet 1 6; Test.TNop 2].
Proof.
  set (r := '(_, s) ← mdx_callout_set_ticks_locked 1 0 1 10 (Some (Test.TSet 1 6)) Test.s1;
            '(_, s) ← mdx_callout_set_ticks_locked 1 0 2 20 (Some (Test.TNop 2)) s; Ok s).
  set (w := (match r with Ok s => Test.pass 15 s | Err _ => Test.s1 end, [] : list Test.tf)).
  exists w.
  exists (match mdx_callout_callback 10 0 1 w with Ok (_, w') => w' | Err _ => w end).
  split_and!; by vm_compute.
Qed.

(** ** Conversions *)

(** Mdx_cputime_usec_to_ticks panics only when the result could not be
    represented, and otherwise returns freq * usec / 10^6 rounded down, up to
    one tick too few; the intermediate 64-bit products do not overflow.  In
    particular it returns 0 for every period shorter than a tick. *)
Theorem usec_to_ticks_bound (freq usec : Z) :
  1 ≤ freq < 2 ^ 32 → 0 ≤ usec < 2 ^ 32 →
  match mdx_cputime_usec_to_ticks freq usec with
  | Ok t => 0 ≤ t < 2 ^ 32 ∧ t * 1000000 ≤ freq * usec < (t + 2) * 1000000
  | Err e => e = Panic ∧ (2 ^ 32 - 1) * 1000000 < freq * usec
  end.
Proof.
  intros Hf Hu. unfold mdx_cputime_usec_to_ticks. rewrite !Z.shiftl_mul_pow2 by lia.
  rewrite (wrap_small 64 (freq * 2 ^ 32)) by lia.
  change (u64 (4294967295 * 2 ^ 32)) with (4294967295 * 4294967296).
  change (2 ^ 32) with 4294967296 in *.
  set (T := freq * 4294967296 / 1000000).
  assert (T * 1000000 ≤ freq * 4294967296 < (T + 1) * 1000000) as HT.
  { unfold T. Z.div_mod_to_equations. lia. }
  assert (4294 ≤ T) as HT1 by lia.
  destruct (Z.eqb_spec T 0); [lia|].
  destruct (Z.ltb_spec (4294967295 * 4294967296 / T) usec) as [Hlt|Hge].
  - split; [done|].
    assert (4294967295 * 4294967296 < T * usec) as HTu.
    { pose proof (Z.mul_succ_div_gt (4294967295 * 4294967296) T ltac:(lia)). nia. }
    nia.
  - assert (T * usec ≤ 4294967295 * 4294967296) as HTu.
    { pose proof (Z.mul_div_le (4294967295 * 4294967296) T ltac:(lia)). nia. }
    rewrite (wrap_small 64) by (split; [nia|lia]). rewrite Z.shiftr_div_pow2 by lia.
    change (2 ^ 32) with 4294967296 in *.
    set (r := T * usec / 4294967296).
    assert (r * 4294967296 ≤ T * usec < (r + 1) * 4294967296) as Hr.
    { unfold r. Z.div_mod_to_equations. lia. }
    rewrite wrap_small by (split; nia). split; nia.
Qed.

(** ** Registration *)

(** Mdx_callout_register accepts one timer with a valid configuration for
    which a conversion is known, and then every CPU has an empty queue and a
    stopped timer; a second registration, an incomplete timer or one without a
    conversion is refused and nothing changes. *)
Theorem register_outcomes {K F : Type} `{Countable K} (cf : config) (n : nat) (mt : mi_timer)
    (s : cst K F) :
  match mdx_callout_register cf n mt s with
  | (e, s') =>
    (e = MDX_OK ∧ mi_tmr s = None ∧
     (∃ mt', mi_tmr s' = Some mt' ∧ is_Some (mt_usec_to_ticks mt') ∧ mt_id mt' = mt_id mt ∧
        0 ≠ mt_maxcnt mt' ∧ 0 ≠ mt_frequency mt') ∧ tab s' = tab s ∧
     ∀ i, 0 ≤ i < Z.of_nat n → q (cpus s' i) = [] ∧
       t_state (cpus s' i) = MI_TIMER_STATE_READY ∧ t_saved (cpus s' i) = 0) ∨
    (s' = s ∧ (e = MDX_EEXIST ∧ is_Some (mi_tmr s) ∨
               e = MDX_ERROR ∧ mi_tmr s = None ∧
               (mt_maxcnt mt = 0 ∨ mt_frequency mt = 0 ∨
                mt_has_start mt && mt_has_stop mt && mt_has_count mt = false ∨
                mt_usec_to_ticks mt = None)))
  end.
Proof.
  unfold mdx_callout_register. destruct (mi_tmr s) as [m|] eqn:Hm; [by eauto 10|].
  destruct ((mt_maxcnt mt =? 0) || negb (mt_has_start mt) || negb (mt_has_stop mt) ||
    (mt_frequency mt =? 0) || negb (mt_has_count mt)) eqn:Eb.
  { right. split; [done|]. right. split_and!; [done|done|].
    destruct (Z.eqb_spec (mt_maxcnt mt) 0); [by left|]. destruct (Z.eqb_spec (mt_frequency mt) 0); [auto|].
    right. right. left. by destruct (mt_has_start mt), (mt_has_stop mt), (mt_has_count mt). }
  bsimp.
  assert (∀ s1 : cst K F, mi_tmr (register_loop n s1) = mi_tmr s1 ∧
    tab (register_loop n s1) = tab s1 ∧
    ∀ i, 0 ≤ i < Z.of_nat n → q (cpus (register_loop n s1) i) = [] ∧
       t_state (cpus (register_loop n s1) i) = MI_TIMER_STATE_READY ∧
       t_saved (cpus (register_loop n s1) i) = 0) as Hloop.
  { intros s1. clear. induction n as [|n (IH1 & IH2 & IH3)]; [split_and!; [done|done|lia]|].
    cbn [register_loop]. unfold set_saved, set_tstate, set_q, set_cpu. cbn [mi_tmr tab cpus].
    split_and!; [done|done|]. intros i Hi. destruct (decide (i = Z.of_nat n)) as [->|Hne].
    - rewrite !fn_lookup_insert. done.
    - rewrite !fn_lookup_insert_ne by done. apply IH3. lia. }
  assert (∃ e mt', mdx_callout_setup cf mt = (e, mt') ∧
    ((e = MDX_OK ∧ is_Some (mt_usec_to_ticks mt') ∧ mt_id mt' = mt_id mt ∧
      mt_maxcnt mt' = mt_maxcnt mt ∧ mt_frequency mt' = mt_frequency mt) ∨
     (e = MDX_ERROR ∧ mt_usec_to_ticks mt = None))) as (e & mt' & Es & Hc).
  { unfold mdx_callout_setup. destruct (mt_usec_to_ticks mt) as [f|] eqn:Eu.
    - eexists _, _. split; [reflexivity|]. left. rewrite Eu. split_and!; eauto.
    - destruct (cfg_1mhz cf && _); [eexists _, _; split; [reflexivity|]; left; simpl; eauto 10|].
      destruct (cfg_generic cf && _); [eexists _, _; split; [reflexivity|]; left; simpl; eauto 10|].
      eexists _, _. split; [reflexivity|]. right. done. }
  rewrite Es. destruct Hc as [(-> & Hu & Hid & Hmx & Hfr)|[-> Hu]].
  - rewrite Z.eqb_refl. left.
    destruct (Hloop {| mi_tmr := Some mt'; tab := tab s; cpus := cpus s |}) as (L1 & L2 & L3).
    split_and!; [done|done| |done|done]. exists mt'. split_and!; [done|done|done|lia|lia].
  - right. split; [done|]. right. auto 10.
Qed.

(** ** Witnesses *)

Module Witness.
Import Test.

Definition ok {A} (d : A) (r : res (Z * A)) : A := match r with Ok (_, a) => a | Err _ => d end.

(** Callout 1 is due in 10 ticks and cancels callout 2, which is due in 15. *)
Definition s2 : cst Z tf := ok s1 (mdx_callout_set_ticks_locked 1 0 1 10 (Some (TCancel 2)) s1).
Definition s3 : cst Z tf := ok s2 (mdx_callout_set_ticks_locked 1 0 2 15 (Some (TNop 2)) s2).

Lemma set_inv (s : cst Z tf) (c t : Z) (f : option tf) (x : callout tf) :
  callout_inv s → mi_tmr s = Some mt1 → tab s !! c = Some x → is_active x = false → 0 < t →
  t + base_elapsed mt1 (cpus s 0) < 2 ^ 32 →
  callout_inv (ok s (mdx_callout_set_ticks_locked 1 0 c t f s)).
Proof.
  intros I Hm Hx Ha Ht Ho.
  destruct (set_ticks_spec s 0 c x 1 t f mt1 I Hm ltac:(lia) Hx Ha Ht Ho) as (s' & -> & I' & _).
  exact I'.
Qed.

Lemma s2_inv : callout_inv s2.
Proof. apply (set_inv _ _ _ _ blank s1_inv); by vm_compute. Qed.

Lemma s3_inv : callout_inv s3.
Proof. apply (set_inv _ _ _ _ blank s2_inv); by vm_compute. Qed.

(** Twenty ticks later. *)
Definition s4 : cst Z tf := pass 20 s3.

Lemma pass_inv n (s : cst Z tf) : callout_inv s → callout_inv (pass n s).
Proof.
  intros I. unfold pass, set_cpu. eapply (timer_upd_inv s _ 0); [done|done| | |].
  - intros j Hj. cbn [cpus]. by rewrite fn_lookup_insert_ne.
  - cbn [cpus]. by rewrite fn_lookup_insert.
  - cbn [cpus]. rewrite fn_lookup_insert. apply (ok_ready _ _ (inv_cpu _ I 0)).
Qed.

Lemma s4_inv : callout_inv s4.
Proof. apply pass_inv, s3_inv. Qed.

Lemma callout_set_deadline_witness :
  ∃ s', mdx_callout_set_ticks_locked 1 0 2 15 (Some (TNop 2)) s2 = Ok (MDX_OK, s') ∧
    dls s' 0 = [(1, 10); (2, 15)].
Proof.
  pose proof (callout_set_deadline s2 0 2 blank 1 15 (Some (TNop 2)) mt1 s2_inv) as Hs.
  destruct Hs as (s' & E & _ & Hd & _); [by vm_compute|lia|by vm_compute|lia|by vm_compute|].
  exists s'. split; [exact E|]. rewrite Hd. by vm_compute.
Defined.

Lemma callout_cancel_deadline_witness :
  ∃ s', mdx_callout_cancel 1 1 s3 = Ok (MDX_OK, s') ∧ dls s' 0 = [(2, 15)].
Proof.
  destruct (tab s3 !! 1) as [x|] eqn:Ex; [|by vm_compute in Ex].
  pose proof (callout_cancel_deadline s3 1 x 1 s3_inv) as Hs.
  assert (x = {| c_state := CALLOUT_STATE_READY; c_ticks := 10; c_ticks_orig := 10;
    c_func := Some (TCancel 2); c_flags := 1; c_cpuid := 0 |}) as Exx.
  { vm_compute in Ex. injection Ex as Ex. by rewrite <- Ex. }
  rewrite Exx in Hs, Ex. destruct Hs as (s' & E & _ & Hd & _); [by eexists|lia|done|].
  exists s'. split; [exact E|]. cbn [c_cpuid] in Hd. rewrite Hd. by vm_compute.
Defined.

(** A queue without cancelling callbacks. *)
Definition s2' : cst Z tf := ok s1 (mdx_callout_set_ticks_locked 1 0 1 10 (Some (TNop 1)) s1).
Definition s5 : cst Z tf :=
  pass 12 (ok s2' (mdx_callout_set_ticks_locked 1 0 2 15 (Some (TNop 2)) s2')).

Lemma s5_inv : callout_inv s5.
Proof.
  apply pass_inv, (set_inv _ _ _ _ blank); [|by vm_compute..].
  apply (set_inv _ _ _ _ blank s1_inv); by vm_compute.
Qed.


Lemma callout_ticks_left_witness : mdx_callout_ticks 0 0 2 s5 = Ok 3.
Proof.
  rewrite (callout_ticks_left s5 0 2 15 0 mt1 s5_inv); [by vm_compute|by vm_compute|lia|].
  assert (dls s5 0 = [(1, 10); (2, 15)]) as -> by (by vm_compute).
  apply elem_of_cons. right. apply list_elem_of_here.
Defined.

Lemma cancel_in_callback_diverges_witness :
  dls s4 0 = [(1, 10); (2, 15)] ∧
    ∀ fuel, mdx_callout_callback fuel 0 1 ((s4, []) : world) = Err NoFuel.
Proof.
  split; [by vm_compute|]. intros fuel.
  destruct (tab s4 !! 1) as [xa|] eqn:Ea; [|by vm_compute in Ea].
  destruct (tab s4 !! 2) as [xb|] eqn:Eb; [|by vm_compute in Eb].
  assert (c_ticks xa = 10 ∧ c_func xa = Some (TCancel 2)) as [Ta Fa].
  { vm_compute in Ea. injection Ea as <-. done. }
  assert (c_ticks xb = 5 ∧ c_func xb = Some (TNop 2)) as [Tb Fb].
  { vm_compute in Eb. injection Eb as <-. done. }
  apply (cancel_in_callback_diverges (World0 := test_world) fuel 0 mt1 (s4, []) 1 2 [] xa xb (TCancel 2) s4_inv).
  - by vm_compute.
  - by vm_compute.
  - by vm_compute.
  - exact Ea.
  - exact Eb.
  - rewrite Ta, Tb. by vm_compute.
  - exact Fa.
  - intros [s log] Hm. exists 1, (s, log ++ [TCancel 2]). split; [lia|].
    simpl. destruct (mdx_callout_cancel 1 2 s) as [[? ?]|]; done.
  - intros f Hf. rewrite Fb in Hf. injection Hf as <-. split; [apply nop_indep|apply nop_total].
Defined.

Lemma zero_ticks_never_called_witness :
  ∃ s', mdx_callout_set_ticks_locked 1 0 1 0 (Some (TNop 1)) s1 = Ok (MDX_OK, s') ∧ q (cpus s' 0) = [].
Proof.
  destruct (zero_ticks_never_called s1 0 1 blank 1 (Some (TNop 1))) as (s' & E & Ec & _);
    [by eexists|lia|by vm_compute|done|].
  exists s'. split; [exact E|]. rewrite Ec. by vm_compute.
Defined.

Lemma usec_to_ticks_bound_witness :
  ∃ t, mdx_cputime_usec_to_ticks 32768 100 = Ok t ∧ t * 1000000 ≤ 32768 * 100 < (t + 2) * 1000000.
Proof.
  pose proof (usec_to_ticks_bound 32768 100 ltac:(lia) ltac:(lia)) as Hb.
  destruct (mdx_cputime_usec_to_ticks 32768 100) as [t|] eqn:E; [|by vm_compute in E].
  exists t. split; [done|apply Hb].
Defined.
End Witness.
