(* ===== verification/Kernel.v ===== *)
(** * The kernel state: threads, critical sections, the scheduler

    (include/sys/thread.h, include/sys/sem.h, arch/riscv/riscv/machdep.c,
    kernel/sched/mdx_sched.c, kernel/thread)

    The single-CPU configuration: MDX_SCHED without MDX_SCHED_SMP, where the
    scheduler lock and the spin locks compile to nothing.  Threads, semaphores,
    mutexes and fifos are named by their addresses; a thread's list node is in
    at most one queue, and linking a node that is in a queue already (which
    would corrupt the lists) is a [Fault]. *)

From S2P Require Import Prelude Callout.
Local Open Scope Z_scope.

(** td->td_state *)
Inductive td_st :=
| TD_STATE_READY | TD_STATE_RUNNING | TD_STATE_SLEEPING | TD_STATE_WAKEUP
| TD_STATE_TERMINATING | TD_STATE_ACK | TD_STATE_SEM_WAIT | TD_STATE_SEM_UNLOCK
| TD_STATE_SEM_UNLOCK_ACK | TD_STATE_YIELDING.

#[export] Instance td_st_eq_dec : EqDecision td_st.
Proof. solve_decision. Defined.

(** struct thread *)
Record thread := {
  td_state : td_st;
  td_critnest : Z;
  td_saved_ie : bool;   (** td_md.md_saved_sstatus_ie *)
  td_prio : Z;
  td_quantum : Z;
  td_idle : bool;
  td_flags : Z
}.

(** The callouts of the kernel: [&td->td_c], the callout on the stack of a
    sleeping thread, and the callout of a periodic timer. *)
Inductive ckey := CTd (td : Z) | CStack (td : Z) | CTimer (t : Z).

#[export] Instance ckey_eq_dec : EqDecision ckey.
Proof. solve_decision. Defined.

#[export] Instance ckey_countable : Countable ckey.
Proof.
  apply (inj_countable'
    (λ k, match k with CTd a => inl a | CStack a => inr (inl a) | CTimer a => inr (inr a) end)
    (λ p, match p with inl a => CTd a | inr (inl a) => CStack a | inr (inr a) => CTimer a end)).
  by intros [].
Defined.

(** The functions (with their arguments) that the kernel passes to callouts.
    The token of mdx_sem_cb lives on the stack of the waiting thread. *)
Inductive cbfun :=
| mdx_sched_cb_ (td : Z)
| mdx_sem_cb_ (td : Z)
| mdx_tsleep_cb_ (td : Z)
| mdx_timer_tick_ (t : Z).

(** struct mdx_semaphore *)
Record sem := { sem_count : Z; sem_count_initial : Z; sem_td_list : list Z }.

(** struct token *)
Record token := { tk_sem : Z; tk_timeout : bool }.

(** struct mdx_timer, but for its callout *)
Record timer := { tm_count_us : Z; tm_started : Z; tm_period_us : Z }.

(** struct trapframe, saved by exception.S: the general registers, which the handler
    does not look at, and those that it does. *)
Record trapframe := {
  tf_regs : list Z;
  tf_epc : Z;
  tf_status : Z;
  tf_tval : Z;
  tf_cause : Z
}.

(** The frames in memory, and the field td_tf of the threads. *)
Record frames := { fr_mem : gmap Z trapframe; td_tf : gmap Z Z }.

Record kst := {
  k_cur : Z;                        (** curthread *)
  k_ie : bool;                      (** interrupts enabled *)
  k_td : gmap Z thread;
  k_runq : Z → list Z;
  k_sem : gmap Z sem;
  k_tok : gmap Z token;
  k_timer : gmap Z timer;
  k_mutex : gmap Z (option Z);      (** m->td; the semaphore has the same name *)
  k_fifo : gmap Z (list Z);         (** f->list *)
  k_freed : list Z;                 (** threads given to mdx_thread_free *)
  k_fr : frames;
  k_co : cst ckey cbfun
}.

(** ** Field updates *)

Definition set_cur (v : Z) (k : kst) : kst :=
  {| k_cur := v; k_ie := k_ie k; k_td := k_td k; k_runq := k_runq k; k_sem := k_sem k;
     k_tok := k_tok k; k_timer := k_timer k; k_mutex := k_mutex k; k_fifo := k_fifo k;
     k_freed := k_freed k; k_fr := k_fr k; k_co := k_co k |}.
Definition set_ie (v : bool) (k : kst) : kst :=
  {| k_cur := k_cur k; k_ie := v; k_td := k_td k; k_runq := k_runq k; k_sem := k_sem k;
     k_tok := k_tok k; k_timer := k_timer k; k_mutex := k_mutex k; k_fifo := k_fifo k;
     k_freed := k_freed k; k_fr := k_fr k; k_co := k_co k |}.
Definition set_tds (v : gmap Z thread) (k : kst) : kst :=
  {| k_cur := k_cur k; k_ie := k_ie k; k_td := v; k_runq := k_runq k; k_sem := k_sem k;
     k_tok := k_tok k; k_timer := k_timer k; k_mutex := k_mutex k; k_fifo := k_fifo k;
     k_freed := k_freed k; k_fr := k_fr k; k_co := k_co k |}.
Definition set_runq (v : Z → list Z) (k : kst) : kst :=
  {| k_cur := k_cur k; k_ie := k_ie k; k_td := k_td k; k_runq := v; k_sem := k_sem k;
     k_tok := k_tok k; k_timer := k_timer k; k_mutex := k_mutex k; k_fifo := k_fifo k;
     k_freed := k_freed k; k_fr := k_fr k; k_co := k_co k |}.
Definition set_sems (v : gmap Z sem) (k : kst) : kst :=
  {| k_cur := k_cur k; k_ie := k_ie k; k_td := k_td k; k_runq := k_runq k; k_sem := v;
     k_tok := k_tok k; k_timer := k_timer k; k_mutex := k_mutex k; k_fifo := k_fifo k;
     k_freed := k_freed k; k_fr := k_fr k; k_co := k_co k |}.
Definition set_toks (v : gmap Z token) (k : kst) : kst :=
  {| k_cur := k_cur k; k_ie := k_ie k; k_td := k_td k; k_runq := k_runq k; k_sem := k_sem k;
     k_tok := v; k_timer := k_timer k; k_mutex := k_mutex k; k_fifo := k_fifo k;
     k_freed := k_freed k; k_fr := k_fr k; k_co := k_co k |}.
Definition set_timers (v : gmap Z timer) (k : kst) : kst :=
  {| k_cur := k_cur k; k_ie := k_ie k; k_td := k_td k; k_runq := k_runq k; k_sem := k_sem k;
     k_tok := k_tok k; k_timer := v; k_mutex := k_mutex k; k_fifo := k_fifo k;
     k_freed := k_freed k; k_fr := k_fr k; k_co := k_co k |}.
Definition set_mutexes (v : gmap Z (option Z)) (k : kst) : kst :=
  {| k_cur := k_cur k; k_ie := k_ie k; k_td := k_td k; k_runq := k_runq k; k_sem := k_sem k;
     k_tok := k_tok k; k_timer := k_timer k; k_mutex := v; k_fifo := k_fifo k;
     k_freed := k_freed k; k_fr := k_fr k; k_co := k_co k |}.
Definition set_fifos (v : gmap Z (list Z)) (k : kst) : kst :=
  {| k_cur := k_cur k; k_ie := k_ie k; k_td := k_td k; k_runq := k_runq k; k_sem := k_sem k;
     k_tok := k_tok k; k_timer := k_timer k; k_mutex := k_mutex k; k_fifo := v;
     k_freed := k_freed k; k_fr := k_fr k; k_co := k_co k |}.
Definition set_freed (v : list Z) (k : kst) : kst :=
  {| k_cur := k_cur k; k_ie := k_ie k; k_td := k_td k; k_runq := k_runq k; k_sem := k_sem k;
     k_tok := k_tok k; k_timer := k_timer k; k_mutex := k_mutex k; k_fifo := k_fifo k;
     k_freed := v; k_fr := k_fr k; k_co := k_co k |}.
Definition set_co (v : cst ckey cbfun) (k : kst) : kst :=
  {| k_cur := k_cur k; k_ie := k_ie k; k_td := k_td k; k_runq := k_runq k; k_sem := k_sem k;
     k_tok := k_tok k; k_timer := k_timer k; k_mutex := k_mutex k; k_fifo := k_fifo k;
     k_freed := k_freed k; k_fr := k_fr k; k_co := v |}.

Definition set_fr (v : frames) (k : kst) : kst :=
  {| k_cur := k_cur k; k_ie := k_ie k; k_td := k_td k; k_runq := k_runq k; k_sem := k_sem k;
     k_tok := k_tok k; k_timer := k_timer k; k_mutex := k_mutex k; k_fifo := k_fifo k;
     k_freed := k_freed k; k_fr := v; k_co := k_co k |}.

Definition th_state (st : td_st) (t : thread) : thread :=
  {| td_state := st; td_critnest := td_critnest t; td_saved_ie := td_saved_ie t;
     td_prio := td_prio t; td_quantum := td_quantum t; td_idle := td_idle t; td_flags := td_flags t |}.
Definition th_crit (n : Z) (ie : bool) (t : thread) : thread :=
  {| td_state := td_state t; td_critnest := n; td_saved_ie := ie;
     td_prio := td_prio t; td_quantum := td_quantum t; td_idle := td_idle t; td_flags := td_flags t |}.

Definition get_td (td : Z) (k : kst) : res thread := load (k_td k) td.
Definition put_td (td : Z) (t : thread) (k : kst) : kst := set_tds (<[td := t]> (k_td k)) k.
Definition set_state (td : Z) (st : td_st) (k : kst) : res kst :=
  t ← get_td td k; Ok (put_td td (th_state st t) k).

(** curthread->td_critnest *)
Definition crit (k : kst) : Z := default 0 (td_critnest <$> k_td k !! k_cur k).

(** ** Critical sections (arch/riscv/riscv/machdep.c) *)

Definition critical_enter (k : kst) : res kst :=
  t ← get_td (k_cur k) k;
  if td_critnest t =? 0 then
    Ok (set_ie false (put_td (k_cur k) (th_crit 1 (k_ie k) t) k))
  else Ok (put_td (k_cur k) (th_crit (u32 (td_critnest t + 1)) (td_saved_ie t) t) k).

Definition critical_exit (k : kst) : res kst :=
  t ← get_td (k_cur k) k;
  let n := u32 (td_critnest t - 1) in
  let k := put_td (k_cur k) (th_crit n (td_saved_ie t) t) k in
  if n =? 0 then Ok (set_ie (td_saved_ie t) k) else Ok k.

(** ** Queues of threads *)

(** The node of [td] is in no list. *)
Definition unlinked (NPRIO : nat) (td : Z) (k : kst) : bool :=
  forallb (λ i, negb (bool_decide (td ∈ k_runq k (Z.of_nat i)))) (seq 0 NPRIO) &&
  bool_decide (map_Forall (λ _ s, td ∉ sem_td_list s) (k_sem k)).

Definition lremove (td : Z) (l : list Z) : list Z := filter (λ x, x ≠ td) l.

Section Sched.
Context (NPRIO : nat).   (* MDX_SCHED_NPRIO *)

(** ** The scheduler (kernel/sched/mdx_sched.c) *)

(** [for (i = NPRIO - 1; i >= 0; i--)], [n] = i + 1. *)
Fixpoint pick_loop (n : nat) (k : kst) : res (Z * kst) :=
  match n with
  | O => Err Panic
  | S n =>
    let i := Z.of_nat n in
    match k_runq k i with
    | [] => pick_loop n k
    | td :: l => Ok (td, set_runq (<[i := l]> (k_runq k)) k)
    end
  end.

Definition mdx_sched_pick (k : kst) : res (Z * kst) := pick_loop NPRIO k.

Definition mdx_sched_cb (td : Z) (k : kst) : res kst :=
  kassert (0 <? crit k);;
  t ← get_td td k;
  kassert (bool_decide (td_state t = TD_STATE_RUNNING));;
  set_state td TD_STATE_READY k.

Definition mdx_sched_add (td : Z) (k : kst) : res kst :=
  k ← critical_enter k;
  t ← get_td td k;
  kassert (td_prio t <? Z.of_nat NPRIO);;
  if (0 <=? td_prio t) && unlinked NPRIO td k then
    critical_exit (set_runq (<[td_prio t := k_runq k (td_prio t) ++ [td]]> (k_runq k)) k)
  else Err Fault.

(** mdx_thread_free() with MDX_THREAD_DYNAMIC_ALLOC; what is freed is recorded. *)
Definition mdx_thread_terminate_cleanup (td : Z) (k : kst) : res kst :=
  t ← get_td td k;
  kassert (bool_decide (td_state t = TD_STATE_TERMINATING));;
  Ok (set_freed (k_freed k ++ [td]) k).

Definition mdx_sched_ack (td : Z) (k : kst) : res (bool * kst) :=
  t ← get_td td k;
  match td_state t with
  | TD_STATE_TERMINATING => k ← mdx_thread_terminate_cleanup td k; Ok (true, k)
  | TD_STATE_SEM_WAIT | TD_STATE_SLEEPING => k ← set_state td TD_STATE_ACK k; Ok (true, k)
  | _ => Ok (false, k)
  end.

Definition mdx_sched_park (td : Z) (k : kst) : res (bool * kst) :=
  t ← get_td td k;
  match td_state t with
  | TD_STATE_RUNNING => Ok (false, k)
  | TD_STATE_YIELDING | TD_STATE_READY => k ← mdx_sched_add td k; Ok (true, k)
  | _ => Err Panic
  end.

Definition mdx_sched_next (k : kst) : res (Z * kst) :=
  kassert (0 <? crit k);;
  '(td, k) ← mdx_sched_pick k;
  t ← get_td td k;
  k ← (if td_idle t then Ok k else set_state td TD_STATE_RUNNING k);
  if td_quantum t =? 0 then Ok (td, k) else
  kassert (negb (td_idle t));;
  let co := mdx_callout_init (CTd td) (k_co k) in
  '(_, co) ← mdx_callout_set_ticks (crit k) 0 (CTd td) (td_quantum t) (Some (mdx_sched_cb_ td)) co;
  Ok (td, set_co co k).

Definition mdx_sched_init (k : kst) : kst :=
  set_runq (λ i, if (0 <=? i) && (i <? Z.of_nat NPRIO) then [] else k_runq k i) k.

(** ** Exceptions (arch/riscv/riscv/trap.c)

    The configuration of a 64-bit CPU without MDX_SCHED_SMP and MDX_RISCV_FPE.  The
    frame at [tf] was written by exception.S, which restores the frame that the
    function returns; interrupts are off all the time. *)
Definition EXCP_INTR : Z := Z.shiftl 1 63.
Definition EXCP_MASK : Z := 0xfff.
Definition EXCP_BREAKPOINT : Z := 3.
Definition EXCP_MACHINE_ECALL : Z := 11.

Definition add_epc (n : Z) (f : trapframe) : trapframe :=
  {| tf_regs := tf_regs f; tf_epc := u64 (tf_epc f + n); tf_status := tf_status f;
     tf_tval := tf_tval f; tf_cause := tf_cause f |}.

Definition put_frame (tf : Z) (f : trapframe) (k : kst) : kst :=
  set_fr {| fr_mem := <[tf := f]> (fr_mem (k_fr k)); td_tf := td_tf (k_fr k) |} k.
(** [td->td_tf = tf] *)
Definition set_td_tf (td tf : Z) (k : kst) : kst :=
  set_fr {| fr_mem := fr_mem (k_fr k); td_tf := <[td := tf]> (td_tf (k_fr k)) |} k.

Definition handle_exception (tf : Z) (k : kst) : res kst :=
  f ← load (fr_mem (k_fr k)) tf;
  let code := Z.land (tf_cause f) EXCP_MASK in
  if code =? EXCP_MACHINE_ECALL then Ok (put_frame tf (add_epc 4 f) k) else
  if code =? EXCP_BREAKPOINT then Ok (put_frame tf (add_epc 2 f) k) else
  Err Panic.

(** [intr] is this CPU's interrupt thread; riscv_intr(irq) is the code of the board. *)
Definition riscv_exception (intr : Z) (riscv_intr : Z → kst → res kst) (tf : Z) (k : kst) : res (Z * kst) :=
  let td := k_cur k in
  let k := set_td_tf td tf k in
  f ← load (fr_mem (k_fr k)) tf;
  let isintr := negb (Z.land (tf_cause f) EXCP_INTR =? 0) in
  let irq := Z.land (tf_cause f) EXCP_MASK in
  k ← (if isintr then Ok k else handle_exception tf k);
  '(released, k) ← mdx_sched_ack td k;
  let k := set_cur intr k in
  it ← get_td intr k;
  let k := put_td intr (th_crit (u32 (td_critnest it + 1)) (td_saved_ie it) it) k in
  k ← (if isintr then riscv_intr irq k else Ok k);
  '(released, k) ← (if released : bool then Ok (true, k) else mdx_sched_park td k);
  '(td, k) ← (if released : bool then mdx_sched_next k else Ok (td, k));
  it ← get_td intr k;
  let k := put_td intr (th_crit (u32 (td_critnest it - 1)) (td_saved_ie it) it) k in
  tf ← load (td_tf (k_fr k)) td;
  Ok (tf, set_cur td k).

(** ** Semaphores (kernel/sched/mdx_sem.c) *)

Definition mdx_sem_init (s count : Z) (k : kst) : kst :=
  set_sems (<[s := {| sem_count := count; sem_count_initial := count; sem_td_list := [] |}]> (k_sem k)) k.

Definition set_count (n : Z) (s : sem) : sem :=
  {| sem_count := n; sem_count_initial := sem_count_initial s; sem_td_list := sem_td_list s |}.
Definition set_waiters (l : list Z) (s : sem) : sem :=
  {| sem_count := sem_count s; sem_count_initial := sem_count_initial s; sem_td_list := l |}.

Definition mdx_sem_cb (td : Z) (k : kst) : res kst :=
  tk ← load (k_tok k) td;
  kassert (0 <? crit k);;
  t ← get_td td k;
  if decide (td_state t = TD_STATE_SEM_UNLOCK) then set_state td TD_STATE_SEM_UNLOCK_ACK k else
  let k := set_toks (<[td := {| tk_sem := tk_sem tk; tk_timeout := true |}]> (k_tok k)) k in
  kassert (bool_decide (td_state t = TD_STATE_ACK));;
  s ← load (k_sem k) (tk_sem tk);
  let k := set_sems (<[tk_sem tk := set_waiters (lremove td (sem_td_list s)) s]> (k_sem k)) k in
  k ← set_state td TD_STATE_WAKEUP k;
  mdx_sched_add td k.

(** mdx_sem_timedwait() up to md_thread_yield(): [Some 1] when the semaphore is
    taken at once, [None] when the thread has to leave the CPU. *)
Definition mdx_sem_timedwait (s usec : Z) (k : kst) : res (option Z * kst) :=
  let td := k_cur k in
  t ← get_td td k;
  kassert (negb (td_idle t));;
  kassert (td_critnest t =? 0);;
  k ← critical_enter k;
  sm ← load (k_sem k) s;
  if 0 <? sem_count sm then
    k ← critical_exit (set_sems (<[s := set_count (sem_count sm - 1) sm]> (k_sem k)) k);
    Ok (Some 1, k)
  else
    '(_, co) ← mdx_callout_cancel (crit k) (CTd td) (k_co k);
    let k := set_co co k in
    k ← (if usec =? 0 then Ok k else
           let k := set_toks (<[td := {| tk_sem := s; tk_timeout := false |}]> (k_tok k)) k in
           let co := mdx_callout_init (CTd td) (k_co k) in
           '(_, co) ← mdx_callout_set (crit k) 0 (CTd td) (u32 usec) (Some (mdx_sem_cb_ td)) co;
           Ok (set_co co k));
    k ← set_state td TD_STATE_SEM_WAIT k;
    if unlinked NPRIO td k then
      k ← critical_exit (set_sems (<[s := set_waiters (sem_td_list sm ++ [td]) sm]> (k_sem k)) k);
      Ok (None, k)
    else Err Fault.

(** The end of mdx_sem_timedwait(), when the thread runs again. *)
Definition timedwait_result (usec : Z) (k : kst) : res Z :=
  if usec =? 0 then Ok 1 else
  tk ← load (k_tok k) (k_cur k);
  Ok (if tk_timeout tk then 0 else 1).

Definition mdx_sem_wait (s : Z) (k : kst) : res (option Z * kst) := mdx_sem_timedwait s 0 k.

Definition mdx_sem_trywait (s : Z) (k : kst) : res (Z * kst) :=
  k ← critical_enter k;
  sm ← load (k_sem k) s;
  if 0 <? sem_count sm then
    k ← critical_exit (set_sems (<[s := set_count (sem_count sm - 1) sm]> (k_sem k)) k);
    Ok (1, k)
  else
    k ← critical_exit k; Ok (0, k).

Definition mdx_sem_post (s : Z) (k : kst) : res (Z * kst) :=
  k ← critical_enter k;
  sm ← load (k_sem k) s;
  match sem_td_list sm with
  | [] =>
    k ← critical_exit (set_sems (<[s := set_count (s32 (sem_count sm + 1)) sm]> (k_sem k)) k);
    Ok (1, k)
  | td :: l =>
    let k := set_sems (<[s := set_waiters l sm]> (k_sem k)) k in
    t ← get_td td k;
    (* while (td->td_state != TD_STATE_ACK) cpu_nullop(); *)
    if decide (td_state t ≠ TD_STATE_ACK) then Err NoFuel else
    k ← set_state td TD_STATE_SEM_UNLOCK k;
    '(_, co) ← mdx_callout_cancel (crit k) (CTd td) (k_co k);
    let k := set_co co k in
    t ← get_td td k;
    kassert (bool_decide (td_state t = TD_STATE_SEM_UNLOCK ∨ td_state t = TD_STATE_SEM_UNLOCK_ACK));;
    k ← set_state td TD_STATE_WAKEUP k;
    k ← mdx_sched_add td k;
    k ← critical_exit k;
    Ok (1, k)
  end.

(** ** Sleeping (kernel/sched/mdx_tsleep.c) *)

Definition mdx_tsleep_cb (td : Z) (k : kst) : res kst :=
  kassert (0 <? crit k);;
  t ← get_td td k;
  kassert (bool_decide (td_state t = TD_STATE_ACK));;
  mdx_sched_add td k.

(** mdx_tsleep() up to md_thread_yield(). *)
Definition mdx_tsleep (ticks : Z) (k : kst) : res kst :=
  kassert (0 <? ticks);;
  let td := k_cur k in
  t ← get_td td k;
  kassert (negb (td_idle t));;
  kassert (td_critnest t =? 0);;
  let k := set_co (mdx_callout_init (CStack td) (k_co k)) k in
  k ← critical_enter k;
  k ← set_state td TD_STATE_SLEEPING k;
  '(_, co) ← mdx_callout_cancel (crit k) (CTd td) (k_co k);
  '(_, co) ← mdx_callout_set_ticks (crit k) 0 (CStack td) ticks (Some (mdx_tsleep_cb_ td)) co;
  critical_exit (set_co co k).

Definition mdx_usleep (usec : Z) (k : kst) : res kst :=
  ticks ← mdx_callout_usec_to_ticks usec (k_co k);
  mdx_tsleep ticks k.

(** ** Threads (kernel/thread) *)

(** mdx_thread_yield() up to md_thread_yield(). *)
Definition mdx_thread_yield (k : kst) : res kst :=
  k ← critical_enter k;
  k ← set_state (k_cur k) TD_STATE_YIELDING k;
  critical_exit k.

(** mdx_thread_terminate() up to md_thread_yield(); md_thread_terminate() is
    empty on this architecture. *)
Definition mdx_thread_terminate (k : kst) : res kst :=
  k ← critical_enter k;
  k ← set_state (k_cur k) TD_STATE_TERMINATING k;
  '(_, co) ← mdx_callout_cancel (crit k) (CTd (k_cur k)) (k_co k);
  critical_exit (set_co co k).

(** mdx_thread_setup(): the stack and the entry point are given as whether the
    pointers are NULL; the frame is set up by machine code. *)
Definition mdx_thread_setup (td : option Z) (stack : bool) (stack_size : Z) (prio quantum_usec : Z)
    (entry : bool) (k : kst) : res (Z * kst) :=
  match td with
  | None => Ok (MDX_ERROR, k)
  | Some td =>
    if negb stack then Ok (MDX_ERROR, k) else
    if stack_size =? 0 then Ok (MDX_ERROR, k) else
    if negb entry then Ok (MDX_ERROR, k) else
    t ← get_td td k;
    qt ← (if quantum_usec =? 0 then Ok 0 else mdx_callout_usec_to_ticks quantum_usec (k_co k));
    Ok (MDX_OK, put_td td {| td_state := TD_STATE_READY; td_critnest := td_critnest t;
                             td_saved_ie := td_saved_ie t; td_prio := prio; td_quantum := qt;
                             td_idle := td_idle t; td_flags := td_flags t |} k)
  end.

(** The idle thread of the booting CPU (MDX_SCHED). *)
Definition mdx_thread_init (td : Z) (k : kst) : kst :=
  set_cur td (put_td td {| td_state := TD_STATE_READY; td_critnest := 0; td_saved_ie := false;
                           td_prio := 0; td_quantum := 0; td_idle := true; td_flags := 0 |} k).

(** ** Mutexes (kernel/sched/mdx_mutex.c) *)

Definition mdx_mutex_init (m : Z) (k : kst) : kst :=
  mdx_sem_init m 1 (set_mutexes (<[m := None]> (k_mutex k)) k).

(** [if (ret) m->td = curthread;] *)
Definition set_owner (m ret : Z) (k : kst) : kst :=
  if ret =? 0 then k else set_mutexes (<[m := Some (k_cur k)]> (k_mutex k)) k.

(** mdx_mutex_timedlock() and mdx_mutex_lock() up to the wait; the owner is set
    when the wait returns. *)
Definition mdx_mutex_timedlock (m usec : Z) (k : kst) : res (option Z * kst) :=
  '(r, k) ← mdx_sem_timedwait m usec k;
  match r with Some ret => Ok (Some ret, set_owner m ret k) | None => Ok (None, k) end.

Definition mdx_mutex_lock (m : Z) (k : kst) : res (option Z * kst) :=
  kassert (crit k =? 0);;
  '(r, k) ← mdx_sem_wait m k;
  match r with
  | Some ret => Ok (Some ret, set_mutexes (<[m := Some (k_cur k)]> (k_mutex k)) k)
  | None => Ok (None, k)
  end.

Definition mdx_mutex_trylock (m : Z) (k : kst) : res (Z * kst) :=
  '(ret, k) ← mdx_sem_trywait m k;
  Ok (ret, set_owner m ret k).

Definition mdx_mutex_unlock (m : Z) (k : kst) : res (Z * kst) :=
  o ← load (k_mutex k) m;
  if decide (o ≠ Some (k_cur k)) then Err Panic else mdx_sem_post m k.

(** ** Fifos (kernel/sched/mdx_fifo.c) *)

Definition mdx_fifo_init (f : Z) (k : kst) : kst :=
  mdx_sem_init f 0 (set_fifos (<[f := []]> (k_fifo k)) k).

Definition mdx_fifo_put (f e : Z) (k : kst) : res kst :=
  k ← critical_enter k;
  l ← load (k_fifo k) f;
  k ← critical_exit (set_fifos (<[f := l ++ [e]]> (k_fifo k)) k);
  '(_, k) ← mdx_sem_post f k;
  Ok k.

(** What mdx_fifo_get() and mdx_fifo_get_wait() do once they hold a permit. *)
Definition fifo_take (f : Z) (k : kst) : res (Z * kst) :=
  k ← critical_enter k;
  l ← load (k_fifo k) f;
  match l with
  | [] => Err Fault (* the head of an empty list is not an entry *)
  | e :: l =>
    k ← critical_exit (set_fifos (<[f := l]> (k_fifo k)) k);
    Ok (e, k)
  end.

Definition mdx_fifo_get (f : Z) (k : kst) : res (option Z * kst) :=
  '(r, k) ← mdx_sem_trywait f k;
  if r =? 0 then Ok (None, k) else '(e, k) ← fifo_take f k; Ok (Some e, k).

(** mdx_fifo_get_wait() when the permit is available. *)
Definition mdx_fifo_get_wait (f : Z) (k : kst) : res (option Z * kst) :=
  '(r, k) ← mdx_sem_wait f k;
  match r with
  | Some _ => '(e, k) ← fifo_take f k; Ok (Some e, k)
  | None => Ok (None, k)
  end.

(** ** Periodic timers (kernel/timer) *)

Definition mdx_timer_tick (tm : Z) (k : kst) : res kst :=
  kassert (0 <? crit k);;
  t ← load (k_timer k) tm;
  let k := set_timers (<[tm := {| tm_count_us := u64 (tm_count_us t + tm_period_us t);
    tm_started := tm_started t; tm_period_us := tm_period_us t |}]> (k_timer k)) k in
  '(_, co) ← mdx_callout_set_locked (crit k) 0 (CTimer tm) (tm_period_us t)
    (Some (mdx_timer_tick_ tm)) (k_co k);
  Ok (set_co co k).

Definition mdx_timer_start (tm period_us : Z) (k : kst) : res (Z * kst) :=
  t ← load (k_timer k) tm;
  (* atomic_cmpset_int(&timer->started, 0, 1) *)
  if negb (tm_started t =? 0) then Ok (MDX_ERROR, k) else
  let k := set_timers (<[tm := {| tm_count_us := tm_count_us t; tm_started := 1;
    tm_period_us := u32 period_us |}]> (k_timer k)) k in
  '(_, co) ← mdx_callout_set (crit k) 0 (CTimer tm) (u32 period_us) (Some (mdx_timer_tick_ tm)) (k_co k);
  Ok (0, set_co co k).

Definition mdx_timer_count (tm : Z) (k : kst) : res Z :=
  t ← load (k_timer k) tm; Ok (tm_count_us t).

(** ** c->func(c->arg) *)

Definition run_cb (f : cbfun) (k : kst) : res kst :=
  match f with
  | mdx_sched_cb_ td => mdx_sched_cb td k
  | mdx_sem_cb_ td => mdx_sem_cb td k
  | mdx_tsleep_cb_ td => mdx_tsleep_cb td k
  | mdx_timer_tick_ tm => mdx_timer_tick tm k
  end.

#[export] Program Instance kernel_world : World ckey cbfun kst := {|
  get_cst := k_co;
  put_cst := set_co;
  w_crit := crit;
  w_call := run_cb
|}.
Next Obligation. done. Qed.
Next Obligation. done. Qed.
Next Obligation. by intros []. Qed.
Next Obligation. done. Qed.
End Sched.
