(* ===== verification/KernelTheorems.v ===== *)
(** * The kernel: scheduling, semaphores, mutexes

    Every operation is a block of code with interrupts off, so its theorem
    describes one step of the system; [enter_exit] is the shared lemma on
    critical sections. *)

From S2P Require Import Prelude Callout CalloutProofs CalloutInterrupt Kernel.
Local Open Scope Z_scope.

(** ** Threads and critical sections *)

Lemma get_td_Some td k t : k_td k !! td = Some t → get_td td k = Ok t.
Proof. apply load_Some. Qed.

Lemma set_state_Some td st k t :
  k_td k !! td = Some t → set_state td st k = Ok (put_td td (th_state st t) k).
Proof. intros E. unfold set_state. by rewrite (get_td_Some _ _ _ E). Qed.

Lemma put_put_td td t t' k : put_td td t (put_td td t' k) = put_td td t k.
Proof. unfold put_td, set_tds. simpl. by rewrite insert_insert_eq. Qed.

Lemma put_td_id td t k : k_td k !! td = Some t → put_td td t k = k.
Proof. intros E. unfold put_td, set_tds. rewrite insert_id by done. by destruct k. Qed.

Lemma crit_eq k t : k_td k !! k_cur k = Some t → crit k = td_critnest t.
Proof. intros E. unfold crit. by rewrite E. Qed.

Lemma enter_outer k t :
  k_td k !! k_cur k = Some t → td_critnest t = 0 →
  critical_enter k = Ok (set_ie false (put_td (k_cur k) (th_crit 1 (k_ie k) t) k)).
Proof. intros E Hn. unfold critical_enter. rewrite (get_td_Some _ _ _ E). cbn. by rewrite Hn. Qed.

Lemma enter_inner k t :
  k_td k !! k_cur k = Some t → 0 < td_critnest t < 2 ^ 32 - 1 →
  critical_enter k = Ok (put_td (k_cur k) (th_crit (td_critnest t + 1) (td_saved_ie t) t) k).
Proof.
  intros E Hn. unfold critical_enter. rewrite (get_td_Some _ _ _ E). cbn [mbind res_bind].
  destruct (Z.eqb_spec (td_critnest t) 0); [lia|]. by rewrite wrap_small by lia.
Qed.

Lemma exit_outer k t :
  k_td k !! k_cur k = Some t → td_critnest t = 1 →
  critical_exit k = Ok (set_ie (td_saved_ie t) (put_td (k_cur k) (th_crit 0 (td_saved_ie t) t) k)).
Proof. intros E Hn. unfold critical_exit. rewrite (get_td_Some _ _ _ E). cbn. by rewrite Hn. Qed.

Lemma exit_inner k t :
  k_td k !! k_cur k = Some t → 1 < td_critnest t < 2 ^ 32 →
  critical_exit k = Ok (put_td (k_cur k) (th_crit (td_critnest t - 1) (td_saved_ie t) t) k).
Proof.
  intros E Hn. unfold critical_exit. rewrite (get_td_Some _ _ _ E). cbn [mbind res_bind].
  rewrite wrap_small by lia. destruct (Z.eqb_spec (td_critnest t - 1) 0); [lia|done].
Qed.

(** ** Callouts of a thread *)

Lemma init_inv (co : cst ckey cbfun) c x :
  callout_inv co → tab co !! c = Some x → is_active x = false →
  ∃ y, tab (mdx_callout_init c co) !! c = Some y ∧ is_active y = false ∧
    callout_inv (mdx_callout_init c co) ∧ cpus (mdx_callout_init c co) = cpus co ∧
    (∀ i, dls (mdx_callout_init c co) i = dls co i) ∧
    mi_tmr (mdx_callout_init c co) = mi_tmr co ∧
    ∀ c', c' ≠ c → tab (mdx_callout_init c co) !! c' = tab co !! c'.
Proof.
  intros I Ex Ha. unfold mdx_callout_init. rewrite Ex.
  set (y := with_state CALLOUT_STATE_READY (with_flags 0 x)).
  assert (∀ j, c ∉ q (cpus co j)) as Hc by (intros j; by eapply inactive_not_queued).
  assert (∀ i, cpu_ok (upd c y co) i ∧ dls (upd c y co) i = dls co i) as Hok.
  { intros i. apply cpu_ok_ext; [apply I|done|]. intros a Ha'. simpl. rewrite lookup_insert_ne; [done|].
    intros <-. by apply (Hc i). }
  exists y. split_and!; [simpl; by rewrite lookup_insert_eq|done| |done|apply Hok|done|].
  - constructor; [apply Hok|]. intros a z Ez Hz. simpl in Ez. destruct (decide (a = c)) as [->|Hne].
    + rewrite lookup_insert_eq in Ez. injection Ez as <-. done.
    + rewrite lookup_insert_ne in Ez by done. by apply (inv_active _ I a z).
  - intros c' Hne. simpl. by rewrite lookup_insert_ne.
Qed.

(** After mdx_callout_cancel() a callout is idle, whatever it was. *)
Lemma cancel_idle (co : cst ckey cbfun) c x cr :
  callout_inv co → is_Some (mi_tmr co) → 0 < cr → tab co !! c = Some x →
  ∃ e co' y, mdx_callout_cancel cr c co = Ok (e, co') ∧ callout_inv co' ∧ mi_tmr co' = mi_tmr co ∧
    tab co' !! c = Some y ∧ is_active y = false ∧
    (∀ i mt, base_elapsed mt (cpus co' i) = base_elapsed mt (cpus co i)) ∧
    (∀ c', c' ≠ c → with_ticks 0 <$> tab co' !! c' = with_ticks 0 <$> tab co !! c').
Proof.
  intros I Hm Hcr Ex. unfold mdx_callout_cancel, kassert. rewrite bool_decide_eq_true_2 by done.
  destruct (Z.ltb_spec 0 cr); [|lia]. cbn [mbind res_bind]. destruct (is_active x) eqn:Ha.
  - destruct (cancel_spec co c x I Ex Ha)
      as (co' & E & I' & Em & _ & Hj & (y & Ey & Hy & _) & Hoth & F1 & F2 & F3 & F4).
    eexists _, co', y. split_and!; try done. intros i mt. unfold base_elapsed, elapsed_of.
    destruct (decide (i = c_cpuid x)) as [->|Hne]; [by rewrite F1, F2, F3|].
    by destruct (Hj i Hne) as [-> _].
  - eexists 1, co, x. split_and!; try done. unfold mdx_callout_cancel_locked.
    rewrite (load_c_Some _ _ _ Ex). cbn [mbind res_bind]. by rewrite Ha.
Qed.

Section Kernel.
Context (NPRIO : nat).

(** ** Adding to the run queue *)

Definition enqueue (td prio : Z) (k : kst) : kst :=
  set_runq (<[prio := k_runq k prio ++ [td]]> (k_runq k)) k.

Lemma sched_add_spec td k t t0 :
  k_td k !! k_cur k = Some t0 → 0 < td_critnest t0 < 2 ^ 32 - 1 → k_td k !! td = Some t →
  0 ≤ td_prio t < Z.of_nat NPRIO → unlinked NPRIO td k = true →
  mdx_sched_add NPRIO td k = Ok (enqueue td (td_prio t) k).
Proof.
  intros E0 Hn Et Hp Hu. unfold mdx_sched_add. rewrite (enter_inner _ _ E0 Hn). cbn [mbind res_bind].
  set (k1 := put_td _ _ k).
  assert (∃ t1, k_td k1 !! td = Some t1 ∧ td_prio t1 = td_prio t) as (t1 & E1 & Ep).
  { unfold k1. simpl. destruct (decide (td = k_cur k)) as [->|Hne].
    - rewrite lookup_insert_eq. eexists. split; [done|]. assert (t0 = t) as -> by congruence. done.
    - rewrite lookup_insert_ne by done. eauto. }
  rewrite (get_td_Some _ _ _ E1). cbn [mbind res_bind]. rewrite Ep.
  unfold kassert. destruct (Z.ltb_spec (td_prio t) (Z.of_nat NPRIO)); [|lia].
  destruct (Z.leb_spec 0 (td_prio t)); [|lia]. cbn [mbind res_bind andb].
  change (unlinked NPRIO td k1) with (unlinked NPRIO td k). rewrite Hu.
  erewrite exit_inner.
  2:{ unfold k1. simpl. by rewrite lookup_insert_eq. }
  2:{ simpl. lia. }
  unfold enqueue, k1, put_td, set_tds, set_runq. simpl. rewrite insert_insert_eq.
  rewrite insert_id; [done|]. rewrite E0. f_equal. unfold th_crit. simpl.
  replace (td_critnest t0 + 1 - 1) with (td_critnest t0) by lia. by destruct t0.
Qed.

Lemma unlinked_spec td k :
  unlinked NPRIO td k = true ↔
  (∀ i, 0 ≤ i < Z.of_nat NPRIO → td ∉ k_runq k i) ∧ (∀ s sm, k_sem k !! s = Some sm → td ∉ sem_td_list sm).
Proof.
  unfold unlinked. rewrite andb_true_iff, forallb_forall, bool_decide_eq_true. split.
  - intros [H1 H2]. split; [|exact H2]. intros i Hi.
    specialize (H1 (Z.to_nat i)). rewrite negb_true_iff, bool_decide_eq_false in H1.
    rewrite Z2Nat.id in H1 by lia. apply H1, in_seq. lia.
  - intros [H1 H2]. split; [|exact H2]. intros i Hi%in_seq.
    rewrite negb_true_iff, bool_decide_eq_false. apply H1. lia.
Qed.

(** ** Picking a thread *)

Lemma pick_loop_spec n k :
  (∃ i td l, 0 ≤ i < Z.of_nat n ∧ k_runq k i = td :: l ∧
     (∀ j, i < j < Z.of_nat n → k_runq k j = []) ∧
     pick_loop n k = Ok (td, set_runq (<[i := l]> (k_runq k)) k)) ∨
  ((∀ j, 0 ≤ j < Z.of_nat n → k_runq k j = []) ∧ pick_loop n k = Err Panic).
Proof.
  induction n as [|n IH]; [right; split; [lia|done]|].
  cbn [pick_loop]. destruct (k_runq k (Z.of_nat n)) as [|td l] eqn:E.
  - destruct IH as [(i & td & l & Hi & Hq & Hh & Hp) | [Hh Hp]].
    + left. exists i, td, l. split_and!; [lia|lia|done| |done].
      intros j Hj. destruct (decide (j = Z.of_nat n)) as [->|]; [done|]. apply Hh. lia.
    + right. split; [|done]. intros j Hj.
      destruct (decide (j = Z.of_nat n)) as [->|]; [done|]. apply Hh. lia.
  - left. exists (Z.of_nat n), td, l. split_and!; [lia|lia|done|lia|done].
Qed.

(** Mdx_sched_pick takes the thread that has waited longest in the
    non-empty queue of highest priority and leaves all other queues alone; it
    panics exactly when every queue is empty. *)
Theorem sched_picks_highest (k : kst) :
  (∃ i td l, 0 ≤ i < Z.of_nat NPRIO ∧ k_runq k i = td :: l ∧
     (∀ j, i < j < Z.of_nat NPRIO → k_runq k j = []) ∧
     mdx_sched_pick NPRIO k = Ok (td, set_runq (<[i := l]> (k_runq k)) k)) ∨
  ((∀ j, 0 ≤ j < Z.of_nat NPRIO → k_runq k j = []) ∧ mdx_sched_pick NPRIO k = Err Panic).
Proof. apply pick_loop_spec. Qed.

(** ** Semaphores *)

(** The abstract semaphore: permits and the waiting threads, oldest first. *)
Record asem := { a_count : Z; a_wait : list Z }.

Definition view (sm : sem) : asem := {| a_count := sem_count sm; a_wait := sem_td_list sm |}.

(** A post hands its permit to the oldest waiter. *)
Definition a_post (a : asem) : asem :=
  match a_wait a with
  | [] => {| a_count := a_count a + 1; a_wait := [] |}
  | _ :: l => {| a_count := a_count a; a_wait := l |}
  end.
(** A thread asks for a permit. *)
Definition a_take (td : Z) (a : asem) : asem :=
  if 0 <? a_count a then {| a_count := a_count a - 1; a_wait := a_wait a |}
  else {| a_count := a_count a; a_wait := a_wait a ++ [td] |}.
(** A waiter gives up. *)
Definition a_timeout (td : Z) (a : asem) : asem :=
  {| a_count := a_count a; a_wait := lremove td (a_wait a) |}.

(** The running thread may enter a critical section. *)
Definition running (k : kst) (t : thread) : Prop :=
  k_td k !! k_cur k = Some t ∧ td_critnest t = 0 ∧ k_ie k = true.

(** ... and leaves it as it was. *)
Definition after_section (t : thread) (k : kst) : kst := put_td (k_cur k) (th_crit 0 true t) k.

Lemma section_exit k t k' :
  k_cur k' = k_cur k → k_td k' !! k_cur k = Some (th_crit 1 true t) →
  critical_exit k' = Ok (set_ie true (after_section t k')).
Proof.
  intros Ec Et. erewrite exit_outer; [|by rewrite Ec|done]. simpl.
  unfold after_section. by rewrite !Ec.
Qed.

(** C10: mdx_sem_post by a running thread refines the abstract post.  Without
    waiters the count grows by one and nothing else changes.  Otherwise the
    oldest waiter (which has left its CPU) leaves the semaphore, its timeout
    callout is cancelled, and it is the last in the run queue of its priority,
    in state WAKEUP; the count is unchanged: the permit is handed over. *)
Theorem sem_post_refines (s : Z) (k : kst) (t0 : thread) (sm : sem) :
  running k t0 → callout_inv (k_co k) → is_Some (mi_tmr (k_co k)) →
  k_sem k !! s = Some sm → sem_count sm < 2 ^ 31 - 1 → - 2 ^ 31 ≤ sem_count sm →
  (∀ td l, sem_td_list sm = td :: l → ∃ t, k_td k !! td = Some t ∧ td_state t = TD_STATE_ACK ∧
     0 ≤ td_prio t < Z.of_nat NPRIO ∧ td ≠ k_cur k ∧ is_Some (tab (k_co k) !! CTd td) ∧
     unlinked NPRIO td (set_sems (<[s := set_waiters l sm]> (k_sem k)) k) = true) →
  ∃ k' sm', mdx_sem_post NPRIO s k = Ok (1, k') ∧ k_sem k' = <[s := sm']> (k_sem k) ∧
    view sm' = a_post (view sm) ∧ k_ie k' = true ∧ k_cur k' = k_cur k ∧
    match sem_td_list sm with
    | [] => k_runq k' = k_runq k ∧ k_td k' = <[k_cur k := th_crit 0 true t0]> (k_td k) ∧
            k_co k' = k_co k
    | td :: _ => ∃ t x, k_td k !! td = Some t ∧
        k_runq k' = <[td_prio t := k_runq k (td_prio t) ++ [td]]> (k_runq k) ∧
        k_td k' = <[td := th_state TD_STATE_WAKEUP t]> (<[k_cur k := th_crit 0 true t0]> (k_td k)) ∧
        tab (k_co k') !! CTd td = Some x ∧ is_active x = false ∧ callout_inv (k_co k')
    end.
Proof.
  intros Hrun I Hm Hs Hmax Hmin Hw. pose proof Hrun as (E0 & Hn0 & Hie).
  unfold mdx_sem_post. rewrite (enter_outer _ _ E0 Hn0), Hie. cbn [mbind res_bind].
  set (k1 := set_ie false _). change (k_sem k1) with (k_sem k). rewrite (load_Some _ _ _ Hs).
  cbn [mbind res_bind].
  assert (k_td k1 !! k_cur k = Some (th_crit 1 true t0)) as E1 by (simpl; by rewrite lookup_insert_eq).
  destruct (sem_td_list sm) as [|td l] eqn:Ew.
  - rewrite swrap_small by (simpl; lia).
    rewrite (section_exit k t0) by (done || exact E1). cbn [mbind res_bind].
    eexists _, _. split; [reflexivity|]. split_and!; try done.
    + unfold view, a_post, set_count. simpl. by rewrite Ew.
    + simpl. by rewrite insert_insert_eq.
  - destruct (Hw td l eq_refl) as (t & Et & Hst & Hpr & Hne & Hco & Hu).
    assert (k_td k1 !! td = Some t) as Et1 by (simpl; by rewrite lookup_insert_ne).
    cbv zeta. set (k2 := set_sems _ k1).
    rewrite (get_td_Some td k2 t Et1). cbn [mbind res_bind]. rewrite decide_False by (by rewrite Hst; auto).
    rewrite (set_state_Some td _ k2 t Et1). cbn [mbind res_bind].
    set (k3 := put_td td _ k2).
    assert (k_td k3 !! k_cur k3 = Some (th_crit 1 true t0)) as E3.
    { simpl. rewrite lookup_insert_ne by done. by rewrite lookup_insert_eq. }
    assert (∃ co e, mdx_callout_cancel (crit k3) (CTd td) (k_co k3) = Ok (e, co) ∧ callout_inv co ∧
      ∃ x, tab co !! CTd td = Some x ∧ is_active x = false) as (co & e & Eca & I' & x & Ex & Hx).
    { change (k_co k3) with (k_co k). rewrite (crit_eq _ _ E3). cbn [td_critnest th_crit].
      destruct Hco as [x Ex]. unfold mdx_callout_cancel, kassert.
      rewrite bool_decide_eq_true_2 by done. cbn [mbind res_bind].
      destruct (is_active x) eqn:Ha.
      - destruct (cancel_spec (k_co k) _ x I Ex Ha) as (co & -> & I' & _ & _ & _ & (y & Ey & Hy & _) & _).
        eexists _, _. split; [reflexivity|]. split; [done|]. by exists y.
      - unfold mdx_callout_cancel_locked. rewrite (load_c_Some _ _ _ Ex). cbn [mbind res_bind].
        rewrite Ha. eexists _, _. split; [reflexivity|]. split; [done|]. by exists x. }
    rewrite Eca. cbn [mbind res_bind].
    set (k4 := set_co co k3).
    assert (k_td k4 !! td = Some (th_state TD_STATE_SEM_UNLOCK t)) as Et4.
    { simpl. by rewrite lookup_insert_eq. }
    rewrite (get_td_Some _ _ _ Et4). cbn [mbind res_bind]. unfold kassert.
    rewrite bool_decide_eq_true_2 by (by left). cbn [mbind res_bind].
    rewrite (set_state_Some _ _ _ _ Et4). cbn [mbind res_bind].
    set (k5 := put_td td _ k4).
    assert (k_td k5 !! k_cur k5 = Some (th_crit 1 true t0)) as E5.
    { simpl. rewrite !lookup_insert_ne by done. by rewrite lookup_insert_eq. }
    rewrite (sched_add_spec td k5 (th_state TD_STATE_WAKEUP t) (th_crit 1 true t0));
      [|exact E5|simpl; lia|simpl; by rewrite lookup_insert_eq|done|exact Hu].
    cbn [mbind res_bind]. rewrite (section_exit k t0) by (done || exact E5). cbn [mbind res_bind].
    eexists _, _. split; [reflexivity|]. split_and!; try done.
    + unfold view, a_post, set_waiters. simpl. by rewrite Ew.
    + exists t, x. split_and!; try done. simpl. rewrite insert_insert_eq.
      rewrite (insert_insert_ne _ (k_cur k) td) by done. by rewrite insert_insert_eq.
Qed.

(** C11: mdx_sem_timedwait by a running thread refines the abstract request.
    With a permit it takes it and returns 1.  Otherwise the thread is appended
    to the waiters in state SEM_WAIT, its quantum callout is cancelled, and the
    timeout callout is armed when [usec] is not 0 and converts to at least one
    tick; when it converts to 0 ticks no timeout is armed at all. *)
Theorem sem_timedwait_refines (s usec : Z) (k : kst) (t0 : thread) (sm : sem) (mt : mi_timer)
    (x : callout cbfun) (ticks : Z) :
  let td := k_cur k in
  running k t0 → td_idle t0 = false → callout_inv (k_co k) → mi_tmr (k_co k) = Some mt →
  tab (k_co k) !! CTd td = Some x → k_sem k !! s = Some sm → unlinked NPRIO td k = true →
  mdx_callout_usec_to_ticks (u32 usec) (k_co k) = Ok ticks → 0 ≤ ticks →
  ticks + base_elapsed mt (cpus (k_co k) 0) < 2 ^ 32 →
  ∃ r k' sm', mdx_sem_timedwait NPRIO s usec k = Ok (r, k') ∧ k_sem k' = <[s := sm']> (k_sem k) ∧
    view sm' = a_take td (view sm) ∧ k_ie k' = true ∧ k_cur k' = td ∧ k_runq k' = k_runq k ∧
    if 0 <? sem_count sm then
      r = Some 1 ∧ k_td k' = <[td := th_crit 0 true t0]> (k_td k) ∧ k_co k' = k_co k
    else
      r = None ∧ k_td k' = <[td := th_crit 0 true (th_state TD_STATE_SEM_WAIT t0)]> (k_td k) ∧
      callout_inv (k_co k') ∧
      ∃ y, tab (k_co k') !! CTd td = Some y ∧
        if (usec =? 0) || (ticks =? 0) then is_active y = false
        else is_active y = true ∧ c_func y = Some (mdx_sem_cb_ td) ∧
             k_tok k' !! td = Some {| tk_sem := s; tk_timeout := false |}.
Proof.
  intros td Hrun Hid I Hm Ex Hs Hu Hcv Ht Hov. pose proof Hrun as (E0 & Hn0 & Hie). fold td in E0.
  unfold mdx_sem_timedwait. fold td. rewrite (get_td_Some _ _ _ E0). cbn [mbind res_bind].
  unfold kassert at 1 2. rewrite Hid, Hn0. cbn [negb mbind res_bind]. rewrite Z.eqb_refl. cbn [mbind res_bind].
  rewrite (enter_outer _ _ E0 Hn0), Hie. cbn [mbind res_bind].
  set (k1 := set_ie false _). change (k_sem k1) with (k_sem k). rewrite (load_Some _ _ _ Hs).
  cbn [mbind res_bind].
  assert (k_td k1 !! td = Some (th_crit 1 true t0)) as E1 by (simpl; by rewrite lookup_insert_eq).
  destruct (Z.ltb_spec 0 (sem_count sm)) as [Hpos|Hzero].
  - rewrite (section_exit k t0) by (done || exact E1). cbn [mbind res_bind].
    eexists _, _, _. split; [reflexivity|]. split_and!; try done.
    + unfold view, a_take, set_count. simpl. destruct (Z.ltb_spec 0 (sem_count sm)); [done|lia].
    + simpl. by rewrite insert_insert_eq.
  - rewrite (crit_eq k1 _ E1). cbn [td_critnest th_crit]. change (k_co k1) with (k_co k).
    destruct (cancel_idle (k_co k) (CTd td) x 1 I) as (e & co & y & -> & I1 & Em1 & Ey & Hy & Hb1 & _);
      [by exists mt|lia|done|].
    cbn [mbind res_bind]. set (k2 := set_co co k1).
    assert (∃ co' tk', (if usec =? 0 then Ok k2 else
           let k := set_toks (<[td := {| tk_sem := s; tk_timeout := false |}]> (k_tok k2)) k2 in
           let co := mdx_callout_init (CTd td) (k_co k) in
           '(_, co) ← mdx_callout_set (crit k) 0 (CTd td) (u32 usec) (Some (mdx_sem_cb_ td)) co;
           Ok (set_co co k)) = Ok (set_co co' (set_toks tk' k2)) ∧ callout_inv co' ∧
      ∃ y, tab co' !! CTd td = Some y ∧
        if (usec =? 0) || (ticks =? 0) then is_active y = false
        else is_active y = true ∧ c_func y = Some (mdx_sem_cb_ td) ∧
             tk' !! td = Some {| tk_sem := s; tk_timeout := false |})
      as (co' & tk' & Eif & I' & z & Ez & Hz).
    { destruct (Z.eqb_spec usec 0) as [->|Hus].
      { exists co, (k_tok k2). split_and!; [by destruct k|done|]. by exists y. }
      cbv zeta. set (k3 := set_toks _ k2). change (k_co k3) with co.
      assert (crit k3 = 1) as -> by (by rewrite (crit_eq k3 _ E1)).
      destruct (init_inv co (CTd td) y I1 Ey Hy) as (y2 & Ey2 & Hy2 & I2 & Ec2 & _ & Em2 & _).
      set (co2 := mdx_callout_init (CTd td) co) in *.
      unfold mdx_callout_set, mdx_callout_usec_to_ticks in *. rewrite Em2, Em1. rewrite Hcv.
      cbn [mbind res_bind orb]. unfold mdx_callout_set_ticks.
      destruct (Z.eqb_spec ticks 0) as [->|Htn].
      - unfold mdx_callout_set_ticks_locked, kassert. rewrite Em2, Em1, Hm.
        rewrite bool_decide_eq_true_2 by (by eexists). cbn. rewrite (load_c_Some _ _ _ Ey2). cbn.
        rewrite Hy2. cbn. eexists _, _. split; [reflexivity|]. split.
        + assert (∀ j, CTd td ∉ q (cpus co2 j)) as Hc by (intros j; by eapply inactive_not_queued).
          set (yf := with_state CALLOUT_STATE_FIRED y2).
          constructor.
          * intros i. apply (cpu_ok_ext co2); [apply I2|done|]. intros a Ha. simpl.
            rewrite lookup_insert_ne; [done|]. intros <-. by apply (Hc i).
          * intros a w Ew Hw. simpl in Ew. destruct (decide (a = CTd td)) as [->|Hne].
            { rewrite lookup_insert_eq in Ew. injection Ew as <-. unfold is_active in *. simpl in *. congruence. }
            rewrite lookup_insert_ne in Ew by done. by apply (inv_active _ I2 a w).
        + eexists. simpl. rewrite lookup_insert_eq. split; [done|]. exact Hy2.
      - destruct (set_ticks_spec co2 0 (CTd td) y2 (1 + 1) ticks (Some (mdx_sem_cb_ td)) mt I2)
          as (co3 & -> & I3 & _ & _ & _ & (y3 & Ey3 & (Ha3 & Hf3 & _)) & _);
          [by rewrite Em2, Em1|lia|done|done|lia|by rewrite Ec2, Hb1|].
        cbn [mbind res_bind]. eexists _, _. split; [reflexivity|]. split; [done|].
        exists y3. split_and!; [done|done|done|]. by rewrite lookup_insert_eq. }
    cbv zeta in Eif |- *. rewrite Eif. cbn [mbind res_bind]. set (k4 := set_co co' _).
    rewrite (set_state_Some td _ k4 (th_crit 1 true t0)) by (exact E1). cbn [mbind res_bind].
    set (k5 := put_td td _ k4). change (unlinked NPRIO td k5) with (unlinked NPRIO td k). rewrite Hu.
    rewrite (section_exit k (th_state TD_STATE_SEM_WAIT t0)).
    2:{ done. } 2:{ simpl. by rewrite lookup_insert_eq. }
    cbn [mbind res_bind]. eexists _, _, _. split; [reflexivity|]. split_and!; try done.
    + unfold view, a_take, set_waiters. simpl. destruct (Z.ltb_spec 0 (sem_count sm)); [lia|done].
    + simpl. by rewrite !insert_insert_eq.
    + by exists z.
Qed.
End Kernel.
