(* ===== verification/SchedTheorems.v ===== *)
(** * The kernel: context switches, wake-ups, conservation of permits *)

From S2P Require Import Prelude Callout CalloutProofs CalloutInterrupt Kernel KernelTheorems.
Local Open Scope Z_scope.

(** ** Permits are conserved *)

(** What threads and timers do to a semaphore. *)
Inductive aev := AvPost | AvWait (td : Z) | AvTimeout (td : Z).

(** [granted] lists the threads that got a permit, in that order. *)
Definition a_step (e : aev) (p : asem * list Z) : asem * list Z :=
  let '(a, granted) := p in
  match e with
  | AvPost => (a_post a, match a_wait a with [] => granted | td :: _ => granted ++ [td] end)
  | AvWait td => (a_take td a, if 0 <? a_count a then granted ++ [td] else granted)
  | AvTimeout td => (a_timeout td a, granted)
  end.

Definition a_run (n : Z) (evs : list aev) : asem * list Z :=
  foldl (λ p e, a_step e p) ({| a_count := n; a_wait := [] |}, []) evs.

Fixpoint posts (evs : list aev) : Z :=
  match evs with [] => 0 | AvPost :: evs => 1 + posts evs | _ :: evs => posts evs end.
Fixpoint requests (evs : list aev) : list Z :=
  match evs with [] => [] | AvWait td :: evs => td :: requests evs | _ :: evs => requests evs end.
Fixpoint timeouts (evs : list aev) : nat :=
  match evs with [] => 0%nat | AvTimeout _ :: evs => S (timeouts evs) | _ :: evs => timeouts evs end.

Lemma posts_app e k : posts (e ++ k) = posts e + posts k.
Proof. induction e as [|[]]; simpl; lia. Qed.
Lemma requests_app e k : requests (e ++ k) = requests e ++ requests k.
Proof. induction e as [|[]]; simpl; by rewrite ?IHe. Qed.
Lemma timeouts_app e k : timeouts (e ++ k) = (timeouts e + timeouts k)%nat.
Proof. induction e as [|[]]; simpl; lia. Qed.

(** Over any sequence of posts, requests and timeouts on a semaphore that
    starts with n permits: permits in the count plus permits granted equal n
    plus the posts, so at most n permits are outstanding (mutual exclusion for
    n = 1 and holders that post once); nobody waits while a permit is
    available; and permits are granted in the order of the requests, without
    overtaking (exactly in that order when nobody times out). *)
Theorem semaphore_conservation (n : Z) (evs : list aev) :
  0 ≤ n →
  let '(a, granted) := a_run n evs in
  0 ≤ a_count a ∧ a_count a + Z.of_nat (length granted) = n + posts evs ∧
  Z.of_nat (length granted) - posts evs ≤ n ∧
  (a_wait a ≠ [] → a_count a = 0) ∧
  granted ++ a_wait a `sublist_of` requests evs ∧
  (timeouts evs = 0%nat → granted ++ a_wait a = requests evs).
Proof.
  intros Hn. cut (let '(a, granted) := a_run n evs in
    0 ≤ a_count a ∧ a_count a + Z.of_nat (length granted) = n + posts evs ∧
    (a_wait a ≠ [] → a_count a = 0) ∧ granted ++ a_wait a `sublist_of` requests evs ∧
    (timeouts evs = 0%nat → granted ++ a_wait a = requests evs)).
  { destruct (a_run n evs) as [a g]. intros (?&?&?&?&?). split_and!; try done; lia. }
  induction evs as [|e evs IH] using rev_ind; [simpl; split_and!; try done; lia|].
  unfold a_run in *. rewrite foldl_app. cbn [foldl].
  destruct (foldl _ _ evs) as [a g]. destruct IH as (H1 & H2 & H3 & H4 & H5).
  rewrite posts_app, requests_app, timeouts_app.
  destruct e as [|td|td]; cbn [a_step posts requests timeouts]; rewrite ?app_nil_r, ?Nat.add_0_r.
  - unfold a_post. destruct (a_wait a) as [|td l] eqn:Ew; cbn [a_count a_wait].
    + split_and!; try done; lia.
    + rewrite length_app, <- app_assoc. simpl.
      split_and!; try done; [lia|]. intros _. by apply H3.
  - unfold a_take. destruct (Z.ltb_spec 0 (a_count a)); cbn [a_count a_wait].
    + assert (a_wait a = []) as Ew by (destruct (a_wait a); [done|]; specialize (H3 ltac:(done)); lia).
      rewrite Ew, app_nil_r in *. rewrite length_app. simpl. split_and!; try done; try lia.
      * by apply sublist_app.
      * intros Ht. by rewrite H5.
    + rewrite app_assoc. split_and!; try done; try lia.
      * by apply sublist_app.
      * intros Ht. by rewrite H5.
  - unfold a_timeout. cbn [a_count a_wait]. split_and!; try done; try lia.
    + intros Hw. apply H3. intros E. apply Hw. by rewrite E.
    + transitivity (g ++ a_wait a); [|done]. apply sublist_app; [done|]. apply sublist_filter.
Qed.

Lemma semaphore_conservation_witness :
  let '(a, g) := a_run 1 [AvWait 1; AvWait 2; AvWait 3; AvTimeout 2; AvPost; AvPost] in
  0 ≤ a_count a ∧ g = [1; 3].
Proof.
  pose proof (semaphore_conservation 1 [AvWait 1; AvWait 2; AvWait 3; AvTimeout 2; AvPost; AvPost]
    ltac:(lia)) as Hc.
  vm_compute a_run in *. cbv beta iota in *. destruct Hc as [Hc _]. split; [exact Hc|reflexivity].
Defined.

Section Switch.
Context (NPRIO : nat).

(** ** Timeouts *)

(** C12: the timeout callback.  When it fires for a waiting thread that has
    left its CPU, the thread leaves the semaphore without a permit, its token
    says so (mdx_sem_timedwait will return 0), and it is queued to run.  When
    mdx_sem_post has already unlocked the thread, the callback only
    acknowledges. *)
Theorem sem_timeout_refines (td : Z) (k : kst) (t0 t : thread) (tk : token) (sm : sem) :
  k_td k !! k_cur k = Some t0 → 0 < td_critnest t0 < 2 ^ 32 - 1 → td ≠ k_cur k →
  k_td k !! td = Some t → k_tok k !! td = Some tk → k_sem k !! tk_sem tk = Some sm →
  0 ≤ td_prio t < Z.of_nat NPRIO →
  unlinked NPRIO td (set_sems (<[tk_sem tk := set_waiters (lremove td (sem_td_list sm)) sm]> (k_sem k)) k) = true →
  (td_state t = TD_STATE_ACK →
   ∃ k' sm', mdx_sem_cb NPRIO td k = Ok k' ∧ k_sem k' = <[tk_sem tk := sm']> (k_sem k) ∧
     view sm' = a_timeout td (view sm) ∧
     k_tok k' !! td = Some {| tk_sem := tk_sem tk; tk_timeout := true |} ∧
     k_runq k' = <[td_prio t := k_runq k (td_prio t) ++ [td]]> (k_runq k) ∧
     k_td k' = <[td := th_state TD_STATE_WAKEUP t]> (k_td k) ∧ k_co k' = k_co k ∧
     (∀ u, u ≠ 0 → timedwait_result u (set_cur td k') = Ok 0)) ∧
  (td_state t = TD_STATE_SEM_UNLOCK →
   mdx_sem_cb NPRIO td k = Ok (put_td td (th_state TD_STATE_SEM_UNLOCK_ACK t) k)).
Proof.
  intros E0 Hn Hne Et Etk Hs Hp Hu. split; intros Hst; unfold mdx_sem_cb, kassert.
  all: rewrite (load_Some _ _ _ Etk); cbn [mbind res_bind].
  all: rewrite (crit_eq _ _ E0); destruct (Z.ltb_spec 0 (td_critnest t0)); [|lia]; cbn [mbind res_bind].
  all: rewrite (get_td_Some _ _ _ Et); cbn [mbind res_bind].
  2:{ rewrite decide_True by done. by apply set_state_Some. }
  rewrite decide_False by (by rewrite Hst). rewrite bool_decide_eq_true_2 by done. cbn [mbind res_bind].
  set (k1 := set_toks _ k). change (k_sem k1) with (k_sem k). rewrite (load_Some _ _ _ Hs).
  cbn [mbind res_bind]. cbv zeta. set (k2 := set_sems _ k1).
  rewrite (set_state_Some td _ k2 t) by exact Et. cbn [mbind res_bind]. set (k3 := put_td td _ k2).
  rewrite (sched_add_spec NPRIO td k3 (th_state TD_STATE_WAKEUP t) t0);
    [|simpl; by rewrite lookup_insert_ne|done|simpl; by rewrite lookup_insert_eq|done|exact Hu].
  eexists _, _. split; [reflexivity|]. split_and!; try done.
  - simpl. by rewrite lookup_insert_eq.
  - intros u Hu0. unfold timedwait_result. destruct (Z.eqb_spec u 0); [done|].
    unfold load. simpl. by rewrite lookup_insert_eq.
Qed.

(** ** Exceptions *)

(** The frame after an exception: execution goes on behind the instruction that
    caused it; [None] for one that is not handled. *)
Definition resumed (f : trapframe) : option trapframe :=
  let code := tf_cause f mod 4096 in
  if Z.testbit (tf_cause f) 63 then Some f
  else if decide (code = 11) then Some (add_epc 4 f)
  else if decide (code = 3) then Some (add_epc 2 f) else None.

(** The states in which a thread gives up its CPU before the handler of the
    interrupt runs. *)
Definition leaves (t : thread) : bool :=
  match td_state t with TD_STATE_SEM_WAIT | TD_STATE_SLEEPING | TD_STATE_TERMINATING => true | _ => false end.

(** The interrupted thread with its frame, and what its leaving changes. *)
Definition interrupted (td tf : Z) (f : trapframe) (t : thread) (k : kst) : kst :=
  let k := put_frame tf f (set_td_tf td tf k) in
  match td_state t with
  | TD_STATE_SEM_WAIT | TD_STATE_SLEEPING => put_td td (th_state TD_STATE_ACK t) k
  | TD_STATE_TERMINATING => set_freed (k_freed k ++ [td]) k
  | _ => k
  end.

(** The state in which the interrupt thread runs the handler. *)
Definition in_handler (intr : Z) (it : thread) (k : kst) : kst :=
  put_td intr (th_crit 1 (td_saved_ie it) it) (set_cur intr k).
Definition handler_done (intr : Z) (it : thread) (td : Z) (k : kst) : kst :=
  set_cur td (put_td intr (th_crit 0 (td_saved_ie it) it) k).

(** The queue of the highest priority that is not empty. *)
Definition highest (k : kst) (i : Z) : Prop :=
  0 ≤ i < Z.of_nat NPRIO ∧ k_runq k i ≠ [] ∧ ∀ j, i < j < Z.of_nat NPRIO → k_runq k j = [].

(** The CPU goes to the thread [n] that waited longest in that queue. *)
Definition switched (intr : Z) (it : thread) (n : Z) (l : list Z) (i : Z) (k : kst) (tn : thread) (k' : kst) : Prop :=
  k_cur k' = n ∧ k_runq k' = <[i := l]> (k_runq k) ∧ k_ie k' = k_ie k ∧ k_fr k' = k_fr k ∧
  k_sem k' = k_sem k ∧ k_tok k' = k_tok k ∧ k_freed k' = k_freed k ∧
  k_td k' = <[intr := th_crit 0 (td_saved_ie it) it]>
              (<[n := if td_idle tn then tn else th_state TD_STATE_RUNNING tn]> (k_td k)) ∧
  if td_quantum tn =? 0 then k_co k' = k_co k else
    callout_inv (k_co k') ∧ ∃ y mt, mi_tmr (k_co k) = Some mt ∧ tab (k_co k') !! CTd n = Some y ∧
      is_active y = true ∧ c_func y = Some (mdx_sched_cb_ n) ∧
      dls (k_co k') 0 = dl_insert (CTd n, base_elapsed mt (cpus (k_co k) 0) + td_quantum tn) (dls (k_co k) 0).

(** The quantum of a thread can be started: its callout is idle, as is left behind by
    mdx_sem_timedwait, mdx_tsleep and the end of the last quantum. *)
Definition quantum_ready (n : Z) (tn : thread) (k : kst) : Prop :=
  td_quantum tn = 0 ∨
  td_idle tn = false ∧ 0 < td_quantum tn ∧ callout_inv (k_co k) ∧
  ∃ x mt, mi_tmr (k_co k) = Some mt ∧ tab (k_co k) !! CTd n = Some x ∧ is_active x = false ∧
    td_quantum tn + base_elapsed mt (cpus (k_co k) 0) < 2 ^ 32.

Lemma sched_next_ok intr it (k : kst) i n l tn :
  k_cur k = intr → k_td k !! intr = Some it → td_critnest it = 1 →
  highest k i → k_runq k i = n :: l → n ≠ intr → k_td k !! n = Some tn → quantum_ready n tn k →
  ∃ k', mdx_sched_next NPRIO k = Ok (n, k') ∧ k_td k' !! intr = Some it ∧ k_fr k' = k_fr k ∧
    switched intr it n l i k tn (handler_done intr it n k').
Proof.
  intros Hc Ei Hn (Hi & Hq & Hh) Eq Hni En Hqu. unfold mdx_sched_next.
  rewrite (crit_eq k it) by (by rewrite Hc). rewrite Hn. cbn [kassert Z.ltb Z.compare mbind res_bind].
  assert (mdx_sched_pick NPRIO k = Ok (n, set_runq (<[i := l]> (k_runq k)) k)) as ->.
  { destruct (pick_loop_spec NPRIO k) as [(i2 & n2 & l2 & Hi2 & Eq2 & Hh2 & Ep) | [Hall _]].
    - assert (i2 = i) as ->.
      { destruct (Z.lt_trichotomy i2 i) as [Hlt|[->|Hgt]]; [|done|].
        - exfalso. apply Hq, Hh2. lia.
        - exfalso. rewrite Hh in Eq2; [done|lia]. }
      rewrite Eq in Eq2. injection Eq2 as <- <-. exact Ep.
    - exfalso. apply Hq, Hall. lia. }
  rewrite Ok_bind. cbv beta iota. set (k1 := set_runq _ k).
  rewrite (get_td_Some n k1 tn En), Ok_bind.
  set (k2 := if td_idle tn then k1 else put_td n (th_state TD_STATE_RUNNING tn) k1).
  assert ((if td_idle tn then Ok k1 else set_state n TD_STATE_RUNNING k1) = Ok k2) as ->.
  { unfold k2. destruct (td_idle tn); [done|]. by apply set_state_Some. }
  rewrite Ok_bind.
  assert (k_td k2 = <[n := if td_idle tn then tn else th_state TD_STATE_RUNNING tn]> (k_td k)) as Ek2.
  { unfold k2. destruct (td_idle tn); [|done]. by rewrite insert_id. }
  assert (k_td k2 !! intr = Some it) as Ei2 by (rewrite Ek2, lookup_insert_ne by done; done).
  assert (k_cur k2 = intr ∧ k_runq k2 = <[i := l]> (k_runq k) ∧ k_co k2 = k_co k ∧ k_fr k2 = k_fr k ∧ k_ie k2 = k_ie k ∧
    k_sem k2 = k_sem k ∧ k_tok k2 = k_tok k ∧ k_freed k2 = k_freed k)
    as (Hc2 & Hr2 & Hco2 & Hf2 & Hie2 & Hse2 & Hto2 & Hfr2) by (unfold k2; by destruct (td_idle tn)).
  unfold switched. destruct Hqu as [Hz|(Hid & Hpos & I & x & mt & Hm & Ex & Ha & Hov)].
  - rewrite Hz. cbn [Z.eqb]. exists k2. split; [done|]. split; [done|]. split; [done|]. split_and!; try done.
    cbn [handler_done set_cur put_td set_tds k_td]. by rewrite Ek2.
  - destruct (Z.eqb_spec (td_quantum tn) 0); [lia|]. unfold kassert. rewrite Hid. cbn [negb mbind res_bind].
    rewrite Hco2. rewrite (crit_eq k2 it) by (by rewrite Hc2). rewrite Hn.
    destruct (init_inv (k_co k) (CTd n) x I Ex Ha) as (y2 & Ey2 & Hy2 & I2 & Ec2 & Ed2 & Em2 & _).
    cbv zeta. set (co2 := mdx_callout_init (CTd n) (k_co k)) in *. unfold mdx_callout_set_ticks.
    destruct (set_ticks_spec co2 0 (CTd n) y2 (1 + 1) (td_quantum tn) (Some (mdx_sched_cb_ n)) mt I2)
      as (co3 & -> & I3 & _ & Hdl & _ & (y3 & Ey3 & (Ha3 & Hf3 & _)) & _);
      [by rewrite Em2|lia|done|done|lia|by rewrite Ec2|].
    rewrite Ok_bind. cbv beta iota. exists (set_co co3 k2). split; [done|]. split; [done|]. split; [done|].
    split_and!; try done.
    + cbn [handler_done set_cur put_td set_tds k_td set_co]. rewrite Ek2, Hid. done.
    + exists y3, mt. split_and!; try done. cbn [handler_done set_cur put_td set_tds k_co set_co].
      by rewrite Hdl, Ec2, Ed2.
Qed.

(** The result [r] of the handler, when the CPU is given to the next thread in [k]. *)
Definition to_next (intr : Z) (it : thread) (k : kst) (r : res (Z * kst)) : Prop :=
  ((∀ j, 0 ≤ j < Z.of_nat NPRIO → k_runq k j = []) → r = Err Panic) ∧
  ∀ i n l tn p, highest k i → k_runq k i = n :: l → n ≠ intr → k_td k !! n = Some tn →
    quantum_ready n tn k → td_tf (k_fr k) !! n = Some p →
    ∃ k', r = Ok (p, k') ∧ switched intr it n l i k tn k'.

(** The end of riscv_exception(). *)
Definition give_back (intr td : Z) (k : kst) : res (Z * kst) :=
  it ← get_td intr k;
  let k := put_td intr (th_crit (u32 (td_critnest it - 1)) (td_saved_ie it) it) k in
  tf ← load (td_tf (k_fr k)) td;
  Ok (tf, set_cur td k).

Lemma give_back_ok intr it td tf k :
  k_td k !! intr = Some it → td_critnest it = 1 → td_tf (k_fr k) !! td = Some tf →
  give_back intr td k = Ok (tf, handler_done intr it td k).
Proof.
  intros Ei Hn Ef. unfold give_back. rewrite (get_td_Some _ _ _ Ei), Ok_bind. cbv zeta.
  rewrite Hn. change (td_tf (k_fr (put_td intr (th_crit (u32 (1 - 1)) (td_saved_ie it) it) k))) with (td_tf (k_fr k)).
  by rewrite (load_Some _ _ _ Ef), Ok_bind.
Qed.

Lemma to_next_ok intr it k :
  k_cur k = intr → k_td k !! intr = Some it → td_critnest it = 1 →
  to_next intr it k ('(n, k) ← mdx_sched_next NPRIO k; give_back intr n k).
Proof.
  intros Hc Ei Hn. split.
  - intros Hall. unfold mdx_sched_next. rewrite (crit_eq k it) by (by rewrite Hc). rewrite Hn.
    cbn [kassert Z.ltb Z.compare mbind res_bind]. unfold mdx_sched_pick.
    destruct (pick_loop_spec NPRIO k) as [(i & n & l & Hi & Eq & _) | [_ ->]]; [|done].
    by rewrite Hall in Eq by lia.
  - intros i n l tn p Hh Eq Hne En Hqu Ef.
    destruct (sched_next_ok intr it k i n l tn Hc Ei Hn Hh Eq Hne En Hqu) as (k' & -> & Ei' & Ef' & Hs).
    rewrite Ok_bind. eexists. split; [apply give_back_ok; [done..|by rewrite Ef']|exact Hs].
Qed.

Lemma irq_bit c : negb (Z.land c EXCP_INTR =? 0) = Z.testbit c 63.
Proof.
  unfold EXCP_INTR. rewrite Z.shiftl_1_l. destruct (Z.testbit c 63) eqn:E.
  - apply negb_true_iff, Z.eqb_neq. intros H0. apply (f_equal (λ x, Z.testbit x 63)) in H0.
    rewrite Z.land_spec, E, Z.pow2_bits_true in H0 by lia. done.
  - apply negb_false_iff, Z.eqb_eq. apply Z.bits_inj'. intros n Hn. rewrite Z.land_spec, Z.bits_0.
    destruct (decide (n = 63)) as [->|]; [by rewrite E|]. rewrite Z.pow2_bits_false by done. apply andb_false_r.
Qed.

Lemma cause_code c : Z.land c EXCP_MASK = c mod 4096.
Proof. apply (Z.land_ones c 12). lia. Qed.

(** What handle_exception makes of the frame. *)
Lemma resumed_ok tf f k : fr_mem (k_fr k) !! tf = Some f →
  (if negb (Z.land (tf_cause f) EXCP_INTR =? 0) then Ok k else handle_exception tf k) =
  match resumed f with Some f' => Ok (put_frame tf f' k) | None => Err Panic end.
Proof.
  intros Ef. rewrite irq_bit. unfold resumed. destruct (Z.testbit _ _).
  - unfold put_frame, set_fr. rewrite insert_id by done. by destruct k as [? ? ? ? ? ? ? ? ? ? [] ?].
  - unfold handle_exception. rewrite (load_Some _ _ _ Ef), Ok_bind, cause_code. cbv zeta.
    change EXCP_MACHINE_ECALL with 11. change EXCP_BREAKPOINT with 3.
    destruct (Z.eqb_spec (tf_cause f mod 4096) 11); [by rewrite decide_True by done|].
    rewrite decide_False by done.
    destruct (Z.eqb_spec (tf_cause f mod 4096) 3); [by rewrite decide_True by done|by rewrite decide_False by done].
Qed.

(** The acknowledgement of the interrupted thread. *)
Lemma ack_ok td tf f t k : k_td k !! td = Some t →
  mdx_sched_ack td (put_frame tf f (set_td_tf td tf k)) = Ok (leaves t, interrupted td tf f t k).
Proof.
  intros Et. unfold mdx_sched_ack, mdx_thread_terminate_cleanup, interrupted, leaves.
  set (k1 := put_frame tf f (set_td_tf td tf k)). assert (k_td k1 !! td = Some t) as Et1 by exact Et.
  rewrite (get_td_Some _ _ _ Et1), Ok_bind. destruct (td_state t) eqn:Es; try done.
  1, 3: by rewrite (set_state_Some _ _ _ _ Et1).
  rewrite Ok_bind. unfold kassert. by rewrite Es.
Qed.

(** C13: an exception or an interrupt, up to the frame that exception.S restores.  The
    frame of the interrupted thread is recorded; an ECALL or a breakpoint resumes behind
    its instruction, another exception is a panic, an interrupt is given to riscv_intr
    (any code that keeps the interrupt thread and the frames) after a thread that
    waits or sleeps became ACK (it may be woken from then on) or one that terminates
    was freed.  Then a thread that is still RUNNING goes on with its own frame; one
    that yields or whose quantum is over goes to the end of the run queue of its
    priority; when the thread gave up its CPU, the first thread of the highest queue
    that is not empty is taken, becomes RUNNING, has its quantum started, and its
    frame is restored; without such a thread, or with the interrupted one in another
    state, the kernel panics. *)
Theorem exception_switch (intr : Z) (isr : Z → kst → res kst) (tf : Z) (k : kst) (td : Z) (t it : thread)
    (f : trapframe) :
  k_cur k = td → td ≠ intr → k_td k !! td = Some t → k_td k !! intr = Some it → td_critnest it = 0 →
  fr_mem (k_fr k) !! tf = Some f →
  let r := riscv_exception NPRIO intr isr tf k in
  match resumed f with
  | None => r = Err Panic
  | Some f' =>
    let kh := in_handler intr it (interrupted td tf f' t k) in
    ∀ k2 it2 t2,
      (if Z.testbit (tf_cause f) 63 then isr (tf_cause f mod 4096) kh else Ok kh) = Ok k2 →
      k_cur k2 = intr → k_td k2 !! intr = Some it2 → td_critnest it2 = 1 → k_td k2 !! td = Some t2 →
      k_fr k2 = k_fr kh →
      if leaves t then to_next intr it2 k2 r else
      match td_state t2 with
      | TD_STATE_RUNNING => r = Ok (tf, handler_done intr it2 td k2)
      | TD_STATE_YIELDING | TD_STATE_READY =>
        0 ≤ td_prio t2 < Z.of_nat NPRIO → unlinked NPRIO td k2 = true →
        to_next intr it2 (enqueue td (td_prio t2) k2) r
      | _ => r = Err Panic
      end
  end.
Proof.
  intros Hc Hne Et Ei Hn Ef r. unfold r, riscv_exception. rewrite Hc. clear r. cbv zeta.
  change (fr_mem (k_fr (set_td_tf td tf k))) with (fr_mem (k_fr k)). rewrite (load_Some _ _ _ Ef), Ok_bind.
  rewrite (resumed_ok tf f (set_td_tf td tf k) Ef). destruct (resumed f) as [f'|]; [|done].
  rewrite Ok_bind, (ack_ok td tf f' t k Et), Ok_bind. cbv beta iota.
  intros k2 it2 t2 Hisr Hc2 Ei2 Hn2 Et2 Ef2.
  set (ka := interrupted td tf f' t k) in *.
  assert (k_td ka !! intr = Some it) as Eia.
  { unfold ka, interrupted. destruct (td_state t); cbn [put_td set_tds set_freed k_td]; rewrite ?lookup_insert_ne by done; exact Ei. }
  rewrite (get_td_Some intr (set_cur intr ka) it Eia), Ok_bind.
  assert (put_td intr (th_crit (u32 (td_critnest it + 1)) (td_saved_ie it) it) (set_cur intr ka) = in_handler intr it ka)
    as -> by (by rewrite Hn).
  rewrite irq_bit, cause_code, Hisr, Ok_bind.
  assert (td_tf (k_fr k2) !! td = Some tf) as Etf.
  { rewrite Ef2. unfold ka, interrupted. destruct (td_state t); cbn; apply lookup_insert_eq. }
  destruct (leaves t).
  { rewrite Ok_bind. cbv beta iota. by apply to_next_ok. }
  unfold mdx_sched_park. rewrite (get_td_Some _ _ _ Et2), Ok_bind.
  destruct (td_state t2) eqn:Es2; try done.
  2:{ rewrite !Ok_bind. cbv beta iota. by apply give_back_ok. }
  all: intros Hp Hu; rewrite (sched_add_spec NPRIO td k2 t2 it2) by (rewrite ?Hc2; done || lia);
    rewrite !Ok_bind; cbv beta iota; by apply to_next_ok.
Qed.
End Switch.
