(* ===== verification/SyncTheorems.v ===== *)
(** * The kernel: mutexes and fifos on top of semaphores, and two defects *)

From S2P Require Import Prelude Callout CalloutProofs CalloutInterrupt Kernel KernelTheorems.
Local Open Scope Z_scope.

Section Sync.
Context (NPRIO : nat).

(** The current thread's record after any number of balanced sections. *)
Definition rest (k : kst) (t : thread) : kst := set_ie true (put_td (k_cur k) (th_crit 0 true t) k).

Lemma running_rest k t : running k t → running (rest k t) (th_crit 0 true t).
Proof. intros (E & Hn & Hi). split_and!; [|done|done]. simpl. by rewrite lookup_insert_eq. Qed.

(** A section that changes neither threads nor callouts. *)
Lemma section_frame (k : kst) (t : thread) (f : kst → kst) :
  running k t → (∀ k, k_cur (f k) = k_cur k ∧ k_td (f k) = k_td k) →
  (∀ k t b, f (set_ie b (put_td (k_cur k) t k)) = set_ie b (put_td (k_cur k) t (f k))) →
  (k1 ← critical_enter k; critical_exit (f k1)) = Ok (rest (f k) t).
Proof.
  intros (E & Hn & Hi) Hf Hcomm. rewrite (enter_outer _ _ E Hn), Hi. cbn [mbind res_bind].
  set (k1 := set_ie false _). destruct (Hf k1) as [F1 F2]. destruct (Hf k) as [F3 F4].
  erewrite exit_outer; [|rewrite F1, F2; simpl; by rewrite lookup_insert_eq|done].
  rewrite F1. unfold k1. rewrite Hcomm. unfold rest, put_td, set_tds, set_ie. simpl.
  rewrite F3, insert_insert_eq. done.
Qed.

(** ** Operations that do not block *)

Definition with_sem (s : Z) (sm : sem) (k : kst) : kst := set_sems (<[s := sm]> (k_sem k)) k.

Lemma with_sem_rest s sm k t :
  with_sem s sm (rest k t) = rest (with_sem s sm k) t ∧ k_sem (rest k t) = k_sem k ∧
  k_cur (rest k t) = k_cur k ∧ rest (rest k t) (th_crit 0 true t) = rest k t.
Proof.
  split_and!; [done|done|done|]. unfold rest, put_td, set_tds, set_ie. simpl. by rewrite insert_insert_eq.
Qed.

Lemma post_nowait s k t sm :
  running k t → k_sem k !! s = Some sm → sem_td_list sm = [] → - 2 ^ 31 ≤ sem_count sm < 2 ^ 31 - 1 →
  mdx_sem_post NPRIO s k = Ok (1, rest (with_sem s (set_count (sem_count sm + 1) sm) k) t).
Proof.
  intros Hr Hs Hw Hc. pose proof Hr as (E & Hn & Hi). unfold mdx_sem_post.
  pose proof (section_frame k t (with_sem s (set_count (sem_count sm + 1) sm)) Hr) as Hf.
  rewrite (enter_outer _ _ E Hn), Hi in Hf |- *. cbn [mbind res_bind] in Hf |- *.
  change (k_sem (set_ie false (put_td (k_cur k) (th_crit 1 true t) k))) with (k_sem k) in *.
  rewrite (load_Some _ _ _ Hs). cbn [mbind res_bind]. rewrite Hw.
  rewrite swrap_small by (simpl; lia).
  unfold with_sem in Hf at 5. cbn [k_sem set_ie put_td set_tds] in Hf.
  change (k_sem (set_ie false (put_td (k_cur k) (th_crit 1 true t) k))) with (k_sem k) in Hf.
  rewrite Hf by done. done.
Qed.

Lemma trywait_spec s k t sm :
  running k t → k_sem k !! s = Some sm →
  mdx_sem_trywait s k =
    if 0 <? sem_count sm then Ok (1, rest (with_sem s (set_count (sem_count sm - 1) sm) k) t)
    else Ok (0, rest k t).
Proof.
  intros Hr Hs. pose proof Hr as (E & Hn & Hi). unfold mdx_sem_trywait.
  rewrite (enter_outer _ _ E Hn), Hi. cbn [mbind res_bind].
  change (k_sem (set_ie false (put_td (k_cur k) (th_crit 1 true t) k))) with (k_sem k).
  rewrite (load_Some _ _ _ Hs). cbn [mbind res_bind].
  assert (k_td (set_ie false (put_td (k_cur k) (th_crit 1 true t) k)) !! k_cur k = Some (th_crit 1 true t)) as E1.
  { simpl. by rewrite lookup_insert_eq. }
  destruct (0 <? sem_count sm).
  - rewrite (section_exit k t) by (done || exact E1). cbn [mbind res_bind].
    unfold after_section, rest, with_sem, put_td, set_tds, set_ie, set_sems. simpl. by rewrite insert_insert_eq.
  - rewrite (section_exit k t) by (done || exact E1). cbn [mbind res_bind].
    unfold after_section, rest, put_td, set_tds, set_ie. simpl. by rewrite insert_insert_eq.
Qed.

(** ** Mutexes *)

(** A mutex that was released stays recorded as owned by the thread that
    released it (m->td is never cleared).  So when a thread that holds a mutex
    nobody waits for unlocks it twice, both calls succeed, and the semaphore
    then has two permits: two threads can hold the mutex at the same time. *)
Theorem mutex_double_unlock (m : Z) (k : kst) (t : thread) (sm : sem) :
  running k t → k_mutex k !! m = Some (Some (k_cur k)) → k_sem k !! m = Some sm →
  sem_td_list sm = [] → sem_count sm = 0 →
  ∃ k1 k2, mdx_mutex_unlock NPRIO m k = Ok (1, k1) ∧ mdx_mutex_unlock NPRIO m k1 = Ok (1, k2) ∧
    k_mutex k2 !! m = Some (Some (k_cur k)) ∧
    (∃ sm2, k_sem k2 !! m = Some sm2 ∧ sem_count sm2 = 2) ∧
    (∃ k3 k4, mdx_mutex_trylock m k2 = Ok (1, k3) ∧ mdx_mutex_trylock m k3 = Ok (1, k4)).
Proof.
  intros Hr Hm Hs Hw Hc.
  pose proof (post_nowait m k t sm Hr Hs Hw ltac:(lia)) as E1.
  set (sm1 := set_count (sem_count sm + 1) sm) in *. set (k1 := rest (with_sem m sm1 k) t) in *.
  assert (running k1 (th_crit 0 true t)) as Hr1.
  { split_and!; [|done|done]. simpl. by rewrite lookup_insert_eq. }
  assert (k_sem k1 !! m = Some sm1) as Hs1 by (simpl; by rewrite lookup_insert_eq).
  pose proof (post_nowait m k1 _ sm1 Hr1 Hs1 Hw ltac:(simpl; lia)) as E2.
  set (sm2 := set_count (sem_count sm1 + 1) sm1) in *. set (k2 := rest (with_sem m sm2 k1) _) in *.
  assert (running k2 (th_crit 0 true (th_crit 0 true t))) as Hr2.
  { split_and!; [|done|done]. simpl. by rewrite lookup_insert_eq. }
  assert (k_sem k2 !! m = Some sm2) as Hs2 by (simpl; by rewrite lookup_insert_eq).
  exists k1, k2. unfold mdx_mutex_unlock.
  rewrite (load_Some _ _ _ Hm). cbn [mbind res_bind]. rewrite decide_False by auto.
  change (k_mutex k1) with (k_mutex k). rewrite (load_Some _ _ _ Hm). cbn [mbind res_bind].
  rewrite (decide_False (P := Some (k_cur k) ≠ Some (k_cur k1))) by auto.
  split_and!; [done|done|done|exists sm2; split; [done|simpl; lia]|].
  unfold mdx_mutex_trylock. rewrite (trywait_spec m k2 _ sm2 Hr2 Hs2).
  assert (sem_count sm2 = 2) as E by (simpl; lia). rewrite E. cbn [Z.ltb Z.compare].
  cbn [mbind res_bind set_owner Z.eqb].
  match goal with |- context [set_mutexes ?v ?kk] => set (k3 := set_mutexes v kk) end.
  eexists k3, _. split; [done|].
  rewrite (trywait_spec m k3 (th_crit 0 true (th_crit 0 true (th_crit 0 true t))) (set_count (2 - 1) sm2)).
  - simpl. done.
  - split_and!; [|done|done]. simpl. by rewrite lookup_insert_eq.
  - simpl. by rewrite lookup_insert_eq.
Qed.

(** ** Fifos *)

(** A fifo nobody waits for is a queue: the semaphore counts the entries,
    put appends, get returns the oldest entry, and get on an empty fifo
    returns NULL and changes nothing but the critical-section bookkeeping. *)
Theorem fifo_is_a_queue (f e : Z) (k : kst) (t : thread) (sm : sem) (l : list Z) :
  running k t → k_fifo k !! f = Some l → k_sem k !! f = Some sm → sem_td_list sm = [] →
  sem_count sm = Z.of_nat (length l) → Z.of_nat (length l) < 2 ^ 31 - 1 →
  (∃ k' sm', mdx_fifo_put NPRIO f e k = Ok k' ∧ k_fifo k' !! f = Some (l ++ [e]) ∧
     k_sem k' !! f = Some sm' ∧ sem_td_list sm' = [] ∧ sem_count sm' = Z.of_nat (length (l ++ [e]))) ∧
  match l with
  | [] => mdx_fifo_get f k = Ok (None, rest k t)
  | x :: l' => ∃ k' sm', mdx_fifo_get f k = Ok (Some x, k') ∧ k_fifo k' !! f = Some l' ∧
      k_sem k' !! f = Some sm' ∧ sem_td_list sm' = [] ∧ sem_count sm' = Z.of_nat (length l')
  end.
Proof.
  intros Hr Hf Hs Hw Hc Hmax. pose proof Hr as (E & Hn & Hi). split.
  - unfold mdx_fifo_put. rewrite (enter_outer _ _ E Hn), Hi. cbn [mbind res_bind].
    change (k_fifo (set_ie false (put_td (k_cur k) (th_crit 1 true t) k))) with (k_fifo k).
    rewrite (load_Some _ _ _ Hf). cbn [mbind res_bind].
    rewrite (section_exit k t); [|done|simpl; by rewrite lookup_insert_eq]. cbn [mbind res_bind].
    set (k1 := set_ie true _).
    assert (running k1 (th_crit 0 true t)) as Hr1.
    { split_and!; [|done|done]. simpl. by rewrite lookup_insert_eq. }
    rewrite (post_nowait f k1 _ sm Hr1) by (done || lia). cbn [mbind res_bind].
    eexists _, _. split; [reflexivity|]. simpl. rewrite !lookup_insert_eq.
    split_and!; [done|done|done|]. simpl. rewrite length_app. simpl. lia.
  - unfold mdx_fifo_get. rewrite (trywait_spec f k t sm Hr Hs). rewrite Hc.
    destruct l as [|x l'].
    + done.
    + destruct (Z.ltb_spec 0 (Z.of_nat (length (x :: l')))); [|simpl in *; lia]. cbn [mbind res_bind].
      cbn [Z.eqb]. set (k1 := rest _ t).
      assert (running k1 (th_crit 0 true t)) as (E1 & Hn1 & Hi1).
      { split_and!; [|done|done]. simpl. by rewrite lookup_insert_eq. }
      unfold fifo_take. rewrite (enter_outer _ _ E1 Hn1), Hi1. cbn [mbind res_bind].
      change (k_fifo (set_ie false (put_td (k_cur k1) (th_crit 1 true (th_crit 0 true t)) k1))) with (k_fifo k).
      rewrite (load_Some _ _ _ Hf). cbn [mbind res_bind].
      rewrite (section_exit k1 (th_crit 0 true t)); [|done|simpl; by rewrite lookup_insert_eq].
      cbn [mbind res_bind]. eexists _, _. split; [reflexivity|]. simpl. rewrite !lookup_insert_eq.
      split_and!; [done|done|done|]. simpl. lia.
Qed.
End Sync.
