(* ===== verification/KernelDemo.v ===== *)
(** * The kernel: a small concrete system

    An idle thread (10), two worker threads (1 and 2) of priority 1, the
    interrupt thread (99), a registered timer and one semaphore, mutex and
    fifo (7).  It is the concrete input of the witnesses, and shows one defect
    that needs a run of several steps. *)

From S2P Require Import Prelude Callout CalloutProofs CalloutInterrupt CalloutTheorems Kernel.
From S2P Require Import KernelTheorems SchedTheorems SyncTheorems.
Local Open Scope Z_scope.

Module Demo.
Definition NPRIO : nat := 2.

Definition mkthread (st : td_st) (prio quantum : Z) (idle : bool) : thread :=
  {| td_state := st; td_critnest := 0; td_saved_ie := true; td_prio := prio;
     td_quantum := quantum; td_idle := idle; td_flags := 0 |}.

Definition blank : callout cbfun :=
  {| c_state := CALLOUT_STATE_READY; c_ticks := 0; c_ticks_orig := 0; c_func := None;
     c_flags := 0; c_cpuid := 0 |}.

Definition co : cst ckey cbfun :=
  {| mi_tmr := Some Test.mt1;
     tab := <[CTd 10 := blank]> (<[CTd 2 := blank]> (<[CTd 1 := blank]> ∅));
     cpus := λ _, {| q := []; t_state := MI_TIMER_STATE_READY; t_saved := 0; t_count := 0;
                     t_prog := None |} |}.

(** A frame with a cause; that of thread [td] is at 8000 + td. *)
Definition trapped (cause : Z) : trapframe :=
  {| tf_regs := []; tf_epc := 256; tf_status := 0; tf_tval := 0; tf_cause := cause |}.
Definition frames0 : frames :=
  {| fr_mem := <[8001 := trapped 0]> (<[8002 := trapped 0]> (<[8010 := trapped 0]> ∅));
     td_tf := <[1 := 8001]> (<[2 := 8002]> (<[10 := 8010]> ∅)) |}.

(** Thread 1 runs; [q1] is its quantum. *)
Definition k0 (q1 : Z) (waiters : list Z) (st2 : td_st) (runq1 : list Z) (count : Z) : kst :=
  {| k_cur := 1; k_ie := true;
     k_td := <[99 := mkthread TD_STATE_READY 0 0 false]> (<[10 := mkthread TD_STATE_READY 0 0 true]>
             (<[2 := mkthread st2 1 0 false]> (<[1 := mkthread TD_STATE_RUNNING 1 q1 false]> ∅)));
     k_runq := λ i, if i =? 0 then [10] else if i =? 1 then runq1 else [];
     k_sem := <[7 := {| sem_count := count; sem_count_initial := count; sem_td_list := waiters |}]> ∅;
     k_tok := ∅; k_timer := ∅; k_mutex := <[7 := Some 1]> ∅; k_fifo := <[7 := []]> ∅;
     k_freed := []; k_fr := frames0; k_co := co |}.

Lemma co_inv : callout_inv co.
Proof.
  constructor.
  - intros i. constructor; simpl; [constructor| |constructor|done]. intros c Hc. by apply elem_of_nil in Hc.
  - intros c x Hx Ha. exfalso. simpl in Hx.
    rewrite !lookup_insert_Some, lookup_empty in Hx.
    destruct Hx as [[_ <-]|[_ [[_ <-]|[_ [[_ <-]|[_ ?]]]]]]; done.
Qed.

(** The hardware counter advances. *)
Definition pass (n : Z) (k : kst) : kst :=
  let s := k_co k in let p := cpus s 0 in
  set_co (set_cpu 0 {| q := q p; t_state := t_state p; t_saved := t_saved p;
                       t_count := t_count p + n; t_prog := t_prog p |} s) k.

Definition timer_isr (irq : Z) (k : kst) : res kst :=
  '(_, k) ← mdx_callout_callback (World0 := kernel_world NPRIO) 10 0 1 k; Ok k.

(** exception.S and the CPU: the frame is stored with interrupts off. *)
Definition entry (cause : Z) (k : kst) : kst := set_ie false (put_frame (8000 + k_cur k) (trapped cause) k).
Definition trap (cause : Z) (k : kst) : res kst :=
  '(_, k) ← riscv_exception NPRIO 99 timer_isr (8000 + k_cur k) (entry cause k); Ok (set_ie true k).
Definition yield (k : kst) : res kst := k ← mdx_thread_yield k; trap 11 k.

(** A time slice of 10 ticks for thread 1 is started when the idle thread,
    which runs alone, is interrupted and thread 1 is ready. *)
Definition started : res kst :=
  let k := set_cur 10 (k0 10 [] TD_STATE_READY [1; 2] 0) in
  trap 11
    (set_runq (λ i, if i =? 1 then [1; 2] else []) (put_td 1 (mkthread TD_STATE_READY 1 10 false) k)).
End Demo.

(** Mdx_thread_yield leaves the quantum callout of the thread armed.
    Thread 1 starts a slice of 10 ticks, yields at once to thread 2, and when
    its old slice ends while it is waiting in the run queue the callback finds
    it not RUNNING: the KASSERT of mdx_sched_cb fails and the kernel panics. *)
Theorem yield_panics :
  ∃ k1 k2, Demo.started = Ok k1 ∧ k_cur k1 = 1 ∧
    Demo.yield k1 = Ok k2 ∧ k_cur k2 = 2 ∧
    k_runq k2 1 = [1] ∧
    Demo.trap (EXCP_INTR + 7) (Demo.pass 10 k2) = Err Kassert.
Proof.
  exists (match Demo.started with Ok k => k | Err _ => Demo.k0 0 [] TD_STATE_READY [] 0 end).
  exists (match (k1 ← Demo.started; Demo.yield k1) with
     Ok k => k | Err _ => Demo.k0 0 [] TD_STATE_READY [] 0 end).
  split_and!; by vm_compute.
Qed.

(** ** Witnesses *)

Module KernelWitness.
Import Demo.

Lemma k0_running q w st r c : running (k0 q w st r c) (mkthread TD_STATE_RUNNING 1 q false).
Proof. by split_and!. Qed.

Lemma sem_post_refines_witness :
  ∃ k' sm', mdx_sem_post NPRIO 7 (k0 0 [2] TD_STATE_ACK [] 0) = Ok (1, k') ∧ k_runq k' 1 = [2] ∧
    k_sem k' !! 7 = Some sm' ∧ view sm' = {| a_count := 0; a_wait := [] |}.
Proof.
  destruct (sem_post_refines NPRIO 7 (k0 0 [2] TD_STATE_ACK [] 0) (mkthread TD_STATE_RUNNING 1 0 false)
    {| sem_count := 0; sem_count_initial := 0; sem_td_list := [2] |})
    as (k' & sm' & E & Es & Hv & _ & _ & (t & x & Et & Hq & _)).
  - apply k0_running.
  - exact co_inv.
  - by eexists.
  - done.
  - done.
  - done.
  - intros td l [= <- <-]. eexists. split; [done|]. split_and!; done.
  - exists k', sm'. vm_compute in Et. injection Et as <-. split_and!; [done|by rewrite Hq| |exact Hv].
    by rewrite Es, lookup_insert_eq.
Defined.

Lemma sem_timedwait_refines_witness :
  ∃ k' y, mdx_sem_timedwait NPRIO 7 100 (k0 0 [] TD_STATE_READY [2] 0) = Ok (None, k') ∧
    tab (k_co k') !! CTd 1 = Some y ∧ is_active y = true.
Proof.
  destruct (sem_timedwait_refines NPRIO 7 100 (k0 0 [] TD_STATE_READY [2] 0)
    (mkthread TD_STATE_RUNNING 1 0 false)
    {| sem_count := 0; sem_count_initial := 0; sem_td_list := [] |} Test.mt1 blank 100)
    as (r & k' & sm' & E & _ & _ & _ & _ & _ & (-> & _ & _ & y & Ey & Ha & _)).
  - apply k0_running.
  - done.
  - exact co_inv.
  - done.
  - by vm_compute.
  - done.
  - by vm_compute.
  - by vm_compute.
  - done.
  - by vm_compute.
  - by exists k', y.
Defined.

Lemma sem_timeout_refines_witness :
  ∃ k', mdx_sem_cb NPRIO 2 (set_toks (<[2 := {| tk_sem := 7; tk_timeout := false |}]> ∅)
      (put_td 1 (th_crit 1 true (mkthread TD_STATE_RUNNING 1 0 false))
        (k0 0 [2] TD_STATE_ACK [] 0))) = Ok k' ∧ k_runq k' 1 = [2].
Proof.
  destruct (sem_timeout_refines NPRIO 2 (set_toks (<[2 := {| tk_sem := 7; tk_timeout := false |}]> ∅)
      (put_td 1 (th_crit 1 true (mkthread TD_STATE_RUNNING 1 0 false)) (k0 0 [2] TD_STATE_ACK [] 0)))
    (th_crit 1 true (mkthread TD_STATE_RUNNING 1 0 false)) (mkthread TD_STATE_ACK 1 0 false)
    {| tk_sem := 7; tk_timeout := false |}
    {| sem_count := 0; sem_count_initial := 0; sem_td_list := [2] |}) as [Ht _]; try done.
  destruct (Ht eq_refl) as (k' & sm' & E & _ & _ & _ & Hq & _).
  exists k'. split; [exact E|]. rewrite Hq. by vm_compute.
Defined.

(** Thread 1 yields to thread 2, which has a quantum of 10 ticks. *)
Lemma exception_switch_witness :
  ∃ k', riscv_exception NPRIO 99 timer_isr 8001 (entry 11 (put_td 1 (mkthread TD_STATE_YIELDING 1 0 false)
      (put_td 2 (mkthread TD_STATE_READY 1 10 false) (k0 0 [] TD_STATE_READY [2] 0)))) = Ok (8002, k') ∧
    k_cur k' = 2 ∧ k_runq k' 1 = [1] ∧ td_state <$> k_td k' !! 2 = Some TD_STATE_RUNNING ∧
    tf_epc <$> fr_mem (k_fr k') !! 8001 = Some 260 ∧ dls (k_co k') 0 = [(CTd 2, 10)].
Proof.
  set (k := put_td 1 _ _).
  pose proof (exception_switch NPRIO 99 timer_isr 8001 (entry 11 k) 1 (mkthread TD_STATE_YIELDING 1 0 false)
    (mkthread TD_STATE_READY 0 0 false) (trapped 11) eq_refl ltac:(lia) eq_refl eq_refl eq_refl eq_refl) as H.
  cbv zeta in H. change (resumed (trapped 11)) with (Some (add_epc 4 (trapped 11))) in H. cbv beta iota in H.
  specialize (H _ (th_crit 1 true (mkthread TD_STATE_READY 0 0 false)) (mkthread TD_STATE_YIELDING 1 0 false)
    eq_refl eq_refl eq_refl eq_refl eq_refl eq_refl).
  destruct (H ltac:(vm_compute; split; congruence) eq_refl) as [_ H'].
  destruct (H' 1 2 [1] (mkthread TD_STATE_READY 1 10 false) 8002) as (k' & E & Hs).
  - split_and!; [done|done|done|]. intros j Hj. change (Z.of_nat NPRIO) with 2 in Hj. lia.
  - done.
  - done.
  - done.
  - right. split_and!; [done|done|exact co_inv|]. exists blank, Test.mt1. by split_and!.
  - done.
  - exists k'. destruct Hs as (Hc & Hq & _ & Hf & _ & _ & _ & Ht & _ & y & mt & Hm & _ & _ & _ & Hd).
    split; [exact E|]. split; [exact Hc|]. rewrite Hq, Ht, Hf, Hd. injection Hm as <-. by vm_compute.
Defined.

Lemma mutex_double_unlock_witness :
  ∃ k1 k2, mdx_mutex_unlock NPRIO 7 (k0 0 [] TD_STATE_READY [2] 0) = Ok (1, k1) ∧
    mdx_mutex_unlock NPRIO 7 k1 = Ok (1, k2).
Proof.
  destruct (mutex_double_unlock NPRIO 7 (k0 0 [] TD_STATE_READY [2] 0) (mkthread TD_STATE_RUNNING 1 0 false)
    {| sem_count := 0; sem_count_initial := 0; sem_td_list := [] |})
    as (k1 & k2 & E1 & E2 & _); [apply k0_running|done..|].
  by exists k1, k2.
Defined.

Lemma fifo_is_a_queue_witness :
  ∃ k', mdx_fifo_put NPRIO 7 42 (k0 0 [] TD_STATE_READY [2] 0) = Ok k' ∧ k_fifo k' !! 7 = Some [42].
Proof.
  destruct (fifo_is_a_queue NPRIO 7 42 (k0 0 [] TD_STATE_READY [2] 0) (mkthread TD_STATE_RUNNING 1 0 false)
    {| sem_count := 0; sem_count_initial := 0; sem_td_list := [] |} [])
    as [(k' & sm' & E & Hf & _) _]; [apply k0_running|done..|].
  by exists k'.
Defined.
End KernelWitness.
