(* ===== verification/NoSched.v ===== *)
(** * The kernel without a scheduler (kernel/nosched: mdx_sem.c, mdx_tsleep.c; the
    exception path of arch/riscv/riscv/trap.c without MDX_SCHED; mdx_thread_init.c)

    One thread, and the interrupts that the machine takes in between.  A wait is a
    loop of turns, each with interrupts off; what happens between two turns is a list
    of events: the counter of the timer runs, the timer interrupts, or an interrupt
    handler of a device posts a semaphore.  The state is that of Kernel.v, of which
    the run queues and the lists of waiters stay unused. *)

From S2P Require Import Prelude Callout Kernel.
Local Open Scope Z_scope.

(** ** Threads *)

(** The booting thread is the main thread. *)
Definition mdx_thread_init (td : Z) (k : kst) : kst :=
  set_cur td (put_td td {| td_state := TD_STATE_READY; td_critnest := 0; td_saved_ie := false;
                           td_prio := 0; td_quantum := 0; td_idle := false; td_flags := 0 |} k).

(** wfi does not change the state; what it waits for happens between two turns. *)
Definition cpu_idle (k : kst) : res kst := k ← critical_enter k; critical_exit k.

(** ** Semaphores *)

Definition mdx_sem_init (s count : Z) (k : kst) : kst :=
  set_sems (<[s := {| sem_count := count; sem_count_initial := count; sem_td_list := [] |}]> (k_sem k)) k.

Definition mdx_sem_cb (td : Z) (k : kst) : res kst :=
  kassert (0 <? crit k);;
  tk ← load (k_tok k) td;
  Ok (set_toks (<[td := {| tk_sem := tk_sem tk; tk_timeout := true |}]> (k_tok k)) k).

(** What a turn of a wait comes to; [configured] is callout_configured. *)
Inductive turn := Again (configured : bool) | Return (ret : Z).

(** A turn of [while (1)] in mdx_sem_timedwait(). *)
Definition timedwait_turn (s usec : Z) (configured : bool) (k : kst) : res (turn * kst) :=
  let td := k_cur k in
  k ← critical_enter k;
  sm ← load (k_sem k) s;
  if 0 <? sem_count sm then
    let k := set_sems (<[s := set_count (sem_count sm - 1) sm]> (k_sem k)) k in
    k ← (if configured then '(_, co) ← mdx_callout_cancel (crit k) (CTd td) (k_co k); Ok (set_co co k)
         else Ok k);
    k ← critical_exit k;
    Ok (Return 1, k)
  else
    let idle configured k := k ← cpu_idle k; k ← critical_exit k; Ok (Again configured, k) in
    if usec =? 0 then idle configured k else
    if negb configured then
      let k := set_toks (<[td := {| tk_sem := s; tk_timeout := false |}]> (k_tok k)) k in
      let co := mdx_callout_init (CTd td) (k_co k) in
      '(_, co) ← mdx_callout_set (crit k) 0 (CTd td) (u32 usec) (Some (mdx_sem_cb_ td)) co;
      idle true (set_co co k)
    else
      tk ← load (k_tok k) td;
      if tk_timeout tk then k ← critical_exit k; Ok (Return 0, k) else idle configured k.

Definition mdx_sem_trywait (s : Z) (k : kst) : res (Z * kst) :=
  k ← critical_enter k;
  sm ← load (k_sem k) s;
  if 0 <? sem_count sm then
    k ← critical_exit (set_sems (<[s := set_count (sem_count sm - 1) sm]> (k_sem k)) k); Ok (1, k)
  else k ← critical_exit k; Ok (0, k).

Definition mdx_sem_post (s : Z) (k : kst) : res (Z * kst) :=
  k ← critical_enter k;
  sm ← load (k_sem k) s;
  k ← critical_exit (set_sems (<[s := set_count (s32 (sem_count sm + 1)) sm]> (k_sem k)) k);
  Ok (1, k).

(** ** Sleeping *)

Definition mdx_tsleep_cb (td : Z) (k : kst) : res kst :=
  kassert (0 <? crit k);;
  set_state td TD_STATE_READY k.

(** mdx_tsleep() up to its loop. *)
Definition tsleep_start (ticks : Z) (k : kst) : res kst :=
  let td := k_cur k in
  t ← get_td td k;
  kassert (negb (td_idle t));;
  kassert (td_critnest t =? 0);;
  let co := mdx_callout_init (CStack td) (k_co k) in
  '(_, co) ← mdx_callout_set_ticks (crit k) 0 (CStack td) ticks (Some (mdx_tsleep_cb_ td)) co;
  Ok (set_co co k).

(** A turn of its loop: [true] is the break. *)
Definition tsleep_turn (k : kst) : res (bool * kst) :=
  k ← critical_enter k;
  c ← load_c (k_co k) (CStack (k_cur k));
  match c_state c with
  | CALLOUT_STATE_FIRED => k ← critical_exit k; Ok (true, k)
  | CALLOUT_STATE_READY => k ← cpu_idle k; k ← critical_exit k; Ok (false, k)
  end.

(** ** Interrupts *)

(** c->func(c->arg); without a scheduler there are no quanta. *)
Definition run_cb (f : cbfun) (k : kst) : res kst :=
  match f with
  | mdx_sem_cb_ td => mdx_sem_cb td k
  | mdx_tsleep_cb_ td => mdx_tsleep_cb td k
  | mdx_timer_tick_ tm => mdx_timer_tick tm k
  | mdx_sched_cb_ _ => Err Fault
  end.

#[export] Program Instance nosched_world : World ckey cbfun kst := {|
  get_cst := k_co;
  put_cst := set_co;
  w_crit := crit;
  w_call := run_cb
|}.
Next Obligation. done. Qed.
Next Obligation. done. Qed.
Next Obligation. by intros []. Qed.
Next Obligation. done. Qed.

(** riscv_exception() without MDX_SCHED, for a cause that is an interrupt: [service] is
    riscv_intr(irq).  The thread is never exchanged and the frame that is returned is the
    one passed, so the frames are left out; the CPU turns interrupts off and on. *)
Definition riscv_exception (service : kst → res kst) (k : kst) : res kst :=
  let k := set_ie false k in
  t ← get_td (k_cur k) k;
  let k := put_td (k_cur k) (th_crit (u32 (td_critnest t + 1)) (td_saved_ie t) t) k in
  k ← service k;
  t ← get_td (k_cur k) k;
  Ok (set_ie true (put_td (k_cur k) (th_crit (u32 (td_critnest t - 1)) (td_saved_ie t) t) k)).

(** The interrupt service routine of the timer [mt]. *)
Definition timer_intr (fuel : nat) (mt : Z) (k : kst) : res kst :=
  '(_, k) ← mdx_callout_callback (World0 := nosched_world) fuel 0 mt k; Ok k.

(** ** What happens while the thread waits *)

Inductive event :=
| Elapse (d : Z)      (** the counter of the timer runs by [d] *)
| TimerIrq            (** the timer interrupts *)
| DeviceIrq (s : Z).  (** the handler of a device posts the semaphore [s] *)

#[export] Instance event_eq_dec : EqDecision event.
Proof. solve_decision. Defined.

Definition elapse (d : Z) (s : cst ckey cbfun) : cst ckey cbfun :=
  let p := cpus s 0 in
  let top := match mi_tmr s with Some mt => mt_maxcnt mt | None => 0 end in
  set_cpu 0 {| q := q p; t_state := t_state p; t_saved := t_saved p;
               t_count := (t_count p + d) mod (top + 1); t_prog := t_prog p |} s.

Section Run.
Context (fuel : nat) (mt : Z).

Definition happen (e : event) (k : kst) : res kst :=
  match e with
  | Elapse d => Ok (set_co (elapse d (k_co k)) k)
  | TimerIrq => riscv_exception (timer_intr fuel mt) k
  | DeviceIrq s => riscv_exception (λ k, '(_, k) ← mdx_sem_post s k; Ok k) k
  end.

Fixpoint happens (es : list event) (k : kst) : res kst :=
  match es with [] => Ok k | e :: es => k ← happen e k; happens es k end.

(** The loop of mdx_sem_timedwait() with the events before each of its turns; [None]
    when it still waits after the last one. *)
Fixpoint timedwait_loop (turns : list (list event)) (s usec : Z) (configured : bool) (k : kst)
    : res (option Z * kst) :=
  match turns with
  | [] => Ok (None, k)
  | es :: turns =>
    k ← happens es k;
    '(t, k) ← timedwait_turn s usec configured k;
    match t with
    | Return r => Ok (Some r, k)
    | Again c => timedwait_loop turns s usec c k
    end
  end.

Definition mdx_sem_timedwait (turns : list (list event)) (s usec : Z) (k : kst) : res (option Z * kst) :=
  t ← get_td (k_cur k) k;
  kassert (negb (td_idle t));;
  timedwait_loop turns s usec false k.

Definition mdx_sem_wait (turns : list (list event)) (s : Z) (k : kst) : res (option Z * kst) :=
  mdx_sem_timedwait turns s 0 k.

Fixpoint tsleep_loop (turns : list (list event)) (k : kst) : res (bool * kst) :=
  match turns with
  | [] => Ok (false, k)
  | es :: turns =>
    k ← happens es k;
    '(stop, k) ← tsleep_turn k;
    if (stop : bool) then Ok (true, k) else tsleep_loop turns k
  end.

Definition mdx_tsleep (turns : list (list event)) (ticks : Z) (k : kst) : res (bool * kst) :=
  k ← tsleep_start ticks k;
  tsleep_loop turns k.

Definition mdx_usleep (turns : list (list event)) (usec : Z) (k : kst) : res (bool * kst) :=
  ticks ← mdx_callout_usec_to_ticks usec (k_co k);
  mdx_tsleep turns ticks k.
End Run.
