(* ===== verification/NoSchedTheorems.v ===== *)
(** * The kernel without a scheduler: waiting and sleeping

    A wait is refined by a small machine that knows the counts of the semaphores, the
    time left and whether it has run out. *)

From S2P Require Import Prelude Callout CalloutProofs CalloutInterrupt Kernel KernelTheorems NoSched.
Local Open Scope Z_scope.

(** ** One callout on the timer *)

(** [c] is the only callout that may be queued; [left] ticks are left for it. *)
Record alone (mt : mi_timer) (c : ckey) (f : cbfun) (left : option Z) (co : cst ckey cbfun) : Prop := {
  al_inv : callout_inv co;
  al_tmr : mi_tmr co = Some mt;
  al_state : t_state (cpus co 0) ≠ MI_TIMER_STATE_EXCEPTION;
  al_count : 0 ≤ t_saved (cpus co 0) ≤ t_count (cpus co 0);
  al_dls : dls co 0 = match left with
    | Some l => [(c, l + (t_count (cpus co 0) - t_saved (cpus co 0)))] | None => [] end;
  al_tab : is_Some (tab co !! c);
  al_func : is_Some left → ∃ x, tab co !! c = Some x ∧ c_func x = Some f ∧ c_state x = CALLOUT_STATE_READY ∧
    is_active x = true;
  al_cpu : ∀ x, tab co !! c = Some x → is_active x = true → c_cpuid x = 0
}.

Section Alone.
Context (mt : mi_timer) (c : ckey) (f : cbfun).

Lemma dls_nil (co : cst ckey cbfun) : dls co 0 = [] → q (cpus co 0) = [].
Proof. unfold dls. intros E. apply (f_equal (fmap fst)) in E. rewrite deadlines_fst in E. done. Qed.

Lemma dls_one (co : cst ckey cbfun) d : dls co 0 = [(c, d)] → q (cpus co 0) = [c].
Proof. unfold dls. intros E. apply (f_equal (fmap fst)) in E. rewrite deadlines_fst in E. done. Qed.

(** Without a deadline the callout is idle. *)
Lemma alone_idle co x : alone mt c f None co → tab co !! c = Some x → is_active x = false.
Proof.
  intros A Ex. destruct (is_active x) eqn:Ha; [|done].
  pose proof (inv_active _ (al_inv _ _ _ _ _ A) c x Ex Ha) as Hin. rewrite (al_cpu _ _ _ _ _ A x Ex Ha) in Hin.
  rewrite (dls_nil co) in Hin by apply A. by apply elem_of_nil in Hin.
Qed.

Lemma alone_elapse d left co : alone mt c f left co → 0 ≤ d → t_count (cpus co 0) + d ≤ mt_maxcnt mt →
  alone mt c f ((λ l, l - d) <$> left) (elapse d co) ∧ t_count (cpus (elapse d co) 0) = t_count (cpus co 0) + d.
Proof.
  intros A Hd Hm. pose proof (al_count _ _ _ _ _ A) as Hc.
  assert (cpus (elapse d co) 0 = {| q := q (cpus co 0); t_state := t_state (cpus co 0);
    t_saved := t_saved (cpus co 0); t_count := t_count (cpus co 0) + d; t_prog := t_prog (cpus co 0) |}) as E0.
  { unfold elapse, set_cpu. cbn [cpus]. rewrite fn_lookup_insert, (al_tmr _ _ _ _ _ A).
    by rewrite Z.mod_small by lia. }
  destruct (timer_upd_inv co (elapse d co) 0) as [I Hdl]; [apply A|done| | | |].
  { intros j Hj. unfold elapse, set_cpu. cbn [cpus]. by rewrite fn_lookup_insert_ne. }
  { by rewrite E0. }
  { rewrite E0. apply (inv_cpu _ (al_inv _ _ _ _ _ A) 0). }
  split; [|by rewrite E0]. destruct A as [A1 A2 A3 A4 A5 A6 A7 A8]. constructor; rewrite ?E0; cbn [t_state t_saved t_count]; try done; [lia|rewrite Hdl, A5; destruct left; cbn; [do 2 f_equal; lia|done]|].
  intros [l Hl]. apply A7. destruct left; [by eexists|done].
Qed.

(** An initialised callout. *)
Lemma alone_init co : alone mt c f None co →
  alone mt c f None (mdx_callout_init c co) ∧ cpus (mdx_callout_init c co) = cpus co ∧
  ∃ y, tab (mdx_callout_init c co) !! c = Some y ∧ is_active y = false ∧ c_state y = CALLOUT_STATE_READY.
Proof.
  intros A. destruct (al_tab _ _ _ _ _ A) as [x Ex].
  destruct (init_inv co c x (al_inv _ _ _ _ _ A) Ex (alone_idle co x A Ex)) as (y & Ey & Hy & I & Ec & Ed & Em & _).
  split_and!; [|done|].
  - destruct A as [A1 A2 A3 A4 A5 A6 A7 A8]. constructor; rewrite ?Ec, ?Ed, ?Em; try done.
    intros z Ez Hz. congruence.
  - exists y. split_and!; [done|done|]. unfold mdx_callout_init in Ey. rewrite Ex in Ey.
    cbn [upd set_tab tab] in Ey. rewrite lookup_insert_eq in Ey. by injection Ey as <-.
Qed.

Lemma alone_elapsed left co : alone mt c f left co →
  elapsed_of mt (cpus co 0) = t_count (cpus co 0) - t_saved (cpus co 0).
Proof. intros A. pose proof (al_count _ _ _ _ _ A). unfold elapsed_of. zcase; lia. Qed.

(** Arming it. *)
Lemma alone_arm crit ticks co x : alone mt c f None co → tab co !! c = Some x → is_active x = false →
  c_state x = CALLOUT_STATE_READY → 0 < crit → 0 ≤ ticks → ticks + t_count (cpus co 0) < 2 ^ 32 →
  ∃ co', mdx_callout_set_ticks_locked crit 0 c ticks (Some f) co = Ok (MDX_OK, co') ∧
    alone mt c f (if ticks =? 0 then None else Some ticks) co' ∧
    t_count (cpus co' 0) = t_count (cpus co 0) ∧
    if ticks =? 0 then ∃ y, tab co' !! c = Some y ∧ c_state y = CALLOUT_STATE_FIRED ∧ is_active y = false else True.
Proof.
  intros A Ex Ha Hst Hcr Ht Hb. pose proof (al_count _ _ _ _ _ A) as Hc.
  destruct (Z.eqb_spec ticks 0) as [->|Hne].
  - unfold mdx_callout_set_ticks_locked, kassert. rewrite (al_tmr _ _ _ _ _ A).
    rewrite bool_decide_eq_true_2 by (by eexists). destruct (Z.ltb_spec 0 crit); [|lia].
    rewrite !Ok_bind, (load_c_Some _ _ _ Ex), Ok_bind, Ha. cbv beta iota.
    eexists. split; [reflexivity|]. split_and!; [|done|].
    2:{ eexists. cbn [upd set_tab tab]. rewrite lookup_insert_eq. done. }
    assert (∀ i, c ∉ q (cpus co i)) as Hq by (intros i; eapply inactive_not_queued; [apply A|done|done]).
    assert (∀ i, cpu_ok (upd c (with_state CALLOUT_STATE_FIRED x) co) i ∧
      dls (upd c (with_state CALLOUT_STATE_FIRED x) co) i = dls co i) as Hok.
    { intros i. apply cpu_ok_ext; [apply A|done|]. intros a Hin. cbn [upd set_tab tab].
      rewrite lookup_insert_ne; [done|]. intros <-. by apply (Hq i). }
    destruct A as [A1 A2 A3 A4 A5 A6 A7 A8]. constructor; try done.
    + constructor; [apply Hok|]. intros a z Ez Hz. cbn [upd set_tab tab] in Ez.
      destruct (decide (a = c)) as [->|Hac].
      * rewrite lookup_insert_eq in Ez. injection Ez as <-. unfold is_active in *. cbn in *. congruence.
      * rewrite lookup_insert_ne in Ez by done. by apply (inv_active _ A1 a z).
    + by rewrite (proj2 (Hok 0)).
    + cbn [upd set_tab tab]. rewrite lookup_insert_eq. by eexists.
    + intros z Ez Hz. cbn [upd set_tab tab] in Ez. rewrite lookup_insert_eq in Ez. injection Ez as <-.
      unfold is_active in *. cbn in *. congruence.
  - assert (base_elapsed mt (cpus co 0) ≤ t_count (cpus co 0) ∧
      (t_state (cpus co 0) = MI_TIMER_STATE_RUNNING → base_elapsed mt (cpus co 0) = t_count (cpus co 0) - t_saved (cpus co 0)) ∧
      (t_state (cpus co 0) = MI_TIMER_STATE_READY → base_elapsed mt (cpus co 0) = 0)) as (Hbe & Hrun & Hrd).
    { unfold base_elapsed. rewrite (alone_elapsed None co A). destruct (t_state (cpus co 0)); split_and!; try done; lia. }
    destruct (set_ticks_spec co 0 c x crit ticks (Some f) mt) as (co' & E & I & Em & Ed & _ & (y & Ey & Hy) & _ & Htm);
      try done; [apply A|apply A|lia|lia|].
    exists co'. rewrite E. destruct Htm as [Hcnt Htm]. split_and!; try done.
    rewrite (al_dls _ _ _ _ _ A) in Ed. cbn [dl_insert] in Ed.
    destruct Hy as (Hy1 & Hy2 & Hy4 & _ & Hy3).
    pose proof (al_state _ _ _ _ _ A) as Hs.
    assert (t_state (cpus co' 0) = MI_TIMER_STATE_RUNNING ∧
      t_saved (cpus co' 0) = t_count (cpus co 0) - base_elapsed mt (cpus co 0)) as [Hst' Hsv].
    { destruct (t_state (cpus co 0)); [| |done];
        destruct Htm as (-> & -> & _); split; try done; [rewrite Hrd by done|rewrite Hrun by done]; lia. }
    pose proof (base_elapsed_nonneg mt (cpus co 0)).
    constructor; rewrite ?Hst', ?Hsv, ?Hcnt; try done.
    + by rewrite Em, (al_tmr _ _ _ _ _ A).
    + split; [|lia]. destruct (t_state (cpus co 0)) eqn:Es; [rewrite Hrd by done|rewrite Hrun by done|done]; lia.
    + rewrite Ed. do 2 f_equal. lia.
    + intros _. exists y. split_and!; [done|done|congruence|done].
    + intros z Ez _. congruence.
Qed.

(** Cancelling it. *)
Lemma alone_cancel crit left co : alone mt c f left co → 0 < crit →
  ∃ e co', mdx_callout_cancel crit c co = Ok (e, co') ∧ alone mt c f None co' ∧
    t_count (cpus co' 0) = t_count (cpus co 0) ∧ (∀ x, tab co' !! c = Some x → is_active x = false).
Proof.
  intros A Hcr. destruct (al_tab _ _ _ _ _ A) as [x Ex].
  unfold mdx_callout_cancel, kassert. rewrite (al_tmr _ _ _ _ _ A).
  rewrite bool_decide_eq_true_2 by (by eexists). destruct (Z.ltb_spec 0 crit); [|lia]. rewrite !Ok_bind.
  destruct (is_active x) eqn:Ha.
  - destruct (cancel_spec co c x (al_inv _ _ _ _ _ A) Ex Ha) as
      (co' & E & I & Em & Ed & _ & (y & Ey & Hy & _) & _ & F1 & F2 & F3 & _).
    rewrite (al_cpu _ _ _ _ _ A x Ex Ha) in *. exists MDX_OK, co'. split_and!; [done| |done|].
    + destruct A as [A1 A2 A3 A4 A5 A6 A7 A8]. constructor; rewrite ?F1, ?F2, ?F3, ?Em; try done.
      * rewrite Ed, A5. destruct left; [|done].
        unfold dl_remove. by rewrite filter_cons_False by (cbn; tauto).
      * intros z Ez Hz. congruence.
    + intros z Ez. congruence.
  - exists 1, co. unfold mdx_callout_cancel_locked. rewrite (load_c_Some _ _ _ Ex), Ok_bind, Ha.
    split_and!; [done| |done|intros z Ez; congruence].
    destruct A as [A1 A2 A3 A4 A5 A6 A7 A8]. constructor; try done.
    destruct left as [l|]; [|done]. destruct A7 as (y & Ey & _ & _ & Hy); [by eexists|]. congruence.
Qed.
End Alone.

(** ** Interrupts *)

Section Irq.
Context (mt : mi_timer) (c : ckey) (f : cbfun) (fuel : nat) (fuel_ok : (2 ≤ fuel)%nat).
Context (passive : indep (World0 := nosched_world) f).

Definition in_irq (t : thread) (k : kst) : kst :=
  put_td (k_cur k) (th_crit 1 (td_saved_ie t) t) (set_ie false k).

Lemma exception_ok service k t k2 t2 : k_td k !! k_cur k = Some t → td_critnest t = 0 →
  service (in_irq t k) = Ok k2 → k_td k2 !! k_cur k2 = Some t2 → td_critnest t2 = 1 →
  NoSched.riscv_exception service k = Ok (set_ie true (put_td (k_cur k2) (th_crit 0 (td_saved_ie t2) t2) k2)).
Proof.
  intros Et Hn Es Et2 Hn2. unfold NoSched.riscv_exception.
  rewrite (get_td_Some (k_cur (set_ie false k)) (set_ie false k) t Et), Ok_bind, Hn. cbv zeta.
  change (u32 (0 + 1)) with 1.
  change (put_td (k_cur (set_ie false k)) _ _) with (in_irq t k). rewrite Es, Ok_bind, (get_td_Some _ _ _ Et2), Ok_bind.
  by rewrite Hn2.
Qed.

Lemma in_irq_back t k s : k_td k !! k_cur k = Some t → td_critnest t = 0 → k_ie k = true →
  set_ie true (put_td (k_cur k) (th_crit 0 (td_saved_ie t) (th_crit 1 (td_saved_ie t) t)) (set_co s (in_irq t k)))
    = set_co s k.
Proof.
  intros Et Hn Hie. unfold in_irq, put_td, set_tds, set_ie, set_co. cbn. rewrite insert_insert_eq.
  rewrite insert_id; [by rewrite Hie|]. rewrite Et. f_equal. destruct t; cbn in *. by subst.
Qed.

Lemma in_irq_td t k : k_td (in_irq t k) !! k_cur (in_irq t k) = Some (th_crit 1 (td_saved_ie t) t).
Proof. cbn. by rewrite lookup_insert_eq. Qed.

(** The callback of the timer on a queue of one callout. *)
Lemma callback_alone left k t : alone mt c f left (k_co k) → k_td k !! k_cur k = Some t → td_critnest t = 0 →
  k_ie k = true →
  ∃ co', t_count (cpus co' 0) = t_count (cpus (k_co k) 0) ∧
    match left with
    | Some l =>
      if l <=? 0 then
        alone mt c f None co' ∧ (∃ x, tab co' !! c = Some x ∧ c_state x = CALLOUT_STATE_FIRED) ∧
        timer_intr fuel (mt_id mt) (in_irq t k) = (k2 ← run_cb f (in_irq t k); Ok (set_co co' k2))
      else alone mt c f left co' ∧ timer_intr fuel (mt_id mt) (in_irq t k) = Ok (set_co co' (in_irq t k))
    | None => co' = k_co k ∧ timer_intr fuel (mt_id mt) (in_irq t k) = Ok (in_irq t k)
    end.
Proof.
  intros A Et Hn Hie. set (k1 := in_irq t k).
  pose proof (crit_eq k1 _ (in_irq_td t k) : crit k1 = 1) as Hcr.
  change (k_co k) with (k_co k1) in A |- *.
  pose proof (alone_elapsed mt c f left _ A) as He. pose proof (al_count _ _ _ _ _ A) as Hc.
  destruct left as [l|].
  2:{ exists (k_co k1). split_and!; [done|done|]. unfold timer_intr, mdx_callout_callback, kassert.
      change (w_crit k1) with (crit k1). rewrite Hcr. cbn [Z.ltb Z.compare]. rewrite Ok_bind.
      change (get_cst k1) with (k_co k1). rewrite (al_tmr _ _ _ _ _ A), Z.eqb_refl, Ok_bind.
      rewrite (dls_nil _ (al_dls _ _ _ _ _ A)). done. }
  pose proof (dls_one c _ _ (al_dls _ _ _ _ _ A)) as Hq.
  destruct (al_func _ _ _ _ _ A) as (x & Ex & Hx & Hst & Hact); [by eexists|].
  assert (funcs (k_co k1) [c] = [f]) as Hfn.
  { change (funcs (k_co k1) [c]) with (match tab (k_co k1) !! c ≫= c_func with Some g => [g] | None => [] end).
    rewrite Ex. change (Some x ≫= c_func) with (c_func x). by rewrite Hx. }
  destruct (callback_spec (World0 := nosched_world) fuel 0 mt k1) as
    (co' & E & I & Em & Ed & _ & Hfired & Hkept & Htm).
  - apply A.
  - apply A.
  - change (w_crit k1) with (crit k1). rewrite Hcr. lia.
  - change (get_cst k1) with (k_co k1). by rewrite Hq.
  - change (get_cst k1) with (k_co k1). rewrite Hq, Hfn. by constructor.
  - change (get_cst k1) with (k_co k1). rewrite Hq. cbn. lia.
  - change (get_cst k1) with (k_co k1) in *. rewrite He, (al_dls _ _ _ _ _ A) in *.
    exists co'. unfold timer_intr. destruct Htm as (Hsv & Hcnt & Htm). split; [done|].
    destruct (Z.leb_spec l 0) as [Hl|Hl].
    + rewrite filter_cons_True in E, Hfired by (unfold due; cbn; lia). clear Hkept.
      rewrite filter_cons_False in Ed, Htm by (unfold due; cbn; lia).
      destruct Htm as [Hst' _].
      pose proof (Hfired c x ltac:(cbn; apply list_elem_of_here) Ex) as Ec'.
      split_and!.
      * constructor; rewrite ?Hst', ?Hsv, ?Hcnt; try done; [by rewrite Em, (al_tmr _ _ _ _ _ A)|lia|].
        intros z Ez Hz. rewrite Ec' in Ez. injection Ez as <-.
        rewrite (active_clear (fired x) (c_flags x)) in Hz; done.
      * eexists. split; [exact Ec'|done].
      * rewrite E, filter_nil. cbn [fmap list_fmap fst]. rewrite Hfn. cbn [run_calls].
        change (w_call f k1) with (run_cb f k1). by destruct (run_cb f k1).
    + rewrite filter_cons_False in E, Hkept by (unfold due; cbn; lia).
      rewrite filter_cons_True in Ed, Htm by (unfold due; cbn; lia). rewrite filter_nil in *.
      destruct Htm as [Hst' _].
      pose proof (Hkept c (not_elem_of_nil _)) as Hk. rewrite Ex in Hk.
      destruct (tab co' !! c) as [y|] eqn:Ey; [|done]. injection Hk as K1 K2 K3 K4 K5.
      split.
      * constructor; rewrite ?Hst', ?Hsv, ?Hcnt, ?Ey; try done; [by rewrite Em, (al_tmr _ _ _ _ _ A)|lia| | |].
        -- rewrite Ed. cbn. unfold shift. cbn. do 2 f_equal. lia.
        -- intros _. exists y. split_and!; [done|congruence|congruence|]. unfold is_active in *. congruence.
        -- intros z [= <-] _. rewrite K5. by apply (al_cpu _ _ _ _ _ A x).
      * by rewrite E.
Qed.
End Irq.

(** ** The abstract wait *)

Record aw := AW { aw_counts : gmap Z Z; aw_left : option Z; aw_over : bool }.

Definition aw_count (s : Z) (a : aw) : Z := default 0 (aw_counts a !! s).

Definition aw_event (e : event) (a : aw) : aw :=
  match e with
  | Elapse d => AW (aw_counts a) ((λ l, l - d) <$> aw_left a) (aw_over a)
  | TimerIrq =>
    match aw_left a with
    | Some l => if l <=? 0 then AW (aw_counts a) None true else a
    | None => a
    end
  | DeviceIrq s => AW (<[s := aw_count s a + 1]> (aw_counts a)) (aw_left a) (aw_over a)
  end.

Definition aw_turn (ticks s usec : Z) (configured : bool) (a : aw) : turn * aw :=
  if 0 <? aw_count s a then (Return 1, AW (<[s := aw_count s a - 1]> (aw_counts a)) None (aw_over a))
  else if usec =? 0 then (Again configured, a)
  else if negb configured then
    (Again true, AW (aw_counts a) (if ticks =? 0 then None else Some ticks) false)
  else if aw_over a then (Return 0, a)
  else (Again configured, a).

Fixpoint aw_run (ticks : Z) (turns : list (list event)) (s usec : Z) (configured : bool) (a : aw) : option Z * aw :=
  match turns with
  | [] => (None, a)
  | es :: turns =>
    let '(t, a) := aw_turn ticks s usec configured (foldl (λ a e, aw_event e a) a es) in
    match t with Return r => (Some r, a) | Again c => aw_run ticks turns s usec c a end
  end.

(** ** The simulation *)

Fixpoint total (es : list event) : Z :=
  match es with [] => 0 | Elapse d :: es => d + total es | _ :: es => total es end.

(** What is asked of the events to come: time goes on, the counter does not wrap, the
    semaphores exist and their counts do not overflow. *)
Record calm (mt : mi_timer) (ticks : Z) (es : list event) (k : kst) : Prop := {
  calm_events : Forall (λ e, match e with
    | Elapse d => 0 ≤ d | TimerIrq => True | DeviceIrq s => is_Some (k_sem k !! s) end) es;
  calm_time : t_count (cpus (k_co k) 0) + total es ≤ mt_maxcnt mt;
  calm_ticks : ticks + (t_count (cpus (k_co k) 0) + total es) < 2 ^ 32;
  calm_counts : ∀ s sm, k_sem k !! s = Some sm →
    - 2 ^ 31 ≤ sem_count sm ∧ sem_count sm + Z.of_nat (length es) < 2 ^ 31
}.

Definition thread_ok (k : kst) : Prop :=
  ∃ t, k_td k !! k_cur k = Some t ∧ td_critnest t = 0 ∧ k_ie k = true.

Record waiting (mt : mi_timer) (s : Z) (configured : bool) (a : aw) (k : kst) : Prop := {
  wt_thread : thread_ok k;
  wt_alone : alone mt (CTd (k_cur k)) (mdx_sem_cb_ (k_cur k)) (aw_left a) (k_co k);
  wt_sems : sem_count <$> k_sem k = aw_counts a;
  wt_tok : if configured
    then k_tok k !! k_cur k = Some {| tk_sem := s; tk_timeout := aw_over a |} ∧ (aw_over a = true → aw_left a = None)
    else aw_left a = None
}.

Lemma time_nonneg es (P : Z → Prop) :
  Forall (λ e, match e with Elapse d => 0 ≤ d | TimerIrq => True | DeviceIrq s => P s end) es → 0 ≤ total es.
Proof. induction 1 as [|[] es He _ IH]; cbn [total]; lia. Qed.

(** Fewer events, less time, and counts that did not grow by more than was foreseen. *)
Lemma calm_weaken mt ticks es es' k k' : calm mt ticks es k →
  (∃ pre, es = pre ++ es') → t_count (cpus (k_co k') 0) + total es' ≤ t_count (cpus (k_co k) 0) + total es →
  (∀ s sm', k_sem k' !! s = Some sm' → ∃ sm, k_sem k !! s = Some sm ∧
    (sem_count sm' = sem_count sm ∨ sem_count sm' = sem_count sm - 1 ∧ 0 < sem_count sm ∨
     sem_count sm' = sem_count sm + 1 ∧ (length es' < length es)%nat)) →
  (∀ s, is_Some (k_sem k !! s) → is_Some (k_sem k' !! s)) →
  calm mt ticks es' k'.
Proof.
  intros [H1 H2 H3 H4] [pre ->] Ht Hs Hd. apply Forall_app in H1 as [_ H1].
  constructor; [|lia|lia|].
  - eapply Forall_impl; [exact H1|]. intros []; auto.
  - intros s sm' E. destruct (Hs s sm' E) as (sm & Em & Hc). destruct (H4 s sm Em).
    rewrite length_app in *. lia.
Qed.

Lemma semcb_passive td : indep (World0 := nosched_world) (mdx_sem_cb_ td).
Proof.
  intros s k. change (w_call (mdx_sem_cb_ td)) with (NoSched.mdx_sem_cb td).
  unfold NoSched.mdx_sem_cb. change (put_cst s k) with (set_co s k).
  change (crit (set_co s k)) with (crit k). change (k_tok (set_co s k)) with (k_tok k).
  destruct (kassert _) as [[]|]; [|done]. rewrite !Ok_bind. destruct (load (k_tok k) td); [|done]. done.
Qed.

Lemma sems_lookup k a s sm : sem_count <$> k_sem k = aw_counts a → k_sem k !! s = Some sm → aw_count s a = sem_count sm.
Proof. intros E Es. unfold aw_count. rewrite <- E, lookup_fmap, Es. done. Qed.

Lemma sems_insert k a s sm n : sem_count <$> k_sem k = aw_counts a →
  sem_count <$> <[s := set_count n sm]> (k_sem k) = <[s := n]> (aw_counts a).
Proof. intros E. by rewrite fmap_insert, E. Qed.

Lemma sem_insert_cases s sm n (sems : gmap Z sem) s' sm' : sems !! s = Some sm →
  <[s := set_count n sm]> sems !! s' = Some sm' → ∃ sm0, sems !! s' = Some sm0 ∧
    (sem_count sm' = sem_count sm0 ∨ s' = s ∧ sm0 = sm ∧ sem_count sm' = n).
Proof.
  intros E. rewrite lookup_insert_Some. intros [[-> <-]|[_ Es]]; [|by eauto]. exists sm. auto.
Qed.

(** ** Critical sections inside critical sections *)

Lemma inner_exit k t k' : k_td k !! k_cur k = Some t → 0 < td_critnest t < 2 ^ 32 - 1 →
  k_cur k' = k_cur k → k_td k' = <[k_cur k := th_crit (td_critnest t + 1) (td_saved_ie t) t]> (k_td k) →
  critical_exit k' = Ok (set_tds (k_td k) k').
Proof.
  intros Et Hn Ec Etd. erewrite exit_inner.
  2:{ rewrite Ec, Etd. apply lookup_insert_eq. }
  2:{ cbn. lia. }
  f_equal. unfold put_td. rewrite Ec, Etd, insert_insert_eq. f_equal. rewrite insert_id; [done|].
  rewrite Et. f_equal. destruct t. cbn. unfold th_crit. cbn. f_equal. lia.
Qed.

Lemma idle_ok k t : k_td k !! k_cur k = Some t → 0 < td_critnest t < 2 ^ 32 - 1 → cpu_idle k = Ok k.
Proof.
  intros Et Hn. unfold cpu_idle. rewrite (enter_inner k t Et Hn), Ok_bind.
  rewrite (inner_exit k t _ Et Hn) by done. by destruct k.
Qed.

Lemma post_irq s k t sm : k_td k !! k_cur k = Some t → td_critnest t = 0 → k_ie k = true → k_sem k !! s = Some sm →
  - 2 ^ 31 ≤ sem_count sm + 1 < 2 ^ 31 →
  happen 0 0 (DeviceIrq s) k = Ok (set_sems (<[s := set_count (sem_count sm + 1) sm]> (k_sem k)) k).
Proof.
  intros Et Hn Hie Es Hb. unfold happen. pose proof (in_irq_td t k) as Ei.
  assert (NoSched.mdx_sem_post s (in_irq t k) =
    Ok (1, set_sems (<[s := set_count (sem_count sm + 1) sm]> (k_sem k)) (in_irq t k))) as Ep.
  { unfold NoSched.mdx_sem_post. rewrite (enter_inner _ _ Ei) by (cbn; lia). rewrite Ok_bind.
    change (k_sem (put_td _ _ (in_irq t k))) with (k_sem k). rewrite (load_Some _ _ _ Es), Ok_bind.
    rewrite (inner_exit (in_irq t k) _ _ Ei) by (done || (cbn; lia)). rewrite Ok_bind.
    rewrite swrap_small by lia. done. }
  rewrite (exception_ok _ k t (set_sems (<[s := set_count (sem_count sm + 1) sm]> (k_sem k)) (in_irq t k))
    (th_crit 1 (td_saved_ie t) t) Et Hn); [|by rewrite Ep|exact Ei|done].
  f_equal. unfold in_irq, put_td, set_tds, set_ie, set_sems. cbn. rewrite insert_insert_eq.
  rewrite insert_id; [by rewrite Hie|]. rewrite Et. f_equal. destruct t; cbn in *. by subst.
Qed.

(** The critical section of a turn. *)
Definition in_turn (t : thread) (k : kst) : Prop := k_td k !! k_cur k = Some (th_crit 1 true t).

Lemma turn_enter k : thread_ok k → ∃ t k1, critical_enter k = Ok k1 ∧ in_turn t k1 ∧ k_cur k1 = k_cur k ∧
  k_sem k1 = k_sem k ∧ k_tok k1 = k_tok k ∧ k_co k1 = k_co k.
Proof.
  intros (t & Et & Hn & Hie). exists t. rewrite (enter_outer _ _ Et Hn), Hie.
  eexists. split; [reflexivity|]. split_and!; try done. unfold in_turn. cbn. apply lookup_insert_eq.
Qed.

Lemma turn_exit t k : in_turn t k → ∃ k', critical_exit k = Ok k' ∧ thread_ok k' ∧ k_cur k' = k_cur k ∧
  k_sem k' = k_sem k ∧ k_tok k' = k_tok k ∧ k_co k' = k_co k.
Proof.
  intros Et. rewrite (exit_outer _ _ Et) by done. eexists. split; [reflexivity|]. split_and!; try done.
  exists (th_crit 0 true t). split_and!; try done. cbn. apply lookup_insert_eq.
Qed.

Lemma turn_idle t k : in_turn t k → cpu_idle k = Ok k.
Proof. intros Et. apply (idle_ok k _ Et). cbn. lia. Qed.

Lemma turn_crit t k : in_turn t k → crit k = 1.
Proof. intros Et. by rewrite (crit_eq _ _ Et). Qed.

(** ** One event *)

Section Simulation.
Context (mt : mi_timer) (fuel : nat) (fuel_ok : (2 ≤ fuel)%nat) (ticks s usec : Z).

(** The events other than the timer's. *)
Lemma other_event c f left e es k : e ≠ TimerIrq → thread_ok k → alone mt c f left (k_co k) → calm mt ticks (e :: es) k →
  ∃ k', happen fuel (mt_id mt) e k = Ok k' ∧ thread_ok k' ∧ alone mt c f (match e with Elapse d => (λ l, l - d) <$> left | _ => left end) (k_co k') ∧
    calm mt ticks es k' ∧ k_cur k' = k_cur k ∧ k_tok k' = k_tok k ∧ tab (k_co k') = tab (k_co k) ∧
    dom (k_sem k') = dom (k_sem k) ∧ mi_tmr (k_co k') = mi_tmr (k_co k) ∧
    sem_count <$> k_sem k' =
      match e with DeviceIrq s => <[s := default 0 ((sem_count <$> k_sem k) !! s) + 1]> (sem_count <$> k_sem k)
      | _ => sem_count <$> k_sem k end.
Proof.
  intros Hne (t & Et & Hn & Hie) A C. pose proof (calm_events _ _ _ _ C) as [He Hes]%Forall_cons.
  destruct e as [d| |s']; [|done|].
  - pose proof (time_nonneg es _ Hes). pose proof (calm_time _ _ _ _ C) as Hct. cbn [total] in Hct.
    destruct (alone_elapse mt _ _ d _ _ A He) as [A' Hc']; [lia|].
    exists (set_co (elapse d (k_co k)) k). split_and!; try done; [by exists t|].
    apply (calm_weaken mt ticks (Elapse d :: es) es k); [done|by exists [Elapse d]| |eauto|done].
    cbn [k_co set_co total]. rewrite Hc'. lia.
  - destruct He as [sm Es]. destruct (calm_counts _ _ _ _ C s' sm Es) as [Hlo Hhi]. cbn [length] in Hhi.
    eexists. split_and!; [apply (post_irq s' k t sm); try done; lia| | | | | | | | |]; try done; [by exists t| | |].
    + apply (calm_weaken mt ticks (DeviceIrq s' :: es) es k); [done|by exists [DeviceIrq s']|done| |].
      * intros s2 sm2 E2. apply (sem_insert_cases s' sm _ _ _ _ Es) in E2 as (sm0 & -> & Hc).
        exists sm0. split; [done|]. cbn [length]. destruct Hc as [|(-> & -> & ->)]; [auto|].
        right. right. lia.
      * intros s2 H2. cbn [k_sem set_sems]. destruct (decide (s2 = s')) as [->|Hne2].
        -- rewrite lookup_insert_eq. by eexists.
        -- by rewrite lookup_insert_ne.
    + cbn [k_sem set_sems]. rewrite dom_insert_lookup_L; [done|by eexists].
    + cbn [k_sem set_sems]. rewrite fmap_insert, lookup_fmap, Es. done.
Qed.

(** The timer's interrupt when the callout is not due. *)
Lemma quiet_irq c f left es k : indep (World0 := nosched_world) f → thread_ok k → alone mt c f left (k_co k) →
  calm mt ticks (TimerIrq :: es) k → (∀ l, left = Some l → 0 < l) →
  ∃ k', happen fuel (mt_id mt) TimerIrq k = Ok k' ∧ thread_ok k' ∧ alone mt c f left (k_co k') ∧ calm mt ticks es k' ∧
    k_cur k' = k_cur k ∧ k_tok k' = k_tok k ∧ k_sem k' = k_sem k ∧ (left = None → k_co k' = k_co k).
Proof.
  intros Hp (t & Et & Hn & Hie) A C Hl.
  destruct (callback_alone mt c f fuel fuel_ok Hp left k t A Et Hn Hie) as (co' & Hcnt & Hcb).
  assert (alone mt c f left co' ∧ (left = None → co' = k_co k) ∧
    timer_intr fuel (mt_id mt) (in_irq t k) = Ok (set_co co' (in_irq t k))) as (A' & Hco & E).
  { destruct left as [l|]; [|destruct Hcb as [-> Hcb]; split_and!; [done|done|]; by rewrite Hcb].
    specialize (Hl l eq_refl). destruct (Z.leb_spec l 0); [lia|]. by destruct Hcb. }
  exists (set_co co' k). split_and!; try done.
  - unfold happen. rewrite (exception_ok _ k t _ (th_crit 1 (td_saved_ie t) t) Et Hn E); [|apply in_irq_td|done].
    f_equal. exact (in_irq_back t k co' Et Hn Hie).
  - by exists t.
  - apply (calm_weaken mt ticks (TimerIrq :: es) es k); [done|by exists [TimerIrq]| |eauto|done].
    cbn [k_co set_co total]. rewrite Hcnt. lia.
Qed.

(** ... and when it is. *)
Lemma due_irq c f l es k t k2 t2 : indep (World0 := nosched_world) f → k_td k !! k_cur k = Some t → td_critnest t = 0 → k_ie k = true →
  alone mt c f (Some l) (k_co k) → calm mt ticks (TimerIrq :: es) k → l ≤ 0 →
  run_cb f (in_irq t k) = Ok k2 → k_td k2 !! k_cur k2 = Some t2 → td_critnest t2 = 1 → k_sem k2 = k_sem k →
  ∃ co', happen fuel (mt_id mt) TimerIrq k =
      Ok (set_ie true (put_td (k_cur k2) (th_crit 0 (td_saved_ie t2) t2) (set_co co' k2))) ∧
    alone mt c f None co' ∧ (∃ x, tab co' !! c = Some x ∧ c_state x = CALLOUT_STATE_FIRED) ∧
    calm mt ticks es (set_co co' k2).
Proof.
  intros Hp Et Hn Hie A C Hl Erun Et2 Hn2 Hs.
  destruct (callback_alone mt c f fuel fuel_ok Hp (Some l) k t A Et Hn Hie) as (co' & Hcnt & Hcb).
  destruct (Z.leb_spec l 0); [|lia]. destruct Hcb as (A' & Hx & E). rewrite Erun, Ok_bind in E.
  exists co'. split_and!; try done.
  - unfold happen. by rewrite (exception_ok _ k t _ t2 Et Hn E).
  - apply (calm_weaken mt ticks (TimerIrq :: es) es k); [done|by exists [TimerIrq]| | |].
    + cbn [k_co set_co total]. rewrite Hcnt. lia.
    + intros s1 sm1. cbn [k_sem set_co]. rewrite Hs. eauto.
    + intros s1. cbn [k_sem set_co]. by rewrite Hs.
Qed.

Lemma happen_ok e es configured a k : waiting mt s configured a k → calm mt ticks (e :: es) k →
  ∃ k', happen fuel (mt_id mt) e k = Ok k' ∧ waiting mt s configured (aw_event e a) k' ∧ calm mt ticks es k' ∧
    k_cur k' = k_cur k ∧ dom (k_sem k') = dom (k_sem k) ∧ mi_tmr (k_co k') = mi_tmr (k_co k).
Proof.
  intros [Hth A Hs Ht] C. destruct (decide (e = TimerIrq)) as [->|Hne].
  2:{ destruct (other_event _ _ _ e es k Hne Hth A C) as (k' & E & Hth' & A' & C' & H1 & H2 & _ & H3 & H4 & H5).
      exists k'. split_and!; try done. rewrite <- H1 in A'. rewrite Hs in H5.
      destruct e as [d| |s']; [| done|]; constructor; try done; rewrite H1, H2; cbn [aw_event aw_left aw_over].
      - destruct configured; [|by rewrite Ht]. destruct Ht as [Ht1 Ht2]. split; [done|]. intros Ho. by rewrite (Ht2 Ho).
      - exact Ht. }
  assert ((∀ l, aw_left a = Some l → 0 < l) ∨ ∃ l, aw_left a = Some l ∧ l ≤ 0) as [Hl|(l & El & Hl)].
  { destruct (aw_left a) as [l|]; [|by left]. destruct (decide (l ≤ 0)); [right; eauto|]. left. intros ? [= <-]. lia. }
  - destruct (quiet_irq _ _ _ es k (semcb_passive _) Hth A C Hl) as (k' & E & Hth' & A' & C' & H1 & H2 & H3 & _).
    assert (aw_event TimerIrq a = a) as ->.
    { cbn. destruct (aw_left a) as [l|]; [|done]. specialize (Hl l eq_refl). destruct (Z.leb_spec l 0); [lia|done]. }
    exists k'. split_and!; try done; [|by rewrite H3|by rewrite (al_tmr _ _ _ _ _ A), (al_tmr _ _ _ _ _ A')].
    constructor; rewrite ?H1, ?H2, ?H3; done.
  - destruct configured; [|congruence]. destruct Ht as [Ht1 Ht2]. destruct Hth as (t & Et & Hn & Hie). rewrite El in A.
    set (toks := <[k_cur k := {| tk_sem := s; tk_timeout := true |}]> (k_tok k)).
    destruct (due_irq _ _ l es k t (set_toks toks (in_irq t k)) (th_crit 1 (td_saved_ie t) t) (semcb_passive _) Et Hn Hie A C Hl) as (co' & E & A' & _ & C');
      [|apply in_irq_td|done|done|].
    { cbn [run_cb]. unfold NoSched.mdx_sem_cb, kassert.
      rewrite (crit_eq _ _ (in_irq_td t k) : crit (in_irq t k) = 1). cbn [Z.ltb Z.compare].
      change (k_tok (in_irq t k)) with (k_tok k). by rewrite Ok_bind, (load_Some _ _ _ Ht1), Ok_bind. }
    assert (set_ie true (put_td (k_cur k) (th_crit 0 (td_saved_ie t) (th_crit 1 (td_saved_ie t) t))
      (set_co co' (set_toks toks (in_irq t k)))) = set_toks toks (set_co co' k)) as Eback.
    { rewrite <- (in_irq_back t k co' Et Hn Hie). done. }
    exists (set_toks toks (set_co co' k)). split; [rewrite E; exact (f_equal Ok Eback)|]. cbn [aw_event]. rewrite El. destruct (Z.leb_spec l 0); [|lia].
    split_and!; try done.
    + constructor; [by exists t|exact A'|done|]. cbn. split; [|done]. unfold toks. apply lookup_insert_eq.
    + destruct C' as [C1 C2 C3 C4]. by constructor.
    + transitivity (mi_tmr co'); [done|]. by rewrite (al_tmr _ _ _ _ _ A), (al_tmr _ _ _ _ _ A').
Qed.

(** ** One turn *)

(** The state a wait leaves behind: the callout of the thread is idle. *)
Definition done_waiting (a : aw) (k : kst) : Prop :=
  thread_ok k ∧ alone mt (CTd (k_cur k)) (mdx_sem_cb_ (k_cur k)) None (k_co k) ∧ sem_count <$> k_sem k = aw_counts a.

Definition after_turn (r : turn) (a : aw) (k : kst) : Prop :=
  match r with Again c => waiting mt s c a k | Return _ => done_waiting a k end.

Lemma calm_same es k k' : calm mt ticks es k → k_sem k' = k_sem k →
  t_count (cpus (k_co k') 0) = t_count (cpus (k_co k) 0) → calm mt ticks es k'.
Proof. intros [C1 C2 C3 C4] Es Ec. constructor; rewrite ?Es, ?Ec; done. Qed.

Lemma turn_ok es configured a k : waiting mt s configured a k → calm mt ticks es k → is_Some (k_sem k !! s) →
  0 ≤ ticks → 0 ≤ total es → (usec ≠ 0 → mdx_callout_usec_to_ticks (u32 usec) (k_co k) = Ok ticks) →
  let '(r, a') := aw_turn ticks s usec configured a in
  ∃ k', timedwait_turn s usec configured k = Ok (r, k') ∧ after_turn r a' k' ∧ calm mt ticks es k' ∧
    k_cur k' = k_cur k ∧ dom (k_sem k') = dom (k_sem k) ∧ mi_tmr (k_co k') = mi_tmr (k_co k).
Proof.
  intros [Hth A Hs Ht] C [sm Es] Htk Htot Hcv. unfold timedwait_turn, aw_turn.
  destruct (turn_enter k Hth) as (t & k1 & -> & T1 & E1 & E2 & E3 & E4). rewrite Ok_bind, E2, (load_Some _ _ _ Es), Ok_bind.
  rewrite (sems_lookup k a s sm Hs Es).
  assert (∀ c, ∃ k', (k2 ← cpu_idle k1; k3 ← critical_exit k2; Ok (Again c, k3)) = Ok (Again c, k') ∧
    thread_ok k' ∧ k_cur k' = k_cur k ∧ k_sem k' = k_sem k ∧ k_tok k' = k_tok k ∧ k_co k' = k_co k) as Hidle.
  { intros c. rewrite (turn_idle t k1 T1), Ok_bind. destruct (turn_exit t k1 T1) as (k' & -> & H1 & H2 & H3 & H4 & H5).
    exists k'. split_and!; try done; congruence. }
  destruct (Z.ltb_spec 0 (sem_count sm)) as [Hpos|Hzero].
  - set (k2 := set_sems _ k1). assert (in_turn t k2) as T2 by exact T1.
    assert (∃ co', (if configured then '(_, co) ← mdx_callout_cancel (crit k2) (CTd (k_cur k)) (k_co k2); Ok (set_co co k2)
      else Ok k2) = Ok (set_co co' k2) ∧ alone mt (CTd (k_cur k)) (mdx_sem_cb_ (k_cur k)) None co' ∧
      t_count (cpus co' 0) = t_count (cpus (k_co k) 0)) as (co' & -> & A' & Hcnt).
    { rewrite (turn_crit t k2 T2). change (k_co k2) with (k_co k1). rewrite E4. destruct configured.
      - destruct (alone_cancel mt _ _ 1 _ _ A) as (e & co' & -> & A' & Hcnt & _); [lia|]. rewrite Ok_bind. by exists co'.
      - exists (k_co k). rewrite Ht in A. split_and!; [|done|done]. f_equal. rewrite <- E4. by destruct k1. }
    rewrite Ok_bind. destruct (turn_exit t (set_co co' k2) T2) as (k' & -> & H1 & H2 & H3 & H4 & H5). rewrite Ok_bind.
    change (k_cur (set_co co' k2)) with (k_cur k1) in H2. rewrite E1 in H2.
    change (k_sem (set_co co' k2)) with (<[s := set_count (sem_count sm - 1) sm]> (k_sem k)) in H3.
    change (k_co (set_co co' k2)) with co' in H5.
    exists k'. split_and!; [done| | |done| |].
    + split_and!; [done|by rewrite H2, H5|]. rewrite H3. by apply sems_insert.
    + apply (calm_weaken mt ticks es es k); [done|by exists []|rewrite H5, Hcnt; lia| |].
      * intros s2 sm2. rewrite H3. intros E. apply (sem_insert_cases s sm _ _ _ _ Es) in E as (sm0 & -> & Hc).
        exists sm0. split; [done|]. destruct Hc as [|(-> & -> & ->)]; [auto|]. right. left. lia.
      * intros s2 H6. rewrite H3. destruct (decide (s2 = s)) as [->|Hne]; [rewrite lookup_insert_eq; by eexists|].
        by rewrite lookup_insert_ne.
    + rewrite H3. apply dom_insert_lookup_L. by eexists.
    + by rewrite H5, (al_tmr _ _ _ _ _ A'), (al_tmr _ _ _ _ _ A).
  - destruct (Z.eqb_spec usec 0) as [->|Hus].
    { destruct (Hidle configured) as (k' & -> & H1 & H2 & H3 & H4 & H5). exists k'. split_and!; try congruence.
      - constructor; rewrite ?H2, ?H3, ?H4, ?H5; done.
      - by apply (calm_same es k); [done|done|rewrite H5]. }
    destruct configured; cbn [negb].
    + destruct Ht as [Ht1 Ht2]. rewrite E3, (load_Some _ _ _ Ht1), Ok_bind. cbn [tk_timeout].
      destruct (aw_over a) eqn:Eo.
      * destruct (turn_exit t k1 T1) as (k' & -> & H1 & H2 & H3 & H4 & H5). rewrite Ok_bind.
        exists k'. rewrite E2, E4 in *. split_and!; try congruence.
        -- split_and!; [done| |congruence]. rewrite H2, E1, H5. rewrite <- (Ht2 eq_refl). exact A.
        -- by apply (calm_same es k); [done|done|rewrite H5].
      * destruct (Hidle true) as (k' & -> & H1 & H2 & H3 & H4 & H5). exists k'. split_and!; try congruence.
        -- constructor; rewrite ?H2, ?H3, ?H4, ?H5, ?Eo; done.
        -- by apply (calm_same es k); [done|done|rewrite H5].
    + rewrite Ht in A. cbv zeta. set (k2 := set_toks _ k1). assert (in_turn t k2) as T2 by exact T1.
      rewrite (turn_crit t k2 T2). change (k_co k2) with (k_co k1). rewrite E4.
      destruct (alone_init mt _ _ _ A) as (A1 & Ec1 & y & Ey & Hy & Hst).
      unfold mdx_callout_set, mdx_callout_usec_to_ticks in *.
      rewrite (al_tmr _ _ _ _ _ A1). rewrite (al_tmr _ _ _ _ _ A) in Hcv. rewrite (Hcv Hus), Ok_bind.
      pose proof (calm_ticks _ _ _ _ C) as Hct.
      destruct (alone_arm mt _ _ 2 ticks _ y A1 Ey Hy Hst) as (co' & E & A' & Hcnt & _); [lia|done|rewrite Ec1; lia|].
      unfold mdx_callout_set_ticks. change (1 + 1) with 2. rewrite E, Ok_bind. cbv beta iota.
      rewrite (turn_idle t (set_co co' k2) T2), Ok_bind.
      destruct (turn_exit t (set_co co' k2) T2) as (k' & -> & H1 & H2 & H3 & H4 & H5). rewrite Ok_bind.
      change (k_cur (set_co co' k2)) with (k_cur k1) in H2. rewrite E1 in H2.
      change (k_sem (set_co co' k2)) with (k_sem k1) in H3. rewrite E2 in H3.
      change (k_co (set_co co' k2)) with co' in H5. rewrite Ec1 in Hcnt.
      exists k'. split_and!; [done| | |done|by rewrite H3|by rewrite H5, (al_tmr _ _ _ _ _ A'), (al_tmr _ _ _ _ _ A)].
      * constructor; [done|by rewrite H2, H5|by rewrite H3|]. rewrite H2, H4. cbn. split; [apply lookup_insert_eq|done].
      * by apply (calm_same es k); [done|done|rewrite H5].
Qed.
(** ** The loop *)

Lemma happens_ok es : ∀ es' configured a k, waiting mt s configured a k → calm mt ticks (es ++ es') k →
  ∃ k', happens fuel (mt_id mt) es k = Ok k' ∧ waiting mt s configured (foldl (λ a e, aw_event e a) a es) k' ∧
    calm mt ticks es' k' ∧ k_cur k' = k_cur k ∧ dom (k_sem k') = dom (k_sem k) ∧ mi_tmr (k_co k') = mi_tmr (k_co k).
Proof.
  induction es as [|e es IH]; intros es' configured a k Hw C; [by exists k|]. cbn [app] in C.
  destruct (happen_ok e (es ++ es') configured a k Hw C) as (k1 & E & Hw1 & C1 & H1 & H2 & H3).
  destruct (IH es' configured _ k1 Hw1 C1) as (k2 & E2 & Hw2 & C2 & H4 & H5 & H6).
  exists k2. cbn [happens foldl]. rewrite E, Ok_bind. split_and!; try done; congruence.
Qed.

Lemma dom_Some (k k' : kst) : dom (k_sem k') = dom (k_sem k) → is_Some (k_sem k !! s) → is_Some (k_sem k' !! s).
Proof. intros E. rewrite <- !elem_of_dom. by rewrite E. Qed.

Lemma conv_ext (k k' : kst) : mi_tmr (k_co k') = mi_tmr (k_co k) →
  (usec ≠ 0 → mdx_callout_usec_to_ticks (u32 usec) (k_co k) = Ok ticks) →
  usec ≠ 0 → mdx_callout_usec_to_ticks (u32 usec) (k_co k') = Ok ticks.
Proof. unfold mdx_callout_usec_to_ticks. by intros ->. Qed.

Lemma loop_ok turns : ∀ configured a k, waiting mt s configured a k → calm mt ticks (concat turns) k →
  is_Some (k_sem k !! s) → 0 ≤ ticks → (usec ≠ 0 → mdx_callout_usec_to_ticks (u32 usec) (k_co k) = Ok ticks) →
  let '(r, a') := aw_run ticks turns s usec configured a in
  ∃ k', timedwait_loop fuel (mt_id mt) turns s usec configured k = Ok (r, k') ∧ thread_ok k' ∧ k_cur k' = k_cur k ∧
    sem_count <$> k_sem k' = aw_counts a' ∧ (is_Some r → done_waiting a' k').
Proof.
  induction turns as [|es turns IH]; intros configured a k Hw C Hs Htk Hcv; cbn [aw_run timedwait_loop].
  { exists k. split_and!; try done; apply Hw. }
  cbn [concat] in C.
  destruct (happens_ok es (concat turns) configured a k Hw C) as (k1 & -> & Hw1 & C1 & H1 & H2 & H3). rewrite Ok_bind.
  pose proof (turn_ok (concat turns) configured _ k1 Hw1 C1 (dom_Some k k1 H2 Hs) Htk) as Ht.
  destruct (aw_turn ticks s usec configured _) as [r a'].
  destruct Ht as (k2 & -> & Hr & C2 & H4 & H5 & H6).
  { eapply time_nonneg. exact (calm_events _ _ _ _ C1). }
  { by apply (conv_ext k). }
  rewrite Ok_bind. destruct r as [c|r].
  - specialize (IH c a' k2 Hr C2). destruct (aw_run ticks turns s usec c a') as [r2 a2].
    destruct IH as (k3 & -> & H7 & H8 & H9); [by apply (dom_Some k1), (dom_Some k)|done| |].
    { apply (conv_ext k1); [done|]. by apply (conv_ext k). }
    destruct H9 as [H9 H10]. exists k3. split_and!; try done. congruence.
  - exists k2. split_and!; [done|apply Hr|congruence|apply Hr|done].
Qed.
End Simulation.

(** ** What a wait comes to *)

(** A thread about to wait: it runs, is not idle, and its callout is not in use. *)
Record about_to_wait (mt : mi_timer) (f : cbfun) (c : ckey) (k : kst) : Prop := {
  ab_thread : ∃ t, k_td k !! k_cur k = Some t ∧ td_critnest t = 0 ∧ k_ie k = true ∧ td_idle t = false;
  ab_alone : alone mt c f None (k_co k)
}.


(** ** Sleeping *)

(** The time left, until the timer interrupts with none. *)
Definition left_event (left : option Z) (e : event) : option Z :=
  match e with
  | Elapse d => (λ l, l - d) <$> left
  | TimerIrq => l ← left; if l <=? 0 then None else left
  | DeviceIrq _ => left
  end.

Fixpoint sleep_run (turns : list (list event)) (left : option Z) : bool :=
  match turns with
  | [] => false
  | es :: turns => let left := foldl left_event left es in if left is Some _ then sleep_run turns left else true
  end.

Record sleeping (mt : mi_timer) (left : option Z) (k : kst) : Prop := {
  sl_thread : thread_ok k;
  sl_alone : alone mt (CStack (k_cur k)) (mdx_tsleep_cb_ (k_cur k)) left (k_co k);
  sl_fired : left = None → ∃ x, tab (k_co k) !! CStack (k_cur k) = Some x ∧ c_state x = CALLOUT_STATE_FIRED
}.

Lemma sleepcb_passive td : indep (World0 := nosched_world) (mdx_tsleep_cb_ td).
Proof.
  intros s k. change (w_call (mdx_tsleep_cb_ td)) with (NoSched.mdx_tsleep_cb td).
  unfold NoSched.mdx_tsleep_cb, set_state, get_td. change (put_cst s k) with (set_co s k).
  change (crit (set_co s k)) with (crit k). change (k_td (set_co s k)) with (k_td k).
  destruct (kassert _) as [[]|]; [|done]. rewrite !Ok_bind. destruct (load (k_td k) td); [|done]. done.
Qed.

Section Sleep.
Context (mt : mi_timer) (fuel : nat) (fuel_ok : (2 ≤ fuel)%nat) (ticks : Z).

Lemma sleep_event e es left k : sleeping mt left k → calm mt ticks (e :: es) k →
  ∃ k', happen fuel (mt_id mt) e k = Ok k' ∧ sleeping mt (left_event left e) k' ∧ calm mt ticks es k' ∧ k_cur k' = k_cur k.
Proof.
  intros [Hth A Hf] C. destruct (decide (e = TimerIrq)) as [->|Hne].
  2:{ destruct (other_event mt fuel fuel_ok ticks _ _ _ e es k Hne Hth A C) as (k' & E & Hth' & A' & C' & H1 & _ & H2 & _).
      exists k'. split_and!; try done. rewrite <- H1 in A'.
      destruct e as [d| |s']; [|done|]; constructor; try done; rewrite H1, H2; [|done].
      destruct left; [done|]. intros _. by apply Hf. }
  assert ((∀ l, left = Some l → 0 < l) ∨ ∃ l, left = Some l ∧ l ≤ 0) as [Hl|(l & -> & Hl)].
  { destruct left as [l|]; [|by left]. destruct (decide (l ≤ 0)); [right; eauto|]. left. intros ? [= <-]. lia. }
  - destruct (quiet_irq mt fuel fuel_ok ticks _ _ _ es k (sleepcb_passive _) Hth A C Hl)
      as (k' & E & Hth' & A' & C' & H1 & _ & _ & H2).
    assert (left_event left TimerIrq = left) as ->.
    { cbn. destruct left as [l|]; [|done]. specialize (Hl l eq_refl). cbn. destruct (Z.leb_spec l 0); [lia|done]. }
    exists k'. split_and!; try done. constructor; rewrite ?H1; try done. intros ->. rewrite H2 by done. by apply Hf.
  - destruct Hth as (t & Et & Hn & Hie).
    set (t2 := th_state TD_STATE_READY (th_crit 1 (td_saved_ie t) t)).
    destruct (due_irq mt fuel fuel_ok ticks _ _ l es k t (put_td (k_cur k) t2 (in_irq t k)) t2 (sleepcb_passive _) Et Hn Hie A C Hl)
      as (co' & E & A' & Hx & C'); [| |done|done|].
    { cbn [run_cb]. unfold NoSched.mdx_tsleep_cb, kassert.
      rewrite (crit_eq _ _ (in_irq_td t k) : crit (in_irq t k) = 1). cbn [Z.ltb Z.compare].
      rewrite Ok_bind. by rewrite (set_state_Some _ _ _ _ (in_irq_td t k)). }
    { cbn. apply lookup_insert_eq. }
    eexists. split; [exact E|]. cbn [left_event]. change (Some l ≫= _) with (if l <=? 0 then None else Some l).
    destruct (Z.leb_spec l 0); [|lia]. split_and!; [|by destruct C'; constructor|done].
    constructor; [|exact A'|by intros _]. eexists. split_and!; [cbn; apply lookup_insert_eq|done|done].
Qed.

Lemma sleep_events es : ∀ es' left k, sleeping mt left k → calm mt ticks (es ++ es') k →
  ∃ k', happens fuel (mt_id mt) es k = Ok k' ∧ sleeping mt (foldl left_event left es) k' ∧ calm mt ticks es' k' ∧
    k_cur k' = k_cur k.
Proof.
  induction es as [|e es IH]; intros es' left k Hs C; [by exists k|]. cbn [app] in C.
  destruct (sleep_event e (es ++ es') left k Hs C) as (k1 & E & Hs1 & C1 & H1).
  destruct (IH es' _ k1 Hs1 C1) as (k2 & E2 & Hs2 & C2 & H2).
  exists k2. cbn [happens foldl]. rewrite E, Ok_bind. split_and!; try done. congruence.
Qed.

Lemma sleep_turn es left k : sleeping mt left k → calm mt ticks es k →
  ∃ k', tsleep_turn k = Ok (if left is Some _ then false else true, k') ∧ sleeping mt left k' ∧ calm mt ticks es k' ∧
    k_cur k' = k_cur k.
Proof.
  intros [Hth A Hf] C. unfold tsleep_turn.
  destruct (turn_enter k Hth) as (t & k1 & -> & T1 & E1 & E2 & E3 & E4). rewrite Ok_bind, E1, E4.
  destruct (turn_exit t k1 T1) as (k' & Ex & H1 & H2 & H3 & H4 & H5).
  assert (sleeping mt left k') as Hs' by (constructor; rewrite ?H2, ?E1, ?H5, ?E4; done).
  assert (calm mt ticks es k') as C' by (apply (calm_same mt ticks es k); rewrite ?H3, ?H5, ?E4; done).
  exists k'. destruct left as [l|].
  - destruct (al_func _ _ _ _ _ A) as (x & Hx & _ & Hst & _); [by eexists|].
    rewrite (load_c_Some _ _ _ Hx), Ok_bind, Hst, (turn_idle t k1 T1), Ok_bind, Ex, Ok_bind.
    split_and!; try done. congruence.
  - destruct (Hf eq_refl) as (x & Hx & Hst). rewrite (load_c_Some _ _ _ Hx), Ok_bind, Hst, Ex, Ok_bind.
    split_and!; try done. congruence.
Qed.

Lemma sleep_loop turns : ∀ left k, sleeping mt left k → calm mt ticks (concat turns) k →
  ∃ k' left', tsleep_loop fuel (mt_id mt) turns k = Ok (sleep_run turns left, k') ∧ sleeping mt left' k' ∧
    k_cur k' = k_cur k ∧ (sleep_run turns left = true → left' = None).
Proof.
  induction turns as [|es turns IH]; intros left k Hs C; cbn [tsleep_loop sleep_run]; [by exists k, left|].
  cbn [concat] in C.
  destruct (sleep_events es (concat turns) left k Hs C) as (k1 & -> & Hs1 & C1 & H1). rewrite Ok_bind.
  destruct (sleep_turn (concat turns) _ k1 Hs1 C1) as (k2 & -> & Hs2 & C2 & H2). rewrite Ok_bind.
  destruct (foldl left_event left es) as [l|].
  - destruct (IH (Some l) k2 Hs2 C2) as (k3 & left' & -> & Hs3 & H3 & H4).
    exists k3, left'. split_and!; try done. congruence.
  - exists k2, None. split_and!; try done. congruence.
Qed.
End Sleep.

(** Without a scheduler mdx_tsleep() returns in the first turn after the timer has
    interrupted with [ticks] gone by, and not before; with no ticks it returns at
    once.  Its callout, which lies on the stack, is then not queued. *)
Theorem tsleep_wakes (mt : mi_timer) (fuel : nat) (turns : list (list event)) (ticks : Z) (k : kst) :
  (2 ≤ fuel)%nat → about_to_wait mt (mdx_tsleep_cb_ (k_cur k)) (CStack (k_cur k)) k →
  calm mt ticks (concat turns) k → 0 ≤ ticks →
  ∃ k', NoSched.mdx_tsleep fuel (mt_id mt) turns ticks k =
      Ok (sleep_run turns (if ticks =? 0 then None else Some ticks), k') ∧
    k_ie k' = true ∧ k_cur k' = k_cur k ∧
    (sleep_run turns (if ticks =? 0 then None else Some ticks) = true → q (cpus (k_co k') 0) = []).
Proof.
  intros Hfu [(t & Et & Hn & Hie & Hid) A] C Htk. unfold NoSched.mdx_tsleep, tsleep_start.
  rewrite (get_td_Some _ _ _ Et), Ok_bind. unfold kassert at 1 2. rewrite Hid, Hn. cbn [negb]. rewrite Z.eqb_refl, !Ok_bind.
  rewrite (crit_eq _ _ Et), Hn. unfold mdx_callout_set_ticks. change (0 + 1) with 1.
  destruct (alone_init mt _ _ _ A) as (A1 & Ec1 & y & Ey & Hy & Hst).
  pose proof (calm_ticks _ _ _ _ C) as Hct. pose proof (time_nonneg _ _ (calm_events _ _ _ _ C)).
  destruct (alone_arm mt _ _ 1 ticks _ y A1 Ey Hy Hst) as (co' & -> & A' & Hcnt & Hz); [lia|done|rewrite Ec1; lia|].
  rewrite !Ok_bind. cbv beta iota.
  destruct (sleep_loop mt fuel Hfu ticks turns (if ticks =? 0 then None else Some ticks) (set_co co' k))
    as (k' & left' & E & [Hth' A2 _] & Hcur & Hl).
  - constructor; [by exists t|exact A'|]. destruct (ticks =? 0); [|done]. intros _. destruct Hz as (z & Ez & Hz & _). by exists z.
  - apply (calm_same mt ticks _ k); [done|done|]. cbn. by rewrite Hcnt, Ec1.
  - exists k'. rewrite E. split_and!; try done; [by destruct Hth' as (? & _ & _ & ?)|].
    intros Hr. rewrite (Hl Hr) in A2. exact (dls_nil _ (al_dls _ _ _ _ _ A2)).
Qed.

(** ** When a wait returns *)

(** The clock of a wait runs: it was started with [left] ticks, or has run out. *)
Definition clock (left : Z) (a : aw) : Prop := aw_left a = Some left ∨ aw_over a = true.

Lemma clock_events es : ∀ left a, clock left a → Forall (λ e, match e with Elapse d => 0 ≤ d | _ => True end) es →
  clock (left - total es) (foldl (λ a e, aw_event e a) a es).
Proof.
  induction es as [|e es IH]; intros left a Hc Hes; cbn [foldl total]; [by replace (left - 0) with left by lia|].
  apply Forall_cons in Hes as [He Hes]. destruct e as [d| |s].
  - replace (left - (d + total es)) with (left - d - total es) by lia. apply IH; [|done].
    destruct Hc as [Hc|Hc]; [left|by right]. cbn. by rewrite Hc.
  - apply IH; [|done]. cbn. destruct Hc as [Hc|Hc]; [rewrite Hc; destruct (left <=? 0); [by right|by left]|right].
    destruct (aw_left a) as [l|]; [destruct (l <=? 0)|]; done.
  - apply IH; [|done]. destruct Hc as [Hc|Hc]; [by left|by right].
Qed.

Lemma clock_due left a : clock left a → left ≤ 0 → aw_over (aw_event TimerIrq a) = true.
Proof.
  intros [Hc|Hc] Hl; cbn; [rewrite Hc; destruct (Z.leb_spec left 0); [done|lia]|].
  destruct (aw_left a) as [l|]; [destruct (l <=? 0)|]; done.
Qed.

Lemma aw_returns ticks s usec pre : ∀ es left a, usec ≠ 0 → clock left a →
  Forall (λ e, match e with Elapse d => 0 ≤ d | _ => True end) (concat pre ++ es) → left ≤ total (concat pre ++ es) →
  is_Some (aw_run ticks (pre ++ [es ++ [TimerIrq]]) s usec true a).1.
Proof.
  induction pre as [|e1 pre IH]; intros es left a Hu Hc Hes Hl; cbn [app aw_run concat] in *.
  - rewrite foldl_app. cbn [foldl]. unfold aw_turn.
    pose proof (clock_due _ _ (clock_events es left a Hc Hes) ltac:(lia)) as Ho.
    destruct (0 <? _); [by eexists|]. destruct (Z.eqb_spec usec 0); [done|]. rewrite Ho. by eexists.
  - rewrite <- app_assoc in Hes, Hl. apply Forall_app in Hes as [H1 H2].
    pose proof (clock_events e1 left a Hc H1) as Hc1. set (a1 := foldl _ a e1) in *.
    assert (∀ l1 l2, total (l1 ++ l2) = total l1 + total l2) as Htot.
    { intros l1 l2. induction l1 as [|[] l1 IHl]; cbn [app total]; lia. }
    rewrite Htot in Hl. specialize (IH es (left - total e1) a1 Hu Hc1 H2 ltac:(lia)).
    unfold aw_turn. destruct (0 <? _); [by eexists|]. destruct (Z.eqb_spec usec 0); [done|]. cbn [negb].
    destruct (aw_over a1); [by eexists|exact IH].
Qed.

(** A wait with a timeout of at least one tick ends: whatever happens before, in the
    first turn after the timer has interrupted with that many ticks gone by since the
    first turn, it has returned, with a permit or without. *)
Theorem timedwait_returns (mt : mi_timer) (fuel : nat) (es0 : list event) (pre : list (list event)) (es : list event)
    (s usec ticks : Z) (k : kst) :
  let turns := es0 :: pre ++ [es ++ [TimerIrq]] in
  (2 ≤ fuel)%nat → about_to_wait mt (mdx_sem_cb_ (k_cur k)) (CTd (k_cur k)) k →
  is_Some (k_sem k !! s) → calm mt ticks (concat turns) k → usec ≠ 0 → 0 < ticks →
  mdx_callout_usec_to_ticks (u32 usec) (k_co k) = Ok ticks → ticks ≤ total (concat pre ++ es) →
  ∃ r k', NoSched.mdx_sem_timedwait fuel (mt_id mt) turns s usec k = Ok (Some r, k') ∧ q (cpus (k_co k') 0) = [].
Proof.
  intros turns Hf [(t & Et & Hn & Hie & Hid) A] Hs C Hu Htk Hcv Htot.
  set (a := AW (sem_count <$> k_sem k) None false).
  assert (is_Some (aw_run ticks turns s usec false a).1) as Hr.
  { cbn [turns aw_run]. unfold aw_turn at 1. destruct (0 <? _); [by eexists|].
    destruct (Z.eqb_spec usec 0); [done|]. cbn [negb]. apply (aw_returns _ _ _ _ _ ticks); [done| | |done].
    - left. cbn. by destruct (Z.eqb_spec ticks 0); [lia|].
    - pose proof (calm_events _ _ _ _ C) as He. unfold turns in He. cbn [concat] in He.
      rewrite concat_app in He. cbn [concat] in He. rewrite app_nil_r, !Forall_app in He.
      destruct He as (_ & H1 & H2 & _). apply Forall_app.
      split; (eapply Forall_impl; [eassumption|]); intros []; auto. }
  pose proof (loop_ok mt fuel Hf ticks s usec turns false a k) as Hl.
  destruct (aw_run ticks turns s usec false a) as [r a']. destruct Hr as [r' Hr]. cbn in Hr. subst r.
  destruct Hl as (k' & E & _ & _ & _ & Hd); try done; [|lia|].
  { constructor; try done. by exists t. }
  exists r', k'. unfold NoSched.mdx_sem_timedwait. rewrite (get_td_Some _ _ _ Et), Ok_bind, Hid. cbn [negb kassert].
  rewrite Ok_bind, E. split; [done|]. destruct Hd as (_ & A' & _); [by eexists|]. exact (dls_nil _ (al_dls _ _ _ _ _ A')).
Qed.

Lemma aw_stuck s usec turns : ∀ configured a, usec ≠ 0 → DeviceIrq s ∉ concat turns → aw_count s a ≤ 0 →
  aw_left a = None → aw_over a = false → (aw_run 0 turns s usec configured a).1 = None.
Proof.
  induction turns as [|es turns IH]; intros cf a Hu Hes Hc Hl Ho; cbn [aw_run]; [done|]. cbn [concat] in Hes.
  assert (∀ es a, DeviceIrq s ∉ es → aw_count s a ≤ 0 → aw_left a = None → aw_over a = false →
    let a' := foldl (λ a e, aw_event e a) a es in aw_count s a' ≤ 0 ∧ aw_left a' = None ∧ aw_over a' = false) as Hev.
  { clear. induction es as [|e es IH]; intros a Hes Hc Hl Ho; cbn [foldl]; [done|].
    apply not_elem_of_cons in Hes as [Hne Hes]. apply IH; [done| | |].
    - destruct e as [d| |s']; cbn; [done|by rewrite Hl|]. unfold aw_count in *. cbn.
      rewrite lookup_insert_ne; [done|]. intros ->. done.
    - destruct e; cbn; rewrite ?Hl; done.
    - destruct e; cbn; rewrite ?Hl; done. }
  destruct (Hev es a) as (Hc' & Hl' & Ho'); [set_solver|done..|]. set (a' := foldl _ a es) in *. unfold aw_turn.
  destruct (Z.ltb_spec 0 (aw_count s a')); [lia|]. destruct (Z.eqb_spec usec 0); [done|].
  assert (DeviceIrq s ∉ concat turns) as Hes' by set_solver.
  destruct cf; cbn [negb]; [rewrite Ho'|]; apply IH; done.
Qed.

(** A timeout shorter than a tick of the timer never comes: without a post,
    mdx_sem_timedwait() waits for ever instead of not at all. *)
Theorem short_timeout_hangs (mt : mi_timer) (fuel : nat) (turns : list (list event)) (s usec : Z) (k : kst) (sm : sem) :
  (2 ≤ fuel)%nat → about_to_wait mt (mdx_sem_cb_ (k_cur k)) (CTd (k_cur k)) k →
  k_sem k !! s = Some sm → sem_count sm ≤ 0 → calm mt 0 (concat turns) k → usec ≠ 0 →
  mdx_callout_usec_to_ticks (u32 usec) (k_co k) = Ok 0 → DeviceIrq s ∉ concat turns →
  ∃ k', NoSched.mdx_sem_timedwait fuel (mt_id mt) turns s usec k = Ok (None, k').
Proof.
  intros Hf [(t & Et & Hn & Hie & Hid) A] Hs Hc C Hu Hcv Hes.
  set (a := AW (sem_count <$> k_sem k) None false).
  pose proof (aw_stuck s usec turns false a Hu Hes) as Hr.
  pose proof (loop_ok mt fuel Hf 0 s usec turns false a k) as Hl.
  destruct (aw_run 0 turns s usec false a) as [r a']. cbn in Hr.
  destruct Hl as (k' & E & _); try done.
  { constructor; try done. by exists t. }
  exists k'. unfold NoSched.mdx_sem_timedwait. rewrite (get_td_Some _ _ _ Et), Ok_bind, Hid. cbn [negb kassert].
  rewrite Ok_bind, E, Hr; try done. unfold aw_count, a. cbn. by rewrite lookup_fmap, Hs.
Qed.

(** ** A concrete thread *)

Module NoSchedDemo.

(** A timer at [freq] ticks per second. *)
Definition timer_at (freq : Z) : mi_timer :=
  (mdx_callout_setup {| cfg_1mhz := true; cfg_generic := true |}
    {| mt_id := 1; mt_has_start := true; mt_has_stop := true; mt_has_count := true; mt_maxcnt := 2 ^ 32 - 1;
       mt_frequency := freq; mt_usec_to_ticks := None; mt_ticks_to_usec := None |}).2.

Definition blank : callout cbfun :=
  {| c_state := CALLOUT_STATE_READY; c_ticks := 0; c_ticks_orig := 0; c_func := None; c_flags := 0; c_cpuid := 0 |}.

(** The main thread 1 and the semaphore 7. *)
Definition k0 (freq count : Z) : kst :=
  NoSched.mdx_sem_init 7 count
    (set_ie true (NoSched.mdx_thread_init 1
      {| k_cur := 0; k_ie := false; k_td := ∅; k_runq := λ _, []; k_sem := ∅; k_tok := ∅; k_timer := ∅;
         k_mutex := ∅; k_fifo := ∅; k_freed := []; k_fr := {| fr_mem := ∅; td_tf := ∅ |};
         k_co := {| mi_tmr := Some (timer_at freq); tab := <[CStack 1 := blank]> {[CTd 1 := blank]};
                    cpus := λ _, {| q := []; t_state := MI_TIMER_STATE_READY; t_saved := 0; t_count := 5;
                                    t_prog := None |} |} |})).

Lemma k0_ready freq count c f : c = CTd 1 ∨ c = CStack 1 → about_to_wait (timer_at freq) f c (k0 freq count).
Proof.
  intros Hc. constructor; [by eexists|].
  assert (tab (k_co (k0 freq count)) !! c = Some blank) as Ec by (by destruct Hc as [-> | ->]).
  constructor; try done.
  - constructor.
    + intros i. constructor; cbn; [constructor| |constructor|done]. intros a Ha. by apply elem_of_nil in Ha.
    + intros a x Hx Ha. exfalso. cbn in Hx. rewrite lookup_insert_Some, lookup_singleton_Some in Hx.
      destruct Hx as [[_ <-]|[_ [_ <-]]]; done.
  - intros x Hx Ha. rewrite Ec in Hx. by injection Hx as <-.
Qed.

Lemma k0_calm freq count ticks es : Forall (λ e, match e with Elapse d => 0 ≤ d | TimerIrq => True | DeviceIrq s => s = 7 end) es →
  ticks + (5 + total es) < 2 ^ 32 → 0 ≤ ticks → - 2 ^ 31 ≤ count → count + Z.of_nat (length es) < 2 ^ 31 →
  calm (timer_at freq) ticks es (k0 freq count).
Proof.
  intros He Ht Hp Hl Hh. constructor.
  - eapply Forall_impl; [exact He|]. intros [d| |s]; [done|done|]. intros ->. by eexists.
  - assert (mt_maxcnt (timer_at freq) = 2 ^ 32 - 1) as ->.
    { unfold timer_at, mdx_callout_setup. cbn. by destruct (freq =? 1000000). }
    cbn. lia.
  - cbn. lia.
  - intros s sm Es. cbn in Es. apply lookup_singleton_Some in Es as [_ <-]. done.
Qed.

Definition waits : list (list event) := [[]; [Elapse 4; TimerIrq]; [Elapse 6; TimerIrq]].


Lemma waits_calm freq ticks : 0 ≤ ticks < 2 ^ 31 → calm (timer_at freq) ticks (concat waits) (k0 freq 0).
Proof. intros Ht. apply k0_calm; [repeat constructor; lia|cbn; lia|lia|lia|cbn; lia]. Qed.



Lemma timedwait_returns_witness :
  ∃ r k', NoSched.mdx_sem_timedwait 2 1 waits 7 10 (k0 1000000 0) = Ok (Some r, k') ∧ q (cpus (k_co k') 0) = [].
Proof.
  apply (timedwait_returns (timer_at 1000000) 2 [] [[Elapse 4; TimerIrq]] [Elapse 6] 7 10 10 (k0 1000000 0));
    [done|by apply k0_ready; left|by eexists|by apply waits_calm|done|done|done|done].
Defined.

(** One microsecond at 32768 Hz. *)
Lemma short_timeout_hangs_witness :
  ∃ k', NoSched.mdx_sem_timedwait 2 1 waits 7 1 (k0 32768 0) = Ok (None, k').
Proof.
  apply (short_timeout_hangs (timer_at 32768) 2 waits 7 1 (k0 32768 0)
    {| sem_count := 0; sem_count_initial := 0; sem_td_list := [] |});
    [done|by apply k0_ready; left|done|done|by apply waits_calm|done|by vm_compute|].
  apply (bool_decide_unpack _). by vm_compute.
Defined.

Lemma tsleep_wakes_witness :
  ∃ k', NoSched.mdx_tsleep 2 1 waits 10 (k0 1000000 0) = Ok (true, k') ∧ q (cpus (k_co k') 0) = [].
Proof.
  destruct (tsleep_wakes (timer_at 1000000) 2 waits 10 (k0 1000000 0)) as (k' & E & _ & _ & Hq);
    [done|by apply k0_ready; right|by apply waits_calm|done|].
  exists k'. split; [exact E|by apply Hq].
Defined.
End NoSchedDemo.
