(* ===== verification/Uptime.v ===== *)
(** * Uptime and the clock (kernel/timer/mdx_uptime.c, kernel/clock/mdx_clock.c)

    The uptime is the count of one periodic timer, started at boot.  The clock hands
    requests on to the driver that registered itself. *)

From S2P Require Import Prelude Callout CalloutProofs CalloutInterrupt Kernel KernelTheorems.
Local Open Scope Z_scope.

(** ** Uptime

    [tm] is the address of uptime_timer, [period] is MDX_TIMER_UPTIME_PERIOD_US, a
    build option. *)

Section Uptime.
Context (tm period : Z).

Record ust := { ut_initialized : bool; ut_k : kst }.

(** A callout of zeroes. *)
Definition callout_zero : callout cbfun :=
  {| c_state := CALLOUT_STATE_READY; c_ticks := 0; c_ticks_orig := 0; c_func := None; c_flags := 0; c_cpuid := 0 |}.

(** [bzero(&uptime_timer, sizeof(struct mdx_timer))]; clearing a callout that is queued
    destroys the links of the queue. *)
Definition bzero_timer (k : kst) : res kst :=
  match tab (k_co k) !! CTimer tm with
  | Some x => if is_active x then Err Fault else Ok tt
  | None => Ok tt
  end;;
  let k := set_timers (<[tm := {| tm_count_us := 0; tm_started := 0; tm_period_us := 0 |}]> (k_timer k)) k in
  Ok (set_co (upd (CTimer tm) callout_zero (k_co k)) k).

Definition mdx_uptime_init (u : ust) : res (Z * ust) :=
  if ut_initialized u then Ok (-1, u) else
  k ← bzero_timer (ut_k u);
  let k := set_co (mdx_callout_init (CTimer tm) (k_co k)) k in
  '(error, k) ← mdx_timer_start tm period k;
  Ok (error, {| ut_initialized := false; ut_k := k |}).

Definition mdx_uptime (u : ust) : res Z := mdx_timer_count tm (ut_k u).

Definition mdx_uptime_sysinit (u : ust) : res ust :=
  '(_, u) ← mdx_uptime_init u;
  Ok {| ut_initialized := true; ut_k := ut_k u |}.
End Uptime.

(** ** The clock

    [T] is struct timespec, [A] the device behind the argument of the driver. *)

Section Clock.
Context {T A : Type}.

(** The numbers of the clocks other than CLOCK_REALTIME do not matter. *)
Inductive clockid_t := CLOCK_REALTIME | CLOCK_OTHER.

(** A driver; a NULL method is [None]. *)
Record rtc_driver := {
  gettime : option (A → res (Z * T * A));
  settime : option (T → A → res (Z * A))
}.

(** l_rtc_driver and l_rtc_arg. *)
Definition clock_state : Type := option (rtc_driver * A).

Definition mdx_clock_gettime (clk : clockid_t) (s : clock_state) : res (Z * option T * clock_state) :=
  match clk, s with
  | CLOCK_REALTIME, Some (d, arg) =>
    match gettime d with Some f => '(r, t, arg) ← f arg; Ok (r, Some t, Some (d, arg)) | None => Err Fault end
  | _, _ => Ok (-1, None, s)
  end.

Definition mdx_clock_settime (clk : clockid_t) (t : T) (s : clock_state) : res (Z * clock_state) :=
  match clk, s with
  | CLOCK_REALTIME, Some (d, arg) =>
    match settime d with Some f => '(r, arg) ← f t arg; Ok (r, Some (d, arg)) | None => Err Fault end
  | _, _ => Ok (-1, s)
  end.

Definition mdx_clock_register (clk : clockid_t) (drv : option rtc_driver) (arg : A) (s : clock_state) : Z * clock_state :=
  match clk, drv with
  | CLOCK_REALTIME, Some d =>
    match settime d, gettime d with Some _, Some _ => (0, Some (d, arg)) | _, _ => (-1, s) end
  | _, _ => (-1, s)
  end.

(** What registration establishes. *)
Definition clock_ok (s : clock_state) : Prop :=
  match s with Some (d, _) => is_Some (gettime d) ∧ is_Some (settime d) | None => True end.

(** Once drivers register with mdx_clock_register() only, no method that is called is
    NULL: reading or setting a clock fails with what the driver fails with, and
    otherwise returns the driver's answer, or -1 when there is none. *)
Theorem clock_methods (clk : clockid_t) (drv : option rtc_driver) (arg : A) (t : T) (s : clock_state) :
  clock_ok s →
  clock_ok (mdx_clock_register clk drv arg s).2 ∧
  (match clk, s with
   | CLOCK_REALTIME, Some (d, a) => ∃ f g, gettime d = Some f ∧ settime d = Some g ∧
       mdx_clock_gettime clk s = ('(r, t, a) ← f a; Ok (r, Some t, Some (d, a))) ∧
       mdx_clock_settime clk t s = ('(r, a) ← g t a; Ok (r, Some (d, a)))
   | _, _ => mdx_clock_gettime clk s = Ok (-1, None, s) ∧ mdx_clock_settime clk t s = Ok (-1, s)
   end).
Proof.
  intros Hs. split.
  - destruct clk, drv as [d|]; cbn; try done.
    destruct (settime d) eqn:E1, (gettime d) eqn:E2; cbn; try done; rewrite E1, E2; split; by eexists.
  - destruct clk, s as [[d a]|]; cbn; try done. destruct Hs as [[f Hf] [g Hg]]. exists f, g. by rewrite Hf, Hg.
Qed.
End Clock.

(** A clock that counts its settings. *)
Lemma clock_methods_witness :
  let d := {| gettime := Some (λ n : Z, Ok (0, n, n)); settime := Some (λ (t n : Z), Ok (0, t)) |} in
  mdx_clock_gettime CLOCK_REALTIME (Some (d, 5)) = Ok (0, Some 5, Some (d, 5)).
Proof.
  intros d. destruct (clock_methods CLOCK_REALTIME None 0 0 (Some (d, 5))) as [_ (f & g & Hf & _ & E & _)];
    [split; by eexists|]. injection Hf as <-. exact E.
Defined.

(** ** The uptime timer *)

Section Theorems.
Context (tm : Z).

(** A queue without the callout stays as it is when the callout is overwritten. *)
Lemma upd_idle (co : cst ckey cbfun) c y : callout_inv co → (∀ x, tab co !! c = Some x → is_active x = false) →
  is_active y = false → callout_inv (upd c y co).
Proof.
  intros I Hx Hy. assert (∀ i, c ∉ q (cpus co i)) as Hq.
  { intros i Hin. destruct (ok_queued _ _ (inv_cpu _ I i) c Hin) as (x & Ex & Ha & _). by rewrite (Hx x Ex) in Ha. }
  constructor.
  - intros i. apply (cpu_ok_ext co); [apply I|done|]. intros a Ha. cbn. rewrite lookup_insert_ne; [done|].
    intros <-. by apply (Hq i).
  - intros a z Ez Hz. cbn in Ez. apply lookup_insert_Some in Ez as [[_ <-]|[_ Ez]]; [congruence|]. by apply (inv_active _ I).
Qed.

(** The first mdx_uptime_sysinit() starts the uptime at zero and arms its timer; after
    it, mdx_uptime_init() is refused and changes nothing. *)
Theorem uptime_boots (period ticks : Z) (u : ust) (mt : mi_timer) :
  ut_initialized u = false → callout_inv (k_co (ut_k u)) → mi_tmr (k_co (ut_k u)) = Some mt →
  (∀ x, tab (k_co (ut_k u)) !! CTimer tm = Some x → is_active x = false) →
  mdx_callout_usec_to_ticks (u32 period) (k_co (ut_k u)) = Ok ticks → 0 < ticks →
  0 ≤ crit (ut_k u) → ticks + base_elapsed mt (cpus (k_co (ut_k u)) 0) < 2 ^ 32 →
  ∃ u', mdx_uptime_sysinit tm period u = Ok u' ∧ mdx_uptime tm u' = Ok 0 ∧
    mdx_uptime_init tm period u' = Ok (-1, u') ∧ callout_inv (k_co (ut_k u')) ∧
    ∃ y, tab (k_co (ut_k u')) !! CTimer tm = Some y ∧ is_active y = true ∧ c_func y = Some (mdx_timer_tick_ tm).
Proof.
  destruct u as [init k]. cbn [ut_initialized ut_k]. intros -> I Hm Hx Hcv Ht Hcr Hb.
  unfold mdx_uptime_sysinit, mdx_uptime_init, bzero_timer. cbn [ut_initialized ut_k].
  assert ((match tab (k_co k) !! CTimer tm with
    | Some x => if is_active x then Err Fault else Ok tt | None => Ok tt end) = Ok tt) as ->.
  { destruct (tab (k_co k) !! CTimer tm) as [x|] eqn:E; [|done]. by rewrite (Hx x eq_refl). }
  rewrite !Ok_bind. cbv beta iota zeta. cbn [k_co set_co set_timers k_timer].
  set (co1 := upd (CTimer tm) callout_zero (k_co k)).
  assert (callout_inv co1) as I1 by (by apply upd_idle).
  assert (tab co1 !! CTimer tm = Some callout_zero) as E1 by (cbn; by rewrite lookup_insert_eq).
  destruct (init_inv co1 _ _ I1 E1 eq_refl) as (y & Ey & Hy & I2 & Ec & _ & Em & _).
  unfold mdx_timer_start. cbn [k_timer set_co set_timers]. rewrite (load_Some _ _ _ (lookup_insert_eq _ _ _)), Ok_bind.
  cbn [tm_started negb Z.eqb k_co set_co set_timers]. unfold mdx_callout_set, mdx_callout_usec_to_ticks in *.
  change (mi_tmr co1) with (mi_tmr (k_co k)) in Em. rewrite Em, Hcv, Ok_bind. unfold mdx_callout_set_ticks.
  match goal with |- context [mdx_callout_set_ticks_locked (crit ?x + 1)] => change (crit x) with (crit k) end.
  destruct (set_ticks_spec (mdx_callout_init (CTimer tm) co1) 0 (CTimer tm) y (crit k + 1) ticks (Some (mdx_timer_tick_ tm)) mt I2)
    as (co2 & -> & I3 & _ & _ & _ & (z & Ez & Hz) & _); [by rewrite Em|lia|done|done|done|by rewrite Ec|].
  rewrite !Ok_bind. cbv beta iota. rewrite ?Ok_bind. cbv beta iota. rewrite ?Ok_bind. eexists. split; [reflexivity|].
  split_and!; [|done|exact I3|].
  - unfold mdx_uptime, mdx_timer_count. cbn [ut_k k_timer set_co set_timers].
    by rewrite (load_Some _ _ _ (lookup_insert_eq _ _ _)).
  - exists z. destruct Hz as (? & ? & _). done.
Qed.
End Theorems.
