(* ===== verification/Malloc.v ===== *)
(** * The kernel's heap: mdx_malloc_fl.c and its clients

    (kernel/malloc/mdx_malloc_fl.c, kernel/thread/mdx_thread_create.c,
    kernel/timer/mdx_timer.c)

    malloc() and its relatives run the free list operations of Freelist.v on
    the default zone inside a critical section of Kernel.v; the dynamic threads
    are built on them.  The state is the kernel state, the allocator's memory
    and the stack fields of the threads. *)

From S2P Require Import Prelude Freelist FreelistInv FreelistSpec FreelistHeap FreelistProofs.
From S2P Require Import FreelistFree FreelistTheorems Callout Kernel KernelTheorems.
Local Open Scope Z_scope.

Record sys := {
  sy_k : kst;
  sy_m : fmem;
  sy_stack : gmap Z (Z * Z)   (** td->td_stack, td->td_stack_size *)
}.

Definition with_k (k : kst) (s : sys) : sys := {| sy_k := k; sy_m := sy_m s; sy_stack := sy_stack s |}.
Definition with_m (m : fmem) (s : sys) : sys := {| sy_k := sy_k s; sy_m := m; sy_stack := sy_stack s |}.
Definition with_stack (td : Z) (st : Z * Z) (s : sys) : sys :=
  {| sy_k := sy_k s; sy_m := sy_m s; sy_stack := <[td := st]> (sy_stack s) |}.

Definition TD_FLAGS_DYN_ALLOC_SP : Z := 1.
Definition TD_FLAGS_DYN_ALLOC_TD : Z := 2.

(** A thread, and its callout, that consist of zero bytes. *)
Definition zero_thread : thread :=
  {| td_state := TD_STATE_READY; td_critnest := 0; td_saved_ie := false; td_prio := 0;
     td_quantum := 0; td_idle := false; td_flags := 0 |}.
Definition zero_callout : callout cbfun :=
  {| c_state := CALLOUT_STATE_READY; c_ticks := 0; c_ticks_orig := 0; c_func := None;
     c_flags := 0; c_cpuid := 0 |}.
Definition th_flags (f : Z) (t : thread) : thread :=
  {| td_state := td_state t; td_critnest := td_critnest t; td_saved_ie := td_saved_ie t;
     td_prio := td_prio t; td_quantum := td_quantum t; td_idle := td_idle t; td_flags := f |}.

(** A struct thread appears where [bzero] cleared its storage. *)
Definition thread_at (td : Z) (s : sys) : sys :=
  with_stack td (0, 0)
    (with_k (set_co (upd (CTd td) zero_callout (k_co (sy_k s))) (put_td td zero_thread (sy_k s))) s).

Section Model.
Context `{Arch}.
Context (dz : Z).          (* &mdx_fl_defaultzone *)
Context (TD_S TM_S : Z).   (* sizeof(struct thread), sizeof(struct mdx_timer) *)

(** [critical_enter(); ...; critical_exit();] around an operation on the heap. *)
Definition locked {A} (f : fmem → res (A * fmem)) (s : sys) : res (A * sys) :=
  k ← critical_enter (sy_k s);
  '(a, m) ← f (sy_m s);
  k ← critical_exit k;
  Ok (a, {| sy_k := k; sy_m := m; sy_stack := sy_stack s |}).

Definition malloc (size : Z) : sys → res (Z * sys) := locked (mdx_fl_malloc dz size).

Definition zalloc (size : Z) (s : sys) : res (Z * sys) :=
  '(ret, s) ← malloc size s;
  if ret =? 0 then Ok (ret, s) else
  Ok (ret, with_m (st_bytes (bzero ret size) (sy_m s)) s).

Definition free (ptr : Z) (s : sys) : res sys :=
  '(_, s) ← locked (λ m, m ← mdx_fl_free dz ptr m; Ok (tt, m)) s; Ok s.

Definition calloc (number size : Z) : sys → res (Z * sys) := locked (mdx_fl_calloc dz number size).

Definition realloc (ptr size : Z) : sys → res (Z * sys) := locked (mdx_fl_realloc dz dz ptr size).

Definition malloc_add_region (base size : Z) (s : sys) : res sys :=
  '(_, s) ← locked (λ m, m ← mdx_fl_add_region dz base size m; Ok (tt, m)) s; Ok s.

Definition malloc_init (s : sys) : res sys :=
  '(_, s) ← locked (λ m, m ← mdx_fl_init dz m; Ok (tt, m)) s; Ok s.

(** ** Dynamic threads (kernel/thread/mdx_thread_create.c) *)

Definition mdx_thread_alloc (stack_size : Z) (s : sys) : res (Z * sys) :=
  '(td, s) ← zalloc TD_S s;
  if td =? 0 then Ok (0, s) else
  let s := thread_at td s in
  t ← get_td td (sy_k s);
  let s := with_k (put_td td (th_flags TD_FLAGS_DYN_ALLOC_TD t) (sy_k s)) s in
  if stack_size =? 0 then Ok (td, s) else
  '(sp, s) ← zalloc stack_size s;
  let s := with_stack td (sp, 0) s in
  if sp =? 0 then s ← free td s; Ok (0, s) else
  t ← get_td td (sy_k s);
  let s := with_k (put_td td (th_flags (Z.lor (td_flags t) TD_FLAGS_DYN_ALLOC_SP) t) (sy_k s)) s in
  Ok (td, with_stack td (sp, stack_size) s).

Definition mdx_thread_free (td : Z) (s : sys) : res sys :=
  t ← get_td td (sy_k s);
  s ← (if Z.land (td_flags t) TD_FLAGS_DYN_ALLOC_SP =? 0 then Ok s else
         '(sp, _) ← load (sy_stack s) td; free sp s);
  t ← get_td td (sy_k s);
  if Z.land (td_flags t) TD_FLAGS_DYN_ALLOC_TD =? 0 then Ok s else free td s.

Definition mdx_thread_create (prio quantum_usec stack_size : Z) (entry : bool) (s : sys) :
    res (Z * sys) :=
  '(td, s) ← mdx_thread_alloc stack_size s;
  if td =? 0 then Ok (0, s) else
  '(sp, sz) ← load (sy_stack s) td;
  '(ret, k) ← mdx_thread_setup (Some td) (negb (sp =? 0)) sz prio quantum_usec entry (sy_k s);
  let s := with_k k s in
  if ret =? 0 then Ok (td, s) else
  '(sp, _) ← load (sy_stack s) td;
  s ← free sp s;
  s ← free td s;
  Ok (0, s).

(** mdx_timer_create(): [junk] is what the memory returned by malloc() held. *)
Definition mdx_timer_create (junk : timer) (s : sys) : res (Z * sys) :=
  '(tm, s) ← malloc TM_S s;
  if tm =? 0 then Ok (0, s) else
  let k := set_timers (<[tm := junk]> (k_timer (sy_k s))) (sy_k s) in
  Ok (tm, with_k (set_co (mdx_callout_init (CTimer tm) (k_co k)) k) s).
End Model.
