(* ===== verification/MallocTheorems.v ===== *)
(** * The kernel's heap: what malloc() and the dynamic threads guarantee *)

From S2P Require Import Prelude Freelist FreelistInv FreelistSpec FreelistHeap FreelistProofs.
From S2P Require Import FreelistFree FreelistSetup FreelistTheorems Callout Kernel KernelTheorems Malloc.
Local Open Scope Z_scope.

(** ** Critical sections around the heap *)

(** The running thread can enter one more critical section. *)
Definition ready (k : kst) : Prop :=
  ∃ t, k_td k !! k_cur k = Some t ∧ 0 ≤ td_critnest t < 2 ^ 32 - 1.

(** The kernel state after a balanced critical section: all that is left is the
    interrupt state saved by an outermost one. *)
Definition balanced (k : kst) : kst :=
  match k_td k !! k_cur k with
  | Some t => if td_critnest t =? 0 then put_td (k_cur k) (th_crit 0 (k_ie k) t) k else k
  | None => k
  end.

Lemma section_balanced k :
  ready k → ∃ k1, critical_enter k = Ok k1 ∧ critical_exit k1 = Ok (balanced k).
Proof.
  intros (t & E & Hn). unfold balanced. rewrite E. destruct (Z.eqb_spec (td_critnest t) 0) as [H0|H0].
  - rewrite (enter_outer _ _ E H0). eexists. split; [done|].
    erewrite exit_outer; [|apply lookup_insert_eq|done].
    unfold put_td, set_tds, set_ie, th_crit. simpl. by rewrite insert_insert_eq.
  - rewrite (enter_inner _ _ E) by lia. eexists. split; [done|].
    erewrite exit_inner; [|apply lookup_insert_eq|simpl; lia].
    simpl. rewrite put_put_td. unfold th_crit. simpl.
    replace (td_critnest t + 1 - 1) with (td_critnest t) by lia.
    f_equal. apply put_td_id. rewrite E. by destruct t.
Qed.

Lemma ready_balanced k : ready k → ready (balanced k).
Proof.
  intros (t & E & Hn). unfold balanced. rewrite E.
  destruct (Z.eqb_spec (td_critnest t) 0); [|by exists t].
  exists (th_crit 0 (k_ie k) t). split; [apply lookup_insert_eq|simpl; lia].
Qed.

Lemma ready_put td t k : 0 ≤ td_critnest t < 2 ^ 32 - 1 → ready k → ready (put_td td t k).
Proof.
  intros Ht (t0 & E & Hn). destruct (decide (td = k_cur k)) as [->|Hne].
  - exists t. split; [apply lookup_insert_eq|done].
  - exists t0. split; [|done]. simpl. by rewrite lookup_insert_ne.
Qed.

Section Heap.
Context `{Arch}.
Context (dz : Z).

Lemma locked_ok {A} (f : fmem → res (A * fmem)) s a m :
  ready (sy_k s) → f (sy_m s) = Ok (a, m) →
  locked f s = Ok (a, {| sy_k := balanced (sy_k s); sy_m := m; sy_stack := sy_stack s |}).
Proof.
  intros Hr E. destruct (section_balanced _ Hr) as (k1 & E1 & E2).
  unfold locked. rewrite E1. cbn [mbind res_bind]. rewrite E. cbn [mbind res_bind]. by rewrite E2.
Qed.

(** ** Clearing memory *)

Lemma bzero_lookup dst n b a :
  bzero dst n b !! a = if decide (dst ≤ a < dst + n) then Some 0 else b !! a.
Proof.
  unfold bzero.
  assert (∀ l, foldr (λ k b, <[dst + k := 0]> b) b l !! a =
    if decide (a - dst ∈ l) then Some 0 else b !! a) as Hl.
  { induction l as [|k l IH]; cbn [foldr].
    - rewrite decide_False; [done|apply not_elem_of_nil].
    - destruct (decide (dst + k = a)) as [<-|Hne].
      + rewrite lookup_insert_eq, decide_True; [done|].
        replace (dst + k - dst) with k by lia. apply list_elem_of_here.
      + rewrite lookup_insert_ne by done. rewrite IH.
        assert (a - dst ∈ k :: l ↔ a - dst ∈ l) as Hi.
        { rewrite elem_of_cons. split; [intros [?|?]; [lia|done]|by right]. }
        destruct (decide (a - dst ∈ l)).
        * by rewrite decide_True by (by apply Hi).
        * rewrite decide_False; [done|]. by rewrite Hi. }
  rewrite Hl. destruct (decide (a - dst ∈ seqZ 0 n)) as [Hi|Hi]; rewrite elem_of_seqZ in Hi.
  - rewrite decide_True by lia. done.
  - rewrite decide_False by lia. done.
Qed.

(** The bytes [ptr, ptr + size) are zero and the others are those of [b]. *)
Definition cleared (ptr size : Z) (b b' : gmap Z Z) : Prop :=
  ∀ a, b' !! a = if decide (ptr ≤ a < ptr + size) then Some 0 else b !! a.

Lemma fl_inv_bytes fl m rs f : fl_inv fl m rs → fl_inv fl (st_bytes f m) rs.
Proof.
  intros (bk & F & HI & P). exists bk. split_and!; [by apply flist_st_bytes| |done].
  constructor; [apply HI| |apply HI|apply HI|apply HI].
  eapply Forall_impl; [apply (hp_tiles _ _ _ HI)|]. intros q Hq.
  cbv beta in *. revert Hq. generalize (r_blocks q) as l, (r_base q) as a, 0 as p.
  induction l as [|b l IH]; [done|]. intros a p (? & ? & ?). simpl. auto.
Qed.

(** ** Undoing an allocation *)

Lemma malloc_undo m m1 rs rs1 need ptr :
  fl_inv dz m rs → alloc_step need rs ptr rs1 → fl_inv dz m1 rs1 →
  ∃ m2, mdx_fl_free dz ptr m1 = Ok m2 ∧ fl_inv dz m2 rs ∧ bytes m2 = bytes m1 ∧ owned m2 = owned m1.
Proof.
  intros (bk & _ & HI & _) (R1 & base & B1 & s & B2 & R2 & -> & -> & -> & _) Hi1.
  destruct (alloc_free_blocks _ _ _ _ _ _ _ _ need HI) as (t & B & Ec & Hne & Hne1 & Ef).
  rewrite Ec in Hi1. destruct (free_ok _ _ _ _ _ _ _ _ Hi1 Hne1 Hne) as (m2 & E2 & Eb2 & Eo2 & Hi2).
  exists m2. rewrite Ef in Hi2. done.
Qed.

(** The header-inclusive size of a request. *)
Definition block_size (size : Z) : Z := round16 (size + NODE_S).

(** A request that does not overflow [size_t]. *)
Definition fits (size : Z) : Prop := 0 < size ∧ size + NODE_S + 15 < 2 ^ PTR_W.

(** The outcome of a request for [size] cleared bytes. *)
Definition zalloc_outcome (size : Z) (s : sys) (rs : list region) (ptr : Z) (s' : sys) : Prop :=
  sy_k s' = balanced (sy_k s) ∧ sy_stack s' = sy_stack s ∧ owned (sy_m s') = owned (sy_m s) ∧
  ((ptr = 0 ∧ sy_m s' = sy_m s ∧ ∀ t, free_size rs t → t < block_size size) ∨
   (0 < ptr ∧ ∃ rs', alloc_step (block_size size) rs ptr rs' ∧ fl_inv dz (sy_m s') rs' ∧
      cleared ptr size (bytes (sy_m s)) (bytes (sy_m s')))).

Lemma zalloc_ok size s rs :
  ready (sy_k s) → fl_inv dz (sy_m s) rs → fits size →
  ∃ ptr s', zalloc dz size s = Ok (ptr, s') ∧ zalloc_outcome size s rs ptr s'.
Proof.
  intros Hr Hi [Hs Hw]. unfold zalloc, malloc.
  destruct (malloc_ok dz (sy_m s) rs size Hi Hs Hw)
    as [(p & m' & rs' & E & Ha & Hi' & Hp & Eb & Eo & _)|[E Hno]];
    rewrite (locked_ok _ _ _ _ Hr E); cbn [mbind res_bind].
  - destruct (Z.eqb_spec p 0); [lia|]. eexists _, _. split; [done|]. split_and!; [done|done|done|].
    right. split; [done|]. exists rs'. split_and!; [done|by apply fl_inv_bytes|].
    intros a. cbn [sy_m with_m bytes st_bytes]. by rewrite bzero_lookup, Eb.
  - cbn. eexists _, _. split; [done|]. split_and!; [done|done|done|]. left. done.
Qed.

Lemma free_undo s m rs rs1 need ptr :
  ready (sy_k s) → fl_inv dz m rs → alloc_step need rs ptr rs1 → fl_inv dz (sy_m s) rs1 →
  ∃ s', free dz ptr s = Ok s' ∧ sy_k s' = balanced (sy_k s) ∧ sy_stack s' = sy_stack s ∧
    fl_inv dz (sy_m s') rs ∧ bytes (sy_m s') = bytes (sy_m s).
Proof.
  intros Hr Hi Ha Hi1. destruct (malloc_undo _ _ _ _ _ _ Hi Ha Hi1) as (m2 & E & Hi2 & Eb & _).
  unfold free. erewrite locked_ok; [|done|by rewrite E]. cbn [mbind res_bind].
  eexists. split; [done|]. by split_and!.
Qed.

Lemma free_null s : ready (sy_k s) → free dz 0 s = Ok (with_k (balanced (sy_k s)) s).
Proof. intros Hr. unfold free. by erewrite locked_ok by done. Qed.
End Heap.

Lemma balanced_td k td t :
  k_td k !! td = Some t →
  ∃ t', k_td (balanced k) !! td = Some t' ∧ td_flags t' = td_flags t ∧
    td_critnest t' = td_critnest t ∧ td_state t' = td_state t.
Proof.
  intros E. unfold balanced. destruct (k_td k !! k_cur k) as [t0|] eqn:E0; [|by exists t].
  destruct (Z.eqb_spec (td_critnest t0) 0); [|by exists t].
  destruct (decide (td = k_cur k)) as [->|Hne].
  - rewrite E in E0. injection E0 as <-. eexists. split; [apply lookup_insert_eq|done].
  - exists t. simpl. by rewrite lookup_insert_ne.
Qed.

Lemma balanced_co k : k_co (balanced k) = k_co k.
Proof. unfold balanced. destruct (_ !! _) as [t|]; [|done]. by destruct (_ =? _). Qed.

Section Threads.
Context `{Arch}.
Context (dz TD_S : Z).

(** What a successful mdx_thread_alloc() leaves: blocks for the thread and, when
    a size is given, for its cleared stack, recorded in the thread. *)
Definition thread_owned (n : Z) (rs : list region) (td : Z) (s : sys) : Prop :=
  0 < td ∧ ∃ rs1 t, alloc_step (block_size TD_S) rs td rs1 ∧
    k_td (sy_k s) !! td = Some t ∧ td_critnest t = 0 ∧
    ((n = 0 ∧ fl_inv dz (sy_m s) rs1 ∧ td_flags t = TD_FLAGS_DYN_ALLOC_TD ∧
      sy_stack s !! td = Some (0, 0)) ∨
     (n ≠ 0 ∧ (∃ m1, fl_inv dz m1 rs1) ∧ ∃ sp rs2, 0 < sp ∧ alloc_step (block_size n) rs1 sp rs2 ∧ fl_inv dz (sy_m s) rs2 ∧
      td_flags t = Z.lor TD_FLAGS_DYN_ALLOC_TD TD_FLAGS_DYN_ALLOC_SP ∧
      sy_stack s !! td = Some (sp, n) ∧
      ∀ a, sp ≤ a < sp + n → bytes (sy_m s) !! a = Some 0)).

Lemma thread_alloc_ok n s rs :
  ready (sy_k s) → fl_inv dz (sy_m s) rs → fits TD_S → n = 0 ∨ fits n →
  ∃ td s', mdx_thread_alloc dz TD_S n s = Ok (td, s') ∧ ready (sy_k s') ∧
    mi_tmr (k_co (sy_k s')) = mi_tmr (k_co (sy_k s)) ∧
    ((td = 0 ∧ fl_inv dz (sy_m s') rs) ∨ thread_owned n rs td s').
Proof.
  intros Hr Hi HT Hn. unfold mdx_thread_alloc.
  destruct (zalloc_ok dz TD_S s rs Hr Hi HT) as (td & s1 & -> & Ek1 & Es1 & _ & Hc).
  cbn [mbind res_bind].
  pose proof (ready_balanced _ Hr) as Hr1. rewrite <- Ek1 in Hr1.
  destruct Hc as [(-> & Em & _)|(Htd & rs1 & Ha1 & Hi1 & Hc1)].
  { eexists 0, s1. split_and!; [done|done|by rewrite Ek1, balanced_co|]. left. by rewrite Em. }
  destruct (Z.eqb_spec td 0); [lia|].
  rewrite (get_td_Some td _ zero_thread) by (apply lookup_insert_eq). cbn [mbind res_bind].
  set (s2 := with_k _ (thread_at td s1)).
  assert (k_td (sy_k s2) !! td = Some (th_flags TD_FLAGS_DYN_ALLOC_TD zero_thread)) as Et2
    by apply lookup_insert_eq.
  assert (mi_tmr (k_co (sy_k s2)) = mi_tmr (k_co (sy_k s))) as Em2.
  { cbn. by rewrite Ek1, balanced_co. }
  assert (ready (sy_k s2)) as Hr2.
  { apply ready_put; [done|]. apply (ready_put td zero_thread (sy_k s1)); done. }
  destruct (Z.eqb_spec n 0) as [->|Hn0].
  { eexists td, s2. split_and!; [done|done|done|]. right. split; [done|].
    exists rs1, (th_flags TD_FLAGS_DYN_ALLOC_TD zero_thread). split_and!; [done|done|done|].
    left. split_and!; [done|done|done|]. apply lookup_insert_eq. }
  destruct Hn as [?|Hn]; [done|].
  destruct (zalloc_ok dz n s2 rs1 Hr2 Hi1 Hn) as (sp & s3 & -> & Ek3 & Es3 & _ & Hc).
  cbn [mbind res_bind].
  destruct (balanced_td _ _ _ Et2) as (t3 & Et3 & Ef3 & En3 & _). rewrite <- Ek3 in Et3.
  pose proof (ready_balanced _ Hr2) as Hr3. rewrite <- Ek3 in Hr3.
  destruct Hc as [(-> & Em3 & _)|(Hsp & rs2 & Ha2 & Hi3 & Hc3)].
  - destruct (free_undo dz (with_stack td (0, 0) s3) (sy_m s) rs rs1 (block_size TD_S) td) as (s4 & E4 & Ek4 & _ & Hi4 & _).
    { done. } { done. } { exact Ha1. } { cbn [sy_m with_stack]. by rewrite Em3. }
    cbn. rewrite E4. cbn. eexists 0, s4. rewrite Ek4. split; [done|]. cbn [sy_k with_stack].
    split_and!; [by apply ready_balanced|by rewrite balanced_co, Ek3, balanced_co|by left].
  - destruct (Z.eqb_spec sp 0); [lia|]. rewrite (get_td_Some td _ t3) by done.
    cbn [mbind res_bind]. eexists td, _. split; [done|]. split.
    { apply ready_put; [|done]. simpl. rewrite En3. done. }
    split. { cbn. by rewrite Ek3, balanced_co. }
    right. split; [done|]. eexists rs1, _. split_and!; [done|apply lookup_insert_eq|done|].
    right. split; [done|]. split; [by exists (sy_m s1)|]. exists sp, rs2. split_and!; [done|done|done| | |].
    + cbn [td_flags th_flags]. by rewrite Ef3.
    + apply lookup_insert_eq.
    + intros a Ha. cbn [sy_m with_stack with_k]. rewrite Hc3. by rewrite decide_True.
Qed.

Lemma thread_free_ok n s m rs td :
  ready (sy_k s) → fl_inv dz m rs → thread_owned n rs td s →
  ∃ s', mdx_thread_free dz td s = Ok s' ∧ ready (sy_k s') ∧ fl_inv dz (sy_m s') rs.
Proof.
  intros Hr Hi (Htd & rs1 & t & Ha1 & Et & En & Hc). unfold mdx_thread_free.
  rewrite (get_td_Some td _ t) by done. cbn [mbind res_bind].
  destruct Hc as [(-> & Hi1 & Ef & Es)|(Hn & (m1 & Hi1) & sp & rs2 & Hsp & Ha2 & Hi2 & Ef & Es & _)];
    rewrite Ef.
  - change (Z.land _ TD_FLAGS_DYN_ALLOC_SP =? 0) with true. cbn [mbind res_bind].
    rewrite (get_td_Some td _ t) by done. cbn [mbind res_bind]. rewrite Ef.
    change (Z.land _ TD_FLAGS_DYN_ALLOC_TD =? 0) with false. cbv iota.
    destruct (free_undo dz s m rs rs1 (block_size TD_S) td Hr Hi Ha1 Hi1) as (s' & -> & Ek & _ & Hi' & _).
    exists s'. rewrite Ek. split_and!; [done|by apply ready_balanced|done].
  - change (Z.land _ TD_FLAGS_DYN_ALLOC_SP =? 0) with false.
    rewrite (load_Some _ _ _ Es). cbn [mbind res_bind].
    destruct (free_undo dz s m1 rs1 rs2 (block_size n) sp Hr Hi1 Ha2 Hi2)
      as (s1 & -> & Ek1 & _ & Hi1' & _). cbn [mbind res_bind].
    destruct (balanced_td _ _ _ Et) as (t1 & Et1 & Ef1 & _). rewrite <- Ek1 in Et1.
    rewrite (get_td_Some td _ t1) by done. cbn [mbind res_bind]. rewrite Ef1, Ef.
    change (Z.land _ TD_FLAGS_DYN_ALLOC_TD =? 0) with false. cbv iota.
    assert (ready (sy_k s1)) as Hr1 by (rewrite Ek1; by apply ready_balanced).
    destruct (free_undo dz s1 m rs rs1 (block_size TD_S) td Hr1 Hi Ha1 Hi1')
      as (s' & -> & Ek & _ & Hi' & _).
    exists s'. rewrite Ek. split_and!; [done|by apply ready_balanced|done].
Qed.
End Threads.

Section Theorems.
Context `{Arch}.

(** The heap operation [f] run with the kernel state of a critical section. *)
Definition in_section {A} (f : fmem → res (A * fmem)) (s : sys) : res (A * sys) :=
  '(a, m) ← f (sy_m s); Ok (a, {| sy_k := balanced (sy_k s); sy_m := m; sy_stack := sy_stack s |}).

Lemma locked_eq {A} (f : fmem → res (A * fmem)) s : ready (sy_k s) → locked f s = in_section f s.
Proof.
  intros Hr. destruct (section_balanced _ Hr) as (k1 & E1 & E2). unfold locked, in_section.
  rewrite E1. cbn [mbind res_bind]. destruct (f (sy_m s)) as [[a m]|e]; [|done].
  cbn [mbind res_bind]. by rewrite E2.
Qed.

(** Calloc is zalloc of the product of its arguments modulo the size of
    [size_t]: the multiplication is not checked, so a product that wraps yields
    a block for the small remainder.  (32-bit: 65536 * 65537 gives 65536.) *)
Theorem calloc_wraps (dz number size : Z) (s : sys) :
  ready (sy_k s) → calloc dz number size s = zalloc dz (wrap PTR_W (number * size)) s.
Proof.
  intros Hr. unfold calloc, zalloc, malloc. rewrite !locked_eq by done. unfold in_section, mdx_fl_calloc.
  destruct (mdx_fl_malloc dz _ (sy_m s)) as [[p m]|e]; [|done]. cbn [mbind res_bind].
  by destruct (p =? 0).
Qed.

(** Zalloc by a thread that may enter a critical section, for a request that
    does not overflow: it leaves interrupts and nesting as they were; it returns
    NULL exactly when the request does not fit and then changes nothing, or it
    carves a best-fit block whose requested bytes are all zero, every other byte
    of the heap unchanged. *)
Theorem zalloc_clears (dz size : Z) (s : sys) (rs : list region) :
  ready (sy_k s) → fl_inv dz (sy_m s) rs → fits size →
  ∃ ptr s', zalloc dz size s = Ok (ptr, s') ∧ zalloc_outcome dz size s rs ptr s' ∧
    k_ie (sy_k s') = k_ie (sy_k s) ∧ crit (sy_k s') = crit (sy_k s).
Proof.
  intros Hr Hi Hf. destruct (zalloc_ok dz size s rs Hr Hi Hf) as (p & s' & E & Ho).
  exists p, s'. split_and!; [done|done| |]; destruct Ho as (-> & _).
  - unfold balanced. destruct (_ !! _) as [t|]; [|done]. by destruct (_ =? _).
  - destruct Hr as (t & Et & _). unfold balanced. rewrite Et.
    destruct (Z.eqb_spec (td_critnest t) 0) as [E0|]; [|done].
    unfold crit. simpl. by rewrite lookup_insert_eq, Et, <- E0.
Qed.

(** Mdx_thread_alloc is all or nothing, and mdx_thread_free undoes it.  It
    returns NULL with exactly the heap blocks it started from (a failed stack
    allocation frees the thread again), or a thread that owns its block and,
    for a non-zero size, a cleared stack recorded with the flag that makes
    mdx_thread_free release it; freeing that thread restores the heap. *)
Theorem thread_alloc_free (dz TD_S n : Z) (s : sys) (rs : list region) :
  ready (sy_k s) → fl_inv dz (sy_m s) rs → fits TD_S → n = 0 ∨ fits n →
  ∃ td s', mdx_thread_alloc dz TD_S n s = Ok (td, s') ∧
    ((td = 0 ∧ fl_inv dz (sy_m s') rs) ∨
     (thread_owned dz TD_S n rs td s' ∧
      ∃ s2, mdx_thread_free dz td s' = Ok s2 ∧ fl_inv dz (sy_m s2) rs)).
Proof.
  intros Hr Hi HT Hn. destruct (thread_alloc_ok dz TD_S n s rs Hr Hi HT Hn)
    as (td & s' & E & Hr' & _ & [Hc|Hc]); exists td, s'; (split; [done|]); [by left|right].
  split; [done|].
  destruct (thread_free_ok dz TD_S n s' (sy_m s) rs td Hr' Hi Hc) as (s2 & E2 & _ & Hi2).
  by exists s2.
Qed.

(** Mdx_thread_create does not leak: it returns a thread that is READY with
    the requested priority and quantum and owns its stack, or NULL with the heap
    blocks it started from; it returns NULL whenever the stack size is zero or
    the entry point is NULL. *)
Theorem thread_create_no_leak (dz TD_S n prio usec qt : Z) (entry : bool) (s : sys) (rs : list region) :
  ready (sy_k s) → fl_inv dz (sy_m s) rs → fits TD_S → n = 0 ∨ fits n →
  (if usec =? 0 then Ok 0 else mdx_callout_usec_to_ticks usec (k_co (sy_k s))) = Ok qt →
  ∃ td s', mdx_thread_create dz TD_S prio usec n entry s = Ok (td, s') ∧
    ((td = 0 ∧ fl_inv dz (sy_m s') rs) ∨
     (n ≠ 0 ∧ entry = true ∧ thread_owned dz TD_S n rs td s' ∧
      ∃ t, k_td (sy_k s') !! td = Some t ∧ td_state t = TD_STATE_READY ∧ td_prio t = prio ∧
        td_quantum t = qt)).
Proof.
  intros Hr Hi HT Hn Hq. unfold mdx_thread_create.
  destruct (thread_alloc_ok dz TD_S n s rs Hr Hi HT Hn) as (td & s1 & -> & Hr1 & Em & [[-> Hi1]|Ho]);
    cbn [mbind res_bind].
  { exists 0, s1. auto. }
  pose proof Ho as (Htd & rs1 & t & Ha1 & Et & En & Hc). destruct (Z.eqb_spec td 0); [lia|].
  assert (Hq1 : (if usec =? 0 then Ok 0 else mdx_callout_usec_to_ticks usec (k_co (sy_k s1))) = Ok qt).
  { rewrite <- Hq. unfold mdx_callout_usec_to_ticks. by rewrite Em. }
  destruct Hc as [(-> & Hi1 & Ef & Es)|(Hn0 & (m1 & Hi1) & sp & rs2 & Hsp & Ha2 & Hi2 & Ef & Es & Hz)];
    rewrite (load_Some _ _ _ Es); cbn [mbind res_bind].
  - change (0 =? 0) with true. cbn [negb mdx_thread_setup mbind res_bind].
    change (MDX_ERROR =? 0) with false. cbv iota. change (sy_stack (with_k _ s1)) with (sy_stack s1).
    rewrite (load_Some _ _ _ Es). cbn [mbind res_bind].
    replace (with_k (sy_k s1) s1) with s1 by (by destruct s1).
    rewrite free_null by done. cbn [mbind res_bind].
    destruct (free_undo dz (with_k (balanced (sy_k s1)) s1) (sy_m s) rs rs1 (block_size TD_S) td)
      as (s2 & E2 & _ & _ & Hi2 & _); [by apply ready_balanced|done|done|done|].
    rewrite E2. exists 0, s2. auto.
  - destruct (Z.eqb_spec sp 0); [lia|]. cbn [negb mdx_thread_setup].
    destruct (Z.eqb_spec n 0); [done|]. destruct entry; cbn [negb mbind res_bind].
    + rewrite (get_td_Some td _ t) by done. cbn [mbind res_bind]. rewrite Hq1. cbn [mbind res_bind].
      eexists td, _. split; [done|]. right. split_and!; [done|done| |].
      * split; [done|]. eexists rs1, _. split_and!; [done|apply lookup_insert_eq|done|].
        right. split; [done|]. split; [by exists m1|]. by exists sp, rs2.
      * eexists. split; [apply lookup_insert_eq|done].
    + change (MDX_ERROR =? 0) with false. cbv iota. change (sy_stack (with_k _ s1)) with (sy_stack s1).
      rewrite (load_Some _ _ _ Es). cbn [mbind res_bind].
      destruct (free_undo dz s1 m1 rs1 rs2 (block_size n) sp Hr1 Hi1 Ha2 Hi2)
        as (s2 & E2 & Ek2 & _ & Hi2' & _).
      replace (with_k (sy_k s1) s1) with s1 by (by destruct s1). rewrite E2. cbn [mbind res_bind].
      destruct (free_undo dz s2 (sy_m s) rs rs1 (block_size TD_S) td)
        as (s3 & E3 & _ & _ & Hi3 & _); [rewrite Ek2; by apply ready_balanced|done|done|done|].
      rewrite E3. exists 0, s3. auto.
Qed.

(** Mdx_timer_create leaves the timer's fields as malloc() found them, so
    when the recycled memory holds a non-zero word at [started], mdx_timer_start
    reports MDX_ERROR and the timer never runs. *)
Theorem timer_create_uninitialised (dz TM_S period : Z) (junk : timer) (s : sys) (rs : list region) :
  ready (sy_k s) → fl_inv dz (sy_m s) rs → fits TM_S → tm_started junk ≠ 0 →
  ∃ tm s', mdx_timer_create dz TM_S junk s = Ok (tm, s') ∧
    (tm = 0 ∨ mdx_timer_start tm period (sy_k s') = Ok (MDX_ERROR, sy_k s')).
Proof.
  intros Hr Hi [Hs Hw] Hj. unfold mdx_timer_create, malloc. rewrite locked_eq by done. unfold in_section.
  destruct (malloc_ok dz (sy_m s) rs TM_S Hi Hs Hw) as [(p & m' & rs' & -> & _ & _ & Hp & _)|[-> _]];
    cbn [mbind res_bind].
  - destruct (Z.eqb_spec p 0); [lia|]. eexists p, _. split; [done|]. right.
    unfold mdx_timer_start. cbn. unfold load. rewrite lookup_insert_eq. cbn [mbind res_bind].
    destruct (Z.eqb_spec (tm_started junk) 0); [lia|done].
  - cbn. eexists 0, _. split; [done|]. by left.
Qed.
End Theorems.

(** ** Witnesses: the booted kernel and a heap of one region *)

Definition no_kernel : kst :=
  {| k_cur := 0; k_ie := true; k_td := ∅; k_runq := λ _, []; k_sem := ∅; k_tok := ∅; k_timer := ∅;
     k_mutex := ∅; k_fifo := ∅; k_freed := []; k_fr := {| fr_mem := ∅; td_tf := ∅ |};
     k_co := {| mi_tmr := None; tab := ∅;
                cpus := λ _, {| q := []; t_state := MI_TIMER_STATE_READY; t_saved := 0;
                                t_prog := None; t_count := 0 |} |} |}.
Definition booted : kst := mdx_thread_init 1 no_kernel.
Definition demo_sys (m : fmem) : sys := {| sy_k := booted; sy_m := m; sy_stack := ∅ |}.

Lemma booted_ready : ready booted.
Proof. eexists. split; [vm_compute; reflexivity|]. by vm_compute. Qed.

Lemma demo_fits : fits 100.
Proof. by vm_compute. Qed.

Lemma calloc_wraps_witness :
  ∃ m, fl_inv 4096 m [fresh_region 65536 4096] ∧
    calloc 4096 65536 65537 (demo_sys m) = zalloc 4096 65536 (demo_sys m).
Proof.
  destruct demo_inv as (m & _ & Hi). exists m. split; [done|].
  exact (calloc_wraps 4096 65536 65537 (demo_sys m) booted_ready).
Defined.

Lemma zalloc_clears_witness :
  ∃ m ptr s', zalloc 4096 100 (demo_sys m) = Ok (ptr, s') ∧ 0 < ptr ∧
    bytes (sy_m s') !! (ptr + 99) = Some 0.
Proof.
  destruct demo_inv as (m & _ & Hi). exists m.
  destruct (zalloc_clears 4096 100 (demo_sys m) _ booted_ready Hi demo_fits)
    as (p & s' & E & (_ & _ & _ & [(_ & _ & Hno)|(Hp & rs' & _ & _ & Hc)]) & _).
  - specialize (Hno 4064 demo_free). vm_compute in Hno. discriminate.
  - exists p, s'. split_and!; [done|done|]. rewrite Hc, decide_True by lia. done.
Defined.

Lemma thread_alloc_free_witness :
  ∃ m td s', fl_inv 4096 m [fresh_region 65536 4096] ∧
    mdx_thread_alloc 4096 100 100 (demo_sys m) = Ok (td, s').
Proof.
  destruct demo_inv as (m & _ & Hi). exists m.
  destruct (thread_alloc_free 4096 100 100 (demo_sys m) _ booted_ready Hi demo_fits)
    as (td & s' & E & _); [right; exact demo_fits|]. by exists td, s'.
Defined.

Lemma thread_create_no_leak_witness :
  ∃ m s', mdx_thread_create 4096 100 1 0 0 true (demo_sys m) = Ok (0, s') ∧
    fl_inv 4096 (sy_m s') [fresh_region 65536 4096].
Proof.
  destruct demo_inv as (m & _ & Hi). exists m.
  destruct (thread_create_no_leak 4096 100 0 1 0 0 true (demo_sys m) _ booted_ready Hi demo_fits)
    as (td & s' & E & [[-> Hs]|(Hn & _)]); [by left|done| |done].
  by exists s'.
Defined.

Lemma timer_create_uninitialised_witness :
  ∃ m tm s', mdx_timer_create 4096 100 {| tm_count_us := 0; tm_started := 7; tm_period_us := 0 |}
    (demo_sys m) = Ok (tm, s') ∧ (tm = 0 ∨ mdx_timer_start tm 10 (sy_k s') = Ok (MDX_ERROR, sy_k s')).
Proof.
  destruct demo_inv as (m & _ & Hi). exists m.
  destruct (timer_create_uninitialised 4096 100 10
    {| tm_count_us := 0; tm_started := 7; tm_period_us := 0 |} (demo_sys m) _ booted_ready Hi demo_fits)
    as (tm & s' & H1 & H2); [done|]. by exists tm, s'.
Defined.
