(* ===== verification/Startup.v ===== *)
(** * System initialisation (kernel/init/mdx_startup.c, mdx_module.c)

    The linker collects the SYSINIT records in a section; mi_startup() sorts
    them in place by subsystem and order and calls their functions. *)

From S2P Require Import Prelude.
Local Open Scope Z_scope.

Inductive mdx_subsystem_id := SI_SUB_BOARD | SI_SUB_DRIVERS | SI_SUB_CLOCKS.
Inductive mdx_order_id :=
| SI_ORDER_FIRST | SI_ORDER_SECOND | SI_ORDER_THIRD | SI_ORDER_FOURTH | SI_ORDER_FIFTH
| SI_ORDER_MIDDLE | SI_ORDER_ANY.

(** The enumerators' values. *)
Definition sub_val (s : mdx_subsystem_id) : Z :=
  match s with SI_SUB_BOARD => 0 | SI_SUB_DRIVERS => 1 | SI_SUB_CLOCKS => 2 end.
Definition order_val (o : mdx_order_id) : Z :=
  match o with
  | SI_ORDER_FIRST => 0 | SI_ORDER_SECOND => 1 | SI_ORDER_THIRD => 2 | SI_ORDER_FOURTH => 3
  | SI_ORDER_FIFTH => 4 | SI_ORDER_MIDDLE => 5 | SI_ORDER_ANY => 6
  end.

Section Startup.
Context {F W : Type}.          (* functions with their arguments; the system they act on *)
Context (call : F → W → res W).

Record sysinit := { si_subsystem : mdx_subsystem_id; si_order : mdx_order_id; si_func : F }.

(** The condition under which the pair stays as it is. *)
Definition in_order (a b : sysinit) : bool :=
  (sub_val (si_subsystem a) <? sub_val (si_subsystem b)) ||
  ((sub_val (si_subsystem a) =? sub_val (si_subsystem b)) &&
   (order_val (si_order a) <=? order_val (si_order b))).

(** The body of the two loops, [si] being entry [i] and [xi] entry [j]. *)
Definition exchange (i j : nat) (l : list sysinit) : list sysinit :=
  match l !! i, l !! j with
  | Some a, Some b => if in_order a b then l else <[j := a]> (<[i := b]> l)
  | _, _ => l
  end.

(** [for (xi = si + 1; xi < si_end; xi++)] *)
Definition inner (l : list sysinit) (i : nat) : list sysinit :=
  foldl (λ l j, exchange i j l) l (seq (S i) (length l - S i)).

(** [for (si = si_start; si < si_end; si++)] *)
Definition sort_sysinits (l : list sysinit) : list sysinit :=
  foldl inner l (seq 0 (length l)).

Fixpoint run_sysinits (l : list sysinit) (w : W) : res W :=
  match l with
  | [] => Ok w
  | si :: l => w ← call (si_func si) w; run_sysinits l w
  end.

Definition mi_startup (l : list sysinit) (w : W) : res W := run_sysinits (sort_sysinits l) w.

(** ** Sorting *)

Definition si_le (a b : sysinit) : Prop := in_order a b = true.

Lemma si_le_iff a b :
  si_le a b ↔ sub_val (si_subsystem a) < sub_val (si_subsystem b) ∨
    (sub_val (si_subsystem a) = sub_val (si_subsystem b) ∧
     order_val (si_order a) ≤ order_val (si_order b)).
Proof. unfold si_le, in_order. rewrite orb_true_iff, andb_true_iff. lia. Qed.

Lemma si_le_total a b : in_order a b = false → si_le b a.
Proof.
  unfold in_order. rewrite orb_false_iff, andb_false_iff, si_le_iff. intros [? [?|?]]; lia.
Qed.

#[export] Instance si_le_trans : Transitive si_le.
Proof. intros a b c. rewrite !si_le_iff. lia. Qed.

Lemma exchange_perm i j l : exchange i j l ≡ₚ l.
Proof.
  unfold exchange. destruct (l !! i) as [a|] eqn:Ei; [|done].
  destruct (l !! j) as [b|] eqn:Ej; [|done]. destruct (in_order a b); [done|].
  by apply Permutation_insert_swap.
Qed.

Lemma exchange_length i j l : length (exchange i j l) = length l.
Proof. apply Permutation_length, exchange_perm. Qed.

(** Entry [p] precedes every entry from [a] up to [b]. *)
Definition below (l : list sysinit) (p a b : nat) : Prop :=
  ∀ x y q, l !! p = Some x → (a ≤ q < b)%nat → l !! q = Some y → si_le x y.

Lemma exchange_below i j l :
  (i < j < length l)%nat → below l i (S i) j → below (exchange i j l) i (S i) (S j).
Proof.
  intros Hj Hb. unfold exchange.
  destruct (lookup_lt_is_Some_2 l i) as [a Ea]; [lia|].
  destruct (lookup_lt_is_Some_2 l j) as [b Eb]; [lia|]. rewrite Ea, Eb.
  destruct (in_order a b) eqn:Eab; intros x y q Ex Hq Ey.
  - destruct (decide (q = j)) as [->|]; [|by eapply Hb; [..|exact Ey]; [done|lia]].
    by simplify_eq.
  - rewrite list_lookup_insert_ne in Ex by lia. rewrite list_lookup_insert_eq in Ex by lia. simplify_eq.
    apply si_le_total in Eab. destruct (decide (q = j)) as [->|].
    + rewrite list_lookup_insert_eq in Ey by (rewrite length_insert; lia). by simplify_eq.
    + rewrite !list_lookup_insert_ne in Ey by lia. transitivity a; [done|].
      eapply Hb; [done| |exact Ey]. lia.
Qed.

(** Entries before [i] that precede everything after them still do. *)
Lemma exchange_below_other i j l p :
  (p < i)%nat → (i < j)%nat → below l p (S p) (length l) → below (exchange i j l) p (S p) (length l).
Proof.
  intros Hp Hj Hb. unfold exchange.
  destruct (l !! i) as [a|] eqn:Ea; [|done]. destruct (l !! j) as [b|] eqn:Eb; [|done].
  destruct (in_order a b); [done|]. intros x y q Ex Hq Ey.
  rewrite !list_lookup_insert_ne in Ex by lia.
  pose proof (lookup_lt_Some _ _ _ Ea). pose proof (lookup_lt_Some _ _ _ Eb).
  destruct (decide (q = j)) as [->|Hqj].
  - rewrite list_lookup_insert_eq in Ey by (rewrite length_insert; lia). simplify_eq.
    eapply Hb; [done| |exact Ea]. lia.
  - rewrite list_lookup_insert_ne in Ey by done. destruct (decide (q = i)) as [->|].
    + rewrite list_lookup_insert_eq in Ey by lia. simplify_eq. eapply Hb; [done| |exact Eb]. lia.
    + rewrite list_lookup_insert_ne in Ey by done. eapply Hb; [done| |exact Ey]. lia.
Qed.

Lemma inner_spec i l :
  (i < length l)%nat → (∀ p, (p < i)%nat → below l p (S p) (length l)) →
  inner l i ≡ₚ l ∧ ∀ p, (p < S i)%nat → below (inner l i) p (S p) (length l).
Proof.
  intros Hi Hb. unfold inner.
  assert (∀ n j k, (j + n = length l)%nat → (i < j)%nat → k ≡ₚ l → below k i (S i) j →
    (∀ p, (p < i)%nat → below k p (S p) (length l)) →
    let k' := foldl (λ l j, exchange i j l) k (seq j n) in
    k' ≡ₚ l ∧ ∀ p, (p < S i)%nat → below k' p (S p) (length l)) as Hloop.
  { induction n as [|n IH]; intros j k Hn Hij Hk Hki Hkp; cbn [seq foldl].
    - split; [done|]. intros p Hp. destruct (decide (p = i)) as [->|]; [|apply Hkp; lia].
      by replace (length l) with j by lia.
    - pose proof (Permutation_length Hk) as El. apply IH; [lia|lia| | |].
      + by rewrite exchange_perm.
      + apply exchange_below; [lia|done].
      + intros p Hp. rewrite <- El. apply exchange_below_other; [done|done|]. rewrite El. by apply Hkp. }
  apply Hloop; [lia|lia|done| |done]. intros x y q _ Hq. lia.
Qed.

Lemma sort_spec l :
  sort_sysinits l ≡ₚ l ∧ ∀ p, (p < length l)%nat → below (sort_sysinits l) p (S p) (length l).
Proof.
  unfold sort_sysinits.
  assert (∀ n i k, (i + n = length l)%nat → k ≡ₚ l →
    (∀ p, (p < i)%nat → below k p (S p) (length l)) →
    let k' := foldl inner k (seq i n) in
    k' ≡ₚ l ∧ ∀ p, (p < length l)%nat → below k' p (S p) (length l)) as Hloop.
  { induction n as [|n IH]; intros i k Hn Hk Hb; cbn [seq foldl].
    - split; [done|]. intros p Hp. apply Hb. lia.
    - pose proof (Permutation_length Hk) as El. rewrite <- El in Hb.
      destruct (inner_spec i k ltac:(lia) Hb) as [Hp Hb']. rewrite El in Hb'.
      apply (IH (S i)); [lia| |done]. by rewrite Hp. }
  apply Hloop; [done|done|]. intros p Hp. lia.
Qed.

Lemma below_sorted l : (∀ p, (p < length l)%nat → below l p (S p) (length l)) → StronglySorted si_le l.
Proof.
  induction l as [|a l IH]; intros Hb; constructor.
  - apply IH. intros p Hp x y q Ex Hq Ey.
    apply (Hb (S p) ltac:(simpl; lia) x y (S q)); [done|simpl; lia|done].
  - apply Forall_forall. intros y Hy. apply list_elem_of_lookup in Hy as [q Hq].
    pose proof (lookup_lt_Some _ _ _ Hq).
    apply (Hb 0%nat ltac:(simpl; lia) a y (S q)); [done|simpl; lia|done].
Qed.

(** What a run of the calls [fs] does. *)
Definition run_calls (fs : list F) (w : W) : res W := foldl (λ r f, w ← r; call f w) (Ok w) fs.

Lemma run_sysinits_calls l w : run_sysinits l w = run_calls (si_func <$> l) w.
Proof.
  unfold run_calls. change (run_sysinits l w) with (w ← Ok w; run_sysinits l w). generalize (Ok w : res W).
  induction l as [|si l IH]; intros r; [by destruct r|].
  transitivity (w ← (w ← r; call (si_func si) w); run_sysinits l w); [by destruct r|apply IH].
Qed.

(** Mi_startup calls the function of every SYSINIT record exactly once, in
    the order of subsystem and then order: there is a sorted permutation of the
    records whose functions are called one after the other, stopping only
    where one of them fails. *)
Theorem startup_order (l : list sysinit) (w : W) :
  ∃ l', l' ≡ₚ l ∧ StronglySorted si_le l' ∧ mi_startup l w = run_calls (si_func <$> l') w.
Proof.
  destruct (sort_spec l) as [Hp Hb]. exists (sort_sysinits l). split_and!; [done| |apply run_sysinits_calls].
  apply below_sorted. by rewrite (Permutation_length Hp).
Qed.
End Startup.

(** The exchange sort is not stable: two records of the same subsystem and order
    may run in the reverse of their order in the section. *)
Example startup_unstable :
  let r s o f := {| si_subsystem := s; si_order := o; si_func := f |} in
  mi_startup (λ (f : Z) w, Ok (w ++ [f]))
    [r SI_SUB_DRIVERS SI_ORDER_ANY 1; r SI_SUB_DRIVERS SI_ORDER_ANY 2; r SI_SUB_BOARD SI_ORDER_FIRST 3] []
  = Ok [3; 2; 1].
Proof. reflexivity. Qed.

(** ** Modules (kernel/init/mdx_module.c) *)

(** struct mdx_moduledata: the handler and its argument; its result is
    discarded. *)
Record moduledata (F D : Type) := { md_handler : F; md_data : D }.
Arguments md_handler {F D} _. Arguments md_data {F D} _.

Definition mdx_module_init {F D W} (handler : F → D → W → res (Z * W)) (md : moduledata F D) (w : W) :
    res W :=
  '(_, w) ← handler (md_handler md) (md_data md) w; Ok w.
