(* ===== verification/Device.v ===== *)
(** * Devices and drivers (kernel/init/mdx_device.c, include/sys/device.h)

    Attached devices are on the list [devs] in the order of attachment; the
    list is a ring of EntryList.v and appears here as the sequence it
    represents.  The probe and attach methods are code of the drivers; they act
    on the whole state and may attach further devices. *)

From S2P Require Import Prelude.
From stdpp Require Import strings.
Local Open Scope Z_scope.

(** struct mdx_driver; its methods are arguments of the operations. *)
Record driver := {
  dr_name : string;
  dr_size : Z;
  dr_compat_data : option (list string)
}.

(** struct mdx_device *)
Record device := {
  d_sc : Z;
  d_nodeoffset : Z;
  d_dri : Z;
  d_unit : Z
}.

Definition dev_set_sc (v : Z) (d : device) : device :=
  {| d_sc := v; d_nodeoffset := d_nodeoffset d; d_dri := d_dri d; d_unit := d_unit d |}.
Definition dev_set_unit (v : Z) (d : device) : device :=
  {| d_sc := d_sc d; d_nodeoffset := d_nodeoffset d; d_dri := d_dri d; d_unit := v |}.

Section Model.
Context {W : Type}.   (* the rest of the system *)

Record dst := {
  devs : list Z;
  devtab : gmap Z device;
  drivers : gmap Z driver;
  rest : W
}.

Definition put_dev (dev : Z) (d : device) (s : dst) : dst :=
  {| devs := devs s; devtab := <[dev := d]> (devtab s); drivers := drivers s; rest := rest s |}.
Definition set_rest (w : W) (s : dst) : dst :=
  {| devs := devs s; devtab := devtab s; drivers := drivers s; rest := w |}.
Definition append_dev (dev : Z) (s : dst) : res dst :=
  if decide (dev ∈ devs s) then Err Fault else
  Ok {| devs := devs s ++ [dev]; devtab := devtab s; drivers := drivers s; rest := rest s |}.

Context (zalloc : Z → W → res (Z * W)).
Context (probe attach : Z → Z → dst → res (Z * dst)).   (* driver, device *)

Definition driver_of (dev : Z) (s : dst) : res driver :=
  d ← load (devtab s) dev; load (drivers s) (d_dri d).

(** The loop of mdx_device_set_unit. *)
Fixpoint max_unit (name : string) (l : list Z) (unit : Z) (s : dst) : res Z :=
  match l with
  | [] => Ok unit
  | dev1 :: l =>
    dri1 ← driver_of dev1 s;
    d1 ← load (devtab s) dev1;
    max_unit name l
      (if bool_decide (name = dr_name dri1) && (unit <? d_unit d1) then d_unit d1 else unit) s
  end.

Definition mdx_device_set_unit (dev : Z) (s : dst) : res dst :=
  dri ← driver_of dev s;
  unit ← max_unit (dr_name dri) (devs s) (-1) s;
  d ← load (devtab s) dev;
  Ok (put_dev dev (dev_set_unit (unit + 1) d) s).

Definition mdx_device_alloc_softc (dev size : Z) (s : dst) : res dst :=
  d ← load (devtab s) dev;
  if d_sc d =? 0 then
    '(sc, w) ← zalloc size (rest s);
    Ok (put_dev dev (dev_set_sc sc d) (set_rest w s))
  else Ok s.

Definition mdx_device_probe_and_attach (dev : Z) (s : dst) : res (Z * dst) :=
  d ← load (devtab s) dev;
  driver ← load (drivers s) (d_dri d);
  s ← mdx_device_set_unit dev s;
  '(error, s) ← probe (d_dri d) dev s;
  if error =? 0 then
    s ← mdx_device_alloc_softc dev (dr_size driver) s;
    '(error, s) ← attach (d_dri d) dev s;
    if error =? 0 then s ← append_dev dev s; Ok (error, s) else Ok (error, s)
  else Ok (-1, s).

Fixpoint lookup_name_loop (name : string) (unit : Z) (l : list Z) (s : dst) : res (option Z) :=
  match l with
  | [] => Ok None
  | dev :: l =>
    dri ← driver_of dev s;
    d ← load (devtab s) dev;
    if bool_decide (name = dr_name dri) && (d_unit d =? unit) then Ok (Some dev)
    else lookup_name_loop name unit l s
  end.

Definition mdx_device_lookup_by_name (name : string) (unit : Z) (s : dst) : res (option Z) :=
  lookup_name_loop name unit (devs s) s.

Fixpoint lookup_offset_loop (offset : Z) (l : list Z) (s : dst) : res (option Z) :=
  match l with
  | [] => Ok None
  | dev :: l =>
    d ← load (devtab s) dev;
    if d_nodeoffset d =? offset then Ok (Some dev) else lookup_offset_loop offset l s
  end.

Definition mdx_device_lookup_by_offset (offset : Z) (s : dst) : res (option Z) :=
  lookup_offset_loop offset (devs s) s.

(** ** Names and units *)

(** [name] and [unit] of an attached device. *)
Definition named (s : dst) (dev : Z) (p : string * Z) : Prop :=
  ∃ d dri, devtab s !! dev = Some d ∧ drivers s !! d_dri d = Some dri ∧ p = (dr_name dri, d_unit d).

(** The units of the devices with driver name [name], in order of attachment. *)
Definition units (name : string) (ps : list (string * Z)) : list Z :=
  snd <$> filter (λ p, p.1 = name) ps.

(** Attached devices have names and units, and those of one name are numbered
    0, 1, 2, ... in the order of their attachment. *)
Definition devs_inv (s : dst) (ps : list (string * Z)) : Prop :=
  NoDup (devs s) ∧ Forall2 (named s) (devs s) ps ∧
  ∀ name, units name ps = seqZ 0 (Z.of_nat (length (units name ps))).

Lemma named_driver s dev p :
  named s dev p → ∃ d dri, devtab s !! dev = Some d ∧ driver_of dev s = Ok dri ∧
    p = (dr_name dri, d_unit d).
Proof.
  intros (d & dri & Ed & Er & ->). exists d, dri. split_and!; [done| |done].
  unfold driver_of. rewrite (load_Some _ _ _ Ed). cbn [mbind res_bind]. by apply load_Some.
Qed.

Lemma max_unit_spec name l ps u s :
  Forall2 (named s) l ps → max_unit name l u s = Ok (foldl Z.max u (units name ps)).
Proof.
  intros HF. revert u. induction HF as [|dev p l ps Hp HF IH]; intros u; [done|].
  destruct (named_driver _ _ _ Hp) as (d & dri & Ed & Er & ->). cbn [max_unit].
  rewrite Er. cbn [mbind res_bind]. rewrite (load_Some _ _ _ Ed). cbn [mbind res_bind].
  rewrite IH. unfold units. rewrite filter_cons. cbn [fst].
  destruct (decide (dr_name dri = name)) as [<-|Hne].
  - rewrite bool_decide_eq_true_2 by done. cbn [andb fmap list_fmap foldl snd].
    f_equal. f_equal. destruct (Z.ltb_spec u (d_unit d)); lia.
  - rewrite bool_decide_eq_false_2 by done. done.
Qed.

Lemma foldl_max_seqZ n u : -1 ≤ u < n ∨ (n = 0 ∧ u = -1) → 0 ≤ n → foldl Z.max u (seqZ 0 n) = n - 1.
Proof.
  intros Hu Hn. revert u Hu. pattern n. apply natlike_ind; [| |done]; clear n Hn.
  - intros u Hu. rewrite seqZ_nil by lia. simpl. lia.
  - intros n Hn IH u Hu. unfold Z.succ. rewrite seqZ_app by lia. rewrite foldl_app.
    rewrite (seqZ_cons (0 + n) 1) by lia. rewrite (seqZ_nil _ (Z.pred 1)) by lia. cbn [foldl].
    destruct (decide (u < n)) as [?|?].
    + rewrite IH by lia. lia.
    + assert (∀ l, Forall (λ x, x ≤ u) l → foldl Z.max u l = u) as Hm.
      { clear. induction l as [|x l IH]; intros Hl; [done|]. apply Forall_cons in Hl as [Hx Hl].
        simpl. rewrite Z.max_l by lia. auto. }
      rewrite Hm; [lia|]. apply Forall_forall. intros x Hx. apply elem_of_seqZ in Hx. lia.
Qed.

Lemma units_app name ps qs : units name (ps ++ qs) = units name ps ++ units name qs.
Proof. unfold units. by rewrite filter_app, fmap_app. Qed.

Lemma lookup_name_spec name u l ps s dev :
  Forall2 (named s) l ps → NoDup (units name ps) → (∃ i, l !! i = Some dev ∧ ps !! i = Some (name, u)) →
  lookup_name_loop name u l s = Ok (Some dev).
Proof.
  intros HF. induction HF as [|dev1 p l ps Hp HF IH]; intros Hnd (i & Hi & Hps); [done|].
  destruct (named_driver _ _ _ Hp) as (d & dri & Ed & Er & ->). cbn [lookup_name_loop].
  rewrite Er. cbn [mbind res_bind]. rewrite (load_Some _ _ _ Ed). cbn [mbind res_bind].
  destruct i as [|i].
  - simpl in Hi, Hps. simplify_eq. rewrite bool_decide_eq_true_2 by done. by rewrite Z.eqb_refl.
  - simpl in Hi, Hps. unfold units in Hnd. rewrite filter_cons in Hnd. cbn [fst] in Hnd.
    destruct (decide (dr_name dri = name)) as [<-|Hne].
    + rewrite bool_decide_eq_true_2 by done. cbn [fmap list_fmap snd] in Hnd.
      apply NoDup_cons in Hnd as [Hni Hnd]. destruct (Z.eqb_spec (d_unit d) u) as [<-|Hu].
      * exfalso. apply Hni. apply list_elem_of_fmap. exists (dr_name dri, d_unit d). split; [done|].
        apply list_elem_of_filter. split; [done|]. by eapply list_elem_of_lookup_2.
      * apply IH; [done|]. by exists i.
    + rewrite bool_decide_eq_false_2 by done. apply IH; [done|]. by exists i.
Qed.

(** A method that leaves the list, the devices but for [dev]'s softc, and the
    drivers alone: every driver but a bus. *)
Definition leaf (f : Z → Z → dst → res (Z * dst)) : Prop :=
  ∀ dri dev s e s', f dri dev s = Ok (e, s') →
    devs s' = devs s ∧ drivers s' = drivers s ∧
    ∀ a, dev_set_sc 0 <$> devtab s' !! a = dev_set_sc 0 <$> devtab s !! a.

Lemma named_same s s' dev p :
  drivers s' = drivers s → dev_set_sc 0 <$> devtab s' !! dev = dev_set_sc 0 <$> devtab s !! dev →
  named s dev p → named s' dev p.
Proof.
  intros Ed Et (d & dri & E & Er & ->). rewrite E in Et. destruct (devtab s' !! dev) as [d'|] eqn:E'; [|done].
  simpl in Et. unfold dev_set_sc in Et. injection Et as E1 E2 E3. exists d', dri. rewrite Ed, E2, E3. done.
Qed.

Lemma named_all_same s s' l ps :
  drivers s' = drivers s →
  (∀ a, a ∈ l → dev_set_sc 0 <$> devtab s' !! a = dev_set_sc 0 <$> devtab s !! a) →
  Forall2 (named s) l ps → Forall2 (named s') l ps.
Proof.
  intros Ed Et HF. induction HF as [|dev p l ps Hp HF IH]; constructor.
  - apply (named_same s); [done| |done]. apply Et, list_elem_of_here.
  - apply IH. intros a Ha. apply Et. by right.
Qed.

(** Between set_unit and list_append: the attached devices are those of [s],
    and [dev], not among them, has driver [d_dri d] and unit [u]. *)
Definition pending (s s' : dst) (dev : Z) (d : device) (u : Z) : Prop :=
  devs s' = devs s ∧ drivers s' = drivers s ∧
  (∀ a, a ∈ devs s → dev_set_sc 0 <$> devtab s' !! a = dev_set_sc 0 <$> devtab s !! a) ∧
  dev_set_sc 0 <$> devtab s' !! dev = Some (dev_set_sc 0 (dev_set_unit u d)).

Lemma pending_leaf f s s' s2 dri e dev d u :
  leaf f → pending s s' dev d u → f dri dev s' = Ok (e, s2) → pending s s2 dev d u.
Proof.
  intros Hf (E1 & E2 & E3 & E4) E. destruct (Hf _ _ _ _ _ E) as (F1 & F2 & F3). split_and!.
  - by rewrite F1.
  - by rewrite F2.
  - intros a Ha. by rewrite F3, E3.
  - by rewrite F3.
Qed.

Lemma pending_softc s s' s2 dev d u size :
  dev ∉ devs s → pending s s' dev d u → mdx_device_alloc_softc dev size s' = Ok s2 → pending s s2 dev d u.
Proof.
  intros Hn (E1 & E2 & E3 & E4). unfold mdx_device_alloc_softc.
  destruct (devtab s' !! dev) as [d'|] eqn:Ed; [|done]. rewrite (load_Some _ _ _ Ed). cbn [mbind res_bind].
  destruct (d_sc d' =? 0); [|intros [= <-]; split_and!; [done|done|done|by rewrite Ed]].
  destruct (zalloc size (rest s')) as [[sc w]|]; [|done]. cbn [mbind res_bind]. intros [= <-]. split_and!.
  - done.
  - done.
  - intros a Ha. cbn [devtab put_dev set_rest]. rewrite lookup_insert_ne by congruence. auto.
  - cbn [devtab put_dev set_rest]. rewrite lookup_insert_eq. done.
Qed.

Lemma set_unit_pending s ps dev d dri :
  devs_inv s ps → devtab s !! dev = Some d → drivers s !! d_dri d = Some dri → dev ∉ devs s →
  ∃ s', mdx_device_set_unit dev s = Ok s' ∧
    pending s s' dev d (Z.of_nat (length (units (dr_name dri) ps))).
Proof.
  intros (_ & HF & Hu) Ed Er Hn. unfold mdx_device_set_unit, driver_of.
  rewrite (load_Some _ _ _ Ed). cbn [mbind res_bind]. rewrite (load_Some _ _ _ Er). cbn [mbind res_bind].
  rewrite (max_unit_spec _ _ _ _ _ HF). cbn [mbind res_bind]. rewrite Hu, foldl_max_seqZ by lia.
  eexists. split; [done|]. split_and!; [done|done| |].
  - intros a Ha. simpl. by rewrite lookup_insert_ne by congruence.
  - simpl. rewrite lookup_insert_eq. simpl. do 2 f_equal. f_equal. rewrite ?length_seqZ. lia.
Qed.

Lemma pending_inv s s' dev d u ps : pending s s' dev d u → devs_inv s ps → devs_inv s' ps.
Proof.
  intros (E1 & E2 & E3 & _) (Hd & HF & Hu). unfold devs_inv. rewrite E1. split_and!; [done| |done].
  by apply (named_all_same s).
Qed.

Lemma numbered_snoc l :
  l = seqZ 0 (Z.of_nat (length l)) →
  l ++ [Z.of_nat (length l)] = seqZ 0 (Z.of_nat (length (l ++ [Z.of_nat (length l)]))).
Proof.
  intros E. rewrite length_app. cbn [length].
  replace (Z.of_nat (length l + 1)) with (Z.of_nat (length l) + 1) by lia.
  by rewrite seqZ_app, <- E by lia.
Qed.

Lemma append_inv s s' s2 dev d u dri ps :
  pending s s' dev d u → devs_inv s ps → dev ∉ devs s → drivers s !! d_dri d = Some dri →
  u = Z.of_nat (length (units (dr_name dri) ps)) → append_dev dev s' = Ok s2 →
  devs s2 = devs s ++ [dev] ∧ devs_inv s2 (ps ++ [(dr_name dri, u)]).
Proof.
  intros Hp Hi Hn Er Hu. pose proof (pending_inv _ _ _ _ _ _ Hp Hi) as (Hd & HF & Hs).
  destruct Hp as (E1 & E2 & _ & E4). unfold append_dev. rewrite decide_False by (by rewrite E1).
  intros [= <-]. cbn [devs]. rewrite E1 in *. split; [done|]. split_and!.
  - cbn [devs]. apply NoDup_app. split_and!; [done| |apply NoDup_singleton].
    intros x Hx ->%list_elem_of_singleton. done.
  - cbn [devs]. apply Forall2_app; [by apply (named_all_same s')|]. constructor; [|constructor].
    destruct (devtab s' !! dev) as [d'|] eqn:Ed'; [|done]. simpl in E4. unfold dev_set_sc, dev_set_unit in E4.
    injection E4 as F1 F2 F3. exists d', dri. cbn [devtab drivers]. rewrite E2, F2, F3. done.
  - intros name. rewrite units_app. unfold units at 2 4. rewrite filter_cons. cbn [fst].
    destruct (decide (dr_name dri = name)) as [<-|Hne].
    + rewrite filter_nil. cbn [fmap list_fmap snd]. rewrite Hu. apply numbered_snoc, Hs.
    + rewrite filter_nil. cbn [fmap list_fmap]. rewrite app_nil_r. apply Hs.
Qed.

Lemma attach_spec s ps dev d dri e s' :
  devs_inv s ps → devtab s !! dev = Some d → drivers s !! d_dri d = Some dri → dev ∉ devs s →
  leaf probe → leaf attach → mdx_device_probe_and_attach dev s = Ok (e, s') →
  let unit := Z.of_nat (length (units (dr_name dri) ps)) in
  (e = 0 ∧ devs s' = devs s ++ [dev] ∧ devs_inv s' (ps ++ [(dr_name dri, unit)])) ∨
  (e ≠ 0 ∧ devs s' = devs s ∧ devs_inv s' ps).
Proof.
  intros Hi Ed Er Hn Hp Ha E unit. unfold mdx_device_probe_and_attach in E.
  rewrite (load_Some _ _ _ Ed) in E. cbn [mbind res_bind] in E. rewrite (load_Some _ _ _ Er) in E.
  cbn [mbind res_bind] in E. destruct (set_unit_pending s ps dev d dri Hi Ed Er Hn) as (s1 & E1 & Hp1).
  fold unit in Hp1. rewrite E1 in E. cbn [mbind res_bind] in E.
  destruct (probe (d_dri d) dev s1) as [[e2 s2]|] eqn:E2; [|done]. cbn [mbind res_bind] in E.
  pose proof (pending_leaf _ _ _ _ _ _ _ _ _ Hp Hp1 E2) as Hp2.
  destruct (Z.eqb_spec e2 0); [|injection E as <- <-; right; split_and!; [done|apply Hp2|by eapply pending_inv]].
  destruct (mdx_device_alloc_softc dev (dr_size dri) s2) as [s3|] eqn:E3; [|done]. cbn [mbind res_bind] in E.
  pose proof (pending_softc _ _ _ _ _ _ _ Hn Hp2 E3) as Hp3.
  destruct (attach (d_dri d) dev s3) as [[e4 s4]|] eqn:E4; [|done]. cbn [mbind res_bind] in E.
  pose proof (pending_leaf _ _ _ _ _ _ _ _ _ Ha Hp3 E4) as Hp4.
  destruct (Z.eqb_spec e4 0).
  - destruct (append_dev dev s4) as [s5|] eqn:E5; [|done]. cbn [mbind res_bind] in E.
    injection E as <- <-. left. split; [done|].
    by apply (append_inv s s4 s5 dev d unit dri ps).
  - injection E as <- <-. right. split_and!; [done|apply Hp4|by eapply pending_inv].
Qed.

Lemma lookup_attached s ps i dev name u :
  devs_inv s ps → devs s !! i = Some dev → ps !! i = Some (name, u) →
  mdx_device_lookup_by_name name u s = Ok (Some dev).
Proof.
  intros (_ & HF & Hu) Hi Hps. unfold mdx_device_lookup_by_name.
  apply (lookup_name_spec _ _ _ ps); [done| |by exists i]. rewrite Hu. apply NoDup_seqZ.
Qed.

(** Attaching devices numbers them.  When the probe and attach methods are
    those of leaf drivers, mdx_device_probe_and_attach of a new device either
    fails and leaves the attached devices as they were, or appends it; it keeps
    the invariant that the devices of one driver name are numbered 0, 1, 2, ...
    in order of attachment, and mdx_device_lookup_by_name then finds the device
    under its name and the next free number. *)
Theorem attach_numbers_devices (s s' : dst) (ps : list (string * Z)) (dev : Z) (d : device)
    (dri : driver) (e : Z) :
  devs_inv s ps → devtab s !! dev = Some d → drivers s !! d_dri d = Some dri → dev ∉ devs s →
  leaf probe → leaf attach → mdx_device_probe_and_attach dev s = Ok (e, s') →
  let unit := Z.of_nat (length (units (dr_name dri) ps)) in
  if e =? 0 then
    devs s' = devs s ++ [dev] ∧ devs_inv s' (ps ++ [(dr_name dri, unit)]) ∧
    mdx_device_lookup_by_name (dr_name dri) unit s' = Ok (Some dev)
  else devs s' = devs s ∧ devs_inv s' ps.
Proof.
  intros Hi Ed Er Hn Hp Ha E unit.
  destruct (attach_spec s ps dev d dri e s' Hi Ed Er Hn Hp Ha E) as [(-> & Hd & Hi')|(He & Hd & Hi')].
  - split_and!; [done|done|]. pose proof Hi as (_ & HF & _).
    apply (lookup_attached s' _ (length (devs s)) dev _ _ Hi').
    + rewrite Hd, lookup_app_r by lia. by rewrite Nat.sub_diag.
    + rewrite (Forall2_length _ _ _ HF), lookup_app_r by lia. by rewrite Nat.sub_diag.
  - destruct (Z.eqb_spec e 0); [done|]. done.
Qed.
End Model.
Arguments dst W : clear implicits.

(** ** A small system: two leaf drivers, and a bus that attaches a child *)

Module Demo.
Definition zalloc (size w : Z) : res (Z * Z) := Ok (w, w + size).
Definition always (dri dev : Z) (s : dst Z) : res (Z * dst Z) := Ok (0, s).
Definition gpio : driver := {| dr_name := "gpio"; dr_size := 16; dr_compat_data := None |}.
Definition dev0 : device := {| d_sc := 0; d_nodeoffset := 0; d_dri := 1; d_unit := 0 |}.
Definition s0 : dst Z :=
  {| devs := []; devtab := {[ 100 := dev0; 200 := dev0 ]}; drivers := {[ 1 := gpio ]}; rest := 4096 |}.

Lemma always_leaf : leaf always.
Proof. intros dri dev s e s' [= _ <-]. done. Qed.

Lemma s0_inv : devs_inv s0 [].
Proof. split_and!; [constructor|constructor|done]. Qed.

(** The attach method of a bus: the first device attaches the second one. *)
Definition bus_attach (dri dev : Z) (s : dst Z) : res (Z * dst Z) :=
  if dev =? 100 then mdx_device_probe_and_attach zalloc always always 200 s else Ok (0, s).

(** mdx_device_set_unit runs before the attach method, so a device whose attach
    method attaches another device of the same driver name gets its number: both
    have unit 0, and a lookup by name and unit never finds the parent. *)
Example nested_attach_shares_unit :
  ∃ s', mdx_device_probe_and_attach zalloc always bus_attach 100 s0 = Ok (0, s') ∧
    devs s' = [200; 100] ∧ d_unit <$> devtab s' !! 100 = Some 0 ∧ d_unit <$> devtab s' !! 200 = Some 0 ∧
    mdx_device_lookup_by_name "gpio" 0 s' = Ok (Some 200).
Proof. eexists. split; [vm_compute; reflexivity|]. by vm_compute. Qed.

Lemma attach_numbers_devices_witness :
  ∃ s', mdx_device_probe_and_attach zalloc always always 100 s0 = Ok (0, s') ∧
    devs s' = [100] ∧ mdx_device_lookup_by_name "gpio" 0 s' = Ok (Some 100).
Proof.
  destruct (mdx_device_probe_and_attach zalloc always always 100 s0) as [[e s']|] eqn:E;
    [|by vm_compute in E].
  assert (e = 0) as -> by (vm_compute in E; by injection E as <- _).
  pose proof (attach_numbers_devices zalloc always always s0 s' [] 100 dev0 gpio 0 s0_inv
    eq_refl eq_refl ltac:(apply not_elem_of_nil) always_leaf always_leaf E) as (Hd & _ & Hl).
  exists s'. split_and!; [done|exact Hd|exact Hl].
Defined.
End Demo.
