(* ===== verification/Memory.v ===== *)
(** * Byte memory

    The memory of the C library: a map from addresses to bytes.  An address
    without a byte is not mapped, and reading or writing it is a fault.  Words
    are little-endian. *)

From S2P Require Import Prelude.
Local Open Scope Z_scope.

Abbreviation mem_t := (gmap Z Z).

Definition store (a v : Z) (m : mem_t) : res mem_t :=
  match m !! a with Some _ => Ok (<[a := v]> m) | None => Err Fault end.

(** A [k]-byte word. *)
Fixpoint ldn (k : nat) (a : Z) (m : mem_t) : res Z :=
  match k with
  | O => Ok 0
  | S k => b ← load m a; r ← ldn k (a + 1) m; Ok (b + 256 * r)
  end.

Fixpoint stn (k : nat) (a v : Z) (m : mem_t) : res mem_t :=
  match k with
  | O => Ok m
  | S k => m ← store a (v mod 256) m; stn k (a + 1) (v / 256) m
  end.

(** The word accesses of the code; a misaligned one is undefined behaviour. *)
Definition ldw (k : nat) (a : Z) (m : mem_t) : res Z :=
  if a mod Z.of_nat k =? 0 then ldn k a m else Err Fault.
Definition stw (k : nat) (a v : Z) (m : mem_t) : res mem_t :=
  if a mod Z.of_nat k =? 0 then stn k a v m else Err Fault.

(** Every cell holds a byte. *)
Definition bytes_ok (m : mem_t) : Prop := map_Forall (λ _ b, 0 ≤ b < 256) m.

(** The cells [a, a + n) are mapped. *)
Definition mapped (m : mem_t) (a n : Z) : Prop := ∀ x, a ≤ x < a + n → is_Some (m !! x).

(** [m'] is [m] with the [n] bytes from [dst] replaced by [f 0 ... f (n - 1)]. *)
Definition written (dst n : Z) (f : Z → option Z) (m m' : mem_t) : Prop :=
  ∀ a, m' !! a = if decide (dst ≤ a < dst + n) then f (a - dst) else m !! a.

(** The bytes from [src] are moved to [dst]. *)
Definition moved (dst src n : Z) (m : mem_t) : mem_t → Prop := written dst n (λ i, m !! (src + i)) m.

(** A byte value is stored [n] times. *)
Definition filled (dst n v : Z) : mem_t → mem_t → Prop := written dst n (λ _, Some v).

Lemma mapped_sub m a n b k : mapped m a n → a ≤ b → b + k ≤ a + n → mapped m b k.
Proof. intros H ?? x ?. apply H. lia. Qed.

(** The total value of [n] bytes. *)
Fixpoint word_of (m : mem_t) (k : nat) (a : Z) : Z :=
  match k with O => 0 | S k => default 0 (m !! a) + 256 * word_of m k (a + 1) end.

Lemma byte_range m a : bytes_ok m → 0 ≤ default 0 (m !! a) < 256.
Proof. intros Hb. destruct (m !! a) as [b|] eqn:E; [by apply (Hb a)|simpl; lia]. Qed.

Lemma ldn_ok k a m : mapped m a (Z.of_nat k) → ldn k a m = Ok (word_of m k a).
Proof.
  revert a. induction k as [|k IH]; intros a Hm; [done|]. cbn [ldn word_of].
  destruct (Hm a ltac:(lia)) as [b E]. rewrite (load_Some _ _ _ E). cbn [mbind res_bind].
  rewrite IH by (apply (mapped_sub _ _ _ _ _ Hm); lia). cbn [mbind res_bind]. by rewrite E.
Qed.

Lemma word_range m k a : bytes_ok m → 0 ≤ word_of m k a < 256 ^ Z.of_nat k.
Proof.
  intros Hb. revert a. induction k as [|k IH]; intros a; [simpl; lia|]. cbn [word_of].
  pose proof (byte_range m a Hb). specialize (IH (a + 1)).
  rewrite Nat2Z.inj_succ, Z.pow_succ_r by lia. nia.
Qed.

Lemma store_ok a v m : is_Some (m !! a) → store a v m = Ok (<[a := v]> m).
Proof. intros [b E]. unfold store. by rewrite E. Qed.

Lemma mapped_insert m a v x n : mapped m x n → mapped (<[a := v]> m) x n.
Proof. intros H y Hy. destruct (decide (a = y)) as [->|]; [rewrite lookup_insert_eq; eauto|]. rewrite lookup_insert_ne by done. by apply H. Qed.

Lemma bytes_insert m a v : bytes_ok m → 0 ≤ v < 256 → bytes_ok (<[a := v]> m).
Proof. intros. by apply map_Forall_insert_2. Qed.

(** Byte [i] of the value [v]. *)
Definition byte_of (v i : Z) : Z := (v / 256 ^ i) mod 256.

Lemma byte_of_0 v : byte_of v 0 = v mod 256.
Proof. unfold byte_of. by rewrite Z.pow_0_r, Z.div_1_r. Qed.

Lemma byte_of_succ v i : 0 ≤ i → byte_of v (i + 1) = byte_of (v / 256) i.
Proof.
  intros. unfold byte_of. rewrite Z.div_div by lia. rewrite <- Z.pow_succ_r by lia. done.
Qed.

Lemma stn_ok k a v m :
  mapped m a (Z.of_nat k) →
  ∃ m', stn k a v m = Ok m' ∧ written a (Z.of_nat k) (λ i, Some (byte_of v i)) m m'.
Proof.
  revert a v m. induction k as [|k IH]; intros a v m Hm.
  - exists m. split; [done|]. intros x. rewrite decide_False by lia. done.
  - cbn [stn]. rewrite store_ok by (apply Hm; lia). cbn [mbind res_bind].
    destruct (IH (a + 1) (v / 256) (<[a := v mod 256]> m)) as (m' & E & Hw).
    { apply mapped_insert, (mapped_sub _ _ _ _ _ Hm); lia. }
    exists m'. split; [done|]. intros x. rewrite Hw. destruct (decide (x = a)) as [->|Hne].
    + rewrite decide_False, lookup_insert_eq, decide_True by lia. by rewrite Z.sub_diag, byte_of_0.
    + rewrite lookup_insert_ne by done. destruct (decide (a + 1 ≤ x < a + 1 + Z.of_nat k)).
      * rewrite decide_True by lia. replace (x - a) with (x - (a + 1) + 1) by lia.
        by rewrite byte_of_succ by lia.
      * rewrite decide_False by lia. done.
Qed.

Lemma byte_of_word m k a i :
  bytes_ok m → mapped m a (Z.of_nat k) → 0 ≤ i < Z.of_nat k →
  Some (byte_of (word_of m k a) i) = m !! (a + i).
Proof.
  intros Hb. revert a i. induction k as [|k IH]; intros a i Hm Hi; [lia|]. cbn [word_of].
  pose proof (byte_range m a Hb). destruct (decide (i = 0)) as [->|Hne].
  - rewrite byte_of_0, Z.add_0_r. rewrite (Z.mul_comm 256), Z_mod_plus_full, Z.mod_small by done.
    destruct (Hm a ltac:(lia)) as [b ->]. done.
  - replace i with (i - 1 + 1) at 1 by lia. rewrite byte_of_succ by lia.
    rewrite (Z.mul_comm 256), Z_div_plus_full, Z.div_small, Z.add_0_l by lia.
    rewrite IH; [|apply (mapped_sub _ _ _ _ _ Hm); lia|lia]. f_equal. lia.
Qed.

(** A load followed by a store moves the bytes. *)
Lemma ld_st_moved k dst src m :
  bytes_ok m → src mod Z.of_nat k = 0 → dst mod Z.of_nat k = 0 → mapped m src (Z.of_nat k) → mapped m dst (Z.of_nat k) →
  ∃ v m', ldw k src m = Ok v ∧ stw k dst v m = Ok m' ∧ moved dst src (Z.of_nat k) m m'.
Proof.
  intros Hb As Ad Hs Hd. destruct (stn_ok k dst (word_of m k src) m Hd) as (m' & E & Hw).
  unfold ldw, stw. rewrite As, Ad. cbn [Z.eqb]. eexists _, m'. split; [by apply ldn_ok|]. split; [done|]. intros x. rewrite Hw.
  destruct (decide _); [|done]. by apply byte_of_word; [..|lia].
Qed.

(** ** Composition *)

Lemma written_same dst n f m : written dst n f m m ↔ ∀ a, dst ≤ a < dst + n → m !! a = f (a - dst).
Proof.
  split.
  - intros H a Ha. rewrite (H a). by rewrite decide_True.
  - intros H a. destruct (decide _); auto.
Qed.

Lemma written_nil dst f m : written dst 0 f m m.
Proof. apply written_same. lia. Qed.

Lemma written_ext dst n f g m m' :
  (∀ i, 0 ≤ i < n → f i = g i) → written dst n f m m' → written dst n g m m'.
Proof. intros H Hw a. rewrite Hw. destruct (decide _); [|done]. apply H. lia. Qed.

Lemma written_app dst n k f g m m1 m2 :
  0 ≤ n → 0 ≤ k → written dst n f m m1 → written (dst + n) k g m1 m2 →
  written dst (n + k) (λ i, if decide (i < n) then f i else g (i - n)) m m2.
Proof.
  intros ?? H1 H2 a. rewrite H2, H1.
  destruct (decide (dst + n ≤ a < dst + n + k)).
  - rewrite decide_True, decide_False by lia. f_equal. lia.
  - destruct (decide (dst ≤ a < dst + n)).
    + rewrite decide_True, decide_True by lia. done.
    + rewrite decide_False by lia. done.
Qed.

Lemma filled_app dst n k v m m1 m2 :
  0 ≤ n → 0 ≤ k → filled dst n v m m1 → filled (dst + n) k v m1 m2 → filled dst (n + k) v m m2.
Proof.
  intros ?? H1 H2. eapply written_ext; [|by eapply written_app].
  intros i _. cbv beta. by destruct (decide _).
Qed.

(** Moving upwards, the lower part first; moving downwards, the upper part first. *)
Lemma moved_up dst src n k m m1 m2 :
  0 ≤ n → 0 ≤ k → dst ≤ src → moved dst src n m m1 → moved (dst + n) (src + n) k m1 m2 →
  moved dst src (n + k) m m2.
Proof.
  intros ??? H1 H2 a. rewrite H2. destruct (decide (dst + n ≤ a < dst + n + k)).
  - rewrite decide_True by lia. rewrite H1, decide_False by lia. f_equal. lia.
  - rewrite H1. destruct (decide (dst ≤ a < dst + n)).
    + by rewrite decide_True by lia.
    + by rewrite decide_False by lia.
Qed.

Lemma moved_down dst src n k m m1 m2 :
  0 ≤ n → 0 ≤ k → src ≤ dst → moved (dst + k) (src + k) n m m1 → moved dst src k m1 m2 →
  moved dst src (n + k) m m2.
Proof.
  intros ??? H1 H2 a. rewrite H2. destruct (decide (dst ≤ a < dst + k)).
  - rewrite decide_True by lia. by rewrite H1, decide_False by lia.
  - rewrite H1. destruct (decide (dst + k ≤ a < dst + k + n)).
    + rewrite decide_True by lia. f_equal. lia.
    + by rewrite decide_False by lia.
Qed.

Lemma written_mapped dst n f m m' a k :
  (∀ i, 0 ≤ i < n → is_Some (f i)) → written dst n f m m' → mapped m a k → mapped m' a k.
Proof. intros Hf Hw H x Hx. rewrite Hw. destruct (decide _); [apply Hf; lia|by apply H]. Qed.

Lemma moved_mapped dst src n m m' a k :
  mapped m src n → moved dst src n m m' → mapped m a k → mapped m' a k.
Proof. intros Hs. apply written_mapped. intros i Hi. apply Hs. lia. Qed.

Lemma written_bytes dst n f m m' :
  (∀ i b, 0 ≤ i < n → f i = Some b → 0 ≤ b < 256) → written dst n f m m' → bytes_ok m → bytes_ok m'.
Proof.
  intros Hf Hw H a b E. rewrite Hw in E. destruct (decide _); [eapply Hf, E; lia|by apply (H a)].
Qed.

Lemma moved_bytes dst src n m m' : moved dst src n m m' → bytes_ok m → bytes_ok m'.
Proof. intros Hw H. refine (written_bytes _ _ _ _ _ _ Hw H). intros i b _ E. by apply (H _ _ E). Qed.
