(* ===== verification/Ringbuf.v ===== *)
(** * The shared ring buffer (kernel/systm/mdx_ringbuf.c)

    A sender and a receiver, on different CPUs or in different worlds, share a
    circular list of entries and keep a head pointer each; the OWN flag of an
    entry says which side may use it.  Every access to the shared memory is a step
    of its own: the test of the flags, each byte of a message that is written or
    read, the fill field, and in [mdx_ringbuf_submit] the load and the store of the
    flags and the advance of the head.  [ring_is_a_queue] shows that, under every
    interleaving of these steps, the ring is a bounded first-in first-out queue.
    The memory is sequentially consistent: the code has no barriers. *)

From S2P Require Import Prelude Memory.
Local Open Scope Z_scope.

Definition MDX_RINGBUF_OWN : Z := 2.
Definition MDX_RINGBUF_ROLE_RECVER : Z := 0.
Definition MDX_RINGBUF_ROLE_SENDER : Z := 1.

(** struct mdx_ringbuf *)
Record ringbuf := {
  rb_buf : Z;
  rb_bufsize : Z;
  rb_fill : Z;
  rb_flags : Z;
  rb_next : Z
}.

(** struct mdx_ringbuf_softc *)
Record softc := { sc_head : Z; sc_nentries : Z; sc_role : Z }.

Definition rb_set_fill (v : Z) (rb : ringbuf) : ringbuf :=
  {| rb_buf := rb_buf rb; rb_bufsize := rb_bufsize rb; rb_fill := v; rb_flags := rb_flags rb;
     rb_next := rb_next rb |}.
Definition rb_set_flags (v : Z) (rb : ringbuf) : ringbuf :=
  {| rb_buf := rb_buf rb; rb_bufsize := rb_bufsize rb; rb_fill := rb_fill rb; rb_flags := v;
     rb_next := rb_next rb |}.

Abbreviation message := (list Z).

Section Model.
Context (RB_S : Z).   (* sizeof(struct mdx_ringbuf) *)

(** [&rb[i]] *)
Definition entry (base i : Z) : Z := base + i * RB_S.

(** The body of the loop of mdx_ringbuf_init for entry [i]. *)
Definition init_entry (base buf n entry_bufsize i : Z) : ringbuf :=
  {| rb_buf := buf + entry_bufsize * i; rb_bufsize := entry_bufsize; rb_fill := 0; rb_flags := 0;
     rb_next := if i =? n - 1 then entry base 0 else entry base (i + 1) |}.

Definition init_loop (base buf n entry_bufsize : Z) (m : gmap Z ringbuf) : gmap Z ringbuf :=
  foldl (λ m i, <[entry base i := init_entry base buf n entry_bufsize i]> m) m (seqZ 0 n).

Definition mdx_ringbuf_init (base basesize buf bufsize : Z) (m : gmap Z ringbuf) :
    res (softc * gmap Z ringbuf) :=
  kassert (0 <? basesize);;
  let n := basesize / RB_S in
  if n =? 0 then Err Fault (* division by zero *) else
  let entry_bufsize := bufsize / n in
  Ok ({| sc_head := entry base 0; sc_nentries := n; sc_role := MDX_RINGBUF_ROLE_SENDER |},
      init_loop base buf n entry_bufsize m).

(** mdx_ringbuf_join() leaves [nentries] as it is. *)
Definition mdx_ringbuf_join (base : Z) (sc : softc) : softc :=
  {| sc_head := entry base 0; sc_nentries := sc_nentries sc; sc_role := MDX_RINGBUF_ROLE_RECVER |}.

(** [Some rb] when the call returns 0, [None] for MDX_ERROR. *)
Definition mdx_ringbuf_head (sc : softc) (m : gmap Z ringbuf) : res (option Z) :=
  rb ← load m (sc_head sc);
  if (sc_role sc =? MDX_RINGBUF_ROLE_SENDER) && negb (Z.land (rb_flags rb) MDX_RINGBUF_OWN =? 0)
  then Ok None else
  if (sc_role sc =? MDX_RINGBUF_ROLE_RECVER) && (Z.land (rb_flags rb) MDX_RINGBUF_OWN =? 0)
  then Ok None else
  Ok (Some (sc_head sc)).

(** mdx_ringbuf_submit(), one access to the shared memory after the other: where it is,
    and the next place ([None]: it has returned). *)
Inductive submit_pc := SubLoad | SubStore (flags : Z) | SubNext.

Definition mdx_ringbuf_submit (pc : submit_pc) (sc : softc) (m : gmap Z ringbuf) :
    res (option submit_pc * softc * gmap Z ringbuf) :=
  rb ← load m (sc_head sc);
  match pc with
  | SubLoad => Ok (Some (SubStore (rb_flags rb)), sc, m)
  | SubStore flags =>
    let flags := if sc_role sc =? MDX_RINGBUF_ROLE_SENDER then Z.lor flags MDX_RINGBUF_OWN
                 else Z.ldiff flags MDX_RINGBUF_OWN in
    Ok (Some SubNext, sc, <[sc_head sc := rb_set_flags flags rb]> m)
  | SubNext =>
    Ok (None, {| sc_head := rb_next rb; sc_nentries := sc_nentries sc; sc_role := sc_role sc |}, m)
  end.

(** ** The two sides

    A message is the bytes in the buffer of its entry, and their number in the fill
    field. *)

(** The sender: calls mdx_ringbuf_head, writes the bytes and the fill field, submits. *)
Inductive tx_pc := TxHead | TxFill (msg : message) (j : nat) | TxSubmit (msg : message) (pc : submit_pc).
(** The receiver: calls mdx_ringbuf_head, reads the fill field and the bytes, submits. *)
Inductive rx_pc := RxHead | RxLen | RxRead (len : Z) (got : message) | RxSubmit (got : message) (pc : submit_pc).

Record link := {
  l_tx : softc; l_txpc : tx_pc; l_todo : list message;   (** messages to send *)
  l_rx : softc; l_rxpc : rx_pc;
  l_mem : gmap Z ringbuf; l_data : mem_t                 (** shared *)
}.

(** What happened: a message was submitted or taken, or mdx_ringbuf_head returned an
    error to the sender or the receiver. *)
Inductive event := Put (msg : message) | Full | Take (msg : message) | Empty.

Definition tx_to (sc : softc) (pc : tx_pc) (todo : list message) (m : gmap Z ringbuf) (d : mem_t) (l : link) : link :=
  {| l_tx := sc; l_txpc := pc; l_todo := todo; l_rx := l_rx l; l_rxpc := l_rxpc l; l_mem := m; l_data := d |}.
Definition rx_to (sc : softc) (pc : rx_pc) (m : gmap Z ringbuf) (l : link) : link :=
  {| l_tx := l_tx l; l_txpc := l_txpc l; l_todo := l_todo l; l_rx := sc; l_rxpc := pc; l_mem := m; l_data := l_data l |}.

(** The next step of the sender; when the ring is full it will try again. *)
Definition tx_step (l : link) : res (option event * link) :=
  let sc := l_tx l in
  match l_txpc l with
  | TxHead =>
    match l_todo l with
    | [] => Ok (None, l)
    | msg :: todo =>
      h ← mdx_ringbuf_head sc (l_mem l);
      match h with
      | None => Ok (Some Full, l)
      | Some _ => Ok (None, tx_to sc (TxFill msg 0) todo (l_mem l) (l_data l) l)
      end
    end
  | TxFill msg j =>
    rb ← load (l_mem l) (sc_head sc);
    match msg !! j with
    | Some b =>
      d ← store (rb_buf rb + Z.of_nat j) b (l_data l);
      Ok (None, tx_to sc (TxFill msg (S j)) (l_todo l) (l_mem l) d l)
    | None =>
      let m := <[sc_head sc := rb_set_fill (Z.of_nat (length msg)) rb]> (l_mem l) in
      Ok (None, tx_to sc (TxSubmit msg SubLoad) (l_todo l) m (l_data l) l)
    end
  | TxSubmit msg pc =>
    '(pc', sc, m) ← mdx_ringbuf_submit pc sc (l_mem l);
    Ok (match pc with SubStore _ => Some (Put msg) | _ => None end,
        tx_to sc (match pc' with Some pc => TxSubmit msg pc | None => TxHead end) (l_todo l) m (l_data l) l)
  end.

(** The next step of the receiver. *)
Definition rx_step (l : link) : res (option event * link) :=
  let sc := l_rx l in
  match l_rxpc l with
  | RxHead =>
    h ← mdx_ringbuf_head sc (l_mem l);
    match h with
    | None => Ok (Some Empty, l)
    | Some _ => Ok (None, rx_to sc RxLen (l_mem l) l)
    end
  | RxLen =>
    rb ← load (l_mem l) (sc_head sc);
    Ok (None, rx_to sc (RxRead (rb_fill rb) []) (l_mem l) l)
  | RxRead len got =>
    if Z.of_nat (length got) <? len then
      rb ← load (l_mem l) (sc_head sc);
      b ← load (l_data l) (rb_buf rb + Z.of_nat (length got));
      Ok (None, rx_to sc (RxRead len (got ++ [b])) (l_mem l) l)
    else Ok (None, rx_to sc (RxSubmit got SubLoad) (l_mem l) l)
  | RxSubmit got pc =>
    '(pc', sc, m) ← mdx_ringbuf_submit pc sc (l_mem l);
    Ok (match pc with SubStore _ => Some (Take got) | _ => None end,
        rx_to sc (match pc' with Some pc => RxSubmit got pc | None => RxHead end) m l)
  end.

Inductive side := Tx | Rx.

(** A run under a schedule: the events in their order. *)
Fixpoint run (sched : list side) (l : link) : res (list event * link) :=
  match sched with
  | [] => Ok ([], l)
  | x :: sched =>
    '(e, l) ← (match x with Tx => tx_step l | Rx => rx_step l end);
    '(t, l) ← run sched l;
    Ok (option_list e ++ t, l)
  end.

(** ** The specification: a queue of at most [n] messages *)

(** The queue after an event, when the queue allows it. *)
Definition queue_step (n : Z) (e : event) (q : list message) : option (list message) :=
  match e, q with
  | Put msg, _ => if decide (Z.of_nat (length q) < n) then Some (q ++ [msg]) else None
  | Full, _ => if decide (Z.of_nat (length q) = n) then Some q else None
  | Take msg, x :: q => if decide (msg = x) then Some q else None
  | Take _, [] => None
  | Empty, [] => Some []
  | Empty, _ :: _ => None
  end.

Fixpoint queue_run (n : Z) (t : list event) (q : list message) : option (list message) :=
  match t with
  | [] => Some q
  | e :: t => q ← queue_step n e q; queue_run n t q
  end.

(** The messages submitted. *)
Definition puts (t : list event) : list message := omap (λ e, match e with Put msg => Some msg | _ => None end) t.
End Model.

(** ** The ring as a queue *)

Section Proofs.
Context (RB_S base n buf eb : Z) (HS : 0 < RB_S) (Hn : 0 < n).

(** Entry number [c] of the endless sequence of entries, and its buffer. *)
Definition pos (c : Z) : Z := entry RB_S base (c mod n).
Definition area (c : Z) : Z := buf + eb * (c mod n).

Definition bytes_at (d : mem_t) (a : Z) (v : message) : Prop := ∀ j b, v !! j = Some b → d !! (a + Z.of_nat j) = Some b.

(** Entry number [c] holds the message [o], or belongs to the sender. *)
Definition slot (m : gmap Z ringbuf) (d : mem_t) (c : Z) (o : option message) : Prop :=
  ∃ rb, m !! pos c = Some rb ∧ rb_next rb = pos (c + 1) ∧ rb_buf rb = area c ∧
    match o with
    | Some v => rb_flags rb = MDX_RINGBUF_OWN ∧ rb_fill rb = Z.of_nat (length v) ∧ bytes_at d (area c) v
    | None => rb_flags rb = 0
    end.

(** The fill field of entry number [c]. *)
Definition filled_to (m : gmap Z ringbuf) (c v : Z) : Prop := ∃ rb, m !! pos c = Some rb ∧ rb_fill rb = v.

(** Where the sender is when the next free entry is number [t], among [k] in use. *)
Definition tx_at (m : gmap Z ringbuf) (d : mem_t) (sc : softc) (pc : tx_pc) (t k : Z) : Prop :=
  sc_role sc = MDX_RINGBUF_ROLE_SENDER ∧
  match pc with
  | TxHead => sc_head sc = pos t
  | TxFill msg j => sc_head sc = pos t ∧ k < n ∧ Z.of_nat (length msg) ≤ eb ∧ bytes_at d (area t) (take j msg)
  | TxSubmit msg SubNext => sc_head sc = pos (t - 1)
  | TxSubmit msg pc =>
    sc_head sc = pos t ∧ k < n ∧ Z.of_nat (length msg) ≤ eb ∧ bytes_at d (area t) msg ∧
    filled_to m t (Z.of_nat (length msg)) ∧ match pc with SubStore f => f = 0 | _ => True end
  end.

(** Where the receiver is when the oldest message is in entry number [c]. *)
Definition rx_at (sc : softc) (pc : rx_pc) (c : Z) (q : list message) : Prop :=
  sc_role sc = MDX_RINGBUF_ROLE_RECVER ∧
  match pc with
  | RxHead => sc_head sc = pos c
  | RxLen => sc_head sc = pos c ∧ q ≠ []
  | RxRead len got => sc_head sc = pos c ∧ ∃ v, head q = Some v ∧ len = Z.of_nat (length v) ∧ got `prefix_of` v
  | RxSubmit got SubNext => sc_head sc = pos (c - 1)
  | RxSubmit got pc => sc_head sc = pos c ∧ head q = Some got ∧ match pc with SubStore f => f = MDX_RINGBUF_OWN | _ => True end
  end.

(** The queue [q] is in the entries from number [c] on. *)
Record ring_inv (l : link) (c : Z) (q : list message) : Prop := {
  ri_len : Z.of_nat (length q) ≤ n;
  ri_fit : Forall (λ v, Z.of_nat (length v) ≤ eb) q;
  ri_slots : ∀ k, 0 ≤ k < n → slot (l_mem l) (l_data l) (c + k) (q !! Z.to_nat k);
  ri_mapped : mapped (l_data l) buf (eb * n);
  ri_todo : Forall (λ v, Z.of_nat (length v) ≤ eb) (l_todo l);
  ri_tx : tx_at (l_mem l) (l_data l) (l_tx l) (l_txpc l) (c + Z.of_nat (length q)) (Z.of_nat (length q));
  ri_rx : rx_at (l_rx l) (l_rxpc l) c q
}.

Lemma pos_inj i j : pos i = pos j → i mod n = j mod n.
Proof. unfold pos, entry. intros E. apply (Z.mul_reg_r _ _ RB_S); lia. Qed.

(** Entries less than [n] apart are different. *)
Lemma near_ne i j : i ≠ j → Z.abs (i - j) < n → i mod n ≠ j mod n.
Proof.
  intros Hne Hd E. assert ((i - j) mod n = 0) as E0 by (by rewrite Zminus_mod, E, Z.sub_diag, Zmod_0_l).
  apply Z.mod_divide in E0 as [z E0]; [|lia].
  destruct (Z.lt_trichotomy z 0) as [|[->|]]; [nia|lia|nia].
Qed.

Lemma pos_wrap c k : pos (c + n * k) = pos c.
Proof. unfold pos. by rewrite Z.mul_comm, Z_mod_plus_full. Qed.
Lemma area_wrap c k : area (c + n * k) = area c.
Proof. unfold area. by rewrite (Z.mul_comm n), Z_mod_plus_full. Qed.

Lemma slot_wrap m d c o : slot m d (c + n) o ↔ slot m d c o.
Proof.
  unfold slot. replace (c + n + 1) with (c + 1 + n * 1) by lia. replace (c + n) with (c + n * 1) by lia.
  by rewrite !pos_wrap, area_wrap.
Qed.

(** Another entry was written. *)
Lemma slot_other m d i j rb o : i mod n ≠ j mod n → slot m d i o → slot (<[pos j := rb]> m) d i o.
Proof.
  intros Hij (r & E & H). exists r. rewrite lookup_insert_ne; [done|]. intros Ej. by apply Hij, pos_inj.
Qed.

(** A byte of another entry's buffer was written. *)
Lemma area_apart i j x y : i mod n ≠ j mod n → 0 ≤ x < eb → 0 ≤ y < eb → area i + x ≠ area j + y.
Proof. unfold area. intros Hij Hx Hy E. apply Hij. nia. Qed.

Lemma slot_data m d i j y b o : i mod n ≠ j mod n → 0 ≤ y < eb →
  match o with Some v => Z.of_nat (length v) ≤ eb | None => True end →
  slot m d i o → slot m (<[area j + y := b]> d) i o.
Proof.
  intros Hij Hy Ho (r & E & En & Eb & H). exists r. split_and!; [done..|]. destruct o as [v|]; [|done].
  destruct H as (Hf & Hl & Hv). split_and!; [done..|]. intros k x Hk. rewrite lookup_insert_ne; [by apply Hv|].
  apply lookup_lt_Some in Hk. apply not_eq_sym. apply area_apart; [done|lia|done].
Qed.

Lemma message_snoc d a v j b : bytes_at d a (take j v) → v !! j = Some b →
  bytes_at (<[a + Z.of_nat j := b]> d) a (take (S j) v).
Proof.
  intros Hv Hj i x Hi. apply lookup_take_Some in Hi as [Hi Hlt]. destruct (decide (i = j)) as [->|Hne].
  - rewrite lookup_insert_eq. congruence.
  - rewrite lookup_insert_ne by lia. apply Hv. rewrite lookup_take_lt by lia. done.
Qed.

(** mdx_ringbuf_head of the two sides. *)
Lemma tx_head_ok m d sc c o :
  slot m d c o → sc_head sc = pos c → sc_role sc = MDX_RINGBUF_ROLE_SENDER →
  mdx_ringbuf_head sc m = Ok (match o with Some _ => None | None => Some (pos c) end).
Proof.
  intros (rb & E & _ & _ & H) Hh Hr. unfold mdx_ringbuf_head. rewrite Hh, Hr, (load_Some _ _ _ E), Ok_bind.
  destruct o as [v|]; [destruct H as [-> _]|rewrite H]; done.
Qed.

Lemma rx_head_ok m d sc c o :
  slot m d c o → sc_head sc = pos c → sc_role sc = MDX_RINGBUF_ROLE_RECVER →
  mdx_ringbuf_head sc m = Ok (match o with Some _ => Some (pos c) | None => None end).
Proof.
  intros (rb & E & _ & _ & H) Hh Hr. unfold mdx_ringbuf_head. rewrite Hh, Hr, (load_Some _ _ _ E), Ok_bind.
  destruct o as [v|]; [destruct H as [-> _]|rewrite H]; done.
Qed.

(** The entry after the last message: full or free. *)
Lemma slot_tail l c q : ring_inv l c q →
  slot (l_mem l) (l_data l) (c + Z.of_nat (length q)) (if decide (Z.of_nat (length q) < n) then None else head q).
Proof.
  intros HI. pose proof (ri_len _ _ _ HI). case_decide as Hlt.
  - pose proof (ri_slots _ _ _ HI (Z.of_nat (length q)) ltac:(lia)) as Hs.
    by rewrite lookup_ge_None_2 in Hs by lia.
  - replace (Z.of_nat (length q)) with n by lia. apply slot_wrap.
    pose proof (ri_slots _ _ _ HI 0 ltac:(lia)) as Hs. rewrite Z.add_0_r in Hs.
    change (Z.to_nat 0) with 0%nat in Hs. by rewrite <- head_lookup in Hs.
Qed.

Lemma slot_head l c q : ring_inv l c q → slot (l_mem l) (l_data l) c (head q).
Proof.
  intros HI. pose proof (ri_slots _ _ _ HI 0 ltac:(lia)) as Hs. rewrite Z.add_0_r in Hs.
    change (Z.to_nat 0) with 0%nat in Hs. by rewrite <- head_lookup in Hs.
Qed.

(** The sender is not disturbed by what the receiver does, nor the other way round. *)
Lemma tx_at_take m d sc pc c (x : message) (q : list message) rb :
  Z.of_nat (length (x :: q)) ≤ n →
  tx_at m d sc pc (c + Z.of_nat (length (x :: q))) (Z.of_nat (length (x :: q))) →
  tx_at (<[pos c := rb]> m) d sc pc (c + 1 + Z.of_nat (length q)) (Z.of_nat (length q)).
Proof.
  cbn [length]. rewrite Nat2Z.inj_succ. intros Hl [Hr H]. split; [done|].
  replace (c + Z.succ (Z.of_nat (length q))) with (c + 1 + Z.of_nat (length q)) in H by lia.
  assert (∀ v, Z.succ (Z.of_nat (length q)) < n → filled_to m (c + 1 + Z.of_nat (length q)) v →
    filled_to (<[pos c := rb]> m) (c + 1 + Z.of_nat (length q)) v) as HF.
  { intros v Hlt (r & E & Ev). exists r. rewrite lookup_insert_ne; [done|].
    intros E2%pos_inj. apply (near_ne c (c + 1 + Z.of_nat (length q))); [lia|lia|done]. }
  destruct pc as [|msg j|msg []]; naive_solver lia.
Qed.

Lemma rx_at_put sc pc c q x : rx_at sc pc c q → rx_at sc pc c (q ++ [x]).
Proof.
  intros [Hr H]. split; [done|]. destruct pc as [| |len got|got []]; try done.
  - destruct H as [? Hq]. split; [done|]. by destruct q.
  - destruct H as (? & v & Hq & ?). split; [done|]. exists v. by destruct q.
  - destruct H as (? & Hq & ?). split; [done|]. by destruct q.
  - destruct H as (? & Hq & ?). split; [done|]. by destruct q.
Qed.
(** The messages not submitted yet. *)
Definition pending (l : link) : list message :=
  match l_txpc l with TxFill msg _ | TxSubmit msg SubLoad | TxSubmit msg (SubStore _) => [msg] | _ => [] end ++ l_todo l.

(** A step is allowed by the queue, and the messages are submitted in their order. *)
Definition good_step (l : link) (q : list message) (e : option event) (l' : link) : Prop :=
  ∃ c' q', match e with Some e => queue_step n e q = Some q' | None => q' = q end ∧
    ring_inv l' c' q' ∧ pending l = puts (option_list e) ++ pending l'.

(** Entry number [c + length q] was given a message and the OWN flag. *)
Lemma slots_put m d c (q : list message) msg rb :
  Z.of_nat (length q) < n → (∀ k, 0 ≤ k < n → slot m d (c + k) (q !! Z.to_nat k)) →
  slot (<[pos (c + Z.of_nat (length q)) := rb]> m) d (c + Z.of_nat (length q)) (Some msg) →
  ∀ k, 0 ≤ k < n → slot (<[pos (c + Z.of_nat (length q)) := rb]> m) d (c + k) ((q ++ [msg]) !! Z.to_nat k).
Proof.
  intros Hlt Hs Hn' k Hk. destruct (decide (k = Z.of_nat (length q))) as [->|Hne].
  - rewrite lookup_app_r by lia. rewrite Nat2Z.id, Nat.sub_diag. exact Hn'.
  - apply slot_other. { apply near_ne; lia. }
    specialize (Hs k Hk). destruct (decide (k < Z.of_nat (length q))).
    + by rewrite lookup_app_l by lia.
    + rewrite (lookup_ge_None_2 q) in Hs by lia.
      rewrite lookup_ge_None_2 by (rewrite length_app; cbn [length]; lia). done.
Qed.

(** Entry number [c] lost the OWN flag. *)
Lemma slots_take m d c x (q : list message) rb :
  Z.of_nat (length (x :: q)) ≤ n → (∀ k, 0 ≤ k < n → slot m d (c + k) ((x :: q) !! Z.to_nat k)) →
  slot (<[pos c := rb]> m) d c None →
  ∀ k, 0 ≤ k < n → slot (<[pos c := rb]> m) d (c + 1 + k) (q !! Z.to_nat k).
Proof.
  cbn [length]. intros Hl Hs Hn' k Hk. destruct (decide (k = n - 1)) as [->|Hne].
  - replace (c + 1 + (n - 1)) with (c + n) by lia. apply slot_wrap.
    by rewrite lookup_ge_None_2 by lia.
  - apply slot_other. { apply near_ne; lia. }
    specialize (Hs (k + 1) ltac:(lia)). replace (Z.to_nat (k + 1)) with (S (Z.to_nat k)) in Hs by lia.
    by replace (c + 1 + k) with (c + (k + 1)) by lia.
Qed.

(** The sender wrote into its entry: other entries, and the receiver, do not notice. *)
Lemma slots_fill m d c (q : list message) v rb :
  Z.of_nat (length q) < n → (∀ k, 0 ≤ k < n → slot m d (c + k) (q !! Z.to_nat k)) →
  m !! pos (c + Z.of_nat (length q)) = Some rb →
  ∀ k, 0 ≤ k < n → slot (<[pos (c + Z.of_nat (length q)) := rb_set_fill v rb]> m) d (c + k) (q !! Z.to_nat k).
Proof.
  intros Hlt Hs E k Hk. destruct (decide (k = Z.of_nat (length q))) as [->|Hne].
  - specialize (Hs _ Hk). rewrite lookup_ge_None_2 in Hs |- * by lia.
    destruct Hs as (r & E' & H). rewrite E in E'. injection E' as <-.
    eexists. split; [apply lookup_insert_eq|]. exact H.
  - apply slot_other; [apply near_ne; lia|by apply Hs].
Qed.

Lemma slots_byte m d c (q : list message) y b :
  Z.of_nat (length q) < n → 0 ≤ y < eb → Forall (λ v, Z.of_nat (length v) ≤ eb) q →
  (∀ k, 0 ≤ k < n → slot m d (c + k) (q !! Z.to_nat k)) →
  ∀ k, 0 ≤ k < n → slot m (<[area (c + Z.of_nat (length q)) + y := b]> d) (c + k) (q !! Z.to_nat k).
Proof.
  intros Hlt Hy HF Hs k Hk. specialize (Hs k Hk). destruct (decide (k = Z.of_nat (length q))) as [->|Hne].
  - rewrite lookup_ge_None_2 in Hs |- * by lia. exact Hs.
  - apply slot_data; [apply near_ne; lia|done| |done].
    destruct (q !! Z.to_nat k) as [v|] eqn:E; [|done]. by eapply Forall_lookup_1 in HF.
Qed.

Lemma area_mapped d c y : mapped d buf (eb * n) → 0 ≤ y < eb → is_Some (d !! (area c + y)).
Proof.
  intros Hm Hy. apply Hm. unfold area. pose proof (Z.mod_pos_bound c n Hn). nia.
Qed.

Lemma tx_step_ok l c q : ring_inv l c q → ∃ e l', tx_step l = Ok (e, l') ∧ good_step l q e l'.
Proof.
  intros HI. pose proof (slot_tail l c q HI) as Hsl. pose proof HI as [Hl HF Hs Hm Htodo [Hr Ht] Hrx].
  unfold tx_step, good_step. destruct (l_txpc l) as [|msg j|msg pc] eqn:Epc.
  - (* mdx_ringbuf_head *)
    destruct (l_todo l) as [|msg todo] eqn:Etd; [by exists None, l; split; [|exists c, q]|].
    rewrite (tx_head_ok _ _ _ _ _ Hsl Ht Hr), Ok_bind. case_decide as Hlt.
    + eexists None, _. split; [done|]. exists c, q. split; [done|]. split; [|unfold pending; by rewrite Epc, Etd].
      apply Forall_cons in Htodo as [Hmsg Htodo]. split; [done..|split; [done|]; split_and!; done|done].
    + assert (Z.of_nat (length q) = n) as Eq by lia. destruct q as [|x q]; [cbn in Eq; lia|].
      cbn [head]. eexists (Some Full), l. split; [done|]. exists c, (x :: q). split; [|done]. cbn [queue_step].
      by rewrite decide_True.
  - (* a byte, or the fill field *)
    destruct Ht as (Hh & Hlt & Hmsg & Hb). rewrite decide_True in Hsl by done. pose proof Hsl as (rb & E & En & Eb & Ef).
    rewrite Hh, (load_Some _ _ _ E), Ok_bind. destruct (msg !! j) as [b|] eqn:Ej.
    + apply lookup_lt_Some in Ej as Hj. rewrite Eb, store_ok by (apply area_mapped; [done|lia]). rewrite Ok_bind.
      eexists None, _. split; [done|]. exists c, q. split; [done|]. split; [|unfold pending; by rewrite Epc].
      split; try done; cbn [l_mem l_data tx_to l_tx l_txpc].
      * apply slots_byte; try done. lia.
      * by apply mapped_insert.
      * split; [done|]. split_and!; try done. by apply message_snoc.
    + eexists None, _. split; [done|]. exists c, q. split; [done|]. split; [|unfold pending; by rewrite Epc].
      apply lookup_ge_None in Ej. rewrite take_ge in Hb by lia.
      split; try done; cbn [l_mem l_data tx_to l_tx l_txpc].
      * by apply slots_fill.
      * split; [done|]. split_and!; try done. eexists. split; [apply lookup_insert_eq|done].
  - (* mdx_ringbuf_submit *)
    destruct pc as [|f|].
    + destruct Ht as (Hh & Hlt & Hmsg & Hb & Hfi & _). rewrite decide_True in Hsl by done. pose proof Hsl as (rb & E & En & Eb & Ef).
      unfold mdx_ringbuf_submit. rewrite Hh, (load_Some _ _ _ E), !Ok_bind.
      eexists None, _. split; [done|]. exists c, q. split; [done|]. split; [|unfold pending; by rewrite Epc].
      split; [done..|split; [done|]; split_and!; done|done].
    + destruct Ht as (Hh & Hlt & Hmsg & Hb & (rb & E & Efl) & ->). rewrite decide_True in Hsl by done.
      pose proof Hsl as (rb' & E' & En & Eb & Ef). rewrite E in E'. injection E' as <-.
      unfold mdx_ringbuf_submit. rewrite Hh, Hr, (load_Some _ _ _ E), !Ok_bind.
      change (MDX_RINGBUF_ROLE_SENDER =? MDX_RINGBUF_ROLE_SENDER) with true. cbv beta iota zeta.
      eexists (Some (Put msg)), _. split; [done|]. exists c, (q ++ [msg]).
      split; [cbn [queue_step]; by rewrite decide_True|]. split; [|unfold pending; by rewrite Epc].
      assert (Z.of_nat (length (q ++ [msg])) = Z.of_nat (length q) + 1) as EL by (rewrite length_app; cbn [length]; lia).
      split; cbn [l_mem l_data tx_to l_tx l_txpc l_rx l_rxpc l_todo]; try done; rewrite ?EL.
      * lia.
      * apply Forall_app. split; [done|by constructor].
      * apply slots_put; [done..|]. eexists. split; [apply lookup_insert_eq|]. done.
      * split; [done|]. rewrite Z.add_assoc, Z.add_simpl_r. done.
      * by apply rx_at_put.
    + pose proof (ri_slots _ _ _ HI ((Z.of_nat (length q) - 1) mod n) ltac:(by apply Z.mod_pos_bound)) as (rb & E & En & _).
      assert (pos (c + (Z.of_nat (length q) - 1) mod n) = pos (c + Z.of_nat (length q) - 1)) as Ep.
      { unfold pos. rewrite Zplus_mod_idemp_r. do 2 f_equal. lia. }
      assert (pos (c + (Z.of_nat (length q) - 1) mod n + 1) = pos (c + Z.of_nat (length q))) as Ep2.
      { unfold pos. rewrite <- Z.add_assoc, (Z.add_comm _ 1), Z.add_assoc, Zplus_mod_idemp_r. do 2 f_equal. lia. }
      rewrite Ep in E. rewrite Ep2 in En. unfold mdx_ringbuf_submit. rewrite Ht, (load_Some _ _ _ E), !Ok_bind.
      eexists None, _. split; [done|]. exists c, q. split; [done|]. split; [|unfold pending; by rewrite Epc].
      split; [done..|split; done|done].
Qed.

Lemma rx_step_ok l c q : ring_inv l c q → ∃ e l', rx_step l = Ok (e, l') ∧ good_step l q e l'.
Proof.
  intros HI. pose proof (slot_head l c q HI) as Hsl. pose proof HI as [Hl HF Hs Hm Htodo Htx [Hr Ht]].
  unfold rx_step, good_step. destruct (l_rxpc l) as [| |len got|got pc] eqn:Epc.
  - (* mdx_ringbuf_head *)
    rewrite (rx_head_ok _ _ _ _ _ Hsl Ht Hr), Ok_bind. destruct q as [|x q]; cbn [head].
    + exists (Some Empty), l. split; [done|]. by exists c, [].
    + eexists None, _. split; [done|]. exists c, (x :: q). split; [done|]. split; [|done]. split; [done..|]. split; [done|]. by split.
  - (* the fill field *)
    destruct Ht as [Hh Hq]. destruct q as [|x q]; [done|]. pose proof Hsl as (rb & E & En & Eb & Ef & Ev & Hv).
    rewrite Hh, (load_Some _ _ _ E), Ok_bind. eexists None, _. split; [done|]. exists c, (x :: q). split; [done|].
    split; [|done]. split; try done. split; [done|]. split; [done|]. exists x. split_and!; [done|done|apply prefix_nil].
  - (* a byte *)
    destruct Ht as (Hh & x & Hx & -> & k & ->). destruct q as [|y q]; [done|]. injection Hx as ->.
    pose proof Hsl as (rb & E & En & Eb & Ef & Ev & Hv).
    destruct (Z.ltb_spec (Z.of_nat (length got)) (Z.of_nat (length (got ++ k)))) as [Hlt|Hge].
    + destruct k as [|b k]; [rewrite app_nil_r in Hlt; lia|].
      rewrite Hh, (load_Some _ _ _ E), Ok_bind, Eb.
      rewrite (load_Some (l_data l) _ b) by (apply Hv; by apply list_lookup_middle). rewrite Ok_bind.
      eexists None, _. split; [done|]. eexists c, _. split; [done|]. split; [|done]. split; [done..|].
      split; [done|]. split; [done|]. eexists. split_and!; [done|done|]. exists k. by rewrite <- app_assoc.
    + destruct k as [|b k]; [|rewrite length_app in Hge; cbn [length] in Hge; lia]. rewrite app_nil_r in *.
      eexists None, _. split; [done|]. eexists c, _. split; [done|]. split; [|done]. split; [done..|]. split; [done|]. by split.
  - (* mdx_ringbuf_submit *)
    destruct pc as [|f|].
    + destruct Ht as (Hh & Hx & _). destruct q as [|y q]; [done|]. injection Hx as ->.
      pose proof Hsl as (rb & E & En & Eb & Ef & Ev & Hv).
      unfold mdx_ringbuf_submit. rewrite Hh, (load_Some _ _ _ E), !Ok_bind.
      eexists None, _. split; [done|]. eexists c, _. split; [done|]. split; [|done]. split; [done..|]. split; [done|]. by split.
    + destruct Ht as (Hh & Hx & ->). destruct q as [|y q]; [done|]. injection Hx as ->.
      pose proof Hsl as (rb & E & En & Eb & Ef & Ev & Hv).
      unfold mdx_ringbuf_submit. rewrite Hh, Hr, (load_Some _ _ _ E), !Ok_bind.
      change (MDX_RINGBUF_ROLE_RECVER =? MDX_RINGBUF_ROLE_SENDER) with false. cbv beta iota zeta.
      eexists (Some (Take got)), _. split; [done|]. exists (c + 1), q.
      split; [cbn [queue_step]; by rewrite decide_True|]. split; [|done].
      split; cbn [l_mem l_data rx_to l_tx l_txpc l_rx l_rxpc l_todo]; try done.
      * cbn [length] in Hl. lia.
      * by apply Forall_cons in HF as [_ ?].
      * apply (slots_take _ _ _ got); [done..|]. eexists. split; [apply lookup_insert_eq|]. done.
      * by eapply tx_at_take.
      * split; [done|]. by rewrite Z.add_simpl_r.
    + pose proof (ri_slots _ _ _ HI (n - 1) ltac:(lia)) as (rb & E & En & _).
      assert (pos (c + (n - 1)) = pos (c - 1)) as Ep.
      { unfold pos. replace (c + (n - 1)) with (c - 1 + 1 * n) by lia. by rewrite Z_mod_plus_full. }
      assert (pos (c + (n - 1) + 1) = pos c) as Ep2.
      { unfold pos. replace (c + (n - 1) + 1) with (c + 1 * n) by lia. by rewrite Z_mod_plus_full. }
      rewrite Ep in E. rewrite Ep2 in En. unfold mdx_ringbuf_submit. rewrite Ht, (load_Some _ _ _ E), !Ok_bind.
      eexists None, _. split; [done|]. exists c, q. split; [done|]. split; [|done]. split; [done..|]. by split.
Qed.

Lemma run_ok sched : ∀ l c q, ring_inv l c q →
  ∃ t l' q', run sched l = Ok (t, l') ∧ queue_run n t q = Some q' ∧ pending l = puts t ++ pending l'.
Proof.
  induction sched as [|x sched IH]; intros l c q HI; cbn [run]; [by exists [], l, q|].
  assert (∃ e l', (match x with Tx => tx_step l | Rx => rx_step l end) = Ok (e, l') ∧ good_step l q e l')
    as (e & l1 & -> & c1 & q1 & Hq & HI1 & Hp) by (destruct x; [by eapply tx_step_ok|by eapply rx_step_ok]).
  rewrite Ok_bind. cbv beta iota. destruct (IH l1 c1 q1 HI1) as (t & l2 & q2 & -> & Et & Hp2). rewrite Ok_bind.
  exists (option_list e ++ t), l2, q2. split; [done|]. rewrite Hp, Hp2, app_assoc. unfold puts. rewrite omap_app.
  split; [|done]. destruct e as [e|]; cbn; [by rewrite Hq|by subst].
Qed.

(** ** mdx_ringbuf_init() and mdx_ringbuf_join() *)

Lemma init_loop_lookup m i : 0 ≤ i < n →
  init_loop RB_S base buf n eb m !! entry RB_S base i = Some (init_entry RB_S base buf n eb i).
Proof.
  intros Hi. unfold init_loop.
  assert (∀ l (m : gmap Z ringbuf), foldl (λ m i, <[entry RB_S base i := init_entry RB_S base buf n eb i]> m) m l !! entry RB_S base i =
    if decide (i ∈ l) then Some (init_entry RB_S base buf n eb i) else m !! entry RB_S base i) as Hl.
  { clear m. induction l as [|j l IH]; intros m; cbn [foldl].
    - rewrite decide_False; [done|apply not_elem_of_nil].
    - rewrite IH. destruct (decide (i ∈ l)) as [Hin|Hin].
      + rewrite decide_True; [done|by right].
      + destruct (decide (i = j)) as [->|Hne].
        * rewrite lookup_insert_eq, decide_True; [done|]. apply list_elem_of_here.
        * rewrite lookup_insert_ne by (unfold entry; nia).
          rewrite decide_False; [done|]. rewrite elem_of_cons. tauto. }
  rewrite Hl, decide_True; [done|]. rewrite elem_of_seqZ. lia.
Qed.

Lemma ring_init_inv m d rx todo :
  mapped d buf (eb * n) → Forall (λ v, Z.of_nat (length v) ≤ eb) todo →
  ring_inv {| l_tx := {| sc_head := entry RB_S base 0; sc_nentries := n; sc_role := MDX_RINGBUF_ROLE_SENDER |};
              l_txpc := TxHead; l_todo := todo; l_rx := mdx_ringbuf_join RB_S base rx; l_rxpc := RxHead;
              l_mem := init_loop RB_S base buf n eb m; l_data := d |} 0 [].
Proof.
  intros Hm Ht. assert (pos 0 = entry RB_S base 0) as E0 by (unfold pos; by rewrite Z.mod_0_l by lia).
  split; cbn [l_tx l_rx l_mem l_data l_txpc l_rxpc l_todo]; try done; [cbn; lia|].
  intros k Hk. rewrite Z.add_0_l. eexists. unfold pos at 1. rewrite Z.mod_small by lia. split; [by apply init_loop_lookup|].
  cbn [init_entry rb_next rb_buf rb_flags lookup list_lookup]. split_and!; [| |done].
  - unfold pos. destruct (Z.eqb_spec k (n - 1)) as [->|].
    + replace (n - 1 + 1) with n by lia. by rewrite Z_mod_same_full.
    + by rewrite Z.mod_small by lia.
  - unfold area. by rewrite Z.mod_small by lia.
Qed.
End Proofs.

(** C25: the shared ring is a bounded queue.  When the memory holds at least one entry,
    mdx_ringbuf_init succeeds, and after the receiver joined, every interleaving of
    the single memory accesses of the two sides runs without a fault, also when [d] is
    the buffer area alone, and what happens is what a queue of basesize / sizeof(struct
    mdx_ringbuf) messages allows: mdx_ringbuf_head fails for the sender only when the
    queue is full and for the receiver only when it is empty, and the messages, whole,
    are taken in the order they were submitted, each once; they are submitted in the
    order in which the sender was given them.  The messages fit the buffer of an
    entry. *)
Theorem ring_is_a_queue (RB_S base basesize buf bufsize : Z) (m : gmap Z ringbuf) (d : mem_t) (rx : softc)
    (msgs : list (list Z)) :
  0 < RB_S ≤ basesize →
  let n := basesize / RB_S in
  mapped d buf (bufsize / n * n) → Forall (λ v, Z.of_nat (length v) ≤ bufsize / n) msgs →
  ∃ tx m', mdx_ringbuf_init RB_S base basesize buf bufsize m = Ok (tx, m') ∧
    ∀ sched, ∃ t l' q, run sched {| l_tx := tx; l_txpc := TxHead; l_todo := msgs;
        l_rx := mdx_ringbuf_join RB_S base rx; l_rxpc := RxHead; l_mem := m'; l_data := d |} = Ok (t, l') ∧
      queue_run n t [] = Some q ∧ puts t `prefix_of` msgs.
Proof.
  intros HS n Hm Hf. unfold mdx_ringbuf_init, kassert. destruct (Z.ltb_spec 0 basesize); [|lia].
  cbn [mbind res_bind]. assert (0 < n) as Hn by (apply Z.div_str_pos; lia). fold n.
  destruct (Z.eqb_spec n 0); [lia|]. eexists _, _. split; [done|]. intros sched.
  destruct (run_ok RB_S base n buf (bufsize / n) ltac:(lia) Hn sched _ 0 []
    (ring_init_inv RB_S base n buf (bufsize / n) ltac:(lia) Hn m d rx msgs Hm Hf)) as (t & l' & q & E & Eq & Hp).
  exists t, l', q. split; [exact E|]. split; [exact Eq|]. by exists (pending l').
Qed.

(** Two entries of four bytes, three messages; both sides take turns. *)
Lemma ring_is_a_queue_witness :
  ∃ tx m' t l', mdx_ringbuf_init 24 4096 50 8192 8 ∅ = Ok (tx, m') ∧
    run (concat (replicate 30 [Tx; Tx; Rx]))
      {| l_tx := tx; l_txpc := TxHead; l_todo := [[7; 8]; [9]; [1; 2; 3; 4]];
         l_rx := mdx_ringbuf_join 24 4096 tx; l_rxpc := RxHead; l_mem := m';
         l_data := list_to_map (zip (seqZ 8192 8) (replicate 8 0)) |} = Ok (t, l') ∧
    omap (λ e, match e with Take _ | Put _ => Some e | _ => None end) t =
      [Put [7; 8]; Put [9]; Take [7; 8]; Put [1; 2; 3; 4]; Take [9]; Take [1; 2; 3; 4]].
Proof.
  set (d := list_to_map (zip (seqZ 8192 8) (replicate 8 0)) : mem_t).
  destruct (ring_is_a_queue 24 4096 50 8192 8 ∅ d
    {| sc_head := 4096; sc_nentries := 2; sc_role := 1 |} [[7; 8]; [9]; [1; 2; 3; 4]] ltac:(lia)) as (tx & m' & E & H).
  - intros x Hx. change (8 / (50 / 24) * (50 / 24)) with 8 in Hx. assert (x ∈ seqZ 8192 8) as Hin by (apply elem_of_seqZ; lia).
    clear Hx. revert x Hin. apply Forall_forall. apply (bool_decide_unpack _). by vm_compute.
  - by repeat constructor.
  - pose proof E as E'. vm_compute in E'. injection E' as <- <-.
    destruct (H (concat (replicate 30 [Tx; Tx; Rx]))) as (t & l' & q & Er & _).
    eexists _, _, t, l'. split; [exact E|]. split; [exact Er|].
    vm_compute in Er. injection Er as <- _. by vm_compute.
Defined.
