(* ===== verification/StringCopy.v ===== *)
(** * Copying and filling memory

    (lib/libc/string/bcopy.c, memmove.c, memset.c, bzero.c)

    The routines work on whole words where alignment and length allow it; they
    are proved equal to the move and the fill of single bytes. *)

From S2P Require Import Prelude Freelist Memory.
Local Open Scope Z_scope.

Section Model.
Context `{Arch}.

(** sizeof(word), a word being a long; [wmask] is the mask of the low bits. *)
Definition wsize : Z := PTR_W / 8.
Definition wmask : Z := wsize - 1.

(** [TLOOP1(s)]: [do { s; } while (--t)] on a [size_t]. *)
Definition reps (t : Z) : nat := Z.to_nat (if t =? 0 then 2 ^ PTR_W else t).

(** [n] times: copy [k] bytes at once and advance both pointers. *)
Fixpoint copy_fwd (n k : nat) (dst src : Z) (m : mem_t) : res (Z * Z * mem_t) :=
  match n with
  | O => Ok (dst, src, m)
  | S n =>
    v ← ldw k src m;
    m ← stw k dst v m;
    copy_fwd n k (dst + Z.of_nat k) (src + Z.of_nat k) m
  end.

(** [n] times: step both pointers back and copy [k] bytes at once. *)
Fixpoint copy_bwd (n k : nat) (dst src : Z) (m : mem_t) : res (Z * Z * mem_t) :=
  match n with
  | O => Ok (dst, src, m)
  | S n =>
    let dst := dst - Z.of_nat k in
    let src := src - Z.of_nat k in
    v ← ldw k src m;
    m ← stw k dst v m;
    copy_bwd n k dst src m
  end.

(** [TLOOP(s)]: [if (t) TLOOP1(s)]. *)
Definition tloop (t : Z) : nat := if t =? 0 then O else reps t.

Definition _memcpy (dst0 src0 length : Z) (m : mem_t) : res (Z * mem_t) :=
  let dst := dst0 in
  let src := src0 in
  if (length =? 0) || (dst =? src) then Ok (dst0, m) else
  if dst <? src then
    let t := src in
    '(dst, src, length, m) ←
      (if negb (Z.land (Z.lor t dst) wmask =? 0) then
         let t := if negb (Z.land (Z.lxor t dst) wmask =? 0) || (length <? wsize) then length
                  else wrap PTR_W (wsize - Z.land t wmask) in
         let length := wrap PTR_W (length - t) in
         '(dst, src, m) ← copy_fwd (reps t) 1 dst src m;
         Ok (dst, src, length, m)
       else Ok (dst, src, length, m));
    '(dst, src, m) ← copy_fwd (tloop (length / wsize)) (Z.to_nat wsize) dst src m;
    '(_, _, m) ← copy_fwd (tloop (Z.land length wmask)) 1 dst src m;
    Ok (dst0, m)
  else
    let src := src + length in
    let dst := dst + length in
    let t := src in
    '(dst, src, length, m) ←
      (if negb (Z.land (Z.lor t dst) wmask =? 0) then
         let t := if negb (Z.land (Z.lxor t dst) wmask =? 0) || (length <=? wsize) then length
                  else Z.land t wmask in
         let length := wrap PTR_W (length - t) in
         '(dst, src, m) ← copy_bwd (reps t) 1 dst src m;
         Ok (dst, src, length, m)
       else Ok (dst, src, length, m));
    '(dst, src, m) ← copy_bwd (tloop (length / wsize)) (Z.to_nat wsize) dst src m;
    '(_, _, m) ← copy_bwd (tloop (Z.land length wmask)) 1 dst src m;
    Ok (dst0, m).

Definition memcpy (dst0 src0 length : Z) (m : mem_t) : res (Z * mem_t) := _memcpy dst0 src0 length m.

Definition bcopy (src0 dst0 length : Z) (m : mem_t) : res mem_t :=
  '(_, m) ← _memcpy dst0 src0 length m; Ok m.

Definition memmove (dst src len : Z) (m : mem_t) : res (Z * mem_t) :=
  m ← bcopy src dst len m; Ok (dst, m).

(** ** memset and bzero: words are unsigned ints *)

Definition uwsize : Z := 4.
Definition uwmask : Z := 3.

(** [n] times: store a [k]-byte word and advance. *)
Fixpoint fill (n k : nat) (v dst : Z) (m : mem_t) : res (Z * mem_t) :=
  match n with
  | O => Ok (dst, m)
  | S n => m ← stw k dst v m; fill n k v (dst + Z.of_nat k) m
  end.

(** The body shared by memset (VAL = c0, WIDEVAL = c) and bzero (both 0). *)
Definition set_body (VAL WIDEVAL dst0 length : Z) (m : mem_t) : res mem_t :=
  let dst := dst0 in
  if length <? 3 * uwsize then
    '(_, m) ← fill (Z.to_nat length) 1 VAL dst m; Ok m
  else
    let t := Z.land dst uwmask in
    '(dst, length, m) ←
      (if negb (t =? 0) then
         let t := uwsize - t in
         '(dst, m) ← fill (reps t) 1 VAL dst m; Ok (dst, wrap PTR_W (length - t), m)
       else Ok (dst, length, m));
    '(dst, m) ← fill (reps (length / uwsize)) 4 WIDEVAL dst m;
    let t := Z.land length uwmask in
    '(_, m) ← fill (tloop t) 1 VAL dst m;
    Ok m.

(** [c = (u_char)c0; c = (c << 8) | c; c = (c << 16) | c;] *)
Definition widen (c0 : Z) : Z :=
  let c := u8 c0 in
  if c =? 0 then c else
  let c := u32 (Z.lor (Z.shiftl c 8) c) in
  u32 (Z.lor (Z.shiftl c 16) c).

Definition memset (dst0 c0 length : Z) (m : mem_t) : res (Z * mem_t) :=
  m ← set_body c0 (widen c0) dst0 length m; Ok (dst0, m).

Definition bzero (dst0 length : Z) (m : mem_t) : res mem_t := set_body 0 0 dst0 length m.
End Model.

(** ** The copying loops *)

Lemma mod_add_same a k : a mod k = 0 → (a + k) mod k = 0.
Proof. intros E. rewrite <- (Z.mul_1_l k) at 1. by rewrite Z_mod_plus_full. Qed.

Lemma mod_sub_same a k : a mod k = 0 → (a - k) mod k = 0.
Proof. intros E. replace (a - k) with (a + (-1) * k) by lia. by rewrite Z_mod_plus_full. Qed.

Lemma copy_fwd_spec n k dst src m :
  bytes_ok m → src mod Z.of_nat k = 0 → dst mod Z.of_nat k = 0 → dst ≤ src → mapped m src (Z.of_nat (n * k)) → mapped m dst (Z.of_nat (n * k)) →
  ∃ m', copy_fwd n k dst src m = Ok (dst + Z.of_nat (n * k), src + Z.of_nat (n * k), m') ∧
    moved dst src (Z.of_nat (n * k)) m m'.
Proof.
  revert dst src m. induction n as [|n IH]; intros dst src m Hb As Ad Hle Hs Hd.
  - exists m. cbn. rewrite !Z.add_0_r. split; [done|]. apply written_nil.
  - replace (Z.of_nat (S n * k)) with (Z.of_nat k + Z.of_nat (n * k)) in * by lia.
    destruct (ld_st_moved k dst src m Hb As Ad) as (v & m1 & E1 & E2 & Hm);
      [apply (mapped_sub _ _ _ _ _ Hs); lia|apply (mapped_sub _ _ _ _ _ Hd); lia|].
    cbn [copy_fwd]. rewrite E1. cbn [mbind res_bind]. rewrite E2. cbn [mbind res_bind].
    assert (mapped m src (Z.of_nat k)) as Hsk by (apply (mapped_sub _ _ _ _ _ Hs); lia).
    destruct (IH (dst + Z.of_nat k) (src + Z.of_nat k) m1) as (m2 & E & Hm2).
    + by eapply moved_bytes.
    + by apply mod_add_same.
    + by apply mod_add_same.
    + lia.
    + eapply moved_mapped; [exact Hsk|done|]. apply (mapped_sub _ _ _ _ _ Hs); lia.
    + eapply moved_mapped; [exact Hsk|done|]. apply (mapped_sub _ _ _ _ _ Hd); lia.
    + exists m2. rewrite E. split; [do 3 f_equal; lia|]. apply (moved_up _ _ _ _ m m1 m2); (done || lia).
Qed.

Lemma copy_bwd_spec n k dst src m :
  bytes_ok m → src mod Z.of_nat k = 0 → dst mod Z.of_nat k = 0 → src ≤ dst → mapped m (src - Z.of_nat (n * k)) (Z.of_nat (n * k)) →
  mapped m (dst - Z.of_nat (n * k)) (Z.of_nat (n * k)) →
  ∃ m', copy_bwd n k dst src m = Ok (dst - Z.of_nat (n * k), src - Z.of_nat (n * k), m') ∧
    moved (dst - Z.of_nat (n * k)) (src - Z.of_nat (n * k)) (Z.of_nat (n * k)) m m'.
Proof.
  revert dst src m. induction n as [|n IH]; intros dst src m Hb As Ad Hle Hs Hd.
  - exists m. cbn. rewrite !Z.sub_0_r. split; [done|]. apply written_nil.
  - replace (Z.of_nat (S n * k)) with (Z.of_nat k + Z.of_nat (n * k)) in * by lia.
    destruct (ld_st_moved k (dst - Z.of_nat k) (src - Z.of_nat k) m Hb) as (v & m1 & E1 & E2 & Hm);
      [by apply mod_sub_same|by apply mod_sub_same|apply (mapped_sub _ _ _ _ _ Hs); lia|apply (mapped_sub _ _ _ _ _ Hd); lia|].
    cbn [copy_bwd]. rewrite E1. cbn [mbind res_bind]. rewrite E2. cbn [mbind res_bind].
    assert (mapped m (src - Z.of_nat k) (Z.of_nat k)) as Hsk by (apply (mapped_sub _ _ _ _ _ Hs); lia).
    destruct (IH (dst - Z.of_nat k) (src - Z.of_nat k) m1) as (m2 & E & Hm2).
    + by eapply moved_bytes.
    + by apply mod_sub_same.
    + by apply mod_sub_same.
    + lia.
    + eapply moved_mapped; [exact Hsk|done|]. apply (mapped_sub _ _ _ _ _ Hs); lia.
    + eapply moved_mapped; [exact Hsk|done|]. apply (mapped_sub _ _ _ _ _ Hd); lia.
    + exists m2. rewrite E. split; [do 3 f_equal; lia|].
      replace (dst - (Z.of_nat k + Z.of_nat (n * k))) with (dst - Z.of_nat k - Z.of_nat (n * k)) by lia.
      replace (src - (Z.of_nat k + Z.of_nat (n * k))) with (src - Z.of_nat k - Z.of_nat (n * k)) by lia.
      apply (moved_down _ _ _ _ m m1 m2); [lia|lia|lia| |done].
      replace (dst - Z.of_nat k - Z.of_nat (n * k) + Z.of_nat (n * k)) with (dst - Z.of_nat k) by lia.
      by replace (src - Z.of_nat k - Z.of_nat (n * k) + Z.of_nat (n * k)) with (src - Z.of_nat k) by lia.
Qed.

Section Words.
Context `{Arch}.

Lemma wsize_cases : wsize = 4 ∨ wsize = 8.
Proof. unfold wsize. destruct arch_ok as [->| ->]; auto. Qed.

Lemma land_wmask x : Z.land x wmask = x mod wsize.
Proof.
  unfold wmask. destruct wsize_cases as [-> | ->].
  - change (4 - 1) with (Z.ones 2). by rewrite Z.land_ones.
  - change (8 - 1) with (Z.ones 3). by rewrite Z.land_ones.
Qed.

(** The operands have the same low bits. *)
Lemma lxor_wmask x y : Z.land (Z.lxor x y) wmask = 0 → x mod wsize = y mod wsize.
Proof.
  intros E. rewrite <- !land_wmask. apply Z.bits_inj'. intros n Hn.
  apply (f_equal (λ z, Z.testbit z n)) in E.
  rewrite !Z.land_spec, Z.lxor_spec, Z.bits_0 in *. destruct (Z.testbit wmask n); [|by rewrite !andb_false_r].
  rewrite !andb_true_r in *. by destruct (Z.testbit x n), (Z.testbit y n).
Qed.

Lemma lor_wmask x y : Z.land (Z.lor x y) wmask ≠ 0 → x mod wsize = y mod wsize → x mod wsize ≠ 0.
Proof.
  intros Hn E E0. apply Hn. rewrite Z.land_lor_distr_l, !land_wmask, <- E, E0. done.
Qed.

Lemma tloop_nat t : 0 ≤ t → tloop t = Z.to_nat t.
Proof. intros Ht. unfold tloop, reps. destruct (Z.eqb_spec t 0) as [->|]; done. Qed.

Lemma reps_nat t : 0 < t → reps t = Z.to_nat t.
Proof. intros Ht. unfold reps. destruct (Z.eqb_spec t 0); [lia|done]. Qed.
End Words.

Section Copy.
Context `{Arch}.

(** Where the operands need not be aligned or are aligned to words. *)
Definition word_ok (length dst src : Z) : Prop :=
  length < wsize ∨ (src mod wsize = 0 ∧ dst mod wsize = 0).

Lemma split_words L : 0 ≤ L →
  Z.of_nat (tloop (L / wsize) * Z.to_nat wsize) = L / wsize * wsize ∧
  Z.of_nat (tloop (Z.land L wmask) * 1) = L mod wsize ∧
  L = L / wsize * wsize + L mod wsize ∧ 0 ≤ L / wsize ∧ 0 ≤ L mod wsize.
Proof.
  intros HL. pose proof wsize_cases. assert (0 < wsize) as Hw by lia. assert (wsize ≠ 0) as Hw0 by lia.
  pose proof (Z.mod_pos_bound L _ Hw). pose proof (Z.div_pos L _ HL Hw).
  rewrite land_wmask, !tloop_nat by lia. rewrite !Nat2Z.inj_mul, !Z2Nat.id by lia.
  pose proof (Z.div_mod L _ Hw0) as Hdm. rewrite (Z.mul_comm wsize) in Hdm.
  split_and!; [done|lia|done|done|lia].
Qed.

Lemma words_fwd L dst src m :
  bytes_ok m → 0 ≤ L → dst ≤ src → word_ok L dst src → mapped m src L → mapped m dst L →
  ∃ m', ('(dst, src, m) ← copy_fwd (tloop (L / wsize)) (Z.to_nat wsize) dst src m;
         copy_fwd (tloop (Z.land L wmask)) 1 dst src m) = Ok (dst + L, src + L, m') ∧
    moved dst src L m m'.
Proof.
  intros Hb HL Hle Hal Hs Hd. destruct (split_words L HL) as (E1 & E2 & EL & ? & ?).
  pose proof wsize_cases.
  assert (∃ m1, copy_fwd (tloop (L / wsize)) (Z.to_nat wsize) dst src m =
    Ok (dst + L / wsize * wsize, src + L / wsize * wsize, m1) ∧ moved dst src (L / wsize * wsize) m m1)
    as (m1 & -> & Hm1).
  { destruct Hal as [Hsm|[As Ad]].
    - rewrite Z.div_small, Z.mul_0_l by lia. exists m. rewrite !Z.add_0_r. split; [done|apply written_nil].
    - destruct (copy_fwd_spec (tloop (L / wsize)) (Z.to_nat wsize) dst src m) as (m1 & E & Hm1);
        rewrite ?Z2Nat.id by lia; try done.
      + rewrite E1. apply (mapped_sub _ _ _ _ _ Hs); lia.
      + rewrite E1. apply (mapped_sub _ _ _ _ _ Hd); lia.
      + rewrite E1 in *. by exists m1. }
  cbn [mbind res_bind].
  assert (mapped m src (L / wsize * wsize)) as Hs1 by (apply (mapped_sub _ _ _ _ _ Hs); lia).
  destruct (copy_fwd_spec (tloop (Z.land L wmask)) 1 (dst + L / wsize * wsize)
    (src + L / wsize * wsize) m1) as (m2 & E & Hm2); rewrite ?Z.mod_1_r; try done; try lia.
  - by eapply moved_bytes.
  - rewrite E2. eapply moved_mapped; [exact Hs1|done|]. apply (mapped_sub _ _ _ _ _ Hs); lia.
  - rewrite E2. eapply moved_mapped; [exact Hs1|done|]. apply (mapped_sub _ _ _ _ _ Hd); lia.
  - rewrite E2 in *. exists m2. rewrite E. split; [do 3 f_equal; lia|].
    rewrite EL. apply (moved_up _ _ _ _ m m1 m2); (done || lia).
Qed.

Lemma words_bwd L dst src m :
  bytes_ok m → 0 ≤ L → src ≤ dst → word_ok L dst src → mapped m (src - L) L → mapped m (dst - L) L →
  ∃ m', ('(dst, src, m) ← copy_bwd (tloop (L / wsize)) (Z.to_nat wsize) dst src m;
         copy_bwd (tloop (Z.land L wmask)) 1 dst src m) = Ok (dst - L, src - L, m') ∧
    moved (dst - L) (src - L) L m m'.
Proof.
  intros Hb HL Hle Hal Hs Hd. destruct (split_words L HL) as (E1 & E2 & EL & ? & ?).
  pose proof wsize_cases. set (A := L / wsize * wsize) in *. set (B := L mod wsize) in *.
  assert (∃ m1, copy_bwd (tloop (L / wsize)) (Z.to_nat wsize) dst src m = Ok (dst - A, src - A, m1) ∧
    moved (dst - A) (src - A) A m m1) as (m1 & -> & Hm1).
  { destruct Hal as [Hsm|[As Ad]].
    - assert (A = 0) as -> by (unfold A; rewrite Z.div_small; lia).
      rewrite Z.div_small by lia. exists m. rewrite !Z.sub_0_r. split; [done|apply written_nil].
    - destruct (copy_bwd_spec (tloop (L / wsize)) (Z.to_nat wsize) dst src m) as (m1 & E & Hm1);
        rewrite ?Z2Nat.id by lia; try done.
      + rewrite E1. apply (mapped_sub _ _ _ _ _ Hs); lia.
      + rewrite E1. apply (mapped_sub _ _ _ _ _ Hd); lia.
      + rewrite E1 in *. by exists m1. }
  cbn [mbind res_bind].
  assert (mapped m (src - A) A) as Hs1 by (apply (mapped_sub _ _ _ _ _ Hs); lia).
  destruct (copy_bwd_spec (tloop (Z.land L wmask)) 1 (dst - A) (src - A) m1) as (m2 & E & Hm2);
    rewrite ?Z.mod_1_r; try done; try lia.
  - by eapply moved_bytes.
  - rewrite E2. eapply moved_mapped; [exact Hs1|done|]. apply (mapped_sub _ _ _ _ _ Hs); lia.
  - rewrite E2. eapply moved_mapped; [exact Hs1|done|]. apply (mapped_sub _ _ _ _ _ Hd); lia.
  - rewrite E2 in *. exists m2. rewrite E. split; [do 3 f_equal; lia|].
    rewrite EL. replace (dst - (A + B)) with (dst - A - B) by lia.
    replace (src - (A + B)) with (src - A - B) by lia.
    apply (moved_down _ _ _ _ m m1 m2); [lia|lia|lia| |done].
    replace (dst - A - B + B) with (dst - A) by lia. by replace (src - A - B + B) with (src - A) by lia.
Qed.

Lemma aligned_both x y : Z.land (Z.lor x y) wmask = 0 → x mod wsize = 0 ∧ y mod wsize = 0.
Proof.
  rewrite Z.land_lor_distr_l, !land_wmask. intros E. by apply Z.lor_eq_0_iff in E.
Qed.

Lemma align_up x : x mod wsize ≠ 0 → (x + (wsize - x mod wsize)) mod wsize = 0.
Proof.
  intros Hx. pose proof wsize_cases. assert (wsize ≠ 0) as Hw by lia.
  rewrite (Z.div_mod x wsize Hw) at 1.
  replace (wsize * (x / wsize) + x mod wsize + (wsize - x mod wsize)) with ((x / wsize + 1) * wsize) by lia.
  by apply Z_mod_mult.
Qed.

Lemma align_down x : (x - x mod wsize) mod wsize = 0.
Proof.
  pose proof wsize_cases. assert (wsize ≠ 0) as Hw by lia.
  rewrite (Z.div_mod x wsize Hw) at 1.
  replace (wsize * (x / wsize) + x mod wsize - x mod wsize) with (x / wsize * wsize) by lia.
  by apply Z_mod_mult.
Qed.

(** The number of bytes copied to align the operands of a forward copy. *)
Lemma lead_fwd length dst src :
  0 < length < 2 ^ PTR_W → Z.land (Z.lor src dst) wmask ≠ 0 →
  let t := if negb (Z.land (Z.lxor src dst) wmask =? 0) || (length <? wsize) then length
           else wrap PTR_W (wsize - Z.land src wmask) in
  0 < t ≤ length ∧ word_ok (length - t) (dst + t) (src + t).
Proof.
  intros HL Hn t. pose proof wsize_cases. unfold word_ok.
  destruct (Z.eqb_spec (Z.land (Z.lxor src dst) wmask) 0) as [E|E]; cbn [negb orb] in t; [|unfold t; lia].
  unfold t. destruct (Z.ltb_spec length wsize); [lia|].
  apply lxor_wmask in E. pose proof (lor_wmask _ _ Hn E) as Hs.
  assert (0 < wsize) as Hw by lia. pose proof (Z.mod_pos_bound src _ Hw).
  rewrite land_wmask, wrap_small by lia. split; [lia|]. right. split; [by apply align_up|].
  rewrite E in *. by apply align_up.
Qed.

Lemma lead_bwd length dst src :
  0 < length → Z.land (Z.lor src dst) wmask ≠ 0 →
  let t := if negb (Z.land (Z.lxor src dst) wmask =? 0) || (length <=? wsize) then length
           else Z.land src wmask in
  0 < t ≤ length ∧ word_ok (length - t) (dst - t) (src - t).
Proof.
  intros HL Hn t. pose proof wsize_cases. unfold word_ok.
  destruct (Z.eqb_spec (Z.land (Z.lxor src dst) wmask) 0) as [E|E]; cbn [negb orb] in t; [|unfold t; lia].
  unfold t. destruct (Z.leb_spec length wsize); [lia|].
  apply lxor_wmask in E. pose proof (lor_wmask _ _ Hn E) as Hs.
  assert (0 < wsize) as Hw by lia. pose proof (Z.mod_pos_bound src _ Hw).
  rewrite land_wmask. split; [lia|]. right. split; [by apply align_down|].
  rewrite E. by apply align_down.
Qed.

Lemma memcpy_fwd length dst src m :
  bytes_ok m → 0 < length < 2 ^ PTR_W → dst < src → mapped m src length → mapped m dst length →
  ∃ m', _memcpy dst src length m = Ok (dst, m') ∧ moved dst src length m m'.
Proof.
  intros Hb HL Hlt Hs Hd. unfold _memcpy.
  destruct (Z.eqb_spec length 0); [lia|]. destruct (Z.eqb_spec dst src); [lia|].
  destruct (Z.ltb_spec dst src); [|lia]. cbn [orb].
  destruct (Z.eqb_spec (Z.land (Z.lor src dst) wmask) 0) as [E|E]; cbn [negb].
  - apply aligned_both in E as [As Ad]. cbn [mbind res_bind].
    destruct (words_fwd length dst src m Hb) as (m' & E' & Hm'); try done; [lia|lia|by right|].
    destruct (copy_fwd _ (Z.to_nat wsize) dst src m) as [[[d1 s1] m1]|]; [|done].
    cbn [mbind res_bind] in E' |- *. rewrite E'. by exists m'.
  - pose proof (lead_fwd length dst src HL E) as Ht. cbv zeta in Ht |- *.
    set (t := if _ || _ then _ else _) in *. destruct Ht as [Ht Hal].
    rewrite wrap_small by lia. rewrite reps_nat by lia.
    assert (Z.of_nat (Z.to_nat t * 1) = t) as Et by lia.
    destruct (copy_fwd_spec (Z.to_nat t) 1 dst src m) as (m1 & E1 & Hm1);
      rewrite ?Z.mod_1_r, ?Et; try done; [lia|apply (mapped_sub _ _ _ _ _ Hs); lia|
      apply (mapped_sub _ _ _ _ _ Hd); lia|].
    rewrite Et in *. rewrite E1. cbn [mbind res_bind].
    assert (mapped m src t) as Hst by (apply (mapped_sub _ _ _ _ _ Hs); lia).
    destruct (words_fwd (length - t) (dst + t) (src + t) m1) as (m' & E' & Hm'); try done; try lia.
    + by eapply moved_bytes.
    + eapply moved_mapped; [exact Hst|done|]. apply (mapped_sub _ _ _ _ _ Hs); lia.
    + eapply moved_mapped; [exact Hst|done|]. apply (mapped_sub _ _ _ _ _ Hd); lia.
    + destruct (copy_fwd _ (Z.to_nat wsize) (dst + t) (src + t) m1) as [[[d2 s2] m2]|]; [|done].
      cbn [mbind res_bind] in E' |- *. rewrite E'. exists m'. split; [done|].
      replace length with (t + (length - t)) by lia. apply (moved_up _ _ _ _ m m1 m'); (done || lia).
Qed.

Lemma memcpy_bwd length dst src m :
  bytes_ok m → 0 < length < 2 ^ PTR_W → src < dst → mapped m src length → mapped m dst length →
  ∃ m', _memcpy dst src length m = Ok (dst, m') ∧ moved dst src length m m'.
Proof.
  intros Hb HL Hlt Hs Hd. unfold _memcpy.
  destruct (Z.eqb_spec length 0); [lia|]. destruct (Z.eqb_spec dst src); [lia|].
  destruct (Z.ltb_spec dst src); [lia|]. cbn [orb].
  set (D := dst + length). set (S := src + length). cbv zeta.
  destruct (Z.eqb_spec (Z.land (Z.lor S D) wmask) 0) as [E|E]; cbn [negb].
  - apply aligned_both in E as [As Ad]. cbn [mbind res_bind].
    destruct (words_bwd length D S m Hb) as (m' & E' & Hm'); try done; [lia|lia|by right| | |].
    { by replace (S - length) with src by lia. } { by replace (D - length) with dst by lia. }
    replace (S - length) with src in * by lia. replace (D - length) with dst in * by lia.
    destruct (copy_bwd _ (Z.to_nat wsize) D S m) as [[[d1 s1] m1]|]; [|done].
    cbn [mbind res_bind] in E' |- *. rewrite E'. by exists m'.
  - pose proof (lead_bwd length D S ltac:(lia) E) as Ht. cbv zeta in Ht.
    set (t := if _ || _ then _ else _) in *. destruct Ht as [Ht Hal].
    rewrite wrap_small by lia. rewrite reps_nat by lia.
    assert (Z.of_nat (Z.to_nat t * 1) = t) as Et by lia.
    destruct (copy_bwd_spec (Z.to_nat t) 1 D S m) as (m1 & E1 & Hm1);
      rewrite ?Z.mod_1_r, ?Et; try done; [lia|apply (mapped_sub _ _ _ _ _ Hs); lia|
      apply (mapped_sub _ _ _ _ _ Hd); lia|].
    rewrite Et in *. rewrite E1. cbn [mbind res_bind].
    assert (mapped m (S - t) t) as Hst by (apply (mapped_sub _ _ _ _ _ Hs); lia).
    destruct (words_bwd (length - t) (D - t) (S - t) m1) as (m' & E' & Hm'); try done; try lia.
    + by eapply moved_bytes.
    + eapply moved_mapped; [exact Hst|done|]. apply (mapped_sub _ _ _ _ _ Hs); lia.
    + eapply moved_mapped; [exact Hst|done|]. apply (mapped_sub _ _ _ _ _ Hd); lia.
    + destruct (copy_bwd _ (Z.to_nat wsize) (D - t) (S - t) m1) as [[[d2 s2] m2]|]; [|done].
      cbn [mbind res_bind] in E' |- *. rewrite E'. exists m'. split; [done|].
      replace (D - t - (length - t)) with dst in Hm' by lia.
      replace (S - t - (length - t)) with src in Hm' by lia.
      replace length with (t + (length - t)) by lia. apply (moved_down _ _ _ _ m m1 m'); [lia|lia|lia| |done].
      replace (dst + (length - t)) with (D - t) by lia. by replace (src + (length - t)) with (S - t) by lia.
Qed.

Lemma memcpy_ok length dst src m :
  bytes_ok m → 0 ≤ length < 2 ^ PTR_W → mapped m src length → mapped m dst length →
  ∃ m', _memcpy dst src length m = Ok (dst, m') ∧ moved dst src length m m'.
Proof.
  intros Hb HL Hs Hd. destruct (decide (length = 0)) as [->|Hn].
  { exists m. split; [done|apply written_nil]. }
  destruct (Z.lt_trichotomy dst src) as [?|[->|?]].
  - apply memcpy_fwd; (done || lia).
  - exists m. unfold _memcpy. rewrite (Z.eqb_refl src), orb_true_r. split; [done|].
    apply written_same. intros a Ha. f_equal. lia.
  - apply memcpy_bwd; (done || lia).
Qed.
End Copy.

(** ** The filling loops *)

(** Every byte of the [k]-byte value [v] is [c]. *)
Definition uniform (k : nat) (v c : Z) : Prop := ∀ i, 0 ≤ i < Z.of_nat k → byte_of v i = c.

Lemma fill_spec n k v c dst m :
  dst mod Z.of_nat k = 0 → uniform k v c → mapped m dst (Z.of_nat (n * k)) →
  ∃ m', fill n k v dst m = Ok (dst + Z.of_nat (n * k), m') ∧ filled dst (Z.of_nat (n * k)) c m m'.
Proof.
  revert dst m. induction n as [|n IH]; intros dst m Ad Hu Hd.
  - exists m. cbn. rewrite Z.add_0_r. split; [done|apply written_nil].
  - replace (Z.of_nat (S n * k)) with (Z.of_nat k + Z.of_nat (n * k)) in * by lia.
    destruct (stn_ok k dst v m) as (m1 & E1 & Hm1); [apply (mapped_sub _ _ _ _ _ Hd); lia|].
    apply (written_ext _ _ _ (λ _, Some c)) in Hm1; [|intros i Hi; f_equal; by apply Hu].
    cbn [fill]. unfold stw. rewrite Ad. cbn [Z.eqb]. rewrite E1. cbn [mbind res_bind].
    destruct (IH (dst + Z.of_nat k) m1) as (m2 & E2 & Hm2); [by apply mod_add_same|done| |].
    + eapply written_mapped; [|exact Hm1|apply (mapped_sub _ _ _ _ _ Hd); lia]. eauto.
    + exists m2. rewrite E2. split; [do 2 f_equal; lia|].
      apply (filled_app _ _ _ _ m m1 m2); (done || lia).
Qed.

Lemma uniform_byte c : uniform 1 c (c mod 256).
Proof. intros i Hi. replace i with 0 by lia. apply byte_of_0. Qed.

(** Checked for each of the 256 byte values. *)
Lemma widen_uniform c : uniform 4 (widen c) (c mod 256).
Proof.
  assert (widen c = widen (c mod 256)) as -> by (unfold widen, wrap; by rewrite Z.mod_mod).
  pose proof (Z.mod_pos_bound c 256 ltac:(lia)) as Hc. revert Hc. generalize (c mod 256). clear c.
  intros c Hc i Hi.
  assert (forallb (λ c, forallb (λ i, byte_of (widen c) i =? c) (seqZ 0 4)) (seqZ 0 256) = true) as Hall
    by (by vm_compute).
  rewrite forallb_forall in Hall. specialize (Hall c). rewrite <- list_elem_of_In, elem_of_seqZ in Hall.
  specialize (Hall ltac:(lia)). rewrite forallb_forall in Hall. specialize (Hall i).
  rewrite <- list_elem_of_In, elem_of_seqZ in Hall. specialize (Hall ltac:(lia)). by apply Z.eqb_eq in Hall.
Qed.

Section Filling.
Context `{Arch}.

Lemma land_uwmask x : Z.land x uwmask = x mod 4.
Proof. change uwmask with (Z.ones 2). by rewrite Z.land_ones. Qed.

(** Words and trailing bytes, from an aligned address. *)
Lemma fill_words VAL WIDE c dst L m :
  uniform 1 VAL c → uniform 4 WIDE c → 4 ≤ L → dst mod 4 = 0 → mapped m dst L →
  ∃ m', ('(dst, m) ← fill (reps (L / uwsize)) 4 WIDE dst m;
         let t := Z.land L uwmask in
         '(_, m) ← fill (tloop t) 1 VAL dst m;
         Ok m) = Ok m' ∧ filled dst L c m m'.
Proof.
  intros H1 H4 HL Ad Hd. rewrite land_uwmask. unfold uwsize.
  assert (0 < L / 4) by (apply Z.div_str_pos; lia). pose proof (Z.mod_pos_bound L 4 ltac:(lia)).
  pose proof (Z.div_mod L 4 ltac:(lia)). rewrite reps_nat, tloop_nat by lia.
  assert (Z.of_nat (Z.to_nat (L / 4) * 4) = L / 4 * 4) as E4 by lia.
  assert (Z.of_nat (Z.to_nat (L mod 4) * 1) = L mod 4) as E1 by lia.
  destruct (fill_spec (Z.to_nat (L / 4)) 4 WIDE c dst m Ad H4) as (m1 & -> & Hm1);
    [rewrite E4; apply (mapped_sub _ _ _ _ _ Hd); lia|].
  cbn [mbind res_bind]. rewrite E4 in *.
  destruct (fill_spec (Z.to_nat (L mod 4)) 1 VAL c (dst + L / 4 * 4) m1) as (m2 & -> & Hm2);
    [by apply Z.mod_1_r|done| |].
  { rewrite E1. eapply written_mapped; [|exact Hm1|apply (mapped_sub _ _ _ _ _ Hd); lia]. eauto. }
  cbn [mbind res_bind]. rewrite E1 in *. exists m2. split; [done|].
  replace L with (L / 4 * 4 + L mod 4) by lia. apply (filled_app _ _ _ _ m m1 m2); (done || lia).
Qed.

Lemma set_body_ok VAL WIDE c dst length m :
  uniform 1 VAL c → uniform 4 WIDE c → 0 ≤ length < 2 ^ PTR_W → mapped m dst length →
  ∃ m', set_body VAL WIDE dst length m = Ok m' ∧ filled dst length c m m'.
Proof.
  intros H1 H4 HL Hd. unfold set_body. destruct (Z.ltb_spec length (3 * uwsize)) as [Hlt|Hge].
  - destruct (fill_spec (Z.to_nat length) 1 VAL c dst m) as (m1 & -> & Hm1);
      [by apply Z.mod_1_r|done|by rewrite Nat.mul_1_r, Z2Nat.id by lia|].
    rewrite Nat.mul_1_r, Z2Nat.id in Hm1 by lia. cbn [mbind res_bind]. by exists m1.
  - change (3 * uwsize) with 12 in Hge. rewrite land_uwmask. cbv zeta.
    pose proof (Z.mod_pos_bound dst 4 ltac:(lia)) as Hm.
    destruct (Z.eqb_spec (dst mod 4) 0) as [Ad|Ad]; cbn [negb mbind res_bind].
    + apply fill_words; (done || lia).
    + change uwsize with 4. rewrite reps_nat, wrap_small by lia.
      set (t := 4 - dst mod 4). assert (Z.of_nat (Z.to_nat t * 1) = t) as Et by lia.
      destruct (fill_spec (Z.to_nat t) 1 VAL c dst m) as (m1 & -> & Hm1);
        [by apply Z.mod_1_r|done|rewrite Et; apply (mapped_sub _ _ _ _ _ Hd); lia|].
      cbn [mbind res_bind]. rewrite Et in *.
      destruct (fill_words VAL WIDE c (dst + t) (length - t) m1) as (m2 & E2 & Hm2); try done; [lia| | |].
      * unfold t. rewrite (Z.div_mod dst 4) at 1 by lia.
        replace (4 * (dst / 4) + dst mod 4 + (4 - dst mod 4)) with ((dst / 4 + 1) * 4) by lia.
        by apply Z_mod_mult.
      * eapply written_mapped; [|exact Hm1|apply (mapped_sub _ _ _ _ _ Hd); lia]. eauto.
      * unfold uwsize in E2. rewrite E2. exists m2. split; [done|].
        replace length with (t + (length - t)) by lia. apply (filled_app _ _ _ _ m m1 m2); (done || lia).
Qed.

(** Memmove (and memcpy and bcopy, the same function) moves bytes.  For
    every alignment of the operands and every overlap it terminates without a
    misaligned or unmapped access; the destination receives the bytes that the
    source held before the call, and every other byte is unchanged. *)
Theorem memmove_moves (dst src len : Z) (m : mem_t) :
  bytes_ok m → 0 ≤ len < 2 ^ PTR_W → mapped m src len → mapped m dst len →
  ∃ m', memmove dst src len m = Ok (dst, m') ∧ memcpy dst src len m = Ok (dst, m') ∧
    moved dst src len m m'.
Proof.
  intros Hb HL Hs Hd. destruct (memcpy_ok len dst src m Hb HL Hs Hd) as (m' & E & Hm).
  exists m'. unfold memmove, bcopy, memcpy. rewrite E. done.
Qed.

(** Memset stores the low byte of its argument in every byte of the range,
    and bzero stores zero, whatever the alignment and length, and they change
    nothing else: the word-wide stores are a plain fill. *)
Theorem memset_fills (dst c length : Z) (m : mem_t) :
  0 ≤ length < 2 ^ PTR_W → mapped m dst length →
  (∃ m', memset dst c length m = Ok (dst, m') ∧ filled dst length (u8 c) m m') ∧
  (∃ m', bzero dst length m = Ok m' ∧ filled dst length 0 m m').
Proof.
  intros HL Hd. split.
  - destruct (set_body_ok c (widen c) (u8 c) dst length m) as (m' & E & Hm);
      [apply uniform_byte|apply widen_uniform|done|done|].
    exists m'. unfold memset. rewrite E. done.
  - apply set_body_ok; [exact (uniform_byte 0)|exact (widen_uniform 0)|done|done].
Qed.
End Filling.

(** ** Witnesses: 16 bytes *)

Definition demo_mem : mem_t := list_to_map ((λ i, (i, i + 65)) <$> seqZ 0 16).

Lemma demo_mapped a n : 0 ≤ a → a + n ≤ 16 → mapped demo_mem a n.
Proof.
  intros Ha Hn x Hx.
  assert (forallb (λ x, bool_decide (is_Some (demo_mem !! x))) (seqZ 0 16) = true) as Hall by (by vm_compute).
  rewrite forallb_forall in Hall. specialize (Hall x). rewrite <- list_elem_of_In, elem_of_seqZ in Hall.
  specialize (Hall ltac:(lia)). by apply bool_decide_eq_true in Hall.
Qed.

Lemma demo_bytes : bytes_ok demo_mem.
Proof.
  apply map_Forall_to_list. by apply (bool_decide_unpack _); vm_compute.
Qed.

(** An overlapping move upwards by one byte. *)
Lemma memmove_moves_witness :
  ∃ m', memmove 3 2 10 demo_mem = Ok (3, m') ∧ m' !! 12 = Some 76 ∧ m' !! 2 = Some 67.
Proof.
  destruct (memmove_moves 3 2 10 demo_mem demo_bytes) as (m' & E & _ & Hm);
    [by vm_compute|apply demo_mapped; lia|apply demo_mapped; lia|].
  exists m'. split; [exact E|]. rewrite (Hm 12), (Hm 2). by vm_compute.
Defined.

Lemma memset_fills_witness :
  ∃ m', memset 1 511 13 demo_mem = Ok (1, m') ∧ m' !! 13 = Some 255 ∧ m' !! 14 = Some 79.
Proof.
  destruct (memset_fills 1 511 13 demo_mem) as [(m' & E & Hm) _]; [by vm_compute|apply demo_mapped; lia|].
  exists m'. split; [exact E|]. rewrite (Hm 13), (Hm 14). by vm_compute.
Defined.
