(* ===== verification/StringScan.v ===== *)
(** * String functions

    (lib/libc/string: strlen.c, strnlen.c, strcmp.c, strncmp.c, strcasecmp.c,
    memcmp.c, memchr.c, strchr.c, strrchr.c, strcpy.c, strlcpy.c,
    strspn.c, strcspn.c, strsep.c, strstr.c, ffs.c, fls.c)

    A C string is a run of non-zero bytes that a zero byte ends.  A loop over a
    string visits distinct mapped cells, so the number of cells bounds it
    ([scan_fuel]); plain char is unsigned on the supported machines. *)

From S2P Require Import Prelude Freelist Memory StringCopy.
Local Open Scope Z_scope.

Definition scan_fuel (m : mem_t) : nat := S (size m).

Section Strlen.
Context `{Arch}.

Definition mask01 : Z := foldr (λ _ r, 1 + 256 * r) 0 (seqZ 0 wsize).
Definition mask80 : Z := 128 * mask01.

(** [va & vb] for the word [w]: non-zero when a byte of [w] is zero. *)
Definition zero_test (w : Z) : Z :=
  Z.land (wrap PTR_W (w - mask01)) (Z.land (Z.lnot w) mask80).

(** [for (p = a; p < lp; p++) if ( *p == 0) return (p - str);] *)
Fixpoint find_nul (n : nat) (p : Z) (m : mem_t) : res (option Z) :=
  match n with
  | O => Ok None
  | S n => c ← load m p; if c =? 0 then Ok (Some p) else find_nul n (p + 1) m
  end.

(** The endless loop over words. *)
Fixpoint strlen_loop (fuel : nat) (str lp : Z) (m : mem_t) : res Z :=
  match fuel with
  | O => Err NoFuel
  | S fuel =>
    w ← ldw (Z.to_nat wsize) lp m;
    r ← (if zero_test w =? 0 then Ok None else find_nul (Z.to_nat wsize) lp m);
    match r with
    | Some p => Ok (p - str)
    | None => strlen_loop fuel str (lp + wsize) m
    end
  end.

Definition strlen (str : Z) (m : mem_t) : res Z :=
  let lp := Z.ldiff str wmask in
  w ← ldw (Z.to_nat wsize) lp m;
  let lp := lp + wsize in
  r ← (if zero_test w =? 0 then Ok None else find_nul (Z.to_nat (lp - str)) str m);
  match r with
  | Some p => Ok (p - str)
  | None => strlen_loop (scan_fuel m) str lp m
  end.
End Strlen.

Fixpoint strnlen_loop (n : nat) (s len : Z) (m : mem_t) : res Z :=
  match n with
  | O => Ok len
  | S n => c ← load m s; if c =? 0 then Ok len else strnlen_loop n (s + 1) (len + 1) m
  end.
Definition strnlen (s maxlen : Z) (m : mem_t) : res Z := strnlen_loop (Z.to_nat maxlen) s 0 m.

(** ** Comparing *)

Fixpoint strcmp_loop (fuel : nat) (s1 s2 : Z) (m : mem_t) : res Z :=
  match fuel with
  | O => Err NoFuel
  | S fuel =>
    a ← load m s1;
    b ← load m s2;
    if a =? b then if a =? 0 then Ok 0 else strcmp_loop fuel (s1 + 1) (s2 + 1) m
    else Ok (a - b)
  end.
Definition strcmp (s1 s2 : Z) (m : mem_t) : res Z := strcmp_loop (scan_fuel m) s1 s2 m.

(** [do ... while (--n != 0)], entered with a non-zero [n]. *)
Fixpoint strncmp_loop (n : nat) (s1 s2 : Z) (m : mem_t) : res Z :=
  match n with
  | O => Ok 0
  | S n =>
    a ← load m s1;
    b ← load m s2;
    if negb (a =? b) then Ok (a - b) else
    if a =? 0 then Ok 0 else strncmp_loop n (s1 + 1) (s2 + 1) m
  end.
Definition strncmp (s1 s2 n : Z) (m : mem_t) : res Z :=
  if n =? 0 then Ok 0 else strncmp_loop (Z.to_nat n) s1 s2 m.

(** [#define tolower(c) ((c) + 0x20 * (((c) >= 'A') && ((c) <= 'Z')))] *)
Definition tolower (c : Z) : Z := c + 32 * (if (65 <=? c) && (c <=? 90) then 1 else 0).

Fixpoint strcasecmp_loop (fuel : nat) (us1 us2 : Z) (m : mem_t) : res Z :=
  match fuel with
  | O => Err NoFuel
  | S fuel =>
    a ← load m us1;
    b ← load m us2;
    if tolower a =? tolower b then
      if a =? 0 then Ok 0 else strcasecmp_loop fuel (us1 + 1) (us2 + 1) m
    else Ok (tolower a - tolower b)
  end.
Definition strcasecmp (s1 s2 : Z) (m : mem_t) : res Z := strcasecmp_loop (scan_fuel m) s1 s2 m.

Fixpoint strncasecmp_loop (n : nat) (us1 us2 : Z) (m : mem_t) : res Z :=
  match n with
  | O => Ok 0
  | S n =>
    a ← load m us1;
    b ← load m us2;
    if negb (tolower a =? tolower b) then Ok (tolower a - tolower b) else
    if a =? 0 then Ok 0 else strncasecmp_loop n (us1 + 1) (us2 + 1) m
  end.
Definition strncasecmp (s1 s2 n : Z) (m : mem_t) : res Z :=
  if n =? 0 then Ok 0 else strncasecmp_loop (Z.to_nat n) s1 s2 m.

Fixpoint memcmp_loop (n : nat) (p1 p2 : Z) (m : mem_t) : res Z :=
  match n with
  | O => Ok 0
  | S n =>
    a ← load m p1;
    b ← load m p2;
    if negb (a =? b) then Ok (a - b) else memcmp_loop n (p1 + 1) (p2 + 1) m
  end.
Definition memcmp (s1 s2 n : Z) (m : mem_t) : res Z :=
  if n =? 0 then Ok 0 else memcmp_loop (Z.to_nat n) s1 s2 m.

(** ** Searching; 0 is NULL *)

Fixpoint memchr_loop (n : nat) (p c : Z) (m : mem_t) : res Z :=
  match n with
  | O => Ok 0
  | S n => a ← load m p; if a =? u8 c then Ok p else memchr_loop n (p + 1) c m
  end.
Definition memchr (s c n : Z) (m : mem_t) : res Z :=
  if n =? 0 then Ok 0 else memchr_loop (Z.to_nat n) s c m.

Fixpoint strchr_loop (fuel : nat) (p ch : Z) (m : mem_t) : res Z :=
  match fuel with
  | O => Err NoFuel
  | S fuel =>
    a ← load m p;
    if a =? ch then Ok p else if a =? 0 then Ok 0 else strchr_loop fuel (p + 1) ch m
  end.
Definition strchr (cp ch : Z) (m : mem_t) : res Z := strchr_loop (scan_fuel m) cp ch m.

Fixpoint strrchr_loop (fuel : nat) (p ch save : Z) (m : mem_t) : res Z :=
  match fuel with
  | O => Err NoFuel
  | S fuel =>
    a ← load m p;
    let save := if a =? ch then p else save in
    if a =? 0 then Ok save else strrchr_loop fuel (p + 1) ch save m
  end.
Definition strrchr (cp ch : Z) (m : mem_t) : res Z := strrchr_loop (scan_fuel m) cp ch 0 m.

Section Sets.
Context `{Arch}.

(** The table of 256 bits, [PTR_W] of them per word: IDX(c) and BIT(c). *)
Definition IDX (c : Z) : Z := u8 c / PTR_W.
Definition BIT (c : Z) : Z := wrap PTR_W (Z.shiftl 1 (u8 c mod PTR_W)).

Fixpoint charset_loop (fuel : nat) (charset : Z) (tbl : gmap Z Z) (m : mem_t) : res (gmap Z Z) :=
  match fuel with
  | O => Err NoFuel
  | S fuel =>
    c ← load m charset;
    if c =? 0 then Ok tbl else
    t ← load tbl (IDX c);
    charset_loop fuel (charset + 1) (<[IDX c := Z.lor t (BIT c)]> tbl) m
  end.

(** Advance [s1] while membership of its byte in the table is [b]. *)
Fixpoint span_loop (fuel : nat) (b : bool) (s1 : Z) (tbl : gmap Z Z) (m : mem_t) : res Z :=
  match fuel with
  | O => Err NoFuel
  | S fuel =>
    c ← load m s1;
    t ← load tbl (IDX c);
    if Bool.eqb (negb (Z.land t (BIT c) =? 0)) b then span_loop fuel b (s1 + 1) tbl m else Ok s1
  end.

(** [tbl[0] = first; tbl[1] = ... = 0] *)
Definition clear_tbl (first : Z) : gmap Z Z :=
  <[0 := first]> (list_to_map ((λ i, (i, 0)) <$> seqZ 0 (256 / PTR_W))).

Definition strspn (s charset : Z) (m : mem_t) : res Z :=
  c ← load m s;
  if c =? 0 then Ok 0 else
  tbl ← charset_loop (scan_fuel m) charset (clear_tbl 0) m;
  s1 ← span_loop (scan_fuel m) true s tbl m;
  Ok (s1 - s).

Definition strcspn (s charset : Z) (m : mem_t) : res Z :=
  c ← load m s;
  if c =? 0 then Ok 0 else
  tbl ← charset_loop (scan_fuel m) charset (clear_tbl 1) m;
  s1 ← span_loop (scan_fuel m) false s tbl m;
  Ok (s1 - s).

(** The inner loop of strstr: the position after the next [c]; [None] at the end. *)
Fixpoint strstr_skip (fuel : nat) (s c : Z) (m : mem_t) : res (option Z) :=
  match fuel with
  | O => Err NoFuel
  | S fuel =>
    sc ← load m s;
    if sc =? 0 then Ok None else if sc =? c then Ok (Some (s + 1)) else strstr_skip fuel (s + 1) c m
  end.

Fixpoint strstr_loop (fuel : nat) (s c find len : Z) (m : mem_t) : res Z :=
  match fuel with
  | O => Err NoFuel
  | S fuel =>
    r ← strstr_skip (scan_fuel m) s c m;
    match r with
    | None => Ok 0
    | Some s =>
      d ← strncmp s find len m;
      if d =? 0 then Ok (s - 1) else strstr_loop fuel s c find len m
    end
  end.

Definition strstr (s find : Z) (m : mem_t) : res Z :=
  c ← load m find;
  if c =? 0 then Ok s else
  len ← strlen (find + 1) m;
  strstr_loop (scan_fuel m) s c (find + 1) len m.
End Sets.

(** ** Copying *)

Fixpoint strcpy_loop (fuel : nat) (to from : Z) (m : mem_t) : res mem_t :=
  match fuel with
  | O => Err NoFuel
  | S fuel =>
    c ← load m from;
    m ← store to c m;
    if c =? 0 then Ok m else strcpy_loop fuel (to + 1) (from + 1) m
  end.
Definition strcpy (to from : Z) (m : mem_t) : res (Z * mem_t) :=
  m ← strcpy_loop (scan_fuel m) to from m; Ok (to, m).

(** [while (--nleft != 0) { if (( *dst++ = *src++) == 0) break; }], [n] rounds
    left: the final [nleft], [dst] and [src]. *)
Fixpoint strlcpy_loop (n : nat) (dst src : Z) (m : mem_t) : res (nat * Z * Z * mem_t) :=
  match n with
  | O => Ok (O, dst, src, m)
  | S n' =>
    c ← load m src;
    m ← store dst c m;
    if c =? 0 then Ok (n, dst + 1, src + 1, m) else strlcpy_loop n' (dst + 1) (src + 1) m
  end.

(** [while ( *src++);]: the final [src]. *)
Fixpoint skip_string (fuel : nat) (src : Z) (m : mem_t) : res Z :=
  match fuel with
  | O => Err NoFuel
  | S fuel => c ← load m src; if c =? 0 then Ok (src + 1) else skip_string fuel (src + 1) m
  end.

Definition strlcpy (dst src dsize : Z) (m : mem_t) : res (Z * mem_t) :=
  let osrc := src in
  '(nleft, dst, src, m) ← strlcpy_loop (Z.to_nat (dsize - 1)) dst src m;
  '(src, m) ←
    (if Nat.eqb nleft 0 then
       m ← (if negb (dsize =? 0) then store dst 0 m else Ok m);
       src ← skip_string (scan_fuel m) src m;
       Ok (src, m)
     else Ok (src, m));
  Ok (src - osrc - 1, m).

(** strsep(): [0] is NULL; the token and the new value of the pointer. *)
Fixpoint in_delim (fuel : nat) (spanp c : Z) (m : mem_t) : res bool :=
  match fuel with
  | O => Err NoFuel
  | S fuel =>
    sc ← load m spanp;
    if sc =? c then Ok true else if sc =? 0 then Ok false else in_delim fuel (spanp + 1) c m
  end.

Fixpoint strsep_loop (fuel : nat) (s delim : Z) (m : mem_t) : res (Z * mem_t) :=
  match fuel with
  | O => Err NoFuel
  | S fuel =>
    c ← load m s;
    let s := s + 1 in
    b ← in_delim (scan_fuel m) delim c m;
    if b : bool then
      if c =? 0 then Ok (0, m) else m ← store (s - 1) 0 m; Ok (s, m)
    else strsep_loop fuel s delim m
  end.

Definition strsep (stringp delim : Z) (m : mem_t) : res (Z * Z * mem_t) :=
  if stringp =? 0 then Ok (0, stringp, m) else
  '(s, m) ← strsep_loop (scan_fuel m) stringp delim m;
  Ok (stringp, s, m).

(** ** Bits (ffs.c, ffsl.c, ffsll.c, fls.c, flsl.c, flsll.c) *)

Fixpoint ffs_loop (fuel : nat) (mask bit : Z) : res Z :=
  match fuel with
  | O => Err NoFuel
  | S fuel => if Z.land mask 1 =? 0 then ffs_loop fuel (Z.shiftr mask 1) (bit + 1) else Ok bit
  end.

(** [w] is the width of the argument: 32 for ffs, that of long for ffsl, 64 for ffsll. *)
Definition ffs (w mask : Z) : res Z :=
  if mask =? 0 then Ok 0 else ffs_loop (S (Z.to_nat w)) (wrap w mask) 1.

Fixpoint fls_loop (fuel : nat) (mask bit : Z) : res Z :=
  match fuel with
  | O => Err NoFuel
  | S fuel => if mask =? 1 then Ok bit else fls_loop fuel (Z.shiftr mask 1) (bit + 1)
  end.
Definition fls (w mask : Z) : res Z :=
  if mask =? 0 then Ok 0 else fls_loop (S (Z.to_nat w)) (wrap w mask) 1.
