(* ===== verification/StringCat.v ===== *)
(** * Appending, padding and comparing memory

    (lib/libc/string: strcat.c, strncat.c, strlcat.c, strncpy.c, bcmp.c)

    bcmp compares whole words: when the two blocks are not aligned alike, the words
    of the second are put together from two halves.  The machine is
    little-endian. *)

From S2P Require Import Prelude Freelist Memory StringCopy StringScan.
Local Open Scope Z_scope.

Section Model.
Context `{Arch}.

(** ** Strings *)

(** [for (; *s; ++s)]: where the NUL is. *)
Fixpoint find_end (fuel : nat) (s : Z) (m : mem_t) : res Z :=
  match fuel with
  | O => Err NoFuel
  | S fuel => c ← load m s; if c =? 0 then Ok s else find_end fuel (s + 1) m
  end.

Definition strcat (s append : Z) (m : mem_t) : res (Z * mem_t) :=
  d ← find_end (scan_fuel m) s m;
  m ← strcpy_loop (scan_fuel m) d append m;
  Ok (s, m).

(** The do loop: [d] after it. *)
Fixpoint strncat_loop (n : nat) (d s : Z) (m : mem_t) : res (Z * mem_t) :=
  match n with
  | O => Ok (d, m)
  | S n =>
    c ← load m s;
    m ← store d c m;
    if c =? 0 then Ok (d, m) else strncat_loop n (d + 1) (s + 1) m
  end.

Definition strncat (dst src n : Z) (m : mem_t) : res (Z * mem_t) :=
  if n =? 0 then Ok (dst, m) else
  d ← find_end (scan_fuel m) dst m;
  '(d, m) ← strncat_loop (Z.to_nat n) d src m;
  m ← store d 0 m;
  Ok (dst, m).

(** [while (--n != 0) *d++ = 0], [n] times. *)
Fixpoint pad_nul (n : nat) (d : Z) (m : mem_t) : res mem_t :=
  match n with O => Ok m | S n => m ← store d 0 m; pad_nul n (d + 1) m end.

Fixpoint strncpy_loop (n : nat) (d s : Z) (m : mem_t) : res mem_t :=
  match n with
  | O => Ok m
  | S n =>
    c ← load m s;
    m ← store d c m;
    if c =? 0 then pad_nul n (d + 1) m else strncpy_loop n (d + 1) (s + 1) m
  end.

Definition strncpy (dst src n : Z) (m : mem_t) : res (Z * mem_t) :=
  m ← strncpy_loop (Z.to_nat n) dst src m;
  Ok (dst, m).

(** [while (n-- != 0 && *d)] *)
Fixpoint bounded_end (n : nat) (d : Z) (m : mem_t) : res Z :=
  match n with
  | O => Ok d
  | S n => c ← load m d; if c =? 0 then Ok d else bounded_end n (d + 1) m
  end.

(** [while ( *s)]: the final [d], [s]. *)
Fixpoint strlcat_loop (fuel : nat) (n d s : Z) (m : mem_t) : res (Z * Z * mem_t) :=
  match fuel with
  | O => Err NoFuel
  | S fuel =>
    c ← load m s;
    if c =? 0 then Ok (d, s, m) else
    if n =? 1 then strlcat_loop fuel n d (s + 1) m
    else m ← store d c m; strlcat_loop fuel (n - 1) (d + 1) (s + 1) m
  end.

Definition strlcat (dst src siz : Z) (m : mem_t) : res (Z * mem_t) :=
  d ← bounded_end (Z.to_nat siz) dst m;
  let dlen := d - dst in
  let n := siz - dlen in
  if n =? 0 then l ← strlen src m; Ok (dlen + l, m) else
  '(d, s, m) ← strlcat_loop (scan_fuel m) n d src m;
  m ← store d 0 m;
  Ok (dlen + (s - src), m).

(** ** bcmp *)

(** The bytes up to a word boundary of [p1]; [inl] is a result. *)
Fixpoint bcmp_align (fuel : nat) (p1 p2 len : Z) (m : mem_t) : res (Z + Z * Z * Z) :=
  match fuel with
  | O => Err NoFuel
  | S fuel =>
    if Z.land p1 wmask =? 0 then Ok (inr (p1, p2, len)) else
    x ← load m p1;
    y ← load m p2;
    if negb (x =? y) then Ok (inl 1) else
    if len - 1 <=? 0 then Ok (inl 0) else bcmp_align fuel (p1 + 1) (p2 + 1) (len - 1) m
  end.

(** The loops over words: [k] yields the word of the second block at [p2] and the
    word that is kept for the next round. *)
Fixpoint bcmp_words (fuel : nat) (next : Z → Z → mem_t → res (Z * Z)) (p1 p2 va len : Z) (m : mem_t)
    : res (Z + Z * Z * Z * Z) :=
  match fuel with
  | O => Err NoFuel
  | S fuel =>
    let len := len - wsize in
    if 0 <=? len then
      '(y, va) ← next va p2 m;
      x ← ldw (Z.to_nat wsize) p1 m;
      if negb (x =? y) then Ok (inl 1)
      else bcmp_words fuel next (p1 + wsize) (p2 + wsize) va len m
    else Ok (inr (p1, p2, va, len))
  end.

(** Both pointers are aligned: the words and the bytes that remain. *)
Definition bcmp_straight (p1 p2 len : Z) (m : mem_t) : res Z :=
  let next (va : Z) p2 m := y ← ldw (Z.to_nat wsize) p2 m; Ok (y, va) in
  r ← bcmp_words (S (Z.to_nat len)) next p1 p2 0 len m;
  match r with
  | inl r => Ok r
  | inr (p1, p2, _, len) =>
    let len := len + wsize in
    if len =? 0 then Ok 0 else
    x ← ldw (Z.to_nat wsize) p1 m;
    y ← ldw (Z.to_nat wsize) p2 m;
    Ok (if Z.land (Z.lxor x y) (Z.shiftl 1 (Z.shiftl len 3) - 1) =? 0 then 0 else 1)
  end.

(** [p2] is [shr] bytes past a word boundary. *)
Definition bcmp_shifted (p1 p2 shr len : Z) (m : mem_t) : res Z :=
  let p2 := p2 - shr in
  let shr := Z.shiftl shr 3 in
  let shl := PTR_W - shr in
  va ← ldw (Z.to_nat wsize) p2 m;
  let next va p2 m :=
    vb ← ldw (Z.to_nat wsize) p2 m;
    Ok (Z.lor (Z.shiftr va shr) (wrap PTR_W (Z.shiftl vb shl)), vb) in
  r ← bcmp_words (S (Z.to_nat len)) next p1 (p2 + wsize) va len m;
  match r with
  | inl r => Ok r
  | inr (p1, p2, va, len) =>
    let len := len + wsize in
    if len =? 0 then Ok 0 else
    let len := Z.shiftl len 3 in
    h ← (if shl <? len then vb ← ldw (Z.to_nat wsize) p2 m; Ok (wrap PTR_W (Z.shiftl vb shl)) else Ok 0);
    x ← ldw (Z.to_nat wsize) p1 m;
    Ok (if Z.land (Z.lxor (Z.lor (Z.shiftr va shr) h) x) (Z.shiftl 1 len - 1) =? 0 then 0 else 1)
  end.

Definition bcmp (b1 b2 length : Z) (m : mem_t) : res Z :=
  let len := s32 length in
  if len =? 0 then Ok 0 else
  r ← bcmp_align (Z.to_nat wsize) b1 b2 len m;
  match r with
  | inl r => Ok r
  | inr (p1, p2, len) =>
    let shr := Z.land p2 wmask in
    if negb (shr =? 0) then bcmp_shifted p1 p2 shr len m else bcmp_straight p1 p2 len m
  end.
End Model.
