(* ===== verification/StringTheorems.v ===== *)
(** * String functions: correctness *)

From S2P Require Import Prelude Freelist Memory StringCopy StringScan.
Local Open Scope Z_scope.

(** The string [l] is at [s]. *)
Fixpoint cstr (m : mem_t) (s : Z) (l : list Z) : Prop :=
  match l with
  | [] => m !! s = Some 0
  | c :: l => m !! s = Some c ∧ 0 < c < 256 ∧ cstr m (s + 1) l
  end.

Lemma cstr_mapped m s l : cstr m s l → mapped m s (Z.of_nat (length l) + 1).
Proof.
  revert s. induction l as [|c l IH]; intros s H x Hx; cbn [cstr length] in *.
  - replace x with s by lia. eauto.
  - destruct H as (E & _ & H). destruct (decide (x = s)) as [->|]; [eauto|].
    apply (IH _ H). lia.
Qed.

Lemma mapped_size m a n : 0 ≤ n → mapped m a n → (Z.to_nat n ≤ size m)%nat.
Proof.
  intros Hn Hm. rewrite <- (size_dom (D := gset Z)).
  assert (length (seqZ a n) = Z.to_nat n) as <- by apply length_seqZ.
  rewrite <- (size_list_to_set (C := gset Z)) by apply NoDup_seqZ.
  apply subseteq_size. intros x Hx. apply elem_of_list_to_set, elem_of_seqZ in Hx.
  apply elem_of_dom, Hm. lia.
Qed.

Lemma cstr_fuel m s l : cstr m s l → (length l < scan_fuel m)%nat.
Proof.
  intros H. apply cstr_mapped in H. apply mapped_size in H; [|lia]. unfold scan_fuel. lia.
Qed.

Lemma cstr_byte m s l i : cstr m s l → (i < length l)%nat → ∃ c, m !! (s + Z.of_nat i) = Some c ∧ 0 < c < 256.
Proof.
  revert s i. induction l as [|c l IH]; intros s i H Hi; simpl in Hi; [lia|]. destruct H as (E & Hc & H).
  destruct i as [|i]; [exists c; by rewrite Z.add_0_r|].
  destruct (IH _ i H ltac:(lia)) as (d & Ed & Hd). exists d. split; [|done]. rewrite <- Ed. f_equal. lia.
Qed.

Lemma cstr_end m s l : cstr m s l → m !! (s + Z.of_nat (length l)) = Some 0.
Proof.
  revert s. induction l as [|c l IH]; intros s H; [by rewrite Z.add_0_r|]. destruct H as (_ & _ & H).
  rewrite <- (IH _ H). f_equal. simpl. lia.
Qed.

(** ** strlen *)

Lemma find_nul_spec n p l m k :
  cstr m p l → (k = length l)%nat →
  find_nul n p m = Ok (if (k <? n)%nat then Some (p + Z.of_nat k) else None).
Proof.
  intros H ->. revert p l H. induction n as [|n IH]; intros p l H; cbn [find_nul].
  - destruct (Nat.ltb_spec (length l) 0); [lia|done].
  - destruct l as [|c l]; cbn [cstr length] in *.
    + rewrite (load_Some _ _ _ H). cbn. by rewrite Z.add_0_r.
    + destruct H as (E & Hc & H). rewrite (load_Some _ _ _ E). cbn [mbind res_bind].
      destruct (Z.eqb_spec c 0); [lia|]. rewrite (IH _ _ H).
      change (S (length l) <? S n)%nat with (length l <? n)%nat. destruct (length l <? n)%nat; [|done].
      do 2 f_equal. lia.
Qed.

Lemma cstr_drop m s l k : cstr m s l → (k ≤ length l)%nat → cstr m (s + Z.of_nat k) (drop k l).
Proof.
  revert s l. induction k as [|k IH]; intros s l H Hk; [by rewrite Z.add_0_r, drop_0|].
  destruct l as [|c l]; simpl in Hk; [lia|]. destruct H as (_ & _ & H).
  replace (s + Z.of_nat (S k)) with (s + 1 + Z.of_nat k) by lia. apply IH; [done|lia].
Qed.

(** Splitting a word at byte [i]. *)
Lemma word_split m i k a :
  word_of m (i + k) a = word_of m i a + 256 ^ Z.of_nat i * word_of m k (a + Z.of_nat i).
Proof.
  revert a. induction i as [|i IH]; intros a.
  - rewrite Z.add_0_r. cbn [Nat.add word_of]. change (256 ^ Z.of_nat 0) with 1. lia.
  - cbn [Nat.add word_of]. rewrite IH. rewrite Nat2Z.inj_succ, Z.pow_succ_r by lia.
    replace (a + Z.succ (Z.of_nat i)) with (a + 1 + Z.of_nat i) by lia. lia.
Qed.

(** The word of [k] bytes equal to one. *)
Fixpoint ones (k : nat) : Z := match k with O => 0 | S k => 1 + 256 * ones k end.

Lemma ones_split i k : ones (i + k) = ones i + 256 ^ Z.of_nat i * ones k.
Proof.
  induction i as [|i IH]; [cbn [Nat.add ones]; change (256 ^ Z.of_nat 0) with 1; lia|].
  cbn [Nat.add ones]. rewrite IH, Nat2Z.inj_succ, Z.pow_succ_r by lia. lia.
Qed.

Lemma ones_le_word m k a :
  bytes_ok m → (∀ i, 0 ≤ i < Z.of_nat k → ∃ c, m !! (a + i) = Some c ∧ 0 < c < 256) → ones k ≤ word_of m k a.
Proof.
  intros Hb. revert a. induction k as [|k IH]; intros a Hc; [done|]. cbn [ones word_of].
  destruct (Hc 0 ltac:(lia)) as (c & E & Hr). rewrite Z.add_0_r in E. rewrite E. simpl.
  specialize (IH (a + 1)). destruct Hr. enough (ones k ≤ word_of m k (a + 1)) by lia. apply IH.
  intros i Hi. destruct (Hc (i + 1) ltac:(lia)) as (d & Ed & Hd). exists d. split; [|done].
  rewrite <- Ed. f_equal. lia.
Qed.

Section Strlen.
Context `{Arch}.

Lemma mask01_ones : mask01 = ones (Z.to_nat wsize) ∧ mask80 = 128 * ones (Z.to_nat wsize).
Proof.
  unfold mask80, mask01, wsize. destruct arch_ok as [->| ->]; done.
Qed.

Lemma PTR_W_bytes : PTR_W = 8 * wsize.
Proof. unfold wsize. by destruct arch_ok as [->| ->]. Qed.

Lemma testbit_8 a b i : 0 ≤ i → 0 ≤ a < 256 ^ i → Z.testbit (a + 256 ^ i * b) (8 * i + 7) = Z.testbit b 7.
Proof.
  intros Hi Ha. assert (256 ^ i = 2 ^ (8 * i)) as E by (rewrite Z.pow_mul_r by lia; done).
  rewrite E in *. replace (8 * i + 7) with (7 + 8 * i) by lia.
  rewrite <- Z.shiftr_spec by lia. rewrite Z.shiftr_div_pow2 by lia.
  rewrite (Z.mul_comm (2 ^ (8 * i))), Z_div_plus_full, Z.div_small by lia. done.
Qed.

(** The test misses no zero byte: byte [i], the first zero byte of the word at
    [lp], leaves its top bit set in both operands. *)
Lemma zero_test_complete m lp i :
  bytes_ok m → 0 ≤ i < wsize → m !! (lp + i) = Some 0 →
  (∀ j, 0 ≤ j < i → ∃ c, m !! (lp + j) = Some c ∧ 0 < c < 256) →
  zero_test (word_of m (Z.to_nat wsize) lp) ≠ 0.
Proof.
  intros Hb Hi Ez Hlow E0. destruct mask01_ones as [E01 E80].
  assert (∃ k, Z.to_nat wsize = Z.to_nat i + S k)%nat as [k Ek].
  { exists (Z.to_nat wsize - Z.to_nat i - 1)%nat. pose proof wsize_cases. lia. }
  apply (f_equal (λ z, Z.testbit z (8 * i + 7))) in E0. rewrite Z.bits_0 in E0.
  unfold zero_test in E0. rewrite !Z.land_spec, Z.lnot_spec in E0 by lia.
  unfold wrap in E0. rewrite Z.mod_pow2_bits_low in E0.
  2:{ rewrite PTR_W_bytes. lia. }
  rewrite E01, E80, Ek, ones_split, word_split in E0. cbn [word_of ones] in E0.
  rewrite !Z2Nat.id in E0 by lia. rewrite Ez in E0. simpl default in E0.
  set (P := 256 ^ i) in *. set (wl := word_of m (Z.to_nat i) lp) in *. set (ol := ones (Z.to_nat i)) in *.
  set (wh := word_of m k _) in *. set (oh := ones k) in *.
  pose proof (word_range m (Z.to_nat i) lp Hb) as Hwl. rewrite Z2Nat.id in Hwl by lia. fold wl P in Hwl.
  assert (0 ≤ ol ≤ wl) as Hol.
  { split; [|apply ones_le_word; [done|]; intros j Hj; apply Hlow; lia]. unfold ol.
    clear. induction (Z.to_nat i) as [|n IH]; cbn [ones]; lia. }
  assert (0 ≤ 128 * ol < P) as Hol2.
  { assert (∀ n, 0 ≤ 255 * ones n < 256 ^ Z.of_nat n) as Hn.
    { induction n as [|n IH]; cbn [ones]; [lia|]. rewrite Nat2Z.inj_succ, Z.pow_succ_r by lia. lia. }
    specialize (Hn (Z.to_nat i)). rewrite Z2Nat.id in Hn by lia. fold ol P in Hn. lia. }
  replace (wl + P * (0 + 256 * wh) - (ol + P * (1 + 256 * oh)))
    with ((wl - ol) + P * (255 + 256 * (wh - oh - 1))) in E0 by lia.
  replace (128 * (ol + P * (1 + 256 * oh))) with (128 * ol + P * (128 + 256 * (128 * oh))) in E0 by lia.
  unfold P in E0. rewrite !testbit_8 in E0 by (fold P; lia).
  assert (∀ x y, 0 ≤ x < 256 → Z.testbit (x + 256 * y) 7 = Z.testbit x 7) as Ht.
  { intros x y Hx. rewrite <- (Z.mod_pow2_bits_low (x + 256 * y) 8), <- (Z.mod_pow2_bits_low x 8) by lia.
    change (2 ^ 8) with 256. by rewrite (Z.mul_comm 256), Z_mod_plus_full. }
  rewrite !Ht in E0 by lia. discriminate E0.
Qed.

(** The aligned words from the one that holds [a] up to the one that holds the
    terminating zero are mapped. *)
Definition words_mapped (m : mem_t) (s : Z) (n : Z) : Prop :=
  ∃ lo hi, lo mod wsize = 0 ∧ hi mod wsize = 0 ∧ lo ≤ s ∧ s + n < hi ∧ mapped m lo (hi - lo).

Lemma zero_test_has m lp i :
  bytes_ok m → mapped m lp wsize → 0 ≤ i < wsize → m !! (lp + i) = Some 0 →
  zero_test (word_of m (Z.to_nat wsize) lp) ≠ 0.
Proof.
  intros Hb Hm. induction i as [i IH] using (well_founded_induction (Z.lt_wf 0)). intros Hi Ez.
  destruct (decide (Exists (λ j, m !! (lp + j) = Some 0) (seqZ 0 i))) as [Hex|Hno].
  - apply Exists_exists in Hex as (j & Hj & Ej). apply elem_of_seqZ in Hj. apply (IH j); (done || lia).
  - apply (zero_test_complete m lp i Hb); [lia|done|]. intros j Hj.
    destruct (Hm (lp + j) ltac:(lia)) as [c Ec]. exists c. split; [done|].
    pose proof (Hb _ _ Ec). cbv beta in *. destruct (decide (c = 0)) as [->|]; [|lia].
    exfalso. apply Hno, Exists_exists. exists j. rewrite elem_of_seqZ. split; [lia|done].
Qed.

(** One word of the scan, from the position [p] in it where the string [l] starts. *)
Lemma scan_word m p l lp :
  bytes_ok m → mapped m lp wsize → cstr m p l → lp ≤ p < lp + wsize →
  (if zero_test (word_of m (Z.to_nat wsize) lp) =? 0 then Ok None
   else find_nul (Z.to_nat (lp + wsize - p)) p m) =
  Ok (if p + Z.of_nat (length l) <? lp + wsize then Some (p + Z.of_nat (length l)) else None).
Proof.
  intros Hb Hm Hc Hp. rewrite (find_nul_spec _ _ _ _ _ Hc eq_refl).
  assert ((length l <? Z.to_nat (lp + wsize - p))%nat = (p + Z.of_nat (length l) <? lp + wsize)) as ->.
  { destruct (Nat.ltb_spec (length l) (Z.to_nat (lp + wsize - p))), (Z.ltb_spec (p + Z.of_nat (length l)) (lp + wsize)); (done || lia). }
  destruct (Z.eqb_spec (zero_test (word_of m (Z.to_nat wsize) lp)) 0) as [E|E]; [|done].
  destruct (Z.ltb_spec (p + Z.of_nat (length l)) (lp + wsize)) as [Hlt|]; [|done]. exfalso. revert E.
  apply (zero_test_has m lp (p + Z.of_nat (length l) - lp) Hb Hm); [lia|].
  rewrite <- (cstr_end _ _ _ Hc). f_equal. lia.
Qed.

Lemma ldw_ok m lp : mapped m lp wsize → lp mod wsize = 0 →
  ldw (Z.to_nat wsize) lp m = Ok (word_of m (Z.to_nat wsize) lp).
Proof.
  intros Hm Ha. pose proof wsize_cases. unfold ldw. rewrite Z2Nat.id by lia. rewrite Ha. cbn [Z.eqb].
  apply ldn_ok. by rewrite Z2Nat.id by lia.
Qed.

Lemma aligned_room lp hi x : lp mod wsize = 0 → hi mod wsize = 0 → lp ≤ x < hi → lp + wsize ≤ hi.
Proof.
  intros Hl Hh Hx. pose proof wsize_cases. assert (wsize ≠ 0) as Hw by lia.
  apply Z.mod_divide in Hl as [a ->]; [|done]. apply Z.mod_divide in Hh as [b ->]; [|done].
  assert (a < b) by nia. nia.
Qed.

Lemma strlen_loop_spec fuel str lp l m hi :
  bytes_ok m → cstr m lp l → lp mod wsize = 0 → hi mod wsize = 0 → lp + Z.of_nat (length l) < hi →
  mapped m lp (hi - lp) → (length l < fuel)%nat →
  strlen_loop fuel str lp m = Ok (lp + Z.of_nat (length l) - str).
Proof.
  intros Hb. revert lp l. induction fuel as [|fuel IH]; intros lp l Hc Hl Hh Hlen Hm Hf; [lia|].
  pose proof wsize_cases. cbn [strlen_loop].
  pose proof (aligned_room lp hi (lp + Z.of_nat (length l)) Hl Hh ltac:(lia)) as Hroom.
  assert (mapped m lp wsize) as Hm1 by (apply (mapped_sub _ _ _ _ _ Hm); lia).
  rewrite ldw_ok by done. cbn [mbind res_bind].
  pose proof (scan_word m lp l lp Hb Hm1 Hc ltac:(lia)) as Hs.
  replace (lp + wsize - lp) with wsize in Hs by lia. rewrite Hs. cbn [mbind res_bind].
  destruct (Z.ltb_spec (lp + Z.of_nat (length l)) (lp + wsize)); [done|].
  pose proof (cstr_drop m lp l (Z.to_nat wsize) Hc ltac:(lia)) as Hd. rewrite Z2Nat.id in Hd by lia.
  rewrite (IH (lp + wsize) (drop (Z.to_nat wsize) l)).
  - rewrite length_drop. f_equal. lia.
  - done.
  - by apply mod_add_same.
  - done.
  - rewrite length_drop. lia.
  - apply (mapped_sub _ _ _ _ _ Hm); lia.
  - rewrite length_drop. lia.
Qed.

Lemma ldiff_wmask x : Z.ldiff x wmask = x - x mod wsize.
Proof.
  rewrite <- land_wmask. assert (x = Z.ldiff x wmask + Z.land x wmask) as E; [|lia].
  rewrite Z.add_nocarry_lxor, Z.lxor_lor; apply Z.bits_inj'; intros n Hn;
    rewrite ?Z.bits_0, ?Z.lor_spec, ?Z.land_spec, ?Z.ldiff_spec;
    by destruct (Z.testbit x n), (Z.testbit wmask n).
Qed.

Lemma strlen_ok m s l : bytes_ok m → cstr m s l → words_mapped m s (Z.of_nat (length l)) →
  strlen s m = Ok (Z.of_nat (length l)).
Proof.
  intros Hb Hc (lo & hi & Hlo & Hhi & Hls & Hse & Hm). pose proof wsize_cases.
  unfold strlen. rewrite ldiff_wmask. assert (0 < wsize) as Hw by lia.
  pose proof (Z.mod_pos_bound s _ Hw) as Hmod. pose proof (align_down s) as Hal.
  set (lp := s - s mod wsize) in *.
  assert (lo ≤ lp) as Hge.
  { destruct (Z.le_gt_cases lo lp); [done|]. pose proof (aligned_room lp lo lp Hal Hlo ltac:(lia)). lia. }
  pose proof (aligned_room lp hi s Hal Hhi ltac:(lia)) as Hroom.
  assert (mapped m lp wsize) as Hm1 by (apply (mapped_sub _ _ _ _ _ Hm); lia).
  rewrite ldw_ok by done. cbn [mbind res_bind].
  rewrite (scan_word m s l lp Hb Hm1 Hc ltac:(lia)). cbn [mbind res_bind].
  destruct (Z.ltb_spec (s + Z.of_nat (length l)) (lp + wsize)); [f_equal; lia|].
  set (k := Z.to_nat (lp + wsize - s)).
  pose proof (cstr_drop m s l k Hc ltac:(lia)) as Hd.
  replace (s + Z.of_nat k) with (lp + wsize) in Hd by lia.
  pose proof (cstr_fuel _ _ _ Hc).
  rewrite (strlen_loop_spec _ _ _ (drop k l) _ hi); rewrite ?length_drop; try done; try lia.
  - f_equal. lia.
  - by apply mod_add_same.
  - apply (mapped_sub _ _ _ _ _ Hm); lia.
Qed.

(** The word-wide strlen returns the number of bytes before the terminating
    zero, for every alignment of the string and whatever the neighbouring bytes
    of its words hold: the bit trick misses no zero byte and its false alarms
    are harmless. *)
Theorem strlen_correct (s : Z) (l : list Z) (m : mem_t) :
  bytes_ok m → cstr m s l → words_mapped m s (Z.of_nat (length l)) →
  strlen s m = Ok (Z.of_nat (length l)).
Proof. apply strlen_ok. Qed.
End Strlen.

(** ** Comparison *)

(** The difference of the first bytes, mapped by [f], in which two strings and
    their terminating zeros differ. *)
Fixpoint first_diff (f : Z → Z) (l1 l2 : list Z) : Z :=
  match l1, l2 with
  | [], [] => 0
  | a :: l1, b :: l2 => if f a =? f b then first_diff f l1 l2 else f a - f b
  | _, _ => f (hd 0 l1) - f (hd 0 l2)
  end.

Lemma cstr_load m s l : cstr m s l → load m s = Ok (hd 0 l).
Proof. destruct l; simpl; [|intros [? _]]; by apply load_Some. Qed.

Lemma tolower_zero c : 0 ≤ c → tolower c = 0 ↔ c = 0.
Proof. unfold tolower. destruct (Z.leb_spec 65 c), (Z.leb_spec c 90); simpl; lia. Qed.

Lemma strcasecmp_loop_spec fuel s1 s2 l1 l2 m :
  cstr m s1 l1 → cstr m s2 l2 → (length l1 < fuel)%nat →
  strcasecmp_loop fuel s1 s2 m = Ok (first_diff tolower l1 l2).
Proof.
  revert s1 s2 l1 l2. induction fuel as [|fuel IH]; intros s1 s2 l1 l2 H1 H2 Hf; [lia|].
  cbn [strcasecmp_loop]. rewrite (cstr_load _ _ _ H1), (cstr_load _ _ _ H2). cbn [mbind res_bind].
  destruct l1 as [|a l1], l2 as [|b l2]; cbn [cstr hd first_diff length] in *.
  - done.
  - destruct H2 as (_ & Hb & _). destruct (Z.eqb_spec (tolower 0) (tolower b)) as [E|]; [|done].
    change (tolower 0) with 0 in E.
    pose proof (tolower_zero b). lia.
  - destruct H1 as (_ & Ha & _). destruct (Z.eqb_spec (tolower a) (tolower 0)) as [E|]; [|done].
    change (tolower 0) with 0 in E.
    pose proof (tolower_zero a). lia.
  - destruct H1 as (_ & Ha & H1), H2 as (_ & Hb & H2).
    destruct (tolower a =? tolower b); [|done]. destruct (Z.eqb_spec a 0); [lia|].
    apply IH; (done || lia).
Qed.

Lemma strcmp_loop_spec fuel s1 s2 l1 l2 m :
  cstr m s1 l1 → cstr m s2 l2 → (length l1 < fuel)%nat →
  strcmp_loop fuel s1 s2 m = Ok (first_diff id l1 l2).
Proof.
  revert s1 s2 l1 l2. induction fuel as [|fuel IH]; intros s1 s2 l1 l2 H1 H2 Hf; [lia|].
  cbn [strcmp_loop]. rewrite (cstr_load _ _ _ H1), (cstr_load _ _ _ H2). cbn [mbind res_bind].
  destruct l1 as [|a l1], l2 as [|b l2]; cbn [cstr hd first_diff length id] in *.
  - done.
  - destruct H2 as (_ & Hb & _). destruct (Z.eqb_spec 0 b); [lia|done].
  - destruct H1 as (_ & Ha & _). destruct (Z.eqb_spec a 0); [lia|done].
  - destruct H1 as (_ & Ha & H1), H2 as (_ & Hb & H2).
    destruct (a =? b); [|done]. destruct (Z.eqb_spec a 0); [lia|]. apply IH; (done || lia).
Qed.

Lemma strcmp_ok s1 s2 l1 l2 m : cstr m s1 l1 → cstr m s2 l2 → strcmp s1 s2 m = Ok (first_diff id l1 l2).
Proof. intros H1 H2. apply strcmp_loop_spec; [done|done|by eapply cstr_fuel]. Qed.

Lemma strcasecmp_ok s1 s2 l1 l2 m :
  cstr m s1 l1 → cstr m s2 l2 → strcasecmp s1 s2 m = Ok (first_diff tolower l1 l2).
Proof. intros H1 H2. apply strcasecmp_loop_spec; [done|done|by eapply cstr_fuel]. Qed.

Lemma difference_zero f l1 l2 :
  (∀ c, 0 ≤ c → f c = 0 ↔ c = 0) → Forall (λ c, 0 < c) l1 → Forall (λ c, 0 < c) l2 →
  first_diff f l1 l2 = 0 ↔ f <$> l1 = f <$> l2.
Proof.
  intros Hf. revert l2. induction l1 as [|a l1 IH]; intros [|b l2] H1 H2; cbn [first_diff hd].
  - done.
  - apply Forall_cons in H2 as [Hb _]. pose proof (Hf b ltac:(lia)). pose proof (Hf 0 ltac:(lia)).
    split; [lia|done].
  - apply Forall_cons in H1 as [Ha _]. pose proof (Hf a ltac:(lia)). pose proof (Hf 0 ltac:(lia)).
    split; [lia|done].
  - apply Forall_cons in H1 as [Ha H1], H2 as [Hb H2]. cbn [fmap list_fmap].
    destruct (Z.eqb_spec (f a) (f b)) as [E|E].
    + rewrite (IH l2 H1 H2). rewrite E. split; [by intros ->|by intros [=]].
    + split; [lia|by intros [=]].
Qed.

Lemma cstr_pos m s l : cstr m s l → Forall (λ c, 0 < c) l.
Proof.
  revert s. induction l as [|c l IH]; intros s H; [constructor|]. destruct H as (_ & ? & H).
  constructor; [lia|by eapply IH].
Qed.

(** Strcmp and strcasecmp decide equality of strings, the latter up to the
    case of ASCII letters: they terminate within the memory and return the
    first_diff of the first bytes in which the strings and their terminating
    zeros differ, which is zero exactly when the strings are equal. *)
Theorem strcmp_decides (s1 s2 : Z) (l1 l2 : list Z) (m : mem_t) :
  cstr m s1 l1 → cstr m s2 l2 →
  (∃ d, strcmp s1 s2 m = Ok d ∧ d = first_diff id l1 l2 ∧ (d = 0 ↔ l1 = l2)) ∧
  (∃ d, strcasecmp s1 s2 m = Ok d ∧ d = first_diff tolower l1 l2 ∧
     (d = 0 ↔ tolower <$> l1 = tolower <$> l2)).
Proof.
  intros H1 H2. pose proof (cstr_pos _ _ _ H1). pose proof (cstr_pos _ _ _ H2). split.
  - eexists. split_and!; [by apply strcmp_ok|done|]. rewrite difference_zero by done.
    by rewrite !list_fmap_id.
  - eexists. split_and!; [by apply strcasecmp_ok|done|].
    apply difference_zero; [apply tolower_zero|done|done].
Qed.

(** ** strlcpy *)

Lemma written_lookup_out dst n f m m' a : written dst n f m m' → ¬ (dst ≤ a < dst + n) → m' !! a = m !! a.
Proof. intros Hw Ha. rewrite Hw. by rewrite decide_False. Qed.

Lemma cstr_frame m m' s l :
  (∀ a, s ≤ a ≤ s + Z.of_nat (length l) → m' !! a = m !! a) → cstr m s l → cstr m' s l.
Proof.
  revert s. induction l as [|c l IH]; intros s Hf H; cbn [cstr length] in *.
  - rewrite Hf by lia. done.
  - destruct H as (E & Hc & H). split; [by rewrite Hf by lia|]. split; [done|].
    apply IH; [|done].
    intros a Ha. apply Hf. lia.
Qed.

Lemma skip_string_spec fuel src l m :
  cstr m src l → (length l < fuel)%nat → skip_string fuel src m = Ok (src + Z.of_nat (length l) + 1).
Proof.
  revert src l. induction fuel as [|fuel IH]; intros src l H Hf; [lia|]. cbn [skip_string].
  rewrite (cstr_load _ _ _ H). cbn [mbind res_bind]. destruct l as [|c l]; cbn [hd length cstr] in *.
  - cbn. f_equal. lia.
  - destruct H as (_ & Hc & H). destruct (Z.eqb_spec c 0); [lia|]. rewrite (IH _ l H) by lia. f_equal. lia.
Qed.

(** The bytes of the string [l] followed by its terminating zero. *)
Definition with_nul (l : list Z) (i : Z) : option Z := (l ++ [0]) !! Z.to_nat i.

Lemma store_written a v m : is_Some (m !! a) → written a 1 (λ _, Some v) m (<[a := v]> m).
Proof.
  intros _ x. destruct (decide (x = a)) as [->|Hne].
  - rewrite lookup_insert_eq, decide_True by lia. done.
  - rewrite lookup_insert_ne by done. rewrite decide_False by lia. done.
Qed.

(** The loop copies at most [n] bytes; it stops early after the zero. *)
Lemma strlcpy_loop_spec n dst src l m :
  cstr m src l → mapped m dst (Z.of_nat n) →
  dst + Z.of_nat n ≤ src ∨ src + Z.of_nat (length l) < dst →
  ∃ m', strlcpy_loop n dst src m =
      (if (length l <? n)%nat
       then Ok ((n - length l)%nat, dst + Z.of_nat (length l) + 1, src + Z.of_nat (length l) + 1, m')
       else Ok (O, dst + Z.of_nat n, src + Z.of_nat n, m')) ∧
    written dst (if (length l <? n)%nat then Z.of_nat (length l) + 1 else Z.of_nat n) (with_nul l) m m'.
Proof.
  revert dst src l m. induction n as [|n IH]; intros dst src l m H Hd Hsep.
  - exists m. split; [cbn; by rewrite !Z.add_0_r|]. destruct (Nat.ltb_spec (length l) 0); [lia|].
    apply written_nil.
  - cbn [strlcpy_loop]. rewrite (cstr_load _ _ _ H). cbn [mbind res_bind].
    assert (is_Some (m !! dst)) as Hm by (apply Hd; lia). rewrite store_ok by done. cbn [mbind res_bind].
    destruct l as [|c l]; cbn [hd length cstr] in *.
    + change (0 =? 0) with true. cbv iota. change (0 <? S n)%nat with true. cbv iota.
      exists (<[dst := 0]> m). split; [do 3 f_equal; [f_equal; lia|lia]|].
      eapply written_ext; [|by apply store_written]. intros i Hi. replace i with 0 by lia. done.
    + destruct H as (E & Hc & H). destruct (Z.eqb_spec c 0); [lia|].
      destruct (IH (dst + 1) (src + 1) l (<[dst := c]> m)) as (m' & Em & Hw).
      * eapply cstr_frame; [|exact H]. intros a Ha. rewrite lookup_insert_ne; [done|]. lia.
      * apply mapped_insert, (mapped_sub _ _ _ _ _ Hd); lia.
      * lia.
      * exists m'. change (S (length l) <? S n)%nat with (length l <? n)%nat. rewrite Em. split.
        -- destruct (length l <? n)%nat; do 3 f_equal; [f_equal; lia|lia|f_equal; lia|lia].
        -- pose proof (store_written dst c m Hm) as Hw1.
           replace (if (length l <? n)%nat then Z.of_nat (S (length l)) + 1 else Z.of_nat (S n)) with
             (1 + (if (length l <? n)%nat then Z.of_nat (length l) + 1 else Z.of_nat n))
             by (destruct (length l <? n)%nat; lia).
           eapply written_ext; [|apply (written_app _ _ _ (λ _, Some c) (with_nul l) m (<[dst:=c]> m) m'); [lia| |exact Hw1|exact Hw]].
           ++ intros i Hi. cbv beta. unfold with_nul. destruct (decide (i < 1)).
              ** replace i with 0 by lia. done.
              ** replace (Z.to_nat i) with (S (Z.to_nat (i - 1))) by lia. done.
           ++ destruct (length l <? n)%nat; lia.
Qed.

Lemma cstr_intro m s l :
  Forall (λ c, 0 < c < 256) l →
  (∀ i, (i ≤ length l)%nat → m !! (s + Z.of_nat i) = (l ++ [0]) !! i) → cstr m s l.
Proof.
  revert s. induction l as [|c l IH]; intros s Hl Hm; cbn [cstr].
  - rewrite <- (Z.add_0_r s). exact (Hm 0%nat ltac:(simpl; lia)).
  - apply Forall_cons in Hl as [Hc Hl]. split.
    + rewrite <- (Z.add_0_r s). exact (Hm 0%nat ltac:(simpl; lia)).
    + split; [done|]. apply IH; [done|]. intros i Hi.
      replace (s + 1 + Z.of_nat i) with (s + Z.of_nat (S i)) by lia. apply (Hm (S i)). simpl. lia.
Qed.

Lemma cstr_bytes m s l : cstr m s l → Forall (λ c, 0 < c < 256) l.
Proof.
  revert s. induction l as [|c l IH]; intros s H; [constructor|]. destruct H as (_ & ? & H).
  constructor; [done|by eapply IH].
Qed.

(** Strlcpy copies a string into a buffer of [dsize] bytes that it does not
    overlap.  It returns the length of the source; unless [dsize] is 0 the
    buffer then holds the longest prefix that fits, zero-terminated; no byte
    outside the buffer changes, and none at all when [dsize] is 0. *)
Theorem strlcpy_truncates (dst src dsize : Z) (l : list Z) (m : mem_t) :
  cstr m src l → 0 ≤ dsize → mapped m dst dsize →
  dst + dsize ≤ src ∨ src + Z.of_nat (length l) < dst →
  ∃ m', strlcpy dst src dsize m = Ok (Z.of_nat (length l), m') ∧
    (0 < dsize → cstr m' dst (take (Z.to_nat (dsize - 1)) l)) ∧
    (∀ a, ¬ dst ≤ a < dst + dsize → m' !! a = m !! a).
Proof.
  intros Hc Hn Hd Hsep. unfold strlcpy. set (n := Z.to_nat (dsize - 1)).
  destruct (strlcpy_loop_spec n dst src l m Hc) as (m1 & E & Hw);
    [apply (mapped_sub _ _ _ _ _ Hd); lia|lia|]. rewrite E. clear E.
  pose proof (cstr_bytes _ _ _ Hc) as Hb.
  destruct (Nat.ltb_spec (length l) n) as [Hlt|Hge]; cbn [mbind res_bind].
  - destruct (Nat.eqb_spec (n - length l) 0); [lia|]. cbn [mbind res_bind].
    exists m1. split_and!; [do 2 f_equal; lia| |].
    + intros _. rewrite take_ge by lia. apply cstr_intro; [done|]. intros i Hi.
      rewrite (Hw (dst + Z.of_nat i)), decide_True by lia. unfold with_nul. f_equal. lia.
    + intros a Ha. apply (written_lookup_out _ _ _ _ _ _ Hw). lia.
  - rewrite Nat.eqb_refl.
    set (m2 := if dsize =? 0 then m1 else <[dst + Z.of_nat n := 0]> m1).
    assert ((if negb (dsize =? 0) then store (dst + Z.of_nat n) 0 m1 else Ok m1) = Ok m2) as ->.
    { unfold m2. destruct (Z.eqb_spec dsize 0); [done|]. simpl. apply store_ok.
      rewrite (written_lookup_out _ _ _ _ _ _ Hw) by lia. apply Hd. lia. }
    assert (∀ a, ¬ dst ≤ a < dst + dsize → m2 !! a = m !! a) as Hout.
    { intros a Ha. unfold m2. destruct (Z.eqb_spec dsize 0).
      - apply (written_lookup_out _ _ _ _ _ _ Hw). lia.
      - rewrite lookup_insert_ne by lia. apply (written_lookup_out _ _ _ _ _ _ Hw). lia. }
    cbn [mbind res_bind].
    rewrite (skip_string_spec _ _ (drop n l)).
    + cbn [mbind res_bind]. exists m2. split_and!; [rewrite length_drop; do 2 f_equal; lia| |done].
      intros Hpos. apply cstr_intro; [by apply Forall_take|]. intros i Hi. rewrite length_take in Hi.
      unfold m2. destruct (Z.eqb_spec dsize 0); [lia|]. destruct (decide (i = n)) as [->|Hne].
      * rewrite lookup_insert_eq, lookup_app_r by (rewrite length_take; lia).
        rewrite length_take. replace (n - n `min` length l)%nat with 0%nat by lia. done.
      * rewrite lookup_insert_ne by lia. rewrite (Hw (dst + Z.of_nat i)), decide_True by lia.
        rewrite lookup_app_l by (rewrite length_take; lia). rewrite lookup_take by lia. unfold with_nul.
        replace (Z.to_nat (dst + Z.of_nat i - dst)) with i by lia. rewrite decide_True by lia.
        by rewrite lookup_app_l by lia.
    + eapply cstr_frame; [|apply (cstr_drop m src l n Hc Hge)]. intros a Ha.
      rewrite length_drop in Ha. apply Hout. lia.
    + rewrite length_drop. pose proof (cstr_mapped _ _ _ Hc) as Hmp.
      assert (mapped m2 src (Z.of_nat (length l) + 1)) as Hmp2 by (intros x Hx; rewrite Hout by lia; by apply Hmp).
      apply mapped_size in Hmp2; [|lia]. unfold scan_fuel. lia.
Qed.

(** ** strspn and strcspn *)

Section Sets.
Context `{Arch}.

Lemma PTR_W_pos : 0 < PTR_W.
Proof. destruct arch_ok; lia. Qed.

Lemma low_bits c : 0 ≤ c mod PTR_W < PTR_W.
Proof. apply Z.mod_pos_bound, PTR_W_pos. Qed.

(** The table represents the set of bytes [S]. *)
Definition tbl_ok (tbl : gmap Z Z) (S : Z → Prop) : Prop :=
  ∀ c, 0 ≤ c < 256 → ∃ t, tbl !! IDX c = Some t ∧ (Z.testbit t (c mod PTR_W) = true ↔ S c).

Lemma BIT_pow c : 0 ≤ c < 256 → BIT c = 2 ^ (c mod PTR_W).
Proof.
  intros Hc. unfold BIT. rewrite (wrap_small 8) by lia. pose proof (low_bits c).
  rewrite Z.shiftl_1_l, wrap_small; [done|]. split; [lia|]. apply Z.pow_lt_mono_r; lia.
Qed.

(** [(tbl[IDX(c)] & BIT(c)) != 0] *)
Lemma member_test t c : 0 ≤ c < 256 → negb (Z.land t (BIT c) =? 0) = Z.testbit t (c mod PTR_W).
Proof.
  intros Hc. rewrite BIT_pow by done. pose proof (low_bits c) as Hk. set (k := c mod PTR_W) in *.
  destruct (Z.eqb_spec (Z.land t (2 ^ k)) 0) as [E|E]; cbn [negb].
  - apply (f_equal (λ z, Z.testbit z k)) in E.
    rewrite Z.land_spec, Z.bits_0, Z.pow2_bits_true, andb_true_r in E by lia. done.
  - destruct (Z.testbit t k) eqn:Et; [done|]. exfalso. apply E. apply Z.bits_inj'. intros n Hn.
    rewrite Z.land_spec, Z.bits_0, Z.pow2_bits_eqb by lia.
    destruct (Z.eqb_spec k n) as [<-|]; [by rewrite Et|by rewrite andb_false_r].
Qed.

Lemma IDX_BIT_inj c d : 0 ≤ c < 256 → 0 ≤ d < 256 → IDX c = IDX d → c mod PTR_W = d mod PTR_W → c = d.
Proof.
  intros Hc Hd. unfold IDX. rewrite !(wrap_small 8) by lia. intros E1 E2. pose proof PTR_W_pos.
  assert (PTR_W ≠ 0) as Hw by lia. rewrite (Z.div_mod c _ Hw), (Z.div_mod d _ Hw). by rewrite E1, E2.
Qed.

Lemma tbl_insert tbl S c t :
  0 ≤ c < 256 → tbl_ok tbl S → tbl !! IDX c = Some t →
  tbl_ok (<[IDX c := Z.lor t (BIT c)]> tbl) (λ d, S d ∨ d = c).
Proof.
  intros Hc Ht E d Hd. destruct (Ht d Hd) as (u & Eu & Hu). rewrite BIT_pow by done.
  pose proof (low_bits c). pose proof (low_bits d).
  destruct (decide (IDX c = IDX d)) as [Ei|Ei].
  - rewrite <- Ei in Eu |- *. rewrite lookup_insert_eq. eexists. split; [done|].
    rewrite E in Eu. injection Eu as <-.
    rewrite Z.lor_spec, Z.pow2_bits_eqb, orb_true_iff, Hu, Z.eqb_eq by lia.
    split; intros [?|Em]; [by left|right|by left|by right; subst].
    symmetry. by apply IDX_BIT_inj.
  - rewrite lookup_insert_ne by done. exists u. split; [done|]. rewrite Hu.
    split; [by left|]. by intros [? | ->].
Qed.

Lemma IDX_range c : 0 ≤ c < 256 → 0 ≤ IDX c < 256 / PTR_W.
Proof.
  intros Hc. unfold IDX. rewrite wrap_small by lia.
  destruct arch_ok as [->| ->]; (split; [apply Z.div_pos; lia|apply Z.div_lt_upper_bound; [lia|]]).
  - change (32 * (256 / 32)) with 256. lia.
  - change (64 * (256 / 64)) with 256. lia.
Qed.

Lemma clear_tbl_ok first (S : Z → Prop) :
  (∀ c, 0 ≤ c < PTR_W → (Z.testbit first c = true ↔ S c)) → (∀ c, PTR_W ≤ c → ¬ S c) →
  tbl_ok (clear_tbl first) S.
Proof.
  intros H0 H1 c Hc. unfold clear_tbl. pose proof (IDX_range c Hc) as Hr. pose proof PTR_W_pos as HW.
  destruct (Z.lt_ge_cases c PTR_W) as [Hlt|Hge].
  - assert (IDX c = 0) as -> by (unfold IDX; rewrite wrap_small by lia; apply Z.div_small; lia).
    rewrite lookup_insert_eq. eexists. split; [done|]. rewrite Z.mod_small by lia. apply H0. lia.
  - assert (IDX c ≠ 0) as E.
    { unfold IDX. rewrite wrap_small by lia. intros E. apply Z.div_small_iff in E; lia. }
    rewrite lookup_insert_ne by done. exists 0. split.
    + apply elem_of_list_to_map_1.
      * rewrite <- list_fmap_compose. rewrite (list_fmap_ext _ id), list_fmap_id by done. apply NoDup_seqZ.
      * apply list_elem_of_fmap. exists (IDX c). split; [done|]. by apply elem_of_seqZ.
    + rewrite Z.bits_0. split; [done|]. intros HS. by apply H1 in HS.
Qed.

Lemma tbl_ext tbl (S S' : Z → Prop) : (∀ c, S c ↔ S' c) → tbl_ok tbl S → tbl_ok tbl S'.
Proof. intros He Ht c Hc. destruct (Ht c Hc) as (t & E & Hs). exists t. split; [done|]. by rewrite Hs. Qed.

Lemma charset_loop_spec fuel charset cs tbl S m :
  cstr m charset cs → (length cs < fuel)%nat → tbl_ok tbl S →
  ∃ tbl', charset_loop fuel charset tbl m = Ok tbl' ∧ tbl_ok tbl' (λ c, S c ∨ c ∈ cs).
Proof.
  revert charset cs tbl S. induction fuel as [|fuel IH]; intros charset cs tbl S Hc Hf Ht; [lia|].
  cbn [charset_loop]. rewrite (cstr_load _ _ _ Hc). cbn [mbind res_bind].
  destruct cs as [|c cs]; cbn [hd length cstr] in *.
  - cbn. exists tbl. split; [done|]. refine (tbl_ext _ _ _ _ Ht). intros c.
    rewrite elem_of_nil. tauto.
  - destruct Hc as (_ & Hcc & Hc). destruct (Z.eqb_spec c 0); [lia|].
    destruct (Ht c ltac:(lia)) as (t & E & _). rewrite (load_Some _ _ _ E). cbn [mbind res_bind].
    destruct (IH _ _ _ _ Hc ltac:(lia) (tbl_insert tbl S c t ltac:(lia) Ht E)) as (tbl' & E' & Ht').
    exists tbl'. split; [done|]. eapply tbl_ext; [|exact Ht']. intros d. rewrite elem_of_cons. tauto.
Qed.

(** The length of the longest prefix whose bytes satisfy [f]. *)
Fixpoint prefix_len (f : Z → bool) (l : list Z) : Z :=
  match l with [] => 0 | c :: l => if f c then 1 + prefix_len f l else 0 end.

Lemma span_loop_spec fuel b s l tbl (mem : Z → bool) m :
  cstr m s l → (length l < fuel)%nat → tbl_ok tbl (λ c, mem c = true) → Bool.eqb (mem 0) b = false →
  span_loop fuel b s tbl m = Ok (s + prefix_len (λ c, Bool.eqb (mem c) b) l).
Proof.
  revert s l. induction fuel as [|fuel IH]; intros s l Hc Hf Ht H0; [lia|].
  cbn [span_loop]. rewrite (cstr_load _ _ _ Hc). cbn [mbind res_bind].
  assert (∀ c, 0 ≤ c < 256 → ∃ t, tbl !! IDX c = Some t ∧ negb (Z.land t (BIT c) =? 0) = mem c) as Hb.
  { intros c Hcc. destruct (Ht c Hcc) as (t & E & Hs). exists t. split; [done|].
    rewrite member_test by done. by apply eq_bool_prop_intro; rewrite !Is_true_true. }
  destruct l as [|c l]; cbn [hd length cstr prefix_len] in *.
  - destruct (Hb 0 ltac:(lia)) as (t & E & Em). rewrite (load_Some _ _ _ E). cbn [mbind res_bind].
    rewrite Em, H0. f_equal. lia.
  - destruct Hc as (_ & Hcc & Hc). destruct (Hb c ltac:(lia)) as (t & E & Em).
    rewrite (load_Some _ _ _ E). cbn [mbind res_bind]. rewrite Em.
    destruct (Bool.eqb (mem c) b); [|f_equal; lia]. rewrite (IH _ _ Hc) by (done || lia). f_equal. lia.
Qed.

(** Strspn and strcspn, which look bytes up in a table of 256 bits, return
    the length of the longest prefix of the string made of bytes that are,
    respectively are not, in the character set. *)
Theorem strspn_prefix (s charset : Z) (l cs : list Z) (m : mem_t) :
  cstr m s l → cstr m charset cs →
  strspn s charset m = Ok (prefix_len (λ c, bool_decide (c ∈ cs)) l) ∧
  strcspn s charset m = Ok (prefix_len (λ c, negb (bool_decide (c ∈ cs))) l).
Proof.
  intros Hs Hc. pose proof (cstr_fuel _ _ _ Hs). pose proof (cstr_fuel _ _ _ Hc).
  pose proof (cstr_pos _ _ _ Hc) as Hpos. unfold strspn, strcspn.
  rewrite (cstr_load _ _ _ Hs). cbn [mbind res_bind].
  destruct l as [|c l]; cbn [hd]; [done|]. assert (c ≠ 0) as Hc0 by (destruct Hs as (_ & ? & _); lia).
  apply Z.eqb_neq in Hc0. rewrite Hc0. split.
  - destruct (charset_loop_spec (scan_fuel m) charset cs (clear_tbl 0) (λ _, False) m) as (tbl & -> & Ht);
      [done|done| |].
    { apply clear_tbl_ok; [|tauto]. intros d _. rewrite Z.bits_0. by split. }
    cbn [mbind res_bind].
    rewrite (span_loop_spec _ true s (c :: l) tbl (λ c, bool_decide (c ∈ cs))); [|done|done| |].
    + cbn [mbind res_bind]. f_equal. rewrite Z.add_simpl_l. generalize (c :: l). clear.
      induction l as [|c l IH]; cbn [prefix_len]; [done|]. rewrite IH. by destruct (bool_decide (c ∈ cs)).
    + eapply tbl_ext; [|exact Ht]. intros d. rewrite bool_decide_eq_true. tauto.
    + rewrite bool_decide_eq_false_2; [done|]. intros Hin. rewrite Forall_forall in Hpos.
      specialize (Hpos _ Hin). lia.
  - destruct (charset_loop_spec (scan_fuel m) charset cs (clear_tbl 1) (λ c, c = 0) m) as (tbl & -> & Ht);
      [done|done| |].
    { apply clear_tbl_ok; [|pose proof PTR_W_pos; lia]. intros d Hd. change 1 with (2 ^ 0).
      rewrite Z.pow2_bits_eqb, Z.eqb_eq by lia. by split. }
    cbn [mbind res_bind].
    rewrite (span_loop_spec _ false s (c :: l) tbl (λ c, bool_decide (c = 0 ∨ c ∈ cs))); [|done|done| |].
    + cbn [mbind res_bind]. f_equal. rewrite Z.add_simpl_l.
      apply cstr_pos in Hs. revert Hs. generalize (c :: l). clear.
      induction l as [|c l IH]; intros Hl; cbn [prefix_len]; [done|]. apply Forall_cons in Hl as [Hc Hl].
      rewrite IH by done. assert (bool_decide (c = 0 ∨ c ∈ cs) = bool_decide (c ∈ cs)) as ->.
      { apply bool_decide_ext. split; [intros [->|?]; [lia|done]|by right]. }
      by destruct (bool_decide (c ∈ cs)).
    + eapply tbl_ext; [|exact Ht]. intros d. by rewrite bool_decide_eq_true.
    + by rewrite bool_decide_eq_true_2 by (by left).
Qed.
End Sets.

(** ** Witnesses: memory with the strings at 1, 10 and 20 *)

Definition str_at (s : Z) (l : list Z) : mem_t :=
  list_to_map (zip (seqZ s (Z.of_nat (length l) + 1)) (l ++ [0])).
Definition text_mem : mem_t :=
  str_at 1 [104; 101; 108; 108; 111] ∪ str_at 10 [72; 69; 76; 76; 79] ∪ str_at 20 [108; 101; 104]
  ∪ list_to_map ((λ a, (a, 0)) <$> seqZ 0 64).

Lemma text_bytes : bytes_ok text_mem.
Proof. apply map_Forall_to_list. by apply (bool_decide_unpack _); vm_compute. Qed.

Lemma text_mapped a n : 0 ≤ a → a + n ≤ 64 → mapped text_mem a n.
Proof.
  intros Ha Hn x Hx.
  assert (forallb (λ x, bool_decide (is_Some (text_mem !! x))) (seqZ 0 64) = true) as Hall by (by vm_compute).
  rewrite forallb_forall in Hall. specialize (Hall x). rewrite <- list_elem_of_In, elem_of_seqZ in Hall.
  specialize (Hall ltac:(lia)). by apply bool_decide_eq_true in Hall.
Qed.

Lemma text_1 : cstr text_mem 1 [104; 101; 108; 108; 111].
Proof. by vm_compute. Qed.
Lemma text_10 : cstr text_mem 10 [72; 69; 76; 76; 79].
Proof. by vm_compute. Qed.
Lemma text_20 : cstr text_mem 20 [108; 101; 104].
Proof. by vm_compute. Qed.

Lemma strlen_correct_witness : strlen 1 text_mem = Ok 5.
Proof.
  apply (strlen_correct 1 _ text_mem text_bytes text_1).
  exists 0, 8. split_and!; try (by vm_compute). apply text_mapped; lia.
Defined.

Lemma strcmp_decides_witness :
  ∃ d, strcmp 1 10 text_mem = Ok d ∧ d ≠ 0 ∧ strcasecmp 1 10 text_mem = Ok 0.
Proof.
  destruct (strcmp_decides 1 10 _ _ text_mem text_1 text_10) as [(d & E & _ & Hd) (d2 & E2 & _ & Hd2)].
  exists d. split_and!; [done|by rewrite Hd|]. rewrite E2. f_equal. by apply Hd2; vm_compute.
Defined.

Lemma strlcpy_truncates_witness :
  ∃ m', strlcpy 30 1 4 text_mem = Ok (5, m') ∧ cstr m' 30 [104; 101; 108].
Proof.
  destruct (strlcpy_truncates 30 1 4 _ text_mem text_1) as (m' & E & Hc & _);
    [lia|apply text_mapped; lia|simpl; lia|].
  exists m'. split; [exact E|]. by apply Hc.
Defined.

Lemma strspn_prefix_witness : strspn 1 20 text_mem = Ok 4 ∧ strcspn 1 10 text_mem = Ok 5.
Proof.
  split.
  - exact (proj1 (strspn_prefix 1 20 _ _ text_mem text_1 text_20)).
  - exact (proj2 (strspn_prefix 1 10 _ _ text_mem text_1 text_10)).
Defined.
