(* ===== verification/StringCatTheorems.v ===== *)
(** * Appending, padding and comparing memory: correctness *)

From S2P Require Import Prelude Freelist Memory StringCopy StringScan StringCat StringTheorems.
Local Open Scope Z_scope.

Section Theorems.
Context `{Arch}.

(** ** bcmp *)

Lemma wsize_nat : Z.of_nat (Z.to_nat wsize) = wsize.
Proof. pose proof wsize_cases. lia. Qed.

Lemma wsize_pos : 0 < wsize.
Proof. pose proof wsize_cases. lia. Qed.

(** Two blocks of bytes are equal when they are equal as numbers; so are their parts. *)
Lemma word_eqb_split m i k a b : bytes_ok m →
  (word_of m (i + k) a =? word_of m (i + k) b) =
  (word_of m i a =? word_of m i b) && (word_of m k (a + Z.of_nat i) =? word_of m k (b + Z.of_nat i)).
Proof.
  intros Hb. rewrite !word_split. pose proof (word_range m i a Hb). pose proof (word_range m i b Hb).
  set (P := 256 ^ Z.of_nat i) in *. set (x := word_of m k _). set (y := word_of m k _).
  set (u := word_of m i a) in *. set (w := word_of m i b) in *.
  destruct (Z.eqb_spec u w), (Z.eqb_spec x y); cbn [andb]; first [apply Z.eqb_eq; nia|apply Z.eqb_neq; intros E].
  - apply n. nia.
  - assert (u = w); [|done]. rewrite e in E. lia.
  - assert (x = y); [|done]. nia.
Qed.

(** The result of a comparison of [n] bytes. *)
Definition differ (m : mem_t) (n : nat) (a b : Z) : Z := if word_of m n a =? word_of m n b then 0 else 1.

Lemma differ_split m i k a b : bytes_ok m →
  differ m (i + k) a b = if word_of m i a =? word_of m i b then differ m k (a + Z.of_nat i) (b + Z.of_nat i) else 1.
Proof. intros Hb. unfold differ. rewrite word_eqb_split by done. by destruct (word_of m i a =? word_of m i b). Qed.

Lemma differ_0 m a b : differ m 0 a b = 0.
Proof. done. Qed.

Lemma word_1 m a b : is_Some (m !! a) → is_Some (m !! b) →
  ∃ x y, load m a = Ok x ∧ load m b = Ok y ∧ (word_of m 1 a =? word_of m 1 b) = (x =? y).
Proof.
  intros [x Ex] [y Ey]. exists x, y. unfold load. rewrite Ex, Ey. split_and!; [done|done|]. cbn [word_of].
  rewrite Ex, Ey. cbn [default from_option]. change (default 0 (Some x)) with x. change (default 0 (Some y)) with y.
  change (256 * 0) with 0. by rewrite !Z.add_0_r.
Qed.

(** The bytes up to a word boundary. *)
Lemma bcmp_align_ok m fuel : bytes_ok m → ∀ p1 p2 len, 0 < len → mapped m p1 len → mapped m p2 len →
  (wsize - p1 mod wsize) mod wsize < Z.of_nat fuel →
  bcmp_align fuel p1 p2 len m = Ok (inl (differ m (Z.to_nat len) p1 p2)) ∨
  ∃ k, 0 ≤ k < len ∧ (p1 + k) mod wsize = 0 ∧ bcmp_align fuel p1 p2 len m = Ok (inr (p1 + k, p2 + k, len - k)) ∧
    differ m (Z.to_nat len) p1 p2 = differ m (Z.to_nat (len - k)) (p1 + k) (p2 + k).
Proof.
  intros Hb. induction fuel as [|fuel IH]; intros p1 p2 len Hl H1 H2 Hf.
  { pose proof (Z.mod_pos_bound (wsize - p1 mod wsize) wsize wsize_pos). lia. }
  pose proof wsize_pos as Hw. cbn [bcmp_align]. rewrite land_wmask. destruct (Z.eqb_spec (p1 mod wsize) 0) as [E|E].
  { right. exists 0. rewrite !Z.add_0_r, Z.sub_0_r. split_and!; [lia|lia|done|done|done]. }
  destruct (word_1 m p1 p2 (H1 p1 ltac:(lia)) (H2 p2 ltac:(lia))) as (x & y & -> & -> & Ew). rewrite !Ok_bind.
  replace (Z.to_nat len) with (1 + Z.to_nat (len - 1))%nat by lia. rewrite differ_split, Ew by done. change (Z.of_nat 1) with 1.
  destruct (x =? y); cbn [negb]; [|by left]. destruct (Z.leb_spec (len - 1) 0).
  { left. by replace (Z.to_nat (len - 1)) with 0%nat by lia. }
  destruct (IH (p1 + 1) (p2 + 1) (len - 1)) as [->|(k & Hk & Hm & -> & Ed)]; [lia|apply (mapped_sub _ _ _ _ _ H1); lia|apply (mapped_sub _ _ _ _ _ H2); lia| |by left|].
  - pose proof (Z.mod_pos_bound p1 wsize Hw). rewrite (Z.mod_small (wsize - p1 mod wsize)) in Hf by lia.
    destruct (decide (p1 mod wsize = wsize - 1)) as [El|El].
    + assert ((p1 + 1) mod wsize = 0) as ->; [|rewrite Z.sub_0_r, Z.mod_same by lia; lia].
      rewrite <- Zplus_mod_idemp_l, El. replace (wsize - 1 + 1) with wsize by lia. apply Z.mod_same. lia.
    + assert ((p1 + 1) mod wsize = p1 mod wsize + 1) as ->.
      { rewrite <- Zplus_mod_idemp_l. apply Z.mod_small. lia. }
      rewrite Z.mod_small by lia. lia.
  - right. exists (k + 1). rewrite !Z.add_assoc, Ed.
    replace (p1 + k + 1) with (p1 + 1 + k) by lia. replace (p2 + k + 1) with (p2 + 1 + k) by lia.
    replace (len - (k + 1)) with (len - 1 - k) by lia. split_and!; [lia|lia|done|done|done].
Qed.

(** The loop over words, for a [next] that yields the word of the second block at
    [q], which is [o] bytes before [p2]. *)
Lemma bcmp_words_ok m next o (keeps : Z → Z → Prop) : bytes_ok m →
  ∀ fuel p1 p2 va len, 0 ≤ len → (Z.to_nat len < fuel)%nat → p1 mod wsize = 0 → mapped m p1 len →
  (∀ p va, p2 ≤ p → p - p2 + wsize ≤ len → keeps va p → ∃ va', next va p m = Ok (word_of m (Z.to_nat wsize) (p - o), va') ∧
     keeps va' (p + wsize)) →
  keeps va p2 →
  bcmp_words fuel next p1 p2 va len m = Ok (inl (differ m (Z.to_nat len) p1 (p2 - o))) ∨
  ∃ k va', 0 ≤ k ≤ len ∧ len - k < wsize ∧ k mod wsize = 0 ∧ keeps va' (p2 + k) ∧
    bcmp_words fuel next p1 p2 va len m = Ok (inr (p1 + k, p2 + k, va', len - k - wsize)) ∧
    differ m (Z.to_nat len) p1 (p2 - o) = differ m (Z.to_nat (len - k)) (p1 + k) (p2 - o + k).
Proof.
  intros Hb. pose proof wsize_cases as Hw. induction fuel as [|fuel IH]; intros p1 p2 va len Hl Hf Ha H1 Hn Hk; [lia|].
  cbn [bcmp_words]. destruct (Z.leb_spec 0 (len - wsize)) as [Hge|Hlt].
  - destruct (Hn p2 va ltac:(lia) ltac:(lia) Hk) as (va' & -> & Hk'). rewrite Ok_bind. cbv beta iota.
    rewrite ldw_ok by (done || (apply (mapped_sub _ _ _ _ _ H1); lia)). rewrite Ok_bind.
    replace (Z.to_nat len) with (Z.to_nat wsize + Z.to_nat (len - wsize))%nat by lia. rewrite differ_split, wsize_nat by done.
    destruct (word_of m (Z.to_nat wsize) p1 =? word_of m (Z.to_nat wsize) (p2 - o)); cbn [negb]; [|by left].
    destruct (IH (p1 + wsize) (p2 + wsize) va' (len - wsize)) as [E|(k & va2 & Hr & Hlt & Hm & Hk2 & E & Ed)].
    + lia.
    + lia.
    + rewrite <- (Z.mul_1_l wsize) at 1. by rewrite Z_mod_plus_full.
    + apply (mapped_sub _ _ _ _ _ H1); lia.
    + intros p va0 Hp Hpl. apply Hn; lia.
    + done.
    + left. rewrite E. do 3 f_equal. lia.
    + right. exists (k + wsize), va2. rewrite E. split_and!; [lia|lia|lia| | | |].
      * rewrite <- (Z.mul_1_l wsize) at 1. by rewrite Z_mod_plus_full.
      * by replace (p2 + (k + wsize)) with (p2 + wsize + k) by lia.
      * do 3 f_equal; [do 2 f_equal|]; lia.
      * replace (p2 - o + wsize) with (p2 + wsize - o) by lia. rewrite Ed. f_equal; lia.
  - right. exists 0, va. rewrite !Z.add_0_r, Z.sub_0_r. split_and!; try lia; try done. 
Qed.

(** *** Words from two halves *)

Lemma pow256 n : 0 ≤ n → 256 ^ n = 2 ^ (8 * n).
Proof. intros. rewrite Z.pow_mul_r by lia. done. Qed.

Lemma word_low m k r a : bytes_ok m → (r ≤ k)%nat → word_of m k a mod 2 ^ (8 * Z.of_nat r) = word_of m r a.
Proof.
  intros Hb Hr. replace k with (r + (k - r))%nat by lia. rewrite word_split, <- pow256 by lia.
  pose proof (word_range m r a Hb). rewrite (Z.mul_comm (256 ^ _)), Z_mod_plus_full. by apply Z.mod_small.
Qed.

Lemma word_high m k j a : bytes_ok m → (j ≤ k)%nat →
  Z.shiftr (word_of m k a) (8 * Z.of_nat j) = word_of m (k - j) (a + Z.of_nat j).
Proof.
  intros Hb Hj. replace k with (j + (k - j))%nat at 1 by lia. rewrite word_split, Z.shiftr_div_pow2, <- pow256 by lia.
  pose proof (word_range m j a Hb). rewrite (Z.mul_comm (256 ^ _)), Z_div_plus_full by lia.
  rewrite Z.div_small by lia. lia.
Qed.

(** The word at [q + j], from the two aligned words that it lies in. *)
Lemma word_shifted m q j : bytes_ok m → (j ≤ Z.to_nat wsize)%nat →
  Z.lor (Z.shiftr (word_of m (Z.to_nat wsize) q) (8 * Z.of_nat j))
        (wrap PTR_W (Z.shiftl (word_of m (Z.to_nat wsize) (q + wsize)) (PTR_W - 8 * Z.of_nat j))) =
  word_of m (Z.to_nat wsize) (q + Z.of_nat j).
Proof.
  intros Hb Hj. set (W := Z.to_nat wsize) in *. pose proof wsize_nat as HW. fold W in HW.
  rewrite word_high by done. rewrite PTR_W_bytes, <- HW.
  replace (8 * Z.of_nat W - 8 * Z.of_nat j) with (8 * Z.of_nat (W - j)) by lia.
  rewrite Z.shiftl_mul_pow2 by lia. unfold wrap.
  replace (2 ^ (8 * Z.of_nat W)) with (2 ^ (8 * Z.of_nat j) * 2 ^ (8 * Z.of_nat (W - j)))
    by (rewrite <- Z.pow_add_r by lia; f_equal; lia).
  rewrite Z.mul_mod_distr_r by (apply Z.pow_nonzero; lia). rewrite word_low by done.
  pose proof (word_range m (W - j) (q + Z.of_nat j) Hb) as Hr. rewrite pow256 in Hr by lia.
  rewrite lor_add by lia. replace (word_of m W (q + Z.of_nat j)) with (word_of m ((W - j) + j) (q + Z.of_nat j)) by (f_equal; lia).
  rewrite word_split, pow256 by lia.
  replace (q + Z.of_nat j + Z.of_nat (W - j)) with (q + Z.of_nat W) by lia. lia.
Qed.

Lemma tail_test x y n : 0 ≤ n →
  (Z.land (Z.lxor x y) (Z.shiftl 1 n - 1) =? 0) = (x mod 2 ^ n =? y mod 2 ^ n).
Proof.
  intros Hn. change (Z.shiftl 1 n - 1) with (Z.ones n).
  assert (Z.land (Z.lxor x y) (Z.ones n) = Z.lxor (x mod 2 ^ n) (y mod 2 ^ n)) as ->.
  { rewrite <- !Z.land_ones by lia. apply Z.bits_inj'. intros i Hi. rewrite ?Z.land_spec, !Z.lxor_spec, ?Z.land_spec.
    by destruct (Z.testbit x i), (Z.testbit y i), (Z.testbit (Z.ones n) i). }
  destruct (Z.eqb_spec (x mod 2 ^ n) (y mod 2 ^ n)) as [->|Hne]; [by rewrite Z.lxor_nilpotent|].
  apply Z.eqb_neq. intros E. by apply Z.lxor_eq in E.
Qed.

(** The last bytes, fewer than a word. *)
Lemma tail_differs m x k p1 q r : bytes_ok m → (r ≤ Z.to_nat wsize)%nat → (r ≤ k)%nat → x = word_of m k q →
  (if Z.land (Z.lxor x (word_of m (Z.to_nat wsize) p1)) (Z.shiftl 1 (8 * Z.of_nat r) - 1) =? 0 then 0 else 1) =
  differ m r p1 q.
Proof.
  intros Hb Hr Hk ->. rewrite tail_test, !word_low by (done || lia). unfold differ. by rewrite Z.eqb_sym.
Qed.

Lemma block_mapped m b n : words_mapped m b (n - 1) → 0 < n →
  mapped m b n ∧ ∀ p x, p mod wsize = 0 → b ≤ x < b + n → p ≤ x < p + wsize → mapped m p wsize.
Proof.
  intros (lo & hi & Hlo & Hhi & Hl & Hh & Hm) Hn. split; [apply (mapped_sub _ _ _ _ _ Hm); lia|].
  intros p x Hp Hx Hpx. pose proof wsize_pos. pose proof (aligned_room p hi x Hp Hhi ltac:(lia)).
  assert (lo ≤ p) as Hlp.
  { destruct (Z.le_gt_cases lo p); [done|]. pose proof (aligned_room p lo p Hp Hlo ltac:(lia)). lia. }
  apply (mapped_sub _ _ _ _ _ Hm); lia.
Qed.

Lemma aligned_add p k : p mod wsize = 0 → k mod wsize = 0 → (p + k) mod wsize = 0.
Proof. pose proof wsize_pos. intros Hp Hk. by rewrite Z.add_mod, Hp, Hk, Z.mod_0_l by lia. Qed.

Lemma aligned_wsize p : p mod wsize = 0 → (p + wsize) mod wsize = 0.
Proof. pose proof wsize_pos. intros Hp. apply aligned_add; [done|]. apply Z.mod_same. lia. Qed.

Lemma shiftl3 n : 0 ≤ n → Z.shiftl n 3 = 8 * Z.of_nat (Z.to_nat n).
Proof. intros. rewrite Z.shiftl_mul_pow2, Z2Nat.id by lia. change (2 ^ 3) with 8. lia. Qed.

Lemma bcmp_straight_ok m p1 p2 len : bytes_ok m → 0 < len → p1 mod wsize = 0 → p2 mod wsize = 0 →
  words_mapped m p1 (len - 1) → words_mapped m p2 (len - 1) →
  bcmp_straight p1 p2 len m = Ok (differ m (Z.to_nat len) p1 p2).
Proof.
  intros Hb Hl A1 A2 H1 H2. destruct (block_mapped m p1 len H1 Hl) as [M1 W1], (block_mapped m p2 len H2 Hl) as [M2 W2].
  pose proof wsize_pos. unfold bcmp_straight. set (next := λ (va : Z) p2 m, _).
  destruct (bcmp_words_ok m next 0 (λ _ p, p mod wsize = 0) Hb (S (Z.to_nat len)) p1 p2 0 len)
    as [->|(k & va & Hk & Hlt & Hkm & Hkp & -> & Ed)]; try done; try lia.
  - intros p va Hp Hpl Hpm. exists va. split; [|by apply aligned_wsize]. unfold next.
    rewrite ldw_ok, Ok_bind; [by rewrite Z.sub_0_r|apply (W2 p p); [done|lia..]|done].
  - by rewrite Z.sub_0_r.
  - rewrite Z.sub_0_r in Ed. rewrite Ok_bind, Ed. replace (len - k - wsize + wsize) with (len - k) by lia. cbv beta iota zeta.
    destruct (Z.eqb_spec (len - k) 0) as [E|Hne]; [by rewrite E|].
    pose proof (aligned_add _ _ A1 Hkm).
    rewrite !ldw_ok, !Ok_bind; [|apply (W1 _ (p1 + k)); [done|lia..]|done|apply (W2 _ (p2 + k)); [done|lia..]|done].
    rewrite shiftl3, Z.lxor_comm by lia. f_equal. apply (tail_differs m _ (Z.to_nat wsize)); [done|lia|lia|done].
Qed.

Lemma bcmp_shifted_ok m p1 p2 len : bytes_ok m → 0 < len → p1 mod wsize = 0 → p2 mod wsize ≠ 0 →
  words_mapped m p1 (len - 1) → words_mapped m p2 (len - 1) →
  bcmp_shifted p1 p2 (p2 mod wsize) len m = Ok (differ m (Z.to_nat len) p1 p2).
Proof.
  intros Hb Hl A1 A2 H1 H2. destruct (block_mapped m p1 len H1 Hl) as [M1 W1], (block_mapped m p2 len H2 Hl) as [M2 W2].
  pose proof wsize_pos as Hw. pose proof (Z.mod_pos_bound p2 wsize Hw) as Hj. set (j := p2 mod wsize) in *.
  set (q := p2 - j). assert (q mod wsize = 0) as Aq by (unfold q, j; apply align_down).
  assert (Z.shiftl j 3 = 8 * Z.of_nat (Z.to_nat j)) as Ej by (apply shiftl3; lia).
  assert (mapped m q wsize) as Mq by (apply (W2 q p2); [done|lia|unfold q; lia]).
  unfold bcmp_shifted. fold q. rewrite Ej, (ldw_ok m q) by done. rewrite Ok_bind. set (next := λ va p2 m, _).
  destruct (bcmp_words_ok m next (wsize - j) (λ va p, va = word_of m (Z.to_nat wsize) (p - wsize) ∧ p mod wsize = 0) Hb
    (S (Z.to_nat len)) p1 (q + wsize) (word_of m (Z.to_nat wsize) q) len)
    as [->|(k & va & Hk & Hlt & Hkm & [Eva Hkp] & -> & Ed)]; try done; try lia.
  - intros p va Hp Hpl [-> Hpm]. exists (word_of m (Z.to_nat wsize) p). unfold next.
    rewrite ldw_ok, Ok_bind; [|apply (W2 p (p + j - 1)); [done|unfold q in *; lia..]|done].
    replace (word_of m (Z.to_nat wsize) p) with (word_of m (Z.to_nat wsize) (p - wsize + wsize)) at 1 by (f_equal; lia).
    rewrite word_shifted by (done || lia). split; [|split; [f_equal; lia|by apply aligned_wsize]].
    do 3 f_equal. lia.
  - split; [f_equal; lia|by apply aligned_wsize].
  - rewrite Ok_bind. do 2 f_equal. unfold q. lia.
  - replace (q + wsize - (wsize - j)) with p2 in Ed by (unfold q; lia). rewrite Ok_bind, Ed.
    replace (len - k - wsize + wsize) with (len - k) by lia. cbv beta iota zeta.
    destruct (Z.eqb_spec (len - k) 0) as [E|Hne]; [by rewrite E|].
    pose proof (aligned_add _ _ A1 Hkm). rewrite shiftl3 by lia. subst va.
    replace (q + wsize + k - wsize) with (q + k) by lia.
    pose proof PTR_W_bytes as EW. set (r := Z.to_nat (len - k)) in *.
    destruct (Z.ltb_spec (PTR_W - 8 * Z.of_nat (Z.to_nat j)) (8 * Z.of_nat r)) as [Hlt2|Hge].
    + rewrite (ldw_ok m (q + wsize + k)), !Ok_bind; [|apply (W2 _ (q + wsize + k)); [done|unfold q, r in *; lia..]|done].
      rewrite ldw_ok, Ok_bind; [|apply (W1 _ (p1 + k)); [done|lia..]|done].
      replace (q + wsize + k) with (q + k + wsize) by lia. rewrite word_shifted by (done || lia).
      f_equal. apply (tail_differs m _ (Z.to_nat wsize)); [done|lia|lia|]. f_equal. unfold q. lia.
    + rewrite Ok_bind, ldw_ok, Ok_bind; [|apply (W1 _ (p1 + k)); [done|lia..]|done]. rewrite Z.lor_0_r, word_high by (done || lia).
      f_equal. apply (tail_differs m _ (Z.to_nat wsize - Z.to_nat j)); [done|lia|lia|]. f_equal. unfold q. lia.
Qed.

Lemma words_sub m b n k : words_mapped m b (n - 1) → 0 ≤ k < n → words_mapped m (b + k) (n - k - 1).
Proof. intros (lo & hi & ? & ? & ? & ? & Hm) Hk. exists lo, hi. split_and!; try done; lia. Qed.

Lemma bcmp_ok b1 b2 len m : bytes_ok m → 0 < len < 2 ^ 31 → words_mapped m b1 (len - 1) → words_mapped m b2 (len - 1) →
  bcmp b1 b2 len m = Ok (differ m (Z.to_nat len) b1 b2).
Proof.
  intros Hb Hl H1 H2. unfold bcmp. rewrite swrap_small by (change (2 ^ (32 - 1)) with (2 ^ 31); lia).
  destruct (Z.eqb_spec len 0); [lia|]. pose proof wsize_pos as Hw.
  destruct (block_mapped m b1 len H1 ltac:(lia)) as [M1 _], (block_mapped m b2 len H2 ltac:(lia)) as [M2 _].
  destruct (bcmp_align_ok m (Z.to_nat wsize) Hb b1 b2 len ltac:(lia) M1 M2) as [->|(k & Hk & Hm & -> & ->)].
  - rewrite wsize_nat. by apply Z.mod_pos_bound.
  - done.
  - rewrite Ok_bind, land_wmask. cbv beta iota zeta.
    pose proof (words_sub _ _ _ _ H1 Hk). pose proof (words_sub _ _ _ _ H2 Hk).
    destruct (Z.eqb_spec ((b2 + k) mod wsize) 0); cbn [negb]; [apply bcmp_straight_ok|apply bcmp_shifted_ok]; done || lia.
Qed.

Lemma differ_bytes m n a b : bytes_ok m → mapped m a (Z.of_nat n) → mapped m b (Z.of_nat n) →
  differ m n a b = 0 ↔ ∀ i, 0 ≤ i < Z.of_nat n → m !! (a + i) = m !! (b + i).
Proof.
  intros Hb Ha Hbb. unfold differ. destruct (Z.eqb_spec (word_of m n a) (word_of m n b)) as [E|E]; split; try done.
  - intros _ i Hi. rewrite <- (byte_of_word m n a i), <- (byte_of_word m n b i) by done. by rewrite E.
  - intros Hall. exfalso. apply E. clear E Ha Hbb. revert a b Hall. induction n as [|n IH]; intros a b Hall; [done|].
    cbn [word_of]. pose proof (Hall 0 ltac:(lia)) as E0. rewrite !Z.add_0_r in E0. rewrite E0, (IH (a + 1) (b + 1)); [done|].
    intros i Hi. replace (a + 1 + i) with (a + (i + 1)) by lia. replace (b + 1 + i) with (b + (i + 1)) by lia. apply Hall. lia.
Qed.

(** C23: bcmp returns 0 for two blocks with the same bytes and 1 otherwise, wherever they
    lie; it reads whole words, so the words that hold the blocks have to be mapped. *)
Theorem bcmp_decides b1 b2 len m :
  bytes_ok m → 0 < len < 2 ^ 31 → words_mapped m b1 (len - 1) → words_mapped m b2 (len - 1) →
  ∃ r, bcmp b1 b2 len m = Ok r ∧ (r = 0 ∨ r = 1) ∧ (r = 0 ↔ ∀ i, 0 ≤ i < len → m !! (b1 + i) = m !! (b2 + i)).
Proof.
  intros Hb Hl H1 H2. exists (differ m (Z.to_nat len) b1 b2). split; [by apply bcmp_ok|].
  destruct (block_mapped m b1 len H1 ltac:(lia)) as [M1 _], (block_mapped m b2 len H2 ltac:(lia)) as [M2 _]. split.
  - unfold differ. destruct (_ =? _); auto.
  - rewrite differ_bytes, Z2Nat.id by (rewrite ?Z2Nat.id by lia; done || lia). done.
Qed.

(** ** Strings *)

Lemma cstr_written m m' d l : Forall (λ c, 0 < c < 256) l →
  written d (Z.of_nat (length l) + 1) (with_nul l) m m' → cstr m' d l.
Proof.
  intros HF Hw. apply cstr_intro; [done|]. intros i Hi. rewrite Hw, decide_True by lia. unfold with_nul. f_equal. lia.
Qed.

Lemma cstr_join m m' s l1 l2 : cstr m s l1 → (∀ a, s ≤ a < s + Z.of_nat (length l1) → m' !! a = m !! a) →
  cstr m' (s + Z.of_nat (length l1)) l2 → cstr m' s (l1 ++ l2).
Proof.
  revert s. induction l1 as [|c l1 IH]; intros s H1 Hf H2; [by rewrite Z.add_0_r in H2|].
  destruct H1 as (E & Hc & H1). cbn [app cstr length] in *. split_and!; [by rewrite Hf by lia|lia|lia|].
  apply IH; [done|intros; apply Hf; lia|]. by replace (s + 1 + Z.of_nat (length l1)) with (s + Z.of_nat (S (length l1))) by lia.
Qed.

Lemma find_end_ok m l : ∀ fuel s, cstr m s l → (length l < fuel)%nat → find_end fuel s m = Ok (s + Z.of_nat (length l)).
Proof.
  induction l as [|c l IH]; intros fuel s Hc Hf; (destruct fuel as [|fuel]; [lia|]); cbn [find_end];
    rewrite (cstr_load _ _ _ Hc), Ok_bind; cbn [hd length].
  - by rewrite Z.add_0_r.
  - destruct Hc as (_ & Hr & Hc). destruct (Z.eqb_spec c 0); [lia|]. rewrite IH by (done || cbn in Hf; lia). f_equal. lia.
Qed.

(** [l] without its NUL is at [d], the cell behind it may have been written. *)
Definition put (d : Z) (l : list Z) (m m' : mem_t) : Prop :=
  is_Some (m' !! (d + Z.of_nat (length l))) ∧
  ∀ a, a ≠ d + Z.of_nat (length l) → m' !! a = if decide (d ≤ a < d + Z.of_nat (length l)) then l !! Z.to_nat (a - d) else m !! a.

Lemma put_nil d m m' : is_Some (m' !! d) → (∀ a, a ≠ d → m' !! a = m !! a) → put d [] m m'.
Proof.
  intros H1 H2. split; cbn [length]; rewrite Z.add_0_r; [done|]. intros a Ha. rewrite decide_False by lia. by apply H2.
Qed.

Lemma put_cons d c l m m' : put (d + 1) l (<[d := c]> m) m' → put d (c :: l) m m'.
Proof.
  intros [H1 H2]. cbn [length]. replace (d + 1 + Z.of_nat (length l)) with (d + Z.of_nat (S (length l))) in * by lia.
  split; [done|]. cbn [length]. intros a Ha. rewrite H2 by done. destruct (decide (a = d)) as [->|].
  - rewrite decide_False, decide_True, Z.sub_diag by lia. by rewrite lookup_insert_eq.
  - rewrite lookup_insert_ne by done. destruct (decide (d + 1 ≤ a < _)).
    + rewrite decide_True by lia. by replace (Z.to_nat (a - d)) with (S (Z.to_nat (a - (d + 1)))) by lia.
    + by rewrite decide_False by lia.
Qed.

(** Then the NUL is stored. *)
Lemma put_nul d l m m' : put d l m m' →
  ∃ m2, store (d + Z.of_nat (length l)) 0 m' = Ok m2 ∧ written d (Z.of_nat (length l) + 1) (with_nul l) m m2.
Proof.
  intros [H1 H2]. eexists. split; [by apply store_ok|]. intros a. unfold with_nul.
  destruct (decide (a = d + Z.of_nat (length l))) as [->|Hne].
  - rewrite lookup_insert_eq, decide_True by lia. rewrite lookup_app_r by lia.
    by replace (Z.to_nat _ - length l)%nat with 0%nat by lia.
  - rewrite lookup_insert_ne by done. rewrite H2 by done. destruct (decide (d ≤ a < d + Z.of_nat (length l))).
    + rewrite decide_True by lia. by rewrite lookup_app_l by lia.
    + by rewrite decide_False by lia.
Qed.

(** The string at [s] and the room at [d] do not overlap. *)
Definition clear_of (d n s k : Z) : Prop := d + n ≤ s ∨ s + k < d.

Lemma cstr_insert m s l d v : cstr m s l → (d < s ∨ s + Z.of_nat (length l) < d) → cstr (<[d := v]> m) s l.
Proof. intros Hc Hd. eapply cstr_frame; [|exact Hc]. intros a Ha. apply lookup_insert_ne. lia. Qed.

Lemma strncat_loop_ok n : ∀ d s l m, cstr m s l → mapped m d (Z.of_nat (n `min` length l) + 1) →
  clear_of d (Z.of_nat (n `min` length l) + 1) s (Z.of_nat (length l)) →
  ∃ m', strncat_loop n d s m = Ok (d + Z.of_nat (length (take n l)), m') ∧ put d (take n l) m m'.
Proof.
  induction n as [|n IH]; intros d s l m Hc Hm Hd; cbn [strncat_loop].
  - exists m. cbn. rewrite Z.add_0_r. split; [done|]. apply put_nil; [apply Hm; lia|done].
  - rewrite (cstr_load _ _ _ Hc), Ok_bind, store_ok, Ok_bind by (apply Hm; lia).
    destruct l as [|c l]; cbn [hd take length] in *.
    + eexists. rewrite Z.add_0_r. split; [done|]. apply put_nil; [by rewrite lookup_insert_eq|].
      intros a Ha. by rewrite lookup_insert_ne.
    + destruct Hc as (_ & Hr & Hc). destruct (Z.eqb_spec c 0); [lia|]. unfold clear_of in *. cbn [Nat.min] in *.
      destruct (IH (d + 1) (s + 1) l (<[d := c]> m)) as (m' & E & Hp).
      * apply cstr_insert; [done|lia].
      * apply mapped_insert, (mapped_sub _ _ _ _ _ Hm); lia.
      * lia.
      * exists m'. rewrite E. split; [do 2 f_equal; lia|by apply put_cons].
Qed.

Lemma strcpy_loop_ok l : ∀ fuel d s m, cstr m s l → (length l < fuel)%nat → mapped m d (Z.of_nat (length l) + 1) →
  clear_of d (Z.of_nat (length l) + 1) s (Z.of_nat (length l)) →
  ∃ m', strcpy_loop fuel d s m = Ok m' ∧ written d (Z.of_nat (length l) + 1) (with_nul l) m m'.
Proof.
  intros fuel d s m Hc Hf Hm Hd.
  assert (∃ m', strcpy_loop fuel d s m = (store (d + Z.of_nat (length l)) 0 m') ∧ put d l m m') as (m' & -> & Hp);
    [|by apply put_nul].
  revert fuel d s m Hc Hf Hm Hd. induction l as [|c l IH]; intros fuel d s m Hc Hf Hm Hd; (destruct fuel as [|fuel]; [lia|]);
    cbn [strcpy_loop]; rewrite (cstr_load _ _ _ Hc), Ok_bind; cbn [hd length] in *; rewrite store_ok, Ok_bind by (apply Hm; lia).
  - exists m. rewrite Z.add_0_r, store_ok by (apply Hm; lia). split; [done|]. apply put_nil; [apply Hm; lia|done].
  - destruct Hc as (_ & Hr & Hc). destruct (Z.eqb_spec c 0); [lia|]. unfold clear_of in *.
    destruct (IH fuel (d + 1) (s + 1) (<[d := c]> m)) as (m' & E & Hp).
    + apply cstr_insert; [done|lia].
    + lia.
    + apply mapped_insert, (mapped_sub _ _ _ _ _ Hm); lia.
    + lia.
    + exists m'. rewrite E. split; [f_equal; lia|by apply put_cons].
Qed.

Lemma strlcat_loop_ok l : ∀ fuel n d s m, cstr m s l → (length l < fuel)%nat → 1 ≤ n → mapped m d n →
  clear_of d n s (Z.of_nat (length l)) →
  ∃ m', strlcat_loop fuel n d s m =
      Ok (d + Z.of_nat (length (take (Z.to_nat (n - 1)) l)), s + Z.of_nat (length l), m') ∧
    put d (take (Z.to_nat (n - 1)) l) m m'.
Proof.
  induction l as [|c l IH]; intros fuel n d s m Hc Hf Hn Hm Hd; (destruct fuel as [|fuel]; [lia|]);
    cbn [strlcat_loop]; rewrite (cstr_load _ _ _ Hc), Ok_bind; cbn [hd length] in *.
  - exists m. rewrite take_nil. cbn. rewrite !Z.add_0_r. split; [done|]. apply put_nil; [apply Hm; lia|done].
  - destruct Hc as (_ & Hr & Hc). destruct (Z.eqb_spec c 0); [lia|]. unfold clear_of in *.
    destruct (Z.eqb_spec n 1) as [->|Hn1].
    + destruct (IH fuel 1 d (s + 1) m Hc ltac:(lia) ltac:(lia) Hm ltac:(lia)) as (m' & E & Hp).
      exists m'. rewrite E. cbn [Z.sub Z.to_nat take] in *. split; [do 3 f_equal; lia|done].
    + rewrite store_ok, Ok_bind by (apply Hm; lia).
      destruct (IH fuel (n - 1) (d + 1) (s + 1) (<[d := c]> m)) as (m' & E & Hp); [|lia|lia| |lia|].
      * apply cstr_insert; [done|lia].
      * apply mapped_insert, (mapped_sub _ _ _ _ _ Hm); lia.
      * exists m'. rewrite E. replace (Z.to_nat (n - 1)) with (S (Z.to_nat (n - 1 - 1))) by lia. cbn [take length].
        split; [do 3 f_equal; lia|by apply put_cons].
Qed.

Lemma bounded_end_ok m l : ∀ n s, cstr m s l → bounded_end n s m = Ok (s + Z.of_nat (n `min` length l)).
Proof.
  induction l as [|c l IH]; intros n s Hc; (destruct n as [|n]; [cbn; by rewrite Z.add_0_r|]); cbn [bounded_end];
    rewrite (cstr_load _ _ _ Hc), Ok_bind; cbn [hd length].
  - cbn. by rewrite Z.add_0_r.
  - destruct Hc as (_ & Hr & Hc). destruct (Z.eqb_spec c 0); [lia|]. rewrite IH by done. f_equal. cbn [Nat.min]. lia.
Qed.

(** What appending a string comes to: [l] behind [l1], and nothing else. *)
Definition appended (dst : Z) (l1 l : list Z) (m m' : mem_t) : Prop :=
  cstr m' dst (l1 ++ l) ∧
  ∀ a, ¬ (dst + Z.of_nat (length l1) ≤ a ≤ dst + Z.of_nat (length l1 + length l)) → m' !! a = m !! a.

Lemma written_appended dst l1 l m m' : cstr m dst l1 → Forall (λ c, 0 < c < 256) l →
  written (dst + Z.of_nat (length l1)) (Z.of_nat (length l) + 1) (with_nul l) m m' → appended dst l1 l m m'.
Proof.
  intros H1 HF Hw. split.
  - apply (cstr_join m); [done| |by eapply cstr_written]. intros a Ha. apply (written_lookup_out _ _ _ _ _ _ Hw). lia.
  - intros a Ha. apply (written_lookup_out _ _ _ _ _ _ Hw). lia.
Qed.

(** strcat appends a string, strncat at most [n] bytes of it, and strlcat as
    much as leaves the result and its NUL in [siz] bytes; the result of strlcat is the
    length it tried to make, or [siz] and the length of the source when the
    destination has no NUL in its first [siz] bytes. *)
Theorem strcat_appends dst src l1 l2 m : cstr m dst l1 → cstr m src l2 →
  let k := Z.of_nat (length l1) in
  (∀ room, Z.of_nat (length l1 + length l2) < room → mapped m dst room → clear_of dst room src (Z.of_nat (length l2)) →
    ∃ m', strcat dst src m = Ok (dst, m') ∧ appended dst l1 l2 m m') ∧
  (∀ n, 0 < n → mapped m dst (k + n + 1) → clear_of dst (k + n + 1) src (Z.of_nat (length l2)) →
    ∃ m', strncat dst src n m = Ok (dst, m') ∧ appended dst l1 (take (Z.to_nat n) l2) m m') ∧
  (∀ siz, 0 ≤ siz → mapped m dst siz → clear_of dst siz src (Z.of_nat (length l2)) →
    if k <? siz then
      ∃ m', strlcat dst src siz m = Ok (k + Z.of_nat (length l2), m') ∧ appended dst l1 (take (Z.to_nat (siz - k - 1)) l2) m m'
    else bytes_ok m → words_mapped m src (Z.of_nat (length l2)) →
      strlcat dst src siz m = Ok (siz + Z.of_nat (length l2), m)).
Proof.
  intros H1 H2 k. pose proof (cstr_bytes _ _ _ H2) as HF. pose proof (cstr_fuel _ _ _ H1) as F1. pose proof (cstr_fuel _ _ _ H2) as F2.
  split_and!.
  - intros room Hr Hm Hc. unfold strcat. rewrite (find_end_ok m l1) by done. rewrite Ok_bind.
    destruct (strcpy_loop_ok l2 (scan_fuel m) (dst + k) src m H2 F2) as (m' & E & Hw).
    + apply (mapped_sub _ _ _ _ _ Hm); lia.
    + unfold clear_of in *. lia.
    + fold k. rewrite E, Ok_bind. exists m'. split; [done|]. by apply written_appended.
  - intros n Hn Hm Hc. unfold strncat. destruct (Z.eqb_spec n 0); [lia|]. rewrite (find_end_ok m l1) by done. rewrite Ok_bind.
    destruct (strncat_loop_ok (Z.to_nat n) (dst + k) src l2 m H2) as (m1 & E & Hp).
    + apply (mapped_sub _ _ _ _ _ Hm); lia.
    + unfold clear_of in *. lia.
    + fold k. rewrite E, Ok_bind. cbv beta iota. destruct (put_nul _ _ _ _ Hp) as (m' & E' & Hw). rewrite E', Ok_bind.
      exists m'. split; [done|]. apply written_appended; [done|by apply Forall_take|done].
  - intros siz Hs Hm Hc. unfold strlcat. rewrite (bounded_end_ok m l1) by done. rewrite Ok_bind.
    destruct (Z.ltb_spec k siz) as [Hlt|Hge].
    + replace (dst + Z.of_nat (Z.to_nat siz `min` length l1)) with (dst + k) by lia.
      replace (dst + k - dst) with k by lia. destruct (Z.eqb_spec (siz - k) 0); [lia|].
      destruct (strlcat_loop_ok l2 (scan_fuel m) (siz - k) (dst + k) src m H2 F2) as (m1 & E & Hp); [lia| | |].
      * apply (mapped_sub _ _ _ _ _ Hm); lia.
      * unfold clear_of in *. lia.
      * rewrite E, Ok_bind. cbv beta iota. destruct (put_nul _ _ _ _ Hp) as (m' & E' & Hw). rewrite E', Ok_bind.
        exists m'. split; [do 2 f_equal; lia|]. apply written_appended; [done|by apply Forall_take|done].
    + intros Hb Hw. replace (dst + Z.of_nat (Z.to_nat siz `min` length l1) - dst) with siz by lia.
      rewrite Z.sub_diag, Z.eqb_refl. by rewrite (strlen_ok m src l2 Hb H2 Hw), Ok_bind.
Qed.

(** *** strncpy *)

Lemma pad_nul_ok n : ∀ d m, mapped m d (Z.of_nat n) → ∃ m', pad_nul n d m = Ok m' ∧ written d (Z.of_nat n) (λ _, Some 0) m m'.
Proof.
  induction n as [|n IH]; intros d m Hm; cbn [pad_nul]; [exists m; split; [done|apply written_nil]|].
  rewrite store_ok, Ok_bind by (apply Hm; lia).
  destruct (IH (d + 1) (<[d := 0]> m)) as (m' & E & Hw); [apply mapped_insert, (mapped_sub _ _ _ _ _ Hm); lia|].
  exists m'. split; [done|]. intros a. rewrite (Hw a). destruct (decide (a = d)) as [->|].
  - rewrite decide_False, decide_True by lia. by rewrite lookup_insert_eq.
  - rewrite lookup_insert_ne by done. destruct (decide (d + 1 ≤ a < _)); [by rewrite decide_True by lia|by rewrite decide_False by lia].
Qed.

(** strncpy writes exactly [n] bytes: the string, cut at [n] bytes, and NULs. *)
Theorem strncpy_pads dst src l n m : cstr m src l → 0 ≤ n → mapped m dst n → clear_of dst n src (Z.of_nat (length l)) →
  ∃ m', strncpy dst src n m = Ok (dst, m') ∧ written dst n (λ i, Some (nth (Z.to_nat i) l 0)) m m'.
Proof.
  intros Hc Hn Hm Hd. unfold strncpy.
  assert (∃ m', strncpy_loop (Z.to_nat n) dst src m = Ok m' ∧
    written dst (Z.of_nat (Z.to_nat n)) (λ i, Some (nth (Z.to_nat i) l 0)) m m') as (m' & -> & Hw).
  { rewrite <- (Z2Nat.id n) in Hm, Hd by done. clear Hn. unfold clear_of in Hd.
    revert dst src l m Hc Hm Hd. generalize (Z.to_nat n) as k. clear n.
    induction k as [|k IH]; intros dst src l m Hc Hm Hd; [exists m; split; [done|apply written_nil]|].
    cbn [strncpy_loop]. rewrite (cstr_load _ _ _ Hc), Ok_bind, store_ok, Ok_bind by (apply Hm; lia).
    assert (∀ m' (f : Z → option Z), written (dst + 1) (Z.of_nat k) f (<[dst := hd 0 l]> m) m' →
      (∀ i, 0 ≤ i → f i = Some (nth (S (Z.to_nat i)) l 0)) →
      written dst (Z.of_nat (S k)) (λ i, Some (nth (Z.to_nat i) l 0)) m m') as HW.
    { intros m' f Hw Hf a. rewrite (Hw a). destruct (decide (a = dst)) as [->|].
      - rewrite decide_False, decide_True, Z.sub_diag by lia. rewrite lookup_insert_eq. by destruct l.
      - rewrite lookup_insert_ne by done. destruct (decide (dst + 1 ≤ a < _)).
        + rewrite decide_True, Hf by lia. by replace (S (Z.to_nat (a - (dst + 1)))) with (Z.to_nat (a - dst)) by lia.
        + by rewrite decide_False by lia. }
    destruct l as [|c l]; cbn [hd] in *.
    - destruct (pad_nul_ok k (dst + 1) (<[dst := 0]> m)) as (m' & E & Hw).
      { apply mapped_insert, (mapped_sub _ _ _ _ _ Hm); lia. }
      exists m'. split; [done|]. apply (HW m' (λ _, Some 0) Hw). intros i _. done.
    - destruct Hc as (_ & Hr & Hc). destruct (Z.eqb_spec c 0); [lia|]. cbn [length] in Hd.
      destruct (IH (dst + 1) (src + 1) l (<[dst := c]> m)) as (m' & E & Hw).
      + apply cstr_insert; [done|lia].
      + apply mapped_insert, (mapped_sub _ _ _ _ _ Hm); lia.
      + lia.
      + exists m'. split; [done|]. by apply (HW m' _ Hw). }
  rewrite Ok_bind. exists m'. rewrite Z2Nat.id in Hw by done. by split.
Qed.
End Theorems.

(** ** Witness *)

Module CatDemo.

(** Five bytes at 1 and five bytes at 10 of the text of StringTheorems, which are
    aligned differently. *)
Lemma bcmp_decides_witness : bcmp 1 10 5 text_mem = Ok 1 ∧ bcmp 2 2 3 text_mem = Ok 0.
Proof.
  split.
  - destruct (bcmp_decides 1 10 5 text_mem text_bytes) as (r & E & Hr & Hd); [lia| | |].
    + exists 0, 8. split_and!; try (by vm_compute). apply text_mapped; lia.
    + exists 8, 16. split_and!; try (by vm_compute). apply text_mapped; lia.
    + rewrite E. destruct Hr as [-> | ->]; [|reflexivity].
      exfalso. pose proof (proj1 Hd eq_refl) as Hall. specialize (Hall 0). revert Hall. vm_compute. intros Hall.
      specialize (Hall ltac:(split; [discriminate|reflexivity])). discriminate.
  - destruct (bcmp_decides 2 2 3 text_mem text_bytes) as (r & E & Hr & Hd); [lia| | |].
    + exists 0, 8. split_and!; try (by vm_compute). apply text_mapped; lia.
    + exists 0, 8. split_and!; try (by vm_compute). apply text_mapped; lia.
    + rewrite E, (proj2 Hd); [reflexivity|]. intros. reflexivity.
Defined.
End CatDemo.
