(* ===== verification/Of.v ===== *)
(** * The device tree (kernel/of/mdx_of.c, mdx_of_dev.c, mdx_of_intr.c) and the
    driver modules (kernel/init/mdx_device.c)

    libfdt is a vendored library: the class [Fdt] lists the functions of it that
    the kernel calls, and [FdtLaws] the documented order of node offsets that
    the kernel's loops rely on.  Property values are addresses in the blob's
    memory; fdt32_ld is libfdt.h's inline big-endian load. *)

From S2P Require Import Prelude Freelist Memory StringCopy StringScan StringTheorems Device.
From stdpp Require Import strings.
Local Open Scope Z_scope.

(** A node path: a literal of the source or the value of a property. *)
Inductive fdt_path := Lit (s : string) | At (a : Z).

Class Fdt := {
  fdt_totalsize : Z;
  fdt_getprop : Z → string → option (Z * Z);          (** offset, name: address, length *)
  fdt_next_node : Z → Z → Z * Z;                      (** offset, depth: offset, depth *)
  fdt_parent_offset : Z → Z;
  fdt_node_offset_by_phandle : Z → Z;
  fdt_node_offset_by_compatible : Z → string → Z;     (** start offset *)
  fdt_path_offset : fdt_path → Z
}.

(** Offsets grow in the order of the tree's structure block. *)
Class FdtLaws `{Fdt} : Prop := {
  next_node_grows : ∀ o d, (fdt_next_node o d).1 < 0 ∨ o < (fdt_next_node o d).1 < fdt_totalsize;
  parent_precedes : ∀ o, fdt_parent_offset o < 0 ∨ fdt_parent_offset o < o;
  by_compatible_grows : ∀ o c, fdt_node_offset_by_compatible o c < 0 ∨
                               o < fdt_node_offset_by_compatible o c < fdt_totalsize
}.

Definition MDX_ERROR : Z := -1.
Definition MDX_EEXIST : Z := -2.

(** fdt32_ld() *)
Definition fdt32_ld (a : Z) (m : mem_t) : res Z :=
  b0 ← load m a;
  b1 ← load m (a + 1);
  b2 ← load m (a + 2);
  b3 ← load m (a + 3);
  Ok (Z.lor (Z.lor (Z.lor (Z.shiftl b0 24) (Z.shiftl b1 16)) (Z.shiftl b2 8)) b3).

Section Model.
Context `{Arch} `{Fdt}.
Context (disabled : Z).             (* the literal "disabled" *)

Definition mdx_of_ld32 (regp : Z) (m : mem_t) : res Z := r ← fdt32_ld regp m; Ok (s32 r).

Definition mdx_of_node_is_enabled (offset : Z) (m : mem_t) : res bool :=
  match fdt_getprop offset "status" with
  | None => Ok true
  | Some (status, _) => d ← strcmp status disabled m; Ok (negb (d =? 0))
  end.

(** [while (len > 0)] *)
Fixpoint compat_loop (fuel : nat) (compat len check : Z) (m : mem_t) : res bool :=
  match fuel with
  | O => Err NoFuel
  | S fuel =>
    if 0 <? len then
      clen ← strlen compat m;
      d ← strcasecmp compat check m;
      if d =? 0 then Ok true else
      compat_loop fuel (compat + (clen + 1)) (len - (clen + 1)) check m
    else Ok false
  end.

Definition mdx_of_node_is_compatible (offset check : Z) (m : mem_t) : res bool :=
  match fdt_getprop offset "compatible" with
  | None => Ok false
  | Some (compat, len) => compat_loop (S (Z.to_nat len)) compat len check m
  end.

(** [do { ... } while (offset > 0);] *)
Fixpoint find_compat_loop (fuel : nat) (offset depth compat : Z) (m : mem_t) : res Z :=
  match fuel with
  | O => Err NoFuel
  | S fuel =>
    let '(offset, depth) := fdt_next_node offset depth in
    e ← mdx_of_node_is_enabled offset m;
    c ← (if e : bool then mdx_of_node_is_compatible offset compat m else Ok false);
    if c : bool then Ok offset else
    if 0 <? offset then find_compat_loop fuel offset depth compat m else Ok 0
  end.

Definition mdx_of_find_first_compatible (compat : Z) (m : mem_t) : res Z :=
  find_compat_loop (S (Z.to_nat fdt_totalsize)) 0 1 compat m.

(** [do { ... } while (offset >= 0);]: the phandle's node, or -1. *)
Fixpoint intc_loop (fuel : nat) (offset : Z) (m : mem_t) : res Z :=
  match fuel with
  | O => Err NoFuel
  | S fuel =>
    match fdt_getprop offset "interrupt-parent" with
    | Some (regp, _) => phandle ← fdt32_ld regp m; Ok (fdt_node_offset_by_phandle phandle)
    | None =>
      let offset := fdt_parent_offset offset in
      if 0 <=? offset then intc_loop fuel offset m else Ok (-1)
    end
  end.

Definition mdx_of_intc_offset (offset : Z) (m : mem_t) : res Z :=
  intc_offset ← intc_loop (S (S (Z.to_nat offset))) offset m;
  Ok (if intc_offset <? 0 then -1 else intc_offset).

Definition mdx_of_node_offset_by_phandle (phandle : Z) : Z := fdt_node_offset_by_phandle phandle.
Definition mdx_of_parent_offset (nodeoffset : Z) : Z := fdt_parent_offset nodeoffset.

(** [Some res] when the call returns 0. *)
Definition mdx_of_get_prop32 (nodeoffset : Z) (propname : string) (m : mem_t) : res (option Z) :=
  match fdt_getprop nodeoffset propname with
  | None => Ok None
  | Some (regp, _) => r ← fdt32_ld regp m; Ok (Some r)
  end.

Definition mdx_of_get_cells (offset : Z) (m : mem_t) : res (option (Z * Z)) :=
  match fdt_getprop offset "#address-cells" with
  | None => Ok None
  | Some (regp, _) =>
    addr ← fdt32_ld regp m;
    match fdt_getprop offset "#size-cells" with
    | None => Ok None
    | Some (regp, _) => size ← fdt32_ld regp m; Ok (Some (addr, size))
    end
  end.

Definition mdx_of_offset_by_compatible (offset : Z) (compatible : string) : Z :=
  fdt_node_offset_by_compatible offset compatible.

Definition mdx_of_chosen_path_offset : Z :=
  let offset := fdt_path_offset (Lit "/chosen") in
  if 0 <=? offset then
    match fdt_getprop offset "stdout-path" with
    | Some (prop, _) =>
      let path_offset := fdt_path_offset (At prop) in
      if 0 <=? path_offset then path_offset else -1
    | None => -1
    end
  else -1.

Definition mdx_of_node_by_path (path : fdt_path) : Z := fdt_path_offset path.

(** ** Registers of a device *)

(** [for (i = 0; i < n; i++) v = ((uint64_t)v << 32) | fdt32_ld(r++);] on a
    [w]-bit variable: the value and the advanced pointer. *)
Fixpoint ld_cells (w : Z) (n : nat) (v r : Z) (m : mem_t) : res (Z * Z) :=
  match n with
  | O => Ok (v, r)
  | S n => c ← fdt32_ld r m; ld_cells w n (wrap w (Z.lor (u64 (Z.shiftl v 32)) c)) (r + 4) m
  end.

(** The loop over the tuples of a "ranges" property. *)
Fixpoint ranges_loop (n : nat) (naddr b_naddr nsize paddr r : Z) (m : mem_t) : res Z :=
  match n with
  | O => Ok paddr
  | S n =>
    '(raddr, r) ← ld_cells 64 (Z.to_nat naddr) 0 r m;
    '(baddr, r) ← ld_cells 64 (Z.to_nat b_naddr) 0 r m;
    '(rsize, r) ← ld_cells 64 (Z.to_nat nsize) 0 r m;
    let paddr :=
      if (paddr <? raddr) || (u64 (raddr + rsize) <=? paddr) then paddr
      else wrap PTR_W (u64 (u64 (paddr - raddr) + baddr)) in
    ranges_loop n naddr b_naddr nsize paddr r m
  end.

(** The loop over the buses; [inl] is an early return. *)
Fixpoint bus_loop (fuel : nat) (parent bus naddr nsize paddr : Z) (m : mem_t) : res (option Z) :=
  match fuel with
  | O => Err NoFuel
  | S fuel =>
    if negb (0 <? bus) then Ok (Some paddr) else
    cells ← mdx_of_get_cells bus m;
    match cells with
    | None => Ok None
    | Some (b_naddr, b_nsize) =>
      match fdt_getprop parent "ranges" with
      | None => Ok (Some paddr)
      | Some (r, len) =>
        paddr ← (if len =? 0 then Ok paddr else
                   let n := u32 (naddr + b_naddr + nsize) in
                   if n =? 0 then Err Fault (* division by zero *) else
                   ranges_loop (Z.to_nat (len / 4 / n)) naddr b_naddr nsize paddr r m);
        bus_loop fuel bus (fdt_parent_offset bus) naddr nsize paddr m
      end
    end
  end.

(** The node of a device; PHYS_TO_DMAP is the identity.  [Some (addr, size)]
    when the call returns 0, [None] when it returns -1. *)
Definition mdx_of_get_reg (nodeoffset : Z) (m : mem_t) : res (option (Z * Z)) :=
  let parent := fdt_parent_offset nodeoffset in
  let parent := if parent =? 0 then fdt_path_offset (Lit "/") else parent in
  cells ← mdx_of_get_cells parent m;
  match cells with
  | None => Ok None
  | Some (naddr, nsize) =>
    match fdt_getprop nodeoffset "reg" with
    | None => Ok None
    | Some (regp, _) =>
      '(paddr, regp) ← ld_cells PTR_W (Z.to_nat naddr) 0 regp m;
      '(psize, regp) ← ld_cells PTR_W (Z.to_nat nsize) 0 regp m;
      r ← bus_loop (S (Z.to_nat fdt_totalsize)) parent (fdt_parent_offset parent) naddr nsize paddr m;
      match r with None => Ok None | Some paddr => Ok (Some (paddr, psize)) end
    end
  end.

(** ** Interrupts (mdx_of_intr.c) *)

(** The address of the device's interrupt specifier [index], its number of
    cells, and the interrupt controller: what mdx_of_setup_intr passes on to
    the controller's map, setup and enable methods; [None] for MDX_ERROR. *)
Definition mdx_of_setup_intr {W} (nodeoffset index : Z) (s : dst W) (m : mem_t) :
    res (option (Z * Z * Z)) :=
  intc_offset ← mdx_of_intc_offset nodeoffset m;
  if intc_offset <? 0 then Ok None else
  match fdt_getprop intc_offset "#interrupt-cells" with
  | None => Ok None
  | Some (regp, _) =>
    c ← fdt32_ld regp m;
    let ncells := s32 c in
    if ncells <=? 0 then Ok None else
    match fdt_getprop nodeoffset "interrupts" with
    | None => Ok None
    | Some (regp, len) =>
      let ntuples := len / 4 / ncells in
      if ntuples <=? index then Ok None else
      intc ← mdx_device_lookup_by_offset intc_offset s;
      match intc with
      | None => Ok None
      | Some intc => Ok (Some (intc, regp + 4 * (index * ncells), ncells))
      end
    end
  end.

(** ** Probing the tree *)

Context {W : Type}.
Context (zalloc : Z → W → res (Z * W)) (free : Z → W → res W).
Context (probe attach : Z → Z → dst W → res (Z * dst W)).
Context (DEV_S : Z).   (* sizeof(struct mdx_device) *)

Definition mdx_of_probe_and_attach (offset dri : Z) (s : dst W) (m : mem_t) : res (Z * Z * dst W) :=
  e ← mdx_of_node_is_enabled offset m;
  if negb e then Ok (-1, 0, s) else
  old ← mdx_device_lookup_by_offset offset s;
  match old with
  | Some _ => Ok (MDX_EEXIST, 0, s)
  | None =>
    match fdt_getprop offset "compatible" with
    | None => Ok (-2, 0, s)
    | Some _ =>
      '(dev, w) ← zalloc DEV_S (rest s);
      if dev =? 0 then Err Panic else
      let s := put_dev dev {| d_sc := 0; d_nodeoffset := offset; d_dri := dri; d_unit := 0 |}
                 (set_rest w s) in
      '(error, s) ← mdx_device_probe_and_attach zalloc probe attach dev s;
      if negb (error =? 0) then w ← free dev (rest s); Ok (MDX_ERROR, 0, set_rest w s)
      else Ok (0, dev, s)
    end
  end.

Definition mdx_of_dev_uart_chosen (dev : Z) (s : dst W) : res bool :=
  let chosen := mdx_of_chosen_path_offset in
  d ← load (devtab s) dev;
  Ok (negb ((chosen <? 0) || negb (chosen =? d_nodeoffset d))).

Context (register_uart : Z → W → res W).   (* mdx_console_register_uart *)

(** The endless loop over the nodes compatible with [compatible]. *)
Fixpoint module_nodes (fuel : nat) (offset : Z) (compatible : string) (dri : Z) (s : dst W) (m : mem_t) :
    res (dst W) :=
  match fuel with
  | O => Err NoFuel
  | S fuel =>
    let offset := mdx_of_offset_by_compatible offset compatible in
    if offset <? 0 then Ok s else
    '(error, dev, s) ← mdx_of_probe_and_attach offset dri s m;
    s ← (if error =? 0 then
           c ← mdx_of_dev_uart_chosen dev s;
           if c : bool then w ← register_uart dev (rest s); Ok (set_rest w s) else Ok s
         else Ok s);
    module_nodes fuel offset compatible dri s m
  end.

Fixpoint module_compat (cds : list string) (dri : Z) (s : dst W) (m : mem_t) : res (dst W) :=
  match cds with
  | [] => Ok s
  | c :: cds => s ← module_nodes (S (Z.to_nat fdt_totalsize)) 0 c dri s m; module_compat cds dri s m
  end.

Definition mdx_driver_module_handler (dri : Z) (s : dst W) (m : mem_t) : res (Z * dst W) :=
  d ← load (drivers s) dri;
  match dr_compat_data d with
  | None => Ok (-1, s)
  | Some cds => s ← module_compat cds dri s m; Ok (0, s)
  end.
End Model.
