(* ===== verification/OfTheorems.v ===== *)
(** * The device tree: theorems *)

From S2P Require Import Prelude Freelist Memory StringCopy StringScan StringTheorems Device Of.
From stdpp Require Import strings.
Local Open Scope Z_scope.

Section Theorems.
Context `{Arch} `{Fdt}.

(** ** The interrupt parent *)

(** The "interrupt-parent" property that a node inherits: its own, or that of
    the nearest ancestor that has one. *)
Inductive irq_parent : Z → option Z → Prop :=
| irq_here o regp len : fdt_getprop o "interrupt-parent" = Some (regp, len) → irq_parent o (Some regp)
| irq_up o r :
    fdt_getprop o "interrupt-parent" = None → 0 ≤ fdt_parent_offset o →
    irq_parent (fdt_parent_offset o) r → irq_parent o r
| irq_none o :
    fdt_getprop o "interrupt-parent" = None → fdt_parent_offset o < 0 → irq_parent o None.

(** The controller named by the phandle at [regp]. *)
Definition controller_at (r : option Z) (m : mem_t) : res Z :=
  match r with
  | None => Ok (-1)
  | Some regp => phandle ← fdt32_ld regp m; Ok (fdt_node_offset_by_phandle phandle)
  end.

Lemma intc_loop_spec `{!FdtLaws} fuel o m :
  0 ≤ o → (Z.to_nat o < fuel)%nat → ∃ r, irq_parent o r ∧ intc_loop fuel o m = controller_at r m.
Proof.
  revert o. induction fuel as [|fuel IH]; intros o Ho Hf; [lia|]. cbn [intc_loop].
  destruct (fdt_getprop o "interrupt-parent") as [[regp len]|] eqn:E.
  { exists (Some regp). split; [by eapply irq_here|done]. }
  pose proof (parent_precedes o) as Hp. destruct (Z.leb_spec 0 (fdt_parent_offset o)).
  - destruct (IH (fdt_parent_offset o)) as (r & Hr & ->); [done|lia|].
    exists r. split; [by apply irq_up|done].
  - exists None. split; [by apply irq_none|done].
Qed.

(** C39: Mdx_of_intc_offset terminates on every tree whose parents precede their
    children, and returns the controller named by the interrupt parent that the
    node inherits from itself or its nearest ancestor; -1 when there is none or
    its phandle is unknown. *)
Theorem intc_offset_inherits `{!FdtLaws} (offset : Z) (m : mem_t) :
  0 ≤ offset →
  ∃ r, irq_parent offset r ∧
    mdx_of_intc_offset offset m = (o ← controller_at r m; Ok (if o <? 0 then -1 else o)).
Proof.
  intros Ho. destruct (intc_loop_spec (S (S (Z.to_nat offset))) offset m Ho) as (r & Hr & E); [lia|].
  exists r. split; [done|]. unfold mdx_of_intc_offset. by rewrite E.
Qed.

(** ** Compatibility *)

(** The strings [ls], each with its terminating zero, are stored from [a] on. *)
Fixpoint strs_at (m : mem_t) (a : Z) (ls : list (list Z)) : Prop :=
  match ls with
  | [] => True
  | l :: ls => cstr m a l ∧ words_mapped m a (Z.of_nat (length l)) ∧ strs_at m (a + (Z.of_nat (length l) + 1)) ls
  end.

Definition strs_len (ls : list (list Z)) : Z := zsum ((λ l, Z.of_nat (length l) + 1) <$> ls).

(** Equality up to the case of letters. *)
Definition same_name (l1 l2 : list Z) : bool := bool_decide (tolower <$> l1 = tolower <$> l2).

Lemma compat_loop_spec fuel a ls check lc m :
  bytes_ok m → strs_at m a ls → cstr m check lc → (Z.to_nat (strs_len ls) < fuel)%nat →
  compat_loop fuel a (strs_len ls) check m = Ok (existsb (λ l, same_name l lc) ls).
Proof.
  intros Hb Hs Hc. revert a ls Hs. induction fuel as [|fuel IH]; intros a ls Hs Hf; [lia|].
  cbn [compat_loop]. destruct ls as [|l ls]; [done|].
  change (strs_len (l :: ls)) with (Z.of_nat (length l) + 1 + strs_len ls) in *.
  assert (0 ≤ strs_len ls) as Hls.
  { apply zsum_nonneg, Forall_forall. intros x Hx. apply list_elem_of_fmap in Hx as (y & -> & _). lia. }
  destruct Hs as (Hl & Hw & Hs). destruct (Z.ltb_spec 0 (Z.of_nat (length l) + 1 + strs_len ls)); [|lia].
  rewrite (strlen_ok m a l Hb Hl Hw). cbn [mbind res_bind].
  rewrite (strcasecmp_ok _ _ _ _ _ Hl Hc). cbn [mbind res_bind].
  pose proof (difference_zero tolower l lc tolower_zero (cstr_pos _ _ _ Hl) (cstr_pos _ _ _ Hc)) as Hd.
  cbn [existsb]. unfold same_name at 1.
  destruct (Z.eqb_spec (first_diff tolower l lc) 0) as [E|E].
  - rewrite bool_decide_eq_true_2 by (by apply Hd). done.
  - rewrite bool_decide_eq_false_2 by (by rewrite <- Hd).
    replace (Z.of_nat (length l) + 1 + strs_len ls - (Z.of_nat (length l) + 1)) with (strs_len ls) by lia.
    apply IH; [done|lia].
Qed.

(** Mdx_of_node_is_compatible walks the list of strings of the "compatible"
    property and tells whether one of them is the given name, up to the case of
    letters; a node without the property is compatible with nothing. *)
Theorem node_is_compatible (offset check : Z) (lc : list Z) (m : mem_t) :
  bytes_ok m → cstr m check lc →
  match fdt_getprop offset "compatible" with
  | None => mdx_of_node_is_compatible offset check m = Ok false
  | Some (a, len) => ∀ ls, strs_at m a ls → len = strs_len ls →
      mdx_of_node_is_compatible offset check m = Ok (existsb (λ l, same_name l lc) ls)
  end.
Proof.
  intros Hb Hc. unfold mdx_of_node_is_compatible.
  destruct (fdt_getprop offset "compatible") as [[a len]|]; [|done].
  intros ls Hs ->. by apply compat_loop_spec; [..|lia].
Qed.
End Theorems.

(** ** Addresses *)

Section Addresses.
Context `{Arch} `{Fdt}.

(** The "ranges" of a bus directly under the root are never applied: the
    translation loop stops at offset 0, which is the root itself.  For a device
    whose parent's parent is the root, mdx_of_get_reg returns the untranslated
    cells of its "reg" property, whatever "ranges" its parent has. *)
Theorem toplevel_ranges_ignored (offset parent naddr nsize regp len paddr r1 psize r2 : Z) (m : mem_t) :
  fdt_parent_offset offset = parent → parent ≠ 0 → fdt_parent_offset parent = 0 →
  mdx_of_get_cells parent m = Ok (Some (naddr, nsize)) →
  fdt_getprop offset "reg" = Some (regp, len) →
  ld_cells PTR_W (Z.to_nat naddr) 0 regp m = Ok (paddr, r1) →
  ld_cells PTR_W (Z.to_nat nsize) 0 r1 m = Ok (psize, r2) →
  mdx_of_get_reg offset m = Ok (Some (paddr, psize)).
Proof.
  intros Ep Hp Er Ec Eg E1 E2. unfold mdx_of_get_reg. rewrite Ep.
  destruct (Z.eqb_spec parent 0); [done|]. rewrite Ec. cbn [mbind res_bind]. rewrite Eg.
  rewrite E1. cbn [mbind res_bind]. rewrite E2. cbn [mbind res_bind]. rewrite Er. done.
Qed.
End Addresses.

(** ** A concrete tree

    Node 0 is the root, node 8 a bus under it, node 16 a bus with two ranges on
    that bus, node 24 a device on the inner bus at 0x10; everything has one
    address and one size cell. *)

Module Tree.
Definition word (a v : Z) : list (Z * Z) :=
  [(a, byte_of v 3); (a + 1, byte_of v 2); (a + 2, byte_of v 1); (a + 3, byte_of v 0)].

Definition words (a : Z) (vs : list Z) : list (Z * Z) :=
  concat (imap (λ i v, word (a + 4 * Z.of_nat i) v) vs).

(** 100: #address-cells and #size-cells; 200: reg; 300: ranges; 400: the phandle;
    500: "gpio" and "GPIO-V2"; 520: "gpio-v2" *)
Definition blob : mem_t := list_to_map (
  words 100 [1] ++ words 200 [0x10; 0x4] ++
  words 300 [0x0; 0x1000; 0x1000; 0x1000; 0x8000; 0x1000] ++ words 400 [7] ++
  zip (seqZ 496 64) (replicate 4 0 ++ [103; 112; 105; 111; 0; 71; 80; 73; 79; 45; 86; 50; 0] ++
    replicate 7 0 ++ [103; 112; 105; 111; 45; 118; 50; 0] ++ replicate 32 0)).

#[export] Instance tree : Fdt := {|
  fdt_totalsize := 32;
  fdt_getprop o p :=
    if bool_decide (p = "#address-cells") then (if o <=? 16 then Some (100, 4) else None) else
    if bool_decide (p = "#size-cells") then (if o <=? 16 then Some (100, 4) else None) else
    if bool_decide (p = "reg") then (if 16 <=? o then Some (200, 8) else None) else
    if bool_decide (p = "ranges") then (if (o =? 8) || (o =? 16) then Some (300, 24) else None) else
    if bool_decide (p = "compatible") then (if o =? 24 then Some (500, 13) else None) else
    if bool_decide (p = "interrupt-parent") then (if o =? 0 then Some (400, 4) else None) else None;
  fdt_next_node o d := if (0 <=? o) && (o <? 24) then (o + 8, d + 1) else (-1, 0);
  fdt_parent_offset o := o - 8;
  fdt_node_offset_by_phandle p := if p =? 7 then 8 else -1;
  fdt_node_offset_by_compatible o c := -1;
  fdt_path_offset p := 0
|}.

#[export] Instance tree_laws : FdtLaws.
Proof.
  split.
  - intros o d. cbn. destruct (Z.leb_spec 0 o), (Z.ltb_spec o 24); simpl; lia.
  - intros o. cbn. lia.
  - intros o c. cbn. lia.
Qed.

Lemma blob_bytes : bytes_ok blob.
Proof. apply map_Forall_to_list. by apply (bool_decide_unpack _); vm_compute. Qed.

Lemma blob_mapped a n : 496 ≤ a → a + n ≤ 560 → mapped blob a n.
Proof.
  intros Ha Hn x Hx.
  assert (forallb (λ x, bool_decide (is_Some (blob !! x))) (seqZ 496 64) = true) as Hall by (by vm_compute).
  rewrite forallb_forall in Hall. specialize (Hall x). rewrite <- list_elem_of_In, elem_of_seqZ in Hall.
  specialize (Hall ltac:(lia)). by apply bool_decide_eq_true in Hall.
Qed.

(** After a range has matched, the loop of mdx_of_get_reg goes on with the
    translated address: 0x10 becomes 0x1010 by the first range and then 0x8010
    by the second one, whose child window is [0x1000, 0x2000). *)
Example ranges_translate_twice : mdx_of_get_reg 24 blob = Ok (Some (0x8010, 4)).
Proof. by vm_compute. Qed.

Lemma intc_offset_inherits_witness :
  mdx_of_intc_offset 24 blob = Ok 8 ∧
  ∃ r, irq_parent 24 r ∧ (o ← controller_at r blob; Ok (if o <? 0 then -1 else o)) = Ok 8.
Proof.
  split; [by vm_compute|].
  destruct (intc_offset_inherits 24 blob ltac:(lia)) as (r & Hr & E). exists r. split; [done|].
  rewrite <- E. by vm_compute.
Defined.

Definition gpio : list Z := [103; 112; 105; 111].
Definition gpio_v2 : list Z := [103; 112; 105; 111; 45; 118; 50].

Lemma node_is_compatible_witness :
  mdx_of_node_is_compatible 24 520 blob = Ok true.
Proof.
  assert (cstr blob 520 gpio_v2) as Hc by (by vm_compute).
  pose proof (node_is_compatible 24 520 gpio_v2 blob blob_bytes Hc) as Hn.
  assert (strs_at blob 500 [gpio; [71; 80; 73; 79; 45; 86; 50]]) as Hs.
  { split; [by vm_compute|]. split; [|split; [by vm_compute|split; [|exact I]]].
    - exists 496, 512. split_and!; [reflexivity|reflexivity|lia|simpl; lia|apply blob_mapped; lia].
    - exists 504, 520. split_and!; [reflexivity|reflexivity|simpl; lia|simpl; lia|apply blob_mapped; lia]. }
  rewrite (Hn _ Hs eq_refl). by vm_compute.
Defined.

(** Node 16 is at 0x10 on the bus 8 under the root, whose ranges map 0x10 to
    0x1010. *)
Lemma toplevel_ranges_ignored_witness : mdx_of_get_reg 16 blob = Ok (Some (0x10, 4)).
Proof.
  apply (toplevel_ranges_ignored 16 8 1 1 200 8 0x10 204 4 208 blob); by vm_compute.
Defined.
End Tree.
