(* ===== verification/Mbuf.v ===== *)
(** * Packet buffers (kernel/systm/mdx_mbuf.c)

    An mbuf is a small header allocated with malloc() that points into a data
    area allocated with malloc() too; m_adj() moves the start of the data. *)

From S2P Require Import Prelude Freelist FreelistInv FreelistSpec FreelistHeap FreelistProofs.
From S2P Require Import FreelistFree FreelistSetup FreelistTheorems Callout Kernel KernelTheorems.
From S2P Require Import Malloc MallocTheorems.
Local Open Scope Z_scope.

(** struct mbuf *)
Record mbuf := {
  m_next : Z;
  m_len : Z;      (** uint32_t *)
  m_type : Z;     (** 8 bits *)
  m_flags : Z;    (** 24 bits *)
  m_data : Z;
  m_data0 : Z
}.

Definition m_set_data (p n : Z) (mb : mbuf) : mbuf :=
  {| m_next := m_next mb; m_len := n; m_type := m_type mb; m_flags := m_flags mb; m_data := p;
     m_data0 := m_data0 mb |}.

Section Model.
Context `{Arch}.
Context (dz : Z) (MB_S : Z).   (* &mdx_fl_defaultzone, sizeof(struct mbuf) *)

(** m_alloc(): [junk] is what the header's memory held; m_type and m_flags are
    not initialised.  The int [size] is converted to [size_t]. *)
Definition m_alloc (junk : mbuf) (size : Z) (s : sys) (mbs : gmap Z mbuf) : res (Z * sys * gmap Z mbuf) :=
  '(m, s) ← malloc dz MB_S s;
  if m =? 0 then Ok (0, s, mbs) else
  '(d, s) ← malloc dz (wrap PTR_W size) s;
  if d =? 0 then s ← free dz m s; Ok (0, s, mbs) else
  Ok (m, s, <[m := {| m_next := 0; m_len := u32 size; m_type := m_type junk; m_flags := m_flags junk;
                      m_data := d; m_data0 := d |}]> mbs).

Definition m_free (m : Z) (s : sys) (mbs : gmap Z mbuf) : res (sys * gmap Z mbuf) :=
  mb ← load mbs m;
  s ← free dz (m_data0 mb) s;
  s ← free dz m s;
  Ok (s, delete m mbs).
End Model.

(** [m_len > size] compares unsigned numbers. *)
Definition m_adj (size : Z) (mb : mbuf) : mbuf :=
  if 0 <? size then
    if size <? m_len mb then m_set_data (m_data mb + size) (u32 (m_len mb - size)) mb else mb
  else m_set_data (m_data mb - - size) (u32 (m_len mb + - size)) mb.

(** The data lies in the buffer of [n] bytes that starts at [m_data0]. *)
Definition in_buffer (n : Z) (mb : mbuf) : Prop :=
  m_data0 mb ≤ m_data mb ∧ m_data mb + m_len mb ≤ m_data0 mb + n.

(** M_adj trims and prepends.  Trimming fewer bytes than the packet holds
    and prepending as many restores the mbuf; trimming all of the packet, or
    more, changes nothing; and prepending stays in the buffer exactly when that
    many bytes are in front of the data: m_adj does not check it. *)
Theorem m_adj_roundtrip (mb : mbuf) (size n : Z) :
  0 ≤ m_len mb < 2 ^ 32 → 0 < size < 2 ^ 31 → in_buffer n mb →
  (size < m_len mb → in_buffer n (m_adj size mb) ∧ m_adj (- size) (m_adj size mb) = mb) ∧
  (m_len mb ≤ size → m_adj size mb = mb) ∧
  (m_len mb + size < 2 ^ 32 → (in_buffer n (m_adj (- size) mb) ↔ size ≤ m_data mb - m_data0 mb)).
Proof.
  intros Hl Hs Hb. unfold in_buffer in *. unfold m_adj. split_and!.
  - intros Hlt. destruct (Z.ltb_spec 0 size); [|lia]. destruct (Z.ltb_spec size (m_len mb)); [|lia].
    destruct (Z.ltb_spec 0 (- size)); [lia|]. cbn [m_set_data m_data m_len m_data0].
    rewrite (wrap_small 32 (m_len mb - size)) by lia. split; [lia|].
    rewrite wrap_small by lia. unfold m_set_data. destruct mb; simpl in *. f_equal; lia.
  - intros Hge. destruct (Z.ltb_spec 0 size); [|lia]. by destruct (Z.ltb_spec size (m_len mb)); [lia|].
  - intros Hlt. destruct (Z.ltb_spec 0 (- size)); [lia|]. cbn [m_set_data m_data m_len m_data0].
    rewrite wrap_small by lia. lia.
Qed.

Lemma m_adj_roundtrip_witness :
  let mb := {| m_next := 0; m_len := 60; m_type := 0; m_flags := 0; m_data := 8192; m_data0 := 8192 |} in
  m_adj (-14) (m_adj 14 mb) = mb ∧ m_adj 60 mb = mb ∧ ¬ in_buffer 1500 (m_adj (-14) mb).
Proof.
  intros mb. destruct (m_adj_roundtrip mb 14 1500) as (H1 & _ & H3);
    [by vm_compute|lia|by vm_compute|].
  destruct (m_adj_roundtrip mb 60 1500) as (_ & H2 & _); [by vm_compute|lia|by vm_compute|].
  split_and!; [by apply H1|by apply H2|]. rewrite H3 by (by vm_compute). by vm_compute.
Defined.

Section Theorems.
Context `{Arch}.

Lemma malloc_sys_ok dz size s rs :
  ready (sy_k s) → fl_inv dz (sy_m s) rs → fits size →
  ∃ ptr s', malloc dz size s = Ok (ptr, s') ∧ sy_k s' = balanced (sy_k s) ∧
    ((ptr = 0 ∧ sy_m s' = sy_m s) ∨
     (0 < ptr ∧ ∃ rs', alloc_step (block_size size) rs ptr rs' ∧ fl_inv dz (sy_m s') rs')).
Proof.
  intros Hr Hi [Hs Hw]. unfold malloc. rewrite locked_eq by done. unfold in_section.
  destruct (malloc_ok dz (sy_m s) rs size Hi Hs Hw) as [(p & m' & rs' & -> & Ha & Hi' & Hp & _)|[-> _]];
    cbn [mbind res_bind]; eexists _, _; (split; [done|]); (split; [done|]).
  - right. split; [done|]. by exists rs'.
  - by left.
Qed.

(** M_alloc is all or nothing and m_free undoes it.  For a positive size it
    returns NULL with the heap blocks it started from, or an mbuf of that
    length whose data starts at its buffer; freeing it restores the heap, also
    when m_adj has moved the data in between. *)
Theorem mbuf_alloc_free (dz MB_S size : Z) (junk : mbuf) (s : sys) (rs : list region) (mbs : gmap Z mbuf) :
  ready (sy_k s) → fl_inv dz (sy_m s) rs → fits MB_S → fits size → size < 2 ^ 31 →
  ∃ m s' mbs', m_alloc dz MB_S junk size s mbs = Ok (m, s', mbs') ∧
    ((m = 0 ∧ fl_inv dz (sy_m s') rs ∧ mbs' = mbs) ∨
     (0 < m ∧ ∃ mb, mbs' !! m = Some mb ∧ m_len mb = size ∧ m_data mb = m_data0 mb ∧ m_next mb = 0 ∧
      ∀ k, ∃ s2, m_free dz m s' (<[m := m_adj k mb]> mbs') = Ok (s2, delete m mbs') ∧
        fl_inv dz (sy_m s2) rs)).
Proof.
  intros Hr Hi HM Hf Hsz. unfold m_alloc.
  destruct (malloc_sys_ok dz MB_S s rs Hr Hi HM) as (m & s1 & -> & Ek1 & Hc). cbn [mbind res_bind].
  pose proof (ready_balanced _ Hr) as Hr1. rewrite <- Ek1 in Hr1.
  destruct Hc as [(-> & Em)|(Hm & rs1 & Ha1 & Hi1)].
  { exists 0, s1, mbs. split; [done|]. left. by rewrite Em. }
  destruct (Z.eqb_spec m 0); [lia|]. pose proof Hf as [Hs0 Hs1]. pose proof NODE_S_bounds.
  rewrite (wrap_small PTR_W size) by lia.
  destruct (malloc_sys_ok dz size s1 rs1 Hr1 Hi1 Hf) as (d & s2 & -> & Ek2 & Hc). cbn [mbind res_bind].
  pose proof (ready_balanced _ Hr1) as Hr2. rewrite <- Ek2 in Hr2.
  destruct Hc as [(-> & Em2)|(Hd & rs2 & Ha2 & Hi2)].
  - change (0 =? 0) with true. cbv iota. rewrite <- Em2 in Hi1.
    destruct (free_undo dz s2 (sy_m s) rs rs1 (block_size MB_S) m Hr2 Hi Ha1 Hi1) as (s3 & -> & _ & _ & Hi3 & _).
    cbn [mbind res_bind]. exists 0, s3, mbs. split; [done|]. by left.
  - destruct (Z.eqb_spec d 0); [lia|]. eexists m, s2, _. split; [done|]. right. split; [done|].
    eexists. split; [apply lookup_insert_eq|]. split_and!; [by apply wrap_small; lia|done|done|].
    intros k. unfold m_free. rewrite insert_insert_eq.
    rewrite (load_Some _ _ _ (lookup_insert_eq _ _ _)). cbn [mbind res_bind].
    set (mb := {| m_next := 0 |}).
    replace (m_data0 (m_adj k mb)) with d by (unfold m_adj; destruct (0 <? k); [destruct (k <? m_len mb)|]; done).
    destruct (free_undo dz s2 (sy_m s1) rs1 rs2 (block_size size) d Hr2 Hi1 Ha2 Hi2)
      as (s3 & -> & Ek3 & _ & Hi3 & _). cbn [mbind res_bind].
    destruct (free_undo dz s3 (sy_m s) rs rs1 (block_size MB_S) m) as (s4 & -> & _ & _ & Hi4 & _);
      [rewrite Ek3; by apply ready_balanced|done|done|done|].
    cbn [mbind res_bind]. exists s4. split; [|done]. by rewrite !delete_insert_eq.
Qed.
End Theorems.

Lemma mbuf_alloc_free_witness :
  ∃ h m s' mbs',
    m_alloc 4096 100 {| m_next := 0; m_len := 0; m_type := 9; m_flags := 9; m_data := 0; m_data0 := 0 |}
      100 (demo_sys h) ∅ = Ok (m, s', mbs').
Proof.
  destruct demo_inv as (h & _ & Hi). exists h.
  destruct (mbuf_alloc_free 4096 100 100
    {| m_next := 0; m_len := 0; m_type := 9; m_flags := 9; m_data := 0; m_data0 := 0 |} (demo_sys h) _ ∅
    booted_ready Hi demo_fits demo_fits) as (m & s' & mbs' & E & _); [lia|].
  by exists m, s', mbs'.
Defined.
