(* ===== verification/CksumTheorems.v ===== *)
(** * The Internet checksum is the one's complement sum of RFC 1071 *)

From S2P Require Import Prelude Cksum.
Local Open Scope Z_scope.

(** ** Sums up to 65535 *)

(** Congruence modulo 65535 of numbers that are not negative, zero apart: what
    one's complement addition preserves. *)
Definition eq1c (x y : Z) : Prop := 0 ≤ x ∧ 0 ≤ y ∧ x mod 65535 = y mod 65535 ∧ (x = 0 ↔ y = 0).

#[export] Instance eq1c_sym : Symmetric eq1c.
Proof. intros x y (?&?&?&?). repeat split; tauto || congruence. Qed.

#[export] Instance eq1c_trans : Transitive eq1c.
Proof. intros x y z (?&?&?&?) (?&?&?&?). repeat split; tauto || congruence. Qed.

Lemma eq1c_refl x : 0 ≤ x → eq1c x x.
Proof. by repeat split. Qed.

Lemma eq1c_add x x' y y' : eq1c x x' → eq1c y y' → eq1c (x + y) (x' + y').
Proof.
  intros (?&?&E1&?) (?&?&E2&?). split_and!; [lia|lia| |lia].
  rewrite Zplus_mod, E1, E2, <- Zplus_mod. done.
Qed.

Lemma eq1c_scale k x y : 0 < k → eq1c x y → eq1c (k * x) (k * y).
Proof.
  intros Hk (?&?&E&?). split_and!; [nia|nia| |nia].
  by rewrite Zmult_mod, E, <- Zmult_mod.
Qed.

#[export] Instance eq1c_add_proper : Proper (eq1c ==> eq1c ==> eq1c) Z.add.
Proof. intros ??????. by apply eq1c_add. Qed.

Lemma eq1c_wrap x : 0 ≤ x → eq1c (65536 * x) x.
Proof.
  intros. split_and!; [lia|lia| |lia]. replace (65536 * x) with (x + x * 65535) by lia.
  by rewrite Z_mod_plus_full.
Qed.

(** In [0, 65535] the relation is equality. *)
Lemma eq1c_small x y : eq1c x y → x ≤ 65535 → y ≤ 65535 → x = y.
Proof.
  intros (?&?&E&?) ??.
  destruct (decide (x = 65535)) as [->|], (decide (y = 65535)) as [->|]; [done|..].
  - rewrite Z_mod_same_full, (Z.mod_small y) in E by lia. lia.
  - rewrite Z_mod_same_full, (Z.mod_small x) in E by lia. lia.
  - by rewrite !Z.mod_small in E by lia.
Qed.

Lemma REDUCE_ok s : 0 ≤ s < 2 ^ 31 → eq1c (REDUCE s) s ∧ 0 ≤ REDUCE s ≤ 65535.
Proof.
  intros Hs.
  assert (∀ x, Z.land x 0xffff = x mod 65536) as Hland by (intros x; exact (Z.land_ones x 16 ltac:(lia))).
  unfold REDUCE, ADDCARRY. rewrite !Hland, Z.shiftr_div_pow2 by lia. change (2 ^ 16) with 65536.
  assert (s / 65536 < 32768) by (apply Z.div_lt_upper_bound; lia).
  assert (0 ≤ s / 65536) by (apply Z.div_pos; lia).
  rewrite (Z.mod_small (s / 65536)) by lia.
  pose proof (Z.mod_pos_bound s 65536 ltac:(lia)). pose proof (Z.div_mod s 65536 ltac:(lia)) as Ed.
  assert (eq1c (s mod 65536 + s / 65536) s) as He.
  { rewrite Ed at 3. rewrite (Z.add_comm (65536 * _)). apply eq1c_add; [apply eq1c_refl; lia|].
    symmetry. apply eq1c_wrap. lia. }
  destruct (Z.ltb_spec 65535 (s mod 65536 + s / 65536)); [|split; [done|lia]].
  split; [|lia]. transitivity (s mod 65536 + s / 65536); [|done].
  split_and!; [lia|lia| |lia]. rewrite <- (Z_mod_plus_full (_ - _) 1). f_equal. lia.
Qed.

Lemma add1c_ok x y : 0 ≤ x ≤ 65535 → 0 ≤ y ≤ 65535 → eq1c (Ref.add1c x y) (x + y) ∧ 0 ≤ Ref.add1c x y ≤ 65535.
Proof.
  intros. unfold Ref.add1c. destruct (Z.ltb_spec (x + y) 65536); (split; [|lia]).
  - apply eq1c_refl. lia.
  - split_and!; [lia|lia| |lia]. rewrite <- (Z_mod_plus_full (_ + 1) 1). f_equal. lia.
Qed.

(** ** Weighted sums of bytes *)

(** The bytes at even places count once and those at odd places 256 times, or
    the other way round. *)
Fixpoint wt (odd : bool) (l : list Z) : Z :=
  match l with [] => 0 | b :: l => (if odd then 256 * b else b) + wt (negb odd) l end.

Definition oddb (l : list Z) : bool := Nat.odd (length l).

Lemma oddb_cons b l : oddb (b :: l) = negb (oddb l).
Proof. unfold oddb. cbn [length]. by rewrite Nat.odd_succ, <- Nat.negb_odd. Qed.

Lemma wt_nonneg o l : byte_list l → 0 ≤ wt o l.
Proof.
  intros Hl. revert o. induction Hl as [|b l Hb _ IH]; intros o; cbn [wt]; [lia|].
  specialize (IH (negb o)). destruct o; lia.
Qed.

Lemma wt_app o p q : wt o (p ++ q) = wt o p + wt (xorb o (oddb p)) q.
Proof.
  revert o. induction p as [|b p IH]; intros o; cbn [app wt].
  - by destruct o.
  - rewrite IH, oddb_cons. destruct o, (oddb p); cbn; lia.
Qed.

(** Multiplying by 256 exchanges the two places. *)
Lemma wt_swap o l : byte_list l → eq1c (256 * wt o l) (wt (negb o) l).
Proof.
  intros Hl. revert o. induction Hl as [|b l Hb Hl IH]; intros o; cbn [wt]; [by apply eq1c_refl|].
  rewrite Z.mul_add_distr_l. apply eq1c_add.
  - destruct o; cbn [negb]; [|apply eq1c_refl; lia].
    replace (256 * (256 * b)) with (65536 * b) by lia. apply eq1c_wrap. lia.
  - apply IH.
Qed.

Lemma wt_bound l : byte_list l → wt false l ≤ 32768 * Z.of_nat (length l) + (if oddb l then 255 - 32768 else 0).
Proof.
  assert (∀ o, byte_list l → wt o l ≤ 32768 * Z.of_nat (length l) +
    (if oddb l then if o then 65280 - 32768 else 255 - 32768 else 0)) as H; [|apply (H false)].
  induction l as [|b l IH]; intros o Hl; [done|]. apply Forall_cons in Hl as [Hb Hl].
  cbn [wt]. rewrite oddb_cons. cbn [length]. specialize (IH (negb o) Hl). rewrite Nat2Z.inj_succ.
  destruct o, (oddb l); cbn [negb] in *; lia.
Qed.

Lemma words_wt l : byte_list l → zsum (Ref.words l) = wt false l ∧ Forall (λ x, 0 ≤ x ≤ 65535) (Ref.words l).
Proof.
  assert (∀ n l, (length l ≤ n)%nat → byte_list l →
    zsum (Ref.words l) = wt false l ∧ Forall (λ x, 0 ≤ x ≤ 65535) (Ref.words l)) as H; [|by apply (H (length l))].
  clear l. induction n as [|n IH]; intros [|b0 [|b1 l]] Hn Hl; cbn [length] in Hn; try lia; cbn [Ref.words zsum wt negb].
  - split; [done|constructor].
  - split; [done|constructor].
  - apply Forall_cons in Hl as [Hb _]. split; [lia|apply Forall_singleton; lia].
  - apply Forall_cons in Hl as [Hb0 Hl]. apply Forall_cons in Hl as [Hb1 Hl].
    destruct (IH l) as [E HF]; [lia|done|]. rewrite E. split; [lia|]. apply Forall_cons. split; [lia|done].
Qed.

(** The reference in terms of weighted sums. *)
Lemma cksum_ref_ok l : byte_list l → ∃ r, Ref.cksum l = 65535 - r ∧ eq1c r (wt false l) ∧ 0 ≤ r ≤ 65535.
Proof.
  intros Hl. destruct (words_wt l Hl) as [<- HF]. unfold Ref.cksum.
  assert (∀ a, 0 ≤ a ≤ 65535 → eq1c (foldl Ref.add1c a (Ref.words l)) (a + zsum (Ref.words l)) ∧
                               0 ≤ foldl Ref.add1c a (Ref.words l) ≤ 65535) as H.
  { induction HF as [|x xs Hx HF IH]; intros a Ha; cbn [foldl zsum].
    - rewrite Z.add_0_r. split; [apply eq1c_refl; lia|done].
    - destruct (add1c_ok a x Ha Hx) as [E R]. destruct (IH (Ref.add1c a x) R) as [E' R']. split; [|done].
      transitivity (Ref.add1c a x + zsum xs); [done|]. rewrite Z.add_assoc. apply eq1c_add; [done|].
      apply eq1c_refl. apply zsum_nonneg. eapply Forall_impl; [exact HF|]. simpl. lia. }
  destruct (H 0) as [E R]; [lia|]. eexists. split; [done|]. split; [exact E|exact R].
Qed.

(** ** The loops *)

Lemma s32_small x : 0 ≤ x < 2 ^ 31 → s32 x = x.
Proof. intros. apply swrap_small; lia. Qed.

Lemma sum_words_ok n w l sum :
  w mod 2 = 0 → (2 * n ≤ length l)%nat → byte_list l → 0 ≤ sum → sum + 65536 * Z.of_nat n < 2 ^ 31 →
  sum_words n w l sum = Ok (w + 2 * Z.of_nat n, drop (2 * n) l, sum + wt false (take (2 * n) l)).
Proof.
  revert w l sum. induction n as [|n IH]; intros w l sum Hw Hl Hb Hs Hbd.
  { cbn [sum_words]. rewrite Z.mul_0_r, !Z.add_0_r. done. }
  destruct l as [|b0 [|b1 l]]; [simpl in Hl; lia|simpl in Hl; lia|].
  apply Forall_cons in Hb as [Hb0 Hb]. apply Forall_cons in Hb as [Hb1 Hb]. cbn [length] in Hl.
  cbn [sum_words]. unfold ld_half. rewrite Hw. cbn [Z.eqb negb mbind res_bind].
  rewrite s32_small by lia. change (drop 2 (b0 :: b1 :: l)) with l. rewrite IH; [| |lia|done|lia|lia].
  - replace (2 * S n)%nat with (S (S (2 * n))) by lia.
    change (drop (S (S (2 * n))) (b0 :: b1 :: l)) with (drop (2 * n) l).
    change (take (S (S (2 * n))) (b0 :: b1 :: l)) with (b0 :: b1 :: take (2 * n) l).
    cbn [wt negb]. rewrite Nat2Z.inj_succ. repeat (f_equal; try lia).
  - rewrite Z.add_mod, Hw by lia. done.
Qed.

Lemma sum_loop_ok n fuel mlen w l sum :
  (0 < n)%nat → 0 ≤ mlen ≤ Z.of_nat (length l) → mlen < 2 * Z.of_nat n * Z.of_nat fuel →
  w mod 2 = 0 → byte_list l → 0 ≤ sum → sum + 32768 * mlen < 2 ^ 31 →
  ∃ k, (2 * Z.of_nat k ≤ mlen) ∧ mlen - 2 * Z.of_nat k < 2 * Z.of_nat n ∧
    sum_loop fuel n mlen w l sum =
      Ok (mlen - 2 * Z.of_nat k - 2 * Z.of_nat n, w + 2 * Z.of_nat k, drop (2 * k) l,
          sum + wt false (take (2 * k) l)).
Proof.
  intros Hn. revert mlen w l sum. induction fuel as [|fuel IH]; intros mlen w l sum Hm Hf Hw Hb Hs Hbd; [lia|].
  cbn [sum_loop]. destruct (Z.ltb_spec (mlen - 2 * Z.of_nat n) 0) as [Hlt|Hge].
  - exists 0%nat. split; [lia|]. split; [lia|]. cbn [Z.of_nat Nat.mul drop take wt]. rewrite !Z.mul_0_r, !Z.add_0_r, Z.sub_0_r. done.
  - rewrite sum_words_ok by (done || lia). cbn [mbind res_bind].
    pose proof (wt_bound (take (2 * n) l) (byte_list_take _ _ Hb)) as Hwb.
    pose proof (wt_nonneg false (take (2 * n) l) (byte_list_take _ _ Hb)) as Hwn.
    assert (length (take (2 * n) l) = 2 * n)%nat as Hlen by (rewrite length_take; lia).
    assert (oddb (take (2 * n) l) = false) as Hodd by (unfold oddb; rewrite Hlen, Nat.odd_mul; done).
    rewrite Hlen, Hodd in Hwb.
    destruct (IH (mlen - 2 * Z.of_nat n) (w + 2 * Z.of_nat n) (drop (2 * n) l) (sum + wt false (take (2 * n) l)))
      as (k & Hk1 & Hk2 & E).
    + rewrite length_drop. lia.
    + lia.
    + rewrite (Z.mul_comm 2), Z_mod_plus_full. done.
    + by apply Forall_drop.
    + lia.
    + lia.
    + exists (n + k)%nat. split; [lia|]. split; [lia|]. rewrite E. rewrite drop_drop.
      replace (2 * (n + k))%nat with (2 * n + 2 * k)%nat by lia.
      rewrite <- (take_take_drop l (2 * n) (2 * k)), wt_app, Hodd. cbn [xorb]. repeat (f_equal; try lia).
Qed.

(** The two unrolled loops leave fewer than eight bytes. *)
Lemma sum_unrolled_ok mlen w l sum :
  0 ≤ mlen ≤ Z.of_nat (length l) → w mod 2 = 0 → byte_list l → 0 ≤ sum → sum + 32768 * mlen < 2 ^ 31 →
  ∃ k, 2 * Z.of_nat k ≤ mlen ∧
    sum_unrolled mlen w l sum =
      Ok (mlen - 2 * Z.of_nat k, w + 2 * Z.of_nat k, drop (2 * k) l, sum + wt false (take (2 * k) l)).
Proof.
  intros Hm Hw Hb Hs Hbd. unfold sum_unrolled.
  destruct (sum_loop_ok 16 (S (length l)) mlen w l sum) as (k1 & H1 & H1' & ->); try done; try lia.
  cbn [mbind res_bind].
  set (l1 := drop (2 * k1) l). set (s1 := sum + wt false (take (2 * k1) l)).
  assert (length (take (2 * k1) l) = 2 * k1)%nat as Hlen by (rewrite length_take; lia).
  assert (oddb (take (2 * k1) l) = false) as Hodd by (unfold oddb; rewrite Hlen, Nat.odd_mul; done).
  pose proof (wt_bound _ (byte_list_take (2 * k1) _ Hb)) as Hwb. rewrite Hlen, Hodd in Hwb.
  pose proof (wt_nonneg false _ (byte_list_take (2 * k1) _ Hb)) as Hwn.
  replace (mlen - 2 * Z.of_nat k1 - 2 * Z.of_nat 16 + 32) with (mlen - 2 * Z.of_nat k1) by lia.
  destruct (sum_loop_ok 4 (S (length l)) (mlen - 2 * Z.of_nat k1) (w + 2 * Z.of_nat k1) l1 s1)
    as (k2 & H2 & H2' & ->); try (unfold s1; lia).
  - unfold l1. rewrite length_drop. lia.
  - rewrite (Z.mul_comm 2), Z_mod_plus_full. done.
  - by apply Forall_drop.
  - cbn [mbind res_bind]. exists (k1 + k2)%nat. split; [lia|]. unfold l1, s1. rewrite drop_drop.
    replace (2 * (k1 + k2))%nat with (2 * k1 + 2 * k2)%nat by lia.
    rewrite <- (take_take_drop l (2 * k1) (2 * k2)), wt_app, Hodd. cbn [xorb]. repeat (f_equal; try lia).
Qed.

Lemma ld_char_drop n l b : l !! n = Some b → ld_char (drop n l) = Ok b.
Proof. intros H. by rewrite (drop_S _ _ _ H). Qed.

(** Reducing and shifting by a byte. *)
Lemma shl_REDUCE s : 0 ≤ s < 2 ^ 31 → eq1c (s32 (Z.shiftl (REDUCE s) 8)) (256 * s) ∧ 0 ≤ s32 (Z.shiftl (REDUCE s) 8) ≤ 256 * 65535.
Proof.
  intros Hs. destruct (REDUCE_ok s Hs) as [E R]. rewrite Z.shiftl_mul_pow2, Z.mul_comm by lia.
  change (2 ^ 8) with 256. rewrite s32_small by lia. split; [|lia]. by apply eq1c_scale; [lia|].
Qed.

(** The unrolled loops followed by the loop over single words. *)
Lemma sum_all_ok mlen w l sum :
  0 ≤ mlen ≤ Z.of_nat (length l) → mlen ≤ 65000 → w mod 2 = 0 → byte_list l → 0 ≤ sum → sum + 32768 * mlen < 2 ^ 31 →
  ∃ k1 k w', 2 * Z.of_nat k1 ≤ mlen ∧ 0 ≤ mlen - 2 * Z.of_nat k ≤ 1 ∧
    let sum1 := sum + wt false (take (2 * k1) l) in
    sum_unrolled mlen w l sum = Ok (mlen - 2 * Z.of_nat k1, w + 2 * Z.of_nat k1, drop (2 * k1) l, sum1) ∧
    ∃ sum2,
    sum_loop (S (length (drop (2 * k1) l))) 1 (mlen - 2 * Z.of_nat k1) (w + 2 * Z.of_nat k1) (drop (2 * k1) l) (REDUCE sum1) =
      Ok (mlen - 2 * Z.of_nat k - 2, w', drop (2 * k) l, sum2) ∧
    eq1c sum2 (sum + wt false (take (2 * k) l)) ∧ sum2 ≤ 65535 + 65536 * Z.of_nat k.
Proof.
  intros Hm Hmax Hw Hb Hs Hbd. destruct (sum_unrolled_ok mlen w l sum) as (k1 & Hk1 & ->); try done.
  set (sum1 := sum + wt false (take (2 * k1) l)).
  assert (length (take (2 * k1) l) = 2 * k1)%nat as Hlen by (rewrite length_take; lia).
  assert (oddb (take (2 * k1) l) = false) as Hodd by (unfold oddb; rewrite Hlen, Nat.odd_mul; done).
  pose proof (wt_bound _ (byte_list_take (2 * k1) _ Hb)) as Hwb. rewrite Hlen, Hodd in Hwb.
  pose proof (wt_nonneg false _ (byte_list_take (2 * k1) _ Hb)) as Hwn.
  assert (0 ≤ sum1 < 2 ^ 31) as Hs1 by (unfold sum1; lia).
  destruct (REDUCE_ok sum1 Hs1) as [Er Rr].
  set (l1 := drop (2 * k1) l). assert (byte_list l1) as Hb1 by (by apply Forall_drop).
  assert (Z.of_nat (length l1) = Z.of_nat (length l) - 2 * Z.of_nat k1) as Hl1 by (unfold l1; rewrite length_drop; lia).
  destruct (sum_loop_ok 1 (S (length l1)) (mlen - 2 * Z.of_nat k1) (w + 2 * Z.of_nat k1) l1 (REDUCE sum1))
    as (k2 & H2 & H2' & E); try lia; try done.
  { rewrite (Z.mul_comm 2), Z_mod_plus_full. done. }
  exists k1, (k1 + k2)%nat, (w + 2 * Z.of_nat k1 + 2 * Z.of_nat k2). split; [lia|]. split; [lia|]. split; [done|].
  assert (eq1c sum1 (sum + wt false (take (2 * k1) l))) as Es by (apply eq1c_refl; lia).
  assert (length (take (2 * k2) l1) = 2 * k2)%nat as Hlen2 by (rewrite length_take; lia).
  assert (oddb (take (2 * k2) l1) = false) as Hodd2 by (unfold oddb; rewrite Hlen2, Nat.odd_mul; done).
  pose proof (wt_bound _ (byte_list_take (2 * k2) _ Hb1)) as Hwb2. rewrite Hlen2, Hodd2 in Hwb2.
  pose proof (wt_nonneg false _ (byte_list_take (2 * k2) _ Hb1)) as Hwn2.
  exists (REDUCE sum1 + wt false (take (2 * k2) l1)). split; [|split; [|lia]].
  - fold l1. etransitivity; [exact E|]. unfold l1. rewrite drop_drop. replace (2 * (k1 + k2))%nat with (2 * k1 + 2 * k2)%nat by lia.
    repeat (f_equal; try lia).
  - replace (2 * (k1 + k2))%nat with (2 * k1 + 2 * k2)%nat by lia.
    rewrite <- (take_take_drop l (2 * k1) (2 * k2)), wt_app, Hodd, Z.add_assoc. cbn [xorb].
    apply eq1c_add; [exact Er|apply eq1c_refl; exact Hwn2].
Qed.

(** ** The loop over the chain *)

(** The byte that waits for its partner. *)
Definition pending (st : cksum_st) : Z := if cs_mlen st =? -1 then cs_c0 st else 0.

(** [p] has been added up: the sum is right up to the pending byte, and there
    is one exactly when the length of [p] is odd. *)
Record summed (p : list Z) (st : cksum_st) : Prop := {
  su_odd : oddb p = (cs_mlen st =? -1);
  su_pending : 0 ≤ pending st < 256;
  su_sum : eq1c (cs_sum st + pending st) (wt false p);
  su_bound : 0 ≤ cs_sum st;
  su_bound' : cs_sum st + pending st ≤ 256 * 65535 + 32768 * Z.of_nat (length p) + (if oddb p then 255 - 32768 else 0);
}.

Lemma oddb_app p q : oddb (p ++ q) = xorb (oddb p) (oddb q).
Proof.
  induction p as [|b p IH]; [change ([] ++ q) with q; by destruct (oddb q)|].
  change ((b :: p) ++ q) with (b :: (p ++ q)). rewrite !oddb_cons, IH. by destruct (oddb p), (oddb q).
Qed.

Lemma oddb_take_even k l : (2 * k ≤ length l)%nat → oddb (take (2 * k) l) = false.
Proof. intros. unfold oddb. rewrite length_take, Nat.min_l, Nat.odd_mul by lia. done. Qed.

Lemma cksum_byte_lookup l i b : byte_list l → l !! i = Some b → 0 ≤ b < 256.
Proof. intros Hl Hi. exact (Forall_lookup_1 _ _ _ _ Hl Hi). Qed.

(** The state at the end of a pass without a pending byte, and with one. *)
Lemma summed_even p st : cs_mlen st ≠ -1 → oddb p = false → eq1c (cs_sum st) (wt false p) →
  cs_sum st ≤ 256 * 65535 + 32768 * Z.of_nat (length p) → summed p st.
Proof.
  intros Hm Ho He Hb. destruct (He) as (? & _). apply Z.eqb_neq in Hm.
  split; unfold pending; rewrite ?Hm, ?Ho; cbv iota; rewrite ?Z.add_0_r; done || lia.
Qed.

Lemma summed_odd p b st : cs_mlen st = -1 → oddb p = true → cs_c0 st = b → 0 ≤ b < 256 → 0 ≤ cs_sum st →
  eq1c (cs_sum st + b) (wt false p) → cs_sum st ≤ 256 * 65535 + 32768 * (Z.of_nat (length p) - 1) → summed p st.
Proof.
  intros Hm Ho Hc Hb0 Hs He Hb. apply Z.eqb_eq in Hm.
  split; unfold pending; rewrite ?Hm, ?Hc, ?Ho; cbv iota; done || lia.
Qed.

Lemma land_1 w : Z.land 1 w = w mod 2.
Proof. rewrite Z.land_comm. exact (Z.land_ones w 1 ltac:(lia)). Qed.

(** The part of the body after the first byte of a split word, from an even
    number of bytes, at an even address. *)
Lemma cksum_rest_aligned p mlen w l len sum c0 c1 :
  w mod 2 = 0 → oddb p = false → eq1c sum (wt false p) → sum ≤ 256 * 65535 + 32768 * Z.of_nat (length p) →
  byte_list l → 0 ≤ mlen ≤ Z.of_nat (length l) → Z.of_nat (length p) + mlen ≤ 65000 →
  ∃ st, cksum_rest mlen w l len sum c0 c1 = Ok st ∧ cs_len st = len ∧ summed (p ++ take (Z.to_nat mlen) l) st.
Proof.
  intros Hw Hodd Hsum Hbd Hb Hm Hmax. destruct (Hsum) as (Hs0 & _).
  destruct (sum_all_ok mlen w l sum) as (k1 & k & w' & Hk1 & Hk & Eu & sum2 & El & E2 & B2); try done; try lia.
  unfold cksum_rest. rewrite land_1, Hw.
  change (negb (0 =? 0) && (0 <? mlen)) with false. cbv iota. rewrite Ok_bind. cbv beta iota.
  rewrite Eu, Ok_bind. cbv beta iota.
  destruct (Z.eqb_spec (mlen - 2 * Z.of_nat k1) 0) as [E0|E0]; cbn [andb negb].
  { eexists. split; [done|]. split; [done|].
    replace (Z.to_nat mlen) with (2 * k1)%nat by lia.
    pose proof (wt_bound _ (byte_list_take (2 * k1) _ Hb)) as Hwb.
    pose proof (wt_nonneg false _ (byte_list_take (2 * k1) _ Hb)).
    rewrite oddb_take_even, length_take in Hwb by lia.
    apply summed_even; cbn [cs_mlen cs_sum]; [lia| |..].
    - by rewrite oddb_app, Hodd, oddb_take_even by lia.
    - rewrite wt_app, Hodd. apply eq1c_add; [done|by apply eq1c_refl].
    - rewrite length_app, length_take. lia. }
  rewrite El, Ok_bind. cbv beta iota.
  destruct (Z.eqb_spec (mlen - 2 * Z.of_nat k - 2) (-1)) as [E1|E1].
  - assert (2 * k < length l)%nat as Hlt by lia. apply lookup_lt_is_Some in Hlt as [b Hlb].
    rewrite (ld_char_drop _ _ _ Hlb), Ok_bind. eexists. split; [done|]. split; [done|].
    pose proof (cksum_byte_lookup _ _ _ Hb Hlb).
    replace (Z.to_nat mlen) with (S (2 * k)) by lia. rewrite (take_S_r _ _ _ Hlb).
    assert (2 * k ≤ length l)%nat by (apply lookup_lt_Some in Hlb; lia).
    destruct (E2) as (? & _).
    apply summed_odd with b; cbn [cs_mlen cs_sum cs_c0]; [lia| |done|done|lia|..].
    + by rewrite !oddb_app, Hodd, oddb_take_even by lia.
    + rewrite app_assoc, (wt_app _ (_ ++ _)), wt_app, oddb_app, Hodd, oddb_take_even by lia. cbn [xorb wt].
      apply eq1c_add; [|rewrite Z.add_0_r; apply eq1c_refl; lia].
      etransitivity; [exact E2|]. apply eq1c_add; [done|]. apply eq1c_refl, wt_nonneg, byte_list_take, Hb.
    + rewrite !length_app, length_take. cbn [length]. lia.
  - eexists. split; [done|]. split; [done|].
    replace (Z.to_nat mlen) with (2 * k)%nat by lia.
    apply summed_even; cbn [cs_mlen cs_sum]; [done| |..].
    + by rewrite oddb_app, Hodd, oddb_take_even by lia.
    + rewrite wt_app, Hodd. etransitivity; [exact E2|]. apply eq1c_add; [done|].
      apply eq1c_refl, wt_nonneg, byte_list_take, Hb.
    + rewrite length_app, length_take. lia.
Qed.

(** The same at an odd address: the words are added with their bytes
    exchanged. *)
Lemma cksum_rest_swapped p mlen w l len sum c0 c1 :
  w mod 2 = 1 → 0 < mlen → oddb p = false → eq1c sum (wt false p) → sum ≤ 256 * 65535 + 32768 * Z.of_nat (length p) →
  byte_list l → mlen ≤ Z.of_nat (length l) → Z.of_nat (length p) + mlen ≤ 65000 →
  ∃ st, cksum_rest mlen w l len sum c0 c1 = Ok st ∧ cs_len st = len ∧ summed (p ++ take (Z.to_nat mlen) l) st.
Proof.
  intros Hw Hm0 Hodd Hsum Hbd Hb Hm Hmax. destruct (Hsum) as (Hs0 & _).
  destruct l as [|b l]; [simpl in Hm; lia|]. cbn [length] in Hm. apply Forall_cons in Hb as [Hb0 Hb].
  destruct (shl_REDUCE sum) as [Es Rs]; [lia|].
  set (sum0 := s32 (Z.shiftl (REDUCE sum) 8)) in *.
  destruct (sum_all_ok (mlen - 1) (w + 1) l sum0) as (k1 & k & w' & Hk1 & Hk & Eu & sum2 & El & E2 & B2);
    try done; try lia.
  { rewrite Z.add_mod, Hw by lia. done. }
  unfold cksum_rest. rewrite land_1, Hw.
  apply Z.ltb_lt in Hm0 as Hm0'. rewrite Hm0'.
  change (negb (1 =? 0) && true) with true. cbv iota.
  change (ld_char (b :: l)) with (Ok b : res Z). rewrite Ok_bind, Ok_bind. cbv beta iota.
  fold sum0. change (drop 1 (b :: l)) with l. rewrite Eu, Ok_bind. cbv beta iota.
  rewrite andb_false_r. rewrite El, Ok_bind. cbv beta iota.
  destruct (E2) as (Hs2 & _). destruct (shl_REDUCE sum2) as [E3 R3]; [lia|].
  set (sum3 := s32 (Z.shiftl (REDUCE sum2) 8)) in *.
  assert (byte_list (take (2 * k) l)) as Hbt by (by apply byte_list_take).
  assert (eq1c sum3 (wt false p + wt true (take (2 * k) l))) as E4.
  { etransitivity; [exact E3|]. etransitivity; [apply eq1c_scale; [lia|exact E2]|].
    rewrite Z.mul_add_distr_l. apply eq1c_add; [|apply (wt_swap false), Hbt].
    etransitivity; [apply eq1c_scale; [lia|exact Es]|]. rewrite Z.mul_assoc. change (256 * 256) with 65536.
    etransitivity; [by apply eq1c_wrap|done]. }
  destruct (Z.eqb_spec (mlen - 1 - 2 * Z.of_nat k - 2) (-1)) as [E1|E1].
  - assert (2 * k < length l)%nat as Hlt by lia. apply lookup_lt_is_Some in Hlt as [b1 Hlb].
    rewrite (ld_char_drop _ _ _ Hlb), Ok_bind. eexists. split; [done|]. split; [done|].
    pose proof (cksum_byte_lookup _ _ _ Hb Hlb).
    replace (Z.to_nat mlen) with (S (S (2 * k))) by lia.
    change (take (S (S (2 * k))) (b :: l)) with (b :: take (S (2 * k)) l). rewrite (take_S_r _ _ _ Hlb).
    assert (2 * k ≤ length l)%nat by (apply lookup_lt_Some in Hlb; lia).
    apply summed_even; cbn [cs_mlen cs_sum]; [done| |..].
    + rewrite oddb_app, oddb_cons, oddb_app, Hodd, oddb_take_even by lia. done.
    + rewrite s32_small by lia. rewrite wt_app, Hodd. cbn [xorb wt negb].
      rewrite wt_app, oddb_take_even by lia. cbn [xorb wt negb].
      replace (wt false p + (b + (wt true (take (2 * k) l) + (256 * b1 + 0)))) with
        (wt false p + wt true (take (2 * k) l) + (b + 256 * b1)) by lia.
      apply eq1c_add; [exact E4|apply eq1c_refl; lia].
    + rewrite s32_small, length_app by lia. cbn [length]. rewrite length_app, length_take. cbn [length]. lia.
  - eexists. split; [done|]. split; [done|].
    replace (Z.to_nat mlen) with (S (2 * k)) by lia.
    change (take (S (2 * k)) (b :: l)) with (b :: take (2 * k) l).
    apply summed_odd with b; cbn [cs_mlen cs_sum cs_c0]; [done| |done|done|lia|..].
    + rewrite oddb_app, oddb_cons, Hodd, oddb_take_even by lia. done.
    + rewrite wt_app, Hodd. cbn [xorb wt negb].
      replace (wt false p + (b + wt true (take (2 * k) l))) with (wt false p + wt true (take (2 * k) l) + b) by lia.
      apply eq1c_add; [exact E4|apply eq1c_refl; lia].
    + rewrite length_app. cbn [length]. lia.
Qed.

Lemma cksum_rest_ok p mlen w l len sum c0 c1 :
  oddb p = false → eq1c sum (wt false p) → sum ≤ 256 * 65535 + 32768 * Z.of_nat (length p) →
  byte_list l → 0 ≤ mlen ≤ Z.of_nat (length l) → Z.of_nat (length p) + mlen ≤ 65000 →
  ∃ st, cksum_rest mlen w l len sum c0 c1 = Ok st ∧ cs_len st = len ∧ summed (p ++ take (Z.to_nat mlen) l) st.
Proof.
  intros Hodd Hsum Hbd Hb Hm Hmax. pose proof (Z.mod_pos_bound w 2 ltac:(lia)).
  destruct (decide (w mod 2 = 0)) as [Hw|Hw]; [by apply cksum_rest_aligned|].
  destruct (decide (0 < mlen)); [apply cksum_rest_swapped; done || lia|].
  replace mlen with 0 by lia. unfold cksum_rest. rewrite andb_false_r, Ok_bind. cbv beta iota.
  eexists. split; [done|]. split; [done|]. rewrite app_nil_r. by apply summed_even.
Qed.

Lemma cksum_chunk_ok p m st :
  summed p st → byte_list (ck_data m) → 0 < cs_len st → Z.of_nat (length p) + cs_len st ≤ 65000 →
  ∃ st', cksum_chunk m st = Ok st' ∧
    let q := take (Z.to_nat (cs_len st)) (ck_data m) in
    summed (p ++ q) st' ∧ cs_len st' = cs_len st - Z.of_nat (length q).
Proof.
  intros [Ho Hp Hs Hs0 Hsb] Hb Hl Hmax. unfold cksum_chunk.
  destruct (ck_data m) as [|b l]; [change (Z.of_nat (length []) =? 0) with true|].
  { cbv iota. exists st. split; [done|]. rewrite take_nil, app_nil_r. split; [by split|]. simpl. lia. }
  set (dl := b :: l) in *. assert (length dl = S (length l)) as Hdl by done.
  destruct (Z.eqb_spec (Z.of_nat (length dl)) 0) as [?|_]; [lia|].
  unfold pending in *. destruct (Z.eqb_spec (cs_mlen st) (-1)) as [E|E]; rewrite Ho in Hsb.
  - apply Forall_cons in Hb as [Hb0 Hb]. change (ld_char dl) with (Ok b : res Z). rewrite !Ok_bind. cbv beta iota.
    change (drop 1 dl) with l.
    set (mlen := if cs_len st - 1 <? Z.of_nat (length dl) - 1 then cs_len st - 1 else Z.of_nat (length dl) - 1).
    assert (mlen = Z.min (cs_len st - 1) (Z.of_nat (length l))) as Hmlen.
    { unfold mlen. destruct (Z.ltb_spec (cs_len st - 1) (Z.of_nat (length dl) - 1)); lia. }
    destruct (cksum_rest_ok (p ++ [b]) mlen (ck_addr m + 1) l (cs_len st - 1 - mlen)
                (s32 (cs_sum st + (cs_c0 st + 256 * b))) (cs_c0 st) b) as (st' & E1 & E2 & E3).
    + rewrite oddb_app, Ho. done.
    + rewrite s32_small by lia. rewrite wt_app, Ho, Z.add_assoc. cbn [xorb wt].
      rewrite Z.add_0_r. apply eq1c_add; [done|apply eq1c_refl; lia].
    + rewrite s32_small, length_app by lia. cbn [length]. lia.
    + done.
    + lia.
    + rewrite length_app. cbn [length]. lia.
    + exists st'. split; [exact E1|]. unfold dl.
      replace (Z.to_nat (cs_len st)) with (S (Z.to_nat (cs_len st - 1))) by lia.
      change (take (S (Z.to_nat (cs_len st - 1))) (b :: l)) with (b :: take (Z.to_nat (cs_len st - 1)) l).
      assert (take (Z.to_nat (cs_len st - 1)) l = take (Z.to_nat mlen) l) as ->.
      { destruct (decide (cs_len st - 1 ≤ Z.of_nat (length l))); [f_equal; lia|]. rewrite !take_ge by lia. done. }
      rewrite <- app_assoc in E3. split; [exact E3|]. rewrite E2. cbn [length]. rewrite length_take. lia.
  - rewrite !Ok_bind. cbv beta iota. rewrite Z.add_0_r in *.
    set (mlen := if cs_len st <? Z.of_nat (length dl) then cs_len st else Z.of_nat (length dl)).
    assert (mlen = Z.min (cs_len st) (Z.of_nat (length dl))) as Hmlen.
    { unfold mlen. destruct (Z.ltb_spec (cs_len st) (Z.of_nat (length dl))); lia. }
    destruct (cksum_rest_ok p mlen (ck_addr m) dl (cs_len st - mlen) (cs_sum st) (cs_c0 st) (cs_c1 st))
      as (st' & E1 & E2 & E3); [done|done|lia|done|lia|lia|].
    exists st'. split; [exact E1|].
    assert (take (Z.to_nat (cs_len st)) dl = take (Z.to_nat mlen) dl) as ->.
    { destruct (decide (cs_len st ≤ Z.of_nat (length dl))); [f_equal; lia|]. rewrite !take_ge by lia. done. }
    split; [exact E3|]. rewrite E2, length_take. lia.
Qed.

(** The bytes of a chain of buffers. *)
Definition chain_data (ms : list chunk) : list Z := ms ≫= ck_data.

Lemma cksum_chain_ok ms p st :
  summed p st → Forall (λ m, byte_list (ck_data m)) ms → 0 ≤ cs_len st → Z.of_nat (length p) + cs_len st ≤ 65000 →
  ∃ st', cksum_chain ms st = Ok st' ∧ summed (p ++ take (Z.to_nat (cs_len st)) (chain_data ms)) st'.
Proof.
  intros Hsu Hb. revert p st Hsu. induction Hb as [|m ms Hm Hms IH]; intros p st Hsu Hl Hmax; cbn [cksum_chain].
  { exists st. split; [done|]. change (chain_data []) with (@nil Z). by rewrite take_nil, app_nil_r. }
  destruct (Z.eqb_spec (cs_len st) 0) as [E|E].
  { exists st. split; [done|]. rewrite E. change (Z.to_nat 0) with 0%nat. by rewrite take_0, app_nil_r. }
  destruct (cksum_chunk_ok p m st) as (st' & -> & Hq & Hlen); [done|done|lia|done|]. rewrite Ok_bind.
  rewrite length_take in Hlen.
  destruct (IH _ st' Hq) as (st'' & -> & Hr); [lia|rewrite length_app, length_take; lia|].
  exists st''. split; [done|]. rewrite <- app_assoc in Hr.
  change (chain_data (m :: ms)) with (ck_data m ++ chain_data ms). rewrite take_app.
  replace (Z.to_nat (cs_len st) - length (ck_data m))%nat with (Z.to_nat (cs_len st')) by lia. exact Hr.
Qed.

(** The complement of a 16-bit number. *)
Lemma lnot16 r : 0 ≤ r ≤ 65535 → Z.land (Z.lnot r) 0xffff = 65535 - r.
Proof.
  intros Hr. transitivity (Z.lnot r mod 65536); [exact (Z.land_ones (Z.lnot r) 16 ltac:(lia))|].
  unfold Z.lnot. replace (Z.pred (- r)) with (65535 - r + (-1) * 65536) by lia.
  rewrite Z_mod_plus_full, Z.mod_small; lia.
Qed.

Lemma in_cksum_ok ms len :
  Forall (λ m, byte_list (ck_data m)) ms → 0 ≤ len ≤ 65000 →
  in_cksum ms len = Ok (Ref.cksum (take (Z.to_nat len) (chain_data ms))).
Proof.
  intros Hb Hl. unfold in_cksum.
  set (st0 := {| cs_sum := 0; cs_mlen := 0; cs_len := len; cs_c0 := 0; cs_c1 := 0 |}).
  destruct (cksum_chain_ok ms [] st0) as (st & -> & [Ho Hp Hs Hs0 Hsb]);
    [by apply summed_even|done|simpl; lia|simpl; lia|].
  rewrite Ok_bind. change (cs_len st0) with len in *.
  set (d := take (Z.to_nat len) (chain_data ms)) in *. change ([] ++ d) with d in *.
  assert (byte_list d) as Hd.
  { apply byte_list_take. clear -Hb. induction Hb as [|m ms Hm _ IH]; [constructor|].
    apply Forall_app_2; [exact Hm|exact IH]. }
  assert (Z.of_nat (length d) ≤ 65000) as Hdl by (unfold d; rewrite length_take; lia).
  destruct (cksum_ref_ok d Hd) as (r & -> & Er & Rr).
  assert (cs_sum st + pending st < 2 ^ 31) by (destruct (oddb d); lia).
  replace (if cs_mlen st =? -1 then _ else _) with (cs_sum st + pending st).
  2: { unfold pending in *. destruct (cs_mlen st =? -1); [rewrite s32_small by lia|]; lia. }
  destruct (REDUCE_ok (cs_sum st + pending st)) as [E R]; [lia|]. rewrite lnot16 by lia.
  do 2 f_equal. apply eq1c_small; [|lia|lia]. rewrite E, Hs. by symmetry.
Qed.

(** C36: [in_cksum] returns the checksum of RFC 1071 of the first [len] bytes
    of the chain, whatever the addresses and the lengths of its buffers, when
    [len] is at most 65000; no access is misaligned or out of bounds. *)
Theorem in_cksum_correct ms len :
  Forall (λ m, byte_list (ck_data m)) ms → 0 ≤ len ≤ 65000 →
  in_cksum ms len = Ok (Ref.cksum (take (Z.to_nat len) (chain_data ms))).
Proof. apply in_cksum_ok. Qed.

(** Filling in the checksum makes the checksum of the whole zero. *)
Lemma cksum_fill p q c :
  byte_list p → byte_list q → Nat.Even (length p) → Ref.cksum (p ++ [0; 0] ++ q) = c →
  Ref.cksum (p ++ [c mod 256; c / 256] ++ q) = 0 ∧ 0 ≤ c ≤ 65535.
Proof.
  intros Hp Hq Hev E.
  assert (byte_list (p ++ [0; 0] ++ q)) as H0 by (repeat apply Forall_app_2; [done|by repeat constructor|done]).
  destruct (cksum_ref_ok _ H0) as (r & Ec & Er & Rr). rewrite Ec in E.
  assert (byte_list (p ++ [c mod 256; c / 256] ++ q)) as H1.
  { repeat apply Forall_app_2; [done| |done]. pose proof (Z.mod_pos_bound c 256). repeat constructor; [lia|lia| |].
    - apply Z.div_pos; lia.
    - apply Z.div_lt_upper_bound; lia. }
  split; [|lia]. destruct (cksum_ref_ok _ H1) as (r' & Ec' & Er' & Rr').
  rewrite Ec'. enough (r' = 65535) by lia.
  apply eq1c_small; [|lia|lia]. rewrite Er'.
  assert (oddb p = false) as Hodd by (unfold oddb; by rewrite <- Nat.negb_even, (proj2 (Nat.even_spec _) Hev)).
  assert (wt false (p ++ [c mod 256; c / 256] ++ q) = wt false (p ++ [0; 0] ++ q) + c) as ->.
  { rewrite !wt_app, Hodd. cbn [xorb wt negb oddb length Nat.odd Nat.even]. pose proof (Z.div_mod c 256 ltac:(lia)). lia. }
  transitivity (r + c); [apply eq1c_add; [by symmetry|apply eq1c_refl; lia]|].
  replace (r + c) with 65535 by lia. by apply eq1c_refl.
Qed.

(** A message whose checksum field, at an even offset, holds the checksum
    that the sender computed with the field zero, is accepted by the receiver:
    its checksum is 0, however the two hosts cut it into buffers. *)
Theorem cksum_roundtrip ms ms' p q len c :
  Forall (λ m, byte_list (ck_data m)) ms → Forall (λ m, byte_list (ck_data m)) ms' →
  0 ≤ len ≤ 65000 → Nat.Even (length p) → Z.of_nat (length p + 2 + length q) = len →
  chain_data ms = p ++ [0; 0] ++ q →
  in_cksum ms len = Ok c →
  chain_data ms' = p ++ [c mod 256; c / 256] ++ q →
  in_cksum ms' len = Ok 0.
Proof.
  intros Hm Hm' Hl Hev Hlen Hd E Hd'. rewrite in_cksum_ok in * by done.
  assert (byte_list (chain_data ms)) as Hb.
  { clear -Hm. induction Hm as [|m ms Hm _ IH]; [constructor|]. apply Forall_app_2; [exact Hm|exact IH]. }
  rewrite !take_ge in * by (rewrite ?Hd, ?Hd', !length_app; simpl; lia).
  injection E as E. f_equal. rewrite Hd'. rewrite Hd in E, Hb.
  apply Forall_app in Hb as [Hp Hb]. apply Forall_app in Hb as [_ Hq]. by apply cksum_fill.
Qed.

(** A packet cut at odd places, at an even and an odd address. *)
Module CksumDemo.

Definition packet (f0 f1 : Z) : list Z := [0x45; 0x00; f0; f1; 0x12; 0x34; 0xfe].
Definition sent : list chunk :=
  [{| ck_addr := 3; ck_data := [0x45; 0x00; 0x00] |}; {| ck_addr := 8; ck_data := [0x00; 0x12] |};
   {| ck_addr := 101; ck_data := [0x34; 0xfe] |}].
Definition received : list chunk := [{| ck_addr := 7; ck_data := packet 0xaa 0xca |}].

Lemma in_cksum_correct_witness :
  in_cksum sent 7 = Ok (Ref.cksum (packet 0 0)) ∧ in_cksum sent 7 = Ok 0xcaaa.
Proof.
  split; [|by vm_compute]. exact (in_cksum_correct sent 7 ltac:(repeat constructor; done) ltac:(lia)).
Defined.

Lemma cksum_roundtrip_witness : in_cksum received 7 = Ok 0.
Proof.
  apply (cksum_roundtrip sent received [0x45; 0x00] [0x12; 0x34; 0xfe] 7 0xcaaa).
  - repeat constructor; done.
  - repeat constructor; done.
  - lia.
  - by exists 1%nat.
  - done.
  - done.
  - by vm_compute.
  - done.
Defined.

End CksumDemo.
