(* ===== verification/Qdivrem.v ===== *)
(** * Division of quads (lib/libc/quad/qdivrem.c, udivdi3.c, umoddi3.c)

    64-bit division on machines whose long has 32 bits: Knuth's Algorithm D with
    16-bit digits (ULONG_MAX = 0xffffffff, so a digit is an unsigned short).  The
    local arrays have five digits; a pointer into one is an offset.  What they
    hold before they are written is an argument of the model. *)

From S2P Require Import Prelude.
Local Open Scope Z_scope.

(** ** Arrays of digits *)

Definition ld (a : list Z) (i : Z) : res Z :=
  if i <? 0 then Err Fault else match a !! Z.to_nat i with Some x => Ok x | None => Err Fault end.

Definition st (i x : Z) (a : list Z) : res (list Z) :=
  if (0 <=? i) && (i <? Z.of_nat (length a)) then Ok (<[Z.to_nat i := x]> a) else Err Fault.

(** ** The macros *)

Definition HALF_BITS : Z := 16.
Definition B : Z := Z.shiftl 1 HALF_BITS.
Definition HHALF (x : Z) : Z := Z.shiftr x HALF_BITS.
Definition LHALF (x : Z) : Z := Z.land x (Z.shiftl 1 HALF_BITS - 1).
Definition COMBINE (a b : Z) : Z := Z.lor (u32 (Z.shiftl a HALF_BITS)) b.

(** union uu: the high and the low long of a quad, and back. *)
Definition ul_H (q : Z) : Z := u32 (Z.shiftr q 32).
Definition ul_L (q : Z) : Z := u32 q.
Definition quad (h l : Z) : Z := h * 2 ^ 32 + l.

(** ** The steps of Program D *)

(** [for (i = 0; i < len; i++) ...; p[i] = ...], from [i], [len] turns left. *)
Fixpoint shl_loop (len : nat) (i sh : Z) (p : Z) (a : list Z) : res (list Z) :=
  match len with
  | O => x ← ld a (p + i); st (p + i) (LHALF (Z.shiftl x sh)) a
  | S len =>
    x ← ld a (p + i);
    y ← ld a (p + (i + 1));
    a ← st (p + i) (Z.lor (LHALF (Z.shiftl x sh)) (Z.shiftr y (HALF_BITS - sh))) a;
    shl_loop len (i + 1) sh p a
  end.

Definition shl (p len sh : Z) (a : list Z) : res (list Z) := shl_loop (Z.to_nat len) 0 sh p a.

(** [for (n = 4; v[1] == 0; v++) if (--n == 1) ...]: [n] and the offset of [v]. *)
Fixpoint skip_v (fuel : nat) (n v : Z) (a : list Z) : res (Z * Z) :=
  match fuel with
  | O => Err NoFuel
  | S fuel =>
    x ← ld a (v + 1);
    if negb (x =? 0) then Ok (n, v) else
    let n := n - 1 in
    if n =? 1 then Ok (n, v) else skip_v fuel n (v + 1) a
  end.

(** [for (m = 4 - n; u[1] == 0; u++) m--] *)
Fixpoint skip_u (fuel : nat) (m u : Z) (a : list Z) : res (Z * Z) :=
  match fuel with
  | O => Err NoFuel
  | S fuel =>
    x ← ld a (u + 1);
    if negb (x =? 0) then Ok (m, u) else skip_u fuel (m - 1) (u + 1) a
  end.

(** [for (i = 4 - m; --i >= 0;) q[i] = 0] *)
Fixpoint clear_q (i : nat) (a : list Z) : res (list Z) :=
  match i with O => Ok a | S i => a ← st (Z.of_nat i) 0 a; clear_q i a end.

(** D1 *)
Fixpoint d1_loop (fuel : nat) (t d : Z) : res Z :=
  match fuel with
  | O => Err NoFuel
  | S fuel => if t <? B / 2 then d1_loop fuel (u32 (Z.shiftl t 1)) (d + 1) else Ok d
  end.

(** D3: the loop, entered at qhat_too_big when [big]. *)
Fixpoint d3_loop (fuel : nat) (big : bool) (v1 v2 uj2 qhat rhat : Z) : res Z :=
  match fuel with
  | O => Err NoFuel
  | S fuel =>
    if big || (COMBINE rhat uj2 <? u32 (v2 * qhat)) then
      let qhat := u32 (qhat - 1) in
      let rhat := u32 (rhat + v1) in
      if B <=? rhat then Ok qhat else d3_loop fuel false v1 v2 uj2 qhat rhat
    else Ok qhat
  end.

(** At most two turns: [rhat] grows by at least [B/2]. *)
Definition d3_fuel : nat := 3.

Definition d3 (uj0 uj1 uj2 v1 v2 : Z) : res Z :=
  if uj0 =? v1 then d3_loop d3_fuel true v1 v2 uj2 B uj1
  else let n := COMBINE uj0 uj1 in d3_loop d3_fuel false v1 v2 uj2 (n / v1) (n mod v1).

(** D4: [for (t = 0, i = n; i > 0; i--)] *)
Fixpoint d4_loop (i : nat) (u j v qhat t : Z) (us vs : list Z) : res (Z * list Z) :=
  match i with
  | O => Ok (t, us)
  | S i' =>
    x ← ld us (u + (Z.of_nat i + j));
    y ← ld vs (v + Z.of_nat i);
    let t := u32 (x - u32 (y * qhat) - t) in
    us ← st (u + (Z.of_nat i + j)) (LHALF t) us;
    d4_loop i' u j v qhat (Z.land (u32 (B - HHALF t)) (B - 1)) us vs
  end.

(** D6: [for (t = 0, i = n; i > 0; i--)] *)
Fixpoint d6_loop (i : nat) (u j v t : Z) (us vs : list Z) : res (Z * list Z) :=
  match i with
  | O => Ok (t, us)
  | S i' =>
    x ← ld us (u + (Z.of_nat i + j));
    y ← ld vs (v + Z.of_nat i);
    let t := u32 (t + (x + y)) in
    us ← st (u + (Z.of_nat i + j)) (LHALF t) us;
    d6_loop i' u j v (HHALF t) us vs
  end.

(** The body of the loop on [j]: the digit of the quotient and the new [u]. *)
Definition d_step (n u v j v1 v2 : Z) (us vs : list Z) : res (Z * list Z) :=
  uj0 ← ld us (u + (j + 0));
  uj1 ← ld us (u + (j + 1));
  uj2 ← ld us (u + (j + 2));
  qhat ← d3 uj0 uj1 uj2 v1 v2;
  '(t, us) ← d4_loop (Z.to_nat n) u j v qhat 0 us vs;
  x ← ld us (u + j);
  let t := u32 (x - t) in
  us ← st (u + j) (LHALF t) us;
  if negb (HHALF t =? 0) then
    let qhat := u32 (qhat - 1) in
    '(t, us) ← d6_loop (Z.to_nat n) u j v 0 us vs;
    x ← ld us (u + j);
    us ← st (u + j) (LHALF (u32 (x + t))) us;
    Ok (qhat, us)
  else Ok (qhat, us).

(** [do ... while (++j <= m)]; [turns] is [m - j + 1]. *)
Fixpoint d_loop (turns : nat) (n u v q j v1 v2 : Z) (us vs qs : list Z) : res (list Z * list Z) :=
  match turns with
  | O => Ok (us, qs)
  | S turns =>
    '(qhat, us) ← d_step n u v j v1 v2 us vs;
    qs ← st (q + j) (u16 qhat) qs;
    d_loop turns n u v q (j + 1) v1 v2 us vs qs
  end.

(** [for (i = m + n; i > m; --i) ...; u[i] = 0] *)
Fixpoint shr_loop (cnt : nat) (i d u : Z) (us : list Z) : res (list Z) :=
  match cnt with
  | O => st (u + i) 0 us
  | S cnt =>
    x ← ld us (u + i);
    y ← ld us (u + (i - 1));
    us ← st (u + i) (Z.lor (Z.shiftr x d) (LHALF (Z.shiftl y (HALF_BITS - d)))) us;
    shr_loop cnt (i - 1) d u us
  end.

(** The four digits from [a[1]] as a quad. *)
Definition quad_of (a : list Z) : res Z :=
  a1 ← ld a 1; a2 ← ld a 2; a3 ← ld a 3; a4 ← ld a 4;
  Ok (quad (COMBINE a1 a2) (COMBINE a3 a4)).

(** [u[0]] to [u[4]], and [v[1]] to [v[4]]. *)
Definition digits_of (first q : Z) : list Z :=
  [first; HHALF (ul_H q); LHALF (ul_H q); HHALF (ul_L q); LHALF (ul_L q)].

(** Division by one digit; [v] is the offset of the pointer. *)
Definition short_division (v : Z) (us vs : list Z) : res (Z * Z) :=
  t ← ld vs (v + 2);
  u1 ← ld us 1; u2 ← ld us 2; u3 ← ld us 3; u4 ← ld us 4;
  if t =? 0 then Err Fault else
  let q1 := u16 (u1 / t) in
  let rbj := COMBINE (u1 mod t) u2 in
  let q2 := u16 (rbj / t) in
  let rbj := COMBINE (rbj mod t) u3 in
  let q3 := u16 (rbj / t) in
  let rbj := COMBINE (rbj mod t) u4 in
  let q4 := u16 (rbj / t) in
  Ok (quad (COMBINE q1 q2) (COMBINE q3 q4), rbj mod t).

(** The quotient and, when [arq] is not NULL, the remainder.  [v0] and [q0] are
    what the uninitialised [vspace[0]] and [qspace] hold. *)
Definition __qdivrem (v0 : Z) (q0 : list Z) (uq vq : Z) (arq : bool) : res (Z * option Z) :=
  let rem r := if arq then Some r else None in
  if vq =? 0 then Err Fault (* 1 / zero *) else
  if uq <? vq then Ok (0, rem uq) else
  let us := digits_of 0 uq in
  let vs := digits_of v0 vq in
  '(n, v) ← skip_v 4 4 0 vs;
  if n =? 1 then
    '(q, r) ← short_division v us vs; Ok (q, rem r)
  else
  '(m, u) ← skip_u 5 (4 - n) 0 us;
  qs ← clear_q (Z.to_nat (4 - m)) q0;
  let q := 4 - m in
  t ← ld vs (v + 1);
  d ← d1_loop 16 t 0;
  us ← (if 0 <? d then shl u (m + n) d us else Ok us);
  vs ← (if 0 <? d then shl (v + 1) (n - 1) d vs else Ok vs);
  v1 ← ld vs (v + 1);
  v2 ← ld vs (v + 2);
  '(us, qs) ← d_loop (Z.to_nat (Z.max 1 (m + 1))) n u v q 0 v1 v2 us vs qs;
  r ← (if arq then
         us ← (if negb (d =? 0) then shr_loop (Z.to_nat n) (m + n) d u us else Ok us);
         r ← quad_of us; Ok (Some r)
       else Ok None);
  q ← quad_of qs;
  Ok (q, r).

(** udivdi3.c, umoddi3.c *)
Definition __udivdi3 (v0 : Z) (q0 : list Z) (a b : Z) : res Z :=
  '(q, _) ← __qdivrem v0 q0 a b false; Ok q.

Definition __umoddi3 (v0 : Z) (q0 : list Z) (a b : Z) : res Z :=
  '(_, r) ← __qdivrem v0 q0 a b true;
  match r with Some r => Ok r | None => Err Fault end.

(** The digit needs the correction D6. *)
Example qdivrem_add_back :
  __qdivrem 7 [1; 2; 3; 4; 5] 0x7fffffff00027fff 0xfffffffe7fff true =
    Ok (0x7fffffff00027fff / 0xfffffffe7fff, Some (0x7fffffff00027fff mod 0xfffffffe7fff)).
Proof. by vm_compute. Qed.
