(* ===== verification/QdivremTheorems.v ===== *)
(** * Division of quads: Algorithm D divides

    Numbers are sequences of digits in the arrays; [nval a p k] is the number
    with the [k] digits after position [p], most significant first. *)

From S2P Require Import Prelude Qdivrem.
Local Open Scope Z_scope.

(** ** Digits *)

Abbreviation Bz := 65536.

Definition digit (x : Z) : Prop := 0 ≤ x < Bz.
Definition all_digits (a : list Z) : Prop := Forall digit a.

Lemma LHALF_mod x : LHALF x = x mod Bz.
Proof. exact (Z.land_ones x 16 ltac:(lia)). Qed.
Lemma HHALF_div x : HHALF x = x / Bz.
Proof. unfold HHALF, HALF_BITS. by rewrite Z.shiftr_div_pow2. Qed.
Lemma LHALF_digit x : digit (LHALF x).
Proof. rewrite LHALF_mod. apply Z.mod_pos_bound. lia. Qed.
Lemma COMBINE_val a b : digit a → digit b → COMBINE a b = a * Bz + b.
Proof.
  unfold digit, COMBINE, HALF_BITS. intros Ha Hb. rewrite Z.shiftl_mul_pow2 by lia. rewrite wrap_small by lia.
  rewrite Z.lor_comm, lor_add by lia. lia.
Qed.

Lemma ld_total a i : (i < length a)%nat → ld a (Z.of_nat i) = Ok (a !!! i).
Proof.
  intros Hi. unfold ld. destruct (Z.ltb_spec (Z.of_nat i) 0); [lia|]. rewrite Nat2Z.id.
  by rewrite (list_lookup_lookup_total_lt a i Hi).
Qed.
Lemma st_total a i x : (i < length a)%nat → st (Z.of_nat i) x a = Ok (<[i := x]> a).
Proof.
  intros Hi. unfold st. destruct (Z.leb_spec 0 (Z.of_nat i)); [|lia]. destruct (Z.ltb_spec (Z.of_nat i) (Z.of_nat (length a))); [|lia].
  by rewrite Nat2Z.id.
Qed.

Lemma digit_at a i : all_digits a → (i < length a)%nat → digit (a !!! i).
Proof. intros Ha Hi. apply (Forall_lookup_1 _ _ i _ Ha). by apply list_lookup_lookup_total_lt. Qed.

Lemma all_digits_insert a i x : all_digits a → digit x → all_digits (<[i := x]> a).
Proof. intros Ha Hx. by apply Forall_insert. Qed.

(** ** Numbers *)

Fixpoint nval (a : list Z) (p k : nat) : Z :=
  match k with O => 0 | S k => nval a p k * Bz + a !!! (p + S k)%nat end.

Lemma nval_bound a p k : all_digits a → (p + k < length a)%nat → 0 ≤ nval a p k < Bz ^ Z.of_nat k.
Proof.
  intros Ha. induction k as [|k IH]; intros Hk; cbn [nval]; [done|].
  pose proof (digit_at a (p + S k) Ha Hk) as Hd. unfold digit in Hd. specialize (IH ltac:(lia)).
  rewrite Nat2Z.inj_succ, Z.pow_succ_r by lia. nia.
Qed.

Lemma nval_front a p k : nval a p (S k) = a !!! (p + 1)%nat * Bz ^ Z.of_nat k + nval a (p + 1) k.
Proof.
  induction k as [|k IH]; [cbn [nval]; rewrite Z.mul_1_r; lia|].
  change (nval a p (S (S k))) with (nval a p (S k) * Bz + a !!! (p + S (S k))%nat). rewrite IH. cbn [nval].
  rewrite Nat2Z.inj_succ, Z.pow_succ_r by lia. replace (p + 1 + S k)%nat with (p + S (S k))%nat by lia. lia.
Qed.

Lemma nval_ext a b p k : (∀ i, (p < i ≤ p + k)%nat → a !!! i = b !!! i) → nval a p k = nval b p k.
Proof.
  intros H. induction k as [|k IH]; cbn [nval]; [done|]. rewrite IH, H; [done|lia|]. intros i Hi. apply H. lia.
Qed.

Lemma nval_insert a p k i x : (i ≤ p ∨ p + k < i)%nat → nval (<[i := x]> a) p k = nval a p k.
Proof. intros Hi. apply nval_ext. intros j Hj. apply list_lookup_total_insert_ne. lia. Qed.

Lemma nval_insert_last a p k x : (p + S k < length a)%nat → nval (<[(p + S k)%nat := x]> a) p (S k) = nval a p k * Bz + x.
Proof. intros Hk. cbn [nval]. rewrite list_lookup_total_insert_eq, nval_insert by lia. done. Qed.

(** [a] and [b] agree outside of the positions [lo] to [hi]. *)
Definition agree (lo hi : nat) (a b : list Z) : Prop :=
  length a = length b ∧ ∀ i, (i < lo ∨ hi < i)%nat → a !!! i = b !!! i.

Lemma agree_refl lo hi a : agree lo hi a a.
Proof. done. Qed.
Lemma agree_trans lo hi a b c : agree lo hi a b → agree lo hi b c → agree lo hi a c.
Proof. intros [L1 H1] [L2 H2]. split; [congruence|]. intros i Hi. rewrite H1, H2; done. Qed.
Lemma agree_insert lo hi a i x : (lo ≤ i ≤ hi)%nat → agree lo hi a (<[i := x]> a).
Proof. intros Hi. split; [by rewrite length_insert|]. intros j Hj. rewrite list_lookup_total_insert_ne; [done|lia]. Qed.
Lemma agree_weaken lo hi lo' hi' a b : agree lo hi a b → (lo' ≤ lo)%nat → (hi ≤ hi')%nat → agree lo' hi' a b.
Proof. intros [L H] ??. split; [done|]. intros i Hi. apply H. lia. Qed.

(** ** D3: the estimate is the quotient of three digits by two *)

Lemma d3_loop_ok fuel big v1 v2 uj2 qhat rhat N :
  Bz / 2 ≤ v1 < Bz → digit v2 → digit uj2 → 0 ≤ qhat ≤ Bz → 0 ≤ rhat < Bz → (big = true → qhat = Bz) →
  qhat * v1 + rhat = N → Bz ≤ rhat + v1 * (Z.of_nat fuel - 1) →
  ∃ r, d3_loop fuel big v1 v2 uj2 qhat rhat = Ok r ∧ 0 ≤ r ≤ (if big then qhat - 1 else qhat) ∧
    r * (v1 * Bz + v2) ≤ N * Bz + uj2 ∧
    (r < (if big then qhat - 1 else qhat) → N * Bz + uj2 < (r + 1) * (v1 * Bz + v2)).
Proof.
  intros Hv1 Hv2 Hu2. unfold digit in *. change (Bz / 2) with 32768 in Hv1.
  revert big qhat rhat. induction fuel as [|fuel IH]; intros big qhat rhat Hq Hr Hbig HN Hf; [lia|].
  cbn [d3_loop]. rewrite COMBINE_val by done. rewrite (wrap_small 32 (v2 * qhat)) by nia.
  destruct (big || (rhat * Bz + uj2 <? v2 * qhat)) eqn:Ec.
  - assert (0 < qhat) as Hq0.
    { destruct big; [rewrite Hbig by done; lia|]. cbn in Ec. apply Z.ltb_lt in Ec. nia. }
    assert (big = false → rhat * Bz + uj2 < v2 * qhat) as Hc by (intros ->; cbn in Ec; by apply Z.ltb_lt).
    rewrite !wrap_small by lia. destruct (Z.leb_spec B (rhat + v1)) as [Hle|Hlt]; change B with Bz in *.
    + eexists. split; [done|]. split; [destruct big; lia|]. split; [nia|].
      destruct big; [lia|]. intros _. specialize (Hc eq_refl). nia.
    + destruct (IH false (qhat - 1) (rhat + v1)) as (r & -> & Hr1 & Hr2 & Hr3); [lia|lia|done|lia|lia|].
      exists r. split; [done|]. split; [destruct big; lia|]. split; [done|]. destruct big; [done|]. intros Hlt'.
      destruct (decide (r < qhat - 1)) as [Hlt2|]; [by apply Hr3|]. specialize (Hc eq_refl). replace r with (qhat - 1) by lia. nia.
  - destruct big; [done|]. cbn in Ec. apply Z.ltb_ge in Ec. eexists. split; [done|]. split; [lia|]. split; [nia|lia].
Qed.

Lemma d3_ok uj0 uj1 uj2 v1 v2 :
  Bz / 2 ≤ v1 < Bz → digit v2 → digit uj0 → digit uj1 → digit uj2 → uj0 * Bz + uj1 ≤ v1 * Bz + v2 →
  d3 uj0 uj1 uj2 v1 v2 = Ok (Z.min (Bz - 1) ((uj0 * Bz * Bz + uj1 * Bz + uj2) / (v1 * Bz + v2))).
Proof.
  intros Hv1 Hv2 Hu0 Hu1 Hu2 Hle. change (Bz / 2) with 32768 in Hv1. unfold digit in *. unfold d3.
  assert (∀ r q0, 0 ≤ r ≤ q0 → r * (v1 * Bz + v2) ≤ (uj0 * Bz + uj1) * Bz + uj2 →
    (r < q0 → (uj0 * Bz + uj1) * Bz + uj2 < (r + 1) * (v1 * Bz + v2)) →
    (q0 = Bz - 1 ∨ (q0 ≤ Bz - 1 ∧ (uj0 * Bz + uj1) * Bz + uj2 < (q0 + 1) * (v1 * Bz + v2))) →
    r = Z.min (Bz - 1) ((uj0 * Bz * Bz + uj1 * Bz + uj2) / (v1 * Bz + v2))) as Hfin.
  { intros r q0 Hr Hr1 Hr2 Hq0. set (x := uj0 * Bz * Bz + uj1 * Bz + uj2). set (y := v1 * Bz + v2) in *.
    assert ((uj0 * Bz + uj1) * Bz + uj2 = x) as Ex by (unfold x; lia). rewrite Ex in *.
    assert (r ≤ x / y) by (apply Z.div_le_lower_bound; lia).
    destruct (decide (r = Bz - 1)) as [->|]; [lia|].
    assert (x / y < r + 1); [|lia]. apply Z.div_lt_upper_bound; [lia|].
    destruct (decide (r < q0)); [specialize (Hr2 l); lia|]. assert (r = q0) as -> by lia. destruct Hq0 as [?|[_ ?]]; lia. }
  destruct (Z.eqb_spec uj0 v1) as [->|Hne].
  - destruct (d3_loop_ok d3_fuel true v1 v2 uj2 B uj1 (v1 * Bz + uj1)) as (r & -> & Hr1 & Hr2 & Hr3);
      change B with Bz; unfold digit; try lia; [done|change (Z.of_nat d3_fuel - 1) with 2; lia|].
    f_equal. apply (Hfin r (Bz - 1)); [change B with Bz in Hr1; lia|done|done|by left].
  - rewrite COMBINE_val by done. set (N := uj0 * Bz + uj1) in *.
    assert (uj0 < v1) by nia. pose proof (Z.div_mod N v1 ltac:(lia)). pose proof (Z.mod_pos_bound N v1 ltac:(lia)).
    assert (0 ≤ N / v1 < Bz) by (split; [apply Z.div_pos; lia|apply Z.div_lt_upper_bound; nia]).
    destruct (d3_loop_ok d3_fuel false v1 v2 uj2 (N / v1) (N mod v1) N) as (r & -> & Hr1 & Hr2 & Hr3);
      unfold digit; try lia; [done|change (Z.of_nat d3_fuel - 1) with 2; lia|].
    f_equal. apply (Hfin r (N / v1)); [lia|done|done|]. right. split; [lia|]. nia.
Qed.

(** The estimate is the digit of the quotient or one more (Knuth, Theorem B). *)
Lemma estimate U V x y M ulow vlow :
  0 < M → 0 ≤ ulow < M → 0 ≤ vlow < M → U = x * M + ulow → V = y * M + vlow →
  0 ≤ x → Bz * (Bz / 2) ≤ y → U < V * Bz →
  let qhat := Z.min (Bz - 1) (x / y) in U / V ≤ qhat ≤ U / V + 1.
Proof.
  change (Bz / 2) with 32768. intros HM Hul Hvl -> -> Hx Hy Hlt qhat. set (U := x * M + ulow) in *. set (V := y * M + vlow) in *.
  assert (0 < V) by (unfold V; nia). assert (0 ≤ U) by (unfold U; nia).
  pose proof (Z.div_mod x y ltac:(lia)). pose proof (Z.mod_pos_bound x y ltac:(lia)).
  assert (0 ≤ x / y) by (apply Z.div_pos; lia).
  split.
  - apply Z.min_glb; [apply Z.lt_succ_r; apply Z.div_lt_upper_bound; lia|].
    apply Z.div_le_lower_bound; [lia|]. pose proof (Z.mul_div_le U V ltac:(lia)).
    assert (U / V * y * M < (x + 1) * M); [|nia]. unfold U, V in *. nia.
  - enough (qhat - 1 ≤ U / V) by lia. apply Z.div_le_lower_bound; [lia|].
    assert (qhat * y ≤ x) by (unfold qhat; nia). assert (qhat ≤ Bz - 1) by (unfold qhat; lia). assert (0 ≤ qhat) by (unfold qhat; lia).
    assert (V * (qhat - 1) = qhat * y * M + qhat * vlow - V) as -> by (unfold V; lia).
    assert (qhat * vlow ≤ (Bz - 1) * M) by nia. assert ((Bz - 1) * M ≤ V) by (unfold V; nia). unfold U. nia.
Qed.

(** ** D4: multiply and subtract *)

(** One digit of the subtraction: the borrow is in [t]. *)
Lemma sub_digit x y qhat t :
  digit x → digit y → digit qhat → digit t →
  let w := u32 (x - u32 (y * qhat) - t) in
  let t' := Z.land (u32 (B - HHALF w)) (B - 1) in
  digit t' ∧ x - y * qhat - t = LHALF w - Bz * t'.
Proof.
  intros Hx Hy Hq Ht w t'. unfold digit in Hx, Hy, Hq, Ht |- *. rewrite LHALF_mod. unfold t'. rewrite HHALF_div.
  assert (∀ z, Z.land z (B - 1) = z mod Bz) as Hland by (intros z; exact (Z.land_ones z 16 ltac:(lia))).
  rewrite Hland. change B with Bz. unfold w. rewrite (wrap_small 32 (y * qhat)) by nia.
  set (k := x - y * qhat - t). assert (- (Bz - 1) * Bz ≤ k < Bz) as Hk by (unfold k; nia).
  unfold wrap. change (2 ^ 32) with (Bz * Bz).
  split; [apply Z.mod_pos_bound; lia|].
  destruct (decide (k < 0)) as [Hneg|Hpos].
  - assert (k mod (Bz * Bz) = k + Bz * Bz) as ->.
    { rewrite <- (Z_mod_plus_full k 1). apply Z.mod_small. lia. }
    assert ((k + Bz * Bz) / Bz = k / Bz + Bz) as -> by (by rewrite Z.div_add by lia).
    assert ((k + Bz * Bz) mod Bz = k mod Bz) as -> by (by rewrite Z_mod_plus_full).
    pose proof (Z.div_mod k Bz ltac:(lia)). assert (- (Bz - 1) ≤ k / Bz) by (apply Z.div_le_lower_bound; lia).
    assert (k / Bz < 0) by (apply Z.div_lt_upper_bound; lia).
    rewrite (Z.mod_small (Bz - (k / Bz + Bz)) (Bz * Bz)), (Z.mod_small (Bz - (k / Bz + Bz)) Bz) by lia. lia.
  - rewrite (Z.mod_small k) by lia. rewrite (Z.div_small k), Z.sub_0_r by lia.
    by rewrite (Z.mod_small k) by lia.
Qed.

Lemma d4_loop_ok (k : nat) u j v qhat t us vs :
  all_digits us → all_digits vs → (u + j + k < length us)%nat → (v + k < length vs)%nat → digit qhat → digit t →
  ∃ t' us', d4_loop k (Z.of_nat u) (Z.of_nat j) (Z.of_nat v) qhat t us vs = Ok (t', us') ∧
    digit t' ∧ all_digits us' ∧ agree (u + j + 1) (u + j + k) us us' ∧
    nval us (u + j) k - qhat * nval vs v k - t = nval us' (u + j) k - Bz ^ Z.of_nat k * t'.
Proof.
  intros Hus Hvs Hlu Hlv Hq. revert t us Hus Hlu. induction k as [|k IH]; intros t us Hus Hlu Ht.
  { exists t, us. cbn [nval d4_loop]. change (Bz ^ Z.of_nat 0) with 1. split_and!; done || lia. }
  cbn [d4_loop].
  replace (Z.of_nat u + (Z.of_nat (S k) + Z.of_nat j)) with (Z.of_nat (u + j + S k)) by lia.
  replace (Z.of_nat v + Z.of_nat (S k)) with (Z.of_nat (v + S k)) by lia.
  rewrite !ld_total by lia. rewrite !Ok_bind. cbv zeta.
  set (x := us !!! (u + j + S k)%nat). set (y := vs !!! (v + S k)%nat).
  destruct (sub_digit x y qhat t) as [Ht' Ed]; [apply digit_at; done || lia|apply digit_at; done || lia|done|done|].
  cbv zeta in Ht', Ed. set (w := u32 (x - u32 (y * qhat) - t)) in *. rewrite st_total by lia. rewrite Ok_bind.
  destruct (IH ltac:(lia) (Z.land (u32 (B - HHALF w)) (B - 1)) (<[(u + j + S k)%nat := LHALF w]> us)) as (t' & us' & -> & H1 & H2 & H3 & H4).
  - apply all_digits_insert; [done|apply LHALF_digit].
  - rewrite length_insert. lia.
  - done.
  - exists t', us'. split; [done|]. split; [done|]. split; [done|]. split.
    { eapply agree_trans; [by apply agree_insert with (i := (u + j + S k)%nat); lia|]. eapply agree_weaken; [exact H3|lia|lia]. }
    rewrite nval_insert in H4 by lia.
    assert (us' !!! (u + j + S k)%nat = LHALF w) as Ew.
    { destruct H3 as [_ H3]. rewrite <- H3 by lia. apply list_lookup_total_insert_eq. lia. }
    cbn [nval]. fold x y. rewrite Ew, Nat2Z.inj_succ, Z.pow_succ_r by lia.
    set (N1 := nval us (u + j) k) in *. set (N2 := nval vs v k) in *. set (N3 := nval us' (u + j) k) in *.
    set (P := Bz ^ Z.of_nat k) in *. set (t1 := Z.land _ _) in *. nia.
Qed.

(** ** D6: add back *)

Lemma d6_loop_ok (k : nat) u j v t us vs :
  all_digits us → all_digits vs → (u + j + k < length us)%nat → (v + k < length vs)%nat → 0 ≤ t ≤ 1 →
  ∃ t' us', d6_loop k (Z.of_nat u) (Z.of_nat j) (Z.of_nat v) t us vs = Ok (t', us') ∧
    0 ≤ t' ≤ 1 ∧ all_digits us' ∧ agree (u + j + 1) (u + j + k) us us' ∧
    nval us (u + j) k + nval vs v k + t = nval us' (u + j) k + Bz ^ Z.of_nat k * t'.
Proof.
  intros Hus Hvs Hlu Hlv. revert t us Hus Hlu. induction k as [|k IH]; intros t us Hus Hlu Ht.
  { exists t, us. cbn [nval d6_loop]. change (Bz ^ Z.of_nat 0) with 1. split_and!; done || lia. }
  cbn [d6_loop].
  replace (Z.of_nat u + (Z.of_nat (S k) + Z.of_nat j)) with (Z.of_nat (u + j + S k)) by lia.
  replace (Z.of_nat v + Z.of_nat (S k)) with (Z.of_nat (v + S k)) by lia.
  rewrite !ld_total by lia. rewrite !Ok_bind. cbv zeta.
  set (x := us !!! (u + j + S k)%nat). set (y := vs !!! (v + S k)%nat).
  assert (digit x) as Hx by (apply digit_at; done || lia). assert (digit y) as Hy by (apply digit_at; done || lia). unfold digit in Hx, Hy.
  rewrite (wrap_small 32) by lia. set (w := t + (x + y)). rewrite HHALF_div, st_total by lia. rewrite Ok_bind.
  pose proof (Z.div_mod w Bz ltac:(lia)) as Ed. pose proof (Z.mod_pos_bound w Bz ltac:(lia)).
  assert (0 ≤ w / Bz ≤ 1) as Hc by (unfold w in *; lia).
  destruct (IH ltac:(lia) (w / Bz) (<[(u + j + S k)%nat := LHALF w]> us)) as (t' & us' & -> & H1 & H2 & H3 & H4).
  - apply all_digits_insert; [done|apply LHALF_digit].
  - rewrite length_insert. lia.
  - done.
  - exists t', us'. split; [done|]. split; [done|]. split; [done|]. split.
    { eapply agree_trans; [by apply agree_insert with (i := (u + j + S k)%nat); lia|]. eapply agree_weaken; [exact H3|lia|lia]. }
    rewrite nval_insert in H4 by lia.
    assert (us' !!! (u + j + S k)%nat = w mod Bz) as Ew.
    { destruct H3 as [_ H3]. rewrite <- H3 by lia. rewrite list_lookup_total_insert_eq by lia. apply LHALF_mod. }
    cbn [nval]. fold x y. rewrite Ew, Nat2Z.inj_succ, Z.pow_succ_r by lia. unfold w in *. nia.
Qed.

(** ** The loop on [j] *)

(** The leading digit of a number of two. *)
Lemma lead_digit k P N z : 0 ≤ N < P → k * P + N = z → k = z / P.
Proof. intros HN <-. rewrite Z.div_add_l, Z.div_small by lia. lia. Qed.

Section Divisor.
Context (n v : nat) (vs : list Z).
Context (Hn : (2 ≤ n)%nat) (Hvs : all_digits vs) (Hlen : (v + n < length vs)%nat).
Context (Hnorm : Bz / 2 ≤ vs !!! (v + 1)%nat).

Abbreviation V := (nval vs v n).

(** A number of [n + 1] digits. *)
Definition wide (us : list Z) (p : nat) : Z := us !!! p * Bz ^ Z.of_nat n + nval us p n.

Lemma split_two a p : nval a p n = (a !!! (p + 1)%nat * Bz + a !!! (p + 2)%nat) * Bz ^ Z.of_nat (n - 2) + nval a (p + 2) (n - 2).
Proof.
  assert (n = S (S (n - 2))) as E by lia. rewrite E at 1. rewrite !nval_front.
  replace (p + 1 + 1)%nat with (p + 2)%nat by lia. rewrite Nat2Z.inj_succ, Z.pow_succ_r by lia. lia.
Qed.

Lemma V_bounds : 0 < V < Bz ^ Z.of_nat n.
Proof.
  pose proof (nval_bound vs v n Hvs Hlen) as Hb. split; [|lia].
  rewrite split_two. pose proof (nval_bound vs (v + 2) (n - 2) Hvs ltac:(lia)).
  assert (digit (vs !!! (v + 2)%nat)) as Hd by (apply digit_at; done || lia). unfold digit in Hd.
  change (Bz / 2) with 32768 in Hnorm. assert (0 < Bz ^ Z.of_nat (n - 2)) by (apply Z.pow_pos_nonneg; lia). nia.
Qed.

Lemma d_step_ok u j us :
  all_digits us → (u + j + n < length us)%nat → wide us (u + j) < V * Bz →
  ∃ us', d_step (Z.of_nat n) (Z.of_nat u) (Z.of_nat v) (Z.of_nat j) (vs !!! (v + 1)%nat) (vs !!! (v + 2)%nat) us vs =
    Ok (wide us (u + j) / V, us') ∧
    all_digits us' ∧ agree (u + j) (u + j + n) us us' ∧
    us' !!! (u + j)%nat = 0 ∧ nval us' (u + j) n = wide us (u + j) mod V.
Proof.
  intros Hus Hlu Hlt. destruct V_bounds as [HV0 HV].
  set (p := (u + j)%nat) in *. unfold d_step.
  replace (Z.of_nat u + (Z.of_nat j + 0)) with (Z.of_nat p) by lia.
  replace (Z.of_nat u + (Z.of_nat j + 1)) with (Z.of_nat (p + 1)) by lia.
  replace (Z.of_nat u + (Z.of_nat j + 2)) with (Z.of_nat (p + 2)) by lia.
  replace (Z.of_nat u + Z.of_nat j) with (Z.of_nat p) by lia.
  rewrite !ld_total by lia. rewrite !Ok_bind.
  set (u0 := us !!! p). set (u1 := us !!! (p + 1)%nat). set (u2 := us !!! (p + 2)%nat).
  set (v1 := vs !!! (v + 1)%nat) in *. set (v2 := vs !!! (v + 2)%nat).
  assert (digit u0 ∧ digit u1 ∧ digit u2) as (Hu0 & Hu1 & Hu2) by (split_and!; apply digit_at; done || lia).
  assert (digit v1 ∧ digit v2) as (Hv1 & Hv2) by (split; apply digit_at; done || lia).
  set (M := Bz ^ Z.of_nat (n - 2)). assert (0 < M) by (apply Z.pow_pos_nonneg; lia).
  assert (Bz ^ Z.of_nat n = Bz * Bz * M) as EP.
  { unfold M. replace n with (S (S (n - 2))) at 1 by lia. rewrite !Nat2Z.inj_succ, !Z.pow_succ_r by lia. lia. }
  set (ulow := nval us (p + 2) (n - 2)). set (vlow := nval vs (v + 2) (n - 2)).
  assert (0 ≤ ulow < M) by (apply nval_bound; done || lia). assert (0 ≤ vlow < M) by (apply nval_bound; done || lia).
  assert (wide us p = (u0 * Bz * Bz + u1 * Bz + u2) * M + ulow) as EW.
  { unfold wide. rewrite split_two, EP. fold u0 u1 u2 M ulow. lia. }
  assert (V = (v1 * Bz + v2) * M + vlow) as EV by (rewrite split_two; done).
  set (x := u0 * Bz * Bz + u1 * Bz + u2) in *. set (y := v1 * Bz + v2) in *. set (W := wide us p) in *.
  assert (u0 * Bz + u1 ≤ y) as Hle.
  { unfold digit in Hu2. assert (0 ≤ u2 * M) by nia.
    assert ((u0 * Bz + u1) * (Bz * M) < (y + 1) * (Bz * M)) as Hm.
    { rewrite EW, EV in Hlt. unfold x in Hlt. lia. }
    apply Z.mul_lt_mono_pos_r in Hm; lia. }
  rewrite d3_ok by (unfold digit in *; lia || done). rewrite Ok_bind. fold x y.
  set (qhat := Z.min (Bz - 1) (x / y)).
  assert (W / V ≤ qhat ≤ W / V + 1) as Hest.
  { apply (estimate W V x y M ulow vlow); try done; unfold digit in *; [unfold x; lia|unfold y; change (Bz / 2) with 32768 in *; lia]. }
  assert (0 ≤ W) by (rewrite EW; unfold digit in *; unfold x; nia).
  assert (0 ≤ W / V) by (apply Z.div_pos; lia).
  assert (digit qhat) as Hq by (unfold digit, qhat in *; lia).
  pose proof (Z.div_mod W V ltac:(lia)) as Edm. pose proof (Z.mod_pos_bound W V ltac:(lia)) as Hmod.
  rewrite Nat2Z.id.
  destruct (d4_loop_ok n u j v qhat 0 us vs) as (t4 & us4 & -> & Ht4 & Hus4 & Hag4 & E4); try done.
  rewrite Ok_bind. fold p in E4, Hag4. destruct (Hag4) as [Hl4 Ha4].
  rewrite (ld_total us4 p) by lia. rewrite Ok_bind. rewrite <- (Ha4 p) by lia. fold u0. rewrite st_total by lia. rewrite Ok_bind.
  pose proof (nval_bound us4 p n Hus4 ltac:(lia)) as HN. set (N := nval us4 p n) in *. set (P := Bz ^ Z.of_nat n) in *.
  assert (W - qhat * V = (u0 - t4) * P + N) as EWq by (unfold W, wide; fold u0 P; lia).
  unfold digit in Hu0, Ht4. set (t := u32 (u0 - t4)).
  destruct (decide (W - qhat * V < 0)) as [Hneg|Hpos].
  - (* qhat was one too large *)
    assert (qhat = W / V + 1) as ->.
    { destruct (decide (qhat = W / V)) as [Eq|]; [rewrite Eq in Hneg; lia|lia]. }
    assert ((u0 - t4) * P + N = W mod V - V) as EWr by lia.
    assert (u0 - t4 = -1) as Eb.
    { apply lead_digit in EWr; [|done]. rewrite EWr. symmetry. apply Z.div_unique with (W mod V - V + P); lia. }
    rewrite Eb in EWr.
    assert (t = 2 ^ 32 - 1) as Et by (unfold t; rewrite Eb; done). rewrite Et.
    change (HHALF (2 ^ 32 - 1)) with 65535. change (LHALF (2 ^ 32 - 1)) with 65535. change (negb (65535 =? 0)) with true. cbv iota.
    set (us5 := <[p := 65535]> us4).
    destruct (d6_loop_ok n u j v 0 us5 vs) as (t6 & us6 & -> & Ht6 & Hus6 & Hag6 & E6); try lia; try done.
    { by apply all_digits_insert. } { unfold us5. rewrite length_insert. lia. }
    rewrite Ok_bind. fold p in E6, Hag6. destruct (Hag6) as [Hl6 Ha6]. unfold us5 in Hl6. rewrite length_insert in Hl6.
    rewrite (ld_total us6 p) by lia. rewrite Ok_bind.
    assert (us6 !!! p = 65535) as E65 by (rewrite <- Ha6 by lia; unfold us5; apply list_lookup_total_insert_eq; lia).
    rewrite E65, st_total by lia. rewrite Ok_bind.
    unfold us5 in E6. rewrite nval_insert in E6 by lia. fold N P in E6.
    pose proof (nval_bound us6 p n Hus6 ltac:(lia)) as HN6. set (N6 := nval us6 p n) in *. fold P in HN6.
    assert (t6 * P + N6 = W mod V + P) as E6r by lia.
    assert (t6 = 1) as ->.
    { apply lead_digit in E6r; [|done]. rewrite E6r. symmetry. apply Z.div_unique with (W mod V); lia. }
    change (LHALF (u32 (65535 + 1))) with 0.
    replace (u32 (W / V + 1 - 1)) with (W / V) by (unfold digit in Hq; rewrite wrap_small; lia).
    eexists. split; [done|]. split; [by apply all_digits_insert|]. split.
    { eapply agree_trans; [eapply agree_weaken; [exact Hag4|lia|lia]|]. eapply agree_trans; [apply (agree_insert _ _ us4 p 65535); lia|].
      eapply agree_trans; [eapply agree_weaken; [exact Hag6|lia|lia]|]. apply agree_insert. lia. }
    split; [apply list_lookup_total_insert_eq; lia|]. rewrite nval_insert by lia. fold N6. lia.
  - (* the digit is right *)
    assert (qhat = W / V) as ->.
    { destruct (decide (qhat = W / V + 1)) as [Eq|]; [rewrite Eq in Hpos; lia|lia]. }
    assert ((u0 - t4) * P + N = W mod V) as EWr by lia.
    assert (u0 - t4 = 0) as Eb by (apply lead_digit in EWr; [|done]; rewrite EWr; apply Z.div_small; lia).
    rewrite Eb in EWr.
    assert (t = 0) as -> by (unfold t; rewrite Eb; done). change (HHALF 0) with 0. change (LHALF 0) with 0.
    change (negb (0 =? 0)) with false. cbv iota. eexists. split; [done|]. split; [by apply all_digits_insert|]. split.
    { eapply agree_trans; [eapply agree_weaken; [exact Hag4|lia|lia]|]. apply agree_insert. lia. }
    split; [apply list_lookup_total_insert_eq; lia|]. rewrite nval_insert by lia. fold N. lia.
Qed.

(** The [n] digits from position [p]: what is left of the dividend so far. *)
Definition pre (us : list Z) (p : nat) : Z := us !!! p * Bz ^ Z.of_nat (n - 1) + nval us p (n - 1).

Lemma wide_pre us p : wide us p = pre us p * Bz + us !!! (p + n)%nat.
Proof.
  unfold wide, pre. assert (n = S (n - 1)) as E by lia. rewrite E at 1 2 5. cbn [nval].
  rewrite Nat2Z.inj_succ, Z.pow_succ_r by lia. lia.
Qed.

Lemma pre_next us p : nval us p n = pre us (p + 1).
Proof. unfold pre. assert (n = S (n - 1)) as E by lia. rewrite E at 1. apply nval_front. Qed.

Lemma d_loop_ok T u q j us qs :
  all_digits us → all_digits qs → (u + j + n + T ≤ length us)%nat → (1 ≤ q)%nat → (q + j + T ≤ length qs)%nat →
  0 ≤ pre us (u + j) < V →
  ∃ us' qs', d_loop T (Z.of_nat n) (Z.of_nat u) (Z.of_nat v) (Z.of_nat q) (Z.of_nat j) (vs !!! (v + 1)%nat) (vs !!! (v + 2)%nat)
      us vs qs = Ok (us', qs') ∧
    all_digits us' ∧ all_digits qs' ∧ agree (u + j) (u + j + n + T - 1) us us' ∧ agree (q + j) (q + j + T - 1) qs qs' ∧
    (∀ i, (u + j ≤ i < u + j + T)%nat → us' !!! i = 0) ∧ 0 ≤ pre us' (u + j + T) < V ∧
    pre us (u + j) * Bz ^ Z.of_nat T + nval us (u + j + n - 1) T = nval qs' (q + j - 1) T * V + pre us' (u + j + T).
Proof.
  revert j us qs. induction T as [|T IH]; intros j us qs Hus Hqs Hlu Hq Hlq Hpre.
  { exists us, qs. cbn [d_loop nval]. rewrite !Nat.add_0_r. change (Bz ^ Z.of_nat 0) with 1.
    split_and!; try done; try apply agree_refl; try lia; intros; lia. }
  cbn [d_loop]. set (p := (u + j)%nat) in *.
  assert (wide us p < V * Bz) as Hw.
  { rewrite wide_pre. pose proof (digit_at us (p + n) Hus ltac:(lia)) as Hd. unfold digit in Hd. nia. }
  destruct (d_step_ok u j us Hus ltac:(lia) Hw) as (us1 & -> & Hus1 & Hag1 & Hz1 & HR1). fold p in Hag1, Hz1, HR1 |- *.
  rewrite Ok_bind. cbv beta iota. destruct V_bounds as [HV0 HV]. destruct (Hag1) as [Hl1 Ha1].
  assert (0 ≤ wide us p) by (rewrite wide_pre; pose proof (digit_at us (p + n) Hus ltac:(lia)) as Hd; unfold digit in Hd; lia).
  set (qh := wide us p / V) in *.
  assert (digit qh) as Hqh by (unfold digit, qh; split; [apply Z.div_pos; lia|apply Z.div_lt_upper_bound; lia]).
  rewrite (wrap_small 16 qh) by exact Hqh. replace (Z.of_nat q + Z.of_nat j) with (Z.of_nat (q + j)) by lia.
  rewrite st_total by lia. rewrite Ok_bind. replace (Z.of_nat j + 1) with (Z.of_nat (S j)) by lia.
  assert (0 ≤ pre us1 (u + S j) < V) as Hpre1.
  { replace (u + S j)%nat with (p + 1)%nat by lia. rewrite <- pre_next, HR1. apply Z.mod_pos_bound. lia. }
  destruct (IH (S j) us1 (<[(q + j)%nat := qh]> qs)) as (us' & qs' & -> & Hus' & Hqs' & Hag' & Hagq & Hz' & HR' & E').
  - done.
  - by apply all_digits_insert.
  - lia.
  - done.
  - rewrite length_insert. lia.
  - done.
  - destruct (Hag') as [Hl' Ha']. destruct (Hagq) as [Hlq' Haq']. rewrite length_insert in Hlq'.
    exists us', qs'. split; [done|]. split; [done|]. split; [done|]. split.
    { eapply agree_trans; eapply agree_weaken; [exact Hag1|lia|lia|exact Hag'|lia|lia]. }
    split. { eapply agree_trans; [apply (agree_insert _ _ qs (q + j) qh); lia|]. eapply agree_weaken; [exact Hagq|lia|lia]. }
    replace (u + S j + T)%nat with (p + S T)%nat in * by lia.
    split. { intros i Hi. destruct (decide (i = p)) as [->|]; [by rewrite <- Ha' by lia|apply Hz'; lia]. }
    split; [done|].
    replace (p + n - 1)%nat with (p + (n - 1))%nat by lia. rewrite nval_front.
    replace (p + (n - 1) + 1)%nat with (p + n)%nat by lia. rewrite nval_front.
    replace (q + j - 1 + 1)%nat with (q + j)%nat by lia.
    assert (qs' !!! (q + j)%nat = qh) as Eq by (rewrite <- Haq' by lia; apply list_lookup_total_insert_eq; lia). rewrite Eq.
    replace (u + S j + n - 1)%nat with (p + n)%nat in E' by lia. replace (q + S j - 1)%nat with (q + j)%nat in E' by lia.
    assert (nval us1 (p + n) T = nval us (p + n) T) as Eus.
    { apply nval_ext. intros i Hi. symmetry. apply Ha1. lia. }
    rewrite Eus in E'. replace (u + S j)%nat with (p + 1)%nat in E' by lia. rewrite <- pre_next, HR1 in E'.
    pose proof (wide_pre us p) as Ew. pose proof (Z.div_mod (wide us p) V ltac:(lia)) as Edm. fold qh in Edm.
    rewrite Nat2Z.inj_succ, Z.pow_succ_r by lia. set (P := Bz ^ Z.of_nat T) in *.
    assert (wide us p * P = (qh * P) * V + wide us p mod V * P) as Ewp by (rewrite Edm at 1; lia).
    rewrite Ew in Ewp at 1. lia.
Qed.

End Divisor.

(** ** Shifts *)

(** The number with the [k + 1] digits from position [s]. *)
Definition num (a : list Z) (s k : nat) : Z := a !!! s * Bz ^ Z.of_nat k + nval a s k.

Lemma num_front a s k : num a s (S k) = a !!! s * Bz ^ Z.of_nat (S k) + num a (s + 1) k.
Proof. unfold num. by rewrite nval_front. Qed.

Lemma nval_num a s k : nval a s (S k) = num a (s + 1) k.
Proof. unfold num. apply nval_front. Qed.

Lemma nval_app a s k l : nval a s (k + l) = nval a s k * Bz ^ Z.of_nat l + nval a (s + k) l.
Proof.
  induction l as [|l IH]; [rewrite Nat.add_0_r; cbn [nval]; rewrite Z.mul_1_r; lia|].
  rewrite <- plus_n_Sm. cbn [nval]. rewrite IH, Nat2Z.inj_succ, Z.pow_succ_r by lia.
  replace (s + S (k + l))%nat with (s + k + S l)%nat by lia. lia.
Qed.

Lemma num_app a s k l : num a s (k + l) = num a s k * Bz ^ Z.of_nat l + nval a (s + k) l.
Proof. unfold num. rewrite nval_app, Nat2Z.inj_add, Z.pow_add_r by lia. lia. Qed.

(** Splitting a digit [sh] bits from the left. *)
Section Shift.
Context (sh : Z) (Hsh : 0 < sh < 16).

Lemma split_base : 2 ^ sh * 2 ^ (16 - sh) = Bz ∧ 0 < 2 ^ sh ∧ 0 < 2 ^ (16 - sh).
Proof.
  rewrite <- Z.pow_add_r by lia. replace (sh + (16 - sh)) with 16 by lia.
  split_and!; [done|apply Z.pow_pos_nonneg; lia..].
Qed.

Lemma shl_digit x : LHALF (Z.shiftl x sh) = (x mod 2 ^ (16 - sh)) * 2 ^ sh.
Proof.
  destruct split_base as (E & ? & ?). rewrite LHALF_mod, Z.shiftl_mul_pow2 by lia.
  rewrite <- E, (Z.mul_comm (2 ^ sh) (2 ^ (16 - sh))). apply Z.mul_mod_distr_r; lia.
Qed.

Lemma shl_digits x y : digit y → digit (Z.lor (LHALF (Z.shiftl x sh)) (Z.shiftr y (HALF_BITS - sh))) ∧
  Z.lor (LHALF (Z.shiftl x sh)) (Z.shiftr y (HALF_BITS - sh)) = (x mod 2 ^ (16 - sh)) * 2 ^ sh + y / 2 ^ (16 - sh).
Proof.
  destruct split_base as (E & HS & HC). unfold digit. intros Hy. rewrite shl_digit. unfold HALF_BITS. rewrite Z.shiftr_div_pow2 by lia.
  assert (0 ≤ y / 2 ^ (16 - sh) < 2 ^ sh) by (split; [apply Z.div_pos; lia|apply Z.div_lt_upper_bound; lia]).
  rewrite Z.lor_comm, lor_add by lia. pose proof (Z.mod_pos_bound x (2 ^ (16 - sh)) HC). split; [nia|lia].
Qed.

Lemma shl_loop_ok len i p a :
  all_digits a → (p + i + len < length a)%nat →
  ∃ a', shl_loop len (Z.of_nat i) sh (Z.of_nat p) a = Ok a' ∧ all_digits a' ∧ agree (p + i) (p + i + len) a a' ∧
    num a' (p + i) len = 2 ^ sh * num a (p + i) len - (a !!! (p + i)%nat / 2 ^ (16 - sh)) * Bz ^ Z.of_nat (S len).
Proof.
  destruct split_base as (E & HS & HC).
  revert i a. induction len as [|len IH]; intros i a Ha Hl; cbn [shl_loop].
  - replace (Z.of_nat p + Z.of_nat i) with (Z.of_nat (p + i)) by lia. rewrite ld_total by lia. rewrite Ok_bind, st_total by lia.
    eexists. split; [done|]. split; [apply all_digits_insert; [done|apply LHALF_digit]|].
    split; [apply agree_insert; lia|]. unfold num. cbn [nval]. rewrite list_lookup_total_insert_eq by lia.
    rewrite shl_digit. set (x := a !!! (p + i)%nat). pose proof (Z.div_mod x (2 ^ (16 - sh)) ltac:(lia)).
    change (Bz ^ Z.of_nat 0) with 1. change (Bz ^ Z.of_nat 1) with Bz. rewrite <- E. nia.
  - replace (Z.of_nat p + Z.of_nat i) with (Z.of_nat (p + i)) by lia.
    replace (Z.of_nat p + (Z.of_nat i + 1)) with (Z.of_nat (p + i + 1)) by lia. rewrite !ld_total by lia. rewrite !Ok_bind, st_total by lia.
    rewrite Ok_bind. replace (Z.of_nat i + 1) with (Z.of_nat (S i)) by lia.
    set (x := a !!! (p + i)%nat). set (y := a !!! (p + i + 1)%nat).
    assert (digit y) as Hy by (apply digit_at; done || lia). destruct (shl_digits x y Hy) as [Hd Ed].
    set (w := Z.lor _ _) in *.
    destruct (IH (S i) (<[(p + i)%nat := w]> a)) as (a' & -> & Ha' & Hag & En).
    { by apply all_digits_insert. } { rewrite length_insert. lia. }
    replace (p + S i)%nat with (p + i + 1)%nat in * by lia. destruct (Hag) as [Hl' Hag'].
    exists a'. split; [done|]. split; [done|]. split.
    { eapply agree_trans; [apply (agree_insert _ _ a (p + i) w); lia|]. eapply agree_weaken; [exact Hag|lia|lia]. }
    rewrite !num_front, En. unfold num. rewrite nval_insert by lia. rewrite list_lookup_total_insert_ne by lia. fold x y.
    rewrite <- Hag', list_lookup_total_insert_eq by lia. rewrite Ed.
    pose proof (Z.div_mod x (2 ^ (16 - sh)) ltac:(lia)) as Edm. rewrite (Nat2Z.inj_succ (S len)), (Z.pow_succ_r Bz (Z.of_nat (S len))) by lia.
    set (P := Bz ^ Z.of_nat (S len)) in *. set (X := x mod 2 ^ (16 - sh)) in *. set (q := x / 2 ^ (16 - sh)) in *. set (Y := y / 2 ^ (16 - sh)).
    set (N := y * Bz ^ Z.of_nat len + nval a (p + i + 1) len).
    assert (2 ^ sh * (x * P) = q * (Bz * P) + X * 2 ^ sh * P) as Ex by (rewrite Edm, <- E; lia). lia.
Qed.

(** Shifting back to the right. *)
Lemma shr_digits x y : digit x → 
  let w := Z.lor (Z.shiftr x sh) (LHALF (Z.shiftl y (HALF_BITS - sh))) in
  digit w ∧ w * 2 ^ sh = x - x mod 2 ^ sh + (y mod 2 ^ sh) * Bz.
Proof.
  destruct split_base as (E & HS & HC). intros Hx w. unfold digit in Hx. unfold w, HALF_BITS.
  assert (LHALF (Z.shiftl y (16 - sh)) = (y mod 2 ^ sh) * 2 ^ (16 - sh)) as ->.
  { rewrite LHALF_mod, Z.shiftl_mul_pow2 by lia. rewrite <- E. apply Z.mul_mod_distr_r; lia. }
  rewrite Z.shiftr_div_pow2 by lia.
  assert (0 ≤ x / 2 ^ sh < 2 ^ (16 - sh)) by (split; [apply Z.div_pos; lia|apply Z.div_lt_upper_bound; lia]).
  rewrite lor_add by lia. pose proof (Z.mod_pos_bound y (2 ^ sh) HS). pose proof (Z.div_mod x (2 ^ sh) ltac:(lia)).
  split; [unfold digit; nia|]. rewrite <- E. lia.
Qed.

Lemma shr_loop_ok cnt u i a :
  all_digits a → (cnt ≤ i)%nat → (u + i < length a)%nat →
  let s := (u + i - cnt)%nat in
  ∃ a', shr_loop cnt (Z.of_nat i) sh (Z.of_nat u) a = Ok a' ∧ all_digits a' ∧ agree s (u + i) a a' ∧ a' !!! s = 0 ∧
    nval a' s cnt * 2 ^ sh + a !!! (s + cnt)%nat mod 2 ^ sh = (a !!! s mod 2 ^ sh) * Bz ^ Z.of_nat cnt + nval a s cnt.
Proof.
  destruct split_base as (E & HS & HC).
  revert i a. induction cnt as [|cnt IH]; intros i a Ha Hi Hl s; cbn [shr_loop].
  - replace (Z.of_nat u + Z.of_nat i) with (Z.of_nat s) by lia. rewrite st_total by lia. eexists. split; [done|].
    split; [by apply all_digits_insert|]. split; [apply agree_insert; lia|]. split; [apply list_lookup_total_insert_eq; lia|].
    cbn [nval]. rewrite Nat.add_0_r. change (Bz ^ Z.of_nat 0) with 1. lia.
  - replace (Z.of_nat u + Z.of_nat i) with (Z.of_nat (u + i)) by lia.
    replace (Z.of_nat u + (Z.of_nat i - 1)) with (Z.of_nat (u + (i - 1))) by lia. rewrite !ld_total by lia. rewrite !Ok_bind, st_total by lia.
    rewrite Ok_bind. replace (Z.of_nat i - 1) with (Z.of_nat (i - 1)) by lia.
    set (x := a !!! (u + i)%nat). set (y := a !!! (u + (i - 1))%nat).
    assert (digit x) as Hx by (apply digit_at; done || lia). destruct (shr_digits x y Hx) as [Hd Ed].
    set (w := Z.lor _ _) in *.
    destruct (IH (i - 1)%nat (<[(u + i)%nat := w]> a)) as (a' & -> & Ha' & Hag & Hz & En).
    { by apply all_digits_insert. } { lia. } { rewrite length_insert. lia. }
    replace (u + (i - 1) - cnt)%nat with s in * by lia. destruct (Hag) as [Hl' Hag'].
    exists a'. split; [done|]. split; [done|]. split.
    { eapply agree_trans; [apply (agree_insert _ _ a (u + i) w); lia|]. eapply agree_weaken; [exact Hag|lia|lia]. }
    split; [done|]. rewrite nval_insert in En by lia. rewrite !list_lookup_total_insert_ne in En by lia.
    replace (s + cnt)%nat with (u + (i - 1))%nat in En by lia. fold y in En.
    cbn [nval]. replace (s + S cnt)%nat with (u + i)%nat by lia. fold x.
    rewrite <- (Hag' (u + i)%nat), list_lookup_total_insert_eq by lia. rewrite Nat2Z.inj_succ, Z.pow_succ_r by lia. lia.
Qed.

End Shift.

(** ** The parts around the loop *)

Lemma digits_of_ok first q : digit first → 0 ≤ q < 2 ^ 64 →
  all_digits (digits_of first q) ∧ length (digits_of first q) = 5%nat ∧ digits_of first q !!! 0%nat = first ∧
  nval (digits_of first q) 0 4 = q.
Proof.
  intros Hf Hq. unfold digits_of, ul_H, ul_L. rewrite Z.shiftr_div_pow2, !HHALF_div, !LHALF_mod by lia. unfold wrap.
  change (2 ^ 32) with (Bz * Bz). change (2 ^ 64) with (Bz * Bz * (Bz * Bz)) in Hq.
  assert (0 ≤ q / (Bz * Bz) < Bz * Bz) by (split; [apply Z.div_pos; lia|apply Z.div_lt_upper_bound; lia]).
  rewrite (Z.mod_small (q / (Bz * Bz))) by lia. set (h := q / (Bz * Bz)) in *.
  pose proof (Z.div_mod q (Bz * Bz) ltac:(lia)) as Eq. fold h in Eq. pose proof (Z.mod_pos_bound q (Bz * Bz) ltac:(lia)).
  set (l := q mod (Bz * Bz)) in *.
  pose proof (Z.div_mod h Bz ltac:(lia)). pose proof (Z.div_mod l Bz ltac:(lia)).
  pose proof (Z.mod_pos_bound h Bz ltac:(lia)). pose proof (Z.mod_pos_bound l Bz ltac:(lia)).
  split_and!; [|done|done|].
  - unfold all_digits. rewrite !Forall_cons. unfold digit in *. split_and!; lia || done.
  - cbn [nval]. cbn. lia.
Qed.

(** Where the leading digit is. *)
Definition leading (a : list Z) (p : nat) : Prop := (∀ i, (0 < i ≤ p)%nat → a !!! i = 0) ∧ a !!! (p + 1)%nat ≠ 0.

Lemma leading_nval a p : length a = 5%nat → leading a p → (p < 4)%nat → nval a 0 4 = nval a p (4 - p).
Proof.
  intros Hl [Hz _] Hp. replace 4%nat with (p + (4 - p))%nat at 1 by lia. rewrite nval_app.
  assert (nval a 0 p = 0) as ->; [|rewrite Nat.add_0_l; lia].
  clear Hp. induction p as [|p IH]; [done|]. cbn [nval]. rewrite IH by (intros i Hi; apply Hz; lia). rewrite Hz by lia. done.
Qed.

Lemma leading_bounds a p k : all_digits a → (p + S k < length a)%nat → leading a p →
  Bz ^ Z.of_nat k ≤ nval a p (S k) < Bz ^ Z.of_nat (S k).
Proof.
  intros Ha Hl [_ Hn]. split; [|apply nval_bound; done || lia].
  rewrite nval_front. pose proof (nval_bound a (p + 1) k Ha ltac:(lia)).
  pose proof (digit_at a (p + 1) Ha ltac:(lia)) as Hd. unfold digit in Hd.
  assert (0 < Bz ^ Z.of_nat k) by (apply Z.pow_pos_nonneg; lia). nia.
Qed.

(** Reading the array of five digits at a constant index. *)
Ltac ld_const i :=
  match goal with |- context [ld ?l i] =>
    let j := eval vm_compute in i in
    let r := eval cbv in (ld l j) in
    change (ld l i) with r; rewrite Ok_bind
  end.

Ltac pair_lia :=
  match goal with |- Ok (?a, ?b) = Ok (?c, ?d) => replace c with a by lia; replace d with b by lia; reflexivity end.

Lemma leading_zeros a p : (∀ i, (i < p)%nat → a !!! S i = 0) → a !!! (p + 1)%nat ≠ 0 → leading a p.
Proof. intros Hz Hn. split; [|done]. intros [|i] Hi; [lia|]. apply Hz. lia. Qed.

Lemma skip_u_ok a m : length a = 5%nat → nval a 0 4 ≠ 0 → ∃ u, (u < 4)%nat ∧ leading a u ∧ skip_u 5 m 0 a = Ok (m - Z.of_nat u, Z.of_nat u).
Proof.
  intros Hl Hn. destruct a as [|a0 [|a1 [|a2 [|a3 [|a4 [|]]]]]]; try done. cbn [nval] in Hn. cbn in Hn.
  cbn [skip_u]. ld_const (0 + 1). destruct (Z.eqb_spec a1 0) as [->|H1]; cbn [negb].
  2: { exists 0%nat. split; [lia|]. split; [by apply leading_zeros; [intros; lia|]|]. pair_lia. }
  ld_const (0 + 1 + 1). destruct (Z.eqb_spec a2 0) as [->|H2]; cbn [negb].
  2: { exists 1%nat. split; [lia|]. split; [by apply leading_zeros; [intros [|]; done || lia|]|]. pair_lia. }
  ld_const (0 + 1 + 1 + 1). destruct (Z.eqb_spec a3 0) as [->|H3]; cbn [negb].
  2: { exists 2%nat. split; [lia|]. split; [by apply leading_zeros; [intros [|[|]]; done || lia|]|]. pair_lia. }
  ld_const (0 + 1 + 1 + 1 + 1). destruct (Z.eqb_spec a4 0) as [->|H4]; cbn [negb]; [lia|].
  exists 3%nat. split; [lia|]. split; [by apply leading_zeros; [intros [|[|[|]]]; done || lia|]|]. pair_lia.
Qed.

Lemma skip_v_ok a : length a = 5%nat → nval a 0 4 ≠ 0 →
  (∃ v, (v < 3)%nat ∧ leading a v ∧ skip_v 4 4 0 a = Ok (Z.of_nat (4 - v), Z.of_nat v)) ∨
  (leading a 3 ∧ skip_v 4 4 0 a = Ok (1, 2)).
Proof.
  intros Hl Hn. destruct a as [|a0 [|a1 [|a2 [|a3 [|a4 [|]]]]]]; try done. cbn [nval] in Hn. cbn in Hn.
  cbn [skip_v]. ld_const (0 + 1). destruct (Z.eqb_spec a1 0) as [->|H1]; cbn [negb].
  2: { left. exists 0%nat. split; [lia|]. split; [by apply leading_zeros; [intros; lia|]|done]. }
  change (4 - 1 =? 1) with false. cbv iota.
  ld_const (0 + 1 + 1). destruct (Z.eqb_spec a2 0) as [->|H2]; cbn [negb].
  2: { left. exists 1%nat. split; [lia|]. split; [by apply leading_zeros; [intros [|]; done || lia|]|done]. }
  change (4 - 1 - 1 =? 1) with false. cbv iota.
  ld_const (0 + 1 + 1 + 1). destruct (Z.eqb_spec a3 0) as [->|H3]; cbn [negb].
  2: { left. exists 2%nat. split; [lia|]. split; [by apply leading_zeros; [intros [|[|]]; done || lia|]|done]. }
  right. split; [|done]. apply leading_zeros; [intros [|[|[|]]]; done || lia|]. cbn. lia.
Qed.

Lemma d1_loop_ok fuel t d0 : 0 < t < Bz → Bz / 2 ≤ t * 2 ^ (Z.of_nat fuel - 1) →
  ∃ d, d1_loop fuel t d0 = Ok (d0 + d) ∧ 0 ≤ d ∧ Bz / 2 ≤ t * 2 ^ d < Bz.
Proof.
  change (Bz / 2) with 32768. revert t d0. induction fuel as [|fuel IH]; intros t d0 Ht Hf.
  { change (2 ^ (Z.of_nat 0 - 1)) with 0 in Hf. lia. }
  cbn [d1_loop]. change (B / 2) with 32768. destruct (Z.ltb_spec t 32768).
  - rewrite Z.shiftl_mul_pow2 by lia. change (2 ^ 1) with 2. rewrite wrap_small by lia.
    assert (0 < Z.of_nat fuel).
    { destruct fuel; [change (2 ^ (Z.of_nat 1 - 1)) with 1 in Hf; lia|lia]. }
    destruct (IH (t * 2) (d0 + 1)) as (d & -> & Hd & Hb); [lia| |].
    { replace (Z.of_nat (S fuel) - 1) with (Z.succ (Z.of_nat fuel - 1)) in Hf by lia. rewrite Z.pow_succ_r in Hf by lia. lia. }
    exists (d + 1). split; [f_equal; lia|]. split; [lia|]. rewrite Z.pow_add_r by lia. change (2 ^ 1) with 2. lia.
  - exists 0. rewrite Z.add_0_r, Z.pow_0_r. split; [done|]. lia.
Qed.

Lemma clear_q_ok k a : all_digits a → (k ≤ length a)%nat →
  ∃ a', clear_q k a = Ok a' ∧ all_digits a' ∧ length a' = length a ∧ (∀ i, (i < k)%nat → a' !!! i = 0) ∧
    ∀ i, (k ≤ i)%nat → a' !!! i = a !!! i.
Proof.
  revert a. induction k as [|k IH]; intros a Ha Hk; cbn [clear_q]; [exists a; split_and!; done || (intros; lia)|].
  rewrite st_total by lia. rewrite Ok_bind.
  destruct (IH (<[k := 0]> a)) as (a' & E & Ha' & Hl & Hz & Hs); [by apply all_digits_insert|rewrite length_insert; lia|].
  exists a'. rewrite length_insert in Hl. split; [done|]. split; [done|]. split; [done|]. split.
  - intros i Hi. destruct (decide (i = k)) as [->|]; [|apply Hz; lia]. rewrite Hs by lia. apply list_lookup_total_insert_eq. lia.
  - intros i Hi. rewrite Hs by lia. apply list_lookup_total_insert_ne. lia.
Qed.

Lemma quad_of_ok a : all_digits a → length a = 5%nat → quad_of a = Ok (nval a 0 4).
Proof.
  intros Ha Hl. destruct a as [|a0 [|a1 [|a2 [|a3 [|a4 [|]]]]]]; try done.
  unfold all_digits in Ha. rewrite !Forall_cons in Ha. destruct Ha as (_ & H1 & H2 & H3 & H4 & _).
  unfold quad_of. ld_const 1. ld_const 2. ld_const 3. ld_const 4. rewrite !COMBINE_val by done. unfold quad. change (2 ^ 32) with (Bz * Bz).
  f_equal. cbn [nval]. cbn. lia.
Qed.

(** Division by one digit. *)
Lemma short_division_ok us vs uq :
  all_digits us → length us = 5%nat → nval us 0 4 = uq → all_digits vs → length vs = 5%nat → vs !!! 4%nat ≠ 0 →
  short_division 2 us vs = Ok (uq / vs !!! 4%nat, uq mod vs !!! 4%nat).
Proof.
  intros Hus Hlu <- Hvs Hlv Ht.
  destruct us as [|u0 [|u1 [|u2 [|u3 [|u4 [|]]]]]]; try done. destruct vs as [|v0 [|v1 [|v2 [|v3 [|t [|]]]]]]; try done.
  unfold all_digits in Hus, Hvs. rewrite !Forall_cons in Hus, Hvs.
  destruct Hus as (_ & H1 & H2 & H3 & H4 & _). destruct Hvs as (_ & _ & _ & _ & Hd & _). cbn in Ht.
  unfold short_division. ld_const (2 + 2). ld_const 1. ld_const 2. ld_const 3. ld_const 4.
  change ([v0; v1; v2; v3; t] !!! 4%nat) with t. destruct (Z.eqb_spec t 0); [done|].
  unfold digit in *.
  assert (∀ r x, 0 ≤ r < t → 0 ≤ x < Bz → COMBINE r x = r * Bz + x ∧ 0 ≤ (r * Bz + x) / t < Bz ∧ 0 ≤ (r * Bz + x) mod t < t) as Hstep.
  { intros r x Hr Hx. split; [apply COMBINE_val; unfold digit; lia|]. split; [|apply Z.mod_pos_bound; lia].
    split; [apply Z.div_pos; lia|apply Z.div_lt_upper_bound; nia]. }
  assert (0 ≤ u1 mod t < t) as R1 by (apply Z.mod_pos_bound; lia).
  assert (0 ≤ u1 / t < Bz) as Q1 by (split; [apply Z.div_pos; lia|apply Z.div_lt_upper_bound; nia]).
  destruct (Hstep _ u2 R1 H2) as (-> & Q2 & R2). set (r2 := u1 mod t * Bz + u2) in *.
  destruct (Hstep _ u3 R2 H3) as (-> & Q3 & R3). set (r3 := r2 mod t * Bz + u3) in *.
  destruct (Hstep _ u4 R3 H4) as (-> & Q4 & R4). set (r4 := r3 mod t * Bz + u4) in *.
  rewrite !wrap_small by (change (2 ^ 16) with Bz; lia). rewrite !COMBINE_val by (unfold digit; lia).
  cbn [nval]. cbn -[Z.div Z.modulo Z.mul Z.add]. unfold quad. change (2 ^ 32) with (Bz * Bz).
  set (uq := ((0 * Bz + u1) * Bz + u2) * Bz + u3). 
  pose proof (Z.div_mod u1 t n) as E1. pose proof (Z.div_mod r2 t n) as E2. pose proof (Z.div_mod r3 t n) as E3. pose proof (Z.div_mod r4 t n) as E4.
  assert (uq * Bz + u4 = t * ((u1 / t * Bz + r2 / t) * (Bz * Bz) + (r3 / t * Bz + r4 / t)) + r4 mod t) as Eq.
  { unfold uq, r4 in *. unfold r3 in *. unfold r2 in *. lia. }
  f_equal. f_equal; [apply (Z.div_unique _ _ _ (r4 mod t)); lia|].
  apply (Z.mod_unique _ _ ((u1 / t * Bz + r2 / t) * (Bz * Bz) + (r3 / t * Bz + r4 / t))); lia.
Qed.

(** ** The whole division *)

(** D1 for the two numbers, when there is something to shift. *)
Lemma normalize_ok d s len a :
  0 ≤ d < 16 → all_digits a → (s + len < length a)%nat → a !!! s * 2 ^ d < Bz →
  ∃ a', (if 0 <? d then shl (Z.of_nat s) (Z.of_nat len) d a else Ok a) = Ok a' ∧ all_digits a' ∧
    agree s (s + len) a a' ∧ num a' s len = 2 ^ d * num a s len.
Proof.
  intros Hd Ha Hl Htop. destruct (Z.ltb_spec 0 d).
  - unfold shl. rewrite Nat2Z.id. destruct (shl_loop_ok d ltac:(lia) len 0 s a Ha) as (a' & E & Ha' & Hag & En); [lia|].
    rewrite Nat.add_0_r in *. exists a'. split; [exact E|]. split; [done|]. split; [done|]. rewrite En.
    destruct (split_base d ltac:(lia)) as (EB & HS & HC).
    pose proof (digit_at a s Ha ltac:(lia)) as Hdg. unfold digit in Hdg.
    rewrite (Z.div_small (a !!! s)); [lia|]. split; [lia|]. rewrite <- EB in Htop. nia.
  - assert (d = 0) as -> by lia. exists a. split; [done|]. split; [done|]. split; [apply agree_refl|]. rewrite Z.pow_0_r. lia.
Qed.

(** The remainder from the digits that are left. *)
Lemma remainder_ok d n m u a r :
  0 ≤ d < 16 → all_digits a → length a = 5%nat → (u + m + n = 4)%nat → (1 ≤ n)%nat →
  (∀ i, (0 < i ≤ u + m)%nat → a !!! i = 0) → a !!! (u + m)%nat = 0 → nval a (u + m) n = 2 ^ d * r →
  (us ← (if negb (d =? 0) then shr_loop (Z.to_nat (Z.of_nat n)) (Z.of_nat (m + n)) d (Z.of_nat u) a else Ok a);
   r ← quad_of us; Ok (Some r)) = Ok (Some r).
Proof.
  intros Hd Ha Hl Hpos Hn Hz Hz0 Hv.
  assert (∀ b, all_digits b → length b = 5%nat → (∀ i, (0 < i ≤ u + m)%nat → b !!! i = 0) → nval b 0 4 = nval b (u + m) n) as Htop.
  { intros b Hb Hlb Hzb. replace 4%nat with (u + m + n)%nat by lia. rewrite nval_app.
    assert (∀ k, (k ≤ u + m)%nat → nval b 0 k = 0) as H0.
    { induction k as [|k IH]; intros Hk; [done|]. cbn [nval]. rewrite IH, Hzb by lia. done. }
    rewrite H0 by lia. rewrite Nat.add_0_l. lia. }
  destruct (Z.eqb_spec d 0) as [->|Hd0]; cbn [negb].
  - rewrite Ok_bind, quad_of_ok, Ok_bind by done. rewrite Htop, Hv by done. do 2 f_equal. rewrite Z.pow_0_r. lia.
  - rewrite Nat2Z.id. destruct (shr_loop_ok d ltac:(lia) n u (m + n) a Ha) as (a' & -> & Ha' & Hag & Hz' & En); [lia|lia|].
    replace (u + (m + n) - n)%nat with (u + m)%nat in * by lia. destruct (Hag) as [Hl' Hag'].
    rewrite Ok_bind, quad_of_ok by (done || congruence). rewrite Ok_bind, Htop; [|done|congruence|].
    2: { intros i Hi. destruct (decide (i = (u + m)%nat)) as [->|]; [done|]. rewrite <- Hag' by lia. apply Hz. lia. }
    destruct (split_base d ltac:(lia)) as (EB & HS & HC).
    rewrite Hz0, Z.mod_0_l, Z.mul_0_l, Z.add_0_l, Hv in En by lia.
    assert (a !!! (u + m + n)%nat mod 2 ^ d = 0) as Elast.
    { assert (nval a (u + m) n mod 2 ^ d = 0) as E0 by (rewrite Hv, Z.mul_comm; apply Z_mod_mult).
      destruct n as [|n']; [lia|]. cbn [nval] in E0. rewrite <- EB in E0.
      replace (nval a (u + m) n' * (2 ^ d * 2 ^ (16 - d)) + a !!! (u + m + S n')%nat) with
        (a !!! (u + m + S n')%nat + (nval a (u + m) n' * 2 ^ (16 - d)) * 2 ^ d) in E0 by lia.
      by rewrite Z_mod_plus_full in E0. }
    rewrite Elast in En. do 2 f_equal. nia.
Qed.

Lemma pre_num n us p : pre n us p = num us p (n - 1).
Proof. done. Qed.

Lemma long_division v0 q0 uq vq v n arq :
  digit v0 → length q0 = 5%nat → all_digits q0 → 0 < vq ≤ uq → uq < 2 ^ 64 →
  (v + n = 4)%nat → (2 ≤ n)%nat → leading (digits_of v0 vq) v →
  ('(m, u) ← skip_u 5 (4 - Z.of_nat n) 0 (digits_of 0 uq);
   qs ← clear_q (Z.to_nat (4 - m)) q0;
   let q := 4 - m in
   t ← ld (digits_of v0 vq) (Z.of_nat v + 1);
   d ← d1_loop 16 t 0;
   us ← (if 0 <? d then shl u (m + Z.of_nat n) d (digits_of 0 uq) else Ok (digits_of 0 uq));
   vs ← (if 0 <? d then shl (Z.of_nat v + 1) (Z.of_nat n - 1) d (digits_of v0 vq) else Ok (digits_of v0 vq));
   v1 ← ld vs (Z.of_nat v + 1);
   v2 ← ld vs (Z.of_nat v + 2);
   '(us, qs) ← d_loop (Z.to_nat (Z.max 1 (m + 1))) (Z.of_nat n) u (Z.of_nat v) q 0 v1 v2 us vs qs;
   r ← (if (arq : bool) then
          us ← (if negb (d =? 0) then shr_loop (Z.to_nat (Z.of_nat n)) (m + Z.of_nat n) d u us else Ok us);
          r ← quad_of us; Ok (Some r)
        else Ok None);
   q ← quad_of qs;
   Ok (q, r)) = Ok (uq / vq, if arq then Some (uq mod vq) else None).
Proof.
  intros Hv0 Hlq Hq0 Hle Huq Hpos Hn Hlead.
  destruct (digits_of_ok 0 uq) as (Hus & Hlu & Hu0 & Eu); [done|lia|].
  destruct (digits_of_ok v0 vq) as (Hvs & Hlv & _ & Ev); [done|lia|].
  set (us := digits_of 0 uq) in *. set (vs := digits_of v0 vq) in *. clearbody us vs.
  rewrite (leading_nval vs v) in Ev by (done || lia). replace (4 - v)%nat with n in Ev by lia.
  destruct (skip_u_ok us (4 - Z.of_nat n)) as (u & Hu & Hleadu & ->); [done|lia|]. rewrite Ok_bind. cbv beta iota.
  rewrite (leading_nval us u) in Eu by (done || lia).
  (* the dividend has at least as many digits as the divisor *)
  assert (u + n ≤ 4)%nat as Hun.
  { destruct (decide (u + n ≤ 4)%nat) as [|Hgt]; [done|]. exfalso.
    pose proof (nval_bound us u (4 - u) Hus ltac:(lia)).
    pose proof (leading_bounds vs v (n - 1) Hvs ltac:(lia) Hlead) as [Hlow _]. replace (S (n - 1)) with n in Hlow by lia.
    assert (Bz ^ Z.of_nat (4 - u) ≤ Bz ^ Z.of_nat (n - 1)) by (apply Z.pow_le_mono_r; lia). lia. }
  set (m := (4 - n - u)%nat). replace (4 - Z.of_nat n - Z.of_nat u) with (Z.of_nat m) by lia.
  replace (4 - u)%nat with (m + n)%nat in Eu by lia.
  replace (Z.to_nat (4 - Z.of_nat m)) with (4 - m)%nat by lia.
  destruct (clear_q_ok (4 - m) q0) as (qs & -> & Hqs & Hlqs & Hzq & _); [done|lia|]. rewrite Ok_bind. cbv zeta.
  replace (Z.of_nat v + 1) with (Z.of_nat (v + 1)) by lia. replace (Z.of_nat v + 2) with (Z.of_nat (v + 2)) by lia.
  rewrite ld_total by lia. rewrite Ok_bind.
  pose proof (digit_at vs (v + 1) Hvs ltac:(lia)) as Hd1. unfold digit in Hd1. destruct (Hlead) as [_ Hnz].
  destruct (d1_loop_ok 16 (vs !!! (v + 1)%nat) 0) as (d & -> & Hd & Htop); [lia|change (2 ^ (Z.of_nat 16 - 1)) with 32768; change (Bz / 2) with 32768; lia|].
  rewrite Ok_bind, Z.add_0_l.
  assert (0 ≤ d < 16) as Hd16.
  { split; [done|]. destruct (Z.lt_ge_cases d 16) as [?|Hge]; [done|]. pose proof (Z.pow_le_mono_r 2 16 d ltac:(lia) Hge) as Hp.
    change (2 ^ 16) with Bz in Hp. nia. }
  assert (us !!! u = 0) as Huz by (destruct u; [done|apply Hleadu; lia]).
  replace (Z.of_nat m + Z.of_nat n) with (Z.of_nat (m + n)) by lia. replace (Z.of_nat n - 1) with (Z.of_nat (n - 1)) by lia.
  destruct (normalize_ok d u (m + n) us) as (us1 & -> & Hus1 & Hagu & Enu); [done|done|lia|rewrite Huz; lia|]. rewrite Ok_bind.
  destruct (normalize_ok d (v + 1) (n - 1) vs) as (vs1 & -> & Hvs1 & Hagv & Env); [done|done|lia|lia|]. rewrite Ok_bind.
  destruct (Hagu) as [Hlu1 Hagu']. destruct (Hagv) as [Hlv1 _].
  assert (num us u (m + n) = uq) as Enu0 by (unfold num; rewrite Huz; lia). rewrite Enu0 in Enu.
  assert (num vs (v + 1) (n - 1) = vq) as Env0 by (rewrite <- nval_num; replace (S (n - 1)) with n by lia; done). rewrite Env0 in Env.
  assert (nval vs1 v n = 2 ^ d * vq) as EV by (rewrite <- Env, <- nval_num; f_equal; lia).
  rewrite !ld_total by lia. rewrite !Ok_bind.
  assert (0 < 2 ^ d) as HD by (apply Z.pow_pos_nonneg; lia).
  assert (Bz / 2 ≤ vs1 !!! (v + 1)%nat) as Hnorm.
  { change (Bz / 2) with 32768 in *. unfold num in Env. pose proof (nval_bound vs1 (v + 1) (n - 1) Hvs1 ltac:(lia)).
    unfold num in Env0. pose proof (nval_bound vs (v + 1) (n - 1) Hvs ltac:(lia)).
    set (P := Bz ^ Z.of_nat (n - 1)) in *. assert (0 < P) by (apply Z.pow_pos_nonneg; lia).
    assert (32768 * P ≤ 2 ^ d * vq) by (rewrite <- Env0; nia).
    destruct (Z.le_gt_cases 32768 (vs1 !!! (v + 1)%nat)) as [|Hgt]; [done|]. nia. }
  assert (0 ≤ pre n us1 u < nval vs1 v n) as Hpre.
  { rewrite pre_num. replace (m + n)%nat with (n - 1 + (m + 1))%nat in Enu by lia. rewrite num_app in Enu.
    pose proof (nval_bound us1 (u + (n - 1)) (m + 1) Hus1 ltac:(lia)).
    pose proof (nval_bound us1 u (n - 1) Hus1 ltac:(lia)). pose proof (digit_at us1 u Hus1 ltac:(lia)) as Hdu. unfold digit in Hdu.
    assert (0 ≤ num us1 u (n - 1)) by (unfold num; pose proof (Z.pow_pos_nonneg Bz (Z.of_nat (n - 1))); nia).
    split; [done|]. set (P := Bz ^ Z.of_nat (m + 1)) in *. assert (0 < P) by (apply Z.pow_pos_nonneg; lia).
    pose proof (leading_bounds vs v (n - 1) Hvs ltac:(lia) Hlead) as [Hlow _]. replace (S (n - 1)) with n in Hlow by lia. rewrite Ev in Hlow.
    pose proof (nval_bound us u (m + n) Hus ltac:(lia)) as [_ Hup]. rewrite Eu in Hup.
    replace (m + n)%nat with (n - 1 + (m + 1))%nat in Hup by lia. rewrite Nat2Z.inj_add, Z.pow_add_r in Hup by lia. fold P in Hup.
    rewrite EV. set (L := Bz ^ Z.of_nat (n - 1)) in *.
    assert (num us1 u (n - 1) * P < (2 ^ d * vq) * P) as Hm; [|by apply Z.mul_lt_mono_pos_r in Hm].
    assert (2 ^ d * uq < 2 ^ d * (vq * P)); [|lia]. apply Z.mul_lt_mono_pos_l; [done|]. nia. }
  replace (4 - Z.of_nat m) with (Z.of_nat (4 - m)) by lia. replace (Z.to_nat (Z.max 1 (Z.of_nat m + 1))) with (m + 1)%nat by lia.
  pose proof (d_loop_ok n v vs1 Hn Hvs1 ltac:(lia) Hnorm (m + 1) u (4 - m) 0 us1 qs) as Hloop.
  change (Z.of_nat 0) with 0 in Hloop.
  destruct Hloop as
    (us2 & qs2 & -> & Hus2 & Hqs2 & Hagu2 & Hagq & Hz2 & HR & EQ); [done|done|lia|lia|lia|by rewrite Nat.add_0_r|].
  rewrite Ok_bind. cbv beta iota. rewrite !Nat.add_0_r in *. destruct (Hagu2) as [Hlu2 Hagu2']. destruct (Hagq) as [Hlq2 Hagq'].
  (* the equation of the division *)
  assert (2 ^ d * uq = nval qs2 (4 - m - 1) (m + 1) * (2 ^ d * vq) + pre n us2 (u + (m + 1))) as Ediv.
  { rewrite <- Enu, <- EV, <- EQ, pre_num. replace (m + n)%nat with (n - 1 + (m + 1))%nat by lia. rewrite num_app.
    by replace (u + n - 1)%nat with (u + (n - 1))%nat by lia. }
  set (Q := nval qs2 (4 - m - 1) (m + 1)) in *. set (R := pre n us2 (u + (m + 1))) in *. rewrite EV in HR.
  set (r := uq - Q * vq). assert (R = 2 ^ d * r) as ER by (unfold r; lia).
  assert (0 ≤ r < vq) as Hr by nia.
  assert (uq / vq = Q ∧ uq mod vq = r) as [-> ->].
  { split; symmetry; [apply (Z.div_unique uq vq Q r)|apply (Z.mod_unique uq vq Q r)]; unfold r in *; lia. }
  assert (quad_of qs2 = Ok Q) as Eq.
  { rewrite quad_of_ok by (done || congruence). f_equal. unfold Q. replace 4%nat with (4 - m - 1 + (m + 1))%nat at 1 by lia. rewrite nval_app.
    assert (∀ k, (k ≤ 4 - m - 1)%nat → nval qs2 0 k = 0) as H0.
    { induction k as [|k IH]; intros Hk; [done|]. cbn [nval]. rewrite IH, <- Hagq' by lia. rewrite Hzq by lia. done. }
    rewrite H0 by lia. rewrite Nat.add_0_l. lia. }
  destruct arq; [|by rewrite Ok_bind, Eq].
  rewrite (remainder_ok d n m u us2 r).
  - rewrite Ok_bind, Eq. done.
  - done.
  - done.
  - congruence.
  - lia.
  - lia.
  - intros i Hi. destruct (decide (i < u)%nat).
    + rewrite <- Hagu2', <- Hagu' by lia. apply Hleadu. lia.
    + apply Hz2. lia.
  - apply Hz2. lia.
  - rewrite <- ER. unfold R. replace (u + (m + 1))%nat with (u + m + 1)%nat by lia. apply (pre_next n v vs1 Hn); lia.
Qed.

Lemma qdivrem_ok v0 q0 uq vq arq :
  digit v0 → length q0 = 5%nat → all_digits q0 → 0 ≤ uq < 2 ^ 64 → 0 < vq < 2 ^ 64 →
  __qdivrem v0 q0 uq vq arq = Ok (uq / vq, if arq then Some (uq mod vq) else None).
Proof.
  intros Hv0 Hlq Hq0 Huq Hvq. unfold __qdivrem. destruct (Z.eqb_spec vq 0); [lia|].
  destruct (Z.ltb_spec uq vq); [rewrite Z.div_small, Z.mod_small by lia; done|]. cbv zeta.
  destruct (digits_of_ok v0 vq) as (Hvs & Hlv & _ & Ev); [done|lia|].
  destruct (skip_v_ok (digits_of v0 vq) Hlv) as [(v & Hv & Hlead & ->)|[Hlead ->]]; [lia|..].
  - rewrite Ok_bind. cbv beta iota. destruct (Z.eqb_spec (Z.of_nat (4 - v)) 1); [lia|].
    apply (long_division v0 q0 uq vq v (4 - v) arq); done || lia.
  - rewrite Ok_bind. cbv beta iota. change (1 =? 1) with true. cbv iota.
    destruct (digits_of_ok 0 uq) as (Hus & Hlu & _ & Eu); [done|lia|].
    rewrite (leading_nval _ 3) in Ev by (done || lia). cbn [nval Nat.sub] in Ev.
    change ((0 * Bz) + digits_of v0 vq !!! (3 + 1)%nat) with (digits_of v0 vq !!! 4%nat) in Ev.
    rewrite (short_division_ok _ _ uq) by (done || lia). rewrite Ev. done.
Qed.

(** C27: for every two quads __qdivrem() returns their quotient and, when asked,
    their remainder, whatever the uninitialised cells of its arrays hold; no
    array is accessed out of bounds and the loops end.  So do __udivdi3() and
    __umoddi3(), the functions the compiler calls.  Only a zero divisor
    faults. *)
Theorem qdivrem_divides v0 q0 uq vq :
  digit v0 → length q0 = 5%nat → all_digits q0 → 0 ≤ uq < 2 ^ 64 → 0 ≤ vq < 2 ^ 64 →
  if vq =? 0 then __qdivrem v0 q0 uq vq true = Err Fault
  else (∀ arq, __qdivrem v0 q0 uq vq arq = Ok (uq / vq, if arq then Some (uq mod vq) else None)) ∧
    __udivdi3 v0 q0 uq vq = Ok (uq / vq) ∧ __umoddi3 v0 q0 uq vq = Ok (uq mod vq).
Proof.
  intros ????? . destruct (Z.eqb_spec vq 0) as [->|]; [done|].
  assert (∀ arq, __qdivrem v0 q0 uq vq arq = Ok (uq / vq, if arq then Some (uq mod vq) else None)) as E.
  { intros arq. apply qdivrem_ok; done || lia. }
  split; [exact E|]. unfold __udivdi3, __umoddi3. by rewrite !E.
Qed.

(** The correction D6 and the shift of the remainder. *)
Lemma qdivrem_divides_witness :
  digit 7 ∧ __umoddi3 7 [1; 2; 3; 4; 5] 0x7fffffff00027fff 0xfffffffe7fff = Ok (0x7fffffff00027fff mod 0xfffffffe7fff).
Proof.
  split; [by unfold digit|]. apply (qdivrem_divides 7 [1; 2; 3; 4; 5] 0x7fffffff00027fff 0xfffffffe7fff).
  - by unfold digit.
  - done.
  - repeat constructor; unfold digit; lia.
  - lia.
  - lia.
Defined.
