(* ===== verification/Net.v ===== *)
(** * Network stack (kernel/net: if.c, if_ether.c, if_ethersubr.c, netinet/in.c,
    if_ether.c, if_ethersubr.c, ip_input.c, ip_output.c, ip_icmp.c,
    netinet6/ip6_input.c)

    One Ethernet interface: frames in, ARP, IPv4 and ICMP echo, frames out.  A
    packet is its mbuf ([Mbuf.mbuf]) with the bytes of its data area; a pointer
    into the packet is an offset from [m_data], and an access outside the data
    area is a fault.  The checksum is [Cksum.in_cksum].

    What the stack calls and does not define are oracles of the state: what
    malloc() returns next ([n_fresh], with what the memory held), what the driver's
    if_transmit returns next ([n_tx]: 0 when it takes the packet, which then is the
    driver's to free).  The memory outside the packets ([n_mem]) is part of the
    state, because ip_output writes a socket address into its route even when that
    is NULL: where no byte is mapped the access faults. *)

From S2P Require Import Prelude Freelist FreelistInv FreelistSpec FreelistHeap FreelistProofs FreelistFree FreelistSetup FreelistTheorems Callout Kernel KernelTheorems Malloc MallocTheorems Mbuf Cksum Memory.
Local Open Scope Z_scope.

(** ** Constants *)

Definition ETHER_HDR_LEN : Z := 14.
Definition ETHER_ADDR_LEN : Z := 6.
Definition ETHERTYPE_IP : Z := 0x0800.
Definition ETHERTYPE_ARP : Z := 0x0806.
Definition ETHERTYPE_REVARP : Z := 0x8035.
Definition ETHERTYPE_IPV6 : Z := 0x86dd.
Definition ARPHRD_ETHER : Z := 1.
Definition ARPOP_REQUEST : Z := 1.
Definition ARPOP_REPLY : Z := 2.
Definition ARPOP_REVREQUEST : Z := 3.
Definition ARPOP_REVREPLY : Z := 4.
Definition AF_INET : Z := 2.
Definition AF_INET6 : Z := 28.
Definition AF_ARP : Z := 35.
Definition IFT_ETHER : Z := 6.
Definition ETHERMTU : Z := 1518 - 14 - 4.
Definition IFENCAP_LL : Z := 1.
Definition IFENCAP_FLAG_BROADCAST : Z := 2.
Definition LLE_MAX_LINKHDR : Z := 24.
Definition IPPROTO_ICMP : Z := 1.
Definition ICMP_ECHOREPLY : Z := 0.
Definition ICMP_ECHO : Z := 8.
Definition M_BCAST : Z := 16.
Definition MDX_OK : Z := 0.
Definition MDX_ERROR : Z := -1.
Definition ENOMEM : Z := 12.

(** Error numbers that the tree does not define; POSIX makes them positive. *)
Class Errno := {
  EOPNOTSUPP : Z;
  EAFNOSUPPORT : Z;
  EWOULDBLOCK : Z;
  errno_pos : 0 < EOPNOTSUPP ∧ 0 < EAFNOSUPPORT ∧ 0 < EWOULDBLOCK
}.

(** ** Bytes *)

(** Numbers in network order; addresses as the words the code compares. *)
Definition htons (v : Z) : list Z := [v / 256; v mod 256].
Definition ntohs (l : list Z) : Z := match l with [a; b] => a * 256 + b | _ => 0 end.
Definition le (l : list Z) : Z := foldr (λ b v, b + 256 * v) 0 l.
Fixpoint le_bytes (n : nat) (v : Z) : list Z :=
  match n with O => [] | S n => v mod 256 :: le_bytes n (v / 256) end.

Definition slice (o n : Z) (l : list Z) : list Z := take (Z.to_nat n) (drop (Z.to_nat o) l).
Definition patch (o : Z) (bs l : list Z) : list Z :=
  take (Z.to_nat o) l ++ bs ++ drop (Z.to_nat o + length bs) l.

(** A packet: its mbuf and the bytes at [m_data0]. *)
Record pkt := { pk_mb : mbuf; pk_bytes : list Z }.

Definition with_mb (mb : mbuf) (p : pkt) : pkt := {| pk_mb := mb; pk_bytes := pk_bytes p |}.

Definition offset (p : pkt) : Z := m_data (pk_mb p) - m_data0 (pk_mb p).

(** [n] bytes at [mtod(m) + i]; writing [bs] there. *)
Definition get (p : pkt) (i n : Z) : res (list Z) :=
  let o := offset p + i in
  if (0 <=? o) && (o + n <=? Z.of_nat (length (pk_bytes p))) then Ok (slice o n (pk_bytes p))
  else Err Fault.

Definition put (i : Z) (bs : list Z) (p : pkt) : res pkt :=
  let o := offset p + i in
  if (0 <=? o) && (o + Z.of_nat (length bs) <=? Z.of_nat (length (pk_bytes p))) then
    Ok {| pk_mb := pk_mb p; pk_bytes := patch o bs (pk_bytes p) |}
  else Err Fault.

Definition get8 (p : pkt) (i : Z) : res Z := l ← get p i 1; Ok (default 0 (head l)).
Definition get16 (p : pkt) (i : Z) : res Z := l ← get p i 2; Ok (ntohs l).

(** ** The state *)

(** struct llentry *)
Record llentry := { r_linkdata : list Z; r_hdrlen : Z; addr4 : Z }.
(** struct in_ifaddr *)
Record in_ifaddr := { sa_family : Z; ia_addr : Z; ia_mask : Z }.
(** struct ifnet; its if_output, if_input and if_requestencap are the Ethernet
    functions below. *)
Record ifnet := {
  if_type : Z;
  if_addrlen : Z;
  if_hdrlen : Z;
  if_mtu : Z;
  if_hw_addr : list Z;
  if_broadcastaddr : list Z;
  if_addrhead : list in_ifaddr;
  lle_head : list llentry
}.

(** What a call of malloc() for an mbuf returns: the mbuf and its data area (NULL
    when there is none), and what they held. *)
Record fresh := { f_m : Z; f_data : Z; f_junk : mbuf; f_bytes : list Z }.

Record net := {
  n_if : ifnet;
  n_pkts : gmap Z pkt;
  n_fresh : list fresh;
  n_tx : list Z;
  n_sent : list (list Z * list Z);   (** the mbufs and the bytes of each frame *)
  n_mem : mem_t   (** the memory outside the packets *)
}.

Definition set_if (i : ifnet) (s : net) : net :=
  {| n_if := i; n_pkts := n_pkts s; n_fresh := n_fresh s; n_tx := n_tx s; n_sent := n_sent s; n_mem := n_mem s |}.
Definition set_pkts (ps : gmap Z pkt) (s : net) : net :=
  {| n_if := n_if s; n_pkts := ps; n_fresh := n_fresh s; n_tx := n_tx s; n_sent := n_sent s; n_mem := n_mem s |}.
Definition set_pkt (m : Z) (p : pkt) (s : net) : net := set_pkts (<[m := p]> (n_pkts s)) s.
Definition set_fresh (fs : list fresh) (s : net) : net :=
  {| n_if := n_if s; n_pkts := n_pkts s; n_fresh := fs; n_tx := n_tx s; n_sent := n_sent s; n_mem := n_mem s |}.
Definition set_lle (es : list llentry) (i : ifnet) : ifnet :=
  {| if_type := if_type i; if_addrlen := if_addrlen i; if_hdrlen := if_hdrlen i; if_mtu := if_mtu i;
     if_hw_addr := if_hw_addr i; if_broadcastaddr := if_broadcastaddr i; if_addrhead := if_addrhead i;
     lle_head := es |}.
Definition set_addrs (l : list in_ifaddr) (i : ifnet) : ifnet :=
  {| if_type := if_type i; if_addrlen := if_addrlen i; if_hdrlen := if_hdrlen i; if_mtu := if_mtu i;
     if_hw_addr := if_hw_addr i; if_broadcastaddr := if_broadcastaddr i; if_addrhead := l;
     lle_head := lle_head i |}.

Definition set_mem (m : mem_t) (s : net) : net :=
  {| n_if := n_if s; n_pkts := n_pkts s; n_fresh := n_fresh s; n_tx := n_tx s; n_sent := n_sent s; n_mem := m |}.

(** m_alloc() as its callers see it: see [Mbuf.m_alloc]. *)
Definition m_alloc (size : Z) (s : net) : res (Z * net) :=
  match n_fresh s with
  | [] => Ok (0, s)
  | f :: fs =>
    let s := set_fresh fs s in
    if f_m f =? 0 then Ok (0, s) else
    let mb := {| m_next := 0; m_len := u32 size; m_type := m_type (f_junk f); m_flags := m_flags (f_junk f);
                 m_data := f_data f; m_data0 := f_data f |} in
    Ok (f_m f, set_pkt (f_m f) {| pk_mb := mb; pk_bytes := take (Z.to_nat size) (f_bytes f) |} s)
  end.

Definition m_free (m : Z) (s : net) : res net :=
  _ ← load (n_pkts s) m;
  Ok (set_pkts (delete m (n_pkts s)) s).

Definition adj (size : Z) (p : pkt) : pkt := with_mb (m_adj size (pk_mb p)) p.

Definition next_to (m : Z) (mb : mbuf) : mbuf :=
  {| m_next := m; m_len := m_len mb; m_type := m_type mb; m_flags := m_flags mb; m_data := m_data mb;
     m_data0 := m_data0 mb |}.
Definition flagged (f : Z) (mb : mbuf) : mbuf :=
  {| m_next := m_next mb; m_len := m_len mb; m_type := m_type mb; m_flags := Z.lor (m_flags mb) f;
     m_data := m_data mb; m_data0 := m_data0 mb |}.

(** The packets linked from [m]. *)
Fixpoint chain (fuel : nat) (m : Z) (ps : gmap Z pkt) : res (list (Z * pkt)) :=
  if m =? 0 then Ok [] else
  match fuel with
  | O => Err NoFuel
  | S fuel =>
    p ← load ps m;
    r ← chain fuel (m_next (pk_mb p)) ps;
    Ok ((m, p) :: r)
  end.

Definition data_of (p : pkt) : res (list Z) := get p 0 (m_len (pk_mb p)).

(** The bytes of a chain. *)
Fixpoint wire (l : list (Z * pkt)) : res (list Z) :=
  match l with
  | [] => Ok []
  | (_, p) :: l => d ← data_of p; r ← wire l; Ok (d ++ r)
  end.

(** The driver's if_transmit. *)
Definition if_transmit (m0 : Z) (s : net) : res (Z * net) :=
  let r := default 0 (head (n_tx s)) in
  if negb (r =? 0) then
    Ok (r, {| n_if := n_if s; n_pkts := n_pkts s; n_fresh := n_fresh s; n_tx := tail (n_tx s);
              n_sent := n_sent s; n_mem := n_mem s |})
  else
    ms ← chain (S (size (n_pkts s))) m0 (n_pkts s);
    bs ← wire ms;
    Ok (0, {| n_if := n_if s; n_pkts := foldr delete (n_pkts s) ms.*1; n_fresh := n_fresh s;
              n_tx := tail (n_tx s); n_sent := n_sent s ++ [(ms.*1, bs)]; n_mem := n_mem s |}).

(** in_cksum() of a chain. *)
Fixpoint chunks (l : list (Z * pkt)) : res (list chunk) :=
  match l with
  | [] => Ok []
  | (_, p) :: l =>
    d ← data_of p; r ← chunks l;
    Ok ({| ck_addr := m_data (pk_mb p); ck_data := d |} :: r)
  end.

Definition cksum_of (m len : Z) (ps : gmap Z pkt) : res Z :=
  ms ← chain (S (size ps)) m ps;
  cs ← chunks ms;
  in_cksum cs len.

(** ** Interfaces: if.c, in.c *)

(** if_alloc: what it does not set is what malloc's memory held. *)
Definition if_alloc (junk : ifnet) (type : Z) : ifnet :=
  {| if_type := type; if_addrlen := if_addrlen junk; if_hdrlen := if_hdrlen junk; if_mtu := if_mtu junk;
     if_hw_addr := if_hw_addr junk; if_broadcastaddr := if_broadcastaddr junk; if_addrhead := [];
     lle_head := [] |}.

Definition ether_ifattach (hwaddr : list Z) (i : ifnet) : Z * ifnet :=
  (MDX_OK,
   {| if_type := if_type i; if_addrlen := ETHER_ADDR_LEN; if_hdrlen := ETHER_HDR_LEN; if_mtu := ETHERMTU;
      if_hw_addr := take (Z.to_nat ETHER_ADDR_LEN) hwaddr; if_broadcastaddr := replicate 6 0xff;
      if_addrhead := if_addrhead i; lle_head := lle_head i |}).

(** [g_ifnet] is the list of attached interfaces. *)
Definition if_attach (hwaddr : list Z) (i : ifnet) (g_ifnet : list ifnet) : Z * ifnet * list ifnet :=
  let '(ret, i) := if if_type i =? IFT_ETHER then ether_ifattach hwaddr i else (-1, i) in
  (ret, i, if ret =? 0 then g_ifnet ++ [i] else g_ifnet).

Definition in_ifhasaddr (i : ifnet) (a : Z) : bool := existsb (λ ia, ia_addr ia =? a) (if_addrhead i).

Definition in_aifaddr (a mask : Z) (i : ifnet) : Z * ifnet :=
  if in_ifhasaddr i a then (MDX_ERROR, i) else
  (MDX_OK, set_addrs (if_addrhead i ++ [{| sa_family := AF_INET; ia_addr := a; ia_mask := mask |}]) i).

Section Model.
Context `{Arch} `{Errno}.

(** ** Link-layer headers: if_ethersubr.c *)

(** struct if_encap_req; [er_hdata] is the ARP packet that hdata points to. *)
Record encap := {
  er_bufsize : Z;
  er_rtype : Z;
  er_flags : Z;
  er_family : Z;
  er_lladdr : list Z;
  er_hdata : option pkt
}.

Definition etype_of (req : encap) : res (option Z * option pkt) :=
  if er_family req =? AF_INET then Ok (Some ETHERTYPE_IP, er_hdata req) else
  if er_family req =? AF_INET6 then Ok (Some ETHERTYPE_IPV6, er_hdata req) else
  if er_family req =? AF_ARP then
    match er_hdata req with
    | None => Err Fault
    | Some ah =>
      ah ← put 0 (htons ARPHRD_ETHER) ah;
      op ← get16 ah 6;
      Ok (Some (if (op =? ARPOP_REVREQUEST) || (op =? ARPOP_REVREPLY) then ETHERTYPE_REVARP
                else ETHERTYPE_ARP), Some ah)
    end
  else Ok (None, er_hdata req).

(** The error, the header in the buffer, and the request with the new bufsize. *)
Definition ether_requestencap (i : ifnet) (buf : list Z) (req : encap) : res (Z * list Z * Z * option pkt) :=
  if negb (er_rtype req =? IFENCAP_LL) then Ok (EOPNOTSUPP, buf, er_bufsize req, er_hdata req) else
  if er_bufsize req <? ETHER_HDR_LEN then Ok (ENOMEM, buf, er_bufsize req, er_hdata req) else
  '(etype, ah) ← etype_of req;
  match etype with
  | None => Ok (EAFNOSUPPORT, buf, er_bufsize req, ah)
  | Some etype =>
    let lladdr :=
      if (er_family req =? AF_ARP) && negb (Z.land (er_flags req) IFENCAP_FLAG_BROADCAST =? 0)
      then if_broadcastaddr i else er_lladdr req in
    Ok (0, take 6 lladdr ++ take 6 (if_hw_addr i) ++ htons etype ++ drop 14 buf, ETHER_HDR_LEN, ah)
  end.

(** The offsets of ar_sha, ar_spa, ar_tha and ar_tpa. *)
Definition ar_sha : Z := 8.
Definition ar_spa (ah : pkt) : res Z := h ← get8 ah 4; Ok (8 + h).
Definition ar_tha (ah : pkt) : res Z := h ← get8 ah 4; p ← get8 ah 5; Ok (8 + h + p).
Definition ar_tpa (ah : pkt) : res Z := h ← get8 ah 4; p ← get8 ah 5; Ok (8 + 2 * h + p).

(** arp_fillheader: the error, the header, its length and the ARP packet. *)
Definition arp_fillheader (i : ifnet) (ah : pkt) (bcast : bool) (bufsize : Z) : res (Z * list Z * Z * pkt) :=
  t ← ar_tha ah;
  tha ← get ah t ETHER_ADDR_LEN;
  '(error, buf, size, ah') ← ether_requestencap i (replicate (Z.to_nat bufsize) 0)
    {| er_bufsize := bufsize; er_rtype := IFENCAP_LL;
       er_flags := if bcast then IFENCAP_FLAG_BROADCAST else 0; er_family := AF_ARP; er_lladdr := tha;
       er_hdata := Some ah |};
  Ok (error, buf, (if error =? 0 then size else bufsize), default ah ah').

(** ** Output: if_ether.c *)

(** ether_output, once it has the header [phdr]. *)
Definition ether_send (m : Z) (phdr : list Z) (s : net) : res (Z * net) :=
  p ← load (n_pkts s) m;
  '(m0, s) ←
    (if ETHER_HDR_LEN <=? offset p then
       Ok (m, set_pkt m (with_mb (next_to 0 (m_adj (- ETHER_HDR_LEN) (pk_mb p))) p) s)
     else
       '(m0, s) ← m_alloc ETHER_HDR_LEN s;
       p0 ← load (n_pkts s) m0;
       Ok (m0, set_pkt m0 (with_mb (next_to m (pk_mb p0)) p0) s));
  p0 ← load (n_pkts s) m0;
  if Z.of_nat (length phdr) <? ETHER_HDR_LEN then Err Fault else
  p0 ← put 0 (take (Z.to_nat ETHER_HDR_LEN) phdr) p0;
  if_transmit m0 (set_pkt m0 p0 s).

(** ** ARP: netinet/if_ethersubr.c, netinet/if_ether.c *)

(** The source address: the last one, or the first on the target's network. *)
Fixpoint pick_sip (l : list in_ifaddr) (tip : Z) (sip : option Z) : option Z :=
  match l with
  | [] => sip
  | ia :: l =>
    if negb (sa_family ia =? AF_INET) then pick_sip l tip sip else
    if Z.land (Z.lxor (ia_addr ia) tip) (ia_mask ia) =? 0 then Some (ia_addr ia)
    else pick_sip l tip (Some (ia_addr ia))
  end.

(** arprequest; if_output is [ether_send] because ro_prepend is not NULL. *)
Definition arprequest (sip : option Z) (tip : Z) (enaddr : option (list Z)) (s : net) : res net :=
  let i := n_if s in
  match (match sip with Some a => Some a | None => pick_sip (if_addrhead i) tip None end) with
  | None => Ok s
  | Some sip =>
    let enaddr := default (if_hw_addr i) enaddr in
    let len := 8 + 2 * 4 + 2 * if_addrlen i in
    '(m, s) ← m_alloc len s;
    if m =? 0 then Ok s else
    p ← load (n_pkts s) m;
    ah ← put 0 (replicate (Z.to_nat len) 0) p;
    ah ← put 2 (htons ETHERTYPE_IP) ah;
    ah ← put 4 [if_addrlen i] ah;
    ah ← put 5 [4] ah;
    ah ← put 6 (htons ARPOP_REQUEST) ah;
    ah ← put ar_sha (take (Z.to_nat (if_addrlen i)) enaddr) ah;
    spa ← ar_spa ah;
    ah ← put spa (le_bytes 4 sip) ah;
    tpa ← ar_tpa ah;
    ah ← put tpa (le_bytes 4 tip) ah;
    '(error, linkhdr, plen, ah) ← arp_fillheader i ah true LLE_MAX_LINKHDR;
    let s := set_pkt m ah s in
    if negb (error =? 0) && negb (error =? EAFNOSUPPORT) then Ok s else
    '(_, s) ← ether_send m linkhdr (set_pkt m (with_mb (flagged M_BCAST (pk_mb ah)) ah) s);
    Ok s
  end.

(** The table lookup of arpresolve: the header, or the error. *)
Definition arp_lookup (es : list llentry) (a : Z) : option llentry := list_find (λ e, addr4 e = a) es ≫= λ r, Some r.2.

Definition arpresolve (dst : Z) (s : net) : res (Z * list Z * net) :=
  match arp_lookup (lle_head (n_if s)) dst with
  | Some e =>
    (* a longer header would overrun the caller's array *)
    if ETHER_HDR_LEN <? r_hdrlen e then Err Fault else
    Ok (MDX_OK, take (Z.to_nat (r_hdrlen e)) (r_linkdata e), s)
  | None =>
    s ← arprequest None dst None s;
    Ok (MDX_ERROR, [], s)
  end.

(** ether_resolve_addr for a destination of family [fam]. *)
Definition ether_resolve_addr (fam dst : Z) (s : net) : res (Z * list Z * net) :=
  if fam =? AF_INET then arpresolve dst s else Ok (-1, [], s).

(** struct route: ro_prepend. *)
Definition ether_output (m fam dst : Z) (ro : option (option (list Z))) (s : net) : res (Z * net) :=
  match mjoin ro with
  | Some phdr => ether_send m phdr s
  | None =>
    '(error, phdr, s) ← ether_resolve_addr fam dst s;
    if negb (error =? 0) then Ok ((if error =? EWOULDBLOCK then 0 else error), s)
    else ether_send m phdr s
  end.

(** arp_addentry; malloc() is not checked. *)
Definition arp_addentry (sha spa : list Z) (s : net) : res net :=
  '(error, linkhdr, size, _) ← ether_requestencap (n_if s) (replicate (Z.to_nat LLE_MAX_LINKHDR) 0)
    {| er_bufsize := LLE_MAX_LINKHDR; er_rtype := IFENCAP_LL; er_flags := 0; er_family := AF_INET;
       er_lladdr := sha; er_hdata := None |};
  let linkhdrsize := if error =? 0 then size else LLE_MAX_LINKHDR in
  match n_fresh s with
  | f :: fs =>
    if f_m f =? 0 then Err Fault else
    let e := {| r_linkdata := linkhdr; r_hdrlen := linkhdrsize; addr4 := le spa |} in
    Ok (set_if (set_lle (e :: lle_head (n_if s)) (n_if s)) (set_fresh fs s))
  | [] => Err Fault
  end.

(** arp_reply: an answer from another host. *)
Definition arp_reply (m : Z) (s : net) : res net :=
  ah ← load (n_pkts s) m;
  o ← ar_spa ah; spa ← get ah o 4;
  o ← ar_tpa ah; tpa ← get ah o 4;
  if negb (in_ifhasaddr (n_if s) (le tpa)) then Ok s else
  match arp_lookup (lle_head (n_if s)) (le spa) with
  | Some _ => Ok s
  | None => sha ← get ah ar_sha 6; arp_addentry sha spa s
  end.

(** The fields of the answer [ah2] to the request [ah]. *)
Definition reply_fields (hwaddr : list Z) (ah ah2 : pkt) : res pkt :=
  ah2 ← put 6 (htons ARPOP_REPLY) ah2;
  ah2 ← put 0 (htons ARPHRD_ETHER) ah2;
  ah2 ← put 2 (htons ETHERTYPE_IP) ah2;
  ah2 ← put 4 [ETHER_ADDR_LEN] ah2;
  ah2 ← put 5 [4] ah2;
  hln ← get8 ah 4;
  pln ← get8 ah 5;
  ah2 ← put ar_sha (take (Z.to_nat hln) hwaddr) ah2;
  o ← ar_tha ah2; b ← get ah ar_sha hln; ah2 ← put o b ah2;
  o ← ar_spa ah2; o' ← ar_tpa ah; b ← get ah o' pln; ah2 ← put o b ah2;
  o ← ar_tpa ah2; o' ← ar_spa ah; b ← get ah o' pln; put o b ah2.

Definition arp_reply_to_request (m : Z) (s : net) : res net :=
  ah ← load (n_pkts s) m;
  o ← ar_spa ah; spa ← get ah o 4;
  o ← ar_tpa ah; tpa ← get ah o 4;
  if negb (in_ifhasaddr (n_if s) (le tpa)) then Ok s else
  '(m1, s) ← m_alloc 28 s;
  if m1 =? 0 then Ok s else
  ah2 ← load (n_pkts s) m1;
  ah2 ← reply_fields (if_hw_addr (n_if s)) ah ah2;
  '(_, linkhdr, _, ah2) ← arp_fillheader (n_if s) ah2 false LLE_MAX_LINKHDR;
  '(_, s) ← ether_output m1 AF_ARP 0 (Some (Some linkhdr)) (set_pkt m1 ah2 s);
  Ok s.

Definition arp_input (m : Z) (s : net) : res net :=
  p ← load (n_pkts s) m;
  let ah := adj ETHER_HDR_LEN p in
  let s := set_pkt m ah s in
  op ← get16 ah 6;
  hrd ← get16 ah 0;
  if negb (hrd =? ARPHRD_ETHER) then Ok s else
  pro ← get16 ah 2;
  if negb (pro =? ETHERTYPE_IP) then Ok s else
  hln ← get8 ah 4;
  if negb (hln =? ETHER_ADDR_LEN) then Ok s else
  pln ← get8 ah 5;
  if negb (pln =? 4) then Ok s else
  if op =? ARPOP_REQUEST then arp_reply_to_request m s
  else if op =? ARPOP_REPLY then arp_reply m s
  else Ok s.

(** ** IPv4 *)

(** The header length: [ip_hl << 2]. *)
Definition ip_hlen (p : pkt) : res Z := b ← get8 p 0; Ok (Z.shiftl (Z.land b 15) 2).

(** The offset of ro_dst in struct route, behind a pointer and two half words. *)
Definition ro_dst : Z := PTR_W / 8 + 4.
Definition SOCKADDR_IN_LEN : Z := 16.

(** Consecutive bytes of memory. *)
Fixpoint store_list (a : Z) (bs : list Z) (m : mem_t) : res mem_t :=
  match bs with
  | [] => Ok m
  | b :: bs => m ← store a b m; store_list (a + 1) bs m
  end.

(** ip_output; [ro] is the address of the route, whose ro_dst is cleared and set
    (family, length, address) before the test for NULL; nothing is read from the
    route on the stack that replaces it. *)
Definition ip_output (m ro : Z) (s : net) : res (Z * net) :=
  ip ← load (n_pkts s) m;
  let dst := ro + ro_dst in
  mem ← store_list dst (replicate (Z.to_nat SOCKADDR_IN_LEN) 0) (n_mem s);
  mem ← store_list (dst + 1) [AF_INET] mem;
  mem ← store_list dst [SOCKADDR_IN_LEN] mem;
  ip_dst ← get ip 16 4;
  mem ← store_list (dst + 4) ip_dst mem;
  let s := set_mem mem s in
  ip ← put 10 [0; 0] ip;
  hlen ← ip_hlen ip;
  let s := set_pkt m ip s in
  sum ← cksum_of m hlen (n_pkts s);
  ip ← put 10 (le_bytes 2 sum) ip;
  ether_output m AF_INET (le ip_dst) None (set_pkt m ip s).

(** [m->m_len -= hlen; m->m_data += hlen]. *)
Definition forward (hlen : Z) (p : pkt) : pkt :=
  with_mb (m_set_data (m_data (pk_mb p) + hlen) (u32 (m_len (pk_mb p) - hlen)) (pk_mb p)) p.
Definition backward (hlen : Z) (p : pkt) : pkt :=
  with_mb (m_set_data (m_data (pk_mb p) - hlen) (u32 (m_len (pk_mb p) + hlen)) (pk_mb p)) p.

Definition echo_reply (m hlen icmplen : Z) (s : net) : res net :=
  ip ← load (n_pkts s) m;
  t ← get ip 16 4;
  src ← get ip 12 4;
  ip ← put 16 src ip;
  ip ← put 12 t ip;
  let p := forward hlen ip in
  p ← put 0 [ICMP_ECHOREPLY] p;
  p ← put 2 [0; 0] p;
  sum ← cksum_of m icmplen (n_pkts (set_pkt m p s));
  p ← put 2 (le_bytes 2 sum) p;
  '(error, s) ← ip_output m 0 (set_pkt m (backward hlen p) s);
  if negb (error =? 0) then m_free m s else Ok s.

Definition icmp_input (hlen m : Z) (s : net) : res net :=
  ip ← load (n_pkts s) m;
  iplen ← get16 ip 2;
  iphlen ← ip_hlen ip;
  let p := forward hlen ip in
  let s := set_pkt m p s in
  let icmplen := iplen - iphlen in
  sum ← cksum_of m icmplen (n_pkts s);
  if negb (sum =? 0) then m_free m s else
  type ← get8 p 0;
  let s := set_pkt m (backward hlen p) s in
  if type =? ICMP_ECHO then echo_reply m hlen icmplen s else m_free m s.

Definition ip_input (m : Z) (s : net) : res net :=
  p ← load (n_pkts s) m;
  let hdr := adj ETHER_HDR_LEN p in
  let s := set_pkt m hdr s in
  iphlen ← ip_hlen hdr;
  proto ← get8 hdr 9;
  if proto =? IPPROTO_ICMP then icmp_input iphlen m s else m_free m s.

(** ip6_input prints the next header, and that is all it does. *)
Definition ip6_input (m : Z) (s : net) : res net :=
  p ← load (n_pkts s) m;
  let ip6 := adj ETHER_HDR_LEN p in
  _ ← get8 ip6 6;
  Ok (set_pkt m ip6 s).

(** ** Input: if_ether.c, if.c *)

Definition ether_input (m : Z) (s : net) : res net :=
  eh ← load (n_pkts s) m;
  type ← get16 eh 12;
  if type =? ETHERTYPE_ARP then s ← arp_input m s; m_free m s
  else if type =? ETHERTYPE_IP then ip_input m s
  else if type =? ETHERTYPE_IPV6 then ip6_input m s
  else m_free m s.

Definition if_input (m : Z) (s : net) : res net := ether_input m s.
End Model.
