(* ===== verification/NetProofs.v ===== *)
(** * Network stack: packets, transmission and ownership

    [view p k l]: the data area of [p] holds [l], and [m_data] points [k] bytes
    into it.  Moving [m_data] changes [k] only; reads and writes of the packet are
    slices and patches of [l]. *)

From S2P Require Import Prelude Freelist FreelistInv FreelistSpec FreelistHeap FreelistProofs FreelistFree FreelistSetup FreelistTheorems Callout Kernel KernelTheorems Malloc MallocTheorems Mbuf Cksum CksumTheorems Net.
Local Open Scope Z_scope.

(** ** Slices and patches *)

Abbreviation zlen l := (Z.of_nat (length l)).

Lemma slice_length o n l : 0 ≤ o → 0 ≤ n → o + n ≤ zlen l → zlen (slice o n l) = n.
Proof. intros. unfold slice. rewrite length_take, length_drop. lia. Qed.

Lemma slice_app_l o n (l k : list Z) : 0 ≤ o → 0 ≤ n → o + n ≤ zlen l → slice o n (l ++ k) = slice o n l.
Proof.
  intros. unfold slice. rewrite drop_app_le by lia. rewrite take_app_le; [done|]. rewrite length_drop. lia.
Qed.

Lemma slice_app_r o n (l k : list Z) : zlen l ≤ o → slice o n (l ++ k) = slice (o - zlen l) n k.
Proof.
  intros. unfold slice. rewrite drop_app_ge by lia. by replace (Z.to_nat (o - zlen l)) with (Z.to_nat o - length l)%nat by lia.
Qed.

Lemma slice_slice o n i k (l : list Z) :
  0 ≤ o → 0 ≤ i → i + k ≤ n → slice i k (slice o n l) = slice (o + i) k l.
Proof.
  intros. unfold slice. rewrite skipn_firstn_comm, drop_drop, take_take.
  f_equal; [lia|f_equal; lia].
Qed.

Lemma slice_0 (l : list Z) n : zlen l ≤ n → slice 0 n l = l.
Proof. intros. unfold slice. rewrite drop_0, take_ge; [done|lia]. Qed.

Lemma patch_app (pre l post bs : list Z) i :
  0 ≤ i → i + zlen bs ≤ zlen l →
  patch (zlen pre + i) bs (pre ++ l ++ post) = pre ++ patch i bs l ++ post.
Proof.
  intros. unfold patch. replace (Z.to_nat (zlen pre + i)) with (length pre + Z.to_nat i)%nat by lia.
  rewrite take_app_add, <- Nat.add_assoc, drop_app_add.
  rewrite take_app_le by lia. rewrite drop_app_le by lia. by rewrite <- !app_assoc.
Qed.

Lemma patch_length o bs l : 0 ≤ o → o + zlen bs ≤ zlen l → length (patch o bs l) = length l.
Proof. intros. unfold patch. rewrite !length_app, length_take, length_drop. lia. Qed.

(** A slice of patched data: the patch itself, or what it does not touch. *)
Lemma slice_patch_same o bs l : 0 ≤ o → o + zlen bs ≤ zlen l → slice o (zlen bs) (patch o bs l) = bs.
Proof.
  intros. unfold patch. rewrite slice_app_r by (rewrite length_take; lia).
  rewrite slice_app_l by (rewrite ?length_take; lia). rewrite length_take.
  replace (o - _) with 0 by lia. by apply slice_0.
Qed.

Lemma slice_patch_after o bs l i n :
  0 ≤ o → o + zlen bs ≤ i → o + zlen bs ≤ zlen l → slice i n (patch o bs l) = slice i n l.
Proof.
  intros. unfold patch. rewrite slice_app_r by (rewrite length_take; lia).
  rewrite slice_app_r by (rewrite length_take; lia). rewrite length_take.
  unfold slice. rewrite drop_drop. do 2 f_equal. lia.
Qed.

Lemma slice_patch_before o bs l i n :
  0 ≤ i → 0 ≤ n → i + n ≤ o → o + zlen bs ≤ zlen l → slice i n (patch o bs l) = slice i n l.
Proof.
  intros. unfold patch. rewrite slice_app_l by (rewrite ?length_take; lia).
  unfold slice. rewrite skipn_firstn_comm, take_take. f_equal. lia.
Qed.

(** ** Views *)

Definition view (p : pkt) (k : Z) (l : list Z) : Prop :=
  ∃ pre post, pk_bytes p = pre ++ l ++ post ∧ zlen pre + k = offset p.

Lemma get_view p k l i n :
  view p k l → 0 ≤ k + i → 0 ≤ n → k + i + n ≤ zlen l → get p i n = Ok (slice (k + i) n l).
Proof.
  intros (pre & post & E & Ho) Hi Hn Hl. unfold get. rewrite <- Ho, E, !length_app.
  replace (_ && _) with true by (zcase; simpl; lia). f_equal.
  rewrite slice_app_r by lia. rewrite slice_app_l by lia. f_equal. lia.
Qed.

Lemma put_view p k l i bs :
  view p k l → 0 ≤ k + i → k + i + zlen bs ≤ zlen l →
  ∃ p', put i bs p = Ok p' ∧ pk_mb p' = pk_mb p ∧ view p' k (patch (k + i) bs l).
Proof.
  intros (pre & post & E & Ho) Hi Hl. unfold put. rewrite <- Ho, E, !length_app.
  replace (_ && _) with true by (zcase; simpl; lia). eexists. split; [done|]. split; [done|].
  exists pre, post. split; [|exact Ho]. cbn [pk_bytes].
  replace (zlen pre + k + i) with (zlen pre + (k + i)) by lia. by apply patch_app.
Qed.

Lemma get8_view p k l i b :
  view p k l → 0 ≤ k + i → k + i < zlen l → slice (k + i) 1 l = [b] → get8 p i = Ok b.
Proof. intros Hv ?? E. unfold get8. rewrite (get_view p k l i 1 Hv), Ok_bind by lia. by rewrite E. Qed.

Lemma get16_view p k l i a b :
  view p k l → 0 ≤ k + i → k + i + 2 ≤ zlen l → slice (k + i) 2 l = [a; b] → get16 p i = Ok (a * 256 + b).
Proof. intros Hv ?? E. unfold get16. rewrite (get_view p k l i 2 Hv), Ok_bind by lia. by rewrite E. Qed.

(** Moving [m_data]. *)
Lemma view_move p k l mb d :
  view p k l → m_data mb - m_data0 mb = offset p + d → view (with_mb mb p) (k + d) l.
Proof. intros (pre & post & E & Ho) Hd. exists pre, post. split; [done|]. unfold offset in *. simpl. lia. Qed.

Lemma view_mb p k l mb : view p k l → m_data mb - m_data0 mb = offset p → view (with_mb mb p) k l.
Proof. intros Hv Hd. rewrite <- (Z.add_0_r k). eapply view_move; [done|lia]. Qed.

Lemma view_adj p k l n :
  view p k l → 0 < n < m_len (pk_mb p) → m_len (pk_mb p) < 2 ^ 32 →
  view (adj n p) (k + n) l ∧ m_len (pk_mb (adj n p)) = m_len (pk_mb p) - n ∧
  m_next (pk_mb (adj n p)) = m_next (pk_mb p).
Proof.
  intros Hv Hn Hl. unfold adj, m_adj. destruct (Z.ltb_spec 0 n); [|lia].
  destruct (Z.ltb_spec n (m_len (pk_mb p))); [|lia]. split; [|split].
  - eapply view_move; [done|]. unfold offset. simpl. lia.
  - simpl. apply wrap_small. lia.
  - done.
Qed.

Lemma view_front p k l n :
  view p k l → 0 < n → 0 ≤ m_len (pk_mb p) → m_len (pk_mb p) + n < 2 ^ 32 →
  view (with_mb (next_to 0 (m_adj (- n) (pk_mb p))) p) (k - n) l ∧
  m_len (m_adj (- n) (pk_mb p)) = m_len (pk_mb p) + n.
Proof.
  intros Hv Hn Hl Hl'. unfold m_adj. destruct (Z.ltb_spec 0 (- n)); [lia|]. split.
  - replace (k - n) with (k + - n) by lia. eapply view_move; [done|]. unfold offset. simpl. lia.
  - simpl. rewrite wrap_small by lia. lia.
Qed.

Lemma view_forward p k l n :
  view p k l → view (forward n p) (k + n) l.
Proof. intros Hv. eapply view_move; [done|]. unfold offset. simpl. lia. Qed.
Lemma view_backward p k l n :
  view p k l → view (backward n p) (k - n) l.
Proof. intros Hv. replace (k - n) with (k + - n) by lia. eapply view_move; [done|]. unfold offset. simpl. lia. Qed.

Lemma data_of_view p k l :
  view p k l → 0 ≤ k → 0 ≤ m_len (pk_mb p) → k + m_len (pk_mb p) ≤ zlen l →
  data_of p = Ok (slice k (m_len (pk_mb p)) l).
Proof. intros Hv ???. unfold data_of. rewrite (get_view p k l 0 _ Hv) by lia. by rewrite Z.add_0_r. Qed.

Lemma load_set_pkt m p s : load (n_pkts (set_pkt m p s)) m = Ok p.
Proof. apply load_Some. cbn. apply lookup_insert_eq. Qed.

(** ** Network order *)

Lemma ntohs_htons v : ntohs (htons v) = v.
Proof. simpl. pose proof (Z.div_mod v 256). lia. Qed.

Lemma le_le_bytes n v : 0 ≤ v < 256 ^ Z.of_nat n → le (le_bytes n v) = v.
Proof.
  revert v. induction n as [|n IH]; intros v Hv; [simpl in *; lia|]. cbn [le_bytes le foldr].
  fold (le (le_bytes n (v / 256))). rewrite Nat2Z.inj_succ, Z.pow_succ_r in Hv by lia. rewrite IH.
  - pose proof (Z.div_mod v 256). lia.
  - split; [apply Z.div_pos; lia|apply Z.div_lt_upper_bound; lia].
Qed.

Lemma le_bytes_le l : byte_list l → le_bytes (length l) (le l) = l.
Proof.
  induction 1 as [|b l Hb _ IH]; [done|]. cbn [length le_bytes le foldr]. fold (le l).
  rewrite (Z.mul_comm 256), Z_mod_plus_full, Z_div_plus_full, Z.mod_small, (Z.div_small b) by lia.
  rewrite Z.add_0_l. by rewrite IH.
Qed.

(** ** Chains *)

Lemma chain_one fuel m ps p :
  m ≠ 0 → ps !! m = Some p → m_next (pk_mb p) = 0 → chain (S fuel) m ps = Ok [(m, p)].
Proof.
  intros Hm E Hn. cbn [chain]. destruct (Z.eqb_spec m 0); [done|]. rewrite (load_Some _ _ _ E), Ok_bind.
  rewrite Hn. by destruct fuel.
Qed.

Lemma chain_two fuel m0 m ps p0 p :
  m0 ≠ 0 → ps !! m0 = Some p0 → m_next (pk_mb p0) = m →
  m ≠ 0 → ps !! m = Some p → m_next (pk_mb p) = 0 → chain (S (S fuel)) m0 ps = Ok [(m0, p0); (m, p)].
Proof.
  intros Hm0 E0 Hn0 Hm E Hn. change (chain (S (S fuel)) m0 ps) with
    (if m0 =? 0 then Ok [] else p ← load ps m0; r ← chain (S fuel) (m_next (pk_mb p)) ps; Ok ((m0, p) :: r)).
  destruct (Z.eqb_spec m0 0); [done|]. rewrite (load_Some _ _ _ E0), Ok_bind.
  by rewrite Hn0, (chain_one fuel m ps p Hm E Hn).
Qed.

Lemma cksum_of_one m len ps p k l :
  m ≠ 0 → ps !! m = Some p → m_next (pk_mb p) = 0 → view p k l → 0 ≤ k → byte_list l →
  0 ≤ len ≤ 65000 → len ≤ m_len (pk_mb p) → k + m_len (pk_mb p) ≤ zlen l →
  cksum_of m len ps = Ok (Ref.cksum (slice k len l)).
Proof.
  intros Hm E Hn Hv Hk Hb Hlen Hml Hl. unfold cksum_of. rewrite (chain_one _ m ps p Hm E Hn), Ok_bind.
  cbn [chunks]. rewrite (data_of_view p k l Hv) by lia. rewrite !Ok_bind.
  assert (byte_list (slice k (m_len (pk_mb p)) l)) as Hb'.
  { apply byte_list_take. by apply Forall_drop. }
  rewrite in_cksum_ok; [|by repeat constructor|done].
  unfold chain_data. cbn [mbind list_bind ck_data]. rewrite app_nil_r.
  do 2 f_equal. unfold slice. rewrite take_take. f_equal. lia.
Qed.

(** ** Transmission *)

(** The driver takes the packets [ms], whose bytes are [bs]. *)
Definition transmitted (ms bs : list Z) (s : net) : net :=
  {| n_if := n_if s; n_pkts := foldr delete (n_pkts s) ms; n_fresh := n_fresh s; n_tx := tail (n_tx s);
     n_sent := n_sent s ++ [(ms, bs)]; n_mem := n_mem s |}.

Lemma transmitted_set_pkt ms bs m p s :
  m ∈ ms → transmitted ms bs (set_pkt m p s) = transmitted ms bs s.
Proof. intros Hm. unfold transmitted. cbn. by rewrite foldr_delete_insert_in. Qed.

(** The driver takes the next packet. *)
Definition willing (s : net) : Prop := default 0 (head (n_tx s)) = 0.

(** A single packet that lies in its data area. *)
Record packet (s : net) (m : Z) (p : pkt) (k : Z) (l : list Z) : Prop := {
  pkt_at : n_pkts s !! m = Some p;
  pkt_ptr : m ≠ 0;
  pkt_next : m_next (pk_mb p) = 0;
  pkt_view : view p k l;
  pkt_pos : 0 ≤ k;
  pkt_len : 0 ≤ m_len (pk_mb p) ∧ m_len (pk_mb p) + 14 < 2 ^ 32;
  pkt_in : k + m_len (pk_mb p) ≤ zlen l
}.

Lemma slice_all_front o n l : 0 ≤ o → 0 ≤ n → 14 ≤ o → o + n ≤ zlen l →
  ∀ hdr, zlen hdr = 14 → slice (o - 14) (14 + n) (patch (o - 14) hdr l) = hdr ++ slice o n l.
Proof.
  intros Ho Hn H14 Hl hdr Hh. unfold patch. rewrite slice_app_r by (rewrite length_take; lia).
  rewrite length_take. replace (o - 14 - _) with 0 by lia. unfold slice.
  change (drop (Z.to_nat 0) ?x) with x.
  replace (Z.to_nat (14 + n)) with (length hdr + Z.to_nat n)%nat by lia.
  rewrite take_app_add. f_equal. f_equal. f_equal. lia.
Qed.

(** ether_output with room for the header in front of the packet. *)
Lemma ether_send_front m p k l hdr s :
  packet s m p k l → willing s → 14 ≤ k → 14 ≤ zlen hdr →
  ether_send m hdr s = Ok (0, transmitted [m] (take 14 hdr ++ slice k (m_len (pk_mb p)) l) s).
Proof.
  intros [E Hm Hn Hv Hk [Hl0 Hl] Hin] Hw H14 Hh. unfold ether_send. rewrite (load_Some _ _ _ E), Ok_bind.
  assert (14 ≤ offset p) as Ho by (destruct Hv as (? & ? & _ & ?); lia). unfold ETHER_HDR_LEN.
  destruct (Z.leb_spec 14 (offset p)); [|lia]. rewrite Ok_bind. cbv beta iota.
  destruct (view_front p k l 14 Hv) as [Hv1 Hl1]; [lia..|].
  set (p1 := with_mb _ p) in *. unfold set_pkt, set_pkts. cbn [n_pkts].
  rewrite (load_Some _ m p1) by apply lookup_insert_eq. rewrite Ok_bind.
  destruct (Z.ltb_spec (zlen hdr) 14); [lia|].
  assert (zlen (take (Z.to_nat 14) hdr) = 14) as Ht by (rewrite length_take; lia).
  destruct (put_view p1 (k - 14) l 0 (take (Z.to_nat 14) hdr) Hv1) as (p2 & E2 & Em & Hv2); [lia..|].
  rewrite E2, Ok_bind. unfold if_transmit. cbn [n_tx n_pkts]. rewrite Hw. cbn [negb Z.eqb].
  rewrite (chain_one _ m _ p2), Ok_bind by (done || apply lookup_insert_eq || by rewrite Em).
  assert (m_len (pk_mb p2) = 14 + m_len (pk_mb p)) as Hl2 by (rewrite Em; unfold p1; cbn; lia).
  cbn [wire]. rewrite (data_of_view p2 (k - 14) _ Hv2); [|lia|lia|].
  2: { rewrite patch_length; lia. }
  rewrite Hl2, !Ok_bind, Z.add_0_r, app_nil_r. cbn [fmap list_fmap fst].
  rewrite slice_all_front by lia. unfold transmitted. cbn [foldr n_fresh n_if n_sent n_mem].
  by rewrite !delete_insert_eq.
Qed.

(** ether_output of a packet without that room: the header has its own mbuf. *)
Lemma ether_send_alloc m p k l hdr s f fs :
  packet s m p k l → willing s → offset p < 14 → 14 ≤ zlen hdr →
  n_fresh s = f :: fs → f_m f ≠ 0 → f_m f ≠ m → 14 ≤ zlen (f_bytes f) →
  ether_send m hdr s =
    Ok (0, transmitted [f_m f; m] (take 14 hdr ++ slice k (m_len (pk_mb p)) l) (set_fresh fs s)).
Proof.
  intros [E Hm Hn Hv Hk [Hl0 Hl] Hin] Hw H14 Hh Ef Hf0 Hfm Hfb. unfold ether_send.
  rewrite (load_Some _ _ _ E), Ok_bind. unfold ETHER_HDR_LEN.
  destruct (Z.leb_spec 14 (offset p)); [lia|]. unfold m_alloc. rewrite Ef. cbv beta iota zeta.
  destruct (Z.eqb_spec (f_m f) 0); [done|]. rewrite Ok_bind. cbv beta iota.
  unfold set_pkt, set_pkts, set_fresh. cbn [n_pkts].
  rewrite (load_Some _ (f_m f) _ (lookup_insert_eq _ _ _)), !Ok_bind. cbv beta iota.
  cbn [n_pkts]. rewrite (load_Some _ (f_m f) _ (lookup_insert_eq _ _ _)), Ok_bind.
  destruct (Z.ltb_spec (zlen hdr) 14); [lia|].
  set (p1 := with_mb _ _).
  assert (view p1 0 (take 14 (f_bytes f))) as Hv1.
  { exists [], []. cbn. rewrite app_nil_r. split; [done|]. unfold offset. cbn. lia. }
  assert (zlen (take (Z.to_nat 14) hdr) = 14) as Ht by (rewrite length_take; lia).
  destruct (put_view p1 0 _ 0 (take (Z.to_nat 14) hdr) Hv1) as (p2 & E2 & Em & Hv2); [lia|rewrite Ht, length_take; lia|].
  rewrite E2, Ok_bind. unfold if_transmit. cbn [n_tx n_pkts]. rewrite Hw. cbn [negb Z.eqb].
  rewrite !insert_insert_eq.
  assert (size (<[f_m f:=p2]> (n_pkts s)) ≠ 0%nat) as Hsz.
  { apply (map_size_ne_0_lookup_2 _ (f_m f)). rewrite lookup_insert_eq. eauto. }
  destruct (size _) as [|sz]; [done|].
  rewrite (chain_two sz (f_m f) m _ p2 p); [|done|apply lookup_insert_eq|by rewrite Em|done|
    by rewrite lookup_insert_ne|done].
  assert (m_len (pk_mb p2) = 14) as Hl2 by (by rewrite Em).
  rewrite Ok_bind. cbn [wire]. rewrite (data_of_view p2 0 _ Hv2); [|lia|lia|].
  2: { rewrite patch_length by (rewrite ?Ht, ?length_take; lia). rewrite Hl2, length_take. lia. }
  rewrite (data_of_view p k l Hv) by lia. rewrite !Ok_bind, app_nil_r.
  replace (m_len (pk_mb p2)) with (zlen (take (Z.to_nat 14) hdr)) by lia.
  rewrite slice_patch_same by (rewrite ?Ht, ?length_take; lia).
  unfold transmitted. cbn [foldr fmap list_fmap fst n_fresh n_if n_sent n_mem n_pkts n_tx].
  rewrite (delete_delete _ (f_m f) m), delete_insert_eq, (delete_delete _ m (f_m f)). done.
Qed.
