(* ===== verification/NetArp.v ===== *)
(** * Network stack: ARP

    What a host sends to resolve an address, what it answers, and what it
    learns. *)

From S2P Require Import Prelude Freelist FreelistInv FreelistSpec FreelistHeap FreelistProofs FreelistFree FreelistSetup FreelistTheorems Callout Kernel KernelTheorems Malloc MallocTheorems Mbuf Cksum CksumTheorems Net NetProofs.
Local Open Scope Z_scope.

(** ** Frames *)

Definition arp_bytes (op : Z) (sha : list Z) (spa : Z) (tha : list Z) (tpa : Z) : list Z :=
  htons ARPHRD_ETHER ++ htons ETHERTYPE_IP ++ [6; 4] ++ htons op ++ sha ++ le_bytes 4 spa ++ tha ++ le_bytes 4 tpa.

Definition ether_bytes (dst src : list Z) (type : Z) : list Z := dst ++ src ++ htons type.

(** A hardware address. *)
Definition hw (l : list Z) : Prop := length l = 6%nat.

Lemma hw_cells l : hw l → ∃ a b c d e f, l = [a; b; c; d; e; f].
Proof. unfold hw. intros H. do 6 (destruct l as [|? l]; [done|]). destruct l; [|done]. eauto 10. Qed.

(** Turn hardware addresses into their bytes. *)
Ltac cells :=
  repeat match goal with
  | H : hw ?l |- _ => is_var l; destruct (hw_cells l H) as (? & ? & ? & ? & ? & ? & ->); clear H
  end.

(** An attached Ethernet interface with the address [l]. *)
Record ethernet (i : ifnet) (l : list Z) : Prop := {
  eth_len : if_addrlen i = 6;
  eth_hw : if_hw_addr i = l;
  eth_hw6 : hw l;
  eth_bcast : if_broadcastaddr i = replicate 6 0xff
}.

(** malloc() has two more buffers to give. *)
Record supply (s : net) (f1 f2 : fresh) (fs : list fresh) : Prop := {
  su_eq : n_fresh s = f1 :: f2 :: fs;
  su_null : f_m f1 ≠ 0 ∧ f_m f2 ≠ 0 ∧ f_m f1 ≠ f_m f2;
  su_new : n_pkts s !! f_m f1 = None ∧ n_pkts s !! f_m f2 = None;
  su_bytes : 28 ≤ zlen (f_bytes f1) ∧ 14 ≤ zlen (f_bytes f2)
}.

(** ** Parts of a view *)

Lemma view_drop p k (l1 l2 : list Z) : view p k (l1 ++ l2) → view p (k - zlen l1) l2.
Proof.
  intros (pre & post & E & Ho). exists (pre ++ l1), post. rewrite E, length_app, <- !app_assoc.
  split; [done|lia].
Qed.

Lemma view_take p k (l1 l2 : list Z) : view p k (l1 ++ l2) → view p k l1.
Proof. intros (pre & post & E & Ho). exists pre, (l2 ++ post). rewrite E, <- !app_assoc. done. Qed.

Lemma arp_bytes_length op sha spa tha tpa : hw sha → hw tha → length (arp_bytes op sha spa tha tpa) = 28%nat.
Proof. intros. cells. done. Qed.

(** The variable offsets of an Ethernet/IPv4 ARP packet. *)
Section offsets.
Context (p : pkt) (l : list Z) (Hv : view p 0 l) (Hl : zlen l = 28).
Context (H4 : slice 4 1 l = [6]) (H5 : slice 5 1 l = [4]).

Lemma ar_spa_ok : ar_spa p = Ok 14.
Proof. unfold ar_spa. by rewrite (get8_view p 0 l 4 6 Hv) by (lia || done). Qed.
Lemma ar_tha_ok : ar_tha p = Ok 18.
Proof.
  unfold ar_tha. rewrite (get8_view p 0 l 4 6 Hv), Ok_bind by (lia || done).
  by rewrite (get8_view p 0 l 5 4 Hv) by (lia || done).
Qed.
Lemma ar_tpa_ok : ar_tpa p = Ok 24.
Proof.
  unfold ar_tpa. rewrite (get8_view p 0 l 4 6 Hv), Ok_bind by (lia || done).
  by rewrite (get8_view p 0 l 5 4 Hv) by (lia || done).
Qed.
End offsets.

Section arp.
Context `{Errno}.

(** ** The link-layer header *)

Lemma arp_fillheader_ok i l p hrd op sha spa tha tpa (bcast : bool) :
  ethernet i l → length hrd = 2%nat → hw sha → hw tha → op = ARPOP_REQUEST ∨ op = ARPOP_REPLY →
  view p 0 (hrd ++ htons ETHERTYPE_IP ++ [6; 4] ++ htons op ++ sha ++ le_bytes 4 spa ++ tha ++ le_bytes 4 tpa) →
  ∃ p' rest, arp_fillheader i p bcast LLE_MAX_LINKHDR =
      Ok (0, ether_bytes (if bcast then replicate 6 0xff else tha) l ETHERTYPE_ARP ++ rest, 14, p') ∧
    pk_mb p' = pk_mb p ∧ view p' 0 (arp_bytes op sha spa tha tpa).
Proof.
  intros [Ei Eh El Eb] Hh Hs Ht Hop Hv.
  destruct hrd as [|h0 [|h1 [|]]]; [done|done| |done]. cells. cbn [app] in Hv.
  set (L := h0 :: h1 :: _) in Hv.
  assert (zlen L = 28) as HL by done.
  unfold arp_fillheader. rewrite (ar_tha_ok p L), Ok_bind by done.
  rewrite (get_view p 0 L 18 ETHER_ADDR_LEN Hv), Ok_bind by (unfold ETHER_ADDR_LEN; lia).
  unfold ether_requestencap. cbn [er_rtype er_bufsize er_family er_hdata er_flags er_lladdr].
  change (negb (IFENCAP_LL =? IFENCAP_LL)) with false. change (LLE_MAX_LINKHDR <? ETHER_HDR_LEN) with false.
  cbv iota. unfold etype_of. cbn [er_family er_hdata].
  change (AF_ARP =? AF_INET) with false. change (AF_ARP =? AF_INET6) with false. change (AF_ARP =? AF_ARP) with true.
  cbv iota.
  destruct (put_view p 0 L 0 (htons ARPHRD_ETHER) Hv) as (p1 & E1 & Em & Hv1); [done|done|].
  rewrite E1, Ok_bind. rewrite (get16_view p1 0 _ 6 (op / 256) (op mod 256) Hv1); [|lia|done|done].
  rewrite !Ok_bind. cbv beta iota.
  assert (((op / 256 * 256 + op mod 256 =? ARPOP_REVREQUEST) || (op / 256 * 256 + op mod 256 =? ARPOP_REVREPLY)) = false) as ->.
  { destruct Hop as [-> | ->]; done. }
  exists p1, (replicate 10 0). split_and!; [|done|exact Hv1]. rewrite Eh, Eb. by destruct bcast.
Qed.

(** ** Requests *)

Lemma arprequest_ok i l s f1 f2 fs tip sip :
  n_if s = i → ethernet i l → supply s f1 f2 fs → willing s →
  pick_sip (if_addrhead i) tip None = Some sip →
  arprequest None tip None s =
    Ok (transmitted [f_m f2; f_m f1]
          (ether_bytes (replicate 6 0xff) l ETHERTYPE_ARP ++ arp_bytes ARPOP_REQUEST l sip (replicate 6 0) tip)
          (set_fresh fs s)).
Proof.
  intros Ei Hi [Ef (Hf1 & Hf2 & Hne) (Hn1 & Hn2) (Hb1 & Hb2)] Hw Hsip. pose proof Hi as [Ea Eh El Eb].
  unfold arprequest. rewrite Ei, Hsip, Ea, Eh. cbn [default from_option]. change (8 + 2 * 4 + 2 * 6) with 28.
  unfold m_alloc. rewrite Ef. cbv beta iota zeta. destruct (Z.eqb_spec (f_m f1) 0); [done|].
  rewrite Ok_bind. cbv beta iota. destruct (Z.eqb_spec (f_m f1) 0); [done|].
  rewrite load_set_pkt, Ok_bind.
  set (p0 := {| pk_mb := _; pk_bytes := _ |}).
  assert (view p0 0 (take 28 (f_bytes f1))) as Hv0.
  { exists [], []. cbn. rewrite app_nil_r. split; [done|]. unfold offset. cbn. lia. }
  assert (zlen (take 28 (f_bytes f1)) = 28) as Hl0 by (rewrite length_take; lia).
  destruct (put_view p0 0 _ 0 (replicate (Z.to_nat 28) 0) Hv0) as (p1 & E1 & Em1 & Hv1); [lia|rewrite Hl0; done|].
  rewrite E1, Ok_bind.
  assert (patch (0 + 0) (replicate (Z.to_nat 28) 0) (take 28 (f_bytes f1)) = replicate 28 0) as Z0.
  { unfold patch. rewrite (drop_ge (take 28 _)) by (rewrite length_replicate; lia). done. }
  rewrite Z0 in Hv1. cells.
  (* the fields, one after the other *)
  destruct (put_view p1 0 _ 2 (htons ETHERTYPE_IP) Hv1) as (p2 & E2 & Em2 & Hv2); [done|done|].
  rewrite E2, Ok_bind.
  destruct (put_view p2 0 _ 4 [6] Hv2) as (p3 & E3 & Em3 & Hv3); [done|done|]. rewrite E3, Ok_bind.
  destruct (put_view p3 0 _ 5 [4] Hv3) as (p4 & E4 & Em4 & Hv4); [done|done|]. rewrite E4, Ok_bind.
  destruct (put_view p4 0 _ 6 (htons ARPOP_REQUEST) Hv4) as (p5 & E5 & Em5 & Hv5); [done|done|].
  rewrite E5, Ok_bind.
  destruct (put_view p5 0 _ ar_sha (take (Z.to_nat 6) [x; x0; x1; x2; x3; x4]) Hv5) as (p6 & E6 & Em6 & Hv6);
    [done|done|].
  rewrite E6, Ok_bind, (ar_spa_ok p6 _ Hv6), Ok_bind by done.
  destruct (put_view p6 0 _ 14 (le_bytes 4 sip) Hv6) as (p7 & E7 & Em7 & Hv7); [done|done|].
  rewrite E7, Ok_bind, (ar_tpa_ok p7 _ Hv7), Ok_bind by done.
  destruct (put_view p7 0 _ 24 (le_bytes 4 tip) Hv7) as (p8 & E8 & Em8 & Hv8); [done|done|].
  rewrite E8, Ok_bind.
  destruct (arp_fillheader_ok i _ p8 [0; 0] ARPOP_REQUEST [x; x0; x1; x2; x3; x4] sip (replicate 6 0) tip true Hi)
    as (p9 & rest & E9 & Em9 & Hv9); [done|done|done|by left|exact Hv8|].
  rewrite E9, Ok_bind. cbv beta iota. cbn [negb andb Z.eqb].
  assert (pk_mb p9 = pk_mb p0) as Em by congruence.
  set (p10 := with_mb (flagged M_BCAST (pk_mb p9)) p9).
  set (s1 := set_pkt _ p10 _).
  assert (packet s1 (f_m f1) p10 0 (arp_bytes ARPOP_REQUEST [x; x0; x1; x2; x3; x4] sip (replicate 6 0) tip)) as HP.
  { assert (m_len (pk_mb p10) = 28) as EL by (unfold p10; cbn; rewrite Em; done).
    split; [apply lookup_insert_eq|done|unfold p10; cbn; by rewrite Em| |lia|lia|rewrite EL; done].
    by apply view_mb. }
  rewrite (ether_send_alloc (f_m f1) p10 0 _ _ s1 f2 fs HP); [|exact Hw| | |reflexivity|done|done|done].
  - rewrite Ok_bind. cbv beta iota. f_equal.
    replace (m_len (pk_mb p10)) with 28 by (unfold p10; cbn; by rewrite Em).
    change (set_fresh fs s1) with (set_pkt (f_m f1) p10 (set_pkt (f_m f1) p9 (set_pkt (f_m f1) p0 (set_fresh fs s)))).
    rewrite !transmitted_set_pkt by elem. done.
  - unfold p10, offset. cbn. rewrite Em. cbn. lia.
  - cbn. lia.
Qed.

(** ** Replies *)

(** The fields of the reply, written into a fresh buffer. *)
Lemma arp_reply_fields l p0 b0 p sha spa tha tpa : hw l → hw sha → hw tha →
  view p0 0 b0 → zlen b0 = 28 → view p 0 (arp_bytes ARPOP_REQUEST sha spa tha tpa) →
  ∃ p', reply_fields l p p0 = Ok p' ∧
    pk_mb p' = pk_mb p0 ∧ view p' 0 (arp_bytes ARPOP_REPLY l tpa sha spa).
Proof.
  intros Hl Hs Ht Hv0 Hb0 Hv. unfold reply_fields. set (L := arp_bytes ARPOP_REQUEST sha spa tha tpa) in *.
  assert (zlen L = 28) as HL by (unfold L; by rewrite arp_bytes_length).
  do 28 (destruct b0 as [|? b0]; [done|]). destruct b0; [|cbn in Hb0; lia]. cells.
  destruct (put_view p0 0 _ 6 (htons ARPOP_REPLY) Hv0) as (p1 & E1 & Em1 & Hv1); [done|done|].
  rewrite E1, Ok_bind.
  destruct (put_view p1 0 _ 0 (htons ARPHRD_ETHER) Hv1) as (p2 & E2 & Em2 & Hv2); [done|done|].
  rewrite E2, Ok_bind.
  destruct (put_view p2 0 _ 2 (htons ETHERTYPE_IP) Hv2) as (p3 & E3 & Em3 & Hv3); [done|done|].
  rewrite E3, Ok_bind.
  destruct (put_view p3 0 _ 4 [ETHER_ADDR_LEN] Hv3) as (p4 & E4 & Em4 & Hv4); [done|done|].
  rewrite E4, Ok_bind.
  destruct (put_view p4 0 _ 5 [4] Hv4) as (p5 & E5 & Em5 & Hv5); [done|done|]. rewrite E5, Ok_bind.
  rewrite (get8_view p 0 L 4 6 Hv), Ok_bind by (lia || done).
  rewrite (get8_view p 0 L 5 4 Hv), Ok_bind by (lia || done).
  match goal with |- context [take (Z.to_nat 6) ?l] =>
    destruct (put_view p5 0 _ ar_sha (take (Z.to_nat 6) l) Hv5) as (p6 & E6 & Em6 & Hv6); [done|done|] end.
  rewrite E6, Ok_bind, (ar_tha_ok p6 _ Hv6), Ok_bind by done.
  rewrite (get_view p 0 L ar_sha 6 Hv), Ok_bind by done.
  destruct (put_view p6 0 _ 18 (slice (0 + ar_sha) 6 L) Hv6) as (p7 & E7 & Em7 & Hv7); [done|done|].
  rewrite E7, Ok_bind, (ar_spa_ok p7 _ Hv7), Ok_bind, (ar_tpa_ok p L Hv), Ok_bind by done.
  rewrite (get_view p 0 L 24 4 Hv), Ok_bind by (done || lia).
  destruct (put_view p7 0 _ 14 (slice (0 + 24) 4 L) Hv7) as (p8 & E8 & Em8 & Hv8); [done|done|].
  rewrite E8, Ok_bind, (ar_tpa_ok p8 _ Hv8), Ok_bind, (ar_spa_ok p L Hv), Ok_bind by done.
  rewrite (get_view p 0 L 14 4 Hv), Ok_bind by (done || lia).
  destruct (put_view p8 0 _ 24 (slice (0 + 14) 4 L) Hv8) as (p9 & E9 & Em9 & Hv9); [done|done|].
  exists p9. split_and!; [done|congruence|exact Hv9].
Qed.

Lemma arp_reply_to_request_ok i l s m p f1 f2 fs sha spa tha tpa :
  n_if s = i → ethernet i l → supply s f1 f2 fs → willing s →
  n_pkts s !! m = Some p → view p 0 (arp_bytes ARPOP_REQUEST sha spa tha tpa) →
  hw sha → hw tha → 0 ≤ tpa < 2 ^ 32 → in_ifhasaddr i tpa = true →
  arp_reply_to_request m s =
    Ok (transmitted [f_m f2; f_m f1]
          (ether_bytes sha l ETHERTYPE_ARP ++ arp_bytes ARPOP_REPLY l tpa sha spa) (set_fresh fs s)).
Proof.
  intros Ei Hi [Ef (Hf1 & Hf2 & Hne) (Hn1 & Hn2) (Hb1 & Hb2)] Hw Em Hv Hs Ht Htpa Hin.
  pose proof Hi as [Ea Eh El Eb].
  unfold arp_reply_to_request. rewrite (load_Some _ _ _ Em), Ok_bind.
  assert (zlen (arp_bytes ARPOP_REQUEST sha spa tha tpa) = 28) as HL by (by rewrite arp_bytes_length).
  rewrite (ar_spa_ok p _ Hv HL), Ok_bind, (get_view p 0 _ 14 4 Hv), Ok_bind by (cells; done).
  rewrite (ar_tpa_ok p _ Hv HL), Ok_bind, (get_view p 0 _ 24 4 Hv), Ok_bind by (cells; done).
  assert (slice (0 + 24) 4 (arp_bytes ARPOP_REQUEST sha spa tha tpa) = le_bytes 4 tpa) as -> by (cells; done).
  rewrite le_le_bytes by done. rewrite Ei, Hin. cbn [negb].
  unfold m_alloc. rewrite Ef. cbv beta iota zeta. destruct (Z.eqb_spec (f_m f1) 0); [done|].
  rewrite Ok_bind. cbv beta iota. destruct (Z.eqb_spec (f_m f1) 0); [done|].
  rewrite load_set_pkt, Ok_bind.
  set (p0 := {| pk_mb := _; pk_bytes := _ |}).
  assert (view p0 0 (take 28 (f_bytes f1))) as Hv0.
  { exists [], []. cbn. rewrite app_nil_r. split; [done|]. unfold offset. cbn. lia. }
  destruct (arp_reply_fields l p0 (take 28 (f_bytes f1)) p sha spa tha tpa El Hs Ht Hv0) as (p9 & E9 & Em9 & Hv9);
    [rewrite length_take; lia|exact Hv|].
  cbn [n_if set_pkt set_pkts set_fresh]. rewrite Ei, Eh, E9, Ok_bind.
  destruct (arp_fillheader_ok i l p9 (htons ARPHRD_ETHER) ARPOP_REPLY l tpa sha spa false Hi)
    as (p10 & rest & E10 & Em10 & Hv10); [done|done|done|by right|exact Hv9|].
  rewrite E10, Ok_bind. cbv beta iota. unfold ether_output. cbn [mjoin option_join].
  assert (pk_mb p10 = pk_mb p0) as Emb by congruence.
  set (s1 := set_pkt _ p10 _).
  assert (packet s1 (f_m f1) p10 0 (arp_bytes ARPOP_REPLY l tpa sha spa)) as HP.
  { assert (m_len (pk_mb p10) = 28) as EL by (rewrite Emb; done).
    split; [apply lookup_insert_eq|done|by rewrite Emb|done|lia|lia|]. rewrite EL, arp_bytes_length; done. }
  rewrite (ether_send_alloc (f_m f1) p10 0 _ _ s1 f2 fs HP); [|exact Hw| | |reflexivity|done|done|done].
  - rewrite Ok_bind. cbv beta iota. f_equal.
    replace (m_len (pk_mb p10)) with 28 by (by rewrite Emb).
    change (set_fresh fs s1) with (set_pkt (f_m f1) p10 (set_pkt (f_m f1) p0 (set_fresh fs s))).
    rewrite !transmitted_set_pkt by elem. cells. done.
  - unfold offset. rewrite Emb. cbn. lia.
  - cells. cbn. lia.
Qed.

(** What an answer teaches: the sender's address, at the head of the table. *)
Definition learned (i : ifnet) (l sha : list Z) (spa : Z) : ifnet :=
  set_lle ({| r_linkdata := ether_bytes sha l ETHERTYPE_IP ++ replicate 10 0; r_hdrlen := 14; addr4 := spa |}
           :: lle_head i) i.

Lemma arp_reply_ok i l s m p f fs sha spa tha tpa :
  n_if s = i → ethernet i l → n_fresh s = f :: fs → f_m f ≠ 0 →
  n_pkts s !! m = Some p → view p 0 (arp_bytes ARPOP_REPLY sha spa tha tpa) →
  hw sha → hw tha → 0 ≤ tpa < 2 ^ 32 → 0 ≤ spa < 2 ^ 32 → in_ifhasaddr i tpa = true →
  arp_lookup (lle_head i) spa = None →
  arp_reply m s = Ok (set_if (learned i l sha spa) (set_fresh fs s)).
Proof.
  intros Ei Hi Ef Hf Em Hv Hs Ht Htpa Hspa Hin Hlk. pose proof Hi as [Ea Eh El Eb].
  unfold arp_reply. rewrite (load_Some _ _ _ Em), Ok_bind.
  assert (zlen (arp_bytes ARPOP_REPLY sha spa tha tpa) = 28) as HL by (by rewrite arp_bytes_length).
  rewrite (ar_spa_ok p _ Hv HL), Ok_bind, (get_view p 0 _ 14 4 Hv), Ok_bind by (cells; done).
  rewrite (ar_tpa_ok p _ Hv HL), Ok_bind, (get_view p 0 _ 24 4 Hv), Ok_bind by (cells; done).
  assert (slice (0 + 24) 4 (arp_bytes ARPOP_REPLY sha spa tha tpa) = le_bytes 4 tpa) as -> by (cells; done).
  assert (slice (0 + 14) 4 (arp_bytes ARPOP_REPLY sha spa tha tpa) = le_bytes 4 spa) as -> by (cells; done).
  rewrite !le_le_bytes by done. rewrite Ei, Hin, Hlk. cbn [negb].
  rewrite (get_view p 0 _ ar_sha 6 Hv), Ok_bind by (cells; done).
  unfold arp_addentry. rewrite Ei.
  unfold ether_requestencap. cbn [er_rtype er_bufsize er_family er_hdata er_flags er_lladdr].
  change (negb (IFENCAP_LL =? IFENCAP_LL)) with false. change (LLE_MAX_LINKHDR <? ETHER_HDR_LEN) with false.
  cbv iota. unfold etype_of. cbn [er_family er_hdata]. change (AF_INET =? AF_INET) with true. cbv iota. rewrite !Ok_bind. cbv beta iota.
  rewrite Ef. destruct (Z.eqb_spec (f_m f) 0); [done|]. rewrite Eh, le_le_bytes by done.
  unfold learned. do 5 f_equal. cells. done.
Qed.

Lemma arp_lookup_hit e es a : addr4 e = a → arp_lookup (e :: es) a = Some e.
Proof. intros E. unfold arp_lookup. cbn. by rewrite decide_True. Qed.

(** ** Input *)

(** The common part of arp_input: an Ethernet/IPv4 packet behind its header. *)
Lemma arp_input_eq s m p hdr op sha spa tha tpa pad :
  n_pkts s !! m = Some p → view p 0 (hdr ++ arp_bytes op sha spa tha tpa ++ pad) → length hdr = 14%nat →
  m_len (pk_mb p) = zlen (hdr ++ arp_bytes op sha spa tha tpa ++ pad) → m_len (pk_mb p) < 2 ^ 32 →
  hw sha → hw tha → op = ARPOP_REQUEST ∨ op = ARPOP_REPLY →
  view (adj 14 p) 0 (arp_bytes op sha spa tha tpa) ∧
  arp_input m s = (if op =? ARPOP_REQUEST then arp_reply_to_request m (set_pkt m (adj 14 p) s)
                   else arp_reply m (set_pkt m (adj 14 p) s)).
Proof.
  intros Em Hv Hh Hl Hl32 Hs Ht Hop.
  assert (length (arp_bytes op sha spa tha tpa) = 28%nat) as HL by (by apply arp_bytes_length).
  destruct (view_adj p 0 _ 14 Hv) as (Hv1 & _); [rewrite Hl, !length_app; lia|done|].
  assert (view (adj 14 p) 0 (arp_bytes op sha spa tha tpa)) as Hv2.
  { apply view_drop, view_take in Hv1. by replace (0 + 14 - zlen hdr) with 0 in Hv1 by lia. }
  split; [done|]. unfold arp_input. rewrite (load_Some _ _ _ Em), Ok_bind. unfold ETHER_HDR_LEN.
  rewrite (get16_view _ 0 _ 6 (op / 256) (op mod 256) Hv2), Ok_bind by (lia || (cells; done)).
  rewrite (get16_view _ 0 _ 0 0 1 Hv2), Ok_bind by (lia || (cells; done)). cbn [negb Z.eqb].
  rewrite (get16_view _ 0 _ 2 8 0 Hv2), Ok_bind by (lia || (cells; done)).
  rewrite (get8_view _ 0 _ 4 6 Hv2), (get8_view _ 0 _ 5 4 Hv2) by (lia || (cells; done)).
  destruct Hop as [-> | ->]; done.
Qed.

(** A frame is dispatched on its type. *)
Lemma ether_type_ok p hdr rest dst src type :
  view p 0 (hdr ++ rest) → hdr = ether_bytes dst src type → hw dst → hw src →
  get16 p 12 = Ok (type / 256 * 256 + type mod 256).
Proof.
  intros Hv -> Hd Hs. apply view_take in Hv. apply (get16_view _ 0 _ 12 _ _ Hv); cells; done.
Qed.
End arp.
