(* ===== verification/NetTheorems.v ===== *)
(** * Network stack: what it does with a frame

    Address resolution between two hosts, the answer to a ping, and who frees each
    packet. *)

From S2P Require Import Prelude Freelist FreelistInv FreelistSpec FreelistHeap FreelistProofs FreelistFree FreelistSetup FreelistTheorems Callout Kernel KernelTheorems Malloc MallocTheorems Mbuf Cksum CksumTheorems Memory Net NetProofs NetArp.
Local Open Scope Z_scope.

(** ** Reads and writes of structured data *)

Lemma slice_mid (a b c : list Z) o n : zlen a = o → zlen b = n → slice o n (a ++ b ++ c) = b.
Proof.
  intros <- <-. rewrite slice_app_r by lia. rewrite slice_app_l, Z.sub_diag by lia. apply slice_0. lia.
Qed.

Lemma patch_mid (a b c bs : list Z) o : zlen a = o → length bs = length b → patch o bs (a ++ b ++ c) = a ++ bs ++ c.
Proof.
  intros <- E. unfold patch. rewrite Nat2Z.id, take_app_length, E, <- length_app.
  by rewrite (app_assoc a b c), drop_app_length.
Qed.

Lemma get_mid p k l a b c i n :
  view p k l → l = a ++ b ++ c → zlen a = k + i → zlen b = n → get p i n = Ok b.
Proof.
  intros Hv -> Ha Hb. rewrite (get_view p k _ i n Hv); [|lia|lia|rewrite !length_app; lia].
  by rewrite slice_mid.
Qed.

Lemma put_mid p k l a b c i bs :
  view p k l → l = a ++ b ++ c → zlen a = k + i → length bs = length b →
  ∃ p', put i bs p = Ok p' ∧ pk_mb p' = pk_mb p ∧ view p' k (a ++ bs ++ c).
Proof.
  intros Hv -> Ha Hb. destruct (put_view p k _ i bs Hv) as (p' & E & Em & Hv'); [lia|rewrite !length_app; lia|].
  exists p'. split; [done|]. split; [done|]. by rewrite (patch_mid a b c bs) in Hv' by done.
Qed.

(** ** ICMP echo *)

(** An IPv4 header: five bytes (identification, fragment and time to live)
    between the length and the protocol, then the checksum, the addresses and the
    options. *)
Record ip_hdr := {
  ih_vhl : Z; ih_tos : Z; ih_len : Z; ih_mid : list Z; ih_src : list Z; ih_dst : list Z; ih_opts : list Z
}.

Definition ip_bytes (h : ip_hdr) (ck : list Z) : list Z :=
  [ih_vhl h; ih_tos h] ++ htons (ih_len h) ++ ih_mid h ++ [IPPROTO_ICMP] ++ ck ++ ih_src h ++ ih_dst h ++ ih_opts h.

Definition swap_addrs (h : ip_hdr) : ip_hdr :=
  {| ih_vhl := ih_vhl h; ih_tos := ih_tos h; ih_len := ih_len h; ih_mid := ih_mid h; ih_src := ih_dst h;
     ih_dst := ih_src h; ih_opts := ih_opts h |}.

(** The header length in bytes, and the shape of a header. *)
Definition hlen (h : ip_hdr) : Z := Z.shiftl (Z.land (ih_vhl h) 15) 2.

Record ip_ok (h : ip_hdr) (icmplen : Z) : Prop := {
  ip_mid : length (ih_mid h) = 5%nat;
  ip_src : length (ih_src h) = 4%nat;
  ip_dst : length (ih_dst h) = 4%nat;
  ip_opts : zlen (ih_opts h) = hlen h - 20;
  ip_len : ih_len h = hlen h + icmplen;
  ip_max : 0 ≤ ih_len h ≤ 65000
}.

Definition echo_bytes (type code : Z) (ck rest : list Z) : list Z := [type; code] ++ ck ++ rest.

Lemma byte_list_app (a b : list Z) : byte_list (a ++ b) ↔ byte_list a ∧ byte_list b.
Proof. apply Forall_app. Qed.

Lemma le_bytes_2 c : 0 ≤ c ≤ 65535 → le_bytes 2 c = [c mod 256; c / 256].
Proof.
  intros Hc. cbn. do 2 f_equal. apply Z.mod_small. split; [apply Z.div_pos; lia|apply Z.div_lt_upper_bound; lia].
Qed.

Lemma ip_bytes_length h ck icmplen : ip_ok h icmplen → length ck = 2%nat → zlen (ip_bytes h ck) = hlen h.
Proof. intros [Em Es Ed Eo _ _] Ec. unfold ip_bytes, htons. rewrite !length_app. cbn [length]. lia. Qed.

(** The bytes of the header at fixed places. *)
Ltac ip_cells h :=
  destruct h as [vhl tos len mid src dst opts]; cbn in *;
  do 5 (destruct mid as [|? mid]; [done|]); destruct mid; [|done];
  do 4 (destruct src as [|? src]; [done|]); destruct src; [|done];
  do 4 (destruct dst as [|? dst]; [done|]); destruct dst; [|done].

Section ping.
Context `{Arch} `{Errno}.

(** The bytes [bs] in place of those at [a]. *)
Definition overwrite (a : Z) (bs : list Z) (m : mem_t) : mem_t :=
  list_to_map (zip (seqZ a (zlen bs)) bs) ∪ m.

Lemma overwrite_nil a m : overwrite a [] m = m.
Proof. exact (map_empty_union m). Qed.

Lemma overwrite_cons a b bs m : overwrite a (b :: bs) m = <[a := b]> (overwrite (a + 1) bs m).
Proof.
  unfold overwrite. rewrite seqZ_cons by (cbn [length]; lia). cbn [zip list_to_map fst snd zip_with foldr].
  rewrite <- insert_union_l. unfold Z.succ. repeat f_equal. cbn [length]. lia.
Qed.

Lemma overwrite_insert a c v bs m : c < a → overwrite a bs (<[c := v]> m) = <[c := v]> (overwrite a bs m).
Proof.
  revert a. induction bs as [|b bs IH]; intros a Hc; [by rewrite !overwrite_nil|].
  rewrite !overwrite_cons, IH by lia. by rewrite insert_insert_ne by lia.
Qed.

Lemma store_list_ok bs : ∀ a m, mapped m a (zlen bs) → store_list a bs m = Ok (overwrite a bs m).
Proof.
  induction bs as [|b bs IH]; intros a m Hm; cbn [store_list].
  - by rewrite overwrite_nil.
  - cbn [length] in Hm. rewrite store_ok by (apply Hm; lia). rewrite Ok_bind, IH, overwrite_cons, overwrite_insert by
      (lia || (apply mapped_insert; eapply mapped_sub; [exact Hm|lia|lia])). done.
Qed.

(** struct sockaddr_in of an address: length, family, port, address, zeros. *)
Definition sockaddr_in (addr : list Z) : list Z := [SOCKADDR_IN_LEN; AF_INET; 0; 0] ++ addr ++ replicate 8 0.

(** The socket address written through the NULL route. *)
Definition routed (addr : list Z) (s : net) : net :=
  set_mem (overwrite ro_dst (sockaddr_in addr) (n_mem s)) s.

Lemma routed_set_pkt addr m p s : routed addr (set_pkt m p s) = set_pkt m p (routed addr s).
Proof. done. Qed.

Lemma mapped_overwrite m a bs x n : mapped m x n → mapped (overwrite a bs m) x n.
Proof. intros Hm i Hi. unfold overwrite. apply lookup_union_is_Some. right. by apply Hm. Qed.

(** The four groups of stores of ip_output make up the socket address. *)
Lemma route_writes m addr : length addr = 4%nat →
  overwrite (ro_dst + 4) addr (overwrite ro_dst [SOCKADDR_IN_LEN] (overwrite (ro_dst + 1) [AF_INET]
    (overwrite ro_dst (replicate 16 0) m))) = overwrite ro_dst (sockaddr_in addr) m.
Proof.
  intros Ha. do 4 (destruct addr as [|? addr]; [done|]). destruct addr; [|done].
  generalize ro_dst. intros d. cbn [replicate app sockaddr_in]. rewrite !overwrite_cons, !overwrite_nil.
  rewrite <- !Z.add_assoc. cbn [Z.add Pos.add Pos.succ].
  apply map_eq. intros x. destruct (decide (d ≤ x < d + 16)) as [Hx|Hx].
  - assert (x - d ∈ seqZ 0 16) as Hin by (apply elem_of_seqZ; lia).
    replace x with (d + (x - d)) by lia. revert Hin. generalize (x - d). clear. intros i Hin. vm_compute in Hin.
    repeat (apply elem_of_cons in Hin as [->|Hin]; [rewrite ?Z.add_0_r; repeat (rewrite lookup_insert_eq || rewrite lookup_insert_ne by lia); done|]).
    by apply elem_of_nil in Hin.
  - by rewrite !lookup_insert_ne by lia.
Qed.

(** The answer, with the checksums the code stores. *)
Definition echo_answer (h : ip_hdr) (code : Z) (rest : list Z) : list Z :=
  let h := swap_addrs h in
  ip_bytes h (le_bytes 2 (Ref.cksum (ip_bytes h [0; 0]))) ++
  echo_bytes ICMP_ECHOREPLY code (le_bytes 2 (Ref.cksum (echo_bytes ICMP_ECHOREPLY code [0; 0] rest))) rest.

(** ip_output of a datagram to a resolved neighbour, 14 bytes into its buffer. *)
Lemma ip_output_ok s m p eth h ck data e icmplen :
  packet s m p 14 (eth ++ ip_bytes h ck ++ data) → zlen eth = 14 → length ck = 2%nat →
  m_len (pk_mb p) = zlen (ip_bytes h ck ++ data) →
  byte_list (eth ++ ip_bytes h ck ++ data) → ip_ok h icmplen → 0 ≤ icmplen →
  mapped (n_mem s) ro_dst 16 → willing s → arp_lookup (lle_head (n_if s)) (le (ih_dst h)) = Some e →
  r_hdrlen e = 14 → 14 ≤ zlen (r_linkdata e) →
  ip_output m 0 s =
    Ok (0, transmitted [m] (take 14 (r_linkdata e) ++
        ip_bytes h (le_bytes 2 (Ref.cksum (ip_bytes h [0; 0]))) ++ data) (routed (ih_dst h) s)).
Proof.
  intros [Em Hm Hn Hv Hk Hl Hin] He Hck Hlen Hb Hip Hicmp Hlow Hw Hlk Hhl Hld.
  unfold ip_output. rewrite (load_Some _ _ _ Em), Ok_bind. change (0 + ro_dst) with ro_dst. cbv zeta.
  assert (∀ a bs m, mapped m ro_dst 16 → ro_dst ≤ a → a + zlen bs ≤ ro_dst + 16 →
    store_list a bs m = Ok (overwrite a bs m)) as Hst.
  { intros a bs m' Hm' ? ?. apply store_list_ok. by eapply mapped_sub. }
  do 3 (rewrite Hst, Ok_bind by (repeat apply mapped_overwrite; done || cbn; lia)).
  pose proof (ip_bytes_length h ck icmplen Hip Hck) as Hhb. pose proof Hip as [Lm Ls Ld Lo Lt Lx].
  pose proof (ip_bytes_length h [0; 0] icmplen Hip eq_refl) as H0b.
  set (pre := [ih_vhl h; ih_tos h] ++ htons (ih_len h) ++ ih_mid h ++ [IPPROTO_ICMP]).
  assert (zlen pre = 10) as Hpre by (unfold pre, htons; rewrite !length_app; cbn [length]; lia).
  assert (∀ c, eth ++ ip_bytes h c ++ data = (eth ++ pre) ++ c ++ (ih_src h ++ ih_dst h ++ ih_opts h ++ data)) as Sp.
  { intros c. unfold ip_bytes, pre. by rewrite <- !app_assoc. }
  rewrite (get_mid p 14 _ (eth ++ pre ++ ck ++ ih_src h) (ih_dst h) (ih_opts h ++ data) 16 4 Hv), Ok_bind;
    [|rewrite Sp, <- !app_assoc; done|rewrite !length_app; lia|lia].
  rewrite Hst, Ok_bind by (repeat apply mapped_overwrite; done || lia).
  change (Z.to_nat SOCKADDR_IN_LEN) with 16%nat. rewrite (route_writes _ _ Ld).
  fold (routed (ih_dst h) s).
  destruct (put_mid p 14 _ (eth ++ pre) ck _ 10 [0; 0] Hv (Sp ck)) as (p1 & E1 & Em1 & Hv1);
    [rewrite length_app; lia|done|].
  rewrite E1, Ok_bind. rewrite <- Sp in Hv1.
  unfold ip_hlen. rewrite (get8_view p1 14 _ 0 (ih_vhl h) Hv1), !Ok_bind;
    [|lia|rewrite !length_app; lia|rewrite Sp; unfold pre; rewrite <- !app_assoc; exact (slice_mid eth [ih_vhl h] (ih_tos h :: _) 14 1 He eq_refl)].
  fold (hlen h).
  assert (byte_list (eth ++ ip_bytes h [0; 0] ++ data)) as Hb1.
  { rewrite Sp in Hb |- *. rewrite !byte_list_app in *. split_and!; try tauto. by repeat constructor. }
  assert (zlen (eth ++ ip_bytes h [0; 0] ++ data) = zlen (eth ++ ip_bytes h ck ++ data)) as HL.
  { rewrite !Sp, !length_app, Hck. done. }
  rewrite (cksum_of_one m (hlen h) (n_pkts (set_pkt m p1 (routed (ih_dst h) s))) p1 14 (eth ++ ip_bytes h [0; 0] ++ data) Hm (lookup_insert_eq _ _ _)), Ok_bind;
    [|by rewrite Em1|exact Hv1|lia|exact Hb1|lia|rewrite Em1, Hlen, length_app; lia|rewrite Em1, HL; lia].
  assert (slice 14 (hlen h) (eth ++ ip_bytes h [0; 0] ++ data) = ip_bytes h [0; 0]) as ->.
  { apply slice_mid; [done|]. by apply (ip_bytes_length h [0; 0] icmplen). }
  set (c := Ref.cksum (ip_bytes h [0; 0])).
  destruct (put_mid p1 14 _ (eth ++ pre) [0; 0] _ 10 (le_bytes 2 c) Hv1 (Sp [0; 0])) as (p2 & E2 & Em2 & Hv2);
    [rewrite length_app; lia|done|].
  rewrite E2, Ok_bind. rewrite <- Sp in Hv2.
  unfold ether_output. cbn [mjoin option_join]. unfold ether_resolve_addr, arpresolve.
  change (AF_INET =? AF_INET) with true. cbv iota. cbn [n_if set_pkt set_pkts routed set_mem]. rewrite Hlk, Hhl.
  fold (routed (ih_dst h) s). change (ETHER_HDR_LEN <? 14) with false. cbv iota. rewrite Ok_bind. cbv beta iota.
  change (negb (MDX_OK =? 0)) with false. cbv iota.
  assert (zlen (eth ++ ip_bytes h (le_bytes 2 c) ++ data) = zlen (eth ++ ip_bytes h ck ++ data)) as HL2.
  { rewrite !Sp, !length_app, Hck. done. }
  set (s2 := set_pkt m p2 _).
  assert (packet s2 m p2 14 (eth ++ ip_bytes h (le_bytes 2 c) ++ data)) as HP2.
  { split; [apply lookup_insert_eq|done|by rewrite Em2, Em1|done|lia|by rewrite Em2, Em1|by rewrite Em2, Em1, HL2]. }
  rewrite (ether_send_front m p2 14 _ _ s2 HP2); [|exact Hw|lia|rewrite length_take; lia].
  f_equal. f_equal. unfold s2. rewrite !transmitted_set_pkt by elem. f_equal.
  rewrite take_take. f_equal.
  rewrite (slice_app_r 14) by lia. rewrite He, Z.sub_diag. apply slice_0.
  rewrite Em2, Em1, Hlen. pose proof (ip_bytes_length h (le_bytes 2 c) icmplen Hip eq_refl).
  rewrite !length_app. lia.
Qed.

Lemma swap_ok h n : ip_ok h n → ip_ok (swap_addrs h) n.
Proof. intros []. by split. Qed.

(** Exchanging the addresses in the packet. *)
Lemma swap_addrs_ok p k eth h ck data n :
  view p k (eth ++ ip_bytes h ck ++ data) → zlen eth = k → length ck = 2%nat → ip_ok h n →
  ∃ p1 p', get p 16 4 = Ok (ih_dst h) ∧ get p 12 4 = Ok (ih_src h) ∧
    put 16 (ih_src h) p = Ok p1 ∧ put 12 (ih_dst h) p1 = Ok p' ∧ pk_mb p' = pk_mb p ∧ view p' k (eth ++ ip_bytes (swap_addrs h) ck ++ data).
Proof.
  intros Hv He Hck [Lm Ls Ld Lo Lt Lx].
  set (pre := [ih_vhl h; ih_tos h] ++ htons (ih_len h) ++ ih_mid h ++ [IPPROTO_ICMP] ++ ck).
  assert (zlen pre = 12) as Hpre by (unfold pre, htons; rewrite !length_app; cbn [length]; lia).
  assert (∀ a b, (eth ++ pre) ++ a ++ b ++ ih_opts h ++ data = (eth ++ pre ++ a) ++ b ++ ih_opts h ++ data) as Sp2.
  { intros a b. by rewrite <- !app_assoc. }
  assert (eth ++ ip_bytes h ck ++ data = (eth ++ pre) ++ ih_src h ++ ih_dst h ++ ih_opts h ++ data) as Sp.
  { unfold ip_bytes, pre. by rewrite <- !app_assoc. }
  assert (eth ++ ip_bytes (swap_addrs h) ck ++ data = (eth ++ pre) ++ ih_dst h ++ ih_src h ++ ih_opts h ++ data) as ->.
  { unfold ip_bytes, pre. cbn [swap_addrs ih_vhl ih_tos ih_len ih_mid ih_src ih_dst ih_opts]. by rewrite <- !app_assoc. }
  rewrite Sp in Hv.
  pose proof (get_mid p k _ _ _ _ 16 4 Hv (Sp2 _ _)) as G1. pose proof (get_mid p k _ _ _ _ 12 4 Hv eq_refl) as G2.
  rewrite !length_app in G1. rewrite length_app in G2.
  destruct (put_mid p k _ _ _ _ 16 (ih_src h) Hv (Sp2 _ _)) as (p1 & E1 & Em1 & Hv1);
    [rewrite !length_app; lia|lia|].
  rewrite <- Sp2 in Hv1.
  destruct (put_mid p1 k _ _ _ _ 12 (ih_dst h) Hv1 eq_refl) as (p2 & E2 & Em2 & Hv2); [rewrite length_app; lia|lia|].
  exists p1, p2. split_and!; [apply G1; lia|apply G2; lia|done|done|congruence|exact Hv2].
Qed.

Lemma forward_backward n p : m_len (pk_mb p) < 2 ^ 32 → 0 ≤ m_len (pk_mb p) →
  m_len (pk_mb (backward n (with_mb (pk_mb (forward n p)) p))) = m_len (pk_mb p).
Proof.
  intros. unfold forward, backward. cbn. unfold wrap. rewrite Zplus_mod_idemp_l.
  replace (m_len (pk_mb p) - n + n) with (m_len (pk_mb p)) by lia. by apply Z.mod_small.
Qed.

Lemma echo_reply_ok s m p eth h ck code kc rest pad e :
  let data := echo_bytes ICMP_ECHO code kc rest ++ pad in
  packet s m p 14 (eth ++ ip_bytes h ck ++ data) → zlen eth = 14 → length ck = 2%nat → length kc = 2%nat →
  m_len (pk_mb p) = zlen (ip_bytes h ck ++ data) →
  byte_list (eth ++ ip_bytes h ck ++ data) → ip_ok h (4 + zlen rest) →
  mapped (n_mem s) ro_dst 16 → willing s → arp_lookup (lle_head (n_if s)) (le (ih_src h)) = Some e →
  r_hdrlen e = 14 → 14 ≤ zlen (r_linkdata e) →
  echo_reply m (hlen h) (4 + zlen rest) s =
    Ok (transmitted [m] (take 14 (r_linkdata e) ++ echo_answer h code rest ++ pad) (routed (ih_src h) s)).
Proof.
  intros data HP He Hck Hkc Hlen Hb Hip Hlow Hw Hlk Hhl Hld.
  destruct HP as [Em Hm Hn Hv Hk Hl Hin]. unfold echo_reply. rewrite (load_Some _ _ _ Em), Ok_bind.
  destruct (swap_addrs_ok p 14 eth h ck data _ Hv He Hck Hip) as (p0 & p1 & G1 & G2 & E0 & E1 & Em1 & Hv1).
  rewrite G1, Ok_bind, G2, Ok_bind, E0, Ok_bind, E1, Ok_bind. cbv zeta.
  set (h' := swap_addrs h) in *. pose proof (swap_ok h _ Hip) as Hip'. fold h' in Hip'.
  pose proof (ip_bytes_length h' ck _ Hip' Hck) as Hhb'. change (hlen h') with (hlen h) in Hhb'.
  pose proof (ip_bytes_length h ck _ Hip Hck) as Hhb.
  pose proof Hip as [Lm Ls Ld Lo Lt Lx].
  pose proof (view_forward p1 14 _ (hlen h) Hv1) as Hvf. set (pf := forward (hlen h) p1) in *.
  set (A := eth ++ ip_bytes h' ck).
  assert (zlen A = 14 + hlen h) as HA by (unfold A; rewrite length_app; lia).
  assert (∀ a c, eth ++ ip_bytes h' ck ++ echo_bytes a code c rest ++ pad = A ++ [a] ++ ([code] ++ c ++ rest ++ pad)) as S1.
  { intros. unfold A, echo_bytes. by rewrite <- !app_assoc. }
  assert (∀ a c, eth ++ ip_bytes h' ck ++ echo_bytes a code c rest ++ pad = (A ++ [a; code]) ++ c ++ (rest ++ pad)) as S2.
  { intros. unfold A, echo_bytes. by rewrite <- !app_assoc. }
  destruct (put_mid pf _ _ _ _ _ 0 [ICMP_ECHOREPLY] Hvf (S1 _ _)) as (p2 & E2 & Em2 & Hv2); [lia|done|].
  rewrite E2, Ok_bind. rewrite <- S1 in Hv2.
  destruct (put_mid p2 _ _ _ _ _ 2 [0; 0] Hv2 (S2 _ _)) as (p3 & E3 & Em3 & Hv3);
    [rewrite length_app; cbn [length]; lia|by rewrite Hkc|].
  rewrite E3, Ok_bind. rewrite <- S2 in Hv3.
  assert (pk_mb p3 = pk_mb pf) as Em3' by congruence.
  assert (m_len (pk_mb pf) = zlen data) as Hlf.
  { change (u32 (m_len (pk_mb p1) - hlen h) = zlen data). rewrite Em1, Hlen, length_app, wrap_small; [lia|].
    rewrite Hlen, length_app in Hl. lia. }
  assert (zlen data = 4 + zlen rest + zlen pad) as Hdl.
  { unfold data, echo_bytes. rewrite !length_app. cbn [length]. lia. }
  assert (∀ a c, length c = 2%nat → zlen (eth ++ ip_bytes h' ck ++ echo_bytes a code c rest ++ pad) = 14 + hlen h + zlen data) as HL.
  { intros a c Hc. rewrite S2, !length_app. cbn [length]. rewrite Hc. lia. }
  assert (∀ c, byte_list c → byte_list (eth ++ ip_bytes h' ck ++ echo_bytes ICMP_ECHOREPLY code c rest ++ pad)) as HB.
  { intros c Hc. revert Hb. unfold data, ip_bytes, echo_bytes, h'.
    cbn [swap_addrs ih_vhl ih_tos ih_len ih_mid ih_src ih_dst ih_opts].
    change [ICMP_ECHO; code] with ([ICMP_ECHO] ++ [code]). change [ICMP_ECHOREPLY; code] with ([ICMP_ECHOREPLY] ++ [code]).
    rewrite !byte_list_app. intuition. by repeat constructor. }
  set (c := Ref.cksum (echo_bytes ICMP_ECHOREPLY code [0; 0] rest)).
  set (L3 := eth ++ ip_bytes h' ck ++ echo_bytes ICMP_ECHOREPLY code [0; 0] rest ++ pad) in *.
  rewrite (cksum_of_one m (4 + zlen rest) (n_pkts (set_pkt m p3 s)) p3 (14 + hlen h) L3 Hm (lookup_insert_eq _ _ _)), Ok_bind;
    [|by rewrite Em3'; unfold pf, forward; cbn; rewrite Em1|exact Hv3|lia|apply HB; by repeat constructor|
     lia|rewrite Em3'; lia|unfold L3; rewrite HL by done; rewrite Em3'; lia].
  assert (slice (14 + hlen h) (4 + zlen rest) L3 = echo_bytes ICMP_ECHOREPLY code [0; 0] rest) as ->.
  { unfold L3. rewrite app_assoc. fold A. apply slice_mid; [done|]. unfold echo_bytes. rewrite !length_app. cbn [length]. lia. }
  fold c.
  destruct (put_mid p3 _ L3 _ _ _ 2 (le_bytes 2 c) Hv3 (S2 _ _)) as (p4 & E4 & Em4 & Hv4);
    [rewrite length_app; cbn [length]; lia|done|].
  rewrite E4, Ok_bind. rewrite <- S2 in Hv4.
  pose proof (view_backward p4 _ _ (hlen h) Hv4) as Hvb. replace (14 + hlen h - hlen h) with 14 in Hvb by lia.
  set (pb := backward (hlen h) p4) in *.
  assert (m_len (pk_mb pb) = m_len (pk_mb p)) as Hlb.
  { change (u32 (m_len (pk_mb p4) + hlen h) = m_len (pk_mb p)). rewrite Em4, Em3', Hlf, wrap_small; rewrite Hlen, length_app in *; lia. }
  assert (packet (set_pkt m pb s) m pb 14 (eth ++ ip_bytes h' ck ++ (echo_bytes ICMP_ECHOREPLY code (le_bytes 2 c) rest ++ pad))) as HPb.
  { split; [apply lookup_insert_eq|done| |exact Hvb|lia|by rewrite Hlb|].
    - unfold pb, backward. cbn. rewrite Em4, Em3'. unfold pf, forward. cbn. by rewrite Em1.
    - rewrite HL by done. rewrite Hlb, Hlen, length_app. lia. }
  assert (byte_list (echo_bytes ICMP_ECHOREPLY code [0; 0] rest)) as Hbe.
  { specialize (HB [0; 0]). rewrite !byte_list_app in HB. apply HB. by repeat constructor. }
  assert (0 ≤ c ≤ 65535) as Hc.
  { unfold c. destruct (cksum_ref_ok _ Hbe) as (r & -> & _ & ?). lia. }
  rewrite (ip_output_ok _ m pb eth h' ck _ e (4 + zlen rest) HPb); try done || lia.
  - rewrite Ok_bind. cbv beta iota. cbn [negb Z.eqb]. f_equal. rewrite routed_set_pkt, transmitted_set_pkt by elem.
    f_equal. unfold echo_answer. fold h'. fold c. by rewrite <- !app_assoc.
  - assert (zlen (echo_bytes ICMP_ECHOREPLY code (le_bytes 2 c) rest ++ pad) = zlen data) as E.
    { rewrite Hdl. unfold echo_bytes. rewrite !length_app. cbn [length le_bytes]. lia. }
    rewrite Hlb, Hlen, length_app, (length_app (ip_bytes h' ck)). lia.
  - apply HB. rewrite le_bytes_2 by done. pose proof (Z.mod_pos_bound c 256).
    repeat constructor; [lia|lia| |].
    + apply Z.div_pos; lia.
    + apply Z.div_lt_upper_bound; lia.
Qed.

(** The driver passes up the mbuf [m], whose data is [frame]. *)
Record received (s : net) (m : Z) (frame : list Z) : Prop := {
  rx_bytes : byte_list frame;
  rx_ptr : m ≠ 0;
  rx_len : zlen frame < 2 ^ 31;
  rx_pkt : ∃ p, n_pkts s !! m = Some p ∧ view p 0 frame ∧ m_next (pk_mb p) = 0 ∧ m_len (pk_mb p) = zlen frame
}.

(** Moving past a header and back. *)
Lemma packet_back s m p k l n :
  packet s m p k l → 0 ≤ n →
  packet (set_pkt m (backward n (forward n p)) s) m (backward n (forward n p)) k l ∧
  m_len (pk_mb (backward n (forward n p))) = m_len (pk_mb p).
Proof.
  intros [Em Hm Hn Hv Hk Hl Hin] Hn0.
  assert (m_len (pk_mb (backward n (forward n p))) = m_len (pk_mb p)) as E.
  { unfold backward, forward. cbn. unfold wrap. rewrite Zplus_mod_idemp_l.
    replace (m_len (pk_mb p) - n + n) with (m_len (pk_mb p)) by lia. apply Z.mod_small. lia. }
  split; [|done]. split; [apply lookup_insert_eq|done|done| |done|by rewrite E|by rewrite E].
  pose proof (view_backward _ _ _ n (view_forward _ _ _ n Hv)) as Hv'.
  by replace (k + n - n) with k in Hv' by lia.
Qed.

Lemma ip_input_ping s m p eth h ck code kc rest pad e :
  let data := echo_bytes ICMP_ECHO code kc rest ++ pad in
  let frame := eth ++ ip_bytes h ck ++ data in
  n_pkts s !! m = Some p → m ≠ 0 → m_next (pk_mb p) = 0 → view p 0 frame → m_len (pk_mb p) = zlen frame →
  zlen frame < 2 ^ 31 → byte_list frame → zlen eth = 14 → length ck = 2%nat → length kc = 2%nat →
  ip_ok h (4 + zlen rest) → Ref.cksum (echo_bytes ICMP_ECHO code kc rest) = 0 →
  mapped (n_mem s) ro_dst 16 → willing s → arp_lookup (lle_head (n_if s)) (le (ih_src h)) = Some e →
  r_hdrlen e = 14 → 14 ≤ zlen (r_linkdata e) →
  ip_input m s = Ok (transmitted [m] (take 14 (r_linkdata e) ++ echo_answer h code rest ++ pad) (routed (ih_src h) s)).
Proof.
  intros data frame Em Hm Hn Hv Hlen Hmax Hb He Hck Hkc Hip Hsum Hlow Hw Hlk Hhl Hld.
  pose proof Hip as [Lm Ls Ld Lo Lt Lx]. pose proof (ip_bytes_length h ck _ Hip Hck) as Hhb.
  assert (zlen data = 4 + zlen rest + zlen pad) as Hdl.
  { unfold data, echo_bytes. rewrite !length_app. cbn [length]. lia. }
  assert (zlen frame = 14 + hlen h + zlen data) as Hfl by (unfold frame; rewrite !length_app; lia).
  unfold ip_input. rewrite (load_Some _ _ _ Em), Ok_bind. unfold ETHER_HDR_LEN.
  destruct (view_adj p 0 _ 14 Hv) as (Hv1 & Hl1 & Hn1); [lia|lia|]. set (q := adj 14 p) in *. rewrite Z.add_0_l in Hv1.
  assert (frame = eth ++ [ih_vhl h] ++ ([ih_tos h] ++ htons (ih_len h) ++ ih_mid h ++ [IPPROTO_ICMP] ++ ck ++ ih_src h ++ ih_dst h ++ ih_opts h ++ data)) as F0.
  { unfold frame, ip_bytes. by rewrite <- !app_assoc. }
  assert (frame = (eth ++ [ih_vhl h; ih_tos h]) ++ htons (ih_len h) ++ (ih_mid h ++ [IPPROTO_ICMP] ++ ck ++ ih_src h ++ ih_dst h ++ ih_opts h ++ data)) as F2.
  { unfold frame, ip_bytes. by rewrite <- !app_assoc. }
  assert (frame = (eth ++ [ih_vhl h; ih_tos h] ++ htons (ih_len h) ++ ih_mid h) ++ [IPPROTO_ICMP] ++ (ck ++ ih_src h ++ ih_dst h ++ ih_opts h ++ data)) as F9.
  { unfold frame, ip_bytes. by rewrite <- !app_assoc. }
  assert (ip_hlen q = Ok (hlen h)) as Hhl'.
  { unfold ip_hlen, get8. rewrite (get_mid q 14 _ _ _ _ 0 1 Hv1 F0), !Ok_bind by (done || lia). done. }
  rewrite Hhl', Ok_bind. unfold get8 at 1.
  rewrite (get_mid q 14 _ _ _ _ 9 1 Hv1 F9), !Ok_bind by (done || (unfold htons; rewrite !length_app; cbn [length]; lia)).
  cbn [head default from_option]. change (IPPROTO_ICMP =? IPPROTO_ICMP) with true. cbv iota.
  unfold icmp_input. rewrite load_set_pkt, Ok_bind. unfold get16.
  rewrite (get_mid q 14 _ _ _ _ 2 2 Hv1 F2), !Ok_bind by (done || (rewrite !length_app; cbn [length]; lia)).
  rewrite Hhl', Ok_bind, ntohs_htons. cbv zeta.
  assert (packet (set_pkt m q s) m q 14 frame) as HP.
  { split; [apply lookup_insert_eq|done|by rewrite Hn1|done|lia|lia|lia]. }
  set (qf := forward (hlen h) q). pose proof (view_forward q 14 frame (hlen h) Hv1) as Hvf. fold qf in Hvf.
  assert (m_len (pk_mb qf) = zlen data) as Hlf.
  { change (u32 (m_len (pk_mb q) - hlen h) = zlen data). rewrite Hl1, Hlen, Hfl, wrap_small; lia. }
  replace (ih_len h - hlen h) with (4 + zlen rest) by lia.
  rewrite (cksum_of_one m (4 + zlen rest) (n_pkts (set_pkt m qf (set_pkt m q s))) qf (14 + hlen h) frame Hm (lookup_insert_eq _ _ _)), Ok_bind;
    [|exact (eq_trans Hn1 Hn)|exact Hvf|lia|exact Hb|lia|lia|lia].
  assert (frame = (eth ++ ip_bytes h ck) ++ echo_bytes ICMP_ECHO code kc rest ++ pad) as Fi.
  { unfold frame, data. by rewrite <- !app_assoc. }
  rewrite Fi at 1. rewrite slice_mid; [|rewrite length_app; lia|unfold echo_bytes; rewrite !length_app; cbn [length]; lia].
  rewrite Hsum. cbn [negb Z.eqb]. unfold get8.
  rewrite (get_mid qf (14 + hlen h) frame (eth ++ ip_bytes h ck) [ICMP_ECHO] ([code] ++ kc ++ rest ++ pad) 0 1 Hvf), Ok_bind;
    [|rewrite Fi; unfold echo_bytes; by rewrite <- !app_assoc|rewrite length_app; lia|done].
  rewrite Ok_bind. cbn [head default from_option]. change (ICMP_ECHO =? ICMP_ECHO) with true. cbv iota.
  destruct (packet_back _ _ _ _ _ (hlen h) HP) as [HPb Hlb]; [lia|].
  set (s1 := set_pkt m (backward (hlen h) qf) (set_pkt m qf (set_pkt m q s))).
  assert (packet s1 m (backward (hlen h) qf) 14 frame) as HP1.
  { destruct HPb as [? ? ? ? ? ? ?]. split; try done. apply lookup_insert_eq. }
  rewrite (echo_reply_ok s1 m _ eth h ck code kc rest pad e HP1 He Hck Hkc); try done.
  - unfold s1. by rewrite !routed_set_pkt, !transmitted_set_pkt by elem.
  - fold data. unfold qf. rewrite Hlb, Hl1, Hlen, Hfl, length_app. lia.
Qed.

(** The checksums of the answer are right. *)
Lemma answer_valid h code rest icmplen : ip_ok h icmplen →
  byte_list (ip_bytes h [0; 0]) → byte_list (echo_bytes ICMP_ECHOREPLY code [0; 0] rest) →
  Ref.cksum (ip_bytes h (le_bytes 2 (Ref.cksum (ip_bytes h [0; 0])))) = 0 ∧
  Ref.cksum (echo_bytes ICMP_ECHOREPLY code
    (le_bytes 2 (Ref.cksum (echo_bytes ICMP_ECHOREPLY code [0; 0] rest))) rest) = 0.
Proof.
  intros [Lm Ls Ld Lo Lt Lx] Hi He.
  assert (∀ p q c, byte_list p → byte_list q → Nat.Even (length p) → Ref.cksum (p ++ [0; 0] ++ q) = c →
    Ref.cksum (p ++ le_bytes 2 c ++ q) = 0) as Fill.
  { intros p q c Hp Hq Hev E. destruct (cksum_fill p q c Hp Hq Hev E) as [H1 H2]. by rewrite le_bytes_2. }
  split.
  - set (pre := [ih_vhl h; ih_tos h] ++ htons (ih_len h) ++ ih_mid h ++ [IPPROTO_ICMP]).
    assert (∀ c, ip_bytes h c = pre ++ c ++ (ih_src h ++ ih_dst h ++ ih_opts h)) as Sp.
    { intros c. unfold ip_bytes, pre. by rewrite <- !app_assoc. }
    rewrite !Sp in *. rewrite !byte_list_app in Hi. apply Fill; try tauto.
    + rewrite !byte_list_app. tauto.
    + exists 5%nat. unfold pre, htons. rewrite !length_app. cbn [length]. lia.
  - unfold echo_bytes in *. rewrite !byte_list_app in He. apply Fill; try tauto. by exists 1%nat.
Qed.

(** C28: a ping is answered.  An ICMP echo request with a valid ICMP checksum, from a
    neighbour in the ARP table, in an IPv4 datagram with or without options and
    with any Ethernet padding, is sent back in its own mbuf: the link-layer header
    of the neighbour, the addresses exchanged, the type changed to echo reply and
    the rest as it was; the two checksums of the answer are valid, the driver, which
    takes what it is given, gets the mbuf, and nothing else changes but this: the
    route is NULL, so the socket address of the neighbour is stored over the sixteen
    bytes at NULL's ro_dst, which have to be RAM ([NetDemo.ping_faults] is the other
    case). *)
Theorem ping_reply s m dst src h ck code kc rest pad e :
  received s m (ether_bytes dst src ETHERTYPE_IP ++ ip_bytes h ck ++ echo_bytes ICMP_ECHO code kc rest ++ pad) →
  hw dst → hw src → length ck = 2%nat → length kc = 2%nat → ip_ok h (4 + zlen rest) →
  Ref.cksum (echo_bytes ICMP_ECHO code kc rest) = 0 →
  mapped (n_mem s) ro_dst 16 → willing s → arp_lookup (lle_head (n_if s)) (le (ih_src h)) = Some e →
  r_hdrlen e = 14 → 14 ≤ zlen (r_linkdata e) →
  ∃ ck' kc', ether_input m s =
      Ok (transmitted [m] (take 14 (r_linkdata e) ++
            (ip_bytes (swap_addrs h) ck' ++ echo_bytes ICMP_ECHOREPLY code kc' rest) ++ pad) (routed (ih_src h) s)) ∧
    Ref.cksum (ip_bytes (swap_addrs h) ck') = 0 ∧ Ref.cksum (echo_bytes ICMP_ECHOREPLY code kc' rest) = 0.
Proof.
  intros [Hb Hm Hmax (p & Em & Hv & Hn & Hlen)] Hd Hs Hck Hkc Hip Hsum Hlow Hw Hlk Hhl Hld.
  eexists _, _. split.
  - unfold ether_input. rewrite (load_Some _ _ _ Em), Ok_bind.
    rewrite (ether_type_ok p _ _ dst src ETHERTYPE_IP Hv eq_refl Hd Hs), Ok_bind.
    change (_ =? ETHERTYPE_ARP) with false. change (_ =? ETHERTYPE_IP) with true. cbv iota.
    apply (ip_input_ping s m p (ether_bytes dst src ETHERTYPE_IP) h ck code kc rest pad e); try done. cells. done.
  - revert Hb. rewrite !byte_list_app. intros (_ & Hi & He & _).
    apply (answer_valid (swap_addrs h) code rest (4 + zlen rest) (swap_ok h _ Hip)).
    + revert Hi. unfold ip_bytes. cbn [swap_addrs ih_vhl ih_tos ih_len ih_mid ih_src ih_dst ih_opts].
      rewrite !byte_list_app. intuition. by repeat constructor.
    + revert He. unfold echo_bytes. change [ICMP_ECHO; code] with ([ICMP_ECHO] ++ [code]).
      change [ICMP_ECHOREPLY; code] with ([ICMP_ECHOREPLY] ++ [code]).
      rewrite !byte_list_app. intuition; by repeat constructor.
Qed.

(** ** Address resolution *)

(** An ARP frame from the driver, request or reply. *)
Lemma ether_input_arp s m dst src op sha spa tha tpa pad :
  received s m (ether_bytes dst src ETHERTYPE_ARP ++ arp_bytes op sha spa tha tpa ++ pad) →
  hw dst → hw src → hw sha → hw tha → op = ARPOP_REQUEST ∨ op = ARPOP_REPLY →
  ∃ p, view p 0 (arp_bytes op sha spa tha tpa) ∧
    ether_input m s =
      (s ← (if op =? ARPOP_REQUEST then arp_reply_to_request m (set_pkt m p s) else arp_reply m (set_pkt m p s));
       m_free m s).
Proof.
  intros [Hb Hm Hmax (p & Em & Hv & Hn & Hlen)] Hd Hs Hsh Ht Hop.
  destruct (arp_input_eq s m p _ op sha spa tha tpa pad Em Hv) as [Hv' E]; try done.
  { cells. done. } { lia. }
  exists (adj 14 p). split; [done|]. unfold ether_input. rewrite (load_Some _ _ _ Em), Ok_bind.
  rewrite (ether_type_ok p _ _ dst src ETHERTYPE_ARP Hv eq_refl Hd Hs), Ok_bind.
  change (_ =? ETHERTYPE_ARP) with true. cbv iota. by rewrite E.
Qed.

(** The state after [m] was freed. *)
Definition freed (m : Z) (s : net) : net := set_pkts (delete m (n_pkts s)) s.

Lemma m_free_ok m s : is_Some (n_pkts s !! m) → m_free m s = Ok (freed m s).
Proof. intros [p E]. unfold m_free. by rewrite (load_Some _ _ _ E). Qed.

Lemma foldr_delete_lookup (ps : gmap Z pkt) ms m : m ∉ ms → foldr delete ps ms !! m = ps !! m.
Proof.
  induction ms as [|a ms IH]; [done|]. intros Hm. cbn. rewrite lookup_delete_ne by set_solver.
  apply IH. set_solver.
Qed.

(** A request that reaches the host with the address is answered. *)
Lemma request_answered i l s m f1 f2 fs dst src sha spa tha tpa pad :
  n_if s = i → ethernet i l → supply s f1 f2 fs → willing s →
  received s m (ether_bytes dst src ETHERTYPE_ARP ++ arp_bytes ARPOP_REQUEST sha spa tha tpa ++ pad) →
  hw dst → hw src → hw sha → hw tha → 0 ≤ tpa < 2 ^ 32 → in_ifhasaddr i tpa = true →
  ether_input m s = Ok (freed m (transmitted [f_m f2; f_m f1]
    (ether_bytes sha l ETHERTYPE_ARP ++ arp_bytes ARPOP_REPLY l tpa sha spa) (set_fresh fs s))).
Proof.
  intros Ei Hi Hsu Hw Hrx Hd Hs Hsh Ht Htpa Hin.
  destruct (ether_input_arp s m dst src _ sha spa tha tpa pad Hrx) as (p & Hv & E); try done; [by left|].
  rewrite E. change (ARPOP_REQUEST =? ARPOP_REQUEST) with true. cbv iota.
  destruct Hrx as [_ Hm _ (p' & Em & _)]. destruct Hsu as [Ef Hf0 [Hn1 Hn2] Hfb].
  assert (m ≠ f_m f1 ∧ m ≠ f_m f2) as [Hm1 Hm2] by (split; intros ->; congruence).
  rewrite (arp_reply_to_request_ok i l _ m p f1 f2 fs sha spa tha tpa); try done.
  - rewrite Ok_bind. change (set_fresh fs (set_pkt m p s)) with (set_pkt m p (set_fresh fs s)).
    rewrite m_free_ok.
    + f_equal. unfold freed, transmitted, set_pkts. cbn. f_equal.
      rewrite !(delete_insert_ne _ _ m) by done. by rewrite delete_insert_eq.
    + cbn. rewrite !lookup_delete_ne by done. rewrite lookup_insert_eq. eauto.
  - split; [done|done| |done]. cbn. by rewrite !lookup_insert_ne.
  - cbn. apply lookup_insert_eq.
Qed.

(** An answer that reaches a host that does not know the sender is learned. *)
Lemma answer_learned i l s m f fs dst src sha spa tha tpa pad :
  n_if s = i → ethernet i l → n_fresh s = f :: fs → f_m f ≠ 0 →
  received s m (ether_bytes dst src ETHERTYPE_ARP ++ arp_bytes ARPOP_REPLY sha spa tha tpa ++ pad) →
  hw dst → hw src → hw sha → hw tha → 0 ≤ tpa < 2 ^ 32 → 0 ≤ spa < 2 ^ 32 →
  in_ifhasaddr i tpa = true → arp_lookup (lle_head i) spa = None →
  ether_input m s = Ok (freed m (set_if (learned i l sha spa) (set_fresh fs s))).
Proof.
  intros Ei Hi Ef Hf Hrx Hd Hs Hsh Ht Htpa Hspa Hin Hlk.
  destruct (ether_input_arp s m dst src _ sha spa tha tpa pad Hrx) as (p & Hv & E); try done; [by right|].
  rewrite E. change (ARPOP_REPLY =? ARPOP_REQUEST) with false. cbv iota.
  rewrite (arp_reply_ok i l _ m p f fs sha spa tha tpa); try done.
  - rewrite Ok_bind, m_free_ok by (cbn; rewrite lookup_insert_eq; eauto).
    unfold freed, set_pkts, set_if, set_fresh, set_pkt. cbn. by rewrite delete_insert_eq.
  - cbn. apply lookup_insert_eq.
Qed.

(** The two frames of an exchange between A and B. *)
Definition request_frame (hwA : list Z) (ipA ipB : Z) : list Z :=
  ether_bytes (replicate 6 0xff) hwA ETHERTYPE_ARP ++ arp_bytes ARPOP_REQUEST hwA ipA (replicate 6 0) ipB.
Definition answer_frame (hwA hwB : list Z) (ipA ipB : Z) : list Z :=
  ether_bytes hwA hwB ETHERTYPE_ARP ++ arp_bytes ARPOP_REPLY hwB ipB hwA ipA.

(** C29: address resolution works end to end.  Host A, which has an address on B's
    network and no entry for B, broadcasts a request when it resolves B's address;
    when the frame reaches B, B sends A the answer; when the answer reaches A, A's
    next resolution of B's address gives the Ethernet header from A to B.  Both may
    get the frames with any padding and in any buffer, both free the mbufs they
    got, and both drivers take what they are given. *)
Theorem arp_exchange sA sB hwA hwB ipA ipB f1 f2 f3 fs g1 g2 gs :
  ethernet (n_if sA) hwA → ethernet (n_if sB) hwB →
  pick_sip (if_addrhead (n_if sA)) ipB None = Some ipA →
  in_ifhasaddr (n_if sA) ipA = true → in_ifhasaddr (n_if sB) ipB = true →
  0 ≤ ipA < 2 ^ 32 → 0 ≤ ipB < 2 ^ 32 → arp_lookup (lle_head (n_if sA)) ipB = None →
  supply sA f1 f2 (f3 :: fs) → supply sB g1 g2 gs → f_m f3 ≠ 0 → willing sA → willing sB →
  ∃ sA1, arpresolve ipB sA = Ok (MDX_ERROR, [], sA1) ∧
    n_sent sA1 = n_sent sA ++ [([f_m f2; f_m f1], request_frame hwA ipA ipB)] ∧
    ∀ mB pad, received sB mB (request_frame hwA ipA ipB ++ pad) →
    ∃ sB1, ether_input mB sB = Ok sB1 ∧ n_pkts sB1 !! mB = None ∧
      n_sent sB1 = n_sent sB ++ [([f_m g2; f_m g1], answer_frame hwA hwB ipA ipB)] ∧
      ∀ mA pA pad', received (set_pkt mA pA sA1) mA (answer_frame hwA hwB ipA ipB ++ pad') →
      ∃ sA2, ether_input mA (set_pkt mA pA sA1) = Ok sA2 ∧ n_pkts sA2 !! mA = None ∧
        arpresolve ipB sA2 = Ok (MDX_OK, ether_bytes hwB hwA ETHERTYPE_IP, sA2).
Proof.
  intros HA HB Hsip HinA HinB HipA HipB Hlk HsA HsB Hf3 HwA HwB. unfold request_frame, answer_frame.
  eexists. split; [|split].
  { unfold arpresolve. rewrite Hlk. rewrite (arprequest_ok _ hwA sA f1 f2 (f3 :: fs) ipB ipA eq_refl HA HsA HwA Hsip).
    by rewrite Ok_bind. }
  { reflexivity. }
  intros mB pad HrB. rewrite <- app_assoc in HrB.
  eexists. split; [|split; [|split]].
  { apply (request_answered _ hwB sB mB g1 g2 gs _ _ hwA ipA _ ipB pad eq_refl HB HsB HwB HrB); try done;
      by apply (eth_hw6 _ _ HA). }
  { apply lookup_delete_eq. }
  { reflexivity. }
  intros mA pA pad' HrA. rewrite <- app_assoc in HrA.
  eexists. split; [|split].
  { apply (answer_learned (n_if sA) hwA _ mA f3 fs hwA hwB hwB ipB hwA ipA pad'); try done;
      by apply (eth_hw6 _ _ HA) || apply (eth_hw6 _ _ HB). }
  { apply lookup_delete_eq. }
  unfold arpresolve. cbn [n_if freed set_pkts set_if learned set_lle lle_head].
  rewrite arp_lookup_hit by done. cbn [r_hdrlen r_linkdata]. change (ETHER_HDR_LEN <? 14) with false. cbv iota.
  pose proof (eth_hw6 _ _ HA) as H6A. pose proof (eth_hw6 _ _ HB) as H6B. clear -H6A H6B. cells. done.
Qed.
End ping.

(** ** Two hosts *)

Module NetDemo.

#[export] Instance errno : Errno.
Proof. refine {| EOPNOTSUPP := 45; EAFNOSUPPORT := 47; EWOULDBLOCK := 35 |}. lia. Defined.

Definition junk_if : ifnet :=
  {| if_type := 0; if_addrlen := 0; if_hdrlen := 0; if_mtu := 0; if_hw_addr := []; if_broadcastaddr := [];
     if_addrhead := []; lle_head := [] |}.
Definition junk_mb : mbuf := {| m_next := 7; m_len := 7; m_type := 0; m_flags := 0; m_data := 0; m_data0 := 0 |}.

(** An interface attached with the hardware address [l] and the address [a]/24. *)
Definition interface (l : list Z) (a : Z) : ifnet :=
  (in_aifaddr a (le [255; 255; 255; 0]) (if_attach l (if_alloc junk_if IFT_ETHER) []).1.2).2.

Definition buffer (n : Z) : fresh :=
  {| f_m := 4096 * n; f_data := 4096 * n + 64; f_junk := junk_mb; f_bytes := replicate 64 99 |}.

(** RAM at the first bytes of memory, or none. *)
Definition low_ram (low : bool) : mem_t := if low then list_to_map (zip (seqZ 0 32) (seqZ 0 32)) else ∅.

Definition host (l : list Z) (a : Z) (low : bool) (tx : list Z) : net :=
  {| n_if := interface l a; n_pkts := ∅; n_fresh := buffer <$> [1; 2; 3]; n_tx := tx; n_sent := [];
     n_mem := low_ram low |}.

Definition arrived (frame : list Z) : pkt :=
  {| pk_mb := {| m_next := 0; m_len := Z.of_nat (length frame); m_type := 0; m_flags := 0;
                 m_data := 70000; m_data0 := 70000 |}; pk_bytes := frame ++ [1; 2] |}.
Definition arriving (m : Z) (frame : list Z) (s : net) : net := set_pkt m (arrived frame) s.

Definition hwA : list Z := [2; 0; 0; 0; 0; 1].
Definition hwB : list Z := [2; 0; 0; 0; 0; 2].
Definition ipA : Z := le [10; 0; 0; 1].
Definition ipB : Z := le [10; 0; 0; 2].

(** A knows B. *)
Definition A_knows_B (low : bool) : net :=
  let s := host hwA ipA low [] in
  set_if (learned (n_if s) hwA hwB ipB) s.

Definition header : ip_hdr :=
  {| ih_vhl := 0x46; ih_tos := 0; ih_len := 24 + (4 + 9); ih_mid := [1; 2; 0; 0; 64]; ih_src := [10; 0; 0; 2];
     ih_dst := [10; 0; 0; 1]; ih_opts := [1; 1; 1; 0] |}.
Definition payload : list Z := [0; 1; 0; 7; 104; 101; 108; 108; 111].
Definition icmp_sum : list Z := le_bytes 2 (Ref.cksum (echo_bytes ICMP_ECHO 0 [0; 0] payload)).
Definition ping : list Z :=
  ether_bytes hwA hwB ETHERTYPE_IP ++ ip_bytes header [0; 0] ++ echo_bytes ICMP_ECHO 0 icmp_sum payload ++ [0; 0; 0].

Lemma received_arriving m frame s : m ≠ 0 → Forall (λ b, 0 ≤ b < 256) frame → zlen frame < 2 ^ 31 →
  received (arriving m frame s) m frame.
Proof.
  intros Hm Hb Hl. split; [done|done|done|]. eexists. split; [apply lookup_insert_eq|].
  split; [|done]. exists [], [1; 2]. done.
Qed.

Lemma ping_reply_witness :
  ∃ ck' kc', ether_input 50 (arriving 50 ping (A_knows_B true)) =
      Ok (transmitted [50] (take 14 (ether_bytes hwB hwA ETHERTYPE_IP ++ replicate 10 0) ++
            (ip_bytes (swap_addrs header) ck' ++ echo_bytes ICMP_ECHOREPLY 0 kc' payload) ++ [0; 0; 0])
            (routed [10; 0; 0; 2] (arriving 50 ping (A_knows_B true)))) ∧
    Ref.cksum (ip_bytes (swap_addrs header) ck') = 0 ∧ Ref.cksum (echo_bytes ICMP_ECHOREPLY 0 kc' payload) = 0.
Proof.
  apply (ping_reply (arriving 50 ping (A_knows_B true)) 50 hwA hwB header [0; 0] 0 icmp_sum payload [0; 0; 0]
    {| r_linkdata := ether_bytes hwB hwA ETHERTYPE_IP ++ replicate 10 0; r_hdrlen := 14; addr4 := ipB |}).
  - apply received_arriving; [done| |done]. apply (bool_decide_unpack _). by vm_compute.
  - done.
  - done.
  - done.
  - done.
  - by split.
  - by vm_compute.
  - intros x Hx. assert (x ∈ seqZ 8 16) as Hin by (apply elem_of_seqZ; change ro_dst with 8 in Hx; lia).
    clear Hx. revert x Hin. apply Forall_forall. apply (bool_decide_unpack _). by vm_compute.
  - done.
  - by vm_compute.
  - done.
  - by vm_compute.
Defined.

(** When the memory at NULL is not RAM the same ping is a fault. *)
Lemma ping_faults : ether_input 50 (arriving 50 ping (A_knows_B false)) = Err Fault.
Proof. by vm_compute. Qed.

Lemma host_supply l a low tx : supply (host l a low tx) (buffer 1) (buffer 2) [buffer 3].
Proof. by split; split_and?. Qed.

Lemma arp_exchange_witness :
  let request := request_frame hwA ipA ipB in
  let answer := answer_frame hwA hwB ipA ipB in
  let sA := host hwA ipA true [] in
  let sB := arriving 50 (request ++ [0; 0; 0]) (host hwB ipB true []) in
  ∃ sA1, arpresolve ipB sA = Ok (MDX_ERROR, [], sA1) ∧ n_sent sA1 = [([f_m (buffer 2); f_m (buffer 1)], request)] ∧
  ∃ sB1, ether_input 50 sB = Ok sB1 ∧ n_sent sB1 = [([f_m (buffer 2); f_m (buffer 1)], answer)] ∧
  ∃ sA2, ether_input 60 (arriving 60 answer sA1) = Ok sA2 ∧
    arpresolve ipB sA2 = Ok (MDX_OK, ether_bytes hwB hwA ETHERTYPE_IP, sA2).
Proof.
  intros request answer sA sB.
  destruct (arp_exchange sA sB hwA hwB ipA ipB (buffer 1) (buffer 2) (buffer 3) [] (buffer 1) (buffer 2) [buffer 3])
    as (sA1 & E1 & S1 & HB).
  1-2: done.
  1-5: by vm_compute.
  1: done.
  1: apply host_supply.
  1: split; by split_and?.
  1-3: done.
  - exists sA1. split; [exact E1|]. split; [exact S1|].
    destruct (HB 50 [0; 0; 0]) as (sB1 & E2 & _ & S2 & HA).
    { apply received_arriving; [done| |done]. apply (bool_decide_unpack _). by vm_compute. }
    exists sB1. split; [exact E2|]. split; [exact S2|].
    destruct (HA 60 (arrived answer) []) as (sA2 & E3 & _ & R).
    { rewrite app_nil_r. apply received_arriving; [done| |done]. apply (bool_decide_unpack _). by vm_compute. }
    exists sA2. split; [exact E3|exact R].
Defined.

(** The driver refuses the answer to a request: both mbufs of the answer stay
    allocated, and nobody has them. *)
Definition request : list Z :=
  ether_bytes (replicate 6 0xff) hwA ETHERTYPE_ARP ++ arp_bytes ARPOP_REQUEST hwA ipA (replicate 6 0) ipB.

Lemma arp_reply_leaks :
  ∃ s, ether_input 50 (arriving 50 request (host hwB ipB true [55])) = Ok s ∧ n_sent s = [] ∧
    dom (n_pkts s) = {[f_m (buffer 1); f_m (buffer 2)]}.
Proof. eexists. split; [by vm_compute|]. split; [done|by vm_compute]. Qed.

(** A datagram for a neighbour that is not in the table: the stack asks for the
    neighbour and drops the datagram. *)
Lemma unresolved_dropped :
  ∃ s, ether_input 50 (arriving 50 ping (host hwA ipA true [])) = Ok s ∧
    dom (n_pkts s) = ∅ ∧ (n_sent s).*1 = [[f_m (buffer 2); f_m (buffer 1)]].
Proof. eexists. split; [by vm_compute|]. by vm_compute. Qed.
End NetDemo.
