(* ===== verification/NetOwner.v ===== *)
(** * Network stack: who owns a packet

    An mbuf passed up by the driver is freed, or given back to the driver in a
    frame, exactly once; what the stack allocates goes to the driver. *)

From S2P Require Import Prelude Freelist FreelistInv FreelistSpec FreelistHeap FreelistProofs FreelistFree FreelistSetup FreelistTheorems Callout Kernel KernelTheorems Malloc MallocTheorems Mbuf Cksum CksumTheorems Memory Net NetProofs NetArp NetTheorems.
Local Open Scope Z_scope.

(** Every packet is a single mbuf, what malloc() returns is new, and the driver
    takes what it is given. *)
Record sound (s : net) : Prop := {
  so_null : n_pkts s !! 0 = None;
  so_single : map_Forall (λ _ p, m_next (pk_mb p) = 0) (n_pkts s);
  so_nodup : NoDup (filter (λ m, m ≠ 0) (f_m <$> n_fresh s));
  so_new : ∀ f, f ∈ n_fresh s → f_m f ≠ 0 → n_pkts s !! f_m f = None;
  so_tx : Forall (λ r, r = 0) (n_tx s)
}.

(** The mbufs that malloc() returned. *)
Definition mbufs (l : list fresh) : list Z := filter (λ m, m ≠ 0) (f_m <$> l).

(** What happened between two states, while the stack was working on the mbufs
    [own] and then on [own']: malloc() was called ([n_fresh] got shorter), frames
    were given to the driver, [freed] was freed and [entries] went into the ARP
    table.  The last line is the balance: what came in is what went out, each mbuf
    as often as it came.  No other packet changed. *)
Record flow (own own' freed entries : list Z) (s s' : net) : Prop := {
  fl_sound : sound s';
  fl_else : ∀ k, k ∉ own → k ∉ own' → n_pkts s' !! k = n_pkts s !! k;
  fl_gone : ∀ k, k ∈ own → k ∉ own' → n_pkts s' !! k = None;
  fl_new : ∀ k, k ∈ own' → k ∉ own → n_pkts s !! k = None;
  fl_table : ∃ es, n_if s' = set_lle (es ++ lle_head (n_if s)) (n_if s) ∧ length es = length entries;
  fl_balance : ∃ used sent, n_fresh s = used ++ n_fresh s' ∧ n_sent s' = n_sent s ++ sent ∧
    own ++ mbufs used ≡ₚ own' ++ concat sent.*1 ++ freed ++ entries
}.

Lemma set_lle_same i : set_lle ([] ++ lle_head i) i = i.
Proof. by destruct i. Qed.

Lemma mbufs_app l k : mbufs (l ++ k) = mbufs l ++ mbufs k.
Proof. unfold mbufs. by rewrite fmap_app, filter_app. Qed.

(** A step that calls neither malloc() nor the driver. *)
Lemma flow_quiet own own' freed s s' : sound s' →
  n_if s' = n_if s → n_fresh s' = n_fresh s → n_sent s' = n_sent s → own ≡ₚ own' ++ freed →
  (∀ k, k ∉ own → k ∉ own' → n_pkts s' !! k = n_pkts s !! k) →
  (∀ k, k ∈ own → k ∉ own' → n_pkts s' !! k = None) → flow own own' freed [] s s'.
Proof.
  intros Hs Ei Ef Es Hp He Hg. split; try done.
  - intros k Hk Hn. destruct Hn. rewrite Hp. apply elem_of_app. by left.
  - exists []. by rewrite set_lle_same.
  - exists [], []. rewrite Ef, Es. split_and!; [done|by rewrite app_nil_r|].
    change (own ++ [] ≡ₚ own' ++ freed ++ []). by rewrite !app_nil_r.
Qed.

Lemma flow_refl own s : sound s → flow own own [] [] s s.
Proof. intros Hs. apply flow_quiet; try done. by rewrite app_nil_r. Qed.

Lemma flow_trans own own1 own2 f1 f2 e1 e2 s s1 s2 :
  flow own own1 f1 e1 s s1 → flow own1 own2 f2 e2 s1 s2 → flow own own2 (f1 ++ f2) (e2 ++ e1) s s2.
Proof.
  intros [Hs1 He1 Hg1 Hn1 (es1 & Ei1 & El1) (u1 & t1 & Ef1 & Et1 & P1)]
    [Hs2 He2 Hg2 Hn2 (es2 & Ei2 & El2) (u2 & t2 & Ef2 & Et2 & P2)]. split; [done|..].
  - intros k Hk Hk2. destruct (decide (k ∈ own1)) as [H1|H1].
    + by rewrite Hg2, Hn1.
    + by rewrite He2, He1.
  - intros k Hk Hk2. destruct (decide (k ∈ own1)) as [H1|H1]; [by apply Hg2|]. by rewrite He2, Hg1.
  - intros k Hk2 Hk. destruct (decide (k ∈ own1)) as [H1|H1]; [by apply Hn1|]. by rewrite <- He1, Hn2.
  - exists (es2 ++ es1). rewrite Ei2, Ei1, !length_app, El1, El2, <- app_assoc. done.
  - exists (u1 ++ u2), (t1 ++ t2). rewrite Ef1, Ef2, Et2, Et1, mbufs_app, fmap_app, concat_app, !app_assoc.
    split_and!; [done|done|]. rewrite P1.
    transitivity ((own1 ++ mbufs u2) ++ concat t1.*1 ++ f1 ++ e1); [solve_Permutation|]. rewrite P2.
    solve_Permutation.
Qed.

Lemma flow_then own own1 own2 f e s s1 s2 :
  flow own own1 [] [] s s1 → flow own1 own2 f e s1 s2 → flow own own2 f e s s2.
Proof. intros F1 F2. pose proof (flow_trans _ _ _ _ _ _ _ _ _ _ F1 F2) as F. by rewrite app_nil_r in F. Qed.

(** The same next to mbufs that are not touched. *)
Lemma flow_frame k own own' f e s s' : flow own own' f e s s' → flow (k :: own) (k :: own') f e s s'.
Proof.
  intros [Hs He Hg Hn Ht (u & t & Ef & Et & P)]. split; try done.
  - set_solver.
  - set_solver.
  - set_solver.
  - exists u, t. split_and!; [done|done|]. cbn. by f_equiv.
Qed.

Lemma set_pkt_flow s m p p' : sound s → n_pkts s !! m = Some p → m_next (pk_mb p') = 0 →
  flow [m] [m] [] [] s (set_pkt m p' s).
Proof.
  intros [Z0 S N F T] E Hn. apply flow_quiet; try done.
  - split; try done.
    + cbn. rewrite lookup_insert_ne; [done|]. intros ->. congruence.
    + cbn. by apply map_Forall_insert_2.
    + intros f Hf Hf0. cbn. rewrite lookup_insert_ne; [by apply F|].
      intros ->. by rewrite (F f Hf Hf0) in E.
  - intros k Hk _. cbn. apply lookup_insert_ne. set_solver.
Qed.

Lemma m_free_flow m s s' : sound s → m_free m s = Ok s' → flow [m] [] [m] [] s s'.
Proof.
  intros [Z0 S N F T] E. apply bind_inv in E as (p & E & [= <-]). apply flow_quiet; try done.
  - split; try done.
    + cbn. rewrite lookup_delete_None. by right.
    + cbn. by apply map_Forall_delete.
    + intros f Hf Hf0. cbn. rewrite lookup_delete_None. right. by apply F.
  - intros k Hk _. cbn. apply lookup_delete_ne. set_solver.
  - intros k Hk _. apply list_elem_of_singleton in Hk as ->. apply lookup_delete_eq.
Qed.

Lemma put_mb i bs p p' : put i bs p = Ok p' → pk_mb p' = pk_mb p.
Proof. unfold put. destruct (_ && _); [by intros [= <-]|done]. Qed.

(** Dropping results that malloc() would have returned. *)
Lemma set_fresh_sound f fs s : n_fresh s = f :: fs → sound s → sound (set_fresh fs s).
Proof.
  intros E [Z0 S N F T]. rewrite E in N, F. split; try done.
  - rewrite fmap_cons, filter_cons in N. cbn. destruct (decide (f_m f ≠ 0)); [by apply NoDup_cons in N as [_ ?]|done].
  - intros g Hg. apply F. set_solver.
Qed.

Lemma mbufs_one f : mbufs [f] = if decide (f_m f = 0) then [] else [f_m f].
Proof. unfold mbufs. change (f_m <$> [f]) with [f_m f]. rewrite filter_cons, filter_nil. repeat case_decide; done. Qed.

(** malloc() for an mbuf: the stack has it, unless there is none. *)
Lemma m_alloc_flow size s m s' : sound s → m_alloc size s = Ok (m, s') →
  (m = 0 ∧ flow [] [] [] [] s s') ∨
  (m ≠ 0 ∧ flow [] [m] [] [] s s' ∧ n_tx s' = n_tx s ∧
   ∃ p, n_pkts s' = <[m := p]> (n_pkts s) ∧ m_next (pk_mb p) = 0).
Proof.
  intros Hs E. unfold m_alloc in E. destruct (n_fresh s) as [|f fs] eqn:Ef.
  { injection E as <- <-. left. split; [done|by apply flow_refl]. }
  pose proof (set_fresh_sound _ _ _ Ef Hs) as Hs'.
  destruct (Z.eqb_spec (f_m f) 0) as [E0|E0]; injection E as <- <-.
  { left. split; [done|]. split; try done; [by exists []; rewrite set_lle_same|].
    exists [f], []. cbn [n_fresh n_sent set_fresh]. rewrite mbufs_one, decide_True, app_nil_r by done. done. }
  right. split; [done|]. pose proof Hs as [Z0 S N F T]. rewrite Ef in F, N.
  assert (n_pkts s !! f_m f = None) as Hnew by (by apply F; [left|]).
  split; [|split; [done|eexists; by split]]. destruct Hs' as [Z1 S' N' F' T']. split.
  - split; try done.
    + cbn. by rewrite lookup_insert_ne.
    + cbn. by apply map_Forall_insert_2.
    + intros g Hg Hg0. cbn. rewrite lookup_insert_ne; [by apply F; [right|]|].
      intros Eg. rewrite fmap_cons, filter_cons, decide_True in N by done.
      apply NoDup_cons in N as [N _]. apply N. apply list_elem_of_filter. split; [done|].
      rewrite Eg. by apply list_elem_of_fmap_2.
  - intros k _ Hk. cbn. apply lookup_insert_ne. set_solver.
  - intros k Hk. by apply elem_of_nil in Hk.
  - intros k Hk _. by apply list_elem_of_singleton in Hk as ->.
  - exists []. by rewrite set_lle_same.
  - exists [f], []. rewrite mbufs_one, decide_False, app_nil_r by done. done.
Qed.

Section owner.
Context `{Arch} `{Errno}.

(** The driver takes a chain. *)
Lemma if_transmit_takes m0 s e s' : sound s → if_transmit m0 s = Ok (e, s') →
  ∃ ms bs, chain (S (size (n_pkts s))) m0 (n_pkts s) = Ok ms ∧ e = 0 ∧ s' = transmitted ms.*1 bs s.
Proof.
  intros [_ _ _ _ HT] E. unfold if_transmit in E.
  assert (default 0 (head (n_tx s)) = 0) as E0 by (destruct HT; [done|by subst]).
  rewrite E0 in E. cbn [negb Z.eqb] in E.
  apply bind_inv in E as (ms & Ems & E). apply bind_inv in E as (bs & Ebs & [= <- <-]). eauto.
Qed.

Lemma foldr_delete_lookup_None (ps : gmap Z pkt) ms m : ps !! m = None → foldr delete ps ms !! m = None.
Proof. intros E. induction ms; cbn; [done|]. rewrite lookup_delete_None. by right. Qed.

Lemma transmitted_sound ms bs s : sound s → sound (transmitted ms bs s).
Proof.
  intros [Z0 S N F T]. split; cbn.
  - by apply foldr_delete_lookup_None.
  - induction ms; cbn; [done|]. by apply map_Forall_delete.
  - done.
  - intros f Hf Hf0. apply foldr_delete_lookup_None. by apply F.
  - by destruct T.
Qed.

Lemma transmitted_flow own ms bs s : sound s → own ≡ₚ ms → flow own [] [] [] s (transmitted ms bs s).
Proof.
  intros Hs Hp. split.
  - by apply transmitted_sound.
  - intros k Hk _. cbn. apply foldr_delete_lookup. by rewrite <- Hp.
  - intros k Hk _. cbn. rewrite Hp in Hk. induction ms as [|x ms IH] in Hk |- *; [by apply elem_of_nil in Hk|].
    cbn. apply elem_of_cons in Hk as [->|Hk]; [apply lookup_delete_eq|]. rewrite lookup_delete_None. right. by apply IH.
  - intros k Hk. by apply elem_of_nil in Hk.
  - exists []. by rewrite set_lle_same.
  - exists [], [(ms, bs)]. split_and!; [done|done|].
    change (own ++ [] ≡ₚ [] ++ (ms ++ []) ++ [] ++ []). by rewrite Hp, !app_nil_r.
Qed.

Lemma ether_send_flow m hdr s e s' :
  sound s → m ≠ 0 → ether_send m hdr s = Ok (e, s') → e = 0 ∧ flow [m] [] [] [] s s'.
Proof.
  intros Hs Hm E. unfold ether_send in E.
  apply bind_inv in E as (p & Ep & E). apply load_inv in Ep.
  pose proof (so_single _ Hs _ _ Ep) as Hn. cbv beta in Hn. destruct (ETHER_HDR_LEN <=? offset p).
  - rewrite Ok_bind in E. cbv beta iota in E. rewrite load_set_pkt, Ok_bind in E.
    destruct (_ <? _); [done|]. apply bind_inv in E as (p0 & E0 & E). apply put_mb in E0.
    set (q := with_mb _ p) in *. set (s1 := set_pkt m p0 _) in E.
    pose proof (set_pkt_flow s m p q Hs Ep eq_refl) as F1.
    pose proof (set_pkt_flow (set_pkt m q s) m q p0 (fl_sound _ _ _ _ _ _ F1) (lookup_insert_eq _ _ _)) as F2.
    pose proof (flow_then _ _ _ _ _ _ _ _ F1 (F2 ltac:(by rewrite E0))) as F. fold s1 in F.
    apply if_transmit_takes in E as (ms & bs & Ec & -> & ->); [|apply F]. split; [done|].
    rewrite (chain_one _ m _ p0) in Ec; [|done|apply lookup_insert_eq|by rewrite E0]. injection Ec as <-.
    apply (flow_then _ _ _ _ _ _ _ _ F). by apply transmitted_flow; [apply F|].
  - apply bind_inv in E as ([m0 s1] & E1 & E). apply bind_inv in E1 as ([m1 s2] & E1 & E2).
    apply bind_inv in E2 as (p1 & Ep1 & [= <- <-]). apply load_inv in Ep1. rewrite load_set_pkt, Ok_bind in E.
    destruct (_ <? _); [done|]. apply bind_inv in E as (p0 & E0 & E). apply put_mb in E0.
    apply (m_alloc_flow _ _ _ _ Hs) in E1 as [[-> F]|(Hm1 & F & Etx & q & Eq & Eqn)].
    { by rewrite (so_null _ (fl_sound _ _ _ _ _ _ F)) in Ep1. }
    pose proof (fl_sound _ _ _ _ _ _ F) as Hs2.
    assert (m ≠ m1) as Hne by (pose proof (fl_new _ _ _ _ _ _ F m1 ltac:(elem) (not_elem_of_nil _)); congruence).
    (* the header's mbuf points to [m] only until the driver has both *)
    rewrite Eq, lookup_insert_eq in Ep1. injection Ep1 as ->.
    unfold if_transmit in E.
    assert (default 0 (head (n_tx s2)) = 0) as E2 by (destruct (so_tx _ Hs2); [done|by subst]).
    cbn [n_tx set_pkt set_pkts n_pkts] in E. rewrite E2, Eq, !insert_insert_eq in E. cbn [negb Z.eqb] in E.
    assert (size (<[m1:=p0]> (n_pkts s)) ≠ 0%nat) as Hsz.
    { apply (map_size_ne_0_lookup_2 _ m1). rewrite lookup_insert_eq. eauto. }
    destruct (size _) as [|sz]; [done|].
    rewrite (chain_two sz m1 m _ p0 p), Ok_bind in E; [|done|apply lookup_insert_eq|by rewrite E0|done|
      by rewrite lookup_insert_ne|done].
    apply bind_inv in E as (bs & _ & [= <- <-]). split; [done|].
    apply (flow_then _ _ _ _ _ _ _ _ (flow_frame m _ _ _ _ _ _ F)).
    pose proof (transmitted_flow [m; m1] [m1; m] bs s2 Hs2 ltac:(apply Permutation_swap)) as FT.
    unfold transmitted in FT. rewrite Eq in FT.
    change (delete m1 (delete m (<[m1:=p0]> (n_pkts s)))) with (foldr delete (<[m1:=p0]> (n_pkts s)) [m1; m]).
    change ([(m1, p0); (m, p)].*1) with [m1; m].
    rewrite foldr_delete_insert_in in FT by elem. rewrite foldr_delete_insert_in by elem. exact FT.
Qed.

(** ** ARP *)

Lemma arp_fillheader_mb i ah b e hdr k ah' :
  arp_fillheader i ah b LLE_MAX_LINKHDR = Ok (e, hdr, k, ah') → e = 0 ∧ pk_mb ah' = pk_mb ah.
Proof.
  intros E. unfold arp_fillheader in E. apply bind_inv in E as (t & _ & E).
  apply bind_inv in E as (tha & _ & E). apply bind_inv in E as ([[[e1 b1] n1] a1] & E & [= <- _ _ <-]).
  unfold ether_requestencap in E. cbn [er_rtype er_bufsize er_family er_hdata] in E.
  change (negb (IFENCAP_LL =? IFENCAP_LL)) with false in E. change (LLE_MAX_LINKHDR <? ETHER_HDR_LEN) with false in E.
  unfold etype_of in E. cbn [er_family er_hdata] in E.
  change (AF_ARP =? AF_INET) with false in E. change (AF_ARP =? AF_INET6) with false in E.
  change (AF_ARP =? AF_ARP) with true in E. cbv iota in E.
  apply bind_inv in E as ([et a2] & E & E2). apply bind_inv in E as (a3 & E3 & E).
  apply bind_inv in E as (op & _ & [= <- <-]). injection E2 as <- _ _ <-. by apply put_mb in E3.
Qed.

(** The packet that the stack is working on was given new contents. *)
Lemma flow_set m m0 p p' own own' f e s s' : flow own (m :: own') f e s s' → n_pkts s' !! m = Some p →
  m_next (pk_mb p') = 0 → m0 = m → flow own (m0 :: own') f e s (set_pkt m0 p' s').
Proof.
  intros F E Hn ->. pose proof (set_pkt_flow s' m p p' (fl_sound _ _ _ _ _ _ F) E Hn) as F2.
  destruct F2 as [Hs He Hg Hnw Ht (u & t & Eu & Et & P)].
  destruct F as [Hs1 He1 Hg1 Hn1 Ht1 (u1 & t1 & Eu1 & Et1 & P1)]. split; try done.
  - intros k Hk Hk'. rewrite He by set_solver. by apply He1.
  - intros k Hk Hk'. rewrite He by set_solver. by apply Hg1.
  - exists u1, t1. split_and!; done.
Qed.

Lemma arprequest_flow sip tip en s s' : sound s → arprequest sip tip en s = Ok s' → flow [] [] [] [] s s'.
Proof.
  intros Hs E. unfold arprequest in E.
  destruct (match sip with Some a => Some a | None => _ end); [|injection E as <-; by apply flow_refl].
  apply bind_inv in E as ([m s1] & Ea & E). cbv beta iota in E.
  apply (m_alloc_flow _ _ _ _ Hs) in Ea as [[-> Hk]|(Hm & F & _ & q & Eq & Hq)].
  { by injection E as <-. }
  assert (n_pkts s1 !! m = Some q) as Eq1 by (by rewrite Eq, lookup_insert_eq).
  destruct (Z.eqb_spec m 0); [done|]. rewrite (load_Some _ _ _ Eq1), Ok_bind in E.
  do 6 (apply bind_inv in E as (? & ?%put_mb & E)).
  apply bind_inv in E as (? & _ & E). apply bind_inv in E as (? & ?%put_mb & E).
  apply bind_inv in E as (? & _ & E). apply bind_inv in E as (? & ?%put_mb & E).
  apply bind_inv in E as ([[[err hdr] pl] ah] & [-> ?]%arp_fillheader_mb & E).
  cbn [negb andb Z.eqb] in E.
  apply bind_inv in E as ([e s2] & E & [= <-]).
  set (s3 := set_pkt m _ _) in E.
  assert (flow [] [m] [] [] s s3) as Hk.
  { eapply flow_set; [|apply lookup_insert_eq|cbn; congruence|done].
    eapply flow_set; [exact F|exact Eq1|congruence|done]. }
  apply ether_send_flow in E as [_ Ht]; [|apply Hk|done]. exact (flow_then _ _ _ _ _ _ _ _ Hk Ht).
Qed.

Lemma arpresolve_flow dst s e hdr s' : sound s → arpresolve dst s = Ok (e, hdr, s') →
  flow [] [] [] [] s s' ∧ (e = 0 ∨ e = -1).
Proof.
  intros Hs E. unfold arpresolve in E. destruct (arp_lookup _ _).
  - destruct (_ <? _); [done|]. injection E as <- _ <-. split; [by apply flow_refl|by left].
  - apply bind_inv in E as (s1 & E & [= <- _ <-]). split; [by eapply arprequest_flow|by right].
Qed.

(** Output takes the packet when it returns 0, and leaves it otherwise. *)
Lemma ether_output_flow m fam dst ro s e s' : sound s → m ≠ 0 →
  ether_output m fam dst ro s = Ok (e, s') → flow [m] (if e =? 0 then [] else [m]) [] [] s s'.
Proof.
  intros Hs Hm E. unfold ether_output in E. destruct (mjoin ro) as [hdr|].
  { by apply ether_send_flow in E as [-> ?]. }
  apply bind_inv in E as ([[e1 hdr] s1] & Er & E). cbv beta iota in E.
  assert (flow [] [] [] [] s s1 ∧ (e1 = 0 ∨ e1 = -1)) as [Hk%(flow_frame m) He].
  { unfold ether_resolve_addr in Er. destruct (_ =? _); [by eapply arpresolve_flow|].
    injection Er as <- _ <-. split; [by apply flow_refl|by right]. }
  pose proof errno_pos. destruct He as [-> | ->].
  - cbn [negb Z.eqb] in E. apply ether_send_flow in E as [-> Ht]; [|apply Hk|done].
    exact (flow_then _ _ _ _ _ _ _ _ Hk Ht).
  - change (negb (-1 =? 0)) with true in E. cbv iota in E.
    destruct (Z.eqb_spec (-1) EWOULDBLOCK); [lia|]. injection E as <- <-. exact Hk.
Qed.

Lemma reply_fields_mb hwaddr ah ah2 p : reply_fields hwaddr ah ah2 = Ok p → pk_mb p = pk_mb ah2.
Proof.
  intros E. unfold reply_fields in E.
  do 5 (apply bind_inv in E as (? & ?%put_mb & E)).
  do 2 (apply bind_inv in E as (? & _ & E)). apply bind_inv in E as (? & ?%put_mb & E).
  do 2 (apply bind_inv in E as (? & _ & E)). apply bind_inv in E as (? & ?%put_mb & E).
  do 3 (apply bind_inv in E as (? & _ & E)). apply bind_inv in E as (? & ?%put_mb & E).
  do 3 (apply bind_inv in E as (? & _ & E)). apply put_mb in E. congruence.
Qed.

Lemma arp_reply_to_request_flow m s s' : sound s → arp_reply_to_request m s = Ok s' → flow [] [] [] [] s s'.
Proof.
  intros Hs E. unfold arp_reply_to_request in E. do 5 (apply bind_inv in E as (? & _ & E)).
  destruct (negb _); [injection E as <-; by apply flow_refl|].
  apply bind_inv in E as ([m1 s1] & Ea & E). cbv beta iota in E.
  apply (m_alloc_flow _ _ _ _ Hs) in Ea as [[-> Hk]|(Hm & F & _ & q & Eq & Hq)].
  { by injection E as <-. }
  assert (n_pkts s1 !! m1 = Some q) as Eq1 by (by rewrite Eq, lookup_insert_eq).
  destruct (Z.eqb_spec m1 0); [done|]. rewrite (load_Some _ _ _ Eq1), Ok_bind in E.
  apply bind_inv in E as (p & ?%reply_fields_mb & E).
  apply bind_inv in E as ([[[err hdr] pl] ah] & [-> ?]%arp_fillheader_mb & E). cbv beta iota in E.
  apply bind_inv in E as ([e s2] & E & [= <-]).
  assert (flow [] [m1] [] [] s (set_pkt m1 ah s1)) as Hk.
  { eapply flow_set; [exact F|exact Eq1|congruence|done]. }
  unfold ether_output in E. cbn [mjoin option_join] in E.
  apply ether_send_flow in E as [_ Ht]; [|apply Hk|done]. exact (flow_then _ _ _ _ _ _ _ _ Hk Ht).
Qed.

Lemma arp_reply_flow m s s' : sound s → arp_reply m s = Ok s' → ∃ e, flow [] [] [] e s s'.
Proof.
  intros Hs E. unfold arp_reply in E. do 5 (apply bind_inv in E as (? & _ & E)).
  destruct (negb _); [injection E as <-; exists []; by apply flow_refl|].
  destruct (arp_lookup _ _); [injection E as <-; exists []; by apply flow_refl|].
  apply bind_inv in E as (sha & _ & E). unfold arp_addentry in E.
  apply bind_inv in E as ([[[e hdr] k] a] & _ & E). cbv beta iota in E.
  destruct (n_fresh s) as [|f fs] eqn:Ef; [done|]. destruct (Z.eqb_spec (f_m f) 0); [done|]. injection E as <-.
  exists [f_m f]. split; try done.
  - by destruct (set_fresh_sound f fs s Ef Hs).
  - by eexists [_].
  - exists [f], []. cbn [n_fresh n_sent set_if set_fresh]. rewrite mbufs_one, decide_False, app_nil_r by done. done.
Qed.

Lemma adj_next n p : m_next (pk_mb (adj n p)) = m_next (pk_mb p).
Proof. cbn. unfold m_adj. by repeat destruct (_ <? _). Qed.

(** The frame's mbuf moved past its header. *)
Lemma adj_flow s m p : sound s → n_pkts s !! m = Some p → flow [m] [m] [] [] s (set_pkt m (adj ETHER_HDR_LEN p) s).
Proof. intros Hs E. eapply set_pkt_flow; [done|done|]. rewrite adj_next. by apply (so_single _ Hs _ _ E). Qed.

Lemma arp_input_flow m s s' : sound s → arp_input m s = Ok s' → ∃ e, flow [m] [m] [] e s s'.
Proof.
  intros Hs E. unfold arp_input in E. apply bind_inv in E as (p & Ep%load_inv & E).
  pose proof (adj_flow s m p Hs Ep) as F. set (s1 := set_pkt m _ s) in *.
  enough (∃ e, flow [] [] [] e s1 s') as [e Hk].
  { exists e. exact (flow_then _ _ _ _ _ _ _ _ F (flow_frame m _ _ _ _ _ _ Hk)). }
  destruct F as [Hk _ _ _ _ _]. revert E.
  do 2 (intros E; apply bind_inv in E as (? & _ & E); revert E).
  destruct (negb _); [intros [= <-]; exists []; by apply flow_refl|]. intros E; apply bind_inv in E as (? & _ & E); revert E.
  destruct (negb _); [intros [= <-]; exists []; by apply flow_refl|]. intros E; apply bind_inv in E as (? & _ & E); revert E.
  destruct (negb _); [intros [= <-]; exists []; by apply flow_refl|]. intros E; apply bind_inv in E as (? & _ & E); revert E.
  destruct (negb _); [intros [= <-]; exists []; by apply flow_refl|].
  destruct (_ =? _); [intros E; exists []; by eapply arp_reply_to_request_flow|].
  destruct (_ =? _); [by apply arp_reply_flow|]. intros [= <-]. exists []. by apply flow_refl.
Qed.

(** ** IPv4 *)

(** The memory outside the packets does not matter. *)
Lemma set_mem_flow own own' f e mem s s' : flow own own' f e (set_mem mem s) s' → flow own own' f e s s'.
Proof. by intros []. Qed.

Lemma set_mem_sound mem s : sound s → sound (set_mem mem s).
Proof. by intros []. Qed.

Lemma ip_output_flow m ro s e s' : sound s → m ≠ 0 →
  ip_output m ro s = Ok (e, s') → flow [m] (if e =? 0 then [] else [m]) [] [] s s'.
Proof.
  intros Hs Hm E. unfold ip_output in E. apply bind_inv in E as (p & Ep%load_inv & E).
  do 5 (apply bind_inv in E as (? & _ & E)).
  apply bind_inv in E as (p1 & E1%put_mb & E). apply bind_inv in E as (hl & _ & E).
  apply bind_inv in E as (sum & _ & E). apply bind_inv in E as (p2 & E2%put_mb & E).
  pose proof (so_single _ Hs _ _ Ep) as Hn. cbv beta in Hn.
  eapply set_mem_flow. set (s0 := set_mem _ s) in *.
  assert (flow [m] [m] [] [] s0 (set_pkt m p2 (set_pkt m p1 s0))) as Hk.
  { eapply flow_set; [|apply lookup_insert_eq|congruence|done].
    eapply set_pkt_flow; [by apply set_mem_sound|exact Ep|congruence]. }
  apply ether_output_flow in E; [|apply Hk|done]. exact (flow_then _ _ _ _ _ _ _ _ Hk E).
Qed.

Lemma echo_reply_flow m hl n s s' : sound s → m ≠ 0 → echo_reply m hl n s = Ok s' →
  ∃ f, flow [m] [] f [] s s' ∧ f `sublist_of` [m].
Proof.
  intros Hs Hm E. unfold echo_reply in E. apply bind_inv in E as (p & Ep%load_inv & E).
  do 2 (apply bind_inv in E as (? & _ & E)).
  apply bind_inv in E as (p1 & E1%put_mb & E). apply bind_inv in E as (p2 & E2%put_mb & E).
  apply bind_inv in E as (p3 & E3%put_mb & E). apply bind_inv in E as (p4 & E4%put_mb & E).
  apply bind_inv in E as (sum & _ & E). apply bind_inv in E as (p5 & E5%put_mb & E).
  apply bind_inv in E as ([e s1] & Eo & E). cbv beta iota in E.
  pose proof (so_single _ Hs _ _ Ep) as Hn. cbv beta in Hn.
  assert (flow [m] [m] [] [] s (set_pkt m (backward hl p5) s)) as Hk.
  { eapply set_pkt_flow; [done|done|]. cbn. rewrite E5, E4, E3. cbn. congruence. }
  apply ip_output_flow in Eo; [|apply Hk|done].
  pose proof (flow_then _ _ _ _ _ _ _ _ Hk Eo) as F. destruct (e =? 0); cbn [negb] in E.
  - injection E as <-. exists []. split; [exact F|apply sublist_nil_l].
  - exists [m]. split; [|done]. apply (flow_then _ _ _ _ _ _ _ _ F). apply m_free_flow; [apply F|done].
Qed.

Lemma icmp_input_flow hl m s s' : sound s → m ≠ 0 → icmp_input hl m s = Ok s' →
  ∃ f, flow [m] [] f [] s s' ∧ f `sublist_of` [m].
Proof.
  intros Hs Hm E. unfold icmp_input in E. apply bind_inv in E as (p & Ep%load_inv & E).
  do 2 (apply bind_inv in E as (? & _ & E)). apply bind_inv in E as (sum & _ & E).
  pose proof (so_single _ Hs _ _ Ep) as Hn. cbv beta in Hn.
  assert (flow [m] [m] [] [] s (set_pkt m (forward hl p) s)) as Hk by (by eapply set_pkt_flow).
  destruct (negb _).
  { exists [m]. split; [|done]. apply (flow_then _ _ _ _ _ _ _ _ Hk), m_free_flow; [apply Hk|done]. }
  apply bind_inv in E as (ty & _ & E).
  assert (flow [m] [m] [] [] s (set_pkt m (backward hl (forward hl p)) (set_pkt m (forward hl p) s))) as Hk2.
  { eapply flow_set; [exact Hk|apply lookup_insert_eq|done|done]. }
  destruct (_ =? _).
  - apply echo_reply_flow in E as (f & F & Hf); [|apply Hk2|done].
    exists f. split; [exact (flow_then _ _ _ _ _ _ _ _ Hk2 F)|done].
  - exists [m]. split; [|done]. apply (flow_then _ _ _ _ _ _ _ _ Hk2), m_free_flow; [apply Hk2|done].
Qed.

Lemma ip_input_flow m s s' : sound s → m ≠ 0 → ip_input m s = Ok s' →
  ∃ f, flow [m] [] f [] s s' ∧ f `sublist_of` [m].
Proof.
  intros Hs Hm E. unfold ip_input in E. apply bind_inv in E as (p & Ep%load_inv & E).
  pose proof (adj_flow s m p Hs Ep) as Hk.
  do 2 (apply bind_inv in E as (? & _ & E)). destruct (_ =? _).
  - apply icmp_input_flow in E as (f & F & Hf); [|apply Hk|done].
    exists f. split; [exact (flow_then _ _ _ _ _ _ _ _ Hk F)|done].
  - exists [m]. split; [|done]. apply (flow_then _ _ _ _ _ _ _ _ Hk), m_free_flow; [apply Hk|done].
Qed.

(** Every frame but an IPv6 one leaves the stack with nothing. *)
Lemma ether_input_flow m s s' p type :
  sound s → m ≠ 0 → n_pkts s !! m = Some p → get16 p 12 = Ok type → type ≠ ETHERTYPE_IPV6 →
  ether_input m s = Ok s' → ∃ f e, flow [m] [] f e s s' ∧ f `sublist_of` [m].
Proof.
  intros Hs Hm Em Et H6 E. unfold ether_input in E. rewrite (load_Some _ _ _ Em), Ok_bind, Et, Ok_bind in E.
  destruct (Z.eqb_spec type ETHERTYPE_ARP) as [->|].
  { apply bind_inv in E as (s1 & E1 & E). apply arp_input_flow in E1 as [e F]; [|done].
    exists [m], e. split; [|done]. exact (flow_trans _ _ _ _ _ _ _ _ _ _ F (m_free_flow _ _ _ (fl_sound _ _ _ _ _ _ F) E)). }
  destruct (Z.eqb_spec type ETHERTYPE_IP) as [->|].
  { apply ip_input_flow in E as (f & F & Hf); [|done|done]. by exists f, []. }
  destruct (Z.eqb_spec type ETHERTYPE_IPV6); [done|]. exists [m], []. split; [by apply m_free_flow|done].
Qed.

(** The ledger of ether_input for the mbuf [m]: what malloc() gave ([used]) and [m]
    itself are, each exactly once, in the frames that were sent, freed, or an entry
    of the ARP table; only [m] may be freed, and the other packets are as before. *)
Definition accounted (m : Z) (s s' : net) : Prop :=
  n_pkts s' = delete m (n_pkts s) ∧
  ∃ used sent freed entries,
    n_fresh s = used ++ n_fresh s' ∧ n_sent s' = n_sent s ++ sent ∧ freed `sublist_of` [m] ∧
    (∃ es, n_if s' = set_lle (es ++ lle_head (n_if s)) (n_if s) ∧ length es = length entries) ∧
    m :: mbufs used ≡ₚ concat sent.*1 ++ freed ++ entries ∧ NoDup (m :: mbufs used).

(** C30: no mbuf is lost, kept or freed twice.  When ether_input returns, every mbuf
    that the stack had (the one the driver passed up, and each one malloc() gave it
    on the way for a request, an answer, a header or a table entry) is accounted
    for exactly once: it is in a frame that the driver took, or in the ARP table's
    new entry, or was freed, and only the driver's own mbuf is ever freed; all other
    packets keep their contents.  This holds for every frame, well formed or not,
    except an IPv6 one, which the stack keeps for ever and only moves past the
    Ethernet header; the driver takes what it is given. *)
Theorem input_conserves m s s' p type :
  sound s → m ≠ 0 → n_pkts s !! m = Some p → get16 p 12 = Ok type → ether_input m s = Ok s' →
  sound s' ∧
  if decide (type = ETHERTYPE_IPV6) then s' = set_pkt m (adj ETHER_HDR_LEN p) s else
  accounted m s s'.
Proof.
  intros Hs Hm Em Et E. case_decide as H6.
  { subst type. unfold ether_input in E. rewrite (load_Some _ _ _ Em), Ok_bind, Et, Ok_bind in E.
    change (ETHERTYPE_IPV6 =? ETHERTYPE_ARP) with false in E. change (ETHERTYPE_IPV6 =? ETHERTYPE_IP) with false in E.
    change (ETHERTYPE_IPV6 =? ETHERTYPE_IPV6) with true in E. cbv iota in E.
    unfold ip6_input in E. rewrite (load_Some _ _ _ Em), Ok_bind in E. apply bind_inv in E as (x & _ & [= <-]).
    split; [|done]. apply (adj_flow s m p Hs Em). }
  destruct (ether_input_flow m s s' p type Hs Hm Em Et H6 E) as (f & e & F & Hf).
  destruct F as [Hs' He Hg _ Ht (used & sent & Eu & Es & P)]. split; [done|]. split.
  - apply map_eq. intros k. destruct (decide (k = m)) as [->|Hk].
    + rewrite lookup_delete_eq. apply Hg; [elem|apply not_elem_of_nil].
    + rewrite lookup_delete_ne by done. apply He; set_solver.
  - exists used, sent, f, e. split_and!; [done|done|done|done|exact P|].
    pose proof Hs as [_ _ HN HF _]. rewrite Eu in HN, HF. apply NoDup_cons. split.
    + intros Hin. unfold mbufs in Hin. apply list_elem_of_filter in Hin as [_ Hin].
      apply list_elem_of_fmap in Hin as (x & -> & Hx). rewrite HF in Em; [done| |done].
      apply elem_of_app. by left.
    + rewrite fmap_app, filter_app in HN. by apply NoDup_app in HN as [? _].
Qed.
End owner.

Module OwnerDemo.
Import NetDemo.

Lemma arriving_sound m frame l a low : m ∉ [0; f_m (buffer 1); f_m (buffer 2); f_m (buffer 3)] →
  sound (arriving m frame (host l a low [])).
Proof.
  intros Hm. split.
  - cbn. rewrite lookup_insert_ne; [done|]. intros ->. apply Hm. elem.
  - cbn. by apply map_Forall_insert_2.
  - apply (bool_decide_unpack _). by vm_compute.
  - intros f Hf _. cbn. rewrite lookup_insert_ne; [done|]. intros ->. apply Hm.
    repeat (apply elem_of_cons in Hf as [->|Hf]; [elem|]). by apply elem_of_nil in Hf.
  - constructor.
Qed.

(** A request that is answered, a ping from a host that is not in the table, and an
    IPv6 frame. *)
Definition ipv6 : list Z := ether_bytes hwA hwB ETHERTYPE_IPV6 ++ replicate 40 0.

Lemma input_conserves_witness :
  (∃ s', ether_input 50 (arriving 50 request (host hwB ipB true [])) = Ok s' ∧
    (n_sent s').*1 = [[f_m (buffer 2); f_m (buffer 1)]] ∧
    accounted 50 (arriving 50 request (host hwB ipB true [])) s') ∧
  (∃ s', ether_input 50 (arriving 50 ping (host hwA ipA true [])) = Ok s' ∧
    accounted 50 (arriving 50 ping (host hwA ipA true [])) s') ∧
  (∃ s', ether_input 50 (arriving 50 ipv6 (host hwA ipA true [])) = Ok s' ∧
    s' = set_pkt 50 (adj ETHER_HDR_LEN (arrived ipv6)) (arriving 50 ipv6 (host hwA ipA true []))).
Proof.
  split_and!; eexists.
  - split; [vm_compute; reflexivity|]. split; [reflexivity|].
    apply (input_conserves 50 (arriving 50 request (host hwB ipB true [])) _ _ ETHERTYPE_ARP
      (arriving_sound 50 request _ _ _ ltac:(apply (bool_decide_unpack _); by vm_compute)) ltac:(done) (lookup_insert_eq _ _ _)); [by vm_compute|].
    vm_compute. reflexivity.
  - split; [vm_compute; reflexivity|].
    apply (input_conserves 50 (arriving 50 ping (host hwA ipA true [])) _ _ ETHERTYPE_IP
      (arriving_sound 50 ping _ _ _ ltac:(apply (bool_decide_unpack _); by vm_compute)) ltac:(done) (lookup_insert_eq _ _ _)); [by vm_compute|].
    vm_compute. reflexivity.
  - split; [vm_compute; reflexivity|].
    apply (input_conserves 50 (arriving 50 ipv6 (host hwA ipA true [])) _ _ ETHERTYPE_IPV6
      (arriving_sound 50 ipv6 _ _ _ ltac:(apply (bool_decide_unpack _); by vm_compute)) ltac:(done) (lookup_insert_eq _ _ _)); [by vm_compute|].
    vm_compute. reflexivity.
Defined.
End OwnerDemo.
