(* ===== verification/Strto.v ===== *)
(** * Numbers and strings (lib/libc/stdlib/strtol.c, strtoul.c, strtoq.c,
    strtouq.c, atoi.c, abs.c; ksprintn of lib/libc/stdio/kvprintf.c; ctype.h)

    Parsing: white space, a sign, the 0x and 0 prefixes, digits in bases up to 36,
    and saturation by the cutoff comparison before each multiplication.  Printing:
    the digits in reverse, backwards from a NUL.  A long has [w] bits; a quad has
    64.  Strings are bytes in memory; loops over a string end at the latest at its
    NUL, so [scan_fuel] suffices. *)

From S2P Require Import Prelude Memory StringScan.
Local Open Scope Z_scope.

(** ** ctype.h *)

Definition isspace (c : Z) : bool := (c =? 32) || ((9 <=? c) && (c <=? 13)).
Definition isascii (c : Z) : bool := Z.land c (Z.lnot 127) =? 0.
Definition isupper (c : Z) : bool := (65 <=? c) && (c <=? 90).
Definition islower (c : Z) : bool := (97 <=? c) && (c <=? 122).
Definition isalpha (c : Z) : bool := isupper c || islower c.
Definition isdigit (c : Z) : bool := (48 <=? c) && (c <=? 57).
Definition toupper (c : Z) : Z := c - 32 * (if (97 <=? c) && (c <=? 122) then 1 else 0).

(** ** Parsing *)

(** [do { c = *s++; } while (isspace(c))]: [c] and [s]. *)
Fixpoint skip_space (fuel : nat) (s : Z) (m : mem_t) : res (Z * Z) :=
  match fuel with
  | O => Err NoFuel
  | S fuel =>
    c ← load m s;
    if isspace c then skip_space fuel (s + 1) m else Ok (c, s + 1)
  end.

(** The sign: [neg], [c] and [s]. *)
Definition pick_sign (c s : Z) (m : mem_t) : res (bool * Z * Z) :=
  if c =? 45 then c ← load m s; Ok (true, c, s + 1)
  else if c =? 43 then c ← load m s; Ok (false, c, s + 1)
  else Ok (false, c, s).

(** The base and its prefix: [base], [c] and [s]. *)
Definition pick_base (base c s : Z) (m : mem_t) : res (Z * Z * Z) :=
  '(base, c, s) ←
    (if ((base =? 0) || (base =? 16)) && (c =? 48) then
       x ← load m s;
       if (x =? 120) || (x =? 88) then c ← load m (s + 1); Ok (16, c, s + 2)
       else Ok (base, c, s)
     else Ok (base, c, s));
  Ok ((if base =? 0 then if c =? 48 then 8 else 10 else base), c, s).

(** The value of a digit, when the character is one below [base]. *)
Definition digit_of (base c : Z) : option Z :=
  if negb (isascii c) then None else
  if isdigit c then (if base <=? c - 48 then None else Some (c - 48)) else
  if isalpha c then
    let c := c - (if isupper c then 65 - 10 else 97 - 10) in
    if base <=? c then None else Some c
  else None.

(** The digits: [acc], [any] and [s]; [acc] has [w] bits. *)
Fixpoint digits_loop (fuel : nat) (w base cutoff cutlim : Z) (c s acc any : Z) (m : mem_t)
    : res (Z * Z * Z) :=
  match fuel with
  | O => Err NoFuel
  | S fuel =>
    match digit_of base c with
    | None => Ok (acc, any, s)
    | Some c =>
      let '(acc, any) :=
        if (any <? 0) || (cutoff <? acc) || ((acc =? cutoff) && (cutlim <? c)) then (acc, -1)
        else (wrap w (wrap w (acc * base) + c), 1) in
      c ← load m s;
      digits_loop fuel w base cutoff cutlim c (s + 1) acc any m
    end
  end.

(** [any ? s - 1 : nptr] *)
Definition end_of (any s nptr : Z) : Z := if any =? 0 then nptr else s - 1.

(** strtol: the value and [*endptr]. *)
Definition strtol (w nptr base : Z) (m : mem_t) : res (Z * Z) :=
  let LONG_MAX := 2 ^ (w - 1) - 1 in
  let LONG_MIN := - 2 ^ (w - 1) in
  '(c, s) ← skip_space (scan_fuel m) nptr m;
  '(neg, c, s) ← pick_sign c s m;
  '(base, c, s) ← pick_base base c s m;
  let cutoff := if (neg : bool) then wrap w (- wrap w LONG_MIN) else LONG_MAX in
  let cutlim := cutoff mod wrap w base in
  let cutoff := cutoff / wrap w base in
  '(acc, any, s) ← digits_loop (scan_fuel m) w base cutoff cutlim c s 0 0 m;
  let acc :=
    if any <? 0 then wrap w (if (neg : bool) then LONG_MIN else LONG_MAX)
    else if (neg : bool) then wrap w (- acc) else acc in
  Ok (swrap w acc, end_of any s nptr).

Definition strtoq (nptr base : Z) (m : mem_t) : res (Z * Z) :=
  let QUAD_MAX := 2 ^ 63 - 1 in
  let QUAD_MIN := - 2 ^ 63 in
  '(c, s) ← skip_space (scan_fuel m) nptr m;
  '(neg, c, s) ← pick_sign c s m;
  '(base, c, s) ← pick_base base c s m;
  let qbase := u32 base in
  let cutoff := if (neg : bool) then u64 (u64 (- (QUAD_MIN + QUAD_MAX)) + QUAD_MAX) else QUAD_MAX in
  let cutlim := cutoff mod qbase in
  let cutoff := cutoff / qbase in
  '(acc, any, s) ← digits_loop (scan_fuel m) 64 base cutoff cutlim c s 0 0 m;
  let acc :=
    if any <? 0 then u64 (if (neg : bool) then QUAD_MIN else QUAD_MAX)
    else if (neg : bool) then u64 (- acc) else acc in
  Ok (s64 acc, end_of any s nptr).

Definition strtoul (w nptr base : Z) (m : mem_t) : res (Z * Z) :=
  let ULONG_MAX := 2 ^ w - 1 in
  '(c, s) ← skip_space (scan_fuel m) nptr m;
  '(neg, c, s) ← pick_sign c s m;
  '(base, c, s) ← pick_base base c s m;
  let cutoff := ULONG_MAX / wrap w base in
  let cutlim := ULONG_MAX mod wrap w base in
  '(acc, any, s) ← digits_loop (scan_fuel m) w base cutoff cutlim c s 0 0 m;
  let acc := if any <? 0 then ULONG_MAX else if (neg : bool) then wrap w (- acc) else acc in
  Ok (acc, end_of any s nptr).

Definition strtouq (nptr base : Z) (m : mem_t) : res (Z * Z) :=
  let UQUAD_MAX := 2 ^ 64 - 1 in
  '(c, s) ← skip_space (scan_fuel m) nptr m;
  '(neg, c, s) ← pick_sign c s m;
  '(base, c, s) ← pick_base base c s m;
  let qbase := u32 base in
  let cutoff := UQUAD_MAX / qbase in
  let cutlim := UQUAD_MAX mod qbase in
  '(acc, any, s) ← digits_loop (scan_fuel m) 64 base cutoff cutlim c s 0 0 m;
  let acc := if any <? 0 then UQUAD_MAX else if (neg : bool) then u64 (- acc) else acc in
  Ok (acc, end_of any s nptr).

Definition atoi (w str : Z) (m : mem_t) : res Z :=
  '(v, _) ← strtol w str 10 m;
  Ok (s32 v).

(** The most negative int is its own negation. *)
Definition abs (j : Z) : Z := s32 (if j <? 0 then - j else j).

(** ** Printing *)

(** hex2ascii_data[]; [num % base] is an index into it. *)
Definition hex2ascii (d : Z) : res Z :=
  if (0 <=? d) && (d <? 36) then Ok (if d <? 10 then d + 48 else d - 10 + 97) else Err Fault.

(** [do { *++p = ...; } while (num /= base)]: [p] and the memory. *)
Fixpoint ksprintn_loop (fuel : nat) (p num base : Z) (upper : bool) (m : mem_t) : res (Z * mem_t) :=
  match fuel with
  | O => Err NoFuel
  | S fuel =>
    c ← hex2ascii (num mod base);
    m ← store (p + 1) (if upper then toupper c else c) m;
    if num / base =? 0 then Ok (p + 1, m)
    else ksprintn_loop fuel (p + 1) (num / base) base upper m
  end.

(** A number of 64 bits has at most 64 digits: [p], [*lenp] and the memory. *)
Definition ksprintn (nbuf num base : Z) (upper : bool) (m : mem_t) : res (Z * Z * mem_t) :=
  m ← store nbuf 0 m;
  '(p, m) ← ksprintn_loop 64 nbuf num base upper m;
  Ok (p, p - nbuf, m).

(** [while ( *p) PCHAR( *p--)]: what is printed. *)
Fixpoint emit_back (fuel : nat) (p : Z) (m : mem_t) : res (list Z) :=
  match fuel with
  | O => Err NoFuel
  | S fuel =>
    c ← load m p;
    if c =? 0 then Ok [] else
    r ← emit_back fuel (p - 1) m;
    Ok (c :: r)
  end.
