(* ===== verification/StrtoTheorems.v ===== *)
(** * Numbers and strings: what is parsed, and that printing inverts it *)

From stdpp Require Import strings.
From Stdlib Require Import Ascii.
From S2P Require Import Prelude Memory StringScan StringTheorems Strto.
Local Open Scope Z_scope.

(** ** The numeral at the front of a string *)

Fixpoint drop_space (l : list Z) : list Z :=
  match l with c :: k => if isspace c then drop_space k else l | [] => [] end.

Definition sign_of (l : list Z) : bool * list Z :=
  match l with
  | c :: k => if c =? 45 then (true, k) else if c =? 43 then (false, k) else (false, l)
  | [] => (false, l)
  end.

Definition radix_of (base : Z) (l : list Z) : Z * list Z :=
  let plain := if base =? 0 then if default 0 (head l) =? 48 then 8 else 10 else base in
  match l with
  | c :: x :: k =>
    if ((base =? 0) || (base =? 16)) && (c =? 48) && ((x =? 120) || (x =? 88)) then (16, k)
    else (plain, l)
  | _ => (plain, l)
  end.

Fixpoint digits_of (b : Z) (l : list Z) : list Z * list Z :=
  match l with
  | c :: k => match digit_of b c with
              | Some d => (d :: (digits_of b k).1, (digits_of b k).2)
              | None => ([], l)
              end
  | [] => ([], [])
  end.

(** The sign, the digits with their base, and what is left of the string. *)
Definition numeral (base : Z) (l : list Z) : bool * Z * list Z * list Z :=
  let '(neg, l) := sign_of (drop_space l) in
  let '(b, l) := radix_of base l in
  let '(ds, rest) := digits_of b l in
  (neg, b, ds, rest).

Definition horner (b : Z) (ds : list Z) : Z := foldl (λ v d, v * b + d) 0 ds.

Definition legal_base (base : Z) : Prop := base = 0 ∨ 2 ≤ base ≤ 36.

(** ** The scanner *)

(** The character [c] was read from the front of [l], and [s] is past it. *)
Definition at_char (m : mem_t) (c s : Z) (l : list Z) : Prop :=
  cstr m (s - 1) l ∧ c = default 0 (head l).

Lemma at_char_load m s l : cstr m s l → ∃ c, load m s = Ok c ∧ at_char m c (s + 1) l.
Proof.
  intros H. unfold at_char. rewrite Z.add_simpl_r. destruct l as [|c l].
  - exists 0. split; [exact (load_Some _ _ _ H)|by split].
  - exists c. destruct H as (E & Hc & H). split; [by apply load_Some|]. by split.
Qed.

Lemma at_char_tail m c s x l : at_char m c s (x :: l) → cstr m s l ∧ c = x ∧ 0 < x < 256.
Proof. intros [(E & Hx & H) ->]. rewrite Z.sub_add in H. split; [done|]. by split. Qed.

Lemma skip_space_ok fuel : ∀ s m l, cstr m s l → (length l < fuel)%nat →
  ∃ c s', skip_space fuel s m = Ok (c, s') ∧ at_char m c s' (drop_space l) ∧
    s' = s + 1 + Z.of_nat (length l - length (drop_space l)) ∧ (length (drop_space l) ≤ length l)%nat.
Proof.
  induction fuel as [|fuel IH]; intros s m l H Hf; [lia|]. cbn [skip_space].
  destruct (at_char_load m s l H) as (c & E & Hc). rewrite E, Ok_bind.
  destruct l as [|x l].
  - destruct Hc as [Hc ->]. cbn. eexists _, _. split_and!; [done| |lia|lia]. by split.
  - destruct (at_char_tail _ _ _ _ _ Hc) as (Ht & -> & Hx). cbn [drop_space].
    destruct (isspace x).
    + cbn [length] in Hf. destruct (IH (s + 1) m l Ht) as (c & s' & E' & Hc' & -> & Hl); [lia|].
      eexists c, _. split_and!; [done|done| |]; cbn [length]; lia.
    + eexists _, _. split_and!; [done|done| |]; cbn [length]; lia.
Qed.

Lemma pick_sign_ok m c s l : at_char m c s l →
  ∃ c' s', pick_sign c s m = Ok ((sign_of l).1, c', s') ∧ at_char m c' s' (sign_of l).2 ∧
    s' = s + Z.of_nat (length l - length (sign_of l).2) ∧ (length (sign_of l).2 ≤ length l)%nat.
Proof.
  intros Hc. unfold pick_sign. destruct l as [|x l].
  { pose proof Hc as [_ ->]. cbn. eexists _, _. split_and!; [done|done|lia|lia]. }
  destruct (at_char_tail _ _ _ _ _ Hc) as (Ht & -> & Hx). cbn [sign_of].
  destruct (at_char_load _ _ _ Ht) as (c & E & Hc').
  zcase; rewrite ?E, ?Ok_bind; eexists _, _; (split_and!; [done|done|cbn [snd length]..]); lia.
Qed.

Lemma pick_base_ok m base c s l : at_char m c s l →
  ∃ c' s', pick_base base c s m = Ok ((radix_of base l).1, c', s') ∧
    at_char m c' s' (radix_of base l).2 ∧
    s' = s + Z.of_nat (length l - length (radix_of base l).2) ∧
    (length (radix_of base l).2 ≤ length l)%nat.
Proof.
  intros Hc.
  assert (∀ b, ∃ c' s', (Ok (b, c, s) : res (Z * Z * Z)) = Ok (b, c', s') ∧ at_char m c' s' l ∧
    s' = s + Z.of_nat (length l - length l) ∧ (length l ≤ length l)%nat) as Hsame.
  { intros b. eexists _, _. split_and!; [done|done|lia|lia]. }
  unfold pick_base, radix_of. pose proof Hc as [_ Eh]. rewrite <- Eh.
  destruct l as [|x [|y l]]; cbn in Eh; subst c.
  - rewrite andb_false_r, Ok_bind. apply Hsame.
  - destruct (at_char_tail _ _ _ _ _ Hc) as (Ht & _ & _). rewrite (load_Some _ _ _ Ht), Ok_bind.
    destruct (_ && _); apply Hsame.
  - destruct (at_char_tail _ _ _ _ _ Hc) as ((Ey & _ & Ht) & _ & _). rewrite (load_Some _ _ _ Ey), Ok_bind.
    destruct (at_char_load _ _ _ Ht) as (c & E & Hc'). destruct (_ && (x =? 48)); [|apply Hsame].
    cbn [andb]. destruct (_ || _); [|apply Hsame]. rewrite E, !Ok_bind. cbv beta iota.
    eexists _, _. split_and!; [done| |cbn [snd length]; lia..].
    by replace (s + 2) with (s + 1 + 1) by lia.
Qed.

(** ** The digits *)

Lemma digit_of_range b c d : digit_of b c = Some d → 0 ≤ d < b ∧ 0 < c.
Proof.
  unfold digit_of, isdigit, isalpha, isupper, islower. destruct (isascii c); [|done]. cbn [negb].
  zcase; cbn [andb orb negb] in *; intros ?; simplify_eq; lia.
Qed.

Lemma digits_of_range b l : Forall (λ d, 0 ≤ d < b) (digits_of b l).1.
Proof.
  induction l as [|c l IH]; [constructor|]. cbn [digits_of]. destruct (digit_of b c) eqn:E; [|constructor].
  constructor; [apply digit_of_range in E; lia|done].
Qed.

Lemma horner_app b ds d : horner b (ds ++ [d]) = horner b ds * b + d.
Proof. unfold horner. by rewrite foldl_app. Qed.

(** [acc] and [any] after the digits [done], when the largest legal value is [T]. *)
Definition accumulated (b T : Z) (ds : list Z) (acc any : Z) : Prop :=
  if decide (horner b ds ≤ T) then acc = horner b ds ∧ any = (if decide (ds = []) then 0 else 1)
  else any = -1.

Lemma horner_nonneg b ds : 0 ≤ b → Forall (λ d, 0 ≤ d) ds → 0 ≤ horner b ds.
Proof.
  intros Hb. induction ds as [|d ds IH] using rev_ind; [done|].
  rewrite Forall_app, Forall_singleton, horner_app. intros [??]. specialize (IH ltac:(done)). nia.
Qed.

Lemma accumulated_step w b T ds d acc any :
  0 < b → 0 ≤ T < 2 ^ w → 0 ≤ w → 0 ≤ d < b → Forall (λ d, 0 ≤ d) ds →
  accumulated b T ds acc any →
  let '(acc, any) :=
    if (any <? 0) || (T / b <? acc) || ((acc =? T / b) && (T mod b <? d)) then (acc, -1)
    else (wrap w (wrap w (acc * b) + d), 1) in
  accumulated b T (ds ++ [d]) acc any.
Proof.
  intros Hb HT Hw Hd Hds. unfold accumulated. rewrite horner_app.
  pose proof (horner_nonneg b ds ltac:(lia) Hds) as Hv.
  set (v := horner b ds) in *. clearbody v.
  pose proof (Z.div_mod T b ltac:(lia)) as ET. pose proof (Z.mod_pos_bound T b ltac:(lia)) as HM.
  set (q := T / b) in *. set (r := T mod b) in *. clearbody q r.
  rewrite (decide_False (P := ds ++ [d] = [])) by (by destruct ds).
  destruct (decide (v ≤ T)) as [Hle|Hgt]; cycle 1.
  { intros ->. cbn. rewrite decide_False; [done|nia]. }
  intros [-> ->].
  replace ((if decide (ds = []) then 0 else 1) <? 0) with false by (destruct (decide _); done).
  cbn [orb]. destruct (Z.ltb_spec q v) as [|Hqv]; cbn [orb].
  { rewrite decide_False; [done|nia]. }
  destruct (Z.eqb_spec v q) as [->|Hne]; cbn [andb].
  - destruct (Z.ltb_spec r d); [by rewrite decide_False by nia|]. rewrite decide_True by nia.
    split; [|done]. rewrite (wrap_small w (q * b)) by nia. by rewrite wrap_small by nia.
  - assert (v * b + b ≤ q * b) by nia. rewrite decide_True by nia. split; [|done].
    rewrite (wrap_small w (v * b)) by nia. by rewrite wrap_small by nia.
Qed.

Lemma digits_loop_ok w b T m : 0 < b → 0 ≤ T < 2 ^ w → 0 ≤ w →
  ∀ fuel c s l ds acc any, at_char m c s l → (length l < fuel)%nat →
  Forall (λ d, 0 ≤ d) ds → accumulated b T ds acc any →
  ∃ acc' any', digits_loop fuel w b (T / b) (T mod b) c s acc any m =
    Ok (acc', any', s + Z.of_nat (length (digits_of b l).1)) ∧
    accumulated b T (ds ++ (digits_of b l).1) acc' any'.
Proof.
  intros Hb HT Hw. induction fuel as [|fuel IH]; intros c s l ds acc any Hc Hf Hds HA; [lia|].
  cbn [digits_loop]. destruct l as [|x l].
  - destruct Hc as [_ ->]. cbn. rewrite Z.add_0_r, app_nil_r. eauto.
  - destruct (at_char_tail _ _ _ _ _ Hc) as (Ht & -> & Hx). cbn [digits_of].
    destruct (digit_of b x) as [d|] eqn:Ed; cycle 1.
    { cbn. rewrite Z.add_0_r, app_nil_r. eauto. }
    pose proof (digit_of_range _ _ _ Ed) as [Hd _].
    pose proof (accumulated_step w b T ds d acc any Hb HT Hw Hd Hds HA) as HS.
    destruct (if _ : bool then _ else _) as [acc1 any1].
    destruct (at_char_load _ _ _ Ht) as (c & E & Hc'). rewrite E, Ok_bind.
    cbn [length] in Hf.
    destruct (IH c (s + 1) l (ds ++ [d]) acc1 any1 Hc') as (acc' & any' & E' & HA');
      [lia|apply Forall_app; split; [done|by constructor; [lia|]]|done|].
    exists acc', any'. rewrite E', <- app_assoc in *. split; [|done]. cbn [fst length]. do 2 f_equal. lia.
Qed.

Lemma digits_of_length b l : (length (digits_of b l).1 + length (digits_of b l).2)%nat = length l.
Proof. induction l as [|c l IH]; [done|]. cbn [digits_of]. destruct (digit_of b c); cbn; lia. Qed.

Lemma radix_of_legal base l : legal_base base → 2 ≤ (radix_of base l).1 ≤ 36.
Proof.
  intros Hb. unfold legal_base in Hb. unfold radix_of.
  destruct l as [|c [|x k]]; [| |destruct (_ && _)]; cbn [fst]; zcase; lia.
Qed.

(** The whole scan, for any largest legal value [T]. *)
Lemma scan_ok m s base l : cstr m s l → legal_base base →
  let '(neg, b, ds, rest) := numeral base l in
  2 ≤ b ≤ 36 ∧ (length ds + length rest ≤ length l)%nat ∧ 0 ≤ horner b ds ∧
  ∃ c1 s1 c2 s2 c3 s3, skip_space (scan_fuel m) s m = Ok (c1, s1) ∧
    pick_sign c1 s1 m = Ok (neg, c2, s2) ∧ pick_base base c2 s2 m = Ok (b, c3, s3) ∧
    ∀ w T, 0 ≤ w → 0 ≤ T < 2 ^ w →
      ∃ acc any, digits_loop (scan_fuel m) w b (T / b) (T mod b) c3 s3 0 0 m =
          Ok (acc, any, s + 1 + Z.of_nat (length l - length rest)) ∧
        accumulated b T ds acc any.
Proof.
  intros Hm Hb. pose proof (cstr_fuel _ _ _ Hm) as Hf.
  destruct (skip_space_ok _ _ _ _ Hm Hf) as (c1 & s1 & E1 & A1 & P1 & L1).
  destruct (pick_sign_ok _ _ _ _ A1) as (c2 & s2 & E2 & A2 & P2 & L2).
  destruct (pick_base_ok _ base _ _ _ A2) as (c3 & s3 & E3 & A3 & P3 & L3).
  unfold numeral. destruct (sign_of (drop_space l)) as [neg l2]. cbn [fst snd] in *.
  pose proof (radix_of_legal base l2 Hb) as Hr. destruct (radix_of base l2) as [b l3]. cbn [fst snd] in *.
  pose proof (digits_of_length b l3) as HL. pose proof (digits_of_range b l3) as HR.
  assert (0 ≤ horner b (digits_of b l3).1) as Hh.
  { apply horner_nonneg; [lia|]. eapply Forall_impl; [done|]. simpl. lia. }
  assert (∀ w T, 0 ≤ w → 0 ≤ T < 2 ^ w → ∃ acc any, digits_loop (scan_fuel m) w b (T / b) (T mod b) c3 s3 0 0 m =
    Ok (acc, any, s3 + Z.of_nat (length (digits_of b l3).1)) ∧ accumulated b T (digits_of b l3).1 acc any) as HD.
  { intros w T Hw HT. apply (digits_loop_ok w b T m ltac:(lia) HT Hw _ c3 s3 l3 [] 0 0 A3); [lia|constructor|].
    unfold accumulated. cbn. rewrite decide_True; [done|lia]. }
  destruct (digits_of b l3) as [ds rest]. cbn [fst snd] in *.
  split; [done|]. split; [lia|]. split; [done|]. exists c1, s1, c2, s2, c3, s3. split_and!; [done..|].
  intros w T Hw HT. destruct (HD w T Hw HT) as (acc & any & E & HA). exists acc, any. split; [|done].
  rewrite E. do 2 f_equal. lia.
Qed.

(** ** The parsers *)

(** The address after the numeral; the string's own when there is none. *)
Definition stop_at (s : Z) (l ds rest : list Z) : Z :=
  if decide (ds = []) then s else s + Z.of_nat (length l - length rest).

Lemma end_of_ok b T ds acc any s k :
  accumulated b T ds acc any → (horner b [] ≤ T) →
  end_of any (s + 1 + k) s = if decide (ds = []) then s else s + k.
Proof.
  unfold accumulated, end_of. intros HA HT. destruct (decide (ds = [])) as [->|].
  - rewrite decide_True in HA by done. destruct HA as [_ ->]. done.
  - assert (any = 1 ∨ any = -1) as [-> | ->] by (destruct (decide _); naive_solver); cbn; lia.
Qed.

Definition clamp (lo hi v : Z) : Z := Z.max lo (Z.min hi v).

Lemma swrap_wrap w z : 0 < w → swrap w (wrap w z) = swrap w z.
Proof. intros Hw. unfold swrap, wrap. by rewrite Zplus_mod_idemp_l. Qed.

(** The tail of strtol, for a cutoff at the largest magnitude. *)
Lemma signed_result w (neg : bool) b ds acc any :
  0 < w → 0 ≤ horner b ds →
  accumulated b (if neg then 2 ^ (w - 1) else 2 ^ (w - 1) - 1) ds acc any →
  swrap w (if any <? 0 then wrap w (if neg then - 2 ^ (w - 1) else 2 ^ (w - 1) - 1)
           else if neg then wrap w (- acc) else acc) =
  clamp (- 2 ^ (w - 1)) (2 ^ (w - 1) - 1) (if neg then - horner b ds else horner b ds).
Proof.
  intros Hw Hh HA. unfold accumulated, clamp in *. pose proof (Z.pow_pos_nonneg 2 (w - 1)).
  destruct (decide _) as [Hle|Hgt].
  - destruct HA as [-> ->]. replace (_ <? 0) with false by (destruct (decide _); done).
    destruct neg; rewrite ?swrap_wrap, swrap_small by lia; lia.
  - subst any. cbn. rewrite swrap_wrap by done. destruct neg; rewrite swrap_small by lia; lia.
Qed.

Lemma strtol_ok w m s base l : 8 ≤ w → cstr m s l → legal_base base →
  let '(neg, b, ds, rest) := numeral base l in
  strtol w s base m =
    Ok (clamp (- 2 ^ (w - 1)) (2 ^ (w - 1) - 1) (if neg then - horner b ds else horner b ds),
        stop_at s l ds rest).
Proof.
  intros Hw Hm Hb. pose proof (scan_ok m s base l Hm Hb) as HS.
  destruct (numeral base l) as [[[neg b] ds] rest].
  destruct HS as (Hb' & Hl & Hh & c1 & s1 & c2 & s2 & c3 & s3 & E1 & E2 & E3 & HD).
  unfold strtol. rewrite E1, Ok_bind. cbv beta iota. rewrite E2, Ok_bind. cbv beta iota.
  rewrite E3, Ok_bind. cbv beta iota zeta.
  assert (2 ^ 8 ≤ 2 ^ w) by (apply Z.pow_le_mono_r; lia).
  assert (2 ^ w = 2 * 2 ^ (w - 1)) as Ew by (rewrite <- Z.pow_succ_r by lia; f_equal; lia).
  assert ((if neg then wrap w (- wrap w (- 2 ^ (w - 1))) else 2 ^ (w - 1) - 1)
    = (if neg then 2 ^ (w - 1) else 2 ^ (w - 1) - 1)) as ->.
  { destruct neg; [|done]. unfold wrap.
    rewrite <- (Z.mod_add (- 2 ^ (w - 1)) 1), (Z.mod_small (- 2 ^ (w - 1) + _)) by lia.
    rewrite <- (Z.mod_add _ 1), Z.mod_small by lia. lia. }
  rewrite (wrap_small w b) by lia.
  destruct (HD w (if neg then 2 ^ (w - 1) else 2 ^ (w - 1) - 1)) as (acc & any & E & HA); [lia|destruct neg; lia|].
  rewrite E, Ok_bind. cbv beta iota. f_equal. f_equal.
  - by apply signed_result; [lia|..].
  - eapply end_of_ok; [done|]. destruct neg; cbn; lia.
Qed.

Lemma strtoq_strtol m s base l : cstr m s l → legal_base base → strtoq s base m = strtol 64 s base m.
Proof.
  intros Hm Hb. pose proof (scan_ok m s base l Hm Hb) as HS.
  destruct (numeral base l) as [[[neg b] ds] rest].
  destruct HS as (Hb' & Hl & Hh & c1 & s1 & c2 & s2 & c3 & s3 & E1 & E2 & E3 & HD).
  unfold strtol, strtoq. rewrite E1, !Ok_bind. cbv beta iota. rewrite E2, !Ok_bind. cbv beta iota.
  rewrite E3, !Ok_bind. cbv beta iota zeta. rewrite (wrap_small 32 b), (wrap_small 64 b) by lia.
  by destruct neg.
Qed.

(** The tail of strtoul. *)
Lemma unsigned_result w (neg : bool) b ds acc any :
  0 < w → 0 ≤ horner b ds → accumulated b (2 ^ w - 1) ds acc any →
  (if any <? 0 then 2 ^ w - 1 else if neg then wrap w (- acc) else acc) =
  if 2 ^ w <=? horner b ds then 2 ^ w - 1 else wrap w (if neg then - horner b ds else horner b ds).
Proof.
  intros Hw Hh HA. unfold accumulated in *. destruct (decide _) as [Hle|Hgt].
  - destruct HA as [-> ->]. replace (_ <? 0) with false by (destruct (decide _); done).
    destruct (Z.leb_spec (2 ^ w) (horner b ds)); [lia|]. destruct neg; [done|]. by rewrite wrap_small by lia.
  - subst any. cbn. destruct (Z.leb_spec (2 ^ w) (horner b ds)); [done|lia].
Qed.

Lemma strtoul_ok w m s base l : 8 ≤ w → cstr m s l → legal_base base →
  let '(neg, b, ds, rest) := numeral base l in
  strtoul w s base m =
    Ok (if 2 ^ w <=? horner b ds then 2 ^ w - 1 else wrap w (if neg then - horner b ds else horner b ds),
        stop_at s l ds rest).
Proof.
  intros Hw Hm Hb. pose proof (scan_ok m s base l Hm Hb) as HS.
  destruct (numeral base l) as [[[neg b] ds] rest].
  destruct HS as (Hb' & Hl & Hh & c1 & s1 & c2 & s2 & c3 & s3 & E1 & E2 & E3 & HD).
  unfold strtoul. rewrite E1, Ok_bind. cbv beta iota. rewrite E2, Ok_bind. cbv beta iota.
  rewrite E3, Ok_bind. cbv beta iota zeta.
  assert (2 ^ 8 ≤ 2 ^ w) by (apply Z.pow_le_mono_r; lia).
  rewrite (wrap_small w b) by lia.
  destruct (HD w (2 ^ w - 1)) as (acc & any & E & HA); [lia..|].
  rewrite E, Ok_bind. cbv beta iota. f_equal. f_equal.
  - by apply unsigned_result; [lia|..].
  - eapply end_of_ok; [done|]. cbn; lia.
Qed.

Lemma strtouq_strtoul m s base l : cstr m s l → legal_base base → strtouq s base m = strtoul 64 s base m.
Proof.
  intros Hm Hb. pose proof (scan_ok m s base l Hm Hb) as HS.
  destruct (numeral base l) as [[[neg b] ds] rest].
  destruct HS as (Hb' & Hl & Hh & c1 & s1 & c2 & s2 & c3 & s3 & E1 & E2 & E3 & HD).
  unfold strtoul, strtouq. rewrite E1, !Ok_bind. cbv beta iota. rewrite E2, !Ok_bind. cbv beta iota.
  rewrite E3, !Ok_bind. cbv beta iota zeta. 
  by rewrite (wrap_small 32 b), (wrap_small 64 b) by lia.
Qed.

(** ** Printing *)

(** The character of a digit. *)
Definition digit_char (upper : bool) (d : Z) : Z :=
  let c := if d <? 10 then d + 48 else d - 10 + 97 in if upper then toupper c else c.

(** The characters [out], read backwards from [p], end at a NUL. *)
Fixpoint back (m : mem_t) (p : Z) (out : list Z) : Prop :=
  match out with
  | [] => m !! p = Some 0
  | c :: out => m !! p = Some c ∧ c ≠ 0 ∧ back m (p - 1) out
  end.

Lemma back_insert m a c out : ∀ p, p < a → back m p out → back (<[a := c]> m) p out.
Proof.
  induction out as [|x out IH]; intros p Hp; cbn [back].
  - by rewrite lookup_insert_ne by lia.
  - intros (E & Hx & H). split_and!; [by rewrite lookup_insert_ne by lia|done|apply IH; [lia|done]].
Qed.

Lemma emit_back_ok m out : ∀ fuel p, back m p out → (length out < fuel)%nat → emit_back fuel p m = Ok out.
Proof.
  induction out as [|x out IH]; intros [|fuel] p H Hf; cbn [length] in Hf; try lia; cbn [emit_back back] in *.
  - by rewrite (load_Some _ _ _ H).
  - destruct H as (E & Hx & H). rewrite (load_Some _ _ _ E), Ok_bind.
    destruct (Z.eqb_spec x 0); [done|]. by rewrite IH by (done || lia).
Qed.

Lemma digit_char_spec upper b d : 0 ≤ d < b → b ≤ 36 →
  digit_of b (digit_char upper d) = Some d ∧ 0 < digit_char upper d < 128 ∧
  isspace (digit_char upper d) = false ∧ digit_char upper d ≠ 45 ∧ digit_char upper d ≠ 43 ∧
  (b ≤ 16 → digit_char upper d ≠ 120 ∧ digit_char upper d ≠ 88).
Proof.
  intros Hd Hb.
  assert (∀ d, 0 ≤ d < 36 → ∀ u, digit_of 36 (digit_char u d) = Some d ∧ 0 < digit_char u d < 128 ∧
    isspace (digit_char u d) = false ∧ digit_char u d ≠ 45 ∧ digit_char u d ≠ 43 ∧
    (d < 16 → digit_char u d ≠ 120 ∧ digit_char u d ≠ 88)) as HA.
  { clear. intros d Hd u.
    assert (d ∈ seqZ 0 36) as Hin by (apply elem_of_seqZ; lia). vm_compute in Hin.
    revert u. repeat (apply elem_of_cons in Hin as [->|Hin]; [intros []; vm_compute; naive_solver|]).
    by apply elem_of_nil in Hin. }
  destruct (HA d ltac:(lia) upper) as (H1 & H2 & H3 & H4 & H5 & H6).
  split_and!; try done || lia.
  revert H1. unfold digit_of. destruct (negb _); [done|].
  destruct (isdigit _); [|destruct (isalpha _); [|done]]; cbv zeta; zcase; intros ?; simplify_eq; first [done|lia|by f_equal].
Qed.

(** The digits of a number, without leading zeros; a number below [2 ^ fuel] has at
    most [fuel] of them. *)
Fixpoint ndigits (fuel : nat) (b n : Z) : list Z :=
  match fuel with
  | O => []
  | S fuel => (if n / b =? 0 then [] else ndigits fuel b (n / b)) ++ [n mod b]
  end.

Lemma ksprintn_loop_ok b upper : 2 ≤ b ≤ 36 → ∀ fuel p num m out,
  0 ≤ num < 2 ^ Z.of_nat fuel → (0 < fuel)%nat →
  mapped m (p + 1) (Z.of_nat fuel) → back m p out →
  ∃ ds m', ksprintn_loop fuel p num b upper m = Ok (p + Z.of_nat (length ds), m') ∧
    back m' (p + Z.of_nat (length ds)) ((digit_char upper <$> ds) ++ out) ∧
    horner b ds = num ∧ (0 < length ds ≤ fuel)%nat ∧ Forall (λ d, 0 ≤ d < b) ds ∧ ds = ndigits fuel b num ∧
    ∀ a, a ≤ p ∨ p + Z.of_nat fuel < a → m' !! a = m !! a.
Proof.
  intros Hb. induction fuel as [|fuel IH]; intros p num m out Hn Hf Hm Ho; [lia|]. cbn [ksprintn_loop].
  pose proof (Z.mod_pos_bound num b ltac:(lia)) as Hmod. pose proof (Z.div_mod num b ltac:(lia)) as Hdm.
  unfold hex2ascii. replace ((0 <=? num mod b) && (num mod b <? 36)) with true by (zcase; simpl; lia).
  rewrite Ok_bind. fold (digit_char upper (num mod b)).
  destruct (digit_char_spec upper b (num mod b) Hmod ltac:(lia)) as (_ & Hc & _).
  rewrite store_ok by (apply Hm; lia). rewrite Ok_bind.
  set (m1 := <[p + 1 := _]> m).
  assert (back m1 (p + 1) (digit_char upper (num mod b) :: out)) as Ho1.
  { cbn [back]. split_and!; [by apply lookup_insert_eq|lia|]. rewrite Z.add_simpl_r.
    apply back_insert; [lia|done]. }
  destruct (Z.eqb_spec (num / b) 0) as [E0|E0].
  - exists [num mod b], m1. split_and!; [done|done|cbn; lia|cbn; lia|cbn; lia|by constructor| |].
    { cbn [ndigits]. by rewrite E0. }
    intros a Ha. apply lookup_insert_ne. lia.
  - assert (0 < num / b) by (pose proof (Z.div_pos num b); lia).
    assert (num / b < 2 ^ Z.of_nat fuel).
    { rewrite Nat2Z.inj_succ, Z.pow_succ_r in Hn by lia. apply Z.div_lt_upper_bound; [lia|]. nia. }
    destruct fuel as [|fuel]; [cbn in *; lia|].
    destruct (IH (p + 1) (num / b) m1 (digit_char upper (num mod b) :: out))
      as (ds & m' & E & HB & Hh & Hl & HF & HN & HO); [lia|lia| |done|].
    { intros a Ha. unfold m1. apply lookup_insert_is_Some. destruct (decide (p + 1 = a)); [by left|right].
      split; [done|]. apply Hm. lia. }
    exists (ds ++ [num mod b]), m'. rewrite length_app, fmap_app, <- app_assoc, horner_app, Hh. cbn [length].
    replace (p + Z.of_nat (length ds + 1)) with (p + 1 + Z.of_nat (length ds)) by lia.
    split_and!; [done|done|lia|lia|lia|apply Forall_app; split; [done|by constructor]| |].
    { rewrite HN. cbn [ndigits]. by destruct (Z.eqb_spec (num / b) 0). }
    intros a Ha. rewrite HO by lia. apply lookup_insert_ne. lia.
Qed.

(** What was printed is read back. *)
Lemma digits_of_chars upper b ds : b ≤ 36 → Forall (λ d, 0 ≤ d < b) ds →
  digits_of b (digit_char upper <$> ds) = (ds, []).
Proof.
  intros Hb. induction 1 as [|d ds Hd _ IH]; [done|]. cbn.
  destruct (digit_char_spec upper b d Hd Hb) as [-> _]. by rewrite IH.
Qed.

Lemma numeral_printed upper b ds (neg : bool) : 2 ≤ b ≤ 36 → ds ≠ [] → Forall (λ d, 0 ≤ d < b) ds →
  numeral b ((if neg then [45] else []) ++ (digit_char upper <$> ds)) = (neg, b, ds, []).
Proof.
  intros Hb Hne HF.
  assert (radix_of b (digit_char upper <$> ds) = (b, digit_char upper <$> ds)) as HR.
  { unfold radix_of. destruct (Z.eqb_spec b 0); [lia|]. cbn [orb].
    destruct ds as [|d [|e ds]]; [done|done|]. cbn. apply Forall_cons in HF as [_ [He _]%Forall_cons].
    destruct (digit_char_spec upper b e He) as (_ & _ & _ & _ & _ & Hx); [lia|].
    destruct (Z.eqb_spec b 16); [|done]. destruct Hx; [lia|]. zcase; try done; by rewrite ?andb_false_r. }
  unfold numeral.
  assert (sign_of (drop_space ((if neg then [45] else []) ++ (digit_char upper <$> ds)))
    = (neg, digit_char upper <$> ds)) as ->.
  { destruct ds as [|d ds]; [done|]. apply Forall_cons in HF as [Hd _].
    destruct (digit_char_spec upper b d Hd) as (_ & _ & Hs & H45 & H43 & _); [lia|].
    destruct neg; [done|]. cbn. rewrite Hs. cbn. zcase; done. }
  rewrite HR. by rewrite digits_of_chars by (done || lia).
Qed.

(** ** What the routines promise *)

(** The numerals of ISO C (7.22.1.4), spelled out: the digits are the positions
    in an alphabet, in either case; white space is six characters; 0x is a prefix
    only in front of a hexadecimal digit. *)
Module Iso.

Definition white : list Z := [32; 9; 10; 11; 12; 13].
Definition codes (s : String.string) : list Z :=
  (λ c, Z.of_N (Ascii.N_of_ascii c)) <$> String.list_ascii_of_string s.
Definition lower : list Z := codes "0123456789abcdefghijklmnopqrstuvwxyz"%string.
Definition upper : list Z := codes "0123456789ABCDEFGHIJKLMNOPQRSTUVWXYZ"%string.

Fixpoint position (c : Z) (l : list Z) : option Z :=
  match l with
  | [] => None
  | x :: l => if decide (c = x) then Some 0 else Z.succ <$> position c l
  end.

(** The value of a character as a digit in base [b]. *)
Definition digit_value (b c : Z) : option Z :=
  v ← match position c lower with Some v => Some v | None => position c upper end;
  if decide (v < b) then Some v else None.

Fixpoint digits (b : Z) (l : list Z) : list Z * list Z :=
  match l with
  | c :: k => match digit_value b c with
              | Some d => (d :: (digits b k).1, (digits b k).2)
              | None => ([], l)
              end
  | [] => ([], [])
  end.

Fixpoint skip_blanks (l : list Z) : list Z :=
  match l with c :: k => if decide (c ∈ white) then skip_blanks k else l | [] => [] end.

(** 45 is a minus, 43 a plus sign. *)
Definition sign (l : list Z) : bool * list Z :=
  match l with
  | c :: k => if decide (c = 45) then (true, k) else if decide (c = 43) then (false, k) else (false, l)
  | [] => (false, l)
  end.

(** [l] starts with 0x or 0X in a base that has this prefix: what follows. *)
Definition prefix (base : Z) (l : list Z) : option (list Z) :=
  match l with
  | c :: x :: k => if decide (base ∈ [0; 16] ∧ c = 48 ∧ x ∈ [120; 88]) then Some k else None
  | _ => None
  end.

(** Without a prefix, a base of 0 is 8 in front of a 0 and 10 otherwise. *)
Definition plain (base : Z) (l : list Z) : Z :=
  if decide (base ≠ 0) then base else if decide (head l = Some 48) then 8 else 10.

Definition radix (base : Z) (l : list Z) : Z * list Z :=
  match prefix base l with
  | Some k => if decide ((digits 16 k).1 = []) then (plain base l, l) else (16, k)
  | None => (plain base l, l)
  end.

(** The sign, the base, the digits and what is left of the string. *)
Definition numeral (base : Z) (l : list Z) : bool * Z * list Z * list Z :=
  let '(neg, l) := sign (skip_blanks l) in
  let '(b, l) := radix base l in
  let '(ds, rest) := digits b l in
  (neg, b, ds, rest).

(** A prefix without a digit: ISO C reads the 0 in front of the x. *)
Definition bare_prefix (base : Z) (l : list Z) : bool :=
  match prefix base (sign (skip_blanks l)).2 with
  | Some k => bool_decide ((digits 16 k).1 = [])
  | None => false
  end.

End Iso.

Lemma white_isspace c : isspace c = bool_decide (c ∈ Iso.white).
Proof.
  unfold isspace, Iso.white. symmetry. case_bool_decide as E.
  - repeat apply elem_of_cons in E as [->|E]; [done..|]. by apply elem_of_nil in E.
  - symmetry. rewrite !not_elem_of_cons in E. zcase; cbn; lia.
Qed.

Lemma skip_blanks_space l : drop_space l = Iso.skip_blanks l.
Proof.
  induction l as [|c l IH]; [done|]. cbn [drop_space Iso.skip_blanks]. rewrite white_isspace, IH.
  by case_bool_decide; case_decide.
Qed.

Lemma digit_value_of b c : 0 ≤ c < 256 → digit_of b c = Iso.digit_value b c.
Proof.
  intros Hc.
  assert (match Iso.position c Iso.lower with Some v => Some v | None => Iso.position c Iso.upper end
    = digit_of 36 c) as E.
  { assert (c ∈ seqZ 0 256) as Hin by (apply elem_of_seqZ; lia). clear Hc. revert c Hin.
    apply Forall_forall. apply (bool_decide_unpack _). by vm_compute. }
  unfold Iso.digit_value. rewrite E. clear E. unfold digit_of, isalpha, isdigit, isupper, islower.
  destruct (negb _); [done|]. cbv zeta. zcase; cbn in *; try case_decide; first [done|lia].
Qed.

Lemma digits_value_of b l : Forall (λ c, 0 ≤ c < 256) l → digits_of b l = Iso.digits b l.
Proof.
  induction 1 as [|c l Hc _ IH]; [done|]. cbn [digits_of Iso.digits]. by rewrite digit_value_of, IH.
Qed.

Lemma sign_sign_of l : sign_of l = Iso.sign l.
Proof. destruct l as [|c l]; [done|]. cbn. zcase; repeat case_decide; done. Qed.

Lemma plain_plain base l :
  (if base =? 0 then if default 0 (head l) =? 48 then 8 else 10 else base) = Iso.plain base l.
Proof.
  unfold Iso.plain. destruct l as [|c l]; cbn; zcase; repeat case_decide; simplify_eq; done.
Qed.

Lemma radix_of_prefix base l :
  radix_of base l = match Iso.prefix base l with Some k => (16, k) | None => (Iso.plain base l, l) end.
Proof.
  unfold radix_of, Iso.prefix. rewrite plain_plain. destruct l as [|c [|x k]]; [done..|].
  case_decide as E; rewrite !elem_of_cons, !elem_of_nil in E; zcase; cbn; first [done|lia].
Qed.

(** What is stored when there is no digit. *)
Lemma signed_nil w b s l rest (neg : bool) : 8 ≤ w →
  (clamp (- 2 ^ (w - 1)) (2 ^ (w - 1) - 1) (if neg then - horner b [] else horner b []), stop_at s l [] rest) = (0, s).
Proof.
  intros Hw. pose proof (Z.pow_pos_nonneg 2 (w - 1)).
  unfold clamp, stop_at. rewrite decide_True by done. f_equal. destruct neg; cbn; lia.
Qed.

Lemma unsigned_nil w b s l rest (neg : bool) : 8 ≤ w →
  (if 2 ^ w <=? horner b [] then 2 ^ w - 1 else wrap w (if neg then - horner b [] else horner b []), stop_at s l [] rest) = (0, s).
Proof.
  intros Hw. pose proof (Z.pow_pos_nonneg 2 w).
  unfold stop_at. rewrite decide_True by done. f_equal. cbn.
  destruct (Z.leb_spec (2 ^ w) 0); [lia|]. destruct neg; cbn; unfold wrap; apply Z.mod_0_l; lia.
Qed.

(** The scanner's numeral is that of ISO C, except after a bare prefix. *)
Lemma numeral_iso base l : Forall (λ c, 0 ≤ c < 256) l →
  if Iso.bare_prefix base l then (numeral base l).1.2 = []
  else numeral base l = Iso.numeral base l.
Proof.
  intros Hl. unfold numeral, Iso.numeral, Iso.bare_prefix. rewrite skip_blanks_space, sign_sign_of.
  assert (Forall (λ c, 0 ≤ c < 256) (Iso.sign (Iso.skip_blanks l)).2) as Hs.
  { assert (Forall (λ c, 0 ≤ c < 256) (Iso.skip_blanks l)) as Hw.
    { induction Hl; cbn; [constructor|]. case_decide; [done|by constructor]. }
    unfold Iso.sign. destruct Hw as [|c k Hc Hk]; [constructor|]. repeat case_decide; cbn; by try constructor. }
  destruct (Iso.sign _) as [neg k]. cbn [snd] in *. clear l Hl.
  rewrite radix_of_prefix. unfold Iso.radix.
  destruct (Iso.prefix base k) as [k'|] eqn:E; cbv beta iota; [|by rewrite digits_value_of].
  assert (Forall (λ c, 0 ≤ c < 256) k') as Hk'.
  { unfold Iso.prefix in E. destruct k as [|c [|x k]]; [done..|]. case_decide; simplify_eq.
    by apply Forall_cons in Hs as [_ [_ ?]%Forall_cons]. }
  rewrite (digits_value_of _ k') by done. case_bool_decide as Eb.
  - by destruct (Iso.digits 16 k') as [ds rest].
  - by rewrite decide_False by done.
Qed.

Lemma cstr_chars m s l : cstr m s l → Forall (λ c, 0 ≤ c < 256) l.
Proof. intros H%cstr_bytes. apply (Forall_impl _ _ _ H). intros c ?. lia. Qed.

(** C19: strtol, strtoq, strtoul and strtouq read the longest numeral of ISO C at
    the front of the string (white space, a sign, the base's prefix, digits): the
    signed ones clamp its value to the range of their type, the unsigned ones
    saturate at the largest value and negate modulo 2^w, and all store where the
    numeral ends, or the string itself when it has no digit.  The one deviation
    from ISO C is stated too: a 0x prefix without a hexadecimal digit behind it is
    no numeral at all, where the standard reads the 0. *)
Theorem strtol_parses w m s base l :
  8 ≤ w → cstr m s l → legal_base base →
  let '(neg, b, ds, rest) := Iso.numeral base l in
  let v := horner b ds in
  let bare := Iso.bare_prefix base l in
  let signed w :=
    Ok (if bare then (0, s)
        else (clamp (- 2 ^ (w - 1)) (2 ^ (w - 1) - 1) (if neg then - v else v), stop_at s l ds rest)) in
  let unsigned w :=
    Ok (if bare then (0, s)
        else (if 2 ^ w <=? v then 2 ^ w - 1 else wrap w (if neg then - v else v), stop_at s l ds rest)) in
  strtol w s base m = signed w ∧ strtoul w s base m = unsigned w ∧
  strtoq s base m = signed 64 ∧ strtouq s base m = unsigned 64.
Proof.
  intros Hw Hm Hb. rewrite (strtoq_strtol m s base l), (strtouq_strtoul m s base l) by done.
  pose proof (strtol_ok w m s base l Hw Hm Hb) as H1. pose proof (strtoul_ok w m s base l Hw Hm Hb) as H2.
  pose proof (strtol_ok 64 m s base l ltac:(lia) Hm Hb) as H3.
  pose proof (strtoul_ok 64 m s base l ltac:(lia) Hm Hb) as H4.
  pose proof (numeral_iso base l (cstr_chars _ _ _ Hm)) as HN.
  destruct (Iso.bare_prefix base l); [|rewrite HN in H1, H2, H3, H4; by destruct (Iso.numeral base l) as [[[neg b] ds] rest]].
  destruct (numeral base l) as [[[neg b] ds] rest], (Iso.numeral base l) as [[[neg' b'] ds'] rest'].
  cbn [fst snd] in HN. subst ds. rewrite H1, H2, H3, H4. 
  by rewrite !signed_nil, !unsigned_nil by lia.
Qed.

(** The digits that printf's ksprintn prints for a number below 2^64, in any
    base from 2 to 36 and either case, fit its buffer of 65 bytes, and strtouq reads
    the number back from them; with a minus sign in front strtoq reads its
    negation, down to the least quad. *)
Theorem print_parse nbuf num base upper m :
  2 ≤ base ≤ 36 → 0 ≤ num < 2 ^ 64 → mapped m nbuf 65 →
  ∃ p m' out, ksprintn nbuf num base upper m = Ok (p, Z.of_nat (length out), m') ∧
    (∀ a, ¬ (nbuf ≤ a < nbuf + 65) → m' !! a = m !! a) ∧
    emit_back 65 p m' = Ok out ∧
    (∀ m2 s, cstr m2 s out → strtouq s base m2 = Ok (num, s + Z.of_nat (length out))) ∧
    (∀ m2 s, num ≤ 2 ^ 63 → cstr m2 s (45 :: out) →
      strtoq s base m2 = Ok (- num, s + Z.of_nat (S (length out)))).
Proof.
  intros Hb Hn Hm. unfold ksprintn. rewrite store_ok by (apply Hm; lia). rewrite Ok_bind.
  destruct (ksprintn_loop_ok base upper Hb 64 nbuf num (<[nbuf := 0]> m) [])
    as (ds & m' & E & HB & Hh & Hl & HF & HN & HO); [done|lia| |cbn; by apply lookup_insert_eq|].
  { intros a Ha. apply lookup_insert_is_Some. destruct (decide (nbuf = a)); [by left|right].
    split; [done|]. apply Hm. lia. }
  rewrite app_nil_r in HB.
  assert (ds ≠ []) as Hne by (by destruct ds; cbn in Hl; [lia|]).
  exists (nbuf + Z.of_nat (length ds)), m', (digit_char upper <$> ds).
  rewrite E, Ok_bind, length_fmap. cbv beta iota.
  assert (stop_at 0 (digit_char upper <$> ds) ds [] = Z.of_nat (length ds)) as Hst.
  { unfold stop_at. rewrite decide_False, length_fmap by done. cbn. lia. }
  split_and!; [do 2 f_equal; f_equal; lia| |apply emit_back_ok; [done|rewrite length_fmap; lia]| |].
  - intros a Ha. rewrite HO by lia. apply lookup_insert_ne. lia.
  - intros m2 s Hc. rewrite (strtouq_strtoul _ _ _ _ Hc) by (right; lia).
    pose proof (strtoul_ok 64 m2 s base _ ltac:(lia) Hc ltac:(right; lia)) as H.
    pose proof (numeral_printed upper base ds false Hb Hne HF) as En. cbn [app] in En. rewrite En in H.
    rewrite Hh in H. rewrite H. zcase; [lia|]. rewrite wrap_small by lia. f_equal. f_equal.
    unfold stop_at. rewrite decide_False, length_fmap by done. cbn. lia.
  - intros m2 s Hn2 Hc. rewrite (strtoq_strtol _ _ _ _ Hc) by (right; lia).
    pose proof (strtol_ok 64 m2 s base _ ltac:(lia) Hc ltac:(right; lia)) as H.
    pose proof (numeral_printed upper base ds true Hb Hne HF) as En. cbn [app] in En. rewrite En in H.
    rewrite Hh in H. rewrite H. unfold clamp. f_equal. f_equal; [lia|].
    unfold stop_at. rewrite decide_False by done. cbn [length]. rewrite length_fmap. lia.
Qed.

Module StrtoDemo.
(** A memory that holds the bytes [l] from address 100. *)
Definition mem_of (l : list Z) : mem_t := list_to_map (zip (seqZ 100 (Z.of_nat (length l))) l).

(** " -0x1fz" *)
Definition text : list Z := [32; 45; 48; 120; 49; 102; 122].

Lemma strtol_parses_witness :
  (strtol 64 100 0 (mem_of (text ++ [0])) = Ok (-31, 106)) ∧
  (strtoul 32 100 16 (mem_of (text ++ [0])) = Ok (2 ^ 32 - 31, 106)).
Proof.
  split.
  - refine (eq_trans (proj1 (strtol_parses 64 (mem_of (text ++ [0])) 100 0 text _ _ _)) _);
      [lia|vm_compute; tauto|by left|by vm_compute].
  - refine (eq_trans (proj1 (proj2 (strtol_parses 32 (mem_of (text ++ [0])) 100 16 text _ _ _))) _);
      [lia|vm_compute; tauto|right; lia|by vm_compute].
Defined.

(** "0xg": the prefix alone is not a numeral, though the 0 in front of it is. *)
Lemma strtol_bare_prefix : strtol 64 100 16 (mem_of [48; 120; 103; 0]) = Ok (0, 100).
Proof. by vm_compute. Qed.

Lemma print_parse_witness :
  ∃ p m' out, ksprintn 100 (2 ^ 63) 16 true (mem_of (repeat 7 65)) = Ok (p, Z.of_nat (length out), m') ∧
    (∀ a, ¬ (100 ≤ a < 100 + 65) → m' !! a = mem_of (repeat 7 65) !! a) ∧
    emit_back 65 p m' = Ok out ∧
    (∀ m2 s, cstr m2 s out → strtouq s 16 m2 = Ok (2 ^ 63, s + Z.of_nat (length out))) ∧
    (∀ m2 s, 2 ^ 63 ≤ 2 ^ 63 → cstr m2 s (45 :: out) →
      strtoq s 16 m2 = Ok (- 2 ^ 63, s + Z.of_nat (S (length out)))).
Proof.
  apply (print_parse 100 (2 ^ 63) 16 true (mem_of (repeat 7 65))); [lia|lia|].
  intros a Ha. assert (a ∈ seqZ 100 65) as Hin by (apply elem_of_seqZ; lia).
  clear Ha. revert a Hin. apply Forall_forall. vm_compute. repeat constructor; eauto.
Defined.
End StrtoDemo.
