(* ===== verification/Sort.v ===== *)
(** * Sorting and searching (lib/libc/stdlib/qsort.c, bsearch.c)

    The Bentley–McIlroy quicksort: insertion sort below seven elements, the
    median of three or the pseudo-median of nine as the pivot, a partition that
    collects the elements equal to the pivot at both ends, a switch to insertion
    sort when the partition moved nothing, recursion on the smaller part and a
    jump back for the larger one.

    The array is a list of elements and a pointer into it an element index: every
    pointer of the source is the base plus a multiple of [es], so [swapfunc] on
    [es] bytes exchanges two elements.  Accesses outside the array are faults. *)

From S2P Require Import Prelude.
Local Open Scope Z_scope.

(** ** Arrays of elements *)

Definition zlook {A} (l : list A) (i : Z) : option A :=
  if i <? 0 then None else l !! Z.to_nat i.

Definition aget {A} (l : list A) (i : Z) : res A :=
  match zlook l i with Some x => Ok x | None => Err Fault end.

(** ** qsort.c *)

Definition MIN (a b : Z) : Z := if a <? b then a else b.

(** [swapfunc(a, b, es)]: one element. *)
Definition swapfunc {A} (a b : Z) (l : list A) : res (list A) :=
  x ← aget l a;
  y ← aget l b;
  Ok (<[Z.to_nat b := x]> (<[Z.to_nat a := y]> l)).

(** [vecswap(a, b, n)]: [n] elements, one after the other. *)
Fixpoint vecswap_loop {A} (n : nat) (a b : Z) (l : list A) : res (list A) :=
  match n with
  | O => Ok l
  | S n => l ← swapfunc a b l; vecswap_loop n (a + 1) (b + 1) l
  end.

Definition vecswap {A} (a b n : Z) (l : list A) : res (list A) :=
  if 0 <? n then vecswap_loop (Z.to_nat n) a b l else Ok l.

Section Qsort.
Context {A : Type} (cmp : A → A → Z).

(** [CMP(thunk, p, q)] on the elements at [p] and [q]. *)
Definition CMP (l : list A) (p q : Z) : res Z :=
  x ← aget l p;
  y ← aget l q;
  Ok (cmp x y).

Definition med3 (l : list A) (a b c : Z) : res Z :=
  r ← CMP l a b;
  if r <? 0 then
    r ← CMP l b c;
    if r <? 0 then Ok b else
    r ← CMP l a c;
    Ok (if r <? 0 then c else a)
  else
    r ← CMP l b c;
    if 0 <? r then Ok b else
    r ← CMP l a c;
    Ok (if r <? 0 then a else c).

(** The inner loop of the insertion sort, from [pl] down to [a]. *)
Fixpoint sink (fuel : nat) (a pl : Z) (l : list A) : res (list A) :=
  match fuel with
  | O => Err NoFuel
  | S fuel =>
    if a <? pl then
      r ← CMP l (pl - 1) pl;
      if 0 <? r then
        l ← swapfunc pl (pl - 1) l;
        sink fuel a (pl - 1) l
      else Ok l
    else Ok l
  end.

(** The insertion sort, from [pm] to [a + n]. *)
Fixpoint insertion (fuel : nat) (a n pm : Z) (l : list A) : res (list A) :=
  match fuel with
  | O => Err NoFuel
  | S fuel =>
    if pm <? a + n then
      l ← sink (Z.to_nat (pm - a) + 1) a pm l;
      insertion fuel a n (pm + 1) l
    else Ok l
  end.

Definition insertion_sort (a n : Z) (l : list A) : res (list A) :=
  insertion (Z.to_nat n + 1) a n (a + 1) l.

(** The pivot's index. *)
Definition pivot (a n : Z) (l : list A) : res Z :=
  let pm := a + n / 2 in
  if 7 <? n then
    let pl := a in
    let pn := a + (n - 1) in
    if 40 <? n then
      let d := n / 8 in
      pl ← med3 l pl (pl + d) (pl + 2 * d);
      pm ← med3 l (pm - d) pm (pm + d);
      pn ← med3 l (pn - 2 * d) (pn - d) pn;
      med3 l pl pm pn
    else med3 l pl pm pn
  else Ok pm.

(** The first inner loop of the partition: [pa], [pb] and swap_cnt. *)
Fixpoint scan_up (fuel : nat) (a pa pb pc : Z) (cnt : bool) (l : list A)
    : res (Z * Z * bool * list A) :=
  match fuel with
  | O => Err NoFuel
  | S fuel =>
    if pb <=? pc then
      r ← CMP l pb a;
      if r <=? 0 then
        if r =? 0 then
          l ← swapfunc pa pb l;
          scan_up fuel a (pa + 1) (pb + 1) pc true l
        else scan_up fuel a pa (pb + 1) pc cnt l
      else Ok (pa, pb, cnt, l)
    else Ok (pa, pb, cnt, l)
  end.

(** The second one: [pc], [pd] and swap_cnt. *)
Fixpoint scan_down (fuel : nat) (a pb pc pd : Z) (cnt : bool) (l : list A)
    : res (Z * Z * bool * list A) :=
  match fuel with
  | O => Err NoFuel
  | S fuel =>
    if pb <=? pc then
      r ← CMP l pc a;
      if 0 <=? r then
        if r =? 0 then
          l ← swapfunc pc pd l;
          scan_down fuel a pb (pc - 1) (pd - 1) true l
        else scan_down fuel a pb (pc - 1) pd cnt l
      else Ok (pc, pd, cnt, l)
    else Ok (pc, pd, cnt, l)
  end.

Record part := Part { p_a : Z; p_b : Z; p_c : Z; p_d : Z; p_cnt : bool }.

(** The partition loop. *)
Fixpoint partition (fuel : nat) (a : Z) (p : part) (l : list A) : res (part * list A) :=
  match fuel with
  | O => Err NoFuel
  | S fuel =>
    let inner := (Z.to_nat (p_c p - p_b p + 1) + 1)%nat in
    '(pa, pb, cnt, l) ← scan_up inner a (p_a p) (p_b p) (p_c p) (p_cnt p) l;
    '(pc, pd, cnt, l) ← scan_down inner a pb (p_c p) (p_d p) cnt l;
    if pc <? pb then Ok (Part pa pb pc pd cnt, l) else
    l ← swapfunc pb pc l;
    partition fuel a (Part pa (pb + 1) (pc - 1) pd true) l
  end.

(** [qsort(a, n)], [n] bounding the recursion. *)
Fixpoint qsort (fuel : nat) (a n : Z) (l : list A) : res (list A) :=
  match fuel with
  | O => Err NoFuel
  | S fuel =>
    if n <? 7 then insertion_sort a n l else
    pm ← pivot a n l;
    l ← swapfunc a pm l;
    '(p, l) ← partition (Z.to_nat n) a (Part (a + 1) (a + 1) (a + (n - 1)) (a + (n - 1)) false) l;
    if negb (p_cnt p) then insertion_sort a n l else
    let pn := a + n in
    let d1 := MIN (p_a p - a) (p_b p - p_a p) in
    l ← vecswap a (p_b p - d1) d1 l;
    let d1 := MIN (p_d p - p_c p) (pn - p_d p - 1) in
    l ← vecswap (p_b p) (pn - d1) d1 l;
    let d1 := p_b p - p_a p in
    let d2 := p_d p - p_c p in
    if d1 <=? d2 then
      l ← (if 1 <? d1 then qsort fuel a d1 l else Ok l);
      if 1 <? d2 then qsort fuel (pn - d2) d2 l else Ok l
    else
      l ← (if 1 <? d2 then qsort fuel (pn - d2) d2 l else Ok l);
      if 1 <? d1 then qsort fuel a d1 l else Ok l
  end.
End Qsort.

(** ** bsearch.c *)

Section Bsearch.
Context {K A : Type} (compar : K → A → Z).

Fixpoint bsearch_loop (fuel : nat) (key : K) (base lim : Z) (l : list A) : res (option Z) :=
  match fuel with
  | O => Err NoFuel
  | S fuel =>
    if lim =? 0 then Ok None else
    let p := base + Z.shiftr lim 1 in
    x ← aget l p;
    let c := compar key x in
    if c =? 0 then Ok (Some p) else
    if 0 <? c then bsearch_loop fuel key (p + 1) (Z.shiftr (lim - 1) 1) l
    else bsearch_loop fuel key base (Z.shiftr lim 1) l
  end.

(** The index of the element found; a size_t halves 64 times at most. *)
Definition bsearch (key : K) (base nmemb : Z) (l : list A) : res (option Z) :=
  bsearch_loop 65 key base nmemb l.
End Bsearch.
