(* ===== verification/SortTheorems.v ===== *)
(** * qsort sorts and bsearch finds *)

From S2P Require Import Prelude Sort.
Local Open Scope Z_scope.

(** ** Arrays *)

Section arrays.
Context {A : Type}.
Implicit Types l : list A.

Lemma zlook_Some l i : 0 ≤ i < Z.of_nat (length l) → is_Some (zlook l i).
Proof. intros. unfold zlook. zcase; [lia|]. apply lookup_lt_is_Some. lia. Qed.

Lemma zlook_bounds l i x : zlook l i = Some x → 0 ≤ i < Z.of_nat (length l).
Proof. unfold zlook. zcase; [done|]. intros ?%lookup_lt_Some. lia. Qed.

Lemma aget_ok l i x : zlook l i = Some x → aget l i = Ok x.
Proof. unfold aget. by intros ->. Qed.

(** [l'] is [l] with the elements of the [n] cells from [a] permuted. *)
Record shuffle (a n : Z) (l l' : list A) : Prop := {
  sh_perm : l' ≡ₚ l;
  sh_out : ∀ k, k < a ∨ a + n ≤ k → zlook l' k = zlook l k
}.

Lemma shuffle_refl a n l : shuffle a n l l.
Proof. done. Qed.

Lemma shuffle_trans a n l1 l2 l3 : shuffle a n l1 l2 → shuffle a n l2 l3 → shuffle a n l1 l3.
Proof.
  intros [P1 O1] [P2 O2]. split; [by rewrite P2|]. intros k Hk. by rewrite O2, O1.
Qed.

Lemma shuffle_weaken a n b m l l' :
  shuffle b m l l' → a ≤ b → b + m ≤ a + n → shuffle a n l l'.
Proof. intros [P O] ??. split; [done|]. intros k Hk. apply O. lia. Qed.

Lemma shuffle_length a n l l' : shuffle a n l l' → length l' = length l.
Proof. intros []. by apply Permutation_length. Qed.

(** [P] holds of every element of the cells from [a] to [b]. *)
Definition every (P : A → Prop) (a b : Z) l : Prop :=
  ∀ k x, a ≤ k < b → zlook l k = Some x → P x.

Lemma every_slice (P : A → Prop) a b l :
  0 ≤ a → every P a b l ↔ Forall P (take (Z.to_nat (b - a)) (drop (Z.to_nat a) l)).
Proof.
  intros Ha. rewrite Forall_lookup. split.
  - intros H i x (Hx & Hi)%lookup_take_Some. rewrite lookup_drop in Hx.
    apply (H (a + Z.of_nat i)); [lia|]. unfold zlook. zcase; [lia|].
    by replace (Z.to_nat (a + Z.of_nat i)) with (Z.to_nat a + i)%nat by lia.
  - intros H k x Hk Hx. apply (H (Z.to_nat (k - a))). unfold zlook in Hx.
    zcase; [done|]. apply lookup_take_Some. split; [|lia]. rewrite lookup_drop.
    by replace (Z.to_nat a + Z.to_nat (k - a))%nat with (Z.to_nat k) by lia.
Qed.

(** Permuting the cells of a range keeps what holds of all of them. *)
Lemma shuffle_slice a n l l' :
  shuffle a n l l' → 0 ≤ a → 0 ≤ n → a + n ≤ Z.of_nat (length l) →
  take (Z.to_nat n) (drop (Z.to_nat a) l') ≡ₚ take (Z.to_nat n) (drop (Z.to_nat a) l).
Proof.
  intros Hs Ha Hn Hl. pose proof (shuffle_length _ _ _ _ Hs) as HL. destruct Hs as [HP HO].
  assert (take (Z.to_nat a) l' = take (Z.to_nat a) l) as E1.
  { apply list_eq. intros i. destruct (decide (i < Z.to_nat a)%nat).
    - rewrite !lookup_take_lt by done. specialize (HO (Z.of_nat i)). unfold zlook in HO.
      zcase; [lia|]. rewrite Nat2Z.id in HO. apply HO. lia.
    - by rewrite !lookup_take_ge by lia. }
  assert (drop (Z.to_nat n) (drop (Z.to_nat a) l') = drop (Z.to_nat n) (drop (Z.to_nat a) l)) as E2.
  { apply list_eq. intros i. rewrite !lookup_drop.
    specialize (HO (a + n + Z.of_nat i)). unfold zlook in HO. zcase; [lia|].
    replace (Z.to_nat (a + n + Z.of_nat i)) with (Z.to_nat a + (Z.to_nat n + i))%nat in HO by lia.
    apply HO. lia. }
  rewrite <- (take_drop (Z.to_nat a) l'), <- (take_drop (Z.to_nat a) l), E1 in HP.
  apply Permutation_app_inv_l in HP.
  rewrite <- (take_drop (Z.to_nat n) (drop (Z.to_nat a) l')),
    <- (take_drop (Z.to_nat n) (drop (Z.to_nat a) l)), E2 in HP.
  by apply Permutation_app_inv_r in HP.
Qed.

Lemma every_shuffle P a n l l' :
  shuffle a n l l' → 0 ≤ a → 0 ≤ n → a + n ≤ Z.of_nat (length l) →
  every P a (a + n) l → every P a (a + n) l'.
Proof.
  intros Hs Ha Hn Hl. rewrite !every_slice by done. replace (a + n - a) with n by lia.
  by rewrite (shuffle_slice a n l l') by done.
Qed.

Lemma every_out P a n b c l l' :
  shuffle a n l l' → c ≤ a ∨ a + n ≤ b → every P b c l → every P b c l'.
Proof. intros [_ O] Hd H k x Hk Hx. apply (H k); [done|]. rewrite <- Hx. symmetry. apply O. lia. Qed.

(** ** Exchanging elements *)

(** [l'] is [l] with the elements at [i] and [j] exchanged. *)
Definition swapped (i j : Z) l l' : Prop :=
  l' ≡ₚ l ∧ zlook l' i = zlook l j ∧ zlook l' j = zlook l i ∧
  ∀ k, k ≠ i → k ≠ j → zlook l' k = zlook l k.

Lemma swapfunc_ok l i j :
  0 ≤ i < Z.of_nat (length l) → 0 ≤ j < Z.of_nat (length l) →
  ∃ l', swapfunc i j l = Ok l' ∧ swapped i j l l'.
Proof.
  intros Hi Hj. destruct (zlook_Some l i Hi) as [x Hx], (zlook_Some l j Hj) as [y Hy].
  unfold swapfunc. rewrite (aget_ok _ _ _ Hx), Ok_bind, (aget_ok _ _ _ Hy), Ok_bind.
  eexists; split; [done|]. unfold swapped. rewrite Hx, Hy. unfold zlook in *. zcase; try lia.
  split_and!.
  - by apply Permutation_insert_swap.
  - destruct (decide (i = j)) as [->|].
    + rewrite list_lookup_insert_eq by (rewrite length_insert; lia). congruence.
    + rewrite list_lookup_insert_ne by lia. by rewrite list_lookup_insert_eq by lia.
  - by rewrite list_lookup_insert_eq by (rewrite length_insert; lia).
  - intros k ??. zcase; [done|]. by rewrite !list_lookup_insert_ne by lia.
Qed.

Lemma swapped_look i j l l' k :
  swapped i j l l' → zlook l' k = zlook l (if k =? i then j else if k =? j then i else k).
Proof. intros (_ & H1 & H2 & H3). zcase; subst; auto. Qed.

Lemma swapped_shuffle a n i j l l' :
  swapped i j l l' → a ≤ i < a + n → a ≤ j < a + n → shuffle a n l l'.
Proof. intros (HP & _ & _ & H) ??. split; [done|]. intros k Hk. apply H; lia. Qed.

Definition rot (i j d k : Z) : Z :=
  if (i <=? k) && (k <? i + d) then k - i + j
  else if (j <=? k) && (k <? j + d) then k - j + i else k.

Lemma rot_spec i j d k : i + d ≤ j →
  (i ≤ k < i + d ∧ rot i j d k = k - i + j) ∨ (j ≤ k < j + d ∧ rot i j d k = k - j + i) ∨
  (¬ (i ≤ k < i + d) ∧ ¬ (j ≤ k < j + d) ∧ rot i j d k = k).
Proof. intros. unfold rot. zcase; simpl; lia. Qed.

Lemma vecswap_loop_ok d : ∀ i j l,
  0 ≤ i → i + Z.of_nat d ≤ j → j + Z.of_nat d ≤ Z.of_nat (length l) →
  ∃ l', vecswap_loop d i j l = Ok l' ∧ l' ≡ₚ l ∧ ∀ k, zlook l' k = zlook l (rot i j (Z.of_nat d) k).
Proof.
  induction d as [|d IH]; intros i j l Hi Hij Hj.
  - exists l. split_and!; [done..|]. intros k. unfold rot. f_equal. zcase; simpl; lia.
  - destruct (swapfunc_ok l i j) as (l1 & E & Hs); [lia..|]. simpl vecswap_loop.
    rewrite E, Ok_bind. pose proof (proj1 Hs) as HP.
    pose proof (Permutation_length HP) as HL.
    destruct (IH (i + 1) (j + 1) l1) as (l2 & E2 & HP2 & H2); [lia..|].
    exists l2. rewrite E2. split_and!; [done|by rewrite HP2|]. intros k. rewrite H2.
    rewrite (swapped_look i j l l1) by done. f_equal.
    destruct (rot_spec i j (Z.of_nat (S d)) k) as [?|[?|?]]; [lia|..];
      destruct (rot_spec (i + 1) (j + 1) (Z.of_nat d) k) as [?|[?|?]]; zcase; lia.
Qed.

(** [vecswap] on the shorter of two neighbouring blocks [[x, y)] and [[y, z)]
    exchanges what holds of them. *)
Lemma vecswap_blocks (P Q : A → Prop) x y z d l :
  0 ≤ x ≤ y → y ≤ z → z ≤ Z.of_nat (length l) → d = MIN (y - x) (z - y) →
  every P x y l → every Q y z l →
  ∃ l', vecswap x (z - d) d l = Ok l' ∧ shuffle x (z - x) l l' ∧
    every Q x (x + (z - y)) l' ∧ every P (x + (z - y)) z l'.
Proof.
  intros Hx Hy Hz Hd HP HQ. unfold MIN in Hd.
  assert (0 ≤ d ∧ d ≤ y - x ∧ d ≤ z - y ∧ (d = y - x ∨ d = z - y)) as (Hd0 & Hd1 & Hd2 & Hd3)
    by (zcase; lia). clear Hd.
  assert (∃ l', vecswap x (z - d) d l = Ok l' ∧ l' ≡ₚ l ∧ ∀ k, zlook l' k = zlook l (rot x (z - d) d k))
    as (l' & E & HPm & Hl').
  { unfold vecswap. zcase.
    - destruct (vecswap_loop_ok (Z.to_nat d) x (z - d) l) as (l' & ? & ? & Hr); [lia..|].
      rewrite Z2Nat.id in Hr by lia. by exists l'.
    - exists l. split_and!; [done..|]. intros k. unfold rot. f_equal. zcase; simpl; lia. }
  exists l'. split_and!; [done| | |].
  - split; [done|]. intros k Hk. rewrite Hl'. f_equal. unfold rot. zcase; simpl; lia.
  - intros k w Hk. rewrite Hl'. apply HQ. unfold rot. zcase; simpl; lia.
  - intros k w Hk. rewrite Hl'. apply HP. unfold rot. zcase; simpl; lia.
Qed.

Lemma every_join P a b c l : every P a b l → every P b c l → every P a c l.
Proof. intros H1 H2 k x Hk Hx. destruct (decide (k < b)); [apply (H1 k)|apply (H2 k)]; done || lia. Qed.

Lemma every_impl (P Q : A → Prop) a b l : (∀ x, P x → Q x) → every P a b l → every Q a b l.
Proof. intros HI H k x Hk Hx. by apply HI, (H k). Qed.
End arrays.

(** ** The sort *)

Section qsort.
Context {A : Type} (cmp : A → A → Z).
Implicit Types l : list A.

(** What qsort(3) asks of the comparison: a total preorder. *)
Record order : Prop := {
  o_anti : ∀ x y, cmp x y < 0 ↔ 0 < cmp y x;
  o_trans : ∀ x y z, cmp x y ≤ 0 → cmp y z ≤ 0 → cmp x z ≤ 0
}.

(** The cells from [a] to [b] are in order. *)
Definition sorted (a b : Z) l : Prop :=
  ∀ i j x y, a ≤ i < j → j < b → zlook l i = Some x → zlook l j = Some y → cmp x y ≤ 0.

Lemma CMP_ok l p q x y : zlook l p = Some x → zlook l q = Some y → CMP cmp l p q = Ok (cmp x y).
Proof. intros Hx Hy. unfold CMP. by rewrite (aget_ok _ _ _ Hx), Ok_bind, (aget_ok _ _ _ Hy). Qed.

(** *** Insertion sort *)

(** In order but for the cell [pl], which is below the cells after it. *)
Definition sinking (a pl b : Z) l : Prop :=
  (∀ i j x y, a ≤ i < j → j < b → i ≠ pl → j ≠ pl →
    zlook l i = Some x → zlook l j = Some y → cmp x y ≤ 0) ∧
  (∀ j x y, pl < j < b → zlook l pl = Some x → zlook l j = Some y → cmp x y ≤ 0).

Lemma sink_ok fuel : ∀ a pl l,
  0 ≤ a ≤ pl → pl < Z.of_nat (length l) → pl - a < Z.of_nat fuel →
  ∃ l', sink cmp fuel a pl l = Ok l' ∧ shuffle a (pl - a + 1) l l' ∧
    (order → ∀ b, pl < b → sinking a pl b l → sorted a b l').
Proof.
  induction fuel as [|fuel IH]; intros a pl l Ha Hpl Hf; [lia|]. simpl sink.
  destruct (Z.ltb_spec a pl); cycle 1.
  { exists l. split_and!; [done..|]. intros _ b Hb [S1 S2] i j x y Hi Hj Hx Hy.
    destruct (decide (i = pl)) as [->|]; [eapply (S2 j); done || lia|]. eapply (S1 i j); done || lia. }
  destruct (zlook_Some l (pl - 1)) as [u Hu]; [lia|].
  destruct (zlook_Some l pl) as [w Hw]; [lia|].
  rewrite (CMP_ok l (pl - 1) pl u w), Ok_bind by done. destruct (Z.ltb_spec 0 (cmp u w)).
  - destruct (swapfunc_ok l pl (pl - 1)) as (l1 & E & Hs); [lia..|]. rewrite E, Ok_bind.
    assert (shuffle a (pl - a + 1) l l1) as Hsh by (eapply swapped_shuffle; [done|lia..]).
    pose proof (shuffle_length _ _ _ _ Hsh) as HL.
    destruct (IH a (pl - 1) l1) as (l2 & E2 & Hsh2 & Hso); [lia..|].
    exists l2. split_and!; [done| |].
    + eapply shuffle_trans; [done|]. eapply shuffle_weaken; [done|lia..].
    + intros O b Hb [S1 S2]. apply (Hso O); [lia|]. destruct (o_anti O w u) as [_ Hlt].
      split.
      * intros i j x y Hi Hj Hip Hjp. rewrite !(swapped_look _ _ _ _ _ Hs).
        zcase; try lia; subst; intros Hx Hy.
        -- eapply (S1 (pl - 1) j); done || lia.
        -- eapply (S1 i (pl - 1)); done || lia.
        -- eapply (S1 i j); done || lia.
      * intros j x y Hj. rewrite !(swapped_look _ _ _ _ _ Hs). zcase; try lia; subst; intros Hx Hy.
        -- simplify_eq. lia.
        -- eapply (S2 j); done || lia.
  - exists l. split_and!; [done| |].
    { apply shuffle_refl. }
    intros O b Hb [S1 S2] i j x y Hi Hj Hx Hy.
    destruct (decide (i = pl)) as [->|]; [eapply (S2 j); done || lia|].
    destruct (decide (j = pl)) as [->|]; [|eapply (S1 i j); done || lia].
    simplify_eq. apply (o_trans O) with u; [|lia].
    destruct (decide (i = pl - 1)) as [->|]; [simplify_eq|eapply (S1 i (pl - 1)); done || lia].
    destruct (o_anti O u u) as [H1 H2]. lia.
Qed.

Lemma insertion_ok fuel : ∀ a n pm l,
  0 ≤ a < pm → 0 ≤ n → a + n ≤ Z.of_nat (length l) → Z.max 0 (a + n - pm) < Z.of_nat fuel →
  ∃ l', insertion cmp fuel a n pm l = Ok l' ∧ shuffle a n l l' ∧
    (order → sorted a pm l → sorted a (a + n) l').
Proof.
  induction fuel as [|fuel IH]; intros a n pm l Ha Hn Hl Hf; [lia|]. simpl insertion.
  destruct (Z.ltb_spec pm (a + n)); cycle 1.
  { exists l. split_and!; [done..|]. intros _ S i j x y Hi Hj. apply (S i j); lia. }
  destruct (sink_ok (Z.to_nat (pm - a) + 1) a pm l) as (l1 & E & Hsh & Hso); [lia..|].
  rewrite E, Ok_bind. pose proof (shuffle_length _ _ _ _ Hsh) as HL.
  destruct (IH a n (pm + 1) l1) as (l2 & E2 & Hsh2 & Hso2); [lia..|].
  exists l2. split_and!; [done| |].
  - eapply shuffle_trans; [|done]. eapply shuffle_weaken; [done|lia..].
  - intros O S. apply (Hso2 O), (Hso O); [lia|]. split; intros *; [|lia].
    intros Hi Hj ??. apply (S i j); lia.
Qed.

Lemma insertion_sort_ok a n l :
  0 ≤ a → 0 ≤ n → a + n ≤ Z.of_nat (length l) →
  ∃ l', insertion_sort cmp a n l = Ok l' ∧ shuffle a n l l' ∧ (order → sorted a (a + n) l').
Proof.
  intros Ha Hn Hl. destruct (insertion_ok (Z.to_nat n + 1) a n (a + 1) l) as (l' & E & ? & Hs); [lia..|].
  exists l'. split_and!; [done..|]. intros O. apply (Hs O). intros i j *. lia.
Qed.

(** *** The pivot *)

Lemma med3_ok l a b c :
  is_Some (zlook l a) → is_Some (zlook l b) → is_Some (zlook l c) →
  ∃ m, med3 cmp l a b c = Ok m ∧ (m = a ∨ m = b ∨ m = c).
Proof.
  intros [x Hx] [y Hy] [z Hz]. unfold med3.
  rewrite (CMP_ok l a b x y), (CMP_ok l b c y z), (CMP_ok l a c x z), !Ok_bind by done.
  zcase; rewrite ?Ok_bind; eauto 6.
Qed.

Lemma pivot_ok a n l :
  0 ≤ a → 7 ≤ n → a + n ≤ Z.of_nat (length l) →
  ∃ m, pivot cmp a n l = Ok m ∧ a ≤ m < a + n.
Proof.
  intros Ha Hn Hl. unfold pivot.
  assert (∀ i j k, a ≤ i < a + n → a ≤ j < a + n → a ≤ k < a + n →
    ∃ m, med3 cmp l i j k = Ok m ∧ a ≤ m < a + n) as Hm.
  { intros i j k Hi Hj Hk. destruct (med3_ok l i j k) as (m & E & Hm); [apply zlook_Some; lia..|].
    exists m. split; [done|lia]. }
  assert (0 ≤ n / 2 ∧ n / 2 < n) by (split; [apply Z.div_pos|apply Z.div_lt]; lia).
  destruct (Z.ltb_spec 7 n); [|eexists; split; [done|lia]].
  assert (0 ≤ n / 8 ∧ 4 * (n / 8) ≤ n / 2 ∧ n / 2 + 4 * (n / 8) ≤ n ∧ n / 8 < n / 2) by (Z.to_euclidean_division_equations; lia).
  destruct (Z.ltb_spec 40 n); [|apply Hm; lia].
  destruct (Hm a (a + n / 8) (a + 2 * (n / 8))) as (pl & E1 & ?); [lia..|].
  destruct (Hm (a + n / 2 - n / 8) (a + n / 2) (a + n / 2 + n / 8)) as (pm & E2 & ?); [lia..|].
  destruct (Hm (a + (n - 1) - 2 * (n / 8)) (a + (n - 1) - n / 8) (a + (n - 1))) as (pn & E3 & ?); [lia..|].
  rewrite E1, Ok_bind, E2, Ok_bind, E3, Ok_bind.
  by apply Hm.
Qed.

(** *** The partition *)

(** Equal to the pivot [v], or the pivot itself; below it; above it. *)
Definition same (v x : A) : Prop := cmp x v = 0 ∨ x = v.
Definition below (v x : A) : Prop := cmp x v < 0.
Definition above (v x : A) : Prop := 0 < cmp x v.

Lemma scan_up_ok fuel : ∀ a pa pb pc cnt l v,
  0 ≤ a < pa → pa ≤ pb ≤ pc + 1 → pc < Z.of_nat (length l) → pc + 1 - pb < Z.of_nat fuel →
  zlook l a = Some v → every (same v) a pa l → every (below v) pa pb l →
  ∃ pa' pb' cnt' l', scan_up cmp fuel a pa pb pc cnt l = Ok (pa', pb', cnt', l') ∧
    pa ≤ pa' ≤ pb' ∧ pb ≤ pb' ≤ pc + 1 ∧ shuffle pa (pb' - pa) l l' ∧
    every (same v) a pa' l' ∧ every (below v) pa' pb' l' ∧
    (pb' ≤ pc → every (above v) pb' (pb' + 1) l').
Proof.
  induction fuel as [|fuel IH]; intros a pa pb pc cnt l v Ha Hp Hc Hf Hv HE HL; [lia|].
  simpl scan_up. destruct (Z.leb_spec pb pc); cycle 1.
  { exists pa, pb, cnt, l. split_and!; done || lia. }
  destruct (zlook_Some l pb) as [x Hx]; [lia|].
  rewrite (CMP_ok l pb a x v), Ok_bind by done. destruct (Z.leb_spec (cmp x v) 0); cycle 1.
  { exists pa, pb, cnt, l. split_and!; try done || lia. intros _ k y Hk Hy.
    assert (k = pb) as -> by lia. by simplify_eq. }
  destruct (Z.eqb_spec (cmp x v) 0) as [E0|E0].
  - destruct (swapfunc_ok l pa pb) as (l1 & E & Hs); [lia..|]. rewrite E, Ok_bind.
    assert (shuffle pa (pb + 1 - pa) l l1) as Hsh by (eapply swapped_shuffle; [done|lia..]).
    pose proof (shuffle_length _ _ _ _ Hsh) as Hlen.
    edestruct (IH a (pa + 1) (pb + 1) pc true l1 v) as (pa' & pb' & cnt' & l' & E' & H1 & H2 & H3 & H4);
      [lia..| | | |].
    + rewrite <- Hv. apply (sh_out _ _ _ _ Hsh). lia.
    + intros k y Hk. rewrite (swapped_look _ _ _ _ _ Hs). zcase; try lia; intros Hy.
      * simplify_eq. by left.
      * by apply (HE k); [lia|].
    + intros k y Hk. rewrite (swapped_look _ _ _ _ _ Hs). zcase; try lia; intros Hy.
      * apply (HL pa); done || lia.
      * apply (HL k); done || lia.
    + exists pa', pb', cnt', l'. split_and!; try done || lia || apply H4.
      eapply shuffle_trans; (eapply shuffle_weaken; [done|lia..]).
  - edestruct (IH a pa (pb + 1) pc cnt l v) as (pa' & pb' & cnt' & l' & E' & H1 & H2 & H3 & H4);
      [lia..|done|done| |].
    + apply every_join with pb; [done|]. intros k y Hk Hy. assert (k = pb) as -> by lia.
      simplify_eq. unfold below. lia.
    + exists pa', pb', cnt', l'. split_and!; done || lia || apply H4.
Qed.

Lemma scan_down_ok fuel : ∀ a n pb pc pd cnt l v,
  0 ≤ a < pb → pb ≤ pc + 1 → pc ≤ pd < a + n → a + n ≤ Z.of_nat (length l) →
  pc + 1 - pb < Z.of_nat fuel →
  zlook l a = Some v → every (above v) (pc + 1) (pd + 1) l → every (same v) (pd + 1) (a + n) l →
  ∃ pc' pd' cnt' l', scan_down cmp fuel a pb pc pd cnt l = Ok (pc', pd', cnt', l') ∧
    pc' ≤ pd' ≤ pd ∧ pb ≤ pc' + 1 ∧ pc' ≤ pc ∧ shuffle (pc' + 1) (pd - pc') l l' ∧
    every (above v) (pc' + 1) (pd' + 1) l' ∧ every (same v) (pd' + 1) (a + n) l' ∧
    (pb ≤ pc' → every (below v) pc' (pc' + 1) l').
Proof.
  induction fuel as [|fuel IH]; intros a n pb pc pd cnt l v Ha Hp Hc Hn Hf Hv HG HE; [lia|].
  simpl scan_down. destruct (Z.leb_spec pb pc); cycle 1.
  { exists pc, pd, cnt, l. split_and!; done || lia. }
  destruct (zlook_Some l pc) as [x Hx]; [lia|].
  rewrite (CMP_ok l pc a x v), Ok_bind by done. destruct (Z.leb_spec 0 (cmp x v)); cycle 1.
  { exists pc, pd, cnt, l. split_and!; try done || lia. intros _ k y Hk Hy.
    assert (k = pc) as -> by lia. by simplify_eq. }
  destruct (Z.eqb_spec (cmp x v) 0) as [E0|E0].
  - destruct (swapfunc_ok l pc pd) as (l1 & E & Hs); [lia..|]. rewrite E, Ok_bind.
    assert (shuffle pc (pd + 1 - pc) l l1) as Hsh by (eapply swapped_shuffle; [done|lia..]).
    pose proof (shuffle_length _ _ _ _ Hsh) as Hlen.
    edestruct (IH a n pb (pc - 1) (pd - 1) true l1 v) as (pc' & pd' & cnt' & l' & E' & H1 & H2 & H3 & H4 & H5);
      [lia..| | | |].
    + rewrite <- Hv. apply (sh_out _ _ _ _ Hsh). lia.
    + intros k y Hk. rewrite (swapped_look _ _ _ _ _ Hs). zcase; try lia; intros Hy.
      * apply (HG pd); done || lia.
      * apply (HG k); done || lia.
    + intros k y Hk. rewrite (swapped_look _ _ _ _ _ Hs). zcase; try lia; intros Hy.
      * assert (pd = pc) as -> by lia. simplify_eq. by left.
      * simplify_eq. by left.
      * by apply (HE k); [lia|].
    + exists pc', pd', cnt', l'. split_and!; try done || lia || apply H5.
      eapply shuffle_trans; (eapply shuffle_weaken; [done|lia..]).
  - edestruct (IH a n pb (pc - 1) pd cnt l v) as (pc' & pd' & cnt' & l' & E' & H1 & H2 & H3 & H4 & H5);
      [lia..|done| |done|].
    + apply every_join with (pc + 1); [|done]. intros k y Hk Hy. assert (k = pc) as -> by lia.
      simplify_eq. unfold above. lia.
    + exists pc', pd', cnt', l'. split_and!; done || lia || apply H5.
Qed.
(** The four regions of the array during the partition: equal, below,
    unexamined, above, equal. *)
Record regions (a n : Z) (v : A) (p : part) l : Prop := {
  r_bounds : 0 ≤ a < p_a p ∧ p_a p ≤ p_b p ≤ p_c p + 1 ∧ p_c p ≤ p_d p < a + n;
  r_len : a + n ≤ Z.of_nat (length l);
  r_pivot : zlook l a = Some v;
  r_left : every (same v) a (p_a p) l;
  r_below : every (below v) (p_a p) (p_b p) l;
  r_above : every (above v) (p_c p + 1) (p_d p + 1) l;
  r_right : every (same v) (p_d p + 1) (a + n) l
}.

Lemma partition_ok fuel : ∀ a n v p l,
  regions a n v p l → 0 < Z.of_nat fuel → p_c p - p_b p + 2 ≤ Z.of_nat fuel →
  ∃ p' l', partition cmp fuel a p l = Ok (p', l') ∧ shuffle a n l l' ∧
    regions a n v p' l' ∧ p_b p' = p_c p' + 1.
Proof.
  induction fuel as [|fuel IH]; intros a n v [pa pb pc pd cnt] l R Hf0 Hf; [lia|].
  destruct R as [(B1 & B2 & B3) HL Hv RE RB RA RR]; cbn [p_a p_b p_c p_d] in *.
  cbn [partition p_a p_b p_c p_d p_cnt].
  destruct (scan_up_ok (Z.to_nat (pc - pb + 1) + 1) a pa pb pc cnt l v)
    as (pa1 & pb1 & cnt1 & l1 & E1 & U1 & U2 & Sh1 & UE & UB & UA); [done || lia..|].
  rewrite E1, Ok_bind. cbv beta iota. pose proof (shuffle_length _ _ _ _ Sh1) as HL1.
  destruct (scan_down_ok (Z.to_nat (pc - pb + 1) + 1) a n pb1 pc pd cnt1 l1 v)
    as (pc1 & pd1 & cnt2 & l2 & E2 & D1 & D2 & D3 & Sh2 & DA & DE & DB); [lia..| | | |].
  { rewrite <- Hv. apply (sh_out _ _ _ _ Sh1). lia. }
  { apply (every_out _ pa (pb1 - pa) _ _ l); done || lia. }
  { apply (every_out _ pa (pb1 - pa) _ _ l); done || lia. }
  rewrite E2, Ok_bind. cbv beta iota. pose proof (shuffle_length _ _ _ _ Sh2) as HL2.
  assert (shuffle a n l l2) as Sh.
  { eapply shuffle_trans; (eapply shuffle_weaken; [done|lia..]). }
  assert (every (same v) a pa1 l2) as UE2 by (eapply every_out; [exact Sh2|lia|done]).
  assert (every (below v) pa1 pb1 l2) as UB2 by (eapply every_out; [exact Sh2|lia|done]).
  assert (zlook l2 a = Some v) as Hv2.
  { rewrite <- Hv, (sh_out _ _ _ _ Sh2), (sh_out _ _ _ _ Sh1); done || lia. }
  destruct (Z.ltb_spec pc1 pb1).
  - exists (Part pa1 pb1 pc1 pd1 cnt2), l2. split_and!; [done|done| |cbn; lia].
    split; cbn [p_a p_b p_c p_d]; done || lia.
  - assert (every (above v) pb1 (pb1 + 1) l2) as UA2.
    { eapply every_out; [exact Sh2|lia|]. apply UA. lia. }
    specialize (DB ltac:(lia)).
    destruct (zlook_Some l2 pb1) as [x Hx]; [lia|]. destruct (zlook_Some l2 pc1) as [y Hy]; [lia|].
    pose proof (UA2 pb1 x ltac:(lia) Hx) as Hax. pose proof (DB pc1 y ltac:(lia) Hy) as Hby.
    assert (pb1 ≠ pc1) as Hne by (intros ->; simplify_eq; unfold above, below in *; lia).
    destruct (swapfunc_ok l2 pb1 pc1) as (l3 & E3 & Hs); [lia..|]. rewrite E3, Ok_bind.
    assert (shuffle pb1 (pc1 - pb1 + 1) l2 l3) as Sh3 by (eapply swapped_shuffle; [done|lia..]).
    pose proof (shuffle_length _ _ _ _ Sh3) as HL3.
    destruct (IH a n v (Part pa1 (pb1 + 1) (pc1 - 1) pd1 true) l3) as (p' & l' & E & Sh' & R' & He);
      [|cbn; lia..|].
    { split; cbn [p_a p_b p_c p_d]; try done || lia.
      - rewrite <- Hv2. apply (sh_out _ _ _ _ Sh3). lia.
      - eapply every_out; [exact Sh3|lia|done].
      - apply every_join with pb1; [eapply every_out; [exact Sh3|lia|done]|].
        intros k z Hk. rewrite (swapped_look _ _ _ _ _ Hs). zcase; try lia; intros Hz; by simplify_eq.
      - apply every_join with (pc1 + 1); [|eapply every_out; [exact Sh3|lia|done]].
        intros k z Hk. rewrite (swapped_look _ _ _ _ _ Hs). zcase; try lia; intros Hz; by simplify_eq.
      - eapply every_out; [exact Sh3|lia|done]. }
    exists p', l'. split_and!; [done| |done..]. eapply shuffle_trans; [exact Sh|].
    eapply shuffle_trans; [|done]. eapply shuffle_weaken; [done|lia..].
Qed.

(** Sorted halves around elements equal to the pivot are sorted. *)
Lemma sorted_join v a b c d l :
  order → a ≤ b ≤ c → c ≤ d →
  every (below v) a b l → every (same v) b c l → every (above v) c d l →
  sorted a b l → sorted c d l → sorted a d l.
Proof.
  intros O Hab Hcd HB HE HA S1 S2 i j x y Hi Hj Hx Hy.
  destruct (decide (j < b)); [eapply (S1 i j); done || lia|].
  destruct (decide (c ≤ i)); [eapply (S2 i j); done || lia|].
  destruct (o_anti O v v) as [_ Hvv].
  assert (cmp x v ≤ 0) as Hxv.
  { destruct (decide (i < b)).
    - pose proof (HB i x ltac:(lia) Hx). unfold below in *. lia.
    - destruct (HE i x ltac:(lia) Hx) as [|]; subst; lia. }
  assert (cmp v y ≤ 0) as Hvy.
  { destruct (o_anti O v y), (o_anti O y v), (decide (j < c)).
    - destruct (HE j y ltac:(lia) Hy) as [|]; subst; lia.
    - pose proof (HA j y ltac:(lia) Hy). unfold above in *. lia. }
  by apply (o_trans O) with v.
Qed.

(** After the partition: the elements below the pivot in front, those above it
    at the back, and fewer of both than there were elements. *)
Lemma partition_blocks a n v p l :
  regions a n v p l → p_b p = p_c p + 1 →
  ∃ l1 l2, vecswap a (p_b p - MIN (p_a p - a) (p_b p - p_a p)) (MIN (p_a p - a) (p_b p - p_a p)) l = Ok l1 ∧
    vecswap (p_b p) (a + n - MIN (p_d p - p_c p) (a + n - p_d p - 1))
      (MIN (p_d p - p_c p) (a + n - p_d p - 1)) l1 = Ok l2 ∧
    shuffle a n l l2 ∧
    every (below v) a (a + (p_b p - p_a p)) l2 ∧
    every (same v) (a + (p_b p - p_a p)) (a + n - (p_d p - p_c p)) l2 ∧
    every (above v) (a + n - (p_d p - p_c p)) (a + n) l2.
Proof.
  destruct p as [pa pb pc pd cnt]. intros [(B1 & B2 & B3) HL Hv RE RB RA RR] Hbc.
  cbn [p_a p_b p_c p_d] in *. subst pb.
  destruct (vecswap_blocks (same v) (below v) a pa (pc + 1) (MIN (pa - a) (pc + 1 - pa)) l)
    as (l1 & E1 & Sh1 & W1 & W2); [done || lia..|].
  pose proof (shuffle_length _ _ _ _ Sh1) as HL1.
  destruct (vecswap_blocks (above v) (same v) (pc + 1) (pd + 1) (a + n)
    (MIN (pd - pc) (a + n - pd - 1)) l1) as (l2 & E2 & Sh2 & W3 & W4).
  1-3: lia.
  { f_equal; lia. }
  1-2: eapply every_out; [exact Sh1|lia|done].
  exists l1, l2. split_and!; [done..| | | |].
  - eapply shuffle_trans; (eapply shuffle_weaken; [done|lia..]).
  - replace (a + (pc + 1 - pa)) with (a + (pc + 1 - pa)) by lia. eapply every_out; [exact Sh2|lia|done].
  - apply every_join with (pc + 1); [eapply every_out; [exact Sh2|lia|done]|].
    by replace (a + n - (pd - pc)) with (pc + 1 + (a + n - (pd + 1))) by lia.
  - by replace (a + n - (pd - pc)) with (pc + 1 + (a + n - (pd + 1))) by lia.
Qed.
(** A recursive call on a part of the array keeps the rest. *)
Lemma qsort_part (P Q R : A → Prop) (sort : list A → res (list A)) a b c d m k l :
  (∃ l', sort l = Ok l' ∧ shuffle m k l l' ∧ (order → sorted m (m + k) l')) →
  0 ≤ m → 0 ≤ k → m + k ≤ Z.of_nat (length l) →
  (m = a ∧ m + k = b ∨ m = c ∧ m + k = d) → a ≤ b ≤ c → c ≤ d →
  every P a b l → every Q b c l → every R c d l →
  ∃ l', sort l = Ok l' ∧ shuffle m k l l' ∧ (order → sorted m (m + k) l') ∧
    every P a b l' ∧ every Q b c l' ∧ every R c d l'.
Proof.
  intros (l' & E & Hsh & Hso) Hm Hk Hl Hmk Hab Hcd HP HQ HR.
  exists l'. split_and!; [done..| | |].
  - destruct Hmk as [[-> <-]|[-> <-]]; [by eapply every_shuffle|].
    eapply every_out; [done|lia|done].
  - eapply every_out; [done|lia|done].
  - destruct Hmk as [[-> <-]|[-> <-]]; [eapply every_out; [done|lia|done]|].
    by eapply every_shuffle.
Qed.

Lemma sorted_out a n b c l l' :
  shuffle a n l l' → c ≤ a ∨ a + n ≤ b → sorted b c l → sorted b c l'.
Proof.
  intros [_ O] Hd S i j x y Hi Hj Hx Hy. eapply (S i j); [done..| |].
  - rewrite <- O; done || lia.
  - rewrite <- O; done || lia.
Qed.

Lemma sorted_one a b l : b ≤ a + 1 → sorted a b l.
Proof. intros ? i j *. lia. Qed.

(** The calls on both parts, in either order. *)
Lemma both_parts (sl sr : list A → res (list A)) (left : bool) v a n d1 d2 l :
  0 ≤ a → 0 ≤ d1 → 0 ≤ d2 → d1 + d2 < n → a + n ≤ Z.of_nat (length l) →
  (∀ l', length l' = length l →
    ∃ l'', sl l' = Ok l'' ∧ shuffle a d1 l' l'' ∧ (order → sorted a (a + d1) l'')) →
  (∀ l', length l' = length l →
    ∃ l'', sr l' = Ok l'' ∧ shuffle (a + n - d2) d2 l' l'' ∧
      (order → sorted (a + n - d2) (a + n - d2 + d2) l'')) →
  every (below v) a (a + d1) l → every (same v) (a + d1) (a + n - d2) l →
  every (above v) (a + n - d2) (a + n) l →
  ∃ l', (if left then sl l ≫= sr else sr l ≫= sl) = Ok l' ∧ shuffle a n l l' ∧
    (order → sorted a (a + n) l').
Proof.
  intros Ha H1 H2 Hd Hl HL HR HB HE HA.
  assert (a + n - d2 + d2 = a + n) as En by lia. destruct left.
  - destruct (qsort_part (below v) (same v) (above v) sl a (a + d1) (a + n - d2) (a + n) a d1 l)
      as (l5 & E5 & Sh5 & S5 & B5 & M5 & A5); [by apply HL|done || lia..|].
    rewrite E5, Ok_bind. pose proof (shuffle_length _ _ _ _ Sh5) as HL5.
    destruct (qsort_part (below v) (same v) (above v) sr a (a + d1) (a + n - d2) (a + n) (a + n - d2) d2 l5)
      as (l6 & E6 & Sh6 & S6 & B6 & M6 & A6); [by apply HR|done || lia..|].
    exists l6. split_and!; [done| |].
    + eapply shuffle_trans; (eapply shuffle_weaken; [done|lia..]).
    + intros O. apply (sorted_join v a (a + d1) (a + n - d2) (a + n)); try done || lia.
      * eapply sorted_out; [exact Sh6|lia|]. by apply S5.
      * rewrite En in S6. by apply S6.
  - destruct (qsort_part (below v) (same v) (above v) sr a (a + d1) (a + n - d2) (a + n) (a + n - d2) d2 l)
      as (l5 & E5 & Sh5 & S5 & B5 & M5 & A5); [by apply HR|done || lia..|].
    rewrite E5, Ok_bind. pose proof (shuffle_length _ _ _ _ Sh5) as HL5.
    destruct (qsort_part (below v) (same v) (above v) sl a (a + d1) (a + n - d2) (a + n) a d1 l5)
      as (l6 & E6 & Sh6 & S6 & B6 & M6 & A6); [by apply HL|done || lia..|].
    exists l6. split_and!; [done| |].
    + eapply shuffle_trans; (eapply shuffle_weaken; [done|lia..]).
    + intros O. apply (sorted_join v a (a + d1) (a + n - d2) (a + n)); try done || lia.
      * by apply S6.
      * eapply sorted_out; [exact Sh6|lia|]. rewrite En in S5. by apply S5.
Qed.

Lemma qsort_ok fuel : ∀ a n l,
  0 ≤ a → 0 ≤ n → a + n ≤ Z.of_nat (length l) → n < Z.of_nat fuel →
  ∃ l', qsort cmp fuel a n l = Ok l' ∧ shuffle a n l l' ∧ (order → sorted a (a + n) l').
Proof.
  induction fuel as [|fuel IH]; intros a n l Ha Hn Hl Hf; [lia|]. cbn [qsort].
  destruct (Z.ltb_spec n 7) as [|H7]; [by apply insertion_sort_ok|].
  destruct (pivot_ok a n l) as (m & E & Hm); [done..|]. rewrite E, Ok_bind.
  destruct (swapfunc_ok l a m) as (l1 & E1 & Hs); [lia..|]. rewrite E1, Ok_bind.
  assert (shuffle a n l l1) as Sh1 by (eapply swapped_shuffle; [done|lia..]).
  pose proof (shuffle_length _ _ _ _ Sh1) as HL1.
  destruct (zlook_Some l1 a) as [v Hv]; [lia|].
  destruct (partition_ok (Z.to_nat n) a n v (Part (a + 1) (a + 1) (a + (n - 1)) (a + (n - 1)) false) l1)
    as (p & l2 & E2 & Sh2 & HR & Hbc); [|cbn; lia..|].
  { split; cbn [p_a p_b p_c p_d]; try lia; [done|..]; intros k x Hk Hx; try lia.
    assert (k = a) as -> by lia. simplify_eq. by right. }
  rewrite E2, Ok_bind. cbv beta iota.
  pose proof (shuffle_length _ _ _ _ Sh2) as HL2.
  assert (shuffle a n l l2) as Sh12 by (by eapply shuffle_trans).
  destruct (negb (p_cnt p)).
  { destruct (insertion_sort_ok a n l2) as (l' & ? & ? & ?); [lia..|].
    exists l'. split_and!; [done| |done]. by eapply shuffle_trans. }
  destruct (partition_blocks a n v p l2 HR Hbc) as (l3 & l4 & E3 & E4 & Sh4 & HB & HE & HA).
  rewrite E3, Ok_bind, E4, Ok_bind. pose proof (shuffle_length _ _ _ _ Sh4) as HL4.
  assert (shuffle a n l l4) as Sh14 by (by eapply shuffle_trans).
  pose proof (r_bounds _ _ _ _ _ HR) as (R1 & R2 & R3).
  set (d1 := p_b p - p_a p) in *. set (d2 := p_d p - p_c p) in *.
  assert (0 ≤ d1 ∧ 0 ≤ d2 ∧ d1 + d2 < n) as (Hd1 & Hd2 & Hd) by lia.
  clearbody d1 d2. clear HR R1 R2 R3 E2 Hbc E3 E4.
  (* a call on either part, or none when the part has at most one element *)
  assert (∀ m k l', 0 ≤ m → 0 ≤ k → k < n → m + k ≤ Z.of_nat (length l') →
    ∃ l'', (if 1 <? k then qsort cmp fuel m k l' else Ok l') = Ok l'' ∧ shuffle m k l' l'' ∧
      (order → sorted m (m + k) l'')) as Call.
  { intros m' k l' ????. destruct (Z.ltb_spec 1 k); [apply IH; lia|].
    exists l'. split_and!; [done..|]. intros _. apply sorted_one. lia. }
  destruct (both_parts (λ l, if 1 <? d1 then qsort cmp fuel a d1 l else Ok l)
    (λ l, if 1 <? d2 then qsort cmp fuel (a + n - d2) d2 l else Ok l) (d1 <=? d2) v a n d1 d2 l4)
    as (l' & E' & Sh' & So'); [lia..| | |done|done|done|].
  1-2: intros l' Hlen; apply Call; lia.
  exists l'. split_and!; [exact E'|by eapply shuffle_trans|done].
Qed.
End qsort.

(** ** Binary search *)

Section bsearch.
Context {K A : Type} (compar : K → A → Z).
Implicit Types l : list A.

(** The cells [[a, b)] are ordered with respect to the key: what comes before an
    element below the key is below it, what comes after an element above the key
    is above it. *)
Definition keyed (key : K) (a b : Z) l : Prop :=
  ∀ i j x y, a ≤ i < j → j < b → zlook l i = Some x → zlook l j = Some y →
    (0 < compar key y → 0 < compar key x) ∧ (compar key x < 0 → compar key y < 0).

Lemma bsearch_step fuel key base lim l :
  bsearch_loop compar (S fuel) key base lim l =
  if lim =? 0 then Ok None else
  x ← aget l (base + Z.shiftr lim 1);
  if compar key x =? 0 then Ok (Some (base + Z.shiftr lim 1)) else
  if 0 <? compar key x then bsearch_loop compar fuel key (base + Z.shiftr lim 1 + 1) (Z.shiftr (lim - 1) 1) l
  else bsearch_loop compar fuel key base (Z.shiftr lim 1) l.
Proof. done. Qed.

Lemma bsearch_loop_ok fuel key a n l : ∀ base lim,
  0 ≤ a → a + n ≤ Z.of_nat (length l) → a ≤ base → 0 ≤ lim → base + lim ≤ a + n →
  keyed key a (a + n) l → lim < 2 ^ (Z.of_nat fuel) →
  every (λ x, 0 < compar key x) a base l → every (λ x, compar key x < 0) (base + lim) (a + n) l →
  ∃ r, bsearch_loop compar (S fuel) key base lim l = Ok r ∧
    match r with
    | Some p => a ≤ p < a + n ∧ every (λ x, compar key x = 0) p (p + 1) l
    | None => every (λ x, compar key x ≠ 0) a (a + n) l
    end.
Proof.
  induction fuel as [|fuel IH]; intros base lim Ha Hl Hb Hlim Hbl HK Hf HA HB; rewrite bsearch_step.
  - assert (lim = 0) as -> by lia. rewrite Z.eqb_refl. exists None. split; [done|].
    apply every_join with base; [|rewrite Z.add_0_r in HB];
      (eapply every_impl; [|done]); simpl; lia.
  - destruct (Z.eqb_spec lim 0) as [->|Hne].
    { exists None. split; [done|]. apply every_join with base; [|rewrite Z.add_0_r in HB];
      (eapply every_impl; [|done]); simpl; lia. }
    rewrite !Z.shiftr_div_pow2 by lia. change (2 ^ 1) with 2.
    rewrite Nat2Z.inj_succ, Z.pow_succ_r in Hf by lia.
    assert (0 ≤ lim / 2 < lim ∧ lim / 2 + 1 + (lim - 1) / 2 = lim ∧ 0 ≤ (lim - 1) / 2
      ∧ lim / 2 < 2 ^ Z.of_nat fuel ∧ (lim - 1) / 2 < 2 ^ Z.of_nat fuel) as (H1 & H2 & H3 & H4 & H5).
    { generalize dependent (2 ^ Z.of_nat fuel). intros z Hz. Z.to_euclidean_division_equations. lia. }
    destruct (zlook_Some l (base + lim / 2)) as [x Hx]; [lia|].
    rewrite (aget_ok _ _ _ Hx), Ok_bind. destruct (Z.eqb_spec (compar key x) 0) as [E0|E0].
    { exists (Some (base + lim / 2)). split; [done|]. split; [lia|]. intros k y Hk Hy.
      assert (k = base + lim / 2) as -> by lia. by simplify_eq. }
    destruct (Z.ltb_spec 0 (compar key x)).
    + apply IH; try done || lia.
      * intros k y Hk Hy. destruct (decide (k = base + lim / 2)) as [->|]; [by simplify_eq|].
        eapply (HK k (base + lim / 2) y x); done || lia.
      * by replace (base + lim / 2 + 1 + (lim - 1) / 2) with (base + lim) by lia.
    + apply IH; try done || lia. intros k y Hk Hy.
      destruct (decide (k = base + lim / 2)) as [->|]; [simplify_eq; lia|].
      destruct (HK (base + lim / 2) k x y) as [G1 G2]; [done || lia..|]. lia.
Qed.

Lemma bsearch_ok key a n l :
  0 ≤ a → 0 ≤ n < 2 ^ 64 → a + n ≤ Z.of_nat (length l) → keyed key a (a + n) l →
  ∃ r, bsearch compar key a n l = Ok r ∧
    match r with
    | Some p => a ≤ p < a + n ∧ every (λ x, compar key x = 0) p (p + 1) l
    | None => every (λ x, compar key x ≠ 0) a (a + n) l
    end.
Proof.
  intros. apply bsearch_loop_ok; try done || lia; intros k x Hk; lia.
Qed.
End bsearch.

(** ** What the routines promise *)

(** C18: qsort on any [n] elements of an array ends without touching anything
    outside them and leaves a permutation of them, whatever the comparison
    returns; when the comparison is a total preorder they are in order. *)
Theorem qsort_sorts {A} (cmp : A → A → Z) a n l :
  0 ≤ a → 0 ≤ n → a + n ≤ Z.of_nat (length l) →
  ∃ l', qsort cmp (S (Z.to_nat n)) a n l = Ok l' ∧ l' ≡ₚ l ∧
    (∀ k, k < a ∨ a + n ≤ k → zlook l' k = zlook l k) ∧
    (order cmp → sorted cmp a (a + n) l').
Proof.
  intros. destruct (qsort_ok cmp (S (Z.to_nat n)) a n l) as (l' & ? & [] & ?); [lia..|].
  by exists l'.
Qed.

Lemma sorted_keyed {A} (cmp : A → A → Z) key a b l :
  order cmp → sorted cmp a b l → keyed cmp key a b l.
Proof.
  intros O S i j x y Hi Hj Hx Hy. pose proof (S i j x y Hi Hj Hx Hy) as Hxy.
  pose proof (o_anti _ O) as An. pose proof (o_trans _ O) as Tr. split; intros Hc.
  - destruct (Z.lt_ge_cases 0 (cmp key x)) as [|Hle]; [done|].
    pose proof (Tr key x y Hle Hxy). lia.
  - destruct (Z.lt_ge_cases (cmp key y) 0) as [|Hge]; [done|].
    assert (cmp y key ≤ 0) as Hyk by (destruct (An key y), (An y key); lia).
    pose proof (Tr x y key Hxy Hyk). destruct (An key x), (An x key). lia.
Qed.

(** Bsearch in an array that qsort sorted with the same comparison returns an
    element equal to the key, and returns NULL only when the array had none. *)
Theorem sorted_search {A} (cmp : A → A → Z) l :
  order cmp → Z.of_nat (length l) < 2 ^ 64 →
  ∃ l', qsort cmp (S (length l)) 0 (Z.of_nat (length l)) l = Ok l' ∧
    ∀ key, match bsearch cmp key 0 (Z.of_nat (length l)) l' with
           | Ok (Some p) => ∃ x, zlook l' p = Some x ∧ cmp key x = 0 ∧ x ∈ l
           | Ok None => ∀ x, x ∈ l → cmp key x ≠ 0
           | Err _ => False
           end.
Proof.
  intros O Hl. destruct (qsort_ok cmp (S (length l)) 0 (Z.of_nat (length l)) l)
    as (l' & E & Hsh & Hso); [lia..|].
  exists l'. split; [done|]. intros key. pose proof (shuffle_length _ _ _ _ Hsh) as HL.
  destruct (bsearch_ok cmp key 0 (Z.of_nat (length l)) l') as (r & -> & Hr);
    [lia..|by apply sorted_keyed, Hso|].
  destruct Hsh as [HP _]. destruct r as [p|].
  - destruct Hr as [Hp He]. destruct (zlook_Some l' p) as [x Hx]; [lia|]. exists x.
    split_and!; [done|by apply (He p); [lia|]|]. rewrite <- HP. unfold zlook in Hx.
    zcase; [done|]. by eapply list_elem_of_lookup_2.
  - intros x Hx. rewrite <- HP in Hx. apply list_elem_of_lookup in Hx as [i Hi].
    apply (Hr (Z.of_nat i)).
    + pose proof (lookup_lt_Some _ _ _ Hi). lia.
    + unfold zlook. zcase; [lia|]. by rewrite Nat2Z.id.
Qed.

Module SortDemo.
(** The usual comparison of integers. *)
Definition cmp (x y : Z) : Z := x - y.

Lemma cmp_order : order cmp.
Proof. unfold cmp. split; intros; lia. Qed.

(** Forty-five numbers, with duplicates: the pseudo-median of nine, partitions
    and insertion sort are all used. *)
Definition numbers : list Z := (λ i, (Z.of_nat i * 29 + 7) mod 23) <$> seq 0 45.

Lemma qsort_sorts_witness :
  (∃ l', qsort cmp 46 0 45 numbers = Ok l' ∧ l' ≡ₚ numbers ∧
    (∀ k, k < 0 ∨ 0 + 45 ≤ k → zlook l' k = zlook numbers k) ∧
    (order cmp → sorted cmp 0 (0 + 45) l')) ∧
  (λ l, take 6 l) <$> match qsort cmp 46 0 45 numbers with Ok l => Some l | _ => None end
    = Some [0; 0; 1; 2; 2; 3].
Proof.
  split; [apply (qsort_sorts cmp 0 45 numbers); by vm_compute|by vm_compute].
Defined.

Lemma sorted_search_witness :
  ∃ l', qsort cmp 46 0 45 numbers = Ok l' ∧
    ∀ key, match bsearch cmp key 0 45 l' with
           | Ok (Some p) => ∃ x, zlook l' p = Some x ∧ cmp key x = 0 ∧ x ∈ numbers
           | Ok None => ∀ x, x ∈ numbers → cmp key x ≠ 0
           | Err _ => False
           end.
Proof. apply (sorted_search cmp numbers cmp_order). by vm_compute. Defined.
End SortDemo.
