(* ===== verification/Printf.v ===== *)
(** * Formatted output (lib/libc/stdio: kvprintf.c, printf.c)

    kvprintf interprets a format and hands every character to a function.  Here the
    function is an argument that acts on a state of its own, so that sprintf,
    snprintf and the console are instances.  A pointer to a string is the list of the
    bytes from there on, with the NUL; reading past them is a fault.  So is taking an
    argument at another type than it was passed.  The model is the configuration
    without MDX_FTOA and without CHERI capabilities: a [long], a [size_t] and a
    pointer have [lw] bits, and a [char] is signed or not. *)

From S2P Require Import Prelude Memory StringScan Strto.
Local Open Scope Z_scope.

(** ** Arguments *)

Inductive arg :=
| AInt (w z : Z)        (** an integer of [w] bits *)
| AStr (bytes : list Z) (** a pointer to these bytes *)
| ANull
| APtr (a : Z).         (** a pointer to something else *)

Definition va_int (w : Z) (ap : list arg) : res (Z * list arg) :=
  match ap with
  | AInt w' z :: ap => if w =? w' then Ok (wrap w z, ap) else Err Fault
  | _ => Err Fault
  end.

Definition va_str (ap : list arg) : res (option (list Z) * list arg) :=
  match ap with
  | AStr l :: ap => Ok (Some l, ap)
  | ANull :: ap => Ok (None, ap)
  | _ => Err Fault
  end.

(** A pointer that is written through, or printed. *)
Definition va_ptr (ap : list arg) : res (Z * list arg) :=
  match ap with
  | APtr a :: ap => Ok (a, ap)
  | ANull :: ap => Ok (0, ap)
  | _ => Err Fault
  end.

(** ** A conversion specification *)

Record dir := {
  padc : Z; width : Z; dwidth : Z;
  ladjust : bool; sharpflag : bool; sign : bool; dot : bool; bconv : bool; upper : bool;
  qflag : bool; lflag : bool; cflag : bool; hflag : bool; jflag : bool; tflag : bool; zflag : bool;
}.

Definition dir0 : dir :=
  {| padc := 32; width := 0; dwidth := 0;
     ladjust := false; sharpflag := false; sign := false; dot := false; bconv := false; upper := false;
     qflag := false; lflag := false; cflag := false; hflag := false; jflag := false; tflag := false; zflag := false |}.

Definition set_pad (p wd dw : Z) (d : dir) : dir :=
  {| padc := p; width := wd; dwidth := dw;
     ladjust := ladjust d; sharpflag := sharpflag d; sign := sign d; dot := dot d; bconv := bconv d; upper := upper d;
     qflag := qflag d; lflag := lflag d; cflag := cflag d; hflag := hflag d; jflag := jflag d; tflag := tflag d;
     zflag := zflag d |}.
Definition set_style (la sh si dt bc up : bool) (d : dir) : dir :=
  {| padc := padc d; width := width d; dwidth := dwidth d;
     ladjust := la; sharpflag := sh; sign := si; dot := dt; bconv := bc; upper := up;
     qflag := qflag d; lflag := lflag d; cflag := cflag d; hflag := hflag d; jflag := jflag d; tflag := tflag d;
     zflag := zflag d |}.
Definition set_size (q l c h j t z : bool) (d : dir) : dir :=
  {| padc := padc d; width := width d; dwidth := dwidth d;
     ladjust := ladjust d; sharpflag := sharpflag d; sign := sign d; dot := dot d; bconv := bconv d; upper := upper d;
     qflag := q; lflag := l; cflag := c; hflag := h; jflag := j; tflag := t; zflag := z |}.

Definition set_width (n : Z) (d : dir) : dir := set_pad (padc d) n (dwidth d) d.
Definition set_dwidth (n : Z) (d : dir) : dir := set_pad (padc d) (width d) n d.
Definition set_padc (c : Z) (d : dir) : dir := set_pad c (width d) (dwidth d) d.
Definition set_ladjust (b : bool) (d : dir) : dir :=
  set_style b (sharpflag d) (sign d) (dot d) (bconv d) (upper d) d.
Definition set_sharp (b : bool) (d : dir) : dir := set_style (ladjust d) b (sign d) (dot d) (bconv d) (upper d) d.
Definition set_sign (b : bool) (d : dir) : dir := set_style (ladjust d) (sharpflag d) b (dot d) (bconv d) (upper d) d.
Definition set_dot (d : dir) : dir := set_style (ladjust d) (sharpflag d) (sign d) true (bconv d) (upper d) d.
Definition set_upper (d : dir) : dir := set_style (ladjust d) (sharpflag d) (sign d) (dot d) (bconv d) true d.
Definition set_bconv (d : dir) : dir := set_style true (sharpflag d) (sign d) (dot d) true (upper d) d.

(** [n = n * 10 + ch - '0'] for the digits at the front: the number, and the rest
    that begins with another character.  The sum is computed before '0' is
    subtracted. *)
Fixpoint read_num (n : Z) (f : list Z) : res (Z * list Z) :=
  match f with
  | [] => Err Fault
  | ch :: r => if (ch <? 48) || (57 <? ch) then Ok (n, f) else n ← int (n * 10 + ch); read_num (n - 48) r
  end.

(** The bytes up to the NUL, at most [k] of them when there is a bound. *)
Fixpoint str_bytes (k : option nat) (l : list Z) : res (list Z) :=
  match k, l with
  | Some O, _ => Ok []
  | _, [] => Err Fault
  | k, c :: l => if c =? 0 then Ok [] else r ← str_bytes (Nat.pred <$> k) l; Ok (c :: r)
  end.

(** "(null)" *)
Definition null_text : list Z := [40; 110; 117; 108; 108; 41; 0].

(** ** Characters out *)

Section kvprintf.
Context (lw : Z) (char_signed : bool).
Context {S : Type} (func : Z → S → S).

(** The value of a [char]. *)
Definition char_of (b : Z) : Z := if char_signed && (127 <? b) then b - 256 else b.

(** The state of the function, [retval], and what %n stored: address, width and
    value.  [retval] is an int: when it overflows it is a fault from then on, which
    reading it reports, at the latest the return. *)
Record kv := { sink : S; retval : res Z; stored : list (Z * Z * Z) }.

(** [retval++] *)
Definition count (r : res Z) : res Z := r ← r; int (r + 1).

Definition PCHAR (c : Z) (k : kv) : kv :=
  {| sink := func c (sink k); retval := count (retval k); stored := stored k |}.

Fixpoint pchars (l : list Z) (k : kv) : kv :=
  match l with [] => k | c :: l => pchars l (PCHAR c k) end.

(** [if (n > 0) while (n--) PCHAR(c)] *)
Definition pad_with (c n : Z) (k : kv) : kv := pchars (replicate (Z.to_nat n) c) k.

(** [while (n-- > 0) PCHAR(c)]: the last [n--] is that of a number that is not positive. *)
Definition pad_while (c n : Z) (k : kv) : res kv :=
  _ ← int (Z.min n 0 - 1); Ok (pad_with c n k).

(** ** Numbers *)

(** The MAXNBUF bytes of the local buffer. *)
Definition nbuf0 : mem_t := list_to_map ((λ i, (Z.of_nat i, 0)) <$> seq 0 65).

(** [ksprintn] into the buffer, and what [while ( *p)] reads back: the digits. *)
Definition digits (num base : Z) (up : bool) : res (list Z) :=
  if base =? 0 then Err Fault else
  '(p, _, m) ← ksprintn 0 num (u64 base) up nbuf0;
  emit_back 65 p m.

(** The names of the register bits that are set.  [first] is [retval == tmp]. *)
Fixpoint bit_names (fuel : nat) (num : Z) (q : list Z) (first : bool) (k : kv) : res (kv * bool) :=
  match fuel with
  | O => Err NoFuel
  | Datatypes.S fuel =>
    match q with
    | [] => Err Fault
    | n :: q =>
      if n =? 0 then Ok (k, first) else
      let n := char_of n in
      if negb ((1 <=? n) && (n <=? 31)) then Err Fault else
      if negb (Z.land num (Z.shiftl 1 (n - 1)) =? 0) then
        let k := PCHAR (if first then 60 else 44) k in
        '(k, q) ← (fix name (q : list Z) (k : kv) : res (kv * list Z) :=
          match q with
          | [] => Err Fault
          | c :: r => if 32 <? char_of c then name r (PCHAR (char_of c) k) else Ok (k, q)
          end) q k;
        bit_names fuel num q false k
      else
        q ← (fix skip (q : list Z) : res (list Z) :=
          match q with
          | [] => Err Fault
          | c :: r => if 32 <? char_of c then skip r else Ok q
          end) q;
        bit_names fuel num q first k
    end
  end.

(** The label [number]; width, dwidth and tmp are ints. *)
Definition number (num base : Z) (q : list Z) (d : dir) (k : kv) : res kv :=
  '(neg, num) ←
    (if sign d && (s64 num <? 0) then n ← signed 64 (- s64 num); Ok (true, n) else Ok (false, num));
  ds ← digits num base (upper d);
  let n := Z.of_nat (length ds) in
  let tmp := if sharpflag d && negb (num =? 0) then if base =? 8 then 1 else if base =? 16 then 2 else 0 else 0 in
  let tmp := if (neg : bool) then tmp + 1 else tmp in
  dw ← (if negb (ladjust d) && (padc d =? 48) then int (width d - tmp) else Ok (dwidth d));
  sum ← int (tmp + Z.max dw n);
  wd ← int (width d - sum);
  dw ← int (dw - n);
  k ← (if negb (ladjust d) then pad_while 32 wd k else Ok k);
  let k := if (neg : bool) then PCHAR 45 k else k in
  let k := if sharpflag d && negb (num =? 0) then
         if base =? 8 then PCHAR 48 k
         else if base =? 16 then pchars [48; 120] k else k
       else k in
  k ← pad_while 48 dw k;
  let k := pchars ds k in
  '(k, wd) ← (if bconv d && negb (num =? 0) then
      tmp ← retval k;
      '(k, first) ← bit_names (length q) num q true k;
      if (first : bool) then Ok (k, wd) else
      let k := PCHAR 62 k in
      r ← retval k;
      wd ← int (wd - (r - tmp));
      Ok (k, wd)
    else Ok (k, wd));
  if ladjust d then pad_while 32 wd k else Ok k.

(** The label [handle_nosign]. *)
Definition handle_nosign (base : Z) (d : dir) (ap : list arg) (k : kv) : res (list arg * kv) :=
  let d := set_sign false d in
  '(num, ap) ←
    (if jflag d then va_int 64 ap
     else if qflag d then va_int 64 ap
     else if tflag d then '(v, ap) ← va_int lw ap; Ok (u64 (swrap lw v), ap)
     else if lflag d then va_int lw ap
     else if zflag d then va_int lw ap
     else if hflag d then '(v, ap) ← va_int 32 ap; Ok (u16 v, ap)
     else if cflag d then '(v, ap) ← va_int 32 ap; Ok (u8 v, ap)
     else va_int 32 ap);
  '(base, q, ap) ←
    (if bconv d then
       '(p, ap) ← va_str ap;
       match p with
       | Some (b :: q) => Ok (char_of b, q, ap)
       | _ => Err Fault
       end
     else Ok (base, [], ap));
  k ← number num base q d k;
  Ok (ap, k).

(** The label [handle_sign]. *)
Definition handle_sign (base : Z) (d : dir) (ap : list arg) (k : kv) : res (list arg * kv) :=
  '(num, ap) ←
    (if jflag d then '(v, ap) ← va_int 64 ap; Ok (s64 v, ap)
     else if qflag d then '(v, ap) ← va_int 64 ap; Ok (s64 v, ap)
     else if tflag d then '(v, ap) ← va_int lw ap; Ok (swrap lw v, ap)
     else if lflag d then '(v, ap) ← va_int lw ap; Ok (swrap lw v, ap)
     else if zflag d then '(v, ap) ← va_int lw ap; Ok (swrap lw v, ap)
     else if hflag d then '(v, ap) ← va_int 32 ap; Ok (swrap 16 v, ap)
     else if cflag d then '(v, ap) ← va_int 32 ap; Ok (char_of (u8 v), ap)
     else '(v, ap) ← va_int 32 ap; Ok (s32 v, ap));
  k ← number (u64 num) base [] d k;
  Ok (ap, k).

(** ** The switch *)

(** What a conversion leaves behind: the rest of the format, whether [stop] is set,
    the arguments, and the output. *)
Definition after : Type := list Z * bool * list arg * kv.

(** %s *)
Definition conv_s (d : dir) (f : list Z) (ap : list arg) (k : kv) : res after :=
  '(p, ap) ← va_str ap;
  let l := default null_text p in
  l ← str_bytes (if dot d then Some (Z.to_nat (dwidth d)) else None) l;
  let n := s32 (Z.of_nat (length l)) in
  wd ← int (width d - n);
  let k := if negb (ladjust d) && (0 <? wd) then pad_with (padc d) wd k else k in
  if n <? 0 then Err Fault (* [while (n--)] runs to the smallest int *) else
  let k := pchars (char_of <$> take (Z.to_nat n) l) k in
  let k := if ladjust d && (0 <? wd) then pad_with (padc d) wd k else k in
  Ok (f, false, ap, k).

(** %c *)
Definition conv_c (d : dir) (f : list Z) (ap : list arg) (k : kv) : res after :=
  wd ← int (width d - 1);
  let k := if negb (ladjust d) && (0 <? wd) then pad_with (padc d) wd k else k in
  '(c, ap) ← va_int 32 ap;
  let k := PCHAR (s32 c) k in
  let k := if ladjust d && (0 <? wd) then pad_with (padc d) wd k else k in
  Ok (f, false, ap, k).

(** %D: [n] bytes are left. *)
Fixpoint hexdump (n : nat) (up p : list Z) (k : kv) : res kv :=
  match n with
  | O => Ok k
  | Datatypes.S n =>
    match up with
    | [] => Err Fault
    | b :: up =>
      h ← hex2ascii (Z.shiftr b 4);
      let k := PCHAR h k in
      h ← hex2ascii (Z.land b 15);
      let k := PCHAR h k in
      k ← (if (0 <? n)%nat then q ← str_bytes None p; Ok (pchars (char_of <$> q) k) else Ok k);
      hexdump n up p k
    end
  end.

Definition conv_D (d : dir) (f : list Z) (ap : list arg) (k : kv) : res after :=
  '(up, ap) ← va_str ap;
  '(p, ap) ← va_str ap;
  match up, p with
  | Some up, Some p =>
    k ← hexdump (Z.to_nat (if width d =? 0 then 16 else width d)) up p k;
    Ok (f, false, ap, k)
  | _, _ => Err Fault
  end.

(** %n *)
Definition conv_n (d : dir) (f : list Z) (ap : list arg) (k : kv) : res after :=
  '(a, ap) ← va_ptr ap;
  let w :=
    if jflag d then 64 else if qflag d then 64 else if lflag d then lw else if zflag d then lw
    else if hflag d then 16 else if cflag d then 8 else 32 in
  r ← retval k;
  Ok (f, false, ap, {| sink := sink k; retval := retval k; stored := stored k ++ [(a, w, wrap w r)] |}).

(** %p *)
Definition conv_p (d : dir) (f : list Z) (ap : list arg) (k : kv) : res after :=
  '(a, ap) ← va_ptr ap;
  k ← number (wrap lw a) 16 [] (set_sign false (set_sharp (width d =? 0) d)) k;
  Ok (f, false, ap, k).

(** From the label [reswitch] on; [percent] is the format from the percent sign. *)
Fixpoint reswitch (fuel : nat) (radix : Z) (percent : list Z) (d : dir) (f : list Z) (ap : list arg) (k : kv)
    : res after :=
  match fuel with
  | O => Err NoFuel
  | Datatypes.S fuel =>
    match f with
    | [] => Err Fault
    | ch :: f =>
      let again d f ap := reswitch fuel radix percent d f ap k in
      let nosign base d := '(ap, k) ← handle_nosign base d ap k; Ok (f, false, ap, k) in
      let signed_ base d := '(ap, k) ← handle_sign base d ap k; Ok (f, false, ap, k) in
      let number_ _ := '(n, f) ← read_num 0 (ch :: f); again ((if dot d then set_dwidth n else set_width n) d) f ap in
      if ch =? 46 then again (set_dot d) f ap                          (* . *)
      else if ch =? 35 then again (set_sharp true d) f ap              (* # *)
      else if ch =? 43 then again (set_sign true d) f ap               (* + *)
      else if ch =? 45 then again (set_ladjust true d) f ap            (* - *)
      else if ch =? 37 then Ok (f, false, ap, PCHAR ch k)              (* % *)
      else if ch =? 42 then                                            (* * *)
        '(v, ap) ← va_int 32 ap;
        let v := s32 v in
        if negb (dot d) then
          if v <? 0 then w ← int (- v); again (set_width w (set_ladjust (negb (ladjust d)) d)) f ap
          else again (set_width v d) f ap
        else again (set_dwidth v d) f ap
      else if ch =? 48 then                                            (* 0 *)
        if negb (dot d) then again (set_padc 48 d) f ap else number_ ()
      else if (49 <=? ch) && (ch <=? 57) then number_ ()
      else if ch =? 98 then nosign 0 (set_bconv d)                     (* b *)
      else if ch =? 99 then conv_c d f ap k                            (* c *)
      else if ch =? 68 then conv_D d f ap k                            (* D *)
      else if (ch =? 100) || (ch =? 105) then signed_ 10 (set_sign true d) (* d, i *)
      else if ch =? 104 then                                           (* h *)
        again (if hflag d then set_size (qflag d) (lflag d) true false (jflag d) (tflag d) (zflag d) d
               else set_size (qflag d) (lflag d) (cflag d) true (jflag d) (tflag d) (zflag d) d) f ap
      else if ch =? 106 then                                           (* j *)
        again (set_size (qflag d) (lflag d) (cflag d) (hflag d) true (tflag d) (zflag d) d) f ap
      else if ch =? 108 then                                           (* l *)
        again (if lflag d then set_size true false (cflag d) (hflag d) (jflag d) (tflag d) (zflag d) d
               else set_size (qflag d) true (cflag d) (hflag d) (jflag d) (tflag d) (zflag d) d) f ap
      else if ch =? 110 then conv_n d f ap k                           (* n *)
      else if ch =? 111 then nosign 8 d                                (* o *)
      else if ch =? 112 then conv_p d f ap k                           (* p *)
      else if ch =? 113 then                                           (* q *)
        again (set_size true (lflag d) (cflag d) (hflag d) (jflag d) (tflag d) (zflag d) d) f ap
      else if ch =? 114 then if sign d then signed_ radix d else nosign radix d (* r *)
      else if ch =? 115 then conv_s d f ap k                           (* s *)
      else if ch =? 116 then                                           (* t *)
        again (set_size (qflag d) (lflag d) (cflag d) (hflag d) (jflag d) true (zflag d) d) f ap
      else if ch =? 117 then nosign 10 d                               (* u *)
      else if ch =? 88 then nosign 16 (set_upper d)                    (* X *)
      else if ch =? 120 then nosign 16 d                               (* x *)
      else if ch =? 121 then signed_ 16 (set_sign true d)              (* y *)
      else if ch =? 122 then                                           (* z *)
        again (set_size (qflag d) (lflag d) (cflag d) (hflag d) (jflag d) (tflag d) true d) f ap
      else
        Ok (f, true, ap, pchars (char_of <$> take (length percent - length f) percent) k)
    end
  end.

(** The loop over the format. *)
Fixpoint kv_loop (fuel : nat) (radix : Z) (f : list Z) (stop : bool) (ap : list arg) (k : kv) : res kv :=
  match fuel with
  | O => Err NoFuel
  | Datatypes.S fuel =>
    match f with
    | [] => Err Fault
    | ch :: r =>
      if (ch =? 37) && negb stop then
        '(r, stop, ap, k) ← reswitch (Datatypes.S (length r)) radix f dir0 r ap k;
        kv_loop fuel radix r stop ap k
      else if ch =? 0 then Ok k
      else kv_loop fuel radix r stop ap (PCHAR ch k)
    end
  end.

(** "(fmt null)" and a newline *)
Definition fmt_null : list Z := [40; 102; 109; 116; 32; 110; 117; 108; 108; 41; 10; 0].

(** The result, the state of the function and what %n stored. *)
Definition kvprintf (fmt : option (list Z)) (radix : Z) (ap : list arg) (s : S) : res (Z * S * list (Z * Z * Z)) :=
  let fmt := default fmt_null fmt in
  let radix := if (radix <? 2) || (36 <? radix) then 10 else radix in
  k ← kv_loop (Datatypes.S (length fmt)) radix fmt false ap {| sink := s; retval := Ok 0; stored := [] |};
  r ← retval k;
  Ok (r, sink k, stored k).
End kvprintf.

(** ** printf.c *)

(** struct snprintf_arg, and the memory it points into.  The functions return void:
    a fault is a state of their own that they do not leave. *)
Record snprintf_arg := { str : Z; remain : Z; kmem : mem_t }.

Definition snprintf_func (ch : Z) (info : res snprintf_arg) : res snprintf_arg :=
  info ← info;
  if 2 <=? remain info then
    m ← store (str info) (u8 ch) (kmem info);
    Ok {| str := str info + 1; remain := remain info - 1; kmem := m |}
  else Ok info.

(** Without a function the characters go to [*d++]. *)
Definition d_store (cc : Z) (d : res (Z * mem_t)) : res (Z * mem_t) :=
  '(d, m) ← d;
  m ← store d (u8 cc) m;
  Ok (d + 1, m).

Section printf.
Context (lw : Z) (char_signed : bool).

Definition vsnprintf (s size : Z) (format : option (list Z)) (ap : list arg) (m : mem_t)
    : res (Z * mem_t * list (Z * Z * Z)) :=
  '(retval, info, st) ← kvprintf lw char_signed snprintf_func format 10 ap (Ok {| str := s; remain := size; kmem := m |});
  info ← info;
  m ← (if 1 <=? remain info then store (str info) 0 (kmem info) else Ok (kmem info));
  Ok (retval, m, st).

Definition snprintf (s size : Z) (format : option (list Z)) (ap : list arg) (m : mem_t)
    : res (Z * mem_t * list (Z * Z * Z)) := vsnprintf s size format ap m.

Definition vsprintf (buf : Z) (cfmt : option (list Z)) (ap : list arg) (m : mem_t)
    : res (Z * mem_t * list (Z * Z * Z)) :=
  '(retval, d, st) ← kvprintf lw char_signed d_store cfmt 10 ap (Ok (buf, m));
  '(_, m) ← d;
  m ← store (buf + retval) 0 m;
  Ok (retval, m, st).

Definition sprintf (buf : Z) (cfmt : option (list Z)) (ap : list arg) (m : mem_t)
    : res (Z * mem_t * list (Z * Z * Z)) := vsprintf buf cfmt ap m.

(** The console of the kernel, which may not have been registered yet. *)
Definition vprintf {C} (console_putchar : option (Z → C → C)) (fmt : option (list Z)) (ap : list arg) (c : C)
    : res (Z * C * list (Z * Z * Z)) :=
  match console_putchar with
  | None => Ok (0, c, [])
  | Some f => kvprintf lw char_signed f fmt 10 ap c
  end.

Definition printf {C} (console_putchar : option (Z → C → C)) (fmt : option (list Z)) (ap : list arg) (c : C)
    : res (Z * C * list (Z * Z * Z)) := vprintf console_putchar fmt ap c.
End printf.
