(* ===== verification/PrintfStream.v ===== *)
(** * The characters of a format do not depend on where they go

    kvprintf is parametric in its output function: on any two functions whose states
    stay related character by character, it runs in lockstep.  So there is one stream
    of characters, and sprintf, snprintf and the console consume it. *)

From S2P Require Import Prelude Memory StringScan Strto Printf.
Local Open Scope Z_scope.

Create HintDb sim.

(** ** Related runs *)

Definition res_rel {A B} (Q : A → B → Prop) (r1 : res A) (r2 : res B) : Prop :=
  match r1, r2 with Ok a, Ok b => Q a b | Err e, Err e' => e = e' | _, _ => False end.

Lemma res_rel_bind {A B A' B'} (Q : A → B → Prop) (P : A' → B' → Prop) m1 m2 f g :
  res_rel Q m1 m2 → (∀ a b, Q a b → res_rel P (f a) (g b)) → res_rel P (m1 ≫= f) (m2 ≫= g).
Proof. destruct m1 as [a|e], m2 as [b|e']; cbn; [auto|done|done|by intros ->]. Qed.

Section lockstep.
Context (lw : Z) (char_signed : bool).
Context {S1 S2 : Type} (f1 : Z → S1 → S1) (f2 : Z → S2 → S2).
(** How the states are related when the count is [n]. *)
Context (R : res Z → S1 → S2 → Prop).
Context (R_step : ∀ n c s1 s2, R n s1 s2 → R (count n) (f1 c s1) (f2 c s2)).

Definition sim (k1 : kv (S := S1)) (k2 : kv (S := S2)) : Prop :=
  retval k1 = retval k2 ∧ stored k1 = stored k2 ∧ R (retval k1) (sink k1) (sink k2).

Lemma sim_char c k1 k2 : sim k1 k2 → sim (PCHAR f1 c k1) (PCHAR f2 c k2).
Proof. intros (E1 & E2 & HR). split_and!; cbn; [by rewrite E1|done|by apply R_step]. Qed.

Lemma sim_retval k1 k2 : sim k1 k2 → res_rel eq (retval k1) (retval k2).
Proof. intros (-> & _). by destruct (retval k2). Qed.

Lemma sim_chars l : ∀ k1 k2, sim k1 k2 → sim (pchars f1 l k1) (pchars f2 l k2).
Proof. induction l as [|c l IH]; intros k1 k2 Hk; [done|]. apply IH. by apply sim_char. Qed.

Lemma sim_pad c n k1 k2 : sim k1 k2 → sim (pad_with f1 c n k1) (pad_with f2 c n k2).
Proof. apply sim_chars. Qed.

Lemma sim_while c n k1 k2 : sim k1 k2 → res_rel sim (pad_while f1 c n k1) (pad_while f2 c n k2).
Proof. intros Hk. unfold pad_while. destruct (int _); [by apply sim_pad|done]. Qed.

Lemma sim_while_if (b : bool) c n k1 k2 : sim k1 k2 →
  res_rel sim (if b then pad_while f1 c n k1 else Ok k1) (if b then pad_while f2 c n k2 else Ok k2).
Proof. intros Hk. destruct b; [by apply sim_while|done]. Qed.

Lemma sim_if (b : bool) x1 y1 x2 y2 :
  sim x1 x2 → sim y1 y2 → sim (if b then x1 else y1) (if b then x2 else y2).
Proof. by destruct b. Qed.

Hint Resolve sim_char sim_chars sim_pad sim_if : sim.

Ltac sims := repeat first [assumption | apply sim_if | apply sim_pad | apply sim_chars | apply sim_char].

(** Two runs of the same code: equal actions give equal results, tests go the same
    way. *)
Ltac lockstep :=
  repeat match goal with
  | |- res_rel _ (Err _) (Err _) => exact eq_refl
  | |- res_rel _ (mbind _ ?m) (mbind _ ?m) => destruct m as [?|?]; [rewrite !Ok_bind|exact eq_refl]
  | |- res_rel _ (let '(_, _) := ?x in _) _ => destruct x
  | |- res_rel _ (if ?b then _ else _) (if ?b then _ else _) => destruct b
  | |- res_rel _ (match ?x with _ => _ end) (match ?x with _ => _ end) => destruct x
  end.

Lemma sim_bit_names fuel : ∀ num q first k1 k2, sim k1 k2 →
  res_rel (λ x y, sim x.1 y.1 ∧ x.2 = y.2)
    (bit_names char_signed f1 fuel num q first k1) (bit_names char_signed f2 fuel num q first k2).
Proof.
  induction fuel as [|fuel IH]; intros num q first k1 k2 Hk; cbn [bit_names]; [done|].
  destruct q as [|n q]; [done|]. destruct (n =? 0); [done|].
  destruct (negb _); [done|]. destruct (negb _).
  - apply (res_rel_bind (λ x y, sim x.1 y.1 ∧ x.2 = y.2)).
    + assert (∀ q k1 k2, sim k1 k2 → res_rel (λ x y, sim x.1 y.1 ∧ x.2 = y.2)
        ((fix name (q : list Z) k := match q with [] => Err Fault | c :: r =>
            if 32 <? char_of char_signed c then name r (PCHAR f1 (char_of char_signed c) k) else Ok (k, q) end) q k1)
        ((fix name (q : list Z) k := match q with [] => Err Fault | c :: r =>
            if 32 <? char_of char_signed c then name r (PCHAR f2 (char_of char_signed c) k) else Ok (k, q) end) q k2))
        as HN; [|apply HN; auto with sim].
      clear -R_step. induction q as [|c q IHq]; intros k1 k2 Hk; [done|].
      destruct (32 <? _); [apply IHq, sim_char, Hk|done].
    + intros [k1' q1] [k2' q2] [Hk' Hq]. cbn in Hk', Hq. subst q2. by apply IH.
  - lockstep. by apply IH.
Qed.

Lemma sim_number num base q d k1 k2 : sim k1 k2 →
  res_rel sim (number char_signed f1 num base q d k1) (number char_signed f2 num base q d k2).
Proof.
  intros Hk. unfold number. destruct (if _ : bool then _ else Ok (false, num)) as [[neg n]|e]; [rewrite !Ok_bind|done].
  destruct (digits _ _ _) as [ds|e]; [rewrite !Ok_bind; cbv zeta|done].
  do 4 (match goal with |- res_rel _ (mbind _ ?m) (mbind _ ?m) => destruct m; [rewrite !Ok_bind|done] end).
  eapply res_rel_bind; [by apply sim_while_if|]. intros k1a k2a Hka.
  eapply res_rel_bind; [apply sim_while; sims|]. intros k1b k2b Hkb.
  assert (sim (pchars f1 ds k1b) (pchars f2 ds k2b)) as HX by by apply sim_chars.
  eapply (res_rel_bind (λ x y, sim x.1 y.1 ∧ x.2 = y.2)).
  - destruct (bconv d && _); [|by split].
    eapply res_rel_bind; [by apply sim_retval|]. intros tmp ? <-.
    eapply res_rel_bind; [by apply sim_bit_names|].
    intros [k1' b1] [k2' b2] [Hk' Hb]. cbn in Hk', Hb. subst b2. destruct b1; [by split|]. cbv zeta.
    apply (sim_char 62) in Hk'. eapply res_rel_bind; [by apply sim_retval|]. intros r ? <-.
    destruct (int _); [|done]. by split.
  - intros [k1' w1] [k2' w2] [Hk' Hw]. cbn in Hk', Hw. subst w2. by apply sim_while_if.
Qed.

(** Conversions: the same format, arguments and [stop], and related outputs. *)
Definition sim_after (x : after (S := S1)) (y : after (S := S2)) : Prop := x.1 = y.1 ∧ sim x.2 y.2.
Definition sim_args (x : list arg * kv (S := S1)) (y : list arg * kv (S := S2)) : Prop := x.1 = y.1 ∧ sim x.2 y.2.

Lemma sim_handle_nosign base d ap k1 k2 : sim k1 k2 →
  res_rel sim_args (handle_nosign lw char_signed f1 base d ap k1) (handle_nosign lw char_signed f2 base d ap k2).
Proof.
  intros Hk. unfold handle_nosign. destruct (if jflag _ : bool then _ else _) as [[num ap1]|e]; [rewrite !Ok_bind|done].
  destruct (if bconv _ : bool then _ else _) as [[[b q] ap2]|e]; [rewrite !Ok_bind|done].
  eapply res_rel_bind; [by apply sim_number|]. intros x y Hxy. by split.
Qed.

Lemma sim_handle_sign base d ap k1 k2 : sim k1 k2 →
  res_rel sim_args (handle_sign lw char_signed f1 base d ap k1) (handle_sign lw char_signed f2 base d ap k2).
Proof.
  intros Hk. unfold handle_sign. destruct (if jflag _ : bool then _ else _) as [[num ap1]|e]; [rewrite !Ok_bind|done].
  eapply res_rel_bind; [by apply sim_number|]. intros x y Hxy. by split.
Qed.

Lemma sim_hexdump n : ∀ up p k1 k2, sim k1 k2 →
  res_rel sim (hexdump char_signed f1 n up p k1) (hexdump char_signed f2 n up p k2).
Proof.
  induction n as [|n IH]; intros up p k1 k2 Hk; [done|]. cbn [hexdump]. destruct up as [|b up]; [done|].
  destruct (hex2ascii (Z.shiftr b 4)) as [h1|e]; [rewrite !Ok_bind|done].
  destruct (hex2ascii (Z.land b 15)) as [h2|e]; [rewrite !Ok_bind|done]. cbv zeta.
  eapply (res_rel_bind sim); [|intros; by apply IH]. destruct (0 <? n)%nat; [|cbn; auto with sim].
  destruct (str_bytes _ _) as [q|e]; [rewrite !Ok_bind; cbn; auto with sim|done].
Qed.

Lemma sim_conv_s d f ap k1 k2 : sim k1 k2 →
  res_rel sim_after (conv_s char_signed f1 d f ap k1) (conv_s char_signed f2 d f ap k2).
Proof.
  intros Hk. unfold conv_s. lockstep. split; [done|]. cbn [snd]. sims.
Qed.

Lemma sim_conv_c d f ap k1 k2 : sim k1 k2 → res_rel sim_after (conv_c f1 d f ap k1) (conv_c f2 d f ap k2).
Proof.
  intros Hk. unfold conv_c. lockstep. split; [done|]. cbn [snd].
  sims.
Qed.

Lemma sim_conv_D d f ap k1 k2 : sim k1 k2 →
  res_rel sim_after (conv_D char_signed f1 d f ap k1) (conv_D char_signed f2 d f ap k2).
Proof.
  intros Hk. unfold conv_D. lockstep; try done. eapply res_rel_bind; [by apply sim_hexdump|]. intros x y Hxy. by split.
Qed.

Lemma sim_conv_n d f ap k1 k2 : sim k1 k2 → res_rel sim_after (conv_n lw d f ap k1) (conv_n lw d f ap k2).
Proof.
  intros Hk. unfold conv_n. lockstep. eapply res_rel_bind; [by apply sim_retval|]. intros r ? <-.
  destruct Hk as (E1 & E2 & HR). split; [done|]. split_and!; cbn; [done|by rewrite E2|done].
Qed.

Lemma sim_conv_p d f ap k1 k2 : sim k1 k2 →
  res_rel sim_after (conv_p lw char_signed f1 d f ap k1) (conv_p lw char_signed f2 d f ap k2).
Proof.
  intros Hk. unfold conv_p. lockstep. eapply res_rel_bind; [by apply sim_number|]. intros x y Hxy. by split.
Qed.

Lemma sim_nosign base d f ap k1 k2 : sim k1 k2 →
  res_rel sim_after ('(ap, k) ← handle_nosign lw char_signed f1 base d ap k1; Ok (f, false, ap, k))
    ('(ap, k) ← handle_nosign lw char_signed f2 base d ap k2; Ok (f, false, ap, k)).
Proof.
  intros Hk. eapply res_rel_bind; [by apply sim_handle_nosign|].
  intros [ap1 x] [ap2 y] [Ha Hxy]. cbn in Ha. subst ap2. by split.
Qed.

Lemma sim_sign base d f ap k1 k2 : sim k1 k2 →
  res_rel sim_after ('(ap, k) ← handle_sign lw char_signed f1 base d ap k1; Ok (f, false, ap, k))
    ('(ap, k) ← handle_sign lw char_signed f2 base d ap k2; Ok (f, false, ap, k)).
Proof.
  intros Hk. eapply res_rel_bind; [by apply sim_handle_sign|].
  intros [ap1 x] [ap2 y] [Ha Hxy]. cbn in Ha. subst ap2. by split.
Qed.

Lemma sim_reswitch fuel : ∀ radix percent d f ap k1 k2, sim k1 k2 →
  res_rel sim_after (reswitch lw char_signed f1 fuel radix percent d f ap k1)
    (reswitch lw char_signed f2 fuel radix percent d f ap k2).
Proof.
  induction fuel as [|fuel IH]; intros radix percent d f ap k1 k2 Hk; [done|]. cbn [reswitch].
  destruct f as [|ch f]; [done|]. cbv zeta.
  repeat first
    [ by apply IH | by apply sim_nosign | by apply sim_sign | by apply sim_conv_s | by apply sim_conv_c
    | by apply sim_conv_D | by apply sim_conv_n | by apply sim_conv_p
    | match goal with
      | |- res_rel _ (if ?b then _ else _) (if ?b then _ else _) => destruct b
      | |- res_rel _ (mbind _ ?m) (mbind _ ?m) => destruct m as [[? ?]|?]; [rewrite !Ok_bind|exact eq_refl]
      | |- res_rel _ (mbind _ ?m) (mbind _ ?m) => destruct m as [?|?]; [rewrite !Ok_bind|exact eq_refl]
      end ].
  - split; [done|]. by apply sim_char.
  - split; [done|]. by apply sim_chars.
Qed.

Lemma sim_loop fuel : ∀ radix f stop ap k1 k2, sim k1 k2 →
  res_rel sim (kv_loop lw char_signed f1 fuel radix f stop ap k1) (kv_loop lw char_signed f2 fuel radix f stop ap k2).
Proof.
  induction fuel as [|fuel IH]; intros radix f stop ap k1 k2 Hk; [done|]. cbn [kv_loop].
  destruct f as [|ch r]; [done|]. destruct (_ && _).
  - eapply res_rel_bind; [by apply sim_reswitch|].
    intros [[[f' st] ap'] x] [[[g' st'] ap2] y] [Ha Hxy]. cbn in Ha. injection Ha as <- <- <-. by apply IH.
  - destruct (ch =? 0); [done|]. by apply IH, sim_char.
Qed.

Lemma sim_kvprintf fmt radix ap s1 s2 : R (Ok 0) s1 s2 →
  res_rel (λ x y, x.1.1 = y.1.1 ∧ x.2 = y.2 ∧ R (Ok x.1.1) x.1.2 y.1.2)
    (kvprintf lw char_signed f1 fmt radix ap s1) (kvprintf lw char_signed f2 fmt radix ap s2).
Proof.
  intros HR. unfold kvprintf. eapply res_rel_bind; [by apply sim_loop|]. intros k1 k2 (E1 & E2 & HR').
  rewrite <- E1. destruct (retval k1) as [n|e] eqn:En; [|done]. rewrite !Ok_bind. by split_and!.
Qed.
End lockstep.

(** ** The stream *)

Definition snoc (c : Z) (l : list Z) : list Z := l ++ [c].

(** The characters of a format, and what its %n store. *)
Definition stream (lw : Z) (char_signed : bool) (fmt : option (list Z)) (radix : Z) (ap : list arg)
    : res (list Z * list (Z * Z * Z)) :=
  '(_, out, st) ← kvprintf lw char_signed snoc fmt radix ap [];
  Ok (out, st).

Definition feed {S} (func : Z → S → S) (out : list Z) (s : S) : S := foldl (λ s c, func c s) s out.

Lemma feed_snoc {S} (func : Z → S → S) out c s : feed func (out ++ [c]) s = func c (feed func out s).
Proof. unfold feed. by rewrite foldl_app. Qed.

(** An int that counts [l] from 0. *)
Definition counted (l : list Z) (r : res Z) : res Z := foldl (λ r _, count r) r l.

Lemma counted_ok l n : 0 ≤ n < 2 ^ 31 →
  counted l (Ok n) = if decide (n + Z.of_nat (length l) < 2 ^ 31) then Ok (n + Z.of_nat (length l)) else Err Fault.
Proof.
  change (2 ^ 31) with 2147483648. revert n. induction l as [|c l IH]; intros n Hn; cbn [length counted foldl].
  - rewrite decide_True by lia. do 2 f_equal. lia.
  - unfold count at 2. rewrite Ok_bind. destruct (decide (n + 1 < 2147483648)).
    + rewrite int_ok by (change (2 ^ (32 - 1)) with 2147483648; lia).
      change (foldl (λ r _, count r) (Ok (n + 1)) l) with (counted l (Ok (n + 1))). rewrite IH by lia.
      replace (n + 1 + Z.of_nat (length l)) with (n + Z.of_nat (S (length l))) by lia. done.
    + rewrite decide_False by lia. replace n with 2147483647 by lia. clear. by induction l.
Qed.

Lemma kvprintf_stream lw cs {S} (func : Z → S → S) fmt radix ap s :
  match kvprintf lw cs func fmt radix ap s, stream lw cs fmt radix ap with
  | Ok (n, x, st'), Ok (out, st) =>
    x = feed func out s ∧ n = Z.of_nat (length out) ∧ Z.of_nat (length out) < 2 ^ 31 ∧ st' = st
  | Err e, Err e' => e = e'
  | _, _ => False
  end.
Proof.
  pose proof (sim_kvprintf lw cs snoc func (λ n l x, x = feed func l s ∧ n = counted l (Ok 0))) as HS.
  specialize (HS ltac:(intros n c l x [-> ->]; unfold snoc, counted; rewrite feed_snoc, foldl_app; by split)).
  specialize (HS fmt radix ap [] s ltac:(done)). unfold stream.
  destruct (kvprintf lw cs snoc fmt radix ap []) as [[[n1 l] st1]|e1], (kvprintf lw cs func fmt radix ap s) as [[[n2 x] st2]|e2];
    cbn [res_rel fst snd mbind res_bind] in HS |- *; try done.
  destruct HS as (<- & <- & E3 & E4). rewrite counted_ok in E4 by lia. case_decide; [|done]. injection E4 as ->.
  by split_and!.
Qed.
