(* ===== verification/PrintfText.v ===== *)
(** * What a format prints

    A format is described by its items: characters, and conversions with their
    flags, field width, precision and length.  [show] writes an item the way a
    programmer does, [render] is its text, and the theorem about kvprintf is that it
    turns the one into the other. *)

From S2P Require Import Prelude Memory StringScan Strto StrtoTheorems Printf PrintfStream.
Local Open Scope Z_scope.

(** ** The text of a number *)

Definition spaces (n : Z) : list Z := replicate (Z.to_nat n) 32.
Definition zeros (n : Z) : list Z := replicate (Z.to_nat n) 48.

(** [body] in a field of [width] characters. *)
Definition in_field (left : bool) (pad width : Z) (body : list Z) : list Z :=
  let fill := replicate (Z.to_nat (width - Z.of_nat (length body))) pad in
  if left then body ++ fill else fill ++ body.

(** A sign, the prefix of the alternate form, zeros up to the precision or, when the
    flag asks for it, up to the width, and the digits. *)
Definition number_text (left zero sharp : bool) (width prec : Z) (neg : bool) (base num : Z) (ds : list Z) : list Z :=
  let prefix := (if neg then [45] else []) ++
    (if sharp && negb (num =? 0) then if base =? 8 then [48] else if base =? 16 then [48; 120] else [] else []) in
  let prec := if zero && negb left then width - Z.of_nat (length prefix) else prec in
  in_field left 32 width (prefix ++ zeros (prec - Z.of_nat (length ds)) ++ ds).

(** ** Output as a list *)

Abbreviation kvl := (kv (S := list Z)).

Definition emit (l : list Z) (k : kvl) : kvl :=
  {| sink := sink k ++ l; retval := counted l (retval k); stored := stored k |}.

Lemma emit_nil k : emit [] k = k.
Proof. destruct k as [s r t]. unfold emit. cbn. by rewrite app_nil_r. Qed.

Lemma emit_app l1 l2 k : emit l2 (emit l1 k) = emit (l1 ++ l2) k.
Proof. unfold emit, counted. cbn [sink retval stored]. by rewrite foldl_app, app_assoc. Qed.

Lemma PCHAR_emit c k : PCHAR snoc c k = emit [c] k.
Proof. done. Qed.

Lemma pchars_emit l : ∀ k, pchars snoc l k = emit l k.
Proof.
  induction l as [|c l IH]; intros k; [by rewrite emit_nil|]. cbn [pchars]. by rewrite IH, PCHAR_emit, emit_app.
Qed.

Lemma pad_emit c n k : pad_with snoc c n k = emit (replicate (Z.to_nat n) c) k.
Proof. apply pchars_emit. Qed.

Lemma while_emit c n k : - 2 ^ 31 < n → pad_while snoc c n k = Ok (emit (replicate (Z.to_nat n) c) k).
Proof.
  change (2 ^ 31) with 2147483648. intros Hn. unfold pad_while.
  destruct (Z_le_gt_dec n (2 ^ 31)).
  all: rewrite int_ok by (change (2 ^ (32 - 1)) with 2147483648; lia); by rewrite Ok_bind, pad_emit.
Qed.

Lemma while_if_emit (b : bool) c n k : - 2 ^ 31 < n →
  (if b then pad_while snoc c n k else Ok k) = Ok (emit (if b then replicate (Z.to_nat n) c else []) k).
Proof. intros Hn. destruct b; [by apply while_emit|by rewrite emit_nil]. Qed.

Lemma if_emit (b : bool) l1 l2 k : (if b then emit l1 k else emit l2 k) = emit (if b then l1 else l2) k.
Proof. by destruct b. Qed.

Lemma if_emit_k (b : bool) l k : (if b then emit l k else k) = emit (if b then l else []) k.
Proof. destruct b; [done|by rewrite emit_nil]. Qed.

(** ** Digits *)

Lemma nbuf0_mapped : mapped nbuf0 0 65.
Proof.
  assert (Forall (λ i, nbuf0 !! Z.of_nat i = Some 0) (seq 0 65)) as HF by (apply (bool_decide_unpack _); by vm_compute).
  rewrite Forall_forall in HF. intros x Hx. exists 0. rewrite <- (Z2Nat.id x) by lia. apply HF.
  apply elem_of_seq. lia.
Qed.

Lemma digits_ok num base up : 2 ≤ base ≤ 36 → 0 ≤ num < 2 ^ 64 →
  digits num base up = Ok (digit_char up <$> ndigits 64 base num).
Proof.
  intros Hb Hn. unfold digits. destruct (Z.eqb_spec base 0); [lia|].
  rewrite (wrap_small 64 base) by (change (2 ^ 64) with 18446744073709551616; lia). unfold ksprintn.
  rewrite store_ok by (apply nbuf0_mapped; lia). rewrite Ok_bind.
  destruct (ksprintn_loop_ok base up Hb 64 0 num (<[0 := 0]> nbuf0) [])
    as (ds & m' & E & HB & Hh & Hl & HF & -> & HO); [done|lia| |cbn; by apply lookup_insert_eq|].
  { apply mapped_insert, (mapped_sub _ _ _ _ _ nbuf0_mapped); lia. }
  rewrite app_nil_r in HB. rewrite E, !Ok_bind. cbv beta iota.
  apply emit_back_ok; [done|]. rewrite length_fmap. lia.
Qed.

Lemma ndigits_fuel fuel b n : (length (ndigits fuel b n) ≤ fuel)%nat.
Proof.
  revert n. induction fuel as [|fuel IH]; intros n; cbn [ndigits]; [done|]. rewrite length_app. cbn [length].
  specialize (IH (n / b)). destruct (_ =? _); cbn [length]; lia.
Qed.

(** Widths and precisions, as numbers in a format can be. *)
Definition small (n : Z) : Prop := 0 ≤ n < 2 ^ 31 - 48.

Lemma number_ok cs num base d k : bconv d = false → 2 ≤ base ≤ 36 → 0 ≤ num < 2 ^ 64 →
  (sign d = true → num ≠ 2 ^ 63) → (padc d = 48 ∨ padc d = 32) → small (width d) → small (dwidth d) →
  let neg := sign d && (2 ^ 63 <=? num) in
  let n := if neg then 2 ^ 64 - num else num in
  number cs snoc num base [] d k =
    Ok (emit (number_text (ladjust d) (padc d =? 48) (sharpflag d) (width d) (dwidth d) neg base n
                (digit_char (upper d) <$> ndigits 64 base n)) k).
Proof.
  intros Hbc Hb Hn Hmin Hpad Hwd Hdw neg n. unfold number.
  assert ((if sign d && (s64 num <? 0) then n ← signed 64 (- s64 num); Ok (true, n) else Ok (false, num)) = Ok (neg, n)) as ->.
  { unfold neg, n. destruct (sign d); [|done]. specialize (Hmin eq_refl). cbn [andb].
    unfold swrap. change (2 ^ 64) with 18446744073709551616 in *. change (2 ^ 63) with 9223372036854775808 in *.
    change (2 ^ (64 - 1)) with 9223372036854775808.
    destruct (Z.leb_spec 9223372036854775808 num).
    - replace ((num + 9223372036854775808) mod 18446744073709551616) with (num - 9223372036854775808)
        by (apply Z.mod_unique with 1; lia).
      destruct (Z.ltb_spec (num - 9223372036854775808 - 9223372036854775808) 0); [|lia].
      rewrite int_ok by (change (2 ^ (64 - 1)) with 9223372036854775808; lia). rewrite Ok_bind. unfold neg. cbn [andb].
      do 2 f_equal. lia.
    - rewrite Z.mod_small by lia. destruct (Z.ltb_spec (num + 9223372036854775808 - 9223372036854775808) 0); [lia|done]. }
  assert (0 ≤ n < 2 ^ 64) as Hn2.
  { unfold n, neg. destruct (sign d && _) eqn:E; [|done]. bsimp. lia. }
  rewrite Ok_bind, digits_ok, Ok_bind by done. cbv beta iota zeta. rewrite Hbc. cbn [andb].
  pose proof (ndigits_fuel 64 base n) as Hlen. unfold small in *. change (2 ^ 31 - 48) with 2147483600 in *.
  rewrite <- (length_fmap (digit_char (upper d))) in Hlen. set (ds := digit_char _ <$> _) in *.
  unfold number_text, in_field.
  set (alt := sharpflag d && negb (n =? 0)).
  set (prefix := (if neg then [45] else []) ++
    (if alt then if base =? 8 then [48] else if base =? 16 then [48; 120] else [] else [])).
  assert ((let tmp := if alt then if base =? 8 then 1 else if base =? 16 then 2 else 0 else 0 in if neg then tmp + 1 else tmp)
    = Z.of_nat (length prefix)) as Htmp.
  { unfold prefix. destruct neg, alt; try done; destruct (base =? 8), (base =? 16); done. }
  assert (Z.of_nat (length prefix) ≤ 3) as Hp3.
  { unfold prefix. destruct neg, alt; cbn; try lia; destruct (base =? 8), (base =? 16); cbn; lia. }
  cbv zeta in Htmp. rewrite !Htmp. rewrite (andb_comm (padc d =? 48)).
  set (dw := if negb (ladjust d) && (padc d =? 48) then width d - _ else _).
  assert (- 3 ≤ dw < 2147483600 ∧ Z.of_nat (length prefix) + dw < 2147483603) as [Hdwr Hsum] by (unfold dw; destruct (negb (ladjust d) && (padc d =? 48)); lia).
  assert ((if negb (ladjust d) && (padc d =? 48) then int (width d - Z.of_nat (length prefix)) else Ok (dwidth d)) = Ok dw) as ->.
  { unfold dw. destruct (negb (ladjust d) && (padc d =? 48)); [|done]. apply int_ok. change (2 ^ (32 - 1)) with 2147483648. lia. }
  rewrite Ok_bind. cbv beta. set (sum := Z.of_nat (length prefix) + _).
  assert (0 ≤ sum < 2147483648) as Hs by (unfold sum; lia).
  rewrite (int_ok 32 sum) by (change (2 ^ (32 - 1)) with 2147483648; lia). rewrite Ok_bind. cbv beta.
  rewrite (int_ok 32 (width d - sum)) by (change (2 ^ (32 - 1)) with 2147483648; lia). rewrite Ok_bind. cbv beta.
  rewrite int_ok by (change (2 ^ (32 - 1)) with 2147483648; lia). rewrite Ok_bind. cbv beta.
  rewrite while_if_emit by (change (2 ^ 31) with 2147483648; lia). rewrite Ok_bind.
  assert (∀ k0, (if alt then if base =? 8 then PCHAR snoc 48 (if neg then PCHAR snoc 45 k0 else k0)
      else if base =? 16 then pchars snoc [48; 120] (if neg then PCHAR snoc 45 k0 else k0) else (if neg then PCHAR snoc 45 k0 else k0)
      else (if neg then PCHAR snoc 45 k0 else k0)) = emit prefix k0) as HP.
  { intros k0. rewrite pchars_emit, !PCHAR_emit. unfold prefix. destruct neg, alt; try (by rewrite emit_nil); try done;
      destruct (base =? 8), (base =? 16); rewrite ?emit_app, ?emit_nil; done. }
  rewrite HP. clear HP Htmp. rewrite while_emit by (change (2 ^ 31) with 2147483648; lia).
  rewrite !Ok_bind. cbv beta iota. rewrite while_if_emit by (change (2 ^ 31) with 2147483648; lia). f_equal.
  rewrite pchars_emit, !emit_app. fold (zeros (dw - Z.of_nat (length ds))).
  set (body := prefix ++ zeros (dw - Z.of_nat (length ds)) ++ ds).
  assert (Z.of_nat (length body) = Z.of_nat (length prefix) + Z.max dw (Z.of_nat (length ds))) as HL.
  { unfold body, zeros. rewrite !length_app, length_replicate. lia. }
  rewrite HL. destruct (ladjust d); cbn [negb]; unfold body; by rewrite <- ?app_assoc, ?app_nil_r.
Qed.

(** ** Formats *)

Inductive lenmod := Lnone | Lhh | Lh | Ll | Lll | Lj | Lz | Lt.
Inductive iconv := Cd | Cu | Co | Cx | CX.

(** A field width, and digits of a precision, are given by their digits.  A string
    is followed by its NUL and whatever is behind it. *)
Inductive item :=
| TChar (c : Z)
| TPercent
| TInt (minus sharp zero : bool) (wd : list Z) (prec : option (list Z)) (l : lenmod) (c : iconv) (v : Z)
| TStr (minus : bool) (wd : list Z) (prec : option (list Z)) (s junk : list Z)
| TCh (minus : bool) (wd : list Z) (c : Z).

Definition show_num (ds : list Z) : list Z := (λ d, d + 48) <$> ds.
Definition show_flag (b : bool) (c : Z) : list Z := if b then [c] else [].
Definition show_prec (prec : option (list Z)) : list Z :=
  match prec with Some ds => 46 :: show_num ds | None => [] end.
Definition show_len (l : lenmod) : list Z :=
  match l with
  | Lnone => [] | Lhh => [104; 104] | Lh => [104] | Ll => [108] | Lll => [108; 108]
  | Lj => [106] | Lz => [122] | Lt => [116]
  end.
Definition show_conv (c : iconv) : Z := match c with Cd => 100 | Cu => 117 | Co => 111 | Cx => 120 | CX => 88 end.

Definition show (i : item) : list Z :=
  match i with
  | TChar c => [c]
  | TPercent => [37; 37]
  | TInt minus sharp zero wd prec l c _ =>
    37 :: show_flag minus 45 ++ show_flag sharp 35 ++ show_flag zero 48 ++ show_num wd ++ show_prec prec ++
      show_len l ++ [show_conv c]
  | TStr minus wd prec _ _ => 37 :: show_flag minus 45 ++ show_num wd ++ show_prec prec ++ [115]
  | TCh minus wd _ => 37 :: show_flag minus 45 ++ show_num wd ++ [99]
  end.

Section format.
Context (lw : Z) (cs : bool).

(** The width of an argument, and the value that is printed. *)
Definition bits (l : lenmod) : Z :=
  match l with Lnone | Lhh | Lh => 32 | Ll | Lz | Lt => lw | Lll | Lj => 64 end.

Definition value (l : lenmod) (c : iconv) (v : Z) : Z :=
  match c, l with
  | Cd, Lhh => char_of cs (u8 v)
  | Cd, Lh => swrap 16 v
  | Cd, _ => swrap (bits l) v
  | _, Lhh => u8 v
  | _, Lh => u16 v
  | _, Lt => u64 (swrap lw v)
  | _, _ => wrap (bits l) v
  end.

Definition base_of (c : iconv) : Z := match c with Cd | Cu => 10 | Co => 8 | Cx | CX => 16 end.
Definition is_upper (c : iconv) : bool := match c with CX => true | _ => false end.

Definition args (i : item) : list arg :=
  match i with
  | TChar _ | TPercent => []
  | TInt _ _ _ _ _ l _ v => [AInt (bits l) v]
  | TStr _ _ _ s junk => [AStr (s ++ 0 :: junk)]
  | TCh _ _ c => [AInt 32 c]
  end.

Definition render (i : item) : list Z :=
  match i with
  | TChar c => [c]
  | TPercent => [37]
  | TInt minus sharp zero wd prec l c v =>
    let x := value l c v in
    number_text minus zero sharp (horner 10 wd) (horner 10 (default [] prec)) (x <? 0) (base_of c) (Z.abs x)
      (digit_char (is_upper c) <$> ndigits 64 (base_of c) (Z.abs x))
  | TStr minus wd prec s _ =>
    let s := match prec with Some ds => take (Z.to_nat (horner 10 ds)) s | None => s end in
    in_field minus 32 (horner 10 wd) (char_of cs <$> s)
  | TCh minus wd c => in_field minus 32 (horner 10 wd) [s32 c]
  end.

(** The digits of a number that read_num can read without an overflow. *)
Definition decimal (ds : list Z) : Prop := Forall (λ d, 0 ≤ d < 10) ds ∧ horner 10 ds < 2 ^ 31 - 48.

Definition good (i : item) : Prop :=
  match i with
  | TChar c => c ≠ 37 ∧ c ≠ 0
  | TPercent => True
  | TInt _ _ _ wd prec l c v =>
    decimal wd ∧ head wd ≠ Some 0 ∧ decimal (default [] prec) ∧ (c = Cd → value l c v ≠ - 2 ^ 63)
  | TStr _ wd prec s _ => decimal wd ∧ head wd ≠ Some 0 ∧ decimal (default [] prec) ∧ Forall (λ c, c ≠ 0) s
  | TCh _ wd _ => decimal wd ∧ head wd ≠ Some 0
  end.

(** ** Reading a conversion specification *)

Definition nondigit (f : list Z) : Prop := match f with [] => False | c :: _ => c < 48 ∨ 57 < c end.

(** The characters [pre] take the switch from [d] to [d'], when [P] holds of what
    follows. *)
Definition reads (P : list Z → Prop) (pre : list Z) (d d' : dir) : Prop :=
  ∀ fuel radix percent f ap (k : kvl), P f → (length (pre ++ f) < fuel)%nat →
  ∃ fuel', (length f < fuel')%nat ∧
    reswitch lw cs snoc fuel radix percent d (pre ++ f) ap k = reswitch lw cs snoc fuel' radix percent d' f ap k.

Lemma reads_nil P d : reads P [] d d.
Proof. intros fuel radix percent f ap k _ Hf. exists fuel. by split. Qed.

Lemma reads_app P Q pre1 pre2 d d1 d2 :
  reads P pre1 d d1 → reads Q pre2 d1 d2 → (∀ f, Q f → P (pre2 ++ f)) → reads Q (pre1 ++ pre2) d d2.
Proof.
  intros H1 H2 HQ fuel radix percent f ap k Hf Hl. rewrite <- app_assoc in *.
  destruct (H1 fuel radix percent (pre2 ++ f) ap k (HQ f Hf) Hl) as (fuel1 & Hl1 & ->).
  by apply H2.
Qed.

Lemma reads_char P c d d' :
  (∀ fuel radix percent f ap (k : kvl), reswitch lw cs snoc (S fuel) radix percent d (c :: f) ap k =
    reswitch lw cs snoc fuel radix percent d' f ap k) → reads P [c] d d'.
Proof.
  intros HE fuel radix percent f ap k _ Hl. destruct fuel as [|fuel]; [lia|]. exists fuel.
  cbn [app length] in *. split; [lia|]. apply HE.
Qed.

Lemma reads_flag P (b : bool) c d d' : (b = true → reads P [c] d d') → (b = false → d' = d) →
  reads P (show_flag b c) d d'.
Proof. intros H1 H2. destruct b; [by apply H1|]. rewrite H2 by done. apply reads_nil. Qed.

Lemma horner_ge ds : ∀ n, 0 ≤ n → Forall (λ d, 0 ≤ d < 10) ds → n ≤ foldl (λ v d, v * 10 + d) n ds.
Proof.
  induction ds as [|d ds IH]; intros n Hn HF; [done|]. apply Forall_cons in HF as [Hd HF]. cbn [foldl].
  specialize (IH (n * 10 + d) ltac:(lia) HF). lia.
Qed.

Lemma read_num_ok ds : ∀ n f, 0 ≤ n → Forall (λ d, 0 ≤ d < 10) ds → foldl (λ v d, v * 10 + d) n ds < 2 ^ 31 - 48 →
  nondigit f → read_num n (show_num ds ++ f) = Ok (foldl (λ v d, v * 10 + d) n ds, f).
Proof.
  change (2 ^ 31 - 48) with 2147483600.
  induction ds as [|d ds IH]; intros n f Hn HF Hlt Hf.
  - cbn. destruct f as [|c f]; [done|]. cbn in Hf |- *. zcase; cbn [orb]; lia || done.
  - apply Forall_cons in HF as [Hd HF]. cbn [foldl] in *. cbn [show_num fmap list_fmap app read_num].
    pose proof (horner_ge ds (n * 10 + d) ltac:(lia) HF).
    destruct (Z.ltb_spec (d + 48) 48); [lia|]. destruct (Z.ltb_spec 57 (d + 48)); [lia|]. cbn [orb].
    rewrite int_ok by (change (2 ^ (32 - 1)) with 2147483648; lia). rewrite Ok_bind. cbv beta.
    replace (n * 10 + (d + 48) - 48) with (n * 10 + d) by lia. by apply IH; [lia|..].
Qed.

(** A number sets the width, or the precision after a dot. *)
Definition put_num (n : Z) (d : dir) : dir := if dot d then set_dwidth n d else set_width n d.

Lemma decimal_small ds : decimal ds → small (horner 10 ds).
Proof. intros [HF Hlt]. split; [by apply horner_ge|done]. Qed.

Lemma reads_num ds d : decimal ds → ds ≠ [] → (dot d = false → head ds ≠ Some 0) →
  reads nondigit (show_num ds) d (put_num (horner 10 ds) d).
Proof.
  intros [HF Hlt] Hne Hz fuel radix percent f ap k Hf Hl. destruct fuel as [|fuel]; [lia|].
  pose proof (read_num_ok ds 0 f ltac:(lia) HF Hlt Hf) as HR.
  assert (length (show_num ds ++ f) = length ds + length f)%nat as HL by (unfold show_num; by rewrite length_app, length_fmap).
  exists fuel. split; [destruct ds; [done|cbn in *; lia]|].
  destruct ds as [|d0 ds]; [done|]. apply Forall_cons in HF as [Hd0 _].
  change (show_num (d0 :: ds) ++ f) with ((d0 + 48) :: (show_num ds ++ f)) in *. cbn [reswitch]. rewrite HR, Ok_bind.
  repeat match goal with |- context [d0 + 48 =? ?c] =>
    lazymatch c with 48 => fail | _ => replace (d0 + 48 =? c) with false by (symmetry; apply Z.eqb_neq; lia) end end.
  cbv iota. destruct (Z.eqb_spec (d0 + 48) 48).
  - destruct (dot d) eqn:Ed; [unfold put_num; by rewrite Ed|]. destruct (Hz eq_refl). cbn. f_equal. lia.
  - destruct ((49 <=? d0 + 48) && (d0 + 48 <=? 57)) eqn:E; [unfold put_num; by destruct (dot d)|].
    apply andb_false_iff in E as [E|E]; bsimp; lia.
Qed.

(** The flags, the width and the precision, and what the switch makes of them. *)
Definition opts (minus sharp zero : bool) (wd : list Z) (prec : option (list Z)) : list Z :=
  show_flag minus 45 ++ show_flag sharp 35 ++ show_flag zero 48 ++ show_num wd ++ show_prec prec.

Definition opts_dir (minus sharp zero : bool) (wd : list Z) (prec : option (list Z)) : dir :=
  {| padc := if zero then 48 else 32; width := horner 10 wd; dwidth := horner 10 (default [] prec);
     ladjust := minus; sharpflag := sharp; sign := false; dot := bool_decide (is_Some prec);
     bconv := false; upper := false;
     qflag := false; lflag := false; cflag := false; hflag := false; jflag := false; tflag := false; zflag := false |}.

Lemma reads_opts minus sharp zero wd prec :
  decimal wd → head wd ≠ Some 0 → decimal (default [] prec) →
  reads nondigit (opts minus sharp zero wd prec) dir0 (opts_dir minus sharp zero wd prec).
Proof.
  intros Hw Hw0 Hp. unfold opts.
  apply (reads_app (λ _, True) _ _ _ _ (opts_dir minus false false [] None)); [| |done].
  { apply reads_flag; [intros ->; apply reads_char; reflexivity|by intros ->]. }
  apply (reads_app (λ _, True) _ _ _ _ (opts_dir minus sharp false [] None)); [| |done].
  { apply reads_flag; [intros ->; apply reads_char; reflexivity|by intros ->]. }
  apply (reads_app (λ _, True) _ _ _ _ (opts_dir minus sharp zero [] None)); [| |done].
  { apply reads_flag; [intros ->; apply reads_char; reflexivity|by intros ->]. }
  apply (reads_app nondigit _ _ _ _ (opts_dir minus sharp zero wd None)).
  - destruct wd as [|w wd]; [apply reads_nil|]. by apply (reads_num (w :: wd) (opts_dir minus sharp zero [] None)).
  - destruct prec as [ds|]; [|apply reads_nil].
    apply (reads_app (λ _, True) _ [46] (show_num ds) _ (opts_dir minus sharp zero wd (Some []))); [| |done].
    + apply reads_char. reflexivity.
    + destruct ds as [|w ds]; [apply reads_nil|]. by apply (reads_num (w :: ds) (opts_dir minus sharp zero wd (Some []))).
  - intros f Hf. destruct prec; [cbn; lia|done].
Qed.

Definition len_dir (l : lenmod) (d : dir) : dir :=
  match l with
  | Lnone => d
  | Lhh => set_size false false true false false false false d
  | Lh => set_size false false false true false false false d
  | Ll => set_size false true false false false false false d
  | Lll => set_size true false false false false false false d
  | Lj => set_size false false false false true false false d
  | Lz => set_size false false false false false false true d
  | Lt => set_size false false false false false true false d
  end.

Lemma reads_len l minus sharp zero wd prec :
  reads nondigit (show_len l) (opts_dir minus sharp zero wd prec) (len_dir l (opts_dir minus sharp zero wd prec)).
Proof.
  destruct l; try (apply reads_char; reflexivity); [apply reads_nil| |].
  - apply (reads_app (λ _, True) _ [104] [104] _ (len_dir Lh (opts_dir minus sharp zero wd prec))); [| |done];
      apply reads_char; reflexivity.
  - apply (reads_app (λ _, True) _ [108] [108] _ (len_dir Ll (opts_dir minus sharp zero wd prec))); [| |done];
      apply reads_char; reflexivity.
Qed.

(** ** Integers *)

Lemma wrap_wrap a b z : 0 ≤ a ≤ b → wrap a (wrap b z) = wrap a z.
Proof.
  intros Hab. unfold wrap. apply Z.mod_mod_divide.
  exists (2 ^ (b - a)). rewrite <- Z.pow_add_r by lia. f_equal. lia.
Qed.

Lemma swrap_wrap_small a b z : 0 < a ≤ b → swrap a (wrap b z) = swrap a z.
Proof.
  intros Hab. rewrite <- (swrap_wrap a (wrap b z)), wrap_wrap by lia. apply swrap_wrap. lia.
Qed.

Context (Hlw : lw = 32 ∨ lw = 64).

Lemma swrap_range w z : 0 < w ≤ 64 → - 2 ^ 63 ≤ swrap w z < 2 ^ 63.
Proof.
  intros Hw. unfold swrap. pose proof (Z.mod_pos_bound (z + 2 ^ (w - 1)) (2 ^ w) ltac:(lia)) as Hb.
  assert (2 ^ (w - 1) ≤ 2 ^ 63) by (apply Z.pow_le_mono_r; lia).
  assert (2 ^ w = 2 * 2 ^ (w - 1)) as E by (rewrite <- Z.pow_succ_r by lia; f_equal; lia). lia.
Qed.

Lemma char_of_range b : 0 ≤ b < 256 → -128 ≤ char_of cs b < 256.
Proof. intros Hb. unfold char_of. destruct cs; cbn [andb]; zcase; lia. Qed.

Lemma value_range l c v : - 2 ^ 63 ≤ value l c v < 2 ^ 64 ∧ (c = Cd → value l c v < 2 ^ 63) ∧ (c ≠ Cd → 0 ≤ value l c v).
Proof.
  assert (0 < lw ≤ 64) as Hl by (destruct Hlw as [-> | ->]; lia).
  pose proof (char_of_range (u8 v) (wrap_range 8 v ltac:(lia))) as H8.
  assert (∀ w, 0 ≤ w ≤ 64 → 0 ≤ wrap w v < 2 ^ 64) as HW.
  { intros w Hw. pose proof (wrap_range w v ltac:(lia)). assert (2 ^ w ≤ 2 ^ 64) by (apply Z.pow_le_mono_r; lia). lia. }
  assert (∀ w, 0 < w ≤ 64 → - 2 ^ 63 ≤ swrap w v < 2 ^ 63) as HS by (intros; by apply swrap_range).
  pose proof (HW 32 ltac:(lia)). pose proof (HW 64 ltac:(lia)). pose proof (HW lw ltac:(lia)).
  pose proof (HW 8 ltac:(lia)). pose proof (HW 16 ltac:(lia)).
  pose proof (HS 32 ltac:(lia)). pose proof (HS 64 ltac:(lia)). pose proof (HS lw ltac:(lia)). pose proof (HS 16 ltac:(lia)).
  pose proof (wrap_range 64 (swrap lw v) ltac:(lia)).
  change (2 ^ 63) with 9223372036854775808 in *. change (2 ^ 64) with 18446744073709551616 in *.
  destruct c, l; cbn [value bits]; split_and!; try lia; try done.
Qed.

(** The label [number] on a value. *)
Lemma number_value (sg : bool) base d (x : Z) k :
  bconv d = false → sign d = sg → 2 ≤ base ≤ 36 → (padc d = 48 ∨ padc d = 32) → small (width d) → small (dwidth d) →
  (if sg then - 2 ^ 63 < x < 2 ^ 63 else 0 ≤ x < 2 ^ 64) →
  number cs snoc (u64 x) base [] d k =
    Ok (emit (number_text (ladjust d) (padc d =? 48) (sharpflag d) (width d) (dwidth d) (x <? 0) base (Z.abs x)
                (digit_char (upper d) <$> ndigits 64 base (Z.abs x))) k).
Proof.
  intros Hbc Hsg Hb Hp Hwd Hdw Hx.
  assert (sg && (2 ^ 63 <=? u64 x) = (x <? 0) ∧ (if x <? 0 then 2 ^ 64 - u64 x else u64 x) = Z.abs x ∧
    (sg = true → u64 x ≠ 2 ^ 63)) as (E1 & E2 & E3).
  { change (2 ^ 63) with 9223372036854775808 in *. unfold wrap. change (2 ^ 64) with 18446744073709551616 in *.
    destruct (Z.ltb_spec x 0).
    - destruct sg; [|lia]. replace (x mod 18446744073709551616) with (x + 18446744073709551616)
        by (apply Z.mod_unique with (-1); lia). split_and!; [cbn [andb]; lia|lia|lia].
    - rewrite Z.mod_small by (destruct sg; lia). split_and!; [destruct sg; cbn [andb]; lia|lia|intros ->; lia]. }
  rewrite number_ok; [|done|done|apply wrap_range; lia|by rewrite Hsg|done..].
  rewrite Hsg, E1. cbv zeta. by rewrite E2.
Qed.

(** The argument that a signed conversion takes. *)
Lemma handle_sign_value l minus sharp zero wd prec v ap k :
  (let d := set_sign true (len_dir l (opts_dir minus sharp zero wd prec)) in
   handle_sign lw cs snoc 10 d (AInt (bits l) v :: ap) k) =
  k ← number cs snoc (u64 (value l Cd v)) 10 [] (set_sign true (len_dir l (opts_dir minus sharp zero wd prec))) k;
  Ok (ap, k).
Proof.
  assert (0 < lw) by (destruct Hlw as [-> | ->]; lia).
  unfold handle_sign. cbv zeta. destruct l; cbn [len_dir set_size set_sign set_style opts_dir jflag qflag tflag lflag zflag hflag cflag
    bits va_int value]; rewrite Z.eqb_refl, ?Ok_bind; cbv beta iota; rewrite ?Ok_bind; cbv beta iota;
    rewrite ?swrap_wrap, ?swrap_wrap_small, ?wrap_wrap by lia; done.
Qed.

Lemma handle_nosign_value l c d minus sharp zero wd prec v ap k : c ≠ Cd →
  d = len_dir l (opts_dir minus sharp zero wd prec) ∨ d = set_upper (len_dir l (opts_dir minus sharp zero wd prec)) →
  handle_nosign lw cs snoc (base_of c) d (AInt (bits l) v :: ap) k =
  k ← number cs snoc (u64 (value l c v)) (base_of c) [] (set_sign false d) k; Ok (ap, k).
Proof.
  intros Hc Hd. assert (0 < lw ≤ 64) as Hl by (destruct Hlw as [-> | ->]; lia).
  assert (value l c v = value l Cu v) as -> by (by destruct c).
  assert (u64 (value l Cu v) = value l Cu v) as ->.
  { apply wrap_small. destruct (value_range l Cu v) as (H1 & _ & H2). specialize (H2 ltac:(done)). lia. }
  unfold handle_nosign. destruct Hd as [-> | ->]; destruct l;
    cbn [len_dir set_size set_upper set_sign set_style opts_dir jflag qflag tflag lflag zflag hflag cflag bconv
    bits va_int value]; rewrite Z.eqb_refl, ?Ok_bind; cbv beta iota; rewrite ?Ok_bind; cbv beta iota;
    rewrite ?swrap_wrap, ?swrap_wrap_small, ?wrap_wrap by lia; done.
Qed.

(** ** Strings and characters *)

Lemma pad_if_emit (b : bool) c wd n (k : kvl) :
  (if b && (0 <? wd - n) then pad_with snoc c (wd - n) k else k) =
  emit (if b then replicate (Z.to_nat (wd - n)) c else []) k.
Proof.
  destruct b; cbn [andb]; [|by rewrite emit_nil]. rewrite pad_emit. zcase; [done|].
  replace (Z.to_nat (wd - n)) with 0%nat by lia. by rewrite emit_nil.
Qed.

Lemma field_emit (la : bool) pad wd body (k : kvl) :
  emit (if la then replicate (Z.to_nat (wd - Z.of_nat (length body))) pad else [])
    (emit body (emit (if negb la then replicate (Z.to_nat (wd - Z.of_nat (length body))) pad else []) k)) =
  emit (in_field la pad wd body) k.
Proof. rewrite !emit_app. unfold in_field. by destruct la; cbn [negb]; rewrite ?app_nil_r. Qed.

Lemma str_bytes_ok s junk : Forall (λ c, c ≠ 0) s → str_bytes None (s ++ 0 :: junk) = Ok s.
Proof.
  induction 1 as [|c s Hc _ IH]; [done|]. cbn [app str_bytes]. destruct (Z.eqb_spec c 0); [done|].
  change (Nat.pred <$> None) with (@None nat). by rewrite IH.
Qed.

Lemma str_bytes_some s junk : Forall (λ c, c ≠ 0) s → ∀ n, str_bytes (Some n) (s ++ 0 :: junk) = Ok (take n s).
Proof.
  induction 1 as [|c s Hc _ IH]; intros n; [by destruct n|]. destruct n as [|n]; [done|].
  cbn [app str_bytes take]. destruct (Z.eqb_spec c 0); [done|].
  change (Nat.pred <$> Some (S n)) with (Some n). by rewrite IH.
Qed.

Lemma in_field_length left pad wd body : (length body ≤ length (in_field left pad wd body))%nat.
Proof. unfold in_field. destruct left; rewrite length_app; lia. Qed.

Lemma conv_s_ok minus wd prec s junk f ap k : decimal wd → Forall (λ c, c ≠ 0) s →
  Z.of_nat (length (render (TStr minus wd prec s junk))) < 2 ^ 31 →
  conv_s cs snoc (opts_dir minus false false wd prec) f (AStr (s ++ 0 :: junk) :: ap) k =
  Ok (f, false, ap, emit (render (TStr minus wd prec s junk)) k).
Proof.
  intros Hwd%decimal_small Hs Hlen. unfold conv_s. cbn [va_str]. rewrite Ok_bind. cbv beta iota.
  cbn [opts_dir dot dwidth width padc ladjust]. change (default null_text (Some ?l)) with l. cbv zeta.
  set (s' := match prec with Some ds => take (Z.to_nat (horner 10 ds)) s | None => s end).
  assert (str_bytes (if bool_decide (is_Some prec) then Some (Z.to_nat (horner 10 (default [] prec))) else None)
    (s ++ 0 :: junk) = Ok s') as ->.
  { unfold s'. destruct prec as [ds|]; [by apply str_bytes_some|by apply str_bytes_ok]. }
  rewrite Ok_bind. cbv beta.
  assert (Z.of_nat (length s') < 2147483648) as Hs'.
  { cbn [render] in Hlen. fold s' in Hlen. pose proof (in_field_length minus 32 (horner 10 wd) (char_of cs <$> s')) as HF.
    rewrite length_fmap in HF. change (2 ^ 31) with 2147483648 in Hlen. lia. }
  unfold small in Hwd. change (2 ^ 31 - 48) with 2147483600 in Hwd.
  rewrite swrap_small by (change (2 ^ (32 - 1)) with 2147483648; lia).
  rewrite int_ok by (change (2 ^ (32 - 1)) with 2147483648; lia). rewrite Ok_bind. cbv beta.
  destruct (Z.ltb_spec (Z.of_nat (length s')) 0); [lia|]. rewrite Nat2Z.id, take_ge by done.
  rewrite pchars_emit, !pad_if_emit.
  replace (Z.of_nat (length s')) with (Z.of_nat (length (char_of cs <$> s'))) by (by rewrite length_fmap).
  by rewrite field_emit.
Qed.

Lemma conv_c_ok minus wd c f ap k : decimal wd →
  conv_c snoc (opts_dir minus false false wd None) f (AInt 32 c :: ap) k =
  Ok (f, false, ap, emit (render (TCh minus wd c)) k).
Proof.
  intros Hwd%decimal_small. unfold small in Hwd. change (2 ^ 31 - 48) with 2147483600 in Hwd.
  unfold conv_c. cbn [opts_dir width padc ladjust].
  rewrite int_ok by (change (2 ^ (32 - 1)) with 2147483648; lia). rewrite Ok_bind. cbv beta.
  cbn [va_int]. rewrite Z.eqb_refl, Ok_bind. cbv beta iota zeta. rewrite PCHAR_emit, !pad_if_emit, swrap_wrap by lia.
  change 1 with (Z.of_nat (length [s32 c])) at 1. by rewrite field_emit.
Qed.

(** ** The switch on an item *)

Lemma length_opts minus sharp zero wd prec l c rest fuel :
  (length (opts minus sharp zero wd prec ++ show_len l ++ show_conv c :: rest) < fuel)%nat →
  (length ((opts minus sharp zero wd prec ++ show_len l) ++ show_conv c :: rest) < fuel)%nat.
Proof. by rewrite <- app_assoc. Qed.

Lemma reads_spec minus sharp zero wd prec l :
  decimal wd → head wd ≠ Some 0 → decimal (default [] prec) →
  reads nondigit (opts minus sharp zero wd prec ++ show_len l) dir0 (len_dir l (opts_dir minus sharp zero wd prec)).
Proof.
  intros Hw Hw0 Hp. apply (reads_app nondigit _ _ _ _ (opts_dir minus sharp zero wd prec)).
  - by apply reads_opts.
  - apply reads_len.
  - intros f Hf. destruct l; cbn; try done; lia.
Qed.

(** What the options left in the directive. *)
Lemma len_dir_fields l minus sharp zero wd prec (d := len_dir l (opts_dir minus sharp zero wd prec)) :
  bconv d = false ∧ (padc d = 48 ∨ padc d = 32) ∧ (padc d =? 48) = zero ∧ ladjust d = minus ∧ sharpflag d = sharp ∧
  width d = horner 10 wd ∧ dwidth d = horner 10 (default [] prec) ∧ upper d = false ∧ sign d = false.
Proof. unfold d. destruct l, zero; cbn; tauto. Qed.

(** Both ways through the switch end at [number]. *)
Lemma int_text (sg : bool) d minus sharp zero wd prec l c v k :
  bconv d = false → (padc d = 48 ∨ padc d = 32) → (padc d =? 48) = zero → ladjust d = minus → sharpflag d = sharp →
  width d = horner 10 wd → dwidth d = horner 10 (default [] prec) → upper d = is_upper c → sign d = sg →
  (c = Cd ↔ sg = true) → (c = Cd → value l c v ≠ - 2 ^ 63) → decimal wd → decimal (default [] prec) →
  number cs snoc (u64 (value l c v)) (base_of c) [] d k =
    Ok (emit (render (TInt minus sharp zero wd prec l c v)) k).
Proof.
  intros D1 D2 D3 D4 D5 D6 D7 D8 D9 Hc Hmin Hwd Hpr. destruct (value_range l c v) as (HV & HS & HU).
  change (2 ^ 63) with 9223372036854775808 in *. change (2 ^ 64) with 18446744073709551616 in *.
  rewrite (number_value sg); [|done|done|destruct c; cbn; lia|done|rewrite D6; by apply decimal_small|rewrite D7; by apply decimal_small|].
  - by rewrite D3, D4, D5, D6, D7, D8.
  - change (2 ^ 63) with 9223372036854775808 in *. change (2 ^ 64) with 18446744073709551616 in *. destruct sg.
    + destruct Hc as [_ Hc]. specialize (Hc eq_refl). specialize (HS Hc). specialize (Hmin Hc). lia.
    + assert (c ≠ Cd) as Hne by (intros E; by apply Hc in E). specialize (HU Hne). lia.
Qed.

Lemma unsigned_item l c (up : bool) minus sharp zero wd prec v (rest : list Z) (ap : list arg) (k : kvl) : c ≠ Cd → is_upper c = up → decimal wd → decimal (default [] prec) →
  let d := len_dir l (opts_dir minus sharp zero wd prec) in
  ('(ap, k) ← handle_nosign lw cs snoc (base_of c) (if up then set_upper d else d) (AInt (bits l) v :: ap) k;
   Ok (rest, false, ap, k)) =
  Ok (rest, false, ap, emit (render (TInt minus sharp zero wd prec l c v)) k).
Proof.
  intros Hc Hup Hwd Hpr d. destruct (len_dir_fields l minus sharp zero wd prec) as (D1 & D2 & D3 & D4 & D5 & D6 & D7 & D8 & D9).
  rewrite (handle_nosign_value l c _ minus sharp zero wd prec) by (done || (destruct up; auto)).
  rewrite (int_text false _ minus sharp zero wd prec l c v); [by rewrite !Ok_bind| | | | | | | | | | |done|done|done];
    destruct up; try done; cbn; by rewrite ?D8, Hup.
Qed.

Lemma signed_item l minus sharp zero wd prec v (rest : list Z) (ap : list arg) (k : kvl) : value l Cd v ≠ - 2 ^ 63 →
  decimal wd → decimal (default [] prec) →
  let d := len_dir l (opts_dir minus sharp zero wd prec) in
  ('(ap, k) ← handle_sign lw cs snoc 10 (set_sign true d) (AInt (bits l) v :: ap) k; Ok (rest, false, ap, k)) =
  Ok (rest, false, ap, emit (render (TInt minus sharp zero wd prec l Cd v)) k).
Proof.
  intros Hmin Hwd Hpr d. destruct (len_dir_fields l minus sharp zero wd prec) as (D1 & D2 & D3 & D4 & D5 & D6 & D7 & D8 & D9).
  pose proof (handle_sign_value l minus sharp zero wd prec v ap k) as HE. cbv zeta in HE. fold d in HE. rewrite HE.
  change 10 with (base_of Cd).
  rewrite (int_text true _ minus sharp zero wd prec l Cd v); [by rewrite !Ok_bind|done..].
Qed.

Lemma reswitch_int fuel radix percent minus sharp zero wd prec l c v rest ap k :
  good (TInt minus sharp zero wd prec l c v) →
  (length (opts minus sharp zero wd prec ++ show_len l ++ show_conv c :: rest) < fuel)%nat →
  reswitch lw cs snoc fuel radix percent dir0 (opts minus sharp zero wd prec ++ show_len l ++ show_conv c :: rest)
    (AInt (bits l) v :: ap) k =
  Ok (rest, false, ap, emit (render (TInt minus sharp zero wd prec l c v)) k).
Proof.
  intros (Hw & Hw0 & Hp & Hmin) Hl. rewrite app_assoc.
  destruct (reads_spec minus sharp zero wd prec l Hw Hw0 Hp fuel radix percent (show_conv c :: rest)
    (AInt (bits l) v :: ap) k) as (fuel' & Hl' & ->); [destruct c; cbn; lia|by rewrite <- app_assoc|].
  destruct fuel' as [|fuel']; [cbn in Hl'; lia|]. destruct c.
  - by apply signed_item; [apply Hmin|..].
  - by apply (unsigned_item l Cu false).
  - by apply (unsigned_item l Co false).
  - by apply (unsigned_item l Cx false).
  - by apply (unsigned_item l CX true).
Qed.

Lemma reswitch_str fuel radix percent minus wd prec s junk (rest : list Z) ap k :
  good (TStr minus wd prec s junk) → Z.of_nat (length (render (TStr minus wd prec s junk))) < 2 ^ 31 →
  (length (opts minus false false wd prec ++ 115%Z :: rest) < fuel)%nat →
  reswitch lw cs snoc fuel radix percent dir0 (opts minus false false wd prec ++ 115 :: rest)
    (AStr (s ++ 0 :: junk) :: ap) k =
  Ok (rest, false, ap, emit (render (TStr minus wd prec s junk)) k).
Proof.
  intros (Hw & Hw0 & Hp & Hs) Hr Hl.
  destruct (reads_opts minus false false wd prec Hw Hw0 Hp fuel radix percent (115 :: rest)
    (AStr (s ++ 0 :: junk) :: ap) k) as (fuel' & Hl' & ->); [cbn; lia|done|].
  destruct fuel' as [|fuel']; [cbn in Hl'; lia|]. by apply conv_s_ok.
Qed.

Lemma reswitch_chr fuel radix percent minus wd c (rest : list Z) ap k :
  good (TCh minus wd c) → (length (opts minus false false wd None ++ 99%Z :: rest) < fuel)%nat →
  reswitch lw cs snoc fuel radix percent dir0 (opts minus false false wd None ++ 99 :: rest) (AInt 32 c :: ap) k =
  Ok (rest, false, ap, emit (render (TCh minus wd c)) k).
Proof.
  intros (Hw & Hw0) Hl.
  destruct (reads_opts minus false false wd None Hw Hw0 ltac:(split; [constructor|done]) fuel radix percent (99 :: rest)
    (AInt 32 c :: ap) k) as (fuel' & Hl' & ->); [cbn; lia|done|].
  destruct fuel' as [|fuel']; [cbn in Hl'; lia|]. by apply conv_c_ok.
Qed.

(** ** The loop *)

Lemma kv_loop_percent fuel radix (spec rest : list Z) ap ap' out k :
  reswitch lw cs snoc (S (length (spec ++ rest))) radix (37 :: spec ++ rest) dir0 (spec ++ rest) ap k =
    Ok (rest, false, ap', emit out k) →
  kv_loop lw cs snoc (S fuel) radix ((37 :: spec) ++ rest) false ap k =
  kv_loop lw cs snoc fuel radix rest false ap' (emit out k).
Proof. intros E. cbn [kv_loop app]. change ((37 =? 37) && negb false) with true. cbv iota. by rewrite E. Qed.

Lemma kv_loop_item fuel radix i rest ap k : good i → Z.of_nat (length (render i)) < 2 ^ 31 →
  kv_loop lw cs snoc (S fuel) radix (show i ++ rest) false (args i ++ ap) k =
  kv_loop lw cs snoc fuel radix rest false ap (emit (render i) k).
Proof.
  intros Hi Hr. destruct i as [c| |minus sharp zero wd prec l c v|minus wd prec s junk|minus wd c]; cbn [show args].
  - destruct Hi as [H1 H2]. cbn [app kv_loop]. destruct (Z.eqb_spec c 37); [done|]. cbn [andb].
    destruct (Z.eqb_spec c 0); [done|]. by rewrite PCHAR_emit.
  - apply (kv_loop_percent fuel radix [37]). reflexivity.
  - apply kv_loop_percent. pose proof (reswitch_int (S (length ((opts minus sharp zero wd prec ++ show_len l ++ [show_conv c]) ++ rest)))
      radix (37 :: (opts minus sharp zero wd prec ++ show_len l ++ [show_conv c]) ++ rest)
      minus sharp zero wd prec l c v rest ap k Hi) as HR.
    unfold opts in *. rewrite <- !app_assoc in *. cbn [app] in *. apply HR. lia.
  - apply kv_loop_percent.
    pose proof (reswitch_str (S (length ((opts minus false false wd prec ++ [115]) ++ rest))) radix
      (37 :: (opts minus false false wd prec ++ [115]) ++ rest) minus wd prec s junk rest ap k Hi Hr) as HR.
    unfold opts in *. cbn [show_flag app] in *. rewrite <- !app_assoc in *. cbn [app] in *. apply HR. lia.
  - apply kv_loop_percent.
    pose proof (reswitch_chr (S (length ((opts minus false false wd None ++ [99]) ++ rest))) radix
      (37 :: (opts minus false false wd None ++ [99]) ++ rest) minus wd c rest ap k Hi) as HR.
    unfold opts in *. cbn [show_flag show_prec app] in *. rewrite app_nil_r in *. rewrite <- !app_assoc in *. cbn [app] in *.
    apply HR. lia.
Qed.

Lemma kv_loop_items items : Forall good items → Z.of_nat (length (concat (render <$> items))) < 2 ^ 31 →
  ∀ fuel radix junk ap k, (length items < fuel)%nat →
  kv_loop lw cs snoc fuel radix (concat (show <$> items) ++ 0 :: junk) false (concat (args <$> items) ++ ap) k =
  Ok (emit (concat (render <$> items)) k).
Proof.
  induction 1 as [|i items Hi _ IH]; intros Hr fuel radix junk ap k Hf; destruct fuel as [|fuel]; cbn [length] in Hf; try lia.
  - cbn. by rewrite emit_nil.
  - cbn [fmap list_fmap concat] in *. rewrite length_app in Hr.
    rewrite <- !app_assoc, kv_loop_item, IH, emit_app by (done || lia). done.
Qed.

Lemma show_nonempty i : (0 < length (show i))%nat.
Proof. destruct i; cbn; lia. Qed.

(** The stream of characters of a format is the text of its items. *)
Lemma stream_items items junk radix ap : Forall good items → Z.of_nat (length (concat (render <$> items))) < 2 ^ 31 →
  stream lw cs (Some (concat (show <$> items) ++ 0 :: junk)) radix (concat (args <$> items) ++ ap) =
  Ok (concat (render <$> items), []).
Proof.
  intros HG Hr. unfold stream, kvprintf. change (default fmt_null (Some ?l)) with l. rewrite kv_loop_items; [|done|done|].
  { rewrite !Ok_bind. cbn [emit retval sink stored]. rewrite counted_ok, decide_True by (done || lia). done. }
  assert (length items ≤ length (concat (show <$> items)))%nat.
  { clear HG Hr. induction items as [|i items IH]; [done|]. cbn [fmap list_fmap concat length]. rewrite length_app.
    pose proof (show_nonempty i). lia. }
  rewrite length_app. lia.
Qed.
End format.
