(* ===== verification/PrintfTheorems.v ===== *)
(** * Theorems of formatted output

    Where the stream of a format goes: bounded and unbounded buffers and the
    console; what it is; and that numbers survive printing and parsing. *)

From S2P Require Import Prelude Memory StringScan StringTheorems Strto StrtoTheorems Printf PrintfStream PrintfText.
Local Open Scope Z_scope.

(** ** Buffers *)

(** The bytes [l] at [s]. *)
Definition bytes_at (m : mem_t) (s : Z) (l : list Z) : Prop :=
  ∀ i c, l !! i = Some c → m !! (s + Z.of_nat i) = Some (u8 c).

Lemma bytes_at_cons m s c l : m !! s = Some (u8 c) → bytes_at m (s + 1) l → bytes_at m s (c :: l).
Proof.
  intros H1 H2 [|i] x E; cbn in E.
  - injection E as <-. by rewrite Z.add_0_r.
  - rewrite <- (H2 i x E). f_equal. lia.
Qed.

(** snprintf_func stores all but the last byte of the room, and drops the rest. *)
Lemma feed_snprintf out : ∀ s size m, mapped m s size → 0 ≤ size →
  let n := Z.to_nat (Z.min (Z.of_nat (length out)) (Z.max 0 (size - 1))) in
  ∃ m', feed snprintf_func out (Ok {| str := s; remain := size; kmem := m |}) =
      Ok {| str := s + Z.of_nat n; remain := size - Z.of_nat n; kmem := m' |} ∧
    bytes_at m' s (take n out) ∧ (∀ a, ¬ (s ≤ a < s + Z.of_nat n) → m' !! a = m !! a).
Proof.
  induction out as [|c out IH]; intros s size m Hm Hs n.
  - assert (n = 0%nat) as -> by (unfold n; cbn; lia). exists m. cbn.
    rewrite Z.add_0_r, Z.sub_0_r. split_and!; [done|by intros i x|done].
  - unfold feed in *. cbn [foldl]. unfold snprintf_func at 2. rewrite Ok_bind. cbn [remain str kmem].
    destruct (Z.leb_spec 2 size).
    + rewrite store_ok by (apply Hm; lia). rewrite Ok_bind.
      destruct (IH (s + 1) (size - 1) (<[s := u8 c]> m)) as (m' & E & HB & HO);
        [apply mapped_insert, (mapped_sub _ _ _ _ _ Hm); lia|lia|].
      set (n' := Z.to_nat (Z.min (Z.of_nat (length out)) (Z.max 0 (size - 1 - 1)))) in *.
      assert (n = S n') as -> by (unfold n, n'; cbn [length]; lia).
      exists m'. rewrite E. split_and!.
      * do 2 f_equal; lia.
      * cbn [take]. apply bytes_at_cons; [|done]. rewrite HO by lia. by rewrite lookup_insert_eq.
      * intros a Ha. rewrite HO by lia. by rewrite lookup_insert_ne by lia.
    + assert (n = 0%nat) as -> by (unfold n; lia).
      destruct (IH s size m Hm Hs) as (m' & E & HB & HO).
      set (n' := Z.to_nat (Z.min (Z.of_nat (length out)) (Z.max 0 (size - 1)))) in *.
      assert (n' = 0%nat) as En by (unfold n'; lia). rewrite En in *. exists m'. by rewrite E.
Qed.

Lemma feed_store out : ∀ d m, mapped m d (Z.of_nat (length out)) →
  ∃ m', feed d_store out (Ok (d, m)) = Ok (d + Z.of_nat (length out), m') ∧
    bytes_at m' d out ∧ (∀ a, ¬ (d ≤ a < d + Z.of_nat (length out)) → m' !! a = m !! a).
Proof.
  induction out as [|c out IH]; intros d m Hm.
  - exists m. cbn. rewrite Z.add_0_r. split_and!; [done|by intros i x|done].
  - unfold feed in *. cbn [foldl length] in *. unfold d_store at 2. rewrite Ok_bind. cbv beta iota.
    rewrite store_ok by (apply Hm; lia). rewrite Ok_bind.
    destruct (IH (d + 1) (<[d := u8 c]> m)) as (m' & E & HB & HO);
      [apply mapped_insert, (mapped_sub _ _ _ _ _ Hm); lia|].
    exists m'. rewrite E. split_and!.
    + do 2 f_equal. lia.
    + apply bytes_at_cons; [|done]. rewrite HO by lia. by rewrite lookup_insert_eq.
    + intros a Ha. rewrite HO by lia. by rewrite lookup_insert_ne by lia.
Qed.

Lemma bytes_at_snoc m s l : bytes_at m s l → bytes_at (<[s + Z.of_nat (length l) := 0]> m) s (l ++ [0]).
Proof.
  intros H i c Hi. apply lookup_app_Some in Hi as [Hi|[Hge Hi]].
  - apply lookup_lt_Some in Hi as Hlt. rewrite lookup_insert_ne by lia. by apply H.
  - destruct (i - length l)%nat eqn:Ei; [|done]. injection Hi as <-.
    replace i with (length l) by lia. by rewrite lookup_insert_eq.
Qed.

(** Non-zero bytes and a NUL are a string. *)
Lemma bytes_cstr m s l : Forall (λ c, 0 < c < 256) l → bytes_at m s (l ++ [0]) → cstr m s l.
Proof.
  revert s. induction l as [|c l IH]; intros s HF HB; cbn [cstr].
  - pose proof (HB 0%nat 0 eq_refl) as H. by rewrite Z.add_0_r in H.
  - apply Forall_cons in HF as [Hc HF]. split_and!; [|lia|lia|apply IH; [done|]].
    + pose proof (HB 0%nat c eq_refl) as H. by rewrite Z.add_0_r, wrap_small in H by lia.
    + intros i x Hi. rewrite <- (HB (S i) x Hi). f_equal. lia.
Qed.

Section buffers.
Context (lw : Z) (cs : bool).

(** What the bounded printf does with a stream. *)
Lemma vsnprintf_ok s size fmt ap m : 0 ≤ size → mapped m s size →
  match stream lw cs fmt 10 ap with
  | Ok (out, st) => ∃ m', vsnprintf lw cs s size fmt ap m = Ok (Z.of_nat (length out), m', st) ∧
      (1 ≤ size → bytes_at m' s (take (Z.to_nat (size - 1)) out ++ [0])) ∧
      (∀ a, ¬ (s ≤ a < s + Z.min (Z.of_nat (length out) + 1) size) → m' !! a = m !! a)
  | Err e => vsnprintf lw cs s size fmt ap m = Err e
  end.
Proof.
  intros Hs Hm. unfold vsnprintf.
  pose proof (kvprintf_stream lw cs snprintf_func fmt 10 ap (Ok {| str := s; remain := size; kmem := m |})) as HK.
  destruct (kvprintf _ _ _ _ _ _ _) as [[[n0 x] st']|e], (stream lw cs fmt 10 ap) as [[out st]|e']; try done; [|by rewrite HK].
  destruct HK as (-> & -> & _ & ->). rewrite Ok_bind. cbv beta iota.
  destruct (feed_snprintf out s size m Hm Hs) as (m' & E & HB & HO).
  set (n := Z.to_nat (Z.min (Z.of_nat (length out)) (Z.max 0 (size - 1)))) in *.
  rewrite E, Ok_bind. cbn [remain str kmem].
  destruct (Z.leb_spec 1 (size - Z.of_nat n)).
  - rewrite store_ok; [|rewrite HO by lia; apply Hm; lia]. rewrite !Ok_bind. eexists. split; [done|].
    assert (length (take n out) = n) as HL by (rewrite length_take; lia). split.
    + intros H1. replace (take (Z.to_nat (size - 1)) out) with (take n out).
      * pose proof (bytes_at_snoc m' s (take n out) HB) as HN. by rewrite HL in HN.
      * unfold n. destruct (Z.le_ge_cases (Z.of_nat (length out)) (size - 1)).
        -- rewrite !take_ge by lia. done.
        -- f_equal. lia.
    + intros a Ha. rewrite lookup_insert_ne by lia. apply HO. lia.
  - rewrite Ok_bind. exists m'. split; [done|]. split; [lia|]. intros a Ha. apply HO. lia.
Qed.

Lemma vsprintf_ok s fmt ap m :
  match stream lw cs fmt 10 ap with
  | Ok (out, st) => mapped m s (Z.of_nat (length out) + 1) →
      ∃ m', vsprintf lw cs s fmt ap m = Ok (Z.of_nat (length out), m', st) ∧ bytes_at m' s (out ++ [0]) ∧
      (∀ a, ¬ (s ≤ a < s + Z.of_nat (length out) + 1) → m' !! a = m !! a)
  | Err e => vsprintf lw cs s fmt ap m = Err e
  end.
Proof.
  unfold vsprintf. pose proof (kvprintf_stream lw cs d_store fmt 10 ap (Ok (s, m))) as HK.
  destruct (kvprintf _ _ _ _ _ _ _) as [[[n0 x] st']|e], (stream lw cs fmt 10 ap) as [[out st]|e']; try done; [|by rewrite HK].
  intros Hm. destruct HK as (-> & -> & _ & ->). rewrite Ok_bind. cbv beta iota.
  destruct (feed_store out s m) as (m' & -> & HB & HO); [apply (mapped_sub _ _ _ _ _ Hm); lia|].
  rewrite Ok_bind. cbv beta iota. rewrite store_ok; [|rewrite HO by lia; apply Hm; lia]. rewrite Ok_bind.
  eexists. split; [done|]. split; [by apply bytes_at_snoc|].
  intros a Ha. rewrite lookup_insert_ne by lia. apply HO. lia.
Qed.
(** printf hands the stream to the console. *)
Lemma printf_ok {C} (putchar : Z → C → C) fmt ap c :
  printf lw cs (Some putchar) fmt ap c =
  match stream lw cs fmt 10 ap with
  | Ok (out, st) => Ok (Z.of_nat (length out), foldl (λ c x, putchar x c) c out, st)
  | Err e => Err e
  end.
Proof.
  unfold printf, vprintf. pose proof (kvprintf_stream lw cs putchar fmt 10 ap c) as HK.
  destruct (kvprintf _ _ _ _ _ _ _) as [[[n0 x] st']|e], (stream lw cs fmt 10 ap) as [[out st]|e']; try done.
  - by destruct HK as (-> & -> & _ & ->).
  - by rewrite HK.
Qed.
End buffers.

(** ** What the functions promise *)

(** C20: A format and its arguments determine one stream of characters, which an int
    can count, or one fault.  snprintf writes as much of it as fits before the last byte of the
    buffer, a NUL behind it, and nothing outside the buffer nor past the NUL; it
    returns the length of the whole stream even when it was cut.  sprintf writes all
    of it and a NUL, and printf hands the same characters to the console, in order. *)
Theorem printf_stream lw cs fmt ap :
  match stream lw cs fmt 10 ap with
  | Ok (out, st) =>
    Z.of_nat (length out) < 2 ^ 31 ∧
    (∀ s size m, 0 ≤ size → mapped m s size →
      ∃ m', snprintf lw cs s size fmt ap m = Ok (Z.of_nat (length out), m', st) ∧
        (1 ≤ size → bytes_at m' s (take (Z.to_nat (size - 1)) out ++ [0])) ∧
        (∀ a, ¬ (s ≤ a < s + Z.min (Z.of_nat (length out) + 1) size) → m' !! a = m !! a)) ∧
    (∀ s m, mapped m s (Z.of_nat (length out) + 1) →
      ∃ m', sprintf lw cs s fmt ap m = Ok (Z.of_nat (length out), m', st) ∧ bytes_at m' s (out ++ [0]) ∧
        (∀ a, ¬ (s ≤ a < s + Z.of_nat (length out) + 1) → m' !! a = m !! a)) ∧
    (∀ C (putchar : Z → C → C) c,
      printf lw cs (Some putchar) fmt ap c = Ok (Z.of_nat (length out), foldl (λ c x, putchar x c) c out, st))
  | Err e =>
    (∀ s size m, 0 ≤ size → mapped m s size → snprintf lw cs s size fmt ap m = Err e) ∧
    (∀ s m, sprintf lw cs s fmt ap m = Err e) ∧
    (∀ C (putchar : Z → C → C) c, printf lw cs (Some putchar) fmt ap c = Err e)
  end.
Proof.
  pose proof (λ C putchar c, @printf_ok lw cs C putchar fmt ap c) as HP.
  pose proof (λ s size m, vsnprintf_ok lw cs s size fmt ap m) as HN.
  pose proof (λ s m, vsprintf_ok lw cs s fmt ap m) as HS.
  pose proof (kvprintf_stream lw cs snoc fmt 10 ap []) as HL.
  destruct (stream lw cs fmt 10 ap) as [[out st]|e]; [|by split_and!]. split; [|by split_and!].
  destruct (kvprintf _ _ _ _ _ _ _) as [[[n0 x] st']|e]; [|done]. apply HL.
Qed.

(** C21: For formats made of characters, "%%", and the conversions d, u, o, x, X,
    s and c with the flags -, # and 0, a field width, a precision and the lengths
    hh, h, l, ll, j, z and t, the stream is the text a programmer expects: numbers
    of the value of their type in their base, with sign, prefix, zeros and padding;
    strings cut at their precision and padded.  Arguments that are left over are not
    touched.  Widths and precisions are less than INT_MAX - 47 (otherwise the sum in
    n * 10 + ch - '0' overflows), and the text has at most INT_MAX characters. *)
Theorem printf_formats lw cs items junk ap :
  lw = 32 ∨ lw = 64 → Forall (good lw cs) items →
  Z.of_nat (length (concat (render lw cs <$> items))) < 2 ^ 31 →
  stream lw cs (Some (concat (show <$> items) ++ 0 :: junk)) 10 (concat (args lw <$> items) ++ ap) =
  Ok (concat (render lw cs <$> items), []).
Proof. intros Hlw HG Hr. by apply stream_items. Qed.

(** *** A format that ends in a percent sign *)

(** The default case prints the NUL behind the percent sign as a character and
    goes on behind it. *)
Lemma lone_percent lw cs :
  stream lw cs (Some [53; 37; 0; 120; 0]) 10 [] = Ok ([53; 37; 0; 120], []) ∧
  stream lw cs (Some [53; 37; 0]) 10 [] = Err Fault.
Proof. destruct cs; split; reflexivity. Qed.

(** The width INT_MAX overflows while it is read: "%2147483647d". *)
Lemma widest_width lw cs ap :
  stream lw cs (Some [37; 50; 49; 52; 55; 52; 56; 51; 54; 52; 55; 100; 0]) 10 ap = Err Fault.
Proof. destruct cs; reflexivity. Qed.

(** ** Witnesses *)

Module PrintfDemo.

(** "id %-4u=%#06x: %.3s%%" of 7, 255 and "abcdef". *)
Definition items : list item :=
  [TChar 105; TChar 100; TChar 32; TInt true false false [4] None Lnone Cu 7; TChar 61;
   TInt false true true [6] None Lnone Cx 255; TChar 58; TChar 32;
   TStr false [] (Some [3]) [97; 98; 99; 100; 101; 102] []; TPercent].

Lemma printf_formats_witness :
  stream 32 true (Some [105; 100; 32; 37; 45; 52; 117; 61; 37; 35; 48; 54; 120; 58; 32; 37; 46; 51; 115; 37; 37; 0]) 10
    [AInt 32 7; AInt 32 255; AStr [97; 98; 99; 100; 101; 102; 0]] =
  Ok ([105; 100; 32; 55; 32; 32; 32; 61; 48; 120; 48; 48; 102; 102; 58; 32; 97; 98; 99; 37], []).
Proof.
  refine (eq_trans (printf_formats 32 true items [] [] _ _ _) _); [by left| |vm_compute; reflexivity|vm_compute; reflexivity].
  repeat constructor; try done; intros [=].
Defined.
End PrintfDemo.
