(* ===== verification/Scanf.v ===== *)
(** * Formatted input (lib/libc/stdio/scanf.c)

    vsscanf reads the string at [inp] under the control of a format.  Input,
    destinations and memory are one memory of bytes, so what is stored may change
    what is read next; the format is given by its bytes and the NUL, outside that
    memory.  A destination is the address that the caller passed.  The model is the
    configuration without MDX_GDTOA, that is without floating point.  The string is
    shorter than 2^31. *)

From S2P Require Import Prelude Freelist Memory StringCopy StringScan Strto.
Local Open Scope Z_scope.

Definition BUF : Z := 32.

Definition LONG : Z := 1.
Definition SHORT : Z := 4.
Definition SUPPRESS : Z := 8.
Definition POINTER : Z := 16.
Definition NOSKIP : Z := 32.
Definition SIGNOK : Z := 64.
Definition NDIGITS : Z := 128.
Definition PFXOK : Z := 256.
Definition NZDIGITS : Z := 512.
Definition QUAD : Z := 1024.
Definition INTMAXT : Z := 2048.
Definition PTRDIFFT : Z := 4096.
Definition SIZET : Z := 8192.
Definition SHORTSHORT : Z := 16384.

Definition CT_CHAR : Z := 0.
Definition CT_CCL : Z := 1.
Definition CT_STRING : Z := 2.
Definition CT_INT : Z := 3.

Definition flag (flags x : Z) : bool := negb (Z.land flags x =? 0).

(** [ccfntype]: strtoq or strtouq. *)
Inductive ccfn_t := Strtoq | Strtouq.

(** The variables of vsscanf that live across conversions. *)
Record scan := Scan {
  inp : Z; inr : Z; nread : Z; nassigned : Z; nconversions : Z;
  base : Z; ccfn : option ccfn_t; ccltab : gmap Z Z; ap : list Z; mem : mem_t }.

Definition set_input (i r n : Z) (s : scan) : scan :=
  Scan i r n (nassigned s) (nconversions s) (base s) (ccfn s) (ccltab s) (ap s) (mem s).
Definition set_conv (b : Z) (f : ccfn_t) (s : scan) : scan :=
  Scan (inp s) (inr s) (nread s) (nassigned s) (nconversions s) b (Some f) (ccltab s) (ap s) (mem s).
Definition set_base (b : Z) (s : scan) : scan :=
  Scan (inp s) (inr s) (nread s) (nassigned s) (nconversions s) b (ccfn s) (ccltab s) (ap s) (mem s).
Definition set_ccltab (t : gmap Z Z) (s : scan) : scan :=
  Scan (inp s) (inr s) (nread s) (nassigned s) (nconversions s) (base s) (ccfn s) t (ap s) (mem s).
Definition set_ap (l : list Z) (s : scan) : scan :=
  Scan (inp s) (inr s) (nread s) (nassigned s) (nconversions s) (base s) (ccfn s) (ccltab s) l (mem s).
Definition set_mem (m : mem_t) (s : scan) : scan :=
  Scan (inp s) (inr s) (nread s) (nassigned s) (nconversions s) (base s) (ccfn s) (ccltab s) (ap s) m.
(** [nassigned += a; nconversions += c] *)
Definition count (a c : Z) (s : scan) : scan :=
  Scan (inp s) (inr s) (nread s) (nassigned s + a) (nconversions s + c) (base s) (ccfn s) (ccltab s) (ap s) (mem s).

(** [inp += k, inr -= k, nread += n] *)
Definition advance (k n : Z) (s : scan) : scan := set_input (inp s + k) (inr s - k) (nread s + n) s.

(** [ *inp] as an unsigned char. *)
Definition cur (s : scan) : res Z := load (mem s) (inp s).

(** [va_arg(ap, T * )] *)
Definition va_dst (s : scan) : res (Z * scan) :=
  match ap s with a :: l => Ok (a, set_ap l s) | [] => Err Fault end.

(** ** White space *)

(** [while (inr > 0 && isspace( *inp))] *)
Fixpoint skip_white (fuel : nat) (s : scan) : res scan :=
  match fuel with
  | O => Err NoFuel
  | S fuel =>
    if 0 <? inr s then
      c ← cur s;
      if isspace c then skip_white fuel (advance 1 1 s) else Ok s
    else Ok s
  end.

(** The white space in front of a conversion; [false] is [goto input_failure]. *)
Fixpoint skip_lead (fuel : nat) (s : scan) : res (bool * scan) :=
  match fuel with
  | O => Err NoFuel
  | S fuel =>
    c ← cur s;
    if isspace c then
      if 0 <? inr s - 1 then skip_lead fuel (advance 1 1 s)
      else Ok (false, set_input (inp s) (inr s - 1) (nread s + 1) s)
    else Ok (true, s)
  end.

(** ** __sccl *)

Definition tab_set (i v : Z) (tab : gmap Z Z) : res (gmap Z Z) :=
  if (0 <=? i) && (i <? 256) then Ok (<[i := v]> tab) else Err Fault.

(** [do { tab[++c] = v; } while (c < n)], [k] times. *)
Fixpoint fill_range (k : nat) (c v : Z) (tab : gmap Z Z) : res (gmap Z Z) :=
  match k with
  | O => Ok tab
  | S k => tab ← tab_set (c + 1) v tab; fill_range k (c + 1) v tab
  end.

(** From the label [doswitch] on: the rest of the format and the table. *)
Fixpoint doswitch (c v : Z) (fmt : list Z) (tab : gmap Z Z) : res (list Z * gmap Z Z) :=
  match fmt with
  | [] => Err Fault
  | n :: r =>
    if n =? 0 then Ok (fmt, tab)
    else if n =? 45 then                                             (* - *)
      match r with
      | [] => Err Fault
      | n :: r' =>
        if (n =? 93) || (n <? c) then
          tab ← tab_set 45 v tab;
          doswitch 45 v r tab
        else
          tab ← fill_range (Z.to_nat (Z.max 1 (n - c))) c v tab;
          doswitch n v r' tab
      end
    else if n =? 93 then Ok (r, tab)                                 (* ] *)
    else
      tab ← tab_set n v tab;
      doswitch n v r tab
  end.

Definition all_chars : list Z := Z.of_nat <$> seq 0 256.

Definition __sccl (fmt : list Z) : res (list Z * gmap Z Z) :=
  match fmt with
  | [] => Err Fault
  | c :: r =>
    '(v, c, fmt, r) ←
      (if c =? 94 then match r with [] => Err Fault | c' :: r' => Ok (1, c', r, r') end
       else Ok (0, c, fmt, r));
    let tab : gmap Z Z := list_to_map ((λ n, (n, v)) <$> all_chars) in
    if c =? 0 then Ok (fmt, tab) else
    let v := 1 - v in
    tab ← tab_set c v tab;
    doswitch c v r tab
  end.

Section Scanf.
Context `{Arch} (char_signed : bool).

(** The value of a [char]. *)
Definition char_value (b : Z) : Z := if char_signed && (127 <? b) then b - 256 else b.

(** [ *(T * )a = v] for an integer type of [w] bits. *)
Definition assign (w a v : Z) (s : scan) : res scan :=
  m ← stw (Z.to_nat (w / 8)) a (wrap w v) (mem s);
  Ok (set_mem m s).

(** The type of the destination of an integer conversion. *)
Definition int_width (flags : Z) : Z :=
  if flag flags POINTER then PTR_W
  else if flag flags SHORTSHORT then 8
  else if flag flags SHORT then 16
  else if flag flags LONG then PTR_W
  else if flag flags QUAD then 64
  else if flag flags INTMAXT then 64
  else if flag flags PTRDIFFT then PTR_W
  else if flag flags SIZET then PTR_W
  else 32.

(** %n *)
Definition scan_n (flags : Z) (s : scan) : res scan :=
  let s := count 0 1 s in
  if flag flags SUPPRESS then Ok s else
  let w :=
    if flag flags SHORTSHORT then 8
    else if flag flags SHORT then 16
    else if flag flags LONG then PTR_W
    else if flag flags QUAD then 64
    else if flag flags INTMAXT then 64
    else if flag flags SIZET then PTR_W
    else if flag flags PTRDIFFT then PTR_W
    else 32 in
  '(a, s) ← va_dst s;
  assign w a (nread s) s.

(** ** The directive *)

(** What the switch over the format leads to: the label [literal], [continue], or
    a conversion that requires input. *)
Inductive directive_t :=
| Literal (fmt : list Z) (s : scan)
| Continue (fmt : list Z) (s : scan)
| Convert (c flags width : Z) (fmt : list Z) (s : scan).

(** From the label [again] on. *)
Fixpoint again (flags width : Z) (fmt : list Z) (s : scan) : res directive_t :=
  match fmt with
  | [] => Err Fault
  | c :: fmt =>
    let int_conv flags b f := Ok (Convert CT_INT flags width fmt (set_conv b f s)) in
    if c =? 37 then Ok (Literal fmt s)                                (* % *)
    else if c =? 42 then again (Z.lor flags SUPPRESS) width fmt s     (* * *)
    else if c =? 106 then again (Z.lor flags INTMAXT) width fmt s     (* j *)
    else if c =? 108 then                                             (* l *)
      again (if flag flags LONG then Z.lor (Z.ldiff flags LONG) QUAD else Z.lor flags LONG) width fmt s
    else if c =? 113 then again (Z.lor flags QUAD) width fmt s        (* q *)
    else if c =? 116 then again (Z.lor flags PTRDIFFT) width fmt s    (* t *)
    else if c =? 122 then again (Z.lor flags SIZET) width fmt s       (* z *)
    else if c =? 104 then                                             (* h *)
      again (if flag flags SHORT then Z.lor (Z.ldiff flags SHORT) SHORTSHORT else Z.lor flags SHORT) width fmt s
    else if isdigit c then again flags (wrap PTR_W (width * 10 + c - 48)) fmt s
    else if c =? 100 then int_conv flags 10 Strtoq                    (* d *)
    else if c =? 105 then int_conv flags 0 Strtoq                     (* i *)
    else if c =? 111 then int_conv flags 8 Strtouq                    (* o *)
    else if c =? 117 then int_conv flags 10 Strtouq                   (* u *)
    else if c =? 120 then int_conv (Z.lor flags PFXOK) 16 Strtouq     (* x *)
    else if c =? 115 then Ok (Convert CT_STRING flags width fmt s)    (* s *)
    else if c =? 91 then                                              (* [ *)
      '(fmt, tab) ← __sccl fmt;
      Ok (Convert CT_CCL (Z.lor flags NOSKIP) width fmt (set_ccltab tab s))
    else if c =? 99 then Ok (Convert CT_CHAR (Z.lor flags NOSKIP) width fmt s)  (* c *)
    else if c =? 112 then int_conv (Z.lor flags (Z.lor POINTER PFXOK)) 16 Strtouq  (* p *)
    else if c =? 110 then s ← scan_n flags s; Ok (Continue fmt s)     (* n *)
    else Ok (Convert c flags width fmt s)
  end.

(** ** Conversions *)

Inductive outcome := Next (s : scan) | InputFailure (s : scan) | MatchFailure (s : scan).

Definition match_literal (c : Z) (s : scan) : res outcome :=
  if inr s <=? 0 then Ok (InputFailure s) else
  x ← cur s;
  if negb (char_value x =? c) then Ok (MatchFailure s) else Ok (Next (advance 1 1 s)).

(** CT_CHAR *)
Definition scan_chars (flags width : Z) (s : scan) : res outcome :=
  let width := if width =? 0 then 1 else width in
  if flag flags SUPPRESS then
    let n := inr s in
    if n <? width then
      Ok (Next (count 0 1 (set_input (inp s + n) (inr s) (nread s + n) s)))
    else Ok (Next (count 0 1 (advance width width s)))
  else
    '(p, s) ← va_dst s;
    m ← bcopy (inp s) p width (mem s);
    Ok (Next (count 1 1 (set_input (inp s + width) (s32 (inr s - width)) (nread s + width) (set_mem m s)))).

(** The loops of CT_CCL and CT_STRING: take characters while [test] holds, and
    store them from [p] on unless the assignment is suppressed.  [n] were taken
    before; [nread] is counted at the end. *)
Fixpoint take_loop (fuel : nat) (test : Z → res bool) (p : option Z) (width n : Z) (s : scan) : res (Z * scan) :=
  match fuel with
  | O => Err NoFuel
  | S fuel =>
    c ← cur s;
    t ← test c;
    if (t : bool) then
      s ← match p with Some p => m ← store (p + n) c (mem s); Ok (set_mem m s) | None => Ok s end;
      let s := advance 1 0 s in
      let width := wrap PTR_W (width - 1) in
      if width =? 0 then Ok (n + 1, s)
      else if inr s <=? 0 then Ok (n + 1, s)
      else take_loop fuel test p width (n + 1) s
    else Ok (n, s)
  end.

Definition infinity (width : Z) : Z := if width =? 0 then 2 ^ PTR_W - 1 else width.

Definition in_class (tab : gmap Z Z) (c : Z) : res bool := t ← load tab c; Ok (negb (t =? 0)).

(** CT_CCL *)
Definition scan_ccl (fuel : nat) (flags width : Z) (s : scan) : res outcome :=
  let width := infinity width in
  if flag flags SUPPRESS then
    '(n, s) ← take_loop fuel (in_class (ccltab s)) None width 0 s;
    if n =? 0 then Ok (MatchFailure s) else
    Ok (Next (count 0 1 (advance 0 n s)))
  else
    '(p, s) ← va_dst s;
    '(n, s) ← take_loop fuel (in_class (ccltab s)) (Some p) width 0 s;
    if n =? 0 then Ok (MatchFailure s) else
    m ← store (p + n) 0 (mem s);
    Ok (Next (count 1 1 (advance 0 n (set_mem m s)))).

(** CT_STRING *)
Definition scan_string (fuel : nat) (flags width : Z) (s : scan) : res outcome :=
  let width := infinity width in
  if flag flags SUPPRESS then
    '(n, s) ← take_loop fuel (λ c, Ok (negb (isspace c))) None width 0 s;
    Ok (Next (count 0 1 (advance 0 n s)))
  else
    '(p, s) ← va_dst s;
    '(n, s) ← take_loop fuel (λ c, Ok (negb (isspace c))) (Some p) width 0 s;
    m ← store (p + n) 0 (mem s);
    Ok (Next (count 1 1 (advance 0 n (set_mem m s)))).

(** *** Integers *)

(** basefix[] *)
Definition basefix (b : Z) : res Z :=
  if b =? 0 then Ok 10 else if (1 <=? b) && (b <=? 16) then Ok b else Err Fault.

(** The switch over a character of a number, [n] characters into it: is it
    accepted, and the new [base] and [flags]. *)
Definition int_char (c n base flags : Z) : res (bool * Z * Z) :=
  if c =? 48 then
    let '(base, flags) := if base =? 0 then (8, Z.lor flags PFXOK) else (base, flags) in
    let flags :=
      if flag flags NZDIGITS then Z.ldiff flags (Z.lor SIGNOK (Z.lor NZDIGITS NDIGITS))
      else Z.ldiff flags (Z.lor SIGNOK (Z.lor PFXOK NDIGITS)) in
    Ok (true, base, flags)
  else if (49 <=? c) && (c <=? 55) then
    base ← basefix base;
    Ok (true, base, Z.ldiff flags (Z.lor SIGNOK (Z.lor PFXOK NDIGITS)))
  else if (c =? 56) || (c =? 57) then
    base ← basefix base;
    if base <=? 8 then Ok (false, base, flags)
    else Ok (true, base, Z.ldiff flags (Z.lor SIGNOK (Z.lor PFXOK NDIGITS)))
  else if ((65 <=? c) && (c <=? 70)) || ((97 <=? c) && (c <=? 102)) then
    if base <=? 10 then Ok (false, base, flags)
    else Ok (true, base, Z.ldiff flags (Z.lor SIGNOK (Z.lor PFXOK NDIGITS)))
  else if (c =? 43) || (c =? 45) then
    if flag flags SIGNOK then Ok (true, base, Z.ldiff flags SIGNOK) else Ok (false, base, flags)
  else if (c =? 120) || (c =? 88) then
    if flag flags PFXOK && (n =? 1) then Ok (true, 16, Z.ldiff flags PFXOK) else Ok (false, base, flags)
  else Ok (false, base, flags).

(** [for (p = buf; width; width--)]: [p] is the number of characters in [buf]. *)
Fixpoint int_loop (width : nat) (p flags : Z) (buf : mem_t) (s : scan) : res (Z * Z * mem_t * scan) :=
  match width with
  | O => Ok (p, flags, buf, s)
  | S width =>
    c ← cur s;
    '(ok, b, flags) ← int_char (char_value c) p (base s) flags;
    let s := set_base b s in
    if (ok : bool) then
      buf ← store p c buf;
      if 0 <? inr s - 1 then int_loop width (p + 1) flags buf (advance 1 0 s)
      else Ok (p + 1, flags, buf, set_input (inp s) (inr s - 1) (nread s) s)
    else Ok (p, flags, buf, s)
  end.

(** The local buffer: BUF bytes. *)
Definition buf0 : mem_t := list_to_map ((λ i, (Z.of_nat i, 0)) <$> seq 0 (Z.to_nat BUF)).

(** [( *ccfn)(buf, NULL, base)] as a u_quad_t. *)
Definition call_ccfn (s : scan) (buf : mem_t) : res Z :=
  match ccfn s with
  | Some Strtoq => '(v, _) ← strtoq 0 (base s) buf; Ok (u64 v)
  | Some Strtouq => '(v, _) ← strtouq 0 (base s) buf; Ok v
  | None => Err Fault
  end.

(** CT_INT *)
Definition scan_int (flags width : Z) (s : scan) : res outcome :=
  let width := wrap PTR_W (width - 1) in
  let width := (if BUF - 2 <? width then BUF - 2 else width) + 1 in
  let flags := Z.lor flags (Z.lor SIGNOK (Z.lor NDIGITS NZDIGITS)) in
  '(p, flags, buf, s) ← int_loop (Z.to_nat width) 0 flags buf0 s;
  if flag flags NDIGITS then
    Ok (MatchFailure (if 0 <? p then advance (-1) 0 s else s))
  else
    c ← load buf (p - 1);
    let '(p, s) := if (c =? 120) || (c =? 88) then (p - 1, advance (-1) 0 s) else (p, s) in
    s ←
      (if flag flags SUPPRESS then Ok s
       else
         buf ← store p 0 buf;
         v ← call_ccfn s buf;
         '(a, s) ← va_dst s;
         s ← assign (int_width flags) a v s;
         Ok (count 1 0 s));
    Ok (Next (count 0 1 (set_input (inp s) (inr s) (nread s + p) s))).

(** ** vsscanf *)

Definition convert (fuel : nat) (c flags width : Z) (s : scan) : res outcome :=
  if inr s <=? 0 then Ok (InputFailure s) else
  '(ok, s) ← (if flag flags NOSKIP then Ok (true, s) else skip_lead fuel s);
  if negb (ok : bool) then Ok (InputFailure s)
  else if c =? CT_CHAR then scan_chars flags width s
  else if c =? CT_CCL then scan_ccl fuel flags width s
  else if c =? CT_STRING then scan_string fuel flags width s
  else if c =? CT_INT then scan_int flags width s
  else Ok (Next s).

Definition finish (o : outcome) : Z * mem_t :=
  match o with
  | Next s | MatchFailure s => (nassigned s, mem s)
  | InputFailure s => (if nconversions s =? 0 then -1 else nassigned s, mem s)
  end.

(** The loop over the format: the value returned and the memory.  A turn takes a
    character of the format at least, and a loop over the input one of the input. *)
Fixpoint scan_loop (fuel input : nat) (fmt : list Z) (s : scan) : res (Z * mem_t) :=
  match fuel with
  | O => Err NoFuel
  | S fuel =>
    let go fmt o := match o with Next s => scan_loop fuel input fmt s | _ => Ok (finish o) end in
    match fmt with
    | [] => Err Fault
    | c :: fmt =>
      if c =? 0 then Ok (nassigned s, mem s)
      else if isspace c then s ← skip_white input s; scan_loop fuel input fmt s
      else if negb (c =? 37) then o ← match_literal c s; go fmt o
      else
        d ← again 0 0 fmt s;
        match d with
        | Literal fmt s => o ← match_literal 37 s; go fmt o
        | Continue fmt s => scan_loop fuel input fmt s
        | Convert c flags width fmt s => o ← convert input c flags width s; go fmt o
        end
    end
  end.

Definition vsscanf (ibuf : Z) (fmt : list Z) (ap : list Z) (m : mem_t) : res (Z * mem_t) :=
  n ← strlen ibuf m;
  scan_loop (S (length fmt)) (scan_fuel m) fmt
    (Scan ibuf (s32 n) 0 0 0 0 None ∅ ap m).

Definition sscanf (ibuf : Z) (fmt : list Z) (ap : list Z) (m : mem_t) : res (Z * mem_t) := vsscanf ibuf fmt ap m.
End Scanf.
