(* ===== verification/ScanfTheorems.v ===== *)
(** * Theorems of formatted input

    What vsscanf reads back of what printf has written, and what a scanset accepts. *)

From S2P Require Import Prelude Freelist Memory StringScan StringTheorems Strto StrtoTheorems.
From S2P Require Import Printf PrintfStream PrintfText PrintfTheorems Scanf.
Local Open Scope Z_scope.

(** ** Bits of [flags] *)

Lemma flag_ldiff f x y : Z.ldiff x y = x → flag (Z.ldiff f y) x = flag f x.
Proof.
  intros E. unfold flag. do 2 f_equal. rewrite <- E. apply Z.bits_inj'. intros i Hi.
  rewrite !Z.land_spec, !Z.ldiff_spec. destruct (Z.testbit f i), (Z.testbit x i), (Z.testbit y i); done.
Qed.

Lemma flag_cleared f x y : Z.ldiff x y = 0 → flag (Z.ldiff f y) x = false.
Proof.
  intros E. unfold flag. replace (Z.land (Z.ldiff f y) x) with (Z.land f (Z.ldiff x y)); [by rewrite E, Z.land_0_r|].
  apply Z.bits_inj'. intros i Hi. rewrite !Z.land_spec, !Z.ldiff_spec.
  destruct (Z.testbit f i), (Z.testbit x i), (Z.testbit y i); done.
Qed.

Section Scanf.
Context `{Arch} (cs : bool).

(** [flags] after a digit of a number. *)
Definition got_digit (f0 f : Z) : Prop :=
  flag f SIGNOK = false ∧ flag f NDIGITS = false ∧ flag f SUPPRESS = flag f0 SUPPRESS ∧ int_width f = int_width f0.

Lemma got_digit_clear f0 f y : y = Z.lor SIGNOK (Z.lor NZDIGITS NDIGITS) ∨ y = Z.lor SIGNOK (Z.lor PFXOK NDIGITS) →
  flag f SUPPRESS = flag f0 SUPPRESS → int_width f = int_width f0 → got_digit f0 (Z.ldiff f y).
Proof.
  intros Hy E1 E2. unfold got_digit, int_width in *.
  destruct Hy as [-> | ->]; split_and!; try (by apply flag_cleared);
    rewrite !flag_ldiff by done; assumption.
Qed.

(** A digit of base 8, 10 or 16 is accepted. *)
Lemma int_char_digit f0 f d n b : b = 8 ∨ b = 10 ∨ b = 16 → 0 ≤ d < b →
  flag f SUPPRESS = flag f0 SUPPRESS → int_width f = int_width f0 →
  ∃ f', int_char (digit_char false d) n b f = Ok (true, b, f') ∧ got_digit f0 f'.
Proof.
  intros Hb Hd E1 E2.
  pose proof (got_digit_clear f0 f _ (or_introl eq_refl) E1 E2) as G1.
  pose proof (got_digit_clear f0 f _ (or_intror eq_refl) E1 E2) as G2.
  assert (d = 0 ∨ (d = 1 ∨ d = 2 ∨ d = 3 ∨ d = 4 ∨ d = 5 ∨ d = 6 ∨ d = 7) ∨ (8 ≤ d ∧ (b = 10 ∨ b = 16))) as HE by lia.
  assert (b ≠ 0) as Hb0 by lia. apply Z.eqb_neq in Hb0.
  assert (basefix b = Ok b) as HB by (destruct Hb as [-> | [-> | ->]]; done).
  destruct HE as [-> | [HE | [Hge Hb']]].
  - unfold int_char. cbn [digit_char Z.ltb Z.add]. change (digit_char false 0) with 48. cbn [Z.eqb Pos.eqb]. rewrite Hb0.
    destruct (flag f NZDIGITS); eexists; (split; [reflexivity|assumption]).
  - eexists. split; [|exact G2]. destruct_or! HE; subst d; unfold int_char;
      change (digit_char false ?x) with (x + 48); cbn -[Z.ldiff Z.lor basefix]; rewrite HB; reflexivity.
  - assert (d = 8 ∨ d = 9 ∨ (b = 16 ∧ (d = 10 ∨ d = 11 ∨ d = 12 ∨ d = 13 ∨ d = 14 ∨ d = 15))) as HE by lia.
    destruct HE as [-> | [-> | [-> HE]]].
    + destruct Hb' as [-> | ->]; eexists; (split; [reflexivity|exact G2]).
    + destruct Hb' as [-> | ->]; eexists; (split; [reflexivity|exact G2]).
    + destruct_or! HE; subst; eexists; (split; [reflexivity|exact G2]).
Qed.

(** What ends a number: not a letter, not a digit. *)
Definition stops (l : list Z) : Prop :=
  match l with [] => True | c :: _ => isdigit c = false ∧ isalpha c = false end.

Lemma int_char_stops f c n b : flag f SIGNOK = false → isdigit c = false → isalpha c = false →
  int_char c n b f = Ok (false, b, f).
Proof.
  unfold isalpha, isupper, islower, isdigit, int_char. intros HS H1 H2. rewrite HS.
  assert ((c =? 48) = false) as -> by lia. assert ((49 <=? c) && (c <=? 55) = false) as -> by lia.
  assert ((c =? 56) || (c =? 57) = false) as -> by lia.
  assert ((65 <=? c) && (c <=? 70) || (97 <=? c) && (c <=? 102) = false) as -> by lia.
  assert ((c =? 120) || (c =? 88) = false) as -> by lia. by destruct ((c =? 43) || (c =? 45)).
Qed.

(** ** The input *)

(** [l] is what is left of the input, whose NUL is at [e].  At its end [inp] may lag
    behind. *)
Definition ahead (e : Z) (s : scan) (l : list Z) : Prop :=
  inr s = Z.of_nat (length l) ∧ (l ≠ [] → cstr (mem s) (inp s) l ∧ inp s + Z.of_nat (length l) = e).

Lemma ahead_cur e s c l : ahead e s (c :: l) → cur s = Ok c ∧ 0 < c < 256.
Proof. intros [_ Hc]. destruct (Hc ltac:(done)) as [(E & Hr & _) _]. split; [by apply load_Some|done]. Qed.

Lemma ahead_next e s c l n : ahead e s (c :: l) → ahead e (advance 1 n s) l.
Proof.
  intros [Hi Hc]. destruct (Hc ltac:(done)) as [(_ & _ & H2) He]. split; [cbn in *; lia|]. intros _.
  split; [exact H2|]. cbn in *. lia.
Qed.

(** *** The buffer of a number *)

(** [pre] is in the buffer. *)
Definition buffered (buf : mem_t) (pre : list Z) : Prop :=
  mapped buf 0 32 ∧ (∀ i c, pre !! i = Some c → buf !! Z.of_nat i = Some c).

Lemma buffered_nil : buffered buf0 [].
Proof.
  split; [|done]. intros x Hx.
  assert (∀ i, (i < 32)%nat → is_Some (buf0 !! Z.of_nat i)) as HB.
  { intros i Hi. do 32 (destruct i as [|i]; [vm_compute; eauto|]). lia. }
  rewrite <- (Z2Nat.id x) by lia. apply HB. lia.
Qed.

Lemma buffered_snoc buf pre c : buffered buf pre → (length pre < 32)%nat →
  ∃ buf', store (Z.of_nat (length pre)) c buf = Ok buf' ∧ buffered buf' (pre ++ [c]).
Proof.
  intros [Hm Hb] Hl. exists (<[Z.of_nat (length pre) := c]> buf). split; [apply store_ok, Hm; lia|].
  split; [by apply mapped_insert|]. intros i x Hx. apply lookup_app_Some in Hx as [Hx|[Hge Hx]].
  - apply lookup_lt_Some in Hx as Hlt. rewrite lookup_insert_ne by lia. by apply Hb.
  - destruct (i - length pre)%nat eqn:E; [|done]. injection Hx as <-.
    replace i with (length pre) by lia. by rewrite lookup_insert_eq.
Qed.

Lemma buffered_last buf pre c : buffered buf (pre ++ [c]) → load buf (Z.of_nat (length pre)) = Ok c.
Proof. intros [_ Hb]. apply load_Some, Hb. by rewrite lookup_app_r, Nat.sub_diag by lia. Qed.

Lemma buffered_cstr buf pre : buffered buf pre → (length pre < 32)%nat → Forall (λ c, 0 < c < 256) pre →
  ∃ buf', store (Z.of_nat (length pre)) 0 buf = Ok buf' ∧ cstr buf' 0 pre.
Proof.
  intros Hb Hl HF. destruct (buffered_snoc buf pre 0 Hb Hl) as (buf' & E & _ & Hb'). exists buf'. split; [done|].
  apply bytes_cstr; [done|]. intros i c Hi. rewrite Z.add_0_l, (Hb' i c Hi). f_equal. symmetry. apply wrap_small.
  apply lookup_app_Some in Hi as [Hi|[_ Hi]].
  - rewrite Forall_forall in HF. apply list_elem_of_lookup_2, HF in Hi. change (2 ^ 8) with 256. lia.
  - destruct (i - length pre)%nat; [by injection Hi as <-|done].
Qed.

(** *** The digits *)

Lemma char_value_small c : 0 < c < 128 → char_value cs c = c.
Proof. intros Hc. unfold char_value. destruct (Z.ltb_spec 127 c); [lia|]. by rewrite andb_false_r. Qed.

(** An ASCII text that [stops] a number, or the end. *)
Definition ascii_head (l : list Z) : Prop := match l with [] => True | c :: _ => c < 128 end.

Lemma int_loop_digits e b f0 : b = 8 ∨ b = 10 ∨ b = 16 → ∀ ds width pre f buf s rest,
  Forall (λ d, 0 ≤ d < b) ds → stops rest → ascii_head rest →
  (length ds < width)%nat → (length pre + length ds < 32)%nat → buffered buf pre → base s = b →
  ahead e s ((digit_char false <$> ds) ++ rest) →
  flag f SUPPRESS = flag f0 SUPPRESS → int_width f = int_width f0 →
  (ds ≠ [] ∨ (rest ≠ [] ∧ got_digit f0 f)) →
  ∃ f' buf' i, int_loop cs width (Z.of_nat (length pre)) f buf s =
      Ok (Z.of_nat (length pre + length ds), f', buf', set_input i (Z.of_nat (length rest)) (nread s) s) ∧
    got_digit f0 f' ∧ buffered buf' (pre ++ (digit_char false <$> ds)) ∧
    ahead e (set_input i (Z.of_nat (length rest)) (nread s) s) rest.
Proof.
  intros Hb. induction ds as [|d ds IH]; intros width pre f buf s rest HF Hst Has Hw Hl HB Hbase Ha E1 E2 Hor.
  - destruct Hor as [?|[Hne Hg]]; [done|]. destruct width as [|width]; [cbn in Hw; lia|].
    destruct rest as [|c rest]; [done|]. cbn [fmap list_fmap app] in Ha.
    destruct (ahead_cur _ _ _ _ Ha) as [Ec Hc]. cbn [int_loop]. rewrite Ec, Ok_bind, char_value_small by (cbn in Has; lia).
    destruct Hst as [H1 H2]. rewrite (int_char_stops f c _ _ (proj1 Hg) H1 H2), Ok_bind. cbv beta iota.
    exists f, buf, (inp s). rewrite Nat.add_0_r, app_nil_r, Hbase.
    replace (set_base b s) with (set_input (inp s) (Z.of_nat (length (c :: rest))) (nread s) s).
    2:{ destruct Ha as [Hi _]. destruct s. cbn in *. by subst. }
    split_and!; [done|done|done|]. split; [done|apply Ha].
  - destruct width as [|width]; [lia|]. apply Forall_cons in HF as [Hd HF]. cbn [fmap list_fmap app length] in *.
    destruct (ahead_cur _ _ _ _ Ha) as [Ec Hc].
    destruct (digit_char_spec false b d Hd ltac:(lia)) as (_ & Hch & _).
    destruct (int_char_digit f0 f d (Z.of_nat (length pre)) b Hb Hd E1 E2) as (f' & Ef & Hg).
    cbn [int_loop]. rewrite Ec, Ok_bind, char_value_small, Hbase, Ef, Ok_bind by done. cbv beta iota.
    destruct (buffered_snoc buf pre (digit_char false d) HB ltac:(lia)) as (buf' & Es & HB').
    rewrite Es, Ok_bind. replace (set_base b s) with s by (destruct s; cbn in *; by subst).
    pose proof (ahead_next e s _ _ 0 Ha) as Hn.
    assert (inr s = Z.of_nat (S (length ((digit_char false <$> ds) ++ rest)))) as Ei by apply Ha.
    destruct (Z.ltb_spec 0 (inr s - 1)) as [Hlt|Hge].
    + destruct (IH width (pre ++ [digit_char false d]) f' buf' (advance 1 0 s) rest) as (f2 & b2 & i & E & G & HB2 & Ha2);
        rewrite ?length_app; cbn [length]; try done || lia; [apply Hg|apply Hg| |].
      { destruct ds; [right|by left]. split; [|done]. intros ->. cbn in Ei. lia. }
      rewrite length_app in E. cbn [length] in E. replace (Z.of_nat (length pre + 1)) with (Z.of_nat (length pre) + 1) in E by lia.
      exists f2, b2, i. rewrite E. rewrite <- app_assoc in HB2. destruct s. cbn in *. rewrite Z.add_0_r in *.
      split_and!; try done. do 4 f_equal. lia.
    + assert (ds = [] ∧ rest = []) as [-> ->].
      { rewrite length_app, length_fmap in Ei. destruct ds, rest; cbn in *; first [done|lia]. }
      exists f', buf', (inp s). cbn [length fmap list_fmap] in *. rewrite Ei.
      replace (Z.of_nat (length pre + 1)) with (Z.of_nat (length pre) + 1) by lia.
      split_and!; [done|done|done|]. split; [done|intros []; done].
Qed.

(** *** A whole number *)

Definition number_chars (neg : bool) (ds : list Z) : list Z := (if neg then [45] else []) ++ (digit_char false <$> ds).

Lemma number_chars_range neg b ds : b ≤ 36 → Forall (λ d, 0 ≤ d < b) ds → Forall (λ c, 0 < c < 256) (number_chars neg ds).
Proof.
  intros Hb HF. apply Forall_app. split; [destruct neg; [apply Forall_cons; split; [lia|done]|done]|]. apply Forall_fmap.
  eapply Forall_impl; [exact HF|]. intros d Hd. unfold compose. cbv beta. destruct (digit_char_spec false b d Hd Hb) as (_ & Hc & _). lia.
Qed.

(** The call of strtoq or strtouq on the buffer. *)
Lemma call_ccfn_ok fn b neg ds buf s : 2 ≤ b ≤ 36 → ds ≠ [] → Forall (λ d, 0 ≤ d < b) ds →
  cstr buf 0 (number_chars neg ds) → base s = b → ccfn s = Some fn →
  let x := if neg then - horner b ds else horner b ds in
  match fn with Strtoq => - 2 ^ 63 ≤ x < 2 ^ 63 | Strtouq => neg = false ∧ x < 2 ^ 64 end →
  call_ccfn s buf = Ok (u64 x).
Proof.
  intros Hb Hne HF Hc Eb Ef x Hx. unfold call_ccfn. rewrite Ef, Eb.
  assert (legal_base b) as Hlb by (right; lia).
  pose proof (numeral_printed false b ds neg Hb Hne HF) as HN. fold (number_chars neg ds) in HN.
  destruct fn.
  - pose proof (strtol_ok 64 buf 0 b (number_chars neg ds) ltac:(lia) Hc Hlb) as HS. rewrite HN in HS.
    rewrite (strtoq_strtol buf 0 b _ Hc Hlb), HS, Ok_bind. cbv beta iota. f_equal. f_equal. fold x.
    unfold clamp. change (64 - 1) with 63. lia.
  - destruct Hx as [-> Hx]. pose proof (strtoul_ok 64 buf 0 b (number_chars false ds) ltac:(lia) Hc Hlb) as HS.
    rewrite HN in HS. rewrite (strtouq_strtoul buf 0 b _ Hc Hlb), HS, Ok_bind. cbv beta iota. f_equal.
    unfold x in *. destruct (Z.leb_spec (2 ^ 64) (horner b ds)); [lia|done].
Qed.

Lemma last_digit neg b ds : ds ≠ [] → Forall (λ d, 0 ≤ d < b) ds → b ≤ 16 →
  ∃ pre c, number_chars neg ds = pre ++ [c] ∧ c ≠ 120 ∧ c ≠ 88.
Proof.
  intros Hne HF Hb. destruct ds as [|d ds _] using rev_ind; [done|]. apply Forall_app in HF as [_ HF].
  apply Forall_cons in HF as [Hd _]. exists (number_chars neg ds), (digit_char false d). split.
  - unfold number_chars. by rewrite fmap_app, app_assoc.
  - destruct (digit_char_spec false b d Hd ltac:(lia)) as (_ & _ & _ & _ & _ & Hx). by apply Hx.
Qed.

(** The flags with which the loop starts. *)
Definition int_flags (fl : Z) : Z := Z.lor fl (Z.lor SIGNOK (Z.lor NDIGITS NZDIGITS)).
Definition plain_flags (fl : Z) : Prop :=
  flag fl SUPPRESS = false ∧ flag (int_flags fl) SIGNOK = true ∧ flag (int_flags fl) SUPPRESS = false ∧
  int_width (int_flags fl) = int_width fl.

Lemma set_input_id s i r n s' : s' = set_input i r n s → inp s' = i ∧ inr s' = r ∧ nread s' = n ∧ mem s' = mem s ∧
  nassigned s' = nassigned s ∧ nconversions s' = nconversions s ∧ base s' = base s ∧ ccfn s' = ccfn s ∧ ap s' = ap s.
Proof. by intros ->. Qed.

Lemma int_loop_succ width p fl buf s c b f' : cur s = Ok c → int_char (char_value cs c) p (base s) fl = Ok (true, b, f') →
  0 < inr s - 1 →
  int_loop cs (S width) p fl buf s = (buf ← store p c buf; int_loop cs width (p + 1) f' buf (advance 1 0 (set_base b s))).
Proof.
  intros Ec Ei Hr. cbn [int_loop]. rewrite Ec, Ok_bind, Ei, Ok_bind. cbv beta iota.
  change (inr (set_base b s)) with (inr s). by rewrite (proj2 (Z.ltb_lt _ _) Hr).
Qed.

(** The loop over sign and digits. *)
Lemma int_loop_number e b neg ds fl s rest : b = 8 ∨ b = 10 ∨ b = 16 → ds ≠ [] →
  Forall (λ d, 0 ≤ d < b) ds → (length ds ≤ 29)%nat → stops rest → ascii_head rest → plain_flags fl → base s = b →
  ahead e s (number_chars neg ds ++ rest) →
  ∃ f' buf' i n, int_loop cs 31 0 (int_flags fl) buf0 s =
      Ok (Z.of_nat (length (number_chars neg ds)), f', buf', set_input i (Z.of_nat (length rest)) n s) ∧
    got_digit (int_flags fl) f' ∧ buffered buf' (number_chars neg ds) ∧
    ahead e (set_input i (Z.of_nat (length rest)) n s) rest.
Proof.
  intros Hb Hne HF Hl Hst Has (F1 & F2 & F3 & F4) Eb Ha. unfold number_chars in *. destruct neg; cbn [app] in *.
  - destruct (ahead_cur _ _ _ _ Ha) as [Ec _].
    assert (int_char (char_value cs 45) 0 (base s) (int_flags fl) = Ok (true, base s, Z.ldiff (int_flags fl) SIGNOK)) as Ei.
    { rewrite char_value_small by lia. unfold int_char.
      cbn [Z.eqb Pos.eqb Z.leb Z.compare Pos.compare Pos.compare_cont andb orb CompOpp]. by rewrite F2. }
    pose proof (ahead_next e s _ _ 0 Ha) as Hn.
    assert (0 < inr s - 1) as Hi.
    { destruct Ha as [-> _]. cbn [length]. rewrite length_app, length_fmap. destruct ds; [done|cbn; lia]. }
    destruct (buffered_snoc buf0 [] 45 buffered_nil ltac:(cbn; lia)) as (buf & Es & HB).
    change (Z.of_nat (length [])) with 0 in Es.
    rewrite (int_loop_succ 30 _ _ _ _ _ _ _ Ec Ei Hi), Es, Ok_bind.
    replace (set_base (base s) s) with s by (by destruct s).
    assert (flag (Z.ldiff (int_flags fl) SIGNOK) SUPPRESS = flag (int_flags fl) SUPPRESS) as E1 by (by rewrite flag_ldiff).
    assert (int_width (Z.ldiff (int_flags fl) SIGNOK) = int_width (int_flags fl)) as E2
      by (unfold int_width; by rewrite !flag_ldiff by done).
    destruct (int_loop_digits e b (int_flags fl) Hb ds 30 [45] (Z.ldiff (int_flags fl) SIGNOK) buf (advance 1 0 s) rest
      HF Hst Has ltac:(lia) ltac:(cbn; lia) HB Eb Hn E1 E2 (or_introl Hne)) as (f' & b' & i & E & G & HB' & Ha').
    change (Z.of_nat (length [45])) with (0 + 1) in E. rewrite E. exists f', b', i, (nread s + 0).
    cbn [length]. rewrite length_fmap. split_and!; done.
  - destruct (int_loop_digits e b (int_flags fl) Hb ds 31 [] (int_flags fl) buf0 s rest
      HF Hst Has ltac:(lia) ltac:(cbn; lia) buffered_nil Eb Ha eq_refl eq_refl (or_introl Hne))
      as (f' & b' & i & E & G & HB' & Ha').
    exists f', b', i, (nread s). rewrite length_fmap. split_and!; done.
Qed.

Lemma width_31 : Z.to_nat ((if BUF - 2 <? wrap PTR_W (0 - 1) then BUF - 2 else wrap PTR_W (0 - 1)) + 1) = 31%nat.
Proof. destruct arch_ok as [-> | ->]; vm_compute; reflexivity. Qed.

(** A conversion without a width reads a number and stores its value. *)
Lemma scan_int_ok e b fn neg ds fl s rest a l m' : b = 8 ∨ b = 10 ∨ b = 16 → ds ≠ [] →
  Forall (λ d, 0 ≤ d < b) ds → (length ds ≤ 29)%nat → stops rest → ascii_head rest → plain_flags fl →
  base s = b → ccfn s = Some fn → ap s = a :: l → ahead e s (number_chars neg ds ++ rest) →
  let x := if neg then - horner b ds else horner b ds in
  match fn with Strtoq => - 2 ^ 63 ≤ x < 2 ^ 63 | Strtouq => neg = false ∧ x < 2 ^ 64 end →
  stw (Z.to_nat (int_width fl / 8)) a (wrap (int_width fl) (u64 x)) (mem s) = Ok m' →
  ∃ s', scan_int cs fl 0 s = Ok (Next s') ∧ mem s' = m' ∧ nassigned s' = nassigned s + 1 ∧ ap s' = l ∧
    ahead e (set_mem (mem s) s') rest.
Proof.
  intros Hb Hne HF Hl Hst Has Hpf Eb Ef Eap Ha x Hx Em.
  destruct (int_loop_number e b neg ds fl s rest Hb Hne HF Hl Hst Has Hpf Eb Ha) as (f' & buf & i & n & E & G & HB & Ha').
  unfold scan_int. rewrite width_31. fold (int_flags fl). rewrite E, Ok_bind. cbv beta iota.
  destruct G as (_ & -> & G3 & G4). destruct Hpf as (F1 & _ & F3 & F4). rewrite F3 in G3. rewrite F4 in G4.
  destruct (last_digit neg b ds Hne HF ltac:(lia)) as (pre & c & Epc & Hc1 & Hc2).
  assert (Z.of_nat (length (number_chars neg ds)) - 1 = Z.of_nat (length pre)) as El.
  { rewrite Epc, length_app. cbn. lia. }
  rewrite El. rewrite (buffered_last buf pre c) by (by rewrite <- Epc). rewrite Ok_bind.
  replace ((c =? 120) || (c =? 88)) with false by lia. cbv iota. rewrite G3.
  destruct (buffered_cstr buf (number_chars neg ds) HB) as (buf' & Es & Hcs).
  { unfold number_chars. rewrite length_app, length_fmap. destruct neg; cbn; lia. }
  { apply (number_chars_range _ b); [lia|done]. }
  rewrite Es, Ok_bind. set (s1 := set_input i (Z.of_nat (length rest)) n s) in *.
  rewrite (call_ccfn_ok fn b neg ds buf' s1) by (done || lia). rewrite Ok_bind. fold x.
  unfold va_dst. change (ap s1) with (ap s). rewrite Eap, Ok_bind. cbv beta iota. unfold assign. rewrite G4.
  change (mem (set_ap l s1)) with (mem s). rewrite Em, !Ok_bind.
  eexists. split; [reflexivity|]. split_and!; [reflexivity|exact (Z.add_0_r _)|reflexivity|].
  destruct Ha' as [H1 H2]. split; [exact H1|exact H2].
Qed.

(** ** Formats that printf and scanf share *)

(** A number with its length modifier, conversion and value, or a character. *)
Inductive field := FNum (l : lenmod) (c : iconv) (v : Z) | FChr (c : Z).

Definition item_of (f : field) : item :=
  match f with FNum l c v => TInt false false false [] None l c v | FChr c => TChar c end.

Definition format_of (fs : list field) : list Z := concat (show <$> (item_of <$> fs)).
Definition text_of (fs : list field) : list Z := concat (render PTR_W cs <$> (item_of <$> fs)).
Definition args_of (fs : list field) : list arg := concat (args PTR_W <$> (item_of <$> fs)).

(** A number ends at the end of the format or at a character that is no letter and
    no digit; scanf does not know %X. *)
Fixpoint separated (fs : list field) : Prop :=
  match fs with
  | [] => True
  | FChr c :: fs => 0 < c < 128 ∧ c ≠ 37 ∧ separated fs
  | FNum l c v :: fs =>
    c ≠ CX ∧ (c = Cd → value PTR_W cs l c v ≠ - 2 ^ 63) ∧
    match fs with [] => True | FChr c :: _ => isdigit c = false ∧ isalpha c = false | FNum _ _ _ :: _ => False end ∧
    separated fs
  end.

Definition dst_width (l : lenmod) : Z :=
  match l with Lnone => 32 | Lhh => 8 | Lh => 16 | Ll | Lz | Lt => PTR_W | Lll | Lj => 64 end.

(** The values of the numbers are stored at the addresses, in order. *)
Fixpoint assigned (fs : list field) (ds : list Z) (m : mem_t) : res mem_t :=
  match fs, ds with
  | [], _ => Ok m
  | FChr _ :: fs, _ => assigned fs ds m
  | FNum l _ v :: fs, a :: ds => m ← stw (Z.to_nat (dst_width l / 8)) a (wrap (dst_width l) v) m; assigned fs ds m
  | FNum _ _ _ :: _, [] => Err Fault
  end.

(** The destinations do not touch [lo, hi]. *)
Fixpoint apart (lo hi : Z) (fs : list field) (ds : list Z) : Prop :=
  match fs, ds with
  | FChr _ :: fs, _ => apart lo hi fs ds
  | FNum l _ _ :: fs, a :: ds => (a + dst_width l / 8 ≤ lo ∨ hi < a) ∧ apart lo hi fs ds
  | _, _ => True
  end.

Fixpoint nums (fs : list field) : Z :=
  match fs with [] => 0 | FChr _ :: fs => nums fs | FNum _ _ _ :: fs => 1 + nums fs end.

(** *** One number *)

Lemma ndigits_length fuel b k : 2 ≤ b → ∀ n, 0 ≤ n < b ^ Z.of_nat (S k) → (length (ndigits fuel b n) ≤ S k)%nat.
Proof.
  intros Hb. revert k. induction fuel as [|fuel IH]; intros k n Hn; [cbn; lia|]. cbn [ndigits]. rewrite length_app.
  cbn [length]. destruct (Z.eqb_spec (n / b) 0) as [E|E]; [cbn; lia|].
  destruct k as [|k].
  - exfalso. apply E. apply Z.div_small. change (Z.of_nat 1) with 1 in Hn. by rewrite Z.pow_1_r in Hn.
  - assert (length (ndigits fuel b (n / b)) ≤ S k)%nat; [|lia]. apply IH. split; [apply Z.div_pos; lia|].
    apply Z.div_lt_upper_bound; [lia|]. rewrite <- Z.pow_succ_r by lia. replace (Z.succ _) with (Z.of_nat (S (S k))) by lia. lia.
Qed.

Lemma ndigits_spec b n : 2 ≤ b ≤ 36 → 0 ≤ n < 2 ^ 64 →
  ndigits 64 b n ≠ [] ∧ Forall (λ d, 0 ≤ d < b) (ndigits 64 b n) ∧ horner b (ndigits 64 b n) = n.
Proof.
  intros Hb Hn.
  destruct (ksprintn_loop_ok b false Hb 64 0 n nbuf0 []) as (ds & m' & _ & _ & Hh & Hl & HF & HN & _); [done|lia| |vm_compute; reflexivity|].
  - apply (mapped_sub _ _ _ _ _ nbuf0_mapped); lia.
  - rewrite <- HN. split_and!; [by destruct ds; cbn in Hl; [lia|]|done|done].
Qed.

Definition fn_of (c : iconv) : ccfn_t := match c with Cd => Strtoq | _ => Strtouq end.

Lemma base_cases c : base_of c = 8 ∨ base_of c = 10 ∨ base_of c = 16.
Proof. destruct c; auto. Qed.

Lemma num_text l c v : c ≠ CX →
  let x := value PTR_W cs l c v in
  render PTR_W cs (item_of (FNum l c v)) = number_chars (x <? 0) (ndigits 64 (base_of c) (Z.abs x)).
Proof.
  intros Hc x. cbn [item_of render]. fold x. replace (is_upper c) with false by (by destruct c).
  unfold number_text, in_field, number_chars, zeros. cbn [andb horner foldl default from_option].
  set (neg := if x <? 0 then [45] else []). set (ds := digit_char false <$> _).
  rewrite app_nil_r. change (horner 10 []) with 0.
  replace (Z.to_nat (0 - Z.of_nat (length ds))) with 0%nat by lia. cbn [replicate app].
  by replace (Z.to_nat (0 - Z.of_nat (length (neg ++ ds)))) with 0%nat by lia.
Qed.

Lemma wrap_swrap a b z : 0 ≤ a ≤ b → 0 < b → wrap a (swrap b z) = wrap a z.
Proof.
  intros Ha Hb. unfold swrap. pose proof (wrap_wrap a b (z + 2 ^ (b - 1)) ltac:(lia)) as E. unfold wrap in *.
  by rewrite Zminus_mod, E, <- Zminus_mod, Z.add_simpl_r.
Qed.

(** The value that is printed and read back is the argument's in the type of the
    destination. *)
Lemma stored_value l c v : wrap (dst_width l) (u64 (value PTR_W cs l c v)) = wrap (dst_width l) v.
Proof.
  pose proof arch_ok as Hw.
  assert (0 < dst_width l ≤ 64) as Hd by (destruct l; cbn [dst_width]; destruct Hw as [Hw|Hw]; lia).
  rewrite wrap_wrap by lia.
  assert (∀ b, u8 (char_of cs b) = u8 b) as H8.
  { intros b. unfold char_of. destruct (cs && _); [|done]. unfold wrap. change (2 ^ 8) with 256.
    replace (b - 256) with (b + (-1) * 256) by lia. by rewrite Z_mod_plus_full. }
  destruct l, c; cbn [value dst_width bits]; rewrite ?H8, ?wrap_wrap, ?wrap_swrap, ?wrap_wrap, ?wrap_swrap;
    try reflexivity; destruct Hw as [Hw|Hw]; lia.
Qed.

(** *** The directive of a number *)

Definition num_flags (l : lenmod) (c : iconv) : Z :=
  Z.lor match l with
        | Lnone => 0 | Lhh => SHORTSHORT | Lh => SHORT | Ll => LONG | Lll => QUAD | Lj => INTMAXT | Lz => SIZET | Lt => PTRDIFFT
        end (match c with Cx => PFXOK | _ => 0 end).

Lemma again_num l c rest s : c ≠ CX →
  again 0 0 (show_len l ++ show_conv c :: rest) s =
    Ok (Convert CT_INT (num_flags l c) 0 rest (set_conv (base_of c) (fn_of c) s)).
Proof. intros Hc. destruct c; [| | | |done]; destruct l; reflexivity. Qed.

Lemma num_flags_plain l c : plain_flags (num_flags l c) ∧ int_width (num_flags l c) = dst_width l ∧
  flag (num_flags l c) NOSKIP = false.
Proof. unfold plain_flags. destruct l, c; split_and!; reflexivity. Qed.

(** Storing leaves the rest of the memory alone. *)
Lemma stn_frame k : ∀ a v m m', stn k a v m = Ok m' → ∀ x, ¬ (a ≤ x < a + Z.of_nat k) → m' !! x = m !! x.
Proof.
  induction k as [|k IH]; intros a v m m' E x Hx; cbn [stn] in E; [by injection E as <-|].
  apply bind_inv in E as (m1 & E1 & E). rewrite (IH _ _ _ _ E) by lia. unfold store in E1.
  destruct (m !! a); [|done]. injection E1 as <-. apply lookup_insert_ne. lia.
Qed.

Lemma ahead_frame e s m' l : ahead e s l → (∀ a, e - Z.of_nat (length l) ≤ a ≤ e → m' !! a = mem s !! a) →
  ahead e (set_mem m' s) l.
Proof.
  intros [H1 H2] HF. split; [done|]. intros Hne. destruct (H2 Hne) as [Hc He]. split; [|done].
  apply (cstr_frame (mem s)); [|done]. intros a Ha. apply HF. cbn in Ha. lia.
Qed.

Lemma digit_value_bounds l c v : let x := value PTR_W cs l c v in
  0 ≤ Z.abs x < 2 ^ 64 ∧ match fn_of c with Strtoq => - 2 ^ 63 ≤ x < 2 ^ 63 | Strtouq => (x <? 0) = false ∧ x < 2 ^ 64 end.
Proof.
  intros x. destruct (value_range PTR_W cs arch_ok l c v) as (H1 & H2 & H3). fold x in H1, H2, H3.
  change (2 ^ 63) with 9223372036854775808 in *. change (2 ^ 64) with 18446744073709551616 in *. split; [lia|].
  destruct c; cbn [fn_of]; first [specialize (H2 eq_refl); lia|specialize (H3 ltac:(done)); lia].
Qed.

Lemma number_chars_head neg ds b : ds ≠ [] → Forall (λ d, 0 ≤ d < b) ds → b ≤ 36 →
  ∃ c l, number_chars neg ds = c :: l ∧ isspace c = false.
Proof.
  intros Hne HF Hb. destruct ds as [|d ds]; [done|]. apply Forall_cons in HF as [Hd _].
  destruct (digit_char_spec false b d Hd Hb) as (_ & _ & Hs & _).
  destruct neg; eexists _, _; by split.
Qed.

Lemma convert_num e l c v s rest a ds m' input : c ≠ CX → stops rest → ascii_head rest →
  base s = base_of c → ccfn s = Some (fn_of c) → ap s = a :: ds →
  ahead e s (render PTR_W cs (item_of (FNum l c v)) ++ rest) → (0 < input)%nat →
  stw (Z.to_nat (dst_width l / 8)) a (wrap (dst_width l) v) (mem s) = Ok m' →
  ∃ s', convert cs input CT_INT (num_flags l c) 0 s = Ok (Next s') ∧ mem s' = m' ∧ nassigned s' = nassigned s + 1 ∧
    ap s' = ds ∧ ahead e (set_mem (mem s) s') rest.
Proof.
  intros Hc Hst Has Eb Ef Ea Hah Hin Em. set (x := value PTR_W cs l c v).
  destruct (digit_value_bounds l c v) as [Hx Hfn]. fold x in Hx, Hfn.
  pose proof (base_cases c) as Hbc.
  destruct (ndigits_spec (base_of c) (Z.abs x)) as (Hne & HF & Hh); [lia|done|].
  rewrite num_text in Hah by done. fold x in Hah. set (dg := ndigits 64 (base_of c) (Z.abs x)) in *.
  assert (length dg ≤ 29)%nat as Hl.
  { assert (length dg ≤ 22)%nat; [|lia]. apply (ndigits_length 64 (base_of c) 21); [lia|].
    assert (2 ^ 64 ≤ base_of c ^ Z.of_nat 22) by (destruct Hbc as [-> | [-> | ->]]; vm_compute; discriminate). lia. }
  destruct (number_chars_head (x <? 0) dg _ Hne HF ltac:(lia)) as (c0 & l0 & E0 & Hs0).
  destruct (num_flags_plain l c) as (Hpf & Hiw & Hns).
  unfold convert. pose proof Hah as [Hi _].
  assert (0 < inr s) as Hr by (rewrite Hi, E0; cbn; lia).
  destruct (Z.leb_spec (inr s) 0); [lia|]. rewrite Hns. destruct input as [|input]; [lia|]. cbn [skip_lead].
  destruct (ahead_cur e s c0 (l0 ++ rest)) as [Ec _]; [by rewrite E0 in Hah|].
  rewrite Ec, Ok_bind, Hs0, Ok_bind. cbv beta iota. cbn [negb].
  assert ((if x <? 0 then - horner (base_of c) dg else horner (base_of c) dg) = x) as Ex.
  { rewrite Hh. destruct (Z.ltb_spec x 0); lia. }
  destruct (scan_int_ok e (base_of c) (fn_of c) (x <? 0) dg (num_flags l c) s rest a ds m')
    as (s' & E & ?); try done; rewrite ?Ex, ?Hiw; try done.
  - by rewrite <- (stored_value l c v) in Em.
  - exists s'. by split.
Qed.

(** *** Characters *)

Lemma skip_white_ok e : ∀ l fuel s, ahead e s l → (length l < fuel)%nat →
  ∃ s', skip_white fuel s = Ok s' ∧ ahead e s' (drop_space l) ∧ mem s' = mem s ∧ nassigned s' = nassigned s ∧ ap s' = ap s.
Proof.
  induction l as [|c l IH]; intros fuel s Ha Hf; (destruct fuel as [|fuel]; [cbn in Hf; lia|]); cbn [skip_white].
  - pose proof Ha as [Hi _]. rewrite Hi. cbn [length Z.of_nat Z.ltb Z.compare]. by exists s.
  - destruct (ahead_cur _ _ _ _ Ha) as [Ec _]. assert (inr s = Z.of_nat (length (c :: l))) as Hi by apply Ha.
    destruct (Z.ltb_spec 0 (inr s)); [|cbn in Hi; lia]. rewrite Ec, Ok_bind. cbn [drop_space].
    destruct (isspace c); [|by exists s].
    destruct (IH fuel (advance 1 1 s) (ahead_next _ _ _ _ _ Ha) ltac:(cbn in Hf; lia)) as (s' & E & A & E1 & E2 & E3).
    exists s'. by split_and!.
Qed.

Lemma literal_ok e c l s : ahead e s (c :: l) → c < 128 →
  match_literal cs c s = Ok (Next (advance 1 1 s)).
Proof.
  intros Ha Hc. destruct (ahead_cur _ _ _ _ Ha) as [Ec Hr]. unfold match_literal.
  assert (inr s = Z.of_nat (length (c :: l))) as Hi by apply Ha.
  destruct (Z.leb_spec (inr s) 0); [cbn in Hi; lia|]. rewrite Ec, Ok_bind, char_value_small, Z.eqb_refl by lia. done.
Qed.

(** ** The whole format *)

Lemma drop_space_idem l : drop_space (drop_space l) = drop_space l.
Proof. induction l as [|c l IH]; [done|]. cbn. destruct (isspace c) eqn:E; [done|]. cbn. by rewrite E. Qed.

Lemma drop_space_length l : (length (drop_space l) ≤ length l)%nat.
Proof. induction l as [|c l IH]; [done|]. cbn. destruct (isspace c); cbn; lia. Qed.

Lemma format_num l c v fs : format_of (FNum l c v :: fs) = 37 :: show_len l ++ show_conv c :: format_of fs.
Proof. unfold format_of. cbn. by rewrite <- app_assoc. Qed.

Lemma text_num l c v fs : text_of (FNum l c v :: fs) = render PTR_W cs (item_of (FNum l c v)) ++ text_of fs.
Proof. done. Qed.

(** The text after a number. *)
Lemma after_number fs : separated fs →
  match fs with [] => True | FChr c :: _ => isdigit c = false ∧ isalpha c = false | FNum _ _ _ :: _ => False end →
  stops (text_of fs) ∧ ascii_head (text_of fs).
Proof. destruct fs as [|[l c v|c] fs]; [done|done|]. intros (Hc & _) Hn. by split; [|cbn; lia]. Qed.

Lemma num_head l c v rest : c ≠ CX → ∃ x k, render PTR_W cs (item_of (FNum l c v)) ++ rest = x :: k ∧ isspace x = false.
Proof.
  intros Hc. rewrite num_text by done. destruct (digit_value_bounds l c v) as [Hx _]. pose proof (base_cases c) as Hbc.
  destruct (ndigits_spec (base_of c) (Z.abs (value PTR_W cs l c v))) as (Hne & HF & _); [lia|done|].
  destruct (number_chars_head (value PTR_W cs l c v <? 0) _ _ Hne HF ltac:(lia)) as (x & k & -> & Hs). by exists x, (k ++ rest).
Qed.

(** Formats and input in step; white space may have been skipped already. *)
Lemma scan_fields lo e fs : ∀ fuel input junk s R m', separated fs →
  (length (format_of fs) < fuel)%nat → (length (text_of fs) < input)%nat →
  ahead e s R → (R = text_of fs ∨ R = drop_space (text_of fs)) → lo ≤ e - Z.of_nat (length (text_of fs)) →
  apart lo e fs (ap s) → assigned fs (ap s) (mem s) = Ok m' →
  scan_loop cs fuel input (format_of fs ++ 0 :: junk) s = Ok (nassigned s + nums fs, m').
Proof.
  induction fs as [|f fs IH]; intros fuel input junk s R m' Hs Hfu Hin Ha HR Hlo Hap Has.
  { destruct fuel; [lia|]. cbn in *. injection Has as ->. by rewrite Z.add_0_r. }
  destruct fuel as [|fuel]; [lia|]. destruct f as [l c v|c].
  - destruct Hs as (Hc & Hv & Hnext & Hs). destruct (after_number fs Hs Hnext) as [Hst Hah].
    assert (R = render PTR_W cs (item_of (FNum l c v)) ++ text_of fs) as ->.
    { destruct HR as [-> | ->]; [done|]. rewrite text_num. destruct (num_head l c v (text_of fs) Hc) as (x & k & -> & Hx).
      cbn [drop_space]. by rewrite Hx. }
    rewrite text_num, length_app in Hin, Hlo. rewrite format_num in *. cbn [length] in Hfu. rewrite length_app in Hfu. cbn [length] in Hfu.
    cbn [assigned apart] in *. destruct (ap s) as [|a ds] eqn:Eap; [done|].
    destruct Hap as [Hap1 Hap]. apply bind_inv in Has as (m1 & Em & Has).
    cbn [app scan_loop]. change (37 =? 0) with false. change (isspace 37) with false. change (37 =? 37) with true. cbn [negb].
    rewrite <- app_assoc. cbn [app]. rewrite again_num, Ok_bind by done. cbv iota.
    set (s0 := set_conv (base_of c) (fn_of c) s).
    destruct (convert_num e l c v s0 (text_of fs) a ds m1 input Hc Hst Hah eq_refl eq_refl Eap Ha ltac:(lia) Em)
      as (s' & -> & E1 & E2 & E3 & Ha'). rewrite Ok_bind. cbv iota.
    rewrite (IH fuel input junk s' (text_of fs) m'); [rewrite E2; change (nassigned s0) with (nassigned s); cbn [nums]; do 2 f_equal; lia|done|lia|lia| |by left|lia|by rewrite E3|].
    + assert (ahead e (set_mem m1 (set_mem (mem s0) s')) (text_of fs)) as Hf.
      { apply ahead_frame; [done|]. intros x Hx. apply (stn_frame (Z.to_nat (dst_width l / 8)) a (wrap (dst_width l) v)).
        - unfold stw in Em. by destruct (_ =? 0).
        - assert (0 ≤ dst_width l / 8) by (apply Z.div_pos; [destruct l; cbn [dst_width]; destruct arch_ok as [W|W]; lia|lia]).
          rewrite Z2Nat.id by done. lia. }
      destruct Hf as [H1 H2]. split; [exact H1|]. intros Hne. destruct (H2 Hne) as [H3 H4]. split; [|exact H4].
      rewrite E1. exact H3.
    + by rewrite E3, E1.
  - destruct Hs as (Hc & H37 & Hs). change (format_of (FChr c :: fs)) with (c :: format_of fs) in *.
    change (text_of (FChr c :: fs)) with (c :: text_of fs) in *. cbn [assigned apart nums length] in *.
    cbn [app scan_loop]. destruct (Z.eqb_spec c 0); [lia|]. destruct (isspace c) eqn:Esp.
    + assert (∃ R0, R = R0 ∧ drop_space R0 = drop_space (text_of fs) ∧ (length R0 ≤ S (length (text_of fs)))%nat) as (R0 & -> & ER & EL).
      { exists R. split; [done|]. destruct HR as [-> | ->]; cbn [drop_space]; rewrite Esp; [by split|].
        rewrite drop_space_idem. split; [done|]. pose proof (drop_space_length (text_of fs)). lia. }
      destruct (skip_white_ok e R0 input s Ha ltac:(lia)) as (s' & -> & Ha' & E1 & E2 & E3). rewrite Ok_bind, <- E2.
      rewrite ER in Ha'. apply (IH fuel input junk s' (drop_space (text_of fs)) m'); try done; rewrite ?E1, ?E3; try done; try lia. by right.
    + assert (R = c :: text_of fs) as -> by (destruct HR as [-> | ->]; [done|]; cbn [drop_space]; by rewrite Esp).
      destruct (Z.eqb_spec c 37); [done|]. cbn [negb]. rewrite (literal_ok e c (text_of fs) s Ha ltac:(lia)), Ok_bind. cbv iota.
      apply (IH fuel input junk (advance 1 1 s) (text_of fs) m'); try done; try lia; [by apply (ahead_next _ _ c)|by left].
Qed.

(** ** The destinations *)

(** They are mapped, aligned and do not overlap each other. *)
Fixpoint placed (m : mem_t) (fs : list field) (ds : list Z) : Prop :=
  match fs, ds with
  | [], _ => True
  | FChr _ :: fs, _ => placed m fs ds
  | FNum l _ _ :: fs, a :: ds =>
    a mod (dst_width l / 8) = 0 ∧ mapped m a (dst_width l / 8) ∧ apart a (a + dst_width l / 8 - 1) fs ds ∧ placed m fs ds
  | FNum _ _ _ :: _, [] => False
  end.

(** Each of them holds its value. *)
Fixpoint stored (fs : list field) (ds : list Z) (m : mem_t) : Prop :=
  match fs, ds with
  | FChr _ :: fs, _ => stored fs ds m
  | FNum l _ v :: fs, a :: ds => ldn (Z.to_nat (dst_width l / 8)) a m = Ok (wrap (dst_width l) v) ∧ stored fs ds m
  | _, _ => True
  end.

Lemma dst_bytes l : ∃ k, Z.to_nat (dst_width l / 8) = k ∧ Z.of_nat k = dst_width l / 8 ∧ 256 ^ Z.of_nat k = 2 ^ dst_width l ∧
  (1 ≤ k)%nat.
Proof.
  exists (Z.to_nat (dst_width l / 8)). destruct l; cbn [dst_width]; try (destruct arch_ok as [-> | ->]); vm_compute; split_and!; done || lia.
Qed.

Lemma ldn_frame k : ∀ a m m', (∀ x, a ≤ x < a + Z.of_nat k → m' !! x = m !! x) → ldn k a m' = ldn k a m.
Proof.
  induction k as [|k IH]; intros a m m' Hf; [done|]. cbn [ldn]. unfold load. rewrite Hf by lia.
  by rewrite (IH (a + 1) m m') by (intros; apply Hf; lia).
Qed.

Lemma ldn_stn k : ∀ a v m m', stn k a v m = Ok m' → ldn k a m' = Ok (v mod 256 ^ Z.of_nat k).
Proof.
  induction k as [|k IH]; intros a v m m' E; [cbn; by rewrite Z.mod_1_r|]. cbn [stn] in E.
  apply bind_inv in E as (m1 & E1 & E). cbn [ldn]. rewrite (IH _ _ _ _ E).
  unfold load. rewrite (stn_frame _ _ _ _ _ E) by lia. unfold store in E1. destruct (m !! a); [|done].
  injection E1 as <-. rewrite lookup_insert_eq, !Ok_bind. f_equal.
  rewrite Nat2Z.inj_succ, Z.pow_succ_r by lia. by rewrite Z.rem_mul_r by lia.
Qed.

Lemma placed_ext lo hi m m' fs : ∀ ds, (∀ x, ¬ (lo ≤ x ≤ hi) → m' !! x = m !! x) → apart lo hi fs ds →
  placed m fs ds → placed m' fs ds.
Proof.
  induction fs as [|[l c v|c] fs IH]; intros ds Hf Ha Hp; [done| |by apply IH].
  destruct ds as [|a ds]; [done|]. cbn [placed apart] in *. destruct Ha as [Ha1 Ha2], Hp as (H1 & H2 & H3 & H4).
  split_and!; [done| |done|by apply IH]. intros x Hx. rewrite Hf; [by apply H2|lia].
Qed.

Lemma assigned_frame lo hi fs : ∀ ds m m', apart lo hi fs ds → assigned fs ds m = Ok m' →
  ∀ x, lo ≤ x ≤ hi → m' !! x = m !! x.
Proof.
  induction fs as [|[l c v|c] fs IH]; intros ds m m' Ha E x Hx; cbn [assigned apart] in *.
  - by injection E as <-.
  - destruct ds as [|a ds]; [done|]. destruct Ha as [Ha1 Ha2]. apply bind_inv in E as (m1 & E1 & E).
    rewrite (IH _ _ _ Ha2 E x Hx). unfold stw in E1. destruct (_ =? 0); [|done].
    destruct (dst_bytes l) as (k & Ek & Ew & _). rewrite Ek in E1. apply (stn_frame _ _ _ _ _ E1). lia.
  - by apply (IH ds).
Qed.

Lemma assigned_ok fs : ∀ ds m, placed m fs ds → ∃ m', assigned fs ds m = Ok m' ∧ stored fs ds m'.
Proof.
  induction fs as [|[l c v|c] fs IH]; intros ds m Hp; cbn [assigned stored]; [by exists m| |by apply IH].
  destruct ds as [|a ds]; [done|]. cbn [placed] in Hp. destruct Hp as (H1 & H2 & H3 & H4).
  destruct (dst_bytes l) as (k & Ek & Ew & Ep & Hk). rewrite Ek, <- Ew in *.
  destruct (stn_ok k a (wrap (dst_width l) v) m H2) as (m1 & E1 & _).
  assert (placed m1 fs ds) as Hp1.
  { apply (placed_ext a (a + Z.of_nat k - 1) m); [|done|done]. intros x Hx. apply (stn_frame _ _ _ _ _ E1). lia. }
  destruct (IH ds m1 Hp1) as (m' & E & Hst). exists m'. unfold stw. rewrite H1. cbn [Z.eqb]. rewrite E1, Ok_bind.
  split; [done|]. split; [|done]. rewrite (ldn_frame k a m1 m').
  - rewrite (ldn_stn _ _ _ _ _ E1), Ep. f_equal. unfold wrap. apply Z.mod_mod. apply Z.pow_nonzero; [done|].
    destruct l; cbn [dst_width]; try done; destruct arch_ok as [-> | ->]; done.
  - intros x Hx. apply (assigned_frame a (a + Z.of_nat k - 1) fs ds m1 m'); [done|done|lia].
Qed.

(** ** What sscanf promises *)

Lemma text_range fs : separated fs → Forall (λ c, 0 < c < 256) (text_of fs).
Proof.
  induction fs as [|[l c v|c] fs IH]; intros Hs; [done| |].
  - destruct Hs as (Hc & _ & _ & Hs). rewrite text_num, num_text by done. apply Forall_app. split; [|by apply IH].
    destruct (digit_value_bounds l c v) as [Hx _]. pose proof (base_cases c).
    destruct (ndigits_spec (base_of c) (Z.abs (value PTR_W cs l c v))) as (_ & HF & _); [lia|done|].
    apply (number_chars_range _ (base_of c)); [lia|done].
  - destruct Hs as (Hc & _ & Hs). change (text_of (FChr c :: fs)) with (c :: text_of fs). apply Forall_cons. split; [lia|by apply IH].
Qed.

Lemma good_items fs : separated fs → Forall (good PTR_W cs) (item_of <$> fs).
Proof.
  induction fs as [|[l c v|c] fs IH]; intros Hs; [done| |]; cbn [fmap list_fmap]; apply Forall_cons.
  - destruct Hs as (Hc & Hv & _ & Hs). split; [|by apply IH]. cbn. repeat split; try done.
  - destruct Hs as (Hc & H37 & Hs). split; [|by apply IH]. cbn. lia.
Qed.

Lemma sscanf_reads s fs ds m m' : separated fs → bytes_ok m → cstr m s (text_of fs) →
  words_mapped m s (Z.of_nat (length (text_of fs))) → Z.of_nat (length (text_of fs)) < 2 ^ 31 →
  apart s (s + Z.of_nat (length (text_of fs))) fs ds → assigned fs ds m = Ok m' →
  sscanf cs s (format_of fs ++ [0]) ds m = Ok (nums fs, m').
Proof.
  intros Hs Hb Hc Hw Hl Ha Has. unfold sscanf, vsscanf. rewrite (strlen_ok m s (text_of fs) Hb Hc Hw), Ok_bind.
  rewrite swrap_small by (change (2 ^ (32 - 1)) with (2 ^ 31); lia).
  pose proof (cstr_fuel _ _ _ Hc).
  rewrite (scan_fields s (s + Z.of_nat (length (text_of fs))) fs _ _ [] _ (text_of fs) m' Hs); cbn [ap mem nassigned]; try done.
  - rewrite length_app. cbn. lia.
  - by left.
  - lia.
Qed.

(** C22: What printf writes scanf reads with the same format: numbers printed with
    %d, %u, %o or %x and any length modifier, between characters that end them, are
    stored at the addresses given, each in the type its modifier names and with the
    value it was passed; the result is their number.  The buffer and the
    destinations are one memory and may lie anywhere, apart from each other; printf
    changes nothing outside its text and the NUL, and scanf nothing outside the
    destinations. *)
Theorem printf_scanf s size fs ds m : separated fs → bytes_ok m →
  let n := Z.of_nat (length (text_of fs)) in
  n < size → n < 2 ^ 31 → mapped m s size → words_mapped m s n →
  placed m fs ds → apart s (s + n) fs ds →
  ∃ m1 m2, snprintf PTR_W cs s size (Some (format_of fs ++ [0])) (args_of fs) m = Ok (n, m1, []) ∧
    sscanf cs s (format_of fs ++ [0]) ds m1 = Ok (nums fs, m2) ∧ stored fs ds m2 ∧
    (∀ x, ¬ (s ≤ x ≤ s + n) → m1 !! x = m !! x) ∧ (∀ x, apart x x fs ds → m2 !! x = m1 !! x).
Proof.
  intros Hs Hb n Hn Hn31 Hm Hw Hp Ha.
  pose proof (stream_items PTR_W cs arch_ok (item_of <$> fs) [] 10 [] (good_items fs Hs) Hn31) as HI.
  fold (format_of fs) (text_of fs) (args_of fs) in HI. rewrite app_nil_r in HI.
  pose proof (vsnprintf_ok PTR_W cs s size (Some (format_of fs ++ [0])) (args_of fs) m ltac:(lia) Hm) as HP.
  rewrite HI in HP. destruct HP as (m1 & E & HB & HO). fold n in E, HO. specialize (HB ltac:(lia)).
  rewrite take_ge in HB by lia. rewrite Z.min_l in HO by lia.
  assert (∀ x, s ≤ x ≤ s + n → ∃ b, m1 !! x = Some b ∧ 0 ≤ b < 256) as Hin.
  { intros x Hx. destruct (lookup_lt_is_Some_2 (text_of fs ++ [0]) (Z.to_nat (x - s))) as [c Hc].
    { rewrite length_app. cbn. lia. }
    exists (u8 c). pose proof (HB _ _ Hc) as Hx2. replace (s + Z.of_nat (Z.to_nat (x - s))) with x in Hx2 by lia.
    split; [done|]. apply (wrap_range 8); lia. }
  assert (bytes_ok m1) as Hb1.
  { intros x b Hx. destruct (decide (s ≤ x ≤ s + n)) as [Hr|Hr].
    - destruct (Hin x Hr) as (b' & E' & ?). rewrite Hx in E'. by injection E' as ->.
    - rewrite HO in Hx by lia. by apply (Hb x). }
  assert (words_mapped m1 s n) as Hw1.
  { destruct Hw as (lo & hi & ? & ? & ? & ? & Hmm). exists lo, hi. split_and!; try done. intros x Hx.
    destruct (decide (s ≤ x ≤ s + n)) as [Hr|Hr]; [destruct (Hin x Hr) as (b & -> & _); eauto|].
    rewrite HO by lia. by apply Hmm. }
  destruct (assigned_ok fs ds m1) as (m2 & E2 & Hst).
  { apply (placed_ext s (s + n) m); [|done|done]. intros x Hx. apply HO. lia. }
  exists m1, m2. split; [exact E|]. split.
  2:{ split; [done|]. split; [intros x Hx; apply HO; lia|]. intros x Hx. by apply (assigned_frame x x fs ds m1 m2). }
  apply sscanf_reads; try done. apply bytes_cstr; [by apply text_range|done].
Qed.
End Scanf.

(** ** Witness *)

Module ScanfDemo.

(** "%d, %hx;%llu" *)
Definition fs : list field :=
  [FNum Lnone Cd (-7); FChr 44; FChr 32; FNum Lh Cx 4660; FChr 59; FNum Lll Cu 18446744073709551615].
Definition ds : list Z := [64; 70; 72].
Definition m0 : mem_t := list_to_map ((λ i, (Z.of_nat i, 170)) <$> seq 0 80).

Lemma m0_mapped a n : 0 ≤ a → a + n ≤ 80 → mapped m0 a n.
Proof.
  intros Ha Hn x Hx. assert (∀ i, (i < 80)%nat → is_Some (m0 !! Z.of_nat i)) as HB.
  { intros i Hi. unfold m0. exists 170. apply elem_of_list_to_map.
    - rewrite <- list_fmap_compose. apply NoDup_fmap_2; [|apply NoDup_ListNoDup, seq_NoDup].
      intros i1 i2 Ei. cbn in Ei. lia.
    - apply list_elem_of_fmap. exists i. split; [done|]. apply list_elem_of_In, in_seq. lia. }
  rewrite <- (Z2Nat.id x) by lia. apply HB. lia.
Qed.

Lemma m0_bytes : bytes_ok m0.
Proof.
  intros a b E. apply elem_of_list_to_map_2, list_elem_of_fmap in E as (i & [= _ ->] & _). lia.
Qed.

Lemma printf_scanf_witness : ∃ m1 m2,
  snprintf 32 false 0 60 (Some [37; 100; 44; 32; 37; 104; 120; 59; 37; 108; 108; 117; 0])
    [AInt 32 (-7); AInt 32 4660; AInt 64 18446744073709551615] m0 = Ok (29, m1, []) ∧
  sscanf false 0 [37; 100; 44; 32; 37; 104; 120; 59; 37; 108; 108; 117; 0] ds m1 = Ok (3, m2) ∧
  ldn 4 64 m2 = Ok 4294967289 ∧ ldn 2 70 m2 = Ok 4660 ∧ ldn 8 72 m2 = Ok 18446744073709551615 ∧
  m1 !! 30 = m0 !! 30 ∧ m2 !! 68 = m1 !! 68.
Proof.
  destruct (printf_scanf false 0 60 fs ds m0) as (m1 & m2 & E1 & E2 & (E3 & E4 & E5 & _) & F1 & F2).
  - cbn. split_and!; try done; lia.
  - exact m0_bytes.
  - vm_compute. reflexivity.
  - vm_compute. reflexivity.
  - apply m0_mapped; lia.
  - exists 0, 80. split_and!; [reflexivity|reflexivity|lia|vm_compute; reflexivity|apply m0_mapped; lia].
  - cbn [fs ds placed apart dst_width]. split_and!; try reflexivity; try (apply m0_mapped; vm_compute; discriminate);
      vm_compute; (left; discriminate) || (right; reflexivity).
  - cbn [fs ds apart dst_width]. split_and!; try reflexivity; right; vm_compute; reflexivity.
  - exists m1, m2. split; [exact E1|]. split; [exact E2|]. split; [exact E3|]. split; [exact E4|]. split; [exact E5|].
    split; [apply F1; intros [_ H]; vm_compute in H; by apply H|]. apply F2. cbn [fs ds apart dst_width].
    split; [left; vm_compute; discriminate|]. split; [right; reflexivity|]. split; [right; reflexivity|exact I].
Defined.
End ScanfDemo.

(** ** Where the code differs from what it means to do *)

Module ScanfBugs.

(** The string [text] at 0 and 0xaa around it; the value returned and eight bytes of
    the destinations at 64. *)
Definition run (text fmt ds : list Z) : res (Z * list Z) :=
  '(n, m) ← sscanf false 0 (fmt ++ [0]) ds (list_to_map (zip (seqZ 0 80) (text ++ 0 :: replicate 80 170)));
  Ok (n, (λ a, default 0 (m !! a)) <$> seqZ 64 8).

(** %[a-a] on "b": the range takes in the character after its end. *)
Lemma equal_range : run [98] [37; 91; 97; 45; 97; 93] [64] = Ok (1, [98; 0; 170; 170; 170; 170; 170; 170]).
Proof. vm_compute. reflexivity. Qed.

(** A range that begins and ends with the last character writes behind the table. *)
Lemma range_overflow : run [98] [37; 91; 255; 45; 255; 93] [64] = Err Fault.
Proof. vm_compute. reflexivity. Qed.

(** %5c on "ab" copies what is behind the string. *)
Lemma char_overrun : run [97; 98] [37; 53; 99] [64] = Ok (1, [97; 98; 0; 170; 170; 170; 170; 170]).
Proof. vm_compute. reflexivity. Qed.

(** %*5c%c on "ab": the second conversion succeeds, with the NUL. *)
Lemma suppressed_overrun : run [97; 98] [37; 42; 53; 99; 37; 99] [64] = Ok (1, [0; 170; 170; 170; 170; 170; 170; 170]).
Proof. vm_compute. reflexivity. Qed.

(** %x on "-0x1f": the prefix is not seen behind a sign. *)
Lemma signed_prefix : run [45; 48; 120; 49; 102] [37; 120] [64] = Ok (1, [0; 0; 0; 0; 170; 170; 170; 170]).
Proof. vm_compute. reflexivity. Qed.

(** %x%c on "0x": the second conversion gets the 0 again and not the x. *)
Lemma prefix_at_end : run [48; 120] [37; 120; 37; 99] [64; 68] = Ok (2, [0; 0; 0; 0; 48; 170; 170; 170]).
Proof. vm_compute. reflexivity. Qed.

(** %X is no conversion: nothing is stored. *)
Lemma upper_hex : run [102; 102] [37; 88] [64] = Ok (0, replicate 8 170).
Proof. vm_compute. reflexivity. Qed.

(** A format that ends in "%" is %c, and goes on behind its end. *)
Lemma lone_percent_char : run [55] [37] [64] = Err Fault ∧
  run [55] [37; 0; 37; 100] [64] = Ok (1, [55; 170; 170; 170; 170; 170; 170; 170]).
Proof. split; vm_compute; reflexivity. Qed.
End ScanfBugs.
