(* ===== verification/Inet.v ===== *)
(** * Internet addresses in text (lib/libc/net/inet_addr.c)

    Up to four parts separated by dots, each in decimal, octal or hexadecimal; the
    last one fills the bytes that are left.  A [u_long] has [w] bits.  The result is
    the 32-bit word in network order; the machine is little-endian. *)

From S2P Require Import Prelude Memory StringScan Strto.
Local Open Scope Z_scope.

Definition isxdigit (c : Z) : bool :=
  isdigit c || ((65 <=? c) && (c <=? 70)) || ((97 <=? c) && (c <=? 102)).

Definition INADDR_NONE : Z := 4294967295.

(** __bswap32 *)
Definition htonl (x : Z) : Z :=
  let x := u32 x in
  Z.lor (Z.lor (Z.shiftr x 24) (Z.land (Z.shiftr x 8) 65280))
        (Z.lor (Z.land (Z.shiftl x 8) 16711680) (u32 (Z.shiftl x 24))).

(** The number up to the dot: [c], [cp], [val] and [digit]; [None] is
    [return (0)].  It ends at the latest at the NUL. *)
Fixpoint collect (fuel : nat) (w base c cp val digit : Z) (m : mem_t) : res (option (Z * Z * Z * Z)) :=
  match fuel with
  | O => Err NoFuel
  | S fuel =>
    if isascii c && isdigit c then
      if (base =? 8) && ((c =? 56) || (c =? 57)) then Ok None else
      let val := wrap w (wrap w (val * base) + (c - 48)) in
      c ← load m (cp + 1);
      collect fuel w base c (cp + 1) val 1 m
    else if (base =? 16) && isascii c && isxdigit c then
      let val := Z.lor (wrap w (Z.shiftl val 4)) (c + 10 - (if islower c then 97 else 65)) in
      c ← load m (cp + 1);
      collect fuel w base c (cp + 1) val 1 m
    else Ok (Some (c, cp, val, digit))
  end.

(** The prefix of a number: [base], [c], [cp] and [digit]. *)
Definition prefix (c cp : Z) (m : mem_t) : res (Z * Z * Z * Z) :=
  if c =? 48 then
    c ← load m (cp + 1);
    if (c =? 120) || (c =? 88) then c ← load m (cp + 2); Ok (16, c, cp + 2, 0)
    else Ok (8, c, cp + 1, 1)
  else Ok (10, c, cp, 0).

(** [for (;;)]: the parts that a dot follows, then [c], [val] and [digit].  A part
    that is not the last one takes one of the [k] places. *)
Fixpoint parts_loop (k : nat) (w c cp : Z) (parts : list Z) (m : mem_t)
    : res (option (list Z * Z * Z * Z)) :=
  if negb (isdigit c) then Ok None else
  '(base, c, cp, digit) ← prefix c cp m;
  r ← collect (scan_fuel m) w base c cp 0 digit m;
  match r with
  | None => Ok None
  | Some (c, cp, val, digit) =>
    if c =? 46 then
      match k with
      | O => Ok None
      | S k =>
        if 255 <? val then Ok None else
        c ← load m (cp + 1);
        parts_loop k w c (cp + 1) (parts ++ [val]) m
      end
    else Ok (Some (parts, c, val, digit))
  end.

(** [switch (n)]: the address, unless the last part is too large. *)
Definition concoct (parts : list Z) (val : Z) : option Z :=
  match parts with
  | [] => Some val
  | [a] => if 16777215 <? val then None else Some (Z.lor val (u32 (Z.shiftl a 24)))
  | [a; b] => if 65535 <? val then None else Some (Z.lor val (Z.lor (u32 (Z.shiftl a 24)) (Z.shiftl b 16)))
  | [a; b; c] =>
    if 255 <? val then None
    else Some (Z.lor val (Z.lor (Z.lor (u32 (Z.shiftl a 24)) (Z.shiftl b 16)) (Z.shiftl c 8)))
  | _ => Some val
  end.

(** [None] is [return (0)]; otherwise what is stored in [addr->s_addr]. *)
Definition inet_aton (w cp : Z) (m : mem_t) : res (option Z) :=
  c ← load m cp;
  r ← parts_loop 3 w c cp [] m;
  match r with
  | None => Ok None
  | Some (parts, c, val, digit) =>
    if negb (c =? 0) && (negb (isascii c) || negb (isspace c)) then Ok None else
    if digit =? 0 then Ok None else
    Ok (htonl <$> concoct parts val)
  end.

Definition inet_addr (w cp : Z) (m : mem_t) : res Z :=
  r ← inet_aton w cp m;
  Ok (default INADDR_NONE r).
