(* ===== verification/InetTheorems.v ===== *)
(** * Theorems of inet_addr.c

    The numerals of an address, and that an address that was printed is read back. *)

From S2P Require Import Prelude Memory StringScan StringTheorems Strto StrtoTheorems Inet.
From S2P Require Import Printf PrintfStream PrintfText PrintfTheorems.
Local Open Scope Z_scope.

(** ** Bytes of a word *)

Lemma land_byte y k : 0 ≤ k → Z.land y (255 * 2 ^ k) = (y / 2 ^ k) mod 256 * 2 ^ k.
Proof.
  intros Hk. change 255 with (Z.ones 8). change 256 with (2 ^ 8).
  rewrite <- (Z.land_ones (y / 2 ^ k) 8), <- Z.shiftr_div_pow2, <- !Z.shiftl_mul_pow2 by lia.
  apply Z.bits_inj'. intros i Hi. rewrite Z.land_spec, !Z.shiftl_spec by lia.
  destruct (Z.ltb_spec i k).
  - rewrite !(Z.testbit_neg_r _ (i - k)) by lia. by rewrite andb_false_r.
  - rewrite Z.land_spec, Z.shiftr_spec by lia. by replace (i - k + k) with i by lia.
Qed.

(** The four bytes of an address, the first one at the lowest address. *)
Definition addr_bytes (a b c d : Z) : Z := a + 256 * (b + 256 * (c + 256 * d)).
Definition byte (x : Z) : Prop := 0 ≤ x < 256.

Lemma htonl_bytes a b c d : byte a → byte b → byte c → byte d →
  htonl (a * 2 ^ 24 + b * 2 ^ 16 + c * 2 ^ 8 + d) = addr_bytes a b c d.
Proof.
  unfold byte, addr_bytes. intros Ha Hb Hc Hd. unfold htonl.
  change (2 ^ 24) with 16777216. change (2 ^ 16) with 65536. change (2 ^ 8) with 256.
  set (x := a * 16777216 + b * 65536 + c * 256 + d).
  rewrite (wrap_small 32 x) by (change (2 ^ 32) with 4294967296; lia).
  change 65280 with (255 * 2 ^ 8). change 16711680 with (255 * 2 ^ 16).
  rewrite !land_byte, !Z.shiftr_div_pow2, !Z.shiftl_mul_pow2 by lia. unfold wrap.
  change (2 ^ 24) with 16777216. change (2 ^ 16) with 65536. change (2 ^ 8) with 256. change (2 ^ 32) with 4294967296.
  assert (x / 16777216 = a ∧ x / 256 / 256 mod 256 = b ∧ x * 256 / 65536 mod 256 = c ∧
    (x * 16777216) mod 4294967296 = d * 16777216) as (-> & -> & -> & ->).
  { unfold x. split_and!; Z.to_euclidean_division_equations; lia. }
  pose proof (lor_add a b 8 ltac:(lia) ltac:(change (2 ^ 8) with 256; lia)) as E1.
  pose proof (lor_add (c * 65536) d 24 ltac:(lia) ltac:(change (2 ^ 24) with 16777216; lia)) as E2.
  change (2 ^ 8) with 256 in E1. change (2 ^ 24) with 16777216 in E2. rewrite E1, E2.
  pose proof (lor_add (a + b * 256) (c + d * 256) 16 ltac:(lia) ltac:(change (2 ^ 16) with 65536; lia)) as E3.
  change (2 ^ 16) with 65536 in E3. replace ((c + d * 256) * 65536) with (c * 65536 + d * 16777216) in E3 by lia.
  rewrite E3. lia.
Qed.

(** ** Numerals *)

(** A numeral: decimal, octal after a 0 or hexadecimal after 0x, with its digits. *)
Inductive radix := Dec | Oct | Hex.
Record numeral := { nr : radix; nupper : bool; nds : list Z }.

Definition nbase (r : radix) : Z := match r with Dec => 10 | Oct => 8 | Hex => 16 end.
Definition ntext (t : numeral) : list Z :=
  (match nr t with Dec => [] | Oct => [48] | Hex => [48; 120] end) ++ (digit_char (nupper t) <$> nds t).
Definition nvalue (w : Z) (t : numeral) : Z := wrap w (horner (nbase (nr t)) (nds t)).

Definition good_numeral (t : numeral) : Prop :=
  Forall (λ d, 0 ≤ d < nbase (nr t)) (nds t) ∧
  match nr t with Dec => nds t ≠ [] ∧ head (nds t) ≠ Some 0 | Oct => True | Hex => nds t ≠ [] end.

(** The characters of the digits. *)
Lemma hex_char up d : 0 ≤ d < 16 →
  let c := digit_char up d in
  isascii c = true ∧ isdigit c = (d <? 10) ∧ isxdigit c = true ∧ (d < 10 → c = d + 48) ∧
  (10 ≤ d → c + 10 - (if islower c then 97 else 65) = d) ∧ 0 < c < 256 ∧ c ≠ 46.
Proof.
  intros Hd. assert (d = 0 ∨ d = 1 ∨ d = 2 ∨ d = 3 ∨ d = 4 ∨ d = 5 ∨ d = 6 ∨ d = 7 ∨ d = 8 ∨ d = 9 ∨ d = 10 ∨
    d = 11 ∨ d = 12 ∨ d = 13 ∨ d = 14 ∨ d = 15) as HE by lia.
  destruct_or! HE; subst; destruct up; cbv zeta; split_and!;
    first [reflexivity | (intros; reflexivity) | lia | (vm_compute; congruence)].
Qed.

(** [c] is the character at [cp], and the string goes on with [l]. *)
Definition here (m : mem_t) (c cp : Z) (l : list Z) : Prop := cstr m cp l ∧ c = default 0 (head l).

Lemma here_next m c cp x l : here m c cp (x :: l) → ∃ c', load m (cp + 1) = Ok c' ∧ here m c' (cp + 1) l.
Proof.
  intros [(E & Hx & H) _]. destruct l as [|y l].
  - exists 0. split; [by apply load_Some|by split].
  - exists y. split; [apply load_Some, H|by split].
Qed.

(** What may follow a numeral: the end, a dot or white space. *)
Definition delim (l : list Z) : Prop :=
  match l with [] => True | c :: _ => c = 46 ∨ (isspace c = true ∧ isascii c = true) end.

Lemma delim_stops l : delim l → let c := default 0 (head l) in isdigit c = false ∧ isxdigit c = false.
Proof.
  destruct l as [|c l]; [done|]. cbn. unfold isspace, isxdigit, isdigit. intros [-> | [H _]]; [done|].
  revert H. zcase; cbn [orb andb]; try done; lia.
Qed.

Lemma horner_snoc_wrap w b ds d : 0 < w →
  wrap w (wrap w (wrap w (horner b ds) * b) + d) = wrap w (horner b (ds ++ [d])).
Proof.
  intros Hw. rewrite horner_app. unfold wrap. by rewrite Zplus_mod_idemp_l, Zplus_mod, Zmult_mod_idemp_l, <- Zplus_mod.
Qed.

Lemma hex_step w v d : 4 ≤ w → 0 ≤ d < 16 → Z.lor (wrap w (Z.shiftl v 4)) d = wrap w (wrap w (v * 16) + d).
Proof.
  intros Hw Hd. rewrite Z.shiftl_mul_pow2 by lia. change (2 ^ 4) with 16.
  assert (2 ^ w = 2 ^ (w - 4) * 16) as E.
  { change 16 with (2 ^ 4). rewrite <- Z.pow_add_r by lia. f_equal. lia. }
  assert (wrap w (v * 16) = (v mod 2 ^ (w - 4)) * 16) as ->.
  { unfold wrap. rewrite E. apply Z.mul_mod_distr_r; [|done]. apply Z.pow_nonzero; lia. }
  pose proof (Z.mod_pos_bound v (2 ^ (w - 4)) ltac:(lia)).
  rewrite wrap_small by lia. rewrite Z.lor_comm.
  pose proof (lor_add d (v mod 2 ^ (w - 4)) 4 ltac:(lia) ltac:(done)) as E2. change (2 ^ 4) with 16 in E2. lia.
Qed.

Lemma collect_ok w r up m : 8 ≤ w → ∀ fuel ds done c cp rest digit,
  Forall (λ d, 0 ≤ d < nbase r) ds → delim rest → here m c cp ((digit_char up <$> ds) ++ rest) →
  (length ds < fuel)%nat →
  collect fuel w (nbase r) c cp (wrap w (horner (nbase r) done)) digit m =
    Ok (Some (default 0 (head rest), cp + Z.of_nat (length ds), wrap w (horner (nbase r) (done ++ ds)),
              if decide (ds = []) then digit else 1)).
Proof.
  intros Hw. induction fuel as [|fuel IH]; intros ds done c cp rest digit HF Hdel Hh Hl; [lia|].
  cbn [collect]. destruct ds as [|d ds].
  - destruct (delim_stops rest Hdel) as [E1 E2]. destruct Hh as [_ ->].
    cbn [fmap list_fmap app length]. rewrite E1, E2, !andb_false_r, app_nil_r, decide_True, Z.add_0_r by done. done.
  - apply Forall_cons in HF as [Hd HF]. cbn [fmap list_fmap app] in Hh.
    assert (0 ≤ d < 16) as Hd16 by (destruct r; cbn in Hd; lia).
    destruct (hex_char up d Hd16) as (F1 & F2 & F3 & F4 & F5 & _).
    assert (c = digit_char up d) as -> by (by destruct Hh as [_ ->]).
    destruct (here_next _ _ _ _ _ Hh) as (c' & EL & Hh').
    rewrite F1, F2, F3. cbn [andb].
    rewrite (decide_False (P := d :: ds = [])) by done.
    destruct (Z.ltb_spec d 10) as [Hlt|Hge].
    + replace ((nbase r =? 8) && _) with false.
      2:{ symmetry. rewrite F4 by done. destruct r; cbn in *; try done. zcase; cbn; lia || done. }
      rewrite EL, Ok_bind, (F4 Hlt). replace (d + 48 - 48) with d by lia. rewrite horner_snoc_wrap by lia.
      rewrite (IH ds (done ++ [d]) c' (cp + 1) rest 1 HF Hdel Hh') by (cbn in Hl; lia).
      rewrite <- app_assoc. cbn [length]. destruct (decide _); do 3 f_equal; f_equal; f_equal; lia.
    + assert (r = Hex) as -> by (destruct r; cbn in Hd; try lia; done). cbn [nbase andb Z.eqb Pos.eqb].
      rewrite EL, Ok_bind, (F5 Hge), hex_step by lia.
      change 16 with (nbase Hex). rewrite horner_snoc_wrap by lia.
      rewrite (IH ds (done ++ [d]) c' (cp + 1) rest 1 HF Hdel Hh') by (cbn in Hl; lia).
      rewrite <- app_assoc. cbn [length]. destruct (decide _); do 3 f_equal; f_equal; f_equal; lia.
Qed.

Lemma cstr_app m s l k : cstr m s (l ++ k) → cstr m (s + Z.of_nat (length l)) k.
Proof.
  revert s. induction l as [|x l IH]; intros s H; [by rewrite Z.add_0_r|].
  destruct H as (_ & _ & H). cbn [length]. replace (s + Z.of_nat (S (length l))) with (s + 1 + Z.of_nat (length l)) by lia.
  by apply IH.
Qed.

Lemma here_app m c cp l k : here m c cp (l ++ k) → here m (default 0 (head k)) (cp + Z.of_nat (length l)) k.
Proof. intros [H _]. split; [by apply cstr_app|done]. Qed.

(** A numeral up to its delimiter. *)
Lemma numeral_ok w t rest m c cp : 8 ≤ w → good_numeral t → delim rest → here m c cp (ntext t ++ rest) →
  isdigit c = true ∧ ∃ c1 cp1 digit, prefix c cp m = Ok (nbase (nr t), c1, cp1, digit) ∧
    collect (scan_fuel m) w (nbase (nr t)) c1 cp1 0 digit m =
      Ok (Some (default 0 (head rest), cp + Z.of_nat (length (ntext t)), nvalue w t, 1)).
Proof.
  intros Hw Hg Hd Hh.
  assert (length (nds t) < scan_fuel m)%nat as Hfuel.
  { destruct Hh as [Hc _]. pose proof (cstr_fuel _ _ _ Hc). rewrite length_app in *. unfold ntext in *.
    rewrite length_app, length_fmap in *. lia. }
  destruct t as [r up ds]. unfold nvalue, ntext, good_numeral in *. cbn [nr nupper nds] in *.
  destruct Hg as [HF Hg].
  assert (∀ c1 cp1 digit, here m c1 cp1 ((digit_char up <$> ds) ++ rest) →
    collect (scan_fuel m) w (nbase r) c1 cp1 0 digit m =
      Ok (Some (default 0 (head rest), cp1 + Z.of_nat (length ds), wrap w (horner (nbase r) ds),
                if decide (ds = []) then digit else 1))) as HC.
  { intros c1 cp1 digit Hh1. pose proof (collect_ok w r up m Hw (scan_fuel m) ds [] c1 cp1 rest digit HF Hd Hh1 Hfuel) as HC.
    rewrite (wrap_small w (horner (nbase r) [])) in HC by (cbn; lia). exact HC. }
  unfold prefix. destruct r.
  - destruct Hg as [Hne H0]. destruct ds as [|d ds]; [done|]. apply Forall_cons in HF as [Hd0 _]. cbn [app] in Hh.
    destruct (hex_char up d ltac:(cbn in Hd0; lia)) as (_ & F2 & _ & F4 & _).
    assert (c = digit_char up d) as -> by (by destruct Hh as [_ ->]).
    cbn [nbase] in Hd0. assert (d < 10) as Hd10 by lia. split; [rewrite F2; by apply Z.ltb_lt|]. pose proof (F4 Hd10) as F4'.
    assert (d ≠ 0) by (intros ->; by apply H0). destruct (Z.eqb_spec (digit_char up d) 48); [lia|].
    eexists _, cp, 0. split; [done|]. rewrite HC by done.
    rewrite decide_False, app_nil_l, length_fmap by done. done.
  - cbn [app] in Hh. assert (c = 48) as -> by (by destruct Hh as [_ ->]). split; [done|].
    destruct (here_next _ _ _ _ _ Hh) as (c1 & -> & Hh1). rewrite Z.eqb_refl, Ok_bind.
    assert ((c1 =? 120) || (c1 =? 88) = false) as ->.
    { destruct Hh1 as [_ ->]. destruct ds as [|d ds].
      - destruct (delim_stops rest Hd) as [_ E]. cbn [fmap list_fmap app]. unfold isxdigit in E.
        destruct rest as [|x rest]; [done|]. cbn in Hd |- *. unfold isspace in Hd. destruct Hd as [-> | [Hd _]]; [done|].
        revert Hd. zcase; cbn [orb andb]; try done; lia.
      - apply Forall_cons in HF as [Hd0 _]. cbn in Hd0 |- *. destruct (hex_char up d ltac:(lia)) as (_ & _ & _ & F4 & _).
        rewrite F4 by lia. zcase; cbn; lia || done. }
    eexists _, (cp + 1), 1. split; [done|]. rewrite HC by done. cbn [app length]. rewrite length_fmap.
    replace (cp + 1 + _) with (cp + Z.of_nat (S (length ds))) by lia. by destruct (decide _).
  - cbn [app] in Hh. assert (c = 48) as -> by (by destruct Hh as [_ ->]). split; [done|].
    destruct (here_next _ _ _ _ _ Hh) as (c1 & -> & Hh1). rewrite Z.eqb_refl, Ok_bind.
    assert (c1 = 120) as -> by (by destruct Hh1 as [_ ->]). cbn [Z.eqb Pos.eqb orb].
    destruct (here_next _ _ _ _ _ Hh1) as (c2 & E2 & Hh2). replace (cp + 1 + 1) with (cp + 2) in E2, Hh2 by lia.
    rewrite E2, Ok_bind. eexists _, (cp + 2), 0. split; [done|]. rewrite HC by done. rewrite decide_False by done.
    cbn [app length]. rewrite length_fmap.
    by replace (cp + 2 + _) with (cp + Z.of_nat (S (S (length ds)))) by lia.
Qed.

(** ** Addresses *)

Fixpoint dotted (ts : list numeral) (last : numeral) : list Z :=
  match ts with [] => ntext last | t :: ts => ntext t ++ 46 :: dotted ts last end.

Lemma parts_ok w m k : 8 ≤ w → ∀ ts last rest parts c cp,
  Forall good_numeral ts → good_numeral last → delim rest → head rest ≠ Some 46 →
  here m c cp (dotted ts last ++ rest) →
  parts_loop k w c cp parts m =
    Ok (if (length ts <=? k)%nat && forallb (λ t, nvalue w t <=? 255) ts
        then Some (parts ++ (nvalue w <$> ts), default 0 (head rest), nvalue w last, 1) else None).
Proof.
  intros Hw. induction k as [|k IH]; intros ts last rest parts c cp HF Hl Hd H46 Hh; cbn [parts_loop];
    destruct ts as [|t ts]; cbn [dotted] in Hh.
  1,3: destruct (numeral_ok w last rest m c cp Hw Hl Hd Hh) as (E0 & c1 & cp1 & dg & E1 & E2);
    rewrite E0; cbn [negb]; rewrite E1, Ok_bind; cbv beta iota; rewrite E2, Ok_bind;
    (destruct (Z.eqb_spec (default 0 (head rest)) 46) as [E|]; [destruct rest; [done|]; cbn in *; congruence|]);
    cbn [length Nat.leb forallb andb]; by rewrite app_nil_r.
  all: apply Forall_cons in HF as [Ht HF]; rewrite <- app_assoc in Hh; cbn [app] in Hh;
    destruct (numeral_ok w t (46 :: dotted ts last ++ rest) m c cp Hw Ht ltac:(by left) Hh) as (E0 & c1 & cp1 & dg & E1 & E2);
    rewrite E0; cbn [negb]; rewrite E1, Ok_bind; cbv beta iota; rewrite E2, Ok_bind; cbn [default head Z.eqb Pos.eqb];
    change (default 0 (Some 46) =? 46) with true; cbv iota.
  - done.
  - cbn [length Nat.leb forallb]. destruct (Z.ltb_spec 255 (nvalue w t)) as [Hgt|Hle].
    + rewrite (proj2 (Z.leb_gt _ _)) by done. by rewrite andb_false_r.
    + rewrite (proj2 (Z.leb_le _ _)) by done.
      apply here_app in Hh as Hh1. destruct (here_next _ _ _ _ _ Hh1) as (c2 & E3 & Hh2).
      rewrite E3, Ok_bind, (IH ts last rest) by done. cbn [andb fmap list_fmap]. by rewrite <- app_assoc.
Qed.

(** What an address means: a part before the last one is one byte, and the last
    one is the rest of the word. *)
Fixpoint place (k : Z) (vs : list Z) (v : Z) : Z :=
  match vs with [] => v | a :: vs => a * 2 ^ (k - 8) + place (k - 8) vs v end.

Definition room (vs : list Z) : Z := 2 ^ (8 * (4 - Z.of_nat (length vs))).

(** [None] where the text is not an address; a single number is not bounded. *)
Definition address (vs : list Z) (v : Z) : option Z :=
  if (length vs <=? 3)%nat && forallb (λ a, a <=? 255) vs && (bool_decide (vs = []) || (v <? room vs))
  then Some (htonl (place 32 vs v)) else None.

Lemma lor_place x a k : 0 ≤ k → 0 ≤ x < 2 ^ k → Z.lor x (Z.shiftl a k) = a * 2 ^ k + x.
Proof. intros Hk Hx. rewrite Z.shiftl_mul_pow2, lor_add by lia. lia. Qed.

Lemma lor_top x a : 0 ≤ x < 2 ^ 24 → 0 ≤ a ≤ 255 → Z.lor x (u32 (Z.shiftl a 24)) = a * 2 ^ 24 + x.
Proof.
  intros Hx Ha. rewrite <- lor_place by lia. f_equal. rewrite Z.shiftl_mul_pow2 by lia. apply wrap_small.
  change (2 ^ 24) with 16777216. change (2 ^ 32) with 4294967296. lia.
Qed.

(** The switch puts the parts where [place] puts them. *)
Lemma concoct_place vs v : (length vs ≤ 3)%nat → 0 ≤ v → Forall (λ a, 0 ≤ a ≤ 255) vs →
  concoct vs v = if bool_decide (vs = []) || (v <? room vs) then Some (place 32 vs v) else None.
Proof.
  intros Hl Hv HF. unfold room.
  assert (∀ n, v <? n + 1 = negb (n <? v)) as Hn by (intros n; zcase; cbn; lia || done).
  destruct vs as [|a [|b [|c [|d vs]]]]; [done| | | |cbn in Hl; lia]; cbn [concoct place length];
    repeat match goal with H : Forall _ (_ :: _) |- _ => apply Forall_cons in H as [? H] end;
    rewrite bool_decide_false by done; cbn [orb].
  - change (2 ^ _) with (16777215 + 1) at 1. rewrite Hn. destruct (Z.ltb_spec 16777215 v); cbn [negb]; [done|].
    rewrite lor_top; [done|change (2 ^ 24) with 16777216; lia|lia].
  - change (2 ^ _) with (65535 + 1) at 1. rewrite Hn. destruct (Z.ltb_spec 65535 v); cbn [negb]; [done|].
    rewrite (Z.lor_comm (u32 _)), Z.lor_assoc, lor_place, lor_top;
      change (2 ^ 24) with 16777216; change (2 ^ 16) with 65536; try lia. done.
  - change (2 ^ _) with (255 + 1) at 1. rewrite Hn. destruct (Z.ltb_spec 255 v); cbn [negb]; [done|].
    rewrite (Z.lor_comm _ (Z.shiftl c 8)), Z.lor_assoc, (lor_place _ c), (Z.lor_comm (u32 _)), Z.lor_assoc, lor_place, lor_top;
      change (2 ^ 24) with 16777216; change (2 ^ 16) with 65536; change (2 ^ 8) with 256; try lia. done.
Qed.

(** ** inet_aton *)

(** What ends an address. *)
Definition ends (rest : list Z) : Prop :=
  match rest with [] => True | c :: _ => isspace c = true ∧ isascii c = true end.

Lemma nvalue_nonneg w t : 0 < w → 0 ≤ nvalue w t.
Proof. intros Hw. unfold nvalue, wrap. apply Z.mod_pos_bound. lia. Qed.

Lemma inet_aton_ok w cp ts last rest m : 8 ≤ w → Forall good_numeral ts → good_numeral last → ends rest →
  cstr m cp (dotted ts last ++ rest) → inet_aton w cp m = Ok (address (nvalue w <$> ts) (nvalue w last)).
Proof.
  intros Hw HF Hl He Hc. unfold inet_aton.
  assert (∃ c, load m cp = Ok c ∧ here m c cp (dotted ts last ++ rest)) as (c & -> & Hh).
  { exists (default 0 (head (dotted ts last ++ rest))). split; [|done].
    apply load_Some. destruct (dotted ts last ++ rest); apply Hc. }
  rewrite Ok_bind.
  assert (delim rest ∧ head rest ≠ Some 46) as [Hd H46].
  { destruct rest as [|x rest]; [done|]. destruct He as [He1 He2]. split; [by right|]. by intros [= ->]. }
  rewrite (parts_ok w m 3 Hw ts last rest [] c cp HF Hl Hd H46 Hh), Ok_bind. unfold address.
  rewrite length_fmap. replace (forallb _ (nvalue w <$> ts)) with (forallb (λ t, nvalue w t <=? 255) ts)
    by (clear; induction ts as [|t ts IH]; [done|cbn; by rewrite IH]).
  destruct ((length ts <=? 3)%nat && forallb _ ts) eqn:E; [|done]. cbn [andb app].
  apply andb_prop in E as [El Ev]. apply Nat.leb_le in El.
  replace (negb _ && _) with false; cycle 1.
  { destruct rest as [|x rest]; [done|]. destruct He as [He1 He2]. cbn. rewrite He1, He2. by rewrite andb_false_r. }
  change (1 =? 0) with false. cbv iota.
  rewrite concoct_place; [by destruct (_ || _)|by rewrite length_fmap|apply nvalue_nonneg; lia|].
  apply Forall_fmap, Forall_forall. intros t Ht. cbn. pose proof (nvalue_nonneg w t ltac:(lia)).
  rewrite forallb_forall in Ev. apply list_elem_of_In, Ev in Ht. lia.
Qed.

(** ** Printing an address *)

(** The format "%u.%u.%u.%u" and its arguments. *)
Definition quad_item (a : Z) : item := TInt false false false [] None Lnone Cu a.
Definition quad (a b c d : Z) : list item :=
  [quad_item a; TChar 46; quad_item b; TChar 46; quad_item c; TChar 46; quad_item d].

(** A byte as a numeral: 0 is an octal number. *)
Definition byte_numeral (a : Z) : numeral :=
  if a =? 0 then {| nr := Oct; nupper := false; nds := [] |} else {| nr := Dec; nupper := false; nds := ndigits 64 10 a |}.

#[local] Instance good_numeral_dec t : Decision (good_numeral t).
Proof. unfold good_numeral. destruct (nr t); apply _. Defined.

Lemma all_bytes (P : Z → Prop) `{∀ a, Decision (P a)} :
  forallb (λ n, bool_decide (P (Z.of_nat n))) (seq 0 256) = true → ∀ a, byte a → P a.
Proof.
  unfold byte. intros HF a Ha. apply (proj1 (forallb_forall _ _)) with (x := Z.to_nat a) in HF; [|apply in_seq; lia].
  rewrite Z2Nat.id in HF by lia. by apply bool_decide_eq_true in HF.
Qed.

(** A byte is printed as its numeral, which is short and has its value. *)
Lemma byte_printed lw cs a : lw = 32 ∨ lw = 64 → byte a →
  good_numeral (byte_numeral a) ∧ render lw cs (quad_item a) = ntext (byte_numeral a) ∧
  (length (ntext (byte_numeral a)) ≤ 3)%nat ∧ nvalue lw (byte_numeral a) = a ∧
  Forall (λ c, 0 < c < 256) (ntext (byte_numeral a)).
Proof.
  intros [-> | ->]; destruct cs; revert a;
    match goal with |- ∀ a, byte a → @?P a => apply (all_bytes P); vm_compute; reflexivity end.
Qed.

Lemma quad_text lw cs a b c d : lw = 32 ∨ lw = 64 → byte a → byte b → byte c → byte d →
  let text := dotted (byte_numeral <$> [a; b; c]) (byte_numeral d) in
  concat (render lw cs <$> quad a b c d) = text ∧ (length text ≤ 15)%nat ∧ Forall (λ c, 0 < c < 256) text.
Proof.
  intros Hlw Ha Hb Hc Hd. cbn [fmap list_fmap dotted].
  destruct (byte_printed lw cs a Hlw Ha) as (_ & Ea & La & _ & Fa).
  destruct (byte_printed lw cs b Hlw Hb) as (_ & Eb & Lb & _ & Fb).
  destruct (byte_printed lw cs c Hlw Hc) as (_ & Ec & Lc & _ & Fc).
  destruct (byte_printed lw cs d Hlw Hd) as (_ & Ed & Ld & _ & Fd).
  split_and!.
  - unfold quad. cbn [fmap list_fmap concat]. rewrite Ea, Eb, Ec, Ed, app_nil_r. done.
  - rewrite !length_app. cbn [length]. rewrite !length_app. cbn [length]. rewrite !length_app. cbn [length]. lia.
  - repeat (apply Forall_app; split; [done|]; apply Forall_cons; split; [lia|]). done.
Qed.

Lemma quad_good lw cs a b c d : Forall (good lw cs) (quad a b c d).
Proof. repeat constructor; try done; by intros [=]. Qed.

(** ** What inet_addr.c promises *)

(** The text of an address is one to four numerals between dots, each
    decimal, octal after a 0 or hexadecimal after 0x, up to the NUL or white space.
    It is accepted exactly when there are at most four of them, each but the last
    fits a byte and the last one (unless it is the only one) fits what is left of the
    word; the result is then the word in network order.  A number is read modulo the
    width of an [unsigned long]. *)
Theorem inet_aton_parses w cp ts last rest m :
  8 ≤ w → Forall good_numeral ts → good_numeral last → ends rest →
  cstr m cp (dotted ts last ++ rest) →
  inet_aton w cp m = Ok (address (nvalue w <$> ts) (nvalue w last)).
Proof. apply inet_aton_ok. Qed.

(** C24: An address printed byte by byte with "%u.%u.%u.%u" takes at most 16
    bytes, and inet_addr reads back the word that has these bytes in memory order. *)
Theorem inet_printed lw cs s size a b c d m :
  lw = 32 ∨ lw = 64 → 16 ≤ size → mapped m s size → byte a → byte b → byte c → byte d →
  ∃ n m', snprintf lw cs s size (Some (concat (show <$> quad a b c d) ++ [0])) (concat (args lw <$> quad a b c d)) m =
      Ok (n, m', []) ∧ n ≤ 15 ∧
    inet_addr lw s m' = Ok (addr_bytes a b c d) ∧ (∀ x, ¬ (s ≤ x < s + 16) → m' !! x = m !! x).
Proof.
  intros Hlw Hsize Hm Ha Hb Hc Hd.
  destruct (quad_text lw cs a b c d Hlw Ha Hb Hc Hd) as (Et & Hl & HF).
  set (text := dotted (byte_numeral <$> [a; b; c]) (byte_numeral d)) in *.
  pose proof (vsnprintf_ok lw cs s size (Some (concat (show <$> quad a b c d) ++ [0]))
    (concat (args lw <$> quad a b c d)) m ltac:(lia) Hm) as HP.
  pose proof (stream_items lw cs Hlw (quad a b c d) [] 10 [] (quad_good lw cs a b c d)) as HI.
  rewrite app_nil_r, Et in HI. rewrite HI in HP by lia. destruct HP as (m' & E & HB & HO).
  exists (Z.of_nat (length text)), m'. split; [exact E|]. split; [lia|]. split; [|intros x Hx; apply HO; lia].
  assert (cstr m' s (text ++ [])) as Hs.
  { rewrite app_nil_r. apply bytes_cstr; [done|]. specialize (HB ltac:(lia)). rewrite take_ge in HB; [exact HB|]. clear - Hl Hsize. lia. }
  assert (∀ x, byte x → good_numeral (byte_numeral x) ∧ nvalue lw (byte_numeral x) = x) as HN.
  { intros x Hx. by destruct (byte_printed lw cs x Hlw Hx) as (? & _ & _ & ? & _). }
  unfold inet_addr. rewrite (inet_aton_ok lw s (byte_numeral <$> [a; b; c]) (byte_numeral d) [] m').
  - cbn [fmap list_fmap]. rewrite !(λ x Hx, proj2 (HN x Hx)) by done.
    rewrite Ok_bind. unfold address, byte in *. cbn [length Nat.leb forallb andb].
    rewrite !(proj2 (Z.leb_le _ _)) by lia. rewrite bool_decide_false by done.
    change (room [a; b; c]) with 256. rewrite (proj2 (Z.ltb_lt _ _)) by lia.
    cbn [andb orb place]. rewrite <- (htonl_bytes a b c d) by done. change (default INADDR_NONE (Some ?x)) with x. f_equal. f_equal.
    change (32 - 8) with 24. change (24 - 8) with 16. change (16 - 8) with 8. lia.
  - destruct Hlw as [-> | ->]; lia.
  - cbn. repeat constructor; by apply HN.
  - by apply HN.
  - done.
  - exact Hs.
Qed.

(** *** What the code does not check *)

(** "0x.1": only the digits of the last part are looked for. *)
Lemma empty_part_accepted :
  inet_aton 32 0 (list_to_map [(0, 48); (1, 120); (2, 46); (3, 49); (4, 0)]) = Ok (Some (htonl 1)).
Proof. vm_compute. reflexivity. Qed.

(** "4294967297", read with a 64-bit [unsigned long], is 0.0.0.1. *)
Lemma number_truncated :
  inet_aton 64 0 (list_to_map (zip (seqZ 0 11) [52; 50; 57; 52; 57; 54; 55; 50; 57; 55; 0])) = Ok (Some (htonl 1)).
Proof. vm_compute. reflexivity. Qed.

(** ** Witnesses *)

Module InetDemo.

(** "0x0A.017.300" and a newline: 10.15.1.44. *)
Definition ts : list numeral :=
  [{| nr := Hex; nupper := true; nds := [0; 10] |}; {| nr := Oct; nupper := false; nds := [1; 7] |}].
Definition last : numeral := {| nr := Dec; nupper := false; nds := [3; 0; 0] |}.
Definition text : list Z := dotted ts last ++ [10].
Definition m0 : mem_t := list_to_map (zip (seqZ 100 14) (text ++ [0])).

Lemma inet_aton_parses_witness : inet_aton 32 100 m0 = Ok (Some (addr_bytes 10 15 1 44)).
Proof.
  rewrite (inet_aton_parses 32 100 ts last [10] m0); [vm_compute; reflexivity|lia| | |done|].
  - apply (bool_decide_unpack _). vm_compute. exact I.
  - apply (bool_decide_unpack _). vm_compute. exact I.
  - vm_compute. repeat split.
Defined.

Definition buf : mem_t := list_to_map (zip (seqZ 0 16) (replicate 16 0)).

Lemma buf_mapped : mapped buf 0 16.
Proof.
  assert (∀ i, (i < 16)%nat → is_Some (buf !! (Z.of_nat i))) as HB.
  { intros i Hi. do 16 (destruct i as [|i]; [vm_compute; eauto|]). lia. }
  intros a Ha. replace a with (Z.of_nat (Z.to_nat a)) by lia. apply HB. lia.
Qed.

Lemma inet_printed_witness : ∃ n m',
  snprintf 32 false 0 16 (Some (concat (show <$> quad 192 168 0 9) ++ [0])) (concat (args 32 <$> quad 192 168 0 9)) buf =
    Ok (n, m', []) ∧ n ≤ 15 ∧
  inet_addr 32 0 m' = Ok (addr_bytes 192 168 0 9) ∧ (∀ x, ¬ (0 ≤ x < 0 + 16) → m' !! x = buf !! x).
Proof.
  apply (inet_printed 32 false 0 16 192 168 0 9 buf); [by left|lia| |unfold byte; lia..].
  exact buf_mapped.
Defined.
End InetDemo.
