(* ===== verification/Time.v ===== *)
(** * Dates (lib/libc/time: gmtime_r.c, mktime.c, strftime.c)

    Days are converted to and from the Gregorian calendar by the integer formulas
    of the Explanatory Supplement, in ints and longs.  strftime writes through the
    static variables [pt] and [gsize], which are the state of the model; its format
    is a string outside the buffer, given by its characters and the NUL.  An int
    that overflows is undefined behaviour. *)

From stdpp Require Import strings.
From Stdlib Require Import Ascii.
From S2P Require Import Prelude Memory.
Local Open Scope Z_scope.

Record tm := {
  tm_sec : Z; tm_min : Z; tm_hour : Z; tm_mday : Z; tm_mon : Z; tm_year : Z;
  tm_wday : Z; tm_yday : Z; tm_isdst : Z; tm_zone : option (list Z);
}.

Definition JDN_EPOCH_START : Z := 2440588.
Definition SEC_IN_DAY : Z := 60 * 60 * 24.

(** ** gmtime_r *)

(** The arithmetic is in longs of [w] bits, but for the first sum; the largest
    intermediate value is [4000 * (l + 1)] or [4 * l]. *)
Definition jdn2gregorian (w jdn : Z) : res (Z * Z * Z) :=
  l ← int (jdn + 68569);
  n4 ← signed w (4 * l);
  let n := n4 ÷ 146097 in
  n146 ← signed w (146097 * n + 3);
  let l := l - n146 ÷ 4 in
  i4000 ← signed w (4000 * (l + 1));
  let i := i4000 ÷ 1461001 in
  let l := l - (1461 * i) ÷ 4 + 31 in
  let j := (80 * l) ÷ 2447 in
  let d := l - (2447 * j) ÷ 80 in
  let l := j ÷ 11 in
  let m := j + 2 - 12 * l in
  let y := 100 * (n - 49) + i + l in
  Ok (s32 y, s32 m, s32 d).

(** time_t is unsigned on every architecture; the fields that are not set keep
    their values. *)
Definition gmtime_r (w tp : Z) (result : tm) : res tm :=
  let jdn := s32 (tp / SEC_IN_DAY) in
  jdn ← int (jdn + JDN_EPOCH_START);
  '(year, mon, mday) ← jdn2gregorian w jdn;
  tm_year ← int (year - 1900);
  tm_mon ← int (mon - 1);
  let hour := s32 ((tp / (60 * 60)) mod 24) in
  let min := s32 ((tp / 60) mod 60) in
  let sec := s32 (tp mod 60) in
  Ok {| tm_sec := sec; tm_min := min; tm_hour := hour; tm_mday := mday; tm_mon := tm_mon;
        tm_year := tm_year; tm_wday := tm_wday result; tm_yday := tm_yday result;
        tm_isdst := tm_isdst result; tm_zone := tm_zone result |}.

(** ** mktime *)

Definition gregorian2jdn (y m d : Z) : res Z :=
  m14 ← int (m - 14);
  y48 ← int (y + 4800 + m14 ÷ 12);
  a ← int (1461 * y48);
  b ← int (367 * (m - 2 - 12 * (m14 ÷ 12)));
  y49 ← int (y + 4900 + (m ÷ 14) ÷ 12);
  c ← int (3 * (y49 ÷ 100));
  int (a ÷ 4 + b ÷ 12 - c ÷ 4 + d - 32075).

(** The sum is computed in ints and then converted to time_t, of [w] bits. *)
Definition mktime (w : Z) (t : tm) : res Z :=
  y ← int (tm_year t + 1900);
  m ← int (tm_mon t + 1);
  jdn ← gregorian2jdn y m (tm_mday t);
  jdn ← int (jdn - JDN_EPOCH_START);
  a ← int (jdn * 24);
  a ← int (a + tm_hour t);
  a ← int (a * 60);
  a ← int (a + tm_min t);
  a ← int (a * 60);
  a ← int (a + tm_sec t);
  Ok (wrap w a).

(** ** strftime *)

Definition TM_YEAR_BASE : Z := 1900.

(** A character, and the characters of a string literal without its NUL. *)
Definition ch (c : Ascii.ascii) : Z := Z.of_N (Ascii.N_of_ascii c).
Definition chars (s : String.string) : list Z := ch <$> String.list_ascii_of_string s.
Definition afmt : list (list Z) :=
  [chars "Sun"; chars "Mon"; chars "Tue"; chars "Wed"; chars "Thu"; chars "Fri"; chars "Sat"].
Definition Afmt : list (list Z) :=
  [chars "Sunday"; chars "Monday"; chars "Tuesday"; chars "Wednesday"; chars "Thursday"; chars "Friday";
   chars "Saturday"].
Definition bfmt : list (list Z) :=
  [chars "Jan"; chars "Feb"; chars "Mar"; chars "Apr"; chars "May"; chars "Jun"; chars "Jul"; chars "Aug";
   chars "Sep"; chars "Oct"; chars "Nov"; chars "Dec"].
Definition Bfmt : list (list Z) :=
  [chars "January"; chars "February"; chars "March"; chars "April"; chars "May"; chars "June"; chars "July";
   chars "August"; chars "September"; chars "October"; chars "November"; chars "December"].

(** The static variables and the memory of the buffer. *)
Record out_t := { pt : Z; gsize : Z; omem : mem_t }.

(** [return (1)] is [true].  The NUL is stored but [pt] does not move past it. *)
Fixpoint _add (str : list Z) (o : out_t) : res (bool * out_t) :=
  if gsize o =? 0 then Ok (false, o) else
  match str with
  | [] => m ← store (pt o) 0 (omem o); Ok (true, {| pt := pt o; gsize := gsize o; omem := m |})
  | c :: str =>
    m ← store (pt o) c (omem o);
    _add str {| pt := pt o + 1; gsize := gsize o - 1; omem := m |}
  end.

(** The digits of [n > 0] in front of [acc], while [p] is above the start of the
    buffer: [p], the digits still wanted, and the text. *)
Fixpoint conv_digits (p : nat) (n digits : Z) (acc : list Z) : nat * Z * list Z :=
  match p with
  | O => (O, digits, acc)
  | S k => if 0 <? n then conv_digits k (n / 10) (digits - 1) (n mod 10 + 48 :: acc) else (p, digits, acc)
  end.

Fixpoint conv_pad (p : nat) (digits pad : Z) (acc : list Z) : list Z :=
  match p with
  | O => acc
  | S k => if 0 <? digits then conv_pad k (digits - 1) pad (pad :: acc) else acc
  end.

(** The text that [_conv] adds, from its static buffer of ten bytes, the last of
    which is the NUL. *)
Definition conv_text (n digits pad : Z) : list Z :=
  let '(p, digits, acc) := conv_digits 8 n digits [] in conv_pad p digits pad acc.

(** The text that [_secs] adds. *)
Definition secs_text (w : Z) (t : tm) : res (list Z) :=
  s ← mktime w t;
  let '(_, _, acc) := conv_digits 13 s 0 [] in
  Ok acc.

(** What a conversion character does: add a text, run [_fmt] on a literal, return
    zero, or leave the switch, which prints the character itself. *)
Inductive action := Add (text : list Z) | Fmt (literal : list Z) | Return0 | Break.

(** A name from a table, after the range check of its index. *)
Definition add_name (names : list (list Z)) (i : Z) : action :=
  match (if i <? 0 then None else names !! Z.to_nat i) with None => Return0 | Some s => Add s end.

Definition hour12 (t : tm) : Z := if Z.rem (tm_hour t) 12 =? 0 then 12 else Z.rem (tm_hour t) 12.

Definition conversion (w c : Z) (t : tm) : res action :=
  let conv n digits pad := Ok (Add (conv_text n digits pad)) in
  if c =? ch "A"%char then Ok (add_name Afmt (tm_wday t))
  else if c =? ch "a"%char then Ok (add_name afmt (tm_wday t))
  else if c =? ch "B"%char then Ok (add_name Bfmt (tm_mon t))
  else if (c =? ch "b"%char) || (c =? ch "h"%char) then Ok (add_name bfmt (tm_mon t))
  else if c =? ch "C"%char then Ok (Fmt (chars "%a %b %e %H:%M:%S %Y"))
  else if c =? ch "c"%char then Ok (Fmt (chars "%m/%d/%y %H:%M:%S"))
  else if c =? ch "D"%char then Ok (Fmt (chars "%m/%d/%y"))
  else if c =? ch "d"%char then conv (tm_mday t) 2 (ch "0"%char)
  else if c =? ch "e"%char then conv (tm_mday t) 2 (ch " "%char)
  else if c =? ch "H"%char then conv (tm_hour t) 2 (ch "0"%char)
  else if c =? ch "I"%char then conv (hour12 t) 2 (ch "0"%char)
  else if c =? ch "j"%char then (n ← int (tm_yday t + 1); conv n 3 (ch "0"%char))
  else if c =? ch "k"%char then conv (tm_hour t) 2 (ch " "%char)
  else if c =? ch "l"%char then conv (hour12 t) 2 (ch " "%char)
  else if c =? ch "M"%char then conv (tm_min t) 2 (ch "0"%char)
  else if c =? ch "m"%char then (n ← int (tm_mon t + 1); conv n 2 (ch "0"%char))
  else if c =? ch "n"%char then Ok (Add [10])
  else if c =? ch "p"%char then Ok (Add (if 12 <=? tm_hour t then chars "PM" else chars "AM"))
  else if c =? ch "R"%char then Ok (Fmt (chars "%H:%M"))
  else if c =? ch "r"%char then Ok (Fmt (chars "%I:%M:%S %p"))
  else if c =? ch "S"%char then conv (tm_sec t) 2 (ch "0"%char)
  else if c =? ch "s"%char then (s ← secs_text w t; Ok (Add s))
  else if (c =? ch "T"%char) || (c =? ch "X"%char) then Ok (Fmt (chars "%H:%M:%S"))
  else if c =? ch "t"%char then Ok (Add [9])
  else if c =? ch "U"%char then (n ← int (tm_yday t + 7 - tm_wday t); conv (n ÷ 7) 2 (ch "0"%char))
  else if c =? ch "W"%char then
    (n ← int (tm_yday t + 7 - (if tm_wday t =? 0 then 6 else tm_wday t - 1)); conv (n ÷ 7) 2 (ch "0"%char))
  else if c =? ch "w"%char then conv (tm_wday t) 1 (ch "0"%char)
  else if c =? ch "x"%char then Ok (Fmt (chars "%m/%d/%y"))
  else if c =? ch "y"%char then (n ← int (tm_year t + TM_YEAR_BASE); conv (Z.rem n 100) 2 (ch "0"%char))
  else if c =? ch "Y"%char then (n ← int (tm_year t + TM_YEAR_BASE); conv n 4 (ch "0"%char))
  else if c =? ch "Z"%char then Ok (match tm_zone t with None => Return0 | Some z => Add z end)
  else Ok Break.

(** [if (!gsize--) return(0); *pt++ = *format;] *)
Definition put_char (c : Z) (o : out_t) : res (bool * out_t) :=
  if gsize o =? 0 then Ok (false, o) else
  m ← store (pt o) c (omem o);
  Ok (true, {| pt := pt o + 1; gsize := gsize o - 1; omem := m |}).

(** The loop over the format; [depth] bounds the nesting of the literals, which is
    at most two. *)
Fixpoint fmt_loop (depth : nat) (w : Z) (t : tm) : list Z → out_t → res (bool * out_t) :=
  fix go (format : list Z) (o : out_t) : res (bool * out_t) :=
    match format with
    | [] => Ok (true, o)
    | c :: rest =>
      let literal c rest := '(ok, o) ← put_char c o; if (ok : bool) then go rest o else Ok (false, o) in
      if c =? ch "%"%char then
        match rest with
        | [] => literal c rest
        | c :: rest =>
          act ← conversion w c t;
          match act with
          | Add s => '(ok, o) ← _add s o; if (ok : bool) then go rest o else Ok (false, o)
          | Fmt l =>
            match depth with
            | O => Err NoFuel
            | S depth =>
              '(ok, o) ← fmt_loop depth w t l o;
              if (ok : bool) && negb (gsize o =? 0) then go rest o else Ok (false, o)
            end
          | Return0 => Ok (false, o)
          | Break => literal c rest
          end
        end
      else literal c rest
    end.

(** The value of [_fmt] is [gsize]: it is zero when the buffer is full. *)
Definition _fmt (w : Z) (t : tm) (format : list Z) (o : out_t) : res (Z * out_t) :=
  '(ok, o) ← fmt_loop 2 w t format o;
  Ok (if (ok : bool) then gsize o else 0, o).

Definition strftime (w s maxsize : Z) (format : list Z) (t : tm) (m : mem_t) : res (Z * mem_t) :=
  if maxsize <? 1 then Ok (0, m) else
  '(r, o) ← _fmt w t format {| pt := s; gsize := maxsize; omem := m |};
  if r =? 0 then Ok (0, omem o) else
  m ← store (pt o) 0 (omem o);
  Ok (maxsize - gsize o, m).
