(* ===== verification/TimeCalendar.v ===== *)
(** * The calendar formulas of gmtime_r.c and mktime.c

    The reference is the calendar itself: [next_day].  A day has coordinates: a
    century [c], a year [i] of it and a day [e] of that year, counted from the first
    of March, so that a leap day comes last.  The formulas compute the coordinates;
    months and days depend on [e] alone and are checked by evaluation. *)

From S2P Require Import Prelude Memory Time.
Local Open Scope Z_scope.

(** ** The calendar *)

Definition leap (y : Z) : bool := (y mod 4 =? 0) && (negb (y mod 100 =? 0) || (y mod 400 =? 0)).

Definition mdays (lp : bool) (m : Z) : Z :=
  if m =? 2 then if lp then 29 else 28
  else if (m =? 4) || (m =? 6) || (m =? 9) || (m =? 11) then 30 else 31.

Definition next_day (x : Z * Z * Z) : Z * Z * Z :=
  let '(y, m, d) := x in
  if d <? mdays (leap y) m then (y, m, d + 1)
  else if m <? 12 then (y, m + 1, 1) else (y + 1, 1, 1).

(** The date [n] days after 1 January 1970. *)
Definition date_of (n : nat) : Z * Z * Z := Nat.iter n next_day (1970, 1, 1).

(** ** Coordinates *)

Definition century (c : Z) : Z := (146097 * c + 3) / 4.
Definition year_start (i : Z) : Z := 1461 * i / 4.
Definition year_len (c i : Z) : Z :=
  if i =? 99 then century (c + 1) - century c - year_start 99 else year_start (i + 1) - year_start i.

Definition coords (l c i e : Z) : Prop :=
  l = century c + year_start i + e ∧ 0 ≤ i ≤ 99 ∧ 0 ≤ e < year_len c i.

(** Month, day and whether the month belongs to the next calendar year. *)
Definition month_day (e : Z) : Z * Z * Z :=
  let l := e + 31 in
  let j := 80 * l / 2447 in
  let d := l - 2447 * j / 80 in
  let k := j / 11 in
  (j + 2 - 12 * k, d, k).

Definition date_at (c i e : Z) : Z * Z * Z :=
  let '(m, d, k) := month_day e in (100 * (c - 49) + i + k, m, d).

Ltac Zdiv := Z.to_euclidean_division_equations; lia.

Lemma year_len_cases c i : 0 ≤ i ≤ 99 →
  year_len c i = if leap (100 * (c - 49) + i + 1) then 366 else 365.
Proof.
  intros Hi. unfold year_len, leap, century, year_start.
  destruct (Z.eqb_spec i 99) as [->|]; zcase; cbn [andb orb negb]; try Zdiv.
Qed.

Lemma century_year c l : century c ≤ l < century (c + 1) → 4 * l / 146097 = c.
Proof. unfold century. intros. Zdiv. Qed.

Lemma year_start_le i j : i ≤ j → year_start i ≤ year_start j.
Proof. unfold year_start. intros. Zdiv. Qed.

(** The formula for the year of a century, at the ends of each year. *)
Lemma year_formula_ends :
  forallb (λ k, let i := Z.of_nat k in
    (4000 * (year_start i + 1) / 1461001 =? i) && (4000 * year_start (i + 1) / 1461001 =? i)) (seq 0 100) = true.
Proof. by vm_compute. Qed.

Lemma year_formula i l : 0 ≤ i ≤ 99 → year_start i ≤ l < year_start (i + 1) → 4000 * (l + 1) / 1461001 = i.
Proof.
  intros Hi Hl. pose proof year_formula_ends as HE. rewrite forallb_forall in HE.
  specialize (HE (Z.to_nat i)). rewrite Z2Nat.id in HE by lia.
  destruct (andb_prop _ _ (HE ltac:(apply in_seq; lia))) as [E1 E2].
  apply Z.eqb_eq in E1, E2. Zdiv.
Qed.

Lemma coords_formula l c i e : coords l c i e →
  4 * l / 146097 = c ∧ 4000 * (l - century c + 1) / 1461001 = i ∧ l - century c - year_start i = e ∧
  0 ≤ l - century c ≤ 36524.
Proof.
  intros (-> & Hi & He). rewrite year_len_cases in He by done.
  assert (century c + year_start i + e < century (c + 1) ∧ e < year_start (i + 1) - year_start i) as [H1 H2].
  { unfold century, year_start, leap in *. destruct (Z.eqb_spec i 99) as [->|];
      revert He; zcase; cbn [andb orb negb]; intros; split; try Zdiv. }
  pose proof (year_start_le 0 i ltac:(lia)). change (year_start 0) with 0 in *.
  split_and!.
  - apply century_year. lia.
  - apply year_formula; lia.
  - lia.
  - lia.
  - assert (century (c + 1) - century c ≤ 36525) by (unfold century; Zdiv). lia.
Qed.

(** The next day has the next coordinates. *)
Lemma coords_next l c i e : coords l c i e →
  (coords (l + 1) c i (e + 1) ∧ e + 1 < year_len c i) ∨
  (e + 1 = year_len c i ∧ (coords (l + 1) c (i + 1) 0 ∧ i < 99 ∨ coords (l + 1) (c + 1) 0 0 ∧ i = 99)).
Proof.
  intros (-> & Hi & He). destruct (decide (e + 1 < year_len c i)) as [Hlt|Hge].
  { left. split; [|done]. split_and!; try lia. }
  right. split; [lia|]. destruct (decide (i = 99)) as [->|Hne].
  - right. split; [|done]. unfold coords. rewrite year_len_cases by lia.
    unfold year_len in *. cbn [Z.eqb Pos.eqb] in *. change (year_start 0) with 0.
    split_and!; try lia. destruct (leap _); lia.
  - left. split; [|lia]. unfold coords. rewrite year_len_cases by lia.
    unfold year_len in *. destruct (Z.eqb_spec i 99); [done|].
    split_and!; try lia. destruct (leap _); lia.
Qed.

(** ** Months and days *)

Definition next_md (lp : bool) (x : Z * Z * Z) : Z * Z * Z :=
  let '(m, d, k) := x in
  if d <? mdays lp m then (m, d + 1, k) else if m <? 12 then (m + 1, 1, k) else (1, 1, k + 1).

(** The day numbers of the formula of mktime. *)
Definition md_number (x : Z * Z * Z) : Z :=
  let '(m, d, k) := x in 367 * (m - 2 + 12 * k) / 12 + d.

Definition md_eqb (x y : Z * Z * Z) : bool :=
  (x.1.1 =? y.1.1) && (x.1.2 =? y.1.2) && (x.2 =? y.2).

Lemma md_eqb_eq x y : md_eqb x y = true → x = y.
Proof. destruct x as [[]], y as [[]]. unfold md_eqb. cbn. intros. bsimp. by subst. Qed.

Lemma months_check :
  forallb (λ k, let e := Z.of_nat k in
    let '(m, d, c) := month_day e in
    md_eqb (next_md true (month_day e)) (month_day (e + 1)) &&
    ((364 <=? e) || md_eqb (next_md false (month_day e)) (month_day (e + 1))) &&
    (md_number (month_day e) =? e + 31) && (1 <=? m) && (m <=? 12) && (1 <=? d) && (d <=? 31) &&
    (c =? if m <=? 2 then 1 else 0)) (seq 0 365) = true.
Proof. by vm_compute. Qed.

Lemma month_day_facts e : 0 ≤ e ≤ 365 →
  let '(m, d, k) := month_day e in
  1 ≤ m ≤ 12 ∧ 1 ≤ d ≤ 31 ∧ k = (if m <=? 2 then 1 else 0) ∧ md_number (month_day e) = e + 31 ∧
  (e ≤ 364 → next_md true (month_day e) = month_day (e + 1)) ∧
  (e ≤ 363 → next_md false (month_day e) = month_day (e + 1)).
Proof.
  intros He. destruct (decide (e = 365)) as [->|Hne].
  { change (month_day 365) with (2, 29, 1). cbv beta iota. split_and!; try lia; try done. }
  pose proof months_check as HC. rewrite forallb_forall in HC.
  specialize (HC (Z.to_nat e) ltac:(apply in_seq; lia)). rewrite Z2Nat.id in HC by lia.
  cbv zeta in HC. destruct (month_day e) as [[m d] k] eqn:E. bsimp.
  split_and!; try lia.
  - intros _. by apply md_eqb_eq.
  - intros Hle. apply md_eqb_eq. match goal with H : _ || _ = true |- _ => apply orb_prop in H as [H|H] end; [|done].
    bsimp. lia.
Qed.

Lemma next_day_md Y lp m d k :
  k = (if m <=? 2 then 1 else 0) → (m = 2 → leap (Y + 1) = lp) →
  next_day (Y + k, m, d) = let '(m', d', k') := next_md lp (m, d, k) in (Y + k', m', d').
Proof.
  intros Hk Hlp. unfold next_day, next_md.
  assert (mdays (leap (Y + k)) m = mdays lp m) as ->.
  { unfold mdays. destruct (Z.eqb_spec m 2) as [->|]; [|done]. cbn in Hk. subst k. by rewrite Hlp. }
  destruct (d <? _); [done|]. destruct (m <? 12); [done|]. f_equal. f_equal. lia.
Qed.

Lemma date_next l c i e : coords l c i e →
  ∃ c' i' e', coords (l + 1) c' i' e' ∧ date_at c' i' e' = next_day (date_at c i e).
Proof.
  intros Hc. pose proof Hc as (_ & Hi & He). rewrite year_len_cases in He by done.
  set (Y := 100 * (c - 49) + i) in *.
  assert (0 ≤ e ≤ 365) as He2 by (destruct (leap _); lia).
  pose proof (month_day_facts e He2) as HM.
  assert (date_at c i e = let '(m, d, k) := month_day e in (Y + k, m, d)) as -> by done.
  destruct (month_day e) as [[m d] k] eqn:E. destruct HM as (Hm & Hd & Hk & _ & HT & HF).
  rewrite (next_day_md Y (leap (Y + 1)) m d k Hk) by done.
  destruct (coords_next l c i e Hc) as [[Hn Hlt]|[Heq Hn]].
  - rewrite year_len_cases in Hlt by done. fold Y in Hlt. exists c, i, (e + 1). split; [done|]. unfold date_at. fold Y.
    destruct (leap (Y + 1)); [rewrite HT by lia|rewrite HF by lia]; done.
  - rewrite year_len_cases in Heq by done. fold Y in Heq.
    assert (next_md (leap (Y + 1)) (m, d, k) = (3, 1, 1)) as ->.
    { rewrite <- E. destruct (leap (Y + 1)).
      - replace e with 365 by lia. done.
      - replace e with 364 by lia. done. }
    destruct Hn as [[Hn ?]|[Hn ?]].
    + exists c, (i + 1), 0. split; [done|]. unfold date_at. change (month_day 0) with (3, 1, 0). f_equal. f_equal. lia.
    + exists (c + 1), 0, 0. split; [done|]. unfold date_at. change (month_day 0) with (3, 1, 0). f_equal. f_equal. lia.
Qed.

(** Day [l] of the formula is 1 January 1970 when [l] is 2509157. *)
Definition DAY0 : Z := 2509157.

Lemma date_of_coords n : ∃ c i e, coords (DAY0 + Z.of_nat n) c i e ∧ date_at c i e = date_of n.
Proof.
  induction n as [|n (c & i & e & Hc & E)].
  - exists 68, 69, 306. by vm_compute.
  - destruct (date_next _ c i e Hc) as (c' & i' & e' & Hc' & E').
    exists c', i', e'. rewrite Nat2Z.inj_succ, <- Z.add_1_r, Z.add_assoc. split; [done|].
    rewrite E', E. done.
Qed.

(** ** The code *)

(** The longs hold four times the day number. *)
Definition day_fits (w n : Z) : Prop := 32 ≤ w ∧ 0 ≤ n ∧ n + DAY0 < 2 ^ 31 ∧ 4 * (n + DAY0) + 3 < 2 ^ (w - 1).

Lemma jdn2gregorian_ok w n : day_fits w n →
  jdn2gregorian w (n + JDN_EPOCH_START) = Ok (date_of (Z.to_nat n)).
Proof.
  intros (Hw & Hn & H31 & Hfit). destruct (date_of_coords (Z.to_nat n)) as (c & i & e & Hc & <-).
  rewrite Z2Nat.id in Hc by done. destruct (coords_formula _ _ _ _ Hc) as (Ec & Ei & Ee & Hl).
  destruct Hc as (El & Hi & He).
  assert (2 ^ 31 ≤ 2 ^ (w - 1)) as H31w by (apply Z.pow_le_mono_r; lia).
  change (2 ^ 31) with 2147483648 in *.
  assert (0 ≤ c < 58800) as Hc by (unfold DAY0 in *; clear - Ec Hn H31; Zdiv).
  assert (146097 * c ≤ 4 * (DAY0 + n)) as Hc4 by (clear - Ec; Zdiv).
  unfold jdn2gregorian. rewrite (int_ok 32); change (2 ^ (32 - 1)) with 2147483648; unfold JDN_EPOCH_START, DAY0 in *; [|lia].
  rewrite Ok_bind. replace (n + 2440588 + 68569) with (2509157 + n) by lia.
  rewrite int_ok, Ok_bind by lia. cbv zeta. rewrite (Z.quot_div_nonneg (4 * _)), Ec by lia.
  rewrite int_ok, Ok_bind by lia. rewrite (Z.quot_div_nonneg (_ + 3)) by lia. fold (century c).
  rewrite int_ok, Ok_bind by lia. rewrite (Z.quot_div_nonneg (4000 * _)), Ei by lia.
  rewrite (Z.quot_div_nonneg (1461 * i)) by lia. fold (year_start i). rewrite Ee.
  rewrite year_len_cases in He by done. assert (0 ≤ e ≤ 365) as He2 by (destruct (leap _); lia).
  assert (0 ≤ 80 * (e + 31) / 2447 ≤ 13) as Hj by (clear - He2; Zdiv).
  rewrite !(Z.quot_div_nonneg (80 * _)), !(Z.quot_div_nonneg (2447 * _)), !(Z.quot_div_nonneg (80 * _ / _)) by lia.
  unfold date_at. pose proof (month_day_facts e He2) as HM.
  destruct (month_day e) as [[m d] k] eqn:E. unfold month_day in E. cbv zeta in E. injection E as Em Ed Ek.
  rewrite Em, Ed, Ek. destruct HM as (Hm & Hd & Hk & _).
  assert (0 ≤ k ≤ 1) by (subst k; destruct (m <=? 2); lia).
  rewrite !swrap_small by (change (2 ^ (32 - 1)) with 2147483648; lia). done.
Qed.

(** The century term of the formula. *)
Lemma century_term c i k : 68 ≤ c < 110 → 0 ≤ i ≤ 99 → 0 ≤ k ≤ 1 →
  let y := 100 * (c - 49) + i + k in
  1461 * (y + 4800 + - k) / 4 - 3 * ((y + 4900 + 0) / 100) / 4 =
    century c + year_start i - 36525 - (if (k =? 1) && (y mod 100 =? 0) && negb (y mod 400 =? 0) then 1 else 0).
Proof.
  intros Hc Hi Hk y. unfold century, year_start.
  assert ((y + 4900 + 0) / 100 = if (k =? 1) && (i =? 99) then c + 1 else c) as ->.
  { unfold y. zcase; cbn [andb]; Zdiv. }
  assert (((k =? 1) && (y mod 100 =? 0) && negb (y mod 400 =? 0)) =
    ((k =? 1) && (i =? 99) && negb (c mod 4 =? 0))) as ->.
  { unfold y. destruct (Z.eqb_spec k 1) as [->|]; [|done]. cbn [andb].
    destruct (Z.eqb_spec i 99) as [->|]; zcase; cbn [andb negb]; try done; exfalso; Zdiv. }
  unfold y. destruct (Z.eqb_spec k 1) as [->|], (Z.eqb_spec i 99) as [->|]; cbn [andb]; zcase; cbn [negb]; Zdiv.
Qed.

(** The day number that mktime computes is one too small in the first two months of
    a century year without a leap day. *)
Definition century_error (x : Z * Z * Z) : Z :=
  let '(y, m, d) := x in if (m <=? 2) && (y mod 100 =? 0) && negb (y mod 400 =? 0) then 1 else 0.

Lemma gregorian2jdn_ok n : 0 ≤ n < 1000000 →
  let '(y, m, d) := date_of (Z.to_nat n) in
  gregorian2jdn y m d = Ok (n + JDN_EPOCH_START - century_error (y, m, d)) ∧
  (century_error (y, m, d) = 0 ∨ century_error (y, m, d) = 1 ∧ 36525 ≤ n) ∧
  1900 ≤ y < 10000 ∧ 1 ≤ m ≤ 12 ∧ 1 ≤ d ≤ 31.
Proof.
  intros Hn. destruct (date_of_coords (Z.to_nat n)) as (c & i & e & Hc & <-).
  rewrite Z2Nat.id in Hc by lia. destruct (coords_formula _ _ _ _ Hc) as (Ec & _ & _ & _).
  destruct Hc as (El & Hi & He). unfold DAY0 in *.
  assert (68 ≤ c < 110) as Hc by (clear - Ec Hn; Zdiv).
  rewrite year_len_cases in He by done. assert (0 ≤ e ≤ 365) as He2 by (destruct (leap _); lia).
  unfold date_at. pose proof (month_day_facts e He2) as HM.
  destruct (month_day e) as [[m d] k] eqn:E. destruct HM as (Hm & Hd & Hk & HN & _). unfold md_number in HN.
  assert (0 ≤ k ≤ 1) by (subst k; destruct (m <=? 2); lia).
  assert (1 ≤ m - 2 + 12 * k ≤ 12) by (subst k; zcase; lia).
  split; [|split; [|lia]].
  2:{ unfold century_error. destruct ((m <=? 2) && _ && _) eqn:EE; [right|by left]. split; [done|]. bsimp.
      match goal with H1 : m ≤ 2, H2 : _ mod 100 = 0, H3 : _ mod 400 ≠ 0 |- _ =>
        assert (k = 1) as -> by (clear - Hk H1; zcase; lia);
        assert (i = 99) as -> by (clear - Hi H2; Zdiv);
        assert (c ≠ 68) as Hc68 by (intros ->; by apply H3) end.
      clear - El Hc Hc68 He2. unfold century, year_start in El. Zdiv. }
  unfold gregorian2jdn.
  assert ((m - 14) ÷ 12 = - k) as Ek.
  { subst k. clear - Hm. destruct (Z.leb_spec m 2); Zdiv. }
  assert ((m ÷ 14) ÷ 12 = 0) as E0 by (clear - Hm; Zdiv).
  int_step. rewrite Ek, E0. do 4 int_step.
  rewrite (Z.quot_div_nonneg (_ + 0) 100) by lia.
  assert (0 ≤ (100 * (c - 49) + i + k + 4900 + 0) / 100 < 200) as Hq by (clear - Hc Hi H; Zdiv).
  int_step.
  rewrite (Z.quot_div_nonneg (1461 * _) 4), (Z.quot_div_nonneg (367 * _) 12), (Z.quot_div_nonneg (3 * _) 4) by lia.
  match goal with |- signed 32 ?z = _ => assert (z = n + JDN_EPOCH_START - century_error (100 * (c - 49) + i + k, m, d)) as -> end.
  2:{ apply int_ok. change (2 ^ (32 - 1)) with 2147483648. unfold century_error, JDN_EPOCH_START. destruct (_ && _); lia. }
  pose proof (century_term c i k Hc Hi ltac:(lia)) as HT. cbv zeta in HT.
  replace (m - 2 - 12 * - k) with (m - 2 + 12 * k) by lia.
  assert ((k =? 1) = (m <=? 2)) as EK by (rewrite Hk; by destruct (m <=? 2)). rewrite EK in HT.
  unfold century_error, JDN_EPOCH_START. destruct ((m <=? 2) && _ && _); lia.
Qed.
