(* ===== verification/TimeTheorems.v ===== *)
(** * Theorems of the date functions

    Conversion to and from the calendar, and what strftime writes. *)

From S2P Require Import Prelude Memory Time TimeCalendar.
Local Open Scope Z_scope.

(** ** gmtime_r and mktime *)

Lemma date_of_range n : let '(y, m, d) := date_of n in
  1970 ≤ y ≤ 1970 + Z.of_nat n ∧ 1 ≤ m ≤ 12 ∧ 1 ≤ d ≤ 31.
Proof.
  induction n as [|n IH]; [cbn; lia|].
  change (date_of (S n)) with (next_day (date_of n)). destruct (date_of n) as [[y m] d].
  unfold next_day. assert (28 ≤ mdays (leap y) m ≤ 31) by (unfold mdays; destruct (leap y); zcase; cbn [orb]; lia).
  zcase; lia.
Qed.

(** The seconds of the fields. *)
Definition seconds (f : tm) : Z := (tm_hour f * 60 + tm_min f) * 60 + tm_sec f.

Lemma gmtime_ok w tp r : 0 ≤ tp → day_fits w (tp / 86400) →
  ∃ f, gmtime_r w tp r = Ok f ∧
    (tm_year f + 1900, tm_mon f + 1, tm_mday f) = date_of (Z.to_nat (tp / 86400)) ∧
    seconds f = tp mod 86400 ∧ 0 ≤ tm_hour f < 24 ∧ 0 ≤ tm_min f < 60 ∧ 0 ≤ tm_sec f < 60 ∧
    tm_wday f = tm_wday r ∧ tm_yday f = tm_yday r ∧ tm_isdst f = tm_isdst r ∧ tm_zone f = tm_zone r.
Proof.
  intros Ht HF. pose proof (jdn2gregorian_ok w (tp / 86400) HF) as HJ. destruct HF as (Hw & Hn & H31 & _).
  pose proof (date_of_range (Z.to_nat (tp / 86400))) as HD. rewrite Z2Nat.id in HD by done.
  change (2 ^ 31) with 2147483648 in *. unfold DAY0 in *.
  unfold gmtime_r. change SEC_IN_DAY with 86400.
  rewrite (swrap_small 32 (tp / 86400)) by (change (2 ^ (32 - 1)) with 2147483648; lia).
  unfold JDN_EPOCH_START in *. int_step. rewrite HJ, Ok_bind.
  destruct (date_of _) as [[y m] d]. int_step. int_step.
  eexists. split; [done|]. cbn [tm_year tm_mon tm_mday tm_hour tm_min tm_sec tm_wday tm_yday tm_isdst tm_zone].
  unfold seconds. cbn [tm_hour tm_min tm_sec].
  assert (0 ≤ (tp / (60 * 60)) mod 24 < 24 ∧ 0 ≤ (tp / 60) mod 60 < 60 ∧ 0 ≤ tp mod 60 < 60) as (H1 & H2 & H3).
  { split_and!; apply Z.mod_pos_bound; lia. }
  rewrite !swrap_small by (change (2 ^ (32 - 1)) with 2147483648; lia).
  split_and!; try done; try lia.
  - by rewrite !Z.sub_add.
  - clear. change (60 * 60) with 3600. Zdiv.
Qed.

Lemma mktime_ok w n f : 32 ≤ w → 0 ≤ n < 49711 →
  (tm_year f + 1900, tm_mon f + 1, tm_mday f) = date_of (Z.to_nat n) →
  0 ≤ tm_hour f < 24 → 0 ≤ tm_min f < 60 → 0 ≤ tm_sec f < 60 →
  mktime w f = let t := n * 86400 + seconds f in if t <? 2 ^ 31 then Ok t else Err Fault.
Proof.
  intros Hw Hn HD Hh Hm Hs. pose proof (gregorian2jdn_ok n ltac:(lia)) as HG. rewrite <- HD in HG.
  destruct HG as (HG & Herr & Hy & Hmo & Hd). unfold mktime. int_step. int_step. rewrite HG, Ok_bind.
  set (err := century_error _) in *.
  unfold JDN_EPOCH_START in *. unfold seconds. cbv zeta. change (2 ^ 31) with 2147483648.
  do 5 int_step. destruct (Z.ltb_spec (n * 86400 + ((tm_hour f * 60 + tm_min f) * 60 + tm_sec f)) 2147483648) as [Hlt|Hge].
  - assert (err = 0) as -> by lia. do 2 int_step.
    assert (2 ^ 32 ≤ 2 ^ w) by (apply Z.pow_le_mono_r; lia). change (2 ^ 32) with 4294967296 in *.
    rewrite wrap_small by lia. f_equal. lia.
  - match goal with |- context [mbind _ (signed 32 ?z)] => destruct (Z.ltb_spec z 2147483648) end.
    + int_step. assert (err = 0) as E0 by lia. rewrite int_overflow; [done|].
      change (2 ^ (32 - 1)) with 2147483648. lia.
    + rewrite int_overflow; [done|]. change (2 ^ (32 - 1)) with 2147483648. lia.
Qed.

(** C34: For every time that is not too far for the 32-bit day number and
    for the longs of the machine, gmtime_r finds the date that one reaches from
    1 January 1970 by going from day to day through the calendar, and the time of
    day; it leaves the other fields alone.  mktime turns the fields back into the
    same time for as long as the seconds fit a signed int, whatever the width of
    time_t; later its arithmetic overflows. *)
Theorem gmtime_mktime w tp r : 0 ≤ tp → day_fits w (tp / 86400) →
  ∃ f, gmtime_r w tp r = Ok f ∧
    (tm_year f + 1900, tm_mon f + 1, tm_mday f) = date_of (Z.to_nat (tp / 86400)) ∧
    seconds f = tp mod 86400 ∧ 0 ≤ tm_hour f < 24 ∧ 0 ≤ tm_min f < 60 ∧ 0 ≤ tm_sec f < 60 ∧
    (tm_wday f, tm_yday f, tm_isdst f, tm_zone f) = (tm_wday r, tm_yday r, tm_isdst r, tm_zone r) ∧
    (tp < 2 ^ 32 → mktime w f = if tp <? 2 ^ 31 then Ok tp else Err Fault).
Proof.
  intros Ht HF. destruct (gmtime_ok w tp r Ht HF) as (f & E & HD & Hsec & Hh & Hm & Hs & E1 & E2 & E3 & E4).
  exists f. rewrite E1, E2, E3, E4. split_and!; try done; try lia. intros Hlt. destruct HF as (Hw & Hn & _).
  change (2 ^ 32) with 4294967296 in Hlt. rewrite (mktime_ok w (tp / 86400) f) by (done || Zdiv). cbv zeta.
  rewrite Hsec. replace (tp / 86400 * 86400 + tp mod 86400) with tp by Zdiv. done.
Qed.

(** ** strftime *)

(** The text that a format stands for; [None] when a field is out of range. *)
Fixpoint expand (depth : nat) (w : Z) (t : tm) : list Z → res (option (list Z)) :=
  fix go (format : list Z) : res (option (list Z)) :=
    match format with
    | [] => Ok (Some [])
    | c :: rest =>
      let one c rest := r ← go rest; Ok (fmap (M:=option) (app [c]) r) in
      if c =? 37 then
        match rest with
        | [] => one c rest
        | c :: rest =>
          act ← conversion w c t;
          match act with
          | Add s => r ← go rest; Ok (fmap (M:=option) (app s) r)
          | Fmt l =>
            match depth with
            | O => Err NoFuel
            | S depth =>
              x ← expand depth w t l;
              r ← go rest;
              Ok (match x with Some x => fmap (M:=option) (app x) r | None => None end)
            end
          | Return0 => Ok None
          | Break => one c rest
          end
        end
      else one c rest
    end.

(** What a step of the loop does when its text is [x]: it either writes the whole
    text, perhaps with a NUL behind it, or runs out of room; nothing outside the
    room that is left changes. *)
Definition emits (o o' : out_t) (ok : bool) (x : option (list Z)) : Prop :=
  (∀ a, ¬ (pt o ≤ a < pt o + gsize o) → omem o' !! a = omem o !! a) ∧
  (∀ a, is_Some (omem o !! a) → is_Some (omem o' !! a)) ∧
  if ok then ∃ out, x = Some out ∧ Z.of_nat (length out) ≤ gsize o ∧
    pt o' = pt o + Z.of_nat (length out) ∧ gsize o' = gsize o - Z.of_nat (length out) ∧
    (∀ i c, out !! i = Some c → omem o' !! (pt o + Z.of_nat i) = Some c) ∧
    (∀ a, pt o + Z.of_nat (length out) < a → omem o' !! a = omem o !! a)
  else match x with Some out => gsize o ≤ Z.of_nat (length out) | None => True end.

Definition room (o : out_t) : Prop := 0 ≤ gsize o ∧ mapped (omem o) (pt o) (gsize o).

Lemma emits_room o o' x : room o → emits o o' true x → room o'.
Proof.
  intros [H1 H2] (_ & Hm & out & _ & Hl & Ep & Eg & _). split; [lia|].
  intros a Ha. apply Hm, H2. lia.
Qed.

Lemma emits_nil o : 0 ≤ gsize o → emits o o true (Some []).
Proof.
  intros Hg. split_and!; [done|done|]. exists []. cbn. split_and!; try lia; done.
Qed.

(** One piece of text after another. *)
Lemma emits_app o o1 o2 ok s x :
  emits o o1 true (Some s) → emits o1 o2 ok x → emits o o2 ok (app s <$> x).
Proof.
  intros (F1 & M1 & out & [= <-] & Hl & Ep & Eg & W1 & R1) (F2 & M2 & H2).
  split_and!.
  - intros a Ha. rewrite F2 by lia. by apply F1.
  - intros a Ha. by apply M2, M1.
  - destruct ok.
    + destruct H2 as (out2 & -> & Hl2 & Ep2 & Eg2 & W2 & R2). exists (s ++ out2).
      rewrite length_app, Nat2Z.inj_add. split_and!; try done; try lia.
      * intros i c Hi. apply lookup_app_Some in Hi as [Hi|[Hge Hi]].
        -- apply lookup_lt_Some in Hi as Hlt. rewrite F2 by lia. by apply W1.
        -- rewrite <- (W2 _ _ Hi). f_equal. lia.
      * intros a Ha. rewrite R2 by lia. apply R1. lia.
    + destruct x as [x|]; [|done]. cbn. rewrite length_app, Nat2Z.inj_add. lia.
Qed.

(** A piece of text that does not fit: what follows is of no interest. *)
Lemma emits_stop o o1 s (x : option (list Z)) : emits o o1 false (Some s) → emits o o1 false (app s <$> x).
Proof.
  intros (F & M & H). split_and!; [done|done|]. destruct x; [|done]. cbn. rewrite length_app. lia.
Qed.

Lemma add_emits s : ∀ o, room o → ∃ ok o', _add s o = Ok (ok, o') ∧ emits o o' ok (Some s).
Proof.
  induction s as [|c s IH]; intros o [Hg Hm]; cbn [_add]; destruct (Z.eqb_spec (gsize o) 0) as [E0|Hne].
  - exists false, o. split; [done|]. split_and!; [done|done|]. cbn. lia.
  - rewrite store_ok by (apply Hm; lia). rewrite Ok_bind. eexists true, _. split; [done|].
    split_and!; cbn [omem pt gsize].
    + intros a Ha. rewrite lookup_insert_ne by lia. done.
    + intros a Ha. destruct (decide (pt o = a)) as [->|]; [rewrite lookup_insert_eq; eauto|by rewrite lookup_insert_ne].
    + exists []. cbn. split_and!; try lia; try done. intros a Ha. by rewrite lookup_insert_ne by lia.
  - exists false, o. split; [done|]. split_and!; [done|done|]. lia.
  - rewrite store_ok by (apply Hm; lia). rewrite Ok_bind.
    set (o1 := {| pt := pt o + 1; gsize := gsize o - 1; omem := <[pt o := c]> (omem o) |}).
    assert (emits o o1 true (Some [c])) as H1.
    { split_and!; cbn [omem pt gsize o1].
      - intros a Ha. rewrite lookup_insert_ne by lia. done.
      - intros a Ha. destruct (decide (pt o = a)) as [->|]; [rewrite lookup_insert_eq; eauto|by rewrite lookup_insert_ne].
      - exists [c]. cbn. split_and!; try lia; try done.
        + intros [|[|i]] c' [= <-]. by rewrite Z.add_0_r, lookup_insert_eq.
        + intros a Ha. by rewrite lookup_insert_ne by lia. }
    destruct (IH o1 (emits_room _ _ _ (conj Hg Hm) H1)) as (ok & o2 & -> & H2).
    exists ok, o2. split; [done|]. exact (emits_app _ _ _ _ _ _ H1 H2).
Qed.

Lemma put_emits c o : room o → ∃ ok o', put_char c o = Ok (ok, o') ∧ emits o o' ok (Some [c]).
Proof.
  intros [Hg Hm]. unfold put_char. destruct (Z.eqb_spec (gsize o) 0) as [E0|Hne].
  - exists false, o. split; [done|]. split_and!; [done|done|]. cbn. lia.
  - rewrite store_ok by (apply Hm; lia). rewrite Ok_bind. eexists true, _. split; [done|].
    split_and!; cbn [omem pt gsize].
    + intros a Ha. rewrite lookup_insert_ne by lia. done.
    + intros a Ha. destruct (decide (pt o = a)) as [->|]; [rewrite lookup_insert_eq; eauto|by rewrite lookup_insert_ne].
    + exists [c]. cbn. split_and!; try lia; try done.
      * intros [|[|i]] c' [= <-]. by rewrite Z.add_0_r, lookup_insert_eq.
      * intros a Ha. by rewrite lookup_insert_ne by lia.
Qed.

(** One turn of the loop, and of the expansion, with what comes after as [go]. *)
Definition turn {A} (one : Z → list Z → A) (conv : Z → list Z → A) (c : Z) (rest : list Z) : A :=
  if c =? 37 then match rest with [] => one c rest | c :: rest => conv c rest end else one c rest.

Definition loop_act depth w t (c : Z) (rest : list Z) (o : out_t) : res (bool * out_t) :=
  act ← conversion w c t;
  match act with
  | Add s => '(ok, o) ← _add s o; if (ok : bool) then fmt_loop depth w t rest o else Ok (false, o)
  | Fmt l =>
    match depth with
    | O => Err NoFuel
    | S depth' =>
      '(ok, o) ← fmt_loop depth' w t l o;
      if (ok : bool) && negb (gsize o =? 0) then fmt_loop depth w t rest o else Ok (false, o)
    end
  | Return0 => Ok (false, o)
  | Break => '(ok, o) ← put_char c o; if (ok : bool) then fmt_loop depth w t rest o else Ok (false, o)
  end.

Lemma fmt_loop_eq depth w t c rest o :
  fmt_loop depth w t (c :: rest) o =
  turn (λ c rest, '(ok, o) ← put_char c o; if (ok : bool) then fmt_loop depth w t rest o else Ok (false, o))
    (λ c rest, loop_act depth w t c rest o) c rest.
Proof. destruct depth; reflexivity. Qed.

Definition expand_act depth w t (c : Z) (rest : list Z) : res (option (list Z)) :=
  act ← conversion w c t;
  match act with
  | Add s => r ← expand depth w t rest; Ok (fmap (M:=option) (app s) r)
  | Fmt l =>
    match depth with
    | O => Err NoFuel
    | S depth' =>
      x ← expand depth' w t l;
      r ← expand depth w t rest;
      Ok (match x with Some x => fmap (M:=option) (app x) r | None => None end)
    end
  | Return0 => Ok None
  | Break => r ← expand depth w t rest; Ok (fmap (M:=option) (app [c]) r)
  end.

Lemma expand_eq depth w t c rest :
  expand depth w t (c :: rest) =
  turn (λ c rest, r ← expand depth w t rest; Ok (fmap (M:=option) (app [c]) r)) (expand_act depth w t) c rest.
Proof. destruct depth; reflexivity. Qed.

(** The promise for a suffix of the format. *)
Definition emits_ok depth w t (l : list Z) : Prop := ∀ o x, room o → expand depth w t l = Ok x →
  ∃ ok o', fmt_loop depth w t l o = Ok (ok, o') ∧ emits o o' ok x.

(** A piece of text, and then the rest of the format. *)
Lemma emits_then depth w t rest o o1 (ok : bool) s r :
  emits_ok depth w t rest → room o → emits o o1 ok (Some s) → expand depth w t rest = Ok r →
  ∃ ok' o', (if ok then fmt_loop depth w t rest o1 else Ok (false, o1)) = Ok (ok', o') ∧
    emits o o' ok' (app s <$> r).
Proof.
  intros IH Hr H1 Ex. destruct ok.
  - destruct (IH o1 r (emits_room _ _ _ Hr H1) Ex) as (ok & o2 & E & H2).
    exists ok, o2. split; [done|]. exact (emits_app _ _ _ _ _ _ H1 H2).
  - exists false, o1. split; [done|]. by apply emits_stop.
Qed.

Lemma emits_put depth w t c rest o x :
  emits_ok depth w t rest → room o →
  (r ← expand depth w t rest; Ok (fmap (M:=option) (app [c]) r)) = Ok x →
  ∃ ok o', ('(ok, o) ← put_char c o; if (ok : bool) then fmt_loop depth w t rest o else Ok (false, o)) =
    Ok (ok, o') ∧ emits o o' ok x.
Proof.
  intros IH Hr Hx. apply bind_inv in Hx as (r & Ex & [= <-]).
  destruct (put_emits c o Hr) as (ok & o1 & -> & H1). rewrite Ok_bind.
  exact (emits_then _ _ _ _ _ _ _ _ _ IH Hr H1 Ex).
Qed.

(** A nested literal that filled the buffer counts as a failure. *)
Lemma emits_nested o o1 (ok : bool) x : room o → emits o o1 ok x →
  emits o o1 (ok && negb (gsize o1 =? 0)) x.
Proof.
  intros _ H. destruct ok; [|done]. destruct (Z.eqb_spec (gsize o1) 0) as [E|]; [|done].
  destruct H as (F & M & out & -> & Hl & _ & Eg & _). split_and!; [done|done|]. cbn. lia.
Qed.

Lemma emits_act depth w t c rest o x :
  (∀ l, (match depth with O => False | S d => emits_ok d w t l end) ∨ depth = O) →
  emits_ok depth w t rest → room o → expand_act depth w t c rest = Ok x →
  ∃ ok o', loop_act depth w t c rest o = Ok (ok, o') ∧ emits o o' ok x.
Proof.
  intros ID IH Hr Hx. unfold expand_act in Hx. apply bind_inv in Hx as (act & EA & Hx).
  unfold loop_act. rewrite EA, Ok_bind. destruct act as [s|l| |].
  - apply bind_inv in Hx as (r & Ex & [= <-]).
    destruct (add_emits s o Hr) as (ok & o1 & -> & H1). rewrite Ok_bind.
    exact (emits_then _ _ _ _ _ _ _ _ _ IH Hr H1 Ex).
  - destruct depth as [|depth]; [done|]. apply bind_inv in Hx as (y & Ey & Hx).
    apply bind_inv in Hx as (r & Ex & [= <-]). destruct (ID l) as [HD|]; [|done].
    destruct (HD o y Hr Ey) as (ok & o1 & -> & H1). rewrite Ok_bind.
    apply emits_nested in H1; [|done]. destruct y as [y|].
    + exact (emits_then _ _ _ _ _ _ _ _ _ IH Hr H1 Ex).
    + destruct (ok && _).
      * by destruct H1 as (_ & _ & out & ? & _).
      * by exists false, o1.
  - injection Hx as <-. exists false, o. split; [done|]. by split_and!.
  - by apply emits_put.
Qed.

Lemma fmt_loop_emits depth : ∀ w t l, emits_ok depth w t l.
Proof.
  induction depth as [|depth ID]; intros w t l; remember (length l) as n eqn:En; revert l En;
    induction (lt_wf n) as [n _ IH]; intros l ->; intros o x Hr Hx.
  all: destruct l as [|c rest];
    [injection Hx as <-; exists true, o; split; [done|]; apply emits_nil, Hr|].
  all: rewrite expand_eq in Hx; rewrite fmt_loop_eq; unfold turn in *.
  all: assert (emits_ok _ w t rest) as IH1 by (eapply IH; [|done]; cbn; lia).
  all: destruct (c =? 37); [|by apply emits_put].
  all: destruct rest as [|c2 rest]; [by apply emits_put|].
  all: apply emits_act; [|eapply IH; [|done]; cbn; lia|done|done].
  - intros _. by right.
  - intros l. left. apply ID.
Qed.

Lemma strftime_ok w s maxsize format t m x :
  1 ≤ maxsize → mapped m s maxsize → expand 2 w t format = Ok x →
  ∃ r m', strftime w s maxsize format t m = Ok (r, m') ∧
    (∀ a, ¬ (s ≤ a < s + maxsize) → m' !! a = m !! a) ∧
    match x with
    | Some out =>
      if Z.of_nat (length out) <? maxsize then
        r = Z.of_nat (length out) ∧ (∀ i c, (out ++ [0]) !! i = Some c → m' !! (s + Z.of_nat i) = Some c)
      else r = 0
    | None => r = 0
    end.
Proof.
  intros Hn Hm Hx. unfold strftime, _fmt. destruct (Z.ltb_spec maxsize 1); [lia|].
  destruct (fmt_loop_emits 2 w t format {| pt := s; gsize := maxsize; omem := m |} x) as (ok & o & E & F & M & H2);
    [split; [cbn; lia|done]|done|].
  cbn [pt gsize omem] in *. rewrite E, !Ok_bind. destruct ok.
  - destruct H2 as (out & -> & Hl & Ep & Eg & W & R). rewrite Eg, Ep.
    destruct (Z.eqb_spec (maxsize - Z.of_nat (length out)) 0) as [E0|Hne].
    + exists 0, (omem o). split_and!; [done|done|]. by rewrite (proj2 (Z.ltb_ge _ _)) by lia.
    + rewrite store_ok by (apply M, Hm; lia). rewrite Ok_bind. eexists _, _. split; [done|]. split.
      * intros a Ha. rewrite lookup_insert_ne by lia. by apply F.
      * rewrite (proj2 (Z.ltb_lt _ _)) by lia. split; [lia|]. intros i c Hi.
        apply lookup_app_Some in Hi as [Hi|[Hge Hi]].
        -- apply lookup_lt_Some in Hi as Hlt. rewrite lookup_insert_ne by lia. by apply W.
        -- destruct (i - length out)%nat eqn:Ei; [|done]. injection Hi as <-.
           replace (Z.of_nat i) with (Z.of_nat (length out)) by lia. by rewrite lookup_insert_eq.
  - exists 0, (omem o). split_and!; [done|done|]. destruct x; [|done].
    by rewrite (proj2 (Z.ltb_ge _ _)).
Qed.

(** ** A timestamp *)

(** The decimal numeral of [n] with [k] digits. *)
Fixpoint dec (k : nat) (n : Z) : list Z :=
  match k with O => [] | S k => dec k (n / 10) ++ [n mod 10 + 48] end.

Lemma length_dec k : ∀ n, length (dec k n) = k.
Proof. induction k as [|k IH]; intros n; [done|]. cbn [dec]. rewrite length_app, IH. cbn. lia. Qed.

Lemma conv_pad_zeros k : ∀ p acc, (k ≤ p)%nat → conv_pad p (Z.of_nat k) 48 acc = dec k 0 ++ acc.
Proof.
  induction k as [|k IH]; intros p acc Hp; [by destruct p|]. destruct p as [|p]; [lia|].
  cbn [conv_pad dec]. destruct (Z.ltb_spec 0 (Z.of_nat (S k))); [|lia].
  replace (Z.of_nat (S k) - 1) with (Z.of_nat k) by lia. rewrite IH, <- app_assoc by lia. done.
Qed.

Lemma conv_number k : ∀ p n acc, (k ≤ p)%nat → 0 ≤ n < 10 ^ Z.of_nat k →
  (let '(p', digits, acc') := conv_digits p n (Z.of_nat k) acc in conv_pad p' digits 48 acc') = dec k n ++ acc.
Proof.
  induction k as [|k IH]; intros p n acc Hp Hn.
  - change (10 ^ Z.of_nat 0) with 1 in Hn. assert (n = 0) as -> by lia. by destruct p.
  - destruct p as [|p]; [lia|]. cbn [conv_digits]. destruct (Z.ltb_spec 0 n).
    + replace (Z.of_nat (S k) - 1) with (Z.of_nat k) by lia. rewrite IH; [|lia|].
      * cbn [dec]. by rewrite <- app_assoc.
      * rewrite Nat2Z.inj_succ, Z.pow_succ_r in Hn by lia. split; [apply Z.div_pos; lia|apply Z.div_lt_upper_bound; lia].
    + assert (n = 0) as -> by lia. by apply conv_pad_zeros.
Qed.

Lemma conv_text_dec k n : (k ≤ 8)%nat → 0 ≤ n < 10 ^ Z.of_nat k → conv_text n (Z.of_nat k) 48 = dec k n.
Proof.
  intros Hk Hn. unfold conv_text. pose proof (conv_number k 8 n [] Hk Hn) as E.
  destruct (conv_digits 8 n (Z.of_nat k) []) as [[p digits] acc]. by rewrite app_nil_r in E.
Qed.

(** "%Y-%m-%d %H:%M:%S" *)
Definition ISO : list Z := [37; 89; 45; 37; 109; 45; 37; 100; 32; 37; 72; 58; 37; 77; 58; 37; 83].

Definition iso_text (y m d sec : Z) : list Z :=
  dec 4 y ++ [45] ++ dec 2 m ++ [45] ++ dec 2 d ++ [32] ++
  dec 2 (sec / 3600) ++ [58] ++ dec 2 ((sec / 60) mod 60) ++ [58] ++ dec 2 (sec mod 60).

Lemma expand_conv depth w t c rest n k r :
  conversion w c t = Ok (Add (conv_text n (Z.of_nat k) 48)) → (k ≤ 8)%nat → 0 ≤ n < 10 ^ Z.of_nat k →
  expand depth w t rest = Ok (Some r) → expand depth w t (37 :: c :: rest) = Ok (Some (dec k n ++ r)).
Proof.
  intros EA Hk Hn Er. rewrite expand_eq. unfold turn. cbn [Z.eqb Pos.eqb]. unfold expand_act.
  rewrite EA, Ok_bind, Er, Ok_bind, conv_text_dec by done. done.
Qed.

Lemma expand_char depth w t c rest r : c ≠ 37 →
  expand depth w t rest = Ok (Some r) → expand depth w t (c :: rest) = Ok (Some ([c] ++ r)).
Proof.
  intros Hc Er. rewrite expand_eq. unfold turn. destruct (Z.eqb_spec c 37); [done|]. by rewrite Er, Ok_bind.
Qed.

(** The two functions together print a timestamp: for a time of 32 bits and
    a buffer of at least 20 bytes, gmtime_r and strftime with the format
    "%Y-%m-%d %H:%M:%S" leave the calendar date and the time of day in decimal,
    19 characters and a NUL. *)
Theorem timestamp w tp r0 s maxsize m : 32 ≤ w → 0 ≤ tp < 2 ^ 32 → 20 ≤ maxsize → mapped m s maxsize →
  let '(y, mo, d) := date_of (Z.to_nat (tp / 86400)) in
  ∃ f m', gmtime_r w tp r0 = Ok f ∧ strftime w s maxsize ISO f m = Ok (19, m') ∧
    (∀ i c, (iso_text y mo d (tp mod 86400) ++ [0]) !! i = Some c → m' !! (s + Z.of_nat i) = Some c) ∧
    (∀ a, ¬ (s ≤ a < s + maxsize) → m' !! a = m !! a).
Proof.
  intros Hw Ht Hn Hm. change (2 ^ 32) with 4294967296 in Ht.
  assert (0 ≤ tp / 86400 < 49711) as Hd by (clear - Ht; Zdiv).
  assert (day_fits w (tp / 86400)) as HF.
  { assert (2 ^ 31 ≤ 2 ^ (w - 1)) by (apply Z.pow_le_mono_r; lia). change (2 ^ 31) with 2147483648 in *.
    unfold day_fits, DAY0. change (2 ^ 31) with 2147483648. lia. }
  destruct (gmtime_ok w tp r0 ltac:(lia) HF) as (f & E & HD & Hsec & Hh & Hmi & Hs & _).
  pose proof (gregorian2jdn_ok (tp / 86400) ltac:(lia)) as HG. rewrite <- HD in HG |- *.
  destruct HG as (_ & _ & Hy & Hmo & Hda). exists f.
  assert (expand 2 w f ISO = Ok (Some (iso_text (tm_year f + 1900) (tm_mon f + 1) (tm_mday f) (tp mod 86400)))) as Ex.
  { unfold iso_text, ISO. rewrite <- Hsec. unfold seconds.
    replace (((tm_hour f * 60 + tm_min f) * 60 + tm_sec f) / 3600) with (tm_hour f) by Zdiv.
    replace (((tm_hour f * 60 + tm_min f) * 60 + tm_sec f) / 60 mod 60) with (tm_min f) by Zdiv.
    replace (((tm_hour f * 60 + tm_min f) * 60 + tm_sec f) mod 60) with (tm_sec f) by Zdiv.
    rewrite <- (app_nil_r (dec 2 (tm_sec f))).
    repeat first
      [ apply expand_char; [done|]
      | apply expand_conv; [|lia|change (10 ^ Z.of_nat 4) with 10000; change (10 ^ Z.of_nat 2) with 100; lia|]
      | reflexivity ].
    - rewrite (eq_refl : conversion w 89 f = n ← int (tm_year f + 1900); Ok (Add (conv_text n 4 48))).
      by int_step.
    - rewrite (eq_refl : conversion w 109 f = n ← int (tm_mon f + 1); Ok (Add (conv_text n 2 48))).
      by int_step.
  }
  destruct (strftime_ok w s maxsize ISO f m _ ltac:(lia) Hm Ex) as (r & m' & E2 & HO & H2).
  assert (length (iso_text (tm_year f + 1900) (tm_mon f + 1) (tm_mday f) (tp mod 86400)) = 19%nat) as HL.
  { unfold iso_text. by rewrite !length_app, !length_dec. }
  rewrite HL in H2. destruct (Z.ltb_spec (Z.of_nat 19) maxsize); [|lia]. destruct H2 as [-> H2].
  exists m'. by split_and!.
Qed.

(** C35: When no field of the format is out of range and the text with its NUL
    fits, strftime writes exactly the text and a NUL into the buffer and returns the
    length of the text; otherwise it returns 0.  Whatever the format, it writes
    nothing outside the [maxsize] bytes it was given. *)
Theorem strftime_writes w s maxsize format t m x :
  1 ≤ maxsize → mapped m s maxsize → expand 2 w t format = Ok x →
  ∃ r m', strftime w s maxsize format t m = Ok (r, m') ∧
    (∀ a, ¬ (s ≤ a < s + maxsize) → m' !! a = m !! a) ∧
    match x with
    | Some out =>
      if Z.of_nat (length out) <? maxsize then
        r = Z.of_nat (length out) ∧ (∀ i c, (out ++ [0]) !! i = Some c → m' !! (s + Z.of_nat i) = Some c)
      else r = 0
    | None => r = 0
    end.
Proof. apply strftime_ok. Qed.

Module TimeDemo.
Definition tm0 : tm := {| tm_sec := 0; tm_min := 0; tm_hour := 0; tm_mday := 0; tm_mon := 0; tm_year := 0;
  tm_wday := 2; tm_yday := 59; tm_isdst := 0; tm_zone := None |}.

(** 29 February 2000, 12:34:56. *)
Definition t0 : Z := 951827696.

Lemma gmtime_mktime_witness : (0 ≤ t0 ∧ day_fits 32 (t0 / 86400)) ∧
  ∃ f, gmtime_r 32 t0 tm0 = Ok f ∧ (tm_year f + 1900, tm_mon f + 1, tm_mday f) = (2000, 2, 29) ∧
    mktime 32 f = Ok t0.
Proof.
  assert (0 ≤ t0 ∧ day_fits 32 (t0 / 86400)) as [H1 H2] by (vm_compute; split_and!; discriminate || reflexivity).
  split; [split; [exact H1|exact H2]|].
  destruct (gmtime_mktime 32 t0 tm0 H1 H2) as (f & E & ED & _ & _ & _ & _ & _ & EM).
  exists f. split; [exact E|]. split; [rewrite ED; vm_compute; reflexivity|].
  rewrite EM; [vm_compute; reflexivity|vm_compute; reflexivity].
Defined.

(** A buffer of [n] bytes at 100. *)
Definition buf0 (n : nat) : mem_t := list_to_map ((λ i, (100 + Z.of_nat i, 7)) <$> seq 0 n).

Lemma buf0_mapped : mapped (buf0 20) 100 20.
Proof.
  assert (∀ i, (i < 20)%nat → is_Some (buf0 20 !! (100 + Z.of_nat i))) as HB.
  { intros i Hi. do 20 (destruct i as [|i]; [vm_compute; eauto|]). lia. }
  intros a Ha. replace a with (100 + Z.of_nat (Z.to_nat (a - 100))) by lia. apply HB. lia.
Qed.

Definition f0 : tm := {| tm_sec := 56; tm_min := 34; tm_hour := 12; tm_mday := 29; tm_mon := 1; tm_year := 100;
  tm_wday := 2; tm_yday := 59; tm_isdst := 0; tm_zone := None |}.

(** "Tue, 29 Feb" fits. *)
Lemma strftime_writes_witness :
  mapped (buf0 20) 100 20 ∧
  ∃ m', strftime 32 100 20 [37; 97; 44; 32; 37; 100; 32; 37; 98] f0 (buf0 20) = Ok (11, m') ∧
    m' !! 100 = Some 84 ∧ m' !! 110 = Some 98 ∧ m' !! 111 = Some 0 ∧ m' !! 112 = Some 7.
Proof.
  split; [exact buf0_mapped|].
  destruct (strftime_writes 32 100 20 [37; 97; 44; 32; 37; 100; 32; 37; 98] f0 (buf0 20)
    (Some [84; 117; 101; 44; 32; 50; 57; 32; 70; 101; 98])) as (r & m' & E & _ & Hr & HW);
    [lia|exact buf0_mapped|vm_compute; reflexivity|].
  exists m'. rewrite E, Hr. split; [reflexivity|].
  split; [exact (HW 0%nat 84 eq_refl)|]. split; [exact (HW 10%nat 98 eq_refl)|].
  split; [exact (HW 11%nat 0 eq_refl)|].
  assert (strftime 32 100 20 [37; 97; 44; 32; 37; 100; 32; 37; 98] f0 (buf0 20) = Ok (r, m')) as E' by exact E.
  vm_compute in E'. injection E' as _ <-. vm_compute. reflexivity.
Defined.

Lemma timestamp_witness :
  (32 ≤ 32 ∧ 0 ≤ t0 < 2 ^ 32 ∧ 20 ≤ 20 ∧ mapped (buf0 20) 100 20) ∧
  ∃ f m', gmtime_r 32 t0 tm0 = Ok f ∧ strftime 32 100 20 ISO f (buf0 20) = Ok (19, m') ∧
    m' !! 100 = Some 50 ∧ m' !! 118 = Some 54 ∧ m' !! 119 = Some 0.
Proof.
  assert (0 ≤ t0 < 2 ^ 32) as Ht by (vm_compute; split; discriminate || reflexivity).
  split; [split_and!; [lia|apply Ht|apply Ht|lia|exact buf0_mapped]|].
  pose proof (timestamp 32 t0 tm0 100 20 (buf0 20) ltac:(lia) Ht ltac:(lia) buf0_mapped) as HT.
  replace (date_of (Z.to_nat (t0 / 86400))) with (2000, 2, 29) in HT by (vm_compute; reflexivity).
  destruct HT as (f & m' & E1 & E2 & HW & _). exists f, m'. split; [exact E1|]. split; [exact E2|].
  split; [exact (HW 0%nat 50 eq_refl)|]. split; [exact (HW 18%nat 54 eq_refl)|exact (HW 19%nat 0 eq_refl)].
Defined.

(** The days of January and February 2100 have the numbers of the days before. *)
Lemma century_day_lost : gregorian2jdn 2100 1 1 = gregorian2jdn 2099 12 31.
Proof. reflexivity. Qed.

(** Midnight prints as two blanks with "%k", and 1 January 1970 as nothing with
    "%s". *)
Lemma zero_prints_nothing : conv_text 0 2 32 = [32; 32] ∧
  secs_text 32 {| tm_sec := 0; tm_min := 0; tm_hour := 0; tm_mday := 1; tm_mon := 0; tm_year := 70;
    tm_wday := 4; tm_yday := 0; tm_isdst := 0; tm_zone := None |} = Ok [].
Proof. by vm_compute. Qed.
End TimeDemo.
