(* ===== verification/I2c.v ===== *)
(** * The I2C master (dev/i2c/i2c.c, i2c.h, dev/i2c/bitbang) and its clients
    (dev/mc6470/mc6470.c, dev/imx335/imx335.c, dev/bme680/bme680_driver.c)

    The bit-banged master drives two wires through the function pointers of
    [struct i2c_bitbang_ops], which are a type class over the state of the wires.
    A driver is anything with the [xfer] of [struct mdx_i2c_ops]; the sensors only
    know that.  The delays between edges and the critical section around a transfer
    are not modelled. *)

From S2P Require Import Prelude.
Local Open Scope Z_scope.

(** ** Messages *)

Definition IIC_M_RD : Z := Z.shiftl 1 0.
Definition IIC_M_NOSTOP : Z := Z.shiftl 1 1.
Definition I2C_RD : Z := 1.
Definition I2C_WR : Z := 0.

Record i2c_msg := { slave : Z; flags : Z; len : Z; buf : list Z }.

Definition set_buf (l : list Z) (x : i2c_msg) : i2c_msg :=
  {| slave := slave x; flags := flags x; len := len x; buf := l |}.

(** ** The wires *)

Class I2cOps (B : Type) := {
  i2c_scl : bool → B → B;
  i2c_sda : bool → B → B;
  i2c_sda_val : B → Z * B;
}.

Section bitbang.
Context {B : Type} `{I2cOps B}.
Implicit Types b : B.

Definition i2c_start_condition b : B :=
  let b := i2c_scl true b in
  let b := i2c_sda true b in
  let b := i2c_sda false b in
  i2c_scl false b.

Definition i2c_stop_condition b : B :=
  let b := i2c_sda false b in
  let b := i2c_scl true b in
  i2c_sda true b.

Definition i2c_write_bit (x : Z) b : B :=
  let b := if 0 <? x then i2c_sda true b else i2c_sda false b in
  let b := i2c_scl true b in
  i2c_scl false b.

Definition i2c_read_bit b : Z * B :=
  let b := i2c_sda true b in
  let b := i2c_scl true b in
  let '(v, b) := i2c_sda_val b in
  (u8 v, i2c_scl false b).

(** The most significant bit first. *)
Fixpoint write_bits (n : nat) (x : Z) b : B :=
  match n with
  | O => b
  | S n =>
    let b := if negb (Z.land x 128 =? 0) then i2c_write_bit 1 b else i2c_write_bit 0 b in
    write_bits n (u8 (Z.shiftl x 1)) b
  end.

Definition i2c_write_byte (x : Z) (start : bool) b : bool * B :=
  let b := if start then i2c_start_condition b else b in
  let b := write_bits 8 x b in
  let '(ack, b) := i2c_read_bit b in
  (negb (negb (ack =? 0)), b).

Fixpoint read_bits (n : nat) (x : Z) b : Z * B :=
  match n with
  | O => (x, b)
  | S n =>
    let x := u8 (Z.shiftl x 1) in
    let '(v, b) := i2c_read_bit b in
    read_bits n (Z.lor x v) b
  end.

Definition i2c_read_byte (ack : bool) b : Z * B :=
  let '(x, b) := read_bits 8 0 b in
  (x, if ack then i2c_write_bit 0 b else i2c_write_bit 1 b).

(** [for (j = 0; j < msg->len; j++)] of a read, from [j] on; [n] bytes are left. *)
Fixpoint read_data (n : nat) (j len : Z) (l : list Z) b : res (list Z * B) :=
  match n with
  | O => Ok (l, b)
  | S n =>
    let ack := negb (j =? len - 1) in
    let '(x, b) := i2c_read_byte ack b in
    match l !! Z.to_nat j with
    | None => Err Fault
    | Some _ => read_data n (j + 1) len (<[Z.to_nat j := x]> l) b
    end
  end.

(** The same loop of a write: whether every byte was acknowledged. *)
Fixpoint write_data (n : nat) (j : Z) (l : list Z) b : res (bool * B) :=
  match n with
  | O => Ok (true, b)
  | S n =>
    match l !! Z.to_nat j with
    | None => Err Fault
    | Some x =>
      let '(ack, b) := i2c_write_byte x false b in
      if negb ack then Ok (false, b) else write_data n (j + 1) l b
    end
  end.

(** One message: whether it was acknowledged, and the message with its buffer. *)
Definition xfer_msg (msg : i2c_msg) b : res (bool * i2c_msg * B) :=
  let addr := u8 (Z.shiftl (slave msg) 1) in
  '(ok, msg, b) ←
    (if negb (Z.land (flags msg) IIC_M_RD =? 0) then
       let '(ack, b) := i2c_write_byte (Z.lor addr I2C_RD) true b in
       if negb ack then Ok (false, msg, b) else
       '(l, b) ← read_data (Z.to_nat (len msg)) 0 (len msg) (buf msg) b;
       Ok (true, set_buf l msg, b)
     else
       let '(ack, b) := i2c_write_byte (Z.lor addr I2C_WR) true b in
       if negb ack then Ok (false, msg, b) else
       '(ok, b) ← write_data (Z.to_nat (len msg)) 0 (buf msg) b;
       Ok (ok, msg, b));
  Ok (ok, msg,
      if (ok : bool) && (Z.land (flags msg) IIC_M_NOSTOP =? 0) then i2c_stop_condition b else b).

(** The transfer stops at the first message that is not acknowledged. *)
Fixpoint i2c_bitbang_xfer (msgs : list i2c_msg) b : res (Z * list i2c_msg * B) :=
  match msgs with
  | [] => Ok (0, [], b)
  | msg :: msgs =>
    '(ok, msg, b) ← xfer_msg msg b;
    if negb ok then Ok (-1, msg :: msgs, b) else
    '(error, msgs, b) ← i2c_bitbang_xfer msgs b;
    Ok (error, msg :: msgs, b)
  end.
End bitbang.

(** ** Drivers *)

Class I2cDriver (B : Type) :=
  mdx_i2c_transfer : list i2c_msg → B → res (Z * list i2c_msg * B).

#[export] Instance bitbang_driver B `{I2cOps B} : I2cDriver B := i2c_bitbang_xfer.

(** ** The sensors

    A function that fills a buffer of the caller returns what the buffer holds. *)

Section clients.
Context {B : Type} `{I2cDriver B}.
Implicit Types b : B.

Definition mc6470_read_data (i2c_addr reg n : Z) (val : list Z) b : res (Z * list Z * B) :=
  let msgs := [{| slave := i2c_addr; flags := 0; len := 1; buf := [reg] |};
               {| slave := i2c_addr; flags := IIC_M_RD; len := u16 n; buf := val |}] in
  '(err, msgs, b) ← mdx_i2c_transfer msgs b;
  Ok (err, default val (buf <$> msgs !! 1%nat), b).

Definition mc6470_read_reg (i2c_addr reg : Z) (val : list Z) b : res (Z * list Z * B) :=
  mc6470_read_data i2c_addr reg 1 val b.

Definition mc6470_write_reg (i2c_addr reg val : Z) b : res (Z * B) :=
  '(err, _, b) ← mdx_i2c_transfer [{| slave := i2c_addr; flags := 0; len := 2; buf := [reg; val] |}] b;
  Ok (err, b).

Definition MC6470_ACC : Z := 76.
Definition MC6470_SRTFR : Z := 8.

Definition mc6470_set_freq (val : Z) b : res (Z * B) := mc6470_write_reg MC6470_ACC MC6470_SRTFR val b.

(** A register of the camera has a 16-bit address, sent high byte first. *)
Definition reg_bytes (reg : Z) : list Z := [Z.land (Z.shiftr reg 8) 255; Z.land reg 255].

Definition imx335_read_data (i2c_addr reg n : Z) (val : list Z) b : res (Z * list Z * B) :=
  let msgs := [{| slave := i2c_addr; flags := IIC_M_NOSTOP; len := 2; buf := reg_bytes reg |};
               {| slave := i2c_addr; flags := IIC_M_RD; len := u16 n; buf := val |}] in
  '(err, msgs, b) ← mdx_i2c_transfer msgs b;
  Ok (err, default val (buf <$> msgs !! 1%nat), b).

Definition imx335_read_reg (i2c_addr reg : Z) (val : list Z) b : res (Z * list Z * B) :=
  imx335_read_data i2c_addr reg 1 val b.

Definition imx335_write_data (i2c_addr reg : Z) (val : list Z) (n : Z) b : res (Z * B) :=
  if 16 <? n then Ok (-1, b) else
  if negb ((0 <=? n) && (n <=? Z.of_nat (length val))) then Err Fault else
  '(err, _, b) ← mdx_i2c_transfer
    [{| slave := i2c_addr; flags := 0; len := u16 (2 + n);
        buf := reg_bytes reg ++ take (Z.to_nat n) val |}] b;
  Ok (err, b).

Definition imx335_write_reg (i2c_addr reg val : Z) b : res (Z * B) :=
  imx335_write_data i2c_addr reg [u8 val] 1 b.

(** A table of registers; the address of the camera is written out in the loop. *)
Fixpoint imx335_init_table (rv : list (Z * Z)) b : res (Z * B) :=
  match rv with
  | [] => Ok (0, b)
  | (reg, val) :: rv =>
    '(error, b) ← imx335_write_reg 52 reg val b;
    if negb (error =? 0) then Ok (error, b) else imx335_init_table rv b
  end.

Definition BME680_XFER_MAX_LEN : Z := 32.

Definition user_i2c_read (dev_id reg_addr : Z) (reg_data : list Z) (n : Z) b : res (Z * list Z * B) :=
  if BME680_XFER_MAX_LEN <? n then Ok (-1, reg_data, b) else
  let msgs := [{| slave := dev_id; flags := IIC_M_NOSTOP; len := 1; buf := [reg_addr] |};
               {| slave := dev_id; flags := IIC_M_RD; len := n; buf := replicate 32 0 |}] in
  '(err, msgs, b) ← mdx_i2c_transfer msgs b;
  if negb (err =? 0) then Ok (swrap 8 err, reg_data, b) else
  if Z.of_nat (length reg_data) <? n then Err Fault else
  let rx_data := default [] (buf <$> msgs !! 1%nat) in
  Ok (0, take (Z.to_nat n) rx_data ++ drop (Z.to_nat n) reg_data, b).

Definition user_i2c_write (dev_id reg_addr : Z) (reg_data : list Z) (n : Z) b : res (Z * B) :=
  if BME680_XFER_MAX_LEN - 1 <? n then Ok (-1, b) else
  if Z.of_nat (length reg_data) <? n then Err Fault else
  '(err, _, b) ← mdx_i2c_transfer
    [{| slave := dev_id; flags := 0; len := u16 (1 + n);
        buf := reg_addr :: take (Z.to_nat n) reg_data |}] b;
  if negb (err =? 0) then Ok (swrap 8 err, b) else Ok (0, b).
End clients.
