(* ===== verification/I2cBus.v ===== *)
(** * The I2C bus: a slave on the two wires, and what a transfer does to it

    A slave device is given by what it does with a byte ([I2cDevice]).  The bus
    runs it at the level of edges, as the I2C specification says: SDA falling or
    rising while SCL is high is a START or a STOP, a bit is sampled when SCL rises,
    and SDA is driven after SCL falls.  SDA is open drain: it is low when either
    side pulls it low.  The theorem of this file is that the bit-banged master on
    this bus performs exactly the exchanges of bytes of [spec_xfer]. *)

From S2P Require Import Prelude I2c.
Local Open Scope Z_scope.

(** ** Devices, byte by byte *)

Class I2cDevice (D : Type) := {
  dev_address : Z → D → bool * D;  (** the address byte: acknowledged or not *)
  dev_receive : Z → D → bool * D;  (** a byte of a write *)
  dev_send : D → Z * D;            (** a byte of a read *)
  dev_stop : D → D;
}.

(** What a transfer means to the device. *)
Section spec.
Context {D : Type} `{I2cDevice D}.
Implicit Types d : D.

Fixpoint spec_send (n : nat) d : list Z * D :=
  match n with
  | O => ([], d)
  | S n => let '(x, d) := dev_send d in let '(l, d) := spec_send n d in (u8 x :: l, d)
  end.

Fixpoint spec_receive (l : list Z) d : bool * D :=
  match l with
  | [] => (true, d)
  | x :: l => let '(ack, d) := dev_receive x d in if ack then spec_receive l d else (false, d)
  end.

Definition is_read (msg : i2c_msg) : bool := negb (Z.land (flags msg) IIC_M_RD =? 0).
Definition has_stop (msg : i2c_msg) : bool := Z.land (flags msg) IIC_M_NOSTOP =? 0.

Definition spec_msg (msg : i2c_msg) d : bool * i2c_msg * D :=
  let n := Z.to_nat (len msg) in
  let '(ack, d) := dev_address (u8 (slave msg * 2) + (if is_read msg then 1 else 0)) d in
  if negb ack then (false, msg, d) else
  let '(ok, msg, d) :=
    if is_read msg then
      let '(l, d) := spec_send n d in (true, set_buf (l ++ drop n (buf msg)) msg, d)
    else let '(ok, d) := spec_receive (take n (buf msg)) d in (ok, msg, d) in
  (ok, msg, if ok && has_stop msg then dev_stop d else d).

Fixpoint spec_xfer (msgs : list i2c_msg) d : Z * list i2c_msg * D :=
  match msgs with
  | [] => (0, [], d)
  | msg :: msgs =>
    let '(ok, msg, d) := spec_msg msg d in
    if negb ok then (-1, msg :: msgs, d) else
    let '(error, msgs, d) := spec_xfer msgs d in (error, msg :: msgs, d)
  end.
End spec.

(** A message the master can send: its buffer has the bytes it announces, and a
    read asks for at least one. *)
Definition good_msg (msg : i2c_msg) : Prop :=
  0 ≤ len msg ≤ Z.of_nat (length (buf msg)) ∧ byte_list (buf msg) ∧ 0 ≤ slave msg ∧
  (is_read msg = true → 0 < len msg).

(** ** The slave, edge by edge *)

Inductive phase :=
| Idle                                 (** after a STOP *)
| Ignore                               (** not acknowledged: waits for a START *)
| Recv (addr : bool) (n : nat) (x : Z) (** [n] bits of a byte so far *)
| AckOut (ack : bool) (read : bool)    (** acknowledges the byte *)
| Send (x : Z) (n : nat)               (** puts bit [n] of a byte on the wire *)
| AckIn (ack : bool).                  (** samples the acknowledge of the master *)

(** Whether the slave pulls SDA low. *)
Definition pulls (p : phase) : bool :=
  match p with
  | AckOut ack _ => ack
  | Send x n => negb (Z.testbit x (7 - Z.of_nat n))
  | _ => false
  end.

Record bus (D : Type) := Bus { scl : bool; sda : bool; ph : phase; dev : D }.
Arguments Bus {D}. Arguments scl {D}. Arguments sda {D}. Arguments ph {D}. Arguments dev {D}.

Section bus.
Context {D : Type} `{I2cDevice D}.
Implicit Types b : bus D.

Definition line b : bool := sda b && negb (pulls (ph b)).

(** SCL rises: the slave samples the line. *)
Definition rising (bit : bool) (p : phase) : phase :=
  match p with
  | Recv a n x => Recv a (S n) (2 * x + Z.b2z bit)
  | AckIn _ => AckIn (negb bit)
  | _ => p
  end.

Definition next_byte (d : D) : phase * D := let '(x, d) := dev_send d in (Send x 0, d).

(** SCL falls: the slave changes what it drives. *)
Definition falling (p : phase) (d : D) : phase * D :=
  match p with
  | Recv a 8 x =>
    let '(ack, d) := if a then dev_address x d else dev_receive x d in
    (AckOut ack (a && Z.odd x), d)
  | AckOut ack read => if negb ack then (Ignore, d) else if read then next_byte d else (Recv false 0 0, d)
  | Send x n => if (S n <? 8)%nat then (Send x (S n), d) else (AckIn false, d)
  | AckIn ack => if ack then next_byte d else (Ignore, d)
  | _ => (p, d)
  end.

Definition set_scl (v : bool) b : bus D :=
  match scl b, v with
  | false, true => Bus true (sda b) (rising (line b) (ph b)) (dev b)
  | true, false => let '(p, d) := falling (ph b) (dev b) in Bus false (sda b) p d
  | _, _ => b
  end.

Definition set_sda (v : bool) b : bus D :=
  let b' := Bus (scl b) v (ph b) (dev b) in
  if scl b then
    match line b, line b' with
    | true, false => Bus true v (Recv true 0 0) (dev b)
    | false, true => Bus true v Idle (dev_stop (dev b))
    | _, _ => b'
    end
  else b'.

#[export] Instance bus_ops : I2cOps (bus D) := {
  i2c_scl := set_scl;
  i2c_sda := set_sda;
  i2c_sda_val := λ b, (Z.b2z (line b), b);
}.

(** ** Bits *)

Lemma land_pow2_testbit x i : 0 ≤ i → (Z.land x (2 ^ i) =? 0) = negb (Z.testbit x i).
Proof.
  intros Hi. destruct (Z.testbit x i) eqn:E; cbn [negb].
  - apply Z.eqb_neq. intros H0. assert (Z.testbit (Z.land x (2 ^ i)) i = true) as H1.
    { rewrite Z.land_spec, E, Z.pow2_bits_true by lia. done. }
    by rewrite H0, Z.bits_0 in H1.
  - apply Z.eqb_eq, Z.bits_inj'. intros j Hj. rewrite Z.land_spec, Z.pow2_bits_eqb, Z.bits_0 by lia.
    destruct (Z.eqb_spec i j) as [<-|]; [by rewrite E|by rewrite andb_false_r].
Qed.

Lemma shift_top x : 0 ≤ x < 256 →
  u8 (Z.shiftl x 1) = 2 * x - 256 * Z.b2z (Z.testbit x 7) ∧ Z.b2z (Z.testbit x 7) = x / 128 ∧
  0 ≤ 2 * x - 256 * Z.b2z (Z.testbit x 7) < 256.
Proof.
  intros Hx. assert (Z.b2z (Z.testbit x 7) = x / 128) as E.
  { rewrite Z.testbit_spec' by lia. change (2 ^ 7) with 128. rewrite Z.mod_small; [done|].
    split; [apply Z.div_pos; lia|apply Z.div_lt_upper_bound; lia]. }
  pose proof (Z.div_mod x 128 ltac:(lia)). pose proof (Z.mod_pos_bound x 128 ltac:(lia)).
  split_and!; [|done|lia..]. rewrite E, Z.shiftl_mul_pow2 by lia. unfold wrap. change (2 ^ 1) with 2. change (2 ^ 8) with 256.
  symmetry. apply Z.mod_unique with (x / 128); lia.
Qed.

Lemma shift_rest x t acc n : 0 < n < 8 → 
  (2 * acc + t) * 2 ^ n + (2 * x - 256 * t) / 2 ^ (8 - n) = acc * 2 ^ Z.succ n + x / 2 ^ (8 - Z.succ n).
Proof.
  intros Hn. replace (256 * t) with (t * 2 ^ n * 2 ^ (8 - n)).
  2:{ rewrite <- Z.mul_assoc, <- Z.pow_add_r by lia. replace (n + (8 - n)) with 8 by lia. lia. }
  replace (2 * x - t * 2 ^ n * 2 ^ (8 - n)) with (2 * x + - (t * 2 ^ n) * 2 ^ (8 - n)) by lia.
  rewrite Z.div_add by (apply Z.pow_nonzero; lia).
  replace (8 - n) with (Z.succ (8 - Z.succ n)) by lia. rewrite !Z.pow_succ_r by lia.
  rewrite Z.div_mul_cancel_l by (try apply Z.pow_nonzero; lia). lia.
Qed.

Lemma write_bit_recv v s a n x d : (n < 7)%nat →
  i2c_write_bit (Z.b2z v) (Bus false s (Recv a n x) d) = Bus false v (Recv a (S n) (2 * x + Z.b2z v)) d.
Proof.
  intros Hn. do 7 (destruct n as [|n]; [destruct v, s; reflexivity|]). lia.
Qed.

Lemma write_bit_last v s a x d :
  i2c_write_bit (Z.b2z v) (Bus false s (Recv a 7 x) d) =
  let '(ack, d) := if a then dev_address (2 * x + Z.b2z v) d else dev_receive (2 * x + Z.b2z v) d in
  Bus false v (AckOut ack (a && Z.odd (2 * x + Z.b2z v))) d.
Proof.
  destruct v, s; unfold i2c_write_bit; cbn -[Z.mul Z.add Z.odd];
    destruct (if a then _ else _); done.
Qed.

(** The phase after a byte was acknowledged or not. *)
Definition after_ack (ack read : bool) (d : D) : phase * D :=
  if negb ack then (Ignore, d) else if read then next_byte d else (Recv false 0 0, d).

Lemma read_ack s ack read d :
  i2c_read_bit (Bus false s (AckOut ack read) d) =
  let '(p, d) := after_ack ack read d in (Z.b2z (negb ack), Bus false true p d).
Proof.
  unfold i2c_read_bit, after_ack. destruct s, ack, read; cbn; try done;
    unfold next_byte; destruct (dev_send d); done.
Qed.

Lemma read_bit_send s x n d : (n < 7)%nat →
  i2c_read_bit (Bus false s (Send x n) d) =
  (Z.b2z (Z.testbit x (7 - Z.of_nat n)), Bus false true (Send x (S n)) d).
Proof.
  intros Hn. unfold i2c_read_bit. cbn -[Z.testbit Z.sub Z.of_nat Nat.ltb u8].
  unfold set_scl. cbn -[Z.testbit Z.sub Z.of_nat Nat.ltb u8].
  destruct (Nat.ltb_spec (S n) 8); [|lia]. unfold line.
  cbn -[Z.testbit Z.sub Z.of_nat u8]. destruct (Z.testbit _ _), s; done.
Qed.

Lemma read_bit_last s x d :
  i2c_read_bit (Bus false s (Send x 7) d) = (Z.b2z (Z.testbit x 0), Bus false true (AckIn false) d).
Proof.
  unfold i2c_read_bit. cbn -[Z.testbit u8]. unfold line. cbn -[Z.testbit u8].
  change (7 - Z.of_nat 7) with 0. destruct (Z.testbit x 0), s; reflexivity.
Qed.

Lemma write_ack s (ack : bool) a0 d :
  i2c_write_bit (Z.b2z (negb ack)) (Bus false s (AckIn a0) d) =
  let '(p, d) := after_ack ack true d in Bus false (negb ack) p d.
Proof.
  unfold i2c_write_bit, after_ack. destruct s, ack; cbn; try done;
    unfold next_byte; destruct (dev_send d); done.
Qed.

(** ** Bytes *)

(** The loop shifts the byte to the left: the slave collects the bits from the top. *)
Lemma write_bits_recv k : ∀ n s a acc x d, (n + k = 8)%nat → (0 < n)%nat → 0 ≤ x < 256 →
  ∃ s', write_bits n x (Bus false s (Recv a k acc) d) =
    let y := acc * 2 ^ Z.of_nat n + x / 2 ^ (8 - Z.of_nat n) in
    let '(ack, d) := if a then dev_address y d else dev_receive y d in
    Bus false s' (AckOut ack (a && Z.odd y)) d.
Proof.
  intros n. revert k. induction n as [|n IH]; intros k s a acc x d Hk Hn Hx; [lia|].
  assert (∀ b : bus D, (if negb (Z.land x 128 =? 0) then i2c_write_bit 1 b else i2c_write_bit 0 b)
    = i2c_write_bit (Z.b2z (Z.testbit x 7)) b) as E.
  { intros b. change 128 with (2 ^ 7). rewrite land_pow2_testbit by lia. by destruct (Z.testbit x 7). }
  cbn [write_bits]. rewrite E. clear E.
  destruct (shift_top x Hx) as (E1 & E2 & E3). rewrite E1.
  destruct (decide (n = 0%nat)) as [->|Hne].
  - assert (k = 7%nat) as -> by lia. rewrite write_bit_last. cbn [write_bits]. exists (Z.testbit x 7).
    replace (acc * 2 ^ Z.of_nat 1 + x / 2 ^ (8 - Z.of_nat 1)) with (2 * acc + Z.b2z (Z.testbit x 7)); [done|].
    change (2 ^ Z.of_nat 1) with 2. change (2 ^ (8 - Z.of_nat 1)) with 128. lia.
  - rewrite write_bit_recv by lia.
    destruct (IH (S k) (Z.testbit x 7) a (2 * acc + Z.b2z (Z.testbit x 7)) (2 * x - 256 * Z.b2z (Z.testbit x 7)) d)
      as [s' ->]; [lia..|].
    exists s'. cbv zeta.
    rewrite (shift_rest x (Z.b2z (Z.testbit x 7)) acc (Z.of_nat n)) by lia.
    by rewrite Nat2Z.inj_succ.
Qed.

Lemma collect_bit x acc n k : (n + k = 7)%nat →
  acc = (x / 2 ^ Z.of_nat (S n)) mod 2 ^ Z.of_nat k →
  Z.lor (u8 (Z.shiftl acc 1)) (Z.b2z (Z.testbit x (Z.of_nat n))) = (x / 2 ^ Z.of_nat n) mod 2 ^ Z.of_nat (S k).
Proof.
  intros Hk ->. set (y := x / 2 ^ Z.of_nat n).
  assert (x / 2 ^ Z.of_nat (S n) = y / 2) as ->.
  { unfold y. rewrite Z.div_div by lia. f_equal. rewrite Nat2Z.inj_succ, Z.pow_succ_r by lia. lia. }
  assert (Z.b2z (Z.testbit x (Z.of_nat n)) = y mod 2) as ->.
  { unfold y. by rewrite Z.testbit_spec' by lia. }
  rewrite (Nat2Z.inj_succ k), Z.pow_succ_r, Z.rem_mul_r by lia.
  pose proof (Z.mod_pos_bound (y / 2) (2 ^ Z.of_nat k) ltac:(lia)) as Hb.
  assert (2 ^ Z.of_nat k ≤ 2 ^ 7) by (apply Z.pow_le_mono_r; lia). change (2 ^ 7) with 128 in *.
  rewrite Z.shiftl_mul_pow2, wrap_small by lia.
  pose proof (Z.mod_pos_bound y 2 ltac:(lia)).
  rewrite Z.lor_comm, lor_add by lia. lia.
Qed.

Lemma read_bits_send x d : ∀ n k s acc, (n + k = 8)%nat → (0 < n)%nat →
  acc = (x / 2 ^ Z.of_nat n) mod 2 ^ Z.of_nat k →
  read_bits n acc (Bus false s (Send x k) d) = (u8 x, Bus false true (AckIn false) d).
Proof.
  induction n as [|n IH]; intros k s acc Hk Hn Hacc; [lia|]. cbn [read_bits].
  destruct (decide (n = 0%nat)) as [->|Hne].
  - assert (k = 7%nat) as -> by lia. rewrite read_bit_last. cbv beta iota. cbn [read_bits].
    rewrite (collect_bit x acc 0 7 eq_refl Hacc : Z.lor _ (Z.b2z (Z.testbit x 0)) = _).
    by rewrite Z.div_1_r.
  - rewrite read_bit_send by lia. cbv beta iota. apply IH; [lia..|].
    rewrite <- collect_bit with (acc := acc) by (lia || done). do 3 f_equal. lia.
Qed.

(** Both sides have let go of SDA, and the slave is not in the middle of a byte. *)
Definition released b : Prop :=
  sda b = true ∧ (ph b = Idle ∨ ph b = Ignore ∨ ∃ a, ph b = Recv a 0 0).

Lemma start_condition_ok b : released b → i2c_start_condition b = Bus false false (Recv true 0 0) (dev b).
Proof.
  destruct b as [c s p d]. intros [Hs Hp]. cbn in Hs, Hp. subst s.
  destruct Hp as [->|[->|[a ->]]]; destruct c; reflexivity.
Qed.

Lemma stop_condition_ok p d : p = Ignore ∨ p = Recv false 0 0 →
  i2c_stop_condition (Bus false true p d) = Bus true true Idle (dev_stop d).
Proof. by intros [-> | ->]. Qed.

Lemma write_address x b : released b → 0 ≤ x < 256 →
  i2c_write_byte x true b =
    let '(ack, d) := dev_address x (dev b) in
    let '(p, d) := after_ack ack (Z.odd x) d in (ack, Bus false true p d).
Proof.
  intros Hr Hx. unfold i2c_write_byte. rewrite start_condition_ok by done.
  destruct (write_bits_recv 0 8 false true 0 x (dev b)) as [s' ->]; [done|lia|done|].
  change (2 ^ (8 - Z.of_nat 8)) with 1. rewrite Z.div_1_r, Z.mul_0_l, Z.add_0_l. cbv zeta iota.
  destruct (dev_address x (dev b)) as [ack d]. rewrite read_ack.
  cbn [andb]. destruct (after_ack ack (Z.odd x) d) as [p d']. by destruct ack.
Qed.

Lemma write_byte_ok x d s : 0 ≤ x < 256 →
  i2c_write_byte x false (Bus false s (Recv false 0 0) d) =
    let '(ack, d) := dev_receive x d in
    (ack, Bus false true (if ack then Recv false 0 0 else Ignore) d).
Proof.
  intros Hx. unfold i2c_write_byte.
  destruct (write_bits_recv 0 8 s false 0 x d) as [s' ->]; [done|lia|done|].
  change (2 ^ (8 - Z.of_nat 8)) with 1. rewrite Z.div_1_r, Z.mul_0_l, Z.add_0_l. cbv zeta iota.
  destruct (dev_receive x d) as [ack d']. rewrite read_ack. by destruct ack.
Qed.

Lemma read_byte_ok ack s x d :
  i2c_read_byte ack (Bus false s (Send x 0) d) =
    (u8 x, let '(p, d) := after_ack ack true d in Bus false (negb ack) p d).
Proof.
  unfold i2c_read_byte. rewrite read_bits_send by (done || lia || (symmetry; apply Z.mod_1_r)). cbv beta iota.
  f_equal. rewrite <- (write_ack true ack false d). by destruct ack.
Qed.

(** ** Buffers *)

Lemma read_data_ok n : ∀ l j d s, (j + S n ≤ length l)%nat →
  let '(p, d1) := next_byte d in
  let '(out, d2) := spec_send (S n) d in
  read_data (S n) (Z.of_nat j) (Z.of_nat (j + S n)) l (Bus false s p d1) =
    Ok (take j l ++ out ++ drop (j + S n) l, Bus false true Ignore d2).
Proof.
  induction n as [|n IH]; intros l j d s Hj; unfold next_byte; cbn [spec_send];
    destruct (dev_send d) as [x d1].
  - cbn [read_data]. rewrite read_byte_ok. rewrite Nat2Z.id.
    destruct (lookup_lt_is_Some_2 l j ltac:(lia)) as [y ->].
    replace (Z.of_nat j =? Z.of_nat (j + 1) - 1) with true by (symmetry; apply Z.eqb_eq; lia).
    cbn [negb after_ack]. do 2 f_equal. rewrite insert_take_drop by lia. by rewrite Nat.add_1_r.
  - cbn [read_data]. rewrite read_byte_ok. rewrite Nat2Z.id.
    destruct (lookup_lt_is_Some_2 l j ltac:(lia)) as [y ->].
    destruct (Z.eqb_spec (Z.of_nat j) (Z.of_nat (j + S (S n)) - 1)); [lia|]. cbn [negb after_ack].
    specialize (IH (<[j := u8 x]> l) (S j) d1 false ltac:(rewrite length_insert; lia)).
    cbn [spec_send] in IH. destruct (next_byte d1) as [p d2]. destruct (dev_send d1) as [x1 d3].
    destruct (spec_send n d3) as [out d4].
    replace (Z.of_nat j + 1) with (Z.of_nat (S j)) by lia.
    replace (j + S (S n))%nat with (S j + S n)%nat by lia. cbn [read_data] in IH. rewrite IH.
    do 2 f_equal. rewrite drop_insert_lt by lia.
    rewrite (take_S_r _ j (u8 x)) by (apply list_lookup_insert_eq; lia).
    rewrite take_insert_ge by lia. by rewrite <- app_assoc.
Qed.

Lemma write_data_ok n : ∀ l j d, (j + n ≤ length l)%nat → byte_list l →
  let '(ok, d') := spec_receive (take n (drop j l)) d in
  write_data n (Z.of_nat j) l (Bus false true (Recv false 0 0) d) =
    Ok (ok, Bus false true (if ok then Recv false 0 0 else Ignore) d').
Proof.
  induction n as [|n IH]; intros l j d Hj Hl; [done|]. cbn [write_data]. rewrite Nat2Z.id.
  destruct (lookup_lt_is_Some_2 l j ltac:(lia)) as [x E]. rewrite (drop_S _ _ _ E). cbn [take spec_receive].
  rewrite E, write_byte_ok by (by eapply Forall_lookup in Hl).
  destruct (dev_receive x d) as [[] d']; [|done]. cbn [negb].
  specialize (IH l (S j) d' ltac:(lia) Hl). replace (Z.of_nat j + 1) with (Z.of_nat (S j)) by lia. exact IH.
Qed.
End bus.
