(* ===== verification/I2cTheorems.v ===== *)
(** * Theorems of the I2C master and of its clients

    The bit-banged driver against the bus of I2cBus.v; then, for any driver that
    keeps the same promise, the register accesses of the sensors. *)

From S2P Require Import Prelude I2c I2cBus.
Local Open Scope Z_scope.

(** Bytes written out in a list. *)
Ltac bytes := unfold byte_list in *; repeat (apply Forall_cons; split; [lia|]); (exact (Forall_nil_2 _) || done).

(** ** Messages *)

Lemma address_byte s (r : bool) :
  Z.lor (u8 (Z.shiftl s 1)) (Z.b2z r) = u8 (s * 2) + Z.b2z r ∧
  Z.odd (u8 (s * 2) + Z.b2z r) = r ∧ 0 ≤ u8 (s * 2) + Z.b2z r < 256.
Proof.
  assert (u8 (s * 2) = (s mod 128) * 2) as E.
  { unfold wrap. change (2 ^ 8) with (128 * 2). by rewrite Z.mul_mod_distr_r. }
  pose proof (Z.mod_pos_bound s 128 ltac:(lia)).
  rewrite Z.shiftl_mul_pow2 by lia. change (2 ^ 1) with 2. rewrite E. split_and!.
  - pose proof (lor_add (Z.b2z r) (s mod 128) 1 ltac:(lia) ltac:(destruct r; cbn; lia)) as E2.
    change (2 ^ 1) with 2 in E2. rewrite Z.lor_comm, E2. lia.
  - rewrite Z.add_comm, (Z.mul_comm _ 2), Z.odd_add_mul_2. by destruct r.
  - destruct r; cbn; lia.
  - destruct r; cbn; lia.
Qed.

Section bus.
Context {D : Type} `{I2cDevice D}.
Implicit Types b : bus D.

(** How a transfer leaves the wires: after a STOP both are high and the bus is
    free; without one SCL stays low, SDA is let go, and the bus stays busy. *)
Definition wires_after (stop : bool) b : Prop :=
  sda b = true ∧ scl b = stop ∧ if stop then ph b = Idle else ph b = Ignore ∨ ph b = Recv false 0 0.

Lemma wires_released stop b : wires_after stop b → released b.
Proof. intros (Hs & _ & Hp). split; [done|]. destruct stop; naive_solver. Qed.

Lemma xfer_msg_ok msg b : good_msg msg → released b →
  let '(ok, msg', d') := spec_msg msg (dev b) in
  ∃ b', xfer_msg msg b = Ok (ok, msg', b') ∧ wires_after (ok && has_stop msg) b' ∧ dev b' = d'.
Proof.
  intros (Hl & Hb & Hs & Hr) Hrel. unfold xfer_msg, spec_msg.
  destruct (address_byte (slave msg) (is_read msg)) as (Ea & Eo & Ha).
  change I2C_RD with (Z.b2z true). change I2C_WR with (Z.b2z false).
  fold (is_read msg). destruct (is_read msg) eqn:Er; rewrite Ea, write_address by done; rewrite Eo;
    cbn [Z.b2z]; destruct (dev_address _ (dev b)) as [[] d]; cbn [after_ack negb].
  - destruct (Z.to_nat (len msg)) as [|n] eqn:En; [specialize (Hr eq_refl); lia|].
    pose proof (read_data_ok n (buf msg) 0 d true ltac:(lia)) as HD.
    destruct (next_byte d) as [p d1]. destruct (spec_send (S n) d) as [out d2].
    replace (Z.of_nat (0 + S n)) with (len msg) in HD by lia. change (Z.of_nat 0) with 0 in HD.
    change (take 0 (buf msg) ++ ?l) with l in HD. change (0 + S n)%nat with (S n) in HD.
    cbn [negb]. rewrite HD, !Ok_bind. cbv beta iota. unfold has_stop.
    cbn [andb set_buf flags]. destruct (_ =? 0); eexists; (split; [done|]).
    + rewrite stop_condition_ok by auto. done.
    + split; [|done]. split_and!; [done..|]. by left.
  - eexists. split; [done|]. split; [|done]. split_and!; [done..|]. by left.
  - pose proof (write_data_ok (Z.to_nat (len msg)) (buf msg) 0 d ltac:(lia) Hb) as HD.
    rewrite drop_0 in HD. destruct (spec_receive _ d) as [ok d'].
    change (Z.of_nat 0) with 0 in HD. cbn [negb]. rewrite HD, !Ok_bind. fold (has_stop msg). cbv beta iota.
    destruct ok, (has_stop msg); eexists; (split; [done|]); cbn [andb];
      rewrite ?stop_condition_ok by auto; (split; [|done]); (split_and!; [done..|]); auto.
  - eexists. split; [done|]. split; [|done]. split_and!; [done..|]. by left.
Qed.

Lemma bitbang_xfer_wires msgs b :
  Forall good_msg msgs → released b →
  let '(error, msgs', d') := spec_xfer msgs (dev b) in
  ∃ b', i2c_bitbang_xfer msgs b = Ok (error, msgs', b') ∧ released b' ∧ dev b' = d' ∧
    match last msgs with Some msg => wires_after ((error =? 0) && has_stop msg) b' | None => b' = b end.
Proof.
  intros HF. revert b. induction HF as [|msg msgs Hm _ IH]; intros b Hr; cbn [spec_xfer i2c_bitbang_xfer].
  { by exists b. }
  pose proof (xfer_msg_ok msg b Hm Hr) as HX. destruct (spec_msg msg (dev b)) as [[ok msg'] d].
  destruct HX as (b1 & -> & Hw1 & Hd). pose proof (wires_released _ _ Hw1) as Hr1. rewrite Ok_bind. cbv beta iota.
  destruct ok; cbn [negb].
  - specialize (IH b1 Hr1). rewrite Hd in IH. destruct (spec_xfer msgs d) as [[error msgs'] d'].
    destruct IH as (b2 & E2 & Hr2 & Hd2 & Hw2). exists b2. rewrite E2, Ok_bind. split_and!; [done..|].
    rewrite last_cons. destruct (last msgs) eqn:El; [done|]. apply last_None in El as ->.
    injection E2 as <- _ _. by subst.
  - exists b1. split_and!; [done..|]. by destruct (last (msg :: msgs)) eqn:El; [|apply last_None in El].
Qed.

Lemma bitbang_xfer_ok msgs b :
  Forall good_msg msgs → released b →
  let '(error, msgs', d') := spec_xfer msgs (dev b) in
  ∃ b', i2c_bitbang_xfer msgs b = Ok (error, msgs', b') ∧ released b' ∧ dev b' = d'.
Proof.
  intros HF Hr. pose proof (bitbang_xfer_wires msgs b HF Hr) as H2. destruct (spec_xfer _ _) as [[error msgs'] d'].
  destruct H2 as (b' & ? & ? & ? & _). by exists b'.
Qed.
End bus.

(** ** What a driver promises to its clients *)

Class I2cDriverLaws (B D : Type) `{I2cDriver B, I2cDevice D} := {
  drv_ready : B → Prop;
  drv_dev : B → D;
  drv_xfer msgs b : Forall good_msg msgs → drv_ready b →
    let '(error, msgs', d') := spec_xfer msgs (drv_dev b) in
    ∃ b', mdx_i2c_transfer msgs b = Ok (error, msgs', b') ∧ drv_ready b' ∧ drv_dev b' = d';
}.

#[export] Instance bus_laws D `{I2cDevice D} : I2cDriverLaws (bus D) D :=
  {| drv_ready := released; drv_dev := dev; drv_xfer := bitbang_xfer_ok |}.

(** ** A device with registers

    The first [rd_width] bytes of a write select a register; the bytes after them,
    and the bytes of a read, go to it and to the ones that follow. *)

Record regdev := { rd_addr : Z; rd_width : nat; rd_wait : nat; rd_ptr : Z; rd_regs : gmap Z Z }.

Definition rd_select (d : regdev) : regdev :=
  {| rd_addr := rd_addr d; rd_width := rd_width d; rd_wait := rd_width d; rd_ptr := 0; rd_regs := rd_regs d |}.
Definition rd_put (x : Z) (d : regdev) : regdev :=
  match rd_wait d with
  | S k => {| rd_addr := rd_addr d; rd_width := rd_width d; rd_wait := k;
              rd_ptr := rd_ptr d * 256 + x; rd_regs := rd_regs d |}
  | O => {| rd_addr := rd_addr d; rd_width := rd_width d; rd_wait := 0;
            rd_ptr := rd_ptr d + 1; rd_regs := <[rd_ptr d := x]> (rd_regs d) |}
  end.
Definition rd_get (d : regdev) : Z * regdev :=
  (default 0 (rd_regs d !! rd_ptr d),
   {| rd_addr := rd_addr d; rd_width := rd_width d; rd_wait := rd_wait d;
      rd_ptr := rd_ptr d + 1; rd_regs := rd_regs d |}).

#[export] Instance regdev_device : I2cDevice regdev := {
  dev_address x d :=
    if x / 2 =? rd_addr d then (true, if Z.even x then rd_select d else d) else (false, d);
  dev_receive x d := (true, rd_put x d);
  dev_send := rd_get;
  dev_stop d := d;
}.

(** Registers from [p] on. *)
Fixpoint put_regs (p : Z) (l : list Z) (r : gmap Z Z) : gmap Z Z :=
  match l with [] => r | x :: l => put_regs (p + 1) l (<[p := x]> r) end.
Fixpoint get_regs (p : Z) (n : nat) (r : gmap Z Z) : list Z :=
  match n with O => [] | S n => u8 (default 0 (r !! p)) :: get_regs (p + 1) n r end.

Lemma spec_receive_data l : ∀ d, rd_wait d = 0%nat →
  ∃ d', spec_receive l d = (true, d') ∧ rd_regs d' = put_regs (rd_ptr d) l (rd_regs d) ∧
    rd_addr d' = rd_addr d ∧ rd_width d' = rd_width d ∧ rd_ptr d' = rd_ptr d + Z.of_nat (length l).
Proof.
  induction l as [|x l IH]; intros d Hd.
  - exists d. split_and!; try done. cbn. lia.
  - cbn [spec_receive dev_receive regdev_device]. destruct (IH (rd_put x d)) as (d' & -> & E1 & E2 & E3 & E4).
    { unfold rd_put. by rewrite Hd. }
    unfold rd_put in *. rewrite Hd in *. cbn in *. exists d'. split_and!; try done. lia.
Qed.

Lemma spec_send_regs n : ∀ d,
  ∃ d', spec_send n d = (get_regs (rd_ptr d) n (rd_regs d), d') ∧ rd_regs d' = rd_regs d ∧
    rd_addr d' = rd_addr d ∧ rd_width d' = rd_width d.
Proof.
  induction n as [|n IH]; intros d; [by exists d|]. cbn [spec_send dev_send regdev_device rd_get get_regs].
  edestruct IH as (d' & -> & E). by exists d'.
Qed.

Lemma get_put p l r : byte_list l → get_regs p (length l) (put_regs p l r) = l.
Proof.
  intros Hl. assert (∀ l p q r, q < p → put_regs p l r !! q = r !! q) as Hlow.
  { clear. induction l as [|x l IH]; intros p q r Hq; [done|]. cbn [put_regs].
    rewrite IH by lia. by rewrite lookup_insert_ne by lia. }
  revert p r. induction Hl as [|x l Hx _ IH]; intros p r; [done|]. cbn [put_regs length get_regs].
  rewrite IH, Hlow, lookup_insert_eq by lia. cbn. by rewrite wrap_small.
Qed.

(** The register that the header of a write selects. *)
Definition hval (hdr : list Z) : Z := foldl (λ p x, p * 256 + x) 0 hdr.

Lemma spec_receive_app l k d d1 :
  spec_receive l d = (true, d1) → spec_receive (l ++ k) d = spec_receive k d1.
Proof.
  revert d. induction l as [|x l IH]; intros d; cbn [app spec_receive].
  - by intros [= ->].
  - destruct (dev_receive x d) as [[] d2]; [apply IH|done].
Qed.

Lemma spec_receive_header hdr : ∀ d, rd_wait d = length hdr →
  ∃ d', spec_receive hdr d = (true, d') ∧ rd_wait d' = 0%nat ∧ rd_regs d' = rd_regs d ∧
    rd_addr d' = rd_addr d ∧ rd_width d' = rd_width d ∧ rd_ptr d' = foldl (λ p x, p * 256 + x) (rd_ptr d) hdr.
Proof.
  induction hdr as [|x l IH]; intros d Hd; [by exists d|].
  cbn [spec_receive dev_receive regdev_device]. unfold rd_put. rewrite Hd. cbn [length].
  match goal with |- context [spec_receive l ?d1] => destruct (IH d1) as (d' & E & H); [done|] end.
  exists d'. split; [exact E|]. exact H.
Qed.

(** The device answers to [a], has the registers [r] and a header of [k] bytes. *)
Definition at_address (a : Z) (k : nat) (r : gmap Z Z) (d : regdev) : Prop :=
  rd_addr d = a ∧ rd_width d = k ∧ rd_regs d = r.

Lemma address_of a (r : bool) : 0 ≤ a < 128 →
  (u8 (a * 2) + (if r then 1 else 0)) / 2 = a ∧ Z.even (u8 (a * 2) + (if r then 1 else 0)) = negb r.
Proof.
  intros Ha. rewrite wrap_small by lia. split.
  - rewrite Z.add_comm, Z.div_add by lia. by destruct r.
  - rewrite Z.add_comm, (Z.mul_comm a 2), Z.even_add_mul_2. by destruct r.
Qed.

Lemma spec_write_msg a hdr data fl r d :
  0 ≤ a < 128 → at_address a (length hdr) r d → Z.land fl IIC_M_RD = 0 →
  let msg := {| slave := a; flags := fl; len := Z.of_nat (length (hdr ++ data)); buf := hdr ++ data |} in
  ∃ d', spec_msg msg d = (true, msg, d') ∧ at_address a (length hdr) (put_regs (hval hdr) data r) d' ∧
    rd_ptr d' = hval hdr + Z.of_nat (length data).
Proof.
  intros Ha (Hd & Hw & Hr) Hfl msg. unfold spec_msg, is_read, msg. cbn [flags slave len buf].
  rewrite Hfl. cbn [negb Z.eqb]. cbn [dev_address regdev_device].
  destruct (address_of a false Ha) as [-> ->]. rewrite Hd, Z.eqb_refl. cbn [negb]. rewrite Nat2Z.id, firstn_all.
  destruct (spec_receive_header hdr (rd_select d)) as (d1 & E1 & W1 & R1 & A1 & K1 & P1); [by cbn|].
  rewrite (spec_receive_app _ _ _ _ E1).
  destruct (spec_receive_data data d1 W1) as (d2 & -> & R2 & A2 & K2 & P2).
  exists d2. split; [by destruct (has_stop _)|]. cbn in *. unfold at_address, hval.
  split_and!; [congruence|congruence|congruence|]. rewrite P2, P1. done.
Qed.

Lemma spec_read_msg a n old k r d :
  0 ≤ a < 128 → at_address a k r d →
  let msg := {| slave := a; flags := IIC_M_RD; len := Z.of_nat n; buf := old |} in
  ∃ d', spec_msg msg d = (true, set_buf (get_regs (rd_ptr d) n r ++ drop n old) msg, d') ∧ at_address a k r d'.
Proof.
  intros Ha (Hd & Hw & Hr) msg. unfold spec_msg, msg. change (is_read _) with true. cbv iota. cbn [slave len buf].
  cbn [dev_address regdev_device]. destruct (address_of a true Ha) as [-> ->]. rewrite Hd, Z.eqb_refl. cbn [negb].
  rewrite Nat2Z.id. destruct (spec_send_regs n d) as (d1 & -> & R1 & A1 & K1).
  exists d1. split; [by rewrite Hr|]. unfold at_address. split_and!; congruence.
Qed.

(** ** The sensors, on any driver *)

Section clients.
Context {B : Type} {drv : I2cDriver B} {laws : @I2cDriverLaws B regdev drv regdev_device}.
Implicit Types b : B.

(** A driver that is ready, with the device at [a] on its bus. *)
Definition sensor_at (a : Z) (k : nat) (r : gmap Z Z) b : Prop :=
  drv_ready b ∧ at_address a k r (drv_dev b) ∧ 0 ≤ a < 128.

Lemma write_registers a hdr data r b :
  sensor_at a (length hdr) r b → byte_list (hdr ++ data) →
  let msg := {| slave := a; flags := 0; len := Z.of_nat (length (hdr ++ data)); buf := hdr ++ data |} in
  ∃ b', mdx_i2c_transfer [msg] b = Ok (0, [msg], b') ∧ sensor_at a (length hdr) (put_regs (hval hdr) data r) b'.
Proof.
  intros (Hr & Hd & Ha) Hb msg. pose proof (drv_xfer [msg] b) as HX.
  destruct (spec_write_msg a hdr data 0 r (drv_dev b) Ha Hd eq_refl) as (d' & E & Hd' & _).
  cbn [spec_xfer] in HX. unfold msg in HX. rewrite E in HX. cbn [negb] in HX.
  destruct HX as (b' & HX & Hr' & Hd2); [|done|].
  { constructor; [|done]. split_and!; cbn; [lia..|done|lia|done]. }
  exists b'. split; [done|]. unfold sensor_at. by rewrite Hd2.
Qed.

Lemma read_registers a hdr fl n old r b :
  sensor_at a (length hdr) r b → byte_list hdr → byte_list old → (0 < n ≤ length old)%nat → Z.land fl IIC_M_RD = 0 →
  ∃ b' m, mdx_i2c_transfer
      [{| slave := a; flags := fl; len := Z.of_nat (length hdr); buf := hdr |};
       {| slave := a; flags := IIC_M_RD; len := Z.of_nat n; buf := old |}] b =
      Ok (0, [m; {| slave := a; flags := IIC_M_RD; len := Z.of_nat n;
                    buf := get_regs (hval hdr) n r ++ drop n old |}], b') ∧
    sensor_at a (length hdr) r b'.
Proof.
  intros (Hr & Hd & Ha) Hb Ho Hn Hfl.
  destruct (spec_write_msg a hdr [] fl r (drv_dev b) Ha Hd Hfl) as (d1 & E1 & Hd1 & P1).
  rewrite app_nil_r in E1. cbn [put_regs length] in Hd1, P1.
  destruct (spec_read_msg a n old (length hdr) r d1 Ha Hd1) as (d2 & E2 & Hd2).
  match goal with |- ∃ b' m, mdx_i2c_transfer ?msgs b = _ ∧ _ => pose proof (drv_xfer msgs b) as HX end.
  cbn [spec_xfer] in HX. rewrite E1 in HX. cbn [negb] in HX. rewrite E2 in HX. cbn [negb] in HX.
  destruct HX as (b' & HX & Hr' & HD); [|done|].
  { constructor; [|constructor; [|done]].
    - split_and!; cbn; [lia..|done|lia|]. unfold is_read. cbn. by rewrite Hfl.
    - split_and!; cbn; [lia..|done|lia|lia]. }
  exists b'. eexists. rewrite HX, P1, Z.add_0_r. split; [done|]. unfold sensor_at. by rewrite HD.
Qed.

Lemma hval_reg_bytes reg : 0 ≤ reg < 65536 → hval (reg_bytes reg) = reg ∧ byte_list (reg_bytes reg).
Proof.
  intros Hr. unfold hval, reg_bytes. cbn [foldl].
  change 255 with (Z.ones 8). rewrite !Z.land_ones, Z.shiftr_div_pow2 by lia. change (2 ^ 8) with 256.
  pose proof (Z.div_mod reg 256 ltac:(lia)). pose proof (Z.mod_pos_bound reg 256 ltac:(lia)).
  rewrite (Z.mod_small (reg / 256)) by lia. split; [lia|].
  repeat constructor; lia.
Qed.

Lemma write_imx335 a reg val r b :
  sensor_at a 2 r b → 0 ≤ reg < 65536 → 0 ≤ val < 256 →
  ∃ b', imx335_write_reg a reg val b = Ok (0, b') ∧ sensor_at a 2 (<[reg := val]> r) b'.
Proof.
  intros Hs Hr Hv. destruct (hval_reg_bytes reg Hr) as [E1 E2].
  destruct (write_registers a (reg_bytes reg) [val] r b Hs) as (b' & E & Hs').
  { apply Forall_app. split; [done|]. by constructor. }
  exists b'. unfold imx335_write_reg, imx335_write_data. rewrite (wrap_small 8 val) by done.
  change (16 <? 1) with false. cbn [negb andb Z.leb Z.compare length Z.of_nat]. cbv iota.
  change (take (Z.to_nat 1) [val]) with [val]. change (u16 (2 + 1)) with 3.
  change (Z.of_nat (length (reg_bytes reg ++ [val]))) with 3 in E. rewrite E. split; [done|].
  cbn [put_regs] in Hs'. by rewrite E1 in Hs'.
Qed.

Lemma init_table_ok table : ∀ r b,
  sensor_at 52 2 r b → Forall (λ x, 0 ≤ x.1 < 65536 ∧ 0 ≤ x.2 < 256) table →
  ∃ b', imx335_init_table table b = Ok (0, b') ∧
    sensor_at 52 2 (foldl (λ r x, <[x.1 := x.2]> r) r table) b'.
Proof.
  induction table as [|[reg val] table IH]; intros r b Hs HF; [by exists b|].
  apply Forall_cons in HF as [[Hr Hv] HF]. cbn in Hr, Hv.
  destruct (write_imx335 52 reg val r b Hs Hr Hv) as (b1 & E & Hs1).
  cbn [imx335_init_table foldl]. rewrite E, Ok_bind. cbn. by apply IH.
Qed.

(** A write to an address that nobody answers changes nothing. *)
Lemma write_absent a a' hdr fl r k b msgs :
  sensor_at a k r b → 0 ≤ a' < 128 → a' ≠ a → byte_list hdr → Z.land fl IIC_M_RD = 0 →
  Forall good_msg msgs →
  let msg := {| slave := a'; flags := fl; len := Z.of_nat (length hdr); buf := hdr |} in
  ∃ b', mdx_i2c_transfer (msg :: msgs) b = Ok (-1, msg :: msgs, b') ∧ sensor_at a k r b'.
Proof.
  intros (Hr & Hd & Ha) Ha' Hne Hb Hfl HF msg. pose proof (drv_xfer (msg :: msgs) b) as HX.
  assert (spec_msg msg (drv_dev b) = (false, msg, drv_dev b)) as E.
  { unfold spec_msg, is_read, msg. cbn [flags slave]. rewrite Hfl. cbn [negb Z.eqb dev_address regdev_device].
    destruct (address_of a' false Ha') as [-> _]. destruct Hd as [-> _]. by destruct (Z.eqb_spec a' a). }
  cbn [spec_xfer] in HX. unfold msg in HX, E. rewrite E in HX. cbn [negb] in HX.
  destruct HX as (b' & HX & Hr' & HD); [|done|].
  { constructor; [|done]. split_and!; cbn; [lia..|done|lia|]. unfold is_read. cbn. by rewrite Hfl. }
  exists b'. split; [done|]. unfold sensor_at. by rewrite HD.
Qed.

(** With a register device at address [a], on any driver that keeps its
    promise: the accelerometer's functions write a register and read it back, the
    gas sensor's functions a run of registers, and the camera's table is written
    entry by entry, each of its 16-bit registers ending with the last value of the
    table; no other register changes.  At another address every access fails with
    -1 and leaves the device and the caller's buffer alone. *)
Theorem sensor_registers a k r b : sensor_at a k r b →
  (k = 1%nat → ∀ reg val x, 0 ≤ reg < 256 → 0 ≤ val < 256 → 0 ≤ x < 256 → ∃ b1 b2,
    mc6470_write_reg a reg val b = Ok (0, b1) ∧ mc6470_read_reg a reg [x] b1 = Ok (0, [val], b2) ∧
    sensor_at a k (<[reg := val]> r) b2) ∧
  (k = 1%nat → ∀ reg data old, 0 ≤ reg < 256 → byte_list data → length old = length data →
    (0 < length data ≤ 31)%nat → let n := Z.of_nat (length data) in ∃ b1 b2,
    user_i2c_write a reg data n b = Ok (0, b1) ∧ user_i2c_read a reg old n b1 = Ok (0, data, b2) ∧
    sensor_at a k (put_regs reg data r) b2) ∧
  (k = 2%nat → a = 52 → ∀ table, Forall (λ x, 0 ≤ x.1 < 65536 ∧ 0 ≤ x.2 < 256) table →
    let r' := foldl (λ r x, <[x.1 := x.2]> r) r table in
    ∃ b1, imx335_init_table table b = Ok (0, b1) ∧ sensor_at a k r' b1 ∧
    ∀ reg x, 0 ≤ reg < 65536 → 0 ≤ x < 256 → ∃ b2,
      imx335_read_reg a reg [x] b1 = Ok (0, [u8 (default 0 (r' !! reg))], b2) ∧ sensor_at a k r' b2) ∧
  (∀ a' reg n old, 0 ≤ a' < 128 → a' ≠ a → 0 ≤ reg < 256 → byte_list old → 0 < n ≤ Z.of_nat (length old) →
    n < 65536 → ∃ b1, mc6470_read_data a' reg n old b = Ok (-1, old, b1) ∧ sensor_at a k r b1).
Proof.
  intros Hs. split_and!.
  - intros -> reg val x Hr Hv Hx.
    destruct (write_registers a [reg] [val] r b Hs) as (b1 & E1 & Hs1); [cbn [app]; bytes|].
    destruct (read_registers a [reg] 0 1 [x] _ b1 Hs1) as (b2 & m & E2 & Hs2);
      [bytes|bytes|cbn; lia|done|].
    exists b1, b2. unfold mc6470_write_reg, mc6470_read_reg, mc6470_read_data.
    change (Z.of_nat (length ([reg] ++ [val]))) with 2 in E1. change (Z.of_nat (length [reg])) with 1 in E2.
    change (Z.of_nat 1) with 1 in E2. change (u16 1) with 1. cbn [app] in E1. rewrite E1, Ok_bind, E2, Ok_bind.
    cbn. rewrite lookup_insert_eq. cbn. rewrite wrap_small by done.
    split_and!; try done.
  - intros -> reg data old Hr Hb Hl Hn n.
    destruct (write_registers a [reg] data r b Hs) as (b1 & E1 & Hs1); [cbn [app]; bytes|].
    destruct (read_registers a [reg] IIC_M_NOSTOP (length data) (replicate 32 0) _ b1 Hs1) as (b2 & m & E2 & Hs2);
      [bytes|by apply Forall_replicate|rewrite length_replicate; lia|done|].
    exists b1, b2. unfold user_i2c_write, user_i2c_read, BME680_XFER_MAX_LEN, n.
    destruct (Z.ltb_spec (32 - 1) (Z.of_nat (length data))); [lia|].
    destruct (Z.ltb_spec 32 (Z.of_nat (length data))); [lia|]. rewrite Z.ltb_irrefl, Nat2Z.id, firstn_all.
    rewrite (wrap_small 16) by lia. cbn [app length] in E1. rewrite Nat2Z.inj_succ, <- Z.add_1_l in E1.
    rewrite E1, Ok_bind. cbn [negb Z.eqb]. change (Z.of_nat (length [reg])) with 1 in E2. rewrite E2, Ok_bind. cbn [negb Z.eqb].
    rewrite Hl, Z.ltb_irrefl. cbn [lookup list_lookup fmap option_fmap option_map default buf id].
    assert (hval [reg] = reg) as Eh by done. rewrite Eh in *.
    rewrite get_put by done. unfold id. rewrite take_app_length, drop_ge, app_nil_r by lia. done.
  - intros -> -> table HF r'. destruct (init_table_ok table r b Hs HF) as (b1 & E1 & Hs1).
    exists b1. split_and!; [done|done|]. intros reg x Hr Hx. destruct (hval_reg_bytes reg Hr) as [E3 E4].
    destruct (read_registers 52 (reg_bytes reg) IIC_M_NOSTOP 1 [x] _ b1 Hs1) as (b2 & m & E2 & Hs2);
      [done|bytes|cbn; lia|done|].
    exists b2. unfold imx335_read_reg, imx335_read_data. change (Z.of_nat (length (reg_bytes reg))) with 2 in E2.
    change (Z.of_nat 1) with 1 in E2. change (u16 1) with 1. rewrite E2, Ok_bind, E3. by split.
  - intros a' reg n old Ha' Hne Hr Ho Hn Hn2.
    destruct (write_absent a a' [reg] 0 r k b [{| slave := a'; flags := IIC_M_RD; len := u16 n; buf := old |}] Hs)
      as (b1 & E & Hs1); [done|done|bytes|done| |].
    { constructor; [|done]. rewrite wrap_small by lia. split_and!; cbn; [lia..|done|lia|lia]. }
    exists b1. unfold mc6470_read_data. change (Z.of_nat (length [reg])) with 1 in E. rewrite E. done.
Qed.
End clients.

(** C31: A bit-banged transfer on a bus with one slave ends and does to the
    device exactly what the messages say: each is addressed, its bytes arrive in
    order until one is refused, the bytes read are the ones the device sent, and a
    STOP follows a complete message unless the message forbids it.  A refused byte
    ends the transfer with -1.  In every case both sides have let go of SDA, so that
    the next transfer may begin; SCL is high, and the bus free, exactly when the
    last thing on it was a STOP, and low after a refused byte or a last message that
    forbids the STOP.  Every buffer holds its bytes, and a read asks for at least
    one. *)
Theorem i2c_xfer_refines {D} `{I2cDevice D} msgs (b : bus D) :
  Forall good_msg msgs → released b →
  let '(error, msgs', d') := spec_xfer msgs (dev b) in
  ∃ b', i2c_bitbang_xfer msgs b = Ok (error, msgs', b') ∧ released b' ∧ dev b' = d' ∧
    match last msgs with Some msg => wires_after ((error =? 0) && has_stop msg) b' | None => b' = b end.
Proof. apply bitbang_xfer_wires. Qed.

Module I2cDemo.
(** An accelerometer on an idle bus. *)
Definition d0 : regdev := {| rd_addr := 76; rd_width := 1; rd_wait := 0; rd_ptr := 0; rd_regs := ∅ |}.
Definition b0 : bus regdev := Bus true true Idle d0.

Definition msgs0 : list i2c_msg :=
  [{| slave := 76; flags := 0; len := 3; buf := [8; 165; 90] |};
   {| slave := 76; flags := IIC_M_NOSTOP; len := 1; buf := [8] |};
   {| slave := 76; flags := IIC_M_RD; len := 2; buf := [0; 0] |};
   {| slave := 60; flags := 0; len := 1; buf := [1] |}].

Lemma i2c_xfer_refines_witness :
  Forall good_msg msgs0 ∧ released b0 ∧
  ∃ b', i2c_bitbang_xfer msgs0 b0 =
    Ok (-1, [{| slave := 76; flags := 0; len := 3; buf := [8; 165; 90] |};
             {| slave := 76; flags := IIC_M_NOSTOP; len := 1; buf := [8] |};
             {| slave := 76; flags := IIC_M_RD; len := 2; buf := [165; 90] |};
             {| slave := 60; flags := 0; len := 1; buf := [1] |}], b') ∧ released b' ∧ scl b' = false ∧
  ∃ b2, i2c_bitbang_xfer (take 3 msgs0) b0 = Ok (0, take 2 msgs0 ++
      [{| slave := 76; flags := IIC_M_RD; len := 2; buf := [165; 90] |}], b2) ∧ scl b2 = true ∧ ph b2 = Idle.
Proof.
  assert (Forall good_msg msgs0) as HF.
  { repeat constructor; cbn; try lia; done. }
  assert (released b0) as Hr by (split; [done|by left]).
  split; [exact HF|]. split; [exact Hr|].
  destruct (i2c_xfer_refines msgs0 b0 HF Hr) as (b' & E & Hr' & _ & _ & W & _).
  exists b'. split; [exact E|]. split; [exact Hr'|]. split; [exact W|].
  destruct (i2c_xfer_refines (take 3 msgs0) b0 (Forall_take _ _ _ HF) Hr) as (b2 & E2 & _ & _ & _ & W2 & P2).
  exists b2. split; [exact E2|]. split; [exact W2|exact P2].
Defined.

Lemma sensor_registers_witness :
  sensor_at 76 1 ∅ b0 ∧ ∃ b1 b2,
    mc6470_write_reg 76 MC6470_SRTFR 5 b0 = Ok (0, b1) ∧
    mc6470_read_reg 76 MC6470_SRTFR [0] b1 = Ok (0, [5], b2) ∧ sensor_at 76 1 {[MC6470_SRTFR := 5]} b2.
Proof.
  assert (sensor_at 76 1 ∅ b0) as Hs.
  { split; [split; [done|by left]|]. split; [by split_and!|lia]. }
  split; [exact Hs|]. destruct (sensor_registers 76 1 ∅ b0 Hs) as (H1 & _).
  apply (H1 eq_refl 8 5 0); lia.
Defined.

(** A read of no bytes, which the driver accepts, leaves the slave
    holding SDA low: the master's STOP does not happen, and neither does the START
    of the next transfer. *)
Lemma zero_length_read_holds_bus :
  match i2c_bitbang_xfer [{| slave := 76; flags := IIC_M_RD; len := 0; buf := [] |}] b0 with
  | Ok (error, _, b1) => error = 0 ∧ line b1 = false ∧
    match i2c_bitbang_xfer [{| slave := 76; flags := 0; len := 2; buf := [8; 5] |}] b1 with
    | Ok (error, _, _) => error = -1
    | Err _ => False
    end
  | Err _ => False
  end.
Proof. vm_compute. by split_and!. Qed.

(** A refused byte ends the transfer without a STOP: SCL stays low and the bus
    stays busy. *)
Lemma nack_sends_no_stop :
  match i2c_bitbang_xfer [{| slave := 60; flags := 0; len := 1; buf := [1] |}] b0 with
  | Ok (error, _, b1) => error = -1 ∧ scl b1 = false ∧ ph b1 = Ignore
  | Err _ => False
  end.
Proof. vm_compute. by split_and!. Qed.
End I2cDemo.
