(* ===== verification/Uart.v ===== *)
(** * Serial lines (dev/uart/uart.c, uart.h, uart_16550.c; kernel/systm/mdx_console.c;
    dev/mh_z19b/mh_z19b.c)

    A UART driver is anything with the operations of [struct mdx_uart_ops]; the console
    and the CO2 sensor only know that.  The driver of the 16550 reaches its registers
    through memory-mapped accesses, which are a type class over the state of the
    hardware.  A loop that polls a register is bounded by [fuel]. *)

From S2P Require Import Prelude.
Local Open Scope Z_scope.

(** ** The interface *)

Inductive uart_databits := UART_DATABITS_5 | UART_DATABITS_6 | UART_DATABITS_7 | UART_DATABITS_8.
Inductive uart_stopbits := UART_STOPBITS_1 | UART_STOPBITS_1_5 | UART_STOPBITS_2.
Inductive uart_parity := UART_PARITY_NONE | UART_PARITY_ODD | UART_PARITY_EVEN.

(** struct mdx_uart_ops *)
Class UartOps (D : Type) := {
  putc : Z → D → res D;
  rxready : D → res (bool * D);
  getc : D → res (Z * D);
  setup : Z → uart_databits → uart_stopbits → uart_parity → D → res D
}.

Section Interface.
Context {D : Type} `{UartOps D}.

Definition mdx_uart_putc (c : Z) (dev : D) : res D := putc c dev.
Definition mdx_uart_getc (dev : D) : res (Z * D) := getc dev.
Definition mdx_uart_rxready (dev : D) : res (bool * D) := rxready dev.
Definition mdx_uart_setup (baudrate : Z) (databits : uart_databits) (stopbits : uart_stopbits) (parity : uart_parity)
    (dev : D) : res D := setup baudrate databits stopbits parity dev.

(** ** The console *)

Definition uart_putchar (c : Z) (dev : D) : res D :=
  dev ← (if c =? 10 then mdx_uart_putc 13 dev else Ok dev);
  mdx_uart_putc c dev.

(** The value returned and [*c]. *)
Definition mdx_console_getchar (dev : D) : res (Z * option Z * D) :=
  '(ready, dev) ← mdx_uart_rxready dev;
  if (ready : bool) then '(c, dev) ← mdx_uart_getc dev; Ok (1, Some c, dev) else Ok (0, None, dev).

(** kern_console.console_putchar after mdx_console_register_uart(): the function that
    printf calls.  It returns void, so a failure is a state that it does not leave. *)
Definition console_putchar (c : Z) (dev : res D) : res D := dev ← dev; uart_putchar c dev.

(** ** The sensor MH-Z19B *)

Definition MH_Z19B_CO2_CONCENTRATION : Z := 0x86.
Definition MH_Z19B_DETECTION_RANGE : Z := 0x99.

(** A packet of 9 bytes; reading outside is a fault. *)
Definition pkt_byte (pkt : list Z) (i : nat) : res Z :=
  match pkt !! i with Some b => Ok b | None => Err Fault end.

(** [for (i = 1; i < 8; i++) csum += pkt[i]] *)
Fixpoint sum_bytes (pkt : list Z) (idx : list nat) (csum : Z) : res Z :=
  match idx with
  | [] => Ok csum
  | i :: idx => b ← pkt_byte pkt i; sum_bytes pkt idx (u8 (csum + b))
  end.

Definition mh_z19b_checksum (pkt : list Z) : res Z :=
  csum ← sum_bytes pkt (seq 1 7) 0;
  let csum := u8 (0xff - csum) in
  Ok (u8 (csum + 1)).

(** The request with its last byte. *)
Definition with_checksum (req : list Z) : res (list Z) :=
  csum ← mh_z19b_checksum req;
  Ok (take 8 req ++ [csum]).

Definition mh_z19b_set_range_req (range : Z) : res (list Z) :=
  with_checksum [0xFF; 0x01; MH_Z19B_DETECTION_RANGE; u8 (range ÷ 256); u8 (Z.rem range 256); 0; 0; 0].

Definition mh_z19b_read_co2_req : res (list Z) :=
  with_checksum [0xFF; 0x01; MH_Z19B_CO2_CONCENTRATION; 0; 0; 0; 0; 0].

(** The value returned and [*co2]. *)
Definition mh_z19b_read_co2_reply (reply : list Z) : res (Z * option Z) :=
  csum ← mh_z19b_checksum reply;
  b8 ← pkt_byte reply 8;
  if negb (csum =? b8) then Ok (-1, None) else
  b2 ← pkt_byte reply 2;
  b3 ← pkt_byte reply 3;
  Ok (0, Some (b2 * 256 + b3)).

Fixpoint putcs (l : list Z) (dev : D) : res D :=
  match l with [] => Ok dev | c :: l => dev ← mdx_uart_putc c dev; putcs l dev end.

(** [do { if (mdx_uart_rxready(dev)) break; } while (timeout--)] with [timeout = n]:
    [timeout] after the loop. *)
Fixpoint poll_loop (n : nat) (dev : D) : res (Z * D) :=
  '(ready, dev) ← mdx_uart_rxready dev;
  if (ready : bool) then Ok (Z.of_nat n, dev)
  else match n with O => Ok (-1, dev) | S n => poll_loop n dev end.

(** The second loop of mh_z19b_cycle(): what it returns, and the bytes of the reply
    that were stored. *)
Fixpoint reply_loop (timeout0 i : nat) (dev : D) : res (Z * list Z * D) :=
  match i with
  | O => Ok (0, [], dev)
  | S i =>
    '(timeout, dev) ← poll_loop timeout0 dev;
    if timeout <=? 0 then Ok (-1, [], dev) else
    '(c, dev) ← mdx_uart_getc dev;
    '(r, reply, dev) ← reply_loop timeout0 i dev;
    Ok (r, u8 c :: reply, dev)
  end.

(** [timeout0] is 10000. *)
Definition mh_z19b_cycle_with (timeout0 : nat) (req : list Z) (reply_len : nat) (dev : D) : res (Z * list Z * D) :=
  if (length req <? 9)%nat then Err Fault else
  dev ← putcs (take 9 req) dev;
  reply_loop timeout0 reply_len dev.

Definition mh_z19b_cycle (req : list Z) (reply_len : nat) (dev : D) : res (Z * list Z * D) :=
  mh_z19b_cycle_with (Z.to_nat 10000) req reply_len dev.
End Interface.

(** ** The 16550 *)

Definition REG_DATA : Z := 0.
Definition REG_IER : Z := 1.
Definition IER_ERXRDY : Z := 1.
Definition REG_IIR : Z := 2.
Definition IIR_RXRDY : Z := 4.
Definition REG_LCR : Z := 3.
Definition LCR_STOPB : Z := 4.
Definition LCR_DLAB : Z := 128.
Definition REG_LSR : Z := 5.
Definition LSR_RXRDY : Z := 1.
Definition LSR_THRE : Z := 32.
Definition REG_DLL : Z := 0.
Definition REG_DLM : Z := 1.

Definition LCR_BITS (b : uart_databits) : Z :=
  match b with UART_DATABITS_5 => 0 | UART_DATABITS_6 => 1 | UART_DATABITS_7 => 2 | UART_DATABITS_8 => 3 end.
Definition LCR_PARITY (p : uart_parity) : Z :=
  match p with UART_PARITY_NONE => 0 | UART_PARITY_ODD => Z.shiftl 1 3 | UART_PARITY_EVEN => Z.shiftl 3 3 end.
Definition LCR_STOP (s : uart_stopbits) : Z :=
  match s with UART_STOPBITS_1 | UART_STOPBITS_1_5 => 0 | UART_STOPBITS_2 => LCR_STOPB end.

(** Memory-mapped accesses: width in bits, offset from the base, value. *)
Class Mmio (D : Type) := {
  mdx_ioread : Z → Z → D → Z * D;
  mdx_iowrite : Z → Z → Z → D → D
}.

(** struct uart_16550_softc *)
Record uart_16550_softc := { reg_shift : Z; bus_freq : Z; baudrate : Z }.

Section Uart16550.
Context {D : Type} `{Mmio D} (fuel : nat) (sc : uart_16550_softc).

Definition access_width : Z := if reg_shift sc =? 2 then 32 else 8.

Definition UART_READ (reg : Z) (d : D) : Z * D := mdx_ioread access_width (Z.shiftl reg (reg_shift sc)) d.
Definition UART_WRITE (reg val : Z) (d : D) : D :=
  mdx_iowrite access_width (Z.shiftl reg (reg_shift sc)) (wrap access_width val) d.

(** The interrupt handler. *)
Fixpoint intr_loop (fuel : nat) (d : D) : res D :=
  match fuel with
  | O => Err NoFuel
  | S fuel =>
    let '(iir, d) := UART_READ REG_IIR d in
    if Z.land iir IIR_RXRDY =? 0 then Ok d
    else intr_loop fuel (UART_READ REG_DATA d).2
  end.

Definition uart_16550_intr (d : D) : res D := intr_loop fuel d.

Definition uart_16550_rxready (d : D) : res (bool * D) :=
  let '(status, d) := UART_READ REG_LSR d in
  Ok (negb (Z.land status LSR_RXRDY =? 0), d).

(** [do status = UART_READ(sc, REG_LSR); while ((status & mask) == 0)] *)
Fixpoint wait_lsr (fuel : nat) (mask : Z) (d : D) : res D :=
  match fuel with
  | O => Err NoFuel
  | S fuel =>
    let '(status, d) := UART_READ REG_LSR d in
    if Z.land status mask =? 0 then wait_lsr fuel mask d else Ok d
  end.

Definition uart_16550_getc (d : D) : res (Z * D) :=
  d ← wait_lsr fuel LSR_RXRDY d;
  Ok (UART_READ REG_DATA d).

Definition uart_16550_putc (c : Z) (d : D) : res D :=
  d ← wait_lsr fuel LSR_THRE d;
  Ok (UART_WRITE REG_DATA c d).

Definition uart_16550_setup (baud_rate : Z) (databits : uart_databits) (stopbits : uart_stopbits) (parity : uart_parity)
    (d : D) : res D :=
  if (2 ^ 31 <=? 16 * baud_rate) || (16 * baud_rate <? - 2 ^ 31) then Err Fault (* signed overflow *) else
  if u32 (16 * baud_rate) =? 0 then Err Fault (* division by zero *) else
  let divisor := s32 (bus_freq sc / u32 (16 * baud_rate)) in
  let d := UART_WRITE REG_IER 0 d in
  let '(reg, d) := UART_READ REG_LCR d in
  let reg := Z.lor reg LCR_DLAB in
  let d := UART_WRITE REG_LCR reg d in
  let d := UART_WRITE REG_DLL (Z.land divisor 0xff) d in
  let d := UART_WRITE REG_DLM (Z.land (Z.shiftr divisor 8) 0xff) d in
  let reg := Z.lor reg (LCR_BITS databits) in
  let reg := Z.lor reg (LCR_STOP stopbits) in
  let reg := Z.lor reg (LCR_PARITY parity) in
  let d := UART_WRITE REG_LCR reg d in
  let '(reg, d) := UART_READ REG_LCR d in
  let reg := Z.ldiff reg LCR_DLAB in
  let d := UART_WRITE REG_LCR reg d in
  Ok (UART_WRITE REG_IER IER_ERXRDY d).

(** uart_16550_ops *)
#[export] Instance uart_16550_ops : UartOps D := {|
  putc := uart_16550_putc;
  rxready := uart_16550_rxready;
  getc := uart_16550_getc;
  setup := uart_16550_setup
|}.
End Uart16550.
