(* ===== verification/UartTheorems.v ===== *)
(** * Theorems of the serial lines

    [UartLaws] is what the clients of a UART rely on: what was transmitted, and which
    bytes arrive after it, each within a bounded number of polls.  The console and the
    CO2 sensor are verified against it.  [Ns16550] is the data sheet of the 16550,
    register by register; the driver on any hardware with these registers satisfies
    [UartLaws]. *)

From S2P Require Import Prelude Printf PrintfStream PrintfText PrintfTheorems Uart.
Local Open Scope Z_scope.

(** ** What a UART promises *)

(** The other end of the line answers what it received: [peer] are the bytes that it
    has sent after the bytes given.  [coming] are those not yet taken; the first one is
    there after [wait] polls. *)
Class UartLaws (D : Type) `{UartOps D} := {
  usable : D → Prop;
  sent : D → list Z;
  taken : D → nat;
  wait : D → nat;
  peer : list Z → list Z;
  patience : nat;
  coming d := drop (taken d) (peer (sent d));
  wait_le d : (wait d ≤ patience)%nat;
  putc_law c d : usable d →
    ∃ d', putc c d = Ok d' ∧ usable d' ∧ sent d' = sent d ++ [u8 c] ∧ taken d' = taken d;
  rxready_law d : usable d →
    ∃ d', rxready d = Ok ((wait d =? 0)%nat && negb (bool_decide (coming d = [])), d') ∧
      usable d' ∧ sent d' = sent d ∧ taken d' = taken d ∧ wait d' = pred (wait d);
  getc_law b l d : usable d → coming d = b :: l →
    ∃ d', getc d = Ok (b, d') ∧ usable d' ∧ sent d' = sent d ∧ taken d' = S (taken d)
}.

(** ** The console *)

(** A newline is a carriage return and a newline on the line. *)
Definition crlf (l : list Z) : list Z := l ≫= λ c, if c =? 10 then [13; 10] else [u8 c].

Section Console.
Context {D : Type} `{UartLaws D}.

Lemma uart_putchar_ok c d : usable d →
  ∃ d', uart_putchar c d = Ok d' ∧ usable d' ∧ sent d' = sent d ++ crlf [c] ∧ taken d' = taken d.
Proof.
  intros Hu. unfold uart_putchar, mdx_uart_putc, crlf. cbn [mbind list_bind]. rewrite app_nil_r.
  destruct (Z.eqb_spec c 10) as [->|Hc].
  - destruct (putc_law 13 d Hu) as (d1 & -> & Hu1 & Es1 & Et1). rewrite Ok_bind.
    destruct (putc_law 10 d1 Hu1) as (d2 & -> & Hu2 & Es2 & Et2). exists d2.
    rewrite Es2, Es1, <- app_assoc. split_and!; [done|done|done|congruence].
  - rewrite Ok_bind. by apply putc_law.
Qed.

Lemma feed_console l : ∀ d, usable d →
  ∃ d', feed console_putchar l (Ok d) = Ok d' ∧ usable d' ∧ sent d' = sent d ++ crlf l ∧ taken d' = taken d.
Proof.
  unfold feed. induction l as [|c l IH]; intros d Hu; cbn [foldl].
  - exists d. by rewrite app_nil_r.
  - unfold console_putchar at 2. rewrite Ok_bind.
    destruct (uart_putchar_ok c d Hu) as (d1 & -> & Hu1 & Es1 & Et1).
    destruct (IH d1 Hu1) as (d2 & E & Hu2 & Es2 & Et2). exists d2. split_and!; [done|done| |congruence].
    rewrite Es2, Es1, <- app_assoc. f_equal. unfold crlf. cbn [mbind list_bind]. by rewrite app_nil_r.
Qed.

(** A character that was waited for is read; otherwise nothing happens but time. *)
Lemma getchar_ok d : usable d →
  ∃ d', usable d' ∧ sent d' = sent d ∧
    match coming d with
    | b :: _ => if (wait d =? 0)%nat then mdx_console_getchar d = Ok (1, Some b, d') ∧ taken d' = S (taken d)
                else mdx_console_getchar d = Ok (0, None, d') ∧ taken d' = taken d ∧ wait d' = pred (wait d)
    | [] => mdx_console_getchar d = Ok (0, None, d') ∧ taken d' = taken d
    end.
Proof.
  intros Hu. unfold mdx_console_getchar, mdx_uart_rxready, mdx_uart_getc.
  destruct (rxready_law d Hu) as (d1 & -> & Hu1 & Es & Et & Ew). rewrite Ok_bind. cbv beta iota.
  destruct (coming d) as [|b l] eqn:Ec.
  - rewrite andb_false_r. by exists d1.
  - rewrite bool_decide_eq_false_2, andb_true_r by done. destruct (Nat.eqb_spec (wait d) 0) as [E0|E0]; [|by exists d1].
    assert (coming d1 = b :: l) as Ec1 by (rewrite <- Ec; unfold coming; congruence).
    destruct (getc_law b l d1 Hu1 Ec1) as (d2 & -> & Hu2 & Es2 & Et2). rewrite Ok_bind.
    exists d2. split_and!; [done|congruence|done|congruence].
Qed.
End Console.

(** ** Packets of the sensor *)

Lemma u8_bytes l : byte_list l → u8 <$> l = l.
Proof. induction 1 as [|b l Hb HF IH]; [done|]. by rewrite fmap_cons, IH, wrap_small. Qed.

Definition bytes_total (l : list Z) : Z := foldr Z.add 0 l.

Lemma bytes_total_app l k : bytes_total (l ++ k) = bytes_total l + bytes_total k.
Proof. induction l as [|a l IH]; [done|]. change (a + bytes_total (l ++ k) = a + bytes_total l + bytes_total k). lia. Qed.

Lemma sum_bytes_ok l : ∀ pre post csum,
  sum_bytes (pre ++ l ++ post) (seq (length pre) (length l)) csum =
  Ok (if decide (l = []) then csum else u8 (csum + bytes_total l)).
Proof.
  induction l as [|a l IH]; intros pre post csum; cbn [length seq sum_bytes]; [done|].
  unfold pkt_byte. rewrite (list_lookup_middle pre (l ++ post) a) by done. rewrite Ok_bind.
  replace (pre ++ (a :: l) ++ post) with ((pre ++ [a]) ++ l ++ post) by by rewrite <- app_assoc.
  replace (S (length pre)) with (length (pre ++ [a])) by (rewrite length_app; cbn; lia).
  rewrite IH. rewrite (decide_False (P := a :: l = [])) by done. f_equal. cbn [bytes_total foldr].
  unfold wrap. destruct (decide (l = [])) as [->|]; [cbn; by rewrite Z.add_0_r|].
  rewrite Z.add_mod_idemp_l by done. f_equal. unfold bytes_total. lia.
Qed.

(** The checksum makes the bytes from the second on sum up to a multiple of 256. *)
Lemma checksum_ok h body post : length body = 7%nat →
  mh_z19b_checksum (h :: body ++ post) = Ok (u8 (- bytes_total body)).
Proof.
  intros HL. unfold mh_z19b_checksum. pose proof (sum_bytes_ok body [h] post 0) as E. rewrite HL in E.
  change (length [h]) with 1%nat in E. cbn [app] in E. rewrite E, Ok_bind.
  rewrite decide_False by by destruct body. f_equal. unfold wrap. change (2 ^ 8) with 256.
  rewrite Z.add_0_l, Z.add_mod_idemp_l by done.
  replace (255 - bytes_total body mod 256 + 1) with (256 - bytes_total body mod 256) by lia.
  rewrite Zminus_mod_idemp_r, <- (Z_mod_plus_full (- bytes_total body) 1 256). f_equal. lia.
Qed.

(** A reply of the sensor: 0xff, the command, the concentration and four bytes. *)
Definition co2_body (ppm : Z) (extra : list Z) : list Z := MH_Z19B_CO2_CONCENTRATION :: ppm / 256 :: ppm mod 256 :: extra.
Definition co2_reply (ppm : Z) (extra : list Z) : list Z :=
  0xff :: co2_body ppm extra ++ [u8 (- bytes_total (co2_body ppm extra))].

Lemma pkt_byte_at l i b : l !! i = Some b → pkt_byte l i = Ok b.
Proof. unfold pkt_byte. by intros ->. Qed.

Lemma read_co2_reply_ok ppm extra : length extra = 4%nat →
  mh_z19b_read_co2_reply (co2_reply ppm extra) = Ok (0, Some ppm).
Proof.
  intros HL. unfold mh_z19b_read_co2_reply, co2_reply. rewrite checksum_ok by (cbn; lia). rewrite Ok_bind.
  destruct extra as [|e1 [|e2 [|e3 [|e4 [|]]]]]; try done.
  erewrite (pkt_byte_at _ 8) by reflexivity. rewrite Ok_bind, Z.eqb_refl. cbn [negb].
  erewrite (pkt_byte_at _ 2), Ok_bind, (pkt_byte_at _ 3), Ok_bind by reflexivity. do 3 f_equal. pose proof (Z.div_mod ppm 256). lia.
Qed.

(** One wrong byte behind the first is noticed. *)
(** The start byte is not looked at. *)
Lemma read_co2_reply_start ppm extra b : length extra = 4%nat →
  mh_z19b_read_co2_reply (<[0%nat := b]> (co2_reply ppm extra)) = Ok (0, Some ppm).
Proof. intros HL. rewrite <- (read_co2_reply_ok ppm extra HL). done. Qed.

Lemma read_co2_reply_corrupt ppm extra i b : length extra = 4%nat → byte_list extra → 0 ≤ ppm < 2 ^ 16 →
  (1 ≤ i < 9)%nat → 0 ≤ b < 256 → co2_reply ppm extra !! i ≠ Some b →
  mh_z19b_read_co2_reply (<[i := b]> (co2_reply ppm extra)) = Ok (-1, None).
Proof.
  intros HL HB Hp Hi Hb HN. destruct extra as [|e1 [|e2 [|e3 [|e4 [|]]]]]; try done.
  unfold co2_reply in *. set (body := co2_body ppm [e1; e2; e3; e4]) in *.
  assert (byte_list body) as HBB.
  { unfold body, co2_body, MH_Z19B_CO2_CONCENTRATION. pose proof (Z.mod_pos_bound ppm 256). pose proof (Z.div_mod ppm 256).
    do 3 (apply Forall_cons; split; [lia|]). done. }
  assert (length body = 7%nat) as HL7 by done. destruct i as [|i]; [lia|].
  change (<[S i:=b]> (255 :: body ++ [u8 (- bytes_total body)])) with (255 :: <[i:=b]> (body ++ [u8 (- bytes_total body)])).
  change ((body ++ [u8 (- bytes_total body)]) !! i ≠ Some b) in HN.
  destruct (decide (i = 7%nat)) as [->|Hne].
  - rewrite insert_app_r_alt by lia. change (<[(7 - length body)%nat:=b]> [u8 (- bytes_total body)]) with [b]. unfold mh_z19b_read_co2_reply. rewrite checksum_ok by done. rewrite Ok_bind.
    erewrite (pkt_byte_at _ 8), Ok_bind by reflexivity.
    rewrite (list_lookup_middle body [] _ 7 eq_refl) in HN.
    destruct (Z.eqb_spec (u8 (- bytes_total body)) b); [congruence|done].
  - rewrite insert_app_l by lia. rewrite lookup_app_l in HN by lia.
    destruct (lookup_lt_is_Some_2 body i) as [a Ha]; [lia|]. rewrite Ha in HN.
    assert (0 ≤ a < 256) by exact (proj1 (Forall_lookup _ _) HBB i a Ha).
    unfold mh_z19b_read_co2_reply. rewrite checksum_ok by by rewrite length_insert. rewrite Ok_bind.
    rewrite (pkt_byte_at _ 8 (u8 (- bytes_total body))); [rewrite Ok_bind|].
    2: { apply (list_lookup_middle (<[i:=b]> body) [] _ 7). by rewrite length_insert. }
    assert (bytes_total (<[i:=b]> body) = bytes_total body + b - a) as Et.
    { pose proof (take_drop_middle body i a Ha) as E1. rewrite insert_take_drop by lia.
      rewrite <- E1 at 3. rewrite !bytes_total_app. cbn. lia. }
    rewrite Et. destruct (Z.eqb_spec (u8 (- (bytes_total body + b - a))) (u8 (- bytes_total body))) as [E|]; [|done].
    exfalso. unfold wrap in E. change (2 ^ 8) with 256 in E.
    assert (b ≠ a) by congruence.
    pose proof (Z.div_mod (- (bytes_total body + b - a)) 256). pose proof (Z.div_mod (- bytes_total body) 256). lia.
Qed.

(** ** A request and its reply *)

Section Sensor.
Context {D : Type} `{UartLaws D}.

Lemma putcs_ok l : ∀ d, usable d →
  ∃ d', putcs l d = Ok d' ∧ usable d' ∧ sent d' = sent d ++ (u8 <$> l) ∧ taken d' = taken d.
Proof.
  induction l as [|c l IH]; intros d Hu; cbn [putcs].
  - exists d. by rewrite app_nil_r.
  - unfold mdx_uart_putc. destruct (putc_law c d Hu) as (d1 & -> & Hu1 & Es1 & Et1). rewrite Ok_bind.
    destruct (IH d1 Hu1) as (d2 & -> & Hu2 & Es2 & Et2). exists d2.
    rewrite Es2, Es1, <- app_assoc. split_and!; [done|done|done|congruence].
Qed.

(** The polls until a byte is there, when it comes in time. *)
Lemma poll_ready n : ∀ d, usable d → coming d ≠ [] → (wait d ≤ n)%nat →
  ∃ d', poll_loop n d = Ok (Z.of_nat (n - wait d), d') ∧ usable d' ∧ sent d' = sent d ∧ taken d' = taken d.
Proof.
  induction n as [|n IH]; intros d Hu Hc Hw; cbn [poll_loop]; unfold mdx_uart_rxready;
    destruct (rxready_law d Hu) as (d1 & -> & Hu1 & Es & Et & Ew); rewrite Ok_bind; cbv beta iota;
    rewrite (bool_decide_eq_false_2 _ Hc), andb_true_r; destruct (Nat.eqb_spec (wait d) 0) as [E0|E0]; try lia;
    try (exists d1; rewrite E0, Nat.sub_0_r; done).
  destruct (IH d1 Hu1) as (d2 & -> & Hu2 & Es2 & Et2); [unfold coming in *; congruence|lia|].
  exists d2. rewrite Ew. split_and!; [do 3 f_equal; lia|done|congruence|congruence].
Qed.

(** A byte that comes too late, or none, ends the loop after [n + 1] polls. *)
Lemma poll_silent n : ∀ d, usable d → coming d = [] ∨ (n < wait d)%nat →
  ∃ d', poll_loop n d = Ok (-1, d') ∧ usable d' ∧ sent d' = sent d ∧ taken d' = taken d.
Proof.
  induction n as [|n IH]; intros d Hu Hc; cbn [poll_loop]; unfold mdx_uart_rxready;
    destruct (rxready_law d Hu) as (d1 & -> & Hu1 & Es & Et & Ew); rewrite Ok_bind; cbv beta iota;
    (assert ((wait d =? 0)%nat && negb (bool_decide (coming d = [])) = false) as ->;
      [destruct Hc as [->|Hc]; [by rewrite andb_false_r|by destruct (Nat.eqb_spec (wait d) 0); lia]|]).
  - by exists d1.
  - destruct (IH d1 Hu1) as (d2 & -> & Hu2 & Es2 & Et2).
    { destruct Hc as [Hc|Hc]; [left; unfold coming in *; congruence|right; lia]. }
    exists d2. split_and!; congruence || done.
Qed.

Lemma coming_next d d1 b l : coming d = b :: l → sent d1 = sent d → taken d1 = S (taken d) → coming d1 = l.
Proof.
  unfold coming. intros E -> ->. rewrite <- Nat.add_1_r, <- drop_drop, E. done.
Qed.

Lemma reply_loop_ok n timeout0 : (patience < timeout0)%nat → ∀ d reply rest, usable d →
  coming d = reply ++ rest → length reply = n →
  ∃ d', reply_loop timeout0 n d = Ok (0, u8 <$> reply, d') ∧ usable d' ∧ sent d' = sent d ∧ coming d' = rest.
Proof.
  intros HP. induction n as [|n IH]; intros d reply rest Hu Hc HL.
  - destruct reply; [|done]. by exists d.
  - destruct reply as [|b reply]; [done|]. cbn [app] in Hc. cbn [reply_loop].
    pose proof (wait_le d) as Hw.
    destruct (poll_ready timeout0 d Hu) as (d1 & -> & Hu1 & Es1 & Et1); [by rewrite Hc|lia|].
    rewrite Ok_bind. cbv beta iota. destruct (Z.leb_spec (Z.of_nat (timeout0 - wait d)) 0); [lia|].
    assert (coming d1 = b :: reply ++ rest) as Hc1 by (rewrite <- Hc; unfold coming; congruence).
    unfold mdx_uart_getc. destruct (getc_law b _ d1 Hu1 Hc1) as (d2 & -> & Hu2 & Es2 & Et2). rewrite Ok_bind. cbv beta iota.
    destruct (IH d2 reply rest Hu2) as (d3 & -> & Hu3 & Es3 & Ec3); [by eapply coming_next|by injection HL|].
    rewrite Ok_bind. cbv beta iota. exists d3. split_and!; congruence || done.
Qed.

(** The cycle with a device that answers the request in time. *)
Lemma cycle_ok timeout0 req d reply rest : (patience < timeout0)%nat → length req = 9%nat → usable d →
  drop (taken d) (peer (sent d ++ (u8 <$> req))) = reply ++ rest →
  ∃ d', mh_z19b_cycle_with timeout0 req (length reply) d = Ok (0, u8 <$> reply, d') ∧
    usable d' ∧ sent d' = sent d ++ (u8 <$> req) ∧ coming d' = rest.
Proof.
  intros HP HL Hu Hc. unfold mh_z19b_cycle_with. rewrite HL. change (9 <? 9)%nat with false. cbv beta iota.
  rewrite take_ge by lia. destruct (putcs_ok req d Hu) as (d1 & -> & Hu1 & Es1 & Et1). rewrite Ok_bind.
  destruct (reply_loop_ok (length reply) timeout0 HP d1 reply rest Hu1) as (d2 & -> & Hu2 & Es2 & Ec2);
    [unfold coming; by rewrite Es1, Et1|done|].
  exists d2. rewrite Es2, Es1. done.
Qed.

(** A device that does not answer: the cycle gives up. *)
Lemma cycle_silent timeout0 req d n : length req = 9%nat → usable d →
  drop (taken d) (peer (sent d ++ (u8 <$> req))) = [] →
  ∃ d', mh_z19b_cycle_with timeout0 req (S n) d = Ok (-1, [], d') ∧ usable d' ∧ sent d' = sent d ++ (u8 <$> req).
Proof.
  intros HL Hu Hc. unfold mh_z19b_cycle_with. rewrite HL. change (9 <? 9)%nat with false. cbv beta iota.
  rewrite take_ge by lia. destruct (putcs_ok req d Hu) as (d1 & -> & Hu1 & Es1 & Et1). rewrite Ok_bind.
  cbn [reply_loop]. destruct (poll_silent timeout0 d1 Hu1) as (d2 & -> & Hu2 & Es2 & Et2);
    [left; unfold coming; by rewrite Es1, Et1|].
  rewrite Ok_bind. cbv beta iota. exists d2. by rewrite Es2, Es1.
Qed.

(** A byte that is there at the last poll is taken for a timeout and stays unread. *)
Lemma reply_last_poll timeout0 n d b l : usable d → coming d = b :: l → wait d = timeout0 →
  ∃ d', reply_loop timeout0 (S n) d = Ok (-1, [], d') ∧ coming d' = b :: l.
Proof.
  intros Hu Hc Hw. cbn [reply_loop]. destruct (poll_ready timeout0 d Hu) as (d1 & -> & Hu1 & Es1 & Et1);
    [by rewrite Hc|lia|].
  rewrite Ok_bind. cbv beta iota. replace (timeout0 - wait d)%nat with 0%nat by lia. cbn [Z.of_nat Z.leb].
  exists d1. split; [done|]. rewrite <- Hc. unfold coming. congruence.
Qed.
End Sensor.

(** ** The data sheet of the 16550 *)

(** The registers, what was transmitted, and how many bytes the software has read. *)
Record line := { lcr : Z; ier : Z; dll : Z; dlm : Z; tx : list Z; rx : nat }.

Definition dlab (r : line) : bool := Z.testbit (lcr r) 7.
Definition with_lcr (v : Z) (r : line) : line :=
  {| lcr := v; ier := ier r; dll := dll r; dlm := dlm r; tx := tx r; rx := rx r |}.
Definition with_reg0 (v : Z) (r : line) : line :=
  if dlab r then {| lcr := lcr r; ier := ier r; dll := v; dlm := dlm r; tx := tx r; rx := rx r |}
  else {| lcr := lcr r; ier := ier r; dll := dll r; dlm := dlm r; tx := tx r ++ [v]; rx := rx r |}.
Definition with_reg1 (v : Z) (r : line) : line :=
  if dlab r then {| lcr := lcr r; ier := ier r; dll := dll r; dlm := v; tx := tx r; rx := rx r |}
  else {| lcr := lcr r; ier := v; dll := dll r; dlm := dlm r; tx := tx r; rx := rx r |}.
Definition with_rx (r : line) : line :=
  {| lcr := lcr r; ier := ier r; dll := dll r; dlm := dlm r; tx := tx r; rx := S (rx r) |}.

(** Accesses at the register numbers of a 16550 whose registers are [2 ^ shift] bytes
    apart.  The transmitter has room after [tx_wait] polls of a status register and the
    next byte is there after [rx_wait]; neither is ever more than [slow]. *)
Class Ns16550 (D : Type) `{Mmio D} (w shift : Z) := {
  regs : D → line;
  tx_wait : D → nat;
  rx_wait : D → nat;
  other_end : list Z → list Z;
  slow : nat;
  arriving d := drop (rx (regs d)) (other_end (tx (regs d)));
  rx_here d := (rx_wait d =? 0)%nat && negb (bool_decide (arriving d = []));
  waits_le d : (tx_wait d ≤ slow ∧ rx_wait d ≤ slow)%nat;
  read_lsr d : let '(v, d') := mdx_ioread w (Z.shiftl REG_LSR shift) d in
    Z.testbit v 0 = rx_here d ∧ Z.testbit v 5 = (tx_wait d =? 0)%nat ∧
    regs d' = regs d ∧ tx_wait d' = pred (tx_wait d) ∧ rx_wait d' = pred (rx_wait d);
  read_iir d : dlab (regs d) = false → ier (regs d) = IER_ERXRDY →
    let '(v, d') := mdx_ioread w (Z.shiftl REG_IIR shift) d in
    Z.testbit v 2 = rx_here d ∧ regs d' = regs d;
  read_data d b l : dlab (regs d) = false → arriving d = b :: l →
    let '(v, d') := mdx_ioread w (Z.shiftl REG_DATA shift) d in v = b ∧ regs d' = with_rx (regs d);
  write_reg0 d v : dlab (regs d) = true ∨ tx_wait d = 0%nat →
    regs (mdx_iowrite w (Z.shiftl REG_DATA shift) v d) = with_reg0 (u8 v) (regs d);
  write_reg1 d v : regs (mdx_iowrite w (Z.shiftl REG_IER shift) v d) = with_reg1 (u8 v) (regs d);
  read_lcr d : let '(v, d') := mdx_ioread w (Z.shiftl REG_LCR shift) d in v = lcr (regs d) ∧ regs d' = regs d;
  write_lcr d v : regs (mdx_iowrite w (Z.shiftl REG_LCR shift) v d) = with_lcr (u8 v) (regs d);
  lcr_byte d : 0 ≤ lcr (regs d) < 256
}.

Section Driver.
Context {D : Type} `{Mmio D} (fuel : nat) (sc : uart_16550_softc).
Context `{!Ns16550 D (access_width sc) (reg_shift sc)}.

Lemma u8_access z : u8 (wrap (access_width sc) z) = u8 z.
Proof.
  unfold wrap, access_width. destruct (reg_shift sc =? 2); [|by rewrite Z.mod_mod by done].
  change (2 ^ 32) with (2 ^ 8 * 2 ^ 24). rewrite Z.rem_mul_r by lia.
  rewrite Z.mul_comm, Z.mod_add by lia. by rewrite Z.mod_mod by done.
Qed.

Lemma lsr_rx d : ∃ v d', UART_READ sc REG_LSR d = (v, d') ∧
  (Z.land v LSR_RXRDY =? 0) = negb (rx_here d) ∧
  (Z.land v LSR_THRE =? 0) = negb (tx_wait d =? 0)%nat ∧
  regs d' = regs d ∧ tx_wait d' = pred (tx_wait d) ∧ rx_wait d' = pred (rx_wait d).
Proof.
  unfold UART_READ. pose proof (read_lsr d) as HR. destruct (mdx_ioread _ _ d) as [v d'].
  destruct HR as (E0 & E5 & HR). exists v, d'. split; [done|].
  change LSR_RXRDY with (2 ^ 0). change LSR_THRE with (2 ^ 5). rewrite !land_bit by lia. by rewrite E0, E5.
Qed.

Lemma wait_thre n : ∀ d, (tx_wait d < n)%nat →
  ∃ d', wait_lsr sc n LSR_THRE d = Ok d' ∧ regs d' = regs d ∧ tx_wait d' = 0%nat.
Proof.
  induction n as [|n IH]; intros d Hn; [lia|]. cbn [wait_lsr].
  destruct (lsr_rx d) as (v & d1 & -> & _ & -> & Er & Et & _).
  destruct (Nat.eqb_spec (tx_wait d) 0); cbn [negb]; [exists d1; split_and!; [done|done|lia]|].
  destruct (IH d1) as (d2 & -> & Er2 & Et2); [lia|]. exists d2. split_and!; congruence.
Qed.

Lemma wait_rxrdy n : ∀ d, arriving d ≠ [] → (rx_wait d < n)%nat →
  ∃ d', wait_lsr sc n LSR_RXRDY d = Ok d' ∧ regs d' = regs d.
Proof.
  induction n as [|n IH]; intros d Hc Hn; [lia|]. cbn [wait_lsr].
  destruct (lsr_rx d) as (v & d1 & -> & -> & _ & Er & _ & Ew).
  unfold rx_here. rewrite (bool_decide_eq_false_2 _ Hc), andb_true_r.
  destruct (Nat.eqb_spec (rx_wait d) 0); cbn [negb]; [by exists d1|].
  destruct (IH d1) as (d2 & -> & Er2); [unfold arriving; by rewrite Er|lia|]. exists d2. split; congruence.
Qed.

Lemma uart_putc_ok c d : dlab (regs d) = false → (slow < fuel)%nat →
  ∃ d', uart_16550_putc fuel sc c d = Ok d' ∧ regs d' = with_reg0 (u8 c) (regs d).
Proof.
  intros Hd Hf. unfold uart_16550_putc. pose proof (waits_le d) as [Hw _].
  destruct (wait_thre fuel d) as (d1 & -> & Er & Et); [lia|]. rewrite Ok_bind.
  eexists. split; [done|]. unfold UART_WRITE. rewrite write_reg0 by by right. by rewrite u8_access, Er.
Qed.

Lemma uart_getc_ok b l d : dlab (regs d) = false → arriving d = b :: l → (slow < fuel)%nat →
  ∃ d', uart_16550_getc fuel sc d = Ok (b, d') ∧ regs d' = with_rx (regs d).
Proof.
  intros Hd Hc Hf. unfold uart_16550_getc. pose proof (waits_le d) as [_ Hw].
  destruct (wait_rxrdy fuel d) as (d1 & -> & Er); [by rewrite Hc|lia|]. rewrite Ok_bind.
  pose proof (read_data d1 b l) as HR. rewrite Er in HR. specialize (HR Hd).
  specialize (HR ltac:(rewrite <- Hc; unfold arriving; by rewrite Er)).
  unfold UART_READ. destruct (mdx_ioread _ _ d1) as [v d2]. destruct HR as [-> ER]. by exists d2.
Qed.

(** The driver keeps the promises of a UART: after setup its divisor latch is closed. *)
Program Definition uart_16550_laws (Hf : (slow < fuel)%nat) :
    @UartLaws D (uart_16550_ops fuel sc) := {|
  usable d := dlab (regs d) = false;
  sent d := tx (regs d);
  taken d := rx (regs d);
  wait := rx_wait;
  peer := other_end;
  patience := slow
|}.
Next Obligation. intros _ d. apply waits_le. Qed.
Next Obligation.
  intros Hf c d Hd. destruct (uart_putc_ok c d Hd Hf) as (d' & E & Er). exists d'.
  rewrite Er. unfold with_reg0. rewrite Hd. split_and!; [done|exact Hd|done|done].
Qed.
Next Obligation.
  intros _ d Hd. cbn. unfold uart_16550_rxready. destruct (lsr_rx d) as (v & d' & -> & -> & _ & Er & _ & Ew).
  exists d'. rewrite Er, negb_involutive. done.
Qed.
Next Obligation.
  intros Hf b l d Hd Hc. destruct (uart_getc_ok b l d Hd Hc Hf) as (d' & E & Er). exists d'. by rewrite Er.
Qed.

(** Setting up: the divisor is programmed, receive interrupts are enabled, and the bits
    asked for are added to those that the line control register had. *)
Definition lcr_request (db : uart_databits) (sb : uart_stopbits) (p : uart_parity) : Z :=
  Z.lor (Z.lor (LCR_BITS db) (LCR_STOP sb)) (LCR_PARITY p).

Lemma u8_low z n : 0 ≤ n < 8 → Z.testbit (u8 z) n = Z.testbit z n.
Proof. intros. apply Z.mod_pow2_bits_low. lia. Qed.

Lemma u8_high z n : 8 ≤ n → Z.testbit (u8 z) n = false.
Proof. intros. apply Z.mod_pow2_bits_high. lia. Qed.

Lemma u8_land z : u8 (Z.land z 0xff) = Z.land z 0xff.
Proof. change 0xff with (Z.ones 8). rewrite Z.land_ones by lia. by apply Z.mod_mod. Qed.

(** The bits written first, read back and written again without DLAB. *)
Lemma lcr_final l db sb p : 0 ≤ l < 256 →
  u8 (Z.ldiff (u8 (Z.lor (Z.lor (Z.lor (Z.lor l LCR_DLAB) (LCR_BITS db)) (LCR_STOP sb)) (LCR_PARITY p))) LCR_DLAB) =
  Z.ldiff (Z.lor l (lcr_request db sb p)) LCR_DLAB.
Proof.
  intros Hl. rewrite <- (wrap_small 8 l) by done.
  assert (lcr_request db sb p = u8 (lcr_request db sb p)) as -> by by destruct db, sb, p.
  apply Z.bits_inj'. intros n Hn. destruct (decide (n < 8)) as [H8|H8].
  - rewrite u8_low, !Z.ldiff_spec, u8_low, !Z.lor_spec, (u8_low (lcr_request _ _ _)), !u8_low by lia.
    unfold lcr_request. rewrite !Z.lor_spec. by destruct (Z.testbit l n), (Z.testbit LCR_DLAB n), (Z.testbit (LCR_BITS db) n), (Z.testbit (LCR_STOP sb) n),
      (Z.testbit (LCR_PARITY p) n).
  - by rewrite u8_high, Z.ldiff_spec, Z.lor_spec, !u8_high by lia.
Qed.

Lemma lcr_read d : ∃ d', UART_READ sc REG_LCR d = (lcr (regs d), d') ∧ regs d' = regs d.
Proof.
  unfold UART_READ. pose proof (read_lcr d) as HR. destruct (mdx_ioread _ _ d) as [v d']. destruct HR as [-> HR]. by exists d'.
Qed.

Lemma lcr_write v d : regs (UART_WRITE sc REG_LCR v d) = with_lcr (u8 v) (regs d).
Proof. unfold UART_WRITE. by rewrite write_lcr, u8_access. Qed.

Lemma reg1_write v d : regs (UART_WRITE sc REG_IER v d) = with_reg1 (u8 v) (regs d).
Proof. unfold UART_WRITE. by rewrite write_reg1, u8_access. Qed.

Lemma lcr_reg1 v r : lcr (with_reg1 v r) = lcr r.
Proof. unfold with_reg1. by destruct (dlab r). Qed.

Lemma latch_write v d : dlab (regs d) = true → regs (UART_WRITE sc REG_DLL v d) = with_reg0 (u8 v) (regs d).
Proof. intros. unfold UART_WRITE. rewrite write_reg0 by by left. by rewrite u8_access. Qed.

Lemma dlab_cleared v r : dlab (with_lcr (Z.ldiff v LCR_DLAB) r) = false.
Proof. unfold dlab. cbn [lcr with_lcr]. by rewrite Z.ldiff_spec, andb_false_r. Qed.

Lemma setup_ok baud db sb p d : 0 < 16 * baud < 2 ^ 31 → 0 ≤ bus_freq sc < 2 ^ 31 →
  let divisor := bus_freq sc / (16 * baud) in
  ∃ d', uart_16550_setup sc baud db sb p d = Ok d' ∧
    regs d' = {| lcr := Z.ldiff (Z.lor (lcr (regs d)) (lcr_request db sb p)) LCR_DLAB; ier := IER_ERXRDY;
                 dll := divisor mod 256; dlm := divisor / 256 mod 256; tx := tx (regs d); rx := rx (regs d) |}.
Proof.
  intros Hb Hf divisor. unfold uart_16550_setup.
  destruct (Z.leb_spec (2 ^ 31) (16 * baud)), (Z.ltb_spec (16 * baud) (- 2 ^ 31)); try lia. cbn [orb].
  rewrite (wrap_small 32 (16 * baud)) by lia. destruct (Z.eqb_spec (16 * baud) 0); [lia|]. fold divisor.
  assert (0 ≤ divisor < 2 ^ 31) as HD.
  { split; [apply Z.div_pos; lia|]. apply Z.div_lt_upper_bound; nia. }
  rewrite (swrap_small 32) by lia.
  set (d0 := UART_WRITE sc REG_IER 0 d).
  destruct (lcr_read d0) as (d1 & -> & E1).
  set (d2 := UART_WRITE sc REG_LCR _ d1). set (d3 := UART_WRITE sc REG_DLL _ d2). set (d4 := UART_WRITE sc REG_DLM _ d3).
  set (d5 := UART_WRITE sc REG_LCR _ d4). destruct (lcr_read d5) as (d6 & -> & E6). eexists. split; [done|].
  assert (regs d2 = with_lcr (u8 (Z.lor (lcr (regs d)) LCR_DLAB)) (regs d0)) as E2.
  { unfold d2. rewrite lcr_write, E1. unfold d0. by rewrite reg1_write, lcr_reg1. }
  assert (dlab (regs d2) = true) as B2 by (rewrite E2; unfold dlab; cbn [lcr with_lcr]; by rewrite u8_low, Z.lor_spec, orb_true_r by lia).
  pose proof (latch_write (Z.land divisor 0xff) d2 B2) as E3. fold d3 in E3. rewrite u8_land in E3.
  unfold with_reg0 in E3. rewrite B2 in E3.
  assert (regs d4 = with_reg1 (Z.land (Z.shiftr divisor 8) 0xff) (regs d3)) as E4.
  { unfold d4. change REG_DLM with REG_IER. by rewrite reg1_write, u8_land. }
  assert (dlab (regs d3) = true) as B3 by by rewrite E3.
  unfold with_reg1 in E4. rewrite B3 in E4.
  assert (lcr (regs d0) = lcr (regs d)) as EL by (unfold d0; by rewrite reg1_write, lcr_reg1).
  rewrite reg1_write, lcr_write, E6. unfold d5. rewrite !lcr_write, E4, E3, E2.
  rewrite EL. cbn [lcr ier dll dlm tx rx with_lcr].
  rewrite (lcr_final _ db sb p (lcr_byte d)).
  assert (Z.land divisor 255 = divisor mod 256) as -> by by apply (Z.land_ones divisor 8).
  assert (Z.land (Z.shiftr divisor 8) 255 = divisor / 256 mod 256) as ->.
  { rewrite Z.shiftr_div_pow2 by lia. by apply (Z.land_ones _ 8). }
  assert (tx (regs d0) = tx (regs d) ∧ rx (regs d0) = rx (regs d)) as [-> ->].
  { unfold d0. rewrite reg1_write. unfold with_reg1. by destruct (dlab (regs d)). }
  unfold with_reg1. rewrite dlab_cleared. done.
Qed.

(** The number of data bits: those that were set stay set. *)
Lemma setup_databits l db sb p : Z.land (Z.ldiff (Z.lor l (lcr_request db sb p)) LCR_DLAB) 3 = Z.lor (Z.land l 3) (LCR_BITS db).
Proof.
  assert (∀ n, Z.testbit 3 n = true → Z.testbit LCR_DLAB n = false ∧ Z.testbit (lcr_request db sb p) n = Z.testbit (LCR_BITS db) n) as HB.
  { intros n Hn. destruct (decide (n = 0)) as [->|]; [by destruct db, sb, p|]. destruct (decide (n = 1)) as [->|]; [by destruct db, sb, p|].
    change 3 with (Z.ones 2) in Hn. rewrite Z.testbit_ones in Hn by lia. exfalso. destruct (Z.leb_spec 0 n), (Z.ltb_spec n 2); cbn in Hn; try done; lia. }
  apply Z.bits_inj'. intros n Hn. rewrite Z.land_spec, Z.ldiff_spec, !Z.lor_spec, Z.land_spec.
  destruct (Z.testbit 3 n) eqn:E3.
  - destruct (HB n E3) as [-> ->]. by rewrite !andb_true_r.
  - rewrite !andb_false_r. cbn [orb]. assert (LCR_BITS db = Z.land (LCR_BITS db) 3) as -> by by destruct db.
    by rewrite Z.land_spec, E3, andb_false_r.
Qed.

(** The interrupt handler reads and drops what has arrived. *)
Lemma intr_drops n : ∀ d, dlab (regs d) = false → ier (regs d) = IER_ERXRDY → (length (arriving d) < n)%nat →
  ∃ d', intr_loop sc n d = Ok d' ∧ tx (regs d') = tx (regs d) ∧
    (rx (regs d) ≤ rx (regs d'))%nat ∧ (rx_here d = true → rx (regs d) < rx (regs d'))%nat.
Proof.
  induction n as [|n IH]; intros d Hd Hi Hn; [lia|]. cbn [intr_loop].
  pose proof (read_iir d Hd Hi) as HR. unfold UART_READ at 1. destruct (mdx_ioread _ _ d) as [v d1]. destruct HR as [E2 Er].
  change IIR_RXRDY with (2 ^ 2). rewrite land_bit, E2 by lia. destruct (rx_here d) eqn:Eh; cbn [negb]; [|exists d1; rewrite Er; done].
  unfold rx_here in Eh. apply andb_prop in Eh as [_ Eh]. destruct (arriving d) as [|b l] eqn:Ea; [done|].
  pose proof (read_data d1 b l) as HD. rewrite Er in HD. specialize (HD Hd ltac:(rewrite <- Ea; unfold arriving; by rewrite Er)).
  unfold UART_READ. destruct (mdx_ioread _ _ d1) as [v2 d2]. cbn [snd]. destruct HD as [-> ER2].
  assert (arriving d2 = l) as Ea2.
  { unfold arriving in *. rewrite ER2. cbn [rx tx with_rx]. by rewrite <- Nat.add_1_r, <- drop_drop, Ea. }
  destruct (IH d2) as (d3 & -> & Et & Ele & _); [by rewrite ER2|by rewrite ER2|rewrite Ea2; cbn in Hn; lia|].
  exists d3. rewrite ER2 in Et, Ele. cbn [tx rx with_rx] in Et, Ele. split_and!; [done|done|lia|lia].
Qed.
End Driver.

(** ** The properties *)

(** C32: A console on a 16550.  Setting the line up programs the divisor that belongs to
    the baud rate, closes the divisor latch, enables receive interrupts and adds the data,
    stop and parity bits asked for to those that are set; nothing is transmitted.  Then
    printf of a format of characters and of the conversions d, u, o, x, X, s and c
    returns the number of characters of its text, and the transmitter gets exactly this
    text, in order, with a carriage return before every newline, however slow it is.  The
    text has at most INT_MAX characters. *)
Theorem uart_prints {D} `{Mmio D} (sc : uart_16550_softc) `{!Ns16550 D (access_width sc) (reg_shift sc)}
    fuel baud db sb p lw cs items junk ap d :
  0 < 16 * baud < 2 ^ 31 → 0 ≤ bus_freq sc < 2 ^ 31 → (slow < fuel)%nat →
  lw = 32 ∨ lw = 64 → Forall (good lw cs) items → Z.of_nat (length (concat (render lw cs <$> items))) < 2 ^ 31 →
  let text := concat (render lw cs <$> items) in
  let divisor := bus_freq sc / (16 * baud) in
  ∃ d1 d2, uart_16550_setup sc baud db sb p d = Ok d1 ∧
    regs d1 = {| lcr := Z.ldiff (Z.lor (lcr (regs d)) (lcr_request db sb p)) LCR_DLAB; ier := IER_ERXRDY;
                 dll := divisor mod 256; dlm := divisor / 256 mod 256; tx := tx (regs d); rx := rx (regs d) |} ∧
    printf lw cs (Some (console_putchar (H := uart_16550_ops fuel sc)))
      (Some (concat (show <$> items) ++ 0 :: junk)) (concat (args lw <$> items) ++ ap) (Ok d1) =
      Ok (Z.of_nat (length text), Ok d2, []) ∧
    tx (regs d2) = tx (regs d) ++ crlf text ∧ rx (regs d2) = rx (regs d).
Proof.
  intros Hb Hq Hf Hlw HG Hl text divisor.
  destruct (setup_ok sc baud db sb p d Hb Hq) as (d1 & E1 & R1). exists d1.
  assert (dlab (regs d1) = false) as HD by (rewrite R1; apply (dlab_cleared _ (regs d))).
  destruct (feed_console (H0 := uart_16550_laws fuel sc Hf) text d1 HD) as (d2 & E2 & _ & Et & Er).
  exists d2. cbn [sent taken uart_16550_laws] in Et, Er. rewrite R1 in Et, Er. split_and!; [done|done| |done|done].
  rewrite printf_ok, stream_items by done. fold text. unfold feed in E2. by rewrite E2.
Qed.

(** C33: A measurement of CO2 with the MH-Z19B over any UART whose bytes arrive within
    fewer than 10000 polls: when the sensor answers the request, on the line as it is
    specified, with a reply of nine bytes, the cycle stores this reply and leaves nothing
    behind on the line; if the reply is the sensor's, the concentration is what the sensor
    measured, and if one byte after the first was changed on the way, it is refused.
    The checksum does not cover the start byte, so a reply with a wrong one is taken
    for good.  A sensor that is silent is given up after 10001 polls. *)
Theorem co2_measured {D} `{UartLaws D} d ppm extra line :
  (patience < Z.to_nat 10000)%nat → usable d →
  0 ≤ ppm < 2 ^ 16 → length extra = 4%nat → byte_list extra →
  drop (taken d) (peer (sent d ++ [0xFF; 0x01; 0x86; 0; 0; 0; 0; 0; 0x79])) = line →
  ∃ req, mh_z19b_read_co2_req = Ok req ∧ req = [0xFF; 0x01; 0x86; 0; 0; 0; 0; 0; 0x79] ∧
    (line = [] → ∃ d', mh_z19b_cycle req 9 d = Ok (-1, [], d')) ∧
    (byte_list line → length line = 9%nat →
      ∃ d', mh_z19b_cycle req 9 d = Ok (0, line, d') ∧ usable d' ∧ sent d' = sent d ++ req ∧ coming d' = [] ∧
        (line = co2_reply ppm extra → mh_z19b_read_co2_reply line = Ok (0, Some ppm)) ∧
        (∀ i b, (1 ≤ i < 9)%nat → 0 ≤ b < 256 → co2_reply ppm extra !! i ≠ Some b → line = <[i := b]> (co2_reply ppm extra) →
          mh_z19b_read_co2_reply line = Ok (-1, None)) ∧
        (∀ b, line = <[0%nat := b]> (co2_reply ppm extra) → mh_z19b_read_co2_reply line = Ok (0, Some ppm))).
Proof.
  intros HP Hu Hp HL HB Hline. eexists. split; [by vm_compute|]. split; [done|].
  set (req := [0xFF; 0x01; 0x86; 0; 0; 0; 0; 0; 0x79]) in *. unfold mh_z19b_cycle.
  generalize dependent (Z.to_nat 10000). intros timeout0 HP.
  assert (u8 <$> req = req) as Eq by done. split.
  - intros ->. destruct (cycle_silent timeout0 req d 8 eq_refl Hu) as (d' & E & _); [by rewrite Eq|by exists d'].
  - intros HBL HL9. destruct (cycle_ok timeout0 req d line [] HP eq_refl Hu) as (d' & E & Hu' & Es & Ec);
      [by rewrite Eq, app_nil_r|].
    rewrite HL9, Eq in *. rewrite (u8_bytes line HBL) in E. exists d'. split_and!; try done.
    + intros ->. by apply read_co2_reply_ok.
    + intros i b Hi Hb HN ->. by apply read_co2_reply_corrupt.
    + intros b ->. by apply read_co2_reply_start.
Qed.

(** ** A 16550 with a sensor behind it *)

Module Demo.

(** The transmitter is busy, or the next byte has not arrived yet, for one poll. *)
Record board_t := { reg : line; tx_busy : bool; rx_late : bool }.

Definition sensor (l : list Z) : list Z := if (length l <? 9)%nat then [] else co2_reply 612 [64; 0; 0; 0].

Definition dev_regs (d : board_t) : line := with_lcr (u8 (lcr (reg d))) (reg d).
Definition pending (d : board_t) : list Z := drop (rx (dev_regs d)) (sensor (tx (dev_regs d))).
Definition bit (b : bool) (k : Z) : Z := if b then 2 ^ k else 0.
Definition here (d : board_t) : bool := negb (rx_late d) && negb (bool_decide (pending d = [])).

Definition dev_read (w off : Z) (d : board_t) : Z * board_t :=
  if off =? REG_LSR then (bit (here d) 0 + bit (negb (tx_busy d)) 5, {| reg := reg d; tx_busy := false; rx_late := false |})
  else if off =? REG_IIR then (bit (here d) 2, d)
  else if off =? REG_LCR then (lcr (dev_regs d), d)
  else if off =? REG_DATA then
    (default 0 (head (pending d)), {| reg := with_rx (reg d); tx_busy := tx_busy d; rx_late := true |})
  else (0, d).

Definition dev_write (w off v : Z) (d : board_t) : board_t :=
  if off =? REG_DATA then {| reg := with_reg0 (u8 v) (dev_regs d); tx_busy := true; rx_late := true |}
  else if off =? REG_IER then {| reg := with_reg1 (u8 v) (dev_regs d); tx_busy := tx_busy d; rx_late := rx_late d |}
  else if off =? REG_LCR then {| reg := with_lcr (u8 v) (dev_regs d); tx_busy := tx_busy d; rx_late := rx_late d |}
  else d.

#[local] Instance device_mmio : Mmio board_t := {| mdx_ioread := dev_read; mdx_iowrite := dev_write |}.

Definition board : uart_16550_softc := {| reg_shift := 0; bus_freq := 3686400; baudrate := 9600 |}.

Lemma u8_u8 z : u8 (u8 z) = u8 z.
Proof. by apply Z.mod_mod. Qed.

Lemma dev_regs_keep r b1 b2 : u8 (lcr r) = lcr r → dev_regs {| reg := r; tx_busy := b1; rx_late := b2 |} = r.
Proof. intros E. unfold dev_regs. cbn [reg]. rewrite E. by destruct r. Qed.

Lemma dev_lcr d : u8 (lcr (dev_regs d)) = lcr (dev_regs d).
Proof. apply u8_u8. Qed.

#[local] Program Instance device_16550 : Ns16550 board_t (access_width board) (reg_shift board) := {|
  regs := dev_regs;
  tx_wait d := if tx_busy d then 1%nat else 0%nat;
  rx_wait d := if rx_late d then 1%nat else 0%nat;
  other_end := sensor;
  slow := 1
|}.
Next Obligation. intros d. cbn. destruct (tx_busy d), (rx_late d); lia. Qed.
Next Obligation.
  intros d. unfold mdx_ioread, device_mmio, dev_read. change (Z.shiftl REG_LSR (reg_shift board)) with REG_LSR.
  change (REG_LSR =? REG_LSR) with true. cbv beta iota. unfold here. change (drop _ _) with (pending d).
  destruct (tx_busy d), (rx_late d), (bool_decide (pending d = [])); done.
Qed.
Next Obligation.
  intros d _ _. change (mdx_ioread _ _ d) with (bit (here d) 2, d). cbv beta iota. unfold here. change (drop _ _) with (pending d).
  destruct (rx_late d), (bool_decide (pending d = [])); done.
Qed.
Next Obligation.
  intros d b l _ E. change (pending d = b :: l) in E.
  change (mdx_ioread _ _ d) with (default 0 (head (pending d)), {| reg := with_rx (reg d); tx_busy := tx_busy d; rx_late := true |}).
  by rewrite E.
Qed.
Next Obligation.
  intros d v _. apply dev_regs_keep. unfold with_reg0. pose proof (dev_lcr d). by destruct (dlab _).
Qed.
Next Obligation.
  intros d v. apply dev_regs_keep. pose proof (dev_lcr d). by rewrite lcr_reg1.
Qed.
Next Obligation. intros d. done. Qed.
Next Obligation. intros d v. apply dev_regs_keep, u8_u8. Qed.
Next Obligation. intros d. cbn. apply wrap_range. lia. Qed.

Definition cold : board_t :=
  {| reg := {| lcr := 0; ier := 0; dll := 0; dlm := 0; tx := []; rx := 0 |}; tx_busy := false; rx_late := false |}.

(** "co2 %u\n" of 612, at 9600 baud. *)
Definition log : list item :=
  [TChar 99; TChar 111; TChar 50; TChar 32; TInt false false false [] None Lnone Cu 612; TChar 10].

Lemma uart_prints_witness :
  ∃ d1 d2, uart_16550_setup board 9600 UART_DATABITS_8 UART_STOPBITS_1 UART_PARITY_NONE cold = Ok d1 ∧
    regs d1 = {| lcr := 3; ier := 1; dll := 24; dlm := 0; tx := []; rx := 0 |} ∧
    printf 32 true (Some (console_putchar (H := uart_16550_ops 2 board))) (Some [99; 111; 50; 32; 37; 117; 10; 0])
      [AInt 32 612] (Ok d1) = Ok (8, Ok d2, []) ∧
    tx (regs d2) = [99; 111; 50; 32; 54; 49; 50; 13; 10] ∧ rx (regs d2) = 0%nat.
Proof.
  refine (uart_prints board 2 9600 UART_DATABITS_8 UART_STOPBITS_1 UART_PARITY_NONE 32 true log [] [] cold _ _ _ _ _ _);
    [done|done|apply le_n|by left| |by vm_compute].
  repeat constructor; try done; intros [=].
Defined.

(** The line is up, and nothing was transmitted. *)
Definition ready : board_t :=
  {| reg := {| lcr := 3; ier := 1; dll := 24; dlm := 0; tx := []; rx := 0 |}; tx_busy := true; rx_late := true |}.

#[local] Instance ready_ops : UartOps board_t := uart_16550_ops 2 board.
#[local] Instance ready_laws : UartLaws board_t := uart_16550_laws 2 board (le_n 2).

Lemma co2_measured_witness :
  ∃ req d', mh_z19b_read_co2_req = Ok req ∧
    mh_z19b_cycle req 9 ready = Ok (0, [255; 134; 2; 100; 64; 0; 0; 0; 212], d') ∧
    mh_z19b_read_co2_reply [255; 134; 2; 100; 64; 0; 0; 0; 212] = Ok (0, Some 612).
Proof.
  destruct (co2_measured ready 612 [64; 0; 0; 0] [255; 134; 2; 100; 64; 0; 0; 0; 212]) as (req & E & _ & _ & HC);
    [apply Nat.ltb_lt; by vm_compute|done|done|done|by repeat constructor|by vm_compute|].
  destruct HC as (d' & Ec & _ & _ & _ & HR & _); [by repeat constructor|done|].
  exists req, d'. split_and!; [done|done|by apply HR].
Defined.

(** A byte that the interrupt handler finds is gone. *)
Lemma interrupt_loses_reply :
  (d ← putcs [255; 1; 134; 0; 0; 0; 0; 0; 121] ready;
   d' ← uart_16550_intr 10 board (UART_READ board REG_LSR d).2;
   Ok (length (pending d), length (pending d'))) = Ok (9, 8)%nat.
Proof. by vm_compute. Qed.
End Demo.
