(* ===== verification/Font.v ===== *)
(** * Bitmap fonts (lib/libfont/libfont.c)

    UTF-8 decoding, and fonts in the X11 PCF format in memory: the tables, the metrics
    of a character and drawing it pixel by pixel through a callback.  The machine is
    little-endian; the accesses of 2 and 4 bytes must be aligned. *)

From S2P Require Import Prelude Memory Inet.
Local Open Scope Z_scope.

(** ** UTF-8 *)

(** The value returned, and [*end_ptr]. *)
Definition utf8_to_ucs2 (input : Z) (m : mem_t) : res (Z * Z) :=
  i0 ← load m input;
  if i0 =? 0 then Ok (-1, input) else
  if i0 <? 0x80 then Ok (i0, input + 1) else
  if Z.land i0 0xE0 =? 0xE0 then
    i1 ← load m (input + 1);
    if i1 =? 0 then Ok (-1, input) else
    i2 ← load m (input + 2);
    if i2 =? 0 then Ok (-1, input) else
    Ok (Z.lor (Z.lor (Z.shiftl (Z.land i0 0x0F) 12) (Z.shiftl (Z.land i1 0x3F) 6)) (Z.land i2 0x3F), input + 3)
  else if Z.land i0 0xC0 =? 0xC0 then
    i1 ← load m (input + 1);
    if i1 =? 0 then Ok (-1, input) else
    Ok (Z.lor (Z.shiftl (Z.land i0 0x1F) 6) (Z.land i1 0x3F), input + 2)
  else Ok (-1, input).

(** ** The font *)

Definition MAXCHAR : Z := 2048.

(** struct font_info, without the callback. *)
Record font_info := {
  charmap : list Z;
  metrics_data : Z; metrics_count : Z;
  bitmap_data : Z; offsets_data : Z; encodings_data : Z
}.

Definition with_charmap (cm : list Z) (f : font_info) : font_info :=
  {| charmap := cm; metrics_data := metrics_data f; metrics_count := metrics_count f;
     bitmap_data := bitmap_data f; offsets_data := offsets_data f; encodings_data := encodings_data f |}.
Definition with_encodings (p : Z) (f : font_info) : font_info :=
  {| charmap := charmap f; metrics_data := metrics_data f; metrics_count := metrics_count f;
     bitmap_data := bitmap_data f; offsets_data := offsets_data f; encodings_data := p |}.
Definition with_metrics (p n : Z) (f : font_info) : font_info :=
  {| charmap := charmap f; metrics_data := p; metrics_count := n;
     bitmap_data := bitmap_data f; offsets_data := offsets_data f; encodings_data := encodings_data f |}.
Definition with_bitmaps (p o : Z) (f : font_info) : font_info :=
  {| charmap := charmap f; metrics_data := metrics_data f; metrics_count := metrics_count f;
     bitmap_data := p; offsets_data := o; encodings_data := encodings_data f |}.

Record char_info := {
  left : Z; right : Z; width : Z; ascent : Z; descent : Z;
  xsize : Z; ysize : Z
}.

(** __bswap16_var *)
Definition be16toh (x : Z) : Z :=
  let x := u16 x in u16 (Z.lor (Z.shiftr x 8) (Z.land (Z.shiftl x 8) 0xff00)).
Definition be32toh (x : Z) : Z := htonl x.

(** [charmap[c]]; outside the array is undefined. *)
Definition char_index (font : font_info) (c : Z) : res Z :=
  match charmap font !! Z.to_nat c with
  | Some i => Ok i
  | None => Err Fault
  end.

Definition set_char (k v : Z) (font : font_info) : res font_info :=
  if MAXCHAR <=? k then Err Fault else
  Ok (with_charmap (<[Z.to_nat k := v]> (charmap font)) font).

Definition get_char_info (font : font_info) (c : Z) (m : mem_t) : res char_info :=
  i ← char_index font c;
  let ptr := metrics_data font + u32 (i * 5) in
  b0 ← load m ptr; b1 ← load m (ptr + 1); b2 ← load m (ptr + 2); b3 ← load m (ptr + 3); b4 ← load m (ptr + 4);
  let left := u8 (b0 - 128) in
  let right := u8 (b1 - 128) in
  let ascent := u8 (b3 - 128) in
  let descent := u8 (b4 - 128) in
  Ok {| left := left; right := right; width := u8 (b2 - 128); ascent := ascent; descent := descent;
        xsize := u32 (right - left); ysize := u32 (ascent + descent) |}.

Section Draw.
Context {T : Type} (draw_pixel : Z → Z → Z → T → T).

(** [d & (1 << (16 - bit))]: a shift by 32 or more is undefined. *)
Definition pixel_of (d bit : Z) : res Z :=
  let n := u32 (16 - bit) in
  if 32 <=? n then Err Fault else
  Ok (if Z.land d (Z.shiftl 1 n) =? 0 then 0 else 1).

(** [for (bit = 0; bit < ci.xsize; bit++)] with [n] more to go. *)
Fixpoint draw_row (n : nat) (d bit p : Z) (s : T) : res T :=
  match n with
  | O => Ok s
  | S n => pixel ← pixel_of d bit; draw_row n d (bit + 1) p (draw_pixel bit p pixel s)
  end.

Fixpoint draw_rows (n : nat) (xsize glyph p : Z) (m : mem_t) (s : T) : res T :=
  match n with
  | O => Ok s
  | S n =>
    d ← ldw 4 glyph m;
    s ← draw_row (Z.to_nat xsize) (be16toh d) 0 p s;
    draw_rows n xsize (glyph + 4) (p + 1) m s
  end.

Definition draw_char (font : font_info) (c : Z) (m : mem_t) (s : T) : res T :=
  i ← char_index font c;
  w ← ldw 4 (offsets_data font + 4 * i) m;
  let offs := be32toh w in
  let glyph := bitmap_data font + offs in
  ci ← get_char_info font c m;
  draw_rows (Z.to_nat (ysize ci)) (xsize ci) glyph 0 m s.
End Draw.

(** ** Reading a font *)

(** The loop over the encodings, [n] more to go. *)
Fixpoint encodings_loop (n : nat) (i first_col ptr : Z) (m : mem_t) (font : font_info) : res font_info :=
  match n with
  | O => Ok font
  | S n =>
    if MAXCHAR <=? i then Ok font else
    w ← ldw 2 ptr m;
    let offs := be16toh w in
    font ← (if offs =? 0xffff then Ok font else set_char (i + first_col) offs font);
    encodings_loop n (i + 1) first_col (ptr + 2) m font
  end.

Definition encodings (ptr : Z) (m : mem_t) (font : font_info) : res font_info :=
  first_col ← ldw 2 (ptr + 4) m;
  let first_col := be16toh first_col in
  last_col ← ldw 2 (ptr + 6) m;
  let last_col := be16toh last_col in
  first_row ← ldw 2 (ptr + 8) m;
  let first_row := be16toh first_row in
  last_row ← ldw 2 (ptr + 10) m;
  let last_row := be16toh last_row in
  let font := with_encodings (ptr + 14) font in
  nencoding ← int ((last_col - first_col + 1) * (last_row - first_row + 1));
  encodings_loop (Z.to_nat (u32 nencoding)) 0 first_col (ptr + 14) m font.

Definition metrics (ptr : Z) (m : mem_t) (font : font_info) : res font_info :=
  format ← ldw 4 ptr m;
  count ← (if Z.land format 0xff00 =? 0x100 then w ← ldw 2 (ptr + 4) m; Ok (be16toh w) else Ok (metrics_count font));
  Ok (with_metrics (ptr + 6) count font).

Definition bitmaps (ptr : Z) (m : mem_t) (font : font_info) : res font_info :=
  format ← ldw 4 ptr m;
  tmp ← ldw 4 (ptr + 4) m;
  let glyph_count := if Z.land format 4 =? 0 then tmp else be32toh tmp in
  Ok (with_bitmaps (ptr + 8 + u32 (4 * glyph_count) + 16) (ptr + 8) font).

Definition PCF_METRICS : Z := 4.
Definition PCF_BITMAPS : Z := 8.
Definition PCF_BDF_ENCODINGS : Z := 32.

(** One entry of the table of contents: [type] and [offset]; the tables of the other
    types are skipped. *)
Definition toc_entry (header entry : Z) (m : mem_t) (font : font_info) : res font_info :=
  type ← ldw 4 entry m;
  if type =? PCF_METRICS then offset ← ldw 4 (entry + 12) m; metrics (header + offset) m font
  else if type =? PCF_BITMAPS then offset ← ldw 4 (entry + 12) m; bitmaps (header + offset) m font
  else if type =? PCF_BDF_ENCODINGS then offset ← ldw 4 (entry + 12) m; encodings (header + offset) m font
  else Ok font.

Fixpoint toc_loop (n : nat) (header i : Z) (m : mem_t) (font : font_info) : res font_info :=
  match n with
  | O => Ok font
  | S n => font ← toc_entry header (header + 8 + i * 16) m font; toc_loop n header (i + 1) m font
  end.

(** [header[0] != '\1' || header[1] != 'f' || ...] *)
Fixpoint has_magic (magic : list Z) (a : Z) (m : mem_t) : res bool :=
  match magic with
  | [] => Ok true
  | x :: magic => b ← load m a; if b =? x then has_magic magic (a + 1) m else Ok false
  end.

(** The value returned and the font. *)
Definition font_init (font : font_info) (header : Z) (m : mem_t) : res (Z * font_info) :=
  magic ← has_magic [1; 102; 99; 112] header m;
  if negb (magic : bool) then Ok (-1, font) else
  table_count ← ldw 4 (header + 4) m;
  font ← toc_loop (Z.to_nat table_count) header 0 m font;
  Ok (0, font).
