(* ===== verification/FontTheorems.v ===== *)
(** * Theorems of the bitmap fonts

    UTF-8 text is read back, any string is read safely; a font that was written in the
    PCF format is loaded, and drawing a character hands the pixels of its bitmap,
    moved one column to the right, to the callback. *)

From S2P Require Import Prelude Memory Inet InetTheorems Font StringTheorems.
Local Open Scope Z_scope.

(** ** Bytes in memory *)

Definition holds (m : mem_t) (a : Z) (l : list Z) : Prop := ∀ i b, l !! i = Some b → m !! (a + Z.of_nat i) = Some b.

Lemma holds_app m a l k : holds m a (l ++ k) ↔ holds m a l ∧ holds m (a + Z.of_nat (length l)) k.
Proof.
  split.
  - intros H. split; intros i b Hi; [apply H; by apply lookup_app_l_Some|].
    rewrite <- Z.add_assoc, <- Nat2Z.inj_add. apply H. rewrite lookup_app_r by lia. by rewrite Nat.add_comm, Nat.add_sub.
  - intros [H1 H2] i b Hi. apply lookup_app_Some in Hi as [Hi|[Hl Hi]]; [by apply H1|].
    apply H2 in Hi. rewrite <- Hi. f_equal. lia.
Qed.

Lemma holds_cons m a b l : holds m a (b :: l) ↔ m !! a = Some b ∧ holds m (a + 1) l.
Proof.
  change (b :: l) with ([b] ++ l). rewrite holds_app. split; intros [H1 H2]; split; [|done| |done].
  - pose proof (H1 0%nat b eq_refl) as E. by rewrite Z.add_0_r in E.
  - intros [|i] x Hx; [|done]. injection Hx as <-. by rewrite Z.add_0_r.
Qed.

(** A property of all numbers below [n], by computation. *)
Lemma all_below (P : Z → bool) n : forallb P (seqZ 0 n) = true → ∀ x, 0 ≤ x < n → P x = true.
Proof. rewrite forallb_forall. intros H x Hx. apply H. rewrite <- list_elem_of_In, elem_of_seqZ. lia. Qed.

(** ** UTF-8 *)

(** The encoding of a character of the basic plane. *)
Definition utf8 (u : Z) : list Z :=
  if u <? 0x80 then [u]
  else if u <? 0x800 then [0xC0 + u / 64; 0x80 + u mod 64]
  else [0xE0 + u / 4096; 0x80 + u / 64 mod 64; 0x80 + u mod 64].

Lemma tail_bits x : 0 ≤ x < 64 → Z.land (0x80 + x) 0x3F = x.
Proof. intros Hx. apply Z.eqb_eq. by apply (all_below (λ x, Z.land (0x80 + x) 0x3F =? x) 64); [vm_compute|]. Qed.

Lemma lead2_bits x : 0 ≤ x < 32 → Z.land (0xC0 + x) 0xE0 =? 0xE0 = false ∧ Z.land (0xC0 + x) 0xC0 = 0xC0 ∧ Z.land (0xC0 + x) 0x1F = x.
Proof.
  intros Hx. pose proof (all_below (λ x, negb (Z.land (0xC0 + x) 0xE0 =? 0xE0) && (Z.land (0xC0 + x) 0xC0 =? 0xC0) &&
    (Z.land (0xC0 + x) 0x1F =? x)) 32 ltac:(by vm_compute) x Hx) as HB.
  apply andb_prop in HB as [HB H3]. apply andb_prop in HB as [H1 H2]. apply Z.eqb_eq in H2, H3. apply negb_true_iff in H1. done.
Qed.

Lemma lead3_bits x : 0 ≤ x < 16 → Z.land (0xE0 + x) 0xE0 = 0xE0 ∧ Z.land (0xE0 + x) 0x0F = x.
Proof.
  intros Hx. pose proof (all_below (λ x, (Z.land (0xE0 + x) 0xE0 =? 0xE0) && (Z.land (0xE0 + x) 0x0F =? x)) 16
    ltac:(by vm_compute) x Hx) as HB.
  apply andb_prop in HB as [H1 H2]. apply Z.eqb_eq in H1, H2. done.
Qed.

Lemma lor_shift x y k : 0 ≤ k → 0 ≤ y < 2 ^ k → Z.lor (Z.shiftl x k) y = x * 2 ^ k + y.
Proof. intros. rewrite Z.lor_comm, Z.shiftl_mul_pow2 by done. rewrite lor_add by done. lia. Qed.

Lemma utf8_decodes u a m : 0 < u < 65536 → holds m a (utf8 u) → utf8_to_ucs2 a m = Ok (u, a + Z.of_nat (length (utf8 u))).
Proof.
  intros Hu. unfold utf8, utf8_to_ucs2. destruct (Z.ltb_spec u 0x80); [|destruct (Z.ltb_spec u 0x800)]; rewrite !holds_cons.
  - intros (E0 & _). rewrite (load_Some _ _ _ E0), Ok_bind. destruct (Z.eqb_spec u 0), (Z.ltb_spec u 0x80); try lia. done.
  - intros (E0 & E1 & _). rewrite (load_Some _ _ _ E0), Ok_bind.
    pose proof (Z.div_mod u 64 ltac:(lia)). pose proof (Z.mod_pos_bound u 64 ltac:(lia)).
    destruct (lead2_bits (u / 64)) as (-> & -> & ->); [lia|].
    destruct (Z.eqb_spec (0xC0 + u / 64) 0), (Z.ltb_spec (0xC0 + u / 64) 0x80); try lia.
    rewrite (load_Some _ _ _ E1), Ok_bind, tail_bits, lor_shift by lia. cbn [Z.eqb Pos.eqb].
    destruct (Z.eqb_spec (0x80 + u mod 64) 0); [lia|]. do 3 f_equal. lia.
  - intros (E0 & E1 & E2 & _). rewrite (load_Some _ _ _ E0), Ok_bind.
    pose proof (Z.div_mod u 64 ltac:(lia)). pose proof (Z.mod_pos_bound u 64 ltac:(lia)).
    pose proof (Z.div_mod (u / 64) 64 ltac:(lia)). pose proof (Z.mod_pos_bound (u / 64) 64 ltac:(lia)).
    rewrite Z.div_div in * by lia. change (64 * 64) with 4096 in *.
    destruct (lead3_bits (u / 4096)) as (-> & ->); [lia|].
    destruct (Z.eqb_spec (0xE0 + u / 4096) 0), (Z.ltb_spec (0xE0 + u / 4096) 0x80); try lia. cbn [Z.eqb Pos.eqb].
    rewrite (load_Some _ _ _ E1), Ok_bind. destruct (Z.eqb_spec (0x80 + u / 64 mod 64) 0); [lia|].
    replace (a + 2) with (a + 1 + 1) by lia.
    rewrite (load_Some _ _ _ E2), Ok_bind. destruct (Z.eqb_spec (0x80 + u mod 64) 0); [lia|].
    rewrite !tail_bits by lia. rewrite <- (Z.shiftl_shiftl _ 6 6), <- Z.shiftl_lor, !lor_shift by lia.
    do 3 f_equal. lia.
Qed.

(** Whatever the bytes of a string are, the decoder stays within it. *)
Lemma utf8_bounds a l m : cstr m a l →
  utf8_to_ucs2 a m = Ok (-1, a) ∨
  ∃ u k, utf8_to_ucs2 a m = Ok (u, a + k) ∧ 1 ≤ k ≤ 3 ∧ k ≤ Z.of_nat (length l) ∧ 0 ≤ u < 65536.
Proof.
  intros Hl. unfold utf8_to_ucs2. destruct l as [|i0 l]; cbn [cstr] in Hl.
  - rewrite (load_Some _ _ _ Hl), Ok_bind. by left.
  - destruct Hl as (E0 & R0 & Hl). rewrite (load_Some _ _ _ E0), Ok_bind.
    destruct (Z.eqb_spec i0 0); [lia|]. destruct (Z.ltb_spec i0 0x80).
    { right. exists i0, 1. split_and!; try done; cbn [length]; lia. }
    assert (∀ x k, 0 ≤ k → 0 ≤ Z.land x (Z.ones k) < 2 ^ k) as HL.
    { intros x k Hk. rewrite Z.land_ones by done. by apply Z.mod_pos_bound, Z.pow_pos_nonneg. }
    pose proof (HL i0 4 ltac:(lia)). pose proof (HL i0 5 ltac:(lia)).
    destruct (Z.eqb_spec (Z.land i0 0xE0) 0xE0); [|destruct (Z.eqb_spec (Z.land i0 0xC0) 0xC0); [|by left]].
    + destruct l as [|i1 l]; cbn [cstr] in Hl; [rewrite (load_Some _ _ _ Hl), Ok_bind; by left|].
      destruct Hl as (E1 & R1 & Hl). rewrite (load_Some _ _ _ E1), Ok_bind. destruct (Z.eqb_spec i1 0); [lia|].
      replace (a + 2) with (a + 1 + 1) by lia.
      destruct l as [|i2 l]; cbn [cstr] in Hl; [rewrite (load_Some _ _ _ Hl), Ok_bind; by left|].
      destruct Hl as (E2 & R2 & Hl). rewrite (load_Some _ _ _ E2), Ok_bind. destruct (Z.eqb_spec i2 0); [lia|].
      right. do 2 eexists. split; [done|]. pose proof (HL i1 6 ltac:(lia)). pose proof (HL i2 6 ltac:(lia)).
      rewrite <- (Z.shiftl_shiftl _ 6 6), <- Z.shiftl_lor, !lor_shift by (done || lia). cbn [length].
      change (Z.ones 4) with 15 in *. change (Z.ones 5) with 31 in *. change (Z.ones 6) with 63 in *. lia.
    + destruct l as [|i1 l]; cbn [cstr] in Hl; [rewrite (load_Some _ _ _ Hl), Ok_bind; by left|].
      destruct Hl as (E1 & R1 & Hl). rewrite (load_Some _ _ _ E1), Ok_bind. destruct (Z.eqb_spec i1 0); [lia|].
      right. do 2 eexists. split; [done|]. pose proof (HL i1 6 ltac:(lia)).
      rewrite lor_shift by (done || lia). cbn [length].
      change (Z.ones 4) with 15 in *. change (Z.ones 5) with 31 in *. change (Z.ones 6) with 63 in *. lia.
Qed.

(** ** The PCF format *)

Definition be16 (v : Z) : list Z := [v / 256; v mod 256].
Definition le32 (v : Z) : list Z := [v mod 256; v / 256 mod 256; v / 65536 mod 256; v / 16777216].
Definition be32 (v : Z) : list Z := rev (le32 v).

Lemma ldw_holds k a m l : a mod Z.of_nat k = 0 → length l = k → holds m a l → ldw k a m = Ok (foldr (λ b r, b + 256 * r) 0 l).
Proof.
  intros Ha HL Hh. unfold ldw. rewrite Ha. cbn [Z.eqb]. clear Ha. revert k a HL Hh. induction l as [|b l IH]; intros k a HL Hh; subst k; [done|].
  apply holds_cons in Hh as [E Hh]. cbn [length ldn foldr]. rewrite (load_Some _ _ _ E), Ok_bind.
  rewrite (IH (length l)) by done. done.
Qed.

Lemma div_bytes v : v = v mod 256 + 256 * (v / 256 mod 256 + 256 * (v / 65536 mod 256 + 256 * (v / 16777216))).
Proof.
  pose proof (Z.div_mod v 256 ltac:(lia)). pose proof (Z.div_mod (v / 256) 256 ltac:(lia)).
  pose proof (Z.div_mod (v / 256 / 256) 256 ltac:(lia)). rewrite !Z.div_div in * by lia.
  change (256 * 256) with 65536 in *. change (65536 * 256) with 16777216 in *. lia.
Qed.

Lemma ldw_le32 a m v : a mod 4 = 0 → holds m a (le32 v) → ldw 4 a m = Ok v.
Proof.
  intros Ha Hh. rewrite (ldw_holds 4 a m (le32 v)) by done. f_equal. cbn [le32 foldr].
  pose proof (div_bytes v). lia.
Qed.

(** Swapping two bytes, checked on the two bytes apart. *)
Lemma be16toh_swap h l : 0 ≤ h < 256 → 0 ≤ l < 256 → be16toh (h + 256 * l) = 256 * h + l.
Proof.
  intros Hh Hl. unfold be16toh. rewrite (wrap_small 16 (h + 256 * l)) by lia. rewrite Z.shiftr_div_pow2 by lia.
  change (2 ^ 8) with 256. replace ((h + 256 * l) / 256) with l by (rewrite Z.mul_comm, Z.div_add by lia; rewrite Z.div_small; lia).
  change 0xff00 with (Z.shiftl 255 8). rewrite <- Z.shiftl_land. change 255 with (Z.ones 8). rewrite Z.land_ones by lia.
  change (2 ^ 8) with 256. replace ((h + 256 * l) mod 256) with h by (rewrite Z.mul_comm, Z.mod_add by lia; rewrite Z.mod_small; lia).
  rewrite Z.lor_comm, lor_shift by lia. rewrite wrap_small by lia. lia.
Qed.

(** A row of 16 pixels in four bytes. *)
Lemma be16toh_row v : 0 ≤ v < 65536 → be16toh (v / 256 + 256 * (v mod 256 + 256 * (0 + 256 * (0 + 256 * 0)))) = v.
Proof.
  intros Hv. pose proof (Z.div_mod v 256 ltac:(lia)). pose proof (Z.mod_pos_bound v 256 ltac:(lia)).
  replace (v / 256 + _) with (v / 256 + 256 * (v mod 256)) by lia. rewrite be16toh_swap by lia. lia.
Qed.

Lemma ldw_be16 a m v : a mod 2 = 0 → 0 ≤ v < 65536 → holds m a (be16 v) → ∃ w, ldw 2 a m = Ok w ∧ be16toh w = v.
Proof.
  intros Ha Hv Hh. rewrite (ldw_holds 2 a m (be16 v)) by done. eexists. split; [done|]. cbn [be16 foldr].
  pose proof (Z.div_mod v 256 ltac:(lia)). pose proof (Z.mod_pos_bound v 256 ltac:(lia)).
  replace (v / 256 + 256 * (v mod 256 + 256 * 0)) with (v / 256 + 256 * (v mod 256)) by lia. rewrite be16toh_swap by lia. lia.
Qed.

Lemma be32toh_swap v : 0 ≤ v < 2 ^ 32 → be32toh (foldr (λ b r, b + 256 * r) 0 (be32 v)) = v.
Proof.
  intros Hv. unfold be32, le32. cbn [rev app foldr]. pose proof (div_bytes v) as E.
  set (b0 := v mod 256) in *. set (b1 := v / 256 mod 256) in *. set (b2 := v / 65536 mod 256) in *. set (b3 := v / 16777216) in *.
  assert (0 ≤ b0 < 256 ∧ 0 ≤ b1 < 256 ∧ 0 ≤ b2 < 256) as (B0 & B1 & B2) by (split_and!; apply Z.mod_pos_bound; lia).
  assert (0 ≤ b3 < 256) as B3 by (split; [apply Z.div_pos; lia|apply Z.div_lt_upper_bound; lia]).
  unfold be32toh. replace (b3 + _) with (b0 * 2 ^ 24 + b1 * 2 ^ 16 + b2 * 2 ^ 8 + b3) by lia.
  rewrite htonl_bytes by done. unfold addr_bytes. lia.
Qed.

Lemma ldw_be32 a m v : a mod 4 = 0 → 0 ≤ v < 2 ^ 32 → holds m a (be32 v) → ∃ w, ldw 4 a m = Ok w ∧ be32toh w = v.
Proof. intros Ha Hv Hh. rewrite (ldw_holds 4 a m (be32 v)) by done. eexists. split; [done|]. by apply be32toh_swap. Qed.

(** ** A font in memory *)

Record glyph := { g_left : Z; g_right : Z; g_width : Z; g_ascent : Z; g_descent : Z; g_rows : list Z }.

Definition good_glyph (g : glyph) : Prop :=
  0 ≤ g_left g ≤ g_right g ∧ g_right g < 128 ∧ g_right g - g_left g ≤ 17 ∧ 0 ≤ g_width g < 128 ∧
  0 ≤ g_ascent g < 128 ∧ 0 ≤ g_descent g < 128 ∧ Z.of_nat (length (g_rows g)) = g_ascent g + g_descent g ∧
  Forall (λ r, 0 ≤ r < 65536) (g_rows g).

Definition metric_bytes (g : glyph) : list Z :=
  (λ v, v + 128) <$> [g_left g; g_right g; g_width g; g_ascent g; g_descent g].
Definition row_bytes (r : Z) : list Z := be16 r ++ [0; 0].
Definition bitmap_bytes (g : glyph) : list Z := concat (row_bytes <$> g_rows g).
Definition glyph_offset (gs : list glyph) (i : nat) : Z := Z.of_nat (length (concat (bitmap_bytes <$> take i gs))).

(** The tables as a big-endian font has them: bytes and bits most significant first, rows
    of bitmaps padded to four bytes (format 14); compressed metrics (format 0x100 and 14). *)
Definition metrics_table (gs : list glyph) : list Z :=
  le32 0x10E ++ be16 (Z.of_nat (length gs)) ++ concat (metric_bytes <$> gs).
Definition bitmap_table (gs : list glyph) (sizes : list Z) : list Z :=
  le32 14 ++ be32 (Z.of_nat (length gs)) ++ concat ((λ i, be32 (glyph_offset gs i)) <$> seq 0 (length gs)) ++
  sizes ++ concat (bitmap_bytes <$> gs).
Definition encodings_table (first default : Z) (codes : list Z) : list Z :=
  le32 14 ++ be16 first ++ be16 (first + Z.of_nat (length codes) - 1) ++ be16 0 ++ be16 0 ++ be16 default ++
  concat (be16 <$> codes).

Lemma holds_concat m a ls i l : holds m a (concat ls) → ls !! i = Some l →
  holds m (a + Z.of_nat (length (concat (take i ls)))) l.
Proof.
  intros H Hi. rewrite <- (take_drop_middle ls i l Hi), concat_app in H. cbn [concat] in H.
  by apply holds_app in H as [_ [H _]%holds_app].
Qed.

Lemma length_concat_const {A} (f : A → list Z) k l : (∀ x, length (f x) = k) → length (concat (f <$> l)) = (k * length l)%nat.
Proof. intros Hf. induction l as [|x l IH]; cbn [fmap list_fmap concat length]; [lia|]. rewrite length_app, Hf. cbn in IH. lia. Qed.

(** Element [i] of a table whose elements have [k] bytes. *)
Lemma holds_element {A} m a (f : A → list Z) k l i x : (∀ x, length (f x) = k) → holds m a (concat (f <$> l)) → l !! i = Some x →
  holds m (a + Z.of_nat k * Z.of_nat i) (f x).
Proof.
  intros Hf H Hi. apply lookup_lt_Some in Hi as Hlt.
  assert ((f <$> l) !! i = Some (f x)) as Hi' by by rewrite list_lookup_fmap, Hi.
  pose proof (holds_concat m a _ i _ H Hi') as HC. rewrite <- fmap_take, (length_concat_const f k _ Hf), length_take in HC.
  replace (k * (i `min` length l))%nat with (k * i)%nat in HC by lia. by rewrite Nat2Z.inj_mul in HC.
Qed.

(** ** Loading *)

(** The character map after the encodings [codes] of the characters from [k] on. *)
Definition mapped_codes (k : Z) (codes cm : list Z) : Prop :=
  ∀ i c, codes !! i = Some c → c ≠ 0xffff → cm !! Z.to_nat (k + Z.of_nat i) = Some c.

Definition is_code (c : Z) : Prop := 0 ≤ c < 65536.

(** What the loop keeps: the codes that were there are replaced or stay. *)
Lemma encodings_loop_ok first m codes : ∀ i ptr font,
  ptr mod 2 = 0 → holds m ptr (concat (be16 <$> codes)) → Forall is_code codes → 0 ≤ i → 0 ≤ first →
  i + first + Z.of_nat (length codes) ≤ MAXCHAR → length (charmap font) = Z.to_nat MAXCHAR →
  ∃ cm, encodings_loop (length codes) i first ptr m font = Ok (with_charmap cm font) ∧
    length cm = Z.to_nat MAXCHAR ∧ mapped_codes (i + first) codes cm ∧
    (∀ j, Z.of_nat j < i + first → cm !! j = charmap font !! j).
Proof.
  induction codes as [|c codes IH]; intros i ptr font Hp Hh HF Hi Hf Hn Hl; cbn [length encodings_loop].
  { exists (charmap font). by destruct font. }
  cbn [length] in Hn. apply Forall_cons in HF as [Hc HF]. cbn [fmap list_fmap concat] in Hh. apply holds_app in Hh as [Hh0 Hh].
  destruct (Z.leb_spec MAXCHAR i); [lia|].
  destruct (ldw_be16 ptr m c Hp Hc Hh0) as (w & -> & Ew). rewrite Ok_bind, Ew.
  assert ((ptr + 2) mod 2 = 0) as Hp2 by (rewrite <- Zplus_mod_idemp_l, Hp; done).
  set (font1 := if c =? 65535 then font else with_charmap (<[Z.to_nat (i + first) := c]> (charmap font)) font).
  assert ((if c =? 65535 then Ok font else set_char (i + first) c font) = Ok font1) as ->.
  { unfold font1, set_char. destruct (c =? 65535); [done|]. by destruct (Z.leb_spec MAXCHAR (i + first)); [lia|]. }
  rewrite Ok_bind. destruct (IH (i + 1) (ptr + 2) font1) as (cm & E & HL & HM & HK); try done; try lia.
  { unfold font1. destruct (c =? 65535); [done|]. cbn [charmap with_charmap]. by rewrite length_insert. }
  exists cm. rewrite E. split_and!; [unfold font1; by destruct (c =? 65535)|done| |].
  - intros [|j] c' Hj Hne; cbn in Hj.
    + injection Hj as <-. rewrite Z.add_0_r, HK by lia. unfold font1. destruct (Z.eqb_spec c 65535); [congruence|].
      cbn [charmap with_charmap]. apply list_lookup_insert_eq. lia.
    + rewrite <- (HM j c' Hj Hne). f_equal. lia.
  - intros j Hj. rewrite HK by lia. unfold font1. destruct (Z.eqb_spec c 65535); [done|].
    cbn [charmap with_charmap]. apply list_lookup_insert_ne. lia.
Qed.

Lemma encodings_ok m ptr first dflt codes font : ptr mod 2 = 0 → holds m ptr (encodings_table first dflt codes) →
  Forall is_code codes → 0 ≤ first → codes ≠ [] → first + Z.of_nat (length codes) ≤ MAXCHAR →
  length (charmap font) = Z.to_nat MAXCHAR →
  ∃ cm, encodings ptr m font = Ok (with_charmap cm (with_encodings (ptr + 14) font)) ∧
    length cm = Z.to_nat MAXCHAR ∧ mapped_codes first codes cm.
Proof.
  intros Hp Hh HF Hf Hne Hn Hl. assert (0 < Z.of_nat (length codes)) by (destruct codes; [done|cbn; lia]).
 
  unfold encodings_table in Hh. rewrite !holds_app in Hh. destruct Hh as (_ & H1 & H2 & H3 & H4 & _ & H6).
  cbn [length be16 le32] in H1, H2, H3, H4, H6. rewrite <- !Z.add_assoc in *.
  assert (∀ k, k mod 2 = 0 → (ptr + k) mod 2 = 0) as HA.
  { intros k Hk. rewrite Z.add_mod, Hp, Hk by lia. done. }
  assert (first + Z.of_nat (length codes) ≤ 2048) as HN by exact Hn.
  unfold encodings.
  destruct (ldw_be16 _ m first (HA 4 eq_refl) ltac:(lia) H1) as (w1 & -> & E1). rewrite Ok_bind, E1.
  destruct (ldw_be16 _ m (first + Z.of_nat (length codes) - 1) (HA 6 eq_refl) ltac:(lia) H2) as (w2 & -> & E2). rewrite Ok_bind, E2.
  destruct (ldw_be16 _ m 0 (HA 8 eq_refl) ltac:(lia) H3) as (w3 & -> & E3). rewrite Ok_bind, E3.
  destruct (ldw_be16 _ m 0 (HA 10 eq_refl) ltac:(lia) H4) as (w4 & -> & E4). rewrite Ok_bind, E4.
  replace ((first + Z.of_nat (length codes) - 1 - first + 1) * (0 - 0 + 1)) with (Z.of_nat (length codes)) by lia.
  rewrite int_ok, Ok_bind by lia. rewrite wrap_small, Nat2Z.id by lia.
  destruct (encodings_loop_ok first m codes 0 (ptr + 14) (with_encodings (ptr + 14) font) (HA 14 eq_refl) H6 HF
    ltac:(lia) Hf ltac:(unfold MAXCHAR; lia) Hl) as (cm & -> & HL & HM & _).
  by exists cm.
Qed.

Lemma even_of_4 p : p mod 4 = 0 → p mod 2 = 0.
Proof. intros H. pose proof (Z.div_mod p 4 ltac:(lia)). replace p with (p / 4 * 2 * 2) by lia. by apply Z.mod_mul. Qed.

Lemma metrics_ok m ptr gs font : ptr mod 4 = 0 → holds m ptr (metrics_table gs) → Z.of_nat (length gs) < 65536 →
  metrics ptr m font = Ok (with_metrics (ptr + 6) (Z.of_nat (length gs)) font).
Proof.
  intros Hp Hh Hn. unfold metrics_table in Hh. rewrite !holds_app in Hh. destruct Hh as (H1 & H2 & _).
  cbn [length le32] in H2. unfold metrics. rewrite (ldw_le32 _ _ _ Hp H1), Ok_bind. change (Z.land 0x10E 0xff00 =? 0x100) with true. cbv iota.
  destruct (ldw_be16 (ptr + 4) m (Z.of_nat (length gs))) as (w & -> & E); [|lia|done|by rewrite Ok_bind, E].
  rewrite Z.add_mod, (even_of_4 _ Hp) by lia. done.
Qed.

Lemma bitmaps_ok m ptr gs sizes font : ptr mod 4 = 0 → holds m ptr (bitmap_table gs sizes) → Z.of_nat (length gs) < 2 ^ 28 →
  bitmaps ptr m font = Ok (with_bitmaps (ptr + 24 + 4 * Z.of_nat (length gs)) (ptr + 8) font).
Proof.
  intros Hp Hh Hn. unfold bitmap_table in Hh. rewrite !holds_app in Hh. destruct Hh as (H1 & H2 & _).
  cbn [length le32] in H2. unfold bitmaps. rewrite (ldw_le32 _ _ _ Hp H1), Ok_bind.
  destruct (ldw_be32 (ptr + 4) m (Z.of_nat (length gs))) as (w & -> & E); [by rewrite Z.add_mod, Hp|lia|done|].
  rewrite Ok_bind. change (Z.land 14 4 =? 0) with false. cbv iota. rewrite E, wrap_small by lia. do 2 f_equal. lia.
Qed.

(** An entry of the table of contents: type, format, size and offset. *)
Definition toc_bytes (e : Z * Z * Z * Z) : list Z :=
  let '(type, format, size, offset) := e in le32 type ++ le32 format ++ le32 size ++ le32 offset.
Definition toc_type (e : Z * Z * Z * Z) : Z := let '(type, _, _, _) := e in type.

(** A table that was read before, not the one of this entry. *)
Ltac other_table HI := apply elem_of_cons in HI as [HI|HI]; [by vm_compute in HI|exact HI].

Section Face.
Context (m : mem_t) (header om ob oe : Z) (gs : list glyph) (sizes : list Z) (first dflt : Z) (codes : list Z).

(** The three tables, wherever they are. *)
Record tables_in_memory : Prop := {
  at_header : header mod 4 = 0; at_metrics : om mod 4 = 0; at_bitmaps : ob mod 4 = 0; at_encodings : oe mod 2 = 0;
  has_metrics : holds m (header + om) (metrics_table gs);
  has_bitmaps : holds m (header + ob) (bitmap_table gs sizes);
  has_encodings : holds m (header + oe) (encodings_table first dflt codes);
  few_glyphs : Z.of_nat (length gs) < 65536;
  some_codes : codes ≠ []; codes_fit : 0 ≤ first ∧ first + Z.of_nat (length codes) ≤ MAXCHAR;
  codes_ok : Forall is_code codes
}.

(** The entry is of another table, or at the place of its table. *)
Definition entry_ok (e : Z * Z * Z * Z) : Prop :=
  let '(type, _, _, offset) := e in
  (type = PCF_METRICS → offset = om) ∧ (type = PCF_BITMAPS → offset = ob) ∧ (type = PCF_BDF_ENCODINGS → offset = oe).

(** What is known of the font when the tables of the types [seen] were read. *)
Definition known (seen : list Z) (f : font_info) : Prop :=
  length (charmap f) = Z.to_nat MAXCHAR ∧
  (PCF_METRICS ∈ seen → metrics_data f = header + om + 6) ∧
  (PCF_BITMAPS ∈ seen → bitmap_data f = header + ob + 24 + 4 * Z.of_nat (length gs) ∧ offsets_data f = header + ob + 8) ∧
  (PCF_BDF_ENCODINGS ∈ seen → mapped_codes first codes (charmap f)).

Hypothesis HT : tables_in_memory.

Lemma toc_entry_ok e a seen f : a mod 4 = 0 → holds m a (toc_bytes e) → entry_ok e → known seen f →
  ∃ f', toc_entry header a m f = Ok f' ∧ known (toc_type e :: seen) f'.
Proof.
  destruct e as [[[ty fmt] sz] off]. intros Ha Hh He (K1 & K2 & K3 & K4). cbn [toc_bytes toc_type entry_ok] in *.
  rewrite !holds_app in Hh. destruct Hh as (H0 & _ & _ & H3). cbn [length le32] in H3. rewrite <- !Z.add_assoc in H3.
  pose proof (at_header HT) as Ah.
  assert (ldw 4 (a + 12) m = Ok off) as EO by (apply ldw_le32; [by rewrite Z.add_mod, Ha|done]).
  destruct He as (O1 & O2 & O3). unfold toc_entry. rewrite (ldw_le32 _ _ _ Ha H0), Ok_bind.
  destruct (Z.eqb_spec ty PCF_METRICS) as [->|N1]; [|destruct (Z.eqb_spec ty PCF_BITMAPS) as [->|N2];
    [|destruct (Z.eqb_spec ty PCF_BDF_ENCODINGS) as [->|N3]]].
  - rewrite EO, Ok_bind, (O1 eq_refl). pose proof (at_metrics HT) as Am.
    rewrite (metrics_ok m _ gs); [|by rewrite Z.add_mod, Ah, Am|apply HT|apply HT]. eexists. split; [done|].
    split_and!; [done|done|intros HI; apply K3|intros HI; apply K4]; other_table HI.
  - rewrite EO, Ok_bind, (O2 eq_refl). pose proof (at_bitmaps HT) as Ab. pose proof (few_glyphs HT).
    rewrite (bitmaps_ok m _ gs sizes); [|by rewrite Z.add_mod, Ah, Ab|apply HT|lia]. eexists. split; [done|].
    split_and!; [done|intros HI; apply K2|done|intros HI; apply K4]; other_table HI.
  - rewrite EO, Ok_bind, (O3 eq_refl). pose proof (at_encodings HT) as Ae. pose proof (codes_fit HT) as [F1 F2].
    destruct (encodings_ok m (header + oe) first dflt codes f) as (cm & -> & HL & HM); try apply HT; try done.
    { by rewrite Z.add_mod, (even_of_4 _ Ah), Ae. }
    eexists. split; [done|].
    split_and!; [done|intros HI; apply K2|intros HI; apply K3|done]; other_table HI.
  - exists f. split; [done|].
    split_and!; [done|intros HI; apply K2|intros HI; apply K3|intros HI; apply K4]; apply elem_of_cons in HI as [?|?]; congruence.
Qed.

Lemma toc_loop_ok ts : ∀ i seen f, holds m (header + 8 + i * 16) (concat (toc_bytes <$> ts)) → Forall entry_ok ts → known seen f →
  ∃ f', toc_loop (length ts) header i m f = Ok f' ∧ known (rev (toc_type <$> ts) ++ seen) f'.
Proof.
  induction ts as [|e ts IH]; intros i seen f Hh HF HK; cbn [length toc_loop]; [by exists f|].
  cbn [fmap list_fmap concat] in Hh. apply holds_app in Hh as [H0 Hh]. apply Forall_cons in HF as [He HF].
  assert (length (toc_bytes e) = 16%nat) as HL by by destruct e as [[[? ?] ?] ?].
  destruct (toc_entry_ok e (header + 8 + i * 16) seen f) as (f1 & -> & K1); [|done|done|done|].
  { replace (header + 8 + i * 16) with (header + (2 + i * 4) * 4) by lia. rewrite Z.mod_add by lia. apply HT. }
  rewrite Ok_bind. rewrite HL in Hh. destruct (IH (i + 1) (toc_type e :: seen) f1) as (f2 & -> & K2); [|done|exact K1|].
  - replace (header + 8 + (i + 1) * 16) with (header + 8 + i * 16 + Z.of_nat 16) by lia. done.
  - exists f2. split; [done|]. cbn [fmap list_fmap rev]. by rewrite <- app_assoc.
Qed.

Lemma font_init_ok ts f : holds m header ([1; 102; 99; 112] ++ le32 (Z.of_nat (length ts)) ++ concat (toc_bytes <$> ts)) →
  Forall entry_ok ts → length (charmap f) = Z.to_nat MAXCHAR →
  ∃ f', font_init f header m = Ok (0, f') ∧ known (rev (toc_type <$> ts)) f'.
Proof.
  intros Hh HF HL. rewrite !holds_app in Hh. destruct Hh as (H0 & H1 & H2). cbn [length le32] in *. rewrite <- Z.add_assoc in H2.
  rewrite !holds_cons in H0. destruct H0 as (B0 & B1 & B2 & B3 & _).
  assert (has_magic [1; 102; 99; 112] header m = Ok true) as EM.
  { cbn [has_magic]. by rewrite (load_Some _ _ _ B0), Ok_bind, (load_Some _ _ _ B1), Ok_bind, (load_Some _ _ _ B2), Ok_bind, (load_Some _ _ _ B3). }
  unfold font_init. rewrite EM, Ok_bind. cbn [negb].
  rewrite (ldw_le32 (header + 4) m (Z.of_nat (length ts))), Ok_bind, Nat2Z.id; [|by rewrite Z.add_mod, (at_header HT)|done].
  destruct (toc_loop_ok ts 0 [] f) as (f' & -> & K); [by rewrite Z.mul_0_l, Z.add_0_r|done| |].
  { split; [done|]. split_and!; intros HI; by apply elem_of_nil in HI. }
  exists f'. split; [done|]. by rewrite app_nil_r in K.
Qed.
End Face.

(** ** Drawing *)

(** Pixel [c] of a row of 16, the leftmost is 0. *)
Definition column (row c : Z) : Z := Z.b2z (Z.testbit row (15 - c)).

(** The pixels that are drawn, row by row: [x], [y] and the value, which is the pixel
    in the column to the left. *)
Fixpoint pixels (w y : Z) (rows : list Z) : list (Z * Z * Z) :=
  match rows with
  | [] => []
  | row :: rows => ((λ x, (x, y, column row (x - 1))) <$> seqZ 0 w) ++ pixels w (y + 1) rows
  end.

Section Pixels.
Context {T : Type} (draw_pixel : Z → Z → Z → T → T).

Definition paint (l : list (Z * Z * Z)) (s : T) : T := foldl (λ s '(x, y, v), draw_pixel x y v s) s l.

Lemma pixel_of_ok row x : 0 ≤ row < 65536 → 0 ≤ x < 17 → pixel_of row x = Ok (column row (x - 1)).
Proof.
  intros Hr Hx. unfold pixel_of. rewrite wrap_small by lia. destruct (Z.leb_spec 32 (16 - x)); [lia|]. f_equal.
  rewrite Z.shiftl_1_l. unfold column. rewrite land_bit by lia.
  replace (15 - (x - 1)) with (16 - x) by lia. by destruct (Z.testbit row (16 - x)).
Qed.

Lemma draw_row_ok row y n : 0 ≤ row < 65536 → ∀ x s, 0 ≤ x → x + Z.of_nat n ≤ 17 →
  draw_row draw_pixel n row x y s = Ok (paint ((λ x, (x, y, column row (x - 1))) <$> seqZ x (Z.of_nat n)) s).
Proof.
  intros Hr. induction n as [|n IH]; intros x s Hx Hn; cbn [draw_row]; [done|].
  rewrite pixel_of_ok, Ok_bind, IH by lia. rewrite (seqZ_cons x) by lia.
  replace (Z.succ x) with (x + 1) by lia. replace (Z.pred (Z.of_nat (S n))) with (Z.of_nat n) by lia. done.
Qed.

Lemma draw_rows_ok m w rows : 0 ≤ w ≤ 17 → Forall (λ r, 0 ≤ r < 65536) rows → ∀ a y s, a mod 4 = 0 →
  holds m a (concat (row_bytes <$> rows)) →
  draw_rows draw_pixel (length rows) w a y m s = Ok (paint (pixels w y rows) s).
Proof.
  intros Hw HF. induction HF as [|row rows Hr HF IH]; intros a y s Ha Hh; cbn [length draw_rows pixels]; [done|].
  cbn [fmap list_fmap concat] in Hh. apply holds_app in Hh as [H0 Hh]. cbn [row_bytes be16 app length] in Hh.
  rewrite (ldw_holds 4 a m (row_bytes row) Ha eq_refl H0), Ok_bind. cbn [row_bytes be16 app foldr].
  rewrite be16toh_row by done. rewrite draw_row_ok, Ok_bind, Z2Nat.id by lia.
  rewrite IH; [|by rewrite Z.add_mod, Ha|done]. unfold paint. by rewrite foldl_app.
Qed.
End Pixels.

(** ** A character *)

(** The font [f] holds the glyphs [gs], and [codes] names those of the characters from
    [first] on. *)
Record holds_font (m : mem_t) (f : font_info) (gs : list glyph) (first : Z) (codes : list Z) : Prop := {
  font_codes : mapped_codes first codes (charmap f);
  font_metrics : holds m (metrics_data f) (concat (metric_bytes <$> gs));
  font_offsets : holds m (offsets_data f) (concat ((λ i, be32 (glyph_offset gs i)) <$> seq 0 (length gs)));
  font_bitmaps : holds m (bitmap_data f) (concat (bitmap_bytes <$> gs));
  font_aligned : offsets_data f mod 4 = 0 ∧ bitmap_data f mod 4 = 0;
  font_small : (Z.of_nat (length (concat (bitmap_bytes <$> gs))) < 2 ^ 32)
}.

Section Character.
Context (m : mem_t) (f : font_info) (gs : list glyph) (first : Z) (codes : list Z).
Hypothesis (HF : holds_font m f gs first codes) (Hfirst : 0 ≤ first).
Context (k i : nat) (g : glyph).
Hypothesis (Hk : codes !! k = Some (Z.of_nat i)) (Hi : gs !! i = Some g) (Hg : good_glyph g) (Hn : Z.of_nat i < 65535).

Lemma char_index_ok : char_index f (first + Z.of_nat k) = Ok (Z.of_nat i).
Proof. unfold char_index. rewrite (font_codes _ _ _ _ _ HF k _ Hk) by lia. done. Qed.

Lemma get_char_info_ok :
  get_char_info f (first + Z.of_nat k) m =
  Ok {| left := g_left g; right := g_right g; width := g_width g; ascent := g_ascent g; descent := g_descent g;
        xsize := g_right g - g_left g; ysize := Z.of_nat (length (g_rows g)) |}.
Proof.
  unfold get_char_info. rewrite char_index_ok, Ok_bind, wrap_small by lia.
  pose proof (holds_element _ _ metric_bytes 5 gs i g (λ _, eq_refl) (font_metrics _ _ _ _ _ HF) Hi) as HM.
  replace (Z.of_nat 5 * Z.of_nat i) with (Z.of_nat i * 5) in HM by lia. set (p := metrics_data f + Z.of_nat i * 5) in *.
  unfold metric_bytes in HM. cbn [fmap list_fmap] in HM. rewrite !holds_cons in HM. destruct HM as (M0 & M1 & M2 & M3 & M4 & _).
  replace (p + 1 + 1 + 1 + 1) with (p + 4) in M4 by lia. replace (p + 1 + 1 + 1) with (p + 3) in M3 by lia.
  replace (p + 1 + 1) with (p + 2) in M2 by lia.
  rewrite (load_Some _ _ _ M0), Ok_bind, (load_Some _ _ _ M1), Ok_bind, (load_Some _ _ _ M2), Ok_bind,
    (load_Some _ _ _ M3), Ok_bind, (load_Some _ _ _ M4), Ok_bind.
  destruct Hg as (G1 & G2 & G3 & G4 & G5 & G6 & G7 & _). rewrite !Z.add_simpl_r, !wrap_small by lia.
  rewrite <- G7. done.
Qed.

Lemma draw_char_ok {T} (draw_pixel : Z → Z → Z → T → T) s :
  draw_char draw_pixel f (first + Z.of_nat k) m s = Ok (paint draw_pixel (pixels (g_right g - g_left g) 0 (g_rows g)) s).
Proof.
  unfold draw_char. rewrite char_index_ok, Ok_bind. destruct (font_aligned _ _ _ _ _ HF) as [A1 A2].
  apply lookup_lt_Some in Hi as Hlt.
  pose proof (holds_element _ _ (λ i, be32 (glyph_offset gs i)) 4 _ i i (λ _, eq_refl) (font_offsets _ _ _ _ _ HF)) as HO.
  rewrite lookup_seq_lt in HO by done. specialize (HO eq_refl). change (Z.of_nat 4) with 4 in HO.
  assert ((bitmap_bytes <$> gs) !! i = Some (bitmap_bytes g)) as Hi' by by rewrite list_lookup_fmap, Hi.
  pose proof (holds_concat _ _ _ i _ (font_bitmaps _ _ _ _ _ HF) Hi') as HB. rewrite <- fmap_take in HB. fold (glyph_offset gs i) in HB.
  assert (0 ≤ glyph_offset gs i < 2 ^ 32) as HR.
  { pose proof (font_small _ _ _ _ _ HF) as HS. unfold glyph_offset. rewrite <- (take_drop i gs), fmap_app, concat_app, length_app in HS. lia. }
  assert (glyph_offset gs i mod 4 = 0) as H4.
  { unfold glyph_offset. generalize (take i gs). clear. intros l. induction l as [|g l IH]; [done|].
    cbn [fmap list_fmap concat]. rewrite length_app. unfold bitmap_bytes at 1. rewrite (length_concat_const row_bytes 4) by done.
    rewrite Nat2Z.inj_add, Nat2Z.inj_mul, Z.mul_comm, Z.add_comm, Z.mod_add by lia. done. }
  destruct (ldw_be32 (offsets_data f + 4 * Z.of_nat i) m (glyph_offset gs i)) as (w & -> & Ew);
    [by rewrite Z.mul_comm, Z.mod_add by lia|done|done|].
  rewrite Ok_bind, Ew, get_char_info_ok, Ok_bind. cbn [xsize ysize]. rewrite Nat2Z.id.
  destruct Hg as (G1 & G2 & G3 & _ & _ & _ & _ & G8). apply draw_rows_ok; [lia|done|by rewrite Z.add_mod, A2, H4|done].
Qed.
End Character.

Lemma known_holds m header om ob oe gs sizes first dflt codes seen f :
  tables_in_memory m header om ob oe gs sizes first dflt codes → length sizes = 16%nat →
  Z.of_nat (length (concat (bitmap_bytes <$> gs))) < 2 ^ 32 →
  known header om ob gs first codes seen f →
  PCF_METRICS ∈ seen → PCF_BITMAPS ∈ seen → PCF_BDF_ENCODINGS ∈ seen → holds_font m f gs first codes.
Proof.
  intros HT HS Hsm (_ & K2 & K3 & K4) I1 I2 I3. specialize (K2 I1). destruct (K3 I2) as [K3a K3b]. specialize (K4 I3).
  pose proof (has_metrics _ _ _ _ _ _ _ _ _ _ HT) as HM. pose proof (has_bitmaps _ _ _ _ _ _ _ _ _ _ HT) as HB.
  unfold metrics_table in HM. unfold bitmap_table in HB. rewrite !holds_app in HM. rewrite !holds_app in HB.
  destruct HM as (_ & _ & HM). destruct HB as (_ & _ & HO & _ & HB).
  assert (length (concat ((λ i, be32 (glyph_offset gs i)) <$> seq 0 (length gs))) = (4 * length gs)%nat) as EL.
  { by rewrite (length_concat_const _ 4), length_seq. }
  rewrite HS, EL in HB. cbn [length le32 be16 be32 rev app] in HM, HO, HB.
  pose proof (at_header _ _ _ _ _ _ _ _ _ _ HT) as Ah. pose proof (at_bitmaps _ _ _ _ _ _ _ _ _ _ HT) as Ab.
  assert ((header + ob) mod 4 = 0) as A by by rewrite Z.add_mod, Ah, Ab.
  split; [done|rewrite K2|rewrite K3b|rewrite K3a|rewrite K3a, K3b|done].
  - by replace (header + om + 6) with (header + om + Z.of_nat 4 + Z.of_nat 2) by lia.
  - by replace (header + ob + 8) with (header + ob + Z.of_nat 4 + Z.of_nat 4) by lia.
  - replace (header + ob + 24 + 4 * Z.of_nat (length gs)) with (header + ob + Z.of_nat 4 + Z.of_nat 4 + Z.of_nat (4 * length gs) + Z.of_nat 16) by lia. done.
  - split; [by rewrite Z.add_mod, A|]. replace (header + ob + 24 + 4 * Z.of_nat (length gs)) with (header + ob + (6 + Z.of_nat (length gs)) * 4) by lia.
    by rewrite Z.mod_add by lia.
Qed.

(** ** The bitmap of a glyph *)

(** The font's pixel at column [x] and row [y]; outside the bitmap is background. *)
Definition bitmap (g : glyph) (x y : Z) : Z :=
  if decide (0 ≤ x < g_right g - g_left g) then
    match g_rows g !! Z.to_nat y with Some row => column row x | None => 0 end
  else 0.

(** All pixels of an image of [w] columns and [h] rows, row by row from the top. *)
Definition raster (img : Z → Z → Z) (w h : Z) : list (Z * Z * Z) :=
  y ← seqZ 0 h; (λ x, (x, y, img x y)) <$> seqZ 0 w.

Lemma pixels_raster g : good_glyph g →
  pixels (g_right g - g_left g) 0 (g_rows g) =
  raster (λ x y, bitmap g (x - 1) y) (g_right g - g_left g) (Z.of_nat (length (g_rows g))).
Proof.
  intros (_ & _ & _ & _ & _ & _ & _ & HF). set (w := g_right g - g_left g).
  assert (∀ rows y, 0 ≤ y → (∀ i row, rows !! i = Some row → g_rows g !! (Z.to_nat y + i)%nat = Some row) →
    pixels w y rows = z ← seqZ y (Z.of_nat (length rows)); (λ x, (x, z, bitmap g (x - 1) z)) <$> seqZ 0 w) as HP.
  { induction rows as [|row rows IH]; intros y Hy Hr; [done|]. cbn [pixels length].
    rewrite (seqZ_cons y) by lia. replace (Z.succ y) with (y + 1) by lia.
    replace (Z.pred (Z.of_nat (S (length rows)))) with (Z.of_nat (length rows)) by lia. rewrite bind_cons. f_equal.
    - apply list_fmap_ext. intros j x Hx. apply lookup_seqZ in Hx. f_equal. unfold bitmap.
      pose proof (Hr 0%nat row eq_refl) as E. rewrite Nat.add_0_r in E. rewrite E. case_decide; [done|].
      assert (x = 0) as -> by lia. unfold column.
      pose proof (proj1 (Forall_lookup _ _) HF _ _ E) as Hrow. cbv beta in Hrow.
      change (15 - (0 - 1)) with 16. rewrite <- (Z.mod_small row (2 ^ 16)) by lia. by rewrite Z.mod_pow2_bits_high by lia.
    - apply IH; [lia|]. intros i r Hi. replace (Z.to_nat (y + 1) + i)%nat with (Z.to_nat y + S i)%nat by lia.
      by apply Hr. }
  apply HP; [lia|]. done.
Qed.

(** ** The properties *)

(** UTF-8 text of characters of the basic plane is decoded to these characters, one
    call after the other, up to the NUL, where the decoder stays and returns -1.
    Whatever the bytes of a string are, a call does not read past its NUL: it returns -1
    and stays, or moves on by one to three bytes within the string. *)
Theorem utf8_text m a :
  (∀ us, Forall (λ u, 0 < u < 65536) us → holds m a (concat (utf8 <$> us) ++ [0]) →
    let at_char i := a + Z.of_nat (length (concat (utf8 <$> take i us))) in
    (∀ i u, us !! i = Some u → utf8_to_ucs2 (at_char i) m = Ok (u, at_char (S i))) ∧
    utf8_to_ucs2 (at_char (length us)) m = Ok (-1, at_char (length us))) ∧
  (∀ l, cstr m a l →
    utf8_to_ucs2 a m = Ok (-1, a) ∨
    ∃ u k, utf8_to_ucs2 a m = Ok (u, a + k) ∧ 1 ≤ k ≤ 3 ∧ k ≤ Z.of_nat (length l) ∧ 0 ≤ u < 65536).
Proof.
  split; [|intros l; apply utf8_bounds]. intros us HF Hh at_char. apply holds_app in Hh as [Hh H0]. split.
  - intros i u Hi. assert ((utf8 <$> us) !! i = Some (utf8 u)) as Hi' by by rewrite list_lookup_fmap, Hi.
    pose proof (holds_concat _ _ _ i _ Hh Hi') as HC. rewrite <- fmap_take in HC.
    rewrite (utf8_decodes u); [|by apply (proj1 (Forall_lookup _ _) HF i)|exact HC]. unfold at_char.
    rewrite (take_S_r us i u Hi), fmap_app, concat_app, length_app. cbn [fmap list_fmap concat]. rewrite app_nil_r.
    do 2 f_equal. lia.
  - unfold at_char. rewrite take_ge by done. apply holds_cons in H0 as [H0 _].
    unfold utf8_to_ucs2. by rewrite (load_Some _ _ _ H0), Ok_bind.
Qed.

(** C40: A font in the PCF format, with its tables anywhere in memory and in any order in
    the table of contents, is loaded; the metrics of a character are those of the font;
    and drawing it calls the callback once for each column and row of the character's box,
    row by row from the top, with the pixel that the font's bitmap has one column further
    left: column 0 of what is drawn is background, and the last column of the bitmap is
    lost.  The tables are big-endian with rows of four bytes, the font has one row of
    encodings, and the glyph has at most 17 columns and no negative bearing, ascent or
    descent. *)
Theorem font_draws m header om ob oe gs sizes first dflt codes ts f :
  tables_in_memory m header om ob oe gs sizes first dflt codes → length sizes = 16%nat →
  Z.of_nat (length (concat (bitmap_bytes <$> gs))) < 2 ^ 32 →
  holds m header ([1; 102; 99; 112] ++ le32 (Z.of_nat (length ts)) ++ concat (toc_bytes <$> ts)) →
  Forall (entry_ok om ob oe) ts →
  PCF_METRICS ∈ toc_type <$> ts → PCF_BITMAPS ∈ toc_type <$> ts → PCF_BDF_ENCODINGS ∈ toc_type <$> ts →
  length (charmap f) = Z.to_nat MAXCHAR →
  ∃ f', font_init f header m = Ok (0, f') ∧
    ∀ k i g, codes !! k = Some (Z.of_nat i) → Z.of_nat i < 65535 → gs !! i = Some g → good_glyph g →
      get_char_info f' (first + Z.of_nat k) m =
        Ok {| left := g_left g; right := g_right g; width := g_width g; ascent := g_ascent g; descent := g_descent g;
              xsize := g_right g - g_left g; ysize := Z.of_nat (length (g_rows g)) |} ∧
      ∀ T (draw_pixel : Z → Z → Z → T → T) s,
        draw_char draw_pixel f' (first + Z.of_nat k) m s =
        Ok (paint draw_pixel (raster (λ x y, bitmap g (x - 1) y) (g_right g - g_left g) (g_ascent g + g_descent g)) s).
Proof.
  intros HT HS Hsm Hh HF I1 I2 I3 HL.
  destruct (font_init_ok m header om ob oe gs sizes first dflt codes HT ts f Hh HF HL) as (f' & E & K).
  exists f'. split; [done|].
  assert (holds_font m f' gs first codes) as HH.
  { eapply known_holds; try done; by rewrite list_elem_of_In, <- in_rev, <- list_elem_of_In. }
  pose proof (codes_fit _ _ _ _ _ _ _ _ _ _ HT) as [Hfi _].
  intros k i g Hk Hi Hgi Hg. split; [by eapply get_char_info_ok|]. intros T draw_pixel s.
  destruct (Hg) as (_ & _ & _ & _ & _ & _ & <- & _). rewrite <- pixels_raster by done. by eapply draw_char_ok.
Qed.

(** ** Where the code does something else *)

Module FontBugs.

(** A character outside the basic plane has four bytes; the first three are taken for a
    character of three, and the fourth is not decoded any more. *)
Lemma four_bytes :
  let m := list_to_map (zip (seqZ 0 5) [0xF0; 0x9F; 0x98; 0x80; 0]) in
  utf8_to_ucs2 0 m = Ok (0x7D8, 3) ∧ utf8_to_ucs2 3 m = Ok (-1, 3).
Proof. by vm_compute. Qed.

(** Of a glyph with pixels in its first and last column, the last is not drawn, and the
    first appears in column 1. *)
Definition bar : glyph := {| g_left := 0; g_right := 3; g_width := 4; g_ascent := 1; g_descent := 0; g_rows := [0xA000] |}.
Lemma shifted :
  raster (bitmap bar) 3 1 = [(0, 0, 1); (1, 0, 0); (2, 0, 1)] ∧
  raster (λ x y, bitmap bar (x - 1) y) 3 1 = [(0, 0, 0); (1, 0, 1); (2, 0, 0)].
Proof. by vm_compute. Qed.

(** A row that is wider than 17 pixels shifts by a negative number. *)
Lemma too_wide {T} (draw_pixel : Z → Z → Z → T → T) n : ∀ row x y s, 0 ≤ row < 65536 → 0 ≤ x ≤ 17 → 17 < x + Z.of_nat n →
  draw_row draw_pixel n row x y s = Err Fault.
Proof.
  induction n as [|n IH]; intros row x y s Hr Hx Hn; [lia|]. cbn [draw_row]. destruct (decide (x = 17)) as [->|].
  - done.
  - rewrite pixel_of_ok, Ok_bind by lia. apply IH; lia.
Qed.

(** A negative left bearing, here -1, with the right one 7, makes the character four
    billion pixels wide. *)
Lemma negative_bearing f m : charmap f !! 65%nat = Some 0 →
  holds m (metrics_data f) (metric_bytes {| g_left := -1; g_right := 7; g_width := 8; g_ascent := 8; g_descent := 0; g_rows := [] |}) →
  ∃ ci, get_char_info f 65 m = Ok ci ∧ left ci = 255 ∧ xsize ci = 4294967048.
Proof.
  intros H0 HM. unfold metric_bytes in HM. cbn [fmap list_fmap g_left g_right g_width g_ascent g_descent] in HM.
  rewrite !holds_cons, <- !Z.add_assoc in HM. destruct HM as (M0 & M1 & M2 & M3 & M4 & _).
  unfold get_char_info, char_index. change (Z.to_nat 65) with 65%nat. rewrite H0, Ok_bind. change (u32 (0 * 5)) with 0. rewrite Z.add_0_r.
  rewrite (load_Some _ _ _ M0), Ok_bind, (load_Some _ _ _ M1), Ok_bind, (load_Some m (metrics_data f + 2) _ M2), Ok_bind,
    (load_Some m (metrics_data f + 3) _ M3), Ok_bind, (load_Some m (metrics_data f + 4) _ M4), Ok_bind.
  eexists. by split.
Qed.

(** The index is the number of the encoding plus [first_col]; only the number is checked. *)
Lemma charmap_overrun m f c : c ≠ 0xffff → is_code c → holds m 0 (be16 c) → encodings_loop 1 2047 1 0 m f = Err Fault.
Proof.
  intros Hc Hr Hh. cbn [encodings_loop]. change (MAXCHAR <=? 2047) with false. cbv iota.
  destruct (ldw_be16 0 m c eq_refl Hr Hh) as (w & -> & Ew). rewrite Ok_bind. cbv zeta. rewrite Ew. by destruct (Z.eqb_spec c 65535).
Qed.
End FontBugs.

(** ** A font with one character *)

Module FontDemo.

Definition holds_b (m : mem_t) (a : Z) (l : list Z) : bool :=
  forallb (λ '(i, b), bool_decide (m !! (a + i) = Some b)) (zip (seqZ 0 (Z.of_nat (length l))) l).

Lemma holds_decide m a l : holds_b m a l = true → holds m a l.
Proof.
  unfold holds_b. rewrite forallb_forall. intros HB i b Hi.
  specialize (HB (Z.of_nat i, b)). apply bool_decide_eq_true in HB; [done|].
  rewrite <- list_elem_of_In. apply list_elem_of_lookup. exists i. rewrite lookup_zip_with.
  apply lookup_lt_Some in Hi as Hlt. rewrite lookup_seqZ_lt by lia. cbn. by rewrite Hi.
Qed.

Definition letter : glyph := {| g_left := 0; g_right := 3; g_width := 4; g_ascent := 1; g_descent := 1; g_rows := [0xA000; 0x4000] |}.
Definition toc : list (Z * Z * Z * Z) := [(1, 0, 0, 0); (4, 256, 11, 72); (32, 14, 16, 120); (8, 14, 36, 84)].
Definition image : list Z :=
  [1; 102; 99; 112] ++ le32 4 ++ concat (toc_bytes <$> toc) ++ metrics_table [letter] ++ [0] ++
  bitmap_table [letter] (repeat 0 16) ++ encodings_table 65 0 [0].
Definition memory : mem_t := list_to_map (zip (seqZ 0 (Z.of_nat (length image))) image).
Definition font0 : font_info :=
  {| charmap := repeat 0 2048; metrics_data := 0; metrics_count := 0; bitmap_data := 0; offsets_data := 0; encodings_data := 0 |}.

Lemma font_draws_witness :
  ∃ f, font_init font0 0 memory = Ok (0, f) ∧
    draw_char (λ x y v s, s ++ [(x, y, v)]) f 65 memory [] =
    Ok [(0, 0, 0); (1, 0, 1); (2, 0, 0); (0, 1, 0); (1, 1, 0); (2, 1, 1)].
Proof.
  destruct (font_draws memory 0 72 84 120 [letter] (repeat 0 16) 65 0 [0] toc font0) as (f & E & HD).
  - split; try done; try (apply holds_decide; by vm_compute). by repeat constructor.
  - done.
  - by vm_compute.
  - apply holds_decide. by vm_compute.
  - by repeat constructor.
  - by repeat constructor.
  - by repeat constructor.
  - by repeat constructor.
  - by vm_compute.
  - exists f. split; [done|]. destruct (HD 0%nat 0%nat letter eq_refl eq_refl eq_refl) as [_ HP].
    + unfold good_glyph. cbn. split_and!; try lia. by repeat constructor.
    + exact (HP _ (λ x y v s, s ++ [(x, y, v)]) []).
Defined.

(** The Euro sign and a letter. *)
Lemma utf8_text_witness :
  let m := list_to_map (zip (seqZ 100 5) [0xE2; 0x82; 0xAC; 65; 0]) : mem_t in
  utf8_to_ucs2 100 m = Ok (0x20AC, 103) ∧ utf8_to_ucs2 103 m = Ok (65, 104) ∧ utf8_to_ucs2 104 m = Ok (-1, 104).
Proof.
  intros m. destruct (utf8_text m 100) as [HT _].
  destruct (HT [0x20AC; 65]) as [HC HE]; [by repeat constructor|apply holds_decide; by vm_compute|].
  split; [exact (HC 0%nat _ eq_refl)|]. split; [exact (HC 1%nat _ eq_refl)|exact HE].
Defined.
End FontDemo.
