(* ===== verification/Smp.v ===== *)
(** * Rendezvous of the CPUs (kernel/sched/mdx_smp.c, arch/riscv/riscv/clint_intr.c)

    One CPU makes a set of CPUs call a function at the same time: it sends them
    an inter-processor interrupt, they meet in a room, call the function and
    leave.  Every CPU has a stack of frames; a step of the system is the next
    access of one CPU to the shared variables, and the CPUs interleave in any
    order (sequential consistency: the code orders its accesses with acquire and
    release operations).  The called function is an event of the step; it does
    not call smp_rendezvous_cpus() itself. *)

From S2P Require Import Prelude StringScan.
Local Open Scope Z_scope.

Definition IPI_IPI : Z := Z.shiftl 1 0.
Definition IPI_TRYST : Z := Z.shiftl 1 1.

(** ** The shared variables *)

(** [smp_lock], [smp_rendezvous_*] and the [pc_pending_ipis] of the CPUs. *)
Record smp := {
  smp_lock : bool;
  smp_func : Z;
  smp_arg : Z;
  smp_ncpus : Z;
  smp_room0 : Z;
  smp_room1 : Z;
  pc_pending_ipis : Z → Z;
}.

Definition set_lock v s := {| smp_lock := v; smp_func := smp_func s; smp_arg := smp_arg s; smp_ncpus := smp_ncpus s; smp_room0 := smp_room0 s; smp_room1 := smp_room1 s; pc_pending_ipis := pc_pending_ipis s |}.
Definition set_func v s := {| smp_lock := smp_lock s; smp_func := v; smp_arg := smp_arg s; smp_ncpus := smp_ncpus s; smp_room0 := smp_room0 s; smp_room1 := smp_room1 s; pc_pending_ipis := pc_pending_ipis s |}.
Definition set_arg v s := {| smp_lock := smp_lock s; smp_func := smp_func s; smp_arg := v; smp_ncpus := smp_ncpus s; smp_room0 := smp_room0 s; smp_room1 := smp_room1 s; pc_pending_ipis := pc_pending_ipis s |}.
Definition set_ncpus v s := {| smp_lock := smp_lock s; smp_func := smp_func s; smp_arg := smp_arg s; smp_ncpus := v; smp_room0 := smp_room0 s; smp_room1 := smp_room1 s; pc_pending_ipis := pc_pending_ipis s |}.
Definition set_room0 v s := {| smp_lock := smp_lock s; smp_func := smp_func s; smp_arg := smp_arg s; smp_ncpus := smp_ncpus s; smp_room0 := v; smp_room1 := smp_room1 s; pc_pending_ipis := pc_pending_ipis s |}.
Definition set_room1 v s := {| smp_lock := smp_lock s; smp_func := smp_func s; smp_arg := smp_arg s; smp_ncpus := smp_ncpus s; smp_room0 := smp_room0 s; smp_room1 := v; pc_pending_ipis := pc_pending_ipis s |}.
Definition set_pending c v s := {| smp_lock := smp_lock s; smp_func := smp_func s; smp_arg := smp_arg s; smp_ncpus := smp_ncpus s; smp_room0 := smp_room0 s; smp_room1 := smp_room1 s; pc_pending_ipis := <[c := v]> (pc_pending_ipis s) |}.

(** ** Frames *)

(** The arguments of smp_rendezvous_cpus(). *)
Record request := { rq_cpus : Z; rq_func : Z; rq_arg : Z }.

(** Where a CPU is in smp_rendezvous_action(). *)
Inductive action_pc :=
| AEnter                     (** atomic_add_acq_int(&smp_rendezvous_room[0], 1) *)
| AWait                      (** while (smp_rendezvous_room[0] < smp_rendezvous_ncpus) *)
| AFunc                      (** local_func = smp_rendezvous_func *)
| AArg (func : Z)            (** local_arg = smp_rendezvous_arg *)
| ACall (func arg : Z)       (** local_func(local_arg) *)
| ALeave.                    (** atomic_add_rel_int(&smp_rendezvous_room[1], 1) *)

(** Where a CPU is in smp_rendezvous_cpus(). *)
Inductive rendezvous_pc :=
| RTrylock                   (** while (!sl_trylock(&smp_lock)) *)
| RFunc | RArg | RNcpus      (** the assignments *)
| RRoom1 | RRoom0
| RSend (l : list Z)         (** send_ipi(), [l] is what is left of the list of CPUs *)
| RSelf                      (** if (cpus & (1 << cpuid)) *)
| RWait                      (** while (atomic_load_acq_int(&smp_rendezvous_room[1]) < ncpus) *)
| RUnlock.                   (** sl_unlock(&smp_lock) *)

(** Where a CPU is in ipi_handler(). *)
Inductive handler_pc :=
| HRead                      (** atomic_readandclear_int(PCPU_PTR(pending_ipis)) *)
| HLoop (bitmap : Z).        (** while ((bit = ffs(ipi_bitmap))) *)

Inductive frame :=
| FAction (p : action_pc)
| FRendezvous (r : request) (ncpus : Z) (p : rendezvous_pc)
| FHandler (p : handler_pc).

(** What an observer sees. *)
Inductive event :=
| Locked (c : Z) (r : request)      (** the rendezvous of CPU [c] begins *)
| Entered (c : Z)
| Called (c : Z) (func arg : Z)
| Unlocked (c : Z).                 (** it is over *)

Section Model.
Context (MDX_CPU_MAX : Z).
(** The CPUs of the list [pcpu_all], in its order. *)
Context (pcpu_all : list Z).

Definition cpu_in (cpus c : Z) : bool := negb (Z.land cpus (Z.shiftl 1 c) =? 0).

(** [for (i = 0; i < MDX_CPU_MAX; i++) if (cpus & (1 << i)) ncpus += 1] *)
Definition count_cpus (cpus : Z) : Z :=
  foldl (λ n i, if cpu_in cpus i then n + 1 else n) 0 (seqZ 0 MDX_CPU_MAX).

(** The part of smp_rendezvous_cpus() before its loop; the result is the frame
    of the call. *)
Definition smp_rendezvous_cpus (critnest : Z) (r : request) : res frame :=
  kassert (0 <? critnest);;
  let ncpus := count_cpus (rq_cpus r) in
  if ncpus =? 0 then Err Panic else Ok (FRendezvous r ncpus RTrylock).

(** The step functions return the new state, the frames that replace the
    frame, and the events. *)
Definition action_step (c : Z) (p : action_pc) (s : smp) : smp * list frame * list event :=
  match p with
  | AEnter => (set_room0 (u32 (smp_room0 s + 1)) s, [FAction AWait], [Entered c])
  | AWait => (s, [FAction (if smp_room0 s <? smp_ncpus s then AWait else AFunc)], [])
  | AFunc => (s, [FAction (AArg (smp_func s))], [])
  | AArg func => (s, [FAction (ACall func (smp_arg s))], [])
  | ACall func arg => (s, [FAction ALeave], [Called c func arg])
  | ALeave => (set_room1 (u32 (smp_room1 s + 1)) s, [], [])
  end.

(** The body of the loop of send_ipi() for one CPU. *)
Definition send_ipi_one (cpumask ipi p : Z) (s : smp) : smp :=
  if cpu_in cpumask p then set_pending p (Z.lor (pc_pending_ipis s p) ipi) s else s.

Definition rendezvous_step (c : Z) (r : request) (ncpus : Z) (p : rendezvous_pc) (s : smp) :
    res (smp * list frame * list event) :=
  let goto s p := Ok (s, [FRendezvous r ncpus p], []) in
  match p with
  | RTrylock =>
    if smp_lock s then Ok (s, [FHandler HRead; FRendezvous r ncpus RTrylock], [])
    else Ok (set_lock true s, [FRendezvous r ncpus RFunc], [Locked c r])
  | RFunc => goto (set_func (rq_func r) s) RArg
  | RArg => goto (set_arg (rq_arg r) s) RNcpus
  | RNcpus => goto (set_ncpus ncpus s) RRoom1
  | RRoom1 => goto (set_room1 0 s) RRoom0
  | RRoom0 =>
    kassert (MDX_CPU_MAX <=? 32);;
    kassert (negb (bool_decide (pcpu_all = [])));;
    goto (set_room0 0 s) (RSend pcpu_all)
  | RSend [] => goto s RSelf
  | RSend (p :: l) => goto (send_ipi_one (Z.ldiff (rq_cpus r) (Z.shiftl 1 c)) IPI_TRYST p s) (RSend l)
  | RSelf =>
    if cpu_in (rq_cpus r) c then Ok (s, [FAction AEnter; FRendezvous r ncpus RWait], [])
    else goto s RWait
  | RWait => goto s (if smp_room1 s <? ncpus then RWait else RUnlock)
  | RUnlock => if smp_lock s then Ok (set_lock false s, [], [Unlocked c]) else Err Panic
  end.

Definition handler_step (c : Z) (p : handler_pc) (s : smp) : res (smp * list frame * list event) :=
  match p with
  | HRead =>
    let ipi_bitmap := pc_pending_ipis s c in
    let s := set_pending c 0 s in
    Ok (s, if ipi_bitmap =? 0 then [] else [FHandler (HLoop ipi_bitmap)], [])
  | HLoop ipi_bitmap =>
    bit ← ffs 32 ipi_bitmap;
    if bit =? 0 then Ok (s, [], []) else
    let ipi := Z.shiftl 1 (bit - 1) in
    let ipi_bitmap := Z.ldiff ipi_bitmap ipi in
    let loop := FHandler (HLoop ipi_bitmap) in
    Ok (s, if ipi =? IPI_TRYST then [FAction AEnter; loop] else [loop], [])
  end.

(** The next step of CPU [c], which is in [f]. *)
Definition frame_step (c : Z) (f : frame) (s : smp) : res (smp * list frame * list event) :=
  match f with
  | FAction p => Ok (action_step c p s)
  | FRendezvous r ncpus p => rendezvous_step c r ncpus p s
  | FHandler p => handler_step c p s
  end.

(** ** The system *)

Record system := { sy_smp : smp; sy_stack : Z → list frame }.

Definition cpu_step (c : Z) (y : system) : res (system * list event) :=
  match sy_stack y c with
  | [] => Err Blocked
  | f :: k =>
    '(s, fs, e) ← frame_step c f (sy_smp y);
    Ok ({| sy_smp := s; sy_stack := <[c := fs ++ k]> (sy_stack y) |}, e)
  end.

(** [SCpu]: a CPU in this code goes on.  A CPU in other code, which is never
    seen here, may take the software interrupt, call smp_rendezvous_cpus() with
    interrupts off, or be notified by the scheduler (IPI_IPI). *)
Inductive step : system → list event → system → Prop :=
| SCpu c y y' e : c ∈ pcpu_all → cpu_step c y = Ok (y', e) → step y e y'
| SInterrupt c y : c ∈ pcpu_all → sy_stack y c = [] →
    step y [] {| sy_smp := sy_smp y; sy_stack := <[c := [FHandler HRead]]> (sy_stack y) |}
| SRendezvous c r critnest f y : c ∈ pcpu_all → sy_stack y c = [] → smp_rendezvous_cpus critnest r = Ok f →
    step y [] {| sy_smp := sy_smp y; sy_stack := <[c := [f]]> (sy_stack y) |}
| SNotify c y : c ∈ pcpu_all →
    step y [] {| sy_smp := send_ipi_one (Z.shiftl 1 c) IPI_IPI c (sy_smp y); sy_stack := sy_stack y |}.

Inductive steps : system → list event → system → Prop :=
| steps_nil y : steps y [] y
| steps_cons y e y' e' y'' : step y e y' → steps y' e' y'' → steps y (e ++ e') y''.

(** smp_init(), the variables in .bss. *)
Definition smp_init (func arg ncpus room0 room1 : Z) : system :=
  {| sy_smp := {| smp_lock := false; smp_func := func; smp_arg := arg; smp_ncpus := ncpus; smp_room0 := room0;
                  smp_room1 := room1; pc_pending_ipis := λ _, 0 |};
     sy_stack := λ _, [] |}.

End Model.

(** ** What a rendezvous promises *)

Module Spec.

(** A rendezvous in progress: its initiator, its arguments, the CPUs that have
    entered the room and those that have called the function. *)
Record round := { ro_initiator : Z; ro_request : request; ro_entered : gset Z; ro_called : gset Z }.

Section Spec.
Context (MDX_CPU_MAX : Z).

Definition members (r : request) : gset Z :=
  list_to_set (filter (λ c, cpu_in (rq_cpus r) c = true) (seqZ 0 MDX_CPU_MAX)).

(** One rendezvous at a time; every CPU of the mask enters once; the function is
    called once on each CPU of the mask, when all have entered; the call returns
    when all have called it. *)
Inductive next : option round → event → option round → Prop :=
| NLocked c r : next None (Locked c r) (Some {| ro_initiator := c; ro_request := r; ro_entered := ∅; ro_called := ∅ |})
| NEntered c d : c ∈ members (ro_request d) → c ∉ ro_entered d →
    next (Some d) (Entered c)
      (Some {| ro_initiator := ro_initiator d; ro_request := ro_request d; ro_entered := {[c]} ∪ ro_entered d;
               ro_called := ro_called d |})
| NCalled c d : c ∈ members (ro_request d) → ro_entered d = members (ro_request d) → c ∉ ro_called d →
    next (Some d) (Called c (rq_func (ro_request d)) (rq_arg (ro_request d)))
      (Some {| ro_initiator := ro_initiator d; ro_request := ro_request d; ro_entered := ro_entered d;
               ro_called := {[c]} ∪ ro_called d |})
| NUnlocked d : ro_called d = members (ro_request d) → next (Some d) (Unlocked (ro_initiator d)) None.

Inductive run : option round → list event → option round → Prop :=
| run_nil d : run d [] d
| run_cons d e d' es d'' : next d e d' → run d' es d'' → run d (e :: es) d''.

End Spec.
End Spec.
