(* ===== verification/SmpProofs.v ===== *)
(** * Rendezvous of the CPUs: the invariant

    During a rendezvous every CPU is in one of six stages: not called yet,
    interrupt pending, on its way to the room, inside, leaving, and out again.
    The counters of the rooms count stages. *)

From S2P Require Import Prelude StringScan Smp.
Local Open Scope Z_scope.

(** ** The bits of an interrupt bitmap *)

#[local] Arguments Z.testbit : simpl never.
Abbreviation tryst b := (Z.testbit b 1).

Lemma IPI_TRYST_val : IPI_TRYST = 2. Proof. done. Qed.
Lemma IPI_IPI_val : IPI_IPI = 1. Proof. done. Qed.

Lemma land_1_testbit m : (Z.land m 1 =? 0) = negb (Z.testbit m 0).
Proof.
  assert (Z.land m 1 = m mod 2) as -> by exact (Z.land_ones m 1 ltac:(lia)).
  rewrite Z.bit0_odd, Zmod_odd. by destruct (Z.odd m).
Qed.

(** ffs() finds the lowest bit. *)
Lemma ffs_loop_lowest fuel m bit :
  0 < m < 2 ^ Z.of_nat fuel →
  ∃ k, ffs_loop fuel m bit = Ok (bit + k) ∧ 0 ≤ k ∧ Z.testbit m k = true ∧ ∀ j, 0 ≤ j < k → Z.testbit m j = false.
Proof.
  revert m bit. induction fuel as [|fuel IH]; intros m bit Hm; [change (2 ^ Z.of_nat 0) with 1 in Hm; lia|].
  cbn [ffs_loop]. rewrite land_1_testbit. destruct (Z.testbit m 0) eqn:E0; cbn [negb].
  - exists 0. rewrite Z.add_0_r. split_and!; [done|lia|done|]. intros; lia.
  - assert (m = 2 * (m / 2)) as Em.
    { pose proof (Z.div_mod m 2 ltac:(lia)). rewrite Z.bit0_odd in E0.
      rewrite Zmod_odd, E0 in *. lia. }
    rewrite Nat2Z.inj_succ, Z.pow_succ_r in Hm by lia.
    destruct (IH (Z.shiftr m 1) (bit + 1)) as (k & -> & Hk & Hb & Hlow).
    { rewrite Z.shiftr_div_pow2 by lia. change (2 ^ 1) with 2. lia. }
    exists (k + 1). rewrite Z.shiftr_spec in Hb by lia. split_and!; [f_equal; lia|lia|done|].
    intros j Hj. destruct (decide (j = 0)) as [->|]; [done|].
    rewrite <- (Hlow (j - 1)) by lia. rewrite Z.shiftr_spec by lia. f_equal. lia.
Qed.

Lemma ffs_lowest m : 0 ≤ m < 2 ^ 32 →
  (m = 0 ∧ ffs 32 m = Ok 0) ∨
  ∃ k, ffs 32 m = Ok (k + 1) ∧ 0 ≤ k < 32 ∧ Z.testbit m k = true ∧ ∀ j, 0 ≤ j < k → Z.testbit m j = false.
Proof.
  intros Hm. unfold ffs. destruct (Z.eqb_spec m 0); [by left|right]. rewrite wrap_small by lia.
  destruct (ffs_loop_lowest (S (Z.to_nat 32)) m 1) as (k & -> & Hk & Hb & Hl).
  { split; [lia|]. change (2 ^ Z.of_nat (S (Z.to_nat 32))) with (2 * 2 ^ 32). lia. }
  exists k. split_and!; [f_equal; lia|lia| |done|done].
  destruct (Z.lt_ge_cases k 32); [done|]. rewrite Z.bits_above_log2 in Hb; [done|lia|].
  apply Z.log2_lt_pow2; [lia|]. eapply Z.lt_le_trans; [apply Hm|]. apply Z.pow_le_mono_r; lia.
Qed.

(** What one turn of the loop of ipi_handler() does to the bitmap. *)
Lemma handler_turn b : 0 ≤ b < 2 ^ 32 → b ≠ 0 →
  ∃ k, ffs 32 b = Ok (k + 1) ∧ 0 ≤ k ∧
    let b' := Z.ldiff b (Z.shiftl 1 k) in
    0 ≤ b' < b ∧
    if Z.shiftl 1 k =? IPI_TRYST then tryst b = true ∧ tryst b' = false else tryst b' = tryst b.
Proof.
  intros Hb Hb0. destruct (ffs_lowest b Hb) as [[? _]|(k & E & Hk & Hbit & Hlow)]; [done|].
  exists k. split; [done|]. split; [lia|]. cbv zeta. rewrite Z.shiftl_1_l.
  assert (Z.ldiff b (2 ^ k) = b - 2 ^ k) as Ed.
  { symmetry. apply Z.sub_nocarry_ldiff. apply Z.bits_inj'. intros i Hi.
    rewrite Z.ldiff_spec, Z.bits_0. destruct (decide (i = k)) as [->|Hne].
    - rewrite Hbit. by destruct (Z.testbit (2 ^ k) k).
    - by rewrite Z.pow2_bits_false by lia. }
  assert (2 ^ k ≤ b).
  { destruct (Z.le_gt_cases (2 ^ k) b) as [?|Hlt]; [done|].
    rewrite Z.bits_above_log2 in Hbit; [done|lia|]. apply Z.log2_lt_pow2; lia. }
  split; [rewrite Ed; lia|].
  rewrite IPI_TRYST_val. destruct (Z.eqb_spec (2 ^ k) 2) as [E2|E2].
  - assert (k = 1) as -> by (apply (Z.pow_inj_r 2); lia).
    split; [done|]. rewrite Z.ldiff_spec. change (2 ^ 1) with 2. by rewrite andb_false_r.
  - rewrite Z.ldiff_spec, Z.pow2_bits_false; [by rewrite andb_true_r|]. intros ->. done.
Qed.

Lemma tryst_lor_tryst b : tryst (Z.lor b IPI_TRYST) = true.
Proof. rewrite Z.lor_spec. by rewrite orb_true_r. Qed.
Lemma tryst_lor_ipi b : tryst (Z.lor b IPI_IPI) = tryst b.
Proof. rewrite Z.lor_spec. by rewrite orb_false_r. Qed.
Lemma lor_range b v : 0 ≤ b < 2 ^ 32 → 0 ≤ v < 2 ^ 32 → 0 ≤ Z.lor b v < 2 ^ 32.
Proof.
  intros Hb Hv. split; [apply Z.lor_nonneg; lia|].
  destruct (decide (Z.lor b v = 0)) as [->|]; [lia|]. assert (0 ≤ Z.lor b v) by (apply Z.lor_nonneg; lia).
  apply Z.log2_lt_pow2; [lia|]. rewrite Z.log2_lor by lia. apply Z.max_lub_lt.
  - destruct (decide (b = 0)) as [->|]; [done|]. apply Z.log2_lt_pow2; lia.
  - destruct (decide (v = 0)) as [->|]; [done|]. apply Z.log2_lt_pow2; lia.
Qed.

Lemma cpu_in_testbit cpus c : 0 ≤ c → cpu_in cpus c = Z.testbit cpus c.
Proof.
  intros Hc. unfold cpu_in. rewrite Z.shiftl_1_l. destruct (Z.testbit cpus c) eqn:E.
  - apply negb_true_iff, Z.eqb_neq. intros H0. apply (f_equal (λ x, Z.testbit x c)) in H0.
    rewrite Z.land_spec, E, Z.pow2_bits_true, Z.bits_0 in H0 by lia. done.
  - apply negb_false_iff, Z.eqb_eq. apply Z.bits_inj'. intros i Hi. rewrite Z.land_spec, Z.bits_0.
    destruct (decide (i = c)) as [->|]; [by rewrite E|]. by rewrite Z.pow2_bits_false, andb_false_r by lia.
Qed.

Lemma cpu_in_others cpus c p : 0 ≤ c → 0 ≤ p →
  cpu_in (Z.ldiff cpus (Z.shiftl 1 c)) p = cpu_in cpus p && negb (bool_decide (p = c)).
Proof.
  intros Hc Hp. rewrite !cpu_in_testbit, Z.ldiff_spec, Z.shiftl_1_l by done. f_equal.
  case_bool_decide as E; [subst; by rewrite Z.pow2_bits_true|by rewrite Z.pow2_bits_false].
Qed.

(** ** Counting *)

(** How many CPUs of the list [M] have reached stage [k]. *)
Fixpoint cnt (M : list Z) (st : Z → nat) (k : nat) : Z :=
  match M with [] => 0 | c :: M => (if decide (k ≤ st c)%nat then 1 else 0) + cnt M st k end.

Lemma cnt_bound M st k : 0 ≤ cnt M st k ≤ Z.of_nat (length M).
Proof. induction M as [|c M IH]; cbn [cnt length]; [lia|]. case_decide; lia. Qed.

Lemma cnt_insert_same M st k c v : ((k ≤ st c)%nat ↔ (k ≤ v)%nat) → cnt M (<[c := v]> st) k = cnt M st k.
Proof.
  intros H. induction M as [|x M IH]; cbn [cnt]; [done|]. rewrite IH. f_equal.
  destruct (decide (c = x)) as [->|?]; [rewrite fn_lookup_insert|by rewrite fn_lookup_insert_ne].
  repeat case_decide; tauto || lia.
Qed.

Lemma cnt_insert_up M st k c v : NoDup M → c ∈ M → (st c < k ≤ v)%nat → cnt M (<[c := v]> st) k = cnt M st k + 1.
Proof.
  intros HM Hc Hk. induction HM as [|x M Hx HM IH]; [by apply not_elem_of_nil in Hc|]. cbn [cnt].
  apply elem_of_cons in Hc as [<-|Hc].
  - rewrite fn_lookup_insert, decide_True, decide_False by lia. enough (cnt M (<[c := v]> st) k = cnt M st k) by lia.
    clear IH. induction M as [|y M IH]; cbn [cnt]; [done|]. apply not_elem_of_cons in Hx as [Hy Hx].
    rewrite fn_lookup_insert_ne, IH; [done|done|by apply NoDup_cons in HM as [_ ?]|done].
  - rewrite fn_lookup_insert_ne, IH by (done || intros ->; done). lia.
Qed.

Lemma cnt_full M st k : cnt M st k = Z.of_nat (length M) ↔ ∀ c, c ∈ M → (k ≤ st c)%nat.
Proof.
  induction M as [|x M IH]; cbn [cnt length].
  - split; [|done]. intros _ c Hc. by apply not_elem_of_nil in Hc.
  - pose proof (cnt_bound M st k). split.
    + intros H' c Hc. case_decide; [|lia]. apply elem_of_cons in Hc as [->|Hc]; [done|]. apply IH; [lia|done].
    + intros H'. rewrite decide_True by (apply H'; left). enough (cnt M st k = Z.of_nat (length M)) by lia.
      apply IH. intros c Hc. apply H'. by right.
Qed.

Lemma cnt_zero M st k : (∀ c, c ∈ M → st c = 0%nat) → (0 < k)%nat → cnt M st k = 0.
Proof.
  intros H Hk. induction M as [|x M IH]; cbn [cnt]; [done|]. rewrite decide_False by (rewrite (H x) by left; lia).
  rewrite IH; [done|]. intros c Hc. apply H. by right.
Qed.

(** ** The invariant *)

Section Invariant.
Context (MDX_CPU_MAX : Z) (pcpu_all : list Z).

Abbreviation count_cpus := (count_cpus MDX_CPU_MAX).
Abbreviation cpu_step := (cpu_step MDX_CPU_MAX pcpu_all).
Abbreviation step := (step MDX_CPU_MAX pcpu_all).
Abbreviation rendezvous_step := (rendezvous_step MDX_CPU_MAX pcpu_all).

(** The CPUs of the mask. *)
Definition mlist (r : request) : list Z := filter (λ c, cpu_in (rq_cpus r) c = true) (seqZ 0 MDX_CPU_MAX).

Lemma mlist_NoDup r : NoDup (mlist r).
Proof. apply NoDup_filter, NoDup_seqZ. Qed.

Lemma elem_of_mlist r c : c ∈ mlist r ↔ cpu_in (rq_cpus r) c = true ∧ 0 ≤ c < MDX_CPU_MAX.
Proof. unfold mlist. rewrite list_elem_of_filter, elem_of_seqZ. by rewrite Z.add_0_l. Qed.

Lemma elem_of_members r c : c ∈ Spec.members MDX_CPU_MAX r ↔ c ∈ mlist r.
Proof. unfold Spec.members. by rewrite elem_of_list_to_set. Qed.

Lemma count_cpus_length r : count_cpus (rq_cpus r) = Z.of_nat (length (mlist r)).
Proof.
  unfold count_cpus, Smp.count_cpus, mlist.
  assert (∀ l n, foldl (λ n i, if cpu_in (rq_cpus r) i then n + 1 else n) n l =
    n + Z.of_nat (length (filter (λ c, cpu_in (rq_cpus r) c = true) l))) as H; [|rewrite H; lia].
  induction l as [|i l IH]; intros n; cbn [foldl]; [simpl; lia|]. rewrite IH, filter_cons.
  destruct (cpu_in (rq_cpus r) i) eqn:E; [rewrite decide_True by done|rewrite decide_False by done]; cbn [length]; lia.
Qed.

(** Other code, possibly one that waits for the lock. *)
Inductive base : list frame → Prop :=
| base_nil : base []
| base_try r n : n = count_cpus (rq_cpus r) → n ≠ 0 → base [FRendezvous r n RTrylock].

(** A CPU that the rendezvous in progress has not called, or that is done with
    it. *)
Inductive passive : list frame → Prop :=
| passive_base k : base k → passive k
| passive_read k : base k → passive (FHandler HRead :: k)
| passive_loop b k : base k → 0 ≤ b < 2 ^ 32 → tryst b = false → passive (FHandler (HLoop b) :: k).

(** In the room. *)
Definition inside (d : request) (full : Prop) (p : action_pc) : Prop :=
  match p with
  | AWait => True
  | AFunc => full
  | AArg f => full ∧ f = rq_func d
  | ACall f a => full ∧ f = rq_func d ∧ a = rq_arg d
  | _ => False
  end.

(** The stages of a CPU that is not the initiator; the last argument says
    whether its interrupt is pending. *)
Inductive member_at (d : request) (full : Prop) : nat → list frame → bool → Prop :=
| at_idle k : passive k → member_at d full 0 k false
| at_pending k : passive k → member_at d full 1 k true
| at_loop b k : base k → 0 ≤ b < 2 ^ 32 → tryst b = true → member_at d full 2 (FHandler (HLoop b) :: k) false
| at_enter b k : base k → 0 ≤ b < 2 ^ 32 → tryst b = false →
    member_at d full 2 (FAction AEnter :: FHandler (HLoop b) :: k) false
| at_inside p b k : base k → 0 ≤ b < 2 ^ 32 → tryst b = false → inside d full p →
    member_at d full 3 (FAction p :: FHandler (HLoop b) :: k) false
| at_leave b k : base k → 0 ≤ b < 2 ^ 32 → tryst b = false →
    member_at d full 4 (FAction ALeave :: FHandler (HLoop b) :: k) false
| at_done k : passive k → member_at d full 5 k false.

(** What the initiator has established when it has called the others. *)
Record facts := { f_func : Prop; f_arg : Prop; f_ncpus : Prop; f_room0 : Prop; f_room1 : Prop; f_full : Prop; f_done : Prop }.

Definition ready (F : facts) : Prop := f_func F ∧ f_arg F ∧ f_ncpus F ∧ f_room0 F ∧ f_room1 F.

(** The initiator: its stage, its stack, and the CPUs it has still to call. *)
Inductive holder_at (h : Z) (d : request) (F : facts) : nat → list frame → list Z → Prop :=
| h_func : holder_at h d F 0 [FRendezvous d (count_cpus (rq_cpus d)) RFunc] pcpu_all
| h_arg : f_func F → holder_at h d F 0 [FRendezvous d (count_cpus (rq_cpus d)) RArg] pcpu_all
| h_ncpus : f_func F → f_arg F → holder_at h d F 0 [FRendezvous d (count_cpus (rq_cpus d)) RNcpus] pcpu_all
| h_room1 : f_func F → f_arg F → f_ncpus F → holder_at h d F 0 [FRendezvous d (count_cpus (rq_cpus d)) RRoom1] pcpu_all
| h_room0 : f_func F → f_arg F → f_ncpus F → f_room1 F →
    holder_at h d F 0 [FRendezvous d (count_cpus (rq_cpus d)) RRoom0] pcpu_all
| h_send l : ready F → l `suffix_of` pcpu_all → holder_at h d F 0 [FRendezvous d (count_cpus (rq_cpus d)) (RSend l)] l
| h_self : ready F → holder_at h d F 0 [FRendezvous d (count_cpus (rq_cpus d)) RSelf] []
| h_enter : ready F → h ∈ mlist d →
    holder_at h d F 2 [FAction AEnter; FRendezvous d (count_cpus (rq_cpus d)) RWait] []
| h_inside p : ready F → h ∈ mlist d → inside d (f_full F) p →
    holder_at h d F 3 [FAction p; FRendezvous d (count_cpus (rq_cpus d)) RWait] []
| h_leave : ready F → h ∈ mlist d →
    holder_at h d F 4 [FAction ALeave; FRendezvous d (count_cpus (rq_cpus d)) RWait] []
| h_wait st : ready F → st = (if cpu_in (rq_cpus d) h then 5%nat else 0%nat) →
    holder_at h d F st [FRendezvous d (count_cpus (rq_cpus d)) RWait] []
| h_unlock st : ready F → f_done F → st = (if cpu_in (rq_cpus d) h then 5%nat else 0%nat) →
    holder_at h d F st [FRendezvous d (count_cpus (rq_cpus d)) RUnlock] [].

Definition facts_of (d : request) (s : smp) (st : Z → nat) : facts :=
  {| f_func := smp_func s = rq_func d; f_arg := smp_arg s = rq_arg d; f_ncpus := smp_ncpus s = count_cpus (rq_cpus d);
     f_room0 := smp_room0 s = cnt (mlist d) st 3; f_room1 := smp_room1 s = cnt (mlist d) st 5;
     f_full := ∀ c, c ∈ mlist d → (3 ≤ st c)%nat; f_done := ∀ c, c ∈ mlist d → (5 ≤ st c)%nat |}.

(** The invariant during a rendezvous. *)
Record in_round (h : Z) (d : request) (st : Z → nat) (y : system) (todo : list Z) : Prop := {
  ir_lock : smp_lock (sy_smp y) = true;
  ir_online : h ∈ pcpu_all;
  ir_ncpus : count_cpus (rq_cpus d) ≠ 0;
  ir_holder : holder_at h d (facts_of d (sy_smp y) st) (st h) (sy_stack y h) todo;
  ir_holder_pending : tryst (pc_pending_ipis (sy_smp y) h) = false;
  ir_others : ∀ c, c ≠ h →
    member_at d (f_full (facts_of d (sy_smp y) st)) (st c) (sy_stack y c) (tryst (pc_pending_ipis (sy_smp y) c));
  ir_stage : ∀ c, st c ≠ 0%nat → c ∈ mlist d ∧ c ∈ pcpu_all;
  ir_todo : ∀ c, c ∈ mlist d → c ∈ pcpu_all → c ≠ h → st c = 0%nat ↔ c ∈ todo;
  ir_range : ∀ c, 0 ≤ pc_pending_ipis (sy_smp y) c < 2 ^ 32;
}.

(** And between two of them. *)
Record no_round (y : system) : Prop := {
  nr_lock : smp_lock (sy_smp y) = false;
  nr_cpus : ∀ c, passive (sy_stack y c) ∧ tryst (pc_pending_ipis (sy_smp y) c) = false;
  nr_range : ∀ c, 0 ≤ pc_pending_ipis (sy_smp y) c < 2 ^ 32;
}.

(** How a state of the system represents one of the specification. *)
Definition represents (y : system) (o : option Spec.round) : Prop :=
  match o with
  | None => no_round y
  | Some d => ∃ st todo, in_round (Spec.ro_initiator d) (Spec.ro_request d) st y todo ∧
    (∀ c, c ∈ Spec.ro_entered d ↔ c ∈ mlist (Spec.ro_request d) ∧ (3 ≤ st c)%nat) ∧
    (∀ c, c ∈ Spec.ro_called d ↔ c ∈ mlist (Spec.ro_request d) ∧ (4 ≤ st c)%nat)
  end.

(** ** Moves *)

Lemma inside_mono d (P Q : Prop) p : (P → Q) → inside d P p → inside d Q p.
Proof. intros H. destruct p; cbn; tauto. Qed.

Lemma member_at_mono d (P Q : Prop) n k b : (P → Q) → member_at d P n k b → member_at d Q n k b.
Proof. intros H. destruct 1; constructor; eauto using inside_mono. Qed.

Definition facts_le (F G : facts) : Prop :=
  (f_func F → f_func G) ∧ (f_arg F → f_arg G) ∧ (f_ncpus F → f_ncpus G) ∧ (f_room0 F → f_room0 G) ∧
  (f_room1 F → f_room1 G) ∧ (f_full F → f_full G) ∧ (f_done F → f_done G).

Lemma holder_at_mono h d F G n k l : facts_le F G → holder_at h d F n k l → holder_at h d G n k l.
Proof.
  intros (?&?&?&?&?&?&?).
  assert (ready F → ready G) by (unfold ready; tauto).
  destruct 1; constructor; eauto using inside_mono.
Qed.

Lemma cnt_mono_full (M : list Z) (st : Z → nat) c v k : (st c ≤ v)%nat → (∀ x, x ∈ M → (k ≤ st x)%nat) → ∀ x, x ∈ M → (k ≤ (<[c := v]> st) x)%nat.
Proof.
  intros Hv H x Hx. specialize (H x Hx). destruct (decide (x = c)) as [->|].
  - rewrite fn_lookup_insert. lia.
  - by rewrite fn_lookup_insert_ne.
Qed.

(** The shared variables other than the rooms and the interrupts. *)
Definition same_round (s s' : smp) : Prop :=
  smp_lock s' = smp_lock s ∧ smp_func s' = smp_func s ∧ smp_arg s' = smp_arg s ∧ smp_ncpus s' = smp_ncpus s.

(** A CPU other than the initiator moves. *)
Lemma member_move h d st y todo c s' k' v :
  in_round h d st y todo → c ≠ h → c ∈ pcpu_all → (st c ≤ v)%nat → (v = 0%nat ↔ st c = 0%nat) →
  same_round (sy_smp y) s' →
  (smp_room0 (sy_smp y) = cnt (mlist d) st 3 → smp_room0 s' = cnt (mlist d) (<[c := v]> st) 3) →
  (smp_room1 (sy_smp y) = cnt (mlist d) st 5 → smp_room1 s' = cnt (mlist d) (<[c := v]> st) 5) →
  (∀ x, x ≠ c → pc_pending_ipis s' x = pc_pending_ipis (sy_smp y) x) → 0 ≤ pc_pending_ipis s' c < 2 ^ 32 →
  member_at d (f_full (facts_of d s' (<[c := v]> st))) v k' (tryst (pc_pending_ipis s' c)) →
  in_round h d (<[c := v]> st) {| sy_smp := s'; sy_stack := <[c := k']> (sy_stack y) |} todo.
Proof.
  intros [] Hc Hon Hv H0 (El & Ef & Ea & En) Hr0 Hr1 Hp Hrg Hm. split; cbn [sy_smp sy_stack].
  - congruence.
  - done.
  - done.
  - rewrite !fn_lookup_insert_ne by done. eapply holder_at_mono; [|eassumption].
    unfold facts_le, facts_of; cbn. rewrite Ef, Ea, En. split_and!; eauto using cnt_mono_full.
  - by rewrite Hp by done.
  - intros x Hx. destruct (decide (x = c)) as [->|Hxc].
    + by rewrite !fn_lookup_insert.
    + rewrite !fn_lookup_insert_ne, Hp by done. eapply member_at_mono; [|by apply ir_others0].
      unfold facts_of; cbn. eauto using cnt_mono_full.
  - intros x. destruct (decide (x = c)) as [->|Hxc]; [|rewrite fn_lookup_insert_ne by done; eauto].
    rewrite fn_lookup_insert. intros ?. apply ir_stage0. tauto.
  - intros x Hx1 Hx2 Hx3. destruct (decide (x = c)) as [->|Hxc]; [|rewrite fn_lookup_insert_ne by done; eauto].
    rewrite fn_lookup_insert, H0. eauto.
  - intros x. destruct (decide (x = c)) as [->|Hxc]; [done|]. by rewrite Hp.
Qed.

(** The initiator moves. *)
Lemma holder_move h d st y todo s' k' v :
  in_round h d st y todo → (st h ≤ v)%nat → (v ≠ 0%nat → h ∈ mlist d) →
  smp_lock s' = true → pc_pending_ipis s' = pc_pending_ipis (sy_smp y) →
  holder_at h d (facts_of d s' (<[h := v]> st)) v k' todo →
  in_round h d (<[h := v]> st) {| sy_smp := s'; sy_stack := <[h := k']> (sy_stack y) |} todo.
Proof.
  intros [] Hv H0 El Hp Hh. split; cbn [sy_smp sy_stack]; rewrite ?Hp.
  - done.
  - done.
  - done.
  - by rewrite !fn_lookup_insert.
  - done.
  - intros x Hx. rewrite !fn_lookup_insert_ne by done. eapply member_at_mono; [|by apply ir_others0].
    unfold facts_of; cbn. eauto using cnt_mono_full.
  - intros x. destruct (decide (x = h)) as [->|Hxc]; [|rewrite fn_lookup_insert_ne by done; eauto].
    rewrite fn_lookup_insert. eauto.
  - intros x Hx1 Hx2 Hx3. rewrite fn_lookup_insert_ne by done. eauto.
  - done.
Qed.

(** A step of a CPU that the rendezvous does not concern. *)
Lemma passive_step c f k s : passive (f :: k) → 0 ≤ pc_pending_ipis s c < 2 ^ 32 →
  (∀ r n, f = FRendezvous r n RTrylock → smp_lock s = true) →
  ∃ s' fs, frame_step MDX_CPU_MAX pcpu_all c f s = Ok (s', fs, []) ∧
    ((s' = s ∧ passive (fs ++ k)) ∨
     (s' = set_pending c 0 s ∧
      if tryst (pc_pending_ipis s c)
      then ∃ b, fs = [FHandler (HLoop b)] ∧ base k ∧ 0 ≤ b < 2 ^ 32 ∧ tryst b = true
      else passive (fs ++ k))).
Proof.
  intros Hp Hrg Hlock. inversion Hp as [? Hb|? Hb|b ? Hb Hbr Ht]; subst.
  - inversion Hb as [|r n En Hn]; subst. cbn. rewrite (Hlock _ _ eq_refl). do 2 eexists. split; [done|]. left.
    split; [done|]. apply (passive_read [_]). by constructor.
  - cbn. do 2 eexists. split; [done|]. right. split; [done|].
    destruct (Z.eqb_spec (pc_pending_ipis s c) 0) as [->|E0]; [by apply passive_base|].
    destruct (tryst (pc_pending_ipis s c)) eqn:E; [by eauto 6|]. by apply passive_loop.
  - cbn [frame_step handler_step]. destruct (decide (b = 0)) as [->|Hb0].
    { do 2 eexists. split; [done|]. left. split; [done|]. by apply passive_base. }
    destruct (handler_turn b Hbr Hb0) as (i & -> & Hi & Hle & Hti). cbn [mbind res_bind].
    destruct (Z.eqb_spec (i + 1) 0) as [?|_]; [lia|]. replace (i + 1 - 1) with i by lia.
    destruct (Z.shiftl 1 i =? IPI_TRYST); [destruct Hti; congruence|].
    do 2 eexists. split; [done|]. left. split; [done|]. apply passive_loop; [done|lia|congruence].
Qed.

Context (HMAX : 0 ≤ MDX_CPU_MAX ≤ 32).
Context (Hcpus : ∀ c, c ∈ pcpu_all → 0 ≤ c < MDX_CPU_MAX).

Lemma cnt_small d st k : 0 ≤ cnt (mlist d) st k ≤ 32.
Proof.
  pose proof (cnt_bound (mlist d) st k). split; [lia|]. etransitivity; [apply H|].
  unfold mlist. etransitivity; [apply inj_le, length_filter|]. rewrite length_seqZ. lia.
Qed.

Lemma u32_next d st k : u32 (cnt (mlist d) st k + 1) = cnt (mlist d) st k + 1.
Proof. pose proof (cnt_small d st k). apply wrap_small. lia. Qed.

(** Once a CPU has been called, the variables of the rendezvous are set. *)
Lemma called_ready h d st y todo c :
  in_round h d st y todo → c ≠ h → st c ≠ 0%nat → ready (facts_of d (sy_smp y) st).
Proof.
  intros [] Hc Hst. destruct (ir_stage0 _ Hst) as [Hm Hon].
  assert (c ∉ todo) as Ht by (rewrite <- ir_todo0; done).
  inversion ir_holder0; subst; done.
Qed.

Lemma waited d s st :
  f_ncpus (facts_of d s st) → f_room0 (facts_of d s st) → smp_room0 s <? smp_ncpus s = false → f_full (facts_of d s st).
Proof.
  intros Hn H0 Hlt. cbn in *. rewrite Hn, H0, count_cpus_length in Hlt. apply Z.ltb_ge in Hlt.
  apply cnt_full. pose proof (cnt_bound (mlist d) st 3). lia.
Qed.

(** What a step of a CPU whose stage goes from [u] to [v] shows. *)
Definition shows (d : request) (full : Prop) (c : Z) (u v : nat) (e : list event) : Prop :=
  (e = [] ∧ ((3 ≤ u)%nat ↔ (3 ≤ v)%nat) ∧ ((4 ≤ u)%nat ↔ (4 ≤ v)%nat)) ∨
  (e = [Entered c] ∧ u = 2%nat ∧ v = 3%nat ∧ c ∈ mlist d) ∨
  (e = [Called c (rq_func d) (rq_arg d)] ∧ u = 3%nat ∧ v = 4%nat ∧ full ∧ c ∈ mlist d).

Lemma same_round_refl s : same_round s s.
Proof. done. Qed.

(** A move that neither enters nor leaves the room. *)
Lemma member_stay h d st y todo c s' k' v :
  in_round h d st y todo → c ≠ h → c ∈ pcpu_all → (st c ≤ v)%nat → (v = 0%nat ↔ st c = 0%nat) →
  ((3 ≤ st c)%nat ↔ (3 ≤ v)%nat) → ((5 ≤ st c)%nat ↔ (5 ≤ v)%nat) →
  s' = sy_smp y ∨ s' = set_pending c 0 (sy_smp y) →
  member_at d (f_full (facts_of d (sy_smp y) st)) v k' (tryst (pc_pending_ipis s' c)) →
  in_round h d (<[c := v]> st) {| sy_smp := s'; sy_stack := <[c := k']> (sy_stack y) |} todo.
Proof.
  intros HI Hc Hon Hv H0 H3 H5 Hs Hm.
  eapply (member_move _ _ _ _ _ c); eauto; rewrite ?cnt_insert_same by done; try by destruct Hs as [->| ->].
  - intros x Hx. destruct Hs as [->| ->]; [done|]. cbn. by rewrite fn_lookup_insert_ne.
  - destruct Hs as [->| ->]; [apply HI|]. cbn. rewrite fn_lookup_insert. lia.
  - eapply member_at_mono; [|exact Hm]. cbn. intros Hf. by apply cnt_mono_full.
Qed.

Lemma member_step_passive h d st y todo c f k :
  in_round h d st y todo → c ≠ h → c ∈ pcpu_all → sy_stack y c = f :: k → passive (f :: k) →
  ∃ s' fs v, frame_step MDX_CPU_MAX pcpu_all c f (sy_smp y) = Ok (s', fs, []) ∧
    in_round h d (<[c := v]> st) {| sy_smp := s'; sy_stack := <[c := fs ++ k]> (sy_stack y) |} todo ∧
    ((3 ≤ st c)%nat ↔ (3 ≤ v)%nat) ∧ ((4 ≤ st c)%nat ↔ (4 ≤ v)%nat).
Proof.
  intros HI Hc Hon Ek Hp. pose proof (ir_others _ _ _ _ _ HI c Hc) as Hm. rewrite Ek in Hm.
  assert (¬ ∃ p k', f = FAction p ∧ k = k') as Hna by (intros (?&?&->&_); inversion Hp as [? Hb| |]; inversion Hb).
  destruct (passive_step c f k (sy_smp y) Hp (ir_range _ _ _ _ _ HI c)) as (s' & fs & E & Hs).
  { intros. apply HI. }
  exists s', fs. rewrite E.
  assert (∀ v, (st c = 1%nat ∧ v = 2%nat ∨ v = st c) → s' = sy_smp y ∨ s' = set_pending c 0 (sy_smp y) →
    member_at d (f_full (facts_of d (sy_smp y) st)) v (fs ++ k) (tryst (pc_pending_ipis s' c)) →
    ∃ v, Ok (s', fs, []) = Ok (s', fs, @nil event) ∧
    in_round h d (<[c := v]> st) {| sy_smp := s'; sy_stack := <[c := fs ++ k]> (sy_stack y) |} todo ∧
    ((3 ≤ st c)%nat ↔ (3 ≤ v)%nat) ∧ ((4 ≤ st c)%nat ↔ (4 ≤ v)%nat)) as Hgo.
  { intros v Hv Hs' Hm'. exists v. split; [done|]. split; [|lia]. apply member_stay; done || lia. }
  destruct Hs as [[-> Hp']|[-> Hp']].
  - apply (Hgo (st c)); [by right|by left|].
    inversion Hm; subst; try (exfalso; eauto; fail); try (by constructor).
    inversion Hp as [? Hb| |]; [inversion Hb|congruence].
  - cbn in Hgo. rewrite fn_lookup_insert in Hgo. destruct (tryst (pc_pending_ipis (sy_smp y) c)) eqn:Et.
    + destruct Hp' as (b & -> & Hb & Hr & Hbt). apply (Hgo 2%nat); [left; by inversion Hm|by right|]. by constructor.
    + apply (Hgo (st c)); [by right|by right|].
      inversion Hm; subst; try (exfalso; eauto; fail); try (by constructor).
      inversion Hp as [? Hb| |]; [inversion Hb|congruence].
Qed.

Lemma member_step h d st y todo c :
  in_round h d st y todo → c ≠ h → c ∈ pcpu_all → sy_stack y c ≠ [] →
  ∃ y' e v, cpu_step c y = Ok (y', e) ∧ in_round h d (<[c := v]> st) y' todo ∧
    shows d (f_full (facts_of d (sy_smp y) st)) c (st c) v e.
Proof.
  intros HI Hc Hon Hne. pose proof (ir_others _ _ _ _ _ HI c Hc) as Hm. pose proof (ir_range _ _ _ _ _ HI c) as Hrg.
  pose proof (called_ready _ _ _ _ _ c HI Hc) as Hready.
  assert (st c ≠ 0%nat → c ∈ mlist d) as Hmem by (intros Hst; apply (ir_stage _ _ _ _ _ HI c Hst)).
  unfold cpu_step, Smp.cpu_step. destruct (sy_stack y c) as [|f k] eqn:Ek; [done|].
  assert (∀ s' fs e v, frame_step MDX_CPU_MAX pcpu_all c f (sy_smp y) = Ok (s', fs, e) →
    in_round h d (<[c := v]> st) {| sy_smp := s'; sy_stack := <[c := fs ++ k]> (sy_stack y) |} todo →
    shows d (f_full (facts_of d (sy_smp y) st)) c (st c) v e →
    ∃ y' e v, ('(s, fs, e) ← frame_step MDX_CPU_MAX pcpu_all c f (sy_smp y);
      Ok ({| sy_smp := s; sy_stack := <[c := fs ++ k]> (sy_stack y) |}, e)) = Ok (y', e) ∧
      in_round h d (<[c := v]> st) y' todo ∧ shows d (f_full (facts_of d (sy_smp y) st)) c (st c) v e) as Hgo.
  { intros s' fs e v E HI' Hs. rewrite E. do 3 eexists. split; [done|]. by split. }
  assert (passive (f :: k) → ∃ y' e v, ('(s, fs, e) ← frame_step MDX_CPU_MAX pcpu_all c f (sy_smp y);
      Ok ({| sy_smp := s; sy_stack := <[c := fs ++ k]> (sy_stack y) |}, e)) = Ok (y', e) ∧
      in_round h d (<[c := v]> st) y' todo ∧ shows d (f_full (facts_of d (sy_smp y) st)) c (st c) v e) as Hpas.
  { intros Hp. destruct (member_step_passive h d st y todo c f k) as (s' & fs & v & E & HI' & Hv); try done.
    apply (Hgo s' fs [] v E HI'). by left. }
  set (SH := shows d (f_full (facts_of d (sy_smp y) st)) c (st c)) in *.
  inversion Hm as [|? ? Est|b k' Hb Hbr Hbt Est|b k' Hb Hbr Hbt Est|p b k' Hb Hbr Hbt Hin Est|b k' Hb Hbr Hbt Est|];
    subst; try (by apply Hpas); assert (ready (facts_of d (sy_smp y) st)) as (Hf & Ha & Hn & Hr0 & Hr1) by (apply Hready; lia);
    assert (c ∈ mlist d) as Hcm by (apply Hmem; lia);
    assert (tryst (pc_pending_ipis (sy_smp y) c) = false) as Hpend by congruence.
  - destruct (decide (b = 0)) as [->|Hb0]; [done|].
    destruct (handler_turn b Hbr Hb0) as (i & Ei & Hi & Hle & Hti).
    eapply Hgo.
    + cbn [frame_step handler_step]. rewrite Ei. cbn [mbind res_bind].
      destruct (Z.eqb_spec (i + 1) 0) as [?|_]; [lia|]. replace (i + 1 - 1) with i by lia. done.
    + apply member_stay with (v := 2%nat); try done; try lia; [by left|]. rewrite Hpend.
      destruct (Z.shiftl 1 i =? IPI_TRYST); constructor; done || lia || (try tauto); congruence.
    + left; split; [done|lia].
  - eapply Hgo; [done| |].
    + apply (member_move _ _ _ _ _ c _ _ 3%nat); try done; try lia.
      * intros E. rewrite cnt_insert_up by (apply mlist_NoDup || done || lia). cbn. by rewrite E, u32_next.
      * intros E. rewrite cnt_insert_same by lia. done.
      * cbn [pc_pending_ipis set_room0]. rewrite Hpend. by constructor.
    + right; left. auto.
  - assert (∀ p', inside d (f_full (facts_of d (sy_smp y) st)) p' →
      in_round h d (<[c := 3%nat]> st) {| sy_smp := sy_smp y; sy_stack := <[c := [FAction p'] ++ FHandler (HLoop b) :: k']> (sy_stack y) |} todo) as Hstay.
    { intros p' Hp'. apply member_stay; try done; try lia; [by left|]. rewrite Hpend. by constructor. }
    destruct p; cbn in Hin; try done.
    + eapply (Hgo _ _ _ 3%nat); [done| |left; split; [done|lia]]. apply Hstay.
      destruct (smp_room0 (sy_smp y) <? smp_ncpus (sy_smp y)) eqn:Elt; [done|]. by apply waited.
    + eapply (Hgo _ _ _ 3%nat); [done| |left; split; [done|lia]]. by apply Hstay.
    + eapply (Hgo _ _ _ 3%nat); [done| |left; split; [done|lia]]. destruct Hin as [? ->]. by apply Hstay.
    + destruct Hin as (Hfull & -> & ->). eapply (Hgo _ _ _ 4%nat); [done| |].
      * apply member_stay; try done; try lia; [by left|]. rewrite Hpend. by constructor.
      * right; right. auto.
  - eapply (Hgo _ _ _ 5%nat); [done| |left; split; [done|lia]].
    apply (member_move _ _ _ _ _ c _ _ 5%nat); try done; try lia.
    + intros E. rewrite cnt_insert_same by lia. done.
    + intros E. rewrite cnt_insert_up by (apply mlist_NoDup || done || lia). cbn. by rewrite E, u32_next.
    + cbn [pc_pending_ipis set_room1]. rewrite Hpend. constructor. by apply passive_loop.
Qed.

Context (Hnodup : NoDup pcpu_all).

(** The initiator calls the next CPU of the list. *)
Lemma send_step h d st y p l :
  in_round h d st y (p :: l) → ready (facts_of d (sy_smp y) st) → (p :: l) `suffix_of` pcpu_all → st h = 0%nat →
  let n := count_cpus (rq_cpus d) in
  let s' := send_ipi_one (Z.ldiff (rq_cpus d) (Z.shiftl 1 h)) IPI_TRYST p (sy_smp y) in
  ∃ st', in_round h d st' {| sy_smp := s'; sy_stack := <[h := [FRendezvous d n (RSend l)]]> (sy_stack y) |} l ∧
    ∀ c, st' c = st c ∨ (st c = 0%nat ∧ st' c = 1%nat).
Proof.
  intros HI Hready Hsuf Hh0. pose proof HI as [].
  assert (p ∈ pcpu_all) as Hp by (destruct Hsuf as [l0 ->]; set_solver).
  assert (l `suffix_of` pcpu_all) as Hsuf' by (eapply suffix_cons_l, Hsuf).
  assert (p ∉ l) as Hpl.
  { destruct Hsuf as [l0 El]. rewrite El in Hnodup. apply NoDup_app in Hnodup as (_ & _ & Hn). by apply NoDup_cons in Hn as [? _]. }
  pose proof (Hcpus _ Hp). pose proof (Hcpus _ ir_online0).
  cbv zeta. unfold send_ipi_one. rewrite cpu_in_others by lia.
  assert (p ≠ h → st p = 0%nat) as Hp0.
  { intros Hph. destruct (decide (st p = 0%nat)) as [|Hst]; [done|]. apply ir_todo0; [apply (ir_stage0 _ Hst)|done|done|left]. }
  destruct (cpu_in (rq_cpus d) p && negb (bool_decide (p = h))) eqn:Ein.
  - apply andb_prop in Ein as [Ein Eh]. apply negb_true_iff, bool_decide_eq_false in Eh.
    assert (p ∈ mlist d) as Hpm by (by apply elem_of_mlist). specialize (Hp0 Eh).
    assert (∀ k, (2 ≤ k)%nat → cnt (mlist d) (<[p := 1%nat]> st) k = cnt (mlist d) st k) as Hcnt.
    { intros k Hk. apply cnt_insert_same. lia. }
    exists (<[p := 1%nat]> st). split.
    2: { intros c. destruct (decide (c = p)) as [->|]; [right; by rewrite fn_lookup_insert|left; by apply fn_lookup_insert_ne]. }
    split; cbn [sy_smp sy_stack set_pending pc_pending_ipis smp_lock]; try done.
    + rewrite fn_lookup_insert_ne, fn_lookup_insert, Hh0 by done. constructor; [|done].
      destruct Hready as (?&?&?&Hr0&Hr1). unfold ready, facts_of. cbn. rewrite !Hcnt by lia. done.
    + by rewrite fn_lookup_insert_ne.
    + intros c Hc. rewrite (fn_lookup_insert_ne (sy_stack y)) by done. destruct (decide (c = p)) as [->|Hcp].
      * rewrite !fn_lookup_insert, tryst_lor_tryst. constructor.
        pose proof (ir_others0 p Hc) as Hm. rewrite Hp0 in Hm. by inversion Hm.
      * rewrite !fn_lookup_insert_ne by done. eapply member_at_mono; [|by apply ir_others0].
        cbn. intros Hf. apply cnt_mono_full; [lia|done].
    + intros c. destruct (decide (c = p)) as [->|Hcp]; [done|]. rewrite fn_lookup_insert_ne by done. eauto.
    + intros c Hc1 Hc2 Hc3. destruct (decide (c = p)) as [->|Hcp].
      * rewrite fn_lookup_insert. done.
      * rewrite fn_lookup_insert_ne, ir_todo0 by done. rewrite elem_of_cons. tauto.
    + intros c. destruct (decide (c = p)) as [->|Hcp]; [|by rewrite fn_lookup_insert_ne].
      rewrite fn_lookup_insert. apply lor_range; [done|]. by rewrite IPI_TRYST_val.
  - assert (p = h ∨ p ∉ mlist d) as Hno.
    { apply andb_false_iff in Ein as [Ein|Ein]; [right; rewrite elem_of_mlist; intros [? _]; congruence|left].
      by apply negb_false_iff, bool_decide_eq_true in Ein. }
    exists st. split; [|by left]. split; cbn [sy_smp sy_stack]; try done.
    + rewrite fn_lookup_insert, Hh0. by constructor.
    + intros c Hc. rewrite fn_lookup_insert_ne by done. eauto.
    + intros c Hc1 Hc2 Hc3. rewrite ir_todo0 by done. rewrite elem_of_cons.
      split; [|by right]. intros [->|?]; [by destruct Hno|done].
Qed.

Lemma holder_in_mask h d st y todo : in_round h d st y todo → cpu_in (rq_cpus d) h = true ↔ h ∈ mlist d.
Proof.
  intros HI. rewrite elem_of_mlist. pose proof (Hcpus h (ir_online _ _ _ _ _ HI)). tauto.
Qed.

(** All CPUs are done: the system is between two rendezvous again. *)
Lemma unlock_step h d st y todo :
  in_round h d st y todo → f_done (facts_of d (sy_smp y) st) →
  no_round {| sy_smp := set_lock false (sy_smp y); sy_stack := <[h := []]> (sy_stack y) |}.
Proof.
  intros [] Hdone. split; [done| |done]. intros c. cbn [sy_smp sy_stack set_lock pc_pending_ipis].
  destruct (decide (c = h)) as [->|Hc].
  - rewrite fn_lookup_insert. split; [by apply passive_base, base_nil|done].
  - rewrite fn_lookup_insert_ne by done. pose proof (ir_others0 c Hc) as Hm.
    destruct (decide (st c = 0%nat)) as [E|E]; [rewrite E in Hm; by inversion Hm|].
    pose proof (Hdone c (proj1 (ir_stage0 c E))). inversion Hm; (lia || done).
Qed.

(** A step of the initiator that goes to stage [v] and calls nobody. *)
Lemma holder_go h d st y todo f k s' fs e v :
  in_round h d st y todo → sy_stack y h = f :: k →
  frame_step MDX_CPU_MAX pcpu_all h f (sy_smp y) = Ok (s', fs, e) →
  (st h ≤ v)%nat → (v ≠ 0%nat → h ∈ mlist d) → smp_lock s' = true →
  pc_pending_ipis s' = pc_pending_ipis (sy_smp y) →
  holder_at h d (facts_of d s' (<[h := v]> st)) v (fs ++ k) todo →
  shows d (f_full (facts_of d (sy_smp y) st)) h (st h) v e →
  ∃ y' e, cpu_step h y = Ok (y', e) ∧
    ((∃ st' todo', in_round h d st' y' todo' ∧ (∀ c, c ≠ h → st' c = st c ∨ (st c = 0%nat ∧ st' c = 1%nat)) ∧
        shows d (f_full (facts_of d (sy_smp y) st)) h (st h) (st' h) e) ∨
     (e = [Unlocked h] ∧ f_done (facts_of d (sy_smp y) st) ∧ no_round y')).
Proof.
  intros HI Ek E Hv H0 El Hp Hh Hs. unfold cpu_step, Smp.cpu_step. rewrite Ek, E. do 2 eexists. split; [done|].
  left. exists (<[h := v]> st), todo. split_and!.
  - by eapply holder_move.
  - intros c Hc. left. by rewrite fn_lookup_insert_ne.
  - by rewrite fn_lookup_insert.
Qed.

(** Setting the variables before the first call. *)
Lemma zero_cnt h d st y : in_round h d st y pcpu_all → st h = 0%nat → ∀ k, (0 < k)%nat → cnt (mlist d) st k = 0.
Proof.
  intros [] Hh k Hk. apply cnt_zero; [|done]. intros c Hc.
  destruct (decide (st c = 0%nat)) as [|E]; [done|]. destruct (ir_stage0 c E) as [_ Hon].
  destruct (decide (c = h)) as [->|]; [done|]. by apply ir_todo0.
Qed.

Lemma insert_same_stage (st : Z → nat) h M k : cnt M (<[h := st h]> st) k = cnt M st k.
Proof. by apply cnt_insert_same. Qed.

Lemma holder_step h d st y todo :
  in_round h d st y todo →
  ∃ y' e, cpu_step h y = Ok (y', e) ∧
    ((∃ st' todo', in_round h d st' y' todo' ∧ (∀ c, c ≠ h → st' c = st c ∨ (st c = 0%nat ∧ st' c = 1%nat)) ∧
        shows d (f_full (facts_of d (sy_smp y) st)) h (st h) (st' h) e) ∨
     (e = [Unlocked h] ∧ f_done (facts_of d (sy_smp y) st) ∧ no_round y')).
Proof.
  intros HI. pose proof (ir_holder _ _ _ _ _ HI) as Hh. pose proof (ir_lock _ _ _ _ _ HI) as Hlock.
  pose proof (holder_in_mask _ _ _ _ _ HI) as Hmask. pose proof (zero_cnt h d st y) as Hz.
  assert (ready (facts_of d (sy_smp y) st) → ready (facts_of d (sy_smp y) (<[h := st h]> st))) as Hsame.
  { unfold ready, facts_of; cbn. by rewrite !insert_same_stage. }
  set (SH := shows d (f_full (facts_of d (sy_smp y) st)) h (st h)) in *.
  inversion Hh as [Est Ek|Hf Est Ek|Hf Ha Est Ek|Hf Ha Hn Est Ek|Hf Ha Hn Hr1 Est Ek|l Hr Hsuf Est Ek|Hr Est Ek|Hr Hm Est Ek
    |p Hr Hm Hin Est Ek|Hr Hm Est Ek|u Hr Eu Est Ek|u Hr Hd Eu Est Ek]; subst; symmetry in Ek.
  - eapply (holder_go _ _ _ _ _ _ _ _ _ _ (st h) HI Ek); [done|done|lia|done|done| |left; split; [done|lia]].
    rewrite <- Est. by constructor.
  - eapply (holder_go _ _ _ _ _ _ _ _ _ _ (st h) HI Ek); [done|done|lia|done|done| |left; split; [done|lia]].
    rewrite <- Est. by constructor.
  - eapply (holder_go _ _ _ _ _ _ _ _ _ _ (st h) HI Ek); [done|done|lia|done|done| |left; split; [done|lia]].
    rewrite <- Est. by constructor.
  - eapply (holder_go _ _ _ _ _ _ _ _ _ _ (st h) HI Ek); [done|done|lia|done|done| |left; split; [done|lia]].
    rewrite <- Est. constructor; try done. cbn. rewrite cnt_insert_same by lia. rewrite Hz; done || lia.
  - eapply (holder_go _ _ _ _ _ _ _ _ _ _ (st h) HI Ek).
    + cbn [frame_step rendezvous_step]. unfold kassert. destruct (Z.leb_spec MDX_CPU_MAX 32); [|lia].
      case_bool_decide as E; [|done]. pose proof (ir_online _ _ _ _ _ HI) as Hon. rewrite E in Hon. by apply not_elem_of_nil in Hon.
    + done.
    + lia.
    + done.
    + done.
    + rewrite <- Est. constructor; [|done]. unfold ready, facts_of in *. cbn in *. rewrite !cnt_insert_same by lia.
      rewrite Hz; done || lia.
    + left; split; [done|lia].
  - destruct todo as [|p l].
    + eapply (holder_go _ _ _ _ _ _ _ _ _ _ (st h) HI Ek); [done|done|lia|done|done| |left; split; [done|lia]].
      rewrite <- Est at 2. constructor. by apply Hsame.
    + destruct (send_step h d st y p l HI Hr Hsuf) as (st' & HI' & Hst'); [done|].
      unfold cpu_step, Smp.cpu_step. rewrite Ek. do 2 eexists. split; [done|]. left. exists st', l.
      split; [exact HI'|]. split; [intros c _; apply Hst'|]. left. split; [done|].
      destruct (Hst' h) as [->| [? ->]]; lia.
  - destruct (cpu_in (rq_cpus d) h) eqn:Em.
    + eapply (holder_go _ _ _ _ _ _ _ _ _ _ 2%nat HI Ek); [cbn; by rewrite Em|lia|tauto|done|done| |left; split; [done|lia]].
      constructor; [|tauto]. unfold ready, facts_of in *. cbn in *. rewrite !cnt_insert_same by lia. done.
    + eapply (holder_go _ _ _ _ _ _ _ _ _ _ (st h) HI Ek); [cbn; by rewrite Em|done|lia|done|done| |left; split; [done|lia]].
      constructor; [by apply Hsame|]. by rewrite Em.
  - eapply (holder_go _ _ _ _ _ _ _ _ _ _ 3%nat HI Ek); [done|lia|done|done|done| |].
    + constructor; [|done|done]. destruct Hr as (?&?&?&Hr0&Hr1). unfold ready, facts_of in *. cbn in *.
      rewrite cnt_insert_up by (apply mlist_NoDup || done || lia). rewrite cnt_insert_same by lia.
      rewrite Hr0, u32_next. done.
    + right; left. auto.
  - assert (∀ p', inside d (f_full (facts_of d (sy_smp y) st)) p' →
      holder_at h d (facts_of d (sy_smp y) (<[h := 3%nat]> st)) 3 ([FAction p'] ++ [FRendezvous d (count_cpus (rq_cpus d)) RWait]) []) as Hstay.
    { intros p' Hp'. constructor; [rewrite Est; by apply Hsame|done|].
      eapply inside_mono; [|exact Hp']. cbn. apply cnt_mono_full. lia. }
    destruct p; cbn in Hin; try done.
    + eapply (holder_go _ _ _ _ _ _ _ _ _ _ 3%nat HI Ek); [done|lia|done|done|done| |left; split; [done|lia]]. apply Hstay.
      destruct (smp_room0 (sy_smp y) <? smp_ncpus (sy_smp y)) eqn:Elt; [done|]. by apply waited; try apply Hr.
    + eapply (holder_go _ _ _ _ _ _ _ _ _ _ 3%nat HI Ek); [done|lia|done|done|done| |left; split; [done|lia]]. apply Hstay. destruct Hr as (?&_). by split.
    + eapply (holder_go _ _ _ _ _ _ _ _ _ _ 3%nat HI Ek); [done|lia|done|done|done| |left; split; [done|lia]].
      destruct Hin as [? ->]. apply Hstay. destruct Hr as (_&?&_). by split_and!.
    + destruct Hin as (Hfull & -> & ->). eapply (holder_go _ _ _ _ _ _ _ _ _ _ 4%nat HI Ek); [done|lia|done|done|done| |].
      * constructor; [|done]. unfold ready, facts_of in *. cbn in *. rewrite !cnt_insert_same by lia. done.
      * right; right. auto.
  - eapply (holder_go _ _ _ _ _ _ _ _ _ _ 5%nat HI Ek); [done|lia|done|done|done| |left; split; [done|lia]].
    apply h_wait; [|by rewrite (proj2 Hmask Hm)]. destruct Hr as (?&?&?&Hr0&Hr1). unfold ready, facts_of in *. cbn in *.
    rewrite (cnt_insert_up _ _ 5) by (apply mlist_NoDup || done || lia). rewrite (cnt_insert_same _ _ 3) by lia.
    rewrite Hr1, u32_next. done.
  - eapply (holder_go _ _ _ _ _ _ _ _ _ _ (st h) HI Ek); [done|done| |done|done| |left; split; [done|lia]].
    { rewrite Eu. destruct (cpu_in (rq_cpus d) h); tauto. }
    destruct (smp_room1 (sy_smp y) <? count_cpus (rq_cpus d)) eqn:Elt.
    + apply h_wait; [by apply Hsame|done].
    + apply h_unlock; [by apply Hsame| |done]. destruct Hr as (?&?&?&Hr0&Hr1). cbn in *.
      apply cnt_mono_full; [lia|]. apply cnt_full. rewrite Hr1, count_cpus_length in Elt. apply Z.ltb_ge in Elt.
      pose proof (cnt_bound (mlist d) st 5). lia.
  - unfold cpu_step, Smp.cpu_step. rewrite Ek. cbn [frame_step rendezvous_step]. rewrite Hlock.
    do 2 eexists. split; [done|]. right. split; [done|]. split; [exact Hd|]. by eapply unlock_step.
Qed.

(** ** Between two rendezvous *)

Lemma idle_move y c s' k' :
  no_round y → passive k' → smp_lock s' = false →
  (∀ x, x ≠ c → pc_pending_ipis s' x = pc_pending_ipis (sy_smp y) x) →
  tryst (pc_pending_ipis s' c) = false → 0 ≤ pc_pending_ipis s' c < 2 ^ 32 →
  no_round {| sy_smp := s'; sy_stack := <[c := k']> (sy_stack y) |}.
Proof.
  intros [Hl Hc Hr] Hp El Ho Ht Hrg. split; cbn [sy_smp sy_stack]; [done| |]; intros x; destruct (decide (x = c)) as [->|Hx].
  - by rewrite fn_lookup_insert.
  - by rewrite fn_lookup_insert_ne, Ho.
  - done.
  - by rewrite Ho.
Qed.

(** The lock is taken: a rendezvous begins. *)
Lemma lock_step c r y k :
  no_round y → c ∈ pcpu_all → sy_stack y c = k → base k → k = [FRendezvous r (count_cpus (rq_cpus r)) RTrylock] →
  in_round c r (λ _, 0%nat)
    {| sy_smp := set_lock true (sy_smp y); sy_stack := <[c := [FRendezvous r (count_cpus (rq_cpus r)) RFunc]]> (sy_stack y) |}
    pcpu_all.
Proof.
  intros [Hl Hc Hr] Hon Ek Hb ->. inversion Hb. split; cbn [sy_smp sy_stack set_lock pc_pending_ipis smp_lock]; try done.
  - rewrite fn_lookup_insert. constructor.
  - apply Hc.
  - intros x Hx. rewrite fn_lookup_insert_ne by done. destruct (Hc x) as [? ->]. by constructor.
Qed.

Lemma idle_step y c :
  no_round y → c ∈ pcpu_all → sy_stack y c ≠ [] →
  ∃ y' e, cpu_step c y = Ok (y', e) ∧
    ((e = [] ∧ no_round y') ∨ (∃ r, e = [Locked c r] ∧ in_round c r (λ _, 0%nat) y' pcpu_all)).
Proof.
  intros HN Hon Hne. pose proof (nr_cpus _ HN c) as [Hp Ht]. unfold cpu_step, Smp.cpu_step.
  destruct (sy_stack y c) as [|f k] eqn:Ek; [done|].
  destruct (smp_lock (sy_smp y)) eqn:El; [by rewrite (nr_lock _ HN) in El|].
  assert ((∃ r n, f = FRendezvous r n RTrylock) ∨ ∀ r n, f ≠ FRendezvous r n RTrylock) as [(r & n & ->)|Hf].
  { destruct f as [?|r n []|?]; try (by right); left; eauto. }
  - inversion Hp as [? Hb| |]; subst. inversion Hb; subst. cbn [frame_step rendezvous_step]. rewrite El.
    do 2 eexists. split; [done|]. right. exists r. split; [done|]. by apply (lock_step c r y _ HN Hon Ek).
  - destruct (passive_step c f k (sy_smp y) Hp (nr_range _ HN c)) as (s' & fs & -> & Hs).
    { intros r n ->. by destruct (Hf r n). }
    do 2 eexists. split; [done|]. left. split; [done|]. rewrite Ht in Hs.
    destruct Hs as [[-> Hp']|[-> Hp']].
    + apply (idle_move _ c); try done. apply (nr_range _ HN).
    + apply (idle_move _ c); try done; cbn.
      * intros x Hx. by rewrite fn_lookup_insert_ne.
      * by rewrite fn_lookup_insert.
      * rewrite fn_lookup_insert. lia.
Qed.

(** ** The simulation *)

Abbreviation run := (Spec.run MDX_CPU_MAX).

Lemma run_one o e o' : Spec.next MDX_CPU_MAX o e o' → run o [e] o'.
Proof. intros. econstructor; [done|constructor]. Qed.

Definition stages_match (d : Spec.round) (st : Z → nat) : Prop :=
  (∀ c, c ∈ Spec.ro_entered d ↔ c ∈ mlist (Spec.ro_request d) ∧ (3 ≤ st c)%nat) ∧
  (∀ c, c ∈ Spec.ro_called d ↔ c ∈ mlist (Spec.ro_request d) ∧ (4 ≤ st c)%nat).

(** A step that shows [e] is one of the specification. *)
Lemma shows_run d st st' c y' todo' e :
  stages_match d st →
  in_round (Spec.ro_initiator d) (Spec.ro_request d) st' y' todo' →
  (∀ x, x ≠ c → st' x = st x ∨ (st x = 0%nat ∧ st' x = 1%nat)) →
  shows (Spec.ro_request d) (∀ x, x ∈ mlist (Spec.ro_request d) → (3 ≤ st x)%nat) c (st c) (st' c) e →
  ∃ o', run (Some d) e o' ∧ represents y' o'.
Proof.
  intros [He Hc] HI Hst Hs.
  assert (∀ x, x ≠ c → ((3 ≤ st x)%nat ↔ (3 ≤ st' x)%nat) ∧ ((4 ≤ st x)%nat ↔ (4 ≤ st' x)%nat)) as Ho.
  { intros x Hx. destruct (Hst x Hx) as [->|[-> ->]]; lia. }
  destruct Hs as [(-> & H3 & H4)|[(-> & H2 & H3 & Hm)|(-> & H3 & H4 & Hfull & Hm)]].
  - exists (Some d). split; [constructor|]. exists st', todo'. split; [done|].
    split; intros x; destruct (decide (x = c)) as [->|Hx]; rewrite ?He, ?Hc; [rewrite H3|rewrite (proj1 (Ho x Hx))|rewrite H4|rewrite (proj2 (Ho x Hx))]; done.
  - eexists. split.
    + apply run_one, Spec.NEntered; [by apply elem_of_members|]. rewrite He. lia.
    + exists st', todo'. split; [done|]. split; intros x; cbn; [rewrite elem_of_union, elem_of_singleton, He|rewrite Hc];
        (destruct (decide (x = c)) as [->|Hx]; [rewrite ?H2, ?H3; naive_solver lia
          |destruct (Ho x Hx) as [Ha Hb]; rewrite ?Ha, ?Hb; tauto]).
  - eexists. split.
    + apply run_one, Spec.NCalled; [by apply elem_of_members| |].
      * apply set_eq. intros x. rewrite He, elem_of_members. split; [tauto|]. auto.
      * rewrite Hc. lia.
    + exists st', todo'. split; [done|]. split; intros x; cbn; [rewrite He|rewrite elem_of_union, elem_of_singleton, Hc];
        (destruct (decide (x = c)) as [->|Hx]; [rewrite ?H3, ?H4; naive_solver lia
          |destruct (Ho x Hx) as [Ha Hb]; rewrite ?Ha, ?Hb; tauto]).
Qed.

(** A CPU in this code can go on, and its step is one of the specification. *)
Lemma cpu_step_sim y o c :
  represents y o → c ∈ pcpu_all → sy_stack y c ≠ [] →
  ∃ y' e o', cpu_step c y = Ok (y', e) ∧ run o e o' ∧ represents y' o'.
Proof.
  intros HR Hon Hne. destruct o as [d|]; cbn in HR.
  - destruct HR as (st & todo & HI & Hm). destruct (decide (c = Spec.ro_initiator d)) as [->|Hc].
    + destruct (holder_step _ _ _ _ _ HI) as (y' & e & E & [(st' & todo' & HI' & Hst & Hs)|(-> & Hd & HN)]); exists y'.
      * destruct (shows_run _ _ _ _ _ _ _ Hm HI' Hst Hs) as (o' & Hrun & HR'). eauto.
      * exists [Unlocked (Spec.ro_initiator d)], None. split; [done|]. split; [|done].
        apply run_one, Spec.NUnlocked, set_eq. intros x. rewrite (proj2 Hm), elem_of_members.
        split; [tauto|]. intros Hx. split; [done|]. pose proof (Hd x Hx). cbn in *. lia.
    + destruct (member_step _ _ _ _ _ c HI Hc Hon Hne) as (y' & e & v & E & HI' & Hs). exists y', e.
      destruct (shows_run d st (<[c := v]> st) c y' todo e) as (o' & Hrun & HR'); try done.
      * intros x Hx. left. by rewrite fn_lookup_insert_ne.
      * by rewrite fn_lookup_insert.
      * eauto.
  - destruct (idle_step y c HR Hon Hne) as (y' & e & E & [[-> HN]|(r & -> & HI)]); exists y'.
    + exists [], None. split; [done|]. split; [constructor|done].
    + eexists [_], (Some _). split; [done|]. split; [apply run_one; constructor|].
      exists (λ _, 0%nat), pcpu_all. split; [done|]. split; intros x; cbn; rewrite elem_of_empty; lia || (split; [done|lia]).
Qed.

(** Other code: an interrupt, a call, a notification. *)
Lemma push_sim y o c k' :
  represents y o → c ∈ pcpu_all → sy_stack y c = [] → passive k' →
  represents {| sy_smp := sy_smp y; sy_stack := <[c := k']> (sy_stack y) |} o.
Proof.
  intros HR Hon Ek Hp. destruct o as [d|]; cbn in *.
  - destruct HR as (st & todo & HI & Hm).
    assert (c ≠ Spec.ro_initiator d) as Hc.
    { intros ->. pose proof (ir_holder _ _ _ _ _ HI) as Hh. rewrite Ek in Hh. inversion Hh. }
    exists (<[c := st c]> st), todo. split.
    + apply member_stay; try done; try lia; [by left|]. pose proof (ir_others _ _ _ _ _ HI c Hc) as Hm'. rewrite Ek in Hm'.
      inversion Hm'; by constructor.
    + assert (∀ x, <[c := st c]> st x = st x) as Hid.
      { intros x. destruct (decide (x = c)) as [->|]; [apply fn_lookup_insert|by apply fn_lookup_insert_ne]. }
      destruct Hm as [He Hc']. split; intros x; rewrite Hid; auto.
  - apply (idle_move _ c); try done; try apply HR.
Qed.

Lemma notify_sim y o c :
  represents y o → c ∈ pcpu_all →
  represents {| sy_smp := send_ipi_one (Z.shiftl 1 c) IPI_IPI c (sy_smp y); sy_stack := sy_stack y |} o.
Proof.
  intros HR Hon. unfold send_ipi_one. destruct (cpu_in _ _); [|by destruct y].
  assert (∀ x, tryst (pc_pending_ipis (set_pending c (Z.lor (pc_pending_ipis (sy_smp y) c) IPI_IPI) (sy_smp y)) x) =
               tryst (pc_pending_ipis (sy_smp y) x)) as Ht.
  { intros x. cbn. destruct (decide (x = c)) as [->|]; [by rewrite fn_lookup_insert, tryst_lor_ipi|by rewrite fn_lookup_insert_ne]. }
  assert ((∀ x, 0 ≤ pc_pending_ipis (sy_smp y) x < 2 ^ 32) →
    ∀ x, 0 ≤ pc_pending_ipis (set_pending c (Z.lor (pc_pending_ipis (sy_smp y) c) IPI_IPI) (sy_smp y)) x < 2 ^ 32) as Hr.
  { intros Hr x. cbn. destruct (decide (x = c)) as [->|]; [|by rewrite fn_lookup_insert_ne].
    rewrite fn_lookup_insert. by apply lor_range. }
  destruct o as [d|]; cbn in HR |- *.
  - destruct HR as (st & todo & [] & Hm). exists st, todo. split; [|done].
    split; cbn [sy_smp sy_stack]; try done; try (by rewrite Ht); try (by apply Hr). intros x Hx. rewrite Ht. by apply ir_others0.
  - destruct HR as [Hl Hc Hr']. split; cbn [sy_smp sy_stack]; [done| |by apply Hr]. intros x. rewrite Ht. apply Hc.
Qed.

Lemma step_sim y e y' o : represents y o → step y e y' → ∃ o', run o e o' ∧ represents y' o'.
Proof.
  intros HR Hs. destruct Hs as [c y y' e Hon E|c y Hon Ek|c r critnest f y Hon Ek Ef|c y Hon].
  - assert (sy_stack y c ≠ []) as Hne by (intros Ek; unfold Smp.cpu_step in E; by rewrite Ek in E).
    destruct (cpu_step_sim y o c HR Hon Hne) as (y2 & e2 & o' & E2 & Hrun & HR').
    rewrite E in E2. injection E2 as <- <-. eauto.
  - exists o. split; [constructor|]. apply push_sim; try done. apply passive_read. constructor.
  - exists o. split; [constructor|]. apply push_sim; try done. unfold smp_rendezvous_cpus, kassert in Ef.
    destruct (0 <? critnest); [|done]. cbn [mbind res_bind] in Ef. destruct (Z.eqb_spec (count_cpus (rq_cpus r)) 0); [done|].
    injection Ef as <-. by apply passive_base, base_try.
  - exists o. split; [constructor|]. by apply notify_sim.
Qed.

Lemma run_app o e o' e' o'' : run o e o' → run o' e' o'' → run o (e ++ e') o''.
Proof. induction 1; [done|]. intros. econstructor; eauto. Qed.

Lemma steps_sim y e y' o : represents y o → steps MDX_CPU_MAX pcpu_all y e y' → ∃ o', run o e o' ∧ represents y' o'.
Proof.
  intros HR Hs. revert o HR. induction Hs as [|y e y1 e' y' H1 _ IH]; intros o HR; [exists o; split; [constructor|done]|].
  destruct (step_sim _ _ _ _ HR H1) as (o1 & Hr1 & HR1). destruct (IH _ HR1) as (o2 & Hr2 & HR2).
  exists o2. split; [by eapply run_app|done].
Qed.

Lemma smp_init_represents func arg ncpus room0 room1 : represents (smp_init func arg ncpus room0 room1) None.
Proof. split; [done|intros c; split; [by apply passive_base, base_nil|done]|]. intros c. cbn. lia. Qed.

End Invariant.
