(* ===== verification/SmpTheorems.v ===== *)
(** * Rendezvous of the CPUs: what is guaranteed

    Every execution is one of the specification, no CPU fails, and the CPUs can
    always bring the rendezvous in progress and those that wait to an end. *)

From S2P Require Import Prelude StringScan Smp SmpProofs.
Local Open Scope Z_scope.

#[local] Arguments Z.testbit : simpl never.

Section Liveness.
Context (MDX_CPU_MAX : Z) (pcpu_all : list Z).
Context (HMAX : 0 ≤ MDX_CPU_MAX ≤ 32).
Context (Hcpus : ∀ c, c ∈ pcpu_all → 0 ≤ c < MDX_CPU_MAX).
Context (Hnodup : NoDup pcpu_all).

Abbreviation cpu_step := (cpu_step MDX_CPU_MAX pcpu_all).
Abbreviation frame_step := (frame_step MDX_CPU_MAX pcpu_all).
Abbreviation steps := (steps MDX_CPU_MAX pcpu_all).
Abbreviation represents := (represents MDX_CPU_MAX pcpu_all).
Abbreviation mlist := (mlist MDX_CPU_MAX).

(** ** A measure: the work that is left *)

Definition action_weight (p : action_pc) : Z :=
  match p with AEnter => 6 | AWait => 5 | AFunc => 4 | AArg _ => 3 | ACall _ _ => 2 | ALeave => 1 end.
Definition rendezvous_weight (p : rendezvous_pc) : Z :=
  let n := 25 * Z.of_nat (length pcpu_all) in
  match p with
  | RTrylock => 30 + n | RFunc => 29 + n | RArg => 28 + n | RNcpus => 27 + n | RRoom1 => 26 + n | RRoom0 => 25 + n
  | RSend l => 20 + 25 * Z.of_nat (length l)
  | RSelf => 15 | RWait => 5 | RUnlock => 3
  end.
Definition handler_weight (p : handler_pc) : Z := match p with HRead => 2 | HLoop b => 1 + 10 * Z.max 0 b end.
Definition frame_weight (f : frame) : Z :=
  match f with FAction p => action_weight p | FRendezvous _ _ p => rendezvous_weight p | FHandler p => handler_weight p end.
Definition stack_weight (k : list frame) : Z := zsum (frame_weight <$> k).
Definition pending_weight (b : Z) : Z := 10 * Z.max 0 b + (if b =? 0 then 0 else 3).

Definition sum_cpus (g : Z → Z) : Z := zsum (g <$> pcpu_all).
Definition work (y : system) : Z :=
  sum_cpus (λ c, stack_weight (sy_stack y c)) + sum_cpus (λ c, pending_weight (pc_pending_ipis (sy_smp y) c)).

Lemma sum_insert {A} (w : A → Z) (g : Z → A) c v : c ∈ pcpu_all →
  sum_cpus (λ x, w (<[c := v]> g x)) = sum_cpus (λ x, w (g x)) - w (g c) + w v.
Proof.
  unfold sum_cpus. clear Hcpus. induction Hnodup as [|x l Hx Hl IH]; intros Hc; [by apply not_elem_of_nil in Hc|].
  rewrite !fmap_cons. cbn [zsum]. apply elem_of_cons in Hc as [<-|Hc].
  - rewrite fn_lookup_insert. enough (zsum ((λ x, w (<[c := v]> g x)) <$> l) = zsum ((λ x, w (g x)) <$> l)) as -> by lia.
    f_equal. apply list_fmap_ext. intros i x Hi. rewrite fn_lookup_insert_ne; [done|]. intros ->.
    apply Hx, list_elem_of_lookup. eauto.
  - rewrite fn_lookup_insert_ne by (intros ->; done). rewrite IH by done. lia.
Qed.

Lemma sum_insert_out {A} (w : A → Z) (g : Z → A) c v : c ∉ pcpu_all → sum_cpus (λ x, w (<[c := v]> g x)) = sum_cpus (λ x, w (g x)).
Proof.
  intros Hc. unfold sum_cpus. f_equal. apply list_fmap_ext. intros i x Hi. rewrite fn_lookup_insert_ne; [done|].
  intros ->. apply Hc, list_elem_of_lookup. eauto.
Qed.

Lemma pending_weight_lor b : 0 ≤ b → pending_weight (Z.lor b IPI_TRYST) ≤ pending_weight b + 23.
Proof.
  intros Hb. unfold pending_weight. assert (Z.lor b IPI_TRYST ≤ b + 2).
  { rewrite IPI_TRYST_val. pose proof (Z.add_lor_land b 2). pose proof (Z.land_nonneg b 2). lia. }
  assert (0 ≤ Z.lor b IPI_TRYST) by (apply Z.lor_nonneg; rewrite IPI_TRYST_val; lia).
  destruct (Z.eqb_spec (Z.lor b IPI_TRYST) 0), (Z.eqb_spec b 0); lia.
Qed.

(** A CPU that waits for the others. *)
Definition spins (f : frame) (s : smp) : bool :=
  match f with
  | FAction AWait => smp_room0 s <? smp_ncpus s
  | FRendezvous _ n RWait => smp_room1 s <? n
  | FRendezvous _ _ RTrylock => smp_lock s
  | _ => false
  end.

Definition bitmaps_ok (y : system) : Prop :=
  (∀ c, 0 ≤ pc_pending_ipis (sy_smp y) c < 2 ^ 32) ∧ ∀ c b k, sy_stack y c = FHandler (HLoop b) :: k → 0 ≤ b < 2 ^ 32.

Lemma represents_bitmaps y o : represents y o → bitmaps_ok y.
Proof.
  assert (∀ b k, passive MDX_CPU_MAX (FHandler (HLoop b) :: k) → 0 ≤ b < 2 ^ 32) as Hp.
  { intros b k H. inversion H as [? Hb| |]; [inversion Hb|done]. }
  destruct o as [d|]; cbn.
  - intros (st & todo & [] & _). split; [done|]. intros c b k Ek. destruct (decide (c = Spec.ro_initiator d)) as [->|Hc].
    + rewrite Ek in ir_holder. inversion ir_holder.
    + specialize (ir_others c Hc). rewrite Ek in ir_others. inversion ir_others; subst; eauto.
  - intros [_ Hc Hr]. split; [done|]. intros c b k Ek. destruct (Hc c) as [H _]. rewrite Ek in H. eauto.
Qed.

(** A step that is not a spin does some work. *)
Lemma work_decreases y y' e c f k :
  bitmaps_ok y → c ∈ pcpu_all → sy_stack y c = f :: k → spins f (sy_smp y) = false →
  cpu_step c y = Ok (y', e) → work y' < work y.
Proof.
  intros [Hr Hb] Hon Ek Hs E. unfold Smp.cpu_step in E. rewrite Ek in E.
  destruct (frame_step c f (sy_smp y)) as [[[s' fs] e']|] eqn:Ef; [|done]. injection E as <- <-.
  unfold work. cbn [sy_smp sy_stack]. rewrite (sum_insert stack_weight), Ek by done.
  unfold stack_weight. rewrite fmap_app, zsum_app, fmap_cons. cbn [zsum].
  enough (zsum (frame_weight <$> fs) + sum_cpus (λ c, pending_weight (pc_pending_ipis s' c)) <
          frame_weight f + sum_cpus (λ c, pending_weight (pc_pending_ipis (sy_smp y) c))) by lia.
  destruct f as [p|r n p|p].
  - destruct p; cbn in Ef, Hs; rewrite ?Hs in Ef; injection Ef as <- <- <-; cbn; lia.
  - destruct p as [| | | | | |[|p l]| | |]; cbn in Ef, Hs; rewrite ?Hs in Ef; try (injection Ef as <- <- <-; cbn; lia).
    + unfold kassert in Ef. destruct (MDX_CPU_MAX <=? 32); [|done]. destruct (negb _); [|done].
      injection Ef as <- <- <-. cbn. lia.
    + injection Ef as <- <- <-. cbn [fmap list_fmap zsum frame_weight rendezvous_weight length]. unfold send_ipi_one.
      destruct (cpu_in _ _); [|lia]. cbn [set_pending pc_pending_ipis].
      pose proof (pending_weight_lor (pc_pending_ipis (sy_smp y) p)) as Hw. specialize (Hr p).
      destruct (decide (p ∈ pcpu_all)); [rewrite (sum_insert pending_weight)|rewrite (sum_insert_out pending_weight)]; done || lia.
    + destruct (cpu_in _ _); injection Ef as <- <- <-; cbn; lia.
    + destruct (smp_lock (sy_smp y)); [|done]. injection Ef as <- <- <-. cbn. lia.
  - destruct p as [|b]; cbn [frame_step handler_step] in Ef.
    + injection Ef as <- <- _. cbn [set_pending pc_pending_ipis]. rewrite (sum_insert pending_weight) by done.
      specialize (Hr c). unfold pending_weight at 2 3. destruct (Z.eqb_spec (pc_pending_ipis (sy_smp y) c) 0); cbn; lia.
    + specialize (Hb c b k Ek). destruct (decide (b = 0)) as [->|Hb0]; [injection Ef as <- <- _; cbn; lia|].
      destruct (handler_turn b Hb Hb0) as (i & Ei & Hi & Hle & _). rewrite Ei in Ef. cbn [mbind res_bind] in Ef.
      destruct (Z.eqb_spec (i + 1) 0) as [?|_]; [lia|]. replace (i + 1 - 1) with i in Ef by lia. cbv zeta in Hle.
      set (b' := Z.ldiff b (Z.shiftl 1 i)) in *.
      destruct (Z.shiftl 1 i =? IPI_TRYST); injection Ef as <- <- _; cbn [fmap list_fmap zsum frame_weight handler_weight action_weight]; lia.
Qed.

Lemma work_nonneg y : 0 ≤ work y.
Proof.
  assert (∀ g, (∀ c, 0 ≤ g c) → 0 ≤ sum_cpus g) as Hs.
  { intros g Hg. apply zsum_nonneg, Forall_fmap, Forall_forall. intros x _. apply Hg. }
  unfold work. apply Z.add_nonneg_nonneg; apply Hs; intros c.
  - apply zsum_nonneg, Forall_fmap, Forall_forall. intros f _. destruct f as [p|r n p|p]; cbn; destruct p; cbn; lia.
  - unfold pending_weight. case_match; lia.
Qed.

(** ** Somebody can always work *)

(** The rendezvous in progress and those that wait name CPUs that exist. *)
Definition all_online (y : system) : Prop :=
  ∀ c r n p, FRendezvous r n p ∈ sy_stack y c → ∀ x, x ∈ mlist r → x ∈ pcpu_all.

Lemma cpu_step_online y y' e c : all_online y → cpu_step c y = Ok (y', e) → all_online y'.
Proof.
  intros Ho E. unfold Smp.cpu_step in E. destruct (sy_stack y c) as [|f k] eqn:Ek; [done|].
  destruct (frame_step c f (sy_smp y)) as [[[s' fs] e']|] eqn:Ef; [|done]. injection E as <- <-.
  assert (∀ r n p, FRendezvous r n p ∈ fs → ∃ p', f = FRendezvous r n p') as Hfs.
  { intros r n p Hin. destruct f as [q|r' n' q|q]; cbn in Ef.
    - destruct q; injection Ef as _ <- _; (set_unfold in Hin; naive_solver).
    - assert (∀ s p0 e0, Ok (s, [FRendezvous r' n' p0], e0) = Ok (s', fs, e') → ∃ p', FRendezvous r' n' q = FRendezvous r n p') as Hgo.
      { intros s p0 e0 H. injection H as _ <- _. apply list_elem_of_singleton in Hin. injection Hin as <- <- _. eauto. }
      unfold kassert in Ef. destruct q as [| | | | | |[|? l]| | |]; cbn in Ef; eauto.
      + destruct (smp_lock (sy_smp y)); [injection Ef as _ <- _; (set_unfold in Hin; naive_solver)|eauto].
      + destruct (MDX_CPU_MAX <=? 32); [|done]. destruct (negb _); [|done]. cbn in Ef. eauto.
      + destruct (cpu_in _ _); [injection Ef as _ <- _; (set_unfold in Hin; naive_solver)|eauto].
      + destruct (smp_lock (sy_smp y)); [injection Ef as _ <- _; (set_unfold in Hin; naive_solver)|done].
    - destruct q as [|b]; cbn in Ef; [injection Ef as _ <- _; case_match; (set_unfold in Hin; naive_solver)|].
      destruct (ffs 32 b) as [bit|]; cbn in Ef; [|done].
      destruct (bit =? 0); injection Ef as _ <- _; [(set_unfold in Hin; naive_solver)|case_match; (set_unfold in Hin; naive_solver)]. }
  intros c' r n p Hin. cbn in Hin. destruct (decide (c' = c)) as [->|Hc].
  - rewrite fn_lookup_insert in Hin. apply elem_of_app in Hin as [Hin|Hin].
    + destruct (Hfs _ _ _ Hin) as [p' ->]. apply (Ho c r n p'). rewrite Ek. left.
    + apply (Ho c r n p). rewrite Ek. by right.
  - rewrite fn_lookup_insert_ne in Hin by done. eauto.
Qed.

Lemma steps_one c y y' e : c ∈ pcpu_all → cpu_step c y = Ok (y', e) → steps y e y'.
Proof. intros Hc E. rewrite <- (app_nil_r e). econstructor; [by eapply SCpu|constructor]. Qed.

(** A CPU that is outside or waits for the lock takes its interrupt. *)
Lemma take_interrupt y c k :
  base MDX_CPU_MAX k → c ∈ pcpu_all → sy_stack y c = k → smp_lock (sy_smp y) = true → 0 < pc_pending_ipis (sy_smp y) c →
  all_online y →
  ∃ y', steps y [] y' ∧ work y' < work y ∧ all_online y'.
Proof.
  intros Hb Hc Ek El Hp Ho.
  set (y1 := {| sy_smp := sy_smp y; sy_stack := <[c := FHandler HRead :: k]> (sy_stack y) |}).
  set (y2 := {| sy_smp := set_pending c 0 (sy_smp y);
                sy_stack := <[c := FHandler (HLoop (pc_pending_ipis (sy_smp y) c)) :: k]> (sy_stack y1) |}).
  assert (step MDX_CPU_MAX pcpu_all y [] y1) as H1.
  { destruct Hb as [|r n En Hn]; [by apply SInterrupt|]. eapply SCpu; [exact Hc|].
    unfold Smp.cpu_step. rewrite Ek. cbn [Smp.frame_step rendezvous_step]. by rewrite El. }
  assert (cpu_step c y1 = Ok (y2, [])) as H2.
  { unfold Smp.cpu_step, y1. cbn [sy_stack sy_smp]. rewrite fn_lookup_insert. cbn [Smp.frame_step handler_step mbind res_bind].
    destruct (Z.eqb_spec (pc_pending_ipis (sy_smp y) c) 0); [lia|]. done. }
  exists y2. split; [|split].
  - change (@nil event) with (@nil event ++ []). eapply steps_cons; [exact H1|]. by eapply steps_one.
  - unfold work, y2, y1. cbn [sy_smp sy_stack set_pending pc_pending_ipis].
    rewrite (sum_insert stack_weight), (sum_insert stack_weight), fn_lookup_insert, Ek by done.
    rewrite (sum_insert pending_weight) by done.
    change (stack_weight (?f :: k)) with (frame_weight f + stack_weight k).
    cbn [frame_weight handler_weight].
    unfold pending_weight at 2 3. destruct (Z.eqb_spec (pc_pending_ipis (sy_smp y) c) 0); cbn; lia.
  - eapply cpu_step_online; [|exact H2]. intros c' r n p Hin. unfold y1 in Hin. cbn in Hin.
    destruct (decide (c' = c)) as [->|Hn]; [|rewrite fn_lookup_insert_ne in Hin by done; eauto].
    rewrite fn_lookup_insert in Hin. apply elem_of_cons in Hin as [?|Hin]; [done|]. rewrite <- Ek in Hin. eauto.
Qed.

Definition works (y : system) (c : Z) : bool :=
  match sy_stack y c with [] => false | f :: _ => negb (spins f (sy_smp y)) end.

(** When everybody spins, a rendezvous waits for a CPU that has its interrupt
    pending. *)
Lemma someone_pending y h d st todo :
  in_round MDX_CPU_MAX pcpu_all h d st y todo → all_online y →
  (∀ c, c ∈ pcpu_all → works y c = false) →
  ∃ c k, c ∈ pcpu_all ∧ base MDX_CPU_MAX k ∧ sy_stack y c = k ∧ 0 < pc_pending_ipis (sy_smp y) c.
Proof.
  intros HI Ho Hspin. pose proof HI as []. unfold works in Hspin.
  (* The initiator waits in the room or for the others to leave. *)
  assert (todo = [] ∧ ready (facts_of MDX_CPU_MAX d (sy_smp y) st) ∧ (∀ x, x ∈ mlist d → x ∈ pcpu_all) ∧
    ((st h = 3%nat ∧ spins (FAction AWait) (sy_smp y) = true) ∨
     (h ∈ mlist d → st h = 5%nat) ∧ smp_room1 (sy_smp y) <? count_cpus MDX_CPU_MAX (rq_cpus d) = true))
    as (-> & Hr & Hon & Hh).
  { pose proof (Hspin h ir_online) as Hs.
    assert (∀ p, FRendezvous d (count_cpus MDX_CPU_MAX (rq_cpus d)) p ∈ sy_stack y h → ∀ x, x ∈ mlist d → x ∈ pcpu_all) as Hall.
    { intros p Hp. by apply (Ho h _ _ _ Hp). }
    inversion ir_holder as [Est Ek|Hf Est Ek|Hf Ha Est Ek|Hf Ha Hn Est Ek|Hf Ha Hn Hr1 Est Ek|l Hr Hsuf Est Ek|Hr Est Ek|Hr Hm Est Ek
      |p Hr Hm Hin Est Ek|Hr Hm Est Ek|u Hr Eu Est Ek|u Hr Hd Eu Est Ek]; rewrite <- Ek in Hs, Hall; subst; try done.
    - split; [done|]. split; [done|]. split; [eapply Hall; right; left|]. left. split; [done|].
      destruct p; cbn in Hin, Hs; try done. cbn. by destruct (smp_room0 (sy_smp y) <? smp_ncpus (sy_smp y)).
    - split; [done|]. split; [done|]. split; [eapply Hall; left|]. right.
      apply negb_false_iff in Hs. split; [|done]. intros Hm. rewrite (proj2 (holder_in_mask _ _ HMAX Hcpus _ _ _ _ _ HI) Hm) in Eu. done. }
  destruct Hr as (_ & _ & Hn & Hr0 & Hr1). cbn in Hn, Hr0, Hr1. rewrite (count_cpus_length MDX_CPU_MAX) in *.
  (* The others. *)
  destruct (decide (Exists (λ c, c ≠ h ∧ st c = 1%nat) pcpu_all)) as [Hex|Hall].
  { apply Exists_exists in Hex as (c & Hc & Hch & Hst). pose proof (ir_others c Hch) as Hm. rewrite Hst in Hm.
    assert (passive MDX_CPU_MAX (sy_stack y c) ∧ tryst (pc_pending_ipis (sy_smp y) c) = true) as [Hk Ht] by (by inversion Hm).
    exists c, (sy_stack y c). split; [done|].
    specialize (Hspin c Hc). assert (base MDX_CPU_MAX (sy_stack y c)) as Hb.
    { inversion Hk as [? Hb|k' Hb Ek'|b k' Hb ? ? Ek']; [done|..]; by rewrite <- Ek' in Hspin. }
    split; [done|]. split; [done|]. specialize (ir_range c). destruct (decide (pc_pending_ipis (sy_smp y) c = 0)) as [E|]; [|lia].
    by rewrite E in Ht. }
  exfalso. assert (∀ c, c ∈ mlist d → c ≠ h → (st c = 3%nat ∧ spins (FAction AWait) (sy_smp y) = true) ∨ st c = 5%nat) as Hst.
  { intros c Hc Hch. specialize (Hon c Hc). pose proof (ir_others c Hch) as Hm. specialize (Hspin c Hon).
    assert (st c ≠ 0%nat) as H0 by (rewrite ir_todo by done; by apply not_elem_of_nil).
    assert (st c ≠ 1%nat) as H1 by (intros E; apply Hall, Exists_exists; eauto).
    inversion Hm as [| |b k Hb Hbr Hbt Est Ek|b k Hb Hbr Hbt Est Ek|p b k Hb Hbr Hbt Hin Est Ek|b k Hb Hbr Hbt Est Ek|];
      try congruence; try (by rewrite <- Ek in Hspin); [|by right].
    left. split; [done|]. rewrite <- Ek in Hspin. destruct p; cbn in Hin, Hspin; try done. cbn. by destruct (smp_room0 (sy_smp y) <? smp_ncpus (sy_smp y)). }
  assert (∀ c, c ∈ mlist d → (3 ≤ st c)%nat) as H3.
  { intros c Hc. destruct (decide (c = h)) as [->|Hch].
    - destruct Hh as [[-> _]|[H5 _]]; [lia|]. rewrite H5 by done. lia.
    - destruct (Hst c Hc Hch) as [[-> _]| ->]; lia. }
  apply cnt_full in H3 as E3. assert (spins (FAction AWait) (sy_smp y) = false) as Hnw.
  { cbn. rewrite Hn, Hr0, E3. apply Z.ltb_irrefl. }
  destruct Hh as [[_ Hw]|[H5 Hlt]]; [congruence|].
  assert (∀ c, c ∈ mlist d → (5 ≤ st c)%nat) as E5.
  { intros c Hc. destruct (decide (c = h)) as [->|Hch]; [rewrite H5 by done; lia|].
    destruct (Hst c Hc Hch) as [[_ Hw]| ->]; [congruence|lia]. }
  apply cnt_full in E5. rewrite Hr1, E5, Z.ltb_irrefl in Hlt. done.
Qed.

Lemma progress y o c :
  represents y o → all_online y → c ∈ pcpu_all → sy_stack y c ≠ [] →
  ∃ y' e, steps y e y' ∧ work y' < work y ∧ all_online y'.
Proof.
  intros HR Ho Hc Hne.
  destruct (decide (Exists (λ c, works y c = true) pcpu_all)) as [Hex|Hall].
  { apply Exists_exists in Hex as (x & Hx & Hw). unfold works in Hw. destruct (sy_stack y x) as [|f k] eqn:Ek; [done|].
    apply negb_true_iff in Hw.
    destruct (cpu_step_sim _ _ HMAX Hcpus Hnodup y o x HR Hx) as (y' & e & o' & E & _); [by rewrite Ek|].
    exists y', e. split; [by eapply steps_one|]. split; [|by eapply cpu_step_online].
    eapply work_decreases; eauto. by eapply represents_bitmaps. }
  assert (∀ x, x ∈ pcpu_all → works y x = false) as Hspin.
  { intros x Hx. apply not_true_is_false. intros Hw. apply Hall, Exists_exists. eauto. }
  destruct o as [d|]; cbn in HR.
  - destruct HR as (st & todo & HI & _). destruct (someone_pending y _ _ _ _ HI Ho Hspin) as (x & k & Hx & Hb & Ek & Hp).
    destruct (take_interrupt y x k) as (y' & Hs & Hw & Ho'); eauto. apply (ir_lock _ _ _ _ _ _ _ HI).
  - exfalso. specialize (Hspin c Hc). unfold works in Hspin. pose proof (nr_cpus _ _ HR c) as [Hp _].
    inversion Hp as [k Hb Ek|k Hb Ek|b k Hb ? ? Ek]; [|by rewrite <- Ek in Hspin..].
    inversion Hb as [Ek'|r n ? ? Ek']; [by rewrite <- Ek' in Hne|]. rewrite <- Ek' in Hspin. cbn in Hspin.
    by rewrite (nr_lock _ _ HR) in Hspin.
Qed.

Lemma steps_trans y e y' e' y'' : steps y e y' → steps y' e' y'' → steps y (e ++ e') y''.
Proof. induction 1; [done|]. intros. rewrite <- app_assoc. econstructor; eauto. Qed.

(** All calls come to an end. *)
Lemma completes y o :
  represents y o → all_online y → ∃ y' e, steps y e y' ∧ ∀ c, c ∈ pcpu_all → sy_stack y' c = [].
Proof.
  remember (Z.to_nat (work y)) as n eqn:En. revert y o En.
  induction (lt_wf n) as [n _ IH]. intros y o En HR Ho.
  destruct (decide (Exists (λ c, sy_stack y c ≠ []) pcpu_all)) as [Hex|Hall].
  - apply Exists_exists in Hex as (c & Hc & Hne).
    destruct (progress y o c HR Ho Hc Hne) as (y1 & e1 & H1 & Hw & Ho1).
    destruct (steps_sim _ _ HMAX Hcpus Hnodup _ _ _ _ HR H1) as (o1 & _ & HR1).
    pose proof (work_nonneg y1).
    destruct (IH (Z.to_nat (work y1)) ltac:(lia) y1 o1 eq_refl HR1 Ho1) as (y2 & e2 & H2 & Hd).
    exists y2, (e1 ++ e2). split; [by eapply steps_trans|done].
  - exists y, []. split; [constructor|]. intros c Hc. destruct (sy_stack y c) eqn:E; [done|].
    exfalso. apply Hall, Exists_exists. exists c. by rewrite E.
Qed.

End Liveness.

(** ** Theorems *)

Section Theorems.
Context (MDX_CPU_MAX : Z) (pcpu_all : list Z).
Abbreviation cpu_step := (cpu_step MDX_CPU_MAX pcpu_all).
Abbreviation steps := (steps MDX_CPU_MAX pcpu_all).

Lemma frame_step_entered c f s s' fs e x :
  frame_step MDX_CPU_MAX pcpu_all c f s = Ok (s', fs, e) → Entered x ∈ e → x = c.
Proof.
  intros E Hx.
  assert (e = [] ∨ e = [Entered c] ∨ (∃ f a, e = [Called c f a]) ∨ (∃ r, e = [Locked c r]) ∨ e = [Unlocked c]) as He.
  { destruct f as [q|r n q|q]; cbn in E.
    - destruct q; injection E as _ _ <-; eauto 6.
    - destruct q as [| | | | | |[|? l]| | |]; cbn in E; unfold kassert in E; repeat case_match; cbn in E; try done;
        injection E as _ _ <-; eauto 6.
    - destruct q as [|b]; cbn in E; [injection E as _ _ <-; eauto|].
      destruct (ffs 32 b) as [bit|]; cbn in E; [|done]. destruct (bit =? 0); injection E as _ _ <-; eauto. }
  destruct He as [->|[->|[(?&?& ->)|[[? ->]| ->]]]]; set_unfold in Hx; naive_solver.
Qed.

Lemma steps_entered y e y' x : steps y e y' → Entered x ∈ e → x ∈ pcpu_all.
Proof.
  induction 1 as [|y e y1 e' y2 H1 _ IH]; [intros []%not_elem_of_nil|].
  intros [Hx|Hx]%elem_of_app; [|auto]. destruct H1 as [c y y1 e Hon E| | |]; try (by apply not_elem_of_nil in Hx).
  unfold Smp.cpu_step in E. destruct (sy_stack y c) as [|f k]; [done|].
  destruct (frame_step _ _ _ _ _) as [[[s' fs] e'']|] eqn:Ef; [|done]. injection E as _ <-.
  by rewrite (frame_step_entered _ _ _ _ _ _ _ Ef Hx).
Qed.

Lemma run_split o e e' o'' : Spec.run MDX_CPU_MAX o (e ++ e') o'' → ∃ o', Spec.run MDX_CPU_MAX o e o' ∧ Spec.run MDX_CPU_MAX o' e' o''.
Proof.
  revert o. induction e as [|x e IH]; intros o H; [exists o; split; [constructor|done]|].
  inversion H as [|? ? o1 ? ? Hn Hr]; subst. destruct (IH o1 Hr) as (o' & ? & ?). exists o'. split; [by econstructor|done].
Qed.

(** A rendezvous that lacks a member only sees CPUs enter. *)
Lemma run_lacks d e o m :
  Spec.run MDX_CPU_MAX (Some d) e o → m ∈ Spec.members MDX_CPU_MAX (Spec.ro_request d) → m ∉ Spec.ro_entered d →
  m ∉ Spec.ro_called d → Entered m ∉ e → ∀ ev, ev ∈ e → ∃ x, ev = Entered x.
Proof.
  intros Hr. remember (Some d) as o0 eqn:E0. revert d E0. induction Hr as [o0|o0 ev o1 e o Hn _ IH]; intros d -> Hm He Hc Hne ev' Hev.
  - by apply not_elem_of_nil in Hev.
  - apply not_elem_of_cons in Hne as [Hne1 Hne2]. inversion Hn as [|c d' Hc1 Hc2|c d' Hc1 Hf Hc2|d' Hf]; subst.
    + apply elem_of_cons in Hev as [->|Hev]; [eauto|]. eapply (IH _ eq_refl); cbn; try done.
      rewrite elem_of_union, elem_of_singleton. intros [->|?]; done.
    + rewrite Hf in He. done.
    + rewrite Hf in Hc. done.
Qed.

Context (HMAX : 0 ≤ MDX_CPU_MAX ≤ 32).
Context (Hcpus : ∀ c, c ∈ pcpu_all → 0 ≤ c < MDX_CPU_MAX).
Context (Hnodup : NoDup pcpu_all).

(** C15: every execution, for any number of CPUs that call
    smp_rendezvous_cpus() with any masks, with notifications and interrupts at
    any time, is one of the specification: one rendezvous at a time; the
    function is called exactly once on each CPU of the mask, with the caller's
    argument, when all of them have entered; the call returns when all have
    called it.  No CPU ever fails (no panic in sl_unlock()). *)
Theorem rendezvous_refines func arg ncpus room0 room1 e y :
  steps (smp_init func arg ncpus room0 room1) e y →
  (∃ o, Spec.run MDX_CPU_MAX None e o) ∧
  ∀ c, c ∈ pcpu_all → sy_stack y c ≠ [] → ∃ y' e', cpu_step c y = Ok (y', e').
Proof.
  intros Hs. destruct (steps_sim _ _ HMAX Hcpus Hnodup _ _ _ None (smp_init_represents _ _ _ _ _ _ _) Hs) as (o & Hr & HR).
  split; [by exists o|]. intros c Hc Hne.
  destruct (cpu_step_sim _ _ HMAX Hcpus Hnodup y o c HR Hc Hne) as (y' & e' & _ & E & _). eauto.
Qed.

(** C16: from every reachable state whose masks name only existing CPUs, the
    CPUs can bring all calls to an end: there is no deadlock and no livelock
    that they could not leave, although initiators wait for each other and
    for CPUs that wait for the lock themselves. *)
Theorem rendezvous_completes func arg ncpus room0 room1 e y :
  steps (smp_init func arg ncpus room0 room1) e y →
  all_online MDX_CPU_MAX pcpu_all y →
  ∃ y' e', steps y e' y' ∧ ∀ c, c ∈ pcpu_all → sy_stack y' c = [].
Proof.
  intros Hs Ho. destruct (steps_sim _ _ HMAX Hcpus Hnodup _ _ _ None (smp_init_represents _ _ _ _ _ _ _) Hs) as (o & _ & HR).
  by eapply completes.
Qed.

(** A mask that names a CPU below MDX_CPU_MAX that is not on the list of
    CPUs is counted but never called, so the rendezvous never calls the
    function and never returns, and no other one begins. *)
Theorem rendezvous_offline_hangs func arg ncpus room0 room1 e c r y1 e2 y2 m :
  steps (smp_init func arg ncpus room0 room1) (e ++ [Locked c r]) y1 →
  m ∈ Spec.members MDX_CPU_MAX r → m ∉ pcpu_all →
  steps y1 e2 y2 →
  ∀ ev, ev ∈ e2 → ∃ x, ev = Entered x.
Proof.
  intros H1 Hm Hoff H2.
  destruct (steps_sim _ _ HMAX Hcpus Hnodup _ _ _ None (smp_init_represents _ _ _ _ _ _ _) H1) as (o1 & Hr1 & HR1).
  destruct (steps_sim _ _ HMAX Hcpus Hnodup _ _ _ _ HR1 H2) as (o2 & Hr2 & _).
  apply run_split in Hr1 as (o' & _ & Hl). inversion Hl as [|? ? ? ? ? Hn Hr]; subst. inversion Hn; subst. inversion Hr; subst.
  eapply (run_lacks _ _ _ m Hr2); cbn; [done|by apply not_elem_of_empty|by apply not_elem_of_empty|].
  intros Hx. by eapply Hoff, steps_entered.
Qed.

End Theorems.

(** ** A small machine: three CPUs of four *)

Module SmpDemo.

Inductive action := Cpu (c : Z) | Interrupt (c : Z) | Call (c : Z) (r : request) | Notify (c : Z).

Definition cpus : list Z := [0; 1; 2].

(** A schedule; [None] when an action is not possible. *)
Definition act (a : action) (y : system) : option (system * list event) :=
  match a with
  | Cpu c => match cpu_step 4 cpus c y with Ok r => Some r | Err _ => None end
  | Interrupt c => match sy_stack y c with
                   | [] => Some ({| sy_smp := sy_smp y; sy_stack := <[c := [FHandler HRead]]> (sy_stack y) |}, [])
                   | _ => None
                   end
  | Call c r => match sy_stack y c, smp_rendezvous_cpus 4 1 r with
                | [], Ok f => Some ({| sy_smp := sy_smp y; sy_stack := <[c := [f]]> (sy_stack y) |}, [])
                | _, _ => None
                end
  | Notify c => Some ({| sy_smp := send_ipi_one (Z.shiftl 1 c) IPI_IPI c (sy_smp y); sy_stack := sy_stack y |}, [])
  end.

Definition cpu_of (a : action) : Z := match a with Cpu c | Interrupt c | Call c _ | Notify c => c end.

Fixpoint exec (l : list action) (y : system) : option (system * list event) :=
  match l with
  | [] => Some (y, [])
  | a :: l =>
    if decide (cpu_of a ∈ cpus) then
      '(y, e) ← act a y; '(y, e') ← exec l y; Some (y, e ++ e')
    else None
  end.

Lemma exec_steps l y y' e : exec l y = Some (y', e) → steps 4 cpus y e y'.
Proof.
  revert y e. induction l as [|a l IH]; intros y e H; cbn in H; [injection H as <- <-; constructor|].
  destruct (decide (cpu_of a ∈ cpus)) as [Hc|]; [|done].
  destruct (act a y) as [[y1 e1]|] eqn:Ea; cbn in H; [|done].
  destruct (exec l y1) as [[y2 e2]|] eqn:El; cbn in H; [|done]. injection H as <- <-.
  eapply steps_cons; [|by apply IH]. destruct a as [c|c|c r|c]; cbn [act cpu_of] in Ea, Hc.
  - destruct (cpu_step 4 cpus c y) as [[? ?]|] eqn:E; [|done]. injection Ea as <- <-. by eapply SCpu.
  - destruct (sy_stack y c) eqn:E; [|discriminate Ea]. injection Ea as <- <-. by apply SInterrupt.
  - destruct (sy_stack y c) eqn:E; [|discriminate Ea].
    destruct (smp_rendezvous_cpus 4 1 r) eqn:Ef; [|discriminate Ea]. injection Ea as <- <-.
    by eapply SRendezvous.
  - injection Ea as <- <-. by apply SNotify.
Qed.

Definition boot : system := smp_init 0 0 0 0 0.
Definition repeat_cpu (n : nat) (c : Z) : list action := replicate n (Cpu c).

(** CPU 0 calls CPUs 0 and 2; CPU 1 calls everybody and waits for the lock; CPU
    2 was notified before and takes both interrupts at once. *)
Definition req02 : request := {| rq_cpus := 5; rq_func := 100; rq_arg := 7 |}.
Definition req_all : request := {| rq_cpus := 7; rq_func := 200; rq_arg := 8 |}.
Definition begin : list action :=
  [Call 0 req02; Notify 2; Call 1 req_all] ++ repeat_cpu 11 0 ++ repeat_cpu 3 1 ++ [Interrupt 2] ++ repeat_cpu 5 2.
Definition finish : list action := repeat_cpu 7 0 ++ repeat_cpu 5 2 ++ repeat_cpu 2 0.

Definition final (l : list action) : system := match exec l boot with Some (y, _) => y | None => boot end.
Definition trace (l : list action) : list event := match exec l boot with Some (_, e) => e | None => [] end.

Lemma final_eq l y e : exec l boot = Some (y, e) → final l = y.
Proof. intros E. unfold final. by rewrite E. Qed.

Lemma final_reached l : is_Some (exec l boot) → steps 4 cpus boot (trace l) (final l).
Proof. intros [[y e] E]. unfold trace, final. rewrite E. by eapply exec_steps. Qed.

Example trace_begin_finish : trace (begin ++ finish) =
  [Locked 0 req02; Entered 2; Entered 0; Called 0 100 7; Called 2 100 7; Unlocked 0].
Proof. by vm_compute. Qed.

Lemma cpus_below c : c ∈ cpus → 0 ≤ c < 4.
Proof. unfold cpus. rewrite !elem_of_cons. set_solver by lia. Qed.

Lemma cpus_NoDup : NoDup cpus.
Proof. by apply (bool_decide_unpack _). Qed.

Lemma rendezvous_refines_witness :
  (∃ o, Spec.run 4 None (trace (begin ++ finish)) o) ∧
  ∃ y' e', cpu_step 4 cpus 1 (final (begin ++ finish)) = Ok (y', e').
Proof.
  destruct (rendezvous_refines 4 cpus ltac:(lia) cpus_below cpus_NoDup 0 0 0 0 0 _ _
    (final_reached (begin ++ finish) ltac:(by vm_compute; eexists))) as [H1 H2].
  split; [exact H1|]. apply H2; [by apply (bool_decide_unpack _)|by vm_compute].
Defined.

Lemma exec_outside l y y' e c : c ∉ cpus → exec l y = Some (y', e) → sy_stack y' c = sy_stack y c.
Proof.
  intros Hc. revert y e. induction l as [|a l IH]; intros y e H; cbn in H; [by injection H as <- _|].
  destruct (decide (cpu_of a ∈ cpus)) as [Ha|]; [|done].
  destruct (act a y) as [[y1 e1]|] eqn:Ea; cbn in H; [|done].
  destruct (exec l y1) as [[y2 e2]|] eqn:El; cbn in H; [|done]. injection H as <- <-.
  rewrite (IH _ _ El). assert (c ≠ cpu_of a) as Hne by (intros ->; done). clear -Ea Hne.
  destruct a as [x|x|x r|x]; cbn [act cpu_of] in Ea, Hne.
  - unfold cpu_step in Ea. destruct (sy_stack y x); [discriminate Ea|]. destruct (frame_step _ _ _ _ _) as [[[? ?] ?]|]; [|discriminate Ea].
    injection Ea as <- _. cbn. by rewrite fn_lookup_insert_ne.
  - destruct (sy_stack y x); [|discriminate Ea]. injection Ea as <- _. cbn. by rewrite fn_lookup_insert_ne.
  - destruct (sy_stack y x); [|discriminate Ea]. destruct (smp_rendezvous_cpus 4 1 r); [|discriminate Ea].
    injection Ea as <- _. cbn. by rewrite fn_lookup_insert_ne.
  - by injection Ea as <- _.
Qed.

Lemma begin_online : all_online 4 cpus (final begin).
Proof.
  intros c r n p Hin x Hx. destruct (decide (c ∈ cpus)) as [Hc|Hc].
  - assert (r = req02 ∨ r = req_all) as Hr.
    { unfold cpus in Hc. rewrite !elem_of_cons in Hc. destruct Hc as [->|[->|[->|Hc]]]; [| | |by apply not_elem_of_nil in Hc];
        match type of Hin with _ ∈ ?k => let k' := eval vm_compute in k in
          let E := fresh in assert (k = k') as E by (by vm_compute); rewrite E in Hin; clear E end;
        repeat (apply elem_of_cons in Hin as [Hin|Hin];
          [first [discriminate Hin|injection Hin as -> _ _; by (left + right)]|]);
        by apply not_elem_of_nil in Hin. }
    assert (Forall (λ x, x ∈ cpus) (mlist 4 req02) ∧ Forall (λ x, x ∈ cpus) (mlist 4 req_all)) as [H1 H2].
    { split; by apply (bool_decide_unpack _). }
    rewrite Forall_forall in H1, H2. destruct Hr as [->| ->]; [exact (H1 x Hx)|exact (H2 x Hx)].
  - exfalso. assert (is_Some (exec begin boot)) as [[y e] E] by (vm_compute; eexists; reflexivity).
    rewrite (final_eq _ _ _ E) in Hin.
    rewrite (exec_outside _ _ _ _ _ Hc E) in Hin. exact (not_elem_of_nil _ Hin).
Qed.

Lemma rendezvous_completes_witness : ∃ y' e', steps 4 cpus (final begin) e' y' ∧ ∀ c, c ∈ cpus → sy_stack y' c = [].
Proof.
  apply (rendezvous_completes 4 cpus ltac:(lia) cpus_below cpus_NoDup 0 0 0 0 0 (trace begin)).
  - apply final_reached. by vm_compute; eexists.
  - exact begin_online.
Defined.

(** CPU 3 does not exist. *)
Definition req_offline : request := {| rq_cpus := 9; rq_func := 300; rq_arg := 9 |}.

Lemma rendezvous_offline_hangs_witness : ∃ e2 y2, steps 4 cpus (final [Call 0 req_offline; Cpu 0]) e2 y2 ∧
  e2 = [Entered 0] ∧ ∀ ev, ev ∈ e2 → ∃ x, ev = Entered x.
Proof.
  destruct (exec (repeat_cpu 20 0) (final [Call 0 req_offline; Cpu 0])) as [[y2 e2]|] eqn:E; [|by vm_compute in E].
  assert (e2 = [Entered 0]) as -> by (apply (f_equal (option_map snd)) in E; vm_compute in E; congruence).
  exists [Entered 0], y2. split; [by eapply exec_steps|]. split; [done|].
  apply (rendezvous_offline_hangs 4 cpus ltac:(lia) cpus_below cpus_NoDup 0 0 0 0 0 [] 0 req_offline
    (final [Call 0 req_offline; Cpu 0]) _ y2 3).
  - apply (final_reached [Call 0 req_offline; Cpu 0]). by vm_compute; eexists.
  - by apply (bool_decide_unpack _).
  - by apply (bool_decide_unpack _).
  - by eapply exec_steps.
Defined.

End SmpDemo.
