(* ===== verification/Md5.v ===== *)
(** * MD5 (lib/md5/md5.c, md5.h)

    The streaming implementation: a context with the chaining value, the byte
    counter in two halves and a 64-byte buffer for the part of the message that
    does not fill a block yet.  Module [Ref] is the definition of the digest on a
    whole message (RFC 1321): pad, split into blocks, fold the compression. *)

From S2P Require Import Prelude Freelist Memory.
Local Open Scope Z_scope.

(** ** The basic functions *)

Definition F (x y z : Z) : Z := Z.lxor z (Z.land x (Z.lxor y z)).
Definition G (x y z : Z) : Z := Z.lxor y (Z.land z (Z.lxor x y)).
Definition H (x y z : Z) : Z := Z.lxor (Z.lxor x y) z.
Definition H2 (x y z : Z) : Z := Z.lxor x (Z.lxor y z).
Definition I (x y z : Z) : Z := Z.lxor y (Z.lor x (u32 (Z.lnot z))).

(** [STEP(f, a, b, c, d, x, t, s)]: the new value of [a]. *)
Definition STEP (f : Z → Z → Z → Z) (a b c d x t s : Z) : Z :=
  let a := u32 (a + u32 (u32 (f b c d + x) + t)) in
  let a := Z.lor (u32 (Z.shiftl a s)) (Z.shiftr (Z.land a 0xffffffff) (32 - s)) in
  u32 (a + b).

(** [SET(n)] reads four bytes of the input into [ctx->block[n]]; [GET(n)] is
    that word (the portable definitions: no target of the kernel is an x86). *)
Inductive operand := SET (n : nat) | GET (n : nat).

Definition ld_byte (ptr : list Z) (i : nat) : res Z :=
  match ptr !! i with Some b => Ok b | None => Err Fault end.

Definition ld_word (ptr : list Z) (n : nat) : res Z :=
  b0 ← ld_byte ptr (n * 4);
  b1 ← ld_byte ptr (n * 4 + 1);
  b2 ← ld_byte ptr (n * 4 + 2);
  b3 ← ld_byte ptr (n * 4 + 3);
  Ok (Z.lor (Z.lor (Z.lor b0 (u32 (Z.shiftl b1 8))) (u32 (Z.shiftl b2 16))) (u32 (Z.shiftl b3 24))).

Definition operand_value (x : operand) (ptr block : list Z) : res (Z * list Z) :=
  match x with
  | SET n => w ← ld_word ptr n; Ok (w, <[n := w]> block)
  | GET n => match block !! n with Some w => Ok (w, block) | None => Err Fault end
  end.

(** ** The compression *)

Abbreviation quad := (Z * Z * Z * Z)%type.

Record step_t := step_of { st_f : Z → Z → Z → Z; st_x : operand; st_t : Z; st_s : Z }.

(** The 64 lines of [body].  Line [i] updates [a], [d], [c], [b] in turn, that
    is: the first variable of the quadruple, which is then rotated. *)
Definition rounds : list step_t :=
  [step_of F (SET 0) 0xd76aa478 7; step_of F (SET 1) 0xe8c7b756 12;
   step_of F (SET 2) 0x242070db 17; step_of F (SET 3) 0xc1bdceee 22;
   step_of F (SET 4) 0xf57c0faf 7; step_of F (SET 5) 0x4787c62a 12;
   step_of F (SET 6) 0xa8304613 17; step_of F (SET 7) 0xfd469501 22;
   step_of F (SET 8) 0x698098d8 7; step_of F (SET 9) 0x8b44f7af 12;
   step_of F (SET 10) 0xffff5bb1 17; step_of F (SET 11) 0x895cd7be 22;
   step_of F (SET 12) 0x6b901122 7; step_of F (SET 13) 0xfd987193 12;
   step_of F (SET 14) 0xa679438e 17; step_of F (SET 15) 0x49b40821 22;
   step_of G (GET 1) 0xf61e2562 5; step_of G (GET 6) 0xc040b340 9;
   step_of G (GET 11) 0x265e5a51 14; step_of G (GET 0) 0xe9b6c7aa 20;
   step_of G (GET 5) 0xd62f105d 5; step_of G (GET 10) 0x02441453 9;
   step_of G (GET 15) 0xd8a1e681 14; step_of G (GET 4) 0xe7d3fbc8 20;
   step_of G (GET 9) 0x21e1cde6 5; step_of G (GET 14) 0xc33707d6 9;
   step_of G (GET 3) 0xf4d50d87 14; step_of G (GET 8) 0x455a14ed 20;
   step_of G (GET 13) 0xa9e3e905 5; step_of G (GET 2) 0xfcefa3f8 9;
   step_of G (GET 7) 0x676f02d9 14; step_of G (GET 12) 0x8d2a4c8a 20;
   step_of H (GET 5) 0xfffa3942 4; step_of H2 (GET 8) 0x8771f681 11;
   step_of H (GET 11) 0x6d9d6122 16; step_of H2 (GET 14) 0xfde5380c 23;
   step_of H (GET 1) 0xa4beea44 4; step_of H2 (GET 4) 0x4bdecfa9 11;
   step_of H (GET 7) 0xf6bb4b60 16; step_of H2 (GET 10) 0xbebfbc70 23;
   step_of H (GET 13) 0x289b7ec6 4; step_of H2 (GET 0) 0xeaa127fa 11;
   step_of H (GET 3) 0xd4ef3085 16; step_of H2 (GET 6) 0x04881d05 23;
   step_of H (GET 9) 0xd9d4d039 4; step_of H2 (GET 12) 0xe6db99e5 11;
   step_of H (GET 15) 0x1fa27cf8 16; step_of H2 (GET 2) 0xc4ac5665 23;
   step_of I (GET 0) 0xf4292244 6; step_of I (GET 7) 0x432aff97 10;
   step_of I (GET 14) 0xab9423a7 15; step_of I (GET 5) 0xfc93a039 21;
   step_of I (GET 12) 0x655b59c3 6; step_of I (GET 3) 0x8f0ccc92 10;
   step_of I (GET 10) 0xffeff47d 15; step_of I (GET 1) 0x85845dd1 21;
   step_of I (GET 8) 0x6fa87e4f 6; step_of I (GET 15) 0xfe2ce6e0 10;
   step_of I (GET 6) 0xa3014314 15; step_of I (GET 13) 0x4e0811a1 21;
   step_of I (GET 4) 0xf7537e82 6; step_of I (GET 11) 0xbd3af235 10;
   step_of I (GET 2) 0x2ad7d2bb 15; step_of I (GET 9) 0xeb86d391 21].

Fixpoint run_steps (l : list step_t) (ptr block : list Z) (st : quad) : res (quad * list Z) :=
  match l with
  | [] => Ok (st, block)
  | r :: l =>
    let '(a, b, c, d) := st in
    '(x, block) ← operand_value (st_x r) ptr block;
    run_steps l ptr block (d, STEP (st_f r) a b c d x (st_t r) (st_s r), b, c)
  end.

Definition quad_add (s t : quad) : quad :=
  let '(a, b, c, d) := s in
  let '(a', b', c', d') := t in
  (u32 (a + a'), u32 (b + b'), u32 (c + c'), u32 (d + d')).

(** MD5_CTX *)
Record MD5_CTX := {
  md_lo : Z;
  md_hi : Z;
  md_abcd : quad;
  md_buffer : list Z;   (* 64 bytes *)
  md_block : list Z     (* 16 words *)
}.

Section Model.
Context `{Arch}.

(** The loop of [body]: [do ... while (size -= 64)]. *)
Fixpoint body_loop (fuel : nat) (ptr : list Z) (size : Z) (block : list Z) (st : quad) :
    res (quad * list Z * list Z) :=
  match fuel with
  | O => Err NoFuel
  | S fuel =>
    '(st', block) ← run_steps rounds ptr block st;
    let st := quad_add st' st in
    let ptr := drop 64 ptr in
    let size := wrap PTR_W (size - 64) in
    if size =? 0 then Ok (st, block, ptr) else body_loop fuel ptr size block st
  end.

Definition body (ctx : MD5_CTX) (data : list Z) (size : Z) : res (MD5_CTX * list Z) :=
  '(st, block, ptr) ← body_loop (S (Z.to_nat (size / 64))) data size (md_block ctx) (md_abcd ctx);
  Ok ({| md_lo := md_lo ctx; md_hi := md_hi ctx; md_abcd := st; md_buffer := md_buffer ctx;
         md_block := block |}, ptr).

Definition MD5_Init (ctx : MD5_CTX) : MD5_CTX :=
  {| md_lo := 0; md_hi := 0;
     md_abcd := (0x67452301, 0xefcdab89, 0x98badcfe, 0x10325476);
     md_buffer := md_buffer ctx; md_block := md_block ctx |}.

Definition with_count (lo hi : Z) (ctx : MD5_CTX) : MD5_CTX :=
  {| md_lo := lo; md_hi := hi; md_abcd := md_abcd ctx; md_buffer := md_buffer ctx;
     md_block := md_block ctx |}.
Definition with_buffer (buf : list Z) (ctx : MD5_CTX) : MD5_CTX :=
  {| md_lo := md_lo ctx; md_hi := md_hi ctx; md_abcd := md_abcd ctx; md_buffer := buf;
     md_block := md_block ctx |}.

(** The bytes [l] stored at [&ctx->buffer[i]]: single stores, [memset] and the
    destination side of [memcpy]. *)
Definition put (i : Z) (l : list Z) (ctx : MD5_CTX) : res MD5_CTX :=
  let buf := md_buffer ctx in
  if (0 <=? i) && (i + Z.of_nat (length l) <=? Z.of_nat (length buf)) then
    Ok (with_buffer (take (Z.to_nat i) buf ++ l ++ drop (Z.to_nat i + length l) buf) ctx)
  else Err Fault.

(** [memcpy(&ctx->buffer[i], data, size)]: the [size] bytes are read from what
    is left of the source, and a read past its end faults. *)
Definition memcpy_in (i : Z) (data : list Z) (size : Z) (ctx : MD5_CTX) : res MD5_CTX :=
  if size <=? Z.of_nat (length data) then put i (take (Z.to_nat size) data) ctx else Err Fault.

(** The end of [MD5_Update], once the buffer is empty. *)
Definition update_tail (ctx : MD5_CTX) (data : list Z) (size : Z) : res MD5_CTX :=
  '(ctx, data, size) ←
    (if 64 <=? size then
       '(ctx, data) ← body ctx data (Z.land size (wrap PTR_W (Z.lnot 0x3f)));
       Ok (ctx, data, Z.land size 0x3f)
     else Ok (ctx, data, size));
  memcpy_in 0 data size ctx.

(** The caller's buffer is the list of its bytes; [size] is its length. *)
Definition MD5_Update (ctx : MD5_CTX) (data : list Z) : res MD5_CTX :=
  let size := Z.of_nat (length data) in
  let saved_lo := md_lo ctx in
  let lo := Z.land (wrap PTR_W (saved_lo + size)) 0x1fffffff in
  let hi := if lo <? saved_lo then u32 (md_hi ctx + 1) else md_hi ctx in
  let hi := u32 (hi + Z.shiftr size 29) in
  let ctx := with_count lo hi ctx in
  let used := Z.land saved_lo 0x3f in
  if negb (used =? 0) then
    let available := 64 - used in
    if size <? available then memcpy_in used data size ctx
    else
      ctx ← memcpy_in used data available ctx;
      let data := drop (Z.to_nat available) data in
      let size := size - available in
      '(ctx, _) ← body ctx (md_buffer ctx) 64;
      update_tail ctx data size
  else update_tail ctx data size.

(** [OUT(dst, src)]: the four bytes of [src]. *)
Definition OUT (src : Z) : list Z :=
  [u8 src; u8 (Z.shiftr src 8); u8 (Z.shiftr src 16); u8 (Z.shiftr src 24)].

Definition cleared : MD5_CTX :=
  {| md_lo := 0; md_hi := 0; md_abcd := (0, 0, 0, 0); md_buffer := replicate 64 0;
     md_block := replicate 16 0 |}.

(** The end of [MD5_Final]: the last block; the result and the cleared context. *)
Definition final_block (ctx : MD5_CTX) (used available : Z) : res (list Z * MD5_CTX) :=
  ctx ← put used (replicate (Z.to_nat (available - 8)) 0) ctx;
  let ctx := with_count (u32 (Z.shiftl (md_lo ctx) 3)) (md_hi ctx) ctx in
  ctx ← put 56 (OUT (md_lo ctx)) ctx;
  ctx ← put 60 (OUT (md_hi ctx)) ctx;
  '(ctx, _) ← body ctx (md_buffer ctx) 64;
  let '(a, b, c, d) := md_abcd ctx in
  Ok (OUT a ++ OUT b ++ OUT c ++ OUT d, cleared).

Definition MD5_Final (ctx : MD5_CTX) : res (list Z * MD5_CTX) :=
  let used := Z.land (md_lo ctx) 0x3f in
  ctx ← put used [0x80] ctx;
  let used := used + 1 in
  let available := 64 - used in
  if available <? 8 then
    ctx ← put used (replicate (Z.to_nat available) 0) ctx;
    '(ctx, _) ← body ctx (md_buffer ctx) 64;
    final_block ctx 0 64
  else final_block ctx used available.

(** A message handed over piece by piece. *)
Fixpoint md5_updates (ctx : MD5_CTX) (l : list (list Z)) : res MD5_CTX :=
  match l with
  | [] => Ok ctx
  | data :: l => ctx ← MD5_Update ctx data; md5_updates ctx l
  end.

Definition md5_stream (ctx : MD5_CTX) (l : list (list Z)) : res (list Z * MD5_CTX) :=
  ctx ← md5_updates (MD5_Init ctx) l; MD5_Final ctx.

End Model.

(** ** The digest of RFC 1321 *)

Module Ref.

Definition F (x y z : Z) : Z := Z.lor (Z.land x y) (Z.land (Z.lnot x) z).
Definition G (x y z : Z) : Z := Z.lor (Z.land x z) (Z.land y (Z.lnot z)).
Definition H (x y z : Z) : Z := Z.lxor (Z.lxor x y) z.
Definition I (x y z : Z) : Z := Z.lxor y (Z.lor x (2 ^ 32 - 1 - z)).

(** The table T: the integer parts of 2^32 |sin i|. *)
Definition T : list Z :=
  [0xd76aa478; 0xe8c7b756; 0x242070db; 0xc1bdceee; 0xf57c0faf; 0x4787c62a; 0xa8304613; 0xfd469501;
   0x698098d8; 0x8b44f7af; 0xffff5bb1; 0x895cd7be; 0x6b901122; 0xfd987193; 0xa679438e; 0x49b40821;
   0xf61e2562; 0xc040b340; 0x265e5a51; 0xe9b6c7aa; 0xd62f105d; 0x02441453; 0xd8a1e681; 0xe7d3fbc8;
   0x21e1cde6; 0xc33707d6; 0xf4d50d87; 0x455a14ed; 0xa9e3e905; 0xfcefa3f8; 0x676f02d9; 0x8d2a4c8a;
   0xfffa3942; 0x8771f681; 0x6d9d6122; 0xfde5380c; 0xa4beea44; 0x4bdecfa9; 0xf6bb4b60; 0xbebfbc70;
   0x289b7ec6; 0xeaa127fa; 0xd4ef3085; 0x04881d05; 0xd9d4d039; 0xe6db99e5; 0x1fa27cf8; 0xc4ac5665;
   0xf4292244; 0x432aff97; 0xab9423a7; 0xfc93a039; 0x655b59c3; 0x8f0ccc92; 0xffeff47d; 0x85845dd1;
   0x6fa87e4f; 0xfe2ce6e0; 0xa3014314; 0x4e0811a1; 0xf7537e82; 0xbd3af235; 0x2ad7d2bb; 0xeb86d391].

(** The rotation of a 32-bit word. *)
Definition rotl (x s : Z) : Z := (x * 2 ^ s) mod 2 ^ 32 + x / 2 ^ (32 - s).

Definition round_fun (i : Z) : Z → Z → Z → Z :=
  if i <? 16 then F else if i <? 32 then G else if i <? 48 then H else I.
Definition word_index (i : Z) : Z :=
  if i <? 16 then i else if i <? 32 then (1 + 5 * i) mod 16
  else if i <? 48 then (5 + 3 * i) mod 16 else (7 * i) mod 16.
Definition shift (i : Z) : Z :=
  default 0 ((if i <? 16 then [7; 12; 17; 22] else if i <? 32 then [5; 9; 14; 20]
              else if i <? 48 then [4; 11; 16; 23] else [6; 10; 15; 21]) !! Z.to_nat (i mod 4)).

(** The little-endian word [n] of a block. *)
Definition word (blk : list Z) (n : Z) : Z :=
  let byte i := default 0 (blk !! Z.to_nat (4 * n + i)) in
  byte 0 + 2 ^ 8 * byte 1 + 2 ^ 16 * byte 2 + 2 ^ 24 * byte 3.

Definition step (blk : list Z) (st : quad) (i : Z) : quad :=
  let '(a, b, c, d) := st in
  let s := (a + round_fun i b c d + word blk (word_index i) + default 0 (T !! Z.to_nat i)) mod 2 ^ 32 in
  (d, (b + rotl s (shift i)) mod 2 ^ 32, b, c).

Definition compress (st : quad) (blk : list Z) : quad :=
  quad_add (foldl (step blk) st (seqZ 0 64)) st.

(** The complete 64-byte blocks of a message. *)
Definition blocks (l : list Z) : list (list Z) :=
  (λ i, take 64 (drop (64 * i) l)) <$> seq 0 (length l / 64).

Definition hash (st : quad) (l : list Z) : quad := foldl compress st (blocks l).

(** [k] bytes of [v], least significant first. *)
Definition le (k v : Z) : list Z := byte_of v <$> seqZ 0 k.

(** One bit, zeros up to 56 modulo 64 bytes, and the length in bits. *)
Definition padding (len : Z) : list Z :=
  [0x80] ++ replicate (Z.to_nat ((55 - len) mod 64)) 0 ++ le 8 (8 * len).

Definition pad (msg : list Z) : list Z := msg ++ padding (Z.of_nat (length msg)).

Definition md5 (msg : list Z) : list Z :=
  let '(a, b, c, d) := hash (0x67452301, 0xefcdab89, 0x98badcfe, 0x10325476) (pad msg) in
  le 4 a ++ le 4 b ++ le 4 c ++ le 4 d.

End Ref.

(** The test vectors of the RFC: the empty message and [abc]. *)
Example md5_empty :
  Ref.md5 [] = [0xd4; 0x1d; 0x8c; 0xd9; 0x8f; 0x00; 0xb2; 0x04; 0xe9; 0x80; 0x09; 0x98; 0xec; 0xf8; 0x42; 0x7e].
Proof. by vm_compute. Qed.

Example md5_abc :
  Ref.md5 [97; 98; 99] = [0x90; 0x01; 0x50; 0x98; 0x3c; 0xd2; 0x4f; 0xb0; 0xd6; 0x96; 0x3f; 0x7d; 0x28; 0xe1; 0x7f; 0x72].
Proof. by vm_compute. Qed.
