(* ===== verification/Md5Theorems.v ===== *)
(** * MD5: the streaming implementation computes the digest of RFC 1321

    The compression is the reference's; a context represents the message handed
    over so far; updates append to it. *)

From S2P Require Import Prelude Freelist Memory Md5.
Local Open Scope Z_scope.

Definition u32_ok (x : Z) : Prop := 0 ≤ x < 2 ^ 32.
Definition quad_ok (s : quad) : Prop :=
  let '(a, b, c, d) := s in u32_ok a ∧ u32_ok b ∧ u32_ok c ∧ u32_ok d.

Lemma u32_ok_wrap x : u32_ok (u32 x).
Proof. by apply wrap_range. Qed.
#[export] Hint Resolve u32_ok_wrap : mdx.

(** ** Bit operations *)

Ltac bitwise := apply Z.bits_inj'; intros ? ?;
  repeat first [rewrite Z.lxor_spec | rewrite Z.lor_spec | rewrite Z.land_spec | rewrite Z.lnot_spec by done];
  repeat match goal with |- context [Z.testbit ?x ?n] => destruct (Z.testbit x n) end; done.

Lemma F_ref x y z : F x y z = Ref.F x y z.
Proof. unfold F, Ref.F. bitwise. Qed.

Lemma G_ref x y z : G x y z = Ref.G x y z.
Proof. unfold G, Ref.G. bitwise. Qed.

Lemma H2_ref x y z : H2 x y z = Ref.H x y z.
Proof. unfold H2, Ref.H. by rewrite Z.lxor_assoc. Qed.

Lemma I_ref x y z : u32_ok z → I x y z = Ref.I x y z.
Proof.
  intros Hz. unfold I, Ref.I. do 2 f_equal. unfold Z.lnot, wrap.
  rewrite <- (Z_mod_plus_full _ 1), Z.mod_small; unfold u32_ok in *; lia.
Qed.

Lemma rotl_ref a s :
  u32_ok a → 0 < s < 32 →
  Z.lor (u32 (Z.shiftl a s)) (Z.shiftr (Z.land a 0xffffffff) (32 - s)) = Ref.rotl a s.
Proof.
  intros Ha Hs. change 0xffffffff with (Z.ones 32). unfold u32_ok in Ha.
  rewrite Z.land_ones, (Z.mod_small a), Z.shiftl_mul_pow2, Z.shiftr_div_pow2 by lia.
  unfold Ref.rotl, wrap. rewrite Z.lor_comm.
  assert (2 ^ 32 = 2 ^ s * 2 ^ (32 - s)) as E by (rewrite <- Z.pow_add_r by lia; f_equal; lia).
  rewrite E, (Z.mul_comm a), Z.mul_mod_distr_l, (Z.mul_comm (2 ^ s)) by (apply Z.pow_nonzero; lia).
  rewrite lor_add; [lia|lia|]. split; [apply Z.div_pos; lia|].
  apply Z.div_lt_upper_bound; lia.
Qed.


(** ** One step *)

Definition row_ok (i : Z) (r : step_t) : Prop :=
  st_t r = default 0 (Ref.T !! Z.to_nat i) ∧ st_s r = Ref.shift i ∧ 0 < st_s r < 32 ∧
  0 ≤ Ref.word_index i < 16 ∧
  st_x r = (if i <? 16 then SET else GET) (Z.to_nat (Ref.word_index i)) ∧
  (i < 16 → Ref.word_index i = i) ∧
  ∀ x y z, u32_ok z → st_f r x y z = Ref.round_fun i x y z.

Lemma rounds_ok : Forall2 row_ok (seqZ 0 64) rounds.
Proof.
  let l := eval vm_compute in (seqZ 0 64) in change (seqZ 0 64) with l.
  repeat apply Forall2_cons_2; [..|apply Forall2_nil_2].
  all: split_and!; [done|done|done|done|done|done|done|done|].
  all: intros; first [by apply F_ref | by apply G_ref | done | by apply H2_ref | by apply I_ref].
Qed.

(** The words that the first round has read so far. *)
Definition loaded (ptr block : list Z) (n : Z) : Prop :=
  length block = 16%nat ∧ ∀ i, 0 ≤ i < n → block !! Z.to_nat i = Some (Ref.word ptr i).

Lemma ld_byte_ok ptr i : (i < length ptr)%nat → ld_byte ptr i = Ok (default 0 (ptr !! i)).
Proof. intros Hi. unfold ld_byte. by destruct (lookup_lt_is_Some_2 ptr i Hi) as [b ->]. Qed.

Lemma byte_list_lookup l i : byte_list l → 0 ≤ default 0 (l !! i) < 256.
Proof.
  intros Hl. destruct (l !! i) as [b|] eqn:E; [|simpl; lia].
  by apply (Forall_lookup_1 _ _ _ _ Hl E).
Qed.

Lemma ld_word_ok ptr n :
  byte_list ptr → (n * 4 + 4 ≤ length ptr)%nat → ld_word ptr n = Ok (Ref.word ptr (Z.of_nat n)).
Proof.
  intros Hb Hn. unfold ld_word. rewrite !ld_byte_ok by lia. cbn [mbind res_bind]. f_equal.
  unfold Ref.word. cbv zeta.
  replace (Z.to_nat (4 * Z.of_nat n + 0)) with (n * 4)%nat by lia.
  replace (Z.to_nat (4 * Z.of_nat n + 1)) with (n * 4 + 1)%nat by lia.
  replace (Z.to_nat (4 * Z.of_nat n + 2)) with (n * 4 + 2)%nat by lia.
  replace (Z.to_nat (4 * Z.of_nat n + 3)) with (n * 4 + 3)%nat by lia.
  pose proof (byte_list_lookup ptr (n * 4) Hb). pose proof (byte_list_lookup ptr (n * 4 + 1) Hb).
  pose proof (byte_list_lookup ptr (n * 4 + 2) Hb). pose proof (byte_list_lookup ptr (n * 4 + 3) Hb).
  rewrite !Z.shiftl_mul_pow2, !wrap_small by lia.
  rewrite (lor_add _ _ 8), (lor_add _ _ 16), (lor_add _ _ 24) by lia. lia.
Qed.

Lemma operand_ok ptr block i r :
  byte_list ptr → (64 ≤ length ptr)%nat → row_ok i r → 0 ≤ i → loaded ptr block (i `min` 16) →
  ∃ block', operand_value (st_x r) ptr block = Ok (Ref.word ptr (Ref.word_index i), block') ∧
            loaded ptr block' ((i + 1) `min` 16).
Proof.
  intros Hb Hp (_ & _ & _ & Hi & -> & H16 & _) H0 (Hl & Hw).
  destruct (Z.ltb_spec i 16) as [Hlt|Hge]; cbn [operand_value].
  - rewrite ld_word_ok, Z2Nat.id by (done || lia). cbn [mbind res_bind]. rewrite H16 by done.
    eexists. split; [done|]. split; [by rewrite length_insert|]. intros j Hj.
    destruct (decide (j = i)) as [->|Hne]; [apply list_lookup_insert_eq; lia|].
    rewrite list_lookup_insert_ne by lia. apply Hw. lia.
  - rewrite Hw by lia. eexists. split; [done|]. split; [done|]. intros j Hj. apply Hw. lia.
Qed.

Lemma STEP_ref ptr i r a b c d :
  row_ok i r → u32_ok d →
  (d, STEP (st_f r) a b c d (Ref.word ptr (Ref.word_index i)) (st_t r) (st_s r), b, c) =
  Ref.step ptr (a, b, c, d) i.
Proof.
  intros (HT & HS & Hs & _ & _ & _ & Hf) Hd. unfold STEP, Ref.step. cbv zeta.
  rewrite Hf, <- HT, <- HS by done.
  rewrite rotl_ref by (done || apply u32_ok_wrap). rewrite (Z.add_comm b). unfold wrap.
  do 6 f_equal.
  rewrite Zplus_mod_idemp_r, (Z.add_comm _ (st_t r)), Z.add_assoc, Zplus_mod_idemp_r. f_equal. lia.
Qed.

Lemma step_quad_ok ptr st i : quad_ok st → quad_ok (Ref.step ptr st i).
Proof.
  destruct st as [[[a b] c] d]. intros (? & ? & ? & ?). unfold Ref.step. cbn. split_and!; try done; apply Z.mod_pos_bound; lia.
Qed.

Lemma run_steps_ref ptr l :
  byte_list ptr → (64 ≤ length ptr)%nat →
  ∀ i block st, 0 ≤ i → Forall2 row_ok (seqZ i (Z.of_nat (length l))) l → quad_ok st →
  loaded ptr block (i `min` 16) →
  ∃ block', run_steps l ptr block st =
              Ok (foldl (Ref.step ptr) st (seqZ i (Z.of_nat (length l))), block') ∧
            length block' = 16%nat.
Proof.
  intros Hb Hp. induction l as [|r l IH]; intros i block [[[a b] c] d] Hi HF Hq Hl.
  { exists block. split; [done|]. apply Hl. }
  rewrite (seqZ_cons i) in HF |- * by (simpl length; lia). cbn [length] in *.
  replace (Z.pred (Z.of_nat (S (length l)))) with (Z.of_nat (length l)) in * by lia.
  apply Forall2_cons in HF as [Hr HF]. cbn [run_steps].
  destruct (operand_ok _ _ _ _ Hb Hp Hr Hi Hl) as (block' & -> & Hl'). cbn [mbind res_bind foldl].
  rewrite STEP_ref by (done || apply Hq).
  destruct (IH (Z.succ i) block' (Ref.step ptr (a, b, c, d) i)) as (block'' & E & ?); [lia|done| |done|by exists block''].
  by apply step_quad_ok.
Qed.

(** ** Blocks of a message *)

Lemma word_take ptr n : 0 ≤ n < 16 → Ref.word (take 64 ptr) n = Ref.word ptr n.
Proof. intros Hn. unfold Ref.word. cbv zeta. by rewrite !lookup_take_lt by lia. Qed.

Lemma word_index_range i : 0 ≤ i → 0 ≤ Ref.word_index i < 16.
Proof. intros Hi. unfold Ref.word_index. zcase; try lia; apply Z.mod_pos_bound; lia. Qed.

Lemma steps_take ptr l st :
  Forall (λ i, 0 ≤ i) l → foldl (Ref.step ptr) st l = foldl (Ref.step (take 64 ptr)) st l.
Proof.
  intros Hl. revert st. induction Hl as [|i l Hi _ IH]; intros st; [done|]. cbn [foldl].
  rewrite IH. f_equal. destruct st as [[[a b] c] d]. unfold Ref.step.
  by rewrite word_take by (by apply word_index_range).
Qed.

(** One pass of the loop of [body]. *)
Lemma rounds_compress ptr block st :
  byte_list ptr → (64 ≤ length ptr)%nat → length block = 16%nat → quad_ok st →
  ∃ st' block', run_steps rounds ptr block st = Ok (st', block') ∧ length block' = 16%nat ∧
                quad_add st' st = Ref.compress st (take 64 ptr).
Proof.
  intros Hb Hp Hl Hq.
  destruct (run_steps_ref ptr rounds Hb Hp 0 block st) as (block' & E & Hl');
    [done|apply rounds_ok|done|split; [done|lia]|].
  eexists _, block'. split; [exact E|]. split; [done|]. unfold Ref.compress.
  rewrite steps_take; [done|]. apply Forall_seqZ. lia.
Qed.

Lemma compress_quad_ok st blk : quad_ok (Ref.compress st blk).
Proof.
  unfold Ref.compress. destruct (foldl _ _ _) as [[[a b] c] d], st as [[[a' b'] c'] d'].
  cbn. split_and!; by apply wrap_range.
Qed.

Lemma blocks_cons a l : length a = 64%nat → Ref.blocks (a ++ l) = a :: Ref.blocks l.
Proof.
  intros Ha. unfold Ref.blocks. rewrite length_app, Ha.
  replace ((64 + length l) / 64)%nat with (S (length l / 64)).
  2:{ replace (64 + length l)%nat with (length l + 1 * 64)%nat by lia. rewrite Nat.div_add by lia. lia. }
  rewrite <- cons_seq, fmap_cons. f_equal.
  - by rewrite Nat.mul_0_r, drop_0, take_app_length'.
  - rewrite <- fmap_S_seq, <- list_fmap_compose. apply list_fmap_ext. intros _ i _. cbn [compose].
    unfold compose. replace (64 * S i)%nat with (length a + 64 * i)%nat by lia. by rewrite drop_app_add.
Qed.

Lemma blocks_short (l : list Z) : (length l < 64)%nat → Ref.blocks l = [].
Proof. intros Hl. unfold Ref.blocks. by rewrite Nat.div_small. Qed.

Lemma split_block (l : list Z) : (64 ≤ length l)%nat → l = take 64 l ++ drop 64 l ∧ length (take 64 l) = 64%nat.
Proof. intros. rewrite take_drop, length_take. split; [done|lia]. Qed.

Lemma hash_cons st a l : length a = 64%nat → Ref.hash st (a ++ l) = Ref.hash (Ref.compress st a) l.
Proof. intros Ha. unfold Ref.hash. by rewrite blocks_cons. Qed.

Lemma hash_app st k l1 l2 :
  length l1 = (64 * k)%nat → Ref.hash st (l1 ++ l2) = Ref.hash (Ref.hash st l1) l2.
Proof.
  revert st l1. induction k as [|k IH]; intros st l1 Hl.
  - destruct l1; [done|simpl in Hl; lia].
  - destruct (split_block l1) as (E & E'); [lia|]. rewrite E, <- app_assoc, !(hash_cons st (take 64 l1)) by done. apply IH.
    rewrite length_drop. lia.
Qed.

Lemma hash_short st l : (length l < 64)%nat → Ref.hash st l = st.
Proof. intros. unfold Ref.hash. by rewrite blocks_short. Qed.

Lemma hash_quad_ok st l : quad_ok st → quad_ok (Ref.hash st l).
Proof.
  unfold Ref.hash. revert st. induction (Ref.blocks l) as [|b bs IH]; intros st Hq; [done|].
  apply IH, compress_quad_ok.
Qed.

Section Stream.
Context `{Arch}.

Lemma PTR_W_ge : 32 ≤ PTR_W.
Proof. destruct arch_ok; lia. Qed.

Lemma body_loop_ok k fuel data rest block st :
  length data = (64 * S k)%nat → (k < fuel)%nat → Z.of_nat (length data) < 2 ^ PTR_W →
  byte_list (data ++ rest) → length block = 16%nat → quad_ok st →
  ∃ block', body_loop fuel (data ++ rest) (Z.of_nat (length data)) block st =
              Ok (Ref.hash st data, block', rest) ∧ length block' = 16%nat.
Proof.
  revert fuel data block st. induction k as [|k IH]; intros [|fuel] data block st Hl Hf Hw Hb Hbl Hq; [lia| |lia|].
  all: destruct (rounds_compress (data ++ rest) block st) as (st' & block' & E & Hbl' & Ec);
    [done|rewrite length_app; lia|done|done|].
  all: destruct (split_block data) as [Ed E64]; [lia|].
  all: assert (take 64 (data ++ rest) = take 64 data) as Et by (apply take_app_le; lia).
  all: assert (drop 64 (data ++ rest) = drop 64 data ++ rest) as Er by (apply drop_app_le; lia).
  all: assert (Ref.hash st data = Ref.hash (Ref.compress st (take 64 data)) (drop 64 data)) as Eh
    by (rewrite Ed at 1; by apply hash_cons).
  all: cbn [body_loop]; rewrite E; cbn [mbind res_bind]; rewrite Ec, Et, Er, Eh, wrap_small by lia.
  - replace (Z.of_nat (length data) - 64) with 0 by lia. cbn [Z.eqb].
    assert (drop 64 data = []) as -> by (apply drop_ge; lia).
    exists block'. by rewrite hash_short by (simpl; lia).
  - rewrite (proj2 (Z.eqb_neq _ 0)) by lia.
    assert (length (drop 64 data) = (64 * S k)%nat) as Hd by (rewrite length_drop; lia).
    replace (Z.of_nat (length data) - 64) with (Z.of_nat (length (drop 64 data))) by lia.
    assert (byte_list (drop 64 data ++ rest)) as Hbd by (rewrite <- Er; by apply Forall_drop).
    assert (k < fuel)%nat as Hf' by lia.
    assert (Z.of_nat (length (drop 64 data)) < 2 ^ PTR_W) as Hw' by lia.
    exact (IH fuel _ block' _ Hd Hf' Hw' Hbd Hbl' (compress_quad_ok _ _)).
Qed.

Definition with_state (st : quad) (block : list Z) (ctx : MD5_CTX) : MD5_CTX :=
  {| md_lo := md_lo ctx; md_hi := md_hi ctx; md_abcd := st; md_buffer := md_buffer ctx; md_block := block |}.

Lemma div64 n k : n = (64 * S k)%nat → Z.to_nat (Z.of_nat n / 64) = S k.
Proof. intros ->. rewrite Nat2Z.inj_mul, Z.mul_comm, Z.div_mul by done. lia. Qed.

Lemma body_ok k data rest size ctx :
  length data = (64 * S k)%nat → size = Z.of_nat (length data) → size < 2 ^ PTR_W →
  byte_list (data ++ rest) → length (md_block ctx) = 16%nat → quad_ok (md_abcd ctx) →
  ∃ block', body ctx (data ++ rest) size = Ok (with_state (Ref.hash (md_abcd ctx) data) block' ctx, rest) ∧
            length block' = 16%nat.
Proof.
  intros Hl -> Hw Hb Hbl Hq. unfold body.
  destruct (body_loop_ok k (S (Z.to_nat (Z.of_nat (length data) / 64))) data rest (md_block ctx) (md_abcd ctx))
    as (block' & -> & ?); try done.
  - rewrite (div64 _ _ Hl). lia.
  - by exists block'.
Qed.

(** Keeps the conversion test from running the 64 steps. *)
#[local] Opaque body.

(** ** A context represents the message handed over so far *)

Definition IV : quad := (0x67452301, 0xefcdab89, 0x98badcfe, 0x10325476).

(** The context after the message [full ++ tail], where [full] fills blocks: the
    blocks are hashed, the rest is in the buffer. *)
Record holds (ctx : MD5_CTX) (full tail : list Z) : Prop := {
  ho_full : ∃ k, length full = (64 * k)%nat;
  ho_tail : (length tail ≤ 64)%nat;
  ho_state : md_abcd ctx = Ref.hash IV full;
  ho_buffer : take (length tail) (md_buffer ctx) = tail;
  ho_buflen : length (md_buffer ctx) = 64%nat;
  ho_blklen : length (md_block ctx) = 16%nat;
  ho_bytes : byte_list tail
}.

(** [hi:lo] counts the bytes modulo 2^61. *)
Definition counts (ctx : MD5_CTX) (len : Z) : Prop :=
  md_lo ctx = len mod 2 ^ 29 ∧ md_hi ctx = (len / 2 ^ 29) mod 2 ^ 32.

Definition represents (ctx : MD5_CTX) (msg : list Z) : Prop :=
  ∃ full tail, msg = full ++ tail ∧ (length tail < 64)%nat ∧ holds ctx full tail ∧
    counts ctx (Z.of_nat (length msg)).

Lemma IV_ok : quad_ok IV.
Proof. cbn. unfold u32_ok. lia. Qed.

Lemma init_represents ctx :
  length (md_buffer ctx) = 64%nat → length (md_block ctx) = 16%nat → represents (MD5_Init ctx) [].
Proof.
  intros ??. exists [], []. split; [done|]. split; [simpl; lia|]. split; [|done].
  constructor; try done; [by exists 0%nat|simpl; lia|apply Forall_nil_2].
Qed.

(** Splitting off the part of a message that does not fill a block. *)
Lemma msg_split (msg : list Z) :
  ∃ k full tail, msg = full ++ tail ∧ length full = (64 * k)%nat ∧ (length tail < 64)%nat ∧
    k = (length msg / 64)%nat.
Proof.
  pose proof (Nat.div_mod_eq (length msg) 64). pose proof (Nat.mod_upper_bound (length msg) 64).
  exists (length msg / 64)%nat, (take (64 * (length msg / 64)) msg), (drop (64 * (length msg / 64)) msg).
  rewrite take_drop, length_take, length_drop. split_and!; try done; lia.
Qed.

(** The two counters after an update. *)
Lemma count_update len size :
  0 ≤ len → 0 ≤ size →
  let lo := len mod 2 ^ 29 in
  let lo' := Z.land (wrap PTR_W (lo + size)) 0x1fffffff in
  lo' = (len + size) mod 2 ^ 29 ∧
  u32 ((if lo' <? lo then u32 ((len / 2 ^ 29) mod 2 ^ 32 + 1) else (len / 2 ^ 29) mod 2 ^ 32) + Z.shiftr size 29) =
    ((len + size) / 2 ^ 29) mod 2 ^ 32.
Proof.
  intros Hlen Hsize lo lo'.
  assert (lo' = (len + size) mod 2 ^ 29) as Elo.
  { unfold lo', lo. change 0x1fffffff with (Z.ones 29). rewrite Z.land_ones by lia. unfold wrap.
    pose proof PTR_W_ge. replace PTR_W with (29 + (PTR_W - 29)) by lia.
    rewrite Z.pow_add_r by lia. rewrite Z.mod_mod_divide by apply Z.divide_factor_l.
    by rewrite Zplus_mod_idemp_l. }
  split; [exact Elo|]. rewrite Elo, Z.shiftr_div_pow2 by lia. unfold lo, wrap.
  assert ((len + size) / 2 ^ 29 = len / 2 ^ 29 + size / 2 ^ 29 +
          (if (len + size) mod 2 ^ 29 <? len mod 2 ^ 29 then 1 else 0)) as ->.
  { zcase; Z.div_mod_to_equations; lia. }
  zcase.
  - rewrite Zplus_mod_idemp_l, <- !Z.add_assoc, Zplus_mod_idemp_l. f_equal. lia.
  - rewrite Zplus_mod_idemp_l. f_equal. lia.
Qed.

Lemma put_ok i l ctx :
  length (md_buffer ctx) = 64%nat → 0 ≤ i → i + Z.of_nat (length l) ≤ 64 →
  put i l ctx = Ok (with_buffer (take (Z.to_nat i) (md_buffer ctx) ++ l ++
                                 drop (Z.to_nat i + length l) (md_buffer ctx)) ctx).
Proof.
  intros Hb Hi Hl. unfold put. cbv zeta. rewrite Hb, (proj2 (Z.leb_le 0 i)), (proj2 (Z.leb_le _ (Z.of_nat 64))) by lia.
  done.
Qed.

Lemma length_splice i (l buf : list Z) :
  length buf = 64%nat → (i + length l ≤ 64)%nat → length (take i buf ++ l ++ drop (i + length l) buf) = 64%nat.
Proof. intros. rewrite !length_app, length_take, length_drop. lia. Qed.

Lemma land_63 x : Z.land x 0x3f = x mod 64.
Proof. change 0x3f with (Z.ones 6). by rewrite Z.land_ones. Qed.

Lemma land_not_63 x : 0 ≤ x < 2 ^ PTR_W → Z.land x (wrap PTR_W (Z.lnot 0x3f)) = 64 * (x / 64).
Proof.
  intros Hx. pose proof PTR_W_ge. unfold wrap. rewrite <- Z.land_ones by lia.
  rewrite (Z.land_comm (Z.lnot _)), Z.land_assoc, Z.land_ones, Z.mod_small, <- Z.ldiff_land by lia.
  change 0x3f with (Z.ones 6). rewrite Z.ldiff_ones_r, Z.shiftl_mul_pow2, Z.shiftr_div_pow2 by lia.
  change (2 ^ 6) with 64. lia.
Qed.

Lemma Z_div64 (n : nat) : Z.of_nat n / 64 = Z.of_nat (n / 64).
Proof. by rewrite Nat2Z.inj_div. Qed.

Lemma Z_mod64 (n : nat) : Z.of_nat n mod 64 = Z.of_nat (n `mod` 64).
Proof. by rewrite Nat2Z.inj_mod. Qed.

(** Adding bytes to the buffer. *)
Lemma put_holds ctx full tail l :
  holds ctx full tail → (length tail + length l ≤ 64)%nat → byte_list l →
  ∃ ctx', put (Z.of_nat (length tail)) l ctx = Ok ctx' ∧ holds ctx' full (tail ++ l) ∧
    md_lo ctx' = md_lo ctx ∧ md_hi ctx' = md_hi ctx.
Proof.
  intros [Hfull Htl Hst Hbf Hbuf Hblk Hbt] Hl Hb. rewrite put_ok by (done || lia).
  eexists. split; [done|]. rewrite Nat2Z.id, Hbf. split; [|done].
  constructor; try done; cbn [md_buffer with_buffer].
  - rewrite length_app. lia.
  - rewrite app_assoc. apply take_app_length.
  - rewrite !length_app, length_drop. lia.
  - by apply Forall_app.
Qed.

(** Hashing a full buffer. *)
Lemma flush_holds ctx full tail :
  holds ctx full tail → length tail = 64%nat →
  ∃ ctx', body ctx (md_buffer ctx) 64 = Ok (ctx', []) ∧ holds ctx' (full ++ tail) [] ∧
    md_lo ctx' = md_lo ctx ∧ md_hi ctx' = md_hi ctx.
Proof.
  intros [[k Hfull] Htl Hst Hbf Hbuf Hblk Hbt] Hl.
  rewrite Hl, <- Hbuf, firstn_all in Hbf.
  destruct (body_ok 0 (md_buffer ctx) [] 64 ctx) as (blk & Eb & Hblk').
  - lia.
  - lia.
  - pose proof PTR_W_ge. apply (Z.lt_le_trans _ (2 ^ 32)); [done|]. apply Z.pow_le_mono_r; lia.
  - rewrite app_nil_r. by rewrite Hbf.
  - done.
  - rewrite Hst. apply hash_quad_ok, IV_ok.
  - rewrite app_nil_r in Eb. eexists. split; [exact Eb|]. split; [|done].
    constructor; try done.
    + exists (k + 1)%nat. rewrite length_app. lia.
    + simpl; lia.
    + rewrite (hash_app _ _ _ _ Hfull), <- Hst, <- Hbf. done.
    + apply Forall_nil_2.
Qed.

Lemma memcpy_in_take i (l : list Z) n ctx :
  0 ≤ n ≤ Z.of_nat (length l) → memcpy_in i l n ctx = put i (take (Z.to_nat n) l) ctx.
Proof. intros ?. unfold memcpy_in. by destruct (Z.leb_spec n (Z.of_nat (length l))); [|lia]. Qed.

Lemma memcpy_in_all i (l : list Z) ctx : memcpy_in i l (Z.of_nat (length l)) ctx = put i l ctx.
Proof. rewrite memcpy_in_take by lia. by rewrite Nat2Z.id, firstn_all. Qed.

(** Hashing the full blocks of [data] and keeping the rest. *)
Lemma update_tail_ok ctx full data :
  holds ctx full [] → byte_list data → Z.of_nat (length data) < 2 ^ PTR_W →
  ∃ ctx' dfull tail, update_tail ctx data (Z.of_nat (length data)) = Ok ctx' ∧
    data = dfull ++ tail ∧ (length tail < 64)%nat ∧ holds ctx' (full ++ dfull) tail ∧
    md_lo ctx' = md_lo ctx ∧ md_hi ctx' = md_hi ctx.
Proof.
  intros Hh Hb Hw. unfold update_tail. pose proof Hh as [[k Hfull] _ Hst _ Hbuf Hblk _].
  destruct (msg_split data) as (j & dfull & tail & Ed & Hdf & Htl & Ej).
  assert (byte_list tail) as Hbt by (rewrite Ed in Hb; by apply Forall_app in Hb as [_ ?]).
  assert (length data = length dfull + length tail)%nat as El by (by rewrite Ed, length_app).
  destruct (Z.leb_spec 64 (Z.of_nat (length data))) as [Hge|Hlt].
  - destruct j as [|j]; [lia|].
    assert (64 * (Z.of_nat (length data) / 64) = Z.of_nat (length dfull)) as Esz by (rewrite Z_div64; lia).
    destruct (body_ok j dfull tail (Z.of_nat (length dfull)) ctx) as (blk & Eb & Hblk');
      [done|done|lia|by rewrite <- Ed|done|rewrite Hst; apply hash_quad_ok, IV_ok|].
    rewrite <- Ed in Eb. rewrite land_not_63, Esz, Eb by lia. cbn [mbind res_bind].
    assert (Z.land (Z.of_nat (length data)) 0x3f = Z.of_nat (length tail)) as ->.
    { rewrite land_63. rewrite Z.mod_eq, Esz by done. lia. }
    rewrite memcpy_in_all.
    destruct (put_holds (with_state (Ref.hash (md_abcd ctx) dfull) blk ctx) (full ++ dfull) [] tail)
      as (ctx' & E & Hh' & ? & ?); [|simpl; lia|done|by eexists ctx', dfull, tail].
    constructor; try done; [|simpl; lia| |apply Forall_nil_2].
    + exists (k + S j)%nat. rewrite length_app. lia.
    + rewrite (hash_app _ _ _ _ Hfull), <- Hst. done.
  - cbn [mbind res_bind]. rewrite memcpy_in_all.
    destruct (put_holds ctx full [] data Hh) as (ctx' & E & Hh' & ? & ?); [simpl; lia|done|].
    exists ctx', [], data. rewrite app_nil_r. split_and!; try done. lia.
Qed.

Lemma counts_used ctx full tail msg :
  holds ctx full tail → msg = full ++ tail → (length tail < 64)%nat → counts ctx (Z.of_nat (length msg)) →
  Z.land (md_lo ctx) 0x3f = Z.of_nat (length tail).
Proof.
  intros Hh -> Htl [Hlo _]. destruct (ho_full _ _ _ Hh) as [k Hk].
  rewrite land_63, Hlo. change (2 ^ 29) with (64 * 2 ^ 23).
  rewrite Z.mod_mod_divide by apply Z.divide_factor_l. rewrite length_app, Hk.
  replace (Z.of_nat (64 * k + length tail)) with (Z.of_nat (length tail) + Z.of_nat k * 64) by lia.
  rewrite Z_mod_plus_full, Z.mod_small; lia.
Qed.

Definition new_lo (lo size : Z) : Z := Z.land (wrap PTR_W (lo + size)) 0x1fffffff.
Definition new_hi (lo hi size : Z) : Z :=
  u32 ((if new_lo lo size <? lo then u32 (hi + 1) else hi) + Z.shiftr size 29).

Lemma counts_update ctx len size :
  0 ≤ len → 0 ≤ size → counts ctx len →
  counts (with_count (new_lo (md_lo ctx) size) (new_hi (md_lo ctx) (md_hi ctx) size) ctx) (len + size).
Proof.
  intros ?? [Hlo Hhi]. destruct (count_update len size) as [Clo Chi]; [done|done|]. cbv zeta in Clo, Chi.
  unfold counts, new_hi, new_lo. cbn [md_lo md_hi with_count]. rewrite Hlo, Hhi. split; [exact Clo|exact Chi].
Qed.

Lemma counts_ext ctx ctx' len :
  counts ctx len → md_lo ctx' = md_lo ctx → md_hi ctx' = md_hi ctx → counts ctx' len.
Proof. unfold counts. intros ? -> ->. done. Qed.

Lemma md5_update_ok ctx msg data :
  represents ctx msg → byte_list data → Z.of_nat (length data) < 2 ^ PTR_W →
  ∃ ctx', MD5_Update ctx data = Ok ctx' ∧ represents ctx' (msg ++ data).
Proof.
  intros (full & tail & Em & Htl & Hh & Hc) Hb Hw.
  pose proof (counts_used _ _ _ _ Hh Em Htl Hc) as Hused.
  apply (counts_update _ _ (Z.of_nat (length data))) in Hc; [|lia|lia].
  rewrite <- Nat2Z.inj_add, <- length_app in Hc.
  unfold MD5_Update. cbv zeta. rewrite Hused.
  fold (new_lo (md_lo ctx) (Z.of_nat (length data))).
  fold (new_hi (md_lo ctx) (md_hi ctx) (Z.of_nat (length data))).
  set (ctx1 := with_count _ _ ctx) in *.
  assert (holds ctx1 full tail) as Hh1 by (by destruct Hh; constructor). clearbody ctx1.
  destruct (Z.eqb_spec (Z.of_nat (length tail)) 0) as [E0|E0]; cbn [negb].
  - destruct tail; [|simpl in E0; lia]. rewrite app_nil_r in Em. subst full.
    destruct (update_tail_ok ctx1 msg data Hh1 Hb Hw) as (ctx' & df & t & -> & Ed & Ht & Hh' & ? & ?).
    exists ctx'. split; [done|]. exists (msg ++ df), t.
    rewrite <- app_assoc, <- Ed. split_and!; [done|done|done|by apply (counts_ext _ _ _ Hc)].
  - destruct (Z.ltb_spec (Z.of_nat (length data)) (64 - Z.of_nat (length tail))) as [Hlt|Hge].
    + rewrite memcpy_in_all. destruct (put_holds ctx1 full tail data Hh1) as (ctx' & E & Hh' & ? & ?); [lia|done|].
      exists ctx'. split; [done|]. exists full, (tail ++ data).
      split_and!; [by rewrite Em, app_assoc|rewrite length_app; lia|done|by apply (counts_ext _ _ _ Hc)].
    + rewrite memcpy_in_take by lia.
      assert (∃ av, Z.to_nat (64 - Z.of_nat (length tail)) = av ∧ (length tail + av = 64)%nat) as (av & -> & Hav)
        by (eexists; split; [done|lia]).
      assert (length (take av data) = av) as Eav by (rewrite length_take; lia).
      assert (Z.of_nat (length data) - (64 - Z.of_nat (length tail)) = Z.of_nat (length (drop av data))) as ->
        by (rewrite length_drop; lia).
      assert (byte_list (take av data) ∧ byte_list (drop av data)) as [Hbt Hbd]
        by (split; [by apply Forall_take|by apply Forall_drop]).
      assert (Z.of_nat (length (drop av data)) < 2 ^ PTR_W) as Hwd by (rewrite length_drop; lia).
      destruct (put_holds ctx1 full tail (take av data) Hh1) as (c1 & -> & Hh2 & El & Eh); [lia|done|].
      destruct (flush_holds _ _ _ Hh2) as (c2 & Eb & Hh3 & El' & Eh'); [rewrite length_app; lia|].
      rewrite Ok_bind, Eb, Ok_bind. cbv beta iota.
      destruct (update_tail_ok c2 _ (drop av data) Hh3 Hbd Hwd) as (ctx' & df & t & -> & Ed & Ht & Hh' & El'' & Eh'').
      exists ctx'. split; [done|]. eexists _, t. split; [|split; [done|split; [exact Hh'|]]].
      * rewrite <- !app_assoc, <- Ed, take_drop, Em. by rewrite <- app_assoc.
      * apply (counts_ext _ _ _ Hc); congruence.
Qed.

(** ** Padding *)

Lemma OUT_le x : OUT x = Ref.le 4 x.
Proof.
  unfold OUT, Ref.le. let l := eval vm_compute in (seqZ 0 4) in change (seqZ 0 4) with l.
  cbn [fmap list_fmap]. unfold byte_of, wrap. rewrite !Z.shiftr_div_pow2 by lia. by rewrite Z.div_1_r.
Qed.

(** Byte [i] of the low and of the high word of a 64-bit value. *)
Lemma byte_of_low v i : 0 ≤ i < 4 → byte_of (v mod 2 ^ 32) i = byte_of v i.
Proof.
  intros Hi. unfold byte_of. change 256 with (2 ^ 8). rewrite <- Z.pow_mul_r by lia.
  apply Z.bits_inj'. intros n Hn. destruct (decide (n < 8)).
  - rewrite !Z.mod_pow2_bits_low, !Z.div_pow2_bits, Z.mod_pow2_bits_low by lia. done.
  - by rewrite !Z.mod_pow2_bits_high by lia.
Qed.

Lemma byte_of_high v i : 0 ≤ i < 4 → byte_of ((v / 2 ^ 32) mod 2 ^ 32) i = byte_of v (i + 4).
Proof.
  intros Hi. rewrite byte_of_low by done. unfold byte_of. rewrite Z.div_div by lia.
  do 2 f_equal. change (2 ^ 32) with (256 ^ 4). rewrite <- Z.pow_add_r by lia. f_equal. lia.
Qed.

Lemma le_8 v : Ref.le 8 v = Ref.le 4 (v mod 2 ^ 32) ++ Ref.le 4 ((v / 2 ^ 32) mod 2 ^ 32).
Proof.
  unfold Ref.le. let l := eval vm_compute in (seqZ 0 4) in change (seqZ 0 4) with l.
  let l := eval vm_compute in (seqZ 0 8) in change (seqZ 0 8) with l.
  cbn [fmap list_fmap app]. by rewrite !byte_of_high, !byte_of_low by lia.
Qed.

Lemma le_counts ctx len :
  0 ≤ len → counts ctx len → OUT (u32 (Z.shiftl (md_lo ctx) 3)) ++ OUT (md_hi ctx) = Ref.le 8 (8 * len).
Proof.
  intros Hlen [-> ->]. rewrite !OUT_le, le_8. do 2 f_equal.
  - rewrite Z.shiftl_mul_pow2 by lia. unfold wrap. change (2 ^ 3) with 8.
    change (2 ^ 32) with (8 * 2 ^ 29). rewrite Z.mul_mod_distr_l by lia.
    rewrite (Z.mul_comm _ 8), Z.mul_mod_distr_l by lia. by rewrite Zmod_mod.
  - change (2 ^ 32) with (8 * 2 ^ 29) at 2. by rewrite Z.div_mul_cancel_l by lia.
Qed.

Lemma le_bytes k v : byte_list (Ref.le k v).
Proof. apply Forall_fmap, Forall_true. intros i. by apply Z.mod_pos_bound. Qed.

Lemma zeros_bytes k : byte_list (replicate k 0).
Proof. apply Forall_replicate. lia. Qed.

Lemma length_le4 v : length (OUT v) = 4%nat.
Proof. done. Qed.

Definition digest (st : quad) : list Z :=
  let '(a, b, c, d) := st in Ref.le 4 a ++ Ref.le 4 b ++ Ref.le 4 c ++ Ref.le 4 d.

(** The last block: zeros and the length. *)
Lemma final_block_ok ctx full tail len :
  holds ctx full tail → (length tail ≤ 56)%nat → counts ctx len → 0 ≤ len →
  final_block ctx (Z.of_nat (length tail)) (64 - Z.of_nat (length tail)) =
    Ok (digest (Ref.hash IV (full ++ tail ++ replicate (56 - length tail) 0 ++ Ref.le 8 (8 * len))), cleared).
Proof.
  intros Hh Hl Hc Hlen. unfold final_block.
  replace (Z.to_nat (64 - Z.of_nat (length tail) - 8)) with (56 - length tail)%nat by lia.
  set (z := replicate (56 - length tail) 0).
  assert (length z = (56 - length tail)%nat) as Hz by apply length_replicate.
  destruct (put_holds ctx full tail z Hh) as (c1 & -> & H1 & L1 & K1); [lia|apply zeros_bytes|].
  rewrite Ok_bind. cbv zeta. set (c1' := with_count _ _ c1).
  assert (holds c1' full (tail ++ z)) as H1' by (by destruct H1; constructor).
  assert (OUT (md_lo c1') ++ OUT (md_hi c1') = Ref.le 8 (8 * len)) as <-.
  { apply (le_counts c1 len); [done|]. by apply (counts_ext _ _ _ Hc). }
  clearbody c1'.
  destruct (put_holds _ _ _ (OUT (md_lo c1')) H1') as (c2 & E2 & H2 & L2 & K2);
    [rewrite length_app, length_le4; lia|rewrite OUT_le; apply le_bytes|].
  rewrite length_app in E2. replace (Z.of_nat (length tail + length z)) with 56 in E2 by lia.
  rewrite E2, Ok_bind.
  destruct (put_holds _ _ _ (OUT (md_hi c2)) H2) as (c3 & E3 & H3 & L3 & K3);
    [rewrite !length_app, !length_le4; lia|rewrite OUT_le; apply le_bytes|].
  rewrite !length_app, length_le4 in E3. replace (Z.of_nat (length tail + length z + 4)) with 60 in E3 by lia.
  rewrite E3, Ok_bind.
  destruct (flush_holds _ _ _ H3) as (c4 & E4 & H4 & _); [rewrite !length_app, !length_le4; lia|].
  rewrite E4, Ok_bind. cbv beta iota. pose proof (ho_state _ _ _ H4) as Hst.
  rewrite K2, <- !app_assoc in Hst. rewrite <- Hst.
  destruct (md_abcd c4) as [[[a b] c] d]. unfold digest. by rewrite !OUT_le.
Qed.

(** The first bit, and the zeros of a block that has no room for the length. *)
Lemma open_holds ctx full tail :
  holds ctx full tail → (length tail < 64)%nat →
  ∃ c1, put (Z.of_nat (length tail)) [0x80] ctx = Ok c1 ∧ holds c1 full (tail ++ [0x80]) ∧
    md_lo c1 = md_lo ctx ∧ md_hi c1 = md_hi ctx ∧
    ((56 ≤ length tail)%nat → ∃ c2 c3,
      put (Z.of_nat (length tail) + 1) (replicate (63 - length tail) 0) c1 = Ok c2 ∧
      body c2 (md_buffer c2) 64 = Ok (c3, []) ∧
      holds c3 (full ++ tail ++ [0x80] ++ replicate (63 - length tail) 0) [] ∧
      md_lo c3 = md_lo ctx ∧ md_hi c3 = md_hi ctx).
Proof.
  intros Hh Hl. destruct (put_holds ctx full tail [0x80] Hh) as (c1 & E1 & H1 & L1 & K1);
    [simpl; lia|by apply Forall_singleton|].
  exists c1. split_and!; try done. intros H56.
  destruct (put_holds _ _ _ (replicate (63 - length tail) 0) H1) as (c2 & E2 & H2 & L2 & K2);
    [rewrite length_app, length_replicate; simpl; lia|apply zeros_bytes|].
  rewrite length_app in E2. cbn [length] in E2.
  replace (Z.of_nat (length tail + 1)) with (Z.of_nat (length tail) + 1) in E2 by lia.
  destruct (flush_holds _ _ _ H2) as (c3 & E3 & H3 & L3 & K3);
    [rewrite !length_app, length_replicate; simpl; lia|].
  exists c2, c3. rewrite <- app_assoc in H3. split_and!; try done; congruence.
Qed.

Lemma padding_zeros k (full tail : list Z) :
  length full = (64 * k)%nat → (length tail < 64)%nat →
  Z.to_nat ((55 - Z.of_nat (length (full ++ tail))) mod 64) =
    if decide (56 ≤ length tail)%nat then (63 - length tail + 56)%nat else (55 - length tail)%nat.
Proof.
  intros Hk Hl. rewrite length_app, Hk.
  replace (55 - Z.of_nat (64 * k + length tail)) with (55 - Z.of_nat (length tail) + (- Z.of_nat k) * 64) by lia.
  rewrite Z_mod_plus_full. destruct (decide _).
  - rewrite <- (Z_mod_plus_full _ 1), Z.mod_small by lia. lia.
  - rewrite Z.mod_small by lia. lia.
Qed.

Lemma md5_final_ok ctx msg : represents ctx msg → MD5_Final ctx = Ok (Ref.md5 msg, cleared).
Proof.
  intros (full & tail & Em & Htl & Hh & Hc). unfold MD5_Final.
  rewrite (counts_used _ _ _ _ Hh Em Htl Hc).
  destruct (ho_full _ _ _ Hh) as [k Hk].
  destruct (open_holds _ _ _ Hh Htl) as (c1 & -> & H1 & L1 & K1 & H56). rewrite Ok_bind. cbv zeta.
  pose proof (padding_zeros k full tail Hk Htl) as Hz. rewrite <- Em in Hz.
  assert (Ref.md5 msg = digest (Ref.hash IV (Ref.pad msg))) as -> by done.
  unfold Ref.pad, Ref.padding. rewrite Hz, Em.
  destruct (Z.ltb_spec (64 - (Z.of_nat (length tail) + 1)) 8) as [Hlt|Hge].
  - rewrite decide_True by lia. destruct H56 as (c2 & c3 & E2 & E3 & H3 & L3 & K3); [lia|].
    replace (Z.to_nat (64 - (Z.of_nat (length tail) + 1))) with (63 - length tail)%nat by lia.
    rewrite E2, Ok_bind, E3, Ok_bind. cbv beta iota.
    rewrite Em in Hc.
    assert (counts c3 (Z.of_nat (length (full ++ tail)))) as Hc3 by (by apply (counts_ext _ _ _ Hc)).
    pose proof (final_block_ok c3 _ [] _ H3 ltac:(simpl; lia) Hc3 ltac:(lia)) as Ef.
    change (final_block c3 0 64 = Ok (digest (Ref.hash IV ((full ++ tail ++ [0x80] ++ replicate (63 - length tail) 0) ++
      replicate 56 0 ++ Ref.le 8 (8 * Z.of_nat (length (full ++ tail))))), cleared)) in Ef.
    rewrite Ef, replicate_add, <- !app_assoc. done.
  - rewrite decide_False by lia. rewrite Em in Hc.
    replace (Z.of_nat (length tail) + 1) with (Z.of_nat (length (tail ++ [0x80])))
      by (rewrite length_app; simpl; lia).
    rewrite (final_block_ok c1 _ _ (Z.of_nat (length (full ++ tail))) H1); [|rewrite length_app; simpl; lia|by apply (counts_ext _ _ _ Hc)|lia].
    rewrite length_app. cbn [length]. replace (56 - (length tail + 1))%nat with (55 - length tail)%nat by lia.
    by rewrite <- !app_assoc.
Qed.

(** C26: Whatever the pieces in which a message is handed over, and whatever the
    context held before, the result is the digest of the whole message; the
    context is cleared, and no access is out of bounds. *)
Theorem md5_streams ctx pieces :
  length (md_buffer ctx) = 64%nat → length (md_block ctx) = 16%nat →
  Forall (λ l, byte_list l ∧ Z.of_nat (length l) < 2 ^ PTR_W) pieces →
  md5_stream ctx pieces = Ok (Ref.md5 (concat pieces), cleared).
Proof.
  intros Hb Hk Hp. unfold md5_stream.
  enough (∀ c msg, represents c msg → ∃ c', md5_updates c pieces = Ok c' ∧ represents c' (msg ++ concat pieces)) as Hu.
  { destruct (Hu (MD5_Init ctx) []) as (c' & -> & Hr); [by apply init_represents|].
    rewrite Ok_bind. by apply md5_final_ok. }
  clear Hb Hk. induction Hp as [|l ls [Hl Hlen] Hp IH]; intros c msg Hr; cbn [md5_updates concat].
  - exists c. by rewrite app_nil_r.
  - destruct (md5_update_ok c msg l Hr Hl Hlen) as (c' & -> & Hr'). rewrite Ok_bind, app_assoc. by apply IH.
Qed.

End Stream.

(** Pieces that leave a partial block, fill it, and run over several blocks. *)
Definition ctx0 : MD5_CTX :=
  {| md_lo := 9; md_hi := 9; md_abcd := (1, 2, 3, 4); md_buffer := replicate 64 5; md_block := replicate 16 6 |}.

Lemma md5_streams_witness :
  (let pieces := [replicate 60 97; [98]; replicate 150 99] in
   @md5_stream arch32 ctx0 pieces = Ok (Ref.md5 (concat pieces), cleared)) ∧
  @md5_stream arch32 ctx0 [[97]; [98; 99]] =
    Ok ([0x90; 0x01; 0x50; 0x98; 0x3c; 0xd2; 0x4f; 0xb0; 0xd6; 0x96; 0x3f; 0x7d; 0x28; 0xe1; 0x7f; 0x72], cleared).
Proof.
  split.
  - apply (@md5_streams arch32); [done|done|]. repeat constructor; cbn; lia.
  - by vm_compute.
Defined.
