(* ===== verification/Mqtt.v ===== *)
(** * The MQTT client (lib/mqtt/mqtt.c, mqtt.h)

    One client used by one thread: a semaphore is then a counter (a wait at zero
    can only time out, or blocks for ever), and msg_list is the sequence of the
    requests in flight (EntryList shows that the linked list is one).  The
    network is the [read] and [write] methods that the application supplies.
    Local arrays are maps with the bounds of the array; a cell never written is
    not in the map.  Uninitialised local variables are arguments. *)

From S2P Require Import Prelude.
Local Open Scope Z_scope.

(** ** Constants *)

Definition FLAGS_SUBSCRIBE : Z := 2.
Definition FLAGS_PUBLISH_QOS_S : Z := 1.
Definition FLAGS_PUBLISH_QOS_M : Z := Z.shiftl 3 FLAGS_PUBLISH_QOS_S.
Definition FLAGS_PUBLISH_QOS (n : Z) : Z := Z.shiftl n FLAGS_PUBLISH_QOS_S.
Definition MQTT_CONTROL_M : Z := 0xf0.
Definition CONTROL_CONNECT : Z := 0x10.
Definition CONTROL_CONNACK : Z := 0x20.
Definition CONTROL_PUBLISH : Z := 0x30.
Definition CONTROL_PUBACK : Z := 0x40.
Definition CONTROL_PUBREC : Z := 0x50.
Definition CONTROL_PUBREL : Z := 0x60.
Definition CONTROL_PUBCOMP : Z := 0x70.
Definition CONTROL_SUBSCRIBE : Z := 0x80.
Definition CONTROL_SUBACK : Z := 0x90.
Definition CONTROL_PINGREQ : Z := 0xc0.
Definition CONTROL_PINGRESP : Z := 0xd0.
Definition CONTROL_DISCONNECT : Z := 0xe0.
Definition MQTT_VERSION_3_1_1 : Z := 4.
Definition FLAG_CLEAN_SESSION : Z := 2.

Definition MQTT_ERR_OK : Z := 0.
Definition MQTT_ERR_REQ : Z := -1.
Definition MQTT_ERR_TIMEOUT : Z := -2.
Definition MQTT_ERR_CONN : Z := -3.
Definition MQTT_ERR_UNKNOWN : Z := -4.

(** ** Data *)

(** enum mqtt_msg_state *)
Inductive mqtt_msg_state :=
| MSG_STATE_CONNECT | MSG_STATE_CONNACK | MSG_STATE_PUBLISH | MSG_STATE_PUBACK | MSG_STATE_PUBREC
| MSG_STATE_PUBREL | MSG_STATE_PUBCOMP | MSG_STATE_SUBSCRIBE | MSG_STATE_SUBACK | MSG_STATE_PINGREQ
| MSG_STATE_PINGRESP.

#[export] Instance mqtt_msg_state_eq_dec : EqDecision mqtt_msg_state.
Proof. solve_decision. Defined.

Definition state_is (s t : mqtt_msg_state) : bool := bool_decide (s = t).

(** enum mqtt_connection_event *)
Inductive mqtt_connection_event := MQTT_EVENT_CONNECTED | MQTT_EVENT_DISCONNECTED.

(** struct mqtt_request; [data] and [topic] are the objects pointed to ([None]
    is NULL). *)
Record mqtt_request := {
  rq_data : option (list Z);
  rq_data_len : Z;
  rq_topic : option (list Z);
  rq_topic_len : Z;
  rq_qos : Z;
  rq_error : Z;
  rq_packet_id : Z;
  rq_state : mqtt_msg_state;
  rq_complete : Z;
  rq_status : Z
}.

Definition rq_set_state (s : mqtt_msg_state) (m : mqtt_request) : mqtt_request :=
  {| rq_data := rq_data m; rq_data_len := rq_data_len m; rq_topic := rq_topic m;
     rq_topic_len := rq_topic_len m; rq_qos := rq_qos m; rq_error := rq_error m;
     rq_packet_id := rq_packet_id m; rq_state := s; rq_complete := rq_complete m;
     rq_status := rq_status m |}.
Definition rq_set_complete (n : Z) (m : mqtt_request) : mqtt_request :=
  {| rq_data := rq_data m; rq_data_len := rq_data_len m; rq_topic := rq_topic m;
     rq_topic_len := rq_topic_len m; rq_qos := rq_qos m; rq_error := rq_error m;
     rq_packet_id := rq_packet_id m; rq_state := rq_state m; rq_complete := n;
     rq_status := rq_status m |}.
Definition rq_set_packet_id (n : Z) (m : mqtt_request) : mqtt_request :=
  {| rq_data := rq_data m; rq_data_len := rq_data_len m; rq_topic := rq_topic m;
     rq_topic_len := rq_topic_len m; rq_qos := rq_qos m; rq_error := rq_error m;
     rq_packet_id := n; rq_state := rq_state m; rq_complete := rq_complete m;
     rq_status := rq_status m |}.
Definition rq_set_error (n : Z) (m : mqtt_request) : mqtt_request :=
  {| rq_data := rq_data m; rq_data_len := rq_data_len m; rq_topic := rq_topic m;
     rq_topic_len := rq_topic_len m; rq_qos := rq_qos m; rq_error := n;
     rq_packet_id := rq_packet_id m; rq_state := rq_state m; rq_complete := rq_complete m;
     rq_status := rq_status m |}.
Definition rq_set_status (n : Z) (m : mqtt_request) : mqtt_request :=
  {| rq_data := rq_data m; rq_data_len := rq_data_len m; rq_topic := rq_topic m;
     rq_topic_len := rq_topic_len m; rq_qos := rq_qos m; rq_error := rq_error m;
     rq_packet_id := rq_packet_id m; rq_state := rq_state m; rq_complete := rq_complete m;
     rq_status := n |}.

(** ** Local arrays: [uint8_t data[128]] *)

Abbreviation buf_t := (gmap Z Z).

Definition wr (i v : Z) (b : buf_t) : res buf_t :=
  if (0 <=? i) && (i <? 128) then Ok (<[i := u8 v]> b) else Err Fault.
Definition rd (i : Z) (b : buf_t) : res Z := load b i.

Fixpoint wr_list (i : Z) (l : list Z) (b : buf_t) : res buf_t :=
  match l with [] => Ok b | v :: l => b ← wr i v b; wr_list (i + 1) l b end.

Fixpoint rd_list (i : Z) (n : nat) (b : buf_t) : res (list Z) :=
  match n with O => Ok [] | S n => v ← rd i b; l ← rd_list (i + 1) n b; Ok (v :: l) end.

(** [memcpy(&data[i], p, len)], [len] being an int. *)
Definition wr_obj (i : Z) (p : option (list Z)) (len : Z) (b : buf_t) : res buf_t :=
  if len =? 0 then Ok b else
  match p with
  | Some l => if (0 <? len) && (len <=? Z.of_nat (length l))
              then wr_list i (take (Z.to_nat len) l) b else Err Fault
  | None => Err Fault
  end.

(** ** The client *)

(** struct mqtt_network: the methods of the application.  A read returns its
    result and the bytes it stored. *)
Class Network (N : Type) := {
  net_read : Z → N → Z * list Z * N;
  net_write : list Z → N → Z * N
}.

(** A call of an application callback.  [msgcb] is given pointers into the
    array of the caller: the bytes that they and their lengths span, [None] when
    that leaves the bytes received. *)
Inductive callback :=
| Event (ev : mqtt_connection_event)
| Message (topic data : option (list Z)) (packet_id : Z).

Section Client.
Context {N : Type} `{Network N}.

(** struct mqtt_client; [mc_mem] holds the requests by address and [mc_log] the
    callbacks made so far. *)
Record mqtt_client := {
  mc_net : N;
  mc_sem_send : Z;
  mc_event : bool;
  mc_msgcb : bool;
  mc_msg_mtx : Z;
  mc_msg_list : list Z;
  mc_next_id : Z;
  mc_mtx : Z;
  mc_connected : Z;
  mc_mem : gmap Z mqtt_request;
  mc_log : list callback
}.

Definition set_net (v : N) (c : mqtt_client) : mqtt_client :=
  {| mc_net := v; mc_sem_send := mc_sem_send c; mc_event := mc_event c; mc_msgcb := mc_msgcb c;
     mc_msg_mtx := mc_msg_mtx c; mc_msg_list := mc_msg_list c; mc_next_id := mc_next_id c;
     mc_mtx := mc_mtx c; mc_connected := mc_connected c; mc_mem := mc_mem c; mc_log := mc_log c |}.
Definition set_sem_send (v : Z) (c : mqtt_client) : mqtt_client :=
  {| mc_net := mc_net c; mc_sem_send := v; mc_event := mc_event c; mc_msgcb := mc_msgcb c;
     mc_msg_mtx := mc_msg_mtx c; mc_msg_list := mc_msg_list c; mc_next_id := mc_next_id c;
     mc_mtx := mc_mtx c; mc_connected := mc_connected c; mc_mem := mc_mem c; mc_log := mc_log c |}.
Definition set_msg_mtx (v : Z) (c : mqtt_client) : mqtt_client :=
  {| mc_net := mc_net c; mc_sem_send := mc_sem_send c; mc_event := mc_event c; mc_msgcb := mc_msgcb c;
     mc_msg_mtx := v; mc_msg_list := mc_msg_list c; mc_next_id := mc_next_id c;
     mc_mtx := mc_mtx c; mc_connected := mc_connected c; mc_mem := mc_mem c; mc_log := mc_log c |}.
Definition set_msg_list (v : list Z) (c : mqtt_client) : mqtt_client :=
  {| mc_net := mc_net c; mc_sem_send := mc_sem_send c; mc_event := mc_event c; mc_msgcb := mc_msgcb c;
     mc_msg_mtx := mc_msg_mtx c; mc_msg_list := v; mc_next_id := mc_next_id c;
     mc_mtx := mc_mtx c; mc_connected := mc_connected c; mc_mem := mc_mem c; mc_log := mc_log c |}.
Definition set_next_id (v : Z) (c : mqtt_client) : mqtt_client :=
  {| mc_net := mc_net c; mc_sem_send := mc_sem_send c; mc_event := mc_event c; mc_msgcb := mc_msgcb c;
     mc_msg_mtx := mc_msg_mtx c; mc_msg_list := mc_msg_list c; mc_next_id := v;
     mc_mtx := mc_mtx c; mc_connected := mc_connected c; mc_mem := mc_mem c; mc_log := mc_log c |}.
Definition set_mtx (v : Z) (c : mqtt_client) : mqtt_client :=
  {| mc_net := mc_net c; mc_sem_send := mc_sem_send c; mc_event := mc_event c; mc_msgcb := mc_msgcb c;
     mc_msg_mtx := mc_msg_mtx c; mc_msg_list := mc_msg_list c; mc_next_id := mc_next_id c;
     mc_mtx := v; mc_connected := mc_connected c; mc_mem := mc_mem c; mc_log := mc_log c |}.
Definition set_connected (v : Z) (c : mqtt_client) : mqtt_client :=
  {| mc_net := mc_net c; mc_sem_send := mc_sem_send c; mc_event := mc_event c; mc_msgcb := mc_msgcb c;
     mc_msg_mtx := mc_msg_mtx c; mc_msg_list := mc_msg_list c; mc_next_id := mc_next_id c;
     mc_mtx := mc_mtx c; mc_connected := v; mc_mem := mc_mem c; mc_log := mc_log c |}.
Definition set_mem (v : gmap Z mqtt_request) (c : mqtt_client) : mqtt_client :=
  {| mc_net := mc_net c; mc_sem_send := mc_sem_send c; mc_event := mc_event c; mc_msgcb := mc_msgcb c;
     mc_msg_mtx := mc_msg_mtx c; mc_msg_list := mc_msg_list c; mc_next_id := mc_next_id c;
     mc_mtx := mc_mtx c; mc_connected := mc_connected c; mc_mem := v; mc_log := mc_log c |}.
Definition add_log (v : callback) (c : mqtt_client) : mqtt_client :=
  {| mc_net := mc_net c; mc_sem_send := mc_sem_send c; mc_event := mc_event c; mc_msgcb := mc_msgcb c;
     mc_msg_mtx := mc_msg_mtx c; mc_msg_list := mc_msg_list c; mc_next_id := mc_next_id c;
     mc_mtx := mc_mtx c; mc_connected := mc_connected c; mc_mem := mc_mem c; mc_log := mc_log c ++ [v] |}.

(** *** Semaphores and mutexes *)

(** A wait without timeout on a counter, and a post. *)
Definition wait (n : Z) : res Z := if 0 <? n then Ok (n - 1) else Err Blocked.
Definition post (n : Z) : Z := n + 1.

Definition lock_msg (c : mqtt_client) : res mqtt_client := n ← wait (mc_msg_mtx c); Ok (set_msg_mtx n c).
Definition unlock_msg (c : mqtt_client) : mqtt_client := set_msg_mtx (post (mc_msg_mtx c)) c.
Definition lock_mtx (c : mqtt_client) : res mqtt_client := n ← wait (mc_mtx c); Ok (set_mtx n c).
Definition unlock_mtx (c : mqtt_client) : mqtt_client := set_mtx (post (mc_mtx c)) c.

(** Fields of the request at [a]. *)
Definition ld_req (a : Z) (c : mqtt_client) : res mqtt_request := load (mc_mem c) a.
Definition upd_req (a : Z) (f : mqtt_request → mqtt_request) (c : mqtt_client) : res mqtt_client :=
  m ← ld_req a c; Ok (set_mem (<[a := f m]> (mc_mem c)) c).

(** mdx_sem_post(&m->complete) *)
Definition post_complete (a : Z) : mqtt_client → res mqtt_client :=
  upd_req a (λ m, rq_set_complete (post (rq_complete m)) m).

(** mdx_sem_timedwait(&m->complete, 1000000): 1 when there was a permit, 0 at
    the timeout. *)
Definition timedwait_complete (a : Z) (c : mqtt_client) : res (Z * mqtt_client) :=
  m ← ld_req a c;
  if 0 <? rq_complete m then
    Ok (1, set_mem (<[a := rq_set_complete (rq_complete m - 1) m]> (mc_mem c)) c)
  else Ok (0, c).

(** Appending a request to msg_list, and removing it, under the mutex. *)
Definition msg_append (a : Z) (c : mqtt_client) : res mqtt_client :=
  c ← lock_msg c; Ok (unlock_msg (set_msg_list (mc_msg_list c ++ [a]) c)).
Definition msg_remove (a : Z) (c : mqtt_client) : res mqtt_client :=
  c ← lock_msg c; Ok (unlock_msg (set_msg_list (filter (λ b, b ≠ a) (mc_msg_list c)) c)).

(** [for (m = msg_first(c); m != NULL; m = msg_next(c, m)) if (p m) { act; break; }] *)
Fixpoint msg_find (l : list Z) (p : mqtt_request → bool) (act : Z → mqtt_client → res mqtt_client)
    (c : mqtt_client) : res mqtt_client :=
  match l with
  | [] => Ok c
  | a :: l => m ← ld_req a c; if p m then act a c else msg_find l p act c
  end.

Definition with_msgs (p : mqtt_request → bool) (act : Z → mqtt_client → res mqtt_client)
    (c : mqtt_client) : res mqtt_client :=
  c ← lock_msg c;
  c ← msg_find (mc_msg_list c) p act c;
  Ok (unlock_msg c).

(** *** Transport *)

Fixpoint send_loop (fuel : nat) (data : buf_t) (sent len : Z) (c : mqtt_client) : res (Z * mqtt_client) :=
  match fuel with
  | O => Err NoFuel
  | S fuel =>
    if sent =? len then Ok (sent, c) else
    l ← rd_list sent (Z.to_nat (len - sent)) data;
    let '(ret, net) := net_write l (mc_net c) in
    let c := set_net net c in
    if ret <? 0 then Ok (sent, c) else send_loop fuel data (u32 (sent + ret)) len c
  end.

Definition mqtt_send (data : buf_t) (len : Z) (c : mqtt_client) : res (Z * mqtt_client) :=
  n ← wait (mc_sem_send c);
  let c := set_sem_send n c in
  '(sent, c) ← send_loop (S (Z.to_nat len)) data 0 len c;
  let c := set_sem_send (post (mc_sem_send c)) c in
  if sent =? len then Ok (0, c) else Ok (MQTT_ERR_CONN, c).

(** [mqtt_recv(net, &data[i], len)] *)
Definition mqtt_recv (i len : Z) (data : buf_t) (c : mqtt_client) : res (Z * buf_t * mqtt_client) :=
  let '(ret, l, net) := net_read len (mc_net c) in
  data ← wr_list i l data;
  Ok (ret, data, set_net net c).

(** *** Events *)

Definition mqtt_event (ev : mqtt_connection_event) (c : mqtt_client) : res mqtt_client :=
  c ← lock_mtx c;
  let v := match ev with MQTT_EVENT_CONNECTED => 1 | MQTT_EVENT_DISCONNECTED => 0 end in
  if mc_connected c =? v then Ok (unlock_mtx c) else
  let c := unlock_mtx (set_connected v c) in
  Ok (if mc_event c then add_log (Event ev) c else c).

(** *** Handlers of received packets *)

Definition handle_pingresp (data : buf_t) (c : mqtt_client) : res (Z * mqtt_client) :=
  '(err, _, c) ← mqtt_recv 1 1 data c;
  if negb (err =? 1) then Ok (MQTT_ERR_CONN, c) else
  c ← with_msgs (λ m, state_is (rq_state m) MSG_STATE_PINGREQ)
    (λ a c, c ← upd_req a (rq_set_state MSG_STATE_PINGRESP) c; post_complete a c) c;
  Ok (0, c).

Definition read_msg (size_expected : Z) (data : buf_t) (c : mqtt_client) : res (Z * buf_t * mqtt_client) :=
  '(err, data, c) ← mqtt_recv 1 1 data c;
  if negb (err =? 1) then Ok (MQTT_ERR_CONN, data, c) else
  rem ← rd 1 data;
  if negb (rem =? size_expected) then Ok (MQTT_ERR_UNKNOWN, data, c) else
  '(err, data, c) ← mqtt_recv 2 rem data c;
  if negb (err =? rem) then Ok (MQTT_ERR_CONN, data, c) else Ok (0, data, c).

(** [buf[i] << 8 | buf[i + 1]] *)
Definition rd16 (i : Z) (data : buf_t) : res Z :=
  h ← rd i data; l ← rd (i + 1) data; Ok (Z.lor (Z.shiftl h 8) l).

Definition handle_puback (data : buf_t) (c : mqtt_client) : res (Z * mqtt_client) :=
  '(err, data, c) ← read_msg 2 data c;
  if negb (err =? 0) then Ok (err, c) else
  packet_id ← rd16 2 data;
  c ← with_msgs (λ m, (rq_packet_id m =? packet_id) &&
                      (state_is (rq_state m) MSG_STATE_PUBLISH && (rq_qos m =? 1)))
    (λ a c, c ← upd_req a (rq_set_state MSG_STATE_PUBACK) c; post_complete a c) c;
  Ok (0, c).

(** A four-byte packet that carries the identifier of [m]. *)
Definition send_id (ctl : Z) (m : mqtt_request) (c : mqtt_client) : res (Z * mqtt_client) :=
  data ← wr_list 0 [ctl; 2; Z.shiftr (rq_packet_id m) 8; Z.land (rq_packet_id m) 0xff] ∅;
  '(err, c) ← mqtt_send data 4 c;
  if negb (err =? 0) then Ok (MQTT_ERR_CONN, c) else Ok (0, c).

Definition mqtt_send_pubrel (m : mqtt_request) : mqtt_client → res (Z * mqtt_client) :=
  send_id (Z.lor CONTROL_PUBREL 2) m.
Definition mqtt_send_puback (m : mqtt_request) : mqtt_client → res (Z * mqtt_client) :=
  send_id CONTROL_PUBACK m.

Definition handle_pubrec (data : buf_t) (c : mqtt_client) : res (Z * mqtt_client) :=
  '(err, data, c) ← read_msg 2 data c;
  if negb (err =? 0) then Ok (err, c) else
  packet_id ← rd16 2 data;
  c ← with_msgs (λ m, (rq_packet_id m =? packet_id) &&
                      (state_is (rq_state m) MSG_STATE_PUBLISH && (rq_qos m =? 2)))
    (λ a c, c ← upd_req a (rq_set_state MSG_STATE_PUBREC) c;
            m ← ld_req a c;
            '(_, c) ← mqtt_send_pubrel m c; Ok c) c;
  Ok (0, c).

Definition handle_pubcomp (data : buf_t) (c : mqtt_client) : res (Z * mqtt_client) :=
  '(err, data, c) ← read_msg 2 data c;
  if negb (err =? 0) then Ok (err, c) else
  packet_id ← rd16 2 data;
  c ← with_msgs (λ m, (rq_packet_id m =? packet_id) &&
                      (state_is (rq_state m) MSG_STATE_PUBREC && (rq_qos m =? 2)))
    (λ a c, c ← upd_req a (rq_set_state MSG_STATE_PUBCOMP) c; post_complete a c) c;
  Ok (0, c).

Definition handle_connack (data : buf_t) (c : mqtt_client) : res (Z * mqtt_client) :=
  '(err, data, c) ← read_msg 2 data c;
  if negb (err =? 0) then Ok (err, c) else
  error ← rd 3 data;
  c ← with_msgs (λ m, state_is (rq_state m) MSG_STATE_CONNECT)
    (λ a c, c ← upd_req a (λ m, rq_set_status error (rq_set_state MSG_STATE_CONNACK m)) c;
            post_complete a c) c;
  Ok (0, c).

Definition handle_suback (data : buf_t) (c : mqtt_client) : res (Z * mqtt_client) :=
  '(err, data, c) ← read_msg 3 data c;
  if negb (err =? 0) then Ok (err, c) else
  packet_id ← rd16 2 data;
  status ← rd 4 data;
  c ← with_msgs (λ m, (rq_packet_id m =? packet_id) && state_is (rq_state m) MSG_STATE_SUBSCRIBE)
    (λ a c, c ← upd_req a (λ m, rq_set_error status (rq_set_state MSG_STATE_SUBACK m)) c;
            post_complete a c) c;
  Ok (0, c).

(** The bytes that a pointer into the array and a length span. *)
Definition span (i len : Z) (data : buf_t) : option (list Z) :=
  if len <? 0 then None else
  match rd_list i (Z.to_nat len) data with Ok l => Some l | Err _ => None end.

Definition handle_publish (data : buf_t) (c : mqtt_client) : res (Z * mqtt_client) :=
  b ← rd 0 data;
  let flags := Z.land b 0xf in
  let qos := Z.shiftr (Z.land flags FLAGS_PUBLISH_QOS_M) FLAGS_PUBLISH_QOS_S in
  '(err, data, c) ← mqtt_recv 1 1 data c;
  if negb (err =? 1) then c ← mqtt_event MQTT_EVENT_DISCONNECTED c; Ok (MQTT_ERR_CONN, c) else
  rem ← rd 1 data;
  '(err, data, c) ← mqtt_recv 2 rem data c;
  if negb (err =? rem) then c ← mqtt_event MQTT_EVENT_DISCONNECTED c; Ok (MQTT_ERR_CONN, c) else
  topic_len ← rd16 2 data;
  let pos := 4 + topic_len in
  '(packet_id, pos) ←
    (if (qos =? 1) || (qos =? 2) then packet_id ← rd16 pos data; Ok (packet_id, pos + 2)
     else Ok (0, pos));
  let data_len := rem - topic_len - 4 in
  let m := {| rq_data := span pos data_len data; rq_data_len := data_len;
              rq_topic := span 4 topic_len data; rq_topic_len := topic_len; rq_qos := qos;
              rq_error := 0; rq_packet_id := packet_id; rq_state := MSG_STATE_PUBLISH;
              rq_complete := 0; rq_status := 0 |} in
  let c := if mc_msgcb c then add_log (Message (rq_topic m) (rq_data m) packet_id) c else c in
  c ← (if qos =? 1 then '(_, c) ← mqtt_send_puback m c; Ok c else Ok c);
  Ok (0, c).

Definition handle_recv (data : buf_t) (c : mqtt_client) : res (Z * mqtt_client) :=
  b ← rd 0 data;
  let ctl := Z.land b MQTT_CONTROL_M in
  if ctl =? CONTROL_CONNACK then handle_connack data c else
  if ctl =? CONTROL_PINGRESP then handle_pingresp data c else
  if ctl =? CONTROL_SUBACK then handle_suback data c else
  if ctl =? CONTROL_PUBLISH then handle_publish data c else
  if ctl =? CONTROL_PUBACK then handle_puback data c else
  if ctl =? CONTROL_PUBREC then handle_pubrec data c else
  if ctl =? CONTROL_PUBCOMP then handle_pubcomp data c else
  Ok (0, c).

Definition mqtt_poll (c : mqtt_client) : res (Z * mqtt_client) :=
  '(err, data, c) ← mqtt_recv 0 1 ∅ c;
  if err =? 0 then c ← mqtt_event MQTT_EVENT_DISCONNECTED c; Ok (MQTT_ERR_CONN, c) else
  if err =? 1 then
    '(err, c) ← handle_recv data c;
    if negb (err =? 0) then c ← mqtt_event MQTT_EVENT_DISCONNECTED c; Ok (err, c) else Ok (0, c)
  else Ok (0, c).

(** *** Requests *)

(** [do { mqtt_poll(c); if (mdx_sem_timedwait(...)) break; } while (timeout--)] *)
Fixpoint wait_loop (timeout : nat) (a : Z) (c : mqtt_client) : res mqtt_client :=
  '(_, c) ← mqtt_poll c;
  '(err, c) ← timedwait_complete a c;
  if negb (err =? 0) then Ok c else
  match timeout with O => Ok c | S timeout => wait_loop timeout a c end.

Definition mqtt_disconnect (c : mqtt_client) : res (Z * mqtt_client) :=
  data ← wr_list 0 [CONTROL_DISCONNECT; 0] ∅;
  '(err, c) ← mqtt_send data 2 c;
  if negb (err =? 0) then Ok (MQTT_ERR_CONN, c) else
  c ← mqtt_event MQTT_EVENT_DISCONNECTED c;
  Ok (err, c).

(** Sending the [pos] bytes of a request that is in msg_list; on failure the
    request is taken out again. *)
Definition send_request (a : Z) (data : buf_t) (pos : Z) (c : mqtt_client) : res (Z * mqtt_client) :=
  '(err, c) ← mqtt_send data pos c;
  if negb (err =? 0) then
    c ← msg_remove a c;
    c ← mqtt_event MQTT_EVENT_DISCONNECTED c;
    Ok (MQTT_ERR_CONN, c)
  else Ok (0, c).

(** "MQTT" and "md009" *)
Definition connect_packet : list Z :=
  [CONTROL_CONNECT; 17; 0x00; 0x04; 77; 81; 84; 84; MQTT_VERSION_3_1_1; FLAG_CLEAN_SESSION;
   Z.shiftr 120 8; Z.land 120 0xff; 0; 5; 109; 100; 48; 48; 57].

(** [a], [req]: the address and the contents of the stack of [req];
    [retval0]: those of [retval]. *)
Definition mqtt_connect (a : Z) (req : mqtt_request) (retval0 : Z) (c : mqtt_client) : res (Z * mqtt_client) :=
  data ← wr_list 0 connect_packet ∅;
  let c := set_mem (<[a := rq_set_complete 0 (rq_set_state MSG_STATE_CONNECT req)]> (mc_mem c)) c in
  c ← msg_append a c;
  '(err, c) ← send_request a data 19 c;
  if negb (err =? 0) then Ok (err, c) else
  c ← wait_loop 10 a c;
  c ← msg_remove a c;
  m ← ld_req a c;
  if state_is (rq_state m) MSG_STATE_CONNACK then
    if rq_status m =? 0 then
      c ← mqtt_event MQTT_EVENT_CONNECTED c; Ok (MQTT_ERR_OK, c)
    else if (1 <=? rq_status m) && (rq_status m <=? 5) then Ok (MQTT_ERR_UNKNOWN, c)
    else Ok (retval0, c)
  else Ok (MQTT_ERR_TIMEOUT, c).

(** [c->next_id++] on a uint16_t. *)
Definition take_id (a : Z) (c : mqtt_client) : res mqtt_client :=
  let id := mc_next_id c in
  upd_req a (rq_set_packet_id id) (set_next_id (u16 (id + 1)) c).

Definition mqtt_subscribe (a : Z) (c : mqtt_client) : res (Z * mqtt_client) :=
  s ← ld_req a c;
  if negb (rq_qos s =? 0) && negb (rq_qos s =? 1) then Ok (MQTT_ERR_REQ, c) else
  c ← take_id a c;
  s ← ld_req a c;
  data ← wr_list 2 [Z.shiftr (rq_packet_id s) 8; Z.land (rq_packet_id s) 0xff;
                    Z.shiftr (rq_topic_len s) 8; Z.land (rq_topic_len s) 0xff] ∅;
  data ← wr_obj 6 (rq_topic s) (rq_topic_len s) data;
  let pos := 6 + rq_topic_len s in
  data ← wr pos (rq_qos s) data;
  let pos := pos + 1 in
  data ← wr_list 0 [Z.lor CONTROL_SUBSCRIBE FLAGS_SUBSCRIBE; pos - 2] data;
  c ← upd_req a (λ m, rq_set_state MSG_STATE_SUBSCRIBE (rq_set_complete 0 m)) c;
  c ← msg_append a c;
  '(err, c) ← send_request a data pos c;
  if negb (err =? 0) then Ok (err, c) else
  c ← wait_loop 10 a c;
  c ← msg_remove a c;
  s ← ld_req a c;
  if state_is (rq_state s) MSG_STATE_SUBACK then
    if (0 <=? rq_error s) && (rq_error s <=? 2) then Ok (MQTT_ERR_OK, c) else Ok (MQTT_ERR_UNKNOWN, c)
  else Ok (MQTT_ERR_TIMEOUT, c).

(** The part of [mqtt_publish] that fills in the packet: the array, its length
    and the client ([None]: an unknown quality of service). *)
Definition publish_packet (a : Z) (c : mqtt_client) : res (option (buf_t * Z) * mqtt_client) :=
  m ← ld_req a c;
  data ← wr_list 2 [Z.shiftr (rq_topic_len m) 8; Z.land (rq_topic_len m) 0xff] ∅;
  data ← wr_obj 4 (rq_topic m) (rq_topic_len m) data;
  let pos := 4 + rq_topic_len m in
  if rq_qos m =? 0 then
    data ← wr_list pos [0; 0] data;
    data ← wr_obj (pos + 2) (rq_data m) (rq_data_len m) data;
    let pos := pos + 2 + rq_data_len m in
    data ← wr_list 0 [Z.lor CONTROL_PUBLISH (FLAGS_PUBLISH_QOS (rq_qos m)); pos - 2] data;
    Ok (Some (data, pos), c)
  else if (rq_qos m =? 1) || (rq_qos m =? 2) then
    c ← take_id a c;
    m ← ld_req a c;
    data ← wr_list pos [Z.shiftr (rq_packet_id m) 8; Z.land (rq_packet_id m) 0xff] data;
    data ← wr_obj (pos + 2) (rq_data m) (rq_data_len m) data;
    let pos := pos + 2 + rq_data_len m in
    data ← wr_list 0 [Z.lor CONTROL_PUBLISH (FLAGS_PUBLISH_QOS (rq_qos m)); pos - 2] data;
    Ok (Some (data, pos), c)
  else Ok (None, c).

Definition mqtt_publish (a : Z) (c : mqtt_client) : res (Z * mqtt_client) :=
  m ← ld_req a c;
  if bool_decide (rq_topic m = None) || (rq_topic_len m =? 0) || bool_decide (rq_data m = None) ||
     (rq_data_len m =? 0) then Ok (MQTT_ERR_REQ, c) else
  '(p, c) ← publish_packet a c;
  match p with
  | None => Ok (MQTT_ERR_UNKNOWN, c)
  | Some (data, pos) =>
    if (rq_qos m =? 1) || (rq_qos m =? 2) then
      c ← upd_req a (λ m, rq_set_state MSG_STATE_PUBLISH (rq_set_complete 0 m)) c;
      c ← msg_append a c;
      '(err, c) ← send_request a data pos c;
      if negb (err =? 0) then Ok (err, c) else
      c ← wait_loop 10 a c;
      c ← msg_remove a c;
      m ← ld_req a c;
      if state_is (rq_state m) MSG_STATE_PUBACK && (rq_qos m =? 1) then Ok (0, c)
      else if state_is (rq_state m) MSG_STATE_PUBCOMP && (rq_qos m =? 2) then Ok (0, c)
      else Ok (-1, c)
    else
      '(err, c) ← mqtt_send data pos c;
      if negb (err =? 0) then
        c ← mqtt_event MQTT_EVENT_DISCONNECTED c; Ok (MQTT_ERR_CONN, c)
      else Ok (0, c)
  end.

Definition mqtt_ping (a : Z) (req : mqtt_request) (c : mqtt_client) : res (Z * mqtt_client) :=
  data ← wr_list 0 [CONTROL_PINGREQ; 0] ∅;
  let c := set_mem (<[a := rq_set_complete 0 (rq_set_state MSG_STATE_PINGREQ req)]> (mc_mem c)) c in
  c ← msg_append a c;
  '(err, c) ← send_request a data 2 c;
  if negb (err =? 0) then Ok (err, c) else
  c ← wait_loop 10 a c;
  c ← msg_remove a c;
  m ← ld_req a c;
  if state_is (rq_state m) MSG_STATE_PINGRESP then Ok (MQTT_ERR_OK, c) else Ok (MQTT_ERR_TIMEOUT, c).

Definition mqtt_init (c : mqtt_client) : mqtt_client :=
  {| mc_net := mc_net c; mc_sem_send := 1; mc_event := mc_event c; mc_msgcb := mc_msgcb c;
     mc_msg_mtx := 1; mc_msg_list := []; mc_next_id := 1; mc_mtx := 1; mc_connected := 0;
     mc_mem := mc_mem c; mc_log := mc_log c |}.

End Client.
Arguments mqtt_client N : clear implicits.
