(* ===== verification/MqttTheorems.v ===== *)
(** * MQTT: no operation can block itself, and requests follow the protocol

    [outcome] is a small program logic for the operations of the client.  With
    any network whatsoever, an operation started with free locks never waits for
    itself, releases what it took, and a received packet advances at most one
    request, along [advance]. *)

From S2P Require Import Prelude Mqtt.
Local Open Scope Z_scope.

(** ** Outcomes *)

(** A result satisfies [P], and a failure is not a self-deadlock. *)
Definition outcome {A} (P : A → Prop) (r : res A) : Prop :=
  match r with Ok a => P a | Err e => e ≠ Blocked end.

Lemma outcome_ok {A} (P : A → Prop) a : P a → outcome P (Ok a).
Proof. done. Qed.

Lemma outcome_bind {A B} (P : A → Prop) (Q : B → Prop) (r : res A) (f : A → res B) :
  outcome P r → (∀ a, P a → outcome Q (f a)) → outcome Q (r ≫= f).
Proof. destruct r; [|done]. intros Ha Hf. by apply Hf. Qed.

Lemma outcome_mono {A} (P Q : A → Prop) (r : res A) :
  outcome P r → (∀ a, P a → Q a) → outcome Q r.
Proof. destruct r; simpl; auto. Qed.

(** Memory accesses fail with a fault only. *)
Definition harmless {A} (r : res A) : Prop := outcome (λ _, True) r.

Lemma load_harmless {A} (m : gmap Z A) a : outcome (λ v, m !! a = Some v) (load m a).
Proof. unfold load. by destruct (m !! a). Qed.

Lemma wr_harmless i v b : harmless (wr i v b).
Proof. unfold wr, harmless. by destruct (_ && _). Qed.

Lemma wr_list_harmless i l b : harmless (wr_list i l b).
Proof.
  revert i b. induction l as [|v l IH]; intros i b; [done|].
  eapply outcome_bind; [apply wr_harmless|]. intros b' _. apply IH.
Qed.

Lemma rd_harmless i b : harmless (rd i b).
Proof. eapply outcome_mono; [apply load_harmless|done]. Qed.

Lemma rd_list_harmless i n b : harmless (rd_list i n b).
Proof.
  revert i. induction n as [|n IH]; intros i; [done|].
  eapply outcome_bind; [apply rd_harmless|]. intros v _.
  eapply outcome_bind; [apply IH|]. done.
Qed.

Lemma wr_obj_harmless i p len b : harmless (wr_obj i p len b).
Proof.
  unfold wr_obj. destruct (_ =? _); [done|]. destruct p; [|done].
  destruct (_ && _); [apply wr_list_harmless|done].
Qed.

Lemma rd16_harmless i b : harmless (rd16 i b).
Proof.
  eapply outcome_bind; [apply rd_harmless|]. intros h _.
  eapply outcome_bind; [apply rd_harmless|]. done.
Qed.

#[export] Hint Resolve wr_harmless wr_list_harmless rd_harmless rd_list_harmless wr_obj_harmless
  rd16_harmless : mdx.

(** ** Frames *)

Section Client.
Context {N : Type} `{Network N}.
Implicit Types c : mqtt_client N.

(** Nothing is locked. *)
Definition idle c : Prop := mc_sem_send c = 1 ∧ mc_msg_mtx c = 1 ∧ mc_mtx c = 1.

(** Two states that differ in the network, the connection and the callbacks
    made, and in the two given locks at most. *)
Record same c c' : Prop := {
  sm_send : mc_sem_send c' = mc_sem_send c;
  sm_msg_mtx : mc_msg_mtx c' = mc_msg_mtx c;
  sm_mtx : mc_mtx c' = mc_mtx c;
  sm_list : mc_msg_list c' = mc_msg_list c;
  sm_id : mc_next_id c' = mc_next_id c;
  sm_mem : mc_mem c' = mc_mem c
}.

#[export] Instance same_preorder : PreOrder same.
Proof. split; [done|]. intros c1 c2 c3 [] []. split; congruence. Qed.

Lemma same_idle c c' : same c c' → idle c → idle c'.
Proof. intros [] (?&?&?). split_and!; congruence. Qed.

Lemma recv_same i len data c : outcome (λ '(_, _, c'), same c c') (mqtt_recv i len data c).
Proof.
  unfold mqtt_recv. destruct (net_read len (mc_net c)) as [[ret l] net].
  eapply outcome_bind; [apply wr_list_harmless|]. done.
Qed.

Lemma send_loop_same fuel data sent len c :
  outcome (λ '(_, c'), same c c') (send_loop fuel data sent len c).
Proof.
  revert sent c. induction fuel as [|fuel IH]; intros sent c; [done|]. cbn [send_loop].
  destruct (sent =? len); [done|]. eapply outcome_bind; [apply rd_list_harmless|]. intros l _.
  destruct (net_write l (mc_net c)) as [ret net]. destruct (ret <? 0); [done|].
  eapply outcome_mono; [apply IH|]. intros [s c'] []. by split.
Qed.

Lemma send_same data len c :
  mc_sem_send c = 1 → outcome (λ '(_, c'), same c c') (mqtt_send data len c).
Proof.
  intros Hs. unfold mqtt_send, wait. rewrite Hs. cbn [Z.ltb Z.compare mbind res_bind].
  eapply outcome_bind; [apply send_loop_same|]. intros [sent c'] [].
  destruct (sent =? len); (split; try done; simpl in *; unfold post; lia).
Qed.

Lemma event_same ev c : mc_mtx c = 1 → outcome (λ c', same c c') (mqtt_event ev c).
Proof.
  intros Hm. unfold mqtt_event, lock_mtx, wait. rewrite Hm. cbn [Z.ltb Z.compare mbind res_bind].
  destruct (_ =? _); [split; try done; simpl; unfold post; lia|].
  destruct (mc_event _); split; try done; simpl; unfold post; lia.
Qed.

(** ** The protocol of a request *)

(** What one received packet does to one request. *)
Inductive advance : mqtt_request → mqtt_request → Prop :=
| adv_connack m status :
    rq_state m = MSG_STATE_CONNECT →
    advance m (rq_set_complete (post (rq_complete m)) (rq_set_status status (rq_set_state MSG_STATE_CONNACK m)))
| adv_suback m status :
    rq_state m = MSG_STATE_SUBSCRIBE →
    advance m (rq_set_complete (post (rq_complete m)) (rq_set_error status (rq_set_state MSG_STATE_SUBACK m)))
| adv_puback m :
    rq_state m = MSG_STATE_PUBLISH → rq_qos m = 1 →
    advance m (rq_set_complete (post (rq_complete m)) (rq_set_state MSG_STATE_PUBACK m))
| adv_pubrec m :
    rq_state m = MSG_STATE_PUBLISH → rq_qos m = 2 → advance m (rq_set_state MSG_STATE_PUBREC m)
| adv_pubcomp m :
    rq_state m = MSG_STATE_PUBREC → rq_qos m = 2 →
    advance m (rq_set_complete (post (rq_complete m)) (rq_set_state MSG_STATE_PUBCOMP m))
| adv_pingresp m :
    rq_state m = MSG_STATE_PINGREQ →
    advance m (rq_set_complete (post (rq_complete m)) (rq_set_state MSG_STATE_PINGRESP m)).

(** At most one request of the list has advanced. *)
Record polled c c' : Prop := {
  po_send : mc_sem_send c' = mc_sem_send c;
  po_msg_mtx : mc_msg_mtx c' = mc_msg_mtx c;
  po_mtx : mc_mtx c' = mc_mtx c;
  po_list : mc_msg_list c' = mc_msg_list c;
  po_id : mc_next_id c' = mc_next_id c;
  po_mem : mc_mem c' = mc_mem c ∨
    ∃ a m m', a ∈ mc_msg_list c ∧ mc_mem c !! a = Some m ∧ advance m m' ∧ mc_mem c' = <[a := m']> (mc_mem c)
}.

Lemma same_polled c c' : same c c' → polled c c'.
Proof. intros []. constructor; auto. Qed.

Lemma polled_same c1 c2 c3 : polled c1 c2 → same c2 c3 → polled c1 c3.
Proof. intros [????? Hm] []. constructor; try congruence. destruct Hm as [?|(a & m & m' & ?)]; [left|right; exists a, m, m']; intuition congruence. Qed.

Lemma same_polled_l c1 c2 c3 : same c1 c2 → polled c2 c3 → polled c1 c3.
Proof.
  intros [???? ? Hm2] [????? Hm]. constructor; try congruence. rewrite Hm2 in Hm.
  destruct Hm as [?|(a & m & m' & Ha & ?)]; [left; congruence|right; exists a, m, m']. split; [congruence|tauto].
Qed.

Lemma polled_idle c c' : polled c c' → idle c → idle c'.
Proof. intros [] (?&?&?). split_and!; congruence. Qed.

(** [act] on a request that satisfies the test, with the list locked. *)
Lemma with_msgs_polled (p : mqtt_request → bool) act c :
  idle c →
  (∀ a m c0, p m = true → mc_mem c0 !! a = Some m → mc_sem_send c0 = 1 →
     outcome (λ c', ∃ m', advance m m' ∧ same (set_mem (<[a := m']> (mc_mem c0)) c0) c') (act a c0)) →
  outcome (polled c) (with_msgs p act c).
Proof.
  intros (Hs & Hm & Hx) Hact. unfold with_msgs, lock_msg, wait. rewrite Hm. cbn [Z.ltb Z.compare mbind res_bind].
  set (c0 := set_msg_mtx (1 - 1) c).
  eapply (outcome_bind (λ c', ∃ c1, polled c c1 ∧ mc_msg_mtx c1 = mc_msg_mtx c ∧ same (set_msg_mtx 0 c1) c')).
  - change (mc_msg_list c0) with (mc_msg_list c).
    assert (∀ a, a ∈ mc_msg_list c → a ∈ mc_msg_list c) as Hin by done. revert Hin.
    generalize (mc_msg_list c) at 1 3 as l.
    intros l. induction l as [|a l IH]; intros Hin; cbn [msg_find].
    + exists c. split_and!; [by apply same_polled|done|by split].
    + eapply outcome_bind; [apply load_harmless|]. intros m Em. cbv beta in Em.
      destruct (p m) eqn:Ep; [|apply IH; intros b Hb; apply Hin; by right].
      eapply outcome_mono; [by apply (Hact a m c0)|]. intros c' (m' & Hadv & Hsame).
      exists (set_mem (<[a := m']> (mc_mem c)) c). split; [|split; [done|]].
      * constructor; try done. right. exists a, m, m'. split_and!; try done. apply Hin. by left.
      * destruct Hsame. by constructor.
  - intros c' (c1 & Hp & Hm1 & Hsm). apply outcome_ok. apply (polled_same c c1); [done|].
    destruct Hsm as [?? ? ? ? ?]. constructor; try done. simpl in *. unfold post. rewrite Hm1. lia.
Qed.

(** Updates of a request that is there. *)
Lemma upd_req_ok a f c m :
  mc_mem c !! a = Some m → upd_req a f c = Ok (set_mem (<[a := f m]> (mc_mem c)) c).
Proof. intros E. unfold upd_req, ld_req. by rewrite (load_Some _ _ _ E). Qed.

(** A request changes state and its semaphore is posted. *)
Lemma upd_post_ok a f c m :
  mc_mem c !! a = Some m →
  (c1 ← upd_req a f c; post_complete a c1) =
    Ok (set_mem (<[a := rq_set_complete (post (rq_complete (f m))) (f m)]> (mc_mem c)) c).
Proof.
  intros E. rewrite (upd_req_ok _ _ _ _ E). cbn [mbind res_bind]. unfold post_complete.
  rewrite (upd_req_ok _ _ _ (f m)) by (simpl; by rewrite lookup_insert_eq).
  unfold set_mem. simpl. by rewrite insert_insert_eq.
Qed.

Lemma upd_post_advance a f c m :
  mc_mem c !! a = Some m → advance m (rq_set_complete (post (rq_complete (f m))) (f m)) →
  outcome (λ c', ∃ m', advance m m' ∧ same (set_mem (<[a := m']> (mc_mem c)) c) c')
    (c1 ← upd_req a f c; post_complete a c1).
Proof. intros E Ha. rewrite (upd_post_ok _ _ _ _ E). eexists. split; [exact Ha|done]. Qed.

Lemma state_is_true s t : state_is s t = true → s = t.
Proof. apply bool_decide_eq_true_1. Qed.

Lemma read_msg_same n data c : outcome (λ '(_, _, c'), same c c') (read_msg n data c).
Proof.
  unfold read_msg. eapply outcome_bind; [apply recv_same|]. intros [[err d] c1] H1. cbv beta iota in *.
  destruct (negb _); [done|]. eapply outcome_bind; [apply rd_harmless|]. intros rem _.
  destruct (negb _); [done|].
  eapply outcome_bind; [apply recv_same|]. intros [[err' d'] c2] H2. cbv beta iota in *.
  destruct (negb _); cbn; by transitivity c1.
Qed.

(** A handler: read a message, take an identifier from it, and treat a request. *)
Lemma handler_polled {A} n data c (get : buf_t → res A) (p : A → mqtt_request → bool) act :
  idle c → (∀ d, harmless (get d)) →
  (∀ v a m c0, p v m = true → mc_mem c0 !! a = Some m → mc_sem_send c0 = 1 →
     outcome (λ c', ∃ m', advance m m' ∧ same (set_mem (<[a := m']> (mc_mem c0)) c0) c') (act v a c0)) →
  outcome (λ '(_, c'), polled c c')
    ('(err, data, c) ← read_msg n data c;
     if negb (err =? 0) then Ok (err, c) else
     v ← get data; c ← with_msgs (p v) (act v) c; Ok (0, c)).
Proof.
  intros Hi Hg Hact. eapply outcome_bind; [apply read_msg_same|]. intros [[err d] c1] H1. cbv beta iota in *.
  destruct (negb _); [by apply same_polled|].
  eapply outcome_bind; [apply Hg|]. intros v _.
  eapply outcome_bind.
  { apply with_msgs_polled; [by apply (same_idle c)|]. intros a m c0. apply Hact. }
  intros c2 H2. cbn. by apply (same_polled_l c c1).
Qed.

Ltac advancing := intros ???? Hp; bsimp; intros; apply upd_post_advance; [done|];
  repeat match goal with H : state_is _ _ = true |- _ => apply state_is_true in H end.

Lemma handle_puback_polled data c : idle c → outcome (λ '(_, c'), polled c c') (handle_puback data c).
Proof.
  intros Hi. apply handler_polled; [done|auto with mdx|]. advancing. by apply (adv_puback m).
Qed.

Lemma handle_pubcomp_polled data c : idle c → outcome (λ '(_, c'), polled c c') (handle_pubcomp data c).
Proof.
  intros Hi. apply handler_polled; [done|auto with mdx|]. advancing. by apply (adv_pubcomp m).
Qed.

Lemma handle_connack_polled data c : idle c → outcome (λ '(_, c'), polled c c') (handle_connack data c).
Proof.
  intros Hi. apply handler_polled; [done|auto with mdx|]. advancing. by apply (adv_connack m).
Qed.

Lemma handle_pingresp_polled data c : idle c → outcome (λ '(_, c'), polled c c') (handle_pingresp data c).
Proof.
  intros Hi. unfold handle_pingresp. eapply outcome_bind; [apply recv_same|]. intros [[err d] c1] H1. cbv beta iota in *.
  destruct (negb _); [by apply same_polled|].
  eapply outcome_bind.
  { apply with_msgs_polled; [by apply (same_idle c)|]. intros a m c0 Hp E _. apply upd_post_advance; [done|].
    apply (adv_pingresp m). by apply state_is_true. }
  intros c2 H2. cbn. by apply (same_polled_l c c1).
Qed.

Lemma send_id_same ctl m c : mc_sem_send c = 1 → outcome (λ '(_, c'), same c c') (send_id ctl m c).
Proof.
  intros Hs. unfold send_id. eapply outcome_bind; [apply wr_list_harmless|]. intros data _.
  eapply outcome_bind; [by apply send_same|]. intros [err c'] ?. by destruct (negb _).
Qed.

Lemma handle_pubrec_polled data c : idle c → outcome (λ '(_, c'), polled c c') (handle_pubrec data c).
Proof.
  intros Hi. apply handler_polled; [done|auto with mdx|]. intros v a m c0 Hp E Hs. bsimp.
  repeat match goal with H : state_is _ _ = true |- _ => apply state_is_true in H end.
  rewrite (upd_req_ok _ _ _ _ E). cbn [mbind res_bind]. set (c1 := set_mem _ c0).
  unfold ld_req. rewrite (load_Some (mc_mem c1) a (rq_set_state MSG_STATE_PUBREC m)) by (simpl; by rewrite lookup_insert_eq).
  cbn [mbind res_bind]. assert (mc_sem_send c1 = 1) as Hs1 by exact Hs.
  eapply outcome_bind; [exact (send_id_same _ _ c1 Hs1)|]. intros [err c2] Hsame.
  eexists. split; [by apply (adv_pubrec m)|exact Hsame].
Qed.

Lemma handle_suback_polled data c : idle c → outcome (λ '(_, c'), polled c c') (handle_suback data c).
Proof.
  intros Hi. unfold handle_suback. eapply outcome_bind; [apply read_msg_same|].
  intros [[err d] c1] H1. cbv beta iota in *. destruct (negb _); [by apply same_polled|].
  eapply outcome_bind; [apply rd16_harmless|]. intros id _.
  eapply outcome_bind; [apply rd_harmless|]. intros st _.
  eapply outcome_bind.
  { apply with_msgs_polled; [by apply (same_idle c)|]. intros a m c0 Hp E _. bsimp.
    apply upd_post_advance; [done|]. apply (adv_suback m). by apply state_is_true. }
  intros c2 H2. cbn. by apply (same_polled_l c c1).
Qed.

Lemma disconnected_same r c1 c :
  same c c1 → idle c →
  outcome (λ '(_, c'), same c c') (c2 ← mqtt_event MQTT_EVENT_DISCONNECTED c1; Ok (r, c2) : res (Z * _)).
Proof.
  intros Hs Hi. destruct (same_idle _ _ Hs Hi) as (_ & _ & Hm).
  eapply outcome_bind; [by apply event_same|]. intros c2 H2. cbn. by transitivity c1.
Qed.

Lemma handle_publish_same data c : idle c → outcome (λ '(_, c'), same c c') (handle_publish data c).
Proof.
  intros Hi. unfold handle_publish. eapply outcome_bind; [apply rd_harmless|]. intros b _. cbv zeta.
  eapply outcome_bind; [apply recv_same|]. intros [[err d] c1] H1. cbv beta iota in *.
  destruct (negb _); [by apply disconnected_same|].
  eapply outcome_bind; [apply rd_harmless|]. intros rem _.
  eapply outcome_bind; [apply recv_same|]. intros [[err' d'] c2] H2. cbv beta iota in *.
  assert (same c c2) as H02 by by transitivity c1.
  destruct (negb _); [by apply disconnected_same|].
  eapply outcome_bind; [apply rd16_harmless|]. intros topic_len _.
  eapply (outcome_bind (λ _, True)).
  { destruct (_ || _); [|done]. eapply outcome_bind; [apply rd16_harmless|]. done. }
  intros [id pos] _. cbn [rq_topic rq_data].
  set (c3 := if mc_msgcb c2 then _ else c2).
  assert (same c c3) as H03.
  { transitivity c2; [done|]. unfold c3. by destruct (mc_msgcb c2). }
  clearbody c3. destruct (_ =? 1); [|done].
  destruct (same_idle _ _ H03 Hi) as (Hs & _).
  eapply outcome_bind.
  { eapply outcome_bind; [by apply send_id_same|]. intros [e c4] H4. apply (outcome_ok (λ c4, same c3 c4)). exact H4. }
  intros c4 H4. cbn in *. by transitivity c3.
Qed.

Lemma mqtt_poll_polled c : idle c → outcome (λ '(_, c'), polled c c') (mqtt_poll c).
Proof.
  intros Hi. unfold mqtt_poll. eapply outcome_bind; [apply recv_same|]. intros [[err d] c1] H1. cbv beta iota in *.
  pose proof (same_idle _ _ H1 Hi) as Hi1.
  destruct (err =? 0).
  { eapply outcome_mono; [by apply disconnected_same|]. intros [r c']. apply same_polled. }
  destruct (err =? 1); [|by apply same_polled].
  assert (outcome (λ '(_, c'), polled c1 c') (handle_recv d c1)) as Hh.
  { unfold handle_recv. eapply outcome_bind; [apply rd_harmless|]. intros b _. cbv zeta.
    repeat case_match; auto using handle_connack_polled, handle_pingresp_polled, handle_suback_polled,
      handle_puback_polled, handle_pubrec_polled, handle_pubcomp_polled.
    - eapply outcome_mono; [by apply handle_publish_same|]. intros [r c']. apply same_polled.
    - by apply same_polled. }
  eapply outcome_bind; [exact Hh|]. intros [r c2] H2. cbv beta iota in *.
  assert (polled c c2) as H02 by by apply (same_polled_l c c1).
  destruct (negb _); [|done].
  eapply outcome_bind; [apply event_same; apply (polled_idle c c2); done|].
  intros c3 H3. cbn. by apply (polled_same c c2).
Qed.

(** ** Requests *)

(** The locks and the list are as they were. *)
Record calm c c' : Prop := {
  ca_send : mc_sem_send c' = mc_sem_send c;
  ca_msg_mtx : mc_msg_mtx c' = mc_msg_mtx c;
  ca_mtx : mc_mtx c' = mc_mtx c;
  ca_list : mc_msg_list c' = mc_msg_list c
}.

#[export] Instance calm_preorder : PreOrder calm.
Proof. split; [done|]. intros c1 c2 c3 [] []. split; congruence. Qed.

Lemma same_calm c c' : same c c' → calm c c'.
Proof. intros []. by split. Qed.

Lemma polled_calm c c' : polled c c' → calm c c'.
Proof. intros []. by split. Qed.

Lemma calm_idle c c' : calm c c' → idle c → idle c'.
Proof. intros [] (?&?&?). split_and!; congruence. Qed.

Lemma upd_req_calm a f c : outcome (calm c) (upd_req a f c).
Proof. eapply outcome_bind; [apply load_harmless|]. done. Qed.

Lemma timedwait_calm a c : outcome (λ '(_, c'), calm c c') (timedwait_complete a c).
Proof. eapply outcome_bind; [apply load_harmless|]. intros m _. by destruct (0 <? _). Qed.

Lemma wait_loop_calm n a c : idle c → outcome (calm c) (wait_loop n a c).
Proof.
  revert c. induction n as [|n IH]; intros c Hi; cbn [wait_loop].
  all: eapply outcome_bind; [by apply mqtt_poll_polled|]; intros [r c1] H1; cbv beta iota in *.
  all: apply polled_calm in H1.
  all: eapply outcome_bind; [apply timedwait_calm|]; intros [e c2] H2; cbv beta iota in *.
  all: assert (calm c c2) as H12 by by transitivity c1.
  all: destruct (negb _); try exact H12.
  eapply outcome_mono; [apply IH; by apply (calm_idle c)|]. intros c3 H3. by transitivity c2.
Qed.

(** The list with a request at its end. *)
Definition listed a c c' : Prop := calm (set_msg_list (mc_msg_list c ++ [a]) c) c'.

Lemma msg_append_listed a c : idle c → outcome (listed a c) (msg_append a c).
Proof.
  intros (_ & Hm & _). unfold msg_append, lock_msg, wait. rewrite Hm. cbn [Z.ltb Z.compare mbind res_bind].
  by split.
Qed.

Lemma msg_remove_listed a c c1 :
  idle c → a ∉ mc_msg_list c → listed a c c1 → outcome (calm c) (msg_remove a c1).
Proof.
  intros (Hs & Hm & Hx) Ha [H1 H2 H3 H4]. simpl in *. unfold msg_remove, lock_msg, wait.
  rewrite H2, Hm. cbn [Z.ltb Z.compare mbind res_bind]. split; simpl; try congruence.
  - unfold post. lia.
  - rewrite H4, filter_app, filter_cons_False, filter_nil, app_nil_r by (intros Hne; by apply Hne).
    clear -Ha. induction (mc_msg_list c) as [|b l IH]; [done|].
    rewrite filter_cons_True by (intros ->; apply Ha; by left). f_equal. apply IH. intros Hb. apply Ha. by right.
Qed.

Lemma send_request_listed a data pos c c1 :
  idle c → a ∉ mc_msg_list c → listed a c c1 →
  outcome (λ '(r, c'), if r =? 0 then listed a c c' else calm c c') (send_request a data pos c1).
Proof.
  intros Hi Ha Hl. pose proof (calm_idle _ _ Hl Hi) as (Hs & _).
  unfold send_request. eapply outcome_bind; [by apply send_same|]. intros [e c2] H2. cbv beta iota in *.
  assert (listed a c c2) as Hl2 by (unfold listed in *; transitivity c1; [done|by apply same_calm]).
  destruct (negb _); [|done].
  eapply outcome_bind; [by apply (msg_remove_listed a c)|]. intros c3 H3.
  pose proof (calm_idle _ _ H3 Hi) as (_ & _ & Hx).
  eapply outcome_bind; [by apply event_same|]. intros c4 H4. cbn. transitivity c3; [done|by apply same_calm].
Qed.

(** The common tail of the requests: append, send, wait, remove, evaluate. *)
Lemma request_calm a data pos c c0 (res_of : mqtt_request → mqtt_client N → res (Z * mqtt_client N)) :
  calm c c0 → idle c → a ∉ mc_msg_list c →
  (∀ m c', idle c' → outcome (λ '(_, c''), calm c' c'') (res_of m c')) →
  outcome (λ '(_, c'), calm c c')
    (c1 ← msg_append a c0;
     '(err, c2) ← send_request a data pos c1;
     if negb (err =? 0) then Ok (err, c2) else
     c3 ← wait_loop 10 a c2; c4 ← msg_remove a c3; m ← ld_req a c4; res_of m c4).
Proof.
  intros Hc Hi0 Ha0 Hr. pose proof (calm_idle _ _ Hc Hi0) as Hi.
  assert (a ∉ mc_msg_list c0) as Ha by (by rewrite (ca_list _ _ Hc)).
  apply (outcome_mono (λ '(_, c'), calm c0 c')); [|intros [r c'] H'; transitivity c0; [exact Hc|exact H']].
  eapply outcome_bind; [by apply msg_append_listed|]. intros c1 H1.
  eapply outcome_bind; [by apply (send_request_listed a data pos c0 c1)|]. intros [e c2] H2. cbv beta iota in *.
  destruct (e =? 0); cbn [negb]; [|done].
  eapply outcome_bind; [apply wait_loop_calm; by apply (calm_idle _ _ H2)|]. intros c3 H3.
  assert (listed a c0 c3) as Hl3 by (unfold listed in *; by transitivity c2).
  eapply outcome_bind; [by apply (msg_remove_listed a c0)|]. intros c4 H4. cbv beta in H4.
  eapply outcome_bind; [apply load_harmless|]. intros m _.
  eapply outcome_mono; [apply Hr; by apply (calm_idle c0)|]. intros [r c5] H5. by transitivity c4.
Qed.

Lemma event_calm ev c r : idle c → outcome (λ '(_, c'), calm c c') (c' ← mqtt_event ev c; Ok (r, c') : res (Z * _)).
Proof.
  intros (_ & _ & Hx). eapply outcome_bind; [by apply event_same|]. intros c1 H1. by apply same_calm.
Qed.

Lemma mqtt_connect_calm a req r0 c :
  idle c → a ∉ mc_msg_list c → outcome (λ '(_, c'), calm c c') (mqtt_connect a req r0 c).
Proof.
  intros Hi Ha. unfold mqtt_connect. eapply outcome_bind; [apply wr_list_harmless|]. intros data _. cbv zeta.
  apply (request_calm a data 19 c); [done|done|done|].
  intros m c' Hi'. repeat case_match; try done. by apply event_calm.
Qed.

Lemma mqtt_ping_calm a req c :
  idle c → a ∉ mc_msg_list c → outcome (λ '(_, c'), calm c c') (mqtt_ping a req c).
Proof.
  intros Hi Ha. unfold mqtt_ping. eapply outcome_bind; [apply wr_list_harmless|]. intros data _. cbv zeta.
  apply (request_calm a data 2 c); [done|done|done|].
  intros m c' Hi'. by case_match.
Qed.

Lemma take_id_calm a c : outcome (calm c) (take_id a c).
Proof. unfold take_id. eapply outcome_mono; [apply upd_req_calm|]. intros c' []. by split. Qed.

Lemma mqtt_subscribe_calm a c :
  idle c → a ∉ mc_msg_list c → outcome (λ '(_, c'), calm c c') (mqtt_subscribe a c).
Proof.
  intros Hi Ha. unfold mqtt_subscribe. eapply outcome_bind; [apply load_harmless|]. intros s _.
  destruct (_ && _); [done|].
  eapply outcome_bind; [apply take_id_calm|]. intros c1 H1.
  eapply outcome_bind; [apply load_harmless|]. intros s' _.
  eapply outcome_bind; [apply wr_list_harmless|]. intros d1 _.
  eapply outcome_bind; [apply wr_obj_harmless|]. intros d2 _. cbv zeta.
  eapply outcome_bind; [apply wr_harmless|]. intros d3 _.
  eapply outcome_bind; [apply wr_list_harmless|]. intros d4 _.
  eapply outcome_bind; [apply upd_req_calm|]. intros c2 H2.
  apply (request_calm a d4 _ c); [by transitivity c1|done|done|].
  intros m c' _. by repeat case_match.
Qed.

Lemma publish_packet_calm a c : outcome (λ '(_, c'), calm c c') (publish_packet a c).
Proof.
  unfold publish_packet. eapply outcome_bind; [apply load_harmless|]. intros m _.
  eapply outcome_bind; [apply wr_list_harmless|]. intros d1 _.
  eapply outcome_bind; [apply wr_obj_harmless|]. intros d2 _. cbv zeta.
  destruct (rq_qos m =? 0); [|destruct (_ || _); [|done]].
  - eapply outcome_bind; [apply wr_list_harmless|]. intros d3 _.
    eapply outcome_bind; [apply wr_obj_harmless|]. intros d4 _.
    eapply outcome_bind; [apply wr_list_harmless|]. done.
  - eapply outcome_bind; [apply take_id_calm|]. intros c1 H1.
    eapply outcome_bind; [apply load_harmless|]. intros m' _.
    eapply outcome_bind; [apply wr_list_harmless|]. intros d3 _.
    eapply outcome_bind; [apply wr_obj_harmless|]. intros d4 _.
    eapply outcome_bind; [apply wr_list_harmless|]. done.
Qed.

Lemma mqtt_publish_calm a c :
  idle c → a ∉ mc_msg_list c → outcome (λ '(_, c'), calm c c') (mqtt_publish a c).
Proof.
  intros Hi Ha. unfold mqtt_publish. eapply outcome_bind; [apply load_harmless|]. intros m _.
  destruct (_ || _); [done|].
  eapply outcome_bind; [apply publish_packet_calm|]. intros [[[d pos]|] c1] H1; [|done].
  pose proof (calm_idle _ _ H1 Hi) as Hi1. destruct (_ || _).
  - eapply outcome_bind; [apply upd_req_calm|]. intros c2 H2.
    apply (request_calm a d pos c); [by transitivity c1|done|done|].
    intros m' c' _. by repeat case_match.
  - eapply outcome_bind; [apply send_same, Hi1|]. intros [e c2] H2. cbv beta iota in *.
    assert (calm c c2) as H02 by (transitivity c1; [done|by apply same_calm]).
    destruct (negb _); [|done].
    eapply outcome_mono; [apply event_calm; by apply (calm_idle c)|]. intros [r c'] H'. by transitivity c2.
Qed.

Lemma mqtt_disconnect_calm c : idle c → outcome (λ '(_, c'), calm c c') (mqtt_disconnect c).
Proof.
  intros Hi. unfold mqtt_disconnect. eapply outcome_bind; [apply wr_list_harmless|]. intros d _.
  eapply outcome_bind; [apply send_same, Hi|]. intros [e c2] H2. apply same_calm in H2.
  destruct (negb _); [done|].
  eapply outcome_mono; [apply event_calm; by apply (calm_idle c)|]. intros [r c'] H'. by transitivity c2.
Qed.

(** Whatever the network delivers, a poll never waits for a lock that it
    holds itself; when it returns, every lock is as it was, the list of requests
    is the same, and at most one of them has advanced, by one step of the
    protocol. *)
Theorem poll_advances_one c : idle c → outcome (λ '(_, c'), polled c c') (mqtt_poll c).
Proof. apply mqtt_poll_polled. Qed.

(** C37: no operation of the client can block itself, whatever the network does;
    when an operation returns, on success and on every error path, all locks are
    free and the list of requests is what it was before. *)
Theorem requests_release a req r0 c :
  idle c → a ∉ mc_msg_list c →
  let released := λ v : Z * mqtt_client N, idle v.2 ∧ mc_msg_list v.2 = mc_msg_list c in
  outcome released (mqtt_connect a req r0 c) ∧ outcome released (mqtt_subscribe a c) ∧
  outcome released (mqtt_publish a c) ∧ outcome released (mqtt_ping a req c) ∧
  outcome released (mqtt_disconnect c) ∧ outcome released (mqtt_poll c).
Proof.
  intros Hi Ha released.
  assert (∀ r, outcome (λ '(_, c'), calm c c') r → outcome released r) as Hmono.
  { intros r Hr. eapply outcome_mono; [exact Hr|]. intros [v c'] Hc.
    split; [by apply (calm_idle c)|by destruct Hc]. }
  split_and!; apply Hmono.
  - by apply mqtt_connect_calm.
  - by apply mqtt_subscribe_calm.
  - by apply mqtt_publish_calm.
  - by apply mqtt_ping_calm.
  - by apply mqtt_disconnect_calm.
  - eapply outcome_mono; [by apply mqtt_poll_polled|]. intros [v c']. apply polled_calm.
Qed.

End Client.
