(* ===== verification/MqttWire.v ===== *)
(** * MQTT: the packets on the wire

    [Ref.parse_publish] reads a PUBLISH packet as MQTT 3.1.1 defines it (sections
    2.2.3 and 3.3).  The network is a byte stream: reads return what is there up
    to the length asked for, writes take everything. *)

From S2P Require Import Prelude Mqtt MqttTheorems.
Local Open Scope Z_scope.

Module Ref.

(** A length in groups of seven bits, least significant first, at most four. *)
Fixpoint var_length (n : nat) (l : list Z) : option (Z * list Z) :=
  match n, l with
  | S n, b :: l =>
    if b <? 128 then Some (b, l) else
    match var_length n l with Some (v, l) => Some (b - 128 + 128 * v, l) | None => None end
  | _, _ => None
  end.

(** Quality of service (at most 2), topic, packet identifier (not zero, and not for
    quality 0), payload. *)
Definition parse_publish (l : list Z) : option (Z * list Z * option Z * list Z) :=
  match l with
  | b :: l =>
    if negb (b / 16 =? 3) then None else
    let qos := (b / 2) mod 4 in
    if 2 <? qos then None else
    match var_length 4 l with
    | Some (n, t1 :: t2 :: l) =>
      if negb (n =? Z.of_nat (length l) + 2) then None else
      let tl := Z.to_nat (256 * t1 + t2) in
      if (length l <? tl)%nat then None else
      let topic := take tl l in
      let l := drop tl l in
      if qos =? 0 then Some (qos, topic, None, l) else
      match l with
      | i1 :: i2 :: l =>
        if 256 * i1 + i2 =? 0 then None else Some (qos, topic, Some (256 * i1 + i2), l)
      | _ => None
      end
    | _ => None
    end
  | [] => None
  end.

(** The packet with a one-byte length. *)
Definition publish (qos : Z) (topic : list Z) (id : option Z) (payload : list Z) : list Z :=
  let body := [Z.of_nat (length topic) / 256; Z.of_nat (length topic) mod 256] ++ topic ++
    match id with Some id => [id / 256; id mod 256] | None => [] end ++ payload in
  [48 + 2 * qos; Z.of_nat (length body)] ++ body.

(** A packet that consists of an identifier. *)
Definition ack (ctl id : Z) : list Z := [ctl; 2; id / 256; id mod 256].

End Ref.

Record stream := { st_in : list Z; st_out : list Z }.

#[export] Instance stream_network : Network stream := {|
  net_read n s := (Z.of_nat (length (take (Z.to_nat n) (st_in s))), take (Z.to_nat n) (st_in s),
                   {| st_in := drop (Z.to_nat n) (st_in s); st_out := st_out s |});
  net_write l s := (Z.of_nat (length l), {| st_in := st_in s; st_out := st_out s ++ l |})
|}.

Abbreviation client := (mqtt_client stream).

Definition is_bytes (l : list Z) : Prop := Forall (λ b, 0 ≤ b < 256) l.

(** ** Arrays *)

(** The cells from [i] hold [l]. *)
Definition at_ (i : Z) (l : list Z) (b : buf_t) : Prop := ∀ k, (k < length l)%nat → b !! (i + Z.of_nat k) = l !! k.

Lemma at_nil i b : at_ i [] b.
Proof. intros k Hk. simpl in Hk. lia. Qed.

Lemma at_cons i v l b : at_ i (v :: l) b ↔ b !! i = Some v ∧ at_ (i + 1) l b.
Proof.
  split.
  - intros Ha. split.
    + specialize (Ha 0%nat ltac:(simpl; lia)). by rewrite Z.add_0_r in Ha.
    + intros k Hk. specialize (Ha (S k) ltac:(simpl; lia)).
      replace (i + 1 + Z.of_nat k) with (i + Z.of_nat (S k)) by lia. done.
  - intros [Hv Hl] [|k] Hk; [by rewrite Z.add_0_r|].
    simpl in Hk. specialize (Hl k ltac:(lia)).
    replace (i + Z.of_nat (S k)) with (i + 1 + Z.of_nat k) by lia. done.
Qed.

Lemma at_app i l k b : at_ i (l ++ k) b ↔ at_ i l b ∧ at_ (i + Z.of_nat (length l)) k b.
Proof.
  revert i. induction l as [|v l IH]; intros i.
  - rewrite Z.add_0_r. split; [intros; split; [apply at_nil|done]|by intros [_ ?]].
  - cbn [app]. rewrite !at_cons, IH. cbn [length].
    replace (i + Z.of_nat (S (length l))) with (i + 1 + Z.of_nat (length l)) by lia. tauto.
Qed.

Lemma at_rd_list i l b : at_ i l b → rd_list i (length l) b = Ok l.
Proof.
  revert i. induction l as [|v l IH]; intros i; [done|]. rewrite at_cons. intros [Hv Hl].
  cbn [length rd_list]. unfold rd. rewrite (load_Some _ _ _ Hv). cbn [mbind res_bind]. by rewrite IH.
Qed.

Lemma at_rd16 i x y b : at_ i [x; y] b → 0 ≤ x < 256 → 0 ≤ y < 256 → rd16 i b = Ok (256 * x + y).
Proof.
  rewrite !at_cons. intros (Hx & Hy & _) ??. unfold rd16, rd.
  rewrite (load_Some _ _ _ Hx), (load_Some _ _ _ Hy). cbn [mbind res_bind]. f_equal.
  rewrite Z.shiftl_mul_pow2 by lia. change (2 ^ 8) with 256.
  rewrite <- Z.lxor_lor, <- Z.add_nocarry_lxor; [lia|..];
    apply Z.bits_inj'; intros n Hn; rewrite Z.land_spec, Z.bits_0; change 256 with (2 ^ 8);
    (destruct (decide (n < 8)); [by rewrite Z.mul_pow2_bits_low by lia|]);
    by rewrite <- (Z.mod_small y (2 ^ 8)), Z.mod_pow2_bits_high, andb_false_r by lia.
Qed.

(** Writing a list of bytes. *)
Lemma wr_list_ok i l b :
  0 ≤ i → i + Z.of_nat (length l) ≤ 128 → is_bytes l →
  ∃ b', wr_list i l b = Ok b' ∧ at_ i l b' ∧
    ∀ j, ¬ (i ≤ j < i + Z.of_nat (length l)) → b' !! j = b !! j.
Proof.
  revert i b. induction l as [|v l IH]; intros i b Hi Hl Hb.
  { exists b. split; [done|]. split; [apply at_nil|done]. }
  apply Forall_cons in Hb as [Hv Hb]. cbn [length] in *. cbn [wr_list]. unfold wr at 1.
  rewrite (proj2 (Z.leb_le 0 i)), (proj2 (Z.ltb_lt i 128)) by lia. cbn [andb mbind res_bind].
  rewrite wrap_small by lia.
  destruct (IH (i + 1) (<[i := v]> b)) as (b' & -> & Ha & Hf); [lia|lia|done|].
  exists b'. split; [done|]. split.
  - apply at_cons. split; [|done]. rewrite Hf by lia. by rewrite lookup_insert_eq.
  - intros j Hj. rewrite Hf by lia. apply lookup_insert_ne. lia.
Qed.

Lemma at_frame i l b b' : (∀ j, i ≤ j < i + Z.of_nat (length l) → b' !! j = b !! j) → at_ i l b → at_ i l b'.
Proof. intros Hf Ha k Hk. rewrite Hf by lia. by apply Ha. Qed.

(** Writing past the end of the array is a fault. *)
Lemma wr_list_fault i l b :
  0 ≤ i ≤ 128 → 128 < i + Z.of_nat (length l) → wr_list i l b = Err Fault.
Proof.
  revert i b. induction l as [|v l IH]; intros i b Hi Hl; [simpl in Hl; lia|]. cbn [wr_list length] in *.
  unfold wr at 1. destruct (Z.ltb_spec i 128) as [Hlt|Hge]; [|by rewrite andb_false_r].
  rewrite (proj2 (Z.leb_le 0 i)) by lia. cbn [andb mbind res_bind]. apply IH; lia.
Qed.

Lemma wr_obj_ok i l k len b :
  0 ≤ i → len = Z.of_nat (length l) → i + Z.of_nat (length l) ≤ 128 → is_bytes l →
  ∃ b', wr_obj i (Some (l ++ k)) len b = Ok b' ∧ at_ i l b' ∧
    ∀ j, ¬ (i ≤ j < i + Z.of_nat (length l)) → b' !! j = b !! j.
Proof.
  intros Hi -> Hl Hb. unfold wr_obj. destruct (Z.eqb_spec (Z.of_nat (length l)) 0) as [E|E].
  - exists b. split; [done|]. destruct l; [|simpl in E; lia]. split; [apply at_nil|done].
  - rewrite (proj2 (Z.ltb_lt 0 _)), (proj2 (Z.leb_le _ _)) by (rewrite ?length_app; lia).
    cbn [andb]. rewrite Nat2Z.id, take_app_length. by apply wr_list_ok.
Qed.

(** ** The packet that is sent *)

(** Header, topic length, topic, identifier, payload. *)
Definition packet (b : Z) (topic id2 payload : list Z) : list Z :=
  [b; 4 + Z.of_nat (length topic) + Z.of_nat (length payload)] ++
  [Z.of_nat (length topic) / 256; Z.of_nat (length topic) mod 256] ++ topic ++ id2 ++ payload.

Lemma publish_packet_eq q topic id payload :
  Ref.publish q topic (Some id) payload = packet (48 + 2 * q) topic [id / 256; id mod 256] payload.
Proof. unfold Ref.publish, packet. cbn [app length]. rewrite !length_app. cbn [length]. do 2 f_equal. lia. Qed.

Lemma publish_packet_none topic x y payload :
  Ref.publish 0 topic None (x :: y :: payload) = packet 48 topic [x; y] payload.
Proof. unfold Ref.publish, packet. cbn [app length]. rewrite !length_app. cbn [length]. do 2 f_equal. lia. Qed.

Lemma parse_publish_ok q topic id payload :
  0 ≤ q ≤ 2 → (q = 0 ↔ id = None) → is_bytes topic →
  Z.of_nat (length topic) + Z.of_nat (length payload) + (match id with Some _ => 2 | None => 0 end) ≤ 125 →
  match id with Some id => 0 < id < 65536 | None => True end →
  Ref.parse_publish (Ref.publish q topic id payload) = Some (q, topic, id, payload).
Proof.
  intros Hq Hid Hb Hl Hr. unfold Ref.parse_publish, Ref.publish. cbv zeta. cbn [app].
  assert ((48 + 2 * q) / 16 = 3 ∧ ((48 + 2 * q) / 2) mod 4 = q) as [-> ->]
    by (assert (q = 0 ∨ q = 1 ∨ q = 2) as [-> | [-> | ->]] by lia; done).
  change (3 =? 3) with true. rewrite (proj2 (Z.ltb_ge 2 q)) by lia. cbn [negb Ref.var_length length]. rewrite !length_app.
  set (idl := match id with Some _ => _ | None => _ end).
  assert (Z.of_nat (length idl) = match id with Some _ => 2 | None => 0 end) as Hi by (subst idl; by destruct id).
  rewrite (proj2 (Z.ltb_lt _ 128)) by lia. rewrite !length_app.
  rewrite (proj2 (Z.eqb_eq _ _)) by lia. cbn [negb].
  assert (Z.to_nat (256 * (Z.of_nat (length topic) / 256) + Z.of_nat (length topic) mod 256) = length topic) as ->
    by (Z.div_mod_to_equations; lia).
  rewrite (proj2 (Nat.ltb_ge _ _)) by lia. rewrite take_app_length, drop_app_length.
  subst idl. destruct (Z.eqb_spec q 0) as [->|Hne].
  - destruct id; [naive_solver|done].
  - destruct id as [id|]; [|naive_solver]. cbn [app].
    replace (256 * (id / 256) + id mod 256) with id by (Z.div_mod_to_equations; lia).
    by destruct (Z.eqb_spec id 0); [lia|].
Qed.

(** Writing it: the five steps of [publish_packet]. *)
Lemma packet_written b topic id2 payload kt kd tl dl :
  tl = Z.of_nat (length topic) → dl = Z.of_nat (length payload) → tl + dl ≤ 122 → length id2 = 2%nat →
  is_bytes topic → is_bytes id2 → is_bytes payload → 0 ≤ b < 256 →
  ∃ d1 d2 d3 d4 d5,
    wr_list 2 [Z.shiftr tl 8; Z.land tl 0xff] ∅ = Ok d1 ∧
    wr_obj 4 (Some (topic ++ kt)) tl d1 = Ok d2 ∧
    wr_list (4 + tl) id2 d2 = Ok d3 ∧
    wr_obj (4 + tl + 2) (Some (payload ++ kd)) dl d3 = Ok d4 ∧
    wr_list 0 [b; 4 + tl + 2 + dl - 2] d4 = Ok d5 ∧
    at_ 0 (packet b topic id2 payload) d5.
Proof.
  intros -> -> Hl Hid Ht Hi Hp Hb. set (tl := Z.of_nat (length topic)) in *. set (dl := Z.of_nat (length payload)) in *.
  assert (Z.shiftr tl 8 = tl / 256) as E1 by by rewrite Z.shiftr_div_pow2 by lia.
  assert (Z.land tl 0xff = tl mod 256) as E2 by (change 0xff with (Z.ones 8); by rewrite Z.land_ones by lia).
  rewrite E1, E2.
  destruct (wr_list_ok 2 [tl / 256; tl mod 256] ∅) as (d1 & W1 & A1 & F1); [lia|simpl; lia| |].
  { apply Forall_cons. split; [|apply Forall_singleton]; Z.div_mod_to_equations; lia. }
  destruct (wr_obj_ok 4 topic kt tl d1) as (d2 & W2 & A2 & F2); [lia|done|lia|done|].
  destruct (wr_list_ok (4 + tl) id2 d2) as (d3 & W3 & A3 & F3); [lia|lia|done|].
  destruct (wr_obj_ok (4 + tl + 2) payload kd dl d3) as (d4 & W4 & A4 & F4); [lia|done|lia|done|].
  destruct (wr_list_ok 0 [b; 4 + tl + 2 + dl - 2] d4) as (d5 & W5 & A5 & F5); [lia|simpl; lia| |].
  { apply Forall_cons. split; [done|]. apply Forall_singleton. lia. }
  exists d1, d2, d3, d4, d5. split_and!; try done. unfold packet. fold tl dl.
  cbn [length] in F1, F5.
  apply at_app. split; [by replace (4 + tl + dl) with (4 + tl + 2 + dl - 2) by lia|].
  apply at_app. split.
  { apply (at_frame _ _ d1); [|done]. intros j Hj. cbn [length] in Hj. rewrite F5, F4, F3, F2 by lia. done. }
  apply at_app. split.
  { apply (at_frame _ _ d2); [|done]. intros j Hj. cbn [length] in Hj. rewrite F5, F4, F3 by lia. done. }
  apply at_app. cbn [length]. split.
  { apply (at_frame _ _ d3); [|by replace (0 + Z.of_nat 2 + Z.of_nat 2 + tl) with (4 + tl) by lia].
    intros j Hj. rewrite F5, F4 by lia. done. }
  rewrite Hid. apply (at_frame _ _ d4); [|by replace (0 + Z.of_nat 2 + Z.of_nat 2 + tl + Z.of_nat 2) with (4 + tl + 2) by lia].
  intros j Hj. rewrite F5 by lia. done.
Qed.

(** ** A request to publish *)

Lemma ld_req_ok a (c : client) m : mc_mem c !! a = Some m → ld_req a c = Ok m.
Proof. apply load_Some. Qed.

(** [m] asks to publish [payload] under [topic]. *)
Record publishes (m : mqtt_request) (q : Z) (topic payload : list Z) : Prop := {
  pu_topic : ∃ k, rq_topic m = Some (topic ++ k);
  pu_topic_len : rq_topic_len m = Z.of_nat (length topic);
  pu_data : ∃ k, rq_data m = Some (payload ++ k);
  pu_data_len : rq_data_len m = Z.of_nat (length payload);
  pu_qos : rq_qos m = q;
  pu_topic_bytes : is_bytes topic;
  pu_data_bytes : is_bytes payload;
  pu_nonempty : topic ≠ [] ∧ payload ≠ [];
  pu_size : Z.of_nat (length topic) + Z.of_nat (length payload) ≤ 122
}.

Lemma id_bytes id : 0 ≤ id < 65536 → is_bytes [id / 256; id mod 256].
Proof. intros. apply Forall_cons. split; [|apply Forall_singleton]; Z.div_mod_to_equations; lia. Qed.

Lemma id_cells id : [Z.shiftr id 8; Z.land id 0xff] = [id / 256; id mod 256].
Proof. rewrite Z.shiftr_div_pow2 by lia. change 0xff with (Z.ones 8). by rewrite Z.land_ones by lia. Qed.

Lemma publish_packet_0 a (c : client) m topic payload :
  mc_mem c !! a = Some m → publishes m 0 topic payload →
  ∃ d, publish_packet a c = Ok (Some (d, Z.of_nat (length (packet 48 topic [0; 0] payload))), c) ∧
       at_ 0 (packet 48 topic [0; 0] payload) d.
Proof.
  intros Em [[kt Et] El [kd Ed] Edl Eq Hbt Hbd _ Hs]. unfold publish_packet, ld_req.
  rewrite (load_Some _ _ _ Em). cbn [mbind res_bind]. rewrite Et, El, Ed, Edl, Eq. cbn [Z.eqb].
  destruct (packet_written 48 topic [0; 0] payload kt kd _ _ eq_refl eq_refl Hs) as (d1 & d2 & d3 & d4 & d5 & -> & E2 & E3 & E4 & E5 & A);
    [done|done|by repeat constructor|done|done|].
  cbn [mbind res_bind]. rewrite E2. cbn [mbind res_bind]. rewrite E3. cbn [mbind res_bind]. rewrite E4.
  cbn [mbind res_bind]. change (Z.lor CONTROL_PUBLISH (FLAGS_PUBLISH_QOS 0)) with 48. rewrite E5. cbn [mbind res_bind].
  exists d5. split; [|done]. do 4 f_equal. unfold packet. rewrite !length_app. cbn [length]. lia.
Qed.

Definition with_id (a id : Z) (m : mqtt_request) (c : client) : client :=
  set_mem (<[a := rq_set_packet_id id m]> (mc_mem c)) (set_next_id (u16 (id + 1)) c).

Lemma publish_packet_id a (c : client) m q topic payload :
  mc_mem c !! a = Some m → publishes m q topic payload → q = 1 ∨ q = 2 → 0 ≤ mc_next_id c < 65536 →
  let id := mc_next_id c in
  let p := packet (48 + 2 * q) topic [id / 256; id mod 256] payload in
  ∃ d, publish_packet a c = Ok (Some (d, Z.of_nat (length p)), with_id a id m c) ∧ at_ 0 p d.
Proof.
  intros Em [[kt Et] El [kd Ed] Edl Eq Hbt Hbd _ Hs] Hq Hid id p. unfold publish_packet, ld_req.
  rewrite (load_Some _ _ _ Em). cbn [mbind res_bind]. rewrite Et, El, Eq.
  destruct (packet_written (48 + 2 * q) topic [id / 256; id mod 256] payload kt kd _ _ eq_refl eq_refl Hs) as (d1 & d2 & d3 & d4 & d5 & -> & E2 & E3 & E4 & E5 & A);
    [done|done|by apply id_bytes|done|lia|].
  cbn [mbind res_bind]. rewrite E2. cbn [mbind res_bind].
  rewrite (proj2 (Z.eqb_neq q 0)) by lia.
  assert ((q =? 1) || (q =? 2) = true) as -> by (destruct Hq as [-> | ->]; done).
  unfold take_id. rewrite (upd_req_ok _ _ _ m) by done. cbn [mbind res_bind].
  rewrite (load_Some _ _ (rq_set_packet_id id m)) by (simpl; by rewrite lookup_insert_eq). cbn [mbind res_bind].
  cbn [rq_packet_id rq_set_packet_id rq_data rq_data_len rq_qos]. rewrite id_cells, E3. cbn [mbind res_bind].
  rewrite Ed, Edl, E4. cbn [mbind res_bind]. rewrite Eq.
  assert (Z.lor CONTROL_PUBLISH (FLAGS_PUBLISH_QOS q) = 48 + 2 * q) as -> by (destruct Hq as [-> | ->]; done).
  rewrite E5. cbn [mbind res_bind]. exists d5. split; [|done]. do 4 f_equal.
  unfold p, packet. rewrite !length_app. cbn [length]. lia.
Qed.

(** ** Sending and receiving on the stream *)

Definition on_stream (f : stream → stream) (c : client) : client := set_net (f (mc_net c)) c.
Definition put_out (l : list Z) (s : stream) : stream := {| st_in := st_in s; st_out := st_out s ++ l |}.
Definition cut_in (l : list Z) (s : stream) : stream := {| st_in := l; st_out := st_out s |}.

Lemma send_stream data l len (c : client) :
  mc_sem_send c = 1 → at_ 0 l data → len = Z.of_nat (length l) → 0 < len < 2 ^ 32 →
  mqtt_send data len c = Ok (0, on_stream (put_out l) c).
Proof.
  intros Hs Ha -> Hl. unfold mqtt_send, wait. rewrite Hs. cbn [Z.ltb Z.compare mbind res_bind].
  rewrite Nat2Z.id. destruct l as [|v l]; [simpl in Hl; lia|].
  cbn [length send_loop]. rewrite (proj2 (Z.eqb_neq 0 _)) by lia.
  rewrite Z.sub_0_r, Nat2Z.id. change (S (length l)) with (length (v :: l)).
  rewrite (at_rd_list _ _ _ Ha). cbn [mbind res_bind net_write stream_network].
  rewrite (proj2 (Z.ltb_ge _ 0)) by lia. rewrite Z.add_0_l, wrap_small by lia.
  rewrite Z.eqb_refl. cbn [mbind res_bind]. rewrite Z.eqb_refl. do 2 f_equal.
  destruct c. simpl in *. unfold on_stream, put_out, set_net, set_sem_send, post. simpl. f_equal. lia.
Qed.

Lemma recv_stream i n l rest data (c : client) :
  st_in (mc_net c) = l ++ rest → Z.to_nat n = length l →
  mqtt_recv i n data c = (d ← wr_list i l data; Ok (Z.of_nat (length l), d, on_stream (cut_in rest) c)).
Proof.
  intros Hin Hn. unfold mqtt_recv. cbn [net_read stream_network].
  rewrite Hin, Hn, take_app_length, drop_app_length. done.
Qed.

Lemma read_msg_stream n data l rest (c : client) :
  st_in (mc_net c) = Z.of_nat (length l) :: l ++ rest → n = Z.of_nat (length l) →
  (length l ≤ 126)%nat → is_bytes l →
  ∃ d, read_msg n data c = Ok (0, d, on_stream (cut_in rest) c) ∧ at_ 2 l d ∧ d !! 0 = data !! 0.
Proof.
  intros Hin -> Hl Hb. unfold read_msg.
  rewrite (recv_stream 1 1 [Z.of_nat (length l)] (l ++ rest)) by done.
  destruct (wr_list_ok 1 [Z.of_nat (length l)] data) as (d1 & -> & A1 & F1);
    [lia|simpl; lia|apply Forall_singleton; lia|].
  cbn [mbind res_bind length Z.of_nat Z.eqb negb].
  apply at_cons in A1 as [A1 _]. unfold rd. rewrite (load_Some _ _ _ A1). cbn [mbind res_bind].
  rewrite Z.eqb_refl. cbn [negb].
  rewrite (recv_stream 2 (Z.of_nat (length l)) l rest) by (done || lia).
  destruct (wr_list_ok 2 l d1) as (d2 & -> & A2 & F2); [lia|lia|done|].
  cbn [mbind res_bind]. rewrite Z.eqb_refl. cbn [negb]. exists d2. split; [done|]. split; [done|].
  rewrite F2, F1; [done|simpl; lia|lia].
Qed.

(** The control byte that [mqtt_poll] reads first. *)
Lemma poll_stream b rest (c : client) :
  st_in (mc_net c) = b :: rest → 0 ≤ b < 256 →
  ∃ d, d !! 0 = Some b ∧
    mqtt_poll c = ('(err, c) ← handle_recv d (on_stream (cut_in rest) c);
                   if negb (err =? 0) then c ← mqtt_event MQTT_EVENT_DISCONNECTED c; Ok (err, c) else Ok (0, c)).
Proof.
  intros Hin Hb. unfold mqtt_poll. rewrite (recv_stream 0 1 [b] rest) by done.
  destruct (wr_list_ok 0 [b] ∅) as (d & -> & A & _); [lia|simpl; lia|by apply Forall_singleton|].
  apply at_cons in A as [A _]. exists d. split; [done|]. done.
Qed.

(** ** Requests in the list *)

(** [a], which holds [m], is the only request in flight. *)
Record inflight (a : Z) (m : mqtt_request) (c : client) : Prop := {
  if_idle : idle c;
  if_list : mc_msg_list c = [a];
  if_mem : mc_mem c !! a = Some m
}.

Definition put_req (a : Z) (m : mqtt_request) (c : client) : client := set_mem (<[a := m]> (mc_mem c)) c.

Lemma inflight_put a m m' c : inflight a m c → inflight a m' (put_req a m' c).
Proof. intros [Hi Hl Hm]. constructor; [done|done|]. simpl. by rewrite lookup_insert_eq. Qed.

Lemma inflight_stream a m f c : inflight a m c → inflight a m (on_stream f c).
Proof. intros [Hi Hl Hm]. by constructor. Qed.

Lemma with_msgs_hit a m (p : mqtt_request → bool) act (c c' : client) :
  inflight a m c → p m = true → act a (set_msg_mtx 0 c) = Ok (set_msg_mtx 0 c') → mc_msg_mtx c' = 1 →
  with_msgs p act c = Ok c'.
Proof.
  intros [(Hs & Hm & Hx) Hl Hmem] Hp Hact Hc'. unfold with_msgs, lock_msg, wait. rewrite Hm.
  cbn [Z.ltb Z.compare mbind res_bind]. change (1 - 1) with 0.
  change (mc_msg_list (set_msg_mtx 0 c)) with (mc_msg_list c). rewrite Hl. cbn [msg_find]. unfold ld_req.
  rewrite (load_Some _ _ m) by done. cbn [mbind res_bind]. rewrite Hp, Hact. cbn [mbind res_bind].
  destruct c'. simpl in *. subst. done.
Qed.

Lemma with_msgs_miss a m (p : mqtt_request → bool) act (c : client) :
  inflight a m c → p m = false → with_msgs p act c = Ok c.
Proof.
  intros [(Hs & Hm & Hx) Hl Hmem] Hp. unfold with_msgs, lock_msg, wait. rewrite Hm.
  cbn [Z.ltb Z.compare mbind res_bind]. change (1 - 1) with 0.
  change (mc_msg_list (set_msg_mtx 0 c)) with (mc_msg_list c). rewrite Hl. cbn [msg_find]. unfold ld_req.
  rewrite (load_Some _ _ m) by done. cbn [mbind res_bind]. rewrite Hp. cbn [mbind res_bind].
  destruct c. simpl in *. subst. done.
Qed.

(** A request that changes state and is posted. *)
Definition completed (f : mqtt_request → mqtt_request) (m : mqtt_request) : mqtt_request :=
  rq_set_complete (post (rq_complete m)) (f m).

Lemma with_msgs_post a m (p : mqtt_request → bool) s (c : client) :
  inflight a m c → p m = true →
  with_msgs p (λ a c, c ← upd_req a (rq_set_state s) c; post_complete a c) c =
    Ok (put_req a (completed (rq_set_state s) m) c).
Proof.
  intros Hf Hp. apply (with_msgs_hit a m); [done|done| |apply Hf].
  rewrite (upd_post_ok _ _ _ m) by apply Hf. done.
Qed.

Lemma state_is_refl s : state_is s s = true.
Proof. by apply bool_decide_eq_true_2. Qed.

(** ** Acknowledgements *)

Lemma ack_cells id : 0 ≤ id < 65536 → 256 * (id / 256) + id mod 256 = id.
Proof. intros. Z.div_mod_to_equations. lia. Qed.

(** Polling a packet that consists of an identifier. *)
Lemma poll_ack ctl id rest (c : client) :
  0 ≤ ctl < 256 → 0 ≤ id < 65536 → st_in (mc_net c) = Ref.ack ctl id ++ rest →
  ∃ d d', d !! 0 = Some ctl ∧
    read_msg 2 d (on_stream (cut_in ([2; id / 256; id mod 256] ++ rest)) c) = Ok (0, d', on_stream (cut_in rest) c) ∧
    rd16 2 d' = Ok id ∧
    mqtt_poll c = ('(err, c) ← handle_recv d (on_stream (cut_in ([2; id / 256; id mod 256] ++ rest)) c);
                   if negb (err =? 0) then c ← mqtt_event MQTT_EVENT_DISCONNECTED c; Ok (err, c) else Ok (0, c)).
Proof.
  intros Hctl Hid Hin.
  destruct (poll_stream ctl ([2; id / 256; id mod 256] ++ rest) c) as (d & Hd & Hp); [done|done|].
  destruct (read_msg_stream 2 d [id / 256; id mod 256] rest (on_stream (cut_in ([2; id / 256; id mod 256] ++ rest)) c))
    as (d' & Hr & A & _); [done|done|simpl; lia|by apply id_bytes|].
  exists d, d'. split; [done|]. split; [by rewrite Hr; destruct c|]. split; [|done].
  rewrite (at_rd16 _ _ _ _ A); [by rewrite ack_cells|..]; Z.div_mod_to_equations; lia.
Qed.

(** Which handler the control byte selects. *)
Lemma dispatch d ctl (c : client) :
  d !! 0 = Some ctl →
  handle_recv d c =
    let k := Z.land ctl MQTT_CONTROL_M in
    if k =? CONTROL_CONNACK then handle_connack d c else
    if k =? CONTROL_PINGRESP then handle_pingresp d c else
    if k =? CONTROL_SUBACK then handle_suback d c else
    if k =? CONTROL_PUBLISH then handle_publish d c else
    if k =? CONTROL_PUBACK then handle_puback d c else
    if k =? CONTROL_PUBREC then handle_pubrec d c else
    if k =? CONTROL_PUBCOMP then handle_pubcomp d c else Ok (0, c).
Proof. intros Hd. unfold handle_recv, rd. by rewrite (load_Some _ _ _ Hd). Qed.

(** An acknowledgement for the request in flight. *)
Lemma poll_ack_hit ctl (h : buf_t → client → res (Z * client)) (p : Z → mqtt_request → bool) act a m id rest (c c' : client) :
  0 ≤ ctl < 256 → 0 ≤ id < 65536 →
  (∀ d c, d !! 0 = Some ctl → handle_recv d c = h d c) →
  (∀ d c, h d c = ('(err, data, c) ← read_msg 2 d c;
                   if negb (err =? 0) then Ok (err, c) else
                   packet_id ← rd16 2 data; c ← with_msgs (p packet_id) act c; Ok (0, c))) →
  st_in (mc_net c) = Ref.ack ctl id ++ rest →
  with_msgs (p id) act (on_stream (cut_in rest) c) = Ok c' →
  inflight a m c → mqtt_poll c = Ok (0, c').
Proof.
  intros Hctl Hid Hrecv Hh Hin Hw Hf.
  destruct (poll_ack _ _ _ _ Hctl Hid Hin) as (d & d' & Hd & Hr & H16 & ->).
  rewrite (Hrecv _ _ Hd), Hh, Hr. cbn [mbind res_bind Z.eqb negb]. rewrite H16. cbn [mbind res_bind].
  rewrite Hw. done.
Qed.


Lemma poll_puback a m id rest (c : client) :
  inflight a m c → rq_state m = MSG_STATE_PUBLISH → rq_qos m = 1 → rq_packet_id m = id →
  0 ≤ id < 65536 → st_in (mc_net c) = Ref.ack CONTROL_PUBACK id ++ rest →
  mqtt_poll c = Ok (0, put_req a (completed (rq_set_state MSG_STATE_PUBACK) m) (on_stream (cut_in rest) c)).
Proof.
  intros Hf Hs Hq Hm Hid Hin.
  eapply (poll_ack_hit CONTROL_PUBACK); [done|exact Hid| | |exact Hin| |exact Hf].
  - intros d c0 Hd. rewrite (dispatch _ _ _ Hd). done.
  - done.
  - apply with_msgs_post; [by apply inflight_stream|]. by rewrite Hm, Hs, Hq, state_is_refl, Z.eqb_refl.
Qed.

Lemma poll_pubcomp a m id rest (c : client) :
  inflight a m c → rq_state m = MSG_STATE_PUBREC → rq_qos m = 2 → rq_packet_id m = id →
  0 ≤ id < 65536 → st_in (mc_net c) = Ref.ack CONTROL_PUBCOMP id ++ rest →
  mqtt_poll c = Ok (0, put_req a (completed (rq_set_state MSG_STATE_PUBCOMP) m) (on_stream (cut_in rest) c)).
Proof.
  intros Hf Hs Hq Hm Hid Hin.
  eapply (poll_ack_hit CONTROL_PUBCOMP); [done|exact Hid| | |exact Hin| |exact Hf].
  - intros d c0 Hd. rewrite (dispatch _ _ _ Hd). done.
  - done.
  - apply with_msgs_post; [by apply inflight_stream|]. by rewrite Hm, Hs, Hq, state_is_refl, Z.eqb_refl.
Qed.

Lemma send_id_stream ctl m id (c : client) :
  mc_sem_send c = 1 → rq_packet_id m = id → 0 ≤ id < 65536 → 0 ≤ ctl < 256 →
  send_id ctl m c = Ok (0, on_stream (put_out (Ref.ack ctl id)) c).
Proof.
  intros Hs <- Hid Hctl. unfold send_id.
  assert ([ctl; 2; Z.shiftr (rq_packet_id m) 8; Z.land (rq_packet_id m) 255] = Ref.ack ctl (rq_packet_id m)) as ->
    by (unfold Ref.ack; do 2 f_equal; apply id_cells).
  destruct (wr_list_ok 0 (Ref.ack ctl (rq_packet_id m)) ∅) as (d & -> & A & _); [lia|simpl; lia| |].
  { apply Forall_cons. split; [done|]. apply Forall_cons. split; [lia|]. by apply id_bytes. }
  cbn [mbind res_bind]. by rewrite (send_stream d _ 4 c Hs A) by (done || lia).
Qed.

(** The first half of a delivery of quality 2: PUBREC is answered by PUBREL. *)
Lemma poll_pubrec a m id rest (c : client) :
  inflight a m c → rq_state m = MSG_STATE_PUBLISH → rq_qos m = 2 → rq_packet_id m = id →
  0 ≤ id < 65536 → st_in (mc_net c) = Ref.ack CONTROL_PUBREC id ++ rest →
  mqtt_poll c = Ok (0, put_req a (rq_set_state MSG_STATE_PUBREC m)
    (on_stream (put_out (Ref.ack 0x62 id)) (on_stream (cut_in rest) c))).
Proof.
  intros Hf Hs Hq Hm Hid Hin.
  eapply (poll_ack_hit CONTROL_PUBREC); [done|exact Hid| | |exact Hin| |exact Hf].
  - intros d c0 Hd. rewrite (dispatch _ _ _ Hd). done.
  - done.
  - apply (with_msgs_hit a m); [by apply inflight_stream|by rewrite Hm, Hs, Hq, state_is_refl, Z.eqb_refl| |apply Hf].
    destruct Hf as [(Hss & _) Hl Hmem].
    rewrite (upd_req_ok _ _ _ m) by done. cbn [mbind res_bind]. unfold ld_req.
    rewrite (load_Some _ _ (rq_set_state MSG_STATE_PUBREC m)) by (simpl; by rewrite lookup_insert_eq).
    cbn [mbind res_bind]. unfold mqtt_send_pubrel. rewrite (send_id_stream _ _ id) by done.
    done.
Qed.

(** A packet that concerns no request: a response to a ping nobody waits for. *)
Definition PINGRESP_packet : list Z := [CONTROL_PINGRESP; 0].

Lemma poll_noise a m rest (c : client) :
  inflight a m c → rq_state m ≠ MSG_STATE_PINGREQ → st_in (mc_net c) = PINGRESP_packet ++ rest →
  mqtt_poll c = Ok (0, on_stream (cut_in rest) c).
Proof.
  intros Hf Hs Hin. destruct (poll_stream CONTROL_PINGRESP (0 :: rest) c) as (d & Hd & ->); [done|done|].
  rewrite (dispatch _ _ _ Hd). change (Z.land CONTROL_PINGRESP MQTT_CONTROL_M) with CONTROL_PINGRESP.
  cbv zeta. change (CONTROL_PINGRESP =? CONTROL_CONNACK) with false. rewrite Z.eqb_refl. cbv iota.
  unfold handle_pingresp. rewrite (recv_stream 1 1 [0] rest) by done.
  destruct (wr_list_ok 1 [0] d) as (d' & -> & _); [lia|simpl; lia|apply Forall_singleton; lia|].
  cbn [mbind res_bind length Z.of_nat Z.eqb negb].
  rewrite (with_msgs_miss a m); [done| |].
  - by do 2 apply inflight_stream.
  - unfold state_is. by rewrite bool_decide_false.
Qed.

(** ** Waiting for the acknowledgement *)

Fixpoint noise (k : nat) : list Z := match k with O => [] | S k => PINGRESP_packet ++ noise k end.

Lemma wait_loop_unfold n a (c : client) :
  wait_loop n a c = ('(_, c) ← mqtt_poll c;
                     '(err, c) ← timedwait_complete a c;
                     if negb (err =? 0) then Ok c else
                     match n with O => Ok c | S n => wait_loop n a c end).
Proof. by destruct n. Qed.

Lemma timedwait_none a m (c : client) :
  inflight a m c → rq_complete m = 0 → timedwait_complete a c = Ok (0, c).
Proof.
  intros Hf Hc. unfold timedwait_complete, ld_req. rewrite (load_Some _ _ m) by apply Hf.
  cbn [mbind res_bind]. by rewrite Hc.
Qed.

Lemma timedwait_some a m (c : client) :
  inflight a m c → rq_complete m = 1 → timedwait_complete a c = Ok (1, put_req a (rq_set_complete 0 m) c).
Proof.
  intros Hf Hc. unfold timedwait_complete, ld_req. rewrite (load_Some _ _ m) by apply Hf.
  cbn [mbind res_bind]. by rewrite Hc.
Qed.

Lemma on_stream_same rest (c : client) : st_in (mc_net c) = rest → on_stream (cut_in rest) c = c.
Proof. intros <-. by destruct c as [[] ]. Qed.

Lemma on_stream_cut l1 l2 (c : client) : on_stream (cut_in l2) (on_stream (cut_in l1) c) = on_stream (cut_in l2) c.
Proof. by destruct c. Qed.

Lemma wait_noise k n a m rest (c : client) :
  inflight a m c → rq_state m ≠ MSG_STATE_PINGREQ → rq_complete m = 0 → (k ≤ n)%nat →
  st_in (mc_net c) = noise k ++ rest →
  wait_loop n a c = wait_loop (n - k) a (on_stream (cut_in rest) c).
Proof.
  revert n c. induction k as [|k IH]; intros n c Hf Hs Hc Hk Hin.
  - by rewrite on_stream_same, Nat.sub_0_r.
  - destruct n as [|n]; [lia|]. cbn [noise] in Hin. rewrite <- app_assoc in Hin.
    rewrite wait_loop_unfold, (poll_noise a m (noise k ++ rest)) by done. cbn [mbind res_bind].
    set (c1 := on_stream (cut_in (noise k ++ rest)) c).
    assert (inflight a m c1) as Hf1 by by apply inflight_stream.
    rewrite (timedwait_none a m) by done. cbn [mbind res_bind Z.eqb negb].
    rewrite (IH n c1) by (done || lia). cbn [Nat.sub]. unfold c1. by rewrite on_stream_cut.
Qed.

(** What the broker answers. *)
Definition acks (q id : Z) : list Z :=
  if q =? 1 then Ref.ack CONTROL_PUBACK id else Ref.ack CONTROL_PUBREC id ++ Ref.ack CONTROL_PUBCOMP id.

Definition answered (q : Z) (m : mqtt_request) : mqtt_request :=
  rq_set_complete 0 (rq_set_state (if q =? 1 then MSG_STATE_PUBACK else MSG_STATE_PUBCOMP) m).

(** The client once the request is answered. *)
Record after_answer (q a id : Z) (m : mqtt_request) (rest : list Z) (c c' : client) : Prop := {
  aa_flight : inflight a (answered q m) c';
  aa_net : mc_net c' = {| st_in := rest;
    st_out := st_out (mc_net c) ++ if q =? 2 then Ref.ack 0x62 id else [] |}
}.

Lemma wait_acks q n k a m id rest (c : client) :
  inflight a m c → rq_state m = MSG_STATE_PUBLISH → rq_qos m = q → q = 1 ∨ q = 2 →
  rq_packet_id m = id → 0 ≤ id < 65536 → rq_complete m = 0 → (k + Z.to_nat q ≤ S n)%nat →
  st_in (mc_net c) = noise k ++ acks q id ++ rest →
  ∃ c', wait_loop n a c = Ok c' ∧ after_answer q a id m rest c c'.
Proof.
  intros Hf Hs Hq Hq12 Hid Hr Hc Hk Hin.
  rewrite (wait_noise k n a m (acks q id ++ rest)) by (done || lia || (rewrite Hs; done)).
  set (c1 := on_stream (cut_in (acks q id ++ rest)) c).
  assert (inflight a m c1) as Hf1 by by apply inflight_stream.
  rewrite wait_loop_unfold. destruct Hq12 as [-> | ->].
  - rewrite (poll_puback a m id rest c1) by done. cbn [mbind res_bind].
    set (c2 := put_req _ _ _).
    assert (inflight a (completed (rq_set_state MSG_STATE_PUBACK) m) c2) as Hf2
      by (apply (inflight_put a m); by apply inflight_stream).
    rewrite (timedwait_some _ _ _ Hf2) by (simpl; unfold post; lia). cbn [mbind res_bind Z.eqb negb].
    eexists. split; [done|]. constructor; [by apply (inflight_put _ _ _ _ Hf2)|].
    simpl. by rewrite app_nil_r.
  - unfold acks in c1. cbn [Z.eqb] in c1.
    assert (st_in (mc_net c1) = Ref.ack CONTROL_PUBREC id ++ (Ref.ack CONTROL_PUBCOMP id ++ rest)) as Hin1
      by done.
    rewrite (poll_pubrec a m id _ c1) with (1 := Hf1) (6 := Hin1) by done. cbn [mbind res_bind].
    set (c2 := put_req _ _ _).
    assert (inflight a (rq_set_state MSG_STATE_PUBREC m) c2) as Hf2
      by (apply (inflight_put a m); by do 2 apply inflight_stream).
    rewrite (timedwait_none _ _ _ Hf2) by done. cbn [mbind res_bind Z.eqb negb].
    destruct (n - k)%nat as [|j] eqn:En; [lia|].
    rewrite wait_loop_unfold, (poll_pubcomp a _ id rest c2 Hf2) by done. cbn [mbind res_bind].
    set (c3 := put_req _ _ (on_stream _ c2)).
    assert (inflight a (completed (rq_set_state MSG_STATE_PUBCOMP) (rq_set_state MSG_STATE_PUBREC m)) c3) as Hf3
      by (apply (inflight_put _ _ _ _ (inflight_stream _ _ _ _ Hf2))).
    rewrite (timedwait_some _ _ _ Hf3) by (simpl; unfold post; lia). cbn [mbind res_bind Z.eqb negb].
    eexists. split; [done|]. constructor; [by apply (inflight_put _ _ _ _ Hf3)|]. done.
Qed.

Lemma msg_append_nil a (c : client) :
  idle c → mc_msg_list c = [] → msg_append a c = Ok (set_msg_list [a] c).
Proof.
  intros (_ & Hm & _) Hl. unfold msg_append, lock_msg, wait. rewrite Hm. cbn [Z.ltb Z.compare mbind res_bind].
  simpl. rewrite Hl. destruct c; simpl in *; by subst.
Qed.

Lemma msg_remove_one a (c : client) :
  idle c → mc_msg_list c = [a] → msg_remove a c = Ok (set_msg_list [] c).
Proof.
  intros (_ & Hm & _) Hl. unfold msg_remove, lock_msg, wait. rewrite Hm. cbn [Z.ltb Z.compare mbind res_bind].
  simpl. rewrite Hl. rewrite filter_cons_False by naive_solver. destruct c; simpl in *; by subst.
Qed.

Lemma publishes_ready m q topic payload :
  publishes m q topic payload →
  bool_decide (rq_topic m = None) || (rq_topic_len m =? 0) || bool_decide (rq_data m = None) || (rq_data_len m =? 0) = false.
Proof.
  intros [[kt ->] -> [kd ->] -> _ _ _ [Ht Hd] _].
  rewrite !bool_decide_false by done.
  destruct topic; [done|]. destruct payload; [done|]. done.
Qed.

Lemma packet_size b topic id2 payload :
  length id2 = 2%nat → Z.of_nat (length topic) + Z.of_nat (length payload) ≤ 122 →
  0 < Z.of_nat (length (packet b topic id2 payload)) < 2 ^ 32.
Proof. intros Hi Hl. unfold packet. rewrite !length_app. cbn [length]. lia. Qed.

(** C38: a message of quality 1 or 2 whose topic and payload have at most 122 bytes is
    sent as a PUBLISH packet of MQTT 3.1.1 when the next identifier is not zero, and
    when the broker acknowledges it (PUBACK; or PUBREC, which is answered by PUBREL,
    directly followed by PUBCOMP) within eleven packets, the others before it being
    responses to pings, [mqtt_publish] returns 0, with the locks free, no request
    left in the list and the rest of the stream unread.  (The identifier of 16 bits
    does become zero: [Demo.zero_identifier].) *)
Theorem publish_delivers a (c : client) m q topic payload k rest :
  idle c → mc_msg_list c = [] → mc_mem c !! a = Some m → publishes m q topic payload →
  q = 1 ∨ q = 2 → 0 < mc_next_id c < 65536 → (k + Z.to_nat q ≤ 11)%nat →
  st_in (mc_net c) = noise k ++ acks q (mc_next_id c) ++ rest →
  let id := mc_next_id c in
  let p := Ref.publish q topic (Some id) payload in
  Ref.parse_publish p = Some (q, topic, Some id, payload) ∧
  ∃ c', mqtt_publish a c = Ok (0, c') ∧ idle c' ∧ mc_msg_list c' = [] ∧
    mc_net c' = {| st_in := rest; st_out := st_out (mc_net c) ++ p ++ if q =? 2 then Ref.ack 0x62 id else [] |}.
Proof.
  intros Hi Hl Hm Hp Hq Hid0 Hk Hin id p.
  assert (0 ≤ mc_next_id c < 65536) as Hid by lia. pose proof Hp as [_ _ _ _ Eq Hbt Hbd _ Hs].
  split; [apply parse_publish_ok; [lia|naive_solver lia|done|lia|done]|].
  destruct (publish_packet_id a c m q topic payload Hm Hp Hq Hid) as (d & Epk & A).
  fold id in Epk, A. cbv zeta in Epk, A. rewrite <- publish_packet_eq in Epk, A. fold p in Epk, A.
  unfold mqtt_publish. rewrite (ld_req_ok _ _ _ Hm). cbn [mbind res_bind].
  rewrite (publishes_ready _ _ _ _ Hp), Epk. cbn [mbind res_bind]. rewrite Eq.
  assert ((q =? 1) || (q =? 2) = true) as -> by (destruct Hq as [-> | ->]; done).
  rewrite (upd_req_ok _ _ _ (rq_set_packet_id id m)) by (simpl; by rewrite lookup_insert_eq).
  cbn [mbind res_bind]. set (m1 := rq_set_state MSG_STATE_PUBLISH _). set (c1 := set_mem _ (with_id a id m c)).
  rewrite msg_append_nil by done. cbn [mbind res_bind]. set (c2 := set_msg_list [a] c1).
  assert (inflight a m1 c2) as Hf2 by (constructor; [done|done|]; simpl; by rewrite lookup_insert_eq).
  unfold send_request. rewrite (send_stream d p _ c2) by (done || apply Hi || (unfold p; rewrite publish_packet_eq; by apply packet_size)).
  cbn [mbind res_bind Z.eqb negb].
  destruct (wait_acks q 10 k a m1 id rest (on_stream (put_out p) c2)) as (c3 & -> & [Hf3 Hn3]); try done.
  { by apply inflight_stream. }
  cbn [mbind res_bind]. rewrite msg_remove_one by apply Hf3. cbn [mbind res_bind].
  rewrite (ld_req_ok _ _ (answered q m1)) by apply Hf3. cbn [mbind res_bind]. exists (set_msg_list [] c3).
  split; [|split; [apply Hf3|split; [done|]]].
  - cbn [rq_state rq_qos answered rq_set_complete rq_set_state].
    change (rq_qos m1) with (rq_qos m). rewrite Eq. by destruct Hq as [-> | ->].
  - simpl. rewrite Hn3. simpl. by rewrite <- app_assoc.
Qed.

(** A message of quality 0 is sent with two extra bytes: the packet that
    leaves the client is one whose payload is the caller's payload preceded by
    two zero bytes (the place of the identifier that quality 0 does not have). *)
Theorem publish_quality0_shifted a (c : client) m topic payload :
  idle c → mc_mem c !! a = Some m → publishes m 0 topic payload →
  ∃ p, mqtt_publish a c = Ok (0, on_stream (put_out p) c) ∧
       Ref.parse_publish p = Some (0, topic, None, 0 :: 0 :: payload).
Proof.
  intros Hi Hm Hp. pose proof Hp as [_ _ _ _ Eq Hbt Hbd _ Hs].
  destruct (publish_packet_0 a c m topic payload Hm Hp) as (d & Epk & A).
  exists (packet 48 topic [0; 0] payload). split.
  - unfold mqtt_publish. rewrite (ld_req_ok _ _ _ Hm). cbn [mbind res_bind].
    rewrite (publishes_ready _ _ _ _ Hp), Epk. cbn [mbind res_bind]. rewrite Eq. cbn [Z.eqb orb].
    by rewrite (send_stream d _ _ c) by (done || apply Hi || by apply packet_size).
  - rewrite <- publish_packet_none. apply parse_publish_ok; [lia|naive_solver|done|simpl; lia|done].
Qed.

(** ** Receiving a message *)

Lemma span_ok i l b : at_ i l b → span i (Z.of_nat (length l)) b = Some l.
Proof.
  intros A. unfold span. rewrite (proj2 (Z.ltb_ge _ 0)) by lia. by rewrite Nat2Z.id, (at_rd_list _ _ _ A).
Qed.

Definition logged (v : callback) (c : client) : client := if mc_msgcb c then add_log v c else c.

(** What the handler of PUBLISH finds in its array. *)
Lemma publish_cells q topic idl payload rest (c : client) :
  0 ≤ q ≤ 2 → is_bytes topic → is_bytes idl → is_bytes payload →
  Z.of_nat (length topic) + Z.of_nat (length idl) + Z.of_nat (length payload) ≤ 124 →
  let body := [Z.of_nat (length topic) / 256; Z.of_nat (length topic) mod 256] ++ topic ++ idl ++ payload in
  st_in (mc_net c) = [48 + 2 * q; Z.of_nat (length body)] ++ body ++ rest →
  ∃ d d1 d2,
    mqtt_poll c = ('(err, c) ← handle_publish d (on_stream (cut_in (Z.of_nat (length body) :: body ++ rest)) c);
                   if negb (err =? 0) then c ← mqtt_event MQTT_EVENT_DISCONNECTED c; Ok (err, c) else Ok (0, c)) ∧
    rd 0 d = Ok (48 + 2 * q) ∧
    wr_list 1 [Z.of_nat (length body)] d = Ok d1 ∧ rd 1 d1 = Ok (Z.of_nat (length body)) ∧
    wr_list 2 body d1 = Ok d2 ∧ rd16 2 d2 = Ok (Z.of_nat (length topic)) ∧
    at_ 4 topic d2 ∧ at_ (4 + Z.of_nat (length topic)) idl d2 ∧
    at_ (4 + Z.of_nat (length topic) + Z.of_nat (length idl)) payload d2.
Proof.
  intros Hq Hbt Hbi Hbp Hlen body Hin.
  assert (Z.of_nat (length body) ≤ 126) as Hbody.
  { unfold body. rewrite !length_app. cbn [length]. lia. }
  assert (is_bytes body) as Hbb.
  { unfold body. repeat (apply Forall_app; split); try done.
    apply Forall_cons; split; [|apply Forall_singleton]; Z.div_mod_to_equations; lia. }
  destruct (poll_stream (48 + 2 * q) (Z.of_nat (length body) :: body ++ rest) c) as (d & Hd & Hp); [done|lia|].
  assert (Z.land (48 + 2 * q) MQTT_CONTROL_M = CONTROL_PUBLISH) as Ectl
    by (assert (q = 0 ∨ q = 1 ∨ q = 2) as [-> | [-> | ->]] by lia; done).
  rewrite (dispatch _ _ _ Hd), Ectl in Hp.
  destruct (wr_list_ok 1 [Z.of_nat (length body)] d) as (d1 & W1 & A1 & F1);
    [lia|simpl; lia|apply Forall_singleton; lia|].
  destruct (wr_list_ok 2 body d1) as (d2 & W2 & A2 & F2); [lia|lia|done|].
  exists d, d1, d2. apply at_cons in A1 as [A1 _].
  unfold body in A2. apply at_app in A2 as [A20 A2]. apply at_app in A2 as [A21 A2]. apply at_app in A2 as [A22 A23].
  cbn [length] in A21, A22, A23.
  split_and!; [exact Hp|by apply load_Some|done|by apply load_Some|done| |done|done|].
  - rewrite (at_rd16 _ _ _ _ A20); [|Z.div_mod_to_equations; lia..]. f_equal. Z.div_mod_to_equations. lia.
  - by replace (4 + Z.of_nat (length topic) + Z.of_nat (length idl)) with
      (2 + Z.of_nat 2 + Z.of_nat (length topic) + Z.of_nat (length idl)) by lia.
Qed.

(** A received PUBLISH packet of quality 1 or 2 that fits the array is handed
    to the application with its topic, payload and identifier; quality 1 is
    acknowledged by a PUBACK with the identifier, quality 2 by nothing. *)
Theorem publish_received q topic id payload rest (c : client) :
  idle c → mc_msgcb c = true → q = 1 ∨ q = 2 → is_bytes topic → is_bytes payload → 0 ≤ id < 65536 →
  Z.of_nat (length topic) + Z.of_nat (length payload) ≤ 122 →
  st_in (mc_net c) = Ref.publish q topic (Some id) payload ++ rest →
  mqtt_poll c = Ok (0, on_stream (λ s, {| st_in := rest;
      st_out := st_out s ++ if q =? 1 then Ref.ack CONTROL_PUBACK id else [] |})
    (add_log (Message (Some topic) (Some payload) id) c)).
Proof.
  intros (Hs & Hi) Hcb Hq Hbt Hbp Hid Hlen Hin.
  destruct (publish_cells q topic [id / 256; id mod 256] payload rest c) as (d & d1 & d2 & -> & R0 & W1 & R1 & W2 & R2 & A1 & A2 & A3);
    [lia|done|by apply id_bytes|done|simpl; lia|exact Hin|].
  set (body := [_; _] ++ topic ++ _) in *.
  assert (Z.of_nat (length body) = 4 + Z.of_nat (length topic) + Z.of_nat (length payload)) as Elen
    by (unfold body; rewrite !length_app; cbn [length]; lia).
  set (c1 := on_stream (cut_in (Z.of_nat (length body) :: body ++ rest)) c).
  unfold handle_publish. rewrite R0. cbn [mbind res_bind].
  assert (Z.shiftr (Z.land (Z.land (48 + 2 * q) 0xf) FLAGS_PUBLISH_QOS_M) FLAGS_PUBLISH_QOS_S = q) as ->
    by (destruct Hq as [-> | ->]; done).
  rewrite (recv_stream 1 1 [Z.of_nat (length body)] (body ++ rest) d c1) by done.
  rewrite W1. cbn [mbind res_bind length Z.of_nat Z.eqb negb]. rewrite R1. cbn [mbind res_bind].
  rewrite (recv_stream 2 (Z.of_nat (length body)) body rest) by (done || lia).
  rewrite W2. cbn [mbind res_bind]. rewrite (Z.eqb_refl (Z.of_nat (length body))). cbn [negb]. rewrite R2. cbn [mbind res_bind].
  assert ((q =? 1) || (q =? 2) = true) as -> by (destruct Hq as [-> | ->]; done).
  cbn [length] in A3. change (Z.of_nat 2) with 2 in A3.
  rewrite (at_rd16 _ _ _ _ A2) by (Z.div_mod_to_equations; lia). rewrite ack_cells by done. cbn [mbind res_bind].
  rewrite (span_ok _ _ _ A1).
  replace (Z.of_nat (length body) - Z.of_nat (length topic) - 4) with (Z.of_nat (length payload)) by lia.
  rewrite (span_ok _ _ _ A3). cbn [rq_topic rq_data].
  set (c2 := if mc_msgcb _ then _ else _).
  assert (c2 = on_stream (cut_in rest) (add_log (Message (Some topic) (Some payload) id) c)) as Ec2.
  { unfold c2, c1. rewrite !on_stream_cut. cbn [mc_msgcb on_stream set_net]. by rewrite Hcb. }
  clearbody c2. subst c2. destruct Hq as [-> | ->].
  - change (1 =? 1) with true. cbv iota. unfold mqtt_send_puback. rewrite (send_id_stream _ _ id) by (done || exact Hs).
    done.
  - change (2 =? 1) with false. cbv iota. cbn [mbind res_bind]. change (negb (0 =? 0)) with false. cbv iota. do 2 f_equal. unfold on_stream, cut_in, set_net. simpl. by rewrite app_nil_r.
Qed.

(** A received PUBLISH packet of quality 0, which carries no identifier, is
    handed over without the last two bytes of its payload. *)
Theorem quality0_received_short topic payload x y rest (c : client) :
  idle c → mc_msgcb c = true → is_bytes topic → is_bytes (payload ++ [x; y]) →
  Z.of_nat (length topic) + Z.of_nat (length payload) ≤ 122 →
  st_in (mc_net c) = Ref.publish 0 topic None (payload ++ [x; y]) ++ rest →
  mqtt_poll c = Ok (0, on_stream (cut_in rest) (add_log (Message (Some topic) (Some payload) 0) c)).
Proof.
  intros _ Hcb Hbt Hbp Hlen Hin.
  destruct (publish_cells 0 topic [] (payload ++ [x; y]) rest c) as (d & d1 & d2 & -> & R0 & W1 & R1 & W2 & R2 & A1 & _ & A3);
    [lia|done|apply Forall_nil_2|done|rewrite length_app; simpl; lia|exact Hin|].
  rewrite Z.add_0_r in A3. apply at_app in A3 as [A3 _].
  set (body := [_; _] ++ topic ++ _) in *.
  assert (Z.of_nat (length body) = 4 + Z.of_nat (length topic) + Z.of_nat (length payload)) as Elen
    by (unfold body; rewrite !length_app; cbn [length]; lia).
  set (c1 := on_stream (cut_in (Z.of_nat (length body) :: body ++ rest)) c).
  unfold handle_publish. rewrite R0. cbn [mbind res_bind].
  change (Z.shiftr (Z.land (Z.land (48 + 2 * 0) 0xf) FLAGS_PUBLISH_QOS_M) FLAGS_PUBLISH_QOS_S) with 0.
  rewrite (recv_stream 1 1 [Z.of_nat (length body)] (body ++ rest) d c1) by done.
  rewrite W1. cbn [mbind res_bind length Z.of_nat Z.eqb negb]. rewrite R1. cbn [mbind res_bind].
  rewrite (recv_stream 2 (Z.of_nat (length body)) body rest) by (done || lia).
  rewrite W2. cbn [mbind res_bind]. rewrite (Z.eqb_refl (Z.of_nat (length body))). cbn [negb]. rewrite R2. cbn [mbind res_bind Z.eqb orb].
  rewrite (span_ok _ _ _ A1).
  replace (Z.of_nat (length body) - Z.of_nat (length topic) - 4) with (Z.of_nat (length payload)) by lia.
  rewrite (span_ok _ _ _ A3). cbn [rq_topic rq_data mbind res_bind Z.eqb negb]. do 2 f_equal.
  unfold c1. rewrite !on_stream_cut. cbn [mc_msgcb on_stream set_net]. by rewrite Hcb.
Qed.

(** The length that a PUBLISH packet announces is not compared with the size
    of the array: one of 127 to 255 bytes makes the client write past the end of
    [data]. *)
Theorem publish_overflow b body rest (c : client) :
  (∃ q, 0 ≤ q ≤ 2 ∧ b = 48 + 2 * q) → (127 ≤ length body ≤ 255)%nat → is_bytes body →
  st_in (mc_net c) = [b; Z.of_nat (length body)] ++ body ++ rest →
  mqtt_poll c = Err Fault.
Proof.
  intros (q & Hq & ->) Hl Hb Hin.
  destruct (poll_stream (48 + 2 * q) (Z.of_nat (length body) :: body ++ rest) c) as (d & Hd & ->); [done|lia|].
  assert (Z.land (48 + 2 * q) MQTT_CONTROL_M = CONTROL_PUBLISH) as Ectl
    by (assert (q = 0 ∨ q = 1 ∨ q = 2) as [-> | [-> | ->]] by lia; done).
  rewrite (dispatch _ _ _ Hd), Ectl. cbv zeta.
  change (CONTROL_PUBLISH =? CONTROL_CONNACK) with false. change (CONTROL_PUBLISH =? CONTROL_PINGRESP) with false.
  change (CONTROL_PUBLISH =? CONTROL_SUBACK) with false. rewrite Z.eqb_refl. cbv iota.
  unfold handle_publish, rd. rewrite (load_Some _ _ _ Hd). cbn [mbind res_bind].
  rewrite (recv_stream 1 1 [Z.of_nat (length body)] (body ++ rest)) by done.
  destruct (wr_list_ok 1 [Z.of_nat (length body)] d) as (d1 & -> & A1 & F1);
    [lia|simpl; lia|apply Forall_singleton; lia|].
  apply at_cons in A1 as [A1 _].
  cbn [mbind res_bind length Z.of_nat Z.eqb negb]. rewrite (load_Some _ _ _ A1). cbn [mbind res_bind].
  rewrite (recv_stream 2 (Z.of_nat (length body)) body rest) by (done || lia).
  by rewrite wr_list_fault by lia.
Qed.

(** ** Witnesses: a client that publishes "hi" under "a/b" *)

Module Demo.

Definition req (q : Z) : mqtt_request :=
  {| rq_data := Some [104; 105]; rq_data_len := 2; rq_topic := Some [97; 47; 98]; rq_topic_len := 3;
     rq_qos := q; rq_error := 0; rq_packet_id := 0; rq_state := MSG_STATE_CONNECT; rq_complete := 7;
     rq_status := 0 |}.

Definition start (q : Z) (l : list Z) : client :=
  mqtt_init {| mc_net := {| st_in := l; st_out := [] |}; mc_sem_send := 0; mc_event := true;
    mc_msgcb := true; mc_msg_mtx := 0; mc_msg_list := []; mc_next_id := 0; mc_mtx := 0; mc_connected := 0;
    mc_mem := {[ 16 := req q ]}; mc_log := [] |}.

Lemma req_publishes q : publishes (req q) q [97; 47; 98] [104; 105].
Proof.
  constructor; try done; [by exists []|by exists []|..]; try (simpl; lia); repeat constructor; lia.
Qed.

Lemma poll_advances_one_witness :
  idle (start 0 []) ∧ outcome (λ '(_, c'), polled (start 0 []) c') (mqtt_poll (start 0 [])).
Proof. split; [done|]. apply poll_advances_one. done. Defined.

Lemma requests_release_witness :
  ∃ v, mqtt_publish 16 (start 1 []) = Ok v ∧ v.1 = -1 ∧ mc_msg_list v.2 = [] ∧ idle v.2.
Proof.
  destruct (requests_release 16 (req 1) 0 (start 1 [])) as (_ & _ & Hp & _); [done|by vm_compute; inversion 1|].
  destruct (mqtt_publish 16 (start 1 [])) as [v|e] eqn:E; [|by vm_compute in E].
  exists v. split; [done|]. split; [by vm_compute in E; injection E as <-|]. split; apply Hp.
Defined.

(** Two unrelated packets, then the handshake of quality 2. *)
Lemma publish_delivers_witness :
  let c := start 2 (noise 2 ++ acks 2 1 ++ [9]) in
  ∃ c', mqtt_publish 16 c = Ok (0, c') ∧ mc_msg_list c' = [] ∧
    mc_net c' = {| st_in := [9]; st_out := [52; 9; 0; 3; 97; 47; 98; 0; 1; 104; 105; 0x62; 2; 0; 1] |}.
Proof.
  intros c.
  destruct (publish_delivers 16 c (req 2) 2 [97; 47; 98] [104; 105] 2 [9]) as (_ & c' & E & _ & Hl & Hn);
    [done|done|done|apply req_publishes|by right|done|simpl; lia|done|].
  exists c'. split; [exact E|]. split; [exact Hl|]. exact Hn.
Defined.

(** After packet 65535 the identifier wraps to 0, which MQTT forbids: what is sent next
    is no PUBLISH packet. *)
Lemma zero_identifier :
  ∃ c1 c2 p, mqtt_publish 16 (set_next_id 65535 (start 1 (acks 1 65535 ++ acks 1 0))) = Ok (0, c1) ∧
    mqtt_publish 16 c1 = Ok (0, c2) ∧ st_out (mc_net c2) = st_out (mc_net c1) ++ p ∧ Ref.parse_publish p = None.
Proof.
  eexists _, _, [50; 9; 0; 3; 97; 47; 98; 0; 0; 104; 105].
  split; [vm_compute; reflexivity|]. split; [vm_compute; reflexivity|]. split; by vm_compute.
Qed.

Lemma publish_quality0_shifted_witness :
  ∃ p, mqtt_publish 16 (start 0 []) = Ok (0, on_stream (put_out p) (start 0 [])) ∧
       Ref.parse_publish p = Some (0, [97; 47; 98], None, [0; 0; 104; 105]).
Proof. apply (publish_quality0_shifted 16 (start 0 []) (req 0)); [done|done|apply req_publishes]. Defined.

Lemma publish_received_witness :
  let c := start 0 (Ref.publish 1 [97; 47; 98] (Some 258) [104; 105]) in
  mqtt_poll c = Ok (0, on_stream (λ s, {| st_in := []; st_out := st_out s ++ [0x40; 2; 1; 2] |})
    (add_log (Message (Some [97; 47; 98]) (Some [104; 105]) 258) c)).
Proof.
  intros c. apply (publish_received 1 [97; 47; 98] 258 [104; 105] [] c);
    [done|done|by left|repeat constructor; lia|repeat constructor; lia|lia|simpl; lia|done].
Defined.

Lemma quality0_received_short_witness :
  let c := start 0 (Ref.publish 0 [97; 47; 98] None [104; 105; 33]) in
  mqtt_poll c = Ok (0, on_stream (cut_in []) (add_log (Message (Some [97; 47; 98]) (Some [104]) 0) c)).
Proof.
  intros c. apply (quality0_received_short [97; 47; 98] [104] 105 33 [] c);
    [done|done|repeat constructor; lia|repeat constructor; lia|simpl; lia|done].
Defined.

Lemma publish_overflow_witness :
  mqtt_poll (start 0 ([48; 127] ++ replicate 127 0 ++ [])) = Err Fault.
Proof.
  apply (publish_overflow 48 (replicate 127 0) []);
    [by exists 0|rewrite length_replicate; lia|apply Forall_replicate; lia|done].
Defined.

End Demo.
